(* ===== verification/_CoqProject ===== *)
-Q . S2P
Prelude.v
GoStrings.v
Errors.v
Resource.v
Configuration.v
Libs.v
Indexers.v
Store.v
MemoryStore.v
MemoryQueries.v
EventBus.v
Informer.v
Watching.v
Counter.v
Versioning.v
Runtime.v
Gorm.v
Database.v
ConnectionPool.v
GormStore.v
GormWrites.v
GormQueries.v
Lock.v
Leader.v
Terms.v
Startup.v
Queries.v
Subscribers.v
RegistryEvents.v
Settling.v
Instances.v
InstanceJoin.v
ApplicationCounts.v
ServiceCatalog.v
Json.v
NacosServices.v
RegistrySync.v
ZkRegistry.v
ZkMirror.v
NacosWatch.v
NacosConfigs.v
ZkWatcher.v
ZkSettling.v
ZkListerWatch.v
LifecycleEvents.v
RuleService.v
Manager.v
RuleCodec.v
ConditionExpr.v
ServiceMethods.v
GenericArgs.v
GenericInvoke.v
ServiceConfig.v
ServiceSettings.v
ConsoleViews.v
ConsoleQueries.v
ApplicationGraph.v
ServicePages.v
AppSettings.v
AppReadBack.v
RuleSearches.v
Http.v
RuleHandlers.v
VersionHandlers.v
Overview.v
PodInstances.v
EventTimeline.v
SettingsRequests.v
QueryValues.v
Dashboards.v
Metrics.v
ReadRequests.v
ZkGovernor.v
NacosGovernor.v
Crypto.v
OAuthStore.v
AuthProviders.v
Login.v
LoginSafety.v
