(* ===== verification/Prelude.v ===== *)
(** * dubbo-admin: verification development

    dubbo-admin is a control plane for Dubbo meshes. Registries and Kubernetes
    are listed and watched; informers put what they report into one resource
    store per kind and send change events over an event bus; subscribers
    derive further resources and counters from the events; the console lets
    users edit rules, which a governor writes to the registry of a mesh and
    the version history records. Several replicas may share one database, with
    a lock table for rule edits and a lease table for leader election.

    The development models these parts as executable definitions, one file per
    part, named after the Go functions they translate. A struct is a Record, a
    pointer that may be nil an option, a map a [gmap], a mutable object that is
    passed around the explicit state of the operations. Errors are values: a
    function with an error result returns [result] or a pair with an
    [option error]; a panic is a [None] of its own where the code can panic.
    [int], [int32] and [int64] are [Z], wrapped with [i64] or [i32] where the
    code adds or multiplies them. Code behind client libraries is a parameter
    (a class with laws) and each class has an instance that satisfies it.

    ** Foundations
    - [Prelude] : results, integers, ranges over maps, string sorting.
    - [GoStrings] : strings.* and strconv as the code uses them; [Json] :
      encoding/json and the floats of strconv. The parser has
      one more than twice the length of the text as fuel, since a character
      accounts for at most two of its calls.
    - [Errors] : pkg/common/bizerror, errors.Is, fmt.Errorf.
    - [Resource] : pkg/core/resource/model and the specs of api/mesh/v1alpha1
      that the modelled code inspects; resource keys.
    - [Configuration] : pkg/config, how the configuration is loaded, completed
      and validated; what loads is valid.
    - [Libs] : client-go's thread safe indexer and go-radix, as interfaces
      with laws and reference instances.

    ** Stores
    - [Indexers] : pkg/core/store/index; [Store] : pkg/core/store/store.go, the
      contract of a store as a class, with a reference store; [Queries] : what
      a list by indexes answers, as a law of stores.
    - [MemoryStore], [MemoryQueries] : pkg/store/memory/store.go. Every store
      reachable by its operations keeps client-go's indexer and the prefix
      trees in agreement with its items, and a query answers with exactly the
      resources that satisfy all conditions, sorted by key; a query by prefix
      where no resource has a separator in the index it asks for.
    - [Gorm], [Database] : the statements GORM runs on one table and on the
      tables of a resource store, with transactions, as classes.
    - [GormStore], [GormWrites], [GormQueries] : pkg/store/dbcommon. A write
      changes the row and the index entries of its resource or nothing,
      whatever statement fails; a successful write is the write of the
      reference store; queries answer as the in-memory store does; starting on
      an existing database rebuilds the entries; pages cut the sorted list.
    - [ConnectionPool] : connection_pool.go of the same package.

    ** Events
    - [EventBus] : pkg/core/events, the bus with its drainers as a step
      relation: events of an asynchronous subscriber arrive in the order sent,
      shutdown delivers what was accepted.
    - [Informer] : pkg/core/controller/informer.go, [HandleDeltas] refines the
      replay of the deltas on a plain map. [Run] has two critical sections, and
      calls that overlap between them give an informer two controllers.
    - [Counter] : pkg/console/counter, counters equal the population of the
      stores after any sequence of events.

    ** Discovery
    - [Subscribers] : what the subscribers of the bus share, a state and error
      monad over the stores by kind and the log of the events sent.
      [Settling] : the channel of one subscriber, of any size, which drops what
      does not fit, and its goroutine, which takes an event, reads its source
      and writes in steps of its own; when a derived store that is brought up
      to date in this way comes to rest, and for what it is then right.
    - [RegistryEvents], [NacosServices], [RegistrySync] :
      pkg/core/discovery/subscriber/nacos_service.go; after a report of an
      application by Nacos the store has exactly its instances.
    - [ZkRegistry], [ZkMirror] : zk_config.go, zk_metadata.go and the readers
      of their documents; the store of rules follows the rule nodes of
      ZooKeeper, and its metadata nodes make the catalogue settle.
    - [Watching], [NacosWatch], [NacosConfigs] : pkg/discovery/nacos2, the
      turns over the services and documents of Nacos; what is watched and
      stored after a turn is what Nacos lists, as far as no report of a service
      comes while its subscription ends. A loop over pages has one unit of fuel
      per page, and a page that is not the last is full.
    - [ZkWatcher], [ZkSettling], [ZkListerWatch] : pkg/discovery/zk, the
      goroutines of the recursive watcher as steps that interleave with those
      of the nodes' writers; when nodes change one at a time the watcher
      settles, every node is watched and the events sent give the tree. A
      listing has one unit of fuel per level of the tree.
    - [LifecycleEvents] : lifecycle_event.go, under which name and in which
      mesh an event of Kubernetes is filed. The object of a store that the
      handler changes in place is the parameter [touch]; the theorems hold of
      stores that keep copies and of those that keep the object itself.
    - [PodInstances] : pkg/engine/kubernetes/listerwatcher, what a pod becomes
      and in which state it is shown. Reading labels, statuses and probes is
      modelled, the watching of the API server is not.
    - [Instances], [InstanceJoin], [ApplicationCounts] : rpc_instance.go,
      runtime_instance.go and instance.go; whatever the order of events, the
      instances are the join of registrations and workloads, and the counts of
      applications settle but for what the full channel dropped.
    - [ServiceCatalog] : service_provider_metadata.go; the catalogue of
      services settles on what the providers publish, likewise. The theorems
      start from empty stores and let nobody else write the derived kinds; keys
      must not contain their separators. The metadata of a consumer always has a spec.

    ** Coordination
    - [Lock] : pkg/lock/gorm, goroutines of several replicas interleave their
      statements; at most one of them is inside while its lease lasts.
    - [Leader] : pkg/core/leader, likewise for the lease of a component; the
      callbacks of the loop alternate.
    - [Terms] : the discovery and the engine component, what their callbacks
      start and stop in a term of leadership, with the goroutines of the
      informers as steps, two for a call of [Run]: informers run only while the
      replica leads, with at most one controller per term, and do not run again
      when it regains the leadership after they had started.
    - [Runtime] : pkg/core/runtime and pkg/core/bootstrap, the topological
      sort (Kahn's algorithm) and the cycle report, components start after
      what they depend on. [kahn] runs with one unit of fuel per component,
      which every round consumes by emitting one; [findCycle] with one more
      than the number of components, since a path cannot be longer.
    - [Startup] : how every component is initialized from the configuration
      and the bootstrap wires the process; what the registered factories make
      is a parameter.

    ** Rules
    - [Versioning] : pkg/core/versioning, numbering, trimming, diffs and the
      recording of rules that exist at the start; insertions of other replicas
      may come between the attempts.
    - [Manager], [RuleCodec], [RuleService] : pkg/core/manager and governor,
      router_rule_codec.go, pkg/console/service/rule_version.go: edits are
      recorded, rollbacks restore the spec of a version.
    - [ZkGovernor] : pkg/governor/zk, an instance of the write half of the
      manager that [ServiceSettings] is proved against. [NacosGovernor] :
      pkg/governor/nacos2, publication to Nacos and the update of the store
      by what Nacos then answers.

    ** Console
    - [ConditionExpr] : the expressions of condition_rule.go;
      [ServiceMethods], [ServiceConfig], [ServiceSettings] :
      pkg/console/service/service.go. Settings read back as written where the
      code allows it; the theorems on retries, argument routes and baselines
      state what it does otherwise. [collectRelatedTypes] has one unit of fuel
      more than there are types, and each call of positive depth adds one.
    - [ConsoleViews], [ConsoleQueries], [ApplicationGraph] : the searches,
      details and graph of pkg/console/service/application.go, instance.go and
      service.go, against the read half of the manager as a class with laws.
    - [ServicePages] : the page of a service, its details, its graph and the
      instances of its providers.
    - [AppSettings], [AppReadBack] : the settings of applications and
      instances of the same files; what is set is what is read.
    - [RuleSearches], [Http], [RuleHandlers], [VersionHandlers] : the pages of
      rules and the requests on rules and their versions, with all the
      responses a request gets; what is answered is what was done.
    - [SettingsRequests] : the requests that set a setting and those that read
      it; what is set with success is what the next page shows. [ReadRequests] :
      the requests for lists, details, graphs and events.
    - [QueryValues] : the queries of net/url; what is encoded is parsed.
      [Dashboards] : the links to Grafana; the requests for a link share the
      configured URL and change it. They are served one after the other: what
      their race on the URL may do is not modelled.
    - [Metrics] : the metrics of an instance, read from the text format of
      Prometheus.
    - [Overview] : the global search and the first page.
    - [EventTimeline] : pkg/console/service/event.go, the events of an
      application, an instance or a service, and their pages.
    - [GenericArgs], [GenericInvoke] : service_generic_invoke.go and its
      decoding of arguments, by declared type; targets are tried in order. The
      decoder of nested arrays has one unit of fuel more than the type name has
      characters, and every array level shortens the name.
    - [Crypto] : the parts of crypto/* and encoding/base64 the login uses;
      [OAuthStore], [AuthProviders], [Login], [LoginSafety] :
      pkg/console/auth and handler/auth.go. Sessions are granted only for the
      configured password or an authenticated callback of a login the console
      opened, each used at most once. The expiry loop has the length of the
      queue as fuel, since each round removes an entry.

    ** Not modelled
    - Input and output: the clients of ZooKeeper, Nacos, Kubernetes and
      Grafana, the scheduler of the turns and the reflectors that feed the
      informers, HTTP routing and the binding of requests, logging, the files
      of the configuration, the user interface.
    - The list of the meshes and the proxy to Prometheus; the servers and
      tickers that components start.
    - Generated code: protobuf types, resource accessors, deep copies; the
      resources are the records of [Resource].
    - Time is an argument (a [Z] of the unit the code compares in), random
      bytes and network answers are too; the runtime's goroutines are the
      interleavings of the step relations, not a memory model. *)

From stdpp Require Export base option list fin_maps gmap sets strings sorting pretty.
From Stdlib Require Export ZArith Lia.


(** ** Results of fallible Go functions

    A Go function returning [(T, error)] is a function into [result E T]; the
    early [return nil, err] of the code is the bind of the monad. *)
Inductive result (E A : Type) : Type :=
| Ok (a : A)
| Err (e : E).
Arguments Ok {E A} a.
Arguments Err {E A} e.

#[export] Instance result_ret {E} : MRet (result E) := λ A a, Ok a.
#[export] Instance result_bind {E} : MBind (result E) := λ A B f r,
  match r with Ok a => f a | Err e => Err e end.
#[export] Instance result_fmap {E} : FMap (result E) := λ A B f r,
  match r with Ok a => Ok (f a) | Err e => Err e end.

Definition is_ok {E A} (r : result E A) : bool :=
  match r with Ok _ => true | Err _ => false end.

(** [for _, x := range l { if err := f(x); err != nil { return err } }]
    collecting the values. *)
Fixpoint result_mapM {E A B} (f : A → result E B) (l : list A) : result E (list B) :=
  match l with
  | [] => Ok []
  | x :: l => y ← f x; ys ← result_mapM f l; Ok (y :: ys)
  end.

#[export] Instance Ok_inj {E A} : Inj (=) (=) (@Ok E A).
Proof. by intros ?? [= ->]. Qed.
#[export] Instance Err_inj {E A} : Inj (=) (=) (@Err E A).
Proof. by intros ?? [= ->]. Qed.

Lemma bind_Ok {E A B} (f : A → result E B) (r : result E A) b :
  r ≫= f = Ok b ↔ ∃ a, r = Ok a ∧ f a = Ok b.
Proof. destruct r; naive_solver. Qed.

Lemma bind_Err {E A B} (f : A → result E B) (r : result E A) e :
  r ≫= f = Err e ↔ r = Err e ∨ ∃ a, r = Ok a ∧ f a = Err e.
Proof. destruct r; naive_solver. Qed.

Lemma result_mapM_Ok {E A B} (f : A → result E B) l k :
  result_mapM f l = Ok k ↔ Forall2 (λ x y, f x = Ok y) l k.
Proof.
  revert k. induction l as [|x l IH]; intros k; simpl.
  - split; [intros [= <-]; constructor | by inversion 1].
  - split.
    + intros (y & Hy & (ys & Hys & [= <-])%bind_Ok)%bind_Ok.
      constructor; [done | by apply IH].
    + inversion 1 as [|? y ? ys Hy Hys]; simplify_eq.
      rewrite Hy. simpl. apply IH in Hys. by rewrite Hys.
Qed.

(** Reduce the binds of a hypothesis of the form [m ≫= f = Ok _]. *)
Ltac inv_bind :=
  repeat match goal with
  | H : _ ≫= _ = Ok _ |- _ =>
      apply bind_Ok in H; destruct H as (? & ? & H); simpl in H
  | H : Ok _ = Ok _ |- _ => injection H as H; simplify_eq
  | H : Ok _ = Err _ |- _ => discriminate H
  | H : Err _ = Ok _ |- _ => discriminate H
  end.

(** ** Machine integers

    Go's [int64] (and [int] on the 64-bit platforms the code runs on) wraps
    around modulo [2^64]. *)
Definition i64_min : Z := -9223372036854775808.
Definition i64_max : Z := 9223372036854775807.
Definition i64 (z : Z) : Z :=
  (z + 9223372036854775808) `mod` 18446744073709551616 - 9223372036854775808.
Definition in_i64 (z : Z) : Prop := (i64_min ≤ z ≤ i64_max)%Z.

Lemma i64_id z : in_i64 z → i64 z = z.
Proof.
  unfold in_i64, i64_min, i64_max, i64. intros H.
  rewrite Z.mod_small; lia.
Qed.

Lemma i64_range z : in_i64 (i64 z).
Proof.
  unfold in_i64, i64_min, i64_max, i64.
  pose proof (Z.mod_pos_bound (z + 9223372036854775808) 18446744073709551616).
  lia.
Qed.

(** A sum that exceeds the range wraps to a negative number. *)
Lemma i64_overflow z : (i64_max < z < 18446744073709551616)%Z → (i64 z < 0)%Z.
Proof.
  unfold i64_max, i64. intros Hz.
  rewrite <-(Z.mod_unique_pos (z + 9223372036854775808) 18446744073709551616 1
    (z + 9223372036854775808 - 18446744073709551616)); lia.
Qed.

Lemma i64_idemp_add z w : i64 (i64 z + w) = i64 (z + w).
Proof.
  unfold i64. f_equal.
  set (m := 18446744073709551616%Z). set (h := 9223372036854775808%Z).
  replace ((z + h) `mod` m - h + w + h)%Z with ((z + h) `mod` m + w)%Z by lia.
  rewrite Zplus_mod_idemp_l. f_equal. lia.
Qed.

(** ** Iterating over a Go map

    [for k, v := range m] visits the entries of [m] in an unspecified order.
    The order is a parameter: every theorem holds for any order that visits
    each entry exactly once. *)
Class MapRange := {
  go_range {V : Type} : gmap string V → list (string * V);
  go_range_perm {V : Type} (m : gmap string V) : go_range m ≡ₚ map_to_list m;
}.

(** The order in which [map_to_list] enumerates, for concrete evaluations. *)
#[global] Instance default_range : MapRange := {
  go_range := λ V m, map_to_list m;
  go_range_perm := λ V m, reflexivity (map_to_list m);
}.
#[global] Remove Hints default_range : typeclass_instances.

Section range.
Context `{MapRange}.

Lemma elem_of_go_range {V} (m : gmap string V) k v :
  (k, v) ∈ go_range m ↔ m !! k = Some v.
Proof. by rewrite go_range_perm, elem_of_map_to_list. Qed.

Lemma NoDup_go_range_fst {V} (m : gmap string V) : NoDup (go_range m).*1.
Proof.
  assert (Hp : (go_range m).*1 ≡ₚ (map_to_list m).*1) by (by rewrite go_range_perm).
  rewrite Hp. apply NoDup_fst_map_to_list.
Qed.

Lemma NoDup_go_range {V} (m : gmap string V) : NoDup (go_range m).
Proof. rewrite go_range_perm. apply NoDup_map_to_list. Qed.

Lemma list_to_map_go_range {V} (m : gmap string V) :
  (list_to_map (go_range m) : gmap string V) = m.
Proof.
  transitivity (list_to_map (map_to_list m) : gmap string V);
    [|apply list_to_map_to_list].
  apply list_to_map_proper; [apply NoDup_go_range_fst | apply go_range_perm].
Qed.

Lemma length_go_range {V} (m : gmap string V) : length (go_range m) = size m.
Proof. by rewrite go_range_perm, length_map_to_list. Qed.
End range.

(** A loop over the entries of a map that rewrites the entry of another map at
    the visited key. *)
Lemma foldl_alter_lookup {V W} (g : W → V → V) (l : list (string * W)) (m : gmap string V) n :
  NoDup l.*1 →
  foldl (λ m p, alter (g p.2) p.1 m) m l !! n =
  match (list_to_map l : gmap string W) !! n with
  | Some w => g w <$> m !! n
  | None => m !! n
  end.
Proof.
  revert m. induction l as [|[k w] l IH]; intros m; simpl; [done|].
  intros [Hk Hl]%NoDup_cons. rewrite IH by done.
  destruct (decide (k = n)) as [<-|Hne].
  - rewrite (not_elem_of_list_to_map_1 (M := gmap string) l k) by done.
    by rewrite lookup_insert_eq, lookup_alter_eq.
  - by rewrite lookup_insert_ne, lookup_alter_ne by done.
Qed.

(** A loop storing every entry of a list into a map. *)
Lemma foldl_insert_lookup {V} (l : list (string * V)) (m : gmap string V) k v :
  NoDup l.*1 →
  foldl (λ m p, <[p.1 := p.2]> m) m l !! k = Some v ↔
  (k, v) ∈ l ∨ k ∉ l.*1 ∧ m !! k = Some v.
Proof.
  revert m. induction l as [|[k' v'] l IH]; intros m; simpl; [set_solver|].
  intros [Hk Hl]%NoDup_cons. rewrite IH by done.
  rewrite lookup_insert_Some, !elem_of_cons. split.
  - intros [?|[Hn [[<- <-]|[? ?]]]]; [by auto|by auto|]. right. naive_solver.
  - intros [[[= -> ->]|?]|[Hn ?]]; [by auto|by auto|]. right. naive_solver.
Qed.

(** ** sort.Strings *)
Definition sort_strings (l : list string) : list string := merge_sort String.le l.

Lemma sort_strings_perm l : sort_strings l ≡ₚ l.
Proof. apply merge_sort_Permutation. Qed.

Lemma sort_strings_sorted l : StronglySorted String.le (sort_strings l).
Proof. apply (StronglySorted_merge_sort _). Qed.

Lemma elem_of_sort_strings l x : x ∈ sort_strings l ↔ x ∈ l.
Proof. by rewrite sort_strings_perm. Qed.

Lemma sort_strings_perm_eq l k : l ≡ₚ k → sort_strings l = sort_strings k.
Proof.
  intros Hp. apply (StronglySorted_unique String.le).
  - apply sort_strings_sorted.
  - apply sort_strings_sorted.
  - by rewrite !sort_strings_perm.
Qed.

Create HintDb dubbo.
#[export] Hint Resolve i64_range sort_strings_perm sort_strings_sorted : dubbo.
#[export] Hint Rewrite @elem_of_go_range @elem_of_sort_strings
  @length_go_range using typeclasses eauto : dubbo.
