(* ===== verification/GoStrings.v ===== *)
(** The functions of Go's [strings] package the code calls, on byte strings.
    A Go string is a sequence of bytes; [String.string] is the same with
    [ascii] for the bytes, so [len] is [String.length] and the comparison
    operators are [String.ltb] / [String.le]. *)
From S2P Require Import Prelude.
From Stdlib Require Import Ascii.

Open Scope string_scope.
#[local] Arguments String.append : simpl nomatch.

(** [strings.Index(s, sep)] for a one-byte separator; [None] is [-1]. *)
Fixpoint str_index (c : ascii) (s : string) : option nat :=
  match s with
  | EmptyString => None
  | String a s => if decide (a = c) then Some 0 else S <$> str_index c s
  end.

(** [s[:n]] and [s[n:]] for [n <= len(s)]. *)
Fixpoint str_take (n : nat) (s : string) : string :=
  match n, s with
  | S n, String a s => String a (str_take n s)
  | _, _ => EmptyString
  end.
Fixpoint str_drop (n : nat) (s : string) : string :=
  match n, s with
  | S n, String _ s => str_drop n s
  | _, _ => s
  end.

(** [strings.HasPrefix], [strings.HasSuffix]. *)
Definition has_prefix (s prefix : string) : bool := String.prefix prefix s.
Definition has_suffix (s suffix : string) : bool :=
  String.prefix (String.rev suffix) (String.rev s).

(** The UTF-8 encodings of the code points [unicode.IsSpace] accepts. *)
Definition space_runes : list string :=
  let b n := ascii_of_nat n in
  let r2 x y := String (b x) (String (b y) "") in
  let r3 x y z := String (b x) (String (b y) (String (b z) "")) in
  ((λ n, String (b n) "") <$> [9; 10; 11; 12; 13; 32]) ++
  [r2 194 133; r2 194 160; r3 225 154 128;
   r3 226 128 128; r3 226 128 129; r3 226 128 130; r3 226 128 131;
   r3 226 128 132; r3 226 128 133; r3 226 128 134; r3 226 128 135;
   r3 226 128 136; r3 226 128 137; r3 226 128 138; r3 226 128 168;
   r3 226 128 169; r3 226 128 175; r3 226 129 159; r3 227 128 128].

(** Remove one encoding out of [rs] at the start of [s]. *)
Fixpoint strip_one (rs : list string) (s : string) : option string :=
  match rs with
  | [] => None
  | r :: rs => if String.prefix r s then Some (str_drop (String.length r) s)
               else strip_one rs s
  end.

Fixpoint strip_all (fuel : nat) (rs : list string) (s : string) : string :=
  match fuel with
  | O => s
  | S fuel => match strip_one rs s with
              | Some s' => strip_all fuel rs s'
              | None => s
              end
  end.

(** [strings.TrimSpace]: the leading, then the trailing white space. Each
    step removes at least one byte, so [len(s)] steps are enough. *)
Definition trim_left (s : string) : string := strip_all (String.length s) space_runes s.
Definition trim_right (s : string) : string :=
  String.rev (strip_all (String.length s) (String.rev <$> space_runes) (String.rev s)).
Definition trim_space (s : string) : string := trim_right (trim_left s).

(** Is the byte [c] in [s]? *)
Fixpoint str_contains (c : ascii) (s : string) : bool :=
  match s with
  | EmptyString => false
  | String a s => if decide (a = c) then true else str_contains c s
  end.

Lemma str_app_nil_r (s : string) : s +:+ "" = s.
Proof. induction s; simpl; congruence. Qed.

Lemma str_app_assoc (a b c : string) : a +:+ (b +:+ c) = (a +:+ b) +:+ c.
Proof. induction a; simpl; congruence. Qed.

Lemma str_length_app (a b : string) :
  String.length (a +:+ b) = String.length a + String.length b.
Proof. induction a; simpl; congruence. Qed.

Lemma str_index_app_sep c (a b : string) :
  str_contains c a = false →
  str_index c (a +:+ String c b) = Some (String.length a).
Proof.
  induction a as [|x a IH]; simpl; [by rewrite decide_True|].
  intros H. case_decide; [done|]. by rewrite (IH H).
Qed.

Lemma str_take_app (a b : string) : str_take (String.length a) (a +:+ b) = a.
Proof. induction a; simpl; [by destruct b | congruence]. Qed.

Lemma str_drop_app (a b : string) : str_drop (String.length a) (a +:+ b) = b.
Proof. induction a; simpl; [by destruct b | congruence]. Qed.

Lemma str_drop_app_S (a b : string) c :
  str_drop (S (String.length a)) (a +:+ String c b) = b.
Proof. induction a as [|x a IH]; [by destruct b | exact IH]. Qed.

Lemma str_index_Some c s i :
  str_index c s = Some i →
  s = str_take i s +:+ String c (str_drop (S i) s) ∧
  str_contains c (str_take i s) = false.
Proof.
  revert i. induction s as [|a s IH]; intros i; simpl; [done|].
  case_decide as Ha; intros Hi; simplify_option_eq.
  - split; [by destruct s | done].
  - rename select nat into j. destruct (IH j) as [H1 H2]; [done|].
    split; [by f_equal/= | done].
Qed.

Lemma str_contains_app c (a b : string) :
  str_contains c (a +:+ b) = str_contains c a || str_contains c b.
Proof.
  induction a as [|x a IH]; [done|].
  change (String x a +:+ b) with (String x (a +:+ b)). simpl. by case_decide.
Qed.

Lemma str_index_None c s : str_index c s = None ↔ str_contains c s = false.
Proof.
  induction s as [|a s IH]; simpl; [done|].
  case_decide; [done|]. destruct (str_index c s); simpl; naive_solver.
Qed.

Lemma str_prefix_cons a b (p s : string) :
  String.prefix (String a p) (String b s) =
  if decide (a = b) then String.prefix p s else false.
Proof. reflexivity. Qed.

Lemma str_prefix_app (a b : string) : String.prefix a (a +:+ b) = true.
Proof.
  induction a as [|x a IH]; simpl; [by destruct b|].
  by destruct (ascii_dec x x).
Qed.

Lemma str_prefix_spec (p s : string) :
  String.prefix p s = true ↔ ∃ t, s = p +:+ t.
Proof.
  split; [|intros [t ->]; apply str_prefix_app].
  revert s. induction p as [|a p IH]; intros s; [by exists s|].
  destruct s as [|b s]; [done|]. rewrite str_prefix_cons. case_decide as Hab; [|done].
  subst b. intros (t & ->)%IH. by exists t.
Qed.

(** [str_app_inj] on the separator: the first [c] splits a string uniquely. *)
Lemma str_sep_inj c (a a' b b' : string) :
  str_contains c a = false → str_contains c a' = false →
  a +:+ String c b = a' +:+ String c b' → a = a' ∧ b = b'.
Proof.
  revert a'. induction a as [|x a IH]; intros [|y a']; simpl; intros Ha Ha' Heq;
    simplify_eq; [done|..].
  - by destruct (decide _).
  - by destruct (decide _).
  - case_decide; [done|]. by destruct (IH a') as [-> ->].
Qed.

(** ** Substrings

    [strings.Index(s, sep)], [strings.Contains] and [strings.Split] for a
    separator of any positive length. *)
Fixpoint str_find (sep s : string) : option nat :=
  if String.prefix sep s then Some 0
  else match s with
       | EmptyString => None
       | String _ s => S <$> str_find sep s
       end.

Definition str_has (s sub : string) : bool := bool_decide (is_Some (str_find sub s)).

(** Each piece but the last is followed by a separator, so [len(s)] cuts are
    enough. *)
Fixpoint split_fuel (fuel : nat) (sep s : string) : list string :=
  match fuel, str_find sep s with
  | S fuel, Some i => str_take i s :: split_fuel fuel sep (str_drop (i + String.length sep) s)
  | _, _ => [s]
  end.
Definition str_split (sep s : string) : list string := split_fuel (String.length s) sep s.

Fixpoint str_join (sep : string) (l : list string) : string :=
  match l with
  | [] => ""
  | [s] => s
  | s :: l => s +:+ sep +:+ str_join sep l
  end.

(** [strings.TrimPrefix]. *)
Definition trim_prefix (s prefix : string) : string :=
  if has_prefix s prefix then str_drop (String.length prefix) s else s.

(** [unicode.IsUpper], [unicode.IsLower] and [unicode.ToLower] on ASCII. *)
Definition is_upper (c : ascii) : bool := bool_decide (65 <= Z.of_nat (nat_of_ascii c) <= 90)%Z.
Definition is_lower (c : ascii) : bool := bool_decide (97 <= Z.of_nat (nat_of_ascii c) <= 122)%Z.
Definition to_lower (c : ascii) : ascii :=
  if is_upper c then ascii_of_nat (nat_of_ascii c + 32) else c.

(** [strings.ToLower] on ASCII. *)
Fixpoint str_lower (s : string) : string :=
  match s with EmptyString => EmptyString | String c s => String (to_lower c) (str_lower s) end.

(** ** Texts without white space at their ends

    Printable ASCII without blanks. *)
Definition graphic (c : ascii) : bool :=
  let n := nat_of_ascii c in (33 <=? n)%nat && (n <=? 126)%nat.
Fixpoint str_all (p : ascii → bool) (s : string) : bool :=
  match s with EmptyString => true | String c s => p c && str_all p s end.

Lemma str_all_app p a b : str_all p (a +:+ b) = str_all p a && str_all p b.
Proof. induction a as [|c a IH]; [done|]. change ((String c a) +:+ b) with (String c (a +:+ b)).
  simpl. by rewrite IH, andb_assoc. Qed.

Lemma str_all_impl (p q : ascii → bool) s :
  (∀ c, p c = true → q c = true) → str_all p s = true → str_all q s = true.
Proof.
  intros Hpq. induction s as [|c s IH]; simpl; [done|].
  intros [Hc Hs]%andb_true_iff. by rewrite Hpq, IH.
Qed.

Lemma str_all_contains p c s : p c = false → str_all p s = true → str_contains c s = false.
Proof.
  intros Hp. induction s as [|d s IH]; simpl; [done|].
  intros [Hd Hs]%andb_true_iff. case_decide as Hc; [|by apply IH]. subst. congruence.
Qed.

Lemma rev_app_spec s t : String.rev_app s t = String.rev s +:+ t.
Proof.
  unfold String.rev. revert t. induction s as [|c s IH]; intros t; [done|]. simpl.
  rewrite IH, (IH (String c "")), <-str_app_assoc. done.
Qed.
Lemma rev_cons c s : String.rev (String c s) = String.rev s +:+ String c "".
Proof. unfold String.rev at 1. simpl. apply rev_app_spec. Qed.
Lemma rev_snoc s c : String.rev (s +:+ String c "") = String c (String.rev s).
Proof.
  induction s as [|d s IH]; [done|].
  change ((String d s) +:+ String c "") with (String d (s +:+ String c "")).
  rewrite !rev_cons, IH. done.
Qed.

Lemma has_suffix_snoc s c : has_suffix (s +:+ String c "") (String c "") = true.
Proof.
  unfold has_suffix. rewrite rev_snoc. change (String.rev (String c "")) with (String c "").
  apply str_prefix_spec. by exists (String.rev s).
Qed.
Lemma rev_involutive s : String.rev (String.rev s) = s.
Proof. induction s as [|c s IH]; [done|]. by rewrite rev_cons, rev_snoc, IH. Qed.
Lemma rev_length s : String.length (String.rev s) = String.length s.
Proof.
  induction s as [|c s IH]; [done|]. rewrite rev_cons, str_length_app, IH. simpl. lia.
Qed.

Lemma strip_graphic c s :
  graphic c = true →
  strip_one space_runes (String c s) = None ∧
  strip_one (String.rev <$> space_runes) (String c s) = None.
Proof. destruct c as [[] [] [] [] [] [] [] []]; vm_compute; intros Hc; done. Qed.

Lemma strip_blank s :
  strip_one space_runes (String " " s) = Some s ∧
  strip_one (String.rev <$> space_runes) (String " " s) = Some s.
Proof. by destruct s. Qed.

(** The first, and the last, byte of [s] is graphic. *)
Definition starts (s : string) : Prop := ∃ c t, s = String c t ∧ graphic c = true.
Definition ends (s : string) : Prop := ∃ t c, s = t +:+ String c "" ∧ graphic c = true.

Lemma strip_all_none f rs s : strip_one rs s = None → strip_all f rs s = s.
Proof. intros Hs. destruct f; simpl; by rewrite ?Hs. Qed.

Lemma trim_left_starts s : starts s → trim_left s = s.
Proof. intros (c & t & -> & Hc). apply strip_all_none. exact (proj1 (strip_graphic c t Hc)). Qed.
Lemma trim_left_blank s : trim_left (String " " s) = trim_left s.
Proof.
  unfold trim_left. cbn [String.length strip_all]. by rewrite (proj1 (strip_blank s)).
Qed.
Lemma trim_right_ends s : ends s → trim_right s = s.
Proof.
  intros (t & c & -> & Hc). unfold trim_right. rewrite rev_snoc.
  rewrite strip_all_none by exact (proj2 (strip_graphic c _ Hc)). rewrite <-rev_snoc. apply rev_involutive.
Qed.
Lemma trim_right_blank s : trim_right (s +:+ " ") = trim_right s.
Proof.
  unfold trim_right. rewrite rev_snoc, str_length_app, Nat.add_comm. simpl String.length.
  cbn [strip_all Nat.add]. by rewrite (proj2 (strip_blank _)).
Qed.

Lemma starts_app a b : starts a → starts (a +:+ b).
Proof. intros (c & t & -> & Hc). by exists c, (t +:+ b). Qed.
Lemma ends_app a b : ends b → ends (a +:+ b).
Proof. intros (t & c & -> & Hc). exists (a +:+ t), c. by rewrite str_app_assoc. Qed.

Lemma graphic_starts s : s ≠ "" → str_all graphic s = true → starts s.
Proof. destruct s as [|c s]; [done|]. intros _ [Hc _]%andb_true_iff. by exists c, s. Qed.
Lemma graphic_ends s : s ≠ "" → str_all graphic s = true → ends s.
Proof.
  induction s as [|c s IH]; [done|]. intros _ [Hc Hs]%andb_true_iff.
  destruct s as [|d s]; [by exists "", c|]. destruct IH as (t & e & Ht & He); [done..|].
  exists (String c t), e. split; [by rewrite Ht|done].
Qed.

Lemma trim_tidy s : starts s → ends s → trim_space s = s.
Proof. intros Hs He. unfold trim_space. by rewrite trim_left_starts, trim_right_ends. Qed.
Lemma trim_tidy_right s : starts s → ends s → trim_space (s +:+ " ") = s.
Proof.
  intros Hs He. unfold trim_space. rewrite trim_left_starts by by apply starts_app.
  rewrite trim_right_blank. by apply trim_right_ends.
Qed.
Lemma trim_blank_left s : trim_space (String " " s) = trim_space s.
Proof. unfold trim_space. by rewrite trim_left_blank. Qed.

(** ** Decimal integers

    [strconv.ParseInt(s, 10, 64)] and [strconv.Atoi]; [None] is any error.
    [strconv.Itoa] is [pretty]. *)
#[local] Open Scope Z_scope.
Fixpoint parse_digits (s : string) (acc : Z) : option Z :=
  match s with
  | EmptyString => Some acc
  | String c s =>
      let d := Z.of_nat (nat_of_ascii c) - 48 in
      if decide (0 <= d <= 9) then parse_digits s (acc * 10 + d) else None
  end.
Definition ParseInt (s : string) : option Z :=
  let '(sign, digits) :=
    match s with
    | String "-" d => (-1, d)
    | String "+" d => (1, d)
    | _ => (1, s)
    end%char in
  if decide (digits = "") then None
  else n ← parse_digits digits 0;
       if decide (i64_min <= sign * n <= i64_max) then Some (sign * n) else None.

Lemma digit_char (d : N) : (d < 10)%N → Z.of_nat (nat_of_ascii (pretty_N_char d)) - 48 = Z.of_N d.
Proof.
  intros Hd. assert (d = 0 ∨ d = 1 ∨ d = 2 ∨ d = 3 ∨ d = 4 ∨ d = 5 ∨ d = 6 ∨ d = 7 ∨ d = 8 ∨ d = 9)%N
    as Hc by lia. destruct_or! Hc; by subst.
Qed.

Lemma parse_pretty_go (x : N) s : parse_digits (pretty_N_go x s) 0 = parse_digits s (Z.of_N x).
Proof.
  revert s. induction (N.lt_wf_0 x) as [x _ IH]. intros s.
  destruct (decide (x = 0%N)) as [->|Hx]; [by rewrite pretty_N_go_0|].
  rewrite pretty_N_go_step by lia. rewrite IH by (apply N.div_lt; lia).
  cbn [parse_digits].
  assert (x `mod` 10 < 10)%N as Hm by (apply N.mod_lt; lia). rewrite digit_char by lia.
  rewrite decide_True by (split; [apply N2Z.is_nonneg | lia]). f_equal. rewrite (N.div_mod x 10) at 3 by lia. lia.
Qed.

Lemma pretty_N_parse (x : N) : parse_digits (pretty x) 0 = Some (Z.of_N x) ∧
  ∃ c s, pretty x = String c s ∧ 48 <= Z.of_nat (nat_of_ascii c).
Proof.
  assert (Hp : parse_digits (pretty x) 0 = Some (Z.of_N x)).
  { unfold pretty, pretty_N. destruct (decide (x = 0%N)) as [->|]; [done|]. apply parse_pretty_go. }
  split; [done|]. destruct (pretty x) as [|c s] eqn:Hs.
  - destruct x as [|p]; [done|]. by simplify_eq/=.
  - exists c, s. split; [done|]. simpl in Hp. by case_decide; [lia|].
Qed.

Lemma ParseInt_pretty_any z :
  ParseInt (pretty z) = if decide (i64_min <= z <= i64_max) then Some z else None.
Proof.
  unfold ParseInt.
  assert (Hpos : ∀ (x : N), ∃ c s, pretty x = String c s ∧ c ≠ "-"%char ∧ c ≠ "+"%char).
  { intros x. destruct (pretty_N_parse x) as (_ & c & s & Hs & Hc). exists c, s.
    split; [done|]. by split; intros ->. }
  assert (Hun : ∀ c s, c ≠ "-"%char → c ≠ "+"%char →
    (match String c s with String "-" d => (-1, d) | String "+" d => (1, d) | _ => (1, String c s) end)%char
    = (1, String c s)).
  { intros c s H1 H2. by destruct c as [[] [] [] [] [] [] [] []]. }
  destruct z as [|p|p].
  - done.
  - change (pretty (Z.pos p)) with (pretty (N.pos p)).
    destruct (pretty_N_parse (N.pos p)) as [Hp _]. destruct (Hpos (N.pos p)) as (c & s & Hs & ? & ?).
    rewrite Hs in *. rewrite Hun by done. rewrite decide_False by done. rewrite Hp. cbn [mbind option_bind].
    by rewrite Z.mul_1_l.
  - change (pretty (Z.neg p)) with ("-" +:+ pretty (N.pos p)).
    destruct (pretty_N_parse (N.pos p)) as [Hp _]. destruct (Hpos (N.pos p)) as (c & s & Hs & ? & ?).
    cbn [String.app]. simpl String.append. rewrite Hs in *. rewrite decide_False by done.
    by rewrite Hp.
Qed.

Lemma ParseInt_pretty z : in_i64 z → ParseInt (pretty z) = Some z.
Proof. intros Hz. rewrite ParseInt_pretty_any. by rewrite decide_True. Qed.

(** ** Pieces of a split *)
Lemma str_find_length sep s i :
  str_find sep s = Some i → (i + String.length sep ≤ String.length s)%nat.
Proof.
  revert i. induction s as [|c s IH]; intros i; cbn [str_find].
  - destruct sep; simpl; [by intros [= <-] | done].
  - destruct (String.prefix sep (String c s)) eqn:Hp.
    + intros [= <-]. apply str_prefix_spec in Hp as [t Ht].
      pose proof (f_equal String.length Ht) as Hl. rewrite str_length_app in Hl. simpl in *. lia.
    + destruct (str_find sep s) as [j|]; [|done]. intros [= <-]. specialize (IH j eq_refl). simpl. lia.
Qed.

Lemma str_drop_length n s : String.length (str_drop n s) = (String.length s - n)%nat.
Proof. revert s. induction n as [|n IH]; intros [|c s]; simpl; auto. Qed.

Lemma split_fuel_enough f f' sep s :
  sep ≠ "" → (String.length s ≤ f)%nat → (String.length s ≤ f')%nat →
  split_fuel f sep s = split_fuel f' sep s.
Proof.
  intros Hsep. revert f' s. induction f as [|f IH]; intros f' s Hf Hf'.
  - assert (s = "") as -> by (destruct s; simpl in Hf; [done|lia]).
    destruct f'; [done|]. simpl. destruct sep; [done|]. by simpl.
  - destruct f' as [|f'].
    { assert (s = "") as -> by (destruct s; simpl in Hf'; [done|lia]).
      simpl. destruct sep; [done|]. by simpl. }
    simpl. destruct (str_find sep s) as [i|] eqn:Hi; [|done]. f_equal.
    pose proof (str_find_length _ _ _ Hi). assert (0 < String.length sep)%nat by (destruct sep; simpl; [done|lia]).
    apply IH; rewrite str_drop_length; lia.
Qed.

Lemma str_split_cut sep a b :
  sep ≠ "" → str_find sep (a +:+ (sep +:+ b)) = Some (String.length a) →
  str_split sep (a +:+ (sep +:+ b)) = a :: str_split sep b.
Proof.
  intros Hsep Hf. unfold str_split.
  assert (0 < String.length sep)%nat by (destruct sep; simpl; [done|lia]).
  destruct (String.length (a +:+ (sep +:+ b))) as [|n] eqn:Hn; rewrite !str_length_app in Hn; [lia|].
  simpl. rewrite Hf, str_take_app. f_equal.
  replace (String.length a + String.length sep)%nat with (String.length (a +:+ sep)) by apply str_length_app.
  rewrite str_app_assoc, str_drop_app. apply split_fuel_enough; [done|lia..].
Qed.

Lemma str_split_whole sep s : str_find sep s = None → str_split sep s = [s].
Proof. intros Hf. unfold str_split. destruct (String.length s); simpl; by rewrite ?Hf. Qed.

(** With a separator of one character that is not in the first piece. *)
Lemma str_find_index c s : str_find (String c "") s = str_index c s.
Proof.
  induction s as [|d s IH]; [done|]. cbn [str_find str_index]. rewrite str_prefix_cons, IH.
  destruct (decide (c = d)) as [->|Hne]; [rewrite decide_True by done; by destruct s|]. by rewrite decide_False by congruence.
Qed.

Lemma str_split_char c a b : str_contains c a = false →
  str_split (String c "") (a +:+ String c b) = a :: str_split (String c "") b.
Proof.
  intros Ha. apply (str_split_cut (String c "") a b); [done|]. rewrite str_find_index. by apply str_index_app_sep.
Qed.

Lemma str_split_char_whole c s : str_contains c s = false → str_split (String c "") s = [s].
Proof. intros Hs. apply str_split_whole. rewrite str_find_index. by apply str_index_None. Qed.

(** Around a separator of one character anywhere. *)
Lemma str_split_char_app c a b :
  str_split (String c "") (a +:+ String c b) = (str_split (String c "") a ++ str_split (String c "") b)%list.
Proof.
  remember (String.length a) as n eqn:Hn. revert a Hn. induction (lt_wf n) as [n _ IH]; intros a ->.
  destruct (str_index c a) as [i|] eqn:Hi.
  - apply str_index_Some in Hi as [Ha Hc]. set (a1 := str_take i a) in *. set (a2 := str_drop (S i) a) in *. rewrite Ha.
    rewrite <-str_app_assoc. change (String c a2 +:+ String c b) with (String c (a2 +:+ String c b)).
    rewrite (str_split_char c a1 (a2 +:+ String c b)), (str_split_char c a1 a2) by done. cbn [app]. f_equal. apply (IH (String.length a2)); [|done].
    rewrite Ha, str_length_app. cbn. lia.
  - apply str_index_None in Hi. by rewrite str_split_char, (str_split_char_whole c a).
Qed.

Lemma str_split_nonempty sep s : str_split sep s ≠ [].
Proof. unfold str_split. destruct (String.length s); cbn; [done|]. by destruct (str_find sep s). Qed.

#[export] Hint Rewrite str_app_nil_r str_take_app str_drop_app str_drop_app_S : go_str.

Lemma str_split_join c l : l ≠ [] → Forall (λ s, str_contains c s = false) l →
  str_split (String c "") (str_join (String c "") l) = l.
Proof.
  intros Hne Hl. induction Hl as [|s l Hs Hl IH]; [done|]. destruct l as [|t l]; [by apply str_split_char_whole|].
  change (str_join (String c "") (s :: t :: l)) with (s +:+ String c (str_join (String c "") (t :: l))).
  rewrite str_split_char by done. by rewrite IH.
Qed.
