(* ===== verification/Errors.v ===== *)
(** Error values: [pkg/common/bizerror], the sentinels and the wrapped errors
    the code builds with [fmt.Errorf], and [errors.Is]. *)
From S2P Require Import Prelude.
From Stdlib Require Import Ascii.

Open Scope string_scope.

(** [bizerror.ErrorCode]: the codes of error.go. *)
Inductive ErrorCode :=
| InternalError | UnknownError | InvalidArgument | StoreError | AppNotFound
| Unauthorized | SessionError | DiscoveryError | ConfigError | NacosError
| ZKError | EventError | GovernorError | JsonError | YamlError | NotFoundError
| NetWorkError | LockNotHeld | LockExpired.

#[export] Instance ErrorCode_eq_dec : EqDecision ErrorCode.
Proof. solve_decision. Defined.

Definition error_code_string (c : ErrorCode) : string :=
  match c with
  | InternalError => "InternalError" | UnknownError => "UnknownError"
  | InvalidArgument => "InvalidArgument" | StoreError => "StoreError"
  | AppNotFound => "AppNotFound" | Unauthorized => "Unauthorized"
  | SessionError => "SessionError" | DiscoveryError => "DiscoveryError"
  | ConfigError => "ConfigError" | NacosError => "NacosError"
  | ZKError => "ZKError" | EventError => "EventError"
  | GovernorError => "GovernorError" | JsonError => "JsonError"
  | YamlError => "YamlError" | NotFoundError => "NotFoundError"
  | NetWorkError => "NetWorkError" | LockNotHeld => "LockNotHeld"
  | LockExpired => "LockExpired"
  end.

(** An [error] value. [ErrorText] is [errors.New] or [fmt.Errorf] without
    [%w] (a package-level sentinel is the constant of its name), [WrapError]
    is [fmt.Errorf] with one [%w]: its full text and the wrapped error;
    [BizError] is [*bizError]; [ConflictError] is [*ResourceConflictError] of
    pkg/core/store/store.go. *)
Inductive error :=
| ErrorText (text : string)
| WrapError (text : string) (wrapped : error)
| BizError (cause : option error) (code : ErrorCode) (message : string)
| ConflictError (msg rType name mesh : string).

#[export] Instance error_eq_dec : EqDecision error.
Proof.
  refine (fix go (x y : error) {struct x} : Decision (x = y) :=
    match x, y with
    | ErrorText a, ErrorText b => cast_if (decide (a = b))
    | WrapError a e, WrapError b f =>
        match go e f with
        | left H => cast_if (decide (a = b))
        | right H => right _
        end
    | BizError c a m, BizError d b n =>
        match c, d with
        | None, None => cast_if_and (decide (a = b)) (decide (m = n))
        | Some e, Some f =>
            match go e f with
            | left H => cast_if_and (decide (a = b)) (decide (m = n))
            | right H => right _
            end
        | _, _ => right _
        end
    | ConflictError a b c d, ConflictError a' b' c' d' =>
        cast_if_and4 (decide (a = a')) (decide (b = b')) (decide (c = c')) (decide (d = d'))
    | _, _ => right _
    end); abstract congruence.
Defined.

(** bizerror: [New], [Wrap], [NewAssertionError]. *)
Definition biz_new (code : ErrorCode) (message : string) : error :=
  BizError None code message.
Definition biz_wrap (cause : error) (code : ErrorCode) (message : string) : error :=
  BizError (Some cause) code message.
Definition NewAssertionError (expected actual : string) : error :=
  biz_new UnknownError
    ("type assertion error, expected:" +:+ expected +:+ ", actual:" +:+ actual).

(** [%q] of a string without characters that need escaping. *)
Definition go_quote (s : string) : string :=
  let q := String (ascii_of_nat 34) EmptyString in q +:+ s +:+ q.

(** The [Error()] method of each dynamic type. *)
Fixpoint error_string (e : error) : string :=
  match e with
  | ErrorText s => s
  | WrapError s _ => s
  | BizError cause code message =>
      let s := "[" +:+ error_code_string code +:+ "], " +:+ message in
      match cause with
      | Some c => s +:+ ", cause: " +:+ error_string c
      | None => s
      end
  | ConflictError msg rType name mesh =>
      msg +:+ ": type=" +:+ go_quote rType +:+ " name=" +:+ go_quote name
        +:+ " mesh=" +:+ go_quote mesh
  end.

(** [fmt.Errorf(pre + "%w" + post, e)]. *)
Definition errorf_w (pre : string) (e : error) (post : string) : error :=
  WrapError (pre +:+ error_string e +:+ post) e.

(** [errors.Is(err, target)] for a sentinel target: only [fmt.Errorf] wrappers
    implement [Unwrap]; [bizError] keeps its cause in a private field. *)
Fixpoint errors_is (e target : error) : bool :=
  if decide (e = target) then true
  else match e with
       | WrapError _ e' => errors_is e' target
       | _ => false
       end.

(** pkg/core/store/store.go. *)
Definition ErrorResourceAlreadyExists (rt name mesh : string) : error :=
  ConflictError "resource already exists" rt name mesh.
Definition ErrorResourceNotFound (rt name mesh : string) : error :=
  ErrorText ("resource not found: type=" +:+ go_quote rt +:+ " name=" +:+ go_quote name
    +:+ " mesh=" +:+ go_quote mesh).

Lemma errors_is_refl e : errors_is e e = true.
Proof. destruct e; simpl; by rewrite decide_True. Qed.

Lemma errors_is_errorf_w pre e post target :
  errors_is e target = true → errors_is (errorf_w pre e post) target = true.
Proof. intros H. unfold errorf_w. simpl. case_decide; done. Qed.

#[export] Hint Resolve errors_is_refl errors_is_errorf_w : dubbo.
