(* ===== verification/Resource.v ===== *)
(** pkg/core/resource: resource keys, paging, the resource types of
    pkg/core/resource/apis/mesh/v1alpha1 and their protobuf specs
    (api/mesh/v1alpha1). *)
From S2P Require Import Prelude GoStrings Errors.
From Stdlib Require Import Ascii.

Open Scope string_scope.

(** ** Resource keys (pkg/core/resource/model/resource.go) *)
Definition PathSeparator : Ascii.ascii := "/"%char.

Definition BuildResourceKey (mesh name : string) : string :=
  mesh +:+ String PathSeparator name.

Definition ParseResourceKey (resourceKey : string) : string * string :=
  match str_index PathSeparator resourceKey with
  | Some idx => (str_take idx resourceKey, str_drop (S idx) resourceKey)
  | None => ("", resourceKey)
  end.

(** A mesh or rule name without the separator. *)
Definition no_sep (s : string) : Prop := str_contains PathSeparator s = false.
#[export] Instance no_sep_dec s : Decision (no_sep s) := decide (_ = _).

Lemma ParseResourceKey_Build mesh name :
  no_sep mesh → ParseResourceKey (BuildResourceKey mesh name) = (mesh, name).
Proof.
  intros H. unfold ParseResourceKey, BuildResourceKey.
  rewrite str_index_app_sep by done. by autorewrite with go_str.
Qed.

Lemma BuildResourceKey_inj mesh mesh' name name' :
  no_sep mesh → no_sep mesh' →
  BuildResourceKey mesh name = BuildResourceKey mesh' name' →
  mesh = mesh' ∧ name = name'.
Proof. apply str_sep_inj. Qed.

Lemma Parse_BuildResourceKey key :
  str_contains PathSeparator key = true →
  BuildResourceKey (ParseResourceKey key).1 (ParseResourceKey key).2 = key.
Proof.
  intros H. unfold ParseResourceKey, BuildResourceKey.
  destruct (str_index PathSeparator key) as [i|] eqn:E.
  - cbn [fst snd]. symmetry. by apply str_index_Some in E as [? _].
  - apply str_index_None in E. congruence.
Qed.

(** ** Paging (pkg/core/resource/model/page.go) *)
Record PageReq := { PageOffset : Z; PageSize : Z }.
Record PageData (T : Type) := {
  pd_Total : Z; pd_PageOffset : Z; pd_PageSize : Z; pd_Data : list T }.
Arguments Build_PageData {T}.
Arguments pd_Total {T}. Arguments pd_PageOffset {T}.
Arguments pd_PageSize {T}. Arguments pd_Data {T}.

Definition NewPageData {T} (total pageOffset pageSize : Z) (data : list T) : PageData T :=
  {| pd_Total := total; pd_PageOffset := pageOffset; pd_PageSize := pageSize;
     pd_Data := data |}.

(** ** Kinds *)
Inductive ResourceKind :=
| ApplicationKind | ServiceKind | InstanceKind | RPCInstanceKind
| RuntimeInstanceKind | ServiceProviderMetadataKind | RuleVersionKind
| ConditionRouteKind | TagRouteKind | DynamicConfigKind
| AffinityRouteKind | ScriptRouteKind | LifecycleEventKind
| ServiceConsumerMetadataKind | NacosServiceKind | ZKConfigKind | ZKMetadataKind.

#[export] Instance ResourceKind_eq_dec : EqDecision ResourceKind.
Proof. solve_decision. Defined.

Definition kind_string (k : ResourceKind) : string :=
  match k with
  | ApplicationKind => "Application" | ServiceKind => "Service"
  | InstanceKind => "Instance" | RPCInstanceKind => "RPCInstance"
  | RuntimeInstanceKind => "RuntimeInstance"
  | ServiceProviderMetadataKind => "ServiceProviderMetadata"
  | RuleVersionKind => "RuleVersion" | ConditionRouteKind => "ConditionRoute"
  | TagRouteKind => "TagRoute" | DynamicConfigKind => "DynamicConfig"
  | AffinityRouteKind => "AffinityRoute" | ScriptRouteKind => "ScriptRoute"
  | LifecycleEventKind => "LifecycleEvent"
  | ServiceConsumerMetadataKind => "ServiceConsumerMetadata"
  | NacosServiceKind => "NacosService" | ZKConfigKind => "ZKConfig" | ZKMetadataKind => "ZKMetadata"
  end.

Definition all_kinds : list ResourceKind :=
  [ApplicationKind; ServiceKind; InstanceKind; RPCInstanceKind;
   RuntimeInstanceKind; ServiceProviderMetadataKind; RuleVersionKind;
   ConditionRouteKind; TagRouteKind; DynamicConfigKind; AffinityRouteKind;
   ScriptRouteKind; LifecycleEventKind; ServiceConsumerMetadataKind; NacosServiceKind;
   ZKConfigKind; ZKMetadataKind].

#[export] Instance kind_string_inj : Inj (=) (=) kind_string.
Proof. by intros [] []. Qed.

Lemma elem_of_all_kinds k : k ∈ all_kinds.
Proof. destruct k; unfold all_kinds; set_solver. Qed.

Definition kind_of_string (s : string) : option ResourceKind :=
  list_find (λ k, kind_string k = s) all_kinds ≫= λ p, Some p.2.

#[export] Instance ResourceKind_countable : Countable ResourceKind.
Proof.
  apply (inj_countable kind_string kind_of_string). abstract by intros [].
Defined.

(** ** Protobuf specs (api/mesh/v1alpha1)

    A [string] field is never nil; a message field is a pointer ([option]). *)
Record Application := { app_Name : string; app_InstanceCount : Z }.

Record Service := {
  svc_Name : string; svc_Group : string; svc_Version : string;
  svc_Language : string; svc_Methods : list string }.

Record Probe := { probe_Type : string; probe_Port : Z }.
Record Condition := {
  cond_Type : string; cond_Status : string; cond_LastTransitionTime : string;
  cond_Reason : string; cond_Message : string }.

Record Instance_ := {
  inst_Name : string; inst_AppName : string; inst_Ip : string; inst_RpcPort : Z;
  inst_QosPort : Z; inst_ReleaseVersion : string; inst_RegisterTime : string;
  inst_UnregisterTime : string; inst_Protocol : string;
  inst_Serialization : string; inst_PreferSerialization : string;
  inst_Tags : gmap string string; inst_Image : string; inst_CreateTime : string;
  inst_StartTime : string; inst_ReadyTime : string; inst_DeployState : string;
  inst_WorkloadType : string; inst_WorkloadName : string; inst_Node : string;
  inst_SourceEngine : string; inst_Probes : list Probe;
  inst_Conditions : list Condition }.

Record RPCInstance := {
  rpc_Name : string; rpc_Ip : string; rpc_Port : Z; rpc_AppName : string;
  rpc_RegisterTime : string; rpc_UnregisterTime : string; rpc_Revision : string;
  rpc_MetadataStorageType : string; rpc_ReleaseVersion : string;
  rpc_Protocol : string; rpc_Serialization : string;
  rpc_PreferSerialization : string; rpc_Tags : gmap string string;
  rpc_Endpoints : list (Z * string); rpc_Metadata : gmap string string }.

Record RuntimeInstance := {
  rt_Name : string; rt_Ip : string; rt_RpcPort : Z; rt_Image : string;
  rt_AppName : string; rt_CreateTime : string; rt_StartTime : string;
  rt_ReadyTime : string; rt_Phase : string; rt_WorkloadName : string;
  rt_WorkloadType : string; rt_Node : string; rt_Probes : list Probe;
  rt_Conditions : list Condition; rt_SourceEngine : string;
  rt_SourceEngineType : string }.

Record Method := {
  method_Annotations : list string; method_Name : string;
  method_ParameterTypes : list string; method_Parameters : list (string * string);
  method_ReturnType : string }.
Record MetadataType := {
  typ_Enums : list string; typ_Items : list string;
  typ_Properties : gmap string string; typ_Type : string }.
Record ServiceProviderMetadata := {
  spm_ServiceName : string; spm_ProviderAppName : string; spm_Version : string;
  spm_Group : string; spm_CanonicalName : string; spm_Methods : list Method;
  spm_Parameters : gmap string string; spm_Types : list MetadataType }.

(** Time stamps: nanoseconds since the zero [time.Time]; [None] is a nil
    [*timestamppb.Timestamp]. *)
Record RuleVersion := {
  rv_ParentRuleKind : string; rv_ParentRuleMesh : string;
  rv_ParentRuleName : string; rv_VersionNo : Z; rv_ContentHash : string;
  rv_SpecJson : string; rv_Operation : string; rv_Source : string;
  rv_Author : string; rv_Reason : string; rv_RolledBackFromVersionNo : Z;
  rv_CreatedAt : option Z; rv_RecordedAt : option Z }.

Record ConditionRoute := {
  cr_ConfigVersion : string; cr_Priority : Z; cr_Enabled : bool;
  cr_Force : bool; cr_Runtime : bool; cr_Key : string; cr_Scope : string;
  cr_Conditions : list string }.

Record StringMatch := {
  sm_Exact : string; sm_Prefix : string; sm_Regex : string; sm_Noempty : string;
  sm_Empty : string; sm_Wildcard : string }.
Record ParamMatch := { pm_Key : string; pm_Value : option StringMatch }.
Record Tag := {
  tag_Name : string; tag_Addresses : list string; tag_Match : list ParamMatch;
  tag_XGenerateByCp : bool }.
Record TagRoute := {
  tr_Priority : Z; tr_Enabled : bool; tr_Runtime : bool; tr_Key : string;
  tr_ConfigVersion : string; tr_Force : bool; tr_Tags : list Tag }.

Record AddressMatch := {
  am_Wildcard : string; am_Cird : string; am_Exact : string }.
Record ConditionMatch := {
  cm_Address : option AddressMatch; cm_ProviderAddress : option AddressMatch;
  cm_Service : option (list StringMatch); cm_Application : option (list StringMatch);
  cm_Param : option (list ParamMatch) }.
Record OverrideConfig := {
  oc_Side : string; oc_Addresses : list string; oc_ProviderAddresses : list string;
  oc_Parameters : gmap string string; oc_Applications : list string;
  oc_Services : list string; oc_Type : string; oc_Enabled : bool;
  oc_Match : option ConditionMatch; oc_XGenerateByCp : bool }.
Record DynamicConfig := {
  dc_Key : string; dc_Scope : string; dc_ConfigVersion : string;
  dc_Enabled : bool; dc_Configs : list OverrideConfig }.

Record AffinityAware := { aa_Key : string; aa_Ratio : Z }.
Record AffinityRoute := {
  ar_ConfigVersion : string; ar_Scope : string; ar_Key : string;
  ar_Runtime : bool; ar_Enabled : bool; ar_Affinity : option AffinityAware }.

Record ScriptRoute := {
  sr_ConfigVersion : string; sr_Scope : string; sr_Key : string;
  sr_Enabled : bool; sr_Type : string; sr_Script : string }.

Record LifecycleEvent := {
  le_Namespace : string; le_Reason : string; le_Message : string;
  le_Type : string; le_InvolvedObjKind : string; le_InvolvedObjName : string;
  le_SourceComponent : string; le_SourceHost : string;
  le_FirstTimestamp : string; le_LastTimestamp : string; le_Count : Z;
  le_EventSource : string }.

Record ServiceConsumerMetadata := {
  scm_ServiceName : string; scm_ConsumerAppName : string; scm_Version : string; scm_Group : string;
  scm_Metadata : gmap string string }.

(** What the registries hold, as it is reported. *)
Record NacosInstance := { ni_Ip : string; ni_Port : Z; ni_Metadata : gmap string string }.
Record NacosService := { ns_ServiceKey : string; ns_Instances : list NacosInstance }.
Record ZKConfig := { zc_NodeName : string; zc_NodeData : string }.
Record ZKMetadata := { zm_NodePath : string; zm_NodeData : string }.

(** ** Resources

    [coremodel.Resource] is an interface; its dynamic type fixes the kind and
    the type of the [Spec] pointer. [TypeMeta] carries no information beyond
    the kind. Of [ObjectMeta] the code uses [Name], [Labels] and
    [Annotations] (a nil map is [None]).

    The metadata of a consumer always has its spec: the constructors set it
    and the index functions of its kind dereference it. *)
Record ObjectMeta := {
  meta_Name : string;
  meta_Labels : option (gmap string string);
  meta_Annotations : option (gmap string string) }.

Inductive Spec :=
| ApplicationSpec (s : option Application)
| ServiceSpec (s : option Service)
| InstanceSpec (s : option Instance_)
| RPCInstanceSpec (s : option RPCInstance)
| RuntimeInstanceSpec (s : option RuntimeInstance)
| ServiceProviderMetadataSpec (s : option ServiceProviderMetadata)
| RuleVersionSpec (s : option RuleVersion)
| ConditionRouteSpec (s : option ConditionRoute)
| TagRouteSpec (s : option TagRoute)
| DynamicConfigSpec (s : option DynamicConfig)
| AffinityRouteSpec (s : option AffinityRoute)
| ScriptRouteSpec (s : option ScriptRoute)
| LifecycleEventSpec (s : option LifecycleEvent)
| ServiceConsumerMetadataSpec (s : ServiceConsumerMetadata)
| NacosServiceSpec (s : option NacosService)
| ZKConfigSpec (s : option ZKConfig)
| ZKMetadataSpec (s : option ZKMetadata).

Record Resource := {
  res_meta : ObjectMeta;
  res_Mesh : string;
  res_spec : Spec }.

Definition spec_kind (s : Spec) : ResourceKind :=
  match s with
  | ApplicationSpec _ => ApplicationKind
  | ServiceSpec _ => ServiceKind
  | InstanceSpec _ => InstanceKind
  | RPCInstanceSpec _ => RPCInstanceKind
  | RuntimeInstanceSpec _ => RuntimeInstanceKind
  | ServiceProviderMetadataSpec _ => ServiceProviderMetadataKind
  | RuleVersionSpec _ => RuleVersionKind
  | ConditionRouteSpec _ => ConditionRouteKind
  | TagRouteSpec _ => TagRouteKind
  | DynamicConfigSpec _ => DynamicConfigKind
  | AffinityRouteSpec _ => AffinityRouteKind
  | ScriptRouteSpec _ => ScriptRouteKind
  | LifecycleEventSpec _ => LifecycleEventKind
  | ServiceConsumerMetadataSpec _ => ServiceConsumerMetadataKind
  | NacosServiceSpec _ => NacosServiceKind
  | ZKConfigSpec _ => ZKConfigKind
  | ZKMetadataSpec _ => ZKMetadataKind
  end.

(** The methods of the interface. *)
Definition res_Name (r : Resource) : string := meta_Name (res_meta r).
Definition res_kind (r : Resource) : ResourceKind := spec_kind (res_spec r).
Definition ResourceKey (r : Resource) : string :=
  BuildResourceKey (res_Mesh r) (res_Name r).

(** An [interface{}] value handed to a store: a resource, or a value of some
    other type (its [reflect] type name). *)
Inductive obj :=
| ResourceObj (r : Resource)
| OtherObj (typeName : string).

Definition obj_resource (o : obj) : option Resource :=
  match o with ResourceObj r => Some r | OtherObj _ => None end.

Definition not_a_resource (o : obj) : error :=
  NewAssertionError "Resource"
    match o with ResourceObj _ => "" | OtherObj n => n end.
