(* ===== verification/Configuration.v ===== *)
(** pkg/config: the configuration as it is loaded, completed and checked before
    the program starts. *)
From S2P Require Import Prelude GoStrings Errors.
From Stdlib Require Import Ascii.

Open Scope string_scope.
Open Scope list_scope.
Open Scope Z_scope.

(** ** Structures

    A pointer that may be nil is an option; [url.URL] is what [net/url] gives. *)
Record Url := { url_Scheme : string; url_Host : string; url_Hostname : string; url_Path : string }.

Record LogConfig := {
  log_Level : string; log_OutputPath : string; log_MaxSize : Z; log_MaxBackups : Z; log_MaxAge : Z }.
Record DiagnosticsConfig := { diag_ServerPort : Z }.
Record ObservabilityConfig := {
  obs_Grafana : string; obs_Prometheus : string; obs_GrafanaBaseURL : option Url; obs_PrometheusBaseURL : option Url }.
Record StoreConfig := { store_Type : string; store_Address : string }.
Record EventBusConfig := { bus_BufferSize : Z }.
Record VersioningConfig := { ver_MaxVersionsPerRule : Z }.

Record AddressConfig := { addr_Registry : string; addr_ConfigCenter : string; addr_MetadataReport : string }.
Record DiscoveryProperties := { dp_ConfigWatchPeriod : Z; dp_ServiceWatchPeriod : Z }.
Record DiscoveryConfig := {
  dc_ID : string; dc_Name : string; dc_Type : string; dc_Address : AddressConfig; dc_Properties : DiscoveryProperties }.

Record KubernetesIdentifier := { ki_Type : string; ki_LabelKey : string; ki_AnnotationKey : string }.
Record MainContainerChooseStrategy := {
  mc_Type : string; mc_Index : Z; mc_Name : string; mc_AnnotationKey : string }.
Record EngineProperties := {
  ep_KubeConfigPath : string; ep_PodWatchSelector : string; ep_DubboAppIdentifier : option KubernetesIdentifier;
  ep_DubboRPCPortIdentifier : option KubernetesIdentifier; ep_DubboDiscoveryIdentifier : option KubernetesIdentifier;
  ep_MainContainerChooseStrategy : option MainContainerChooseStrategy }.
Record EngineConfig := { ec_ID : string; ec_Name : string; ec_Type : string; ec_Properties : EngineProperties }.

Record ProviderConfig := {
  pc_Type : string; pc_DisplayName : string; pc_IconURL : string; pc_Issuer : string; pc_ClientID : string;
  pc_ClientSecret : string; pc_RedirectURL : string; pc_PostLoginRedirectURL : string; pc_Scopes : list string }.
(** [auth_Methods]: a nil slice is [None]. *)
Record AuthConfig := {
  auth_Methods : option (list string); auth_User : string; auth_Password : string; auth_ExpirationTime : Z;
  auth_SessionSecret : string; auth_SessionCookieSecure : bool; auth_Providers : gmap string ProviderConfig }.
Record GrafanaDashboardConfig := {
  gd_Application : string; gd_Instance : string; gd_Service : string;
  gd_AppDashboardURL : option Url; gd_InstanceDashboardURL : option Url; gd_ServiceDashboardURL : option Url }.
Record ConsoleConfig := {
  cc_GinMode : string; cc_Port : Z; cc_MetricDashboards : option GrafanaDashboardConfig;
  cc_TraceDashboards : option GrafanaDashboardConfig; cc_Auth : option AuthConfig }.

Record AdminConfig := {
  ac_Log : option LogConfig; ac_Diagnostics : option DiagnosticsConfig; ac_Observability : option ObservabilityConfig;
  ac_Console : option ConsoleConfig; ac_Store : option StoreConfig; ac_Discovery : list (option DiscoveryConfig);
  ac_Engine : option EngineConfig; ac_EventBus : option EventBusConfig; ac_RuleVersioning : option VersioningConfig }.

(** ** Defaults *)
Definition DefaultLogConfig : LogConfig :=
  {| log_Level := "debug"; log_OutputPath := "logs/dubbo-admin.log"; log_MaxSize := 100; log_MaxBackups := 5; log_MaxAge := 3 |}.
Definition DefaultDiagnosticsConfig : DiagnosticsConfig := {| diag_ServerPort := 5680 |}.
Definition DefaultObservabilityConfig : ObservabilityConfig :=
  {| obs_Grafana := ""; obs_Prometheus := ""; obs_GrafanaBaseURL := None; obs_PrometheusBaseURL := None |}.
Definition DefaultStoreConfig : StoreConfig := {| store_Type := "memory"; store_Address := "" |}.
Definition DefaultEventBus : EventBusConfig := {| bus_BufferSize := 1024 |}.
Definition DefaultMaxVersionsPerRule : Z := 20.
Definition DefaultVersioning : VersioningConfig := {| ver_MaxVersionsPerRule := DefaultMaxVersionsPerRule |}.
(** [uuid.New()] is the id. *)
Definition DefaultResourceEngineConfig (id : string) : EngineConfig :=
  {| ec_ID := id; ec_Name := "default"; ec_Type := "mock"; ec_Properties :=
       {| ep_KubeConfigPath := ""; ep_PodWatchSelector := ""; ep_DubboAppIdentifier := None; ep_DubboRPCPortIdentifier := None;
          ep_DubboDiscoveryIdentifier := None; ep_MainContainerChooseStrategy := Some
            {| mc_Type := "ByIndex"; mc_Index := 0; mc_Name := ""; mc_AnnotationKey := "" |} |} |}.
Definition DefaultAdminConfig (id : string) : AdminConfig :=
  {| ac_Log := Some DefaultLogConfig; ac_Diagnostics := Some DefaultDiagnosticsConfig;
     ac_Observability := Some DefaultObservabilityConfig; ac_Console := None; ac_Store := Some DefaultStoreConfig;
     ac_Discovery := []; ac_Engine := Some (DefaultResourceEngineConfig id); ac_EventBus := Some DefaultEventBus;
     ac_RuleVersioning := Some DefaultVersioning |}.

Definition config_error (msg : string) : error := biz_new ConfigError msg.
Definition invalid_argument (msg : string) : error := biz_new InvalidArgument msg.
Definition nil_config : error := ErrorText "runtime error: invalid memory address or nil pointer dereference".
Definition ensure (b : bool) (e : error) : result error unit := if b then Ok () else Err e.
Definition one_of (l : list string) (s : string) : bool := bool_decide (s ∈ l).

Section config.
Context `{MapRange}.
(** lancet's [IsBlank], [url.Parse], [net.ParseIP(host).IsLoopback()], the
    environment variable of the session secret and a fresh id. *)
Context (IsBlank : string → bool) (parse_url : string → result error Url) (loopback_ip : string → bool)
  (env_secret : string) (uuid : string).

(** ** discovery/config.go *)
Definition Mock : string := "mock".
Definition defaultConfigWatchPeriod : Z := 30.
Definition defaultServiceWatchPeriod : Z := 30.

Definition discovery_PreProcess (c : DiscoveryConfig) : DiscoveryConfig :=
  let a := dc_Address c in
  let p := dc_Properties c in
  {| dc_ID := dc_ID c; dc_Name := dc_Name c; dc_Type := dc_Type c;
     dc_Address :=
       {| addr_Registry := addr_Registry a;
          addr_ConfigCenter := if IsBlank (addr_ConfigCenter a) then addr_Registry a else addr_ConfigCenter a;
          addr_MetadataReport := if IsBlank (addr_MetadataReport a) then addr_Registry a else addr_MetadataReport a |};
     dc_Properties :=
       if decide (dp_ServiceWatchPeriod p <= 0) then
         {| dp_ConfigWatchPeriod := defaultConfigWatchPeriod; dp_ServiceWatchPeriod := defaultServiceWatchPeriod |}
       else p |}.

Definition discovery_Validate (c : DiscoveryConfig) : result error unit :=
  _ ← ensure (negb (IsBlank (dc_ID c))) (invalid_argument "discovery id is needed");
  _ ← ensure (negb (IsBlank (dc_Name c))) (invalid_argument "discovery name is needed");
  _ ← ensure (negb (IsBlank (dc_Type c))) (invalid_argument "discovery type is needed");
  ensure (negb (IsBlank (addr_Registry (dc_Address c))) || bool_decide (dc_Type c = Mock))
    (invalid_argument "discovery address is needed").

(** ** engine/config.go *)
Definition identifier_Validate (k : KubernetesIdentifier) : result error unit :=
  ensure (one_of ["ByLabel"; "ByAnnotation"] (ki_Type k)) (config_error ("unsupported identifier type: " +:+ ki_Type k)).
Definition strategy_Validate (m : MainContainerChooseStrategy) : result error unit :=
  ensure (one_of ["ByLast"; "ByIndex"; "ByName"; "ByAnnotation"] (mc_Type m))
    (config_error ("unsupported main container choose strategy type: " +:+ mc_Type m)).
Definition if_set {A} (f : A → result error unit) (o : option A) : result error unit :=
  match o with Some a => f a | None => Ok () end.
Definition properties_Validate (p : EngineProperties) : result error unit :=
  _ ← if_set identifier_Validate (ep_DubboAppIdentifier p);
  _ ← if_set identifier_Validate (ep_DubboRPCPortIdentifier p);
  _ ← if_set identifier_Validate (ep_DubboDiscoveryIdentifier p);
  if_set strategy_Validate (ep_MainContainerChooseStrategy p).
Definition engine_Validate (c : EngineConfig) : result error unit :=
  _ ← ensure (negb (IsBlank (ec_ID c))) (config_error "engine id can not be empty");
  _ ← ensure (one_of ["kubernetes"; "mock"] (ec_Type c)) (config_error ("engine type " +:+ ec_Type c +:+ " is not supported"));
  properties_Validate (ec_Properties c).

(** ** The smaller parts *)
Definition log_Validate (c : LogConfig) : result error unit :=
  ensure (one_of ["debug"; "info"; "warn"; "error"] (log_Level c)) (config_error ("unsupported log level: " +:+ log_Level c)).
Definition store_Validate (c : StoreConfig) : result error unit :=
  ensure (one_of ["memory"; "mysql"; "postgres"] (store_Type c)) (config_error ("unsupported store type: " +:+ store_Type c)).
Definition diagnostics_Validate (c : DiagnosticsConfig) : result error unit :=
  ensure (bool_decide (1 <= diag_ServerPort c <= 65535)) (config_error "server port for diagnotics must between 1 to 65535").
Definition versioning_Validate (c : VersioningConfig) : result error unit :=
  ensure (bool_decide (0 <= ver_MaxVersionsPerRule c))
    (config_error "ruleVersioning.maxVersionsPerRule must be greater than or equal to 0").
Definition versioning_Sanitize (c : VersioningConfig) : VersioningConfig :=
  if decide (ver_MaxVersionsPerRule c < 0) then DefaultVersioning else c.

(** [if strutil.IsNotBlank(raw) { url.Parse }]. *)
Definition dashboard_url (what raw : string) (old : option Url) : result error (option Url) :=
  if IsBlank raw then Ok old
  else match parse_url raw with
       | Ok u => Ok (Some u)
       | Err e => Err (biz_wrap e ConfigError ("invalid " +:+ what +:+ " url: " +:+ raw))
       end.

Definition observability_Validate (c : ObservabilityConfig) : result error ObservabilityConfig :=
  p ← dashboard_url "prometheus" (obs_Prometheus c) (obs_PrometheusBaseURL c);
  g ← dashboard_url "grafana" (obs_Grafana c) (obs_GrafanaBaseURL c);
  Ok {| obs_Grafana := obs_Grafana c; obs_Prometheus := obs_Prometheus c; obs_GrafanaBaseURL := g; obs_PrometheusBaseURL := p |}.

(** ** console/auth/config.go *)
Definition MinimumSessionSecretLength : nat := 32.

Definition id_char (c : ascii) : bool :=
  is_upper c || is_lower c || bool_decide (48 <= Z.of_nat (nat_of_ascii c) <= 57).
Fixpoint id_rest (s : string) : bool :=
  match s with
  | EmptyString => true
  | String c s => (id_char c || bool_decide (c ∈ ["."; "_"; "-"]%char)) && id_rest s
  end.
(** [^[A-Za-z0-9][A-Za-z0-9._-]{0,63}$]. *)
Definition provider_id (s : string) : bool :=
  match s with
  | EmptyString => false
  | String c s => id_char c && id_rest s && (String.length s <=? 63)%nat
  end.

Definition isLoopbackHost (host : string) : bool :=
  bool_decide (str_lower host = "localhost") || loopback_ip host.

Definition validateHTTPURL (raw : string) : result error Url :=
  parsed ← parse_url raw;
  _ ← ensure (one_of ["http"; "https"] (url_Scheme parsed) && negb (bool_decide (url_Host parsed = "")))
        (ErrorText "must be an absolute HTTP or HTTPS URL");
  Ok parsed.
Definition validateOIDCURL (raw : string) : result error Url :=
  parsed ← validateHTTPURL raw;
  _ ← ensure (bool_decide (url_Scheme parsed = "https") ||
              (bool_decide (url_Scheme parsed = "http") && isLoopbackHost (url_Hostname parsed)))
        (ErrorText "must use HTTPS, except for an HTTP loopback development endpoint");
  Ok parsed.
Definition validateIconURL (raw : string) : result error unit :=
  if decide (raw = "") then Ok ()
  else
    parsed ← parse_url raw;
    if decide (url_Scheme parsed = "") then
      ensure (bool_decide (url_Host parsed = "") && has_prefix (url_Path parsed) "/")
        (ErrorText "must be a root-relative project path or an absolute HTTPS URL")
    else _ ← validateOIDCURL raw; Ok ().

Definition callback_path (id : string) : string := "/api/v1/auth/providers/" +:+ id +:+ "/callback".

(** An error under a prefix that names the provider. *)
Definition of_provider {A} (id what : string) (r : result error A) : result error A :=
  match r with
  | Ok _ => r
  | Err e => Err (errorf_w ("auth provider " +:+ go_quote id +:+ ": invalid " +:+ what +:+ ": ") e "")
  end.

Definition with_scopes (p : ProviderConfig) (id : string) (scopes : list string) : ProviderConfig :=
  {| pc_Type := pc_Type p; pc_DisplayName := if decide (pc_DisplayName p = "") then id else pc_DisplayName p;
     pc_IconURL := pc_IconURL p; pc_Issuer := pc_Issuer p; pc_ClientID := pc_ClientID p;
     pc_ClientSecret := pc_ClientSecret p; pc_RedirectURL := pc_RedirectURL p;
     pc_PostLoginRedirectURL := pc_PostLoginRedirectURL p; pc_Scopes := scopes |}.
Definition or_scopes (scopes defaults : list string) : list string :=
  match scopes with [] => defaults | _ => scopes end.

Definition validateProvider (id : string) (p : ProviderConfig) : result error ProviderConfig :=
  let named msg := ErrorText ("auth provider " +:+ go_quote id +:+ ": " +:+ msg) in
  _ ← ensure (provider_id id) (ErrorText ("auth: invalid provider id " +:+ go_quote id));
  _ ← ensure (one_of ["github"; "oidc"] (pc_Type p)) (named ("unsupported type " +:+ go_quote (pc_Type p)));
  _ ← of_provider id "iconUrl" (validateIconURL (pc_IconURL p));
  _ ← ensure (negb (bool_decide (pc_ClientID p = "")) && negb (bool_decide (pc_ClientSecret p = "")))
        (named "clientId and clientSecret are required");
  redirect ← of_provider id "redirectUrl" (validateHTTPURL (pc_RedirectURL p));
  _ ← ensure (bool_decide (url_Path redirect = callback_path id))
        (named ("redirectUrl must use callback path " +:+ go_quote (callback_path id)));
  _ ← of_provider id "postLoginRedirectUrl" (validateHTTPURL (pc_PostLoginRedirectURL p));
  if decide (pc_Type p = "github") then Ok (with_scopes p id (or_scopes (pc_Scopes p) ["read:user"; "user:email"]))
  else
    _ ← of_provider id "issuer" (validateOIDCURL (pc_Issuer p));
    let scopes := or_scopes (pc_Scopes p) ["openid"; "profile"; "email"] in
    _ ← ensure (bool_decide ("openid" ∈ scopes)) (named "OIDC scopes must include openid");
    Ok (with_scopes p id scopes).

Definition validate_providers (m : gmap string ProviderConfig) : result error (gmap string ProviderConfig) :=
  foldl (λ acc p, acc ← acc; provider ← validateProvider p.1 p.2; Ok (<[p.1 := provider]> acc)) (Ok m) (go_range m).

Definition auth_Validate (c : AuthConfig) : result error AuthConfig :=
  let methods := default ["password"] (auth_Methods c) in
  _ ← match list_find (λ m, m ≠ "password") methods with
      | Some (_, m) => Err (ErrorText ("auth: unsupported method " +:+ go_quote m))
      | None => Ok ()
      end;
  _ ← ensure (negb (bool_decide ("password" ∈ methods) && (bool_decide (auth_User c = "") || bool_decide (auth_Password c = ""))))
        (ErrorText "auth: user or password is needed, but found empty");
  _ ← ensure (bool_decide (0 < auth_ExpirationTime c < 86400))
        (ErrorText "auth: expirationTime should be greater than 0 and less than 86400");
  let secret := if decide (trim_space (auth_SessionSecret c) = "") then env_secret else auth_SessionSecret c in
  _ ← ensure (negb (bool_decide (trim_space secret = "")) && (MinimumSessionSecretLength <=? String.length secret)%nat)
        (ErrorText "auth: sessionSecret must contain at least 32 bytes");
  providers ← validate_providers (auth_Providers c);
  Ok {| auth_Methods := Some methods; auth_User := auth_User c; auth_Password := auth_Password c;
        auth_ExpirationTime := auth_ExpirationTime c; auth_SessionSecret := secret;
        auth_SessionCookieSecure := auth_SessionCookieSecure c; auth_Providers := providers |}.

(** ** console/config.go *)
Definition grafana_Validate (g : GrafanaDashboardConfig) : result error GrafanaDashboardConfig :=
  a ← dashboard_url "application dashboard" (gd_Application g) (gd_AppDashboardURL g);
  i ← dashboard_url "instance dashboard" (gd_Instance g) (gd_InstanceDashboardURL g);
  s ← dashboard_url "service dashboard" (gd_Service g) (gd_ServiceDashboardURL g);
  Ok {| gd_Application := gd_Application g; gd_Instance := gd_Instance g; gd_Service := gd_Service g;
        gd_AppDashboardURL := a; gd_InstanceDashboardURL := i; gd_ServiceDashboardURL := s |}.
(** A nil part stays nil. *)
Definition validated {A} (f : A → result error A) (o : option A) : result error (option A) :=
  match o with Some a => a ← f a; Ok (Some a) | None => Ok None end.
Definition console_Validate (c : ConsoleConfig) : result error ConsoleConfig :=
  _ ← ensure (one_of ["debug"; "release"; "test"] (cc_GinMode c)) (config_error ("invalid gin mode: " +:+ cc_GinMode c));
  _ ← ensure (bool_decide (1 <= cc_Port c <= 65535)) (config_error "port of console must between 1 to 65535");
  match cc_Auth c with
  | None => Err (config_error "auth config is needed, but found empty")
  | Some a =>
      m ← validated grafana_Validate (cc_MetricDashboards c);
      t ← validated grafana_Validate (cc_TraceDashboards c);
      a ← auth_Validate a;
      Ok {| cc_GinMode := cc_GinMode c; cc_Port := cc_Port c; cc_MetricDashboards := m; cc_TraceDashboards := t;
            cc_Auth := Some a |}
  end.

(** ** app/admin.go *)
Definition no_console : error := config_error "console config is needed, but found empty".
Definition failed_part (part : string) (e : error) : error := biz_wrap e ConfigError (part +:+ " config validation failed").
(** The error of a part is wrapped. *)
Definition part {A} (name : string) (r : result error A) : result error A :=
  match r with Ok a => Ok a | Err e => Err (failed_part name e) end.
(** A part that is nil becomes its default, another one is checked. *)
Definition or_checked {A} (name : string) (d : A) (f : A → result error A) (o : option A) : result error A :=
  match o with None => Ok d | Some a => part name (f a) end.
Definition checked {A} (f : A → result error unit) (a : A) : result error A := _ ← f a; Ok a.

Definition with_discovery (c : AdminConfig) (l : list (option DiscoveryConfig)) : AdminConfig :=
  {| ac_Log := ac_Log c; ac_Diagnostics := ac_Diagnostics c; ac_Observability := ac_Observability c;
     ac_Console := ac_Console c; ac_Store := ac_Store c; ac_Discovery := l; ac_Engine := ac_Engine c;
     ac_EventBus := ac_EventBus c;
     ac_RuleVersioning := Some (default DefaultVersioning (ac_RuleVersioning c)) |}.

(** The parts whose methods are called through their pointers. *)
Definition no_nil_part (c : AdminConfig) : bool :=
  bool_decide (is_Some (ac_Engine c)) && forallb (λ d, bool_decide (is_Some d)) (ac_Discovery c) &&
  bool_decide (is_Some (ac_Store c)) && bool_decide (is_Some (ac_Observability c)) &&
  bool_decide (is_Some (ac_Diagnostics c)) && bool_decide (is_Some (ac_Log c)).

(** Only the discoveries do something; the error of a nil pointer is a panic. *)
Definition PreProcess (c : AdminConfig) : result error AdminConfig :=
  match ac_Console c with
  | None => Err no_console
  | Some _ =>
      _ ← ensure (no_nil_part c) nil_config;
      Ok (with_discovery c ((option_map discovery_PreProcess) <$> ac_Discovery c))
  end.
Definition PostProcess (c : AdminConfig) : result error AdminConfig :=
  match ac_Console c with
  | None => Err no_console
  | Some _ => _ ← ensure (no_nil_part c) nil_config; Ok (with_discovery c (ac_Discovery c))
  end.

Definition discovery_ids (l : list (option DiscoveryConfig)) : list string := omap (option_map dc_ID) l.
Fixpoint validate_discoveries (l : list (option DiscoveryConfig)) : result error unit :=
  match l with
  | [] => Ok ()
  | None :: _ => Err nil_config
  | Some d :: l => _ ← part "discovery" (discovery_Validate d); validate_discoveries l
  end.

Definition Validate (c : AdminConfig) : result error AdminConfig :=
  match ac_Console c with
  | None => Err no_console
  | Some console =>
      log ← or_checked "log" DefaultLogConfig (checked log_Validate) (ac_Log c);
      store ← or_checked "store" DefaultStoreConfig (checked store_Validate) (ac_Store c);
      diagnostics ← or_checked "diagnostics" DefaultDiagnosticsConfig (checked diagnostics_Validate) (ac_Diagnostics c);
      console ← part "console" (console_Validate console);
      observability ← or_checked "observability" DefaultObservabilityConfig observability_Validate (ac_Observability c);
      _ ← ensure (negb (bool_decide (ac_Discovery c = []))) (config_error "discover config is needed");
      _ ← validate_discoveries (ac_Discovery c);
      _ ← ensure (bool_decide (NoDup (discovery_ids (ac_Discovery c)))) (config_error "discovery id must be unique");
      engine ← or_checked "engine" (DefaultResourceEngineConfig uuid) (checked engine_Validate) (ac_Engine c);
      versioning ← or_checked "versioning" DefaultVersioning (checked versioning_Validate) (ac_RuleVersioning c);
      Ok {| ac_Log := Some log; ac_Diagnostics := Some diagnostics; ac_Observability := Some observability;
            ac_Console := Some console; ac_Store := Some store; ac_Discovery := ac_Discovery c; ac_Engine := Some engine;
            ac_EventBus := Some (default DefaultEventBus (ac_EventBus c)); ac_RuleVersioning := Some versioning |}
  end.

Definition FindDiscovery (c : AdminConfig) (name : string) : option DiscoveryConfig :=
  head (filter (λ d, dc_ID d = name) (omap id (ac_Discovery c))).
Definition Meshes (c : AdminConfig) : list string := discovery_ids (ac_Discovery c).

(** ** loader.go

    [read] is what reading and parsing the file into the defaults gives. *)
Definition LoadWithOption (file : string) (validate : bool) (read : result error AdminConfig) : result error AdminConfig :=
  let stage what (r : result error AdminConfig) :=
    match r with
    | Ok c => Ok c
    | Err e => Err (if decide (e = nil_config) then e else errorf_w ("configuration " +:+ what +:+ " failed, ") e "")
    end in
  if decide (file = "") then Err (config_error "config file is needed")
  else
    c ← stage "loading" read;
    c ← stage "pre processing" (PreProcess c);
    c ← stage "post processing" (PostProcess c);
    if validate then stage "validation" (Validate c) else Ok c.
Definition Load (file : string) (read : result error AdminConfig) : result error AdminConfig :=
  LoadWithOption file true read.

(** ** What is loaded is valid *)
Record valid_provider (id : string) (p : ProviderConfig) : Prop := {
  vp_id : provider_id id = true;
  vp_type : pc_Type p ∈ ["github"; "oidc"];
  vp_client : pc_ClientID p ≠ "" ∧ pc_ClientSecret p ≠ "";
  vp_redirect : ∃ u, parse_url (pc_RedirectURL p) = Ok u ∧ url_Path u = callback_path id ∧
    url_Scheme u ∈ ["http"; "https"] ∧ url_Host u ≠ "";
  vp_landing : ∃ u, parse_url (pc_PostLoginRedirectURL p) = Ok u ∧ url_Scheme u ∈ ["http"; "https"];
  vp_oidc : pc_Type p = "oidc" → "openid" ∈ pc_Scopes p ∧
    ∃ u, parse_url (pc_Issuer p) = Ok u ∧ (url_Scheme u = "https" ∨ isLoopbackHost (url_Hostname u) = true);
  vp_scopes : pc_Scopes p ≠ [] }.

Record valid_auth (a : AuthConfig) : Prop := {
  va_methods : ∃ l, auth_Methods a = Some l ∧ (∀ m, m ∈ l → m = "password") ∧
    ("password" ∈ l → auth_User a ≠ "" ∧ auth_Password a ≠ "");
  va_expiration : 0 < auth_ExpirationTime a < 86400;
  va_secret : (MinimumSessionSecretLength ≤ String.length (auth_SessionSecret a))%nat;
  va_providers : map_Forall valid_provider (auth_Providers a) }.

(** A discovery whose registry is given has all three addresses. *)
Record valid_discovery (d : DiscoveryConfig) : Prop := {
  vd_named : IsBlank (dc_ID d) = false ∧ IsBlank (dc_Name d) = false ∧ IsBlank (dc_Type d) = false;
  vd_registry : IsBlank (addr_Registry (dc_Address d)) = false ∨ dc_Type d = Mock;
  vd_addresses : IsBlank (addr_Registry (dc_Address d)) = false →
    IsBlank (addr_ConfigCenter (dc_Address d)) = false ∧ IsBlank (addr_MetadataReport (dc_Address d)) = false;
  vd_period : 0 < dp_ServiceWatchPeriod (dc_Properties d) }.

Record valid (c : AdminConfig) : Prop := {
  vc_console : ∃ k a, ac_Console c = Some k ∧ 1 <= cc_Port k <= 65535 ∧ cc_Auth k = Some a ∧ valid_auth a;
  vc_discoveries : ac_Discovery c ≠ [] ∧ Forall (λ o, ∃ d, o = Some d ∧ valid_discovery d) (ac_Discovery c);
  vc_meshes : NoDup (Meshes c);
  vc_store : ∃ s, ac_Store c = Some s ∧ store_Type s ∈ ["memory"; "mysql"; "postgres"];
  vc_engine : ∃ e, ac_Engine c = Some e ∧ ec_Type e ∈ ["kubernetes"; "mock"];
  vc_diagnostics : ∃ d, ac_Diagnostics c = Some d ∧ 1 <= diag_ServerPort d <= 65535;
  vc_versioning : ∃ v, ac_RuleVersioning c = Some v ∧ 0 <= ver_MaxVersionsPerRule v;
  vc_present : is_Some (ac_Log c) ∧ is_Some (ac_Observability c) ∧ is_Some (ac_EventBus c) }.

Lemma ensure_Ok b e u : ensure b e = Ok u → b = true.
Proof. by destruct b. Qed.
Lemma one_of_spec l s : one_of l s = true ↔ s ∈ l.
Proof. apply bool_decide_eq_true. Qed.
Lemma of_provider_Ok {A} id what (r : result error A) a : of_provider id what r = Ok a → r = Ok a.
Proof. by destruct r. Qed.
Lemma part_Ok {A} name (r : result error A) a : part name r = Ok a → r = Ok a.
Proof. by destruct r. Qed.

(** Takes a chain of checks that succeeded apart. *)
Ltac checks :=
  repeat match goal with
  | H : (_ ≫= _) = Ok _ |- _ => apply bind_Ok in H as (? & ? & ?)
  | H : ensure _ _ = Ok _ |- _ => apply ensure_Ok in H
  | H : of_provider _ _ _ = Ok _ |- _ => apply of_provider_Ok in H
  | H : part _ _ = Ok _ |- _ => apply part_Ok in H
  | H : Ok _ = Ok _ |- _ => apply (inj Ok) in H; subst
  | H : _ && _ = true |- _ => apply andb_true_iff in H as [? ?]
  | H : negb _ = true |- _ => apply negb_true_iff in H
  | H : bool_decide _ = true |- _ => apply bool_decide_eq_true in H
  | H : bool_decide _ = false |- _ => apply bool_decide_eq_false in H
  | H : one_of _ _ = true |- _ => apply one_of_spec in H
  end.

Lemma validateHTTPURL_Ok raw u : validateHTTPURL raw = Ok u →
  parse_url raw = Ok u ∧ url_Scheme u ∈ ["http"; "https"] ∧ url_Host u ≠ "".
Proof. unfold validateHTTPURL. intros Hv. checks. done. Qed.
Lemma validateOIDCURL_Ok raw u : validateOIDCURL raw = Ok u →
  parse_url raw = Ok u ∧ (url_Scheme u = "https" ∨ isLoopbackHost (url_Hostname u) = true).
Proof.
  unfold validateOIDCURL. intros Hv. apply bind_Ok in Hv as (u' & Hu & Hv). checks.
  apply validateHTTPURL_Ok in Hu as (? & _). split; [done|].
  match goal with H : _ || _ = true |- _ => apply orb_true_iff in H as [H|H] end; checks; auto.
Qed.

Lemma validateProvider_valid id p p' : validateProvider id p = Ok p' → valid_provider id p'.
Proof.
  unfold validateProvider. intros Hv. checks.
  repeat match goal with H : validateHTTPURL _ = Ok _ |- _ => apply validateHTTPURL_Ok in H as (? & ? & ?) end.
  case_decide as Ht; checks.
  - split; simpl; eauto 8; [intros Ht'; by rewrite Ht in Ht'|]. by destruct (pc_Scopes p).
  - match goal with H : validateOIDCURL _ = Ok _ |- _ => apply validateOIDCURL_Ok in H end.
    split; simpl; eauto 8. by destruct (pc_Scopes p).
Qed.

Lemma validate_providers_valid m m' : validate_providers m = Ok m' → map_Forall valid_provider m'.
Proof.
  unfold validate_providers. intros Hv.
  assert (Hinv : ∀ l acc, foldl (λ acc p, acc ← acc; provider ← validateProvider p.1 p.2; Ok (<[p.1 := provider]> acc))
      (Ok m) l = Ok acc → ∀ id p, acc !! id = Some p → valid_provider id p ∨ (m !! id = Some p ∧ id ∉ l.*1)).
  { clear Hv m'. intros l. induction l as [|[id0 p0] l IH] using rev_ind; intros acc Hacc id p Hp.
    - injection Hacc as <-. right. split; [done|set_solver].
    - rewrite foldl_snoc in Hacc. checks. destruct (decide (id = id0)) as [->|Hne].
      + rewrite lookup_insert_eq in Hp. injection Hp as <-. left. by eapply validateProvider_valid.
      + rewrite lookup_insert_ne in Hp by done. simpl in *.
        match goal with H : foldl _ _ _ = Ok _ |- _ => destruct (IH _ H id p Hp) as [|[? Hl]] end; [by left|].
        right. split; [done|]. rewrite fmap_app, elem_of_app. set_solver. }
  intros id p Hp. destruct (Hinv _ _ Hv id p Hp) as [|[Hm Hn]]; [done|]. destruct Hn.
  apply list_elem_of_fmap. exists (id, p). split; [done|]. by apply elem_of_go_range.
Qed.

Lemma auth_Validate_valid a a' : auth_Validate a = Ok a' → valid_auth a'.
Proof.
  unfold auth_Validate. intros Hv. checks. split; simpl.
  - eexists. split; [done|]. split.
    + intros m Hm. destruct (list_find _ _) as [[? ?]|] eqn:Hf; [done|]. apply list_find_None in Hf.
      rewrite Forall_forall in Hf. destruct (decide (m = "password")) as [|Hne]; [done|]. by destruct (Hf m Hm).
    + intros Hpw. match goal with H : bool_decide _ && _ = false |- _ => rewrite (bool_decide_eq_true_2 _ Hpw) in H;
        simpl in H; apply orb_false_iff in H as [? ?] end. checks. done.
  - done.
  - match goal with H : (_ <=? _)%nat = true |- _ => by apply Nat.leb_le in H end.
  - by eapply validate_providers_valid.
Qed.

Lemma console_Validate_valid k k' : console_Validate k = Ok k' →
  1 <= cc_Port k' <= 65535 ∧ ∃ a, cc_Auth k' = Some a ∧ valid_auth a.
Proof.
  unfold console_Validate. intros Hv. checks. destruct (cc_Auth k) as [a|]; checks; [|done]. simpl. split; [done|].
  eexists. split; [done|]. by eapply auth_Validate_valid.
Qed.

Lemma or_checked_Ok {A} name (d : A) f o a (P : A → Prop) : or_checked name d f o = Ok a →
  P d → (∀ x y, f x = Ok y → P y) → P a.
Proof. unfold or_checked. destruct o; intros Hv ? Hf; checks; eauto. Qed.

Lemma validate_discoveries_Ok l u : validate_discoveries l = Ok u →
  Forall (λ o, ∃ d, o = Some d ∧ discovery_Validate d = Ok ()) l.
Proof.
  induction l as [|[d|] l IH]; simpl; intros Hv; [constructor| |done]. apply bind_Ok in Hv as ([] & Hd & Hl).
  checks. constructor; [by eexists|by apply IH].
Qed.

Lemma period_positive d : 0 < dp_ServiceWatchPeriod (dc_Properties (discovery_PreProcess d)).
Proof.
  unfold discovery_PreProcess. cbn [dc_Properties]. destruct (decide _) as [_|Hp]; [done|]. by apply Z.nle_gt.
Qed.

Lemma discovery_valid d : discovery_Validate (discovery_PreProcess d) = Ok () → valid_discovery (discovery_PreProcess d).
Proof.
  unfold discovery_Validate. intros Hv. apply bind_Ok in Hv as (? & ? & Hv). apply bind_Ok in Hv as (? & ? & Hv).
  apply bind_Ok in Hv as (? & ? & Hv). checks. apply orb_true_iff in Hv. split; simpl in *.
  - done.
  - destruct Hv; checks; auto.
  - intros Hr. split; match goal with |- IsBlank (if ?b then _ else _) = _ => by destruct b eqn:? end.
  - apply period_positive.
Qed.

(** C30: What is loaded is valid, whatever the file holds. There is at least one
    discovery; each has an id, a name and a type that are not blank (the type is
    not compared with the known ones), a positive watch period, and a registry
    address unless its type is mock, and one with a registry address also has
    the addresses of the config center and of the metadata report; the ids are
    unique. The type of the store is memory, mysql or postgres and that of the
    engine kubernetes or mock; the ports of the console and of the diagnostics
    are in 1..65535; the number of versions to keep is not negative; the parts
    for logging, observability and the event bus are present. The only login
    method besides providers is password, which comes with a user and a
    password; a session lasts less than a day and its secret has at least 32
    bytes. Every provider is github or oidc, under a well-formed id, has a
    client id and secret and scopes, returns over http or https to its own
    callback on a host and lands on an http or https page; for OIDC it asks for
    openid and its issuer is reached over https or is a loopback host. *)
Theorem loaded_valid file read c : Load file read = Ok c → valid c.
Proof.
  unfold Load, LoadWithOption. case_decide; [done|]. intros Hv.
  apply bind_Ok in Hv as (c0 & _ & Hv). apply bind_Ok in Hv as (c1 & Hpre & Hv). apply bind_Ok in Hv as (c2 & Hpost & Hv).
  assert (Hpre' : PreProcess c0 = Ok c1) by (by destruct (PreProcess c0); [congruence|]).
  assert (Hpost' : PostProcess c1 = Ok c2) by (by destruct (PostProcess c1); [congruence|]).
  assert (Hval : Validate c2 = Ok c) by (by destruct (Validate c2); [congruence|]). clear Hpre Hpost Hv.
  assert (Hd : ac_Discovery c2 = (option_map discovery_PreProcess) <$> ac_Discovery c0).
  { unfold PreProcess in Hpre'. destruct (ac_Console c0); [|done]. checks. unfold PostProcess in Hpost'.
    simpl in Hpost'. destruct (ac_Console c0); [|done]. by checks. }
  unfold Validate in Hval. destruct (ac_Console c2) as [k|]; [|done].
  apply bind_Ok in Hval as (lg & _ & Hval). apply bind_Ok in Hval as (st & Hst & Hval).
  apply bind_Ok in Hval as (dg & Hdg & Hval). apply bind_Ok in Hval as (k' & Hk & Hval).
  apply bind_Ok in Hval as (ob & _ & Hval). apply bind_Ok in Hval as (? & Hne & Hval).
  apply bind_Ok in Hval as (? & Hds & Hval). apply bind_Ok in Hval as (? & Hids & Hval).
  apply bind_Ok in Hval as (en & Hen & Hval). apply bind_Ok in Hval as (vs & Hvs & Hval). checks.
  apply validate_discoveries_Ok in Hds. apply console_Validate_valid in Hk as (? & a & ? & ?).
  split; simpl.
  - by exists k', a.
  - split; [done|]. rewrite Forall_forall in *. intros o Ho. destruct (Hds o Ho) as (d & -> & Hok).
    exists d. split; [done|]. rewrite Hd, list_elem_of_fmap in Ho. destruct Ho as ([d0|] & Heq & _); simplify_eq/=.
    by apply discovery_valid.
  - done.
  - eexists. split; [done|]. eapply (or_checked_Ok _ _ _ _ _ (λ s, store_Type s ∈ ["memory"; "mysql"; "postgres"]) Hst); [set_solver|].
    intros p q Hpq. unfold checked, store_Validate in Hpq. by checks.
  - eexists. split; [done|]. eapply (or_checked_Ok _ _ _ _ _ (λ e, ec_Type e ∈ ["kubernetes"; "mock"]) Hen); [set_solver|].
    intros p q Hpq. unfold checked, engine_Validate in Hpq. by checks.
  - eexists. split; [done|]. eapply (or_checked_Ok _ _ _ _ _ (λ d, 1 <= diag_ServerPort d <= 65535) Hdg); [done|].
    intros p q Hpq. unfold checked, diagnostics_Validate in Hpq. by checks.
  - eexists. split; [done|]. eapply (or_checked_Ok _ _ _ _ _ (λ v, 0 <= ver_MaxVersionsPerRule v) Hvs); [done|].
    intros p q Hpq. unfold checked, versioning_Validate in Hpq. by checks.
  - done.
Qed.

(** Each mesh is found by its id. *)
Lemma mesh_found c d : NoDup (Meshes c) → Some d ∈ ac_Discovery c → FindDiscovery c (dc_ID d) = Some d.
Proof.
  unfold Meshes, FindDiscovery, discovery_ids. induction (ac_Discovery c) as [|[d'|] l IH]; intros Hn Hin.
  - by apply elem_of_nil in Hin.
  - simpl in Hn. apply NoDup_cons in Hn as [Hout Hn]. csimpl. rewrite filter_cons.
    apply elem_of_cons in Hin as [[= ->]|Hin]; [by rewrite decide_True|]. rewrite decide_False; [by apply IH|].
    intros Heq. apply Hout. rewrite Heq. apply list_elem_of_omap. by exists (Some d).
  - apply elem_of_cons in Hin as [?|Hin]; [done|]. by apply IH.
Qed.
End config.

(** ** Files *)
Module ConfigurationExample.
#[local] Existing Instance default_range.
Definition blank (s : string) : bool := bool_decide (s = "").
(** URLs of one host. *)
Definition parse (s : string) : result error Url :=
  if decide (s = "https://admin.example/") then
    Ok {| url_Scheme := "https"; url_Host := "admin.example"; url_Hostname := "admin.example"; url_Path := "/" |}
  else if decide (s = "https://admin.example/api/v1/auth/providers/corp/callback") then
    Ok {| url_Scheme := "https"; url_Host := "admin.example"; url_Hostname := "admin.example";
          url_Path := "/api/v1/auth/providers/corp/callback" |}
  else Err (ErrorText "not a url").
Definition load := Load blank parse (λ _, false) "0123456789abcdef0123456789abcdef" "engine-1".

Definition corp : ProviderConfig :=
  {| pc_Type := "oidc"; pc_DisplayName := ""; pc_IconURL := ""; pc_Issuer := "https://admin.example/"; pc_ClientID := "id";
     pc_ClientSecret := "secret"; pc_RedirectURL := "https://admin.example/api/v1/auth/providers/corp/callback";
     pc_PostLoginRedirectURL := "https://admin.example/"; pc_Scopes := [] |}.
Definition console : ConsoleConfig :=
  {| cc_GinMode := "release"; cc_Port := 8888; cc_MetricDashboards := None; cc_TraceDashboards := None;
     cc_Auth := Some {| auth_Methods := None; auth_User := "admin"; auth_Password := "pw"; auth_ExpirationTime := 3600;
                        auth_SessionSecret := ""; auth_SessionCookieSecure := true; auth_Providers := {[ "corp" := corp ]} |} |}.
Definition nacos (config service : Z) : DiscoveryConfig :=
  {| dc_ID := "nacos"; dc_Name := "Nacos"; dc_Type := "nacos2";
     dc_Address := {| addr_Registry := "10.0.0.1:8848"; addr_ConfigCenter := ""; addr_MetadataReport := "" |};
     dc_Properties := {| dp_ConfigWatchPeriod := config; dp_ServiceWatchPeriod := service |} |}.
Definition file (d : DiscoveryConfig) : AdminConfig :=
  let c := DefaultAdminConfig "engine-1" in
  {| ac_Log := ac_Log c; ac_Diagnostics := ac_Diagnostics c; ac_Observability := ac_Observability c;
     ac_Console := Some console; ac_Store := ac_Store c; ac_Discovery := [Some d]; ac_Engine := ac_Engine c;
     ac_EventBus := ac_EventBus c; ac_RuleVersioning := ac_RuleVersioning c |}.
Definition periods (r : result error AdminConfig) : list (Z * Z) :=
  match r with
  | Ok c => omap (option_map (λ d, (dp_ConfigWatchPeriod (dc_Properties d), dp_ServiceWatchPeriod (dc_Properties d))))
              (ac_Discovery c)
  | Err _ => []
  end.

Lemma loaded_valid_witness :
  ∃ c, load "admin.yml" (Ok (file (nacos 0 0))) = Ok c ∧
    valid blank parse (λ _, false) c ∧ FindDiscovery c "nacos" = Some (discovery_PreProcess blank (nacos 0 0)).
Proof.
  destruct (load "admin.yml" (Ok (file (nacos 0 0)))) as [c|e] eqn:Hl; [|vm_compute in Hl; discriminate Hl].
  exists c. split; [reflexivity|]. split.
  - exact (loaded_valid blank parse (λ _, false) "0123456789abcdef0123456789abcdef" "engine-1" "admin.yml" _ c Hl).
  - vm_compute in Hl. injection Hl as <-. vm_compute. reflexivity.
Defined.

(** The period of the configurations is not defaulted when the other one is
    given, and is overwritten when it is not. *)
Example period_left_out : periods (load "admin.yml" (Ok (file (nacos 0 60)))) = [(0, 60)].
Proof. vm_compute. reflexivity. Qed.
Example period_overwritten : periods (load "admin.yml" (Ok (file (nacos 60 0)))) = [(30, 30)].
Proof. vm_compute. reflexivity. Qed.

(** A part that is null in the file is not defaulted but dereferenced. *)
Example null_part_panics : load "admin.yml"
  (Ok {| ac_Log := None; ac_Diagnostics := ac_Diagnostics (file (nacos 0 0));
         ac_Observability := ac_Observability (file (nacos 0 0)); ac_Console := Some console;
         ac_Store := ac_Store (file (nacos 0 0)); ac_Discovery := ac_Discovery (file (nacos 0 0));
         ac_Engine := ac_Engine (file (nacos 0 0)); ac_EventBus := None; ac_RuleVersioning := None |}) = Err nil_config.
Proof. vm_compute. reflexivity. Qed.

(** A negative retention is refused, not replaced by the default. *)
Example negative_retention : versioning_Validate {| ver_MaxVersionsPerRule := -1 |} =
  Err (config_error "ruleVersioning.maxVersionsPerRule must be greater than or equal to 0").
Proof. reflexivity. Qed.
End ConfigurationExample.
