(* ===== verification/Libs.v ===== *)
(** Interfaces of the third-party packages the stores are built on: the
    operations the code calls (operational classes) and the documented
    behaviour it relies on (law classes), with a reference instance of each on
    stdpp's maps and sets. The components are defined on the operations; their
    theorems take the laws. *)
From S2P Require Import Prelude GoStrings Errors Resource.

Open Scope string_scope.

Abbreviation IndexFunc := (obj → result error (list string)).
Abbreviation Indexers := (gmap string IndexFunc).
Abbreviation KeyFunc := (obj → result error string).

(** ** k8s.io/client-go/tools/cache: [Indexer] *)
Class Indexer (I : Type) := {
  ix_NewIndexer : KeyFunc → Indexers → I;
  ix_Add : I → obj → result error I;
  ix_Update : I → obj → result error I;
  ix_Delete : I → obj → result error I;
  ix_Get : I → obj → result error (option obj);
  ix_GetByKey : I → string → result error (option obj);
  ix_List : I → list obj;
  ix_ListKeys : I → list string;
  ix_ByIndex : I → string → string → result error (list obj);
  ix_Replace : I → list obj → string → result error I;
  ix_IndexKeys : I → string → string → result error (list string);
  ix_GetIndexers : I → Indexers;
  ix_AddIndexers : I → Indexers → result error I;
}.

(** Objects an indexer accepts: it has a key and every index function
    succeeds on it (client-go panics when one fails). *)
Definition indexable (kf : KeyFunc) (idx : Indexers) (o : obj) (k : string) : Prop :=
  kf o = Ok k ∧ ∀ n f, idx !! n = Some f → is_ok (f o) = true.

(** [f] gives the object the index value [v]. *)
Definition index_has (f : IndexFunc) (v : string) (o : obj) : bool :=
  match f o with Ok vs => bool_decide (v ∈ vs) | Err _ => false end.

Class IndexerLaws (I : Type) `{Indexer I} := {
  ix_items : I → gmap string obj;
  ix_keyFunc : I → KeyFunc;
  ix_New_items kf idx :
    ix_items (ix_NewIndexer kf idx) = ∅ ∧ ix_keyFunc (ix_NewIndexer kf idx) = kf ∧
    ix_GetIndexers (ix_NewIndexer kf idx) = idx;
  ix_Add_spec i o k : indexable (ix_keyFunc i) (ix_GetIndexers i) o k →
    ∃ i', ix_Add i o = Ok i' ∧ ix_items i' = <[k := o]> (ix_items i) ∧
      ix_keyFunc i' = ix_keyFunc i ∧ ix_GetIndexers i' = ix_GetIndexers i;
  ix_Update_spec i o k : indexable (ix_keyFunc i) (ix_GetIndexers i) o k →
    ∃ i', ix_Update i o = Ok i' ∧ ix_items i' = <[k := o]> (ix_items i) ∧
      ix_keyFunc i' = ix_keyFunc i ∧ ix_GetIndexers i' = ix_GetIndexers i;
  ix_Delete_spec i o k : ix_keyFunc i o = Ok k →
    ∃ i', ix_Delete i o = Ok i' ∧ ix_items i' = delete k (ix_items i) ∧
      ix_keyFunc i' = ix_keyFunc i ∧ ix_GetIndexers i' = ix_GetIndexers i;
  ix_Get_spec i o k : ix_keyFunc i o = Ok k → ix_Get i o = Ok (ix_items i !! k);
  ix_GetByKey_spec i k : ix_GetByKey i k = Ok (ix_items i !! k);
  ix_ListKeys_spec i : NoDup (ix_ListKeys i) ∧ ∀ k, k ∈ ix_ListKeys i ↔ is_Some (ix_items i !! k);
  ix_Replace_spec i l ks s :
    Forall2 (indexable (ix_keyFunc i) (ix_GetIndexers i)) l ks →
    ∃ i', ix_Replace i l s = Ok i' ∧
      ix_items i' = foldl (λ m p, <[p.1 := p.2]> m) ∅ (zip ks l) ∧
      ix_keyFunc i' = ix_keyFunc i ∧ ix_GetIndexers i' = ix_GetIndexers i;
  ix_IndexKeys_spec i n f v : ix_GetIndexers i !! n = Some f →
    ∃ ks, ix_IndexKeys i n v = Ok ks ∧ NoDup ks ∧
      ∀ k, k ∈ ks ↔ ∃ o vs, ix_items i !! k = Some o ∧ f o = Ok vs ∧ v ∈ vs;
  ix_List_spec i : ix_List i ≡ₚ (map_to_list (ix_items i)).*2;
  ix_ByIndex_spec i n f v : ix_GetIndexers i !! n = Some f →
    ∃ l, ix_ByIndex i n v = Ok l ∧
      l ≡ₚ filter (λ o, index_has f v o) (map_to_list (ix_items i)).*2;
  ix_IndexKeys_none i n v : ix_GetIndexers i !! n = None →
    is_ok (ix_IndexKeys i n v) = false;
}.

(** ** github.com/armon/go-radix: [Tree]

    [WalkPrefix] is the sequence of keys it hands to a callback that never
    stops the walk. *)
Class Radix (T : Type) := {
  radix_New : T;
  radix_Insert : T → string → T;
  radix_Delete : T → string → T;
  radix_WalkPrefix : T → string → list string;
}.

Class RadixLaws (T : Type) `{Radix T} := {
  radix_keys : T → gset string;
  radix_New_spec : radix_keys radix_New = ∅;
  radix_Insert_spec t k : radix_keys (radix_Insert t k) = {[k]} ∪ radix_keys t;
  radix_Delete_spec t k : radix_keys (radix_Delete t k) = radix_keys t ∖ {[k]};
  radix_WalkPrefix_spec t p k :
    k ∈ radix_WalkPrefix t p ↔ k ∈ radix_keys t ∧ has_prefix k p = true;
}.

(** ** github.com/duke-git/lancet/v2/datastructure/set: [Set[string]] *)
Class LancetSet (S : Type) := {
  set_FromSlice : list string → S;
  set_Intersection : S → S → S;
  set_ToSlice : S → list string;
}.

Class LancetSetLaws (S : Type) `{LancetSet S} := {
  lset_elems : S → gset string;
  set_FromSlice_spec l : lset_elems (set_FromSlice l) = list_to_set l;
  set_Intersection_spec a b :
    lset_elems (set_Intersection a b) = lset_elems a ∩ lset_elems b;
  set_ToSlice_spec s : set_ToSlice s ≡ₚ elements (lset_elems s);
}.

(** ** github.com/duke-git/lancet/v2/slice: [SortBy] on resources *)
Class LancetSort := {
  slice_SortBy : (Resource → Resource → bool) → list Resource → list Resource;
}.

Class LancetSortLaws `{LancetSort} := {
  slice_SortBy_perm less l : slice_SortBy less l ≡ₚ l;
  slice_SortBy_sorted (key : Resource → string) l :
    StronglySorted (λ a b, String.le (key a) (key b))
      (slice_SortBy (λ a b, String.ltb (key a) (key b)) l);
}.

(** ** Reference instances *)
Module Ref.

Record indexer := {
  items : gmap string obj;
  keyFunc : KeyFunc;
  indexers : Indexers }.

Definition put (i : indexer) (o : obj) : result error indexer :=
  k ← keyFunc i o;
  Ok {| items := <[k := o]> (items i); keyFunc := keyFunc i; indexers := indexers i |}.

#[export] Instance indexer_ops : Indexer indexer := {
  ix_NewIndexer kf idx := {| items := ∅; keyFunc := kf; indexers := idx |};
  ix_Add := put;
  ix_Update := put;
  ix_Delete i o :=
    k ← keyFunc i o;
    Ok {| items := delete k (items i); keyFunc := keyFunc i; indexers := indexers i |};
  ix_Get i o := k ← keyFunc i o; Ok (items i !! k);
  ix_GetByKey i k := Ok (items i !! k);
  ix_List i := (map_to_list (items i)).*2;
  ix_ListKeys i := (map_to_list (items i)).*1;
  ix_ByIndex i n v :=
    match indexers i !! n with
    | None => Err (ErrorText ("Index with name " +:+ n +:+ " does not exist"))
    | Some f => Ok (filter (λ o, index_has f v o) (map_to_list (items i)).*2)
    end;
  ix_Replace i l _ :=
    ks ← result_mapM (keyFunc i) l;
    Ok {| items := foldl (λ m p, <[p.1 := p.2]> m) ∅ (zip ks l);
          keyFunc := keyFunc i; indexers := indexers i |};
  ix_IndexKeys i n v :=
    match indexers i !! n with
    | None => Err (ErrorText ("Index with name " +:+ n +:+ " does not exist"))
    | Some f => Ok (filter (λ p, index_has f v p.2) (map_to_list (items i))).*1
    end;
  ix_GetIndexers := indexers;
  ix_AddIndexers i new :=
    if decide (dom (indexers i) ## dom new) then
      Ok {| items := items i; keyFunc := keyFunc i; indexers := indexers i ∪ new |}
    else Err (ErrorText "indexer conflict");
}.

#[export] Instance indexer_laws : IndexerLaws indexer.
Proof.
  refine {| ix_items := items; ix_keyFunc := keyFunc |}.
  - done.
  - intros i o k [Hk _]. simpl. unfold put. rewrite Hk. eexists; split_and!; done.
  - intros i o k [Hk _]. simpl. unfold put. rewrite Hk. eexists; split_and!; done.
  - intros i o k Hk. simpl. rewrite Hk. eexists; split_and!; done.
  - intros i o k Hk. simpl. by rewrite Hk.
  - done.
  - intros i. simpl. split; [apply NoDup_fst_map_to_list|]. intros k.
    rewrite list_elem_of_fmap. split.
    + intros ([k' v] & -> & ?%elem_of_map_to_list). by eexists.
    + intros [v ?]. exists (k, v). by rewrite elem_of_map_to_list.
  - intros i l ks s Hl. simpl.
    assert (result_mapM (keyFunc i) l = Ok ks) as ->.
    { apply result_mapM_Ok. eapply Forall2_impl; [done|]. by intros ? ? [? _]. }
    eexists; split_and!; done.
  - intros i n f v Hn. simpl in *. rewrite Hn. eexists; split_and!; [done| |].
    + eapply sublist_NoDup; [apply (NoDup_fst_map_to_list (items i))|].
      apply (fmap_sublist fst), sublist_filter.
    + intros k. rewrite list_elem_of_fmap. split.
      * intros ([k' o] & -> & [Hm ?%elem_of_map_to_list]%list_elem_of_filter).
        unfold index_has in Hm. simpl in *. destruct (f o) as [vs|] eqn:E; [|done].
        exists o, vs. split_and!; [done..|]. by apply bool_decide_unpack in Hm.
      * intros (o & vs & Ho & Hf & Hv). exists (k, o). split; [done|].
        apply list_elem_of_filter. split; [|by apply elem_of_map_to_list].
        unfold index_has. simpl. rewrite Hf. by apply bool_decide_pack.
  - done.
  - intros i n f v Hn. simpl in *. rewrite Hn. by eexists.
  - intros i n v Hn. simpl in *. by rewrite Hn.
Defined.

#[export] Instance radix_ops : Radix (gset string) := {
  radix_New := ∅;
  radix_Insert t k := {[k]} ∪ t;
  radix_Delete t k := t ∖ {[k]};
  radix_WalkPrefix t p := filter (λ k, has_prefix k p) (elements t);
}.

#[export] Instance radix_laws : RadixLaws (gset string).
Proof.
  refine {| radix_keys := id |}; [done..|]. intros t p k. simpl.
  rewrite list_elem_of_filter, elem_of_elements, Is_true_true. naive_solver.
Defined.

#[export] Instance lset_ops : LancetSet (gset string) := {
  set_FromSlice := list_to_set;
  set_Intersection a b := a ∩ b;
  set_ToSlice := elements;
}.

#[export] Instance lset_laws : LancetSetLaws (gset string).
Proof. by refine {| lset_elems := (λ s, s) |}; intros; simpl. Defined.

#[export] Instance lsort_ops : LancetSort := {
  slice_SortBy less := merge_sort (λ a b, Is_true (negb (less b a)));
}.

Lemma string_ltb_leb a b : negb (String.ltb b a) = String.leb a b.
Proof.
  unfold String.ltb, String.leb. rewrite (String.compare_antisym b a).
  by destruct (String.compare a b).
Qed.

#[export] Instance lsort_laws : LancetSortLaws.
Proof.
  split.
  - intros less l. apply merge_sort_Permutation.
  - intros key l. simpl.
    assert (Hr : ∀ a b, Is_true (negb (String.ltb (key b) (key a))) ↔ String.le (key a) (key b)).
    { intros a b. by rewrite string_ltb_leb. }
    assert (Transitive (λ a b, Is_true (negb (String.ltb (key b) (key a))))).
    { intros a b c. rewrite !Hr. apply transitivity. }
    assert (Total (λ a b, Is_true (negb (String.ltb (key b) (key a))))).
    { intros a b. rewrite !Hr. apply total, _. }
    pose proof (StronglySorted_merge_sort
      (λ a b, Is_true (negb (String.ltb (key b) (key a)))) l) as Hs.
    induction Hs as [|x k Hs IH Hx]; constructor; [done|].
    eapply Forall_impl; [exact Hx|]. intros y. apply Hr.
Qed.

End Ref.
