(* ===== verification/Indexers.v ===== *)
(** pkg/core/store/index: the index functions of each resource kind, the
    conditions of index queries, and the registry the stores read at [Init]. *)
From S2P Require Import Prelude GoStrings Errors Resource Libs.
From Stdlib Require Import Ascii.

Open Scope string_scope.

(** ** condition.go

    An [IndexOperator] is a string; anything but the two constants reaches the
    default branch of the stores. *)
Inductive IndexOperator := Equals | HasPrefix | OtherOperator (s : string).
Record IndexCondition := {
  ic_IndexName : string;
  ic_Value : string;
  ic_Operator : IndexOperator }.

Definition operator_string (op : IndexOperator) : string :=
  match op with Equals => "Equals" | HasPrefix => "HasPrefix" | OtherOperator s => s end.

(** [reflect.TypeOf(obj).Name()]: empty for the pointer types of resources. *)
Definition obj_typeName (o : obj) : string :=
  match o with ResourceObj _ => "" | OtherObj n => n end.

(** [x, ok := obj.(T)] returning the assertion error when it fails. *)
Definition assert_spec {S} (kind : ResourceKind) (proj : Spec → option (option S))
    (o : obj) : result error (option S) :=
  match obj_resource o ≫= λ r, proj (res_spec r) with
  | Some s => Ok s
  | None => Err (NewAssertionError (kind_string kind) (obj_typeName o))
  end.

Definition as_instance (s : Spec) := match s with InstanceSpec i => Some i | _ => None end.
Definition as_rpc (s : Spec) := match s with RPCInstanceSpec i => Some i | _ => None end.
Definition as_runtime (s : Spec) := match s with RuntimeInstanceSpec i => Some i | _ => None end.
Definition as_service (s : Spec) := match s with ServiceSpec i => Some i | _ => None end.
Definition as_provider (s : Spec) :=
  match s with ServiceProviderMetadataSpec i => Some i | _ => None end.
Definition as_consumer (s : Spec) := match s with ServiceConsumerMetadataSpec i => Some (Some i) | _ => None end.
Definition as_event (s : Spec) := match s with LifecycleEventSpec i => Some i | _ => None end.
Definition as_ruleVersion (s : Spec) := match s with RuleVersionSpec i => Some i | _ => None end.

(** The shape shared by most index functions: no value for a nil spec or a
    skipped field, one value otherwise. *)
Definition index_field {S} (spec : option S) (skip : string → bool) (field : S → string)
    : list string :=
  match spec with
  | None => []
  | Some s => if skip (field s) then [] else [field s]
  end.
Definition is_empty (s : string) : bool := bool_decide (s = "").
Definition never (_ : string) : bool := false.

Section indexers.
(** [strutil.IsBlank] of lancet. *)
Context (IsBlank : string → bool).

(** *** common.go *)
Definition ByMesh (o : obj) : result error (list string) :=
  match o with
  | ResourceObj r => Ok [res_Mesh r]
  | OtherObj n => Err (NewAssertionError "Resource" n)
  end.

(** *** instance.go *)
Definition byInstanceAppName (o : obj) : result error (list string) :=
  s ← assert_spec InstanceKind as_instance o; Ok (index_field s IsBlank inst_AppName).
Definition byInstanceIp (o : obj) : result error (list string) :=
  s ← assert_spec InstanceKind as_instance o; Ok (index_field s IsBlank inst_Ip).
Definition byInstanceName (o : obj) : result error (list string) :=
  s ← assert_spec InstanceKind as_instance o; Ok (index_field s IsBlank inst_Name).

(** *** rpc_instance.go, runtime_instance.go *)
Definition byRPCInstanceAppName (o : obj) : result error (list string) :=
  s ← assert_spec RPCInstanceKind as_rpc o; Ok (index_field s IsBlank rpc_AppName).
Definition byRuntimeInstanceIp (o : obj) : result error (list string) :=
  s ← assert_spec RuntimeInstanceKind as_runtime o; Ok (index_field s IsBlank rt_Ip).
Definition byRuntimeInstanceName (o : obj) : result error (list string) :=
  s ← assert_spec RuntimeInstanceKind as_runtime o; Ok (index_field s is_empty rt_Name).

(** *** service.go, service_provider_metadata.go *)
Definition byServiceName (o : obj) : result error (list string) :=
  s ← assert_spec ServiceKind as_service o; Ok (index_field s never svc_Name).

Definition buildServiceProviderServiceKey (serviceName version group : string) : string :=
  serviceName +:+ ":" +:+ version +:+ ":" +:+ group.

Definition byServiceProviderAppName (o : obj) : result error (list string) :=
  s ← assert_spec ServiceProviderMetadataKind as_provider o;
  Ok (index_field s never spm_ProviderAppName).
Definition byServiceProviderServiceName (o : obj) : result error (list string) :=
  s ← assert_spec ServiceProviderMetadataKind as_provider o;
  Ok (index_field s never spm_ServiceName).
Definition byServiceProviderServiceKey (o : obj) : result error (list string) :=
  s ← assert_spec ServiceProviderMetadataKind as_provider o;
  Ok (index_field s never (λ m,
    buildServiceProviderServiceKey (spm_ServiceName m) (spm_Version m) (spm_Group m))).

(** *** service_consumer_metadata.go *)
Definition buildServiceConsumerServiceKey (serviceName version group : string) : string :=
  serviceName +:+ ":" +:+ version +:+ ":" +:+ group.

Definition byServiceConsumerAppName (o : obj) : result error (list string) :=
  s ← assert_spec ServiceConsumerMetadataKind as_consumer o;
  Ok (index_field s never scm_ConsumerAppName).
Definition byServiceConsumerServiceName (o : obj) : result error (list string) :=
  s ← assert_spec ServiceConsumerMetadataKind as_consumer o;
  Ok (index_field s never scm_ServiceName).
Definition byServiceConsumerServiceKey (o : obj) : result error (list string) :=
  s ← assert_spec ServiceConsumerMetadataKind as_consumer o;
  Ok (index_field s never (λ m,
    buildServiceConsumerServiceKey (scm_ServiceName m) (scm_Version m) (scm_Group m))).

(** *** lifecycle_event.go *)
Definition byLifecycleEventInvolvedObjKind (o : obj) : result error (list string) :=
  s ← assert_spec LifecycleEventKind as_event o; Ok (index_field s is_empty le_InvolvedObjKind).
Definition byLifecycleEventInvolvedObjName (o : obj) : result error (list string) :=
  s ← assert_spec LifecycleEventKind as_event o; Ok (index_field s is_empty le_InvolvedObjName).
Definition byLifecycleEventType (o : obj) : result error (list string) :=
  s ← assert_spec LifecycleEventKind as_event o; Ok (index_field s is_empty le_Type).
Definition byLifecycleEventSource (o : obj) : result error (list string) :=
  s ← assert_spec LifecycleEventKind as_event o; Ok (index_field s is_empty le_EventSource).

(** *** rule_version.go: neither a wrong type nor a nil spec is an error. *)
Definition byParentRule (o : obj) : result error (list string) :=
  match obj_resource o ≫= λ r, as_ruleVersion (res_spec r) with
  | Some (Some rv) =>
      Ok [rv_ParentRuleKind rv +:+ "/" +:+ rv_ParentRuleMesh rv +:+ "/" +:+
          rv_ParentRuleName rv]
  | _ => Ok []
  end.

(** ** registry.go *)
Abbreviation indexerRegistry := (gmap ResourceKind Indexers).

(** [maputil.Merge] of lancet. *)
Context (maputil_Merge : Indexers → Indexers → Indexers).

Definition newIndexRegistry : indexerRegistry := ∅.

Definition registry_Indexers (reg : indexerRegistry) (k : ResourceKind) : Indexers :=
  match reg !! k with Some idx => idx | None => ∅ end.

Definition registry_Register (reg : indexerRegistry) (k : ResourceKind) (idx : Indexers)
    : indexerRegistry :=
  match reg !! k with
  | None => <[k := idx]> reg
  | Some existed => <[k := maputil_Merge existed idx]> reg
  end.

(** The calls of [RegisterIndexers] the [init] functions make, in the order
    of the package's files; common.go registers [ByMesh] for every kind of
    the schema registry. *)
Definition init_registrations : list (ResourceKind * Indexers) :=
  ((λ k, (k, {[ "idx_mesh" := ByMesh ]})) <$> all_kinds) ++
  [ (InstanceKind, {[ "idx_instance_app_name" := byInstanceAppName;
                      "idx_instance_ip" := byInstanceIp;
                      "idx_instance_name" := byInstanceName ]});
    (LifecycleEventKind, {[ "idx_lifecycle_event_involved_obj_kind" := byLifecycleEventInvolvedObjKind;
                            "idx_lifecycle_event_involved_obj_name" := byLifecycleEventInvolvedObjName;
                            "idx_lifecycle_event_type" := byLifecycleEventType;
                            "idx_lifecycle_event_source" := byLifecycleEventSource ]});
    (RPCInstanceKind, {[ "idx_rpc_instance_app_name" := byRPCInstanceAppName ]});
    (RuleVersionKind, {[ "ByParentRule" := byParentRule ]});
    (RuntimeInstanceKind, {[ "idx_rt_instance_ip" := byRuntimeInstanceIp;
                             "idx_rt_instance_name" := byRuntimeInstanceName ]});
    (ServiceKind, {[ "idx_service_name" := byServiceName ]});
    (ServiceConsumerMetadataKind,
      {[ "idx_service_consumer_app_name" := byServiceConsumerAppName;
         "idx_service_consumer_service_key" := byServiceConsumerServiceKey;
         "idx_service_consumer_service_name" := byServiceConsumerServiceName ]});
    (ServiceProviderMetadataKind,
      {[ "idx_service_provider_app_name" := byServiceProviderAppName;
         "idx_service_provider_service_key" := byServiceProviderServiceKey;
         "idx_service_provider_service_name" := byServiceProviderServiceName ]}) ].

Definition IndexersRegistry : indexerRegistry :=
  foldl (λ reg p, registry_Register reg p.1 p.2) newIndexRegistry init_registrations.
End indexers.

(** ** Every registered index function accepts the resources of its kind *)
Section theorems.
Context (IsBlank : string → bool) (maputil_Merge : Indexers → Indexers → Indexers).

Definition idx_safe (k : ResourceKind) (idx : Indexers) : Prop :=
  ∀ n f, idx !! n = Some f → ∀ r, res_kind r = k → is_ok (f (ResourceObj r)) = true.
Definition registry_safe (reg : gmap ResourceKind Indexers) : Prop :=
  ∀ k idx, reg !! k = Some idx → idx_safe k idx.

Lemma idx_safe_empty k : idx_safe k ∅.
Proof. intros n f. by rewrite lookup_empty. Qed.

Lemma idx_safe_insert k n (f : IndexFunc) idx :
  (∀ r, res_kind r = k → is_ok (f (ResourceObj r)) = true) →
  idx_safe k idx → idx_safe k (<[n := f]> idx).
Proof. intros Hf Hi n' f' [[<- <-]|[_ ?]]%lookup_insert_Some; [done|by eapply Hi]. Qed.

Lemma assert_spec_kind {S} k (proj : Spec → option (option S)) r :
  (∀ s, spec_kind s = k → is_Some (proj s)) → res_kind r = k →
  ∃ s, assert_spec k proj (ResourceObj r) = Ok s.
Proof.
  intros Hp Hr. unfold assert_spec. simpl. destruct (Hp _ Hr) as [s ->]. by eexists.
Qed.

Lemma init_registrations_safe :
  Forall (λ p, idx_safe p.1 p.2) (init_registrations IsBlank).
Proof.
  unfold init_registrations. apply Forall_app. split.
  { apply Forall_fmap, Forall_true. intros k. by apply idx_safe_insert, idx_safe_empty. }
  repeat first
    [ apply Forall_nil; done | apply Forall_cons; split
    | apply idx_safe_insert | apply idx_safe_empty ]; simpl;
    intros [m mesh []] Hr; try discriminate Hr; try reflexivity.
  by destruct s.
Qed.

Context (maputil_Merge_spec : ∀ (a b : Indexers) n,
  maputil_Merge a b !! n = match b !! n with Some f => Some f | None => a !! n end).

Lemma Register_safe reg k idx :
  registry_safe reg → idx_safe k idx →
  registry_safe (registry_Register maputil_Merge reg k idx).
Proof.
  intros Hreg Hidx k' idx'. unfold registry_Register.
  destruct (reg !! k) as [old|] eqn:E.
  - intros [[<- <-]|[_ ?]]%lookup_insert_Some; [|by eapply Hreg].
    intros n f. rewrite maputil_Merge_spec. destruct (idx !! n) eqn:En.
    + intros [= <-]. by eapply Hidx.
    + by eapply Hreg.
  - intros [[<- <-]|[_ ?]]%lookup_insert_Some; [done|by eapply Hreg].
Qed.

Lemma Register_mesh reg k idx n f :
  (∀ k', registry_Indexers reg k' !! n = Some f → idx !! n = None ∨ idx !! n = Some f) →
  ∀ k', registry_Indexers reg k' !! n = Some f →
  registry_Indexers (registry_Register maputil_Merge reg k idx) k' !! n = Some f.
Proof.
  intros Hn k'. unfold registry_Indexers, registry_Register. intros Hk'.
  specialize (Hn k' Hk'). destruct (decide (k = k')) as [<-|Hne].
  - destruct (reg !! k) as [old|] eqn:E; [|by rewrite lookup_empty in Hk'].
    rewrite lookup_insert_eq, maputil_Merge_spec. by destruct Hn as [-> | ->].
  - destruct (reg !! k); by rewrite lookup_insert_ne.
Qed.

Lemma fold_Register_safe l reg :
  registry_safe reg → Forall (λ p, idx_safe p.1 p.2) l →
  registry_safe (foldl (λ reg p, registry_Register maputil_Merge reg p.1 p.2) reg l).
Proof.
  intros Hr Hl. revert reg Hr. induction Hl as [|p l Hp Hl IH]; intros reg Hr; [done|].
  simpl. apply IH. by apply Register_safe.
Qed.

Lemma IndexersRegistry_safe :
  registry_safe (IndexersRegistry IsBlank maputil_Merge).
Proof. apply fold_Register_safe, init_registrations_safe. intros k idx. unfold newIndexRegistry. by rewrite lookup_empty. Qed.

Lemma fold_Register_mesh l reg n f k :
  Forall (λ p : ResourceKind * Indexers, p.2 !! n = None ∨ p.2 !! n = Some f) l →
  registry_Indexers reg k !! n = Some f ∨ (∃ p, p ∈ l ∧ p.1 = k ∧ p.2 !! n = Some f) →
  registry_Indexers (foldl (λ reg p, registry_Register maputil_Merge reg p.1 p.2) reg l) k !! n
    = Some f.
Proof.
  intros Hl. revert reg. induction Hl as [|[k0 idx] l Hp Hl IH]; intros reg Hor; simpl.
  { destruct Hor as [?|(? & ?%elem_of_nil & _)]; done. }
  apply IH. destruct Hor as [Hin|([k1 idx1] & [Heq|Hin]%elem_of_cons & Hk & Hn)].
  - left. apply Register_mesh; [|done]. intros _ _. exact Hp.
  - left. simplify_eq/=. unfold registry_Register, registry_Indexers.
    destruct (reg !! _) as [old|]; rewrite lookup_insert_eq; [|done].
    by rewrite maputil_Merge_spec, Hn.
  - right. by exists (k1, idx1).
Qed.

(** After the [init] functions have run, the indexers the registry hands
    to a store of any kind contain the mesh index, and every one of them
    succeeds on every resource of that kind: a store never skips an index
    entry, and the indexer never panics, on an object of its own kind. *)
Theorem registered_indexers_total k :
  registry_Indexers (IndexersRegistry IsBlank maputil_Merge) k !! "idx_mesh" = Some ByMesh ∧
  ∀ n f r, registry_Indexers (IndexersRegistry IsBlank maputil_Merge) k !! n = Some f →
    res_kind r = k → is_ok (f (ResourceObj r)) = true.
Proof.
  split.
  - apply fold_Register_mesh.
    + repeat first [ apply Forall_nil; done | apply Forall_cons; split ];
        first [ by left | by right ].
    + right. exists (k, {[ "idx_mesh" := ByMesh ]}). split_and!; [|done..].
      unfold init_registrations. apply elem_of_app. left.
      apply list_elem_of_fmap. exists k. split; [done | apply elem_of_all_kinds].
  - intros n f r. unfold registry_Indexers.
    destruct (IndexersRegistry _ _ !! k) as [idx|] eqn:E; [|by rewrite lookup_empty].
    intros Hn Hr. by eapply IndexersRegistry_safe.
Qed.
End theorems.

(** The union of two maps, right operand first, is such a [Merge]. *)
Lemma registered_indexers_total_witness :
  let reg := IndexersRegistry (λ s, bool_decide (s = "")) (λ a b, b ∪ a) in
  (∀ (a b : Indexers) n, (b ∪ a) !! n = match b !! n with Some f => Some f | None => a !! n end) ∧
  registry_Indexers reg InstanceKind !! "idx_mesh" = Some ByMesh.
Proof.
  assert (H : ∀ (a b : Indexers) n,
    (b ∪ a) !! n = match b !! n with Some f => Some f | None => a !! n end).
  { intros a b n. rewrite lookup_union. by destruct (b !! n), (a !! n). }
  split; [exact H|]. exact (proj1 (registered_indexers_total _ _ H InstanceKind)).
Defined.
