(* ===== verification/Store.v ===== *)
(** pkg/core/store/store.go: the [ResourceStore] interface the rest of the
    program is written against, and what a store promises to its clients. The
    clients' theorems are proved from the laws; MemoryStore.v discharges them. *)
From S2P Require Import Prelude GoStrings Errors Resource Libs Indexers.

Open Scope string_scope.

Class ResourceStore (S : Type) := {
  st_Add : S → obj → S * option error;
  st_Update : S → obj → S * option error;
  st_Delete : S → obj → S * option error;
  st_Get : S → obj → result error (option obj);
  st_GetByKey : S → string → result error (option obj);
  st_List : S → list obj;
  st_ListKeys : S → list string;
  st_ByIndex : S → string → string → result error (list obj);
  st_GetByKeys : S → list string → result error (list Resource);
  st_ListByIndexes : S → list IndexCondition → result error (list Resource);
}.

(** The resources of [m] that the index function [f] files under [v]. *)
Definition index_matches (f : IndexFunc) (v : string) (m : gmap string Resource)
    : list Resource :=
  filter (λ r, index_has f v (ResourceObj r)) (map_to_list m).*2.

(** A store is an indexed finite map from resource keys to resources of its
    kind. [st_ok] is the store's own invariant (including that the backend is
    reachable); adding over an existing key is left open, the implementations
    differ on it. *)
Class ResourceStoreLaws (S : Type) `{ResourceStore S} := {
  st_ok : S → Prop;
  st_kind : S → ResourceKind;
  st_indexers : S → Indexers;
  st_items : S → gmap string Resource;
  st_items_key s k r : st_ok s → st_items s !! k = Some r →
    ResourceKey r = k ∧ res_kind r = st_kind s;
  st_Add_fresh s r : st_ok s → res_kind r = st_kind s →
    st_items s !! ResourceKey r = None →
    ∃ s', st_Add s (ResourceObj r) = (s', None) ∧
      st_ok s' ∧ st_kind s' = st_kind s ∧ st_indexers s' = st_indexers s ∧
      st_items s' = <[ResourceKey r := r]> (st_items s);
  st_Add_sound s r : st_ok s → res_kind r = st_kind s →
    ∃ s' err, st_Add s (ResourceObj r) = (s', err) ∧
      st_ok s' ∧ st_kind s' = st_kind s ∧ st_indexers s' = st_indexers s;
  st_Update_present s r : st_ok s → res_kind r = st_kind s →
    is_Some (st_items s !! ResourceKey r) →
    ∃ s', st_Update s (ResourceObj r) = (s', None) ∧
      st_ok s' ∧ st_kind s' = st_kind s ∧ st_indexers s' = st_indexers s ∧
      st_items s' = <[ResourceKey r := r]> (st_items s);
  st_Delete_present s r : st_ok s → is_Some (st_items s !! ResourceKey r) →
    ∃ s', st_Delete s (ResourceObj r) = (s', None) ∧
      st_ok s' ∧ st_kind s' = st_kind s ∧ st_indexers s' = st_indexers s ∧
      st_items s' = delete (ResourceKey r) (st_items s);
  st_Get_spec s r : st_ok s →
    st_Get s (ResourceObj r) = Ok (ResourceObj <$> st_items s !! ResourceKey r);
  st_GetByKey_spec s k : st_ok s → st_GetByKey s k = Ok (ResourceObj <$> st_items s !! k);
  st_List_spec s : st_ok s →
    st_List s ≡ₚ ResourceObj <$> (map_to_list (st_items s)).*2;
  st_ListKeys_spec s : st_ok s → NoDup (st_ListKeys s) ∧
    ∀ k, k ∈ st_ListKeys s ↔ is_Some (st_items s !! k);
  st_ByIndex_spec s n f v : st_ok s → st_indexers s !! n = Some f →
    ∃ l, st_ByIndex s n v = Ok (ResourceObj <$> l) ∧ l ≡ₚ index_matches f v (st_items s);
  st_GetByKeys_spec s ks : st_ok s → NoDup ks →
    ∃ l, st_GetByKeys s ks = Ok l ∧ l ≡ₚ omap (λ k, st_items s !! k) ks;
}.

Lemma elem_of_index_matches f v m r :
  r ∈ index_matches f v m ↔
  (∃ k, m !! k = Some r) ∧ index_has f v (ResourceObj r) = true.
Proof.
  unfold index_matches. rewrite list_elem_of_filter, Is_true_true, list_elem_of_fmap.
  split.
  - intros (? & [k r'] & -> & Hin%elem_of_map_to_list). eauto.
  - intros ([k Hk] & ?). split; [done|]. exists (k, r).
    by rewrite elem_of_map_to_list.
Qed.

Lemma index_has_Ok f v o vs : f o = Ok vs → index_has f v o = true ↔ v ∈ vs.
Proof. unfold index_has. intros ->. apply bool_decide_eq_true. Qed.

(** A reference store that rejects taken keys, as the database store does; the
    clients' theorems about concurrent writers are instantiated with it. *)
Module RefStore.

Record store := {
  kind : ResourceKind;
  indexers : Indexers;
  items : gmap string Resource }.

Definition with_items (s : store) (m : gmap string Resource) : store :=
  {| kind := kind s; indexers := indexers s; items := m |}.

Definition change (s : store) (o : obj) (present : bool)
    (f : string → Resource → gmap string Resource) : store * option error :=
  match o with
  | ResourceObj r =>
      if bool_decide (is_Some (items s !! ResourceKey r)) then
        if present then (with_items s (f (ResourceKey r) r), None)
        else (s, Some (ErrorResourceAlreadyExists (kind_string (kind s)) (res_Name r) (res_Mesh r)))
      else if present then
        (s, Some (ErrorResourceNotFound (kind_string (kind s)) (res_Name r) (res_Mesh r)))
      else (with_items s (f (ResourceKey r) r), None)
  | OtherObj _ => (s, Some (ErrorText "not a resource"))
  end.

Definition matches (s : store) (c : IndexCondition) (r : Resource) : bool :=
  match indexers s !! ic_IndexName c with
  | None => false
  | Some f =>
      match f (ResourceObj r), ic_Operator c with
      | Ok vs, HasPrefix => existsb (String.prefix (ic_Value c)) vs
      | Ok vs, _ => bool_decide (ic_Value c ∈ vs)
      | Err _, _ => false
      end
  end.

#[export] Instance ops : ResourceStore store := {
  st_Add s o := change s o false (λ k r, <[k := r]> (items s));
  st_Update s o := change s o true (λ k r, <[k := r]> (items s));
  st_Delete s o := change s o true (λ k _, delete k (items s));
  st_Get s o :=
    match o with
    | ResourceObj r => Ok (ResourceObj <$> items s !! ResourceKey r)
    | OtherObj _ => Err (ErrorText "not a resource")
    end;
  st_GetByKey s k := Ok (ResourceObj <$> items s !! k);
  st_List s := ResourceObj <$> (map_to_list (items s)).*2;
  st_ListKeys s := (map_to_list (items s)).*1;
  st_ByIndex s n v :=
    match indexers s !! n with
    | None => Err (ErrorText "no such index")
    | Some f => Ok (ResourceObj <$> index_matches f v (items s))
    end;
  st_GetByKeys s ks := Ok (omap (λ k, items s !! k) ks);
  st_ListByIndexes s cs :=
    Ok (omap (λ k, items s !! k)
      (sort_strings (filter (λ p, forallb (λ c, matches s c p.2) cs) (map_to_list (items s))).*1));
}.

Definition well_keyed (s : store) : Prop :=
  map_Forall (λ k r, ResourceKey r = k ∧ res_kind r = kind s) (items s).

#[export] Program Instance laws : ResourceStoreLaws store := {
  st_ok := well_keyed;
  st_kind := kind;
  st_indexers := indexers;
  st_items := items }.
Next Obligation. intros s k r Hs Hk. by apply Hs. Qed.
Next Obligation.
  intros s r Hs Hr Hn. simpl. rewrite bool_decide_eq_false_2 by (rewrite Hn; by intros []).
  eexists. split_and!; try done. by apply map_Forall_insert_2.
Qed.
Next Obligation.
  intros s r Hs Hr. simpl. destruct (bool_decide _); eexists _, _; split_and!; try done.
  by apply map_Forall_insert_2.
Qed.
Next Obligation.
  intros s r Hs Hr Hp. simpl. rewrite bool_decide_eq_true_2 by done.
  eexists. split_and!; try done. by apply map_Forall_insert_2.
Qed.
Next Obligation.
  intros s r Hs Hp. simpl. rewrite bool_decide_eq_true_2 by done.
  eexists. split_and!; try done. by apply map_Forall_delete.
Qed.
Next Obligation. done. Qed.
Next Obligation. done. Qed.
Next Obligation. done. Qed.
Next Obligation.
  intros s _. simpl. split; [apply NoDup_fst_map_to_list|]. intros k. rewrite list_elem_of_fmap. split.
  - intros ([k' r] & -> & Hin%elem_of_map_to_list). by eexists.
  - intros [r Hr]. exists (k, r). by rewrite elem_of_map_to_list.
Qed.
Next Obligation. intros s n f v _ Hf. simpl in *. rewrite Hf. by eexists. Qed.
Next Obligation. intros s ks _ _. by eexists. Qed.

End RefStore.
