(* ===== verification/MemoryStore.v ===== *)
(** pkg/store/memory/store.go: the in-memory [resourceStore], a client-go
    indexer next to one radix tree per index for the prefix queries. *)
From S2P Require Import Prelude GoStrings Errors Resource Libs Indexers Store.
From Stdlib Require Import Ascii.

Open Scope string_scope.

Section memory.
Context {I T S : Type} `{Indexer I, Radix T, LancetSet S, LancetSort, MapRange}.

Record resourceStore := {
  rs_rk : ResourceKind;
  rs_storeProxy : I;
  rs_prefixTrees : gmap string T }.

Definition with_proxy (rs : resourceStore) (p : I) : resourceStore :=
  {| rs_rk := rs_rk rs; rs_storeProxy := p; rs_prefixTrees := rs_prefixTrees rs |}.
Definition with_trees (rs : resourceStore) (t : gmap string T) : resourceStore :=
  {| rs_rk := rs_rk rs; rs_storeProxy := rs_storeProxy rs; rs_prefixTrees := t |}.

(** The key function [Init] gives the indexer. *)
Definition store_keyFunc : KeyFunc := λ o,
  match o with
  | ResourceObj r => Ok (ResourceKey r)
  | OtherObj _ => Err (not_a_resource o)
  end.

(** [NewMemoryResourceStore] followed by [Init]; [indexers] is
    [IndexersRegistry().Indexers(rk)]. *)
Definition Init (rk : ResourceKind) (indexers : Indexers) : resourceStore :=
  {| rs_rk := rk;
     rs_storeProxy := ix_NewIndexer store_keyFunc indexers;
     rs_prefixTrees :=
       foldl (λ t p, <[p.1 := radix_New]> t) ∅ (go_range indexers) |}.

(** The tree key of index value [v] and resource key [k]. *)
Definition tree_key (v k : string) : string := v +:+ String PathSeparator k.

(** One pass of the loops of [addToTrees] and [removeFromTrees] over the
    indexers: [upd] is [tree.Insert] or [tree.Delete]. *)
Definition touch_trees (upd : T → string → T) (rs : resourceStore) (r : Resource)
    : resourceStore :=
  with_trees rs (foldl (λ trees p,
    match p.2 (ResourceObj r) with
    | Err _ => trees
    | Ok values =>
        match trees !! p.1 with
        | None => trees
        | Some tree =>
            <[p.1 := foldl (λ t v, upd t (tree_key v (ResourceKey r))) tree values]> trees
        end
    end) (rs_prefixTrees rs) (go_range (ix_GetIndexers (rs_storeProxy rs)))).

Definition addToTrees : resourceStore → Resource → resourceStore := touch_trees radix_Insert.
Definition removeFromTrees : resourceStore → Resource → resourceStore :=
  touch_trees radix_Delete.

Definition Add (rs : resourceStore) (o : obj) : resourceStore * option error :=
  match ix_Add (rs_storeProxy rs) o with
  | Err e => (rs, Some e)
  | Ok p =>
      let rs := with_proxy rs p in
      match o with
      | ResourceObj r => (addToTrees rs r, None)
      | OtherObj _ => (rs, None)
      end
  end.

Definition Update (rs : resourceStore) (o : obj) : resourceStore * option error :=
  let oldRes :=
    match o with
    | ResourceObj r =>
        match ix_Get (rs_storeProxy rs) (ResourceObj r) with
        | Ok (Some oldObj) => obj_resource oldObj
        | _ => None
        end
    | OtherObj _ => None
    end in
  match ix_Update (rs_storeProxy rs) o with
  | Err e => (rs, Some e)
  | Ok p =>
      let rs := with_proxy rs p in
      match o with
      | ResourceObj r =>
          let rs := match oldRes with Some old => removeFromTrees rs old | None => rs end in
          (addToTrees rs r, None)
      | OtherObj _ => (rs, None)
      end
  end.

Definition Delete (rs : resourceStore) (o : obj) : resourceStore * option error :=
  match ix_Delete (rs_storeProxy rs) o with
  | Err e => (rs, Some e)
  | Ok p =>
      let rs := with_proxy rs p in
      match o with
      | ResourceObj r => (removeFromTrees rs r, None)
      | OtherObj _ => (rs, None)
      end
  end.

(** The trees are emptied before the indexer is replaced, and stay empty when
    that fails. *)
Definition Replace (rs : resourceStore) (l : list obj) (s : string)
    : resourceStore * option error :=
  let rs := with_trees rs ((λ _, radix_New) <$> rs_prefixTrees rs) in
  match ix_Replace (rs_storeProxy rs) l s with
  | Err e => (rs, Some e)
  | Ok p =>
      (foldl (λ rs o, match o with
                      | ResourceObj r => addToTrees rs r
                      | OtherObj _ => rs
                      end) (with_proxy rs p) l, None)
  end.

Definition AddIndexers (rs : resourceStore) (newIndexers : Indexers)
    : resourceStore * option error :=
  match ix_AddIndexers (rs_storeProxy rs) newIndexers with
  | Err e => (rs, Some e)
  | Ok p =>
      (with_trees (with_proxy rs p)
         (foldl (λ trees q, match trees !! q.1 with
                            | Some _ => trees
                            | None => <[q.1 := radix_New]> trees
                            end) (rs_prefixTrees rs) (go_range newIndexers)), None)
  end.

Definition Get (rs : resourceStore) (o : obj) := ix_Get (rs_storeProxy rs) o.
Definition GetByKey (rs : resourceStore) (k : string) := ix_GetByKey (rs_storeProxy rs) k.
Definition List_ (rs : resourceStore) := ix_List (rs_storeProxy rs).
Definition ListKeys (rs : resourceStore) := ix_ListKeys (rs_storeProxy rs).
Definition ByIndex (rs : resourceStore) := ix_ByIndex (rs_storeProxy rs).

(** Keys that are not in the store are skipped. *)
Fixpoint GetByKeys (rs : resourceStore) (keys : list string) : result error (list Resource) :=
  match keys with
  | [] => Ok []
  | key :: keys =>
      match ix_GetByKey (rs_storeProxy rs) key with
      | Err e => Err e
      | Ok None => GetByKeys rs keys
      | Ok (Some (OtherObj n)) => Err (not_a_resource (OtherObj n))
      | Ok (Some (ResourceObj res)) =>
          resources ← GetByKeys rs keys; Ok (res :: resources)
      end
  end.

Definition getKeysByPrefix (rs : resourceStore) (indexName prefix : string)
    : result error (list string) :=
  match rs_prefixTrees rs !! indexName with
  | None => Err (ErrorText ("index " +:+ indexName +:+ " does not exist"))
  | Some tree =>
      Ok (omap (λ k,
        match str_index PathSeparator k with
        | Some idx => if decide (idx < String.length k - 1) then Some (str_drop (idx + 1) k)
                      else None
        | None => None
        end) (radix_WalkPrefix tree prefix))
  end.

Definition condition_keys (rs : resourceStore) (c : IndexCondition)
    : result error (list string) :=
  match ic_Operator c with
  | Equals => ix_IndexKeys (rs_storeProxy rs) (ic_IndexName c) (ic_Value c)
  | HasPrefix => getKeysByPrefix rs (ic_IndexName c) (ic_Value c)
  | OtherOperator s =>
      Err (biz_new InvalidArgument ("operator not yet supported: " +:+ s))
  end.

(** The loop over the conditions after the first: [keySet] accumulates. *)
Fixpoint intersect_conditions (rs : resourceStore) (keySet : S) (l : list IndexCondition)
    : result error S :=
  match l with
  | [] => Ok keySet
  | c :: l =>
      keys ← condition_keys rs c;
      intersect_conditions rs (set_Intersection keySet (set_FromSlice keys)) l
  end.

Definition getKeysByIndexes (rs : resourceStore) (indexes : list IndexCondition)
    : result error (list string) :=
  match indexes with
  | [] => Ok []
  | c :: l =>
      keys ← condition_keys rs c;
      keySet ← intersect_conditions rs (set_FromSlice keys) l;
      Ok (set_ToSlice keySet)
  end.

Definition ListByIndexes (rs : resourceStore) (indexes : list IndexCondition)
    : result error (list Resource) :=
  keys ← getKeysByIndexes rs indexes;
  resources ← GetByKeys rs keys;
  Ok (slice_SortBy (λ r1 r2, String.ltb (ResourceKey r1) (ResourceKey r2)) resources).

(** The page loop from index [i] on; [fuel] exceeds the number of keys, so
    that the loop condition fails before it runs out. [None] is a run-time panic ([keys[i]] out of range). *)
Fixpoint page_loop (fuel : nat) (rs : resourceStore) (keys : list string)
    (pageSize i total : Z) (resources : list Resource)
    : option (result error (list Resource * Z)) :=
  match fuel with
  | O => Some (Ok (resources, total))
  | Datatypes.S fuel =>
      if decide (Z.of_nat (length resources) < pageSize ∧ i < total)%Z then
        if decide (i < 0)%Z then None
        else match keys !! Z.to_nat i with
        | None => None
        | Some key =>
            match ix_GetByKey (rs_storeProxy rs) key with
            | Err e => Some (Err e)
            | Ok None => page_loop fuel rs keys pageSize (i + 1) (total - 1) resources
            | Ok (Some (OtherObj n)) => Some (Err (not_a_resource (OtherObj n)))
            | Ok (Some (ResourceObj res)) =>
                page_loop fuel rs keys pageSize (i + 1) total (resources ++ [res])
            end
        end
      else Some (Ok (resources, total))
  end.

(** [make([]Resource, 0, pq.PageSize)] panics on a negative capacity. *)
Definition PageListByIndexes (rs : resourceStore) (indexes : list IndexCondition)
    (pq : PageReq) : option (result error (PageData Resource)) :=
  match getKeysByIndexes rs indexes with
  | Err e => Some (Err e)
  | Ok keys =>
      let keys := sort_strings keys in
      if decide (PageSize pq < 0)%Z then None
      else
        match page_loop (Datatypes.S (length keys)) rs keys (PageSize pq) (PageOffset pq)
                (Z.of_nat (length keys)) [] with
        | None => None
        | Some (Err e) => Some (Err e)
        | Some (Ok (resources, total)) =>
            Some (Ok (NewPageData total (PageOffset pq) (PageSize pq) resources))
        end
  end.

#[export] Instance memory_store : ResourceStore resourceStore := {
  st_Add := Add; st_Update := Update; st_Delete := Delete;
  st_Get := Get; st_GetByKey := GetByKey; st_List := List_; st_ListKeys := ListKeys;
  st_ByIndex := ByIndex; st_GetByKeys := GetByKeys; st_ListByIndexes := ListByIndexes;
}.
End memory.
Arguments resourceStore : clear implicits.

(** ** The store against its interface *)
Section store_laws.
Context {I T S : Type} `{Indexer I, !IndexerLaws I, Radix T, LancetSet S, LancetSort, MapRange}.
Abbreviation rstore := (resourceStore I T).

Definition proxy_items (rs : rstore) : gmap string obj := ix_items (rs_storeProxy rs).
Definition proxy_indexers (rs : rstore) : Indexers := ix_GetIndexers (rs_storeProxy rs).

(** The indexer holds resources of the store's kind under their keys, and
    every index function works on that kind. *)
Record mem_ok (rs : rstore) : Prop := {
  mo_keyFunc : ix_keyFunc (rs_storeProxy rs) = store_keyFunc;
  mo_items k o : proxy_items rs !! k = Some o →
    ∃ r, o = ResourceObj r ∧ ResourceKey r = k ∧ res_kind r = rs_rk rs;
  mo_indexers : idx_safe (rs_rk rs) (proxy_indexers rs) }.

Definition mem_items (rs : rstore) : gmap string Resource := omap obj_resource (proxy_items rs).

(** One step of the loop of [touch_trees] at the tree of index [f]. *)
Definition touch_tree (upd : T → string → T) (r : Resource) (f : IndexFunc) (tree : T) : T :=
  match f (ResourceObj r) with
  | Ok values => foldl (λ t v, upd t (tree_key v (ResourceKey r))) tree values
  | Err _ => tree
  end.

Lemma touch_trees_lookup upd (rs : rstore) r n :
  rs_prefixTrees (touch_trees upd rs r) !! n =
  match proxy_indexers rs !! n with
  | Some f => touch_tree upd r f <$> rs_prefixTrees rs !! n
  | None => rs_prefixTrees rs !! n
  end.
Proof.
  unfold touch_trees, proxy_indexers. simpl.
  set (step := λ (trees : gmap string T) (p : string * IndexFunc),
    match p.2 (ResourceObj r) with Err _ => trees | Ok values => _ end).
  assert (Hstep : ∀ trees p, step trees p = alter (touch_tree upd r p.2) p.1 trees).
  { intros trees [k f]. apply map_eq. intros j. unfold step, touch_tree. simpl.
    destruct (decide (k = j)) as [<-|Hne].
    - rewrite lookup_alter_eq. destruct (f (ResourceObj r)); [|by destruct (trees !! k)].
      destruct (trees !! k) eqn:E; [by rewrite lookup_insert_eq | by rewrite E].
    - rewrite lookup_alter_ne by done. destruct (f (ResourceObj r)); [|done].
      destruct (trees !! k); [by rewrite lookup_insert_ne | done]. }
  assert (Hfold : ∀ l trees, foldl step trees l =
    foldl (λ m p, alter (touch_tree upd r p.2) p.1 m) trees l).
  { induction l as [|p l IH]; intros trees; simpl; [done|]. by rewrite Hstep, IH. }
  rewrite Hfold, foldl_alter_lookup by apply NoDup_go_range_fst.
  by rewrite list_to_map_go_range.
Qed.

Lemma touch_trees_proxy upd (rs : rstore) r :
  rs_storeProxy (touch_trees upd rs r) = rs_storeProxy rs ∧
  rs_rk (touch_trees upd rs r) = rs_rk rs.
Proof. done. Qed.

Lemma mem_ok_indexable rs r :
  mem_ok rs → res_kind r = rs_rk rs →
  indexable (ix_keyFunc (rs_storeProxy rs)) (ix_GetIndexers (rs_storeProxy rs))
    (ResourceObj r) (ResourceKey r).
Proof.
  intros [Hk _ Hi] Hr. split; [by rewrite Hk|]. intros n f Hf. by eapply Hi.
Qed.

(** [mem_ok] and the view of the items only depend on the indexer. *)
Lemma mem_ok_insert (rs rs' : rstore) r :
  mem_ok rs → res_kind r = rs_rk rs → rs_rk rs' = rs_rk rs →
  ix_keyFunc (rs_storeProxy rs') = ix_keyFunc (rs_storeProxy rs) →
  proxy_indexers rs' = proxy_indexers rs →
  proxy_items rs' = <[ResourceKey r := ResourceObj r]> (proxy_items rs) →
  mem_ok rs' ∧ mem_items rs' = <[ResourceKey r := r]> (mem_items rs).
Proof.
  intros [Hk Hi Hx] Hr Hrk Hkf Hidx Hit. split.
  - split; [congruence | | by rewrite Hrk, Hidx]. intros k o. rewrite Hit, Hrk.
    intros [[<- <-]|[_ ?]]%lookup_insert_Some; [by eauto | by apply Hi].
  - unfold mem_items. rewrite Hit. by rewrite (omap_insert_Some _ _ _ _ r).
Qed.

Lemma mem_ok_delete (rs rs' : rstore) k :
  mem_ok rs → rs_rk rs' = rs_rk rs →
  ix_keyFunc (rs_storeProxy rs') = ix_keyFunc (rs_storeProxy rs) →
  proxy_indexers rs' = proxy_indexers rs →
  proxy_items rs' = delete k (proxy_items rs) →
  mem_ok rs' ∧ mem_items rs' = delete k (mem_items rs).
Proof.
  intros [Hk Hi Hx] Hrk Hkf Hidx Hit. split.
  - split; [congruence | | by rewrite Hrk, Hidx]. intros j o. rewrite Hit, Hrk.
    intros [_ ?]%lookup_delete_Some. by apply Hi.
  - unfold mem_items. by rewrite Hit, omap_delete.
Qed.

Lemma mem_items_Some rs k r :
  mem_ok rs → mem_items rs !! k = Some r ↔ proxy_items rs !! k = Some (ResourceObj r).
Proof.
  intros Hok. unfold mem_items. rewrite lookup_omap. split.
  - destruct (proxy_items rs !! k) as [o|] eqn:E; [|done]. simpl.
    destruct (mo_items _ Hok _ _ E) as (r' & -> & _). by intros [= ->].
  - by intros ->.
Qed.

Lemma mem_items_key rs k r :
  mem_ok rs → mem_items rs !! k = Some r → ResourceKey r = k ∧ res_kind r = rs_rk rs.
Proof.
  intros Hok Hr%mem_items_Some; [|done].
  by destruct (mo_items _ Hok _ _ Hr) as (? & [= <-] & ? & ?).
Qed.

Lemma proxy_lookup rs k :
  mem_ok rs → proxy_items rs !! k = ResourceObj <$> mem_items rs !! k.
Proof.
  intros Hok. unfold mem_items. rewrite lookup_omap.
  destruct (proxy_items rs !! k) as [o|] eqn:E; [|done].
  by destruct (mo_items _ Hok _ _ E) as (r' & -> & _).
Qed.

Lemma Add_spec rs r :
  mem_ok rs → res_kind r = rs_rk rs →
  ∃ p, Add rs (ResourceObj r) = (addToTrees (with_proxy rs p) r, None) ∧
    ix_keyFunc p = ix_keyFunc (rs_storeProxy rs) ∧
    ix_GetIndexers p = proxy_indexers rs ∧
    ix_items p = <[ResourceKey r := ResourceObj r]> (proxy_items rs).
Proof.
  intros Hok Hr. destruct (ix_Add_spec _ _ _ (mem_ok_indexable _ _ Hok Hr))
    as (p & Hp & Hi & Hkf & Hidx).
  exists p. unfold Add. by rewrite Hp.
Qed.

Lemma Delete_spec rs r :
  mem_ok rs →
  ∃ p, Delete rs (ResourceObj r) = (removeFromTrees (with_proxy rs p) r, None) ∧
    ix_keyFunc p = ix_keyFunc (rs_storeProxy rs) ∧
    ix_GetIndexers p = proxy_indexers rs ∧
    ix_items p = delete (ResourceKey r) (proxy_items rs).
Proof.
  intros Hok. destruct (ix_Delete_spec (rs_storeProxy rs) (ResourceObj r) (ResourceKey r))
    as (p & Hp & Hi & Hkf & Hidx); [by rewrite (mo_keyFunc _ Hok)|].
  exists p. unfold Delete. by rewrite Hp.
Qed.

(** The object the code finds under the key of [r] before an update. *)
Lemma Update_spec rs r :
  mem_ok rs → res_kind r = rs_rk rs →
  ∃ p, Update rs (ResourceObj r) =
      (addToTrees (match mem_items rs !! ResourceKey r with
                   | Some old => removeFromTrees (with_proxy rs p) old
                   | None => with_proxy rs p
                   end) r, None) ∧
    ix_keyFunc p = ix_keyFunc (rs_storeProxy rs) ∧
    ix_GetIndexers p = proxy_indexers rs ∧
    ix_items p = <[ResourceKey r := ResourceObj r]> (proxy_items rs).
Proof.
  intros Hok Hr. destruct (ix_Update_spec _ _ _ (mem_ok_indexable _ _ Hok Hr))
    as (p & Hp & Hi & Hkf & Hidx).
  exists p. unfold Update. rewrite Hp.
  rewrite (ix_Get_spec _ _ (ResourceKey r)) by by rewrite (mo_keyFunc _ Hok).
  fold (proxy_items rs). rewrite proxy_lookup by done.
  split_and!; [by destruct (mem_items rs !! ResourceKey r) | done..].
Qed.

Lemma proxy_items_fmap rs : mem_ok rs → proxy_items rs = ResourceObj <$> mem_items rs.
Proof. intros Hok. apply map_eq. intros k. by rewrite lookup_fmap, proxy_lookup. Qed.

Lemma GetByKeys_omap rs keys :
  mem_ok rs → GetByKeys rs keys = Ok (omap (λ k, mem_items rs !! k) keys).
Proof.
  intros Hok. induction keys as [|k keys IH]; simpl; [done|].
  rewrite ix_GetByKey_spec. fold (proxy_items rs). rewrite proxy_lookup by done.
  destruct (mem_items rs !! k) as [r|]; simpl; by rewrite IH.
Qed.

Lemma filter_ResourceObj f v (l : list Resource) :
  filter (λ o, index_has f v o) (ResourceObj <$> l) =
  ResourceObj <$> filter (λ r, index_has f v (ResourceObj r)) l.
Proof.
  induction l as [|r l IH]; [done|].
  rewrite fmap_cons, !filter_cons, IH. by case_decide.
Qed.

Lemma proxy_values rs :
  mem_ok rs → (map_to_list (proxy_items rs)).*2 ≡ₚ ResourceObj <$> (map_to_list (mem_items rs)).*2.
Proof.
  intros Hok. rewrite proxy_items_fmap, map_to_list_fmap by done.
  rewrite <-!list_fmap_compose. by apply Permutation_refl'.
Qed.

Lemma ByIndex_spec rs n f v :
  mem_ok rs → proxy_indexers rs !! n = Some f →
  ∃ l, ByIndex rs n v = Ok (ResourceObj <$> l) ∧ l ≡ₚ index_matches f v (mem_items rs).
Proof.
  intros Hok Hf. destruct (ix_ByIndex_spec _ _ _ v Hf) as (l & Hl & Hp).
  fold (proxy_items rs) in Hp. rewrite proxy_values, filter_ResourceObj in Hp by done.
  destruct (Permutation_map_inv _ _ Hp) as (l' & -> & Hp').
  exists l'. split; [done|]. unfold index_matches. by rewrite Hp'.
Qed.

(** The memory store implements the interface: its invariant is [mem_ok]. *)
#[export] Program Instance memory_store_laws : ResourceStoreLaws rstore := {
  st_ok := mem_ok;
  st_kind := rs_rk;
  st_indexers := proxy_indexers;
  st_items := mem_items;
}.
Next Obligation. intros s k r. apply mem_items_key. Qed.
Next Obligation.
  intros s r Hok Hr _. destruct (Add_spec s r Hok Hr) as (p & Hp & Hkf & Hidx & Hit).
  eexists. split; [exact Hp|].
  destruct (mem_ok_insert s (addToTrees (with_proxy s p) r) r); done.
Qed.
Next Obligation.
  intros s r Hok Hr. destruct (Add_spec s r Hok Hr) as (p & Hp & Hkf & Hidx & Hit).
  eexists _, _. split; [exact Hp|].
  by destruct (mem_ok_insert s (addToTrees (with_proxy s p) r) r).
Qed.
Next Obligation.
  intros s r Hok Hr _. destruct (Update_spec s r Hok Hr) as (p & Hp & Hkf & Hidx & Hit).
  eexists. split; [exact Hp|]. destruct (mem_items s !! ResourceKey r) as [old|].
  - destruct (mem_ok_insert s (addToTrees (removeFromTrees (with_proxy s p) old) r) r); done.
  - destruct (mem_ok_insert s (addToTrees (with_proxy s p) r) r); done.
Qed.
Next Obligation.
  intros s r Hok _. destruct (Delete_spec s r Hok) as (p & Hp & Hkf & Hidx & Hit).
  eexists. split; [exact Hp|].
  destruct (mem_ok_delete s (removeFromTrees (with_proxy s p) r) (ResourceKey r)); done.
Qed.
Next Obligation.
  intros s r Hok. simpl. unfold Get.
  rewrite (ix_Get_spec _ _ (ResourceKey r)) by by rewrite (mo_keyFunc _ Hok).
  f_equal. by apply proxy_lookup.
Qed.
Next Obligation.
  intros s k Hok. simpl. unfold GetByKey. rewrite ix_GetByKey_spec. f_equal.
  by apply proxy_lookup.
Qed.
Next Obligation.
  intros s Hok. simpl. unfold List_. rewrite ix_List_spec. by apply proxy_values.
Qed.
Next Obligation.
  intros s Hok. simpl. destruct (ix_ListKeys_spec (rs_storeProxy s)) as [? Hk].
  split; [done|]. intros k. unfold ListKeys. rewrite Hk. fold (proxy_items s).
  by rewrite proxy_lookup, fmap_is_Some.
Qed.
Next Obligation. intros s n f v Hok Hf. by apply ByIndex_spec. Qed.
Next Obligation.
  intros s ks Hok _. simpl. rewrite GetByKeys_omap by done. by eexists.
Qed.
End store_laws.

(** ** The prefix trees and the queries *)
Section queries.
Context {I T S : Type} `{Indexer I, !IndexerLaws I, Radix T, !RadixLaws T,
  LancetSet S, !LancetSetLaws S, LancetSort, !LancetSortLaws, MapRange}.
Abbreviation rstore := (resourceStore I T).

(** The indexes whose values hold no separator: the keys of a tree are split
    at their first one, so that only these trees can be told apart. *)
Context (N : string → Prop).

(** The keys the tree of index [f] holds for the resources of [m]. *)
Definition entries (f : IndexFunc) (m : gmap string Resource) (s : string) : Prop :=
  ∃ k r v, m !! k = Some r ∧ index_has f v (ResourceObj r) = true ∧ s = tree_key v k.

(** Every index has its tree, and the trees of [N] hold exactly the entries of
    the stored resources. *)
Record trees_ok (rs : rstore) : Prop := {
  to_dom n : is_Some (proxy_indexers rs !! n) ↔ is_Some (rs_prefixTrees rs !! n);
  to_keys n f t s : N n → proxy_indexers rs !! n = Some f → rs_prefixTrees rs !! n = Some t →
    s ∈ radix_keys t ↔ entries f (mem_items rs) s }.

(** The values of [r] under the indexes of [N] contain no separator. *)
Definition plain (idx : Indexers) (r : Resource) : Prop :=
  ∀ n f v, N n → idx !! n = Some f → index_has f v (ResourceObj r) = true → no_sep v.

Record sync (rs : rstore) : Prop := {
  sy_ok : mem_ok rs;
  sy_trees : trees_ok rs;
  sy_plain k r : mem_items rs !! k = Some r → plain (proxy_indexers rs) r }.

Lemma foldl_insert_keys (values : list string) (t : T) k s :
  s ∈ radix_keys (foldl (λ t v, radix_Insert t (tree_key v k)) t values) ↔
  s ∈ radix_keys t ∨ ∃ v, v ∈ values ∧ s = tree_key v k.
Proof.
  revert t. induction values as [|v vs IH]; intros t; simpl; [set_solver|].
  rewrite IH, radix_Insert_spec. set_solver.
Qed.

Lemma foldl_delete_keys (values : list string) (t : T) k s :
  s ∈ radix_keys (foldl (λ t v, radix_Delete t (tree_key v k)) t values) ↔
  s ∈ radix_keys t ∧ ¬ ∃ v, v ∈ values ∧ s = tree_key v k.
Proof.
  revert t. induction values as [|v vs IH]; intros t; simpl; [set_solver|].
  rewrite IH, radix_Delete_spec. set_solver.
Qed.

Lemma touch_insert_keys r f (t : T) s :
  s ∈ radix_keys (touch_tree radix_Insert r f t) ↔
  s ∈ radix_keys t ∨ ∃ v, index_has f v (ResourceObj r) = true ∧ s = tree_key v (ResourceKey r).
Proof.
  unfold touch_tree, index_has. destruct (f (ResourceObj r)) as [vs|e].
  - rewrite foldl_insert_keys. by setoid_rewrite bool_decide_eq_true.
  - naive_solver.
Qed.

Lemma touch_delete_keys r f (t : T) s :
  s ∈ radix_keys (touch_tree radix_Delete r f t) ↔
  s ∈ radix_keys t ∧
  ¬ ∃ v, index_has f v (ResourceObj r) = true ∧ s = tree_key v (ResourceKey r).
Proof.
  unfold touch_tree, index_has. destruct (f (ResourceObj r)) as [vs|e].
  - rewrite foldl_delete_keys. by setoid_rewrite bool_decide_eq_true.
  - naive_solver.
Qed.

Lemma tree_key_inj v v' k k' :
  no_sep v → no_sep v' → tree_key v k = tree_key v' k' → v = v' ∧ k = k'.
Proof. apply str_sep_inj. Qed.

(** Touching the trees keeps one tree per index. *)
Lemma touch_trees_dom upd (rs : rstore) r n :
  is_Some (rs_prefixTrees (touch_trees upd rs r) !! n) ↔ is_Some (rs_prefixTrees rs !! n).
Proof.
  rewrite touch_trees_lookup. destruct (proxy_indexers rs !! n); [by rewrite fmap_is_Some|done].
Qed.

(** The trees of a store whose items went from [m] to [m with r], when the
    trees held the entries of [m] and [r] was not in [m]. *)
Lemma entries_insert f m r s :
  m !! ResourceKey r = None →
  entries f (<[ResourceKey r := r]> m) s ↔
  entries f m s ∨ ∃ v, index_has f v (ResourceObj r) = true ∧ s = tree_key v (ResourceKey r).
Proof.
  intros Hm. unfold entries. split.
  - intros (k & r' & v & [[<- <-]|[Hne ?]]%lookup_insert_Some & Hv & ->); [right; eauto|].
    left; by exists k, r', v.
  - intros [(k & r' & v & Hk & Hv & ->)|(v & Hv & ->)].
    + exists k, r', v. rewrite lookup_insert_ne by congruence. done.
    + exists (ResourceKey r), r, v. by rewrite lookup_insert_eq.
Qed.

Lemma entries_delete idx n f m r s :
  N n → idx !! n = Some f → m !! ResourceKey r = Some r →
  (∀ k r', m !! k = Some r' → plain idx r') →
  entries f (delete (ResourceKey r) m) s ↔
  entries f m s ∧ ¬ ∃ v, index_has f v (ResourceObj r) = true ∧ s = tree_key v (ResourceKey r).
Proof.
  intros HN Hf Hm Hp. unfold entries. split.
  - intros (k & r' & v & [Hne Hk]%lookup_delete_Some & Hv & ->). split; [by exists k, r', v|].
    intros (v' & Hv' & [-> ?]%tree_key_inj);
      [done | exact (Hp _ _ Hk _ _ _ HN Hf Hv) | exact (Hp _ _ Hm _ _ _ HN Hf Hv')].
  - intros [(k & r' & v & Hk & Hv & ->) Hno].
    exists k, r', v. split_and!; [|done..].
    apply lookup_delete_Some. split; [|done]. intros <-. simplify_eq. eauto.
Qed.

Lemma sync_add_aux (rs : rstore) p r :
  sync rs → res_kind r = rs_rk rs → plain (proxy_indexers rs) r →
  mem_items rs !! ResourceKey r = None →
  ix_keyFunc p = ix_keyFunc (rs_storeProxy rs) →
  ix_GetIndexers p = proxy_indexers rs →
  ix_items p = <[ResourceKey r := ResourceObj r]> (proxy_items rs) →
  sync (addToTrees (with_proxy rs p) r).
Proof.
  intros [Hok [Hd Hk] Hpl] Hr Hplr Hnone Hkf Hidx Hit.
  set (rs' := addToTrees (with_proxy rs p) r).
  destruct (mem_ok_insert rs rs' r) as [Hok' Hit']; [done..|].
  assert (Hidx' : proxy_indexers rs' = proxy_indexers rs) by done.
  split; [done| |].
  - split; [intros n; rewrite Hidx'; unfold rs', addToTrees; by rewrite touch_trees_dom|].
    intros n f t s HN. rewrite Hidx', Hit'. intros Hf. unfold rs', addToTrees.
    rewrite touch_trees_lookup. change (proxy_indexers (with_proxy rs p)) with (ix_GetIndexers p).
    rewrite Hidx, Hf. intros (t0 & Ht0 & ->)%fmap_Some.
    rewrite touch_insert_keys, entries_insert, (Hk n f t0) by done. done.
  - intros k r'. rewrite Hit', Hidx'. intros [[_ <-]|[_ ?]]%lookup_insert_Some; [done|by eapply Hpl].
Qed.

(** Removing the stored [old] from the trees and from the items. *)
Lemma trees_ok_remove (rs : rstore) p old :
  sync rs → mem_items rs !! ResourceKey old = Some old →
  ix_keyFunc p = ix_keyFunc (rs_storeProxy rs) →
  ix_GetIndexers p = proxy_indexers rs →
  ix_items p = delete (ResourceKey old) (proxy_items rs) →
  sync (removeFromTrees (with_proxy rs p) old).
Proof.
  intros [Hok [Hd Hk] Hpl] Hold Hkf Hidx Hit.
  set (rs' := removeFromTrees (with_proxy rs p) old).
  destruct (mem_ok_delete rs rs' (ResourceKey old)) as [Hok' Hit']; [done..|].
  assert (Hidx' : proxy_indexers rs' = proxy_indexers rs) by done.
  split; [done| |].
  - split; [intros n; rewrite Hidx'; unfold rs', removeFromTrees; by rewrite touch_trees_dom|].
    intros n f t s HN. rewrite Hidx', Hit'. intros Hf. unfold rs', removeFromTrees.
    rewrite touch_trees_lookup. change (proxy_indexers (with_proxy rs p)) with (ix_GetIndexers p).
    rewrite Hidx, Hf. intros (t0 & Ht0 & ->)%fmap_Some.
    rewrite touch_delete_keys, entries_delete, (Hk n f t0) by done. done.
  - intros k r'. rewrite Hit', Hidx'. intros [_ ?]%lookup_delete_Some. by eapply Hpl.
Qed.

Lemma sync_Add rs r :
  sync rs → res_kind r = rs_rk rs → plain (proxy_indexers rs) r →
  mem_items rs !! ResourceKey r = None →
  sync (Add rs (ResourceObj r)).1.
Proof.
  intros Hs Hr Hp Hn. destruct (Add_spec rs r (sy_ok _ Hs) Hr) as (p & -> & ? & ? & ?).
  by apply sync_add_aux.
Qed.

Lemma sync_Delete rs r :
  sync rs → mem_items rs !! ResourceKey r = Some r →
  sync (Delete rs (ResourceObj r)).1.
Proof.
  intros Hs Hr. destruct (Delete_spec rs r (sy_ok _ Hs)) as (p & -> & ? & ? & ?).
  by apply trees_ok_remove.
Qed.

Lemma with_proxy_touch upd (rs : rstore) p1 p r :
  ix_GetIndexers p1 = ix_GetIndexers p →
  with_proxy (touch_trees upd (with_proxy rs p1) r) p = touch_trees upd (with_proxy rs p) r.
Proof. intros Hi. unfold touch_trees, with_trees, with_proxy. simpl. by rewrite Hi. Qed.

Lemma sync_Update rs r :
  sync rs → res_kind r = rs_rk rs → plain (proxy_indexers rs) r →
  sync (Update rs (ResourceObj r)).1.
Proof.
  intros Hs Hr Hp. destruct (Update_spec rs r (sy_ok _ Hs) Hr) as (p & -> & ? & ? & Hit).
  destruct (mem_items rs !! ResourceKey r) as [old|] eqn:Hold; [|by apply sync_add_aux].
  destruct (mem_items_key rs (ResourceKey r) old (sy_ok _ Hs) Hold) as [Hko Hkind].
  destruct (Delete_spec rs old (sy_ok _ Hs)) as (p1 & _ & ? & ? & Hit1).
  assert (Hs1 : sync (removeFromTrees (with_proxy rs p1) old)).
  { apply trees_ok_remove; [done|by rewrite Hko|done..]. }
  unfold fst, removeFromTrees. rewrite <-(with_proxy_touch _ rs p1 p) by congruence.
  destruct (mem_ok_delete rs (removeFromTrees (with_proxy rs p1) old) (ResourceKey old))
    as [_ Hit1']; [by apply sy_ok|done..|].
  set (rs1 := removeFromTrees (with_proxy rs p1) old) in *.
  assert (Hpi : proxy_indexers rs1 = proxy_indexers rs) by done.
  assert (Hpt : proxy_items rs1 = ix_items p1) by done.
  apply (sync_add_aux rs1); [done|done|by rewrite Hpi| |by simpl; congruence|by rewrite Hpi|].
  - rewrite Hit1', Hko. by rewrite lookup_delete_eq.
  - by rewrite Hpt, Hit, Hit1, Hko, insert_delete_eq.
Qed.

Lemma addToTrees_fold (l : list Resource) (rs : rstore) :
  let rs' := foldl (λ rs o, match o with
                            | ResourceObj r => addToTrees rs r
                            | OtherObj _ => rs
                            end) rs (ResourceObj <$> l) in
  rs_storeProxy rs' = rs_storeProxy rs ∧ rs_rk rs' = rs_rk rs ∧
  ∀ n, match rs_prefixTrees rs !! n with
       | None => rs_prefixTrees rs' !! n = None
       | Some t => ∃ t', rs_prefixTrees rs' !! n = Some t' ∧
           ∀ f s, proxy_indexers rs !! n = Some f →
           s ∈ radix_keys t' ↔ s ∈ radix_keys t ∨
             ∃ r v, r ∈ l ∧ index_has f v (ResourceObj r) = true ∧
               s = tree_key v (ResourceKey r)
       end.
Proof.
  revert rs. induction l as [|r l IH]; intros rs; simpl.
  { split_and!; [done..|]. intros n. destruct (_ !! n) as [t|]; [|done].
    exists t. split; [done|]. set_solver. }
  destruct (IH (addToTrees rs r)) as (Hp & Hk & Ht). split_and!; [done..|].
  intros n. specialize (Ht n). unfold addToTrees in Ht at 1. rewrite touch_trees_lookup in Ht.
  destruct (rs_prefixTrees rs !! n) as [t|]; destruct (proxy_indexers rs !! n) as [f|] eqn:Hf;
    simpl in Ht; [| |done..].
  - destruct Ht as (t' & Ht' & Hs). exists t'. split; [done|]. intros f' s [= <-].
    rewrite (Hs f) by done. rewrite touch_insert_keys. set_solver.
  - destruct Ht as (t' & Ht' & Hs). exists t'. split; [done|]. by intros.
Qed.

Lemma zip_keys_fst (l : list Resource) :
  (zip (ResourceKey <$> l) (ResourceObj <$> l)).*1 = ResourceKey <$> l.
Proof. apply fst_zip. by rewrite !length_fmap. Qed.

Lemma elem_of_zip_keys (l : list Resource) k o :
  (k, o) ∈ zip (ResourceKey <$> l) (ResourceObj <$> l) ↔
  ∃ r, r ∈ l ∧ k = ResourceKey r ∧ o = ResourceObj r.
Proof. induction l as [|r l IH]; csimpl; [set_solver|]. rewrite elem_of_cons. set_solver. Qed.

Lemma sync_Replace rs l s :
  sync rs → Forall (λ r, res_kind r = rs_rk rs ∧ plain (proxy_indexers rs) r) l →
  NoDup (ResourceKey <$> l) →
  sync (Replace rs (ResourceObj <$> l) s).1.
Proof.
  intros [Hok [Hd Hk] Hpl] Hl Hnd.
  set (rs0 := with_trees rs ((λ _, radix_New) <$> rs_prefixTrees rs)).
  assert (Forall2 (indexable (ix_keyFunc (rs_storeProxy rs)) (ix_GetIndexers (rs_storeProxy rs)))
    (ResourceObj <$> l) (ResourceKey <$> l)) as Hix.
  { rewrite Forall2_fmap. apply Forall_Forall2_diag. eapply Forall_impl; [exact Hl|].
    intros r [? _]. by apply mem_ok_indexable. }
  destruct (ix_Replace_spec _ _ _ s Hix) as (p & Hp & Hit & Hkf & Hidx).
  unfold Replace. simpl. rewrite Hp. simpl.
  destruct (addToTrees_fold l (with_proxy rs0 p)) as (Hp' & Hrk' & Ht).
  set (rs' := foldl _ (with_proxy rs0 p) _) in *. simpl in Hp', Hrk'.
  assert (Hidx' : proxy_indexers rs' = proxy_indexers rs).
  { unfold proxy_indexers. by rewrite Hp', Hidx. }
  assert (Hlook : ∀ k o, proxy_items rs' !! k = Some o ↔
    ∃ r, r ∈ l ∧ k = ResourceKey r ∧ o = ResourceObj r).
  { intros k o. unfold proxy_items. rewrite Hp', Hit, foldl_insert_lookup by by rewrite zip_keys_fst.
    rewrite elem_of_zip_keys, lookup_empty. naive_solver. }
  assert (Hok' : mem_ok rs').
  { split; [by rewrite Hp', Hkf, (mo_keyFunc _ Hok)| |by rewrite Hidx', Hrk'; apply mo_indexers].
    intros k o (r & Hr & -> & ->)%Hlook. rewrite Hrk'. exists r. split_and!; [done..|].
    rewrite Forall_forall in Hl. by apply Hl. }
  change (sync rs'). split; [done| |].
  - split.
    + intros n. rewrite Hidx', Hd. specialize (Ht n). simpl in Ht. rewrite lookup_fmap in Ht.
      destruct (rs_prefixTrees rs !! n); simpl in Ht; [|by rewrite Ht].
      destruct Ht as (t' & -> & _). by split; eexists.
    + intros n f t s' HN Hf Htn. rewrite Hidx' in Hf. specialize (Ht n). simpl in Ht.
      rewrite lookup_fmap, Htn in Ht. destruct (rs_prefixTrees rs !! n) as [t0|]; [|done].
      destruct Ht as (t' & [= <-] & Hs). rewrite (Hs f).
      2:{ change (proxy_indexers _) with (ix_GetIndexers p). by rewrite Hidx. }
      rewrite radix_New_spec. unfold entries. setoid_rewrite mem_items_Some; [|done].
      setoid_rewrite Hlook. split.
      * intros [?%elem_of_empty|(r & v & Hr & Hv & ->)]; [done|].
        exists (ResourceKey r), r, v. split; [by exists r | done].
      * intros (k & r & v & (r' & Hr' & -> & [= ->]) & Hv & ->). right. eauto.
  - intros k r Hkr%mem_items_Some; [|done]. apply Hlook in Hkr as (r' & Hr' & -> & [= ->]).
    rewrite Hidx'. rewrite Forall_forall in Hl. by apply Hl.
Qed.
End queries.
