(* ===== verification/MemoryQueries.v ===== *)
(** pkg/store/memory/store.go: the index and prefix queries of the in-memory
    store over the states its clients can reach, and the pages cut from them. *)
From S2P Require Import Prelude GoStrings Errors Resource Libs Indexers Store MemoryStore.
From Stdlib Require Import Ascii.

Open Scope string_scope.

Section queries.
Context {I T S : Type} `{Indexer I, !IndexerLaws I, Radix T, !RadixLaws T,
  LancetSet S, !LancetSetLaws S, LancetSort, !LancetSortLaws, MapRange}.
Abbreviation rstore := (resourceStore I T).

(** The indexes whose values hold no separator. *)
Context (N : string → Prop).
Abbreviation plain := (plain N).
Abbreviation sync := (sync N).

(** A resource may be handed to the store. *)
Definition storable (rs : rstore) (r : Resource) : Prop :=
  res_kind r = rs_rk rs ∧ plain (proxy_indexers rs) r.

(** The calls of a client that keeps to the store's contract: it adds under
    fresh keys and deletes the object it read. *)
Inductive client_step : rstore → rstore → Prop :=
| step_Add rs r : storable rs r → mem_items rs !! ResourceKey r = None →
    client_step rs (Add rs (ResourceObj r)).1
| step_Update rs r : storable rs r → client_step rs (Update rs (ResourceObj r)).1
| step_Delete rs r : mem_items rs !! ResourceKey r = Some r →
    client_step rs (Delete rs (ResourceObj r)).1
| step_Replace rs l s : Forall (storable rs) l → NoDup (ResourceKey <$> l) →
    client_step rs (Replace rs (ResourceObj <$> l) s).1.

Definition reachable (rk : ResourceKind) (idx : Indexers) : rstore → Prop :=
  rtc client_step (Init rk idx).

Lemma Init_trees (idx : Indexers) n :
  foldl (λ t p, <[p.1 := radix_New]> t) (∅ : gmap string T) (go_range idx) !! n =
  (λ _, radix_New) <$> idx !! n.
Proof.
  rewrite <-(list_to_map_go_range idx) at 2. generalize (NoDup_go_range_fst idx).
  assert (Hg : ∀ l (m : gmap string T), NoDup l.*1 →
    foldl (λ t p, <[p.1 := radix_New]> t) m l !! n =
    match (list_to_map l : Indexers) !! n with Some _ => Some radix_New | None => m !! n end).
  { induction l as [|[k f] l IH]; intros m; simpl; [done|].
    intros [Hk Hl]%NoDup_cons. rewrite IH by done. destruct (decide (k = n)) as [<-|].
    - rewrite (not_elem_of_list_to_map_1 (M := gmap string) l k) by done.
      by rewrite !lookup_insert_eq.
    - by rewrite !lookup_insert_ne by done. }
  intros Hnd. rewrite Hg by done. by destruct (_ !! n).
Qed.

Lemma Init_sync rk idx : idx_safe rk idx → sync (Init rk idx : rstore).
Proof.
  intros Hi. destruct (ix_New_items (I := I) store_keyFunc idx) as (Hit & Hkf & Hidx).
  assert (Hem : mem_items (Init rk idx : rstore) = ∅).
  { unfold mem_items, proxy_items. simpl. by rewrite Hit, omap_empty. }
  assert (Hpi : proxy_indexers (Init rk idx : rstore) = idx) by done.
  split; [split| |].
  - done.
  - intros k o. unfold proxy_items. simpl. by rewrite Hit, lookup_empty.
  - by rewrite Hpi.
  - split.
    + intros n. rewrite Hpi. simpl. by rewrite Init_trees, fmap_is_Some.
    + intros n f t s _ _. simpl. rewrite Init_trees, Hem. intros (? & _ & ->)%fmap_Some.
      rewrite radix_New_spec. unfold entries. set_solver.
  - intros k r. by rewrite Hem, lookup_empty.
Qed.

Lemma client_step_sync rs rs' : client_step rs rs' → sync rs → sync rs'.
Proof.
  destruct 1 as [rs r [] | rs r [] | rs r | rs l s]; intros Hs.
  - by apply sync_Add.
  - by apply sync_Update.
  - by apply sync_Delete.
  - by apply sync_Replace.
Qed.

Lemma reachable_sync rk idx rs : idx_safe rk idx → reachable rk idx rs → sync rs.
Proof.
  intros Hi Hr. generalize (Init_sync rk idx Hi).
  induction Hr as [|x y z Hxy _ IH]; intros Hx; [done|]. by eapply IH, client_step_sync.
Qed.

(** [r] satisfies the condition [c]. *)
Definition cond_holds (idx : Indexers) (c : IndexCondition) (r : Resource) : Prop :=
  ∃ f, idx !! ic_IndexName c = Some f ∧
  match ic_Operator c with
  | Equals => index_has f (ic_Value c) (ResourceObj r) = true
  | HasPrefix => ∃ v, index_has f v (ResourceObj r) = true ∧ has_prefix v (ic_Value c) = true
  | OtherOperator _ => False
  end.

(** The store can answer [c]: the index exists, the operator is supported. *)
Definition cond_valid (idx : Indexers) (c : IndexCondition) : Prop :=
  is_Some (idx !! ic_IndexName c) ∧
  match ic_Operator c with
  | Equals => True
  | HasPrefix => no_sep (ic_Value c)
  | OtherOperator _ => False
  end.

Lemma has_prefix_tree_key v k p :
  no_sep p → has_prefix (tree_key v k) p = has_prefix v p.
Proof.
  unfold has_prefix, tree_key, no_sep. revert v. induction p as [|a p IH]; intros v Hp.
  { by destruct v, (String.append _ _). }
  simpl in Hp. destruct (decide (a = PathSeparator)) as [|Ha]; [done|].
  destruct v as [|b v].
  - change ("" +:+ String PathSeparator k) with (String PathSeparator k).
    rewrite str_prefix_cons. by case_decide.
  - change (String b v +:+ String PathSeparator k) with (String b (v +:+ String PathSeparator k)).
    rewrite !str_prefix_cons. case_decide; [by apply IH|done].
Qed.

Lemma ResourceKey_length r : 0 < String.length (ResourceKey r).
Proof. unfold ResourceKey, BuildResourceKey. rewrite !str_length_app. simpl. lia. Qed.

Lemma tree_key_split v k :
  no_sep v → 0 < String.length k →
  match str_index PathSeparator (tree_key v k) with
  | Some idx => if decide (idx < String.length (tree_key v k) - 1)
                then Some (str_drop (idx + 1) (tree_key v k)) else None
  | None => None
  end = Some k.
Proof.
  intros Hv Hk. unfold tree_key. rewrite str_index_app_sep by done.
  rewrite decide_True by (rewrite str_length_app; simpl; lia).
  by rewrite Nat.add_1_r, str_drop_app_S.
Qed.

Lemma getKeysByPrefix_spec (rs : rstore) n f p :
  sync rs → N n → proxy_indexers rs !! n = Some f → no_sep p →
  ∃ ks, getKeysByPrefix rs n p = Ok ks ∧
    ∀ k, k ∈ ks ↔ ∃ r v, mem_items rs !! k = Some r ∧
      index_has f v (ResourceObj r) = true ∧ has_prefix v p = true.
Proof.
  intros [Hok [Hd Hk] Hpl] HN Hf Hp. unfold getKeysByPrefix.
  destruct (proj1 (Hd n)) as [t Ht]; [by eexists|]. rewrite Ht. eexists. split; [done|].
  intros k. rewrite list_elem_of_omap.
  assert (Hent : ∀ s, s ∈ radix_WalkPrefix t p ↔
    ∃ k r v, mem_items rs !! k = Some r ∧ index_has f v (ResourceObj r) = true ∧
      s = tree_key v k ∧ no_sep v ∧ 0 < String.length k ∧ has_prefix v p = true).
  { intros s. rewrite radix_WalkPrefix_spec, (Hk n f t) by done. unfold entries. split.
    - intros [(j & r & v & Hj & Hv & ->) Hpre]. exists j, r, v.
      rewrite has_prefix_tree_key in Hpre by done.
      destruct (mem_items_key _ _ _ Hok Hj) as [<- _].
      split_and!; [done..|exact (Hpl _ _ Hj _ _ _ HN Hf Hv)|apply ResourceKey_length|done].
    - intros (j & r & v & ? & ? & -> & ? & ? & ?).
      split; [by exists j, r, v|by rewrite has_prefix_tree_key]. }
  split.
  - intros (s & (j & r & v & ? & ? & -> & ? & ? & ?)%Hent & Hs).
    rewrite tree_key_split in Hs by done. simplify_eq. by exists r, v.
  - intros (r & v & Hj & Hv & Hpre). exists (tree_key v k).
    destruct (mem_items_key _ _ _ Hok Hj) as [Hkr _].
    assert (no_sep v) by exact (Hpl _ _ Hj _ _ _ HN Hf Hv).
    assert (0 < String.length k) by (rewrite <-Hkr; apply ResourceKey_length).
    split; [apply Hent; by exists k, r, v | by apply tree_key_split].
Qed.

(** Conditions by equality do not need the prefix trees. *)
Definition by_equality (cs : list IndexCondition) : Prop := Forall (λ c, ic_Operator c = Equals) cs.
(** The trees that conditions by prefix need are those of [N]. *)
Definition covered (cs : list IndexCondition) : Prop :=
  Forall (λ c, ic_Operator c = HasPrefix → N (ic_IndexName c)) cs.

Lemma condition_keys_spec (rs : rstore) c :
  mem_ok rs → ic_Operator c = Equals ∨ sync rs ∧ (ic_Operator c = HasPrefix → N (ic_IndexName c)) → cond_valid (proxy_indexers rs) c →
  ∃ ks, condition_keys rs c = Ok ks ∧
    ∀ k, k ∈ ks ↔ ∃ r, mem_items rs !! k = Some r ∧ cond_holds (proxy_indexers rs) c r.
Proof.
  intros Hok Hs [[f Hf] Hop]. unfold condition_keys, cond_holds.
  destruct (ic_Operator c); [| |done].
  - destruct (ix_IndexKeys_spec (rs_storeProxy rs) _ f (ic_Value c) Hf) as (ks & -> & _ & Hks).
    exists ks. split; [done|]. intros k. rewrite Hks. fold (proxy_items rs).
    rewrite (proxy_lookup rs k) by done. split.
    + intros (o & vs & (r & Hr & ->)%fmap_Some & Ho & Hv). exists r. split; [done|].
      exists f. split; [done|]. by eapply index_has_Ok.
    + intros (r & -> & f' & Hf' & Hv). simplify_eq. unfold index_has in Hv.
      destruct (f (ResourceObj r)) as [vs|] eqn:E; [|done].
      exists (ResourceObj r), vs. by apply bool_decide_eq_true in Hv.
  - destruct Hs as [|[Hs HN]]; [done|].
    destruct (getKeysByPrefix_spec rs _ f (ic_Value c) Hs (HN eq_refl) Hf Hop) as (ks & -> & Hks).
    exists ks. split; [done|]. intros k. rewrite Hks. split.
    + intros (r & v & ? & ? & ?). exists r. split; [done|]. exists f. split; [done|]. by exists v.
    + intros (r & ? & f' & Hf' & v & ? & ?). simplify_eq. by exists r, v.
Qed.

Lemma by_equality_cons c cs : by_equality (c :: cs) ↔ ic_Operator c = Equals ∧ by_equality cs.
Proof. unfold by_equality. by rewrite Forall_cons. Qed.
Lemma covered_cons c cs : covered (c :: cs) ↔ (ic_Operator c = HasPrefix → N (ic_IndexName c)) ∧ covered cs.
Proof. unfold covered. by rewrite Forall_cons. Qed.

Lemma intersect_conditions_spec (rs : rstore) ks cs :
  mem_ok rs → by_equality cs ∨ sync rs ∧ covered cs → Forall (cond_valid (proxy_indexers rs)) cs →
  ∃ ks', intersect_conditions rs ks cs = Ok ks' ∧
    ∀ k, k ∈ lset_elems ks' ↔ k ∈ lset_elems ks ∧
      ∀ c, c ∈ cs → ∃ r, mem_items rs !! k = Some r ∧ cond_holds (proxy_indexers rs) c r.
Proof.
  intros Hok Hs Hcs. revert Hs ks. induction Hcs as [|c cs Hc Hcs IH]; intros Hs ks; simpl.
  { exists ks. split; [done|]. set_solver. }
  rewrite by_equality_cons, covered_cons in Hs.
  destruct (condition_keys_spec rs c) as (kc & -> & Hkc); [done|naive_solver|done|]. simpl.
  destruct (IH ltac:(naive_solver) (set_Intersection ks (set_FromSlice kc))) as (ks' & -> & Hks').
  exists ks'. split; [done|]. intros k.
  rewrite Hks', set_Intersection_spec, set_FromSlice_spec, elem_of_intersection,
    elem_of_list_to_set, Hkc.
  setoid_rewrite elem_of_cons. naive_solver.
Qed.

(** The keys of a query: each key once, exactly the stored resources that
    satisfy every condition. *)
Lemma getKeysByIndexes_spec (rs : rstore) cs :
  mem_ok rs → by_equality cs ∨ sync rs ∧ covered cs → Forall (cond_valid (proxy_indexers rs)) cs → cs ≠ [] →
  ∃ ks, getKeysByIndexes rs cs = Ok ks ∧ NoDup ks ∧
    ∀ k, k ∈ ks ↔ ∃ r, mem_items rs !! k = Some r ∧
      Forall (λ c, cond_holds (proxy_indexers rs) c r) cs.
Proof.
  intros Hok Hs Hcs Hne. destruct Hcs as [|c cs Hc Hcs]; [done|]. unfold getKeysByIndexes.
  rewrite by_equality_cons, covered_cons in Hs.
  destruct (condition_keys_spec rs c) as (kc & -> & Hkc); [done|naive_solver|done|]. simpl.
  destruct (intersect_conditions_spec rs (set_FromSlice kc) cs Hok ltac:(naive_solver) Hcs) as (ks & -> & Hks).
  simpl. eexists. split; [done|]. split; [rewrite set_ToSlice_spec; apply NoDup_elements|].
  intros k. rewrite set_ToSlice_spec, elem_of_elements, Hks, set_FromSlice_spec,
    elem_of_list_to_set, Hkc. split.
  - intros [(r & Hr & Hrc) Hall]. exists r. split; [done|]. constructor; [done|].
    apply Forall_forall. intros c' Hc'. destruct (Hall _ Hc') as (r' & ? & ?). by simplify_eq.
  - intros (r & Hr & [? Hall]%Forall_cons). split; [by exists r|].
    intros c' Hc'. exists r. split; [done|]. rewrite Forall_forall in Hall. by apply Hall.
Qed.

Lemma fmap_sorted {A} (key : A → string) l :
  StronglySorted (λ a b, String.le (key a) (key b)) l → StronglySorted String.le (key <$> l).
Proof.
  induction 1 as [|x l Hl IH Hx]; csimpl; constructor; [done|]. by apply Forall_fmap.
Qed.

Lemma omap_keys (rs : rstore) ks :
  mem_ok rs → Forall (λ k, is_Some (mem_items rs !! k)) ks →
  ResourceKey <$> omap (λ k, mem_items rs !! k) ks = ks ∧
  Forall (λ r, mem_items rs !! ResourceKey r = Some r) (omap (λ k, mem_items rs !! k) ks).
Proof.
  intros Hok. induction 1 as [|k ks [r Hr] Hks [IH IH']]; csimpl; [done|].
  rewrite Hr. csimpl. destruct (mem_items_key _ _ _ Hok Hr) as [<- _].
  rewrite IH. split; [done|]. by constructor.
Qed.

(** The answer to a query: all the resources of the keys, sorted by key. *)
Lemma ListByIndexes_keys (rs : rstore) ks cs :
  mem_ok rs → getKeysByIndexes rs cs = Ok ks → Forall (λ k, is_Some (mem_items rs !! k)) ks →
  ∃ l, ListByIndexes rs cs = Ok l ∧ ResourceKey <$> l = sort_strings ks ∧
    Forall (λ r, mem_items rs !! ResourceKey r = Some r) l.
Proof.
  intros Hok Hks Hall. unfold ListByIndexes. rewrite Hks. simpl.
  rewrite GetByKeys_omap by done. simpl. eexists. split; [done|].
  destruct (omap_keys rs ks Hok Hall) as [Hk Hst].
  set (rsl := omap _ ks) in *. split.
  - apply (StronglySorted_unique String.le).
    + apply fmap_sorted, slice_SortBy_sorted.
    + apply sort_strings_sorted.
    + by rewrite slice_SortBy_perm, sort_strings_perm, Hk.
  - by rewrite slice_SortBy_perm.
Qed.

(** The page loop reads the keys from [i] until the page is full. *)
Lemma page_loop_spec fuel (rs : rstore) all size (i : nat) acc :
  mem_ok rs → Forall (λ r, mem_items rs !! ResourceKey r = Some r) all →
  length all - i < fuel →
  page_loop fuel rs (ResourceKey <$> all) size (Z.of_nat i) (Z.of_nat (length all)) acc =
  Some (Ok ((acc ++ take (Z.to_nat size - length acc) (drop i all))%list, Z.of_nat (length all))).
Proof.
  intros Hok Hall. revert i acc. induction fuel as [|fuel IH]; intros i acc Hf; [lia|].
  simpl. case_decide as Hc.
  - rewrite decide_False by lia. rewrite Nat2Z.id.
    destruct (lookup_lt_is_Some_2 all i) as [r Hr]; [lia|].
    rewrite list_lookup_fmap, Hr. simpl.
    rewrite ix_GetByKey_spec. fold (proxy_items rs). rewrite proxy_lookup by done.
    pose proof (Forall_lookup_1 _ _ _ _ Hall Hr) as Hir. simpl in Hir. rewrite Hir. simpl.
    rewrite (drop_S all r i) by done.
    replace (Z.of_nat i + 1)%Z with (Z.of_nat (Datatypes.S i)) by lia.
    rewrite IH by lia. rewrite length_app. simpl.
    replace (Z.to_nat size - length acc) with
      (Datatypes.S (Z.to_nat size - (length acc + 1))) by lia.
    simpl. by rewrite <-(assoc_L (++)).
  - assert (take (Z.to_nat size - length acc) (drop i all) = []) as ->.
    { destruct (decide (Z.of_nat (length acc) < size)%Z).
      - rewrite drop_ge by lia. apply take_nil.
      - by replace (Z.to_nat size - length acc) with 0 by lia. }
    by rewrite app_nil_r.
Qed.

Lemma intersect_conditions_sub (rs : rstore) ks ks' cs c k :
  intersect_conditions rs ks cs = Ok ks' → k ∈ lset_elems ks' →
  k ∈ lset_elems ks ∧ (c ∈ cs → ∃ kc, condition_keys rs c = Ok kc ∧ k ∈ kc).
Proof.
  revert ks. induction cs as [|c' cs IH]; intros ks; simpl.
  { intros [= ->] Hk. split; [done|]. by intros ?%elem_of_nil. }
  intros (kc & Hkc & Hi)%bind_Ok Hk. destruct (IH _ Hi Hk) as [Hin Hc].
  rewrite set_Intersection_spec, set_FromSlice_spec in Hin.
  split; [set_solver|]. intros [->|?]%elem_of_cons; [|by apply Hc].
  exists kc. split; [done|]. set_solver.
Qed.

Lemma getKeysByIndexes_sub (rs : rstore) ks cs c k :
  getKeysByIndexes rs cs = Ok ks → c ∈ cs → k ∈ ks →
  ∃ kc, condition_keys rs c = Ok kc ∧ k ∈ kc.
Proof.
  destruct cs as [|c0 cs]; [by intros _ ?%elem_of_nil|]. unfold getKeysByIndexes.
  intros (kc & Hkc & (ks' & Hi & [= <-])%bind_Ok)%bind_Ok Hc Hk.
  rewrite set_ToSlice_spec, elem_of_elements in Hk.
  destruct (intersect_conditions_sub _ _ _ _ c _ Hi Hk) as [Hin Hin'].
  rewrite set_FromSlice_spec in Hin.
  apply elem_of_cons in Hc as [->|?]; [|by apply Hin']. exists kc. split; [done|]. set_solver.
Qed.

Lemma getKeysByPrefix_sep (rs : rstore) n a b ks k :
  no_sep a → getKeysByPrefix rs n (a +:+ String PathSeparator b) = Ok ks →
  k ∈ ks → has_prefix k b = true.
Proof.
  unfold getKeysByPrefix. destruct (_ !! n) as [t|]; [|done]. intros Ha [= <-].
  rewrite list_elem_of_omap. intros (s & [_ Hs]%radix_WalkPrefix_spec & Hk).
  unfold has_prefix in *. apply str_prefix_spec in Hs as [u ->].
  rewrite <-str_app_assoc in Hk.
  change (String PathSeparator b +:+ u) with (String PathSeparator (b +:+ u)) in Hk.
  rewrite str_index_app_sep in Hk by done.
  rewrite Nat.add_1_r, str_drop_app_S in Hk. case_decide; simplify_eq. apply str_prefix_app.
Qed.

Lemma mem_ok_Add (rs : rstore) r :
  mem_ok rs → res_kind r = rs_rk rs → mem_ok (Add rs (ResourceObj r)).1.
Proof.
  intros Hok Hr. destruct (Add_spec rs r Hok Hr) as (p & -> & ? & ? & ?).
  by destruct (mem_ok_insert rs (addToTrees (with_proxy rs p) r) r).
Qed.

End queries.

(** ** Properties *)

(** The indexes that conditions ask by prefix. *)
Definition prefixed_by (cs : list IndexCondition) (n : string) : Prop :=
  ∃ c, c ∈ cs ∧ ic_Operator c = HasPrefix ∧ ic_IndexName c = n.

Lemma covered_prefixed cs : covered (prefixed_by cs) cs.
Proof. apply Forall_forall. intros c Hc Ho. by exists c. Qed.

Section properties.
Context {I T S : Type} `{Indexer I, !IndexerLaws I, Radix T, !RadixLaws T,
  LancetSet S, !LancetSetLaws S, LancetSort, !LancetSortLaws, MapRange}.
Abbreviation rstore := (resourceStore I T).
Implicit Types rs : rstore.

(** C2: in every state a well-behaved client can bring the store to, a query
    whose indexes exist and whose operators are supported returns, sorted by
    key and without duplicates, exactly the stored resources that satisfy all
    its conditions. A query by equality does so whatever was stored; a query
    by prefix needs that neither the prefix nor, in any resource that was ever
    stored, the values of the index it asks by prefix contain the separator
    "/" at which the keys of the prefix trees are split. *)
Theorem queries_exact rk idx rs cs :
  idx_safe rk idx → reachable (prefixed_by cs) rk idx rs →
  Forall (cond_valid (proxy_indexers rs)) cs → cs ≠ [] →
  ∃ l, ListByIndexes rs cs = Ok l ∧ StronglySorted String.le (ResourceKey <$> l) ∧
    NoDup (ResourceKey <$> l) ∧
    ∀ r, r ∈ l ↔ mem_items rs !! ResourceKey r = Some r ∧
      Forall (λ c, cond_holds (proxy_indexers rs) c r) cs.
Proof.
  intros Hi Hr Hcs Hne. pose proof (reachable_sync _ _ _ _ Hi Hr) as Hs.
  destruct (getKeysByIndexes_spec _ rs cs (sy_ok _ _ Hs) (or_intror (conj Hs (covered_prefixed cs))) Hcs Hne) as (ks & Hks & Hnd & Hin).
  destruct (ListByIndexes_keys rs ks cs (sy_ok _ _ Hs) Hks) as (l & Hl & Hkl & Hall).
  { apply Forall_forall. intros k (r & ? & _)%Hin. by eexists. }
  exists l. rewrite Hkl. split_and!; [done|auto with dubbo|by rewrite sort_strings_perm|].
  intros r. assert (Hkin : ResourceKey r ∈ ks ↔ ResourceKey r ∈ ResourceKey <$> l).
  { by rewrite Hkl, sort_strings_perm. }
  rewrite Forall_forall in Hall. split.
  - intros Hrl. split; [by apply Hall|].
    assert (ResourceKey r ∈ ks) as (r' & Hr' & Hc)%Hin.
    { apply Hkin, list_elem_of_fmap. by exists r. }
    rewrite (Hall r Hrl) in Hr'. by simplify_eq.
  - intros [Hst Hc]. assert (ResourceKey r ∈ ResourceKey <$> l) as
      (r' & Hk' & Hr')%list_elem_of_fmap.
    { apply Hkin, Hin. by exists r. }
    pose proof (Hall _ Hr') as Hst'. rewrite <-Hk', Hst in Hst'. by simplify_eq.
Qed.

(** In every such state, a page with a non-negative offset and size is
    the slice [offset, offset+size) of the answer to the unpaged query, and
    its total is the number of all the answers: the pages of a query
    partition it. *)
Theorem page_cuts_list rk idx rs cs pq :
  idx_safe rk idx → reachable (prefixed_by cs) rk idx rs →
  Forall (cond_valid (proxy_indexers rs)) cs → cs ≠ [] →
  (0 ≤ PageOffset pq)%Z → (0 ≤ PageSize pq)%Z →
  ∃ l, ListByIndexes rs cs = Ok l ∧
    PageListByIndexes rs cs pq =
    Some (Ok (NewPageData (Z.of_nat (length l)) (PageOffset pq) (PageSize pq)
      (take (Z.to_nat (PageSize pq)) (drop (Z.to_nat (PageOffset pq)) l)))).
Proof.
  intros Hi Hr Hcs Hne Ho Hsz. pose proof (reachable_sync _ _ _ _ Hi Hr) as Hs.
  destruct (getKeysByIndexes_spec _ rs cs (sy_ok _ _ Hs) (or_intror (conj Hs (covered_prefixed cs))) Hcs Hne) as (ks & Hks & Hnd & Hin).
  destruct (ListByIndexes_keys rs ks cs (sy_ok _ _ Hs) Hks) as (l & Hl & Hkl & Hall).
  { apply Forall_forall. intros k (r & ? & _)%Hin. by eexists. }
  exists l. split; [done|]. unfold PageListByIndexes. rewrite Hks, <-Hkl.
  rewrite decide_False by lia. rewrite length_fmap.
  rewrite <-(Z2Nat.id (PageOffset pq)) at 1 by done.
  rewrite page_loop_spec by (try apply (sy_ok _ _ Hs); first [done | lia]).
  simpl. by rewrite Nat.sub_0_r.
Qed.

(** A prefix query for "a/b" returns no resource whose key does not
    itself start with "b", whatever its index value: the tree keys are split
    at their first separator. The console's service events, filed under
    "app/service", are therefore never found (see the witness). *)
Theorem prefix_query_with_separator rs cs a b n l r :
  mem_ok rs → no_sep a →
  {| ic_IndexName := n; ic_Value := a +:+ String PathSeparator b; ic_Operator := HasPrefix |} ∈ cs →
  ListByIndexes rs cs = Ok l → r ∈ l → has_prefix (ResourceKey r) b = true.
Proof.
  intros Hok Ha Hc. unfold ListByIndexes. intros (ks & Hks & Hl)%bind_Ok Hr.
  rewrite GetByKeys_omap in Hl by done. injection Hl as <-.
  rewrite slice_SortBy_perm, list_elem_of_omap in Hr. destruct Hr as (k & Hk & Hst).
  destruct (mem_items_key _ _ _ Hok Hst) as [-> _].
  destruct (getKeysByIndexes_sub _ _ _ _ _ Hks Hc Hk) as (kc & Hkc & Hin).
  exact (getKeysByPrefix_sep _ _ _ _ _ _ Ha Hkc Hin).
Qed.
End properties.

(** ** A concrete store on the reference instances *)
Module MemExample.

#[local] Existing Instance default_range.
#[local] Existing Instance Ref.indexer_ops.
#[local] Existing Instance Ref.indexer_laws.
#[local] Existing Instance Ref.radix_ops.
#[local] Existing Instance Ref.radix_laws.
#[local] Existing Instance Ref.lset_ops.
#[local] Existing Instance Ref.lset_laws.
#[local] Existing Instance Ref.lsort_ops.
#[local] Existing Instance Ref.lsort_laws.

Abbreviation store := (resourceStore Ref.indexer (gset string)).

(** The event [name] of mesh "m" about the object [on]. *)
Definition event (name on : string) : Resource :=
  {| res_meta := {| meta_Name := name; meta_Labels := None; meta_Annotations := None |};
     res_Mesh := "m";
     res_spec := LifecycleEventSpec (Some {|
       le_Namespace := ""; le_Reason := "Register"; le_Message := "up"; le_Type := "normal";
       le_InvolvedObjKind := "instance"; le_InvolvedObjName := on; le_SourceComponent := "";
       le_SourceHost := ""; le_FirstTimestamp := ""; le_LastTimestamp := ""; le_Count := 1;
       le_EventSource := "REGISTRY" |}) |}.

Definition by_obj : string := "idx_lifecycle_event_involved_obj_name".
Definition idx : Indexers := {[ "idx_mesh" := ByMesh; by_obj := byLifecycleEventInvolvedObjName ]}.
Definition init : store := Init LifecycleEventKind idx.

(** Add two events, then rename the object of the second. *)
Definition e1 := event "e1" "shop".
Definition e2 := event "e2" "shipping".
Definition e2' := event "e2" "shopping".
Definition s1 : store := (Add init (ResourceObj e1)).1.
Definition s2 : store := (Add s1 (ResourceObj e2)).1.
Definition s3 : store := (Update s2 (ResourceObj e2')).1.

Definition prefixed (p : string) : list IndexCondition :=
  [ {| ic_IndexName := "idx_mesh"; ic_Value := "m"; ic_Operator := Equals |};
    {| ic_IndexName := by_obj; ic_Value := p; ic_Operator := HasPrefix |} ].

Lemma idx_ok : idx_safe LifecycleEventKind idx.
Proof.
  apply idx_safe_insert; [|apply idx_safe_insert, idx_safe_empty]; intros [m mesh []] Hr;
    try discriminate Hr; reflexivity.
Qed.

Lemma event_storable N name on (s : store) :
  rs_rk s = LifecycleEventKind → proxy_indexers s = idx → no_sep on →
  storable N s (event name on).
Proof.
  intros Hk Hi Hon. split; [done|]. rewrite Hi. intros n f v _ Hf Hv. unfold idx in Hf.
  apply lookup_insert_Some in Hf as [[<- <-]|[_ [<- <-]%lookup_singleton_Some]].
  - apply bool_decide_eq_true, list_elem_of_singleton in Hv. by rewrite Hv.
  - apply bool_decide_eq_true in Hv. simpl in Hv.
    destruct (is_empty on); [by apply elem_of_nil in Hv|].
    apply list_elem_of_singleton in Hv. by rewrite Hv.
Qed.

Lemma s3_reachable N : reachable N LifecycleEventKind idx s3.
Proof.
  eapply rtc_l; [apply (step_Add N init e1); [by apply event_storable|vm_compute; reflexivity]|].
  eapply rtc_l; [apply (step_Add N s1 e2); [by apply event_storable|vm_compute; reflexivity]|].
  apply rtc_once, (step_Update N s2 e2'). by apply event_storable.
Qed.

Lemma prefixed_valid p : no_sep p → Forall (cond_valid (proxy_indexers s3)) (prefixed p).
Proof. intros Hp. repeat constructor; [by eexists|by eexists|done]. Qed.

(** "ship" no longer finds the second event, "shop" finds both. *)
Lemma queries_exact_witness :
  let cs := prefixed "shop" in
  ListByIndexes s3 (prefixed "ship") = Ok [] ∧
  ListByIndexes s3 cs = Ok [e1; e2'] ∧
  ∃ l, ListByIndexes s3 cs = Ok l ∧ StronglySorted String.le (ResourceKey <$> l).
Proof.
  split; [vm_compute; reflexivity|]. split; [vm_compute; reflexivity|].
  destruct (queries_exact LifecycleEventKind idx s3
    (prefixed "shop") idx_ok (s3_reachable _)
    (prefixed_valid "shop" eq_refl) ltac:(discriminate)) as (l & Hl & Hs & _).
  exact (ex_intro _ l (conj Hl Hs)).
Defined.

Lemma page_cuts_list_witness :
  let cs := prefixed "shop" in
  PageListByIndexes s3 cs {| PageOffset := 1; PageSize := 5 |} =
    Some (Ok (NewPageData 2 1 5 [e2'])) ∧
  ∃ l, ListByIndexes s3 cs = Ok l ∧
    PageListByIndexes s3 cs {| PageOffset := 1; PageSize := 5 |} =
    Some (Ok (NewPageData (Z.of_nat (length l)) 1 5 (take 5 (drop 1 l)))).
Proof.
  split; [vm_compute; reflexivity|].
  apply (page_cuts_list LifecycleEventKind idx s3
    (prefixed "shop") {| PageOffset := 1; PageSize := 5 |} idx_ok
    (s3_reachable _) (prefixed_valid "shop" eq_refl));
    [discriminate | simpl; lia | simpl; lia].
Defined.

(** A registry event filed under "shop/Orders" is in the store and satisfies
    both conditions of [ListServiceEvents], but the answer is empty. *)
Lemma prefix_query_with_separator_witness :
  let e := event "e3" "shop/Orders" in
  let s := (Add init (ResourceObj e)).1 in
  let cs := prefixed "shop/Orders" in
  mem_items s !! ResourceKey e = Some e ∧
  index_has byLifecycleEventInvolvedObjName "shop/Orders" (ResourceObj e) = true ∧
  ListByIndexes s cs = Ok [] ∧
  ∀ r, r ∈ @nil Resource → has_prefix (ResourceKey r) "Orders" = true.
Proof.
  intros e s cs. split; [vm_compute; reflexivity|]. split; [vm_compute; reflexivity|].
  assert (Hl : ListByIndexes s cs = Ok []) by (vm_compute; reflexivity).
  split; [exact Hl|]. intros r Hr.
  apply (prefix_query_with_separator s cs "shop" "Orders" by_obj [] r);
    [|reflexivity| |exact Hl|exact Hr].
  - assert (Hok : mem_ok init) by apply (sy_ok _ _ (Init_sync (λ _, True) _ _ idx_ok)).
    exact (mem_ok_Add init e Hok eq_refl).
  - right. left.
Defined.
End MemExample.
