(* ===== verification/EventBus.v ===== *)
(** pkg/core/events: the event bus. Its state is the subscriber directory (the
    [*subscriberState]s live in a heap, the directory holds pointers), the
    operations are the methods of component.go, and the goroutines (senders
    under the read lock, one drainer per asynchronous subscriber) are the
    interleaved steps of a labelled transition relation. *)
From S2P Require Import Prelude Errors Resource.

Open Scope string_scope.
Open Scope list_scope.
Open Scope nat_scope.

(** ** eventbus.go *)
Inductive DeltaType := Added | Updated | Deleted | Replaced | Sync | OtherDelta (s : string).

#[export] Instance DeltaType_eq_dec : EqDecision DeltaType.
Proof. solve_decision. Defined.

Record Event := {
  ev_typ : DeltaType;
  ev_oldObj : option Resource;
  ev_newObj : option Resource;
  ev_context : gmap string string }.

Definition NewResourceChangedEvent (typ : DeltaType) (oldObj newObj : option Resource) : Event :=
  {| ev_typ := typ; ev_oldObj := oldObj; ev_newObj := newObj; ev_context := ∅ |}.
Definition NewResourceChangedEventWithContext (typ : DeltaType) (oldObj newObj : option Resource)
    (ctx : gmap string string) : Event :=
  {| ev_typ := typ; ev_oldObj := oldObj; ev_newObj := newObj; ev_context := ctx |}.

(** What the bus asks of a subscriber; [ProcessEvent] is an action. *)
Record Subscriber := {
  sub_ResourceKind : string;
  sub_Name : string;
  sub_AsyncEnabled : bool }.

(** ** component.go *)
Record subscriberState := {
  ss_subscriber : Subscriber;
  ss_async : bool;
  ss_ch : list Event;          (* the buffered channel [ch] *)
  ss_chClosed : bool;          (* [close(ch)] was called *)
  ss_closed : bool;            (* the atomic [closed] *)
  ss_drainerStarted : bool;
  ss_done : bool }.            (* [done] is closed *)

Record eventBus := {
  eb_heap : list subscriberState;
  eb_subscriberDir : gmap string (list nat);
  eb_bufferSize : nat;
  eb_started : bool;
  eb_stopped : bool;
  eb_wg : nat }.

Definition with_heap (b : eventBus) (h : list subscriberState) : eventBus :=
  {| eb_heap := h; eb_subscriberDir := eb_subscriberDir b; eb_bufferSize := eb_bufferSize b;
     eb_started := eb_started b; eb_stopped := eb_stopped b; eb_wg := eb_wg b |}.
Definition with_dir (b : eventBus) (d : gmap string (list nat)) : eventBus :=
  {| eb_heap := eb_heap b; eb_subscriberDir := d; eb_bufferSize := eb_bufferSize b;
     eb_started := eb_started b; eb_stopped := eb_stopped b; eb_wg := eb_wg b |}.
Definition with_wg (b : eventBus) (n : nat) : eventBus :=
  {| eb_heap := eb_heap b; eb_subscriberDir := eb_subscriberDir b;
     eb_bufferSize := eb_bufferSize b; eb_started := eb_started b;
     eb_stopped := eb_stopped b; eb_wg := n |}.
Definition set_started (b : eventBus) : eventBus :=
  {| eb_heap := eb_heap b; eb_subscriberDir := eb_subscriberDir b;
     eb_bufferSize := eb_bufferSize b; eb_started := true;
     eb_stopped := eb_stopped b; eb_wg := eb_wg b |}.
Definition set_stopped (b : eventBus) : eventBus :=
  {| eb_heap := eb_heap b; eb_subscriberDir := eb_subscriberDir b;
     eb_bufferSize := eb_bufferSize b; eb_started := eb_started b;
     eb_stopped := true; eb_wg := eb_wg b |}.

Definition with_ch (st : subscriberState) (ch : list Event) : subscriberState :=
  {| ss_subscriber := ss_subscriber st; ss_async := ss_async st; ss_ch := ch;
     ss_chClosed := ss_chClosed st; ss_closed := ss_closed st;
     ss_drainerStarted := ss_drainerStarted st; ss_done := ss_done st |}.
Definition start_drainer (st : subscriberState) : subscriberState :=
  {| ss_subscriber := ss_subscriber st; ss_async := ss_async st; ss_ch := ss_ch st;
     ss_chClosed := ss_chClosed st; ss_closed := ss_closed st;
     ss_drainerStarted := true; ss_done := ss_done st |}.
(** [st.closed.Store(true); close(st.ch)]. *)
Definition close_ch (st : subscriberState) : subscriberState :=
  {| ss_subscriber := ss_subscriber st; ss_async := ss_async st; ss_ch := ss_ch st;
     ss_chClosed := true; ss_closed := true;
     ss_drainerStarted := ss_drainerStarted st; ss_done := ss_done st |}.
Definition close_done (st : subscriberState) : subscriberState :=
  {| ss_subscriber := ss_subscriber st; ss_async := ss_async st; ss_ch := ss_ch st;
     ss_chClosed := ss_chClosed st; ss_closed := ss_closed st;
     ss_drainerStarted := ss_drainerStarted st; ss_done := true |}.

(** What the bus does to subscribers. *)
Inductive action :=
| Accepted (p : nat) (e : Event)    (* enqueued *)
| Dropped (p : nat) (e : Event)     (* the channel was full *)
| Processed (p : nat) (e : Event).  (* [ProcessEvent] was called *)

(** [Init]; the buffer size is a [uint32] of the configuration. *)
Definition Init (bufferSize : nat) : eventBus :=
  {| eb_heap := []; eb_subscriberDir := ∅; eb_bufferSize := bufferSize;
     eb_started := false; eb_stopped := false; eb_wg := 0 |}.

Definition launchDrainer (b : eventBus) (p : nat) : eventBus :=
  if eb_stopped b then b
  else match eb_heap b !! p with
  | None => b
  | Some st =>
      if ss_drainerStarted st then b
      else with_wg (with_heap b (<[p := start_drainer st]> (eb_heap b))) (S (eb_wg b))
  end.

Definition launch_async (b : eventBus) (p : nat) : eventBus :=
  match eb_heap b !! p with
  | Some st => if ss_async st then launchDrainer b p else b
  | None => b
  end.

Definition subscriber_name (b : eventBus) (p : nat) : option string :=
  sub_Name ∘ ss_subscriber <$> eb_heap b !! p.

Definition Subscribe (b : eventBus) (s : Subscriber) : eventBus * option error :=
  if eb_stopped b then (b, Some (ErrorText "eventBus already stopped"))
  else
    let rk := sub_ResourceKind s in
    let states := default [] (eb_subscriberDir b !! rk) in
    if existsb (λ p, bool_decide (subscriber_name b p = Some (sub_Name s))) states then
      (b, Some (ErrorText ("duplicated subscriber name " +:+ sub_Name s
                            +:+ ", skipped subscribing")))
    else
      let isAsync := bool_decide (0 < eb_bufferSize b) && sub_AsyncEnabled s in
      let state := {| ss_subscriber := s; ss_async := isAsync; ss_ch := [];
                      ss_chClosed := false; ss_closed := false;
                      ss_drainerStarted := false; ss_done := false |} in
      let p := length (eb_heap b) in
      let b := with_dir (with_heap b ((eb_heap b ++ [state])%list))
                 (<[rk := (states ++ [p])%list]> (eb_subscriberDir b)) in
      (if isAsync && eb_started b then launchDrainer b p else b, None).

(** The first pointer with the given name and the remaining ones. *)
Fixpoint remove_named (b : eventBus) (name : string) (states : list nat)
    : option (nat * list nat) :=
  match states with
  | [] => None
  | p :: states =>
      if decide (subscriber_name b p = Some name) then Some (p, states)
      else '(q, rest) ← remove_named b name states; Some (q, p :: rest)
  end.

(** The critical section of [Unsubscribe]. [None] is a panic: the channel was
    already closed. The last component is the drainer the caller then waits
    for ([<-asyncState.done]). *)
Definition Unsubscribe (b : eventBus) (s : Subscriber)
    : option (eventBus * option error * option nat) :=
  let rk := sub_ResourceKind s in
  match eb_subscriberDir b !! rk with
  | None => Some (b, Some (ErrorText ("no subscriber for resource " +:+ rk
                                       +:+ ", skipped unsubscribing")), None)
  | Some states =>
      match remove_named b (sub_Name s) states with
      | None => Some (b, Some (ErrorText ("no subscriber named " +:+ sub_Name s
                   +:+ " for resource " +:+ rk +:+ ", skipped unsubscribing")), None)
      | Some (p, rest) =>
          let b' := with_dir b (<[rk := rest]> (eb_subscriberDir b)) in
          match eb_heap b !! p with
          | None => Some (b', None, None)
          | Some st =>
              if ss_async st then
                if ss_chClosed st then None
                else Some (with_heap b' (<[p := close_ch st]> (eb_heap b')), None,
                           if ss_drainerStarted st then Some p else None)
              else Some (b', None, None)
          end
      end
  end.

Definition event_kind (e : Event) : string :=
  match ev_newObj e with
  | Some r => kind_string (res_kind r)
  | None => match ev_oldObj e with Some r => kind_string (res_kind r) | None => "" end
  end.

(** One iteration of the loop of [Send]; [None] is a send on a closed channel. *)
Definition send_one (b : eventBus) (e : Event) (p : nat) : option (eventBus * list action) :=
  match eb_heap b !! p with
  | None => Some (b, [])
  | Some st =>
      if ss_async st && negb (ss_closed st) then
        if ss_chClosed st then None
        else if decide (length (ss_ch st) < eb_bufferSize b) then
          Some (with_heap b (<[p := with_ch st ((ss_ch st ++ [e])%list)]> (eb_heap b)),
                [Accepted p e])
        else Some (b, [Dropped p e])
      else if negb (ss_async st) then Some (b, [Processed p e])
      else Some (b, [])
  end.

Fixpoint send_loop (b : eventBus) (e : Event) (states : list nat)
    : option (eventBus * list action) :=
  match states with
  | [] => Some (b, [])
  | p :: states =>
      '(b1, a1) ← send_one b e p;
      '(b2, a2) ← send_loop b1 e states;
      Some (b2, (a1 ++ a2)%list)
  end.

(** A call of [Send] that is not interleaved with other goroutines. *)
Definition Send (b : eventBus) (e : Event) : option (eventBus * list action) :=
  if eb_stopped b then Some (b, [])
  else match eb_subscriberDir b !! event_kind e with
  | None => Some (b, [])
  | Some states => send_loop b e states
  end.

Section ranges.
Context `{MapRange}.

Definition all_pointers (b : eventBus) : list nat := (go_range (eb_subscriberDir b)).*2 ≫= id.

Definition Start (b : eventBus) : eventBus * option error :=
  if eb_started b then (b, Some (ErrorText "eventBus already started"))
  else (foldl launch_async (set_started b) (all_pointers b), None).

(** [None] is a panic: close of a closed channel. *)
Definition close_one (b : eventBus) (p : nat) : option eventBus :=
  match eb_heap b !! p with
  | None => Some b
  | Some st =>
      if ss_async st && negb (ss_closed st) then
        if ss_chClosed st then None
        else Some (with_heap b (<[p := close_ch st]> (eb_heap b)))
      else Some b
  end.

Fixpoint close_loop (b : eventBus) (states : list nat) : option eventBus :=
  match states with
  | [] => Some b
  | p :: states => b' ← close_one b p; close_loop b' states
  end.

(** [WaitForDone] up to [wg.Wait()]. *)
Definition WaitForDone (b : eventBus) : option eventBus :=
  close_loop (set_stopped b) (all_pointers b).
End ranges.

(** One iteration of the drainer goroutine of [p]: take the next event and
    process it, or leave once the channel is closed and empty. [None]: it is
    not running, or it blocks on the empty channel. *)
Definition drain (b : eventBus) (p : nat) : option (eventBus * list action) :=
  st ← eb_heap b !! p;
  if ss_drainerStarted st && negb (ss_done st) then
    match ss_ch st with
    | e :: ch => Some (with_heap b (<[p := with_ch st ch]> (eb_heap b)), [Processed p e])
    | [] =>
        if ss_chClosed st then
          Some (with_wg (with_heap b (<[p := close_done st]> (eb_heap b))) (Nat.pred (eb_wg b)), [])
        else None
    end
  else None.

(** ** The running system

    [sy_waiting]: senders past the [stopped] check that wait for the read
    lock; [sy_readers]: senders inside the loop, with the subscribers left. *)
Record system := {
  sy_bus : eventBus;
  sy_waiting : list Event;
  sy_readers : list (Event * list nat) }.

Definition with_bus (y : system) (b : eventBus) : system :=
  {| sy_bus := b; sy_waiting := sy_waiting y; sy_readers := sy_readers y |}.

Section system.
Context `{MapRange}.

Inductive bus_step : system → list action → system → Prop :=
| step_Subscribe y s : sy_readers y = [] →
    bus_step y [] (with_bus y (Subscribe (sy_bus y) s).1)
| step_Unsubscribe y s b r w : sy_readers y = [] →
    Unsubscribe (sy_bus y) s = Some (b, r, w) → bus_step y [] (with_bus y b)
| step_Send_check y e : eb_stopped (sy_bus y) = false →
    bus_step y [] {| sy_bus := sy_bus y; sy_waiting := e :: sy_waiting y;
                     sy_readers := sy_readers y |}
| step_Send_lock b w1 e w2 rd :
    bus_step {| sy_bus := b; sy_waiting := (w1 ++ e :: w2)%list; sy_readers := rd |} []
      {| sy_bus := b; sy_waiting := (w1 ++ w2)%list;
         sy_readers := (e, default [] (eb_subscriberDir b !! event_kind e)) :: rd |}
| step_Send_next b b' w r1 e p ps r2 tr : send_one b e p = Some (b', tr) →
    bus_step {| sy_bus := b; sy_waiting := w; sy_readers := (r1 ++ (e, p :: ps) :: r2)%list |} tr
      {| sy_bus := b'; sy_waiting := w; sy_readers := (r1 ++ (e, ps) :: r2)%list |}
| step_Send_unlock b w r1 e r2 :
    bus_step {| sy_bus := b; sy_waiting := w; sy_readers := (r1 ++ (e, []) :: r2)%list |} []
      {| sy_bus := b; sy_waiting := w; sy_readers := (r1 ++ r2)%list |}
| step_Start y : bus_step y [] (with_bus y (Start (sy_bus y)).1)
| step_stop y : bus_step y [] (with_bus y (set_stopped (sy_bus y)))
| step_close y b : sy_readers y = [] → eb_stopped (sy_bus y) = true →
    WaitForDone (sy_bus y) = Some b → bus_step y [] (with_bus y b)
| step_drain y p b tr : drain (sy_bus y) p = Some (b, tr) → bus_step y tr (with_bus y b).

Definition sys_init (n : nat) : system :=
  {| sy_bus := Init n; sy_waiting := []; sy_readers := [] |}.

(** [runs n tr y]: the system started with buffer size [n] can reach [y],
    doing [tr]. *)
Inductive runs (n : nat) : list action → system → Prop :=
| runs_init : runs n [] (sys_init n)
| runs_step tr y tr' y' : runs n tr y → bus_step y tr' y' → runs n ((tr ++ tr')%list) y'.
End system.

(** The events a trace hands to the queue of [p], and to its [ProcessEvent]. *)
Definition accepted (p : nat) (tr : list action) : list Event :=
  omap (λ a, match a with Accepted q e => if decide (q = p) then Some e else None
                        | _ => None end) tr.
Definition processed (p : nat) (tr : list action) : list Event :=
  omap (λ a, match a with Processed q e => if decide (q = p) then Some e else None
                        | _ => None end) tr.

(** ** The invariant of the bus *)
Record state_ok (n : nat) (st : subscriberState) : Prop := {
  so_len : length (ss_ch st) ≤ n;
  so_closed : ss_closed st = ss_chClosed st;
  so_async : ss_async st = true → 0 < n;
  so_sync : ss_async st = false → ss_ch st = [] ∧ ss_closed st = false ∧ ss_drainerStarted st = false;
  so_done : ss_done st = true →
    ss_drainerStarted st = true ∧ ss_closed st = true ∧ ss_ch st = [] }.

Definition subscribed (b : eventBus) (rk : string) (p : nat) : Prop :=
  ∃ ps, eb_subscriberDir b !! rk = Some ps ∧ p ∈ ps.

Record bus_ok (b : eventBus) : Prop := {
  bo_states p st : eb_heap b !! p = Some st → state_ok (eb_bufferSize b) st;
  bo_dir rk p : subscribed b rk p →
    ∃ st, eb_heap b !! p = Some st ∧ sub_ResourceKind (ss_subscriber st) = rk;
  bo_names rk ps : eb_subscriberDir b !! rk = Some ps → NoDup (subscriber_name b <$> ps);
  bo_open p st : eb_heap b !! p = Some st → ss_async st = true → ss_closed st = false →
    subscribed b (sub_ResourceKind (ss_subscriber st)) p;
  bo_live rk p st : eb_stopped b = false → subscribed b rk p → eb_heap b !! p = Some st →
    ss_closed st = false }.

Definition running (st : subscriberState) : bool := ss_drainerStarted st && negb (ss_done st).
Definition drainers (h : list subscriberState) : nat :=
  sum_list ((λ st, if running st then 1 else 0) <$> h).

Lemma drainers_insert h p st st' :
  h !! p = Some st →
  drainers (<[p := st']> h) + (if running st then 1 else 0) =
  drainers h + (if running st' then 1 else 0).
Proof.
  unfold drainers. revert p. induction h as [|s h IH]; intros [|p]; csimpl; try done.
  - intros [= ->]. lia.
  - intros Hp. specialize (IH p Hp). lia.
Qed.

Lemma drainers_app h st : drainers (h ++ [st]) = drainers h + (if running st then 1 else 0).
Proof. unfold drainers. rewrite fmap_app, sum_list_with_app || induction h; csimpl; lia. Qed.

Lemma subscriber_name_upd b p st st' q :
  eb_heap b !! p = Some st → ss_subscriber st' = ss_subscriber st →
  subscriber_name (with_heap b (<[p := st']> (eb_heap b))) q = subscriber_name b q.
Proof.
  intros Hp Hs. unfold subscriber_name. simpl. destruct (decide (p = q)) as [<-|Hne].
  - rewrite list_lookup_insert_eq by by eapply lookup_lt_Some. by rewrite Hp; simpl; rewrite Hs.
  - by rewrite list_lookup_insert_ne.
Qed.

(** Replacing the state behind a pointer. *)
Lemma bus_ok_upd b p st st' :
  bus_ok b → eb_heap b !! p = Some st →
  ss_subscriber st' = ss_subscriber st → ss_async st' = ss_async st →
  state_ok (eb_bufferSize b) st' →
  (ss_closed st' = ss_closed st ∨ ss_closed st' = true ∧ eb_stopped b = true) →
  bus_ok (with_heap b (<[p := st']> (eb_heap b))).
Proof.
  intros [H1 H2 H3 H4 H5] Hp Hs Ha Hok Hcl.
  assert (Hlook : ∀ q s, <[p := st']> (eb_heap b) !! q = Some s →
    q = p ∧ s = st' ∨ q ≠ p ∧ eb_heap b !! q = Some s).
  { intros q s. rewrite list_lookup_insert_Some. naive_solver. }
  split; simpl.
  - intros q s [[-> ->]|[_ ?]]%Hlook; eauto.
  - intros rk q Hq. destruct (H2 rk q Hq) as (s & Hqs & Hk). destruct (decide (q = p)) as [->|Hne].
    + exists st'. rewrite list_lookup_insert_eq by by eapply lookup_lt_Some.
      split; [done|]. congruence.
    + exists s. by rewrite list_lookup_insert_ne.
  - intros rk ps Hps. erewrite list_fmap_ext; [by apply (H3 rk)|].
    intros i q _. by eapply subscriber_name_upd.
  - intros q s [[-> ->]|[_ ?]]%Hlook Has Hc; [|by apply H4].
    rewrite Hs. apply H4; [done|congruence|]. destruct Hcl as [?|[? _]]; congruence.
  - intros rk q s Hst Hq [[-> ->]|[_ ?]]%Hlook; [|by eapply H5].
    destruct Hcl as [->|[_ ?]]; [|congruence]. by eapply H5.
Qed.

Lemma bus_ok_flags b b' :
  bus_ok b → eb_heap b' = eb_heap b → eb_subscriberDir b' = eb_subscriberDir b →
  eb_bufferSize b' = eb_bufferSize b → (eb_stopped b = true → eb_stopped b' = true) → bus_ok b'.
Proof.
  intros [H1 H2 H3 H4 H5] Hh Hd Hb Hs.
  split; unfold subscribed, subscriber_name; rewrite ?Hh, ?Hd, ?Hb; [done..|].
  intros rk p st Hst. apply H5. destruct (eb_stopped b); [by rewrite Hs in Hst|done].
Qed.

Definition bus_inv (b : eventBus) : Prop := bus_ok b ∧ eb_wg b = drainers (eb_heap b).

Lemma Init_inv n : bus_inv (Init n).
Proof.
  split; [|done].
  split; simpl; unfold subscribed; simpl; first [done | setoid_rewrite lookup_empty; naive_solver].
Qed.

Lemma launchDrainer_inv b p st :
  bus_inv b → eb_heap b !! p = Some st → ss_async st = true → bus_inv (launchDrainer b p).
Proof.
  intros [Hok Hwg] Hp Ha. unfold launchDrainer. destruct (eb_stopped b) eqn:Hst; [done|].
  rewrite Hp. destruct (ss_drainerStarted st) eqn:Hd; [done|].
  destruct (bo_states _ Hok _ _ Hp) as [L C A S D].
  assert (ss_done st = false) as Hdn.
  { destruct (ss_done st) eqn:E; [|done]. destruct (D eq_refl). congruence. }
  split.
  - eapply bus_ok_flags; [eapply (bus_ok_upd b p st (start_drainer st)); try done|done..].
    + split; simpl; [done..| |]; [congruence|]. rewrite Hdn. done.
    + by left.
  - simpl. pose proof (drainers_insert _ _ _ (start_drainer st) Hp) as Hc.
    unfold running in Hc. simpl in Hc. rewrite Hd, Hdn in Hc. simpl in Hc. lia.
Qed.

(** A change of the heap that leaves the queues alone: new states are empty. *)
Definition extends (h h' : list subscriberState) : Prop :=
  ∀ q, match h !! q with
       | Some st => ∃ st', h' !! q = Some st' ∧ ss_ch st' = ss_ch st ∧ ss_async st' = ss_async st
       | None => ∀ st', h' !! q = Some st' → ss_ch st' = []
       end.

Lemma extends_refl h : extends h h.
Proof. intros q. destruct (h !! q) eqn:E; [by eexists|done]. Qed.

Lemma extends_trans h1 h2 h3 : extends h1 h2 → extends h2 h3 → extends h1 h3.
Proof.
  intros H1 H2 q. specialize (H1 q). specialize (H2 q). destruct (h1 !! q) as [st|].
  - destruct H1 as (st' & Hq & ? & ?). rewrite Hq in H2. destruct H2 as (st'' & ? & ? & ?).
    exists st''. split_and!; congruence.
  - intros st' Hst'. destruct (h2 !! q) as [st2|] eqn:E; [|by eapply H2].
    destruct H2 as (? & ? & ? & ?). specialize (H1 st2 eq_refl). congruence.
Qed.

Lemma extends_insert h p st st' :
  h !! p = Some st → ss_ch st' = ss_ch st → ss_async st' = ss_async st →
  extends h (<[p := st']> h).
Proof.
  intros Hp Hc Ha q. destruct (decide (p = q)) as [<-|Hne].
  - rewrite Hp, list_lookup_insert_eq by by eapply lookup_lt_Some. by eexists.
  - rewrite list_lookup_insert_ne by done. apply extends_refl.
Qed.

Lemma launchDrainer_extends b p : extends (eb_heap b) (eb_heap (launchDrainer b p)).
Proof.
  unfold launchDrainer. destruct (eb_stopped b); [apply extends_refl|].
  destruct (eb_heap b !! p) as [st|] eqn:Hp; [|apply extends_refl].
  destruct (ss_drainerStarted st); [apply extends_refl|]. by apply (extends_insert _ _ st).
Qed.

Lemma launch_async_inv b p : bus_inv b → bus_inv (launch_async b p).
Proof.
  intros Hb. unfold launch_async. destruct (eb_heap b !! p) as [st|] eqn:Hp; [|done].
  destruct (ss_async st) eqn:Ha; [by eapply launchDrainer_inv|done].
Qed.

Lemma launch_async_extends b p : extends (eb_heap b) (eb_heap (launch_async b p)).
Proof.
  unfold launch_async. destruct (eb_heap b !! p); [|apply extends_refl].
  destruct (ss_async _); [apply launchDrainer_extends|apply extends_refl].
Qed.

Lemma foldl_launch ps b :
  bus_inv b → bus_inv (foldl launch_async b ps) ∧
  extends (eb_heap b) (eb_heap (foldl launch_async b ps)).
Proof.
  revert b. induction ps as [|p ps IH]; intros b Hb; simpl; [split; [done|apply extends_refl]|].
  destruct (IH (launch_async b p)) as [? ?]; [by apply launch_async_inv|].
  split; [done|]. eapply extends_trans; [apply launch_async_extends|done].
Qed.

Lemma Start_inv `{MapRange} b :
  bus_inv b → bus_inv (Start b).1 ∧ extends (eb_heap b) (eb_heap (Start b).1).
Proof.
  intros [Hok Hwg]. unfold Start. destruct (eb_started b); [split; [done|apply extends_refl]|].
  apply (foldl_launch _ (set_started b)). split; [|done]. by eapply bus_ok_flags.
Qed.

(** *** Subscribing *)
Lemma Subscribe_append b s st ps :
  bus_inv b → eb_stopped b = false →
  default [] (eb_subscriberDir b !! sub_ResourceKind s) = ps →
  Some (sub_Name s) ∉ (subscriber_name b <$> ps) →
  ss_subscriber st = s → state_ok (eb_bufferSize b) st → ss_closed st = false →
  running st = false →
  bus_inv (with_dir (with_heap b (eb_heap b ++ [st]))
    (<[sub_ResourceKind s := ps ++ [length (eb_heap b)]]> (eb_subscriberDir b))).
Proof.
  intros [[H1 H2 H3 H4 H5] Hwg] Hst Hps Hnew Hs Hok Hcl Hrun.
  set (b' := with_dir _ _). set (n := length (eb_heap b)) in *.
  assert (Hold : ∀ q x, eb_heap b !! q = Some x → eb_heap b' !! q = Some x).
  { intros q x Hq. apply lookup_app_l_Some, Hq. }
  assert (Hlook : ∀ q x, eb_heap b' !! q = Some x → eb_heap b !! q = Some x ∨ q = n ∧ x = st).
  { intros q x. unfold b'. simpl. intros [?|[Hge Hx]]%lookup_app_Some; [by left|right].
    apply list_lookup_singleton_Some in Hx as [? ?]. split; [unfold n; lia|done]. }
  assert (Hn : eb_heap b' !! n = Some st).
  { apply list_lookup_middle. done. }
  assert (Hsub : ∀ rk q, subscribed b' rk q ↔ subscribed b rk q ∨ rk = sub_ResourceKind s ∧ q = n).
  { intros rk q. unfold subscribed, b'. simpl. split.
    - intros (l & [[<- <-]|[? ?]]%lookup_insert_Some & Hq); [|left; eauto].
      apply elem_of_app in Hq as [Hq|Hq%list_elem_of_singleton]; [left|by right].
      destruct (eb_subscriberDir b !! _) as [l|] eqn:E; simpl in Hps; subst; [by exists ps|].
      by apply elem_of_nil in Hq.
    - intros [(l & Hl & Hq)|[-> ->]].
      + destruct (decide (rk = sub_ResourceKind s)) as [->|Hne].
        * rewrite Hl in Hps. simpl in Hps. subst l. rewrite lookup_insert_eq.
          eexists. split; [done|]. apply elem_of_app. by left.
        * rewrite lookup_insert_ne by done. by exists l.
      + rewrite lookup_insert_eq. eexists. split; [done|]. apply elem_of_app. right.
        by apply list_elem_of_singleton. }
  assert (Hname : ∀ rk q, subscribed b rk q → subscriber_name b' q = subscriber_name b q).
  { intros rk q (x & Hx & _)%H2. unfold subscriber_name. by rewrite (Hold _ _ Hx), Hx. }
  split; [split|].
  - intros q x [?|[_ ->]]%Hlook; [by eapply H1|done].
  - intros rk q [(x & Hx & Hk)%H2|[-> ->]]%Hsub.
    + exists x. split; [by apply Hold|done].
    + exists st. split; [done|by rewrite Hs].
  - intros rk l Hl. assert (Hfm : ∀ l0, eb_subscriberDir b !! rk = Some l0 →
      subscriber_name b' <$> l0 = subscriber_name b <$> l0).
    { intros l0 Hl0. apply list_fmap_ext. intros i q Hq. apply (Hname rk).
      exists l0. split; [done|by eapply list_elem_of_lookup_2]. }
    unfold b' in Hl. simpl in Hl. apply lookup_insert_Some in Hl as [[<- <-]|[Hne Hl]].
    + assert (subscriber_name b' <$> ps = subscriber_name b <$> ps) as Hpe.
      { destruct (eb_subscriberDir b !! _) as [l|] eqn:E; simpl in Hps; subst; [by apply Hfm|done]. }
      rewrite fmap_app, Hpe. apply NoDup_app. split_and!.
      * destruct (eb_subscriberDir b !! _) as [l|] eqn:E; simpl in Hps; subst; [by eapply H3|constructor].
      * intros x Hx. simpl. rewrite list_elem_of_singleton. intros ->.
        unfold subscriber_name in Hx at 1. rewrite Hn in Hx. simpl in Hx. by rewrite Hs in Hx.
      * apply NoDup_singleton.
    + rewrite (Hfm _ Hl). by eapply H3.
  - intros q x Hq Ha Hc. apply Hsub. destruct (Hlook _ _ Hq) as [?|[-> ->]];
      [left; by apply H4|right; by rewrite Hs].
  - intros rk q x _ Hq Hx. destruct (Hlook _ _ Hx) as [Hx'|[-> ->]]; [|done].
    apply Hsub in Hq as [Hq|[-> ->]]; [by eapply H5|].
    apply lookup_lt_Some in Hx'. unfold n in Hx'. lia.
  - simpl. rewrite drainers_app, Hrun. simpl. rewrite Hwg. lia.
Qed.

Lemma Subscribe_inv b s :
  bus_inv b → bus_inv (Subscribe b s).1 ∧ extends (eb_heap b) (eb_heap (Subscribe b s).1).
Proof.
  intros Hb. unfold Subscribe. destruct (eb_stopped b) eqn:Hst; [split; [done|apply extends_refl]|].
  set (ps := default [] _).
  destruct (existsb _ ps) eqn:Hex; [split; [done|apply extends_refl]|].
  set (st := {| ss_subscriber := s |}). cbv zeta. cbn [fst].
  set (b1 := with_dir _ _).
  assert (Hb1 : bus_inv b1).
  { apply (Subscribe_append b s st ps); try done.
    - intros (p & Hp & Hin)%list_elem_of_fmap.
      assert (existsb (λ p, bool_decide (subscriber_name b p = Some (sub_Name s))) ps = true) as Ht;
        [|rewrite Hex in Ht; discriminate Ht].
      apply existsb_exists. exists p. split; [by apply list_elem_of_In|by apply bool_decide_eq_true].
    - split; simpl; try done; [lia|]. intros [?%bool_decide_eq_true _]%andb_true_iff. done. }
  assert (He : extends (eb_heap b) (eb_heap b1)).
  { intros q. unfold b1. simpl. destruct (eb_heap b !! q) as [x|] eqn:E.
    - exists x. split; [by apply lookup_app_l_Some|done].
    - intros x [?|[_ Hx]]%lookup_app_Some; [congruence|].
      apply list_lookup_singleton_Some in Hx as [_ <-]. done. }
  change (bool_decide (0 < eb_bufferSize b) && sub_AsyncEnabled s && eb_started b1)
    with (ss_async st && eb_started b).
  destruct (ss_async st && eb_started b) eqn:Hl; [|done].
  split; [|eapply extends_trans; [exact He|apply launchDrainer_extends]].
  apply andb_true_iff in Hl as [Ha _].
  eapply (launchDrainer_inv _ _ st); [done| |exact Ha].
  unfold b1. simpl. by apply list_lookup_middle.
Qed.

(** *** Unsubscribing *)
Lemma remove_named_spec b name ps p rest :
  remove_named b name ps = Some (p, rest) →
  ∃ l1 l2, ps = l1 ++ p :: l2 ∧ rest = l1 ++ l2 ∧ subscriber_name b p = Some name.
Proof.
  revert rest. induction ps as [|q ps IH]; intros rest; simpl; [done|]. case_decide as Hq.
  - intros [= -> ->]. by exists [], rest.
  - destruct (remove_named b name ps) as [[q' r]|]; simpl; [|done]. intros [= -> <-].
    destruct (IH r eq_refl) as (l1 & l2 & -> & -> & ?). by exists (q :: l1), l2.
Qed.

(** Removing [p] from the directory, where [st'] is the state left behind. *)
Lemma remove_inv b rk l1 p l2 st st' :
  bus_inv b → eb_subscriberDir b !! rk = Some (l1 ++ p :: l2) →
  eb_heap b !! p = Some st → state_ok (eb_bufferSize b) st' →
  ss_subscriber st' = ss_subscriber st → running st' = running st →
  (ss_async st' = true → ss_closed st' = true) →
  bus_inv (with_heap (with_dir b (<[rk := l1 ++ l2]> (eb_subscriberDir b)))
             (<[p := st']> (eb_heap b))).
Proof.
  intros [[H1 H2 H3 H4 H5] Hwg] Hrk Hp Hok Hs Hrun Hcl.
  set (b' := with_heap _ _).
  assert (Hlook : ∀ q s, eb_heap b' !! q = Some s →
    q = p ∧ s = st' ∨ q ≠ p ∧ eb_heap b !! q = Some s).
  { intros q s. unfold b'. simpl. rewrite list_lookup_insert_Some. naive_solver. }
  assert (Hname : ∀ q, subscriber_name b' q = subscriber_name b q).
  { intros q. apply (subscriber_name_upd b p st st' q); done. }
  assert (Hnd : NoDup (subscriber_name b <$> (l1 ++ l2)) ∧ p ∉ l1 ++ l2).
  { pose proof (H3 _ _ Hrk) as Hnd. split.
    - eapply sublist_NoDup; [exact Hnd|]. apply fmap_sublist.
      apply sublist_app; [done|]. by constructor.
    - rewrite fmap_app, fmap_cons in Hnd. intros Hin.
      apply NoDup_app in Hnd as (_ & Hd & [Hd2 _]%NoDup_cons).
      apply elem_of_app in Hin as [Hin|Hin].
      + apply (Hd (subscriber_name b p)); [by apply list_elem_of_fmap_2|by left].
      + by apply Hd2, list_elem_of_fmap_2. }
  assert (Hkind : sub_ResourceKind (ss_subscriber st) = rk).
  { destruct (H2 rk p) as (x & Hx & Hk); [|by simplify_eq].
    exists (l1 ++ p :: l2). split; [done|]. apply elem_of_app. right. left. }
  assert (Hsub : ∀ k q, subscribed b' k q ↔ subscribed b k q ∧ (k = rk → q ≠ p)).
  { intros k q. unfold subscribed, b'. simpl. split.
    - intros (l & [[<- <-]|[Hne Hl]]%lookup_insert_Some & Hq).
      + split; [exists (l1 ++ p :: l2); split; [done|]|].
        * apply elem_of_app in Hq as [?|?]; apply elem_of_app; [by left|right; by right].
        * intros _ ->. by destruct Hnd.
      + split; [by exists l|congruence].
    - intros [(l & Hl & Hq) Hne]. destruct (decide (k = rk)) as [->|Hk].
      + rewrite lookup_insert_eq. eexists. split; [done|]. simplify_eq.
        apply elem_of_app in Hq as [?|[->|?]%elem_of_cons]; apply elem_of_app; [by left| |by right].
        by destruct Hne.
      + rewrite lookup_insert_ne by done. by exists l. }
  split; [split|].
  - intros q s [[-> ->]|[_ ?]]%Hlook; [done|by eapply H1].
  - intros k q [(s & Hqs & Hk)%H2 Hne]%Hsub. destruct (decide (q = p)) as [->|Hqp].
    + simplify_eq. by destruct Hne.
    + exists s. unfold b'. simpl. by rewrite list_lookup_insert_ne.
  - intros k ps Hps. rewrite (list_fmap_ext _ (subscriber_name b)) by (intros; apply Hname).
    unfold b' in Hps. simpl in Hps. apply lookup_insert_Some in Hps as [[<- <-]|[? ?]];
      [apply Hnd|by eapply H3].
  - intros q s [[-> ->]|[Hne Hq]]%Hlook Ha Hc; [rewrite Hcl in Hc by done; done|].
    apply Hsub. split; [by apply H4|done].
  - intros k q s Hst [Hq Hne]%Hsub [[-> ->]|[_ Hqs]]%Hlook; [|by eapply H5].
    destruct (H2 k p Hq) as (x & Hx & Hk). simplify_eq. by destruct Hne.
  - simpl. pose proof (drainers_insert _ _ _ st' Hp) as Hc. rewrite Hrun in Hc.
    rewrite Hwg. destruct (running st); lia.
Qed.

Lemma with_heap_id b p st :
  eb_heap b !! p = Some st → with_heap b (<[p := st]> (eb_heap b)) = b.
Proof. intros Hp. rewrite list_insert_id by done. by destruct b. Qed.

Lemma Unsubscribe_inv b s b' r w :
  bus_inv b → Unsubscribe b s = Some (b', r, w) →
  bus_inv b' ∧ extends (eb_heap b) (eb_heap b').
Proof.
  intros Hb. unfold Unsubscribe.
  destruct (eb_subscriberDir b !! _) as [ps|] eqn:Hps;
    [|intros [= <- _ _]; split; [done|apply extends_refl]].
  destruct (remove_named _ _ _) as [[p rest]|] eqn:Hrm;
    [|intros [= <- _ _]; split; [done|apply extends_refl]].
  apply remove_named_spec in Hrm as (l1 & l2 & -> & -> & Hn).
  destruct (eb_heap b !! p) as [st|] eqn:Hp.
  2:{ unfold subscriber_name in Hn. by rewrite Hp in Hn. }
  pose proof (bo_states _ (proj1 Hb) _ _ Hp) as Hok.
  destruct (ss_async st) eqn:Ha.
  - destruct (ss_chClosed st) eqn:Hc; [done|]. intros [= <- _ _]. split.
    + apply (remove_inv b _ l1 p l2 st (close_ch st)); try done.
      destruct Hok as [L C A S D]. split; simpl; [done..|congruence|].
      intros Hd. destruct (D Hd) as (? & ? & ?). congruence.
    + simpl. by apply (extends_insert _ _ st).
  - intros [= <- _ _]. split; [|apply extends_refl].
    rewrite <-(with_heap_id (with_dir _ _) p st) by done.
    apply (remove_inv b _ l1 p l2 st st); try done. congruence.
Qed.

(** *** Closing and draining *)
Lemma close_one_inv b p :
  bus_inv b → eb_stopped b = true →
  ∃ b', close_one b p = Some b' ∧ bus_inv b' ∧ extends (eb_heap b) (eb_heap b') ∧
    eb_subscriberDir b' = eb_subscriberDir b ∧ eb_stopped b' = true ∧
    (∀ st', eb_heap b' !! p = Some st' → ss_async st' = true → ss_closed st' = true) ∧
    ∀ q st', eb_heap b' !! q = Some st' → ∃ st, eb_heap b !! q = Some st ∧
      (ss_closed st = true → ss_closed st' = true) ∧ ss_async st' = ss_async st.
Proof.
  intros [Hok Hwg] Hst. unfold close_one. destruct (eb_heap b !! p) as [st|] eqn:Hp.
  2:{ exists b. split_and!; try done; [apply extends_refl|congruence|by eauto]. }
  destruct (bo_states _ Hok _ _ Hp) as [L C A S D].
  destruct (ss_async st) eqn:Ha; simpl.
  2:{ exists b. split_and!; try done; [apply extends_refl|intros; congruence|by eauto]. }
  destruct (ss_closed st) eqn:Hc; simpl.
  { exists b. split_and!; try done; [apply extends_refl|intros; congruence|by eauto]. }
  rewrite <-C. eexists. split; [done|]. split_and!; try done.
  - split.
    + apply (bus_ok_upd b p st (close_ch st)); try done; [|by right].
      split; simpl; try done; [by intros; apply A|congruence|]. intros (_ & ? & _)%D. congruence.
    + simpl. pose proof (drainers_insert _ _ _ (close_ch st) Hp) as Hd.
      change (running (close_ch st)) with (running st) in Hd. rewrite Hwg.
      destruct (running st); lia.
  - simpl. by apply (extends_insert _ _ st).
  - simpl. intros st' Hst' _. rewrite list_lookup_insert_eq in Hst' by by eapply lookup_lt_Some.
    by simplify_eq.
  - intros q st' Hq. simpl in Hq. apply list_lookup_insert_Some in Hq as [(<- & <- & _)|[_ Hq]].
    + by exists st.
    + by exists st'.
Qed.

Lemma close_loop_inv ps b :
  bus_inv b → eb_stopped b = true →
  ∃ b', close_loop b ps = Some b' ∧ bus_inv b' ∧ extends (eb_heap b) (eb_heap b') ∧
    eb_subscriberDir b' = eb_subscriberDir b ∧ eb_stopped b' = true ∧
    (∀ p st', p ∈ ps → eb_heap b' !! p = Some st' → ss_async st' = true → ss_closed st' = true) ∧
    ∀ q st', eb_heap b' !! q = Some st' → ∃ st, eb_heap b !! q = Some st ∧
      (ss_closed st = true → ss_closed st' = true) ∧ ss_async st' = ss_async st.
Proof.
  revert b. induction ps as [|p ps IH]; intros b Hb Hst; simpl.
  { exists b. split_and!; try done; [apply extends_refl|by intros ? ? ?%elem_of_nil|by eauto]. }
  destruct (close_one_inv b p Hb Hst) as (b1 & -> & Hb1 & He1 & Hd1 & Hs1 & Hp1 & Hq1). simpl.
  destruct (IH b1 Hb1 Hs1) as (b2 & -> & Hb2 & He2 & Hd2 & Hs2 & Hp2 & Hq2).
  exists b2. split_and!; try done; [by eapply extends_trans|congruence| |].
  - intros q st' [->|Hq]%elem_of_cons Hst' Ha; [|by eapply Hp2].
    destruct (Hq2 _ _ Hst') as (st1 & Hst1 & Hc & Hsame). apply Hc.
    eapply Hp1; [done|congruence].
  - intros q st' (st1 & (st & ? & ? & ?)%Hq1 & ? & ?)%Hq2.
    exists st. split_and!; [done|auto|congruence].
Qed.

Lemma subscribed_all `{MapRange} b rk p : subscribed b rk p → p ∈ all_pointers b.
Proof.
  intros (ps & Hps & Hp). unfold all_pointers. apply list_elem_of_bind. exists ps.
  split; [done|]. apply list_elem_of_fmap. exists (rk, ps). split; [done|].
  by apply elem_of_go_range.
Qed.

(** [WaitForDone] closes every open channel and never panics. *)
Lemma WaitForDone_inv `{MapRange} b :
  bus_inv b → ∃ b', WaitForDone b = Some b' ∧ bus_inv b' ∧ eb_stopped b' = true ∧
    extends (eb_heap b) (eb_heap b') ∧
    ∀ p st, eb_heap b' !! p = Some st → ss_async st = true → ss_closed st = true.
Proof.
  intros [Hok Hwg]. assert (Hs : bus_inv (set_stopped b)) by (split; [by eapply bus_ok_flags|done]).
  destruct (close_loop_inv (all_pointers b) _ Hs eq_refl)
    as (b' & Hb' & Hi & He & Hd & Hst & Hcl & _).
  exists b'. split_and!; try done. intros p st Hp Ha.
  destruct (ss_closed st) eqn:Hc; [done|]. rewrite <-Hc. apply (Hcl p); [|done..].
  pose proof (bo_open _ (proj1 Hi) _ _ Hp Ha Hc) as Hsub.
  unfold subscribed in Hsub. rewrite Hd in Hsub. by eapply subscribed_all.
Qed.

(** *** Traces: what was accepted is what was processed plus what is queued *)
Definition trace_ok (b : eventBus) (tr : list action) : Prop :=
  ∀ p, match eb_heap b !! p with
       | None => accepted p tr = [] ∧ processed p tr = []
       | Some st => accepted p tr = if ss_async st then processed p tr ++ ss_ch st else []
       end.

Lemma accepted_app p t1 t2 : accepted p (t1 ++ t2) = accepted p t1 ++ accepted p t2.
Proof. apply omap_app. Qed.
Lemma processed_app p t1 t2 : processed p (t1 ++ t2) = processed p t1 ++ processed p t2.
Proof. apply omap_app. Qed.

Lemma trace_ok_extends b b' tr :
  extends (eb_heap b) (eb_heap b') → trace_ok b tr → trace_ok b' tr.
Proof.
  intros He Ht p. specialize (He p). specialize (Ht p). destruct (eb_heap b !! p) as [st|].
  - destruct He as (st' & -> & -> & ->). done.
  - destruct Ht as [Ha Hp]. destruct (eb_heap b' !! p) as [st'|]; [|done].
    rewrite Ha, Hp. by destruct (ss_async st'); [rewrite (He st' eq_refl)|].
Qed.

(** A step that appends [e] to one queue, or consumes its head. *)
Lemma trace_ok_upd b p st st' tr tr' :
  eb_heap b !! p = Some st → ss_async st' = ss_async st →
  (if ss_async st then ss_ch st ++ accepted p tr' = processed p tr' ++ ss_ch st'
   else accepted p tr' = []) →
  (∀ q, q ≠ p → accepted q tr' = [] ∧ processed q tr' = []) →
  trace_ok b tr → trace_ok (with_heap b (<[p := st']> (eb_heap b))) (tr ++ tr').
Proof.
  intros Hp Ha Hch Hq Ht q. rewrite accepted_app, processed_app. simpl.
  destruct (decide (q = p)) as [->|Hne].
  - rewrite list_lookup_insert_eq by by eapply lookup_lt_Some.
    specialize (Ht p). rewrite Hp in Ht. rewrite Ha, Ht. destruct (ss_async st).
    + by rewrite <-!(assoc_L (++)), Hch.
    + by rewrite Hch.
  - rewrite list_lookup_insert_ne by done. destruct (Hq q Hne) as [-> ->].
    rewrite !app_nil_r. apply Ht.
Qed.

Lemma send_one_inv b e p :
  bus_inv b → is_Some (eb_heap b !! p) →
  ∃ b' tr, send_one b e p = Some (b', tr) ∧ bus_inv b' ∧
    (∀ tr0, trace_ok b tr0 → trace_ok b' (tr0 ++ tr)) ∧
    eb_subscriberDir b' = eb_subscriberDir b ∧ length (eb_heap b') = length (eb_heap b).
Proof.
  intros [Hok Hwg] [st Hp]. unfold send_one. rewrite Hp.
  pose proof (bo_states _ Hok _ _ Hp) as [L C A S D].
  assert (Hsame : ∀ tr, (if ss_async st then accepted p tr = [] ∧ processed p tr = []
      else accepted p tr = []) → (∀ q, q ≠ p → accepted q tr = [] ∧ processed q tr = []) →
      ∀ tr0, trace_ok b tr0 → trace_ok b (tr0 ++ tr)).
  { intros tr Hpt Hqt tr0 Ht. rewrite <-(with_heap_id b p st) by done.
    apply (trace_ok_upd b p st st); try done.
    destruct (ss_async st); [|done]. destruct Hpt as [-> ->]. by rewrite app_nil_r. }
  destruct (ss_async st) eqn:Ha; simpl.
  - destruct (ss_closed st) eqn:Hc; simpl.
    + exists b, []. split_and!; try done. by apply Hsame.
    + rewrite <-C. case_decide as Hl.
      * do 2 eexists. split; [done|]. split_and!; [split| | |].
        -- apply (bus_ok_upd b p st); try done; [|by left].
           split; simpl; [rewrite length_app; simpl; lia|congruence|by intros; apply A|congruence|].
           intros (_ & ? & _)%D. congruence.
        -- simpl. pose proof (drainers_insert _ _ _ (with_ch st (ss_ch st ++ [e])) Hp) as Hd.
           change (running (with_ch st (ss_ch st ++ [e]))) with (running st) in Hd.
           rewrite Hwg. destruct (running st); lia.
        -- intros tr0 Ht. apply (trace_ok_upd b p st); try done.
           ++ rewrite Ha. unfold accepted, processed. simpl. by rewrite decide_True.
           ++ intros q Hq. unfold accepted, processed. simpl. by rewrite decide_False.
        -- done.
        -- simpl. apply length_insert.
      * exists b, [Dropped p e]. split_and!; try done. by apply Hsame.
  - exists b, [Processed p e]. split_and!; try done. apply Hsame; [done|].
    intros q Hq. unfold accepted, processed. simpl. by rewrite decide_False.
Qed.

Lemma drain_inv b p b' tr :
  bus_inv b → drain b p = Some (b', tr) →
  bus_inv b' ∧ (∀ tr0, trace_ok b tr0 → trace_ok b' (tr0 ++ tr)) ∧ eb_subscriberDir b' = eb_subscriberDir b ∧
  length (eb_heap b') = length (eb_heap b) ∧ eb_stopped b' = eb_stopped b.
Proof.
  intros [Hok Hwg]. unfold drain. destruct (eb_heap b !! p) as [st|] eqn:Hp; simpl; [|done].
  pose proof (bo_states _ Hok _ _ Hp) as [L C A S D].
  destruct (ss_drainerStarted st) eqn:Hds; simpl; [|done].
  destruct (ss_done st) eqn:Hdn; simpl; [done|].
  assert (Ha : ss_async st = true).
  { destruct (ss_async st); [done|]. destruct S as (_ & _ & ?); congruence. }
  destruct (ss_ch st) as [|e ch] eqn:Hch.
  - destruct (ss_chClosed st) eqn:Hcc; [|done]. intros [= <- <-].
    pose proof (drainers_insert _ _ _ (close_done st) Hp) as Hd.
    unfold running in Hd. simpl in Hd. rewrite Hds, Hdn in Hd. simpl in Hd.
    split_and!; [split| | | |]; try done.
    + eapply bus_ok_flags; [apply (bus_ok_upd b p st (close_done st)); try done; [|by left]|done..].
      split; simpl; first [done | congruence | rewrite Ha; congruence | rewrite Hch; simpl; lia | by rewrite Hds, C, Hch].
    + simpl. lia.
    + intros tr0 Ht. apply (trace_ok_extends (with_heap b (<[p := close_done st]> (eb_heap b))));
        [apply extends_refl|].
      apply (trace_ok_upd b p st); try done. by rewrite Ha, Hch.
    + simpl. by rewrite length_insert.
  - intros [= <- <-].
    pose proof (drainers_insert _ _ _ (with_ch st ch) Hp) as Hd.
    change (running (with_ch st ch)) with (running st) in Hd.
    split_and!; [split| | | |]; try done.
    + apply (bus_ok_upd b p st); try done; [|by left].
      split; simpl; [simpl in L; lia|done|done|congruence|congruence].
    + simpl. rewrite Hwg. destruct (running st); lia.
    + intros tr0 Ht. apply (trace_ok_upd b p st); try done.
      * rewrite Ha, Hch. unfold accepted, processed. simpl. rewrite decide_True by done.
        by rewrite app_nil_r.
      * intros q Hq. unfold accepted, processed. simpl. by rewrite decide_False.
    + simpl. by rewrite length_insert.
Qed.

(** *** The invariant of the running system *)
Record sys_inv (y : system) (tr : list action) : Prop := {
  si_bus : bus_inv (sy_bus y);
  si_trace : trace_ok (sy_bus y) tr;
  si_readers e ps p : (e, ps) ∈ sy_readers y → p ∈ ps → is_Some (eb_heap (sy_bus y) !! p) }.

Lemma extends_is_Some h h' p : extends h h' → is_Some (h !! p) → is_Some (h' !! p).
Proof. intros He [st Hp]. specialize (He p). rewrite Hp in He. destruct He as (? & ? & _). eauto. Qed.

Lemma sys_inv_silent y b tr :
  sys_inv y tr → bus_inv b → extends (eb_heap (sy_bus y)) (eb_heap b) →
  sys_inv (with_bus y b) (tr ++ []).
Proof.
  intros [H1 H2 H3] Hb He. rewrite app_nil_r. split; simpl; [done|by eapply trace_ok_extends|].
  intros e ps p Hin Hp. eapply extends_is_Some; [done|by eapply H3].
Qed.

Lemma bus_step_inv `{MapRange} y tr' y' tr :
  bus_step y tr' y' → sys_inv y tr → sys_inv y' (tr ++ tr').
Proof.
  destruct 1 as [y s Hr|y s b r w Hr Hu|y e Hst|b w1 e w2 rd|b b' w r1 e p ps r2 t Hs|b w r1 e r2
    |y|y|y b Hr Hst Hw|y p b t Hd]; intros Hy; pose proof Hy as [H1 H2 H3].
  - destruct (Subscribe_inv _ s H1). by apply sys_inv_silent.
  - destruct (Unsubscribe_inv _ _ _ _ _ H1 Hu). by apply sys_inv_silent.
  - rewrite app_nil_r. by split.
  - rewrite app_nil_r. split; simpl in *; [done..|]. intros e' ps p [[= -> ->]|Hin]%elem_of_cons Hp;
      [|by eapply H3].
    destruct (eb_subscriberDir b !! event_kind e) as [l|] eqn:E; [|by apply elem_of_nil in Hp].
    destruct (bo_dir _ (proj1 H1) (event_kind e) p) as (st & Hst & _); [by exists l|eauto].
  - simpl in *. destruct (send_one_inv b e p H1) as (b1 & t1 & Hs1 & Hi & Ht & Hd & Hl).
    { apply (H3 e (p :: ps)); [apply elem_of_app; right; left|left]. }
    rewrite Hs in Hs1. injection Hs1 as <- <-. split; simpl; [done|by apply Ht|].
    intros e' qs q Hin Hq. apply lookup_lt_is_Some. rewrite Hl. apply lookup_lt_is_Some.
    apply elem_of_app in Hin as [Hin|[[= -> ->]|Hin]%elem_of_cons].
    + apply (H3 e' qs); [apply elem_of_app; by left|done].
    + apply (H3 e (p :: ps)); [apply elem_of_app; right; left|by right].
    + apply (H3 e' qs); [apply elem_of_app; right; by right|done].
  - rewrite app_nil_r. split; simpl in *; [done..|]. intros e' qs q Hin Hq. apply (H3 e' qs); [|done].
    apply elem_of_app in Hin as [Hin|Hin]; apply elem_of_app; [by left|right; by right].
  - destruct (Start_inv _ H1). by apply sys_inv_silent.
  - apply sys_inv_silent; [done| |apply extends_refl]. destruct H1. split; [by eapply bus_ok_flags|done].
  - destruct (WaitForDone_inv _ H1) as (b' & Hb' & ? & _ & ? & _).
    rewrite Hw in Hb'. injection Hb' as <-. by apply sys_inv_silent.
  - destruct (drain_inv _ _ _ _ H1 Hd) as (Hi & Ht & Hdir & Hl & _).
    split; simpl; [done|by apply Ht|].
    intros e ps q Hin Hq. apply lookup_lt_is_Some. rewrite Hl. apply lookup_lt_is_Some. by eapply H3.
Qed.

(** The buffer size is the one [Init] read from the configuration. *)
Lemma launch_async_size b p : eb_bufferSize (launch_async b p) = eb_bufferSize b.
Proof. unfold launch_async, launchDrainer. by repeat case_match. Qed.

Lemma foldl_launch_size ps b : eb_bufferSize (foldl launch_async b ps) = eb_bufferSize b.
Proof.
  revert b. induction ps as [|p ps IH]; intros b; simpl; [done|].
  by rewrite IH, launch_async_size.
Qed.

Lemma close_loop_size ps b b' : close_loop b ps = Some b' → eb_bufferSize b' = eb_bufferSize b.
Proof.
  revert b. induction ps as [|p ps IH]; intros b; simpl; [by intros [= ->]|].
  unfold close_one. intros (b1 & Hb1 & ->%IH)%bind_Some. by repeat case_match; simplify_eq.
Qed.

Lemma bus_step_size `{MapRange} y tr y' :
  bus_step y tr y' → eb_bufferSize (sy_bus y') = eb_bufferSize (sy_bus y).
Proof.
  destruct 1 as [y s Hr|y s b r w Hr Hu|y e Hst|b w1 e w2 rd|b b' w r1 e p ps r2 t Hs|b w r1 e r2
    |y|y|y b Hr Hst Hw|y p b t Hd]; simpl; try done.
  - unfold Subscribe, launchDrainer. by repeat case_match.
  - unfold Unsubscribe in Hu. by repeat case_match; simplify_eq.
  - unfold send_one in Hs. by repeat case_match; simplify_eq.
  - unfold Start. case_match; [done|]. simpl. by rewrite foldl_launch_size.
  - by apply close_loop_size in Hw.
  - unfold drain in Hd. apply bind_Some in Hd as (st & _ & Hd). by repeat case_match; simplify_eq.
Qed.

Lemma runs_inv `{MapRange} n tr y : runs n tr y → sys_inv y tr ∧ eb_bufferSize (sy_bus y) = n.
Proof.
  induction 1 as [|tr y tr' y' Hr [IH <-] Hs].
  - split; [|done]. split; simpl; [apply Init_inv|by intros p|by intros ? ? ? ?%elem_of_nil].
  - split; [by eapply bus_step_inv|by eapply bus_step_size].
Qed.

(** *** Draining after the close *)
Inductive drains : eventBus → list action → eventBus → Prop :=
| drains_nil b : drains b [] b
| drains_step b p b1 tr1 b2 tr2 :
    drain b p = Some (b1, tr1) → drains b1 tr2 b2 → drains b (tr1 ++ tr2) b2.

Definition all_closed (b : eventBus) : Prop :=
  ∀ p st, eb_heap b !! p = Some st → ss_async st = true → ss_closed st = true.

(** The iterations left to the running drainers. *)
Definition drain_work (h : list subscriberState) : nat :=
  sum_list ((λ st, if running st then S (length (ss_ch st)) else 0) <$> h).

Lemma drain_work_insert h p st st' :
  h !! p = Some st →
  drain_work (<[p := st']> h) + (if running st then S (length (ss_ch st)) else 0) =
  drain_work h + (if running st' then S (length (ss_ch st')) else 0).
Proof.
  unfold drain_work. revert p. induction h as [|s h IH]; intros [|p]; csimpl; try done.
  - intros [= ->]. lia.
  - intros Hp. specialize (IH p Hp). lia.
Qed.

Lemma drainers_running h : drainers h ≠ 0 → ∃ p st, h !! p = Some st ∧ running st = true.
Proof.
  unfold drainers. induction h as [|s h IH]; csimpl; [done|]. destruct (running s) eqn:E.
  - intros _. by exists 0, s.
  - intros (p & st & ? & ?)%IH. by exists (S p), st.
Qed.

Lemma drain_progress b p st :
  eb_heap b !! p = Some st → running st = true → ss_chClosed st = true →
  ∃ b' tr, drain b p = Some (b', tr) ∧ drain_work (eb_heap b') < drain_work (eb_heap b).
Proof.
  intros Hp Hr Hc. unfold drain. rewrite Hp. simpl. fold (running st). rewrite Hr, Hc.
  assert (Hds : ss_drainerStarted st = true) by (unfold running in Hr; by destruct (ss_drainerStarted st)).
  destruct (ss_ch st) as [|e ch] eqn:E; do 2 eexists; (split; [done|]); simpl.
  - pose proof (drain_work_insert _ _ _ (close_done st) Hp) as H. rewrite Hr, E in H.
    unfold running in H at 1. simpl in H. rewrite Hds in H. simpl in H. lia.
  - pose proof (drain_work_insert _ _ _ (with_ch st ch) Hp) as H. rewrite Hr, E in H.
    change (running (with_ch st ch)) with (running st) in H. rewrite Hr in H. simpl in H. lia.
Qed.

Lemma drain_closed b p b' tr : all_closed b → drain b p = Some (b', tr) → all_closed b'.
Proof.
  intros Hc. unfold drain. destruct (eb_heap b !! p) as [st|] eqn:Hp; simpl; [|done].
  destruct (_ && _); [|done].
  assert (Hgen : ∀ st', ss_async st' = ss_async st → ss_closed st' = ss_closed st →
    ∀ q x, <[p := st']> (eb_heap b) !! q = Some x → ss_async x = true → ss_closed x = true).
  { intros st' Ha Hcl q x [(<- & <- & _)|[_ ?]]%list_lookup_insert_Some Hx; [|by eapply Hc].
    rewrite Hcl. apply (Hc p); congruence. }
  destruct (ss_ch st) as [|e ch]; [destruct (ss_chClosed st); [|done]|]; intros [= <- _];
    intros q x; simpl; by apply Hgen.
Qed.

Lemma drains_inv b tr b' tr0 :
  drains b tr b' → bus_inv b → all_closed b → trace_ok b tr0 →
  bus_inv b' ∧ all_closed b' ∧ trace_ok b' (tr0 ++ tr).
Proof.
  intros Hd. revert tr0. induction Hd as [|b p b1 tr1 b2 tr2 Hs Hd IH]; intros tr0 Hb Hc Ht.
  - by rewrite app_nil_r.
  - destruct (drain_inv _ _ _ _ Hb Hs) as (? & Ht' & _). rewrite (assoc_L (++)).
    apply IH; [done|by eapply drain_closed|by apply Ht'].
Qed.

Lemma drains_complete b :
  bus_inv b → all_closed b → ∃ tr b', drains b tr b' ∧ eb_wg b' = 0.
Proof.
  remember (drain_work (eb_heap b)) as w eqn:Hw. revert b Hw.
  induction (lt_wf w) as [w _ IH]; intros b Hw Hb Hc.
  destruct (decide (drainers (eb_heap b) = 0)) as [H0|H0].
  { exists [], b. split; [constructor|]. by rewrite (proj2 Hb). }
  destruct (drainers_running _ H0) as (p & st & Hp & Hr).
  pose proof (bo_states _ (proj1 Hb) _ _ Hp) as [L C A S D].
  assert (Ha : ss_async st = true).
  { destruct (ss_async st); [done|]. destruct S as (_ & _ & Hds); [done|].
    unfold running in Hr. by rewrite Hds in Hr. }
  destruct (drain_progress b p st Hp Hr) as (b1 & tr1 & Hd & Hlt).
  { rewrite <-C. by eapply Hc. }
  destruct (drain_inv _ _ _ _ Hb Hd) as (Hb1 & _).
  destruct (IH _ ltac:(subst; exact Hlt) b1 eq_refl Hb1) as (tr2 & b2 & Hd2 & Hw2);
    [by eapply drain_closed|].
  exists (tr1 ++ tr2), b2. split; [by econstructor|done].
Qed.

Lemma named_unique b rk ps p q name :
  bus_ok b → eb_subscriberDir b !! rk = Some ps → p ∈ ps → q ∈ ps →
  subscriber_name b p = Some name → subscriber_name b q = Some name → p = q.
Proof.
  intros Hok Hps (i & Hi)%list_elem_of_lookup_1 (j & Hj)%list_elem_of_lookup_1 Hp Hq.
  assert (i = j) as ->; [|by simplify_eq].
  apply (NoDup_lookup _ _ _ (Some name) (bo_names _ Hok _ _ Hps)); rewrite list_lookup_fmap.
  - by rewrite Hi; simpl; rewrite Hp.
  - by rewrite Hj; simpl; rewrite Hq.
Qed.

Lemma remove_named_complete b name ps p :
  p ∈ ps → subscriber_name b p = Some name → is_Some (remove_named b name ps).
Proof.
  intros Hin Hp. induction Hin as [p ps|p q ps Hin IH]; simpl.
  - rewrite decide_True by done. by eexists.
  - case_decide; [by eexists|]. destruct (IH Hp) as [[q' r] ->]. by eexists.
Qed.

(** What [Send] does to the subscriber [p], judged on the state before it. *)
Definition send_outcome (b : eventBus) (e : Event) (p : nat) : list action :=
  match eb_heap b !! p with
  | None => []
  | Some st =>
      if ss_async st then
        if ss_closed st then []
        else if decide (length (ss_ch st) < eb_bufferSize b) then [Accepted p e]
        else [Dropped p e]
      else [Processed p e]
  end.

Lemma send_one_outcome b e p b' tr q :
  send_one b e p = Some (b', tr) → tr = send_outcome b e p ∧
  (q ≠ p → send_outcome b' e q = send_outcome b e q ∧ eb_heap b' !! q = eb_heap b !! q).
Proof.
  unfold send_one, send_outcome. destruct (eb_heap b !! p) as [st|] eqn:Hp; [|by intros [= <- <-]].
  destruct (ss_async st); simpl; [|by intros [= <- <-]].
  destruct (ss_closed st); simpl; [by intros [= <- <-]|].
  destruct (ss_chClosed st); [done|]. case_decide; intros [= <- <-]; [|done].
  split; [done|]. intros Hne. simpl. by rewrite list_lookup_insert_ne by done.
Qed.

Lemma bind_ext_elem {A B} (f g : A → list B) l :
  (∀ x, x ∈ l → f x = g x) → l ≫= f = l ≫= g.
Proof.
  induction l as [|x l IH]; intros Hfg; csimpl; [done|].
  rewrite (Hfg x) by left. rewrite IH; [done|]. intros y Hy. apply Hfg. by right.
Qed.

Lemma send_loop_outcome ps b e :
  bus_inv b → NoDup ps → (∀ p, p ∈ ps → is_Some (eb_heap b !! p)) →
  ∃ b', send_loop b e ps = Some (b', ps ≫= send_outcome b e) ∧
    ∀ q, q ∉ ps → eb_heap b' !! q = eb_heap b !! q.
Proof.
  revert b. induction ps as [|p ps IH]; intros b Hb Hnd Hex; [by exists b|].
  apply NoDup_cons in Hnd as [Hp Hnd].
  destruct (send_one_inv b e p Hb) as (b1 & t1 & Hs & Hb1 & _ & _ & Hl); [apply Hex; left|].
  destruct (IH b1 Hb1 Hnd) as (b2 & Hs2 & Hq2).
  { intros q Hq. apply lookup_lt_is_Some. rewrite Hl. apply lookup_lt_is_Some, Hex. by right. }
  exists b2. csimpl. rewrite Hs. csimpl. rewrite Hs2. csimpl.
  destruct (send_one_outcome _ _ _ _ _ p Hs) as [-> _]. split.
  - do 3 f_equal. apply bind_ext_elem. intros q Hq.
    apply (send_one_outcome _ _ _ _ _ q Hs). by intros ->.
  - intros q [Hne Hq]%not_elem_of_cons. rewrite Hq2 by done.
    by apply (send_one_outcome _ _ _ _ _ q Hs).
Qed.

(** ** Properties *)
Section properties.
Context `{MapRange}.

(** C25: whatever the interleaving of subscriptions, senders, drainers, start
    and stop, an asynchronous subscriber's [ProcessEvent] sees exactly the
    events accepted for it, each once and in their order, minus the events
    still in its channel, which never exceeds the configured buffer. *)
Theorem async_delivery_fifo n tr y p st :
  runs n tr y → eb_heap (sy_bus y) !! p = Some st → ss_async st = true →
  accepted p tr = processed p tr ++ ss_ch st ∧ length (ss_ch st) ≤ n.
Proof.
  intros Hr Hp Ha. destruct (runs_inv _ _ _ Hr) as [[Hb Ht _] Hn]. split.
  - specialize (Ht p). by rewrite Hp, Ha in Ht.
  - rewrite <-Hn. exact (so_len _ _ (bo_states _ (proj1 Hb) _ _ Hp)).
Qed.

(** On a bus that is not stopped, [Send] reaches every subscriber of the
    event's kind exactly once, in subscription order: a synchronous one
    processes it, an asynchronous one gets it in its channel, or loses it
    when the channel is full; no other subscriber's state changes. *)
Theorem Send_reaches_subscribers n tr y e ps :
  runs n tr y → eb_stopped (sy_bus y) = false →
  eb_subscriberDir (sy_bus y) !! event_kind e = Some ps →
  ∃ b', Send (sy_bus y) e = Some (b', ps ≫= send_outcome (sy_bus y) e) ∧
    (∀ p, p ∈ ps → ∃ a, send_outcome (sy_bus y) e p = [a]) ∧
    ∀ q, q ∉ ps → eb_heap b' !! q = eb_heap (sy_bus y) !! q.
Proof.
  intros Hr Hst Hps. destruct (runs_inv _ _ _ Hr) as [[Hb Ht _] Hn].
  pose proof Hb as [Hok _]. unfold Send. rewrite Hst, Hps.
  destruct (send_loop_outcome ps (sy_bus y) e Hb) as (b' & Hs & Hq).
  - by eapply NoDup_fmap_1, bo_names.
  - intros p Hp. destruct (bo_dir _ Hok (event_kind e) p) as (st & ? & _); [by exists ps|eauto].
  - exists b'. split_and!; [done| |done]. intros p Hp.
    assert (Hsub : subscribed (sy_bus y) (event_kind e) p) by by exists ps.
    destruct (bo_dir _ Hok _ _ Hsub) as (st & Hst' & _). unfold send_outcome. rewrite Hst'.
    rewrite (bo_live _ Hok _ _ _ Hst Hsub Hst'). repeat case_match; by eexists.
Qed.

(** C40: when no sender is inside [Send], [WaitForDone] closes the channels
    without a panic and returns: from any progress the drainers make they can
    finish, and once they have, every event accepted by a subscriber whose
    drainer was started has been processed. *)
Theorem WaitForDone_drains n tr y :
  runs n tr y →
  ∃ b, WaitForDone (sy_bus y) = Some b ∧
    ∀ tr1 b1, drains b tr1 b1 →
      (∃ tr2 b2, drains b1 tr2 b2 ∧ eb_wg b2 = 0) ∧
      (eb_wg b1 = 0 → ∀ p st, eb_heap b1 !! p = Some st → ss_drainerStarted st = true →
        processed p (tr ++ tr1) = accepted p (tr ++ tr1)).
Proof.
  intros Hr. destruct (runs_inv _ _ _ Hr) as [[Hb Ht _] _].
  destruct (WaitForDone_inv _ Hb) as (b & Hw & Hi & _ & He & Hc). exists b. split; [done|].
  intros tr1 b1 Hd. apply (trace_ok_extends _ b) in Ht; [|done].
  destruct (drains_inv _ _ _ _ Hd Hi Hc Ht) as (Hi1 & Hc1 & Ht1).
  split; [by apply drains_complete|]. intros Hwg p st Hp Hds.
  pose proof (bo_states _ (proj1 Hi1) _ _ Hp) as [L C A S D].
  specialize (Ht1 p). rewrite Hp in Ht1.
  destruct (ss_async st); [|by destruct S as (_ & _ & ?); [done|congruence]].
  assert (Hdn : ss_done st = true).
  { rewrite (proj2 Hi1) in Hwg. destruct (ss_done st) eqn:E; [done|].
    pose proof (drainers_insert _ _ _ (close_done st) Hp) as Hx.
    unfold running in Hx. simpl in Hx. rewrite Hds, E in Hx. simpl in Hx. lia. }
  destruct (D Hdn) as (_ & _ & Hch). by rewrite Ht1, Hch, app_nil_r.
Qed.

(** In a reachable state [Unsubscribe] panics (closes a closed channel)
    exactly when the named subscriber is asynchronous and its channel was
    already closed; that needs a stopped bus, where [WaitForDone] closed the
    channel and left the subscriber in the directory. *)
Theorem Unsubscribe_panics n tr y s :
  runs n tr y →
  (Unsubscribe (sy_bus y) s = None ↔
    ∃ p st, subscribed (sy_bus y) (sub_ResourceKind s) p ∧
      eb_heap (sy_bus y) !! p = Some st ∧ sub_Name (ss_subscriber st) = sub_Name s ∧
      ss_async st = true ∧ ss_closed st = true) ∧
  (Unsubscribe (sy_bus y) s = None → eb_stopped (sy_bus y) = true).
Proof.
  intros Hr. destruct (runs_inv _ _ _ Hr) as [[[Hok _] _ _] _].
  assert (Hiff : Unsubscribe (sy_bus y) s = None ↔
    ∃ p st, subscribed (sy_bus y) (sub_ResourceKind s) p ∧
      eb_heap (sy_bus y) !! p = Some st ∧ sub_Name (ss_subscriber st) = sub_Name s ∧
      ss_async st = true ∧ ss_closed st = true).
  { unfold Unsubscribe. split.
    - destruct (eb_subscriberDir _ !! _) as [ps|] eqn:Hps; [|done].
      destruct (remove_named _ _ _) as [[p rest]|] eqn:Hrm; [|done].
      apply remove_named_spec in Hrm as (l1 & l2 & -> & -> & Hn).
      unfold subscriber_name in Hn.
      destruct (eb_heap (sy_bus y) !! p) as [st|] eqn:Hp; [|done]. injection Hn as Hn.
      destruct (ss_async st) eqn:Ha; [|done]. destruct (ss_chClosed st) eqn:Hc; [|done].
      intros _. exists p, st. split_and!; try done.
      + eexists. split; [done|]. apply elem_of_app. right. left.
      + by rewrite (so_closed _ _ (bo_states _ Hok _ _ Hp)).
    - intros (p & st & (ps & Hps & Hp) & Hst & Hn & Ha & Hc). rewrite Hps.
      assert (Hpn : subscriber_name (sy_bus y) p = Some (sub_Name s)).
      { unfold subscriber_name. rewrite Hst. simpl. by rewrite Hn. }
      destruct (remove_named_complete _ _ _ _ Hp Hpn) as [[q rest] Hrm]. rewrite Hrm.
      apply remove_named_spec in Hrm as (l1 & l2 & Hl & _ & Hq).
      assert (q = p) as ->.
      { eapply (named_unique _ _ _ _ _ _ Hok Hps); [|done|done|done].
        rewrite Hl. apply elem_of_app. right. left. }
      rewrite Hst, Ha. by rewrite <-(so_closed _ _ (bo_states _ Hok _ _ Hst)), Hc. }
  split; [done|]. intros (p & st & Hsub & Hst & _ & _ & Hc)%Hiff.
  destruct (eb_stopped (sy_bus y)) eqn:E; [done|].
  by rewrite (bo_live _ Hok _ _ _ E Hsub Hst) in Hc.
Qed.
End properties.

(** ** A run: one slot, an asynchronous subscriber, two events and a stop *)
Module BusExample.
#[local] Existing Instance default_range.

Definition s : Subscriber :=
  {| sub_ResourceKind := "Instance"; sub_Name := "counter"; sub_AsyncEnabled := true |}.
Definition r : Resource :=
  {| res_meta := {| meta_Name := "i"; meta_Labels := None; meta_Annotations := None |};
     res_Mesh := "m"; res_spec := InstanceSpec None |}.
Definition e1 := NewResourceChangedEvent Added None (Some r).
Definition e2 := NewResourceChangedEvent EventBus.Deleted (Some r) None.

Definition b1 : eventBus := (Start (Subscribe (Init 1) s).1).1.
Definition y1 : system := with_bus (sys_init 1) b1.
Definition b2 : eventBus := default b1 (fst <$> send_one b1 e1 0).
Definition y2 : system := {| sy_bus := b2; sy_waiting := []; sy_readers := [] |}.

Lemma y1_runs : runs 1 [] y1.
Proof.
  apply (runs_step 1 [] (with_bus (sys_init 1) (Subscribe (Init 1) s).1) [] y1);
    [|exact (step_Start (with_bus (sys_init 1) (Subscribe (Init 1) s).1))].
  apply (runs_step 1 [] (sys_init 1) [] _); [constructor|].
  by apply (step_Subscribe (sys_init 1) s).
Qed.

Lemma y2_runs : runs 1 [Accepted 0 e1] y2.
Proof.
  change [Accepted 0 e1] with (((([] ++ []) ++ []) ++ [Accepted 0 e1]) ++ []).
  eapply runs_step; [|apply (step_Send_unlock b2 [] [] e1 [])].
  eapply runs_step; [|by apply (step_Send_next b1 b2 [] [] e1 0 [] [] [Accepted 0 e1])].
  eapply runs_step; [|apply (step_Send_lock b1 [] e1 [] [])].
  eapply runs_step; [apply y1_runs|]. by apply (step_Send_check y1 e1).
Qed.

Definition st2 : subscriberState :=
  {| ss_subscriber := s; ss_async := true; ss_ch := [e1]; ss_chClosed := false;
     ss_closed := false; ss_drainerStarted := true; ss_done := false |}.

Lemma async_delivery_fifo_witness :
  accepted 0 [Accepted 0 e1] = processed 0 [Accepted 0 e1] ++ ss_ch st2 ∧ length (ss_ch st2) ≤ 1.
Proof. exact (async_delivery_fifo 1 [Accepted 0 e1] y2 0 st2 y2_runs eq_refl eq_refl). Defined.

(** The second event finds the channel full. *)
Lemma Send_reaches_subscribers_witness :
  [0] ≫= send_outcome b2 e2 = [Dropped 0 e2] ∧
  ∃ b', Send b2 e2 = Some (b', [0] ≫= send_outcome b2 e2).
Proof.
  split; [reflexivity|].
  destruct (Send_reaches_subscribers 1 _ y2 e2 [0] y2_runs eq_refl eq_refl) as (b' & Hs & _).
  exact (ex_intro _ b' Hs).
Defined.

Lemma WaitForDone_drains_witness :
  ∃ b, WaitForDone b2 = Some b ∧ ∃ tr b', drains b tr b' ∧ eb_wg b' = 0.
Proof.
  destruct (WaitForDone_drains 1 _ y2 y2_runs) as (b & Hb & Hd).
  exists b. split; [exact Hb|]. exact (proj1 (Hd [] b (drains_nil b))).
Defined.

(** Unsubscribing after the stop panics. *)
Definition b3 : eventBus := default b2 (WaitForDone b2).
Lemma y3_runs : runs 1 ([Accepted 0 e1] ++ [] ++ []) (with_bus y2 b3).
Proof.
  rewrite (assoc_L (++)).
  apply (runs_step 1 _ (with_bus y2 (set_stopped b2)) _ _);
    [|apply (step_close (with_bus y2 (set_stopped b2)) b3); reflexivity].
  eapply runs_step; [apply y2_runs|]. apply (step_stop y2).
Qed.

Lemma Unsubscribe_panics_witness :
  Unsubscribe b3 s = None ∧ eb_stopped b3 = true.
Proof.
  assert (Hu : Unsubscribe b3 s = None) by reflexivity.
  split; [exact Hu|]. exact (proj2 (Unsubscribe_panics 1 _ _ s y3_runs) Hu).
Defined.
End BusExample.
