(* ===== verification/Informer.v ===== *)
(** pkg/core/controller/informer.go: the informer turns the deltas of a
    lister-watcher into writes to a resource store and events for the bus. It
    is written against the [ResourceStore] interface of Store.v. *)
From S2P Require Import Prelude GoStrings Errors Resource Libs Indexers Store MemoryStore MemoryQueries EventBus.

Open Scope string_scope.
Open Scope list_scope.
Open Scope nat_scope.

(** The object of a delta: a value ([None] is nil), possibly wrapped in a
    [cache.DeletedFinalStateUnknown]. *)
Inductive delta_obj :=
| Object (o : option obj)
| Tombstone (key : string) (o : option obj).

Record Delta := { dl_Type : DeltaType; dl_Object : delta_obj }.

Definition ResourceKeyFunc (o : obj) : result error string :=
  match o with
  | ResourceObj r => Ok (ResourceKey r)
  | OtherObj _ => Err (not_a_resource o)
  end.

Abbreviation TransformFunc := (option obj → result error (option obj)).

(** The mutable fields of the [informer]; the store is threaded separately. *)
Record informer := {
  inf_started : bool;
  inf_stopped : bool;
  inf_transform : option TransformFunc;
  inf_watchErrorHandler : option string;
  inf_objectType : option string;
  inf_resyncCheckPeriod : Z }.

Definition NewInformerWithOptions (resyncPeriod : Z) : informer :=
  {| inf_started := false; inf_stopped := false; inf_transform := None;
     inf_watchErrorHandler := None; inf_objectType := None;
     inf_resyncCheckPeriod := resyncPeriod |}.

Definition informer_has_started : error := ErrorText "informer has already started".

Definition SetWatchErrorHandler (s : informer) (h : option string) : informer * option error :=
  if inf_started s then (s, Some informer_has_started)
  else ({| inf_started := inf_started s; inf_stopped := inf_stopped s;
           inf_transform := inf_transform s; inf_watchErrorHandler := h;
           inf_objectType := inf_objectType s;
           inf_resyncCheckPeriod := inf_resyncCheckPeriod s |}, None).

Definition SetTransform (s : informer) (h : option TransformFunc) : informer * option error :=
  if inf_started s then (s, Some informer_has_started)
  else ({| inf_started := inf_started s; inf_stopped := inf_stopped s;
           inf_transform := h; inf_watchErrorHandler := inf_watchErrorHandler s;
           inf_objectType := inf_objectType s;
           inf_resyncCheckPeriod := inf_resyncCheckPeriod s |}, None).

Definition SetObjectType (s : informer) (t : option string) : informer * option error :=
  if inf_started s then (s, Some informer_has_started)
  else ({| inf_started := inf_started s; inf_stopped := inf_stopped s;
           inf_transform := inf_transform s; inf_watchErrorHandler := inf_watchErrorHandler s;
           inf_objectType := t; inf_resyncCheckPeriod := inf_resyncCheckPeriod s |}, None).

Definition set_informer_stopped (s : informer) : informer :=
  {| inf_started := inf_started s; inf_stopped := true; inf_transform := inf_transform s;
     inf_watchErrorHandler := inf_watchErrorHandler s; inf_objectType := inf_objectType s;
     inf_resyncCheckPeriod := inf_resyncCheckPeriod s |}.

(** [Run] takes the lock twice before [controller.Run(stopCh)]. First it asks
    [HasStarted]; [true] lets it go on. On the early return the deferred
    function marks the informer stopped. *)
Definition Run_enter (s : informer) : informer * bool :=
  if inf_started s then (set_informer_stopped s, false) else (s, true).

(** Then it makes the controller and marks the informer started, without
    asking again. *)
Definition Run_start (s : informer) : informer :=
  {| inf_started := true; inf_stopped := inf_stopped s; inf_transform := inf_transform s;
     inf_watchErrorHandler := inf_watchErrorHandler s;
     inf_objectType := inf_objectType s;
     inf_resyncCheckPeriod := inf_resyncCheckPeriod s |}.

(** A call of [Run] that no other one comes between, up to [controller.Run]. *)
Definition Run (s : informer) : informer * bool :=
  let '(s, enters) := Run_enter s in if enters : bool then (Run_start s, true) else (s, false).

(** [controller.Run] returned. *)
Definition Run_return (s : informer) : informer := set_informer_stopped s.

Definition HasStarted (s : informer) : bool := inf_started s.
Definition IsStopped (s : informer) : bool := inf_stopped s.
Definition ShouldResync (s : informer) : bool := negb (inf_resyncCheckPeriod s =? 0)%Z.

Definition toResource (s : informer) (d : delta_obj) : result error Resource :=
  let object := match d with Object o => o | Tombstone _ o => o end in
  let reject (o : option obj) :=
    match o with
    | None => Err (NewAssertionError "Resource" "nil")
    | Some o => Err (NewAssertionError "Resource" (obj_typeName o))
    end in
  match object with
  | Some (ResourceObj r) => Ok r
  | _ =>
      match inf_transform s with
      | None => reject object
      | Some f =>
          match f object with
          | Err e => Err e
          | Ok (Some (ResourceObj r)) => Ok r
          | Ok transformed => reject transformed
          end
      end
  end.

(** How [HandleDeltas] ends: the [old.(model.Resource)] assertion panics when
    the store hands out something else. *)
Inductive outcome := Returns (e : option error) | Panics.

Section handle.
Context {S : Type} `{ResourceStore S}.

(** One delta, once its object is a resource: the new store, the events
    sent, and [Some] outcome when the loop is left. *)
Definition handle_delta (st : S) (typ : DeltaType) (r : Resource)
    : S * list Event * option outcome :=
  match typ with
  | Sync | Replaced | Added | Updated =>
      match st_Get st (ResourceObj r) with
      | Ok (Some old) =>
          match st_Update st (ResourceObj r) with
          | (st, Some e) => (st, [], Some (Returns (Some e)))
          | (st, None) =>
              match old with
              | ResourceObj o => (st, [NewResourceChangedEvent Updated (Some o) (Some r)], None)
              | OtherObj _ => (st, [], Some Panics)
              end
          end
      | _ =>
          match st_Add st (ResourceObj r) with
          | (st, Some e) => (st, [], Some (Returns (Some e)))
          | (st, None) => (st, [NewResourceChangedEvent Added None (Some r)], None)
          end
      end
  | Deleted =>
      match st_Delete st (ResourceObj r) with
      | (st, Some e) => (st, [], Some (Returns (Some e)))
      | (st, None) => (st, [NewResourceChangedEvent Deleted (Some r) None], None)
      end
  | OtherDelta _ => (st, [], None)
  end.

Fixpoint handle_loop (s : informer) (st : S) (ds : list Delta) : S * list Event * outcome :=
  match ds with
  | [] => (st, [], Returns None)
  | d :: ds =>
      match toResource s (dl_Object d) with
      | Err e => (st, [], Returns (Some e))
      | Ok r =>
          match handle_delta st (dl_Type d) r with
          | (st, evs, Some o) => (st, evs, o)
          | (st, evs, None) =>
              let '(st, evs', o) := handle_loop s st ds in (st, evs ++ evs', o)
          end
      end
  end.

(** [None] is an argument that is not a [cache.Deltas]. *)
Definition HandleDeltas (s : informer) (st : S) (deltas : option (list Delta))
    : S * list Event * outcome :=
  match deltas with
  | None =>
      (st, [], Returns (Some (ErrorText "object given as Process argument is not Deltas")))
  | Some ds => handle_loop s st ds
  end.
End handle.

(** ** What the events say about the population of a store *)

(** [event_step m e m']: the event [e] is the change from [m] to [m'] of the
    resources in a store. *)
Inductive event_step (m : gmap string Resource) : Event → gmap string Resource → Prop :=
| ev_Added r : m !! ResourceKey r = None →
    event_step m (NewResourceChangedEvent Added None (Some r)) (<[ResourceKey r := r]> m)
| ev_Updated old r : m !! ResourceKey r = Some old →
    event_step m (NewResourceChangedEvent Updated (Some old) (Some r)) (<[ResourceKey r := r]> m)
| ev_Deleted r : is_Some (m !! ResourceKey r) →
    event_step m (NewResourceChangedEvent Deleted (Some r) None) (delete (ResourceKey r) m).

Inductive event_trace : gmap string Resource → list Event → gmap string Resource → Prop :=
| trace_nil m : event_trace m [] m
| trace_cons m e m1 es m2 : event_step m e m1 → event_trace m1 es m2 →
    event_trace m (e :: es) m2.

Lemma event_trace_app m es1 m1 es2 m2 :
  event_trace m es1 m1 → event_trace m1 es2 m2 → event_trace m (es1 ++ es2) m2.
Proof. induction 1; [done|]. intros ?. simpl. econstructor; eauto. Qed.

(** The effect of one delta on the resources, and the event for it. *)
Definition delta_effect (m : gmap string Resource) (typ : DeltaType) (r : Resource)
    : gmap string Resource * list Event :=
  match typ with
  | Deleted => (delete (ResourceKey r) m, [NewResourceChangedEvent Deleted (Some r) None])
  | OtherDelta _ => (m, [])
  | _ =>
      (<[ResourceKey r := r]> m,
       [match m !! ResourceKey r with
        | Some old => NewResourceChangedEvent Updated (Some old) (Some r)
        | None => NewResourceChangedEvent Added None (Some r)
        end])
  end.

Fixpoint delta_effects (m : gmap string Resource) (ds : list (DeltaType * Resource))
    : gmap string Resource * list Event :=
  match ds with
  | [] => (m, [])
  | (typ, r) :: ds =>
      let '(m1, es1) := delta_effect m typ r in
      let '(m2, es2) := delta_effects m1 ds in
      (m2, es1 ++ es2)
  end.

(** Deletions are of present resources (the queue's known objects are the
    store's). *)
Fixpoint deletes_present (m : gmap string Resource) (ds : list (DeltaType * Resource)) : Prop :=
  match ds with
  | [] => True
  | (typ, r) :: ds =>
      (typ = Deleted → is_Some (m !! ResourceKey r)) ∧
      deletes_present (delta_effect m typ r).1 ds
  end.

Section handle_laws.
Context {S : Type} `{ResourceStoreLaws S}.

Lemma handle_delta_spec (st : S) typ r :
  st_ok st → res_kind r = st_kind st →
  (typ = Deleted → is_Some (st_items st !! ResourceKey r)) →
  ∃ st', handle_delta st typ r = (st', (delta_effect (st_items st) typ r).2, None) ∧
    st_ok st' ∧ st_kind st' = st_kind st ∧ st_indexers st' = st_indexers st ∧
    st_items st' = (delta_effect (st_items st) typ r).1.
Proof.
  intros Hok Hk Hdel.
  assert (Hup : ∃ st', match st_Get st (ResourceObj r) with
      | Ok (Some old) =>
          match st_Update st (ResourceObj r) with
          | (st, Some e) => (st, [], Some (Returns (Some e)))
          | (st, None) =>
              match old with
              | ResourceObj o => (st, [NewResourceChangedEvent Updated (Some o) (Some r)], None)
              | OtherObj _ => (st, [], Some Panics)
              end
          end
      | _ =>
          match st_Add st (ResourceObj r) with
          | (st, Some e) => (st, [], Some (Returns (Some e)))
          | (st, None) => (st, [NewResourceChangedEvent Added None (Some r)], None)
          end
      end = (st', [match st_items st !! ResourceKey r with
                   | Some old => NewResourceChangedEvent Updated (Some old) (Some r)
                   | None => NewResourceChangedEvent Added None (Some r)
                   end], None) ∧
      st_ok st' ∧ st_kind st' = st_kind st ∧ st_indexers st' = st_indexers st ∧
      st_items st' = <[ResourceKey r := r]> (st_items st)).
  { rewrite st_Get_spec by done. destruct (st_items st !! ResourceKey r) as [old|] eqn:E; simpl.
    - destruct (st_Update_present st r) as (st' & -> & ?); eauto.
    - destruct (st_Add_fresh st r) as (st' & -> & ?); eauto. }
  destruct typ; try exact Hup.
  - destruct (st_Delete_present st r) as (st' & Hd & ?); [done|by apply Hdel|].
    exists st'. simpl. by rewrite Hd.
  - by exists st.
Qed.

(** The deltas after conversion, when all of them are resources. *)
Definition converted (s : informer) (ds : list Delta) (rs : list (DeltaType * Resource)) : Prop :=
  Forall2 (λ d p, dl_Type d = p.1 ∧ toResource s (dl_Object d) = Ok p.2) ds rs.

Lemma handle_loop_spec s (st : S) ds rs rest :
  st_ok st → converted s ds rs → Forall (λ p, res_kind p.2 = st_kind st) rs →
  deletes_present (st_items st) rs →
  ∃ st', handle_loop s st (ds ++ rest) =
      (let '(st2, evs, o) := handle_loop s st' rest in
       (st2, (delta_effects (st_items st) rs).2 ++ evs, o)) ∧
    st_ok st' ∧ st_kind st' = st_kind st ∧ st_indexers st' = st_indexers st ∧
    st_items st' = (delta_effects (st_items st) rs).1.
Proof.
  intros Hok Hc. revert st Hok. induction Hc as [|d [typ r] ds rs [Ht Hr] Hc IH];
    intros st Hok Hk Hd; simpl in *.
  { exists st. by destruct (handle_loop s st rest) as [[??]?]. }
  apply Forall_cons in Hk as [Hk Hks]. destruct Hd as [Hd Hds]. rewrite Hr, Ht.
  destruct (handle_delta_spec st typ r Hok Hk Hd) as (st1 & -> & Hok1 & Hk1 & Hi1 & Hm1).
  destruct (IH st1 Hok1) as (st2 & Hl & ? & ? & ? & Hm2); [by rewrite Hk1|by rewrite Hm1|].
  exists st2. rewrite Hl. rewrite Hm1 in *.
  destruct (delta_effect (st_items st) typ r) as [m1 es1]. simpl in *.
  destruct (delta_effects m1 rs) as [m2 es2]. simpl in *.
  destruct (handle_loop s st2 rest) as [[??]?]. split_and!; try congruence.
  by rewrite (assoc_L (++)).
Qed.
End handle_laws.

Lemma delta_effect_trace m typ r :
  (typ = Deleted → is_Some (m !! ResourceKey r)) →
  event_trace m (delta_effect m typ r).2 (delta_effect m typ r).1.
Proof.
  intros Hd. destruct typ; simpl; try constructor;
    try (eapply trace_cons; [|constructor]);
    try (destruct (m !! ResourceKey r) as [old|] eqn:Hm; by constructor).
  constructor. by apply Hd.
Qed.

Lemma delta_effects_trace m rs :
  deletes_present m rs → event_trace m (delta_effects m rs).2 (delta_effects m rs).1.
Proof.
  revert m. induction rs as [|[typ r] rs IH]; intros m; simpl; [constructor|].
  intros [Hd Hds]. specialize (IH _ Hds). pose proof (delta_effect_trace m typ r Hd) as H1.
  destruct (delta_effect m typ r) as [m1 es1]. simpl in *.
  destruct (delta_effects m1 rs) as [m2 es2]. by eapply event_trace_app.
Qed.

(** ** Properties *)
Section properties.
Context {S : Type} `{ResourceStoreLaws S}.

(** C24: over any lawful store, handling deltas that all convert to resources
    of the store's kind succeeds, applies them in order to the stored
    resources, and sends exactly the events that describe the change: an
    addition for a new key, an update carrying the previous version for a
    known one, a deletion; replayed from the old contents they give the new. *)
Theorem HandleDeltas_refines s (st : S) ds rs :
  st_ok st → converted s ds rs → Forall (λ p, res_kind p.2 = st_kind st) rs →
  deletes_present (st_items st) rs →
  ∃ st' evs, HandleDeltas s st (Some ds) = (st', evs, Returns None) ∧ st_ok st' ∧
    st_items st' = (delta_effects (st_items st) rs).1 ∧
    evs = (delta_effects (st_items st) rs).2 ∧
    event_trace (st_items st) evs (st_items st').
Proof.
  intros Hok Hc Hk Hd.
  destruct (handle_loop_spec s st ds rs [] Hok Hc Hk Hd) as (st' & Hl & Hok' & _ & _ & Hm).
  exists st', (delta_effects (st_items st) rs).2. rewrite app_nil_r in Hl. simpl in *.
  rewrite Hl, app_nil_r. split_and!; [done..|]. rewrite Hm. by apply delta_effects_trace.
Qed.

(** The deltas before the first one that is not a resource are applied
    and announced, the later ones are not, and the conversion error is the
    result. *)
Theorem HandleDeltas_stops_at_bad_object s (st : S) ds rs bad rest e :
  st_ok st → converted s ds rs → Forall (λ p, res_kind p.2 = st_kind st) rs →
  deletes_present (st_items st) rs → toResource s (dl_Object bad) = Err e →
  ∃ st', HandleDeltas s st (Some (ds ++ bad :: rest)) =
      (st', (delta_effects (st_items st) rs).2, Returns (Some e)) ∧
    st_items st' = (delta_effects (st_items st) rs).1.
Proof.
  intros Hok Hc Hk Hd Hbad.
  destruct (handle_loop_spec s st ds rs (bad :: rest) Hok Hc Hk Hd) as (st' & Hl & _ & _ & _ & Hm).
  exists st'. simpl in *. rewrite Hl, Hbad, app_nil_r. done.
Qed.
End properties.

(** The life of an informer: calls of its methods, the two critical sections
    of [Run], and [controller.Run] returning. The numbers count the calls of
    [Run] between the sections and the controllers that run. *)
Inductive informer_step : nat * nat * informer → nat * nat * informer → Prop :=
| is_enter p n s : informer_step (p, n, s) (if (Run_enter s).2 then S p else p, n, (Run_enter s).1)
| is_start p n s : informer_step (S p, n, s) (p, S n, Run_start s)
| is_Return p n s : informer_step (p, S n, s) (p, n, Run_return s)
| is_SetTransform p n s h : informer_step (p, n, s) (p, n, (SetTransform s h).1)
| is_SetWatchErrorHandler p n s h : informer_step (p, n, s) (p, n, (SetWatchErrorHandler s h).1)
| is_SetObjectType p n s t : informer_step (p, n, s) (p, n, (SetObjectType s t).1).

(** Through any calls of which at most one is between its sections at a time,
    at most one controller runs, and from the time it does the informer counts
    as started: its transform, error handler and object type can no longer
    change and no other [Run] goes on. *)
Theorem informer_runs_once period p n s h :
  rtc (λ x y, informer_step x y ∧ y.1.1 ≤ 1) (0, 0, NewInformerWithOptions period) (p, n, s) →
  n ≤ 1 ∧ (n = 1 → inf_started s = true) ∧
  (inf_started s = true → SetTransform s h = (s, Some informer_has_started) ∧ (Run_enter s).2 = false).
Proof.
  intros Hr.
  assert (Hinv : ∀ x y, rtc (λ x y, informer_step x y ∧ y.1.1 ≤ 1) x y →
    (if inf_started x.2 then x.1.1 = 0 ∧ x.1.2 ≤ 1 else x.1.1 ≤ 1 ∧ x.1.2 = 0) →
    (if inf_started y.2 then y.1.1 = 0 ∧ y.1.2 ≤ 1 else y.1.1 ≤ 1 ∧ y.1.2 = 0)).
  { induction 1 as [|x y z [Hs Hp] _ IH]; [done|]. intros Hx. apply IH.
    destruct Hs as [q m t|q m t|q m t|q m t f|q m t f|q m t f]; simpl in *;
      unfold Run_enter, SetTransform, SetWatchErrorHandler, SetObjectType, Run_return in *;
      destruct (inf_started t) eqn:E; simpl in *; rewrite ?E; try lia. }
  pose proof (Hinv _ _ Hr (conj (Nat.le_0_l 1) eq_refl)) as Hi. simpl in Hi. destruct (inf_started s) eqn:E; destruct Hi as [Hp Hn].
  - split; [lia|]. split; [done|]. intros _. unfold SetTransform, Run_enter. by rewrite E.
  - split; [lia|]. split; [lia|done].
Qed.

(** Two calls of [Run] that are between the sections at the same time both go
    on: the informer has two controllers. *)
Theorem overlapping_Runs period :
  ∃ s, rtc informer_step (0, 0, NewInformerWithOptions period) (0, 2, s).
Proof.
  eexists. eapply rtc_l; [apply is_enter|]. eapply rtc_l; [apply is_enter|].
  eapply rtc_l; [apply is_start|]. apply rtc_once. apply is_start.
Qed.

(** A second [Run] of a running informer marks it stopped although its
    controller goes on. *)
Theorem second_Run_marks_stopped s :
  inf_started s = true → IsStopped (Run s).1 = true ∧ (Run s).2 = false.
Proof. unfold Run, Run_enter, IsStopped. by intros ->. Qed.

(** ** The informer over the in-memory store *)
Module InformerExample.
Import Ref MemExample.
#[local] Existing Instance default_range.

Definition inf : informer := NewInformerWithOptions 0.
Definition ds : list Delta :=
  [ {| dl_Type := Replaced; dl_Object := Object (Some (ResourceObj e1)) |};
    {| dl_Type := Updated; dl_Object := Object (Some (ResourceObj e2)) |};
    {| dl_Type := Sync; dl_Object := Object (Some (ResourceObj e2')) |};
    {| dl_Type := Deleted; dl_Object := Tombstone "m/e1" (Some (ResourceObj e1)) |} ].
Definition rs : list (DeltaType * Resource) :=
  [(Replaced, e1); (Updated, e2); (Sync, e2'); (Deleted, e1)].

Lemma init_ok : st_ok init.
Proof. exact (sy_ok _ _ (Init_sync (λ _, True) _ _ idx_ok)). Qed.

Lemma ds_converted : converted inf ds rs.
Proof. repeat constructor. Qed.

Lemma HandleDeltas_refines_witness :
  (delta_effects (st_items init) rs).2 =
    [ NewResourceChangedEvent Added None (Some e1);
      NewResourceChangedEvent Added None (Some e2);
      NewResourceChangedEvent Updated (Some e2) (Some e2');
      NewResourceChangedEvent Deleted (Some e1) None ] ∧
  ∃ st' evs, HandleDeltas inf init (Some ds) = (st', evs, Returns None) ∧
    evs = (delta_effects (st_items init) rs).2.
Proof.
  split; [vm_compute; reflexivity|].
  destruct (HandleDeltas_refines inf init ds rs init_ok ds_converted)
    as (st' & evs & Hh & _ & _ & He & _).
  - repeat constructor.
  - repeat split; try discriminate. vm_compute. by eexists.
  - exact (ex_intro _ st' (ex_intro _ evs (conj Hh He))).
Defined.

Lemma HandleDeltas_stops_at_bad_object_witness :
  let bad := {| dl_Type := Added; dl_Object := Object None |} in
  ∃ st', HandleDeltas inf init (Some (ds ++ bad :: ds)) =
    (st', (delta_effects (st_items init) rs).2,
     Returns (Some (NewAssertionError "Resource" "nil"))).
Proof.
  intros bad.
  destruct (HandleDeltas_stops_at_bad_object inf init ds rs bad ds
    (NewAssertionError "Resource" "nil") init_ok ds_converted) as (st' & Hh & _).
  - repeat constructor.
  - repeat split; try discriminate. vm_compute. by eexists.
  - reflexivity.
  - exact (ex_intro _ st' Hh).
Defined.

Lemma informer_runs_once_witness :
  rtc (λ x y, informer_step x y ∧ y.1.1 ≤ 1) (0, 0, NewInformerWithOptions 0) (0, 1, (Run (NewInformerWithOptions 0)).1) ∧
  1 ≤ 1.
Proof.
  assert (Hr : rtc (λ x y, informer_step x y ∧ y.1.1 ≤ 1) (0, 0, NewInformerWithOptions 0)
    (0, 1, (Run (NewInformerWithOptions 0)).1)).
  { eapply rtc_l; [split; [exact (is_enter 0 0 (NewInformerWithOptions 0))|simpl; lia]|].
    apply rtc_once. split; [exact (is_start 0 0 (NewInformerWithOptions 0))|simpl; lia]. }
  split; [exact Hr|]. exact (proj1 (informer_runs_once 0 0 1 _ None Hr)).
Defined.

Lemma second_Run_marks_stopped_witness :
  let s := (Run (NewInformerWithOptions 0)).1 in
  IsStopped s = false ∧ IsStopped (Run s).1 = true.
Proof.
  split; [reflexivity|].
  exact (proj1 (second_Run_marks_stopped (Run (NewInformerWithOptions 0)).1 eq_refl)).
Defined.
End InformerExample.
