(* ===== verification/Watching.v ===== *)
(** What the lister-watchers of the registries share: the events of a
    [watch.Interface], what they leave in the store of an informer, loops over
    the pages of a listing, and the turns that mark what is listed and sweep
    what is not. *)
From S2P Require Import Prelude GoStrings Errors Resource Store EventBus Informer.

Open Scope list_scope.
Open Scope nat_scope.

(** ** k8s.io/apimachinery/pkg/watch *)
Inductive watch_Type := watch_Added | watch_Modified | watch_Deleted.
Record watch_Event := { we_Type : watch_Type; we_Object : option Resource }.

(** What an informer with an empty store has after an event: the key of the
    object is all that counts for a deletion, and an event without an object
    is refused by the reflector. *)
Definition replay_event (m : gmap string Resource) (e : watch_Event) : gmap string Resource :=
  match we_Object e with
  | None => m
  | Some r => match we_Type e with watch_Deleted => delete (ResourceKey r) m | _ => <[ResourceKey r := r]> m end
  end.
Definition replay (es : list watch_Event) : gmap string Resource := foldl replay_event ∅ es.

Definition modified (r : Resource) : watch_Event := {| we_Type := watch_Modified; we_Object := Some r |}.
Definition gone (r : Resource) : watch_Event := {| we_Type := watch_Deleted; we_Object := Some r |}.

Lemma replay_app es es' : replay (es ++ es') = foldl replay_event (replay es) es'.
Proof. apply foldl_app. Qed.

(** The deltas a reflector makes of the events: what they leave in the store of
    the informer ([HandleDeltas]) is the replay. *)
Definition delta_of (e : watch_Event) : list (DeltaType * Resource) :=
  match we_Object e with
  | None => []
  | Some r => [(match we_Type e with watch_Added => Added | watch_Modified => Updated | watch_Deleted => Deleted end, r)]
  end.

Lemma replay_informed m es : (delta_effects m (es ≫= delta_of)).1 = foldl replay_event m es.
Proof.
  revert m. induction es as [|e es IH]; intros m; [done|]. csimpl. rewrite <-IH. unfold delta_of at 1, replay_event.
  destruct (we_Object e) as [r|]; [|done]. destruct (we_Type e); cbn; by destruct (delta_effects _ _).
Qed.

(** ** Pages

    The loops over the pages of a listing: [page n] asks for page [n] and says
    whether it is the last one; [visit] is the body of the inner loop.
    [None] is the lack of fuel. *)
Fixpoint pages {W I} (page : Z → W → W * result error (list I * bool)) (next : Z → Z) (visit : I → W → W)
    (fuel : nat) (n : Z) (w : W) : option (W * option error) :=
  match fuel with
  | O => None
  | S fuel =>
      match page n w with
      | (w, Err e) => Some (w, Some e)
      | (w, Ok (items, last_page)) =>
          let w := foldl (λ w i, visit i w) w items in
          if last_page then Some (w, None) else pages page next visit fuel (next n) w
      end
  end.

(** What the pages and the visits keep, failures or not. *)
Lemma pages_ind {W I} (page : Z → W → W * result error (list I * bool)) next visit (P : W → Prop) fuel n w w' e :
  (∀ n w, P w → P (page n w).1) → (∀ i w, P w → P (visit i w)) → P w →
  pages page next visit fuel n w = Some (w', e) → P w'.
Proof.
  intros Hp Hv. revert n w. induction fuel as [|fuel IH]; intros n w Hw; [done|]. cbn [pages].
  specialize (Hp n w Hw). destruct (page n w) as [w1 [[items b]|e1]]; [|by intros [= <- _]]. cbn [fst] in Hp.
  assert (Hf : P (foldl (λ w i, visit i w) w1 items)).
  { clear - Hp Hv. revert w1 Hp. induction items as [|i items IH]; intros w1 Hp; [done|]. apply IH. by apply Hv. }
  destruct b; [by intros [= <- _]|]. by apply IH.
Qed.

(** Page [n], from one, of pages of [size] items. *)
Definition slice {I} (size n : Z) (l : list I) : list I :=
  take (Z.to_nat size) (drop (Z.to_nat ((n - 1) * size)) l).

(** The loop visits all items, in order, when the pages are those of one list:
    [good done w] is what holds when the items [done] have been visited. *)
Section pages.
Context {W I : Type} (page : Z → W → W * result error (list I * bool)) (next : Z → Z) (visit : I → W → W).
Context (size : Z) (l : list I) (good : list I → W → Prop).
Context (size_pos : (0 < size)%Z).
Context (page_good : ∀ done n w, good done w → (1 ≤ n)%Z → (Z.to_nat ((n - 1) * size) ≤ List.length l) →
  ∃ w' b, page n w = (w', Ok (slice size n l, b)) ∧ good done w' ∧
    (b = true → List.length l ≤ Z.to_nat (n * size)) ∧
    (b = false → Z.to_nat (n * size) ≤ List.length l ∧ next n = (n + 1)%Z)).
Context (visit_good : ∀ done x rest w, l = done ++ x :: rest → good done w → good (done ++ [x]) (visit x w)).

Lemma foldl_good done items rest w : l = done ++ items ++ rest → good done w →
  good (done ++ items) (foldl (λ w i, visit i w) w items).
Proof using visit_good.
  revert done w. induction items as [|x items IH]; intros done w Hl Hg; [by rewrite app_nil_r|].
  cbn [foldl]. replace (done ++ x :: items) with ((done ++ [x]) ++ items) by by rewrite <-app_assoc.
  apply IH; [by rewrite <-app_assoc|]. by eapply visit_good.
Qed.

Lemma pages_good fuel n w : (1 ≤ n)%Z → Z.to_nat ((n - 1) * size) ≤ List.length l →
  List.length l < Z.to_nat ((n - 1 + Z.of_nat fuel) * size) →
  good (take (Z.to_nat ((n - 1) * size)) l) w →
  ∃ w', pages page next visit fuel n w = Some (w', None) ∧ good l w'.
Proof using size_pos page_good visit_good.
  revert n w. induction fuel as [|fuel IH]; intros n w Hn Hle Hf Hg; [lia|].
  destruct (page_good _ n w Hg Hn Hle) as (w1 & b & Hp & Hg1 & Ht & Hb).
  cbn [pages]. rewrite Hp. set (k := Z.to_nat ((n - 1) * size)) in *.
  assert (Hk : Z.to_nat (n * size) = k + Z.to_nat size) by (unfold k; nia).
  assert (Hg2 : good (take k l ++ slice size n l) (foldl (λ w i, visit i w) w1 (slice size n l))).
  { apply foldl_good with (rest := drop (k + Z.to_nat size) l); [|done].
    unfold slice. fold k. rewrite <-drop_drop, take_drop. by rewrite take_drop. }
  assert (Ht2 : take k l ++ slice size n l = take (Z.to_nat (n * size)) l).
  { unfold slice. fold k. by rewrite Hk, take_take_drop. }
  rewrite Ht2 in Hg2. destruct b.
  - eexists; split; [done|]. by rewrite take_ge in Hg2 by by apply Ht.
  - destruct (Hb eq_refl) as [Hlen ->]. apply IH; [lia| | |].
    + by replace (n + 1 - 1)%Z with n by lia.
    + eapply Nat.lt_le_trans; [exact Hf|]. apply Z2Nat.inj_le; nia.
    + by replace (n + 1 - 1)%Z with n by lia.
Qed.
End pages.

(** ** Turns

    A watcher keeps a mark for what it watches: [true] when it was listed in
    the current turn. *)
Record watcher (C : Type) := {
  wt_client : C;
  wt_marks : gmap string bool;
  wt_results : list watch_Event;
  wt_stopWatch : bool }.
Arguments Build_watcher {C} _ _ _ _.
Arguments wt_client {C} _.
Arguments wt_marks {C} _.
Arguments wt_results {C} _.
Arguments wt_stopWatch {C} _.

Section turns.
Context {C : Type} `{MapRange}.

Definition set_client (c : C) (w : watcher C) : watcher C :=
  {| wt_client := c; wt_marks := wt_marks w; wt_results := wt_results w; wt_stopWatch := wt_stopWatch w |}.
Definition set_marks (m : gmap string bool) (w : watcher C) : watcher C :=
  {| wt_client := wt_client w; wt_marks := m; wt_results := wt_results w; wt_stopWatch := wt_stopWatch w |}.
Definition emit (es : list watch_Event) (w : watcher C) : watcher C :=
  {| wt_client := wt_client w; wt_marks := wt_marks w; wt_results := wt_results w ++ es; wt_stopWatch := wt_stopWatch w |}.

(** One round of the loop over the marks at the end of a turn, and the loop. *)
Definition sweep_one (unsubscribe : string → watcher C → watcher C * option error) (w : watcher C)
    (p : string * bool) : watcher C :=
  if p.2 then set_marks (<[p.1 := false]> (wt_marks w)) w
  else match unsubscribe p.1 w with
       | (w, Some _) => w
       | (w, None) => set_marks (delete p.1 (wt_marks w)) w
       end.
Definition sweep (unsubscribe : string → watcher C → watcher C * option error) (w : watcher C) : watcher C :=
  foldl (sweep_one unsubscribe) w (go_range (wt_marks w)).

(** The marks a sweep without failures leaves, and the names it removes. *)
Definition kept (m : gmap string bool) : gmap string bool := const false <$> filter (λ p, p.2 = true) m.
Definition swept (m : gmap string bool) : list string := (filter (λ p, p.2 = false) (go_range m)).*1.

Lemma elem_of_swept m s : s ∈ swept m ↔ m !! s = Some false.
Proof.
  unfold swept. rewrite list_elem_of_fmap. split.
  - intros ([? b] & -> & [Hb Hin]%list_elem_of_filter). simpl in *. subst. by apply elem_of_go_range.
  - intros Hs. exists (s, false). split; [done|]. apply list_elem_of_filter. by rewrite elem_of_go_range.
Qed.

Lemma NoDup_swept m : NoDup (swept m).
Proof.
  unfold swept. generalize (NoDup_go_range_fst m). generalize (go_range m).
  induction l as [|[s b] l IH]; [constructor|]. csimpl. intros [Hn Hl]%NoDup_cons. rewrite filter_cons.
  destruct (decide _); [|by apply IH]. csimpl. apply NoDup_cons. split; [|by apply IH].
  intros Hin. apply Hn. apply list_elem_of_fmap in Hin as (p & -> & [_ Hp]%list_elem_of_filter).
  by apply list_elem_of_fmap_2.
Qed.

(** A sweep without failures: [good gones w] is what holds when the names
    [gones] have been unsubscribed from. *)
Section sweep.
Context (unsubscribe : string → watcher C → watcher C * option error) (good : list string → watcher C → Prop).
Context (unsubscribe_good : ∀ gones s w, good gones w →
  ∃ w', unsubscribe s w = (w', None) ∧ wt_marks w' = wt_marks w ∧ good (gones ++ [s]) w').
Context (good_marks : ∀ gones w m, good gones w → good gones (set_marks m w)).

Lemma sweep_loop_good l gones w : NoDup l.*1 → good gones w →
  let w' := foldl (sweep_one unsubscribe) w l in
  good (gones ++ (filter (λ p, p.2 = false) l).*1) w' ∧
  ∀ s, wt_marks w' !! s = match (list_to_map l : gmap string bool) !! s with
                          | Some true => Some false | Some false => None | None => wt_marks w !! s end.
Proof using unsubscribe_good good_marks.
  revert gones w. induction l as [|[s b] l IH]; intros gones w.
  { intros _ Hg. cbn. by rewrite app_nil_r. }
  csimpl. intros [Hn Hl]%NoDup_cons Hg.
  assert (Hs : (list_to_map l : gmap string bool) !! s = None) by by apply not_elem_of_list_to_map_1.
  rewrite filter_cons. unfold sweep_one at 2 4. destruct b; cbn [fst snd].
  - rewrite decide_False by done.
    destruct (IH gones (set_marks (<[s := false]> (wt_marks w)) w)) as (Hg' & Hm'); [done|by apply good_marks|].
    split; [done|]. intros s'. rewrite Hm'. cbn [set_marks wt_marks]. destruct (decide (s = s')) as [<-|Hss].
    + by rewrite Hs, !lookup_insert_eq.
    + by rewrite !lookup_insert_ne by done.
  - rewrite decide_True by done. destruct (unsubscribe_good gones s w Hg) as (w1 & -> & Hm1 & Hg1).
    destruct (IH (gones ++ [s]) (set_marks (delete s (wt_marks w1)) w1)) as (Hg' & Hm'); [done|by apply good_marks|].
    csimpl. split; [by rewrite <-app_assoc in Hg'|]. intros s'. rewrite Hm'. cbn [set_marks wt_marks].
    destruct (decide (s = s')) as [<-|Hss].
    + by rewrite Hs, lookup_insert_eq, lookup_delete_eq.
    + by rewrite lookup_insert_ne, lookup_delete_ne, Hm1 by done.
Qed.

Lemma sweep_good w : good [] w →
  good (swept (wt_marks w)) (sweep unsubscribe w) ∧ wt_marks (sweep unsubscribe w) = kept (wt_marks w).
Proof using unsubscribe_good good_marks.
  intros Hg. destruct (sweep_loop_good (go_range (wt_marks w)) [] w) as (Hg' & Hm); [apply NoDup_go_range_fst|done|].
  split; [done|]. apply map_eq. intros s. rewrite Hm, list_to_map_go_range.
  unfold kept. rewrite lookup_fmap, map_lookup_filter.
  destruct (wt_marks w !! s) as [[]|]; cbn; by repeat case_guard.
Qed.
End sweep.

(** What every round of a sweep keeps, failures or not. *)
Lemma sweep_ind (P : watcher C → Prop) unsubscribe w :
  (∀ s w, wt_marks (unsubscribe s w).1 = wt_marks w) →
  (∀ w s b, P w → wt_marks w !! s = Some b → P (sweep_one unsubscribe w (s, b))) → P w → P (sweep unsubscribe w).
Proof.
  intros Hun HP. unfold sweep. generalize (NoDup_go_range_fst (wt_marks w)).
  assert (Hm : ∀ s b, (s, b) ∈ go_range (wt_marks w) → wt_marks w !! s = Some b) by (intros s b; apply elem_of_go_range).
  revert Hm. generalize (go_range (wt_marks w)). intros l. revert w.
  induction l as [|[s b] l IH]; intros w Hm; [done|]. csimpl. intros [Hn Hl]%NoDup_cons Hw.
  apply IH; [|done|apply HP; [done|apply Hm; left]]. intros s' b' Hin.
  assert (s ≠ s') by (intros ->; apply Hn; apply list_elem_of_fmap; by exists (s', b')).
  unfold sweep_one. cbn [fst snd]. specialize (Hun s w). destruct b; cbn.
  - rewrite lookup_insert_ne by done. apply Hm. by right.
  - destruct (unsubscribe s w) as [w' [e|]]; cbn in *; rewrite ?lookup_delete_ne by done; rewrite Hun; apply Hm; by right.
Qed.
(** Every name of [l] is marked. *)
Definition marked (l : list string) (m : gmap string bool) : gmap string bool := foldl (λ m s, <[s := true]> m) m l.

Lemma lookup_marked l m s : marked l m !! s = if decide (s ∈ l) then Some true else m !! s.
Proof.
  revert m. induction l as [|x l IH]; intros m; [done|]. unfold marked in *. cbn. rewrite IH.
  destruct (decide (s ∈ l)) as [Hl|Hl]; [by rewrite decide_True by by right|].
  destruct (decide (x = s)) as [<-|Hne]; [by rewrite lookup_insert_eq, decide_True by left|].
  rewrite lookup_insert_ne by done. rewrite decide_False; [done|]. set_solver.
Qed.

Lemma lookup_kept (m : gmap string bool) s : kept m !! s = if decide (m !! s = Some true) then Some false else None.
Proof.
  unfold kept. rewrite lookup_fmap, map_lookup_filter. by destruct (m !! s) as [[]|]; cbn; repeat case_guard.
Qed.

(** The marks after two turns. *)
Lemma kept_twice l m s : kept (marked l (kept (marked l m))) !! s =
  if decide (s ∈ l) then Some false else if decide (m !! s = Some true) then None else None.
Proof.
  rewrite lookup_kept, lookup_marked, lookup_kept, lookup_marked. repeat case_decide; simplify_eq; done.
Qed.

End turns.
