(* ===== verification/Counter.v ===== *)
(** pkg/console/counter: the counters of the overview page. counter.go is the
    two counter types (int64 values that wrap), manager.go the event handling,
    component.go the initialisation from the stores. *)
From S2P Require Import Prelude GoStrings Errors Resource Libs Indexers Store MemoryStore MemoryQueries EventBus Informer.

Open Scope string_scope.
Open Scope list_scope.
Open Scope Z_scope.

(** ** counter.go *)
Abbreviation Counter := (gmap string Z).
Abbreviation DistributionCounter := (gmap string (gmap string Z)).

Definition or_default (group : string) : string :=
  if decide (group = "") then "default" else group.
Definition or_unknown (key : string) : string :=
  if decide (key = "") then "unknown" else key.

Definition map_get (m : gmap string Z) (k : string) : Z := default 0 (m !! k).

Definition Counter_Increment (c : Counter) (group : string) : Counter :=
  let group := or_default group in <[group := i64 (map_get c group + 1)]> c.

Definition Counter_Decrement (c : Counter) (group : string) : Counter :=
  let group := or_default group in
  match c !! group with
  | None => c
  | Some value =>
      let value := i64 (value - 1) in
      if decide (value <= 0) then delete group c else <[group := value]> c
  end.

Definition Counter_GetByGroup (c : Counter) (group : string) : Z := map_get c (or_default group).

Definition Dist_Increment (c : DistributionCounter) (group key : string) : DistributionCounter :=
  let group := or_default group in
  let key := or_unknown key in
  let groupData := default ∅ (c !! group) in
  <[group := <[key := i64 (map_get groupData key + 1)]> groupData]> c.

Definition Dist_Decrement (c : DistributionCounter) (group key : string) : DistributionCounter :=
  let group := or_default group in
  let key := or_unknown key in
  match c !! group with
  | None => c
  | Some groupData =>
      match groupData !! key with
      | None => c
      | Some value =>
          let value := i64 (value - 1) in
          if decide (value <= 0) then
            let groupData := delete key groupData in
            if decide (groupData = ∅) then delete group c else <[group := groupData]> c
          else <[group := <[key := value]> groupData]> c
      end
  end.

Definition Dist_GetByGroup (c : DistributionCounter) (group : string) : gmap string Z :=
  default ∅ (c !! or_default group).

Section ranges.
Context `{MapRange}.

Definition Counter_Get (c : Counter) : Z := foldl (λ sum p, i64 (sum + p.2)) 0 (go_range c).

Definition Dist_GetAll (c : DistributionCounter) : gmap string Z :=
  foldl (λ result p,
    foldl (λ result q, <[q.1 := i64 (map_get result q.1 + q.2)]> result) result (go_range p.2))
    ∅ (go_range c).
End ranges.

(** ** manager.go *)
Inductive CounterType := ProtocolCounter | ReleaseCounter | DiscoveryCounter | OtherCounter (s : string).

Definition counterType_string (t : CounterType) : string :=
  match t with
  | ProtocolCounter => "protocol" | ReleaseCounter => "release"
  | DiscoveryCounter => "discovery" | OtherCounter s => s
  end.

Abbreviation FieldExtractor := (Resource → string).

(** The [counter] pointer of a configuration is the counter registered for its
    type in [distributionByType]: the type stands for the pointer. *)
Record distributionCounterConfig := {
  dcc_counterType : string;
  dcc_extractor : option FieldExtractor }.

Record counterManager := {
  cm_simpleCounters : gmap string Counter;
  cm_distributionConfigs : gmap string (list distributionCounterConfig);
  cm_distributionByType : gmap string DistributionCounter;
  cm_isLeader : option bool }.

Definition with_simple (cm : counterManager) (s : gmap string Counter) : counterManager :=
  {| cm_simpleCounters := s; cm_distributionConfigs := cm_distributionConfigs cm;
     cm_distributionByType := cm_distributionByType cm; cm_isLeader := cm_isLeader cm |}.
Definition with_dist (cm : counterManager) (d : gmap string DistributionCounter) : counterManager :=
  {| cm_simpleCounters := cm_simpleCounters cm; cm_distributionConfigs := cm_distributionConfigs cm;
     cm_distributionByType := d; cm_isLeader := cm_isLeader cm |}.
Definition with_leader (cm : counterManager) (l : option bool) : counterManager :=
  {| cm_simpleCounters := cm_simpleCounters cm; cm_distributionConfigs := cm_distributionConfigs cm;
     cm_distributionByType := cm_distributionByType cm; cm_isLeader := l |}.

Definition RegisterSimpleCounter (cm : counterManager) (kind : string) : counterManager :=
  if decide (kind = "") then cm
  else match cm_simpleCounters cm !! kind with
  | Some _ => cm
  | None => with_simple cm (<[kind := ∅]> (cm_simpleCounters cm))
  end.

(** The loop over the configurations of the kind: [None] when the metric is new. *)
Fixpoint replace_config (configs : list distributionCounterConfig) (metric : string)
    (extractor : option FieldExtractor) : option (list distributionCounterConfig) :=
  match configs with
  | [] => None
  | cfg :: configs =>
      if decide (dcc_counterType cfg = metric) then
        Some ({| dcc_counterType := metric; dcc_extractor := extractor |} :: configs)
      else (cons cfg) <$> replace_config configs metric extractor
  end.

Definition RegisterDistributionCounter (cm : counterManager) (kind metric : string)
    (extractor : option FieldExtractor) : counterManager :=
  if decide (kind = "" ∨ metric = "") then cm
  else
    let cm := match cm_distributionByType cm !! metric with
              | Some _ => cm
              | None => with_dist cm (<[metric := ∅]> (cm_distributionByType cm))
              end in
    let configs := default [] (cm_distributionConfigs cm !! kind) in
    let configs := match replace_config configs metric extractor with
                   | Some configs => configs
                   | None => configs ++ [{| dcc_counterType := metric; dcc_extractor := extractor |}]
                   end in
    {| cm_simpleCounters := cm_simpleCounters cm;
       cm_distributionConfigs := <[kind := configs]> (cm_distributionConfigs cm);
       cm_distributionByType := cm_distributionByType cm; cm_isLeader := cm_isLeader cm |}.

Definition instanceProtocolKey (res : Resource) : string :=
  match res_spec res with
  | InstanceSpec (Some spec) => inst_Protocol spec
  | _ => ""
  end.
Definition instanceReleaseKey (res : Resource) : string :=
  match res_spec res with
  | InstanceSpec (Some spec) => inst_ReleaseVersion spec
  | _ => ""
  end.
Definition instanceMeshKey (res : Resource) : string :=
  match res_spec res with
  | InstanceSpec _ => res_Mesh res
  | _ => ""
  end.

Definition newCounterManager : counterManager :=
  let cm := {| cm_simpleCounters := ∅; cm_distributionConfigs := ∅;
               cm_distributionByType := ∅; cm_isLeader := None |} in
  let cm := RegisterSimpleCounter cm (kind_string ApplicationKind) in
  let cm := RegisterSimpleCounter cm (kind_string ServiceProviderMetadataKind) in
  let cm := RegisterSimpleCounter cm (kind_string InstanceKind) in
  let cm := RegisterDistributionCounter cm (kind_string InstanceKind) "protocol"
              (Some instanceProtocolKey) in
  let cm := RegisterDistributionCounter cm (kind_string InstanceKind) "release"
              (Some instanceReleaseKey) in
  RegisterDistributionCounter cm (kind_string InstanceKind) "discovery" (Some instanceMeshKey).

Definition Reset (cm : counterManager) : counterManager :=
  with_dist (with_simple cm ((λ _, ∅) <$> cm_simpleCounters cm))
    ((λ _, ∅) <$> cm_distributionByType cm).

Definition Count `{MapRange} (cm : counterManager) (kind : string) : Z :=
  match cm_simpleCounters cm !! kind with Some c => Counter_Get c | None => 0 end.

Definition Distribution `{MapRange} (cm : counterManager) (metric : string) : gmap string Z :=
  match cm_distributionByType cm !! metric with Some c => Dist_GetAll c | None => ∅ end.

Definition CountByMesh (cm : counterManager) (kind mesh : string) : Z :=
  match cm_simpleCounters cm !! kind with
  | Some c => Counter_GetByGroup c (or_default mesh)
  | None => 0
  end.

Definition DistributionByMesh (cm : counterManager) (metric mesh : string) : gmap string Z :=
  match cm_distributionByType cm !! metric with
  | Some c => Dist_GetByGroup c (or_default mesh)
  | None => ∅
  end.

Definition getDistributionConfig (cm : counterManager) (kind metric : string)
    : option distributionCounterConfig :=
  List.find (λ cfg, bool_decide (dcc_counterType cfg = metric))
    (default [] (cm_distributionConfigs cm !! kind)).

Definition extractMeshName (res : option Resource) : string :=
  match res with None => "default" | Some r => or_default (res_Mesh r) end.

Definition normalizeDistributionKey (key : string) : string := or_unknown key.

Definition isNewResourceEvent (event : Event) : bool :=
  match ev_oldObj event with None => true | Some _ => false end.

Definition event_mesh (event : Event) : string :=
  match ev_newObj event with
  | None => extractMeshName (ev_oldObj event)
  | Some r => extractMeshName (Some r)
  end.

Definition processSimpleCounter (counter : Counter) (event : Event) : Counter :=
  let mesh := event_mesh event in
  match ev_typ event with
  | Added => Counter_Increment counter mesh
  | Sync | Replaced =>
      if isNewResourceEvent event then Counter_Increment counter mesh else counter
  | Deleted => Counter_Decrement counter mesh
  | Updated | OtherDelta _ => counter
  end.

Definition extractFrom (cfg : distributionCounterConfig) (res : option Resource) : string :=
  match dcc_extractor cfg, res with
  | Some f, Some r => f r
  | _, _ => ""
  end.

Definition config_update (cfg : distributionCounterConfig) (counter : DistributionCounter)
    (oldObj newObj : option Resource) : DistributionCounter :=
  let oldKey := normalizeDistributionKey (extractFrom cfg oldObj) in
  let newKey := normalizeDistributionKey (extractFrom cfg newObj) in
  let oldMesh := extractMeshName oldObj in
  let newMesh := extractMeshName newObj in
  if decide (oldKey = newKey ∧ oldMesh = newMesh) then counter
  else
    let counter := match oldObj with
                   | Some _ => Dist_Decrement counter oldMesh oldKey
                   | None => counter
                   end in
    match newObj with
    | Some _ => Dist_Increment counter newMesh newKey
    | None => counter
    end.

Definition processDistributionCounter (cfg : distributionCounterConfig)
    (counter : DistributionCounter) (event : Event) : DistributionCounter :=
  let mesh := event_mesh event in
  let add := Dist_Increment counter mesh
               (normalizeDistributionKey (extractFrom cfg (ev_newObj event))) in
  match ev_typ event with
  | Added => add
  | Sync | Replaced =>
      if isNewResourceEvent event then add
      else config_update cfg counter (ev_oldObj event) (ev_newObj event)
  | Updated => config_update cfg counter (ev_oldObj event) (ev_newObj event)
  | Deleted => Dist_Decrement counter mesh
                 (normalizeDistributionKey (extractFrom cfg (ev_oldObj event)))
  | OtherDelta _ => counter
  end.

Definition handleEvent (cm : counterManager) (kind : string) (event : Event) : counterManager :=
  if decide (cm_isLeader cm = Some false) then cm
  else
    let cm := match cm_simpleCounters cm !! kind with
              | Some c => with_simple cm (<[kind := processSimpleCounter c event]>
                                            (cm_simpleCounters cm))
              | None => cm
              end in
    foldl (λ cm cfg,
      with_dist cm (alter (λ c, processDistributionCounter cfg c event) (dcc_counterType cfg)
                      (cm_distributionByType cm)))
      cm (default [] (cm_distributionConfigs cm !! kind)).

Section bind.
Context `{MapRange}.

(** The keys of [handledKinds], in the order its range visits them. *)
Definition handledKinds (cm : counterManager) : list string :=
  (go_range (((λ _, tt) <$> cm_simpleCounters cm) ∪ ((λ _, tt) <$> cm_distributionConfigs cm))).*1.

Fixpoint bind_kinds (bus : eventBus) (kinds : list string) : eventBus * option error :=
  match kinds with
  | [] => (bus, None)
  | kind :: kinds =>
      match Subscribe bus {| sub_ResourceKind := kind;
                             sub_Name := ("counter-manager/" +:+ kind)%stdpp;
                             sub_AsyncEnabled := false |} with
      | (bus, Some e) => (bus, Some e)
      | (bus, None) => bind_kinds bus kinds
      end
  end.

Definition Bind (cm : counterManager) (bus : eventBus) : eventBus * option error :=
  bind_kinds bus (handledKinds cm).
End bind.

(** ** component.go *)
Record managerComponent := {
  mc_manager : counterManager;
  mc_needsLeaderElection : bool;
  mc_isLeader : bool;
  mc_bound : bool }.

(** One resource of the store in the loop of [initializeResourceCount]. *)
Definition count_resource (kind : ResourceKind) (cm : counterManager) (resource : Resource)
    : counterManager :=
  let mesh := or_default (res_Mesh resource) in
  let k := kind_string kind in
  let bump (cm : counterManager) (metric key : string) :=
    match getDistributionConfig cm k metric with
    | Some _ => with_dist cm (alter (λ c, Dist_Increment c mesh key) metric
                                (cm_distributionByType cm))
    | None => cm
    end in
  let cm := match cm_simpleCounters cm !! k with
            | Some c => with_simple cm (<[k := Counter_Increment c mesh]> (cm_simpleCounters cm))
            | None => cm
            end in
  if decide (kind = InstanceKind) then
    match res_spec resource with
    | InstanceSpec (Some spec) =>
        let cm := if decide (inst_Protocol spec = "") then cm
                  else bump cm "protocol" (inst_Protocol spec) in
        let cm := if decide (inst_ReleaseVersion spec = "") then cm
                  else bump cm "release" (inst_ReleaseVersion spec) in
        bump cm "discovery" mesh
    | _ => cm
    end
  else cm.

Section component.
Context {S : Type} `{ResourceStore S, MapRange}.

(** [storeRouter.ResourceKindRoute]. *)
Context (ResourceKindRoute : ResourceKind → result error S).

Definition initializeResourceCount (cm : counterManager) (kind : ResourceKind)
    : counterManager * option error :=
  match ResourceKindRoute kind with
  | Err e => (cm, Some e)
  | Ok st => (foldl (λ cm o, match o with
                             | ResourceObj r => count_resource kind cm r
                             | OtherObj _ => cm
                             end) cm (st_List st), None)
  end.

Fixpoint initialize_kinds (cm : counterManager) (l : list (ResourceKind * string))
    : counterManager * option error :=
  match l with
  | [] => (cm, None)
  | (kind, what) :: l =>
      match initializeResourceCount cm kind with
      | (cm, Some e) =>
          (cm, Some (errorf_w ("failed to initialize " +:+ what +:+ " count: ")%stdpp e ""))
      | (cm, None) => initialize_kinds cm l
      end
  end.

Definition initializeCountsFromStore (cm : counterManager) : counterManager * option error :=
  initialize_kinds cm
    [(InstanceKind, "instance"); (ApplicationKind, "application");
     (ServiceProviderMetadataKind, "service provider metadata")].

(** An error of the initialisation is only logged. *)
Definition startBusinessLogic (c : managerComponent) (bus : eventBus)
    : managerComponent * eventBus * option error :=
  let cm := Reset (mc_manager c) in
  let cm := if mc_needsLeaderElection c then with_leader cm (Some (mc_isLeader c)) else cm in
  let cm := (initializeCountsFromStore cm).1 in
  let c := {| mc_manager := cm; mc_needsLeaderElection := mc_needsLeaderElection c;
              mc_isLeader := mc_isLeader c; mc_bound := mc_bound c |} in
  if mc_bound c then (c, bus, None)
  else match Bind cm bus with
  | (bus, Some e) => (c, bus, Some e)
  | (bus, None) =>
      ({| mc_manager := cm; mc_needsLeaderElection := mc_needsLeaderElection c;
          mc_isLeader := mc_isLeader c; mc_bound := true |}, bus, None)
  end.
End component.

(** The callbacks of [Start]: the manager reads the component's flag. *)
Definition set_leader (c : managerComponent) (b : bool) : managerComponent :=
  {| mc_manager := match cm_isLeader (mc_manager c) with
                   | Some _ => with_leader (mc_manager c) (Some b)
                   | None => mc_manager c
                   end;
     mc_needsLeaderElection := mc_needsLeaderElection c; mc_isLeader := b;
     mc_bound := mc_bound c |}.
Definition onStopLeading (c : managerComponent) : managerComponent :=
  let c := set_leader c false in
  {| mc_manager := Reset (mc_manager c); mc_needsLeaderElection := mc_needsLeaderElection c;
     mc_isLeader := mc_isLeader c; mc_bound := mc_bound c |}.

(** ** Tallies of a population *)
Definition tally (P : Resource → Prop) `{!∀ r, Decision (P r)} (m : gmap string Resource) : nat :=
  size (filter (λ kv, P kv.2) m).

Definition canon (n : nat) : option Z := if decide (n = 0)%nat then None else Some (Z.of_nat n).

Definition mesh_of (r : Resource) : string := or_default (res_Mesh r).

Lemma or_default_idemp s : or_default (or_default s) = or_default s.
Proof. unfold or_default. repeat case_decide; congruence. Qed.
Lemma or_unknown_idemp s : or_unknown (or_unknown s) = or_unknown s.
Proof. unfold or_unknown. repeat case_decide; congruence. Qed.

Lemma or_default_mesh r : or_default (mesh_of r) = mesh_of r.
Proof. apply or_default_idemp. Qed.

Section tally.
Context (P : Resource → Prop) `{!∀ r, Decision (P r)}.

Lemma tally_empty : tally P ∅ = 0%nat.
Proof. unfold tally. by rewrite map_filter_empty, map_size_empty. Qed.

Lemma tally_insert m k r :
  m !! k = None → tally P (<[k := r]> m) = (tally P m + if decide (P r) then 1 else 0)%nat.
Proof.
  intros Hk. unfold tally. case_decide as Hr.
  - rewrite map_filter_insert_True by done. rewrite map_size_insert_None; [lia|].
    apply map_lookup_filter_None. by left.
  - rewrite map_filter_insert_False by done. rewrite delete_id by done. lia.
Qed.

Lemma tally_delete m k r :
  m !! k = Some r → tally P m = (tally P (delete k m) + if decide (P r) then 1 else 0)%nat.
Proof.
  intros Hk. rewrite <-(insert_delete_id m k r) at 1 by done.
  apply tally_insert, lookup_delete_eq.
Qed.

Lemma tally_size m : (tally P m ≤ size m)%nat.
Proof.
  unfold tally. rewrite <-!size_dom. apply subseteq_size, dom_filter_subseteq.
Qed.
End tally.

Lemma canon_Some n z : canon n = Some z ↔ (n ≠ 0)%nat ∧ z = Z.of_nat n.
Proof. unfold canon. case_decide; naive_solver. Qed.
Lemma canon_default n : default 0 (canon n) = Z.of_nat n.
Proof. unfold canon. case_decide; simpl; lia. Qed.

(** The two updates of an int64 cell, on an exact count below the bound. *)
Lemma canon_incr n :
  Z.of_nat n < i64_max → Some (i64 (default 0 (canon n) + 1)) = canon (n + 1).
Proof.
  intros Hn. rewrite canon_default, i64_id by (unfold in_i64, i64_min, i64_max in *; lia).
  unfold canon. case_decide; [lia|]. f_equal. lia.
Qed.

Lemma canon_decr n :
  Z.of_nat n < i64_max →
  (if decide (i64 (Z.of_nat (n + 1) - 1) <= 0) then None
   else Some (i64 (Z.of_nat (n + 1) - 1))) = canon n.
Proof.
  intros Hn. rewrite i64_id by (unfold in_i64, i64_min, i64_max in *; lia).
  unfold canon. repeat case_decide; try lia; [done|]. f_equal. lia.
Qed.

(** *** Simple counters *)
Definition counter_ok (c : Counter) (m : gmap string Resource) : Prop :=
  ∀ g, c !! g = canon (tally (λ r, mesh_of r = g) m).

Definition fits (m : gmap string Resource) : Prop := Z.of_nat (size m) < i64_max.

Lemma fits_tally P `{!∀ r, Decision (P r)} m : fits m → Z.of_nat (tally P m) < i64_max.
Proof. unfold fits. pose proof (tally_size P m). lia. Qed.

Lemma counter_ok_empty : counter_ok ∅ ∅.
Proof. intros g. by rewrite tally_empty, lookup_empty. Qed.

Lemma Counter_Increment_ok c m k r :
  counter_ok c m → m !! k = None → fits m →
  counter_ok (Counter_Increment c (mesh_of r)) (<[k := r]> m).
Proof.
  intros Hc Hk Hf g. unfold Counter_Increment. rewrite or_default_mesh, tally_insert by done. destruct (decide (mesh_of r = g)) as [->|Hne].
  - rewrite lookup_insert_eq. unfold map_get. rewrite Hc. by apply canon_incr, fits_tally.
  - rewrite lookup_insert_ne by done. by rewrite Nat.add_0_r.
Qed.

Lemma Counter_Decrement_ok c m k r :
  counter_ok c m → m !! k = Some r → fits m →
  counter_ok (Counter_Decrement c (mesh_of r)) (delete k m).
Proof.
  intros Hc Hk Hf g. unfold Counter_Decrement. rewrite or_default_mesh. pose proof (Hc (mesh_of r)) as Hr. rewrite (tally_delete _ m k r Hk) in Hr.
  rewrite decide_True in Hr by done. rewrite Hr. unfold canon at 1. rewrite decide_False by lia.
  assert (Hft : Z.of_nat (tally (λ x, mesh_of x = mesh_of r) (delete k m)) < i64_max).
  { pose proof (fits_tally (λ x, mesh_of x = mesh_of r) m Hf) as Hx.
    rewrite (tally_delete _ m k r Hk) in Hx. lia. }
  pose proof (canon_decr _ Hft) as Hd.
  destruct (decide (mesh_of r = g)) as [<-|Hne].
  - rewrite <-Hd. case_decide; [by rewrite lookup_delete_eq|by rewrite lookup_insert_eq].
  - pose proof (Hc g) as Hg. rewrite (tally_delete _ m k r Hk), decide_False, Nat.add_0_r in Hg by done.
    rewrite <-Hg. case_decide; [by rewrite lookup_delete_ne|by rewrite lookup_insert_ne].
Qed.

(** *** Distribution counters *)
Definition dist_get (d : DistributionCounter) (g k : string) : option Z := d !! g ≫= (.!! k).

Definition dist_ok (h : Resource → string) (d : DistributionCounter) (m : gmap string Resource) : Prop :=
  ∀ g k, dist_get d g k = canon (tally (λ r, mesh_of r = g ∧ or_unknown (h r) = k) m).

Lemma dist_ok_empty h : dist_ok h ∅ ∅.
Proof. intros g k. unfold dist_get. by rewrite tally_empty, lookup_empty. Qed.

Lemma Dist_Increment_get d g k g' k' :
  dist_get (Dist_Increment d g k) g' k' =
  if decide (or_default g = g' ∧ or_unknown k = k')
  then Some (i64 (default 0 (dist_get d g' k') + 1)) else dist_get d g' k'.
Proof.
  unfold Dist_Increment, dist_get, map_get. destruct (decide (or_default g = g')) as [<-|Hg].
  - rewrite lookup_insert_eq. simpl. destruct (decide (or_unknown k = k')) as [<-|Hk].
    + rewrite lookup_insert_eq, decide_True by done.
      by destruct (d !! or_default g); simpl; rewrite ?lookup_empty.
    + rewrite lookup_insert_ne, decide_False by naive_solver.
      destruct (d !! or_default g); simpl; by rewrite ?lookup_empty.
  - rewrite lookup_insert_ne, decide_False by naive_solver. done.
Qed.

Lemma Dist_Decrement_get d g k g' k' v :
  dist_get d (or_default g) (or_unknown k) = Some v →
  dist_get (Dist_Decrement d g k) g' k' =
  if decide (or_default g = g' ∧ or_unknown k = k')
  then (if decide (i64 (v - 1) <= 0) then None else Some (i64 (v - 1))) else dist_get d g' k'.
Proof.
  unfold Dist_Decrement, dist_get. destruct (d !! or_default g) as [inner|] eqn:Hd; simpl; [|done].
  intros Hv. rewrite Hv. destruct (decide (or_default g = g')) as [<-|Hg].
  - rewrite Hd. simpl. destruct (decide (i64 (v - 1) <= 0));
      [destruct (decide (delete (or_unknown k) inner = ∅)) as [He|]|].
    + rewrite lookup_delete_eq. simpl. destruct (decide (or_unknown k = k')) as [<-|Hne].
      * by rewrite decide_True.
      * rewrite decide_False by naive_solver.
        by rewrite <-(lookup_delete_ne inner (or_unknown k) k'), He, lookup_empty by done.
    + rewrite lookup_insert_eq. simpl. destruct (decide (or_unknown k = k')) as [<-|Hne].
      * by rewrite lookup_delete_eq, decide_True.
      * by rewrite lookup_delete_ne, decide_False by naive_solver.
    + rewrite lookup_insert_eq. simpl. destruct (decide (or_unknown k = k')) as [<-|Hne].
      * by rewrite lookup_insert_eq, decide_True.
      * by rewrite lookup_insert_ne, decide_False by naive_solver.
  - rewrite (decide_False (P := _ ∧ _)) by naive_solver.
    destruct (decide (i64 (v - 1) <= 0)); [destruct (decide (delete _ inner = ∅))|];
      rewrite ?lookup_delete_ne, ?lookup_insert_ne by done; done.
Qed.

Lemma Dist_Increment_ok h d m k r :
  dist_ok h d m → m !! k = None → fits m →
  dist_ok h (Dist_Increment d (mesh_of r) (or_unknown (h r))) (<[k := r]> m).
Proof.
  intros Hd Hk Hf g j. rewrite Dist_Increment_get.
  rewrite or_default_mesh, or_unknown_idemp, tally_insert by done.
  case_decide; [|by rewrite Nat.add_0_r, Hd]. rewrite Hd. by apply canon_incr, fits_tally.
Qed.

Lemma Dist_Decrement_ok h d m k r :
  dist_ok h d m → m !! k = Some r → fits m →
  dist_ok h (Dist_Decrement d (mesh_of r) (or_unknown (h r))) (delete k m).
Proof.
  intros Hd Hk Hf g j.
  set (T := λ g j m, tally (λ x, mesh_of x = g ∧ or_unknown (h x) = j) m).
  assert (Hdel : ∀ g j, T g j m = (T g j (delete k m) +
    if decide (mesh_of r = g ∧ or_unknown (h r) = j) then 1 else 0)%nat).
  { intros g0 j0. exact (tally_delete (λ x, mesh_of x = g0 ∧ or_unknown (h x) = j0) m k r Hk). }
  assert (Hv : dist_get d (or_default (mesh_of r)) (or_unknown (or_unknown (h r))) =
    Some (Z.of_nat (T (mesh_of r) (or_unknown (h r)) (delete k m) + 1))).
  { rewrite or_default_mesh, or_unknown_idemp, Hd.
    apply canon_Some. fold (T (mesh_of r) (or_unknown (h r)) m). rewrite Hdel, decide_True by done. split; [lia|done]. }
  rewrite (Dist_Decrement_get _ _ _ _ _ _ Hv), or_default_mesh, or_unknown_idemp.
  specialize (Hdel g j). case_decide as Hgj.
  - destruct Hgj as [<- <-]. apply canon_decr.
    pose proof (fits_tally (λ x, mesh_of x = mesh_of r ∧ or_unknown (h x) = or_unknown (h r)) m Hf) as Hx.
    fold (T (mesh_of r) (or_unknown (h r)) m) in Hx. rewrite Hdel in Hx. unfold T in *. lia.
  - rewrite Hd. fold (T g j m). by rewrite Hdel, Nat.add_0_r.
Qed.

(** *** Events that describe a change of the population *)

(** An [event_step] whose deletion carries the stored resource, over resources
    with separator-free meshes (as [Mesh] names are). *)
Definition counted_step (m : gmap string Resource) (e : Event) (m' : gmap string Resource) : Prop :=
  event_step m e m' ∧
  (∀ r, e = NewResourceChangedEvent Deleted (Some r) None → m !! ResourceKey r = Some r) ∧
  (∀ r, ev_newObj e = Some r → no_sep (res_Mesh r)).

Inductive counted_trace : gmap string Resource → list Event → gmap string Resource → Prop :=
| counted_nil m : counted_trace m [] m
| counted_cons m e m1 es m2 : counted_step m e m1 → counted_trace m1 es m2 →
    counted_trace m (e :: es) m2.

Definition population (m : gmap string Resource) : Prop :=
  map_Forall (λ k r, ResourceKey r = k ∧ no_sep (res_Mesh r)) m.

Lemma counted_step_population m e m' : population m → counted_step m e m' → population m'.
Proof.
  intros Hm (He & _ & Hn). destruct He as [r|old r|r]; simpl in *.
  - apply map_Forall_insert_2; [split; [done|by apply Hn]|done].
  - apply map_Forall_insert_2; [split; [done|by apply Hn]|done].
  - by apply map_Forall_delete.
Qed.

Lemma counted_step_size m e m' : counted_step m e m' → (size m' ≤ size m + 1)%nat.
Proof.
  intros [He _]. destruct He as [r Hr|old r Hr|r Hr].
  - rewrite map_size_insert_None by done. lia.
  - rewrite map_size_insert_Some; [lia|by eexists].
  - rewrite map_size_delete_Some by done. lia.
Qed.

(** An update keeps the mesh: it is the part of the key before the separator. *)
Lemma same_mesh m r old :
  population m → no_sep (res_Mesh r) → m !! ResourceKey r = Some old → res_Mesh old = res_Mesh r.
Proof.
  intros Hm Hr Hold. destruct (Hm _ _ Hold) as [Hk Ho].
  by destruct (BuildResourceKey_inj _ _ _ _ Ho Hr Hk).
Qed.

Lemma fits_delete m k : fits m → fits (delete k m).
Proof. unfold fits. destruct (m !! k) eqn:E.
  - rewrite map_size_delete_Some by by eexists. lia.
  - by rewrite delete_id.
Qed.

Lemma tally_update P `{!∀ r, Decision (P r)} m r old :
  m !! ResourceKey r = Some old → (P old ↔ P r) → tally P (<[ResourceKey r := r]> m) = tally P m.
Proof.
  intros Hold HP. rewrite <-insert_delete_eq, tally_insert by apply lookup_delete_eq.
  rewrite (tally_delete P m _ _ Hold). by repeat case_decide; naive_solver.
Qed.

Lemma processSimpleCounter_ok c m e m' :
  counter_ok c m → population m → fits m → counted_step m e m' →
  counter_ok (processSimpleCounter c e) m'.
Proof.
  intros Hc Hm Hf (He & Hd & Hn). destruct He as [r Hr|old r Hr|r Hr]; simpl in *.
  - by apply Counter_Increment_ok.
  - intros g. rewrite Hc. f_equal. symmetry. apply (tally_update _ _ _ old); [done|].
    unfold mesh_of. by rewrite (same_mesh m r old) by auto.
  - apply Counter_Decrement_ok; auto.
Qed.

Lemma processDistributionCounter_ok ct h d m e m' :
  dist_ok h d m → population m → fits m → counted_step m e m' →
  dist_ok h (processDistributionCounter {| dcc_counterType := ct; dcc_extractor := Some h |} d e) m'.
Proof.
  intros Hc Hm Hf (He & Hd & Hn). destruct He as [r Hr|old r Hr|r Hr]; simpl in *.
  - by apply Dist_Increment_ok.
  - unfold processDistributionCounter, config_update. simpl. unfold normalizeDistributionKey, extractFrom. simpl.
    case_decide as Hsame.
    + destruct Hsame as [Hk Hmesh]. intros g k. rewrite Hc. f_equal. symmetry.
      apply (tally_update _ _ _ old); [done|]. unfold mesh_of. by rewrite Hk, Hmesh.
    + destruct (Hm _ _ Hr) as [Hk _]. rewrite <-insert_delete_eq.
      apply Dist_Increment_ok; [|apply lookup_delete_eq|by apply fits_delete].
      by apply Dist_Decrement_ok.
  - apply Dist_Decrement_ok; auto.
Qed.

(** *** The manager *)

(** The counters of [kind] count the population [m]. *)
Record kind_ok (cm : counterManager) (kind : string) (m : gmap string Resource) : Prop := {
  ko_simple c : cm_simpleCounters cm !! kind = Some c → counter_ok c m;
  ko_types : NoDup (dcc_counterType <$> default [] (cm_distributionConfigs cm !! kind));
  ko_dist cfg : cfg ∈ default [] (cm_distributionConfigs cm !! kind) →
    ∃ h d, dcc_extractor cfg = Some h ∧
      cm_distributionByType cm !! dcc_counterType cfg = Some d ∧ dist_ok h d m }.

Lemma foldl_configs cm e cfgs :
  let cm' := foldl (λ cm cfg,
      with_dist cm (alter (λ c, processDistributionCounter cfg c e) (dcc_counterType cfg)
                      (cm_distributionByType cm))) cm cfgs in
  cm_simpleCounters cm' = cm_simpleCounters cm ∧
  cm_distributionConfigs cm' = cm_distributionConfigs cm ∧ cm_isLeader cm' = cm_isLeader cm ∧
  (NoDup (dcc_counterType <$> cfgs) →
   (∀ t, t ∉ dcc_counterType <$> cfgs →
      cm_distributionByType cm' !! t = cm_distributionByType cm !! t) ∧
   ∀ cfg, cfg ∈ cfgs → cm_distributionByType cm' !! dcc_counterType cfg =
     (λ c, processDistributionCounter cfg c e) <$> cm_distributionByType cm !! dcc_counterType cfg).
Proof.
  revert cm. induction cfgs as [|cfg cfgs IH]; intros cm; simpl.
  { split_and!; try done. intros _. split; [done|]. by intros ? ?%elem_of_nil. }
  destruct (IH (with_dist cm (alter (λ c, processDistributionCounter cfg c e)
    (dcc_counterType cfg) (cm_distributionByType cm)))) as (-> & -> & -> & Hd).
  split_and!; try done. intros [Hn Hnd]%NoDup_cons. destruct (Hd Hnd) as [Hout Hin]. split.
  - intros t [Hne Ht]%not_elem_of_cons. rewrite Hout by done. simpl.
    by rewrite lookup_alter_ne.
  - intros cfg' [->|Hc]%elem_of_cons.
    + rewrite Hout by done. simpl. by rewrite lookup_alter_eq.
    + rewrite Hin by done. simpl. rewrite lookup_alter_ne; [done|].
      intros Heq. apply Hn. rewrite Heq. by apply list_elem_of_fmap_2.
Qed.

Lemma handleEvent_ok cm kind m e m' :
  kind_ok cm kind m → cm_isLeader cm ≠ Some false → population m → fits m →
  counted_step m e m' →
  kind_ok (handleEvent cm kind e) kind m' ∧ cm_isLeader (handleEvent cm kind e) ≠ Some false.
Proof.
  intros [Hs Ht Hd] Hl Hm Hf He. unfold handleEvent. rewrite decide_False by done.
  set (cm1 := match cm_simpleCounters cm !! kind with Some c => _ | None => cm end).
  assert (H1 : cm_distributionConfigs cm1 = cm_distributionConfigs cm ∧
    cm_distributionByType cm1 = cm_distributionByType cm ∧ cm_isLeader cm1 = cm_isLeader cm ∧
    ∀ c, cm_simpleCounters cm1 !! kind = Some c → counter_ok c m').
  { unfold cm1. destruct (cm_simpleCounters cm !! kind) as [c|] eqn:E.
    - simpl. split_and!; try done. intros c'. rewrite lookup_insert_eq. intros [= <-].
      eapply processSimpleCounter_ok; eauto.
    - split_and!; try done. intros c'. congruence. }
  destruct H1 as (Hc1 & Hb1 & Hl1 & Hs1).
  destruct (foldl_configs cm1 e (default [] (cm_distributionConfigs cm !! kind)))
    as (Hs2 & Hc2 & Hl2 & Hd2). rewrite Hc1.
  destruct (Hd2 Ht) as [_ Hin]. split; [|by rewrite Hl2, Hl1]. split.
  - by rewrite Hs2.
  - by rewrite Hc2, Hc1.
  - intros cfg. rewrite Hc2, Hc1. intros Hcfg.
    destruct (Hd cfg Hcfg) as (h & d & Hh & Hdd & Hok). rewrite (Hin cfg Hcfg), Hb1, Hdd.
    exists h, (processDistributionCounter cfg d e). split_and!; [done|done|].
    destruct cfg as [ct ex]. simpl in *. subst ex. by eapply processDistributionCounter_ok.
Qed.

Lemma handleEvents_ok cm kind m es m' :
  kind_ok cm kind m → cm_isLeader cm ≠ Some false → population m →
  Z.of_nat (size m) + Z.of_nat (length es) < i64_max → counted_trace m es m' →
  kind_ok (foldl (λ cm e, handleEvent cm kind e) cm es) kind m' ∧ fits m'.
Proof.
  intros Hok Hl Hm Hf Htr. revert cm Hok Hl Hm Hf.
  induction Htr as [m|m e m1 es m2 He Htr IH]; intros cm Hok Hl Hm Hf; simpl in *.
  { split; [done|]. unfold fits. lia. }
  destruct (handleEvent_ok cm kind m e m1) as [Hok1 Hl1]; [done..|unfold fits; lia|done|].
  pose proof (counted_step_size _ _ _ He).
  apply IH; [done|done|by eapply counted_step_population|lia].
Qed.

(** The sum of the tallies of all meshes is the population. *)
Section sums.
Context `{MapRange}.

Definition zsum (l : list Z) : Z := foldr Z.add 0 l.

Lemma zsum_perm l k : l ≡ₚ k → zsum l = zsum k.
Proof. induction 1; simpl; lia. Qed.

Lemma foldl_i64_sum (l : list (string * Z)) acc :
  Forall (λ p, 0 <= p.2) l → 0 <= acc → acc + zsum l.*2 <= i64_max →
  foldl (λ s p, i64 (s + p.2)) acc l = acc + zsum l.*2.
Proof.
  intros Hl. revert acc. induction Hl as [|p l Hp Hl IH]; intros acc; csimpl; [lia|].
  intros Ha Hb.
  assert (0 <= zsum l.*2) by (clear -Hl; induction Hl; csimpl; lia).
  rewrite i64_id by (unfold in_i64, i64_min, i64_max in *; lia).
  rewrite IH by (done || lia). lia.
Qed.

Definition msum (c : Counter) : Z := zsum (map_to_list c).*2.

Lemma msum_insert c g v : c !! g = None → msum (<[g := v]> c) = v + msum c.
Proof.
  intros Hg. unfold msum. rewrite (zsum_perm _ ((g, v) :: map_to_list c).*2); [done|].
  by rewrite map_to_list_insert.
Qed.

Lemma msum_delete c g v : c !! g = Some v → msum c = v + msum (delete g c).
Proof. intros Hg. rewrite <-(insert_delete_id c g v) at 1 by done. apply msum_insert, lookup_delete_eq. Qed.

Lemma counter_ok_sum m c : counter_ok c m → msum c = Z.of_nat (size m).
Proof.
  revert c. induction m as [|k r m Hk IH] using map_ind; intros c Hc.
  { assert (c = ∅) as ->; [|done].
    apply map_eq. intros g. by rewrite Hc, tally_empty, lookup_empty. }
  rewrite map_size_insert_None by done. set (g := mesh_of r).
  pose proof (Hc g) as Hg. rewrite tally_insert, decide_True in Hg by done.
  set (n := tally (λ r, mesh_of r = g) m) in *.
  assert (Hcg : c !! g = Some (Z.of_nat (n + 1))) by (rewrite Hg; apply canon_Some; lia).
  set (c' := match canon n with Some z => <[g := z]> c | None => delete g c end).
  assert (Hc' : counter_ok c' m).
  { intros g'. destruct (decide (g = g')) as [<-|Hne].
    - fold n. unfold c'. destruct (canon n) eqn:E; [by rewrite lookup_insert_eq|by rewrite lookup_delete_eq].
    - specialize (Hc g'). rewrite tally_insert, decide_False, Nat.add_0_r in Hc by done.
      rewrite <-Hc. unfold c'.
      destruct (canon n); [by rewrite lookup_insert_ne|by rewrite lookup_delete_ne]. }
  pose proof (IH c' Hc') as Hsum. rewrite (msum_delete _ _ _ Hcg).
  unfold c', canon in Hsum. case_decide as Hn.
  - lia.
  - rewrite <-insert_delete_eq, msum_insert in Hsum by apply lookup_delete_eq. lia.
Qed.

Lemma Counter_Get_size c m : counter_ok c m → fits m → Counter_Get c = Z.of_nat (size m).
Proof.
  intros Hc Hf. unfold Counter_Get.
  assert (Hz : zsum (go_range c).*2 = Z.of_nat (size m)).
  { rewrite <-(counter_ok_sum m c Hc). apply zsum_perm. by rewrite go_range_perm. }
  rewrite foldl_i64_sum; [lia| |lia|unfold fits in Hf; lia].
  apply Forall_forall. intros [g v] Hgv%elem_of_go_range.
  rewrite Hc in Hgv. apply canon_Some in Hgv. simpl. lia.
Qed.

(** The values the counter [d] holds under the key [k], over its groups. *)
Definition column (k : string) (d : DistributionCounter) : Counter := omap (λ i, i !! k) d.

Lemma column_values k (d : DistributionCounter) :
  zsum (omap (λ p, p.2 !! k) (map_to_list d)) = msum (column k d).
Proof.
  induction d as [|g i d Hg IH] using map_ind; [by rewrite map_to_list_empty|].
  rewrite (zsum_perm _ (omap (λ p, p.2 !! k) ((g, i) :: map_to_list d))).
  2:{ by rewrite map_to_list_insert. }
  unfold column. csimpl. destruct (i !! k) as [v|] eqn:Hi.
  - rewrite (omap_insert_Some _ _ _ _ v), msum_insert by (done || by rewrite lookup_omap, Hg).
    csimpl. by rewrite IH.
  - rewrite omap_insert_None, delete_id by (done || by rewrite lookup_omap, Hg). done.
Qed.

Lemma column_ok h d m k :
  dist_ok h d m → counter_ok (column k d) (filter (λ kv, or_unknown (h kv.2) = k) m).
Proof.
  intros Hd g. unfold column. rewrite lookup_omap. specialize (Hd g k). unfold dist_get in Hd.
  transitivity (canon (tally (λ r, mesh_of r = g ∧ or_unknown (h r) = k) m)); [exact Hd|].
  unfold tally. by rewrite map_filter_filter.
Qed.

Definition add_to (o : option Z) (v : Z) : option Z := Some (i64 (default 0 o + v)).

Lemma GetAll_inner (l : list (string * Z)) (result : gmap string Z) k :
  NoDup l.*1 →
  foldl (λ result q, <[q.1 := i64 (map_get result q.1 + q.2)]> result) result l !! k =
  match (list_to_map l : gmap string Z) !! k with
  | Some v => add_to (result !! k) v
  | None => result !! k
  end.
Proof.
  revert result. induction l as [|[j v] l IH]; intros result; simpl; [done|].
  intros [Hj Hl]%NoDup_cons. rewrite IH by done. destruct (decide (j = k)) as [<-|Hne].
  - rewrite (not_elem_of_list_to_map_1 (M := gmap string) l j) by done.
    by rewrite !lookup_insert_eq.
  - by rewrite !lookup_insert_ne by done.
Qed.

Lemma GetAll_outer (l : list (string * gmap string Z)) (result : gmap string Z) k :
  foldl (λ result p,
    foldl (λ result q, <[q.1 := i64 (map_get result q.1 + q.2)]> result) result (go_range p.2))
    result l !! k = foldl add_to (result !! k) (omap (λ p, p.2 !! k) l).
Proof.
  revert result. induction l as [|p l IH]; intros result; csimpl; [done|].
  rewrite IH, GetAll_inner by apply NoDup_go_range_fst. rewrite list_to_map_go_range.
  by destruct (p.2 !! k).
Qed.

Lemma foldl_add_to (l : list Z) acc :
  Forall (λ v, 0 < v) l → 0 <= acc → acc + zsum l <= i64_max →
  foldl add_to (Some acc) l = Some (acc + zsum l).
Proof.
  intros Hl. revert acc. induction Hl as [|v l Hv Hl IH]; intros acc; simpl; [by rewrite Z.add_0_r|].
  intros Ha Hb. assert (0 <= zsum l) by (clear -Hl; induction Hl; simpl; lia).
  unfold add_to at 2. simpl. rewrite i64_id by (unfold in_i64, i64_min, i64_max in *; lia).
  rewrite IH by lia. f_equal. lia.
Qed.

Lemma Dist_GetAll_ok h d m k :
  dist_ok h d m → fits m → Dist_GetAll d !! k = canon (tally (λ r, or_unknown (h r) = k) m).
Proof.
  intros Hd Hf. unfold Dist_GetAll. rewrite GetAll_outer, lookup_empty.
  set (vs := omap (λ p, p.2 !! k) (go_range d)).
  assert (Hsum : zsum vs = Z.of_nat (tally (λ r, or_unknown (h r) = k) m)).
  { unfold tally. rewrite <-(counter_ok_sum _ _ (column_ok h d m k Hd)), <-column_values.
    apply zsum_perm. unfold vs. by rewrite go_range_perm. }
  assert (Hpos : Forall (λ v, 0 < v) vs).
  { apply Forall_forall. intros v ([g i] & Hgi & Hi)%list_elem_of_omap.
    apply elem_of_go_range in Hgi. specialize (Hd g k). unfold dist_get in Hd.
    rewrite Hgi in Hd. simpl in *. rewrite Hi in Hd. symmetry in Hd.
    apply canon_Some in Hd. lia. }
  pose proof (fits_tally (λ r, or_unknown (h r) = k) m Hf) as Hb.
  unfold canon. destruct vs as [|v vs]; simpl in Hsum; [by rewrite decide_True by lia|].
  apply Forall_cons in Hpos as [Hv Hpos].
  assert (0 <= zsum vs) by (clear -Hpos; induction Hpos; simpl; lia).
  rewrite decide_False by lia. simpl. unfold add_to at 2. simpl.
  rewrite i64_id by (unfold in_i64, i64_min, i64_max in *; lia).
  rewrite foldl_add_to by (done || lia). f_equal. lia.
Qed.

(** C31: from counters that agree with a population of a kind (a fresh manager
    and no resources, say), handling the events that lead from that population
    to another one, in order, gives counters that agree with the new one: the
    count is its size, the count of a mesh its resources in that mesh, the
    distributions of a metric its resources per key, over all meshes or in
    one. No count ever wraps below 2^63 - 1 resources. *)
Theorem counters_track_population cm kind m es m' :
  kind_ok cm kind m → cm_isLeader cm ≠ Some false → population m →
  Z.of_nat (size m) + Z.of_nat (length es) < i64_max → counted_trace m es m' →
  let cm' := foldl (λ cm e, handleEvent cm kind e) cm es in
  (is_Some (cm_simpleCounters cm' !! kind) →
    Count cm' kind = Z.of_nat (size m') ∧
    ∀ mesh, CountByMesh cm' kind mesh = Z.of_nat (tally (λ r, mesh_of r = or_default mesh) m')) ∧
  ∀ cfg h, cfg ∈ default [] (cm_distributionConfigs cm' !! kind) → dcc_extractor cfg = Some h →
    ∀ key, Distribution cm' (dcc_counterType cfg) !! key =
        canon (tally (λ r, or_unknown (h r) = key) m') ∧
      ∀ mesh, DistributionByMesh cm' (dcc_counterType cfg) mesh !! key =
        canon (tally (λ r, mesh_of r = or_default mesh ∧ or_unknown (h r) = key) m').
Proof.
  intros Hok Hl Hm Hf Htr cm'.
  destruct (handleEvents_ok cm kind m es m' Hok Hl Hm Hf Htr) as [[Hs Ht Hd] Hf'].
  fold cm' in Hs, Ht, Hd. split.
  - intros [c Hc]. unfold Count, CountByMesh. rewrite Hc. split.
    + by apply Counter_Get_size; [apply Hs|].
    + intros mesh. unfold Counter_GetByGroup, map_get. rewrite or_default_idemp.
      by rewrite (Hs c Hc), canon_default.
  - intros cfg h Hcfg Hh key. destruct (Hd cfg Hcfg) as (h' & d & Hh' & Hdd & Hdok).
    simplify_eq. unfold Distribution, DistributionByMesh. rewrite Hdd. split.
    + by apply Dist_GetAll_ok.
    + intros mesh. unfold Dist_GetByGroup. rewrite or_default_idemp, <-Hdok. unfold dist_get.
      by destruct (d !! or_default mesh); simpl; rewrite ?lookup_empty.
Qed.
End sums.

(** *** Counters initialised from the stores *)

(** An instance the initialisation counts the way the events do: it has a
    spec, and its protocol, release and mesh are not empty. *)
Definition complete (r : Resource) : Prop :=
  match res_spec r with
  | InstanceSpec (Some spec) =>
      inst_Protocol spec ≠ "" ∧ inst_ReleaseVersion spec ≠ "" ∧ res_Mesh r ≠ ""
  | InstanceSpec None => False
  | _ => True
  end.

Definition standard (cm : counterManager) : Prop :=
  cm_distributionConfigs cm = cm_distributionConfigs newCounterManager.

Definition k_inst : string := kind_string InstanceKind.

Lemma kind_string_ne kind : kind ≠ InstanceKind → kind_string kind ≠ k_inst.
Proof. intros Hne Heq. apply Hne. by apply (inj kind_string). Qed.

Definition std_configs : list distributionCounterConfig :=
  [ {| dcc_counterType := "protocol"; dcc_extractor := Some instanceProtocolKey |};
    {| dcc_counterType := "release"; dcc_extractor := Some instanceReleaseKey |};
    {| dcc_counterType := "discovery"; dcc_extractor := Some instanceMeshKey |} ].

Lemma standard_inst cm :
  standard cm → default [] (cm_distributionConfigs cm !! k_inst) = std_configs.
Proof. intros ->. reflexivity. Qed.

Lemma standard_other cm kind :
  standard cm → kind ≠ k_inst → default [] (cm_distributionConfigs cm !! kind) = [].
Proof.
  intros -> Hne. change (cm_distributionConfigs newCounterManager) with
    (<[k_inst := std_configs]> (<[k_inst := take 2 std_configs]> (<[k_inst := take 1 std_configs]>
      (∅ : gmap string (list distributionCounterConfig))))).
  by rewrite !lookup_insert_ne, lookup_empty by done.
Qed.

(** [bump] of [count_resource]. *)
Definition bump_metric (cm : counterManager) (mesh metric key : string) : counterManager :=
  with_dist cm (alter (λ c, Dist_Increment c mesh key) metric (cm_distributionByType cm)).

(** What [count_resource] does to an instance under the standard metrics. *)
Lemma count_resource_inst cm r spec :
  standard cm → res_spec r = InstanceSpec (Some spec) → complete r →
  count_resource InstanceKind cm r =
  let mesh := mesh_of r in
  let cm := match cm_simpleCounters cm !! k_inst with
            | Some c => with_simple cm (<[k_inst := Counter_Increment c mesh]> (cm_simpleCounters cm))
            | None => cm
            end in
  bump_metric (bump_metric (bump_metric cm mesh "protocol" (inst_Protocol spec))
    mesh "release" (inst_ReleaseVersion spec)) mesh "discovery" mesh.
Proof.
  intros Hstd Hr Hc. unfold complete in Hc. rewrite Hr in Hc. destruct Hc as (Hp & Hrel & Hm).
  unfold count_resource. rewrite Hr. cbv zeta. rewrite decide_True by done.
  rewrite (decide_False (P := inst_Protocol spec = "")) by done.
  rewrite (decide_False (P := inst_ReleaseVersion spec = "")) by done. fold k_inst.
  set (cm1 := match cm_simpleCounters cm !! k_inst with Some c => _ | None => _ end).
  assert (Hcf : ∀ x metric, cm_distributionConfigs x = cm_distributionConfigs cm →
    metric ∈ ["protocol"; "release"; "discovery"] →
    is_Some (getDistributionConfig x k_inst metric)).
  { intros x metric Hx Hmt. unfold getDistributionConfig. rewrite Hx, standard_inst by done.
    by repeat (apply elem_of_cons in Hmt as [->|Hmt]; [eexists; reflexivity|]);
      apply elem_of_nil in Hmt. }
  assert (H1 : cm_distributionConfigs cm1 = cm_distributionConfigs cm).
  { unfold cm1. by destruct (cm_simpleCounters cm !! k_inst). }
  destruct (Hcf cm1 "protocol" H1) as [? ->]; [set_solver|].
  match goal with |- context [getDistributionConfig ?x k_inst "release"] =>
    destruct (Hcf x "release") as [? ->]; [exact H1|set_solver|] end.
  match goal with |- context [getDistributionConfig ?x k_inst "discovery"] =>
    destruct (Hcf x "discovery") as [? ->]; [exact H1|set_solver|] end. done.
Qed.

Lemma count_resource_other kind cm r :
  kind ≠ InstanceKind →
  count_resource kind cm r =
  match cm_simpleCounters cm !! kind_string kind with
  | Some c => with_simple cm (<[kind_string kind := Counter_Increment c (mesh_of r)]>
                                (cm_simpleCounters cm))
  | None => cm
  end.
Proof. intros Hne. unfold count_resource. by rewrite decide_False by done. Qed.

Lemma simple_step_ok cm kind m r :
  (∀ c, cm_simpleCounters cm !! kind = Some c → counter_ok c m) →
  m !! ResourceKey r = None → fits m →
  let cm' := match cm_simpleCounters cm !! kind with
             | Some c => with_simple cm (<[kind := Counter_Increment c (mesh_of r)]>
                                           (cm_simpleCounters cm))
             | None => cm
             end in
  (∀ c, cm_simpleCounters cm' !! kind = Some c → counter_ok c (<[ResourceKey r := r]> m)) ∧
  (∀ k, k ≠ kind → cm_simpleCounters cm' !! k = cm_simpleCounters cm !! k) ∧
  cm_distributionConfigs cm' = cm_distributionConfigs cm ∧
  cm_distributionByType cm' = cm_distributionByType cm ∧ cm_isLeader cm' = cm_isLeader cm.
Proof.
  intros Hs Hr Hf. destruct (cm_simpleCounters cm !! kind) as [c|] eqn:E; simpl.
  - split_and!; try done.
    + intros c'. rewrite lookup_insert_eq. intros [= <-]. apply Counter_Increment_ok; auto.
    + intros k Hne. by rewrite lookup_insert_ne.
  - split_and!; try done. intros c. congruence.
Qed.

Lemma count_resource_ok kind cm m r :
  standard cm → kind_ok cm (kind_string kind) m → res_kind r = kind → complete r →
  m !! ResourceKey r = None → fits m →
  let cm' := count_resource kind cm r in
  standard cm' ∧ kind_ok cm' (kind_string kind) (<[ResourceKey r := r]> m) ∧
  cm_isLeader cm' = cm_isLeader cm ∧
  (∀ k, k ≠ kind_string kind → cm_simpleCounters cm' !! k = cm_simpleCounters cm !! k) ∧
  (kind ≠ InstanceKind → cm_distributionByType cm' = cm_distributionByType cm).
Proof.
  intros Hstd [Hs Ht Hd] Hk Hc Hr Hf.
  destruct (simple_step_ok cm (kind_string kind) m r Hs Hr Hf) as (Hs1 & Hoth & Hcf & Hby & Hl).
  destruct (decide (kind = InstanceKind)) as [->|Hne].
  - destruct (res_spec r) as [| |[spec|]| | | | | | | | | | | | | |] eqn:Hsp; try discriminate;
      unfold res_kind in Hk; rewrite Hsp in Hk; try discriminate Hk.
    2:{ unfold complete in Hc. by rewrite Hsp in Hc. }
    cbv zeta. rewrite (count_resource_inst cm r spec) by done. fold k_inst in *. cbv zeta.
    set (cm1 := match cm_simpleCounters cm !! k_inst with Some c => _ | None => _ end) in *.
    unfold bump_metric. simpl.
    split_and!; [exact (eq_trans Hcf Hstd)| |exact Hl|exact Hoth|intros []; reflexivity].
    split; simpl; [exact Hs1|by rewrite Hcf|]. rewrite Hcf, Hby. intros cfg Hcfg.
    destruct (Hd cfg Hcfg) as (h & d & Hh & Hdd & Hok). exists h.
    unfold complete in Hc. rewrite Hsp in Hc. destruct Hc as (Hp & Hrel & Hm).
    rewrite standard_inst in Hcfg by done.
    repeat (apply elem_of_cons in Hcfg as [->|Hcfg]); [| | |by apply elem_of_nil in Hcfg];
      simpl in *; injection Hh as <-; eexists; (split; [done|]);
      repeat first [rewrite lookup_alter_eq | rewrite lookup_alter_ne by done];
      rewrite Hdd; simpl; (split; [done|]).
    + replace (inst_Protocol spec) with (or_unknown (instanceProtocolKey r));
        [by apply Dist_Increment_ok|].
      unfold instanceProtocolKey, or_unknown. rewrite Hsp. by case_decide.
    + replace (inst_ReleaseVersion spec) with (or_unknown (instanceReleaseKey r));
        [by apply Dist_Increment_ok|].
      unfold instanceReleaseKey, or_unknown. rewrite Hsp. by case_decide.
    + replace (Dist_Increment d (mesh_of r) (mesh_of r)) with
        (Dist_Increment d (mesh_of r) (or_unknown (instanceMeshKey r)));
        [by apply Dist_Increment_ok|].
      unfold instanceMeshKey, mesh_of, or_unknown, or_default. rewrite Hsp. by case_decide.
  - cbv zeta. rewrite count_resource_other by done.
    set (cm1 := match cm_simpleCounters cm !! kind_string kind with Some c => _ | None => _ end) in *.
    split_and!; [unfold standard; by rewrite Hcf| |done|done|done].
    assert (Hnone : default [] (cm_distributionConfigs cm !! kind_string kind) = []).
    { by apply standard_other, kind_string_ne. }
    split; [done|by rewrite Hcf|]. rewrite Hcf, Hnone. by intros ? ?%elem_of_nil.
Qed.

(** The loop over the resources of a store. *)
Lemma count_resources_ok kind rs cm m :
  standard cm → kind_ok cm (kind_string kind) m →
  Forall (λ r, res_kind r = kind ∧ complete r) rs →
  NoDup (ResourceKey <$> rs) → (∀ r, r ∈ rs → m !! ResourceKey r = None) →
  Z.of_nat (size m + length rs) < i64_max →
  let cm' := foldl (count_resource kind) cm rs in
  standard cm' ∧
  kind_ok cm' (kind_string kind) (foldl (λ m r, <[ResourceKey r := r]> m) m rs) ∧
  cm_isLeader cm' = cm_isLeader cm ∧
  (∀ k, k ≠ kind_string kind → cm_simpleCounters cm' !! k = cm_simpleCounters cm !! k) ∧
  (kind ≠ InstanceKind → cm_distributionByType cm' = cm_distributionByType cm).
Proof.
  intros Hstd Hok Hrs. revert cm m Hstd Hok.
  induction Hrs as [|r rs [Hk Hc] Hrs IH]; intros cm m Hstd Hok Hnd Hfresh Hf; cbn [foldl].
  { split_and!; auto. }
  rewrite fmap_cons in Hnd. apply NoDup_cons in Hnd as [Hr Hnd]. simpl in Hf.
  destruct (count_resource_ok kind cm m r) as (Hs1 & Hok1 & Hl1 & Ho1 & Hd1);
    [done..|apply Hfresh; left|unfold fits; lia|].
  assert (Hm : m !! ResourceKey r = None) by (apply Hfresh; left).
  destruct (IH _ _ Hs1 Hok1 Hnd) as (Hs2 & Hok2 & Hl2 & Ho2 & Hd2).
  - intros r' Hr'. rewrite lookup_insert_ne; [apply Hfresh; by right|].
    intros Heq. apply Hr. rewrite Heq. by apply list_elem_of_fmap_2.
  - rewrite map_size_insert_None by done. lia.
  - cbv zeta. split_and!; [done|done|congruence| |].
    + intros k Hne. by rewrite Ho2, Ho1.
    + intros Hne. by rewrite Hd2, Hd1.
Qed.

Lemma foldl_insert_items (m : gmap string Resource) rs :
  rs ≡ₚ (map_to_list m).*2 → map_Forall (λ k r, ResourceKey r = k) m →
  NoDup (ResourceKey <$> rs) ∧ foldl (λ m r, <[ResourceKey r := r]> m) ∅ rs = m ∧
  length rs = size m.
Proof.
  intros Hp Hk.
  assert (Hkeys : ResourceKey <$> (map_to_list m).*2 = (map_to_list m).*1).
  { rewrite <-list_fmap_compose. apply list_fmap_ext. intros i [k r] Hi. simpl.
    apply Hk, elem_of_map_to_list. by eapply list_elem_of_lookup_2. }
  assert (Hnd : NoDup (ResourceKey <$> rs)).
  { rewrite Hp, Hkeys. apply NoDup_fst_map_to_list. }
  split; [done|]. split.
  - apply map_eq. intros k. apply option_eq. intros r.
    replace (foldl (λ m r, <[ResourceKey r := r]> m) ∅ rs) with
      (foldl (λ (m : gmap string Resource) p, <[p.1 := p.2]> m) ∅ (zip (ResourceKey <$> rs) rs)).
    2:{ generalize (∅ : gmap string Resource). clear. induction rs as [|r rs IH]; intros m; [done|].
        csimpl. apply IH. }
    assert (Hz : (zip (ResourceKey <$> rs) rs).*1 = ResourceKey <$> rs).
    { apply fst_zip. by rewrite length_fmap. }
    rewrite foldl_insert_lookup by by rewrite Hz.
    assert (Hzin : (k, r) ∈ zip (ResourceKey <$> rs) rs ↔ r ∈ rs ∧ ResourceKey r = k).
    { clear. induction rs as [|x rs IH]; csimpl; [set_solver|]. rewrite !elem_of_cons. naive_solver. }
    assert (Hrin : r ∈ rs ↔ r ∈ (map_to_list m).*2) by by rewrite Hp.
    rewrite Hzin, lookup_empty, Hrin, list_elem_of_fmap. split.
    + intros [[([k' r'] & -> & Hin%elem_of_map_to_list) <-]|[_ ?]]; [|done].
      simpl. by rewrite (Hk _ _ Hin).
    + intros Hin. left. split; [|by apply Hk]. exists (k, r). by rewrite elem_of_map_to_list.
  - by rewrite Hp, length_fmap, length_map_to_list.
Qed.

Section init_laws.
Context {S : Type} `{ResourceStoreLaws S}.
Context (Route : ResourceKind → result error S).

Lemma initializeResourceCount_ok cm kind st :
  standard cm → kind_ok cm (kind_string kind) ∅ → Route kind = Ok st → st_ok st →
  st_kind st = kind → map_Forall (λ _ r, complete r) (st_items st) → fits (st_items st) →
  ∃ cm', initializeResourceCount Route cm kind = (cm', None) ∧ standard cm' ∧
    kind_ok cm' (kind_string kind) (st_items st) ∧ cm_isLeader cm' = cm_isLeader cm ∧
    (∀ k, k ≠ kind_string kind → cm_simpleCounters cm' !! k = cm_simpleCounters cm !! k) ∧
    (kind ≠ InstanceKind → cm_distributionByType cm' = cm_distributionByType cm).
Proof.
  intros Hstd Hok Hroute Hst Hk Hc Hf. unfold initializeResourceCount. rewrite Hroute.
  destruct (Permutation_map_inv _ _ (st_List_spec st Hst)) as (rs & Hrs & Hp).
  unfold fmap in Hrs. change (map ResourceObj rs) with (ResourceObj <$> rs) in Hrs.
  destruct (foldl_insert_items (st_items st) rs) as (Hnd & Hm & Hlen); [by symmetry| |].
  { intros k r Hr. by destruct (st_items_key st k r Hst Hr). }
  exists (foldl (count_resource kind) cm rs). split.
  { f_equal. rewrite Hrs. clear. revert cm. induction rs as [|r rs IH]; intros cm; [done|]. csimpl. apply IH. }
  rewrite <-Hm at 1. apply count_resources_ok; try done.
  - apply Forall_forall. intros r Hr. rewrite <-Hp, list_elem_of_fmap in Hr.
    destruct Hr as ([k r'] & -> & Hin%elem_of_map_to_list). simpl.
    split; [|by eapply Hc]. rewrite <-Hk. by eapply st_items_key.
  - rewrite map_size_empty, Hlen. by unfold fits in Hf.
Qed.
End init_laws.

Lemma Reset_ok cm kind m : kind_ok cm kind m → kind_ok (Reset cm) kind ∅.
Proof.
  intros [Hs Ht Hd]. split; simpl; [|done|].
  - intros c. rewrite lookup_fmap. intros (c' & _ & ->)%fmap_Some. apply counter_ok_empty.
  - intros cfg Hcfg. destruct (Hd cfg Hcfg) as (h & d & Hh & Hdd & _).
    exists h, ∅. rewrite lookup_fmap, Hdd. split_and!; [done|done|apply dist_ok_empty].
Qed.

Lemma new_kind_ok kind : kind_ok newCounterManager (kind_string kind) ∅.
Proof.
  split.
  - intros c Hc. assert (c = ∅) as ->; [|apply counter_ok_empty].
    destruct kind; vm_compute in Hc; first [discriminate Hc | by injection Hc as <-].
  - destruct (decide (kind = InstanceKind)) as [->|Hne].
    + vm_compute. repeat (apply NoDup_cons_2; [set_solver|]). constructor.
    + rewrite standard_other; [constructor|done|by apply kind_string_ne].
  - destruct (decide (kind = InstanceKind)) as [->|Hne].
    + fold k_inst. rewrite standard_inst by done. intros cfg Hcfg.
      repeat (apply elem_of_cons in Hcfg as [->|Hcfg]); [| | |by apply elem_of_nil in Hcfg];
        eexists _, ∅; (split_and!; [reflexivity|reflexivity|apply dist_ok_empty]).
    + rewrite standard_other; [by intros ? ?%elem_of_nil|done|by apply kind_string_ne].
Qed.

Lemma kind_ok_frame cm cm' kind m :
  standard cm → standard cm' → kind ≠ k_inst ∨ cm_distributionByType cm' = cm_distributionByType cm →
  cm_simpleCounters cm' !! kind = cm_simpleCounters cm !! kind →
  kind_ok cm kind m → kind_ok cm' kind m.
Proof.
  intros Hs Hs' Hby Hsim [H1 H2 H3]. split; rewrite ?Hsim, ?Hs'; rewrite ?Hs in H2, H3; [done..|].
  intros cfg Hcfg. destruct Hby as [Hne| ->]; [|by apply H3].
  rewrite (standard_other newCounterManager kind eq_refl Hne) in Hcfg. by apply elem_of_nil in Hcfg.
Qed.

Section init_properties.
Context {S : Type} `{ResourceStoreLaws S}.
Context (Route : ResourceKind → result error S) (st : ResourceKind → S).

Definition counted_kinds : list ResourceKind :=
  [InstanceKind; ApplicationKind; ServiceProviderMetadataKind].

(** Initialising from the stores after a reset succeeds and gives counters
    that agree with the stored instances, applications and providers, provided
    every instance has a spec, a mesh, a protocol and a release version: from
    there on the events keep them exact. *)
Theorem initialized_counters_agree cm m0 :
  standard cm → (∀ kind, kind ∈ counted_kinds → kind_ok cm (kind_string kind) (m0 kind)) →
  (∀ kind, kind ∈ counted_kinds → Route kind = Ok (st kind) ∧ st_ok (st kind) ∧
    st_kind (st kind) = kind ∧ map_Forall (λ _ r, complete r) (st_items (st kind)) ∧
    fits (st_items (st kind))) →
  ∃ cm', initializeCountsFromStore Route (Reset cm) = (cm', None) ∧
    ∀ kind, kind ∈ counted_kinds → kind_ok cm' (kind_string kind) (st_items (st kind)).
Proof.
  intros Hstd Hok Hst.
  assert (Hr : ∀ kind, kind ∈ counted_kinds → kind_ok (Reset cm) (kind_string kind) ∅).
  { intros kind Hk. by eapply Reset_ok, Hok. }
  assert (HI : InstanceKind ∈ counted_kinds) by set_solver.
  assert (HA : ApplicationKind ∈ counted_kinds) by set_solver.
  assert (HP : ServiceProviderMetadataKind ∈ counted_kinds) by set_solver.
  destruct (Hst _ HI) as (R1 & O1 & K1 & C1 & F1). destruct (Hst _ HA) as (R2 & O2 & K2 & C2 & F2).
  destruct (Hst _ HP) as (R3 & O3 & K3 & C3 & F3).
  destruct (initializeResourceCount_ok Route (Reset cm) InstanceKind (st InstanceKind))
    as (cm1 & E1 & S1 & Ok1 & L1 & O1' & _); [done|by apply Hr|done..|].
  destruct (initializeResourceCount_ok Route cm1 ApplicationKind (st ApplicationKind))
    as (cm2 & E2 & S2 & Ok2 & L2 & O2' & D2); [done| |done..|].
  { apply (kind_ok_frame (Reset cm)); [done|done|by left|by apply O1'|by apply Hr]. }
  destruct (initializeResourceCount_ok Route cm2 ServiceProviderMetadataKind
    (st ServiceProviderMetadataKind)) as (cm3 & E3 & S3 & Ok3 & L3 & O3' & D3); [done| |done..|].
  { apply (kind_ok_frame cm1); [done|done|by left|by apply O2'|].
    apply (kind_ok_frame (Reset cm)); [done|done|by left|by apply O1'|by apply Hr]. }
  exists cm3. unfold initializeCountsFromStore. cbn [initialize_kinds]. rewrite E1, E2, E3.
  split; [done|]. intros kind Hk. unfold counted_kinds in Hk.
  repeat (apply elem_of_cons in Hk as [->|Hk]); [| |done|by apply elem_of_nil in Hk].
  - apply (kind_ok_frame cm2); [done|done|right; by apply D3|by apply O3'|].
    apply (kind_ok_frame cm1); [done|done|right; by apply D2|by apply O2'|done].
  - apply (kind_ok_frame cm2); [done|done|by left|by apply O3'|done].
Qed.

Definition no_unknown (cm : counterManager) : Prop :=
  ∀ d g, cm_distributionByType cm !! "protocol" = Some d → dist_get d g "unknown" = None.

Lemma bump_no_unknown cm mesh metric key :
  no_unknown cm → (metric = "protocol" → or_unknown key ≠ "unknown") →
  no_unknown (bump_metric cm mesh metric key).
Proof.
  intros Hn Hk d g. unfold bump_metric. simpl.
  destruct (decide (metric = "protocol")) as [->|Hne].
  - rewrite lookup_alter_eq. intros (d' & Hd' & ->)%fmap_Some.
    rewrite Dist_Increment_get, decide_False by naive_solver. by apply Hn.
  - rewrite lookup_alter_ne by done. apply Hn.
Qed.

Lemma count_resource_no_unknown cm r :
  no_unknown cm → instanceProtocolKey r ≠ "unknown" → no_unknown (count_resource InstanceKind cm r).
Proof.
  intros Hn Hr. unfold count_resource. cbv zeta. rewrite decide_True by done. fold k_inst.
  set (cm1 := match cm_simpleCounters cm !! k_inst with Some c => _ | None => _ end).
  assert (H1 : no_unknown cm1) by (unfold cm1; by destruct (cm_simpleCounters cm !! k_inst)).
  unfold instanceProtocolKey in Hr. destruct (res_spec r) as [| |[spec|]| | | | | | | | | | | | | |]; try done.
  set (cm2 := if decide (inst_Protocol spec = "") then cm1 else _).
  assert (H2 : no_unknown cm2).
  { unfold cm2. case_decide as Hp; [done|]. destruct (getDistributionConfig cm1 _ _); [|done].
    apply bump_no_unknown; [done|]. intros _. unfold or_unknown. by rewrite decide_False. }
  set (cm3 := if decide (inst_ReleaseVersion spec = "") then cm2 else _).
  assert (H3 : no_unknown cm3).
  { unfold cm3. case_decide; [done|]. destruct (getDistributionConfig cm2 _ _); [|done].
    by apply bump_no_unknown. }
  destruct (getDistributionConfig cm3 _ _); [|done]. by apply bump_no_unknown.
Qed.

(** After an initialisation the protocol distribution of a mesh has no
    "unknown" entry, however many instances without a protocol or a spec are
    stored (none being called "unknown"); the events count such instances
    under "unknown", so a restart or a change of leader loses them. *)
Theorem initialization_drops_unknown cm mesh :
  Route InstanceKind = Ok (st InstanceKind) → st_ok (st InstanceKind) →
  map_Forall (λ _ r, instanceProtocolKey r ≠ "unknown") (st_items (st InstanceKind)) →
  DistributionByMesh (initializeResourceCount Route (Reset cm) InstanceKind).1 "protocol" mesh
    !! "unknown" = None.
Proof.
  intros Hr Hok Hall. unfold initializeResourceCount. rewrite Hr. simpl.
  set (f := λ (cm : counterManager) (o : obj), match o with ResourceObj r => _ | OtherObj _ => cm end).
  assert (Hn : no_unknown (foldl f (Reset cm) (st_List (st InstanceKind)))).
  { assert (Hl : Forall (λ o, ∀ r, o = ResourceObj r → instanceProtocolKey r ≠ "unknown")
      (st_List (st InstanceKind))).
    { rewrite st_List_spec by done. apply Forall_fmap, Forall_forall. intros r Hin r' [= <-].
      apply list_elem_of_fmap in Hin as ([k x] & -> & Hk%elem_of_map_to_list). by eapply Hall. }
    assert (Hreset : no_unknown (Reset cm)).
    { intros d g. simpl. rewrite lookup_fmap. intros (? & _ & ->)%fmap_Some.
      unfold dist_get. by rewrite lookup_empty. }
    revert Hreset. generalize (Reset cm). induction Hl as [|o l Ho Hl IH]; intros c Hc; [done|].
    cbn [foldl]. apply IH. destruct o as [r|]; [|done].
    apply count_resource_no_unknown; [done|by apply Ho]. }
  unfold DistributionByMesh. destruct (_ !! "protocol") as [d|] eqn:Hd; [|by rewrite lookup_empty].
  specialize (Hn d (or_default mesh) Hd). unfold Dist_GetByGroup. rewrite or_default_idemp.
  unfold dist_get in Hn. by destruct (d !! or_default mesh); simpl in *; rewrite ?lookup_empty.
Qed.
End init_properties.

(** ** Two instances come, one changes its protocol, one goes *)
Module CounterExample.
Import Ref.
#[local] Existing Instance default_range.

Definition instance (name protocol : string) : Resource :=
  {| res_meta := {| meta_Name := name; meta_Labels := None; meta_Annotations := None |};
     res_Mesh := "m";
     res_spec := InstanceSpec (Some {|
       inst_Name := name; inst_AppName := "shop"; inst_Ip := ""; inst_RpcPort := 0;
       inst_QosPort := 0; inst_ReleaseVersion := "3"; inst_RegisterTime := "";
       inst_UnregisterTime := ""; inst_Protocol := protocol; inst_Serialization := "";
       inst_PreferSerialization := ""; inst_Tags := ∅; inst_Image := ""; inst_CreateTime := "";
       inst_StartTime := ""; inst_ReadyTime := ""; inst_DeployState := "";
       inst_WorkloadType := ""; inst_WorkloadName := ""; inst_Node := "";
       inst_SourceEngine := ""; inst_Probes := []; inst_Conditions := [] |}) |}.

Definition i1 := instance "i1" "dubbo".
Definition i2 := instance "i2" "".
Definition i2' := instance "i2" "tri".
Definition es : list Event :=
  [ NewResourceChangedEvent Added None (Some i1); NewResourceChangedEvent Added None (Some i2);
    NewResourceChangedEvent Updated (Some i2) (Some i2');
    NewResourceChangedEvent Deleted (Some i1) None ].
Definition m' : gmap string Resource :=
  delete (ResourceKey i1) (<[ResourceKey i2' := i2']> (<[ResourceKey i2 := i2]>
    (<[ResourceKey i1 := i1]> ∅))).

Lemma es_trace : counted_trace ∅ es m'.
Proof.
  repeat (eapply counted_cons; [split; [first [by apply ev_Added | by apply ev_Updated
    | by apply ev_Deleted; eexists]|split; [intros r Hr; by simplify_eq|intros r Hr; by simplify_eq/=]]|]).
  constructor.
Qed.

Lemma counters_track_population_witness :
  let cm := foldl (λ cm e, handleEvent cm k_inst e) newCounterManager es in
  CountByMesh cm k_inst "m" = 1 ∧
  DistributionByMesh cm "protocol" "m" !! "tri" = Some 1 ∧
  DistributionByMesh cm "protocol" "m" !! "unknown" = None ∧
  Count cm k_inst = Z.of_nat (size m').
Proof.
  split; [reflexivity|]. split; [reflexivity|]. split; [reflexivity|].
  destruct (counters_track_population newCounterManager k_inst ∅ es m'
    (new_kind_ok InstanceKind) ltac:(discriminate) ltac:(apply map_Forall_empty)
    ltac:(reflexivity) es_trace) as [Hc _].
  exact (proj1 (Hc (ex_intro _ _ eq_refl))).
Defined.

(** The stores: the instances hold [r], the others are empty. *)
Definition st (r : Resource) (kind : ResourceKind) : resourceStore Ref.indexer (gset string) :=
  if decide (kind = InstanceKind) then (MemoryStore.Add (MemoryStore.Init InstanceKind ∅) (ResourceObj r)).1
  else MemoryStore.Init kind ∅.

Lemma st_good r kind :
  res_kind r = InstanceKind →
  st_ok (st r kind) ∧ st_kind (st r kind) = kind ∧
  st_items (st r kind) = (if decide (kind = InstanceKind) then {[ResourceKey r := r]} else ∅).
Proof.
  intros Hr.
  assert (Hi : ∀ k, mem_ok (MemoryStore.Init k ∅ : resourceStore Ref.indexer (gset string))).
  { intros k. eapply sy_ok, (Init_sync (λ _, True)), idx_safe_empty. }
  unfold st. case_decide as Hk; [subst kind|split_and!; [apply Hi|done|done]].
  destruct (Add_spec (MemoryStore.Init InstanceKind ∅) r (Hi _) Hr) as (p & Hp & ? & ? & ?).
  rewrite Hp. destruct (mem_ok_insert (MemoryStore.Init InstanceKind ∅)
    (addToTrees (with_proxy (MemoryStore.Init InstanceKind ∅) p) r) r) as [Hok Hit]; [apply Hi|done..|].
  split_and!; [exact Hok|done|]. etrans; [exact Hit|done].
Qed.

Lemma initialized_counters_agree_witness :
  ∃ cm', initializeCountsFromStore (λ k, Ok (st i1 k)) (Reset newCounterManager) = (cm', None) ∧
    kind_ok cm' k_inst (st_items (st i1 InstanceKind)).
Proof.
  destruct (initialized_counters_agree (λ k, Ok (st i1 k)) (st i1) newCounterManager (λ _, ∅)
    eq_refl (λ kind _, new_kind_ok kind)) as (cm' & Hcm & Hok).
  - intros kind _. destruct (st_good i1 kind eq_refl) as (H1 & H2 & H3).
    split_and!; [reflexivity|exact H1|exact H2| |].
    + rewrite H3. case_decide; [|apply map_Forall_empty]. apply map_Forall_singleton. repeat split; discriminate.
    + rewrite H3. unfold fits. case_decide; vm_compute; reflexivity.
  - exists cm'. split; [exact Hcm|]. apply Hok. left.
Defined.

(** The stored instance has no protocol, and is not counted. *)
Lemma initialization_drops_unknown_witness :
  let cm := (initializeResourceCount (λ k, Ok (st i2 k)) (Reset newCounterManager) InstanceKind).1 in
  DistributionByMesh cm "protocol" "m" !! "unknown" = None ∧
  DistributionByMesh (handleEvent newCounterManager k_inst
    (NewResourceChangedEvent Added None (Some i2))) "protocol" "m" !! "unknown" = Some 1.
Proof.
  split; [|vm_compute; reflexivity]. destruct (st_good i2 InstanceKind eq_refl) as (H1 & _ & H3).
  apply (initialization_drops_unknown (λ k, Ok (st i2 k)) (st i2) newCounterManager "m" eq_refl H1).
  rewrite H3. apply map_Forall_singleton. discriminate.
Defined.
End CounterExample.
