(* ===== verification/Versioning.v ===== *)
(** pkg/core/versioning: the history of traffic rules. types.go,
    resource_store_convert.go, resource_store_version.go (the adapter over a
    [ResourceStore] of RuleVersion resources), bootstrap.go and service.go. *)
From S2P Require Import Prelude GoStrings Errors Resource Libs Indexers Store.
From Stdlib Require Import Ascii.

Open Scope string_scope.
Open Scope list_scope.
Open Scope Z_scope.

(** ** types.go

    [Source] and [Operation] are strings; a [time.Time] is its nanoseconds
    since the zero time. *)
Definition SourceAdmin : string := "ADMIN".
Definition SourceUpstream : string := "UPSTREAM".
Definition SourceBootstrap : string := "BOOTSTRAP".
Definition SourceRollback : string := "ROLLBACK".
Definition OperationCreate : string := "CREATE".
Definition OperationUpdate : string := "UPDATE".
Definition OperationDelete : string := "DELETE".

Definition ErrVersionNotFound : error := ErrorText "rule version not found".
Definition ErrVersionStoreError : error := ErrorText "rule version store error".
Definition ErrRollbackToDelete : error := ErrorText "cannot roll back to a DELETE marker".
Definition ErrRollbackToCurrent : error :=
  ErrorText "cannot roll back to a version identical to current".

Record Version := {
  ver_RuleKind : string; ver_Mesh : string; ver_ResourceKey : string; ver_RuleName : string;
  ver_VersionNo : Z; ver_ContentHash : string; ver_SpecJSON : string; ver_Source : string;
  ver_Operation : string; ver_Author : string; ver_Reason : string;
  ver_RolledBackFromVersionNo : option Z; ver_CreatedAt : Z; ver_RecordedAt : Z;
  ver_IsLatestRecorded : bool }.

Definition with_latest (v : Version) (b : bool) : Version :=
  {| ver_RuleKind := ver_RuleKind v; ver_Mesh := ver_Mesh v; ver_ResourceKey := ver_ResourceKey v;
     ver_RuleName := ver_RuleName v; ver_VersionNo := ver_VersionNo v;
     ver_ContentHash := ver_ContentHash v; ver_SpecJSON := ver_SpecJSON v;
     ver_Source := ver_Source v; ver_Operation := ver_Operation v; ver_Author := ver_Author v;
     ver_Reason := ver_Reason v; ver_RolledBackFromVersionNo := ver_RolledBackFromVersionNo v;
     ver_CreatedAt := ver_CreatedAt v; ver_RecordedAt := ver_RecordedAt v;
     ver_IsLatestRecorded := b |}.

Record historyState := {
  hs_Versions : list Version;
  hs_Latest : option Version;
  hs_MaxVersionNo : Z }.

Record HistorySnapshot := {
  sn_Versions : list Version;
  sn_Head : option Version;
  sn_Deleted : bool }.

Record InsertRequest := {
  req_RuleKind : ResourceKind; req_Mesh : string; req_ResourceKey : string;
  req_RuleName : string; req_SpecJSON : string; req_ContentHash : string;
  req_Source : string; req_Operation : string; req_Author : string; req_Reason : string;
  req_RolledBackFromVersionNo : option Z; req_CreatedAt : Z }.

Record ListResult := {
  lr_Items : list Version; lr_Total : Z;
  lr_LatestRecordedVersionNo : Z; lr_LatestRecordedDeleted : bool }.

Record DiffSide := { ds_VersionNo : Z; ds_SpecJSON : string }.
Record DiffResult := { dr_Left : DiffSide; dr_Right : DiffSide }.

(** ** resource_store_convert.go *)
Definition extractMesh (resourceKey : string) : string := (ParseResourceKey resourceKey).1.
Definition extractName (resourceKey : string) : string := (ParseResourceKey resourceKey).2.

Definition buildVersionResourceKey (kind : ResourceKind) (parentResourceKey : string)
    (versionNo : Z) : string :=
  BuildResourceKey (extractMesh parentResourceKey)
    (kind_string kind +:+ "-" +:+ extractName parentResourceKey +:+ "-version-" +:+ pretty versionNo).

Definition buildParentIndexKey (kind : ResourceKind) (resourceKey : string) : string :=
  kind_string kind +:+ "/" +:+ extractMesh resourceKey +:+ "/" +:+ extractName resourceKey.

Definition timestampAsTime (ts : option Z) : Z := default 0 ts.

Definition version_of_spec (spec : RuleVersion) : Version :=
  let createdAt := timestampAsTime (rv_CreatedAt spec) in
  let recordedAt := timestampAsTime (rv_RecordedAt spec) in
  {| ver_RuleKind := rv_ParentRuleKind spec; ver_Mesh := rv_ParentRuleMesh spec;
     ver_ResourceKey := BuildResourceKey (rv_ParentRuleMesh spec) (rv_ParentRuleName spec);
     ver_RuleName := rv_ParentRuleName spec; ver_VersionNo := rv_VersionNo spec;
     ver_ContentHash := rv_ContentHash spec; ver_SpecJSON := rv_SpecJson spec;
     ver_Source := rv_Source spec; ver_Operation := rv_Operation spec;
     ver_Author := rv_Author spec; ver_Reason := rv_Reason spec;
     ver_RolledBackFromVersionNo :=
       if decide (rv_RolledBackFromVersionNo spec = 0) then None
       else Some (rv_RolledBackFromVersionNo spec);
     ver_CreatedAt := createdAt;
     ver_RecordedAt := if decide (recordedAt = 0) then createdAt else recordedAt;
     ver_IsLatestRecorded := false |}.

Definition protoToVersion (spec : option RuleVersion) : result error Version :=
  match spec with
  | None => Err (biz_new InvalidArgument "RuleVersion spec is nil")
  | Some spec => Ok (version_of_spec spec)
  end.

Definition historySnapshotFromState (state : historyState) : HistorySnapshot :=
  match hs_Versions state with
  | [] => {| sn_Versions := []; sn_Head := None; sn_Deleted := false |}
  | head :: rest =>
      {| sn_Versions := with_latest head true :: rest; sn_Head := Some head;
         sn_Deleted := bool_decide (ver_Operation head = OperationDelete) |}
  end.

Definition duplicateVersionNoError (kind : ResourceKind) (resourceKey : string) (versionNo : Z)
    : error :=
  errorf_w "" ErrVersionStoreError
    (": duplicate version number for kind=" +:+ kind_string kind +:+ " mesh=" +:+
     extractMesh resourceKey +:+ " rule=" +:+ extractName resourceKey +:+ " versionNo=" +:+
     pretty versionNo).

(** ** resource_store_version.go *)

(** The dynamic type [%T] prints. *)
Definition type_of (o : obj) : string :=
  match o with
  | ResourceObj r => "*v1alpha1." +:+ kind_string (res_kind r) +:+ "Resource"
  | OtherObj n => n
  end.

Definition not_a_ruleVersion (o : obj) : error :=
  errorf_w "" ErrVersionStoreError (": expected RuleVersionResource, got " +:+ type_of o).

Definition versionResourceMatchesParent (spec : RuleVersion) (kind : ResourceKind)
    (resourceKey : string) : bool :=
  bool_decide (rv_ParentRuleKind spec = kind_string kind) &&
  bool_decide (rv_ParentRuleMesh spec = extractMesh resourceKey) &&
  bool_decide (rv_ParentRuleName spec = extractName resourceKey).

(** [None] is an object that is not included. *)
Definition versionFromObject (o : obj) (kind : ResourceKind) (resourceKey : string)
    (filterParent : bool) (specContext : string) : result error (option Version) :=
  match o with
  | ResourceObj r =>
      match as_ruleVersion (res_spec r) with
      | None => Err (not_a_ruleVersion o)
      | Some None =>
          let specContext := if decide (specContext = "") then ResourceKey r else specContext in
          Err (errorf_w "" ErrVersionStoreError (": RuleVersion spec is nil for " +:+ specContext))
      | Some (Some spec) =>
          if negb (bool_decide (rv_ParentRuleKind spec = kind_string kind)) then Ok None
          else if filterParent && negb (versionResourceMatchesParent spec kind resourceKey)
          then Ok None
          else v ← protoToVersion (Some spec); Ok (Some v)
      end
  | OtherObj _ => Err (not_a_ruleVersion o)
  end.

Fixpoint versionsFromIndexObjects (objs : list obj) (kind : ResourceKind) (resourceKey : string)
    (filterParent : bool) (specContext : string) : result error (list Version) :=
  match objs with
  | [] => Ok []
  | o :: objs =>
      v ← versionFromObject o kind resourceKey filterParent specContext;
      vs ← versionsFromIndexObjects objs kind resourceKey filterParent specContext;
      Ok (match v with Some v => v :: vs | None => vs end)
  end.

Definition versionsFromResources (objs : list Resource) (kind : ResourceKind) (resourceKey : string)
    (filterParent : bool) (specContext : string) : result error (list Version) :=
  versionsFromIndexObjects (ResourceObj <$> objs) kind resourceKey filterParent specContext.

(** The first version number that occurred before. *)
Fixpoint first_duplicate (seen : list Z) (versions : list Version) : option Z :=
  match versions with
  | [] => None
  | v :: versions =>
      if decide (ver_VersionNo v ∈ seen) then Some (ver_VersionNo v)
      else first_duplicate (ver_VersionNo v :: seen) versions
  end.

(** [sort.Slice] by decreasing version number. *)
Definition ver_ge (a b : Version) : Prop := ver_VersionNo b <= ver_VersionNo a.
#[export] Instance ver_ge_dec a b : Decision (ver_ge a b) := decide (_ <= _).
#[export] Instance ver_ge_total : Total ver_ge.
Proof. intros a b. unfold ver_ge. lia. Qed.
#[export] Instance ver_ge_trans : Transitive ver_ge.
Proof. intros a b c. unfold ver_ge. lia. Qed.

Definition sort_versions (versions : list Version) : list Version := merge_sort ver_ge versions.

Definition validateAndSortVersions (kind : ResourceKind) (resourceKey : string)
    (versions : list Version) : result error (list Version) :=
  match first_duplicate [] versions with
  | Some n => Err (duplicateVersionNoError kind resourceKey n)
  | None => Ok (sort_versions versions)
  end.

Definition newRuleVersionSpec (req : InsertRequest) (versionNo createdAt recordedAt : Z)
    : RuleVersion :=
  {| rv_ParentRuleKind := kind_string (req_RuleKind req);
     rv_ParentRuleMesh := extractMesh (req_ResourceKey req);
     rv_ParentRuleName := extractName (req_ResourceKey req);
     rv_VersionNo := versionNo; rv_ContentHash := req_ContentHash req;
     rv_SpecJson := req_SpecJSON req; rv_Operation := req_Operation req;
     rv_Source := req_Source req; rv_Author := req_Author req; rv_Reason := req_Reason req;
     rv_RolledBackFromVersionNo := default 0 (req_RolledBackFromVersionNo req);
     rv_CreatedAt := Some createdAt; rv_RecordedAt := Some recordedAt |}.

Definition newRuleVersionResource (req : InsertRequest) (versionNo createdAt recordedAt : Z)
    : Resource :=
  let name := (ParseResourceKey
    (buildVersionResourceKey (req_RuleKind req) (req_ResourceKey req) versionNo)).2 in
  {| res_meta := {| meta_Name := name; meta_Labels := None; meta_Annotations := None |};
     res_Mesh := extractMesh (req_ResourceKey req);
     res_spec := RuleVersionSpec (Some (newRuleVersionSpec req versionNo createdAt recordedAt)) |}.

(** The points at which the code asks [ctx.Err()]; a context is its answers. *)
Inductive ctx_point :=
| CtxEntry | CtxHistory | CtxClock | CtxBeforeAdd (attempt : nat) | CtxAfterAdd (attempt : nat)
| CtxRecorded | CtxDelete (versionNo : Z).
Abbreviation Ctx := (ctx_point → option error).

Definition maxVersionAllocateAttempts : nat := 16.

Section adapter.
Context {S : Type} `{ResourceStore S}.

Definition getVersionResourceForRule (s : S) (kind : ResourceKind) (resourceKey : string)
    (versionNo : Z) : result error (Resource * RuleVersion) :=
  let versionResourceKey := buildVersionResourceKey kind resourceKey versionNo in
  match st_GetByKey s versionResourceKey with
  | Err e => Err e
  | Ok None => Err ErrVersionNotFound
  | Ok (Some o) =>
      match o with
      | ResourceObj r =>
          match as_ruleVersion (res_spec r) with
          | None => Err (not_a_ruleVersion o)
          | Some None => Err (errorf_w "" ErrVersionStoreError
              (": RuleVersion spec is nil for key " +:+ versionResourceKey))
          | Some (Some spec) =>
              if negb (versionResourceMatchesParent spec kind resourceKey) ||
                 negb (bool_decide (rv_VersionNo spec = versionNo))
              then Err (errorf_w "" ErrVersionStoreError
                (": RuleVersion key " +:+ versionResourceKey +:+
                 " does not match parent or version number"))
              else Ok (r, spec)
          end
      | OtherObj _ => Err (not_a_ruleVersion o)
      end
  end.

Definition GetVersion (s : S) (kind : ResourceKind) (resourceKey : string) (versionNo : Z)
    : result error Version :=
  rv ← getVersionResourceForRule s kind resourceKey versionNo;
  protoToVersion (Some rv.2).

Definition get_historyState (s : S) (kind : ResourceKind) (resourceKey : string)
    : result error historyState :=
  let parentKey := buildParentIndexKey kind resourceKey in
  objs ← st_ByIndex s "ByParentRule" parentKey;
  versions ← versionsFromIndexObjects objs kind resourceKey true ("parent " +:+ parentKey);
  versions ← validateAndSortVersions kind resourceKey versions;
  Ok {| hs_Versions := versions; hs_Latest := head versions;
        hs_MaxVersionNo := match versions with [] => 0 | v :: _ => ver_VersionNo v end |}.

(** The parent lock makes the callers of one adapter take turns. *)
Definition get_HistorySnapshot (s : S) (kind : ResourceKind) (resourceKey : string)
    : result error HistorySnapshot :=
  state ← get_historyState s kind resourceKey; Ok (historySnapshotFromState state).

Definition ListVersions (s : S) (kind : ResourceKind) (resourceKey : string)
    : result error (list Version) :=
  snapshot ← get_HistorySnapshot s kind resourceKey; Ok (sn_Versions snapshot).

Definition LatestVersion (s : S) (kind : ResourceKind) (resourceKey : string)
    : result error Version :=
  snapshot ← get_HistorySnapshot s kind resourceKey;
  match sn_Head snapshot with None => Err ErrVersionNotFound | Some v => Ok v end.

(** The versions of each parent, as the map [byParent] collects them. *)
Definition by_parent (versions : list Version) : gmap string (list Version) :=
  foldl (λ m v, <[ver_ResourceKey v := default [] (m !! ver_ResourceKey v) ++ [v]]> m) ∅ versions.

Fixpoint latest_of_parents (kind : ResourceKind) (l : list (string * list Version))
    : result error (list Version) :=
  match l with
  | [] => Ok []
  | (resourceKey, versions) :: l =>
      sorted ← validateAndSortVersions kind resourceKey versions;
      latest ← latest_of_parents kind l;
      Ok (match sorted with v :: _ => v :: latest | [] => latest end)
  end.

(** [sort.Slice] by resource key; the keys are distinct. *)
Definition ver_key_le (a b : Version) : Prop := String.le (ver_ResourceKey a) (ver_ResourceKey b).
#[export] Instance ver_key_le_dec a b : Decision (ver_key_le a b) := decide (String.le _ _).

Definition ListLatestVersions `{MapRange} (s : S) (kind : ResourceKind)
    : result error (list Version) :=
  objs ← st_GetByKeys s (st_ListKeys s);
  versions ← versionsFromResources objs kind "" false "";
  latest ← latest_of_parents kind (go_range (by_parent versions));
  Ok (merge_sort ver_key_le latest).

(** The loop of [trimVersionsLocked]. *)
Fixpoint delete_versions (ctx : Ctx) (s : S) (kind : ResourceKind) (resourceKey : string)
    (toDelete : list Version) : S * option error :=
  match toDelete with
  | [] => (s, None)
  | v :: toDelete =>
      match ctx (CtxDelete (ver_VersionNo v)) with
      | Some e => (s, Some e)
      | None =>
          match getVersionResourceForRule s kind resourceKey (ver_VersionNo v) with
          | Err e => (s, Some e)
          | Ok rv =>
              match st_Delete s (ResourceObj rv.1) with
              | (s, Some e) => (s, Some e)
              | (s, None) => delete_versions ctx s kind resourceKey toDelete
              end
          end
      end
  end.

Definition trimVersionsLocked (ctx : Ctx) (s : S) (kind : ResourceKind) (resourceKey : string)
    (keep : Z) : S * option error :=
  match get_historyState s kind resourceKey with
  | Err e => (s, Some e)
  | Ok state =>
      if decide (Z.of_nat (length (hs_Versions state)) <= keep) then (s, None)
      else delete_versions ctx s kind resourceKey (drop (Z.to_nat keep) (hs_Versions state))
  end.

(** The allocation loop from [attempt] on. [env] is what the other writers of
    the database do before an attempt; [addErr] is the last error of [Add]. *)
Fixpoint allocate (fuel : nat) (ctx : Ctx) (env : nat → S → S) (req : InsertRequest)
    (createdAt recordedAt : Z) (attempt : nat) (addErr : option error) (s : S) (versionNo : Z)
    : S * result error (Z * Resource) :=
  match fuel with
  | O => (s, Err (match addErr with
      | Some e => errorf_w ("failed to allocate unique rule version number after " +:+
                    pretty (Z.of_nat maxVersionAllocateAttempts) +:+ " attempts: ") e ""
      | None => ErrorText "no attempt was made"
      end))
  | Datatypes.S fuel =>
      let rv := newRuleVersionResource req versionNo createdAt recordedAt in
      match ctx (CtxBeforeAdd attempt) with
      | Some e => (s, Err e)
      | None =>
          match st_Add (env attempt s) (ResourceObj rv) with
          | (s, None) => (s, Ok (versionNo, rv))
          | (s, Some addErr) =>
              match getVersionResourceForRule s (req_RuleKind req) (req_ResourceKey req) versionNo with
              | Err e =>
                  if errors_is e ErrVersionNotFound then
                    (s, Err (errorf_w ("failed to add rule version " +:+ pretty versionNo +:+ ": ")
                               addErr ""))
                  else (s, Err e)
              | Ok _ =>
                  match ctx (CtxAfterAdd attempt) with
                  | Some e => (s, Err e)
                  | None =>
                      match get_historyState s (req_RuleKind req) (req_ResourceKey req) with
                      | Err e => (s, Err e)
                      | Ok state =>
                          let nextVersionNo := i64 (hs_MaxVersionNo state + 1) in
                          if decide (nextVersionNo <= versionNo) then
                            (s, Err (errorf_w ("failed to allocate unique rule version number " +:+
                                       pretty versionNo +:+ ": ") addErr ""))
                          else allocate fuel ctx env req createdAt recordedAt
                                 (Datatypes.S attempt) (Some addErr) s nextVersionNo
                      end
                  end
              end
          end
      end
  end.

(** [now] is the clock: once for a zero [CreatedAt], once for [recordedAt]. A
    failed cleanup is only logged. *)
Definition insertVersionLocked (ctx : Ctx) (env : nat → S → S) (now : Z) (s : S)
    (req : InsertRequest) (maxVersions : Z) : S * result error Version :=
  match ctx CtxEntry with Some e => (s, Err e) | None =>
  match get_historyState s (req_RuleKind req) (req_ResourceKey req) with Err e => (s, Err e) | Ok state =>
  match ctx CtxHistory with Some e => (s, Err e) | None =>
  let versionNo := i64 (hs_MaxVersionNo state + 1) in
  let createdAt := if decide (req_CreatedAt req = 0) then now else req_CreatedAt req in
  match ctx CtxClock with Some e => (s, Err e) | None =>
  match allocate maxVersionAllocateAttempts ctx env req createdAt now 0 None s versionNo with
  | (s, Err e) => (s, Err e)
  | (s, Ok (versionNo, rv)) =>
      match ctx CtxRecorded with
      | Some e => (s, Err e)
      | None =>
          let s := if decide (0 < maxVersions) then
                     (trimVersionsLocked ctx s (req_RuleKind req) (req_ResourceKey req) maxVersions).1
                   else s in
          (s, protoToVersion (as_ruleVersion (res_spec rv) ≫= id))
      end
  end end end end end.

Definition InsertVersion := insertVersionLocked.
End adapter.

(** ** normalize.go

    The JSON of a protobuf spec is [protojson]'s, made canonical by
    [encoding/json]; the digest is SHA-256 in hex. A nil [Spec] pointer is
    still a non-nil interface value and is marshalled. *)
Definition DeleteSpecJSON : string := "{}".

Section normalize.
Context (protojson_Marshal : Spec → result error string).
Context (json_canonical : string → result error string).
Context (HashSpecJSON : string → string).

Definition NormalizeSpec (spec : Spec) : result error (string * string) :=
  raw ← protojson_Marshal spec;
  specJSON ← json_canonical raw;
  Ok (HashSpecJSON specJSON, specJSON).

Definition NormalizeResource (res : Resource) : result error (string * string) :=
  NormalizeSpec (res_spec res).

(** [protojson.Unmarshal] and [json.Unmarshal] into the spec type of a kind. *)
Context (protojson_Unmarshal json_Unmarshal : ResourceKind → string → result error Spec).

Definition unmarshalSpec (kind : ResourceKind) (specJSON : string) : result error Spec :=
  match protojson_Unmarshal kind specJSON with
  | Ok spec => Ok spec
  | Err e => match json_Unmarshal kind specJSON with Ok spec => Ok spec | Err _ => Err e end
  end.

Definition ResourceFromSpecJSON (kind : ResourceKind) (mesh ruleName specJSON : string)
    : result error Resource :=
  if decide (kind ∈ [ConditionRouteKind; TagRouteKind; DynamicConfigKind]) then
    spec ← unmarshalSpec kind specJSON;
    Ok {| res_meta := {| meta_Name := ruleName; meta_Labels := None; meta_Annotations := None |};
          res_Mesh := mesh; res_spec := spec |}
  else Err (biz_new InvalidArgument "unsupported rule kind").

(** ** service.go *)
Definition BuildInsertRequest (res : option Resource) (op source author reason : string)
    (rolledBackFromVersionNo : option Z) (createdAt : Z) : result error InsertRequest :=
  match res with
  | None => Err (biz_new InvalidArgument "rule resource is required")
  | Some res =>
      '(hash, specJSON) ← NormalizeResource res;
      let '(hash, specJSON) :=
        if decide (op = OperationDelete) then (HashSpecJSON DeleteSpecJSON, DeleteSpecJSON)
        else (hash, specJSON) in
      let author := if decide (trim_space author = "") then "system:unknown"
                    else trim_space author in
      let source := if decide (source = "") then SourceAdmin else source in
      Ok {| req_RuleKind := res_kind res; req_Mesh := res_Mesh res;
            req_ResourceKey := ResourceKey res; req_RuleName := res_Name res;
            req_SpecJSON := specJSON; req_ContentHash := hash; req_Source := source;
            req_Operation := op; req_Author := author; req_Reason := reason;
            req_RolledBackFromVersionNo := rolledBackFromVersionNo;
            req_CreatedAt := createdAt |}
  end.

Context {S : Type} `{ResourceStore S}.

(** A [*Service] is nil or lacks its store when the argument is [None]. *)
Definition available {A} (store : option S) (f : S → result error A) : result error A :=
  match store with None => Err ErrVersionStoreError | Some s => f s end.

Definition Service_List (store : option S) (kind : ResourceKind) (mesh ruleName : string)
    : result error ListResult :=
  available store (λ s,
    snapshot ← get_HistorySnapshot s kind (BuildResourceKey mesh ruleName);
    Ok {| lr_Items := sn_Versions snapshot;
          lr_Total := Z.of_nat (length (sn_Versions snapshot));
          lr_LatestRecordedVersionNo :=
            match sn_Head snapshot with Some h => ver_VersionNo h | None => 0 end;
          lr_LatestRecordedDeleted := sn_Deleted snapshot |}).

Definition Service_Get (store : option S) (kind : ResourceKind) (mesh ruleName : string)
    (versionNo : Z) : result error Version :=
  available store (λ s,
    version ← GetVersion s kind (BuildResourceKey mesh ruleName) versionNo;
    snapshot ← get_HistorySnapshot s kind (BuildResourceKey mesh ruleName);
    Ok (match sn_Head snapshot with
        | Some h => with_latest version (bool_decide (ver_VersionNo version = ver_VersionNo h))
        | None => version
        end)).

(** The element after the one with number [versionNo]. *)
Fixpoint next_version (versionNo : Z) (list : list Version) : result error Version :=
  match list with
  | [] => Err ErrVersionNotFound
  | v :: rest =>
      if decide (ver_VersionNo v = versionNo)
      then match rest with [] => Err ErrVersionNotFound | w :: _ => Ok w end
      else next_version versionNo rest
  end.

Definition diffRight (s : S) (kind : ResourceKind) (mesh ruleName : string) (versionNo : Z)
    (against : string) : result error Version :=
  if decide (against = "previous") then
    list ← ListVersions s kind (BuildResourceKey mesh ruleName);
    next_version versionNo (sort_versions list)
  else if decide (against = "" ∨ against = "current") then
    Err (biz_new InvalidArgument
      "current diff requires live ResourceManager state and is implemented by the console service")
  else match ParseInt against with
  | Some n =>
      if decide (n <= 0) then Err (biz_new InvalidArgument
        "against must be 'current', 'previous', or a version number")
      else Service_Get (Some s) kind mesh ruleName n
  | None => Err (biz_new InvalidArgument
      "against must be 'current', 'previous', or a version number")
  end.

Definition DiffHistoryVersions (store : option S) (kind : ResourceKind) (mesh ruleName : string)
    (versionNo : Z) (against : string) : result error DiffResult :=
  available store (λ s,
    left ← Service_Get (Some s) kind mesh ruleName versionNo;
    right ← diffRight s kind mesh ruleName versionNo against;
    Ok {| dr_Left := {| ds_VersionNo := ver_VersionNo left; ds_SpecJSON := ver_SpecJSON left |};
          dr_Right := {| ds_VersionNo := ver_VersionNo right; ds_SpecJSON := ver_SpecJSON right |} |}).

Definition Append (ctx : Ctx) (env : nat → S → S) (now : Z) (maxVersions : Z) (s : S)
    (res : option Resource) (op source author reason : string) (rolledBackFrom : option Z)
    : S * result error Version :=
  match BuildInsertRequest res op source author reason rolledBackFrom now with
  | Err e => (s, Err e)
  | Ok req => InsertVersion ctx env now s req maxVersions
  end.

Definition Service_LatestVersion (store : option S) (kind : ResourceKind) (mesh ruleName : string)
    : result error Version :=
  available store (λ s, LatestVersion s kind (BuildResourceKey mesh ruleName)).

Definition HasHistory (store : option S) (kind : ResourceKind) (mesh ruleName : string)
    : result error bool :=
  available store (λ s,
    match LatestVersion s kind (BuildResourceKey mesh ruleName) with
    | Ok _ => Ok true
    | Err e => if errors_is e ErrVersionNotFound then Ok false else Err e
    end).

(** ** bootstrap.go *)
Definition RecordBootstrapState (ctx : Ctx) (env : nat → S → S) (now maxVersions : Z) (s : S)
    (res : Resource) : S * option error :=
  let latest := LatestVersion s (res_kind res) (ResourceKey res) in
  match latest with
  | Ok _ => (s, None)
  | Err e =>
      if negb (errors_is e ErrVersionNotFound) then (s, Some e)
      else match NormalizeResource res with
      | Err e => (s, Some e)
      | Ok (hash, specJSON) =>
          let req := {| req_RuleKind := res_kind res; req_Mesh := res_Mesh res;
            req_ResourceKey := ResourceKey res; req_RuleName := res_Name res;
            req_SpecJSON := specJSON; req_ContentHash := hash; req_Source := SourceBootstrap;
            req_Operation := OperationCreate; req_Author := "system:bootstrap";
            req_Reason := "initial rule history baseline";
            req_RolledBackFromVersionNo := None; req_CreatedAt := now |} in
          match InsertVersion ctx env now s req maxVersions with
          | (s, Err e) => (s, Some (errorf_w ("bootstrap version for " +:+ ResourceKey res +:+
                                               " failed: ") e ""))
          | (s, Ok _) => (s, None)
          end
      end
  end.

(** component.go: [bootstrapExistingRules] over the resources of one kind;
    a failure for one rule is only logged. *)
Fixpoint bootstrap_resources (ctx : Ctx) (env : nat → S → S) (now maxVersions : Z) (s : S)
    (resources : list Resource) : S :=
  match resources with
  | [] => s
  | res :: resources =>
      bootstrap_resources ctx env now maxVersions
        (RecordBootstrapState ctx env now maxVersions s res).1 resources
  end.
End normalize.

(** ** Keys of version resources *)
Definition vkey (kind : ResourceKind) (mesh name : string) (n : Z) : string :=
  BuildResourceKey mesh (kind_string kind +:+ "-" +:+ name +:+ "-version-" +:+ pretty n).

Lemma buildVersionResourceKey_vkey kind key n :
  buildVersionResourceKey kind key n = vkey kind (extractMesh key) (extractName key) n.
Proof. done. Qed.

Lemma extractMesh_no_sep key : no_sep (extractMesh key).
Proof.
  unfold extractMesh, ParseResourceKey. destruct (str_index PathSeparator key) as [i|] eqn:E; [|done].
  simpl. by apply str_index_Some in E as [_ ?].
Qed.

(** The last separator splits a string uniquely. *)
Lemma str_last_sep_inj c (a a' d d' : string) :
  str_contains c d = false → str_contains c d' = false →
  a +:+ String c d = a' +:+ String c d' → a = a' ∧ d = d'.
Proof.
  intros Hd Hd'. revert a'. induction a as [|x a IH]; intros [|y a'].
  - intros Heq. injection Heq. by intros ->.
  - change (String y a' +:+ String c d') with (String y (a' +:+ String c d')).
    intros [= -> ->]. rewrite str_contains_app in Hd. simpl in Hd.
    rewrite decide_True in Hd by done. by destruct (str_contains y a').
  - change (String x a +:+ String c d) with (String x (a +:+ String c d)).
    intros [= -> <-]. rewrite str_contains_app in Hd'. simpl in Hd'.
    rewrite decide_True in Hd' by done. by destruct (str_contains c a).
  - change (String x a +:+ String c d) with (String x (a +:+ String c d)).
    change (String y a' +:+ String c d') with (String y (a' +:+ String c d')).
    intros Heq. injection Heq as -> Heq. by destruct (IH a' Heq) as [-> ->].
Qed.

Lemma pretty_N_char_digit d : pretty_N_char d ≠ "-"%char.
Proof. unfold pretty_N_char. by repeat case_match. Qed.

Lemma pretty_N_go_no_minus n s :
  str_contains "-"%char s = false → str_contains "-"%char (pretty_N_go n s) = false.
Proof.
  revert s. induction (N.lt_wf_0 n) as [n _ IH]. intros s Hs.
  destruct (decide (0 < n)%N) as [Hn|Hn].
  - rewrite pretty_N_go_step by done. apply IH.
    + apply N.div_lt; lia.
    + simpl. rewrite decide_False; [done|]. apply pretty_N_char_digit.
  - assert (n = 0%N) as -> by lia. by rewrite pretty_N_go_0.
Qed.

Lemma pretty_no_minus (n : Z) : 0 <= n → str_contains "-"%char (pretty n) = false.
Proof.
  intros Hn. destruct n as [|p|p]; [done| |lia].
  change (str_contains "-"%char (pretty_N_go (N.pos p) "") = false).
  by apply pretty_N_go_no_minus.
Qed.

Lemma kind_no_minus kind : str_contains "-"%char (kind_string kind) = false.
Proof. by destruct kind. Qed.

Lemma str_app_inj_r (a b c : string) : a +:+ c = b +:+ c → a = b.
Proof.
  revert b. induction a as [|x a IH]; intros [|y b] Heq; [done| | |].
  - exfalso. apply (f_equal String.length) in Heq. rewrite !str_length_app in Heq. simpl in Heq. lia.
  - exfalso. apply (f_equal String.length) in Heq. rewrite !str_length_app in Heq. simpl in Heq. lia.
  - change (String x (a +:+ c) = String y (b +:+ c)) in Heq. injection Heq as -> Heq.
    f_equal. by apply IH.
Qed.

Lemma vkey_inj kind kind' mesh mesh' name name' n n' :
  no_sep mesh → no_sep mesh' → 0 <= n → 0 <= n' →
  vkey kind mesh name n = vkey kind' mesh' name' n' →
  kind = kind' ∧ mesh = mesh' ∧ name = name' ∧ n = n'.
Proof.
  intros Hm Hm' Hn Hn' [-> Heq]%BuildResourceKey_inj; [|done..].
  change ("-" +:+ name +:+ "-version-" +:+ pretty n) with
    (String "-" (name +:+ "-version-" +:+ pretty n)) in Heq.
  change ("-" +:+ name' +:+ "-version-" +:+ pretty n') with
    (String "-" (name' +:+ "-version-" +:+ pretty n')) in Heq.
  apply str_sep_inj in Heq as [Hk Heq]; [|apply kind_no_minus..]. apply (inj kind_string) in Hk as ->.
  assert (Hsplit : ∀ (x : string) (m : Z), x +:+ "-version-" +:+ pretty m =
    (x +:+ "-version") +:+ String "-" (pretty m)).
  { intros x m. change (String "-" (pretty m)) with ("-" +:+ pretty m).
    by rewrite <-(str_app_assoc x "-version"). }
  rewrite !Hsplit in Heq. apply str_last_sep_inj in Heq as [Hx Hp]; [|by apply pretty_no_minus..].
  apply str_app_inj_r in Hx as ->. by apply (inj pretty) in Hp as ->.
Qed.

(** ** Histories as lists *)
Definition rv_spec (r : Resource) : option RuleVersion := as_ruleVersion (res_spec r) ≫= id.

(** The version a resource contributes to the history of a rule. *)
Definition ver_of (kind : ResourceKind) (key : string) (r : Resource) : option Version :=
  spec ← rv_spec r;
  if versionResourceMatchesParent spec kind key then Some (version_of_spec spec) else None.

(** A resource of the version store: it sits under the key of its number. *)
Definition rv_wf (k : string) (r : Resource) : Prop :=
  ∃ spec kind, res_spec r = RuleVersionSpec (Some spec) ∧
    rv_ParentRuleKind spec = kind_string kind ∧ no_sep (rv_ParentRuleMesh spec) ∧
    0 < rv_VersionNo spec ∧
    k = vkey kind (rv_ParentRuleMesh spec) (rv_ParentRuleName spec) (rv_VersionNo spec).

(** The history of a rule: its versions, the newest first. *)
Definition hist (kind : ResourceKind) (key : string) (m : gmap string Resource) : list Version :=
  sort_versions (omap (ver_of kind key) (map_to_list m).*2).

Abbreviation nos l := (ver_VersionNo <$> l).

Lemma matches_spec spec kind key :
  versionResourceMatchesParent spec kind key = true ↔
  rv_ParentRuleKind spec = kind_string kind ∧ rv_ParentRuleMesh spec = extractMesh key ∧
  rv_ParentRuleName spec = extractName key.
Proof.
  unfold versionResourceMatchesParent. rewrite !andb_true_iff, !bool_decide_eq_true. tauto.
Qed.

Lemma ver_of_Some kind key r v :
  ver_of kind key r = Some v ↔ ∃ spec, res_spec r = RuleVersionSpec (Some spec) ∧
    versionResourceMatchesParent spec kind key = true ∧ v = version_of_spec spec.
Proof.
  unfold ver_of, rv_spec. split.
  - destruct (res_spec r) as [| | | | | |[spec|]| | | | | | | | | |] eqn:E; try done. simpl.
    case_match; [|done]. intros [= <-]. by exists spec.
  - intros (spec & -> & Hm & ->). simpl. by rewrite Hm.
Qed.

Lemma wf_key kind key k r v :
  rv_wf k r → ver_of kind key r = Some v →
  k = buildVersionResourceKey kind key (ver_VersionNo v) ∧ 0 < ver_VersionNo v.
Proof.
  intros (spec & kind' & Hs & Hk & Hm & Hn & ->) (spec' & Hs' & Hp & ->)%ver_of_Some.
  rewrite Hs in Hs'. injection Hs' as <-. apply matches_spec in Hp as (Hk' & Hm' & Hn').
  rewrite buildVersionResourceKey_vkey. simpl. rewrite Hk in Hk'. apply (inj kind_string) in Hk' as ->.
  by rewrite Hm', Hn'.
Qed.

Lemma NoDup_nos kind key (l : list (string * Resource)) :
  NoDup l.*1 → Forall (λ p, rv_wf p.1 p.2) l → NoDup (nos (omap (ver_of kind key) l.*2)).
Proof.
  intros Hnd Hwf. induction Hwf as [|[k r] l Hr Hwf IH]; csimpl in *; [constructor|].
  apply NoDup_cons in Hnd as [Hk Hnd]. destruct (ver_of kind key r) as [v|] eqn:E; [|by apply IH].
  csimpl. constructor; [|by apply IH]. intros (v' & Hv' & Hin)%list_elem_of_fmap.
  apply list_elem_of_omap in Hin as (r' & (p & -> & Hp)%list_elem_of_fmap & Hr').
  rewrite Forall_forall in Hwf. destruct (wf_key _ _ _ _ _ Hr E) as [-> _].
  destruct (wf_key _ _ _ _ _ (Hwf _ Hp) Hr') as [Hk' _]. apply Hk.
  rewrite Hv', <-Hk'. by apply list_elem_of_fmap_2.
Qed.

Definition items_wf (m : gmap string Resource) : Prop := map_Forall rv_wf m.

Lemma NoDup_items kind key m :
  items_wf m → NoDup (nos (omap (ver_of kind key) (map_to_list m).*2)).
Proof.
  intros Hm. apply NoDup_nos; [apply NoDup_fst_map_to_list|].
  apply Forall_forall. intros [k r] Hin%elem_of_map_to_list. by apply Hm.
Qed.

Lemma sorted_unique (l l' : list Version) :
  StronglySorted ver_ge l → l ≡ₚ l' → NoDup (nos l) → sort_versions l' = l.
Proof.
  intros Hl Hp Hnd. apply (StronglySorted_unique_strong ver_ge).
  - intros x y Hx Hy Hxy Hyx. unfold sort_versions in Hx. rewrite merge_sort_Permutation, <-Hp in Hx.
    assert (ver_VersionNo x = ver_VersionNo y) as Heq by (unfold ver_ge in *; lia).
    apply list_elem_of_lookup_1 in Hx as [i Hi]. apply list_elem_of_lookup_1 in Hy as [j Hj].
    assert (i = j) as ->; [|by simplify_eq].
    eapply (NoDup_lookup _ i j (ver_VersionNo x)); [exact Hnd|..]; rewrite list_lookup_fmap.
    + by rewrite Hi.
    + rewrite Hj. simpl. by rewrite Heq.
  - apply (StronglySorted_merge_sort ver_ge).
  - done.
  - unfold sort_versions. by rewrite merge_sort_Permutation, Hp.
Qed.

Lemma hist_perm kind key m : hist kind key m ≡ₚ omap (ver_of kind key) (map_to_list m).*2.
Proof. apply merge_sort_Permutation. Qed.

Lemma hist_sorted kind key m : StronglySorted ver_ge (hist kind key m).
Proof. apply (StronglySorted_merge_sort ver_ge). Qed.

Lemma hist_NoDup kind key m : items_wf m → NoDup (nos (hist kind key m)).
Proof. intros Hm. rewrite hist_perm. by apply NoDup_items. Qed.

Lemma elem_of_hist kind key m v :
  items_wf m → v ∈ hist kind key m ↔ ∃ r, ver_of kind key r = Some v ∧
    m !! buildVersionResourceKey kind key (ver_VersionNo v) = Some r.
Proof.
  intros Hm. rewrite hist_perm, list_elem_of_omap. split.
  - intros (r & ([k r'] & -> & Hin%elem_of_map_to_list)%list_elem_of_fmap & Hv). simpl in *.
    exists r'. split; [done|]. destruct (wf_key _ _ _ _ _ (Hm _ _ Hin) Hv) as [<- _]. done.
  - intros (r & Hv & Hin). exists r. split; [|done]. apply list_elem_of_fmap.
    eexists (_, r). split; [done|]. by apply elem_of_map_to_list.
Qed.

Lemma values_insert (m : gmap string Resource) k r :
  m !! k = None → (map_to_list (<[k := r]> m)).*2 ≡ₚ r :: (map_to_list m).*2.
Proof. intros Hk. by rewrite map_to_list_insert. Qed.

Lemma hist_insert kind key m k r v :
  items_wf m → m !! k = None → ver_of kind key r = Some v →
  (∀ v', v' ∈ hist kind key m → ver_VersionNo v' < ver_VersionNo v) →
  hist kind key (<[k := r]> m) = v :: hist kind key m.
Proof.
  intros Hm Hk Hv Hlt. apply sorted_unique.
  - constructor; [apply hist_sorted|]. apply Forall_forall. intros v' Hv'. unfold ver_ge.
    specialize (Hlt v' Hv'). lia.
  - rewrite values_insert by done. csimpl. rewrite Hv. f_equiv. apply hist_perm.
  - csimpl. constructor; [|by apply hist_NoDup]. intros (v' & Heq & Hin)%list_elem_of_fmap.
    specialize (Hlt v' Hin). lia.
Qed.

Lemma hist_insert_other kind key m k r :
  items_wf m → m !! k = None → ver_of kind key r = None →
  hist kind key (<[k := r]> m) = hist kind key m.
Proof.
  intros Hm Hk Hv. apply sorted_unique; [apply hist_sorted| |by apply hist_NoDup].
  rewrite values_insert by done. csimpl. rewrite Hv. apply hist_perm.
Qed.

Lemma hist_delete kind key m k r v l1 l2 :
  items_wf m → m !! k = Some r → ver_of kind key r = Some v →
  hist kind key m = l1 ++ v :: l2 → hist kind key (delete k m) = l1 ++ l2.
Proof.
  intros Hm Hk Hv Hh. pose proof (hist_sorted kind key m) as Hs. pose proof (hist_NoDup kind key m Hm) as Hn.
  pose proof (hist_perm kind key m) as Hp. rewrite Hh in Hs, Hn, Hp.
  assert (Hsub : sublist (l1 ++ l2) (l1 ++ v :: l2)) by (apply sublist_app; [done|by constructor]).
  apply sorted_unique.
  - clear -Hs. induction l1 as [|x l1 IH]; simpl in *; inversion_clear Hs; [done|].
    constructor; [by apply IH|]. rewrite Forall_app, Forall_cons in *. naive_solver.
  - apply (Permutation_cons_inv (a := v)). rewrite Permutation_middle, Hp.
    rewrite <-(insert_delete_id m k r) at 1 by done. rewrite values_insert by apply lookup_delete_eq.
    csimpl. by rewrite Hv.
  - eapply sublist_NoDup; [exact Hn|]. by apply fmap_sublist.
Qed.

Lemma hist_delete_other kind key m k r :
  items_wf m → m !! k = Some r → ver_of kind key r = None →
  hist kind key (delete k m) = hist kind key m.
Proof.
  intros Hm Hk Hv. rewrite <-(insert_delete_id m k r) at 2 by done.
  rewrite hist_insert_other; [done| |apply lookup_delete_eq|done]. by apply map_Forall_delete.
Qed.

Definition state_of (l : list Version) : historyState :=
  {| hs_Versions := l; hs_Latest := head l;
     hs_MaxVersionNo := match l with [] => 0 | v :: _ => ver_VersionNo v end |}.

Lemma first_duplicate_None seen l :
  NoDup (nos l) → (∀ n, n ∈ seen → n ∉ nos l) → first_duplicate seen l = None.
Proof.
  revert seen. induction l as [|v l IH]; intros seen Hnd Hs; csimpl in *; [done|].
  apply NoDup_cons in Hnd as [Hv Hnd]. rewrite decide_False.
  - apply IH; [done|]. intros n [->|Hn]%elem_of_cons; [done|].
    intros Hin. apply (Hs n Hn). by right.
  - intros Hin. apply (Hs _ Hin). left.
Qed.

Section histories.
Context {S : Type} `{ResourceStoreLaws S}.

(** A version store: lawful, with the parent index, every resource in place. *)
Record hist_ok (s : S) : Prop := {
  ho_ok : st_ok s;
  ho_kind : st_kind s = RuleVersionKind;
  ho_index : st_indexers s !! "ByParentRule" = Some byParentRule;
  ho_items : items_wf (st_items s) }.

Lemma rv_wf_kind k r : rv_wf k r → res_kind r = RuleVersionKind.
Proof. intros (spec & kind & Hs & _). unfold res_kind. by rewrite Hs. Qed.

Lemma parent_indexed kind key r v :
  ver_of kind key r = Some v →
  index_has byParentRule (buildParentIndexKey kind key) (ResourceObj r) = true.
Proof.
  intros (spec & Hs & (Hk & Hm & Hn)%matches_spec & _)%ver_of_Some.
  unfold index_has, byParentRule. simpl. rewrite Hs. simpl. apply bool_decide_eq_true.
  apply list_elem_of_singleton. unfold buildParentIndexKey. by rewrite Hk, Hm, Hn.
Qed.

Lemma versionsFromIndexObjects_ok kind key ctxt (l : list Resource) :
  Forall (λ r, ∃ k, rv_wf k r) l →
  versionsFromIndexObjects (ResourceObj <$> l) kind key true ctxt = Ok (omap (ver_of kind key) l).
Proof.
  induction 1 as [|r l (k & spec & kind' & Hs & Hk & _) Hl IH]; [done|].
  rewrite fmap_cons. simpl. rewrite Hs. simpl.
  unfold ver_of at 1, rv_spec. rewrite Hs. simpl.
  destruct (versionResourceMatchesParent spec kind key) eqn:E.
  - pose proof E as (Hkk & _)%matches_spec. rewrite bool_decide_eq_true_2 by done. simpl.
    by rewrite IH.
  - by destruct (bool_decide _); simpl; rewrite IH.
Qed.

Lemma omap_filter_weaken {A B} (f : A → option B) (P : A → Prop) `{!∀ x, Decision (P x)} (l : list A) :
  (∀ x y, f x = Some y → P x) → omap f (filter P l) = omap f l.
Proof.
  intros Hf. induction l as [|x l IH]; [done|]. rewrite filter_cons. case_decide as Hx; csimpl.
  - by rewrite IH.
  - destruct (f x) eqn:E; [by apply Hf in E|done].
Qed.

Lemma get_historyState_ok s kind key :
  hist_ok s → get_historyState s kind key = Ok (state_of (hist kind key (st_items s))).
Proof.
  intros [Hok Hk Hi Hm]. unfold get_historyState.
  destruct (st_ByIndex_spec s _ _ (buildParentIndexKey kind key) Hok Hi) as (l & -> & Hl). simpl.
  assert (Hwf : Forall (λ r, ∃ k, rv_wf k r) l).
  { apply Forall_forall. intros r Hr. rewrite Hl in Hr.
    apply elem_of_index_matches in Hr as [[k Hr] _]. exists k. by apply Hm. }
  rewrite versionsFromIndexObjects_ok by done. simpl.
  assert (Hp : omap (ver_of kind key) l ≡ₚ omap (ver_of kind key) (map_to_list (st_items s)).*2).
  { rewrite Hl. unfold index_matches. rewrite omap_filter_weaken; [done|].
    intros r v Hv. apply Is_true_true. by eapply parent_indexed. }
  unfold validateAndSortVersions. rewrite first_duplicate_None.
  - simpl. rewrite (sorted_unique (hist kind key (st_items s))); [done|apply hist_sorted| |by apply hist_NoDup].
    by rewrite hist_perm, Hp.
  - rewrite Hp. by apply NoDup_items.
  - by intros n ?%elem_of_nil.
Qed.

(** The resource [newRuleVersionResource] builds. *)
Lemma new_rv_wf req n created recorded :
  0 < n →
  rv_wf (buildVersionResourceKey (req_RuleKind req) (req_ResourceKey req) n)
    (newRuleVersionResource req n created recorded) ∧
  ResourceKey (newRuleVersionResource req n created recorded) =
    buildVersionResourceKey (req_RuleKind req) (req_ResourceKey req) n.
Proof.
  intros Hn. split.
  - eexists _, (req_RuleKind req). split_and!; [done|done|apply extractMesh_no_sep|done|done].
  - unfold ResourceKey, res_Name, newRuleVersionResource. simpl.
    unfold buildVersionResourceKey at 1. rewrite ParseResourceKey_Build by apply extractMesh_no_sep.
    done.
Qed.

Definition new_version (req : InsertRequest) (n created recorded : Z) : Version :=
  version_of_spec (newRuleVersionSpec req n created recorded).

Lemma new_ver_of req n created recorded kind key :
  ver_of kind key (newRuleVersionResource req n created recorded) =
  if decide (kind = req_RuleKind req ∧ extractMesh key = extractMesh (req_ResourceKey req) ∧
             extractName key = extractName (req_ResourceKey req))
  then Some (new_version req n created recorded) else None.
Proof.
  unfold ver_of, rv_spec, newRuleVersionResource. simpl.
  destruct (versionResourceMatchesParent _ kind key) eqn:E.
  - apply matches_spec in E as (Hk & Hm & Hn). simpl in *. apply (inj kind_string) in Hk.
    by rewrite decide_True.
  - rewrite decide_False; [done|]. intros (-> & Hm & Hn).
    apply not_true_iff_false in E. apply E. apply matches_spec. simpl. done.
Qed.

Lemma st_Add_version s req n created recorded :
  hist_ok s → 0 < n →
  st_items s !! buildVersionResourceKey (req_RuleKind req) (req_ResourceKey req) n = None →
  ∃ s', st_Add s (ResourceObj (newRuleVersionResource req n created recorded)) = (s', None) ∧
    hist_ok s' ∧
    st_items s' = <[buildVersionResourceKey (req_RuleKind req) (req_ResourceKey req) n :=
      newRuleVersionResource req n created recorded]> (st_items s).
Proof.
  intros [Hok Hk Hi Hm] Hn Hfree. destruct (new_rv_wf req n created recorded Hn) as [Hwf Hkey].
  destruct (st_Add_fresh s (newRuleVersionResource req n created recorded))
    as (s' & Ha & Hok' & Hk' & Hi' & Hm'); [done|by rewrite Hk|by rewrite Hkey|].
  exists s'. rewrite Hkey in Hm'. split_and!; [done| |done].
  split; [done|congruence|congruence|]. rewrite Hm'. by apply map_Forall_insert_2.
Qed.

(** The number after the newest one is free. *)
Lemma next_free s kind key :
  hist_ok s → hs_MaxVersionNo (state_of (hist kind key (st_items s))) < i64_max →
  let n := i64 (hs_MaxVersionNo (state_of (hist kind key (st_items s))) + 1) in
  n = hs_MaxVersionNo (state_of (hist kind key (st_items s))) + 1 ∧ 0 < n ∧
  st_items s !! buildVersionResourceKey kind key n = None ∧
  ∀ v, v ∈ hist kind key (st_items s) → ver_VersionNo v < n.
Proof.
  intros [Hok Hk Hi Hm] Hmax n.
  assert (Hge : ∀ v, v ∈ hist kind key (st_items s) →
    0 < ver_VersionNo v <= hs_MaxVersionNo (state_of (hist kind key (st_items s)))).
  { intros v Hv. pose proof (hist_sorted kind key (st_items s)) as Hs. split.
    - apply elem_of_hist in Hv as (r & Hr & Hin); [|done]. by eapply wf_key; [apply Hm|].
    - destruct (hist kind key (st_items s)) as [|w l]; [by apply elem_of_nil in Hv|]. simpl.
      apply StronglySorted_inv in Hs as [_ Hs]. rewrite Forall_forall in Hs.
      apply elem_of_cons in Hv as [->|Hv]; [lia|]. by apply Hs in Hv. }
  assert (Hmin : 0 <= hs_MaxVersionNo (state_of (hist kind key (st_items s)))).
  { destruct (hist kind key (st_items s)) as [|w l]; simpl; [lia|].
    destruct (Hge w); [left|]. simpl in *. lia. }
  assert (Hn : n = hs_MaxVersionNo (state_of (hist kind key (st_items s))) + 1).
  { unfold n. apply i64_id. unfold in_i64, i64_min, i64_max in *. lia. }
  split_and!; [done|lia| |intros v Hv; specialize (Hge v Hv); lia].
  destruct (st_items s !! _) as [r|] eqn:E; [|done]. exfalso.
  destruct (Hm _ _ E) as (spec & kind' & Hs & Hkk & Hsep & Hpos & Hkey).
  rewrite buildVersionResourceKey_vkey in Hkey.
  apply vkey_inj in Hkey as (<- & Hmesh & Hname & Hno); [|apply extractMesh_no_sep|done|lia|lia].
  assert (Hv : ver_of kind key r = Some (version_of_spec spec)).
  { apply ver_of_Some. exists spec. split_and!; [done| |done]. by apply matches_spec. }
  destruct (Hge (version_of_spec spec)) as [_ Hle].
  - apply elem_of_hist; [done|]. exists r. split; [done|]. simpl. by rewrite <-Hno.
  - change (ver_VersionNo (version_of_spec spec)) with (rv_VersionNo spec) in Hle. lia.
Qed.

(** *** Retention *)
Definition never : Ctx := λ _, None.

Lemma getVersionResource_hist s kind key v r :
  hist_ok s → ver_of kind key r = Some v →
  st_items s !! buildVersionResourceKey kind key (ver_VersionNo v) = Some r →
  ∃ spec, getVersionResourceForRule s kind key (ver_VersionNo v) = Ok (r, spec) ∧
    version_of_spec spec = v.
Proof.
  intros [Hok Hk Hi Hm] (spec & Hs & Hp & ->)%ver_of_Some Hin. exists spec.
  unfold getVersionResourceForRule. rewrite st_GetByKey_spec, Hin by done. simpl. rewrite Hs. simpl.
  rewrite Hp. simpl in *. by rewrite bool_decide_eq_true_2.
Qed.

(** Deleting the oldest versions [l2] of a history. *)
Lemma delete_versions_ok s kind key l1 l2 :
  hist_ok s → hist kind key (st_items s) = l1 ++ l2 →
  ∃ s', delete_versions never s kind key l2 = (s', None) ∧ hist_ok s' ∧
    hist kind key (st_items s') = l1 ∧
    ∀ kind' key', (kind', extractMesh key', extractName key') ≠ (kind, extractMesh key, extractName key) →
      hist kind' key' (st_items s') = hist kind' key' (st_items s).
Proof.
  revert s. induction l2 as [|v l2 IH]; intros s Hs Hh; simpl.
  { exists s. rewrite app_nil_r in Hh. done. }
  pose proof Hs as [Hok Hk Hi Hm].
  assert (Hv : v ∈ hist kind key (st_items s)).
  { rewrite Hh. apply elem_of_app. right. left. }
  apply elem_of_hist in Hv as (r & Hr & Hin); [|done].
  destruct (getVersionResource_hist s kind key v r Hs Hr Hin) as (spec & -> & _). simpl.
  destruct (wf_key _ _ _ _ _ (Hm _ _ Hin) Hr) as [Hkey _].
  destruct (st_items_key s _ r Hok Hin) as [Hrk _].
  destruct (st_Delete_present s r) as (s1 & -> & Hok1 & Hk1 & Hi1 & Hm1);
    [done|rewrite Hrk; by eexists|]. rewrite Hrk in Hm1.
  assert (Hs1 : hist_ok s1).
  { split; [done|congruence|congruence|]. rewrite Hm1. by apply map_Forall_delete. }
  destruct (IH s1 Hs1) as (s' & Hd & Hs' & Hh' & Ho').
  { rewrite Hm1. by eapply hist_delete. }
  exists s'. split_and!; [done|done|done|]. intros kind' key' Hne. rewrite Ho', Hm1 by done.
  apply (hist_delete_other _ _ _ _ r); [done|done|].
  destruct (ver_of kind' key' r) as [v'|] eqn:E; [|done]. exfalso. apply Hne.
  apply ver_of_Some in E as (spec1 & H1 & (K1 & M1 & N1)%matches_spec & _).
  apply ver_of_Some in Hr as (spec2 & H2 & (K2 & M2 & N2)%matches_spec & _).
  rewrite H1 in H2. injection H2 as <-. rewrite K1 in K2. apply (inj kind_string) in K2.
  congruence.
Qed.

Definition same_rule (kind kind' : ResourceKind) (key key' : string) : Prop :=
  (kind', extractMesh key', extractName key') = (kind, extractMesh key, extractName key).

Definition max_no (s : S) (kind : ResourceKind) (key : string) : Z :=
  hs_MaxVersionNo (state_of (hist kind key (st_items s))).

(** The histories of all other rules are the same. *)
Definition others_same (kind : ResourceKind) (key : string) (s s' : S) : Prop :=
  ∀ kind' key', ¬ same_rule kind kind' key key' →
    hist kind' key' (st_items s') = hist kind' key' (st_items s).

(** The other writers of the database: before each of the first [k] attempts
    one of them records a version of the rule under the next number. *)
Definition contends (kind : ResourceKind) (key : string) (k : nat) (env : nat → S → S) : Prop :=
  ∀ i s, hist_ok s → max_no s kind key < i64_max →
    if decide (i < k)%nat then
      hist_ok (env i s) ∧ others_same kind key s (env i s) ∧
      ∃ w, hist kind key (st_items (env i s)) = w :: hist kind key (st_items s) ∧
        ver_VersionNo w = max_no s kind key + 1
    else env i s = s.

(** [Add] of a taken key fails and changes nothing (the database store). *)
Definition Add_rejects : Prop := ∀ s r, st_ok s → is_Some (st_items s !! ResourceKey r) →
  ∃ e, st_Add s (ResourceObj r) = (s, Some e).

Lemma others_same_trans kind key s1 s2 s3 :
  others_same kind key s1 s2 → others_same kind key s2 s3 → others_same kind key s1 s3.
Proof. intros H1 H2 kind' key' Hne. by rewrite H2, H1. Qed.

(** The attempt that finds its number free. *)
Lemma Add_next s req created recorded :
  hist_ok s → max_no s (req_RuleKind req) (req_ResourceKey req) < i64_max →
  let n := max_no s (req_RuleKind req) (req_ResourceKey req) + 1 in
  ∃ s', st_Add s (ResourceObj (newRuleVersionResource req n created recorded)) = (s', None) ∧
    hist_ok s' ∧ others_same (req_RuleKind req) (req_ResourceKey req) s s' ∧
    hist (req_RuleKind req) (req_ResourceKey req) (st_items s') =
      new_version req n created recorded :: hist (req_RuleKind req) (req_ResourceKey req) (st_items s).
Proof.
  intros Hs Hmax n. destruct (next_free s _ _ Hs Hmax) as (Hn & Hpos & Hfree & Hlt).
  fold (max_no s (req_RuleKind req) (req_ResourceKey req)) in Hn, Hpos, Hfree, Hlt.
  rewrite Hn in Hpos, Hfree, Hlt. fold n in Hpos, Hfree, Hlt.
  destruct (st_Add_version s req n created recorded Hs Hpos Hfree) as (s' & Ha & Hs' & Hm').
  exists s'. split_and!; [done|done| |].
  - intros kind' key' Hne. rewrite Hm'. apply hist_insert_other; [apply Hs|done|].
    rewrite new_ver_of, decide_False; [done|]. intros (-> & Hm & Hn'). apply Hne.
    unfold same_rule. congruence.
  - rewrite Hm'. apply hist_insert; [apply Hs|done|by rewrite new_ver_of, decide_True|done].
Qed.

Lemma allocate_contended fuel k attempt env addErr s req created recorded :
  Add_rejects → hist_ok s → contends (req_RuleKind req) (req_ResourceKey req) k env →
  max_no s (req_RuleKind req) (req_ResourceKey req) + Z.of_nat fuel < i64_max →
  (fuel = 0%nat → is_Some addErr) →
  let n := max_no s (req_RuleKind req) (req_ResourceKey req) + 1 in
  ∃ s' ws, hist_ok s' ∧ others_same (req_RuleKind req) (req_ResourceKey req) s s' ∧
  if decide (k - attempt < fuel)%nat then
    length ws = (k - attempt)%nat ∧
    let n' := n + Z.of_nat (length ws) in
    allocate fuel never env req created recorded attempt addErr s n =
      (s', Ok (n', newRuleVersionResource req n' created recorded)) ∧
    hist (req_RuleKind req) (req_ResourceKey req) (st_items s') =
      new_version req n' created recorded :: ws ++ hist (req_RuleKind req) (req_ResourceKey req) (st_items s)
  else
    length ws = fuel ∧
    (∃ e, allocate fuel never env req created recorded attempt addErr s n = (s', Err e)) ∧
    hist (req_RuleKind req) (req_ResourceKey req) (st_items s') =
      ws ++ hist (req_RuleKind req) (req_ResourceKey req) (st_items s).
Proof.
  intros Hrej. revert attempt addErr s. induction fuel as [|fuel IH]; intros attempt addErr s Hs Henv Hmax Herr n.
  { exists s, []. destruct (Herr eq_refl) as [e ->]. split_and!; [done|done|].
    rewrite decide_False by lia. split_and!; [done|by eexists|done]. }
  cbn [allocate]. unfold never at 1 3. pose proof (Henv attempt s Hs ltac:(lia)) as He.
  destruct (decide (attempt < k)%nat) as [Hlt|Hge].
  - destruct He as (Hs1 & Ho1 & w & Hw & Hwn). fold n in Hwn.
    assert (Hin : w ∈ hist (req_RuleKind req) (req_ResourceKey req) (st_items (env attempt s)))
      by (rewrite Hw; left).
    apply elem_of_hist in Hin as (r & Hr & Hin); [|apply Hs1]. rewrite Hwn in Hin.
    assert (Hpos : 0 < n).
    { rewrite <-Hwn. by eapply wf_key; [eapply (ho_items _ Hs1)|]. }
    destruct (new_rv_wf req n created recorded Hpos) as [_ Hkey].
    destruct (Hrej (env attempt s) (newRuleVersionResource req n created recorded)) as [e ->];
      [apply Hs1|rewrite Hkey; by eexists|].
    rewrite <-Hwn in Hin. destruct (getVersionResource_hist _ _ _ _ _ Hs1 Hr Hin) as (spec & Hg & _).
    rewrite Hwn in Hg. rewrite Hg, get_historyState_ok by done. cbv zeta.
    assert (Hmax1 : max_no (env attempt s) (req_RuleKind req) (req_ResourceKey req) = n).
    { unfold max_no. rewrite Hw. simpl. done. }
    fold (max_no (env attempt s) (req_RuleKind req) (req_ResourceKey req)). rewrite Hmax1.
    rewrite i64_id by (unfold n, in_i64, i64_min, i64_max in *; lia).
    destruct (decide (n + 1 <= n)) as [?|_]; [lia|].
    destruct (IH (Datatypes.S attempt) (Some e) (env attempt s) Hs1 Henv) as (s' & ws & Hs' & Ho' & Hres);
      [rewrite Hmax1; unfold n; lia|by eexists|]. rewrite Hmax1 in Hres.
    exists s', (ws ++ [w]). split_and!; [done|by eapply others_same_trans|].
    destruct (decide (k - Datatypes.S attempt < fuel)%nat) as [Hk|Hk].
    + rewrite decide_True by lia. destruct Hres as (Hlen & Ha & Hh). rewrite length_app. simpl.
      replace (n + Z.of_nat (length ws + 1)) with (n + 1 + Z.of_nat (length ws)) by lia.
      split_and!; [lia|done|]. by rewrite Hh, Hw, <-(assoc_L (++)).
    + rewrite decide_False by lia. destruct Hres as (Hlen & Ha & Hh). rewrite length_app. simpl.
      split_and!; [lia|done|]. by rewrite Hh, Hw, <-(assoc_L (++)).
  - rewrite He. destruct (Add_next s req created recorded Hs) as (s' & Ha & Hs' & Ho' & Hh'); [lia|].
    fold n in Ha, Hh'. rewrite Ha. exists s', []. split_and!; [done|done|]. rewrite decide_True by lia. simpl.
    split_and!; [lia| |]; rewrite Z.add_0_r; done.
Qed.

Definition retained (maxVersions : Z) (l : list Version) : list Version :=
  if decide (0 < maxVersions) then take (Z.to_nat maxVersions) l else l.

Lemma trim_ok s kind key maxVersions :
  hist_ok s → 0 < maxVersions →
  ∃ s', trimVersionsLocked never s kind key maxVersions = (s', None) ∧ hist_ok s' ∧
    others_same kind key s s' ∧
    hist kind key (st_items s') = take (Z.to_nat maxVersions) (hist kind key (st_items s)).
Proof.
  intros Hs Hmax. unfold trimVersionsLocked. rewrite get_historyState_ok by done. simpl.
  case_decide as Hlen.
  - exists s. rewrite take_ge by lia. done.
  - destruct (delete_versions_ok s kind key (take (Z.to_nat maxVersions) (hist kind key (st_items s)))
      (drop (Z.to_nat maxVersions) (hist kind key (st_items s))) Hs) as (s' & Hd & Hs' & Hh & Ho);
      [by rewrite take_drop|]. by exists s'.
Qed.

(** The part of [insertVersionLocked] after the allocation. *)
Lemma finish_ok s1 req n created recorded maxVersions :
  hist_ok s1 →
  ∃ s', (if decide (0 < maxVersions)
         then (trimVersionsLocked never s1 (req_RuleKind req) (req_ResourceKey req) maxVersions).1
         else s1) = s' ∧
    protoToVersion (as_ruleVersion (res_spec (newRuleVersionResource req n created recorded)) ≫= id) =
      Ok (new_version req n created recorded) ∧
    hist_ok s' ∧ others_same (req_RuleKind req) (req_ResourceKey req) s1 s' ∧
    hist (req_RuleKind req) (req_ResourceKey req) (st_items s') =
      retained maxVersions (hist (req_RuleKind req) (req_ResourceKey req) (st_items s1)).
Proof.
  intros Hs. unfold retained. case_decide as Hm.
  - destruct (trim_ok s1 (req_RuleKind req) (req_ResourceKey req) maxVersions Hs Hm)
      as (s' & Ht & ? & ? & ?). exists s'. by rewrite Ht.
  - by exists s1.
Qed.

Definition created_at (req : InsertRequest) (now : Z) : Z :=
  if decide (req_CreatedAt req = 0) then now else req_CreatedAt req.

Lemma InsertVersion_never s req now maxVersions env :
  hist_ok s → max_no s (req_RuleKind req) (req_ResourceKey req) < i64_max →
  InsertVersion never env now s req maxVersions =
  match allocate maxVersionAllocateAttempts never env req (created_at req now) now 0 None s
          (max_no s (req_RuleKind req) (req_ResourceKey req) + 1) with
  | (s, Err e) => (s, Err e)
  | (s, Ok (_, rv)) =>
      (if decide (0 < maxVersions)
       then (trimVersionsLocked never s (req_RuleKind req) (req_ResourceKey req) maxVersions).1
       else s, protoToVersion (as_ruleVersion (res_spec rv) ≫= id))
  end.
Proof.
  intros Hs Hmax. unfold InsertVersion, insertVersionLocked. rewrite get_historyState_ok by done.
  destruct (next_free s (req_RuleKind req) (req_ResourceKey req) Hs Hmax) as (Hn & _ & _ & _).
  fold (max_no s (req_RuleKind req) (req_ResourceKey req)) in Hn |- *. rewrite Hn.
  fold (created_at req now). change (never CtxEntry) with (@None error).
  change (never CtxHistory) with (@None error). change (never CtxClock) with (@None error).
  cbv beta iota zeta. by destruct (allocate _ _ _ _ _ _ _ _ _ _) as [s' [[n' rv]|e]].
Qed.

Lemma insert_undisturbed s req now maxVersions :
  hist_ok s → max_no s (req_RuleKind req) (req_ResourceKey req) < i64_max →
  let n := max_no s (req_RuleKind req) (req_ResourceKey req) + 1 in
  let v := new_version req n (created_at req now) now in
  ∃ s', InsertVersion never (λ _ s, s) now s req maxVersions = (s', Ok v) ∧ hist_ok s' ∧
    hist (req_RuleKind req) (req_ResourceKey req) (st_items s') =
      retained maxVersions (v :: hist (req_RuleKind req) (req_ResourceKey req) (st_items s)) ∧
    others_same (req_RuleKind req) (req_ResourceKey req) s s'.
Proof.
  intros Hs Hmax n v. rewrite InsertVersion_never by done. fold n.
  destruct (Add_next s req (created_at req now) now Hs Hmax) as (s1 & Ha & Hs1 & Ho1 & Hh1).
  fold n in Ha, Hh1. unfold maxVersionAllocateAttempts. cbn [allocate].
  change (never (CtxBeforeAdd 0)) with (@None error). cbv beta iota. rewrite Ha.
  destruct (finish_ok s1 req n (created_at req now) now maxVersions Hs1)
    as (s' & He & Hv & Hs' & Ho' & Hh'). rewrite He, Hv, Hh1 in *.
  exists s'. split_and!; [done|done|done|by eapply others_same_trans].
Qed.

(** C4: appending to the history of a rule, undisturbed, records exactly one
    new version under the number after the newest one, in front of the old
    versions, of which retention keeps the newest so that at most
    [maxVersions] remain (all of them when it is not positive); the histories
    of all other rules stay as they are. *)
Theorem InsertVersion_appends s req now maxVersions :
  hist_ok s → max_no s (req_RuleKind req) (req_ResourceKey req) < i64_max →
  let n := max_no s (req_RuleKind req) (req_ResourceKey req) + 1 in
  let v := new_version req n (created_at req now) now in
  ∃ s', InsertVersion never (λ _ s, s) now s req maxVersions = (s', Ok v) ∧ hist_ok s' ∧
    hist (req_RuleKind req) (req_ResourceKey req) (st_items s') =
      retained maxVersions (v :: hist (req_RuleKind req) (req_ResourceKey req) (st_items s)) ∧
    others_same (req_RuleKind req) (req_ResourceKey req) s s'.
Proof. apply insert_undisturbed. Qed.

(** On a store that rejects taken keys, when other writers of the database
    win the next number before the first [k] attempts, an insertion still
    succeeds for [k] up to 15: it re-reads the history each time, overwrites
    nothing, and its version comes right after theirs. From 16 on it gives up
    with an error and records nothing of its own. *)
Theorem InsertVersion_contended s req now k env :
  Add_rejects → hist_ok s → contends (req_RuleKind req) (req_ResourceKey req) k env →
  max_no s (req_RuleKind req) (req_ResourceKey req) + 16 < i64_max →
  ∃ s' ws, hist_ok s' ∧ others_same (req_RuleKind req) (req_ResourceKey req) s s' ∧
  if decide (k < 16)%nat then
    length ws = k ∧
    let n := max_no s (req_RuleKind req) (req_ResourceKey req) + 1 + Z.of_nat k in
    let v := new_version req n (created_at req now) now in
    InsertVersion never env now s req 0 = (s', Ok v) ∧
    hist (req_RuleKind req) (req_ResourceKey req) (st_items s') =
      v :: ws ++ hist (req_RuleKind req) (req_ResourceKey req) (st_items s)
  else
    length ws = 16%nat ∧ (∃ e, InsertVersion never env now s req 0 = (s', Err e)) ∧
    hist (req_RuleKind req) (req_ResourceKey req) (st_items s') =
      ws ++ hist (req_RuleKind req) (req_ResourceKey req) (st_items s).
Proof.
  intros Hrej Hs Henv Hmax.
  assert (Hnever : ∀ mv, InsertVersion never env now s req mv = _)
    by (intros mv; apply InsertVersion_never; [done|lia]).
  rewrite (Hnever 0).
  destruct (allocate_contended maxVersionAllocateAttempts k 0 env None s req (created_at req now) now
    Hrej Hs Henv ltac:(unfold maxVersionAllocateAttempts; lia) ltac:(done)) as (s' & ws & Hs' & Ho & Hres).
  exists s', ws. split_and!; [done|done|]. unfold maxVersionAllocateAttempts in *.
  rewrite Nat.sub_0_r in Hres. destruct (decide (k < 16)%nat) as [Hk|Hk].
  - destruct Hres as (Hlen & Ha & Hh). rewrite Hlen in Ha, Hh. rewrite Ha.
    split_and!; [done| |done]. rewrite decide_False by lia. done.
  - destruct Hres as (Hlen & [e Ha] & Hh). rewrite Ha. split_and!; [done|by eexists|done].
Qed.

(** When the context is cancelled before the first attempt to store the
    version, its error is the result and nothing is recorded. *)
Theorem InsertVersion_cancelled s req now maxVersions ctx env e :
  hist_ok s →
  head (omap ctx [CtxEntry; CtxHistory; CtxClock; CtxBeforeAdd 0]) = Some e →
  InsertVersion ctx env now s req maxVersions = (s, Err e).
Proof.
  intros Hs. unfold InsertVersion, insertVersionLocked. rewrite get_historyState_ok by done. csimpl.
  destruct (ctx CtxEntry); [by intros [= ->]|]. destruct (ctx CtxHistory); [by intros [= ->]|].
  destruct (ctx CtxClock); [by intros [= ->]|]. unfold maxVersionAllocateAttempts. cbn [allocate].
  destruct (ctx (CtxBeforeAdd 0)); [by intros [= ->]|]. done.
Qed.
End histories.

Section service_properties.
Context {S : Type} `{ResourceStoreLaws S}.

Lemma LatestVersion_ok s kind key :
  hist_ok s → LatestVersion s kind key =
  match hist kind key (st_items s) with [] => Err ErrVersionNotFound | v :: _ => Ok v end.
Proof.
  intros Hs. unfold LatestVersion, get_HistorySnapshot. rewrite get_historyState_ok by done.
  simpl. unfold historySnapshotFromState. simpl. by destruct (hist kind key (st_items s)).
Qed.

Lemma GetVersion_ok s kind key v :
  hist_ok s → v ∈ hist kind key (st_items s) → GetVersion s kind key (ver_VersionNo v) = Ok v.
Proof.
  intros Hs (r & Hr & Hin)%elem_of_hist; [|apply Hs]. unfold GetVersion.
  destruct (getVersionResource_hist _ _ _ _ _ Hs Hr Hin) as (spec & -> & Hv). simpl. by rewrite Hv.
Qed.

(** The versions as [HistorySnapshot] hands them out: the first one marked. *)
Definition mark_head (l : list Version) : list Version :=
  match l with [] => [] | v :: l => with_latest v true :: l end.

Lemma mark_head_nos l : nos (mark_head l) = nos l.
Proof. by destruct l. Qed.

Lemma snapshot_versions s kind key :
  hist_ok s → ListVersions s kind key = Ok (mark_head (hist kind key (st_items s))).
Proof.
  intros Hs. unfold ListVersions, get_HistorySnapshot. rewrite get_historyState_ok by done.
  simpl. unfold historySnapshotFromState. simpl. by destruct (hist kind key (st_items s)).
Qed.

Lemma mark_head_sorted l : StronglySorted ver_ge l → StronglySorted ver_ge (mark_head l).
Proof. destruct 1 as [|v l Hl Hv]; [constructor|]. simpl. by constructor. Qed.

Lemma next_version_app l1 v l2 :
  NoDup (nos (l1 ++ v :: l2)) →
  next_version (ver_VersionNo v) (l1 ++ v :: l2) =
  match l2 with [] => Err ErrVersionNotFound | w :: _ => Ok w end.
Proof.
  induction l1 as [|x l1 IH]; simpl; intros Hnd; [by rewrite decide_True|].
  apply NoDup_cons in Hnd as [Hx Hnd]. rewrite decide_False; [by apply IH|].
  intros Heq. apply Hx. rewrite Heq, fmap_app. apply elem_of_app. right. left.
Qed.

(** comparing a version of a rule with "previous" shows its snapshot next
    to the one of the next older recorded version, also when retention or
    concurrent writers left gaps in the numbers; the oldest version has no
    previous one. *)
Theorem diff_with_previous s kind mesh name l1 v l2 :
  hist_ok s → hist kind (BuildResourceKey mesh name) (st_items s) = l1 ++ v :: l2 →
  DiffHistoryVersions (Some s) kind mesh name (ver_VersionNo v) "previous" =
  match l2 with
  | [] => Err ErrVersionNotFound
  | w :: _ => Ok {| dr_Left := {| ds_VersionNo := ver_VersionNo v; ds_SpecJSON := ver_SpecJSON v |};
                    dr_Right := {| ds_VersionNo := ver_VersionNo w; ds_SpecJSON := ver_SpecJSON w |} |}
  end.
Proof.
  intros Hs Hh. set (key := BuildResourceKey mesh name) in *.
  assert (Hv : v ∈ hist kind key (st_items s)) by (rewrite Hh; apply elem_of_app; right; left).
  pose proof (hist_NoDup kind key _ (ho_items _ Hs)) as Hnd.
  pose proof (hist_sorted kind key (st_items s)) as Hsort.
  unfold DiffHistoryVersions, available, Service_Get, available. fold key.
  rewrite GetVersion_ok by done. simpl. unfold get_HistorySnapshot.
  rewrite get_historyState_ok by done. simpl.
  unfold diffRight. rewrite decide_True by done. fold key. rewrite snapshot_versions by done. simpl.
  assert (Hsn : sort_versions (mark_head (hist kind key (st_items s))) =
    mark_head (hist kind key (st_items s))).
  { apply sorted_unique; [by apply mark_head_sorted|done|by rewrite mark_head_nos]. }
  rewrite Hsn. rewrite Hh in *.
  assert (Hm : ∃ l1' v', mark_head (l1 ++ v :: l2) = l1' ++ v' :: l2 ∧ ver_VersionNo v' = ver_VersionNo v).
  { destruct l1 as [|x l1]; simpl; [by exists [], (with_latest v true)|by exists (with_latest x true :: l1), v]. }
  destruct Hm as (l1' & v' & Hm & Hno). rewrite <-mark_head_nos, Hm in Hnd. rewrite Hm, <-Hno.
  rewrite next_version_app by done. unfold historySnapshotFromState. simpl.
  destruct l2 as [|w l2]; destruct l1 as [|x l1]; simpl; rewrite ?Hno; reflexivity.
Qed.

(** the list of a rule's history: newest first with strictly decreasing
    numbers, only the first marked as the latest, and the summary fields of
    the answer are its length, its first number and whether that is a DELETE. *)
Theorem history_list s kind mesh name :
  hist_ok s →
  ∃ lr, Service_List (Some s) kind mesh name = Ok lr ∧
    lr_Items lr = mark_head (hist kind (BuildResourceKey mesh name) (st_items s)) ∧
    StronglySorted ver_ge (lr_Items lr) ∧ NoDup (nos (lr_Items lr)) ∧
    lr_Total lr = Z.of_nat (length (lr_Items lr)) ∧
    lr_LatestRecordedVersionNo lr = max_no s kind (BuildResourceKey mesh name) ∧
    (lr_LatestRecordedDeleted lr = true ↔
      ∃ v, head (lr_Items lr) = Some v ∧ ver_Operation v = OperationDelete) ∧
    Forall (λ v, ver_IsLatestRecorded v = false) (tail (lr_Items lr)).
Proof.
  intros Hs. set (key := BuildResourceKey mesh name).
  pose proof (hist_NoDup kind key _ (ho_items _ Hs)) as Hnd.
  pose proof (mark_head_sorted _ (hist_sorted kind key (st_items s))) as Hsort.
  assert (Hflag : Forall (λ v, ver_IsLatestRecorded v = false) (hist kind key (st_items s))).
  { apply Forall_forall. intros v (r & (spec & _ & _ & ->)%ver_of_Some & _)%elem_of_hist;
      [done|apply Hs]. }
  unfold Service_List, available, get_HistorySnapshot, max_no. fold key.
  rewrite get_historyState_ok by done. simpl. unfold historySnapshotFromState. simpl.
  rewrite <-mark_head_nos in Hnd. revert Hnd Hsort Hflag.
  destruct (hist kind key (st_items s)) as [|v l]; simpl; intros Hnd Hsort Hflag;
    (eexists; split; [done|]; simpl; split_and!; try done).
  - split; [done|]. intros (? & ? & _). done.
  - rewrite bool_decide_eq_true. split; [by exists (with_latest v true)|]. by intros (? & [= <-] & ?).
  - by apply Forall_cons in Hflag as [_ ?].
Qed.

Section bootstrap.
Context (protojson_Marshal : Spec → result error string) (json_canonical : string → result error string)
  (HashSpecJSON : string → string).
Abbreviation Record_ now mv :=
  (RecordBootstrapState protojson_Marshal json_canonical HashSpecJSON never (λ _ s, s) now mv).

(** bringing an existing rule under version tracking records one baseline
    version, number 1 from source BOOTSTRAP, when it has no history, and
    nothing otherwise; doing it again changes nothing. *)
Theorem bootstrap_records_once s res now now' maxVersions hash json :
  hist_ok s → NormalizeResource protojson_Marshal json_canonical HashSpecJSON res = Ok (hash, json) →
  ∃ s', Record_ now maxVersions s res = (s', None) ∧ hist_ok s' ∧
    others_same (res_kind res) (ResourceKey res) s s' ∧
    match hist (res_kind res) (ResourceKey res) (st_items s) with
    | [] => ∃ v, hist (res_kind res) (ResourceKey res) (st_items s') = [v] ∧
        ver_VersionNo v = 1 ∧ ver_Source v = SourceBootstrap ∧ ver_SpecJSON v = json
    | _ => s' = s
    end ∧
    Record_ now' maxVersions s' res = (s', None).
Proof.
  intros Hs Hn. unfold RecordBootstrapState at 1. rewrite LatestVersion_ok by done.
  destruct (hist (res_kind res) (ResourceKey res) (st_items s)) as [|v l] eqn:Hh.
  - change (errors_is ErrVersionNotFound ErrVersionNotFound) with true. cbn [negb]. rewrite Hn.
    set (req := {| req_RuleKind := res_kind res |}).
    assert (Hmax : max_no s (res_kind res) (ResourceKey res) = 0) by (unfold max_no; by rewrite Hh).
    rewrite (InsertVersion_never s req) by (done || simpl; rewrite Hmax; done).
    simpl (req_RuleKind req). simpl (req_ResourceKey req). rewrite Hmax.
    destruct (Add_next s req (created_at req now) now Hs) as (s1 & Ha & Hs1 & Ho1 & Hh1);
      [simpl; by rewrite Hmax|].
    simpl (req_RuleKind req) in *. simpl (req_ResourceKey req) in *. rewrite Hmax in Ha, Hh1.
    unfold maxVersionAllocateAttempts. cbn [allocate].
    change (never (CtxBeforeAdd 0)) with (@None error). cbv beta iota. rewrite Ha.
    destruct (finish_ok s1 req (0 + 1) (created_at req now) now maxVersions Hs1)
      as (s' & He & Hv & Hs' & Ho' & Hh'). simpl (req_RuleKind req) in *.
    simpl (req_ResourceKey req) in *. rewrite He, Hv.
    assert (Hhist : hist (res_kind res) (ResourceKey res) (st_items s') =
      [new_version req (0 + 1) (created_at req now) now]).
    { rewrite Hh', Hh1, Hh. unfold retained. case_decide; [|done].
      apply take_ge. simpl. lia. }
    exists s'. split_and!; [done|done|by eapply others_same_trans|by eexists|].
    unfold RecordBootstrapState. by rewrite LatestVersion_ok, Hhist.
  - exists s. split_and!; try done. unfold RecordBootstrapState. by rewrite LatestVersion_ok, Hh.
Qed.
End bootstrap.
End service_properties.

(** ** The theorems at concrete histories *)
Module VersioningExample.
Import RefStore.

Definition none : store :=
  {| kind := RuleVersionKind; indexers := {["ByParentRule" := byParentRule]}; items := ∅ |}.

Lemma none_ok : hist_ok none.
Proof. split; [apply map_Forall_empty|done|done|apply map_Forall_empty]. Qed.

Definition request (spec author : string) : InsertRequest :=
  {| req_RuleKind := ConditionRouteKind; req_Mesh := "m"; req_ResourceKey := "m/shop";
     req_RuleName := "shop"; req_SpecJSON := spec; req_ContentHash := "h" +:+ spec;
     req_Source := SourceAdmin; req_Operation := OperationUpdate; req_Author := author;
     req_Reason := ""; req_RolledBackFromVersionNo := None; req_CreatedAt := 0 |}.

(** One more version of the rule. *)
Definition grow (s : store) (spec : string) : store :=
  (st_Add s (ResourceObj (newRuleVersionResource (request spec "bob")
    (max_no s ConditionRouteKind "m/shop" + 1) 5 5))).1.

Lemma grow_ok s spec :
  hist_ok s → max_no s ConditionRouteKind "m/shop" < i64_max →
  hist_ok (grow s spec) ∧ others_same ConditionRouteKind "m/shop" s (grow s spec) ∧
  hist ConditionRouteKind "m/shop" (st_items (grow s spec)) =
    new_version (request spec "bob") (max_no s ConditionRouteKind "m/shop" + 1) 5 5 ::
    hist ConditionRouteKind "m/shop" (st_items s).
Proof.
  intros Hs Hmax. destruct (Add_next s (request spec "bob") 5 5 Hs Hmax) as (s' & Ha & ? & ? & ?).
  unfold grow. simpl (req_RuleKind _) in Ha. simpl (req_ResourceKey _) in Ha.
  rewrite Ha. by split_and!.
Qed.

Definition two : store := grow (grow none "a") "b".

Lemma two_ok : hist_ok two.
Proof. apply grow_ok; [apply grow_ok; [apply none_ok|]|]; vm_compute; reflexivity. Qed.

Lemma InsertVersion_appends_witness :
  let s' := (InsertVersion never (λ _ s, s) 9 two (request "c" "ann") 2).1 in
  ver_VersionNo <$> hist ConditionRouteKind "m/shop" (st_items s') = [3; 2] ∧ hist_ok s'.
Proof.
  split; [vm_compute; reflexivity|].
  destruct (InsertVersion_appends two (request "c" "ann") 9 2 two_ok ltac:(vm_compute; reflexivity))
    as (s' & -> & Hs' & _). exact Hs'.
Defined.

Lemma rejects : Add_rejects.
Proof. intros s r _ Hp. simpl. rewrite bool_decide_eq_true_2 by done. by eexists. Qed.

(** Another writer, quicker on the first two attempts. *)
Definition other (i : nat) (s : store) : store := if decide (i < 2)%nat then grow s "w" else s.

Lemma other_contends : contends ConditionRouteKind "m/shop" 2 other.
Proof.
  intros i s Hs Hmax. unfold other. case_decide; [|done].
  destruct (grow_ok s "w" Hs Hmax) as (? & ? & ?). split_and!; [done|done|]. by eexists.
Qed.

Lemma InsertVersion_contended_witness :
  let s' := (InsertVersion never other 9 two (request "c" "ann") 0).1 in
  ver_SpecJSON <$> hist ConditionRouteKind "m/shop" (st_items s') = ["c"; "w"; "w"; "b"; "a"] ∧ hist_ok s'.
Proof.
  split; [vm_compute; reflexivity|].
  destruct (InsertVersion_contended two (request "c" "ann") 9 2 other rejects two_ok other_contends
    ltac:(vm_compute; reflexivity)) as (s' & ws & Hs' & _ & _ & -> & _). exact Hs'.
Defined.

Definition deadline : error := ErrorText "context deadline exceeded".

Lemma InsertVersion_cancelled_witness :
  InsertVersion (λ p, match p with CtxClock => Some deadline | _ => None end) (λ _ s, s) 9 two
    (request "c" "ann") 2 = (two, Err deadline).
Proof. apply InsertVersion_cancelled; [exact two_ok|reflexivity]. Defined.

Lemma diff_with_previous_witness :
  DiffHistoryVersions (Some two) ConditionRouteKind "m" "shop" 2 "previous" =
  Ok {| dr_Left := {| ds_VersionNo := 2; ds_SpecJSON := "b" |};
        dr_Right := {| ds_VersionNo := 1; ds_SpecJSON := "a" |} |}.
Proof.
  exact (diff_with_previous two ConditionRouteKind "m" "shop" []
    (new_version (request "b" "bob") 2 5 5) [new_version (request "a" "bob") 1 5 5]
    two_ok ltac:(vm_compute; reflexivity)).
Defined.

Lemma history_list_witness :
  ∃ lr, Service_List (Some two) ConditionRouteKind "m" "shop" = Ok lr ∧ lr_Total lr = 2.
Proof.
  destruct (history_list two ConditionRouteKind "m" "shop" two_ok)
    as (lr & Hlr & Hit & _ & _ & Ht & _). exists lr. split; [exact Hlr|].
  rewrite Ht, Hit. vm_compute. reflexivity.
Defined.

Definition rule : Resource :=
  {| res_meta := {| meta_Name := "new"; meta_Labels := None; meta_Annotations := None |};
     res_Mesh := "m"; res_spec := ConditionRouteSpec None |}.

Lemma bootstrap_records_once_witness :
  ∃ s', RecordBootstrapState (λ _, Ok "null") Ok (λ s, "#" +:+ s) never (λ _ s, s) 9 2 two rule = (s', None) ∧
    ver_SpecJSON <$> hist ConditionRouteKind "m/new" (st_items s') = ["null"].
Proof.
  destruct (bootstrap_records_once (λ _, Ok "null") Ok (λ s, "#" +:+ s) two rule 9 12 2 "#null" "null"
    two_ok eq_refl) as (s' & Hr & _ & _ & Hh & _). exists s'. split; [exact Hr|].
  change s' with (s', @None error).1. rewrite <-Hr. vm_compute. reflexivity.
Defined.
End VersioningExample.
