(* ===== verification/Runtime.v ===== *)
(** pkg/core/runtime (dependency_graph.go, registry.go, builder.go) and
    pkg/core/bootstrap: the components of the process, the order their
    dependencies allow, and their initialization in that order. *)
From S2P Require Import Prelude GoStrings Errors.

Open Scope string_scope.
Open Scope list_scope.
Open Scope Z_scope.

(** ** component.go

    A [Component] is a reference; [Init] and what it does to the process is a
    parameter of the bootstrap below. *)
Abbreviation ComponentType := string (only parsing).

Record Component := {
  Type_ : ComponentType;
  Order : Z;
  RequiredDependencies : list ComponentType }.

Definition Console : ComponentType := "console".
Definition ResourceManager : ComponentType := "resource manager".
Definition ResourceStore : ComponentType := "resource store".
Definition ResourceEngine : ComponentType := "resource engine".
Definition ResourceDiscovery : ComponentType := "resource discovery".
Definition EventBus : ComponentType := "event bus".
Definition RuleGovernor : ComponentType := "rule governor".

Definition CoreComponentTypes : list ComponentType :=
  [Console; ResourceManager; ResourceStore; ResourceEngine; ResourceDiscovery; RuleGovernor].

(** ** registry.go *)
Definition Registry := gmap ComponentType Component.

Definition noSuchComponentError (typ : ComponentType) : error :=
  ErrorText ("there is no available component registered with type " +:+ go_quote typ).
Definition componentAlreadyRegisteredError (typ : ComponentType) : error :=
  ErrorText ("component " +:+ go_quote typ +:+ " has already been registered").

Definition Register (r : Registry) (component : Component) : Registry * option error :=
  match r !! Type_ component with
  | Some _ => (r, Some (componentAlreadyRegisteredError (Type_ component)))
  | None => (<[Type_ component := component]> r, None)
  end.

Definition Get (r : Registry) (typ : ComponentType) : result error Component :=
  match r !! typ with
  | None => Err (noSuchComponentError typ)
  | Some component => Ok component
  end.

(** ** dependency_graph.go *)
Record DependencyGraph := {
  dg_components : gmap ComponentType Component;
  dg_adjList : gmap ComponentType (list ComponentType) }.

Definition add_edge (typ : ComponentType) (adj : gmap ComponentType (list ComponentType))
    (dependency : ComponentType) : gmap ComponentType (list ComponentType) :=
  <[dependency := default [] (adj !! dependency) ++ [typ]]> adj.

Definition NewDependencyGraph (components : list Component) : DependencyGraph :=
  {| dg_components := foldl (λ m comp, <[Type_ comp := comp]> m) ∅ components;
     dg_adjList :=
       foldl (λ adj comp, foldl (add_edge (Type_ comp)) adj (RequiredDependencies comp))
         (foldl (λ adj comp, <[Type_ comp := []]> adj) ∅ components) components |}.

Definition missing_dependency_error (typ dependency : ComponentType) : error :=
  biz_wrap (ErrorText ("missing dependency " +:+ go_quote dependency)) ConfigError
    ("component " +:+ go_quote typ +:+ " requires missing dependency " +:+ go_quote dependency
     +:+ ". Hint: Make sure " +:+ go_quote dependency +:+ " is registered in ComponentRegistry()").

Fixpoint validate_deps (dg : DependencyGraph) (typ : ComponentType)
    (deps : list ComponentType) : option error :=
  match deps with
  | [] => None
  | dependency :: deps =>
      match dg_components dg !! dependency with
      | None => Some (missing_dependency_error typ dependency)
      | Some _ => validate_deps dg typ deps
      end
  end.

Fixpoint validate_components (dg : DependencyGraph) (l : list (ComponentType * Component))
    : option error :=
  match l with
  | [] => None
  | (_, comp) :: l =>
      match validate_deps dg (Type_ comp) (RequiredDependencies comp) with
      | Some e => Some e
      | None => validate_components dg l
      end
  end.

(** The loop body over the dependents of the visited component. *)
Definition relax (visited : gset ComponentType) (st : gmap ComponentType Z * list ComponentType)
    (dependent : ComponentType) : gmap ComponentType Z * list ComponentType :=
  let d := default 0 (st.1 !! dependent) - 1 in
  (<[dependent := d]> st.1,
   if decide (d = 0 ∧ dependent ∉ visited) then st.2 ++ [dependent] else st.2).

(** The loop over the queue; the result is kept as component types. Running
    out of fuel is [None]. *)
Fixpoint kahn (fuel : nat) (dg : DependencyGraph) (indegree : gmap ComponentType Z)
    (queue result : list ComponentType) (visited : gset ComponentType)
    : option (list ComponentType) :=
  match sort_strings queue with
  | [] => Some result
  | current :: queue =>
      match fuel with
      | O => None
      | S fuel =>
          let visited := {[current]} ∪ visited in
          let st := foldl (relax visited) (indegree, queue)
                      (default [] (dg_adjList dg !! current)) in
          kahn fuel dg st.1 st.2 (result ++ [current]) visited
      end
  end.

(** [findCycle]: the state the closure [dfs] shares. *)
Record dfs_state := {
  ds_visited : gset ComponentType;
  ds_recStack : gset ComponentType;
  ds_cycle : list ComponentType }.

(** The inner loop: the suffix of the path from [dependency] on. *)
Fixpoint suffix_from (dependency : ComponentType) (cycle : list ComponentType)
    : option (list ComponentType) :=
  match cycle with
  | [] => None
  | typ :: rest => if decide (typ = dependency) then Some cycle else suffix_from dependency rest
  end.

Section dfs.
Context (dfs : ComponentType → dfs_state → option (bool * dfs_state)).

(** The loop over the dependencies of a node. *)
Fixpoint dfs_loop (deps : list ComponentType) (st : dfs_state) : option (bool * dfs_state) :=
  match deps with
  | [] => Some (false, st)
  | dependency :: deps =>
      if decide (dependency ∈ ds_visited st) then
        if decide (dependency ∈ ds_recStack st) then
          match suffix_from dependency (ds_cycle st) with
          | Some c => Some (true, {| ds_visited := ds_visited st; ds_recStack := ds_recStack st;
                                     ds_cycle := c |})
          | None => dfs_loop deps st
          end
        else dfs_loop deps st
      else
        match dfs dependency st with
        | Some (false, st) => dfs_loop deps st
        | r => r
        end
  end.
End dfs.

(** [dg.components[node].RequiredDependencies()]; a nil component panics, which
    validation excludes. *)
Definition deps_of (m : gmap ComponentType Component) (node : ComponentType) : list ComponentType :=
  match m !! node with Some comp => RequiredDependencies comp | None => [] end.

Fixpoint dfs (fuel : nat) (dg : DependencyGraph) (node : ComponentType) (st : dfs_state)
    : option (bool * dfs_state) :=
  match fuel with
  | O => None
  | S fuel =>
      match dfs_loop (dfs fuel dg) (deps_of (dg_components dg) node)
              {| ds_visited := {[node]} ∪ ds_visited st; ds_recStack := {[node]} ∪ ds_recStack st;
                 ds_cycle := ds_cycle st ++ [node] |} with
      | Some (false, st) =>
          Some (false, {| ds_visited := ds_visited st; ds_recStack := ds_recStack st ∖ {[node]};
                          ds_cycle := take (length (ds_cycle st) - 1) (ds_cycle st) |})
      | r => r
      end
  end.

Fixpoint find_from (dg : DependencyGraph) (l : list ComponentType) (st : dfs_state)
    : option (list ComponentType) :=
  match l with
  | [] => Some []
  | typ :: l =>
      if decide (typ ∈ ds_visited st) then find_from dg l st
      else match dfs (S (size (dg_components dg))) dg typ st with
           | None => None
           | Some (true, st) => Some (ds_cycle st)
           | Some (false, st) => find_from dg l st
           end
  end.

Definition newCircularDependencyError (cycle : list ComponentType) : error :=
  match cycle with
  | [] => biz_new ConfigError "circular dependency detected"
  | first :: _ =>
      biz_new ConfigError
        ("circular dependency detected: " +:+ String.concat " -> " (cycle ++ [first]) +:+
         ". Please check the RequiredDependencies() methods of these components and break the cycle")
  end.

Section sort.
Context `{MapRange}.

Definition validate (dg : DependencyGraph) : option error :=
  validate_components dg (go_range (dg_components dg)).

Definition findCycle (dg : DependencyGraph) : option (list ComponentType) :=
  find_from dg (go_range (dg_components dg)).*1
    {| ds_visited := ∅; ds_recStack := ∅; ds_cycle := [] |}.

Definition indegrees (dg : DependencyGraph) : gmap ComponentType Z :=
  foldl (λ m p, <[Type_ p.2 := Z.of_nat (length (RequiredDependencies p.2))]> m) ∅
    (go_range (dg_components dg)).

Definition roots (indegree : gmap ComponentType Z) : list ComponentType :=
  (filter (λ p, p.2 = 0) (go_range indegree)).*1.

(** [None] is running out of fuel; the theorems show it never happens. *)
Definition TopologicalSort (dg : DependencyGraph) : option (result error (list Component)) :=
  match validate dg with
  | Some e => Some (Err e)
  | None =>
      result ← kahn (size (dg_components dg)) dg (indegrees dg) (roots (indegrees dg)) [] ∅;
      if decide (length result = size (dg_components dg))
      then Some (Ok (omap (dg_components dg !!.) result))
      else cycle ← findCycle dg; Some (Err (newCircularDependencyError cycle))
  end.

(** ** bootstrap.go *)
Definition gather_core (r : Registry) : list (string * ComponentType) → result error (list Component) :=
  result_mapM (λ p, match Get r p.2 with
    | Err e => Err (biz_wrap e UnknownError ("failed to get component " +:+ p.1))
    | Ok c => Ok c
    end).

Definition coreComps : list (string * ComponentType) :=
  [("EventBus", EventBus); ("ResourceStore", ResourceStore);
   ("ResourceDiscovery", ResourceDiscovery); ("ResourceEngine", ResourceEngine);
   ("ResourceManager", ResourceManager); ("Console", Console); ("RuleGovernor", RuleGovernor)].
Definition optionalComps : list ComponentType :=
  ["counter manager"; "diagnostics server"; "distributed lock"; "rule versioning"].

Definition gatherComponents (r : Registry) : result error (list Component) :=
  core ← gather_core r coreComps;
  Ok (core ++ omap (λ typ, r !! typ) optionalComps).

Definition sortComponents (components : list Component) : option (result error (list Component)) :=
  TopologicalSort (NewDependencyGraph components).

(** ** builder.go

    A [Builder] is the map of its activated components. *)
Definition Builder := gmap ComponentType Component.

Definition GetActivatedComponent (b : Builder) (typ : ComponentType) : result error Component :=
  match b !! typ with
  | None => Err (ErrorText ("no such component: " +:+ typ))
  | Some comp => Ok comp
  end.

Definition ActivateComponent (b : Builder) (comp : Component) : Builder * option error :=
  match b !! Type_ comp with
  | Some _ => (b, Some (ErrorText ("component with type " +:+ Type_ comp +:+
                                    " has already been activated")))
  | None => (<[Type_ comp := comp]> b, None)
  end.

(** The components of the runtime, when every core component is there. *)
Definition Build (b : Builder) : result error (gmap ComponentType Component) :=
  match filter (λ typ, b !! typ = None) CoreComponentTypes with
  | typ :: _ => Err (ErrorText (typ +:+ " has not been configured"))
  | [] => Ok b
  end.

(** [comp.Init(builder)] on the rest of the process, [W]. *)
Context {W : Type} (Init : Component → Builder → W → W * option error).

Definition initAndActivateComponent (b : Builder) (w : W) (comp : Component)
    : Builder * W * option error :=
  match Init comp b w with
  | (w, Some e) => (b, w, Some e)
  | (w, None) =>
      match ActivateComponent b comp with
      | (b, Some e) => (b, w, Some (biz_wrap e UnknownError ("failed to activate " +:+ Type_ comp)))
      | (b, None) => (b, w, None)
      end
  end.

Fixpoint init_in_order (b : Builder) (w : W) (ordered : list Component)
    : Builder * W * option error :=
  match ordered with
  | [] => (b, w, None)
  | comp :: ordered =>
      match initAndActivateComponent b w comp with
      | (b, w, Some e) =>
          (b, w, Some (biz_wrap e UnknownError ("failed to initialize component " +:+ Type_ comp)))
      | (b, w, None) => init_in_order b w ordered
      end
  end.

Definition bootstrapComponents (r : Registry) (b : Builder) (w : W)
    : option (Builder * W * option error) :=
  match gatherComponents r with
  | Err e => Some (b, w, Some (biz_wrap e UnknownError "failed to gather components"))
  | Ok components =>
      ordered ← sortComponents components;
      match ordered with
      | Err e => Some (b, w, Some (biz_wrap e UnknownError "failed to sort components by dependencies"))
      | Ok ordered => Some (init_in_order b w ordered)
      end
  end.

Definition Bootstrap (r : Registry) (w : W) : option (W * result error (gmap ComponentType Component)) :=
  '(b, w, err) ← bootstrapComponents r ∅ w;
  Some (w, match err with Some e => Err e | None => Build b end).
End sort.

(** ** The graph of a list of components *)
Section graph.
Context (cs : list Component).
Abbreviation types := (Type_ <$> cs).

(** No two components of one type, as [Register] ensures. *)
Definition distinct : Prop := NoDup types.
(** Every required component is there. *)
Definition closed : Prop :=
  ∀ c d, c ∈ cs → d ∈ RequiredDependencies c → d ∈ types.
(** [depends d t]: the component [t] requires [d]. *)
Definition depends (d t : ComponentType) : Prop :=
  ∃ c, c ∈ cs ∧ Type_ c = t ∧ d ∈ RequiredDependencies c.

Abbreviation dg := (NewDependencyGraph cs).

Definition occ (x : ComponentType) (l : list ComponentType) : nat := length (filter (x =.) l).

Lemma occ_cons x y l : occ x (y :: l) = ((if decide (x = y) then 1 else 0) + occ x l)%nat.
Proof. unfold occ. rewrite filter_cons. by case_decide. Qed.

Lemma occ_app x l k : occ x (l ++ k) = (occ x l + occ x k)%nat.
Proof. unfold occ. by rewrite filter_app, length_app. Qed.

Lemma occ_pos x l : (0 < occ x l)%nat ↔ x ∈ l.
Proof.
  induction l as [|y l IH]; [by rewrite elem_of_nil; unfold occ; simpl; lia|].
  rewrite occ_cons, elem_of_cons, <-IH. case_decide; naive_solver lia.
Qed.

Lemma dg_components_eq : distinct →
  dg_components dg = list_to_map ((λ c, (Type_ c, c)) <$> cs).
Proof.
  unfold distinct. intros Hd. simpl. apply map_eq. intros t.
  assert (Hg : ∀ (l : list Component) (m : gmap ComponentType Component), NoDup (Type_ <$> l) →
    foldl (λ m comp, <[Type_ comp := comp]> m) m l !! t =
    (list_to_map ((λ c, (Type_ c, c)) <$> l) ∪ m) !! t).
  { induction l as [|c l IH]; intros m; simpl; [by rewrite (left_id_L ∅ (∪))|].
    intros [Hc Hl]%NoDup_cons. rewrite IH by done. destruct (decide (t = Type_ c)) as [->|Hne].
    - assert ((list_to_map ((λ c, (Type_ c, c)) <$> l) : gmap ComponentType Component) !! Type_ c = None) as Hn.
      { apply not_elem_of_list_to_map_1. rewrite <-list_fmap_compose. done. }
      rewrite lookup_union_r by done. rewrite lookup_insert_eq, lookup_union, lookup_insert_eq. simpl.
      by destruct (m !! _).
    - rewrite !lookup_union. by rewrite !lookup_insert_ne by done. }
  rewrite Hg by done. by rewrite (right_id_L ∅ (∪)).
Qed.

Lemma components_lookup t c : distinct →
  dg_components dg !! t = Some c ↔ c ∈ cs ∧ Type_ c = t.
Proof.
  intros Hd. rewrite dg_components_eq by done. unfold distinct in Hd.
  rewrite <-elem_of_list_to_map.
  - rewrite list_elem_of_fmap. naive_solver.
  - by rewrite <-list_fmap_compose.
Qed.

Lemma components_dom t : distinct → is_Some (dg_components dg !! t) ↔ t ∈ types.
Proof.
  intros Hd. rewrite list_elem_of_fmap. split.
  - intros [c Hc]. apply components_lookup in Hc as [??]; [|done]. by exists c.
  - intros (c & -> & Hc). exists c. by apply components_lookup.
Qed.

Lemma size_components : distinct → size (dg_components dg) = length cs.
Proof.
  intros Hd. rewrite dg_components_eq by done.
  rewrite <-length_map_to_list, map_to_list_to_map, length_fmap; [done|].
  by rewrite <-list_fmap_compose.
Qed.

Lemma depends_deps d t : distinct → depends d t ↔ d ∈ deps_of (dg_components dg) t.
Proof.
  intros Hd. unfold depends, deps_of. split.
  - intros (c & Hc & <- & Hin). by rewrite (proj2 (components_lookup _ c Hd)).
  - destruct (dg_components dg !! t) as [c|] eqn:E; [|by intros ?%elem_of_nil].
    apply components_lookup in E as [??]; [|done]. by exists c.
Qed.

(** The adjacency list counts the requirements. *)
Lemma add_edge_lookup typ d deps adj :
  default [] (foldl (add_edge typ) adj deps !! d) = default [] (adj !! d) ++ replicate (occ d deps) typ.
Proof.
  revert adj. induction deps as [|x deps IH]; intros adj; simpl; [by rewrite (right_id_L [] (++))|].
  rewrite IH, occ_cons. unfold add_edge. case_decide as Hx.
  - subst x. rewrite lookup_insert_eq. simpl. by rewrite <-(assoc_L (++)).
  - by rewrite lookup_insert_ne.
Qed.

Lemma adj_lookup d :
  default [] (dg_adjList dg !! d) = mbind (λ c, replicate (occ d (RequiredDependencies c)) (Type_ c)) cs.
Proof.
  simpl. set (adj0 := foldl (λ adj comp, <[Type_ comp := []]> adj) ∅ cs).
  assert (H0 : default [] (adj0 !! d) = []).
  { assert (Hg : ∀ (l : list Component) (adj : gmap ComponentType (list ComponentType)),
      default [] (adj !! d) = [] →
      default [] (foldl (λ adj comp, <[Type_ comp := []]> adj) adj l !! d) = []).
    { induction l as [|c l IH]; intros adj Ha; simpl; [done|]. apply IH.
      destruct (decide (Type_ c = d)) as [<-|?]; [by rewrite lookup_insert_eq|by rewrite lookup_insert_ne]. }
    by apply Hg. }
  clearbody adj0. revert adj0 H0. generalize cs as l. induction l as [|c l IH]; intros adj Ha; simpl; [done|].
  assert (Hg : ∀ l adj, default [] (foldl (λ adj comp, foldl (add_edge (Type_ comp)) adj
      (RequiredDependencies comp)) adj l !! d) = default [] (adj !! d) ++
      mbind (λ c, replicate (occ d (RequiredDependencies c)) (Type_ c)) l).
  { clear. induction l as [|c l IH]; intros adj; simpl; [by rewrite (right_id_L [] (++))|].
    by rewrite IH, add_edge_lookup, <-(assoc_L (++)). }
  by rewrite Hg, add_edge_lookup, Ha.
Qed.

Lemma occ_replicate x n y : occ x (replicate n y) = if decide (x = y) then n else 0%nat.
Proof.
  induction n as [|n IH]; simpl; [by case_decide|]. rewrite occ_cons, IH. by case_decide.
Qed.

Lemma occ_adj d t : distinct →
  occ t (default [] (dg_adjList dg !! d)) = occ d (deps_of (dg_components dg) t).
Proof.
  intros Hd. rewrite adj_lookup.
  assert (Hg : ∀ l, NoDup (Type_ <$> l) →
    occ t (mbind (λ c, replicate (occ d (RequiredDependencies c)) (Type_ c)) l) =
    match list_find (λ c, Type_ c = t) l with Some (_, c) => occ d (RequiredDependencies c) | None => 0%nat end).
  { induction l as [|c l IH]; [done|]. csimpl. intros [Hc Hl]%NoDup_cons.
    rewrite occ_app, occ_replicate, IH by done. destruct (decide (Type_ c = t)) as [<-|Hne].
    - rewrite decide_True by done. destruct (list_find _ l) as [[i c']|] eqn:E; simpl; [|lia].
      exfalso. apply list_find_Some in E as (Hi & Heq & _). apply Hc.
      rewrite <-Heq. apply list_elem_of_fmap. exists c'. split; [done|by eapply list_elem_of_lookup_2].
    - rewrite decide_False by done. by destruct (list_find _ l) as [[i c']|]. }
  rewrite Hg by done. unfold deps_of.
  destruct (list_find _ cs) as [[i c]|] eqn:E.
  - apply list_find_Some in E as (Hi & Ht & _).
    by rewrite (proj2 (components_lookup t c Hd)) by (split; [by eapply list_elem_of_lookup_2|done]).
  - destruct (dg_components dg !! t) as [c|] eqn:E'; [|done].
    apply components_lookup in E' as [Hc Ht]; [|done].
    apply list_find_None in E. rewrite Forall_forall in E. by apply E in Ht.
Qed.

(** ** Kahn's algorithm *)
Abbreviation count m t := (default 0 ((m : gmap ComponentType Z) !! t)).

Lemma relax_fold visited l ind q :
  (∀ t, Z.of_nat (occ t l) <= count ind t) →
  ∃ ind' new, foldl (relax visited) (ind, q) l = (ind', q ++ new) ∧
    (∀ t, count ind' t = count ind t - Z.of_nat (occ t l)) ∧ NoDup new ∧
    ∀ t, t ∈ new ↔ t ∈ l ∧ count ind t = Z.of_nat (occ t l) ∧ t ∉ visited.
Proof.
  revert ind q. induction l as [|x l IH]; intros ind q Hle; simpl.
  { exists ind, []. rewrite (right_id_L [] (++)). split_and!; [done|intros t; unfold occ; simpl; lia|constructor|].
    intros t. rewrite elem_of_nil. naive_solver. }
  unfold relax at 2. simpl. set (d := count ind x - 1).
  assert (Hx := Hle x). rewrite occ_cons, decide_True in Hx by done.
  assert (Hcnt : ∀ t, count (<[x:=d]> ind) t = count ind t - (if decide (t = x) then 1 else 0)).
  { intros t. case_decide as Ht; [subst t; by rewrite lookup_insert_eq|].
    rewrite lookup_insert_ne by done. lia. }
  destruct (IH (<[x:=d]> ind) (if decide (d = 0 ∧ x ∉ visited) then q ++ [x] else q))
    as (ind' & new & Hf & Hind & Hnd & Hnew).
  { intros t. rewrite Hcnt. specialize (Hle t). rewrite occ_cons in Hle. repeat case_decide; try done; lia. }
  rewrite Hf.
  assert (Hmem : ∀ t, t ∈ new ↔ t ∈ l ∧ count ind t = Z.of_nat (occ t (x :: l)) ∧ t ∉ visited).
  { intros t. rewrite Hnew, Hcnt, occ_cons. repeat case_decide; try done; split; intros (? & ? & ?); (split_and!; [done|lia|done]). }
  exists ind', ((if decide (d = 0 ∧ x ∉ visited) then [x] else []) ++ new). split_and!.
  - case_decide; [by rewrite (assoc_L (++))|done].
  - intros t. rewrite Hind, Hcnt, occ_cons. repeat case_decide; try done; lia.
  - case_decide as Hd; [|done]. simpl. apply NoDup_cons. split; [|done].
    rewrite Hmem, <-occ_pos, occ_cons, decide_True by done. unfold d in Hd. lia.
  - intros t. rewrite elem_of_app, Hmem, elem_of_cons. split.
    + intros [Ht|Ht]; [|naive_solver]. case_decide as Hd; [|by apply elem_of_nil in Ht].
      apply list_elem_of_singleton in Ht as ->. rewrite occ_cons, decide_True in * by done.
      unfold d in Hd. split_and!; [by left|lia|naive_solver].
    + intros ([->|Ht] & Hc & Hv); [|by right].
      destruct (decide (x ∈ l)) as [Hin|Hin]; [by right|].
      left. rewrite decide_True; [by left|]. split; [|done]. rewrite occ_cons, decide_True in Hc by done.
      rewrite <-occ_pos in Hin. unfold d. lia.
Qed.

Abbreviation deps := (deps_of (dg_components dg)).

Record kahn_ok (ind : gmap ComponentType Z) (queue R : list ComponentType) : Prop := {
  ko_nodup : NoDup (R ++ queue);
  ko_types : R ++ queue ⊆ types;
  ko_count t : count ind t = Z.of_nat (length (filter (.∉ R) (deps t)));
  ko_ready t : t ∈ types → t ∈ R ++ queue ↔ deps t ⊆ R;
  ko_order l1 t l2 : R = l1 ++ t :: l2 → deps t ⊆ l1 }.

Lemma filter_visited cur R (l : list ComponentType) :
  cur ∉ R →
  (length (filter (.∉ R ++ [cur]) l) + occ cur l = length (filter (.∉ R) l))%nat.
Proof.
  intros Hcur. induction l as [|x l IH]; [done|]. rewrite occ_cons, !filter_cons.
  assert (Hx : x ∉ R ++ [cur] ↔ x ∉ R ∧ cur ≠ x).
  { rewrite not_elem_of_app, list_elem_of_singleton. naive_solver. }
  destruct (decide (cur = x)) as [<-|Hne].
  - rewrite (decide_False (P := cur ∉ R ++ [cur])), decide_True by naive_solver. simpl. lia.
  - destruct (decide (x ∉ R)).
    + rewrite (decide_True (P := x ∉ R ++ [cur])) by naive_solver. simpl. lia.
    + rewrite decide_False by naive_solver. done.
Qed.

Lemma filter_all_visited R (l : list ComponentType) : length (filter (.∉ R) l) = 0%nat ↔ l ⊆ R.
Proof.
  rewrite length_zero_iff_nil. induction l as [|x l IH]; [split; [intros _; apply list_subseteq_nil|done]|].
  rewrite filter_cons. case_decide as Hx.
  - split; [done|]. intros Hs. exfalso. apply Hx, Hs. left.
  - rewrite IH. split; intros Hs y.
    + intros [->|Hy]%elem_of_cons; [done|by apply Hs].
    + intros Hy. apply Hs. by right.
Qed.

Lemma kahn_step ind queue R cur q visited :
  distinct → kahn_ok ind queue R → (∀ t, t ∈ visited ↔ t ∈ R ++ [cur]) → queue ≡ₚ cur :: q →
  ∃ ind' q', foldl (relax visited) (ind, q) (default [] (dg_adjList dg !! cur)) = (ind', q') ∧
    kahn_ok ind' q' (R ++ [cur]).
Proof.
  intros Hd [Hnd Hty Hcnt Hready Hord] Hvis Hq. rewrite Hq in Hnd, Hty.
  assert (Hcur : cur ∉ R) by (apply NoDup_app in Hnd as (_ & Hdisj & _); intros Hin; apply (Hdisj _ Hin); left).
  assert (Hct : cur ∈ types) by (apply Hty, elem_of_app; right; left).
  destruct (relax_fold visited (default [] (dg_adjList dg !! cur)) ind q)
    as (ind' & new & Hf & Hind & Hnn & Hnew).
  { intros t. rewrite Hcnt, occ_adj by done. pose proof (filter_visited cur R (deps t) Hcur). lia. }
  assert (Hind' : ∀ t, count ind' t = Z.of_nat (length (filter (.∉ R ++ [cur]) (deps t)))).
  { intros t. rewrite Hind, Hcnt, occ_adj by done. pose proof (filter_visited cur R (deps t) Hcur). lia. }
  assert (Hnew' : ∀ t, t ∈ new ↔ cur ∈ deps t ∧ deps t ⊆ R ++ [cur] ∧ t ∉ R ++ [cur]).
  { intros t. rewrite Hnew, Hvis, <-!occ_pos, occ_adj, <-filter_all_visited by done.
    specialize (Hind t). rewrite Hind', occ_adj in Hind by done.
    split; intros (? & ? & ?); (split_and!; [done|lia|done]). }
  assert (Htn : ∀ t, t ∈ new → t ∈ types).
  { intros t (Hin & _)%Hnew'. apply (components_dom t Hd). unfold deps_of in Hin.
    destruct (dg_components dg !! t); [done|by apply elem_of_nil in Hin]. }
  assert (Hcr : deps cur ⊆ R).
  { apply Hready; [done|]. rewrite Hq. apply elem_of_app. right. left. }
  exists ind', (q ++ new). split; [done|].
  rewrite (cons_middle cur R q), (assoc_L (++)) in Hnd, Hty. split.
  - rewrite (assoc_L (++)). apply NoDup_app. split_and!; [done| |done].
    intros t Ht (Hin & _ & Hnin)%Hnew'. apply elem_of_app in Ht as [?|Ht]; [done|].
    assert (Htr : t ∈ R ++ queue) by (rewrite Hq; apply elem_of_app; right; by right).
    apply Hready in Htr; [|apply Hty, elem_of_app; by right]. by apply Hcur, Htr.
  - rewrite (assoc_L (++)). intros t [?|?]%elem_of_app; [by apply Hty|by apply Htn].
  - done.
  - intros t Ht. rewrite (assoc_L (++)), elem_of_app, Hnew'.
    specialize (Hready t Ht). rewrite Hq, (cons_middle cur R q), (assoc_L (++)) in Hready.
    rewrite Hready. split.
    + intros [Hs|(_ & Hs & _)]; [|done]. etrans; [exact Hs|]. intros x Hx. apply elem_of_app. by left.
    + intros Hs. destruct (decide (cur ∈ deps t)) as [Hin|Hin].
      * right. split_and!; [done|done|]. intros [Hr| ->%list_elem_of_singleton]%elem_of_app.
        -- assert (Hsub : deps t ⊆ R) by (apply Hready; apply elem_of_app; left; apply elem_of_app; by left).
           by apply Hcur, Hsub.
        -- by apply Hcur, Hcr.
      * left. intros x Hx. assert (Hxs := Hs x Hx).
        apply elem_of_app in Hxs as [?| ->%list_elem_of_singleton]; done.
  - intros l1 t l2 Heq. destruct l2 as [|y l2 _] using rev_ind.
    + apply app_inj_tail in Heq as [<- <-]. done.
    + rewrite app_comm_cons, (assoc_L (++)) in Heq. apply app_inj_tail in Heq as [Heq _]. by eapply Hord.
Qed.

Lemma kahn_ok_length ind queue R : distinct → kahn_ok ind queue R → (length R + length queue <= length cs)%nat.
Proof.
  intros Hd [Hnd Hty _ _ _]. rewrite <-length_app, <-(length_fmap Type_).
  by apply submseteq_length, NoDup_submseteq.
Qed.

Lemma kahn_run fuel ind queue R visited :
  distinct → kahn_ok ind queue R → (∀ t, t ∈ visited ↔ t ∈ R) → (length cs <= fuel + length R)%nat →
  ∃ ind' R', kahn fuel dg ind queue R visited = Some R' ∧ kahn_ok ind' [] R'.
Proof.
  intros Hd. revert ind queue R visited. induction fuel as [|fuel IH]; intros ind queue R visited Hk Hv Hf;
    pose proof (kahn_ok_length _ _ _ Hd Hk) as Hlen; cbn [kahn];
    pose proof (sort_strings_perm queue) as Hp; destruct (sort_strings queue) as [|cur q] eqn:Es;
    try (apply Permutation_nil_l in Hp as ->; by exists ind, R).
  - apply Permutation_length in Hp. simpl in *. lia.
  - destruct (kahn_step ind queue R cur q ({[cur]} ∪ visited) Hd Hk) as (ind' & q' & Hst & Hk').
    { intros t. rewrite elem_of_union, elem_of_singleton, Hv, elem_of_app, list_elem_of_singleton. naive_solver. }
    { by rewrite Hp. }
    rewrite Hst. apply IH; [done| |rewrite length_app; simpl; lia].
    intros t. rewrite elem_of_union, elem_of_singleton, Hv, elem_of_app, list_elem_of_singleton. naive_solver.
Qed.

Section search.
Context `{MapRange}.

Lemma range_types : distinct → (λ p, Type_ p.2) <$> go_range (dg_components dg) ≡ₚ types.
Proof.
  intros Hd. rewrite go_range_perm, dg_components_eq by done.
  rewrite map_to_list_to_map by (by rewrite <-list_fmap_compose).
  by rewrite <-list_fmap_compose.
Qed.

Lemma range_keys : distinct → (go_range (dg_components dg)).*1 ≡ₚ types.
Proof.
  intros Hd. rewrite go_range_perm, dg_components_eq by done.
  rewrite map_to_list_to_map by (by rewrite <-list_fmap_compose).
  by rewrite <-list_fmap_compose.
Qed.

Lemma indegrees_lookup t v : distinct →
  indegrees dg !! t = Some v ↔ t ∈ types ∧ v = Z.of_nat (length (deps t)).
Proof.
  intros Hd. unfold indegrees.
  set (g := λ p : ComponentType * Component, (Type_ p.2, Z.of_nat (length (RequiredDependencies p.2)))).
  assert (Hf : ∀ l (m : gmap ComponentType Z), foldl (λ m p, <[Type_ p.2:=Z.of_nat (length (RequiredDependencies p.2))]> m) m l =
    foldl (λ m p, <[p.1 := p.2]> m) m (g <$> l)).
  { induction l as [|p l IH]; intros m; [done|apply IH]. }
  rewrite Hf, foldl_insert_lookup, lookup_empty; [|rewrite <-list_fmap_compose].
  - rewrite list_elem_of_fmap. split.
    + intros [([k c] & [= -> ->] & Hin%elem_of_go_range)|[_ ?]]; [|done].
      apply components_lookup in Hin as [Hc Hk]; [|done]. split; [by apply list_elem_of_fmap_2|].
      unfold deps_of. by rewrite (proj2 (components_lookup (Type_ c) c Hd)).
    + intros [(c & -> & Hc)%list_elem_of_fmap ->]. left. exists (Type_ c, c).
      rewrite elem_of_go_range, components_lookup by done. split; [|done]. unfold g, deps_of. simpl fst. simpl snd.
      by rewrite (proj2 (components_lookup (Type_ c) c Hd)).
  - change (fst ∘ g) with (λ p : ComponentType * Component, Type_ p.2). by rewrite range_types.
Qed.

Lemma filter_not_nil (l : list ComponentType) : filter (.∉ []) l = l.
Proof. induction l as [|x l IH]; [done|]. rewrite filter_cons, decide_True, IH by apply not_elem_of_nil. done. Qed.

Lemma kahn_start : distinct → closed → kahn_ok (indegrees dg) (roots (indegrees dg)) [].
Proof.
  intros Hd Hcl.
  assert (Hroots : ∀ t, t ∈ roots (indegrees dg) ↔ t ∈ types ∧ deps t = []).
  { intros t. unfold roots. rewrite list_elem_of_fmap. split.
    - intros ([k v] & -> & [Hv Hin%elem_of_go_range]%list_elem_of_filter). cbn [fst snd] in *.
      apply indegrees_lookup in Hin as [Ht Hl]; [|done]. split; [done|].
      apply length_zero_iff_nil. lia.
    - intros [Ht Hn]. exists (t, 0). split; [done|]. apply list_elem_of_filter. split; [done|].
      rewrite elem_of_go_range. apply indegrees_lookup; [done|]. by rewrite Hn. }
  split.
  - simpl. unfold roots. eapply sublist_NoDup; [apply (NoDup_go_range_fst (indegrees dg))|].
    apply fmap_sublist, sublist_filter.
  - intros t Ht. simpl in Ht. by apply Hroots.
  - intros t. rewrite filter_not_nil. destruct (indegrees dg !! t) as [v|] eqn:E.
    + by apply indegrees_lookup in E as [_ ->].
    + destruct (deps t) eqn:Ed; [done|].
      assert (Ht : t ∈ types).
      { apply (components_dom t Hd). unfold deps_of in Ed. by destruct (dg_components dg !! t). }
      rewrite (proj2 (indegrees_lookup t _ Hd)) in E by done. done.
  - intros t Ht. cbn [app]. rewrite Hroots. split; [by intros [_ ->]|].
    intros Hs. split; [done|]. destruct (deps t) as [|x l]; [done|]. exfalso.
    apply (not_elem_of_nil x), Hs. left.
  - intros [|??] ?? [=].
Qed.

(** ** The search for a cycle *)
Definition chain (l : list ComponentType) : Prop :=
  ∀ l1 a b l2, l = l1 ++ a :: b :: l2 → depends b a.

(** Each type requires the next one, and the last one the first. *)
Definition dependency_cycle (c : list ComponentType) : Prop :=
  ∃ x l, c = x :: l ∧ chain (c ++ [x]).

Record dfs_ok (st : dfs_state) : Prop := {
  do_rec t : t ∈ ds_recStack st ↔ t ∈ ds_cycle st;
  do_nodup : NoDup (ds_cycle st);
  do_visited t : t ∈ ds_cycle st → t ∈ ds_visited st;
  do_types t : t ∈ ds_visited st → t ∈ types;
  do_chain : chain (ds_cycle st);
  do_done t : t ∈ ds_visited st → t ∉ ds_cycle st → Acc depends t }.

Lemma chain_suffix l1 l2 : chain (l1 ++ l2) → chain l2.
Proof. intros Hc k1 a b k2 ->. apply (Hc (l1 ++ k1) a b k2). by rewrite <-(assoc_L (++)). Qed.

Lemma chain_prefix l1 l2 : chain (l1 ++ l2) → chain l1.
Proof. intros Hc k1 a b k2 ->. apply (Hc k1 a b (k2 ++ l2)). by rewrite <-(assoc_L (++)). Qed.

Lemma chain_snoc l b : chain l → (∀ k a, l = k ++ [a] → depends b a) → chain (l ++ [b]).
Proof.
  intros Hc Hl l1 a c l2 Heq. destruct l2 as [|y l2 _] using rev_ind.
  - change (l1 ++ [a; c]) with (l1 ++ [a] ++ [c]) in Heq. rewrite (assoc_L (++)) in Heq.
    apply app_inj_tail in Heq as [-> ->]. by eapply Hl.
  - rewrite !app_comm_cons, (assoc_L (++)) in Heq. apply app_inj_tail in Heq as [Heq _]. by eapply Hc.
Qed.

Lemma suffix_from_Some d l : d ∈ l → ∃ l1 l2, suffix_from d l = Some (d :: l2) ∧ l = l1 ++ d :: l2.
Proof.
  induction l as [|x l IH]; [by intros ?%elem_of_nil|]. intros Hd. simpl. case_decide as Hx.
  - subst x. by exists [], l.
  - apply elem_of_cons in Hd as [->|Hd]; [done|]. destruct (IH Hd) as (l1 & l2 & -> & ->).
    by exists (x :: l1), l2.
Qed.

Definition unvisited (st : dfs_state) : nat := length (filter (.∉ ds_visited st) types).

Lemma unvisited_le (l : list ComponentType) (v v' : gset ComponentType) :
  v ⊆ v' → (length (filter (.∉ v') l) <= length (filter (.∉ v) l))%nat.
Proof.
  intros Hv. induction l as [|x l IH]; [done|]. rewrite !filter_cons. repeat case_decide; simpl; try lia.
  set_solver.
Qed.

Lemma unvisited_lt (l : list ComponentType) (v v' : gset ComponentType) x :
  v ⊆ v' → x ∈ l → x ∉ v → x ∈ v' → (length (filter (.∉ v') l) < length (filter (.∉ v) l))%nat.
Proof.
  intros Hv Hx Hn Hin. induction l as [|y l IH]; [by apply elem_of_nil in Hx|].
  pose proof (unvisited_le l v v' Hv). rewrite !filter_cons.
  apply elem_of_cons in Hx as [->|Hx].
  - rewrite decide_False, decide_True by (done || by intros []). simpl. lia.
  - specialize (IH Hx). repeat case_decide; simpl; try lia. set_solver.
Qed.

(** What a finished call for [node] leaves. *)
Definition dfs_result (node : ComponentType) (st : dfs_state) (r : option (bool * dfs_state)) : Prop :=
  (∃ st', r = Some (true, st') ∧ dependency_cycle (ds_cycle st')) ∨
  (∃ st', r = Some (false, st') ∧ dfs_ok st' ∧ ds_cycle st' = ds_cycle st ∧
     ds_visited st ⊆ ds_visited st' ∧ node ∈ ds_visited st').

Lemma dfs_loop_spec rec n node p ds st :
  (∀ d st, dfs_ok st → d ∈ types → d ∉ ds_visited st →
    (∀ k a, ds_cycle st = k ++ [a] → depends d a) → (unvisited st <= n)%nat → dfs_result d st (rec d st)) →
  (∀ d, d ∈ ds → depends d node) → closed → dfs_ok st → ds_cycle st = p ++ [node] → (unvisited st <= n)%nat →
  (∃ st', dfs_loop rec ds st = Some (true, st') ∧ dependency_cycle (ds_cycle st')) ∨
  (∃ st', dfs_loop rec ds st = Some (false, st') ∧ dfs_ok st' ∧ ds_cycle st' = ds_cycle st ∧
     ds_visited st ⊆ ds_visited st' ∧ ∀ d, d ∈ ds → Acc depends d).
Proof.
  intros Hrec Hds Hcl. revert st. induction ds as [|d ds IH]; intros st Hok Hcyc Hn; simpl.
  { right. exists st. split_and!; [done|done|done|done|]. by intros d ?%elem_of_nil. }
  assert (Hds' : ∀ d, d ∈ ds → depends d node) by (intros x ?; apply Hds; by right).
  assert (Hd : depends d node) by (apply Hds; left). specialize (IH Hds').
  assert (Hkeep : Acc depends d → dfs_result d st (Some (false, st)) →
    (∃ st', dfs_loop rec ds st = Some (true, st') ∧ dependency_cycle (ds_cycle st')) ∨
    (∃ st', dfs_loop rec ds st = Some (false, st') ∧ dfs_ok st' ∧ ds_cycle st' = ds_cycle st ∧
       ds_visited st ⊆ ds_visited st' ∧ ∀ x, x ∈ d :: ds → Acc depends x)).
  { intros Hacc _. destruct (IH st Hok Hcyc Hn) as [?|(st' & ? & ? & ? & ? & Ha)]; [by left|].
    right. exists st'. do 4 (split; [assumption|]). intros x [->|?]%elem_of_cons; [assumption|by apply Ha]. }
  destruct (decide (d ∈ ds_visited st)) as [Hv|Hv].
  - destruct (decide (d ∈ ds_recStack st)) as [Hr|Hr].
    + apply (do_rec _ Hok) in Hr. destruct (suffix_from_Some d (ds_cycle st) Hr) as (l1 & l2 & -> & Hl).
      left. eexists. split; [done|]. simpl. exists d, l2. split; [done|]. apply chain_snoc.
      * eapply chain_suffix. rewrite <-Hl. apply Hok.
      * intros k a Ha. rewrite Hcyc in Hl. rewrite Ha, (assoc_L (++)) in Hl.
        apply app_inj_tail in Hl as [_ <-]. done.
    + apply Hkeep; [apply (do_done _ Hok); [done|by rewrite <-(do_rec _ Hok)]|].
      right. by exists st.
  - destruct Hd as (c & Hc & Hct & Hcd).
    destruct (Hrec d st Hok (Hcl _ _ Hc Hcd) Hv) as [(st' & -> & ?)|(st' & -> & Hok' & Hc' & Hv' & Hin)];
      [intros k a Ha; rewrite Hcyc in Ha; apply app_inj_tail in Ha as [_ <-]; by exists c|done|by left; eexists|].
    destruct (IH st' Hok') as [?|(st2 & H2 & Hok2 & Hc2 & Hv2 & Ha2)]; [by rewrite Hc'| |by left|].
    { unfold unvisited in *. pose proof (unvisited_le types _ _ Hv'). lia. }
    right. exists st2. split_and!; [done|done|by rewrite Hc2|by etrans|].
    intros x [->|?]%elem_of_cons; [|by apply Ha2]. apply (do_done _ Hok'); [done|].
    rewrite Hc'. intros ?. by apply Hv, (do_visited _ Hok).
Qed.

Lemma dfs_spec fuel node st :
  distinct → closed → dfs_ok st → node ∈ types → node ∉ ds_visited st →
  (∀ k a, ds_cycle st = k ++ [a] → depends node a) → (unvisited st <= fuel)%nat →
  dfs_result node st (dfs fuel dg node st).
Proof.
  intros Hd Hcl. revert node st. induction fuel as [|fuel IH]; intros node st Hok Ht Hv Hlast Hn.
  { assert (node ∈ filter (.∉ ds_visited st) types) as Hin by (by apply list_elem_of_filter).
    unfold unvisited in Hn. destruct (filter _ _); [by apply elem_of_nil in Hin|simpl in Hn; lia]. }
  cbn [dfs]. set (st1 := {| ds_cycle := ds_cycle st ++ [node] |}).
  assert (Hok1 : dfs_ok st1).
  { split; simpl.
    - intros t. rewrite elem_of_union, elem_of_singleton, elem_of_app, list_elem_of_singleton, (do_rec _ Hok). tauto.
    - apply NoDup_app. split_and!; [apply Hok| |apply NoDup_singleton].
      intros t Hin ->%list_elem_of_singleton. by apply Hv, (do_visited _ Hok).
    - intros t [?| ->%list_elem_of_singleton]%elem_of_app; apply elem_of_union;
        [right; by apply (do_visited _ Hok)|left; by apply elem_of_singleton].
    - intros t [->%elem_of_singleton|?]%elem_of_union; [done|by apply (do_types _ Hok)].
    - apply chain_snoc; [apply Hok|done].
    - intros t [->%elem_of_singleton|?]%elem_of_union Hnin;
        [destruct Hnin; apply elem_of_app; right; left|].
      apply (do_done _ Hok); [done|]. intros ?. apply Hnin, elem_of_app. by left. }
  assert (Hlt : (unvisited st1 < unvisited st)%nat).
  { apply (unvisited_lt types _ _ node); [|done|done|]; simpl; set_solver. }
  destruct (dfs_loop_spec (dfs fuel dg) fuel node (ds_cycle st) (deps node) st1)
    as [(st' & -> & ?)|(st' & -> & Hok' & Hc' & Hv' & Ha)]; [| |done|done|done|lia|left; by eexists|].
  { intros d st2 ? ? ? ? ?. by apply IH. }
  { intros d ?. by apply depends_deps. }
  right. eexists. split; [done|]. simpl in Hc'.
  assert (Hcut : take (length (ds_cycle st') - 1) (ds_cycle st') = ds_cycle st).
  { rewrite Hc', length_app. simpl. rewrite Nat.add_sub. by rewrite take_app_length. }
  assert (Hnin : node ∉ ds_cycle st) by (intros ?; by apply Hv, (do_visited _ Hok)).
  assert (Hnode : node ∈ ds_visited st') by (apply Hv'; simpl; set_solver).
  split_and!; simpl; [|done|set_solver|done]. split; simpl; try rewrite Hcut.
  - intros t. rewrite elem_of_difference, elem_of_singleton, (do_rec _ Hok'), Hc', elem_of_app,
      list_elem_of_singleton. naive_solver.
  - apply Hok.
  - intros t ?. apply Hv'. simpl. apply elem_of_union. right. by apply (do_visited _ Hok).
  - apply Hok'.
  - apply Hok.
  - intros t Hin Hnt. destruct (decide (t = node)) as [->|Hne].
    + constructor. intros d Hdn. apply Ha. by apply depends_deps.
    + apply (do_done _ Hok'); [done|]. rewrite Hc', elem_of_app, list_elem_of_singleton. naive_solver.
Qed.

Lemma find_from_spec l st :
  distinct → closed → dfs_ok st → ds_cycle st = [] → l ⊆ types →
  (∃ c, find_from dg l st = Some c ∧ dependency_cycle c) ∨
  (find_from dg l st = Some [] ∧ ∀ t, t ∈ l → Acc depends t).
Proof.
  intros Hd Hcl. revert st. induction l as [|t l IH]; intros st Hok Hc Hl; cbn [find_from].
  { right. split; [done|]. by intros t ?%elem_of_nil. }
  assert (Hl' : l ⊆ types) by (intros x ?; apply Hl; by right).
  assert (Ht : t ∈ types) by (apply Hl; left).
  destruct (decide (t ∈ ds_visited st)) as [Hv|Hv].
  - destruct (IH st Hok Hc Hl') as [?|[? Ha]]; [by left|]. right. split; [done|].
    intros x [->|?]%elem_of_cons; [|by apply Ha]. apply (do_done _ Hok); [done|]. rewrite Hc. apply not_elem_of_nil.
  - destruct (dfs_spec (S (size (dg_components dg))) t st Hd Hcl Hok Ht Hv)
      as [(st' & -> & ?)|(st' & -> & Hok' & Hc' & _ & Hin)].
    + intros k a Ha. rewrite Hc in Ha. by destruct k.
    + rewrite size_components by done. unfold unvisited.
      pose proof (length_filter (.∉ ds_visited st) types) as Hle. rewrite length_fmap in Hle. lia.
    + left. by eexists.
    + rewrite Hc in Hc'. destruct (IH st' Hok' Hc' Hl') as [?|[? Ha]]; [by left|]. right. split; [done|].
      intros x [->|?]%elem_of_cons; [|by apply Ha]. apply (do_done _ Hok'); [done|].
      rewrite Hc'. apply not_elem_of_nil.
Qed.

Lemma findCycle_spec : distinct → closed →
  (∃ c, findCycle dg = Some c ∧ dependency_cycle c) ∨
  (findCycle dg = Some [] ∧ ∀ t, t ∈ types → Acc depends t).
Proof.
  intros Hd Hcl. unfold findCycle.
  destruct (find_from_spec (go_range (dg_components dg)).*1 {| ds_visited := ∅; ds_recStack := ∅; ds_cycle := [] |})
    as [?|[? Ha]]; try done.
  - split; simpl; try done; [intros t; rewrite elem_of_empty, elem_of_nil; tauto|apply NoDup_nil_2|
      by intros t ?%elem_of_nil|by intros [|? [|??]] ???].
  - intros t. by rewrite range_keys.
  - by left.
  - right. split; [done|]. intros t Ht. apply Ha. by rewrite range_keys.
Qed.

(** ** The sort *)
Lemma validate_deps_spec typ ds :
  match validate_deps dg typ ds with
  | None => ∀ d, d ∈ ds → is_Some (dg_components dg !! d)
  | Some e => ∃ d, d ∈ ds ∧ dg_components dg !! d = None ∧ e = missing_dependency_error typ d
  end.
Proof.
  induction ds as [|d ds IH]; cbn [validate_deps]; [by intros ? ?%elem_of_nil|].
  destruct (dg_components dg !! d) eqn:E.
  - destruct (validate_deps dg typ ds) as [e|].
    + destruct IH as (x & ? & ? & ?). exists x. split; [by right|done].
    + intros x [->|?]%elem_of_cons; [by eexists|by apply IH].
  - exists d. split; [left|done].
Qed.

Lemma validate_spec : distinct →
  match validate dg with
  | None => closed
  | Some e => ∃ c d, c ∈ cs ∧ d ∈ RequiredDependencies c ∧ d ∉ types ∧
      e = missing_dependency_error (Type_ c) d
  end.
Proof.
  intros Hd. unfold validate.
  assert (Hg : ∀ l, match validate_components dg l with
    | None => ∀ k c d, (k, c) ∈ l → d ∈ RequiredDependencies c → is_Some (dg_components dg !! d)
    | Some e => ∃ k c d, (k, c) ∈ l ∧ d ∈ RequiredDependencies c ∧ dg_components dg !! d = None ∧
        e = missing_dependency_error (Type_ c) d
    end).
  { induction l as [|[k c] l IH]; cbn [validate_components]; [by intros ??? ?%elem_of_nil|].
    pose proof (validate_deps_spec (Type_ c) (RequiredDependencies c)) as Hv.
    destruct (validate_deps _ _ _) as [e|].
    - destruct Hv as (d & ? & ? & ?). exists k, c, d. split; [left|done].
    - destruct (validate_components _ _) as [e|].
      + destruct IH as (k' & c' & d & ? & ?). exists k', c', d. split; [by right|done].
      + intros k' c' d [[= -> ->]|?]%elem_of_cons; [by apply Hv|by eapply IH]. }
  specialize (Hg (go_range (dg_components dg))). destruct (validate_components _ _) as [e|].
  - destruct Hg as (k & c & d & Hin & Hdep & Hn & ->). exists c, d.
    rewrite elem_of_go_range, components_lookup in Hin by done. destruct Hin as [Hc _].
    split_and!; [done|done| |done]. rewrite <-components_dom by done. rewrite Hn. by intros [].
  - intros c d Hc Hdep. apply components_dom; [done|]. apply (Hg (Type_ c) c d); [|done].
    by rewrite elem_of_go_range, components_lookup.
Qed.

Lemma sorted_components R : distinct → R ⊆ types →
  Type_ <$> omap (dg_components dg !!.) R = R ∧ omap (dg_components dg !!.) R ⊆ cs.
Proof.
  intros Hd. induction R as [|t R IH]; intros Hs; [split; [reflexivity|apply list_subseteq_nil]|].
  destruct IH as [Hm Hsub]; [intros x ?; apply Hs; by right|].
  assert (Ht : t ∈ types) by (apply Hs; left). apply (components_dom t Hd) in Ht as [c Hc].
  cbn [omap list_omap]. rewrite Hc. apply components_lookup in Hc as [Hc Htc]; [|done]. csimpl.
  rewrite Htc. split; [by f_equal|]. intros x [->|?]%elem_of_cons; [done|by apply Hsub].
Qed.

(** A list in which everything comes after what it requires. *)
Definition dependencies_first (l : list Component) : Prop :=
  ∀ l1 c l2, l = l1 ++ c :: l2 → RequiredDependencies c ⊆ Type_ <$> l1.

Lemma component_type_inj c c' : distinct → c ∈ cs → c' ∈ cs → Type_ c = Type_ c' → c = c'.
Proof.
  intros Hd Hc Hc' Ht. assert (H1 := proj2 (components_lookup (Type_ c) c Hd) (conj Hc eq_refl)).
  assert (H2 := proj2 (components_lookup (Type_ c) c' Hd) (conj Hc' (eq_sym Ht))). congruence.
Qed.

Lemma sorted_perm R : distinct → NoDup R → R ⊆ types → length R = length cs →
  omap (dg_components dg !!.) R ≡ₚ cs.
Proof.
  intros Hd Hn Hs Hl. destruct (sorted_components R Hd Hs) as [Hm Hsub].
  assert (Hp : R ≡ₚ types).
  { apply submseteq_length_Permutation; [by apply NoDup_submseteq|]. rewrite length_fmap. lia. }
  apply NoDup_Permutation.
  - apply (NoDup_fmap_1 Type_). by rewrite Hm.
  - by apply (NoDup_fmap_1 Type_).
  - intros c. split; [apply Hsub|]. intros Hc.
    assert (Ht : Type_ c ∈ R) by (rewrite Hp; by apply list_elem_of_fmap_2).
    rewrite <-Hm in Ht. apply list_elem_of_fmap in Ht as (c' & Ht & Hc').
    by rewrite (component_type_inj c c') by auto.
Qed.

Lemma dependencies_first_no_cycle l c :
  distinct → l ≡ₚ cs → dependencies_first l → ¬ dependency_cycle c.
Proof.
  intros Hd Hp Hf (x & k & -> & Hch).
  set (pos := λ t, match list_find (t =.) (Type_ <$> l) with Some (i, _) => i | None => 0%nat end).
  assert (Hpos : ∀ a b, depends b a → (pos b < pos a)%nat).
  { intros a b (ca & Hca & <- & Hb). rewrite <-Hp in Hca. apply list_elem_of_split in Hca as (l1 & l2 & Hl).
    specialize (Hf l1 ca l2 Hl _ Hb). unfold pos.
    assert (Hdl : NoDup (Type_ <$> l)) by (by rewrite Hp).
    rewrite Hl, fmap_app, fmap_cons in Hdl. apply NoDup_app in Hdl as (_ & Hdj & _).
    destruct (list_find_elem_of (b =.) (Type_ <$> l1) b Hf eq_refl) as [[i y] Hfi].
    rewrite Hl, fmap_app, fmap_cons, (list_find_app_l (b =.) _ _ i y) by done.
    rewrite (list_find_app_r (Type_ ca =.)).
    - cbn [list_find]. rewrite decide_True by done. simpl.
      apply list_find_Some in Hfi as (Hi & _). by apply lookup_lt_Some in Hi.
    - apply list_find_None, Forall_forall. intros z Hz <-. apply (Hdj _ Hz). left. }
  assert (Hg : ∀ k a z, chain (a :: k ++ [z]) → (pos z < pos a)%nat).
  { intros m. induction m as [|b m IH]; intros a z Hc; simpl in Hc.
    - apply Hpos. by apply (Hc [] a z []).
    - etrans; [apply (IH b z)|apply Hpos; by apply (Hc [] a b (m ++ [z]))].
      by apply (chain_suffix [a]). }
  specialize (Hg k x x Hch). lia.
Qed.

Lemma kahn_total : distinct → closed →
  ∃ ind R, kahn (size (dg_components dg)) dg (indegrees dg) (roots (indegrees dg)) [] ∅ = Some R ∧ kahn_ok ind [] R.
Proof.
  intros Hd Hcl. apply kahn_run; [done|by apply kahn_start| |].
  - intros t. rewrite elem_of_nil, elem_of_empty. tauto.
  - rewrite size_components by done. lia.
Qed.

Lemma residual_not_Acc ind R t : distinct → kahn_ok ind [] R → closed → t ∈ types → t ∉ R → ¬ Acc depends t.
Proof.
  intros Hd [_ _ _ Hready _] Hcl Ht Hn Hacc. induction Hacc as [t _ IH].
  specialize (Hready t Ht). rewrite (right_id_L [] (++)) in Hready.
  destruct (decide (Forall (.∈ R) (deps t))) as [Ha|Ha].
  - apply Hn, Hready. intros x Hx. by apply (proj1 (Forall_forall _ _) Ha).
  - apply not_Forall_Exists in Ha; [|apply _]. apply Exists_exists in Ha as (d & Hin & Hnd).
    assert (Hdt : depends d t).
    { unfold deps_of in Hin. destruct (dg_components dg !! t) as [c|] eqn:E; [|by apply elem_of_nil in Hin].
      apply (components_lookup t c Hd) in E as [??]. by exists c. }
    destruct Hdt as (c & Hc & Hct & Hcd). apply (IH d); [by exists c|by eapply Hcl|done].
Qed.

Lemma sort_result : distinct → closed →
  (∃ R, kahn (size (dg_components dg)) dg (indegrees dg) (roots (indegrees dg)) [] ∅ = Some R ∧
    TopologicalSort dg = Some (Ok (omap (dg_components dg !!.) R)) ∧
    omap (dg_components dg !!.) R ≡ₚ cs ∧ dependencies_first (omap (dg_components dg !!.) R)) ∨
  (∃ c, TopologicalSort dg = Some (Err (newCircularDependencyError c)) ∧ dependency_cycle c).
Proof.
  intros Hd Hcl. unfold TopologicalSort. pose proof (validate_spec Hd) as Hv.
  destruct (validate dg) as [e|].
  { destruct Hv as (c & d & Hc & Hdep & Hn & _). destruct Hn. by eapply Hcl. }
  destruct (kahn_total Hd Hcl) as (ind & R & HR & Hk). rewrite HR. cbn [mbind option_bind].
  pose proof Hk as [Hnd Hsub _ _ Hord]. rewrite (right_id_L [] (++)) in Hnd, Hsub.
  rewrite size_components by done. case_decide as Hlen.
  - left. exists R. destruct (sorted_components R Hd Hsub) as [Hm _].
    split_and!; [done|done|by apply sorted_perm|]. intros l1 c l2 Hl.
    rewrite Hl, fmap_app, fmap_cons in Hm. specialize (Hord _ _ _ (eq_sym Hm)).
    assert (Hc : c ∈ cs).
    { apply (sorted_components R Hd Hsub). rewrite Hl. apply elem_of_app. right. left. }
    unfold deps_of in Hord. by rewrite (proj2 (components_lookup _ c Hd)) in Hord.
  - right. destruct (findCycle_spec Hd Hcl) as [(c & Hc & ?)|[_ Hacc]].
    + exists c. rewrite Hc. by split.
    + exfalso. apply Hlen. rewrite <-(length_fmap Type_). apply Permutation_length, NoDup_Permutation; [done|done|].
      intros t. split; [apply Hsub|]. intros Ht. destruct (decide (t ∈ R)); [done|].
      exfalso. by eapply residual_not_Acc, Hacc.
Qed.
End search.

(** The sort does not depend on the order in which the maps are ranged over. *)
Lemma sort_range_independent (R1 R2 : MapRange) l : distinct → closed →
  @TopologicalSort R1 dg = Some (Ok l) → @TopologicalSort R2 dg = Some (Ok l).
Proof.
  intros Hd Hcl H1. destruct (@sort_result R1 Hd Hcl) as [(Ra & Ha & Hs1 & Hpa & Hda)|(c & Hs1 & _)];
    rewrite Hs1 in H1; [|done]. injection H1 as <-.
  assert (Hind : @indegrees R1 dg = @indegrees R2 dg).
  { apply map_eq. intros t. apply option_eq. intros v. by rewrite !indegrees_lookup by done. }
  assert (Hk : ∀ fuel q q', q ≡ₚ q' → kahn fuel dg (@indegrees R1 dg) q [] ∅ = kahn fuel dg (@indegrees R1 dg) q' [] ∅).
  { intros fuel q q' Hq. destruct fuel; cbn [kahn]; by rewrite (sort_strings_perm_eq q q') by done. }
  destruct (@sort_result R2 Hd Hcl) as [(Rb & Hb & -> & _)|(c & _ & Hc)].
  - rewrite <-Hind, <-(Hk _ (@roots R1 (@indegrees R1 dg))), Ha in Hb by (unfold roots; by rewrite !go_range_perm).
    by injection Hb as <-.
  - exfalso. by eapply (dependencies_first_no_cycle _ c Hd Hpa Hda).
Qed.
End graph.

(** C29: for components of distinct types whose dependencies are all present,
    the sort always ends. Either it returns the same components, each after
    everything it requires, and no dependency cycle exists; or it reports a
    real cycle: types each of which requires the next one and the last of which
    requires the first. *)
Theorem TopologicalSort_sorts_or_finds_cycle `{MapRange} (cs : list Component) :
  distinct cs → closed cs →
  (∃ l, TopologicalSort (NewDependencyGraph cs) = Some (Ok l) ∧ l ≡ₚ cs ∧ dependencies_first l ∧
     ∀ c, ¬ dependency_cycle cs c) ∨
  (∃ c, TopologicalSort (NewDependencyGraph cs) = Some (Err (newCircularDependencyError c)) ∧
     dependency_cycle cs c).
Proof.
  intros Hd Hcl. destruct (sort_result cs Hd Hcl) as [(R & _ & ? & ? & ?)|?]; [left|by right].
  eexists. split_and!; [done|done|done|]. intros c. by eapply dependencies_first_no_cycle.
Qed.

(** When a component requires one that is not there, the sort is the
    configuration error that names such a component and its missing
    dependency. *)
Theorem TopologicalSort_missing `{MapRange} (cs : list Component) c d :
  distinct cs → c ∈ cs → d ∈ RequiredDependencies c → d ∉ Type_ <$> cs →
  ∃ c' d', c' ∈ cs ∧ d' ∈ RequiredDependencies c' ∧ d' ∉ Type_ <$> cs ∧
    TopologicalSort (NewDependencyGraph cs) = Some (Err (missing_dependency_error (Type_ c') d')).
Proof.
  intros Hd Hc Hdep Hn. unfold TopologicalSort. pose proof (validate_spec cs Hd) as Hv.
  destruct (validate _) as [e|]; [|by destruct Hn; eapply Hv].
  destruct Hv as (c' & d' & ? & ? & ? & ->). by exists c', d'.
Qed.

(** The initialization order is deterministic: whatever the order in which
    Go ranges over the component maps, a successful sort has the same result. *)
Theorem TopologicalSort_deterministic (R1 R2 : MapRange) (cs l : list Component) :
  distinct cs → closed cs →
  @TopologicalSort R1 (NewDependencyGraph cs) = Some (Ok l) →
  @TopologicalSort R2 (NewDependencyGraph cs) = Some (Ok l).
Proof. apply sort_range_independent. Qed.

(** ** The components of the process: their [Type], [Order] and
    [RequiredDependencies] methods *)
Definition MaxInt : Z := i64_max.

Definition eventBus_component : Component :=
  {| Type_ := EventBus; Order := MaxInt; RequiredDependencies := [] |}.
Definition diagnosticsServer : Component :=
  {| Type_ := "diagnostics server"; Order := MaxInt; RequiredDependencies := [] |}.
Definition storeComponent : Component :=
  {| Type_ := ResourceStore; Order := MaxInt - 1; RequiredDependencies := [EventBus] |}.
Definition discoveryComponent : Component :=
  {| Type_ := ResourceDiscovery; Order := MaxInt - 2;
     RequiredDependencies := [EventBus; ResourceStore] |}.
Definition ruleGovernorComponent : Component :=
  {| Type_ := RuleGovernor; Order := MaxInt - 2;
     RequiredDependencies := [EventBus; ResourceStore] |}.
Definition engineComponent : Component :=
  {| Type_ := ResourceEngine; Order := MaxInt - 3;
     RequiredDependencies := [EventBus; ResourceStore] |}.
Definition resourceManagerComponent : Component :=
  {| Type_ := ResourceManager; Order := MaxInt - 4;
     RequiredDependencies := [ResourceStore; RuleGovernor] |}.
Definition versioning_component : Component :=
  {| Type_ := "rule versioning"; Order := MaxInt - 5; RequiredDependencies := [ResourceStore] |}.
Definition lock_component : Component :=
  {| Type_ := "distributed lock"; Order := MaxInt - 2; RequiredDependencies := [ResourceStore] |}.
Definition counter_component : Component :=
  {| Type_ := "counter manager"; Order := MaxInt - 1;
     RequiredDependencies := [ResourceStore; EventBus] |}.
Definition consoleWebServer : Component :=
  {| Type_ := Console; Order := MaxInt - 5; RequiredDependencies := [ResourceManager] |}.

(** What the [init] functions of the packages register. *)
Definition registered : list Component :=
  [eventBus_component; diagnosticsServer; storeComponent; discoveryComponent;
   ruleGovernorComponent; engineComponent; resourceManagerComponent; versioning_component;
   lock_component; counter_component; consoleWebServer].

Definition RegisterAll (r : Registry) (l : list Component) : Registry :=
  foldl (λ r c, (Register r c).1) r l.

(** ** The bootstrap *)
Definition registry_ok (r : Registry) : Prop := ∀ t c, r !! t = Some c → Type_ c = t.

Lemma Register_ok r c : registry_ok r → registry_ok (Register r c).1.
Proof.
  intros Hr. unfold Register. destruct (r !! Type_ c) eqn:E; [done|]. simpl.
  intros t c' [[<- <-]|[_ Hl]]%lookup_insert_Some; [done|by apply Hr].
Qed.

Lemma gather_core_types r l core :
  registry_ok r → gather_core r l = Ok core → Type_ <$> core = l.*2.
Proof.
  intros Hr Hc. apply result_mapM_Ok in Hc. induction Hc as [|p c l k Hp _ IH]; [done|].
  rewrite !fmap_cons, IH. f_equal. unfold Get in Hp. destruct (r !! p.2) eqn:E; [|done].
  injection Hp as ->. by apply Hr.
Qed.

Lemma gathered_types r components :
  registry_ok r → gatherComponents r = Ok components →
  distinct components ∧ CoreComponentTypes ⊆ Type_ <$> components.
Proof.
  intros Hr Hg. unfold gatherComponents in Hg. apply bind_Ok in Hg as (core & Hcore & Hc).
  apply (inj Ok) in Hc as <-.
  apply gather_core_types in Hcore; [|done]. unfold distinct. rewrite fmap_app, Hcore. split.
  - assert (Hopt : ∀ l, Type_ <$> omap (λ typ, r !! typ) l `sublist_of` l).
    { induction l as [|t l IH]; [constructor|]. csimpl. destruct (r !! t) as [c|] eqn:E; [|by constructor].
      rewrite fmap_cons, (Hr _ _ E). by constructor. }
    assert (Hall : NoDup (coreComps.*2 ++ optionalComps)) by (refine (bool_decide_unpack _ _); vm_compute; exact I).
    eapply sublist_NoDup; [exact Hall|]. apply sublist_app; [done|apply Hopt].
  - intros t Ht. apply elem_of_app. left.
    assert (Hall : Forall (.∈ coreComps.*2) CoreComponentTypes) by (refine (bool_decide_unpack _ _); vm_compute; exact I).
    by apply (proj1 (Forall_forall _ _) Hall).
Qed.

Lemma Build_ok (b : Builder) :
  (∀ typ, typ ∈ CoreComponentTypes → is_Some (b !! typ)) → Build b = Ok b.
Proof.
  intros Hb. unfold Build.
  assert (Hn : filter (λ typ, b !! typ = None) CoreComponentTypes = []); [|by rewrite Hn].
  destruct (filter _ _) as [|typ l] eqn:E; [done|]. exfalso.
  assert (Ht : typ ∈ typ :: l) by left. rewrite <-E in Ht. apply list_elem_of_filter in Ht as [Hn Ht].
  destruct (Hb typ Ht). congruence.
Qed.

Section bootstrap_runs.
Context `{MapRange} {W : Type} (Init : Component → Builder → W → W * option error).

(** The components of the list are initialized one after the other, each when
    everything it requires is active. *)
Inductive initialized : Builder → W → list Component → Builder → W → Prop :=
| initialized_nil b w : initialized b w [] b w
| initialized_cons b w c l w1 b' w' :
    b !! Type_ c = None →
    (∀ d, d ∈ RequiredDependencies c → ∃ c', GetActivatedComponent b d = Ok c') →
    Init c b w = (w1, None) →
    initialized (<[Type_ c := c]> b) w1 l b' w' →
    initialized b w (c :: l) b' w'.

(** The list of the active components of a builder. *)
Definition active (l : list Component) : Builder := list_to_map ((λ c, (Type_ c, c)) <$> l).

Lemma init_in_order_spec l1 l2 w :
  distinct (l1 ++ l2) → dependencies_first (l1 ++ l2) →
  ∃ b' w' r, init_in_order Init (active (reverse l1)) w l2 = (b', w', r) ∧
  match r with
  | None => initialized (active (reverse l1)) w l2 b' w' ∧ b' = active (reverse (l1 ++ l2))
  | Some e => ∃ k c k' w1 e', l2 = k ++ c :: k' ∧ initialized (active (reverse l1)) w k b' w1 ∧
      b' = active (reverse (l1 ++ k)) ∧ Init c b' w1 = (w', Some e') ∧
      e = biz_wrap e' UnknownError ("failed to initialize component " +:+ Type_ c)
  end.
Proof.
  revert l1 w. induction l2 as [|c l2 IH]; intros l1 w Hd Hf; cbn [init_in_order].
  { exists (active (reverse l1)), w, None. rewrite (right_id_L [] (++)). split_and!; try done. constructor. }
  assert (Hfree : active (reverse l1) !! Type_ c = None).
  { apply not_elem_of_list_to_map_1. rewrite <-list_fmap_compose. intros Hin.
    unfold distinct in Hd. rewrite fmap_app, fmap_cons in Hd. apply NoDup_app in Hd as (_ & Hdj & _).
    apply (Hdj (Type_ c)); [|left]. apply list_elem_of_fmap in Hin as (x & Hx & Hin). simpl in Hx.
    rewrite Hx. apply list_elem_of_fmap_2. by rewrite elem_of_reverse in Hin. }
  assert (Hdeps : ∀ d, d ∈ RequiredDependencies c → ∃ c', GetActivatedComponent (active (reverse l1)) d = Ok c').
  { intros d Hin. specialize (Hf l1 c l2 eq_refl d Hin). apply list_elem_of_fmap in Hf as (x & -> & Hx).
    unfold GetActivatedComponent. destruct (active (reverse l1) !! Type_ x) eqn:E; [by eexists|].
    exfalso. apply not_elem_of_list_to_map_2 in E. apply E. rewrite <-list_fmap_compose.
    change (fst ∘ _) with Type_. apply list_elem_of_fmap_2. by rewrite elem_of_reverse. }
  assert (Hext : <[Type_ c := c]> (active (reverse l1)) = active (reverse (l1 ++ [c]))).
  { by rewrite reverse_snoc. }
  unfold initAndActivateComponent. destruct (Init c (active (reverse l1)) w) as [w1 [e|]] eqn:HI.
  - eexists _, _, _. split; [done|]. exists [], c, l2, w, e. rewrite (right_id_L [] (++)).
    split_and!; try done. constructor.
  - unfold ActivateComponent. rewrite Hfree. rewrite Hext.
    rewrite (cons_middle c l1 l2), (assoc_L (++)) in Hd, Hf.
    destruct (IH (l1 ++ [c]) w1 Hd Hf) as (b' & w' & r & -> & Hr).
    exists b', w', r. split; [done|]. destruct r as [e|].
    + destruct Hr as (k & c' & k' & w2 & e' & -> & Hi & Hb & HI' & He).
      exists (c :: k), c', k', w2, e'. rewrite <-(assoc_L (++)) in Hb. split_and!; try done.
      eapply initialized_cons; [done|done|done|]. by rewrite Hext.
    + destruct Hr as [Hi ->]. rewrite <-(assoc_L (++)) in Hi |- *. split; [|done].
      eapply initialized_cons; [done|done|done|]. by rewrite Hext.
Qed.

(** for registered components whose dependencies are present, bootstrap
    initializes them one after the other, each while everything it requires is
    already active, until all are or one fails. If all succeed the runtime
    holds exactly the gathered components; if one fails the error names it and
    no later component is initialized; a dependency cycle is reported before
    any initialization. *)
Theorem Bootstrap_in_dependency_order r components w :
  registry_ok r → gatherComponents r = Ok components → closed components →
  (∃ c w0 e, Bootstrap Init r w = Some (w0, Err (biz_wrap e UnknownError
       "failed to sort components by dependencies")) ∧ w0 = w ∧
     e = newCircularDependencyError c ∧ dependency_cycle components c) ∨
  ∃ ordered w' res, Bootstrap Init r w = Some (w', res) ∧ ordered ≡ₚ components ∧
  match res with
  | Ok b => initialized ∅ w ordered b w' ∧ ∀ t c, b !! t = Some c ↔ c ∈ components ∧ Type_ c = t
  | Err e => ∃ l c l' b w1 e', ordered = l ++ c :: l' ∧ initialized ∅ w l b w1 ∧
      Init c b w1 = (w', Some e') ∧
      e = biz_wrap e' UnknownError ("failed to initialize component " +:+ Type_ c)
  end.
Proof.
  intros Hr Hg Hcl. destruct (gathered_types r components Hr Hg) as [Hd Hcore].
  unfold Bootstrap, bootstrapComponents, sortComponents. rewrite Hg.
  destruct (sort_result components Hd Hcl) as [(R & _ & -> & Hp & Hf)|(c & -> & Hc)]; cbn [mbind option_bind].
  2: { left. eexists c, w, _. by split_and!. }
  right. set (ordered := omap _ R) in *.
  destruct (init_in_order_spec [] ordered w) as (b & w' & res & Hi & Hres); [unfold distinct; cbn [app]; by rewrite Hp|exact Hf|].
  change (active (reverse [])) with (∅ : Builder) in *. rewrite Hi. cbn [mbind option_bind].
  destruct res as [e|].
  - destruct Hres as (l & c & l' & w1 & e' & Hl & Hin & _ & HI & He).
    eexists ordered, w', (Err e). split_and!; [done|done|]. by exists l, c, l', b, w1, e'.
  - destruct Hres as [Hin ->]. cbn [app] in *.
    assert (Hlook : ∀ t c, active (reverse ordered) !! t = Some c ↔ c ∈ components ∧ Type_ c = t).
    { intros t c. unfold active, Builder. rewrite <-elem_of_list_to_map.
      - rewrite list_elem_of_fmap. setoid_rewrite elem_of_reverse. setoid_rewrite Hp. naive_solver.
      - rewrite <-list_fmap_compose. change (fst ∘ _) with Type_.
        by rewrite reverse_Permutation, Hp. }
    eexists ordered, w', (Ok (active (reverse ordered))). split_and!; try done.
    rewrite Build_ok; [done|]. intros typ Ht. apply Hcore in Ht.
    apply list_elem_of_fmap in Ht as (c & -> & Hc). exists c. by apply Hlook.
Qed.
End bootstrap_runs.

(** ** The process *)
Module RuntimeExample.

Definition distinct_dec cs : Decision (distinct cs) := decide (NoDup (Type_ <$> cs)).
#[export] Existing Instance distinct_dec.

Definition closed_b (cs : list Component) : bool :=
  forallb (λ c, forallb (λ d, bool_decide (d ∈ Type_ <$> cs)) (RequiredDependencies c)) cs.

Lemma closed_b_ok cs : closed_b cs = true → closed cs.
Proof.
  unfold closed_b. rewrite forallb_forall. intros Hcs c d Hc Hd.
  apply list_elem_of_In in Hc, Hd. specialize (Hcs c Hc). rewrite forallb_forall in Hcs.
  specialize (Hcs d Hd). by apply bool_decide_eq_true in Hcs.
Qed.

Lemma registered_registry_ok l : registry_ok (RegisterAll ∅ l).
Proof.
  unfold RegisterAll. assert (H0 : registry_ok ∅) by (intros t c Hl; unfold Registry in Hl; by rewrite lookup_empty in Hl).
  revert H0. generalize (∅ : Registry). induction l as [|c l IH]; intros r Hr; simpl; [done|].
  apply IH. by apply Register_ok.
Qed.

(** The components as [gatherComponents] lists them. *)
Definition gathered : list Component :=
  [eventBus_component; storeComponent; discoveryComponent; engineComponent;
   resourceManagerComponent; consoleWebServer; ruleGovernorComponent;
   counter_component; diagnosticsServer; lock_component; versioning_component].

Lemma gathered_ok : distinct gathered ∧ closed gathered.
Proof. split; [refine (bool_decide_unpack _ _); vm_compute; exact I|]. apply closed_b_ok. vm_compute. reflexivity. Qed.
End RuntimeExample.

(** The components the packages register are initialized in one fixed
    order, the store after the event bus, everything built on the store after
    it, the manager after the governor and the console after the manager;
    whatever the order of Go's map ranges. *)
Theorem process_initialization_order `{MapRange} :
  ∃ components, gatherComponents (RegisterAll ∅ registered) = Ok components ∧
    sortComponents components = Some (Ok
      [diagnosticsServer; eventBus_component; storeComponent; counter_component; lock_component;
       discoveryComponent; engineComponent; ruleGovernorComponent; resourceManagerComponent;
       consoleWebServer; versioning_component]).
Proof.
  exists RuntimeExample.gathered. split; [vm_compute; reflexivity|]. unfold sortComponents.
  apply (sort_range_independent RuntimeExample.gathered default_range _ _
    (proj1 RuntimeExample.gathered_ok) (proj2 RuntimeExample.gathered_ok)).
  vm_compute. reflexivity.
Qed.

Module BootstrapExample.
Import RuntimeExample.
#[local] Existing Instance default_range.

Lemma TopologicalSort_sorts_or_finds_cycle_witness :
  ∃ l, TopologicalSort (NewDependencyGraph gathered) = Some (Ok l) ∧ dependencies_first l.
Proof.
  destruct (TopologicalSort_sorts_or_finds_cycle gathered (proj1 gathered_ok) (proj2 gathered_ok))
    as [(l & Hl & _ & Hf & _)|(c & Hc & _)].
  - exists l. exact (conj Hl Hf).
  - exfalso. revert Hc. vm_compute. discriminate.
Defined.

Definition comp (t : string) (l : list string) : Component :=
  {| Type_ := t; Order := 0; RequiredDependencies := l |}.

(** The reported cycle of three components behind a fourth. *)
Example cycle_reported :
  TopologicalSort (NewDependencyGraph [comp "d" ["a"]; comp "a" ["b"]; comp "b" ["c"]; comp "c" ["a"]]) =
  Some (Err (newCircularDependencyError ["c"; "a"; "b"])).
Proof. vm_compute. reflexivity. Qed.

Lemma TopologicalSort_missing_witness :
  TopologicalSort (NewDependencyGraph [comp "a" ["b"]]) = Some (Err (missing_dependency_error "a" "b")).
Proof.
  destruct (TopologicalSort_missing [comp "a" ["b"]] (comp "a" ["b"]) "b")
    as (c & d & Hc & Hd & _ & ->).
  - apply NoDup_singleton.
  - left.
  - left.
  - intros [H|H]%elem_of_cons; [discriminate H|by apply elem_of_nil in H].
  - apply list_elem_of_singleton in Hc as ->. by apply list_elem_of_singleton in Hd as ->.
Defined.

(** Another order of the range. *)
Program Definition reversed_range : MapRange := {| go_range V m := reverse (map_to_list m) |}.
Next Obligation. intros V m. simpl. by rewrite reverse_Permutation. Qed.

Lemma TopologicalSort_deterministic_witness :
  @TopologicalSort reversed_range (NewDependencyGraph gathered) =
  Some (Ok [diagnosticsServer; eventBus_component; storeComponent; counter_component; lock_component;
     discoveryComponent; engineComponent; ruleGovernorComponent; resourceManagerComponent;
     consoleWebServer; versioning_component]).
Proof.
  apply (TopologicalSort_deterministic default_range reversed_range gathered _
    (proj1 gathered_ok) (proj2 gathered_ok)).
  vm_compute. reflexivity.
Defined.

(** The world is the list of the types initialized; the manager fails. *)
Definition Init_failing (c : Component) (b : Builder) (w : list string) : list string * option error :=
  if decide (Type_ c = ResourceManager) then (w, Some (ErrorText "no")) else (w ++ [Type_ c], None).

Lemma Bootstrap_in_dependency_order_witness :
  ∃ w' e, Bootstrap Init_failing (RegisterAll ∅ registered) [] = Some (w', Err e) ∧ length w' = 8%nat.
Proof.
  destruct (Bootstrap_in_dependency_order Init_failing (RegisterAll ∅ registered) gathered []
    (registered_registry_ok registered) ltac:(vm_compute; reflexivity) (proj2 gathered_ok))
    as [(c & w0 & e & Hb & _)|(ordered & w' & res & Hb & _)].
  - exists w0. eexists. split; [exact Hb|]. revert Hb. vm_compute. discriminate.
  - destruct res as [b|e].
    + exfalso. revert Hb. vm_compute. discriminate.
    + exists w', e. split; [exact Hb|]. revert Hb. vm_compute. intros [= <- _]. reflexivity.
Defined.
End BootstrapExample.
