(* ===== verification/Gorm.v ===== *)
(** gorm.io/gorm over one table with a unique string column: the statements the
    lock and the leader election issue (operational class), what the database
    promises of them (law class), and a reference table. *)
From S2P Require Import Prelude Errors.

Open Scope Z_scope.

(** Statements return the database with the number of affected rows or an
    error. [R] is the record type. *)
Class Table (R D : Type) := {
  tb_Delete : D → (R → bool) → D * result error Z;
  tb_CreateDoNothing : D → R → D * result error Z;
  tb_Create : D → R → D * option error;
  tb_Updates : D → (R → bool) → (R → R) → D * result error Z;
  tb_Count : D → (R → bool) → result error Z;
  tb_First : D → (R → bool) → result error R;
  tb_Commit : D → D → D * option error;
}.

(** [db.Transaction(fn)]: the effects of [fn] when it succeeds and the commit
    does; the state before otherwise. *)
Definition Transaction {R D A : Type} `{Table R D} (db : D) (fn : D → D * result error A)
    : D * result error A :=
  match fn db with
  | (_, Err e) => (db, Err e)
  | (tx, Ok a) =>
      match tb_Commit db tx with
      | (db, None) => (db, Ok a)
      | (db, Some e) => (db, Err e)
      end
  end.

Section rows.
Context {R : Type}.

Definition matching (p : R → bool) (m : gmap string R) : gmap string R :=
  filter (λ kr, p kr.2 = true) m.
Definition delete_rows (p : R → bool) (m : gmap string R) : gmap string R :=
  filter (λ kr, p kr.2 = false) m.
Definition update_rows (p : R → bool) (f : R → R) (m : gmap string R) : gmap string R :=
  (λ r, if p r then f r else r) <$> m.

Lemma lookup_delete_rows p m k r :
  delete_rows p m !! k = Some r ↔ m !! k = Some r ∧ p r = false.
Proof. unfold delete_rows. by rewrite map_lookup_filter_Some. Qed.

Lemma lookup_matching p m k r : matching p m !! k = Some r ↔ m !! k = Some r ∧ p r = true.
Proof. unfold matching. by rewrite map_lookup_filter_Some. Qed.

Lemma lookup_update_rows p f m k r :
  update_rows p f m !! k = Some r ↔ ∃ r', m !! k = Some r' ∧ r = (if p r' then f r' else r').
Proof. unfold update_rows. rewrite lookup_fmap_Some. naive_solver. Qed.

Lemma matching_empty p m : matching p m = ∅ ↔ ∀ k r, m !! k = Some r → p r = false.
Proof.
  rewrite map_empty. split.
  - intros Hm k r Hk. destruct (p r) eqn:E; [|done].
    assert (matching p m !! k = Some r) as Hin by (by apply lookup_matching). by rewrite Hm in Hin.
  - intros Hp k. destruct (matching p m !! k) as [r|] eqn:E; [|done].
    apply lookup_matching in E as [Hk Hr]. by rewrite (Hp k r Hk) in Hr.
Qed.

Lemma size_matching_pos p m : 0 < Z.of_nat (size (matching p m)) ↔ ∃ k r, m !! k = Some r ∧ p r = true.
Proof.
  assert (Hs : 0 < Z.of_nat (size (matching p m)) ↔ matching p m ≠ ∅).
  { rewrite <-(map_size_empty_iff (matching p m)). lia. }
  rewrite Hs, matching_empty. split.
  - intros Hn. destruct (map_choose (matching p m)) as (k & r & Hk%lookup_matching).
    { intros He. by apply Hn, matching_empty. }
    by exists k, r.
  - intros (k & r & Hk & Hr) Hall. by rewrite (Hall k r Hk) in Hr.
Qed.
End rows.

Section laws.
Context {R : Type} (key : R → string).

(** A row of a taken key is left alone. *)
Definition insert_row (r : R) (m : gmap string R) : gmap string R :=
  match m !! key r with Some _ => m | None => <[key r := r]> m end.

(** A statement that reports an error may have taken effect (its answer was
    lost) or not; one that succeeds has. *)
Definition executed (before after : gmap string R) (full : gmap string R) {A} (res : result error A)
    (ok : A → Prop) : Prop :=
  match res with
  | Ok a => after = full ∧ ok a
  | Err _ => after = before ∨ after = full
  end.

Class TableLaws (D : Type) `{Table R D} := {
  tb_rows : D → gmap string R;
  tb_up : D → Prop;
  tb_rows_key d k r : tb_rows d !! k = Some r → key r = k;
  tb_Delete_spec d p :
    let '(d', res) := tb_Delete d p in
    executed (tb_rows d) (tb_rows d') (delete_rows p (tb_rows d)) res
      (λ n, n = Z.of_nat (size (matching p (tb_rows d))));
  tb_CreateDoNothing_spec d r :
    let '(d', res) := tb_CreateDoNothing d r in
    executed (tb_rows d) (tb_rows d') (insert_row r (tb_rows d)) res
      (λ n, n = match tb_rows d !! key r with Some _ => 0 | None => 1 end);
  tb_Create_spec d r :
    let '(d', res) := tb_Create d r in
    match res with
    | None => tb_rows d !! key r = None ∧ tb_rows d' = <[key r := r]> (tb_rows d)
    | Some _ => tb_rows d' = tb_rows d ∨ tb_rows d' = insert_row r (tb_rows d)
    end;
  tb_Updates_spec d p f :
    (∀ r, key (f r) = key r) →
    let '(d', res) := tb_Updates d p f in
    executed (tb_rows d) (tb_rows d') (update_rows p f (tb_rows d)) res
      (λ n, n = Z.of_nat (size (matching p (tb_rows d))));
  tb_Count_spec d p n : tb_Count d p = Ok n → n = Z.of_nat (size (matching p (tb_rows d)));
  tb_First_spec d p r : tb_First d p = Ok r → ∃ k, tb_rows d !! k = Some r ∧ p r = true;
  tb_Commit_spec d tx :
    let '(d', res) := tb_Commit d tx in
    match res with
    | None => tb_rows d' = tb_rows tx
    | Some _ => tb_rows d' = tb_rows d ∨ tb_rows d' = tb_rows tx
    end;
  (** A database that is up answers. *)
  tb_Delete_up d p : tb_up d → tb_up (tb_Delete d p).1 ∧ is_ok (tb_Delete d p).2 = true;
  tb_CreateDoNothing_up d r : tb_up d →
    tb_up (tb_CreateDoNothing d r).1 ∧ is_ok (tb_CreateDoNothing d r).2 = true;
  tb_Create_up d r : tb_up d → tb_up (tb_Create d r).1 ∧
    (tb_rows d !! key r = None → (tb_Create d r).2 = None) ∧
    tb_rows (tb_Create d r).1 = insert_row r (tb_rows d);
  tb_Updates_up d p f : tb_up d → tb_up (tb_Updates d p f).1 ∧ is_ok (tb_Updates d p f).2 = true;
  tb_Count_up d p : tb_up d → is_ok (tb_Count d p) = true;
  tb_First_up d p : tb_up d → matching p (tb_rows d) ≠ ∅ → is_ok (tb_First d p) = true;
  tb_Commit_up d tx : tb_up d → tb_up tx → tb_up (tb_Commit d tx).1 ∧ (tb_Commit d tx).2 = None;
}.
End laws.

(** A table in memory that is always up: the rows filed under their key. *)
Module RefTable.
Section ref.
Context {R : Type} (key : R → string).

Definition well_filed (kr : string * R) : Prop := key kr.2 = kr.1.
Definition rows (d : gmap string R) : gmap string R := filter well_filed d.

#[export] Instance ops : Table R (gmap string R) := {
  tb_Delete d p := (delete_rows p (rows d), Ok (Z.of_nat (size (matching p (rows d)))));
  tb_CreateDoNothing d r :=
    (insert_row key r (rows d), Ok (match rows d !! key r with Some _ => 0 | None => 1 end));
  tb_Create d r :=
    (insert_row key r (rows d),
     match rows d !! key r with Some _ => Some (ErrorText "duplicated key not allowed") | None => None end);
  tb_Updates d p f := (update_rows p f (rows d), Ok (Z.of_nat (size (matching p (rows d)))));
  tb_Count d p := Ok (Z.of_nat (size (matching p (rows d))));
  tb_First d p :=
    match (map_to_list (matching p (rows d))).*2 with
    | r :: _ => Ok r
    | [] => Err (ErrorText "record not found")
    end;
  tb_Commit _ tx := (tx, None);
}.

Definition keyed (m : gmap string R) : Prop := map_Forall (λ k r, key r = k) m.

Lemma rows_id m : keyed m → rows m = m.
Proof.
  intros Hm. apply map_eq. intros k. apply option_eq. intros r. unfold rows.
  rewrite map_lookup_filter_Some. unfold well_filed. simpl. split; [by intros [? _]|].
  intros Hk. split; [done|by apply Hm].
Qed.

Lemma rows_keyed d : keyed (rows d).
Proof. intros k r [_ Hk]%map_lookup_filter_Some. exact Hk. Qed.

Lemma keyed_delete p m : keyed m → keyed (delete_rows p m).
Proof. intros Hm k r [Hk _]%lookup_delete_rows. by apply Hm. Qed.

Lemma keyed_insert r m : keyed m → keyed (insert_row key r m).
Proof. intros Hm. unfold insert_row. destruct (m !! key r); [done|]. by apply map_Forall_insert_2. Qed.

Lemma keyed_update p f m : (∀ r, key (f r) = key r) → keyed m → keyed (update_rows p f m).
Proof.
  intros Hf Hm k r (r' & Hk & ->)%lookup_update_rows. specialize (Hm _ _ Hk). destruct (p r'); [by rewrite Hf|exact Hm].
Qed.

#[export] Program Instance laws : TableLaws key (gmap string R) := {
  tb_rows := rows;
  tb_up _ := True }.
Next Obligation. intros d k r. apply rows_keyed. Qed.
Next Obligation. intros d p. simpl. split; [|done]. apply rows_id, keyed_delete, rows_keyed. Qed.
Next Obligation. intros d r. simpl. split; [|done]. apply rows_id, keyed_insert, rows_keyed. Qed.
Next Obligation.
  intros d r. simpl. destruct (rows d !! key r) eqn:E; simpl.
  - right. apply rows_id, keyed_insert, rows_keyed.
  - split; [done|]. rewrite rows_id by apply keyed_insert, rows_keyed. unfold insert_row. by rewrite E.
Qed.
Next Obligation. intros d p f Hf. simpl. split; [|done]. apply rows_id, keyed_update, rows_keyed. done. Qed.
Next Obligation. by intros d p n [= <-]. Qed.
Next Obligation.
  intros d p r. simpl. destruct (map_to_list _).*2 as [|x l] eqn:E; [done|]. intros [= <-].
  assert (Hx : x ∈ x :: l) by left. rewrite <-E in Hx.
  apply list_elem_of_fmap in Hx as ([k y] & -> & [Hk Hp]%elem_of_map_to_list%lookup_matching). by exists k.
Qed.
Next Obligation. done. Qed.
Next Obligation. done. Qed.
Next Obligation. done. Qed.
Next Obligation.
  intros d r _. simpl. split_and!; [done|by intros ->|]. apply rows_id, keyed_insert, rows_keyed.
Qed.
Next Obligation. done. Qed.
Next Obligation. done. Qed.
Next Obligation.
  intros d p _ Hne. simpl. destruct (map_to_list _).*2 as [|x l] eqn:E; [|done].
  apply fmap_nil_inv, map_to_list_empty_iff in E. done.
Qed.
Next Obligation. done. Qed.
End ref.
End RefTable.
