(* ===== verification/Database.v ===== *)
(** gorm.io/gorm over the tables of the database stores: one table of resource
    rows per kind, each with a unique key column, and one table of index entries
    shared by all kinds. The statements the stores issue (operational class),
    what the database promises of them (law class) and a reference database. *)
From S2P Require Import Prelude GoStrings Errors Gorm.
From Stdlib Require Import Ascii.

Open Scope string_scope.
Open Scope list_scope.
Open Scope Z_scope.

(** [R] are the resource rows, [X] the index entries; a [string] argument names
    a resource table. *)
Class Database (D R X : Type) := {
  db_AutoMigrate : D → string → D * option error;
  db_AutoMigrateEntries : D → D * option error;
  db_Find : D → string → (R → bool) → result error (list R);
  db_First : D → string → (R → bool) → result error R;
  db_Count : D → string → (R → bool) → result error Z;
  db_Create : D → string → list R → D * option error;
  db_Updates : D → string → (R → bool) → (R → R) → D * result error Z;
  db_Delete : D → string → (R → bool) → D * result error Z;
  db_FindEntries : D → (X → bool) → result error (list X);
  db_PluckDistinct : D → (X → bool) → (X → string) → result error (list string);
  db_CreateEntries : D → list X → D * option error;
  db_DeleteEntries : D → (X → bool) → D * option error;
  db_Commit : D → D → D * option error;
  (** [db_LIKE value pattern]. *)
  db_LIKE : string → string → bool;
}.

Definition ErrRecordNotFound : error := ErrorText "record not found".

(** [db.Transaction(fn)] for a function without a result of its own. *)
Definition InTransaction {D R X : Type} `{Database D R X} (db : D) (fn : D → D * option error)
    : D * option error :=
  match fn db with
  | (_, Some e) => (db, Some e)
  | (tx, None) => db_Commit db tx
  end.

(** A string whose bytes all stand for themselves in a pattern of [LIKE]. *)
Fixpoint no_wildcard (s : string) : bool :=
  match s with
  | EmptyString => true
  | String c s => negb (bool_decide (c = "%"%char ∨ c = "_"%char ∨ c = "\"%char)) && no_wildcard s
  end.

Section laws.
Context {R X : Type} (key : R → string).

Definition insert_rows (rs : list R) (m : gmap string R) : gmap string R :=
  foldl (λ m r, <[key r := r]> m) m rs.

(** What a statement leaves: the rows of [t] are [rows], the rest is as before. *)
Record left_rows {D} (db_rows : D → string → gmap string R) (db_entries : D → list X)
    (d d' : D) (t : string) (rows : gmap string R) : Prop := {
  lr_rows : db_rows d' t = rows;
  lr_others t' : t' ≠ t → db_rows d' t' = db_rows d t';
  lr_entries : db_entries d' ≡ₚ db_entries d }.
Record left_entries {D} (db_rows : D → string → gmap string R) (db_entries : D → list X)
    (d d' : D) (entries : list X) : Prop := {
  le_rows t : db_rows d' t = db_rows d t;
  le_entries : db_entries d' ≡ₚ entries }.

(** A failing statement of a transaction leaves nothing: the code rolls back. *)
Class DatabaseLaws (D : Type) `{Database D R X} := {
  db_rows : D → string → gmap string R;
  db_entries : D → list X;
  db_up : D → Prop;
  db_rows_key d t k r : db_rows d t !! k = Some r → key r = k;
  db_AutoMigrate_spec d t :
    left_entries db_rows db_entries d (db_AutoMigrate d t).1 (db_entries d);
  db_AutoMigrateEntries_spec d :
    left_entries db_rows db_entries d (db_AutoMigrateEntries d).1 (db_entries d);
  db_Find_spec d t p l : db_Find d t p = Ok l →
    l ≡ₚ (map_to_list (matching p (db_rows d t))).*2;
  db_First_spec d t p : match db_First d t p with
    | Ok r => ∃ k, db_rows d t !! k = Some r ∧ p r = true
    | Err e => errors_is e ErrRecordNotFound = true → matching p (db_rows d t) = ∅
    end;
  db_Count_spec d t p n : db_Count d t p = Ok n → n = Z.of_nat (size (matching p (db_rows d t)));
  db_Create_spec d t rs d' : db_Create d t rs = (d', None) →
    NoDup (key <$> rs) ∧ Forall (λ r, db_rows d t !! key r = None) rs ∧
    left_rows db_rows db_entries d d' t (insert_rows rs (db_rows d t));
  db_Updates_spec d t p f d' n : (∀ r, key (f r) = key r) → db_Updates d t p f = (d', Ok n) →
    left_rows db_rows db_entries d d' t (update_rows p f (db_rows d t)) ∧
    n = Z.of_nat (size (matching p (db_rows d t)));
  db_Delete_spec d t p d' n : db_Delete d t p = (d', Ok n) →
    left_rows db_rows db_entries d d' t (delete_rows p (db_rows d t)) ∧
    n = Z.of_nat (size (matching p (db_rows d t)));
  db_FindEntries_spec d p l : db_FindEntries d p = Ok l → l ≡ₚ filter (λ x, p x = true) (db_entries d);
  db_PluckDistinct_spec d p f l : db_PluckDistinct d p f = Ok l →
    NoDup l ∧ ∀ s, s ∈ l ↔ ∃ x, x ∈ db_entries d ∧ p x = true ∧ f x = s;
  db_CreateEntries_spec d xs d' : db_CreateEntries d xs = (d', None) →
    left_entries db_rows db_entries d d' (db_entries d ++ xs);
  db_DeleteEntries_spec d p d' : db_DeleteEntries d p = (d', None) →
    left_entries db_rows db_entries d d' (filter (λ x, p x = false) (db_entries d));
  (** A commit whose answer is lost may have happened. *)
  db_Commit_spec d tx :
    let '(d', res) := db_Commit d tx in
    (∀ t, db_rows d' t = db_rows tx t) ∧ db_entries d' ≡ₚ db_entries tx ∨
    is_Some res ∧ (∀ t, db_rows d' t = db_rows d t) ∧ db_entries d' ≡ₚ db_entries d;
  db_LIKE_prefix s p : no_wildcard p = true → db_LIKE s (p +:+ "%") = has_prefix s p;
  (** A database that is up executes what it can. *)
  db_up_migrate d t : db_up d →
    db_up (db_AutoMigrate d t).1 ∧ (db_AutoMigrate d t).2 = None;
  db_up_migrate_entries d : db_up d →
    db_up (db_AutoMigrateEntries d).1 ∧ (db_AutoMigrateEntries d).2 = None;
  db_up_Find d t p : db_up d → is_ok (db_Find d t p) = true;
  db_up_First d t p : db_up d → matching p (db_rows d t) ≠ ∅ → is_ok (db_First d t p) = true;
  db_up_First_none d t p : db_up d → matching p (db_rows d t) = ∅ →
    db_First d t p = Err ErrRecordNotFound;
  db_up_Count d t p : db_up d → is_ok (db_Count d t p) = true;
  db_up_Create d t rs : db_up d → NoDup (key <$> rs) → rs ≠ [] →
    Forall (λ r, db_rows d t !! key r = None) rs →
    db_up (db_Create d t rs).1 ∧ (db_Create d t rs).2 = None;
  db_up_Updates d t p f : db_up d → (∀ r, key (f r) = key r) →
    db_up (db_Updates d t p f).1 ∧ is_ok (db_Updates d t p f).2 = true;
  db_up_Delete d t p : db_up d →
    db_up (db_Delete d t p).1 ∧ is_ok (db_Delete d t p).2 = true;
  db_up_FindEntries d p : db_up d → is_ok (db_FindEntries d p) = true;
  db_up_PluckDistinct d p f : db_up d → is_ok (db_PluckDistinct d p f) = true;
  db_up_CreateEntries d xs : db_up d → xs ≠ [] →
    db_up (db_CreateEntries d xs).1 ∧ (db_CreateEntries d xs).2 = None;
  db_up_DeleteEntries d p : db_up d →
    db_up (db_DeleteEntries d p).1 ∧ (db_DeleteEntries d p).2 = None;
  db_up_Commit d tx : db_up d → db_up tx →
    db_up (db_Commit d tx).1 ∧ (db_Commit d tx).2 = None ∧
    (∀ t, db_rows (db_Commit d tx).1 t = db_rows tx t) ∧ db_entries (db_Commit d tx).1 ≡ₚ db_entries tx;
}.

Lemma insert_rows_keyed rs m : map_Forall (λ k r, key r = k) m → map_Forall (λ k r, key r = k) (insert_rows rs m).
Proof.
  unfold insert_rows. revert m. induction rs as [|r rs IH]; intros m Hm; simpl; [done|].
  apply IH. by apply map_Forall_insert_2.
Qed.

Lemma lookup_insert_rows_ne rs m k : k ∉ key <$> rs → insert_rows rs m !! k = m !! k.
Proof.
  unfold insert_rows. revert m. induction rs as [|r rs IH]; intros m; csimpl; [done|].
  intros [Hk Hn]%not_elem_of_cons. rewrite IH by done. by rewrite lookup_insert_ne.
Qed.
End laws.
Arguments insert_rows : simpl never.
Arguments db_rows {R X key D _ _}.
Arguments db_entries {R X key D _ _}.
Arguments db_up {R X key D _ _}.
Arguments db_rows_key {R X key D _ _}.
Arguments db_AutoMigrate_spec {R X key D _ _}.
Arguments db_AutoMigrateEntries_spec {R X key D _ _}.
Arguments db_Find_spec {R X key D _ _}.
Arguments db_First_spec {R X key D _ _}.
Arguments db_Count_spec {R X key D _ _}.
Arguments db_Create_spec {R X key D _ _}.
Arguments db_Updates_spec {R X key D _ _}.
Arguments db_Delete_spec {R X key D _ _}.
Arguments db_FindEntries_spec {R X key D _ _}.
Arguments db_PluckDistinct_spec {R X key D _ _}.
Arguments db_CreateEntries_spec {R X key D _ _}.
Arguments db_DeleteEntries_spec {R X key D _ _}.
Arguments db_Commit_spec {R X key D _ _}.
Arguments db_LIKE_prefix {R X key D _ _}.
Arguments db_up_migrate {R X key D _ _}.
Arguments db_up_migrate_entries {R X key D _ _}.
Arguments db_up_Find {R X key D _ _}.
Arguments db_up_First {R X key D _ _}.
Arguments db_up_First_none {R X key D _ _}.
Arguments db_up_Count {R X key D _ _}.
Arguments db_up_Create {R X key D _ _}.
Arguments db_up_Updates {R X key D _ _}.
Arguments db_up_Delete {R X key D _ _}.
Arguments db_up_FindEntries {R X key D _ _}.
Arguments db_up_PluckDistinct {R X key D _ _}.
Arguments db_up_CreateEntries {R X key D _ _}.
Arguments db_up_DeleteEntries {R X key D _ _}.
Arguments db_up_Commit {R X key D _ _}.

(** A database in memory that is always up. *)
Module RefDatabase.
Section ref.
Context {R X : Type} (key : R → string).

Record database := { tables : gmap string (gmap string R); indices : list X }.

Definition rows (d : database) (t : string) : gmap string R :=
  RefTable.rows key (default ∅ (tables d !! t)).
Definition with_rows (d : database) (t : string) (m : gmap string R) : database :=
  {| tables := <[t := m]> (tables d); indices := indices d |}.
Definition with_indices (d : database) (l : list X) : database :=
  {| tables := tables d; indices := l |}.

(** [LIKE] for patterns whose only wildcard is a final [%]. *)
Definition LIKE (s pattern : string) : bool :=
  has_prefix s (str_take (String.length pattern - 1) pattern).

Definition creatable (d : database) (t : string) (rs : list R) : Prop :=
  NoDup (key <$> rs) ∧ Forall (λ r, rows d t !! key r = None) rs.

#[export] Instance ops : Database database R X := {
  db_AutoMigrate d _ := (d, None);
  db_AutoMigrateEntries d := (d, None);
  db_Find d t p := Ok (map_to_list (matching p (rows d t))).*2;
  db_First d t p :=
    match (map_to_list (matching p (rows d t))).*2 with
    | r :: _ => Ok r
    | [] => Err ErrRecordNotFound
    end;
  db_Count d t p := Ok (Z.of_nat (size (matching p (rows d t))));
  db_Create d t rs :=
    if decide (creatable d t rs) then (with_rows d t (insert_rows key rs (rows d t)), None)
    else (d, Some (ErrorText "duplicated key not allowed"));
  db_Updates d t p f :=
    (with_rows d t (update_rows p f (rows d t)), Ok (Z.of_nat (size (matching p (rows d t)))));
  db_Delete d t p :=
    (with_rows d t (delete_rows p (rows d t)), Ok (Z.of_nat (size (matching p (rows d t)))));
  db_FindEntries d p := Ok (filter (λ x, p x = true) (indices d));
  db_PluckDistinct d p f := Ok (remove_dups (f <$> filter (λ x, p x = true) (indices d)));
  db_CreateEntries d xs := (with_indices d (indices d ++ xs), None);
  db_DeleteEntries d p := (with_indices d (filter (λ x, p x = false) (indices d)), None);
  db_Commit _ tx := (tx, None);
  db_LIKE := LIKE;
}.

Lemma rows_with_rows d t m : RefTable.keyed key m → rows (with_rows d t m) t = m.
Proof. intros Hm. unfold rows, with_rows. simpl. rewrite lookup_insert_eq. by apply RefTable.rows_id. Qed.

Lemma left_with_rows d t m : RefTable.keyed key m →
  left_rows rows indices d (with_rows d t m) t m.
Proof.
  intros Hm. split; [by apply rows_with_rows| |done].
  intros t' Ht. unfold rows, with_rows. simpl. by rewrite lookup_insert_ne.
Qed.

Lemma table_rows_keyed d t : RefTable.keyed key (rows d t).
Proof. apply RefTable.rows_keyed. Qed.

Lemma LIKE_prefix s p : LIKE s (p +:+ "%") = has_prefix s p.
Proof.
  unfold LIKE. rewrite str_length_app. simpl. rewrite Nat.add_sub. f_equal.
  induction p as [|c p IH]; [done|]. change (String c p +:+ "%") with (String c (p +:+ "%")).
  simpl. by rewrite IH.
Qed.

#[export] Program Instance laws : DatabaseLaws key database := {
  db_rows := rows;
  db_entries := indices;
  db_up _ := True }.
Next Obligation. intros d t k r. apply table_rows_keyed. Qed.
Next Obligation. done. Qed.
Next Obligation. done. Qed.
Next Obligation. by intros d t p l [= <-]. Qed.
Next Obligation.
  intros d t p. simpl. destruct (map_to_list _).*2 as [|x l] eqn:E.
  - intros _. by apply fmap_nil_inv, map_to_list_empty_iff in E.
  - assert (Hx : x ∈ x :: l) by left. rewrite <-E in Hx.
    apply list_elem_of_fmap in Hx as ([k y] & -> & [Hk Hp]%elem_of_map_to_list%lookup_matching). by exists k.
Qed.
Next Obligation. by intros d t p n [= <-]. Qed.
Next Obligation.
  intros d t rs d'. simpl. case_decide as Hc; [|done]. destruct Hc as [Hn Hf]. intros [= <-].
  split_and!; [done|done|]. apply left_with_rows, insert_rows_keyed, table_rows_keyed.
Qed.
Next Obligation.
  intros d t p f d' n Hf [= <- <-]. split; [|done]. apply left_with_rows, RefTable.keyed_update, table_rows_keyed. done.
Qed.
Next Obligation.
  intros d t p d' n [= <- <-]. split; [|done]. apply left_with_rows, RefTable.keyed_delete, table_rows_keyed.
Qed.
Next Obligation. by intros d p l [= <-]. Qed.
Next Obligation.
  intros d p f l [= <-]. split; [apply NoDup_remove_dups|]. intros s.
  rewrite elem_of_remove_dups, list_elem_of_fmap. setoid_rewrite list_elem_of_filter. naive_solver.
Qed.
Next Obligation. by intros d xs d' [= <-]. Qed.
Next Obligation. by intros d p d' [= <-]. Qed.
Next Obligation. intros d tx. by left. Qed.
Next Obligation. intros s p _. apply LIKE_prefix. Qed.
Next Obligation. done. Qed.
Next Obligation. done. Qed.
Next Obligation. done. Qed.
Next Obligation.
  intros d t p _ Hne. simpl. destruct (map_to_list _).*2 as [|x l] eqn:E; [|done].
  by apply fmap_nil_inv, map_to_list_empty_iff in E.
Qed.
Next Obligation. intros d t p _ He. simpl. by rewrite He, map_to_list_empty. Qed.
Next Obligation. done. Qed.
Next Obligation. intros d t rs _ Hn _ Hf. simpl. by rewrite decide_True. Qed.
Next Obligation. done. Qed.
Next Obligation. done. Qed.
Next Obligation. done. Qed.
Next Obligation. done. Qed.
Next Obligation. done. Qed.
Next Obligation. done. Qed.
Next Obligation. done. Qed.
End ref.
Arguments database : clear implicits.
End RefDatabase.
