(* ===== verification/ConnectionPool.v ===== *)
(** Database connections shared by the stores: pkg/store/dbcommon/connection_pool.go.
    A pool is kept in a registry under its address and counts its users; the
    last one to close it closes the connection. *)
From S2P Require Import Prelude GoStrings Errors.

Open Scope string_scope.
Open Scope list_scope.
Open Scope Z_scope.

(** pkg/config/store: the type of a store. *)
Definition Memory : string := "memory".

(** [closeOnce] is done when its function has run. *)
Record ConnectionPool := {
  cp_address : string; cp_storeType : string; cp_refCount : Z; cp_closeOnce : bool; cp_closed : bool }.

(** [pools], and the pools that pointers refer to. *)
Record pool_state := { ps_pools : gmap string nat; ps_heap : gmap nat ConnectionPool; ps_next : nat }.

Definition poolKey (storeType address : string) : string := storeType +:+ ":" +:+ address.

Definition with_refCount (p : ConnectionPool) (n : Z) : ConnectionPool :=
  {| cp_address := cp_address p; cp_storeType := cp_storeType p; cp_refCount := n;
     cp_closeOnce := cp_closeOnce p; cp_closed := cp_closed p |}.

(** [opened] is the outcome of [gorm.Open]. *)
Definition NewConnectionPool (opened : option error) (storeType address : string) : result error ConnectionPool :=
  match opened with
  | Some e => Err (errorf_w ("failed to connect to " +:+ storeType +:+ ": ") e "")
  | None => Ok {| cp_address := address; cp_storeType := storeType; cp_refCount := 1;
                  cp_closeOnce := false; cp_closed := false |}
  end.

(** Under [poolsMutex]. *)
Definition GetOrCreatePool (opened : option error) (storeType address : string) (s : pool_state)
    : pool_state * result error nat :=
  if decide (storeType = Memory) then (s, Err (ErrorText "memory pool store is no need to create connection pool"))
  else
    let key := poolKey storeType address in
    match ps_pools s !! key with
    | Some id =>
        ({| ps_pools := ps_pools s; ps_heap := alter (λ p, with_refCount p (i64 (cp_refCount p + 1))) id (ps_heap s);
            ps_next := ps_next s |}, Ok id)
    | None =>
        match NewConnectionPool opened storeType address with
        | Err e => (s, Err e)
        | Ok p =>
            ({| ps_pools := <[key := ps_next s]> (ps_pools s); ps_heap := <[ps_next s := p]> (ps_heap s);
                ps_next := S (ps_next s) |}, Ok (ps_next s))
        end
    end.

(** Under [poolsMutex]. *)
Definition RemovePool (storeType address : string) (s : pool_state) : pool_state :=
  {| ps_pools := delete (poolKey storeType address) (ps_pools s); ps_heap := ps_heap s; ps_next := ps_next s |}.

Definition set_pool (id : nat) (p : ConnectionPool) (s : pool_state) : pool_state :=
  {| ps_pools := ps_pools s; ps_heap := <[id := p]> (ps_heap s); ps_next := ps_next s |}.

Definition IncrementRef (id : nat) (s : pool_state) : pool_state :=
  {| ps_pools := ps_pools s; ps_heap := alter (λ p, with_refCount p (i64 (cp_refCount p + 1))) id (ps_heap s);
     ps_next := ps_next s |}.

(** What [Close] does under the mutex of the pool before it asks for
    [poolsMutex]; the second component says whether it removes the pool.
    [closeErr] is the outcome of closing the connection. *)
Definition Close_locked (closeErr : option error) (id : nat) (s : pool_state) : pool_state * bool * option error :=
  match ps_heap s !! id with
  | None => (s, false, None)
  | Some p =>
      if cp_closed p then (s, false, None)
      else
        let p := with_refCount p (i64 (cp_refCount p - 1)) in
        if decide (cp_refCount p ≤ 0) then
          if cp_closeOnce p then (set_pool id p s, false, None)
          else
            (set_pool id {| cp_address := cp_address p; cp_storeType := cp_storeType p; cp_refCount := cp_refCount p;
                            cp_closeOnce := true; cp_closed := true |} s, true, closeErr)
        else (set_pool id p s, false, None)
  end.

(** [Close], when nobody comes between its two halves. *)
Definition Close (closeErr : option error) (id : nat) (s : pool_state) : pool_state * option error :=
  let '(s, last, err) := Close_locked closeErr id s in
  if last then
    match ps_heap s !! id with
    | Some p => (RemovePool (cp_storeType p) (cp_address p) s, err)
    | None => (s, err)
    end
  else (s, err).

(** The first pool of the type, in the order the map is visited. *)
Definition GetGlobalDB `{MapRange} (storeType : string) (s : pool_state) : option nat :=
  snd <$> head (filter (λ p, has_prefix p.1 (storeType +:+ ":") = true) (go_range (ps_pools s))).

(** ** Users of pools

    [hs] lists, for every user that has not closed it yet, the pool it got. *)
Definition no_pools : pool_state := {| ps_pools := ∅; ps_heap := ∅; ps_next := 0 |}.

(** Users come and go; their number stays below the range of [int]. *)
Inductive step : pool_state * list nat → pool_state * list nat → Prop :=
| step_get opened storeType address s hs s' id :
    Z.of_nat (length hs) < i64_max →
    GetOrCreatePool opened storeType address s = (s', Ok id) → step (s, hs) (s', id :: hs)
| step_refused opened storeType address s hs s' e :
    GetOrCreatePool opened storeType address s = (s', Err e) → step (s, hs) (s', hs)
| step_close closeErr id hs1 hs2 s s' err :
    Close closeErr id s = (s', err) → step (s, hs1 ++ id :: hs2) (s', hs1 ++ hs2).

Definition users (hs : list nat) (id : nat) : Z := Z.of_nat (length (filter (λ x, x = id) hs)).
Definition key_of (p : ConnectionPool) : string := poolKey (cp_storeType p) (cp_address p).

(** A pool in use is open, counts its users and is the one in the registry;
    a pool without users is closed and not in the registry. *)
Record counted (s : pool_state) (hs : list nat) : Prop := {
  ct_fresh id : is_Some (ps_heap s !! id) → (id < ps_next s)%nat;
  ct_bound : Z.of_nat (length hs) ≤ i64_max;
  ct_used id : id ∈ hs → ∃ p, ps_heap s !! id = Some p ∧ cp_closed p = false ∧ cp_closeOnce p = false ∧
    cp_refCount p = users hs id ∧ ps_pools s !! key_of p = Some id;
  ct_unused id p : ps_heap s !! id = Some p → id ∉ hs → cp_closed p = true;
  ct_registry k id : ps_pools s !! k = Some id → id ∈ hs ∧ ∃ p, ps_heap s !! id = Some p ∧ key_of p = k }.

Lemma users_cons x hs id : users (x :: hs) id = (if decide (x = id) then 1 else 0) + users hs id.
Proof. unfold users. rewrite filter_cons. destruct (decide (x = id)); simpl; lia. Qed.
Lemma users_app a b id : users (a ++ b) id = users a id + users b id.
Proof. unfold users. rewrite filter_app, length_app. lia. Qed.
Lemma users_bound hs id : 0 ≤ users hs id ≤ Z.of_nat (length hs).
Proof.
  induction hs as [|x hs IH]; [done|]. rewrite users_cons. simpl length. destruct (decide (x = id)); lia.
Qed.
Lemma users_pos hs id : id ∈ hs ↔ 0 < users hs id.
Proof.
  unfold users. split.
  - intros Hin. assert (id ∈ filter (λ x, x = id) hs) as Hf by by apply list_elem_of_filter.
    destruct (filter _ hs); [by apply not_elem_of_nil in Hf|simpl; lia].
  - intros Hp. destruct (filter (λ x, x = id) hs) as [|y l] eqn:Hf; [simpl in Hp; lia|].
    assert (Hy : y ∈ filter (λ x, x = id) hs) by (rewrite Hf; left). apply list_elem_of_filter in Hy as [-> ?]. done.
Qed.

Lemma get_counted opened st addr s hs s' id : Z.of_nat (length hs) < i64_max →
  GetOrCreatePool opened st addr s = (s', Ok id) → counted s hs → counted s' (id :: hs).
Proof.
  intros Hb. unfold GetOrCreatePool. destruct (decide (st = Memory)); [done|].
  intros Hget [Hf Hbd Hu Hn Hr]. destruct (ps_pools s !! poolKey st addr) as [i|] eqn:Hreg.
  - injection Hget as <- <-. destruct (Hr _ _ Hreg) as [Hin (p & Hp & Hk)].
    destruct (Hu _ Hin) as (p' & Hp' & Hc & Ho & Hcnt & Hreg'). rewrite Hp in Hp'. injection Hp' as <-.
    split; cbn [ps_heap ps_pools ps_next].
    + intros j Hj. apply Hf. by apply lookup_alter_is_Some in Hj.
    + simpl. lia.
    + intros j Hj. rewrite users_cons. destruct (decide (i = j)) as [<-|Hne].
      * rewrite lookup_alter_eq, Hp. eexists. split; [done|]. split; [done|]. split; [done|]. split; [|done].
        simpl. rewrite Hcnt, i64_id; [lia|]. pose proof (users_bound hs i). unfold in_i64, i64_min, i64_max in *. lia.
      * rewrite lookup_alter_ne by done. apply elem_of_cons in Hj as [->|Hj]; [done|]. by apply Hu.
    + intros j q Hj Hnin. apply not_elem_of_cons in Hnin as [Hne Hnin]. rewrite lookup_alter_ne in Hj by done. by eapply Hn.
    + intros k j Hkj. destruct (Hr _ _ Hkj) as [Hjin (q & Hq & Hqk)]. split; [by right|].
      destruct (decide (i = j)) as [<-|Hne]; [|rewrite lookup_alter_ne by done; by exists q].
      rewrite lookup_alter_eq, Hq. by eexists.
  - destruct opened as [e|]; [done|]. injection Hget as <- <-.
    assert (Hnew : ps_heap s !! ps_next s = None).
    { destruct (ps_heap s !! ps_next s) eqn:E; [|done]. pose proof (Hf (ps_next s) ltac:(by eexists)). lia. }
    assert (Hnin : ps_next s ∉ hs) by (intros (p & Hp & _)%Hu; congruence).
    assert (Hz : users hs (ps_next s) = 0).
    { pose proof (users_bound hs (ps_next s)). destruct (decide (0 < users hs (ps_next s))) as [?%users_pos|]; [done|lia]. }
    split; cbn [ps_heap ps_pools ps_next].
    + intros j Hj. apply lookup_insert_is_Some in Hj as [<-|[_ Hj]]; [lia|]. apply Hf in Hj. lia.
    + simpl. lia.
    + intros j Hj. rewrite users_cons. apply elem_of_cons in Hj as [->|Hj].
      * rewrite lookup_insert_eq, decide_True by done. eexists. split; [done|]. split_and!; [done|done|simpl; lia|].
        unfold key_of. simpl. by rewrite lookup_insert_eq.
      * assert (Hne : ps_next s ≠ j) by (by intros <-). rewrite lookup_insert_ne, decide_False by done.
        destruct (Hu _ Hj) as (p & Hp & Hc & Ho & Hcnt & Hreg'). exists p. split_and!; [done..|].
        rewrite lookup_insert_ne; [done|]. intros Hk. by rewrite Hk, Hreg' in Hreg.
    + intros j q Hj [Hne Hnot]%not_elem_of_cons. rewrite lookup_insert_ne in Hj by done. by eapply Hn.
    + intros k j [[<- <-]|[_ Hkj]]%lookup_insert_Some.
      * split; [by left|]. rewrite lookup_insert_eq. by eexists.
      * destruct (Hr _ _ Hkj) as [Hjin (q & Hq & Hqk)]. split; [by right|]. exists q. split; [|done].
        rewrite lookup_insert_ne; [done|]. intros <-. congruence.
Qed.

Lemma users_remove hs1 id hs2 j : users (hs1 ++ id :: hs2) j = (if decide (id = j) then 1 else 0) + users (hs1 ++ hs2) j.
Proof. rewrite !users_app, users_cons. destruct (decide (id = j)); lia. Qed.

(** Closing a pool in use: the last user closes it, another one only leaves. *)
Lemma Close_used closeErr id hs1 hs2 s : counted s (hs1 ++ id :: hs2) → ∃ p, ps_heap s !! id = Some p ∧
  Close closeErr id s =
    if decide (users (hs1 ++ hs2) id = 0)
    then ({| ps_pools := delete (key_of p) (ps_pools s);
             ps_heap := <[id := {| cp_address := cp_address p; cp_storeType := cp_storeType p; cp_refCount := 0;
                                   cp_closeOnce := true; cp_closed := true |}]> (ps_heap s);
             ps_next := ps_next s |}, closeErr)
    else (set_pool id (with_refCount p (users (hs1 ++ hs2) id)) s, None).
Proof.
  intros [_ Hbd Hu _ _]. destruct (Hu id) as (p & Hp & Hc & Ho & Hcnt & _); [set_solver|]. exists p. split; [done|].
  pose proof (users_bound (hs1 ++ hs2) id) as Hn. rewrite users_remove, decide_True in Hcnt by done.
  assert (Hi : i64 (cp_refCount p - 1) = users (hs1 ++ hs2) id).
  { rewrite Hcnt, i64_id; [lia|]. rewrite length_app in *. simpl in Hbd. unfold in_i64, i64_min, i64_max in *. lia. }
  unfold Close, Close_locked. rewrite Hp, Hc. simpl cp_refCount. rewrite Hi. simpl cp_closeOnce. rewrite Ho.
  destruct (decide (users (hs1 ++ hs2) id ≤ 0)) as [Hle|Hgt], (decide (users (hs1 ++ hs2) id = 0)) as [Hz|Hz];
    try lia; [|done].
  cbn [ps_heap set_pool]. rewrite lookup_insert_eq. rewrite Hz. done.
Qed.

Lemma close_counted closeErr id hs1 hs2 s s' err :
  Close closeErr id s = (s', err) → counted s (hs1 ++ id :: hs2) → counted s' (hs1 ++ hs2).
Proof.
  intros Hclose Hs. destruct (Close_used closeErr id hs1 hs2 s Hs) as (p & Hp & Heq). rewrite Hclose in Heq. clear Hclose.
  destruct Hs as [Hf Hbd Hu Hn Hr].
  assert (Hin : ∀ j, j ∈ hs1 ++ hs2 → j ∈ hs1 ++ id :: hs2) by set_solver.
  assert (Hother : ∀ j, j ≠ id → j ∈ hs1 ++ id :: hs2 → j ∈ hs1 ++ hs2) by set_solver.
  assert (Husers : ∀ j, j ≠ id → users (hs1 ++ id :: hs2) j = users (hs1 ++ hs2) j).
  { intros j Hj. rewrite users_remove, decide_False by done. lia. }
  assert (Hb' : Z.of_nat (length (hs1 ++ hs2)) ≤ i64_max) by (rewrite length_app in *; simpl in Hbd; lia).
  destruct (Hu id) as (p' & Hp' & Hc & Ho & Hcnt & Hreg); [set_solver|]. rewrite Hp in Hp'. injection Hp' as <-.
  assert (Hkey : ∀ j q, j ≠ id → ps_heap s !! j = Some q → ps_pools s !! key_of q = Some j → key_of p ≠ key_of q).
  { intros j q Hj Hq Hqr Hk. rewrite <-Hk, Hreg in Hqr. congruence. }
  destruct (decide (users (hs1 ++ hs2) id = 0)) as [Hz|Hz]; injection Heq as -> ->;
    (split; cbn [ps_heap ps_pools ps_next set_pool];
      [intros j Hj; apply Hf; apply lookup_insert_is_Some in Hj as [<-|[_ Hj]]; [by eexists|done]|done|..]).
  - assert (Hgone : id ∉ hs1 ++ hs2) by (rewrite users_pos; lia).
    intros j Hj. assert (Hne : j ≠ id) by (by intros ->). rewrite lookup_insert_ne by done.
    destruct (Hu _ (Hin _ Hj)) as (q & Hq & Hqc & Hqo & Hqn & Hqr). exists q. rewrite Husers in Hqn by done.
    split_and!; [done..|]. rewrite lookup_delete_ne; [done|by eapply Hkey].
  - intros j q Hj Hnot. destruct (decide (id = j)) as [<-|Hne].
    + rewrite lookup_insert_eq in Hj. by injection Hj as <-.
    + rewrite lookup_insert_ne in Hj by done. eapply Hn; [done|]. intros Hin'. by apply Hnot, Hother.
  - intros k j [Hk Hkj]%lookup_delete_Some. destruct (Hr _ _ Hkj) as [Hjin (q & Hq & Hqk)].
    assert (Hne : j ≠ id) by (intros ->; congruence). split; [by apply Hother|]. rewrite lookup_insert_ne by done. by exists q.
  - intros j Hj. destruct (decide (id = j)) as [<-|Hne].
    + rewrite lookup_insert_eq. eexists. split; [done|]. split_and!; done.
    + rewrite lookup_insert_ne by done. destruct (Hu _ (Hin _ Hj)) as (q & Hq & Hqc & Hqo & Hqn & Hqr). exists q.
      rewrite Husers in Hqn by done. by split_and!.
  - intros j q Hj Hnot. destruct (decide (id = j)) as [<-|Hne].
    + exfalso. apply Hnot, users_pos. pose proof (users_bound (hs1 ++ hs2) id). lia.
    + rewrite lookup_insert_ne in Hj by done. eapply Hn; [done|]. intros Hin'. by apply Hnot, Hother.
  - intros k j Hkj. destruct (Hr _ _ Hkj) as [Hjin (q & Hq & Hqk)]. destruct (decide (id = j)) as [<-|Hne].
    + split; [apply users_pos; pose proof (users_bound (hs1 ++ hs2) id); lia|]. rewrite lookup_insert_eq.
      eexists. split; [done|]. rewrite Hp in Hq. by injection Hq as <-.
    + split; [by apply Hother|]. rewrite lookup_insert_ne by done. by exists q.
Qed.

Lemma refused_same opened st addr s s' e : GetOrCreatePool opened st addr s = (s', Err e) → s' = s.
Proof.
  unfold GetOrCreatePool. destruct (decide (st = Memory)); [by intros [= <- _]|].
  destruct (ps_pools s !! _); [done|]. destruct (NewConnectionPool opened st addr); [done|]. by intros [= <- _].
Qed.

Lemma no_pools_counted : counted no_pools [].
Proof.
  unfold no_pools. split; cbn [ps_heap ps_pools].
  - intros id [p Hp]. by rewrite lookup_empty in Hp.
  - done.
  - intros id Hid. by apply not_elem_of_nil in Hid.
  - intros id p. by rewrite lookup_empty.
  - intros k id. by rewrite lookup_empty.
Qed.

(** A connection is open exactly as long as somebody uses it. Whatever users
    come, share and close pools (each closes its own once, and nobody comes
    between the halves of a close), a pool in use is open, its count is the
    number of its users, users of one address share one pool, and a pool
    without users is closed and out of the registry. *)
Theorem pools_shared s hs : rtc step (no_pools, []) (s, hs) →
  (∀ id, id ∈ hs → ∃ p, ps_heap s !! id = Some p ∧ cp_closed p = false ∧ cp_refCount p = users hs id ∧
     ps_pools s !! key_of p = Some id) ∧
  (∀ id p, ps_heap s !! id = Some p → id ∉ hs → cp_closed p = true ∧ ps_pools s !! key_of p ≠ Some id) ∧
  (∀ id1 id2 p1 p2, id1 ∈ hs → id2 ∈ hs → ps_heap s !! id1 = Some p1 → ps_heap s !! id2 = Some p2 →
     key_of p1 = key_of p2 → id1 = id2).
Proof.
  intros Hsteps. assert (Hc : counted s hs).
  { assert (Hgen : ∀ a b, rtc step a b → counted a.1 a.2 → counted b.1 b.2).
    { induction 1 as [|x y z Hxy _ IH]; [done|]. intros Hx. apply IH. destruct Hxy; simpl in *.
      - by eapply get_counted.
      - by rewrite (refused_same _ _ _ _ _ _ H).
      - by eapply close_counted. }
    exact (Hgen _ _ Hsteps no_pools_counted). }
  destruct Hc as [_ _ Hu Hn Hr]. split_and!.
  - intros id Hid. destruct (Hu id Hid) as (p & ? & ? & _ & ? & ?). by exists p.
  - intros id p Hp Hid. split; [by eapply Hn|]. by intros [? _]%Hr.
  - intros id1 id2 p1 p2 H1 H2 Hp1 Hp2 Hk.
    destruct (Hu id1 H1) as (q1 & Hq1 & _ & _ & _ & Hr1), (Hu id2 H2) as (q2 & Hq2 & _ & _ & _ & Hr2). congruence.
Qed.

(** ** Two stores of one database, and a race *)
Module PoolExample.
Definition mysql (s : pool_state) : pool_state := (GetOrCreatePool None "mysql" "db:3306" s).1.
Definition s2 : pool_state := mysql (mysql no_pools).
Definition s3 : pool_state := (Close None 0 s2).1.

Lemma pool_s3_reachable : rtc step (no_pools, []) (s3, [0%nat]).
Proof.
  eapply rtc_l; [by apply (step_get None "mysql" "db:3306")|].
  eapply rtc_l; [by apply (step_get None "mysql" "db:3306")|].
  eapply rtc_l; [|apply rtc_refl]. by apply (step_close None 0 [] [0%nat] _ _ None).
Qed.

Lemma pools_shared_witness : ∃ p, ps_heap s3 !! 0%nat = Some p ∧ cp_closed p = false ∧ cp_refCount p = 1.
Proof.
  destruct (pools_shared s3 [0%nat] pool_s3_reachable) as (Hu & _ & _).
  destruct (Hu 0%nat ltac:(left)) as (p & Hp & Hc & Hn & _). exists p. split_and!; [exact Hp|exact Hc|exact Hn].
Defined.

(** A user that comes while the last one is between the two halves gets the
    closed pool. *)
Definition closing : pool_state := (Close_locked None 0 (mysql no_pools)).1.1.
Lemma closed_pool_handed_out :
  (GetOrCreatePool None "mysql" "db:3306" closing).2 = Ok 0%nat ∧
  cp_closed <$> ps_heap (mysql closing) !! 0%nat = Some true.
Proof. vm_compute. split; reflexivity. Qed.
End PoolExample.
