(* ===== verification/GormStore.v ===== *)
(** pkg/store/dbcommon/model.go and gorm_store.go: the database store of
    resources, one table per kind and a shared table of index entries. *)
From S2P Require Import Prelude GoStrings Errors Resource Libs Indexers Store Gorm Database.
From Stdlib Require Import Ascii.

Open Scope string_scope.
Open Scope list_scope.
Open Scope Z_scope.

(** ** model.go *)

(** The identifier and the time stamps the database assigns are left out. *)
Record ResourceModel := {
  rm_ResourceKey : string; rm_ResourceKind : string; rm_Name : string; rm_Mesh : string;
  rm_Data : string }.
Record ResourceIndexModel := {
  rim_ResourceKind : string; rim_IndexName : string; rim_IndexValue : string;
  rim_ResourceKey : string; rim_Operator : string }.

Definition starts_lower (s : string) : bool :=
  match s with String c _ => is_lower c | EmptyString => false end.

(** The loop of [toSnakeCase]; [prev] is the byte before. *)
Fixpoint snake (prev : option ascii) (s : string) : string :=
  match s with
  | EmptyString => EmptyString
  | String r s =>
      if is_upper r then
        match prev with
        | Some p => if is_lower p || starts_lower s
                    then String "_" (String (to_lower r) (snake (Some r) s))
                    else String (to_lower r) (snake (Some r) s)
        | None => String (to_lower r) (snake (Some r) s)
        end
      else String r (snake (Some r) s)
  end.
Definition toSnakeCase (s : string) : string := snake None s.

Definition TableNameForKind (kind : string) : string :=
  if decide (kind = "") then "resources" else "resources_" +:+ toSnakeCase kind.

#[export] Instance TableNameForKind_inj : Inj (=) (=) (λ k, TableNameForKind (kind_string k)).
Proof. intros [] [] H; (done || (vm_compute in H; discriminate)). Qed.

(** [a && b && ...] of statements: the next one runs when the one before
    reported no error. *)
Definition and_then {D} (r : D * option error) (next : D → D * option error) : D * option error :=
  match r with
  | (d, Some e) => (d, Some e)
  | (d, None) => next d
  end.
(** [fmt.Errorf(text + "%w", err)] around the error of a statement. *)
Definition wrapping {D} (text : string) (r : D * option error) : D * option error :=
  (r.1, (λ e, errorf_w text e "") <$> r.2).

(** [sort.Slice] by resource key. *)
Definition key_le (a b : Resource) : Prop := String.le (ResourceKey a) (ResourceKey b).
#[export] Instance key_le_dec : RelDecision key_le := λ a b, decide (String.le _ _).
Definition sort_resources (l : list Resource) : list Resource := merge_sort key_le l.

(** Convert each element of a list, or return the error. *)
Definition list_map {E A B} (f : A → B) (r : result E (list A)) : result E (list B) :=
  match r with Ok l => Ok (f <$> l) | Err e => Err e end.

Section gorm_store.
Context {D : Type} `{Database D ResourceModel ResourceIndexModel, MapRange}.
(** [encoding/json] on resources, whose specs are generated protobuf types:
    [json.Unmarshal] decodes into a new resource of the kind. *)
Context (json_Marshal : Resource → result error string)
  (json_Unmarshal : ResourceKind → string → result error Resource).

Definition ToResource (m : ResourceModel) : result error Resource :=
  match kind_of_string (rm_ResourceKind m) with
  | None => Err (ErrorText ("there is no new resource func for " +:+ rm_ResourceKind m))
  | Some kind => json_Unmarshal kind (rm_Data m)
  end.

Definition FromResource (resource : Resource) : result error ResourceModel :=
  data ← json_Marshal resource;
  Ok {| rm_ResourceKey := ResourceKey resource; rm_ResourceKind := kind_string (res_kind resource);
        rm_Name := res_Name resource; rm_Mesh := res_Mesh resource; rm_Data := data |}.

(** ** gorm_store.go *)

(** The connection pool is its database. *)
Record GormStore := { gs_kind : ResourceKind; gs_indexers : Indexers; gs_db : D }.

Definition with_db (gs : GormStore) (db : D) : GormStore :=
  {| gs_kind := gs_kind gs; gs_indexers := gs_indexers gs; gs_db := db |}.

Definition NewGormStore (kind : ResourceKind) (pool : D) : GormStore :=
  {| gs_kind := kind; gs_indexers := ∅; gs_db := pool |}.

Definition kind_name (gs : GormStore) : string := kind_string (gs_kind gs).
(** [TableScope(gs.kind)]. *)
Definition table (gs : GormStore) : string := TableNameForKind (kind_name gs).

(** The conditions of the statements. *)
Definition has_key (key : string) (m : ResourceModel) : bool := bool_decide (rm_ResourceKey m = key).
Definition of_kind (gs : GormStore) (x : ResourceIndexModel) : bool :=
  bool_decide (rim_ResourceKind x = kind_name gs).
Definition of_key (gs : GormStore) (key : string) (x : ResourceIndexModel) : bool :=
  of_kind gs x && bool_decide (rim_ResourceKey x = key).
Definition of_index (gs : GormStore) (indexName : string) (x : ResourceIndexModel) : bool :=
  of_kind gs x && bool_decide (rim_IndexName x = indexName).

(** The rows the loops over the indexers collect for a resource. *)
Definition indexEntries (gs : GormStore) (resource : Resource) : list ResourceIndexModel :=
  go_range (gs_indexers gs) ≫= λ p,
    match p.2 (ResourceObj resource) with
    | Err _ => []
    | Ok values => (λ v, {| rim_ResourceKind := kind_name gs; rim_IndexName := p.1;
                            rim_IndexValue := v; rim_ResourceKey := ResourceKey resource;
                            rim_Operator := operator_string Equals |}) <$> values
    end.

Definition createEntries (tx : D) (entries : list ResourceIndexModel) : D * option error :=
  match entries with [] => (tx, None) | _ => db_CreateEntries tx entries end.

Definition persistIndexEntriesTx (gs : GormStore) (tx : D) (resource : Resource)
    (oldResource : option Resource) : D * option error :=
  and_then (match oldResource with
            | Some old => db_DeleteEntries tx (of_key gs (ResourceKey old))
            | None => (tx, None)
            end) (λ tx, createEntries tx (indexEntries gs resource)).

Definition kind_mismatch (gs : GormStore) (resource : Resource) : error :=
  ErrorText ("resource kind mismatch: expected " +:+ kind_name gs +:+ ", got "
    +:+ kind_string (res_kind resource)).
Definition not_found (resource : Resource) : error :=
  ErrorResourceNotFound (kind_string (res_kind resource)) (res_Name resource) (res_Mesh resource).

Definition failed_index (resource : Resource) : string :=
  "failed to persist index entries for " +:+ ResourceKey resource +:+ ": ".

(** [fn] of [Add]'s transaction. *)
Definition add_tx (gs : GormStore) (resource : Resource) (m : ResourceModel) (tx : D) : D * option error :=
  and_then (db_Create tx (table gs) [m]) (λ tx,
    wrapping (failed_index resource) (persistIndexEntriesTx gs tx resource None)).

(** [other] is what other replicas do to the database between the checks of an
    operation and its transaction. *)
Definition Add (other : D → D) (gs : GormStore) (o : obj) : GormStore * option error :=
  match o with
  | OtherObj _ => (gs, Some (not_a_resource o))
  | ResourceObj resource =>
      if decide (res_kind resource = gs_kind gs) then
        match db_Count (gs_db gs) (table gs) (has_key (ResourceKey resource)) with
        | Err e => (gs, Some e)
        | Ok count =>
            if decide (0 < count) then
              (gs, Some (ErrorResourceAlreadyExists (kind_string (res_kind resource))
                           (res_Name resource) (res_Mesh resource)))
            else
              match FromResource resource with
              | Err e => (gs, Some e)
              | Ok m =>
                  let '(db, err) := InTransaction (other (gs_db gs)) (add_tx gs resource m) in
                  (with_db gs db, err)
              end
        end
      else (gs, Some (kind_mismatch gs resource))
  end.

Definition GetByKey (gs : GormStore) (key : string) : result error (option obj) :=
  match db_First (gs_db gs) (table gs) (has_key key) with
  | Err e => if errors_is e ErrRecordNotFound then Ok None else Err e
  | Ok m => resource ← ToResource m; Ok (Some (ResourceObj resource))
  end.

Definition Get (gs : GormStore) (o : obj) : result error (option obj) :=
  match o with
  | OtherObj _ => Err (not_a_resource o)
  | ResourceObj resource => GetByKey gs (ResourceKey resource)
  end.

(** The columns [Updates] sets. *)
Definition set_columns (m row : ResourceModel) : ResourceModel :=
  {| rm_ResourceKey := rm_ResourceKey row; rm_ResourceKind := rm_ResourceKind row;
     rm_Name := rm_Name m; rm_Mesh := rm_Mesh m; rm_Data := rm_Data m |}.

Definition update_tx (gs : GormStore) (resource old : Resource) (m : ResourceModel) (tx : D)
    : D * option error :=
  match db_Updates tx (table gs) (has_key (ResourceKey resource)) (set_columns m) with
  | (tx, Err e) => (tx, Some e)
  | (tx, Ok rowsAffected) =>
      if decide (rowsAffected = 0) then (tx, Some (not_found resource))
      else wrapping (failed_index resource) (persistIndexEntriesTx gs tx resource (Some old))
  end.

Definition Update (other : D → D) (gs : GormStore) (o : obj) : GormStore * option error :=
  match o with
  | OtherObj _ => (gs, Some (not_a_resource o))
  | ResourceObj resource =>
      if decide (res_kind resource = gs_kind gs) then
        match GetByKey gs (ResourceKey resource) with
        | Err e => (gs, Some e)
        | Ok None => (gs, Some (not_found resource))
        | Ok (Some (OtherObj n)) => (gs, Some (not_a_resource (OtherObj n)))
        | Ok (Some (ResourceObj oldResource)) =>
            match FromResource resource with
            | Err e => (gs, Some e)
            | Ok m =>
                let '(db, err) :=
                  InTransaction (other (gs_db gs)) (update_tx gs resource oldResource m) in
                (with_db gs db, err)
            end
        end
      else (gs, Some (kind_mismatch gs resource))
  end.

Definition delete_tx (gs : GormStore) (resource : Resource) (tx : D) : D * option error :=
  match db_Delete tx (table gs) (has_key (ResourceKey resource)) with
  | (tx, Err e) => (tx, Some e)
  | (tx, Ok rowsAffected) =>
      if decide (rowsAffected = 0) then (tx, Some (not_found resource))
      else db_DeleteEntries tx (of_key gs (ResourceKey resource))
  end.

Definition Delete (gs : GormStore) (o : obj) : GormStore * option error :=
  match o with
  | OtherObj _ => (gs, Some (not_a_resource o))
  | ResourceObj resource =>
      let '(db, err) := InTransaction (gs_db gs) (delete_tx gs resource) in (with_db gs db, err)
  end.

(** The conversion loop of [Replace]. *)
Fixpoint to_models (list_ : list obj) : result error (list (Resource * ResourceModel)) :=
  match list_ with
  | [] => Ok []
  | OtherObj n :: _ => Err (not_a_resource (OtherObj n))
  | ResourceObj resource :: list_ =>
      m ← FromResource resource; ms ← to_models list_; Ok ((resource, m) :: ms)
  end.

Definition replace_tx (gs : GormStore) (list_ : list obj) (tx : D) : D * option error :=
  match db_Delete tx (table gs) (λ _, true) with
  | (tx, Err e) => (tx, Some e)
  | (tx, Ok _) =>
      and_then (db_DeleteEntries tx (of_kind gs)) (λ tx,
        match list_ with
        | [] => (tx, None)
        | _ =>
            match to_models list_ with
            | Err e => (tx, Some e)
            | Ok ms =>
                and_then (db_Create tx (table gs) ms.*2) (λ tx,
                  wrapping "failed to persist index entries during replace: "
                    (createEntries tx (ms.*1 ≫= indexEntries gs)))
            end
        end)
  end.

Definition Replace (gs : GormStore) (list_ : list obj) : GormStore * option error :=
  let '(db, err) := InTransaction (gs_db gs) (replace_tx gs list_) in (with_db gs db, err).

(** Rows that do not decode are skipped. *)
Definition decoded (m : ResourceModel) : option Resource :=
  match ToResource m with Ok r => Some r | Err _ => None end.

Definition List_ (gs : GormStore) : list obj :=
  match db_Find (gs_db gs) (table gs) (λ _, true) with
  | Err _ => []
  | Ok models => ResourceObj <$> omap decoded models
  end.

Definition ListKeys (gs : GormStore) : list string :=
  match db_Find (gs_db gs) (table gs) (λ _, true) with
  | Err _ => []
  | Ok models => rm_ResourceKey <$> models
  end.

Definition IndexExists (gs : GormStore) (indexName : string) : bool :=
  bool_decide (is_Some (gs_indexers gs !! indexName)).
Definition no_index (indexName : string) : error :=
  ErrorText ("index " +:+ indexName +:+ " does not exist").

Definition GetByKeys (gs : GormStore) (keys : list string) : result error (list Resource) :=
  match keys with
  | [] => Ok []
  | _ =>
      models ← db_Find (gs_db gs) (table gs) (λ m, bool_decide (rm_ResourceKey m ∈ keys));
      result_mapM ToResource models
  end.

(** [seen] and [keys] of the loops that collect the keys of entries, each once
    in the order of its first entry. *)
Fixpoint unique_keys (seen : gset string) (entries : list ResourceIndexModel) : list string :=
  match entries with
  | [] => []
  | e :: entries =>
      if decide (rim_ResourceKey e ∈ seen) then unique_keys seen entries
      else rim_ResourceKey e :: unique_keys ({[rim_ResourceKey e]} ∪ seen) entries
  end.

Definition findByIndex (gs : GormStore) (indexName indexedValue : string) : result error (list Resource) :=
  if IndexExists gs indexName then
    entries ← db_FindEntries (gs_db gs)
      (λ x, of_index gs indexName x && bool_decide (rim_IndexValue x = indexedValue));
    match entries with
    | [] => Ok []
    | _ => GetByKeys gs (unique_keys ∅ entries)
    end
  else Err (no_index indexName).

Definition IndexKeys (gs : GormStore) (indexName indexedValue : string) : result error (list string) :=
  if IndexExists gs indexName then
    list_map ResourceKey (findByIndex gs indexName indexedValue)
  else Err (no_index indexName).

Definition Index (gs : GormStore) (indexName : string) (o : obj) : result error (list obj) :=
  match gs_indexers gs !! indexName with
  | None => Err (no_index indexName)
  | Some indexFunc =>
      indexValues ← indexFunc o;
      match indexValues with
      | [] => Ok []
      | v :: _ => list_map ResourceObj (findByIndex gs indexName v)
      end
  end.

Definition ListIndexFuncValues (gs : GormStore) (indexName : string) : list string :=
  if IndexExists gs indexName then
    match db_PluckDistinct (gs_db gs) (of_index gs indexName) rim_IndexValue with
    | Ok values => values
    | Err _ => []
    end
  else [].

Definition ByIndex (gs : GormStore) (indexName indexedValue : string) : result error (list obj) :=
  if IndexExists gs indexName then
    list_map ResourceObj (findByIndex gs indexName indexedValue)
  else Err (no_index indexName).

(** The loop of [AddIndexers]: the indexers before the first known one stay. *)
Fixpoint add_indexers (indexers : Indexers) (l : list (string * IndexFunc)) : Indexers * option error :=
  match l with
  | [] => (indexers, None)
  | (name, f) :: l =>
      match indexers !! name with
      | Some _ => (indexers, Some (ErrorText ("indexer " +:+ name +:+ " already exists")))
      | None => add_indexers (<[name := f]> indexers) l
      end
  end.
Definition AddIndexers (gs : GormStore) (newIndexers : Indexers) : GormStore * option error :=
  let '(indexers, err) := add_indexers (gs_indexers gs) (go_range newIndexers) in
  ({| gs_kind := gs_kind gs; gs_indexers := indexers; gs_db := gs_db gs |}, err).

Definition getKeysByPrefixFromDB (gs : GormStore) (indexName prefix : string) : result error (list string) :=
  entries ← db_FindEntries (gs_db gs)
    (λ x, of_index gs indexName x && db_LIKE (rim_IndexValue x) (prefix +:+ "%"));
  Ok (unique_keys ∅ entries).

Definition condition_keys (gs : GormStore) (c : IndexCondition) : result error (list string) :=
  match ic_Operator c with
  | Equals => IndexKeys gs (ic_IndexName c) (ic_Value c)
  | HasPrefix => getKeysByPrefixFromDB gs (ic_IndexName c) (ic_Value c)
  | OtherOperator s => Err (biz_new InvalidArgument ("operator not yet supported: " +:+ s))
  end.

(** A [map[string]struct{}]. *)
Definition key_set (keys : list string) : gmap string () := list_to_map ((λ k, (k, ())) <$> keys).

Fixpoint intersect_conditions (gs : GormStore) (keySet : gmap string ()) (l : list IndexCondition)
    : result error (gmap string ()) :=
  match l with
  | [] => Ok keySet
  | c :: l =>
      keys ← condition_keys gs c;
      intersect_conditions gs (key_set (filter (λ k, is_Some (keySet !! k)) keys)) l
  end.

Definition getKeysByIndexes (gs : GormStore) (indexes : list IndexCondition) : result error (list string) :=
  match indexes with
  | [] => Ok []
  | c :: l =>
      keys ← condition_keys gs c;
      keySet ← intersect_conditions gs (key_set keys) l;
      Ok (go_range keySet).*1
  end.

Definition ListByIndexes (gs : GormStore) (indexes : list IndexCondition) : result error (list Resource) :=
  keys ← getKeysByIndexes gs indexes;
  resources ← GetByKeys gs keys;
  Ok (sort_resources resources).

(** [keys[lo:hi]]; [None] is a run-time panic. *)
Definition go_slice {A} (l : list A) (lo hi : Z) : option (list A) :=
  if decide (0 <= lo <= hi ∧ hi <= Z.of_nat (length l))
  then Some (take (Z.to_nat (hi - lo)) (drop (Z.to_nat lo) l)) else None.

Definition PageListByIndexes (gs : GormStore) (indexes : list IndexCondition) (pq : PageReq)
    : option (result error (PageData Resource)) :=
  match getKeysByIndexes gs indexes with
  | Err e => Some (Err e)
  | Ok keys =>
      let keys := sort_strings keys in
      let total := Z.of_nat (length keys) in
      if decide (total <= PageOffset pq) then
        Some (Ok (NewPageData total (PageOffset pq) (PageSize pq) []))
      else
        let end_ := i64 (PageOffset pq + PageSize pq) in
        let end_ := if decide (total < end_) then total else end_ in
        pageKeys ← go_slice keys (PageOffset pq) end_;
        Some (resources ← GetByKeys gs pageKeys;
              Ok (NewPageData total (PageOffset pq) (PageSize pq) resources))
  end.

Definition backfill_tx (gs : GormStore) (models : list ResourceModel) (tx : D) : D * option error :=
  and_then (db_DeleteEntries tx (of_kind gs)) (λ tx,
    createEntries tx (omap decoded models ≫= indexEntries gs)).

(** Nothing is done when the kind has no rows. *)
Definition backfillIndices (gs : GormStore) : D * option error :=
  match db_Find (gs_db gs) (table gs) (λ _, true) with
  | Err e => (gs_db gs, Some e)
  | Ok [] => (gs_db gs, None)
  | Ok models => InTransaction (gs_db gs) (backfill_tx gs models)
  end.

(** [indexers] is [index.IndexersRegistry().Indexers(gs.kind)]. *)
Definition Init (gs : GormStore) (indexers : Indexers) : GormStore * option error :=
  match and_then (wrapping ("failed to migrate schema for " +:+ kind_name gs +:+ ": ")
                    (db_AutoMigrate (gs_db gs) (table gs)))
          (λ db, wrapping "failed to migrate resource_indices: " (db_AutoMigrateEntries db)) with
  | (db, Some e) => (with_db gs db, Some e)
  | (db, None) =>
      match AddIndexers (with_db gs db) indexers with
      | (gs, Some e) => (gs, Some e)
      | (gs, None) =>
          let '(db, err) :=
            wrapping ("failed to backfill indices for " +:+ kind_name gs +:+ ": ") (backfillIndices gs) in
          (with_db gs db, err)
      end
  end.

(** The store behind the interface of pkg/core/store, with no other replica. *)
Definition gorm_resource_store : ResourceStore GormStore := {|
  st_Add := Add id; st_Update := Update id; st_Delete := Delete; st_Get := Get; st_GetByKey := GetByKey;
  st_List := List_; st_ListKeys := ListKeys; st_ByIndex := ByIndex; st_GetByKeys := GetByKeys;
  st_ListByIndexes := ListByIndexes |}.
End gorm_store.
Arguments GormStore : clear implicits.
