(* ===== verification/GormWrites.v ===== *)
(** pkg/store/dbcommon/gorm_store.go: the writes of the database store keep its
    rows and its index entries in step, whatever fails and whoever else writes. *)
From S2P Require Import Prelude GoStrings Errors Resource Libs Indexers Gorm Database GormStore.

Open Scope string_scope.
Open Scope list_scope.
Open Scope Z_scope.

Lemma filter_id {A} (P : A → Prop) `{∀ x, Decision (P x)} l : Forall P l → filter P l = l.
Proof. induction 1 as [|x l Hx Hl IH]; [done|]. by rewrite filter_cons_True, IH. Qed.

Lemma filter_none {A} (P : A → Prop) `{∀ x, Decision (P x)} l : Forall (λ x, ¬ P x) l → filter P l = [].
Proof. induction 1 as [|x l Hx Hl IH]; [done|]. by rewrite filter_cons_False, IH. Qed.

(** ** Transactions *)
Section transactions.
Context {D R X : Type} {key : R → string} `{Database D R X, !DatabaseLaws key D}.

(** Two databases with the same contents. *)
Record same_view (d d' : D) : Prop := {
  sv_rows t : db_rows d' t = db_rows d t;
  sv_entries : db_entries d' ≡ₚ db_entries d }.

#[export] Instance same_view_equiv : Equivalence same_view.
Proof.
  split.
  - by split.
  - intros d d' [Hr He]. split; [intros t; by rewrite Hr|by rewrite He].
  - intros d d' d'' [Hr He] [Hr' He']. split; [intros t; by rewrite Hr', Hr|by rewrite He', He].
Qed.

(** A transaction happens as a whole or not at all; without an error it
    happened, and an error of the commit leaves both possible. *)
Lemma InTransaction_atomic (d : D) fn d' e : InTransaction d fn = (d', e) →
  (∃ tx, fn d = (tx, None) ∧ same_view tx d') ∨ (is_Some e ∧ same_view d d').
Proof.
  unfold InTransaction. destruct (fn d) as [tx [e'|]] eqn:E; [by intros [= <- <-]; right|].
  intros Hc. pose proof (db_Commit_spec d tx) as Hs. rewrite Hc in Hs.
  destruct Hs as [[Hr He]|(He & Hr & Hx)]; [left; by exists tx|by right].
Qed.

Lemma InTransaction_up (d : D) fn tx : db_up d → fn d = (tx, None) → db_up tx →
  ∃ d', InTransaction d fn = (d', None) ∧ db_up d' ∧ same_view tx d'.
Proof.
  intros Hd Hfn Htx. unfold InTransaction. rewrite Hfn.
  destruct (db_up_Commit d tx Hd Htx) as (Hu & He & Hr & Hx).
  destruct (db_Commit d tx) as [d' e]. simpl in *. subst e. by exists d'.
Qed.

Lemma InTransaction_err (d : D) fn tx e : fn d = (tx, Some e) → InTransaction d fn = (d, Some e).
Proof. intros Hfn. unfold InTransaction. by rewrite Hfn. Qed.
End transactions.

Lemma and_then_None {D} (r : D * option error) f d :
  and_then r f = (d, None) ↔ ∃ d0, r = (d0, None) ∧ f d0 = (d, None).
Proof. destruct r as [d0 [e|]]; naive_solver. Qed.

Lemma wrapping_None {D} text (r : D * option error) d : wrapping text r = (d, None) ↔ r = (d, None).
Proof. destruct r as [d0 [e|]]; simpl; unfold wrapping; naive_solver. Qed.

Section writes.
Context {D : Type} `{Database D ResourceModel ResourceIndexModel, !DatabaseLaws rm_ResourceKey D, MapRange}.
Context (json_Marshal : Resource → result error string)
  (json_Unmarshal : ResourceKind → string → result error Resource).
Abbreviation store := (GormStore D).
Abbreviation ToResource := (ToResource json_Unmarshal).
Abbreviation decoded := (decoded json_Unmarshal).

(** ** The contents of a store *)
Definition gs_rows (gs : store) : gmap string ResourceModel := db_rows (gs_db gs) (table gs).
Definition gs_items (gs : store) : gmap string Resource := omap decoded (gs_rows gs).
Definition own (gs : store) (l : list ResourceIndexModel) := filter (λ x, of_kind gs x = true) l.
Definition foreign (gs : store) (l : list ResourceIndexModel) := filter (λ x, of_kind gs x = false) l.
Definition unkeyed (k : string) (l : list ResourceIndexModel) := filter (λ x, rim_ResourceKey x ≠ k) l.

Definition all_entries (gs : store) (m : gmap string Resource) : list ResourceIndexModel :=
  (map_to_list m).*2 ≫= indexEntries gs.

(** A row decodes to a resource of the store's kind with the row's key. *)
Record row_ok (kind : ResourceKind) (k : string) (m : ResourceModel) : Prop := {
  ro_kind : rm_ResourceKind m = kind_string kind;
  ro_json : ∃ r, json_Unmarshal kind (rm_Data m) = Ok r ∧ ResourceKey r = k ∧ res_kind r = kind }.

#[export] Instance own_perm gs : Proper ((≡ₚ) ==> (≡ₚ)) (own gs).
Proof. intros l l' Hl. unfold own. by rewrite Hl. Qed.
#[export] Instance foreign_perm gs : Proper ((≡ₚ) ==> (≡ₚ)) (foreign gs).
Proof. intros l l' Hl. unfold foreign. by rewrite Hl. Qed.
#[export] Instance unkeyed_perm k : Proper ((≡ₚ) ==> (≡ₚ)) (unkeyed k).
Proof. intros l l' Hl. unfold unkeyed. by rewrite Hl. Qed.

(** The index entries of the kind are those of the stored resources. *)
Record gorm_ok (gs : store) : Prop := {
  go_rows : map_Forall (row_ok (gs_kind gs)) (gs_rows gs);
  go_sync : own gs (db_entries (gs_db gs)) ≡ₚ all_entries gs (gs_items gs) }.

(** Writing [r] and reading it back gives [r'], which has the same key, kind
    and index values. *)
Record keeps (gs : store) (r r' : Resource) : Prop := {
  kp_kind : res_kind r = gs_kind gs ∧ res_kind r' = gs_kind gs;
  kp_key : ResourceKey r' = ResourceKey r;
  kp_json : ∃ data, json_Marshal r = Ok data ∧ json_Unmarshal (gs_kind gs) data = Ok r';
  kp_index n f : gs_indexers gs !! n = Some f → f (ResourceObj r') = f (ResourceObj r) }.

(** The rest of the database is as it was. *)
Record others_same (gs : store) (d d' : D) : Prop := {
  os_tables t : t ≠ table gs → db_rows d' t = db_rows d t;
  os_entries : foreign gs (db_entries d') ≡ₚ foreign gs (db_entries d) }.

Lemma others_same_refl gs d : others_same gs d d.
Proof. by split. Qed.

Lemma store_others_trans gs d1 d2 d3 : others_same gs d1 d2 → others_same gs d2 d3 → others_same gs d1 d3.
Proof.
  intros [Ht He] [Ht' He']. split; [|by rewrite He', He]. intros t Hne. by rewrite Ht', Ht.
Qed.

Lemma others_same_view gs d d1 d2 : others_same gs d d1 → same_view d1 d2 → others_same gs d d2.
Proof.
  intros [Ht He] [Hr Hx]. split; [intros t Hne; by rewrite Hr, Ht|].
  by rewrite Hx.
Qed.

Lemma kind_of_string_kind k : kind_of_string (kind_string k) = Some k.
Proof. by destruct k. Qed.

Lemma row_ok_decoded kind k m : row_ok kind k m →
  ∃ r, ToResource m = Ok r ∧ decoded m = Some r ∧ ResourceKey r = k ∧ res_kind r = kind.
Proof.
  intros [Hk (r & Hj & Hr & Hkr)]. exists r. unfold GormStore.decoded, GormStore.ToResource.
  rewrite Hk, kind_of_string_kind, Hj. done.
Qed.

Lemma items_Some gs k r : gorm_ok gs → gs_items gs !! k = Some r →
  ResourceKey r = k ∧ res_kind r = gs_kind gs ∧ ∃ m, gs_rows gs !! k = Some m ∧ ToResource m = Ok r.
Proof.
  intros [Hr _] Hk. unfold gs_items in Hk. rewrite lookup_omap in Hk.
  apply bind_Some in Hk as (m & Hm & Hd). destruct (row_ok_decoded _ _ _ (Hr _ _ Hm)) as (r' & ? & ? & ? & ?).
  simplify_eq. split_and!; [done|done|]. by exists m.
Qed.

Lemma items_None gs k : gorm_ok gs → gs_items gs !! k = None ↔ gs_rows gs !! k = None.
Proof.
  intros [Hr _]. unfold gs_items. rewrite lookup_omap.
  destruct (gs_rows gs !! k) as [m|] eqn:Hm; simpl; [|done].
  destruct (row_ok_decoded _ _ _ (Hr _ _ Hm)) as (r' & ? & -> & ?). done.
Qed.

(** [gorm_ok] and the items depend on the contents of the database only. *)
Lemma gorm_ok_view gs d : gorm_ok gs → same_view (gs_db gs) d →
  gorm_ok (with_db gs d) ∧ gs_items (with_db gs d) = gs_items gs.
Proof.
  intros [Hr Hs] [Hv Hx]. assert (Hrows : gs_rows (with_db gs d) = gs_rows gs) by apply Hv.
  assert (Hit : gs_items (with_db gs d) = gs_items gs) by (unfold gs_items; by rewrite Hrows).
  split; [|done]. split; [by rewrite Hrows|]. rewrite Hit. simpl.
  etransitivity; [|exact Hs]. by rewrite Hx.
Qed.

(** ** The entries of maps of resources *)
Lemma indexEntries_all (gs : store) r : Forall (λ x, of_kind gs x = true ∧ rim_ResourceKey x = ResourceKey r) (indexEntries gs r).
Proof.
  apply Forall_forall. intros x. unfold indexEntries. rewrite list_elem_of_bind.
  intros ([n f] & Hx & _). simpl in Hx. destruct (f (ResourceObj r)); [|by apply elem_of_nil in Hx].
  apply list_elem_of_fmap in Hx as (v & -> & _). simpl. unfold of_kind. simpl. by rewrite bool_decide_true.
Qed.

Lemma own_indexEntries (gs : store) r : own gs (indexEntries gs r) = indexEntries gs r.
Proof.
  apply filter_id. eapply Forall_impl; [apply indexEntries_all|]. by intros x [? _].
Qed.

Lemma foreign_indexEntries (gs : store) r : foreign gs (indexEntries gs r) = [].
Proof.
  apply filter_none. eapply Forall_impl; [apply indexEntries_all|]. intros x [-> _]. done.
Qed.

Lemma own_bind (gs : store) rs : own gs (rs ≫= indexEntries gs) = rs ≫= indexEntries gs.
Proof.
  induction rs as [|r rs IH]; [done|]. csimpl. unfold own in *. rewrite filter_app, IH. f_equal.
  apply own_indexEntries.
Qed.

Lemma foreign_bind (gs : store) rs : foreign gs (rs ≫= indexEntries gs) = [].
Proof.
  induction rs as [|r rs IH]; [done|]. csimpl. unfold foreign in *. rewrite filter_app, IH, app_nil_r.
  apply foreign_indexEntries.
Qed.

Lemma all_entries_insert (gs : store) (m : gmap string Resource) k r : m !! k = None →
  all_entries gs (<[k := r]> m) ≡ₚ indexEntries gs r ++ all_entries gs m.
Proof. intros Hk. unfold all_entries. rewrite map_to_list_insert by done. done. Qed.

Lemma unkeyed_all_entries (gs : store) (m : gmap string Resource) k :
  map_Forall (λ k r, ResourceKey r = k) m →
  unkeyed k (all_entries gs m) ≡ₚ all_entries gs (delete k m).
Proof.
  intros Hm.
  assert (Hne : ∀ m', map_Forall (λ k r, ResourceKey r = k) m' → m' !! k = None →
    unkeyed k (all_entries gs m') = all_entries gs m').
  { intros m' Hm' Hk. apply filter_id, Forall_forall. intros x. unfold all_entries.
    rewrite list_elem_of_bind. intros (r & Hx & Hr).
    apply list_elem_of_fmap in Hr as ([k' r'] & -> & Hr%elem_of_map_to_list). simpl in Hx.
    pose proof (indexEntries_all gs r') as Ha. rewrite Forall_forall in Ha.
    destruct (Ha _ Hx) as [_ ->]. rewrite (Hm' _ _ Hr). congruence. }
  destruct (m !! k) as [r|] eqn:Hk.
  - rewrite <-(insert_delete_id m k r Hk) at 1.
    rewrite all_entries_insert by apply lookup_delete_eq. unfold unkeyed. rewrite filter_app.
    assert (He : filter (λ x, rim_ResourceKey x ≠ k) (indexEntries gs r) = []).
    { apply filter_none. eapply Forall_impl; [apply indexEntries_all|]. intros x [_ ->].
      rewrite (Hm _ _ Hk). by intros []. }
    rewrite He. simpl. rewrite <-(Hne (delete k m)) at 2; [done| |apply lookup_delete_eq].
    by apply map_Forall_delete.
  - rewrite delete_id by done. by rewrite Hne.
Qed.


(** ** The statements of each transaction *)

Lemma own_unkeyed gs k l : own gs (filter (λ x, of_key gs k x = false) l) ≡ₚ unkeyed k (own gs l).
Proof.
  unfold own, unkeyed. rewrite !list_filter_filter. apply reflexive_eq, list_filter_iff.
  intros x. unfold of_key. destruct (of_kind gs x); simpl; [|naive_solver].
  rewrite bool_decide_eq_false. naive_solver.
Qed.

Lemma foreign_unkeyed gs k l : foreign gs (filter (λ x, of_key gs k x = false) l) = foreign gs l.
Proof.
  unfold foreign. apply list_filter_filter_l. intros x Hx. unfold of_key. by rewrite Hx.
Qed.

Lemma own_cleared gs l : own gs (filter (λ x, of_kind gs x = false) l) = [].
Proof.
  unfold own. rewrite list_filter_filter. apply filter_none, Forall_forall. intros x _ [? ?]. congruence.
Qed.

Lemma createEntries_spec d xs d' : createEntries d xs = (d', None) →
  left_entries db_rows db_entries d d' (db_entries d ++ xs).
Proof.
  unfold createEntries. destruct xs as [|x xs]; [|apply db_CreateEntries_spec].
  intros [= <-]. split; [done|]. by rewrite app_nil_r.
Qed.

Lemma createEntries_up d xs : db_up d → ∃ d', createEntries d xs = (d', None) ∧ db_up d'.
Proof.
  intros Hd. unfold createEntries. destruct xs as [|x xs]; [by exists d|].
  destruct (db_up_CreateEntries d (x :: xs) Hd) as [Hu He]; [done|].
  destruct (db_CreateEntries d (x :: xs)) as [d' e]. simpl in *. subst e. by exists d'.
Qed.

(** The effect of a transaction on the store: its rows and its entries. *)
Record tx_effect (gs : store) (d d' : D) (rows : gmap string ResourceModel)
    (entries : list ResourceIndexModel) : Prop := {
  tx_rows : db_rows d' (table gs) = rows;
  tx_entries : own gs (db_entries d') ≡ₚ entries;
  tx_others : others_same gs d d' }.

Lemma persist_spec gs d r old d' :
  persistIndexEntriesTx gs d r old = (d', None) →
  tx_effect gs d d' (db_rows d (table gs))
    ((match old with Some o => unkeyed (ResourceKey o) (own gs (db_entries d))
                   | None => own gs (db_entries d) end) ++ indexEntries gs r).
Proof.
  unfold persistIndexEntriesTx. intros (d1 & Hd1 & [Hr He]%createEntries_spec)%and_then_None.
  assert (H1 : tx_effect gs d d1 (db_rows d (table gs))
    (match old with Some o => unkeyed (ResourceKey o) (own gs (db_entries d))
                  | None => own gs (db_entries d) end)).
  { destruct old as [o|]; [|injection Hd1 as <-; split; [done|done|apply others_same_refl]].
    apply db_DeleteEntries_spec in Hd1 as [Hr1 He1]. split; [by rewrite Hr1| |split].
    - by rewrite He1, own_unkeyed.
    - intros t _. by rewrite Hr1.
    - by rewrite He1, foreign_unkeyed. }
  destruct H1 as [Hr1 He1 [Ht1 Hf1]]. split; [by rewrite Hr| |split].
  - rewrite He. unfold own at 1. rewrite filter_app. fold (own gs (db_entries d1)).
    fold (own gs (indexEntries gs r)). by rewrite He1, own_indexEntries.
  - intros t Ht. by rewrite Hr, Ht1.
  - rewrite He. unfold foreign at 1. rewrite filter_app. fold (foreign gs (db_entries d1)).
    fold (foreign gs (indexEntries gs r)). by rewrite Hf1, foreign_indexEntries, app_nil_r.
Qed.

Lemma persist_up gs d r old : db_up d →
  ∃ d', persistIndexEntriesTx gs d r old = (d', None) ∧ db_up d'.
Proof.
  intros Hd. unfold persistIndexEntriesTx. destruct old as [o|]; [|by apply createEntries_up].
  destruct (db_up_DeleteEntries d (of_key gs (ResourceKey o)) Hd) as [Hu He].
  destruct (db_DeleteEntries d _) as [d1 e]. simpl in *. subst e. by apply createEntries_up.
Qed.

Lemma tx_effect_after gs d d1 d2 rows1 rows2 entries :
  left_rows db_rows db_entries d d1 (table gs) rows1 →
  tx_effect gs d1 d2 rows2 entries → tx_effect gs d d2 rows2 entries.
Proof.
  intros [Hr Ho He] [Hr2 He2 Ho2]. split; [done|done|]. eapply store_others_trans; [|exact Ho2].
  split; [intros t Ht; by apply Ho|]. by rewrite He.
Qed.

Lemma add_tx_spec gs r m d d' : rm_ResourceKey m = ResourceKey r →
  add_tx gs r m d = (d', None) →
  db_rows d (table gs) !! ResourceKey r = None ∧
  tx_effect gs d d' (<[ResourceKey r := m]> (db_rows d (table gs)))
    (own gs (db_entries d) ++ indexEntries gs r).
Proof.
  intros Hm. unfold add_tx. intros (d1 & Hc & Hp%wrapping_None%persist_spec)%and_then_None.
  apply db_Create_spec in Hc as (_ & Hf & Hl). apply Forall_inv in Hf. rewrite Hm in Hf.
  split; [done|]. pose proof Hl as [Hr Ho He]. unfold insert_rows in Hr. simpl in Hr. rewrite Hm in Hr.
  eapply tx_effect_after in Hp; [|exact Hl]. destruct Hp as [Hr2 He2 Ho2].
  split; [by rewrite Hr2| |done]. by rewrite He2, He.
Qed.

Lemma add_tx_up gs r m d : db_up d → rm_ResourceKey m = ResourceKey r →
  db_rows d (table gs) !! ResourceKey r = None →
  ∃ d', add_tx gs r m d = (d', None) ∧ db_up d'.
Proof.
  intros Hd Hm Hn. unfold add_tx.
  destruct (db_up_Create d (table gs) [m] Hd) as [Hu He];
    [apply NoDup_singleton|done|rewrite Forall_singleton; by rewrite Hm|].
  destruct (db_Create d (table gs) [m]) as [d1 e]. simpl in *. subst e.
  destruct (persist_up gs d1 r None Hu) as (d2 & Hp & Hu2). exists d2. by rewrite Hp.
Qed.

Lemma matching_key (m : gmap string ResourceModel) k :
  map_Forall (λ k r, rm_ResourceKey r = k) m →
  matching (has_key k) m = match m !! k with Some r => {[k := r]} | None => ∅ end.
Proof.
  intros Hm. apply map_eq. intros j. apply option_eq. intros r. rewrite lookup_matching. unfold has_key.
  rewrite bool_decide_eq_true. split.
  - intros [Hj Hk]. rewrite (Hm _ _ Hj) in Hk. subst j. by rewrite Hj, lookup_singleton_eq.
  - destruct (m !! k) as [r'|] eqn:E; [|by rewrite lookup_empty].
    intros [<- <-]%lookup_singleton_Some. split; [done|by apply Hm].
Qed.

Lemma size_matching_key (m : gmap string ResourceModel) k :
  map_Forall (λ k r, rm_ResourceKey r = k) m →
  Z.of_nat (size (matching (has_key k) m)) = match m !! k with Some _ => 1 | None => 0 end.
Proof.
  intros Hm. rewrite matching_key by done. destruct (m !! k); [by rewrite map_size_singleton|by rewrite map_size_empty].
Qed.

Lemma db_rows_keyed (d : D) t : map_Forall (λ k (r : ResourceModel), rm_ResourceKey r = k) (db_rows d t).
Proof. intros k r Hk. by apply db_rows_key in Hk. Qed.

Lemma delete_rows_key (m : gmap string ResourceModel) k :
  map_Forall (λ k r, rm_ResourceKey r = k) m → delete_rows (has_key k) m = delete k m.
Proof.
  intros Hm. apply map_eq. intros j. apply option_eq. intros r. rewrite lookup_delete_rows, lookup_delete_Some.
  unfold has_key. rewrite bool_decide_eq_false. split; intros [H1 H2]; split; try done.
  - intros ->. by destruct H2; apply Hm.
  - rewrite (Hm _ _ H2). congruence.
Qed.

Lemma update_rows_key f (m : gmap string ResourceModel) k :
  map_Forall (λ k r, rm_ResourceKey r = k) m → update_rows (has_key k) f m = alter f k m.
Proof.
  intros Hm. apply map_eq. intros j. unfold update_rows. rewrite lookup_fmap.
  destruct (decide (k = j)) as [<-|Hne].
  - rewrite lookup_alter_eq. destruct (m !! k) as [r|] eqn:E; [|done]. simpl. unfold has_key.
    by rewrite bool_decide_true by by apply Hm.
  - rewrite lookup_alter_ne by done. destruct (m !! j) as [r|] eqn:E; [|done]. simpl. unfold has_key.
    rewrite bool_decide_false; [done|]. rewrite (Hm _ _ E). congruence.
Qed.

Lemma update_tx_spec gs r old m d d' : ResourceKey old = ResourceKey r →
  update_tx gs r old m d = (d', None) →
  is_Some (db_rows d (table gs) !! ResourceKey r) ∧
  tx_effect gs d d' (alter (set_columns m) (ResourceKey r) (db_rows d (table gs)))
    (unkeyed (ResourceKey r) (own gs (db_entries d)) ++ indexEntries gs r).
Proof.
  intros Ho. unfold update_tx. destruct (db_Updates _ _ _ _) as [d1 [n|e]] eqn:Hu; [|done].
  apply db_Updates_spec in Hu as [Hl Hn]; [|done].
  rewrite size_matching_key in Hn by apply db_rows_keyed. rewrite update_rows_key in Hl by apply db_rows_keyed.
  case_decide as Hz; [done|]. intros Hp%wrapping_None%persist_spec. rewrite Ho in Hp. split.
  - destruct (_ !! _); [done|]. lia.
  - pose proof Hl as [Hr _ He]. eapply tx_effect_after in Hp; [|exact Hl]. destruct Hp as [Hr2 He2 Ho2].
    split; [by rewrite Hr2| |done]. by rewrite He2, He.
Qed.

Lemma update_tx_up gs r old m d : db_up d →
  is_Some (db_rows d (table gs) !! ResourceKey r) →
  ∃ d', update_tx gs r old m d = (d', None) ∧ db_up d'.
Proof.
  intros Hd [row Hrow]. unfold update_tx.
  destruct (db_up_Updates d (table gs) (has_key (ResourceKey r)) (set_columns m) Hd) as [Hu He]; [done|].
  destruct (db_Updates _ _ _ _) as [d1 [n|e]] eqn:E; [|done]. simpl in Hu.
  apply db_Updates_spec in E as [_ Hn]; [|done]. rewrite size_matching_key, Hrow in Hn by apply db_rows_keyed.
  rewrite decide_False by lia. destruct (persist_up gs d1 r (Some old) Hu) as (d2 & Hp & Hu2).
  exists d2. by rewrite Hp.
Qed.

Lemma delete_tx_spec gs r d d' : delete_tx gs r d = (d', None) →
  is_Some (db_rows d (table gs) !! ResourceKey r) ∧
  tx_effect gs d d' (delete (ResourceKey r) (db_rows d (table gs)))
    (unkeyed (ResourceKey r) (own gs (db_entries d))).
Proof.
  unfold delete_tx. destruct (db_Delete _ _ _) as [d1 [n|e]] eqn:Hu; [|done].
  apply db_Delete_spec in Hu as [Hl Hn].
  rewrite size_matching_key in Hn by apply db_rows_keyed. rewrite delete_rows_key in Hl by apply db_rows_keyed.
  case_decide as Hz; [done|]. intros [Hr2 He2]%db_DeleteEntries_spec. split.
  - destruct (_ !! _); [done|]. lia.
  - destruct Hl as [Hr Ho He]. split; [by rewrite Hr2| |split].
    + by rewrite He2, own_unkeyed, He.
    + intros t Ht. by rewrite Hr2, Ho.
    + by rewrite He2, foreign_unkeyed, He.
Qed.

Lemma delete_tx_up gs r d : db_up d → is_Some (db_rows d (table gs) !! ResourceKey r) →
  ∃ d', delete_tx gs r d = (d', None) ∧ db_up d'.
Proof.
  intros Hd [row Hrow]. unfold delete_tx.
  destruct (db_up_Delete d (table gs) (has_key (ResourceKey r)) Hd) as [Hu He].
  destruct (db_Delete _ _ _) as [d1 [n|e]] eqn:E; [|done]. simpl in Hu.
  apply db_Delete_spec in E as [_ Hn]. rewrite size_matching_key, Hrow in Hn by apply db_rows_keyed.
  rewrite decide_False by lia.
  destruct (db_up_DeleteEntries d1 (of_key gs (ResourceKey r)) Hu) as [Hu2 He2].
  destruct (db_DeleteEntries d1 _) as [d2 e]. simpl in *. subst e. by exists d2.
Qed.

Lemma bind_ext_in {A B} (f g : A → list B) l : (∀ x, x ∈ l → f x = g x) → l ≫= f = l ≫= g.
Proof.
  induction l as [|x l IH]; intros Hx; [done|]. csimpl. rewrite Hx by left. f_equal.
  apply IH. intros y Hy. apply Hx. by right.
Qed.

Lemma indexEntries_keeps gs r r' : keeps gs r r' → indexEntries gs r' = indexEntries gs r.
Proof.
  intros [_ Hk _ Hi]. unfold indexEntries. apply bind_ext_in. intros [n f] Hf%elem_of_go_range. simpl.
  by rewrite (Hi n f Hf), Hk.
Qed.

Lemma FromResource_keeps gs r r' : keeps gs r r' →
  ∃ m, FromResource json_Marshal r = Ok m ∧ rm_ResourceKey m = ResourceKey r ∧
    row_ok (gs_kind gs) (ResourceKey r) m ∧ decoded m = Some r' ∧
    ∀ row, row_ok (gs_kind gs) (ResourceKey r) row →
      row_ok (gs_kind gs) (ResourceKey r) (set_columns m row) ∧ decoded (set_columns m row) = Some r'.
Proof.
  intros [[Hkr Hkr'] Hk (data & Hd & Hu) _]. unfold FromResource. rewrite Hd. eexists. split; [done|].
  split; [done|]. rewrite Hkr. unfold GormStore.decoded, GormStore.ToResource. simpl.
  rewrite kind_of_string_kind, Hu. split_and!; [split; [done|by exists r']|done|].
  intros row [Hrow _]. split; [split; [done|by exists r']|]. simpl. by rewrite Hrow, kind_of_string_kind, Hu.
Qed.

Lemma tx_gorm_ok gs d d' rows entries :
  tx_effect gs d d' rows entries → map_Forall (row_ok (gs_kind gs)) rows →
  entries ≡ₚ all_entries gs (omap decoded rows) →
  gorm_ok (with_db gs d') ∧ gs_items (with_db gs d') = omap decoded rows.
Proof.
  intros [Hr He _] Hrows Hent.
  assert (Hgr : gs_rows (with_db gs d') = rows) by exact Hr.
  assert (Hgi : gs_items (with_db gs d') = omap decoded rows) by (unfold gs_items; by rewrite Hgr).
  split; [|done]. split; [by rewrite Hgr|]. rewrite Hgi. simpl. etransitivity; [exact He|done].
Qed.

Lemma items_keyed gs : gorm_ok gs → map_Forall (λ k r, ResourceKey r = k) (gs_items gs).
Proof. intros Hok k r Hk. by destruct (items_Some gs k r Hok Hk). Qed.

Lemma add_tx_ok gs r r' m d' :
  gorm_ok gs → keeps gs r r' → FromResource json_Marshal r = Ok m →
  add_tx gs r m (gs_db gs) = (d', None) →
  gs_items gs !! ResourceKey r = None ∧ others_same gs (gs_db gs) d' ∧
  gorm_ok (with_db gs d') ∧ gs_items (with_db gs d') = <[ResourceKey r := r']> (gs_items gs).
Proof.
  intros Hok Hk Hm Ht. destruct (FromResource_keeps gs r r' Hk) as (m' & Hm' & Hkey & Hrow & Hdec & _).
  rewrite Hm in Hm'. injection Hm' as <-. destruct (add_tx_spec gs r m _ d' Hkey Ht) as [Hnone Heff].
  assert (Hin : gs_items gs !! ResourceKey r = None) by by apply items_None.
  assert (Hitems : omap decoded (<[ResourceKey r := m]> (gs_rows gs)) = <[ResourceKey r := r']> (gs_items gs)).
  { by rewrite (omap_insert_Some _ _ _ _ r'). }
  split; [done|]. split; [apply Heff|]. rewrite <-Hitems.
  eapply tx_gorm_ok; [exact Heff| |].
  - apply map_Forall_insert_2; [done|]. apply Hok.
  - etransitivity; [|by rewrite Hitems]. rewrite all_entries_insert by done.
    rewrite (indexEntries_keeps _ _ _ Hk), (go_sync _ Hok). apply Permutation_app_comm.
Qed.

Lemma update_tx_ok gs r r' old m d' :
  gorm_ok gs → keeps gs r r' → ResourceKey old = ResourceKey r → FromResource json_Marshal r = Ok m →
  update_tx gs r old m (gs_db gs) = (d', None) →
  is_Some (gs_items gs !! ResourceKey r) ∧ others_same gs (gs_db gs) d' ∧
  gorm_ok (with_db gs d') ∧ gs_items (with_db gs d') = <[ResourceKey r := r']> (gs_items gs).
Proof.
  intros Hok Hk Hold Hm Ht. destruct (FromResource_keeps gs r r' Hk) as (m' & Hm' & Hkey & _ & _ & Hset).
  rewrite Hm in Hm'. injection Hm' as <-.
  destruct (update_tx_spec gs r old m _ d' Hold Ht) as [[row Hrow] Heff].
  fold (gs_rows gs) in Hrow. destruct (Hset row) as [Hro Hdec]; [by apply Hok|].
  assert (Hin : is_Some (gs_items gs !! ResourceKey r)).
  { apply not_eq_None_Some. rewrite items_None by done. by rewrite Hrow. }
  assert (Halt : alter (set_columns m) (ResourceKey r) (gs_rows gs) =
    <[ResourceKey r := set_columns m row]> (gs_rows gs)).
  { apply map_eq. intros j. destruct (decide (ResourceKey r = j)) as [<-|].
    - by rewrite lookup_alter_eq, lookup_insert_eq, Hrow.
    - by rewrite lookup_alter_ne, lookup_insert_ne. }
  unfold gs_rows in Halt. rewrite Halt in Heff. fold (gs_rows gs) in Heff.
  assert (Hitems : omap decoded (<[ResourceKey r := set_columns m row]> (gs_rows gs)) =
    <[ResourceKey r := r']> (gs_items gs)) by by rewrite (omap_insert_Some _ _ _ _ r').
  split; [done|]. split; [apply Heff|]. rewrite <-Hitems.
  eapply tx_gorm_ok; [exact Heff| |].
  - apply map_Forall_insert_2; [done|]. apply Hok.
  - rewrite Hitems, <-insert_delete_eq. rewrite all_entries_insert by apply lookup_delete_eq.
    rewrite (indexEntries_keeps _ _ _ Hk), (go_sync _ Hok), unkeyed_all_entries by by apply items_keyed.
    apply Permutation_app_comm.
Qed.

Lemma delete_tx_ok gs r d' :
  gorm_ok gs → delete_tx gs r (gs_db gs) = (d', None) →
  is_Some (gs_items gs !! ResourceKey r) ∧ others_same gs (gs_db gs) d' ∧
  gorm_ok (with_db gs d') ∧ gs_items (with_db gs d') = delete (ResourceKey r) (gs_items gs).
Proof.
  intros Hok Ht. destruct (delete_tx_spec gs r _ d' Ht) as [[row Hrow] Heff]. fold (gs_rows gs) in Hrow.
  assert (Hitems : omap decoded (delete (ResourceKey r) (gs_rows gs)) = delete (ResourceKey r) (gs_items gs)).
  { by rewrite omap_delete. }
  split. { apply not_eq_None_Some. rewrite items_None by done. by rewrite Hrow. }
  split; [apply Heff|]. rewrite <-Hitems. eapply tx_gorm_ok; [exact Heff| |].
  - apply map_Forall_delete, Hok.
  - by rewrite Hitems, (go_sync _ Hok), unkeyed_all_entries by by apply items_keyed.
Qed.

Lemma delete_rows_all (m : gmap string ResourceModel) : delete_rows (λ _, true) m = ∅.
Proof.
  apply map_empty. intros k. destruct (delete_rows _ m !! k) as [r|] eqn:E; [|done].
  by apply lookup_delete_rows in E as [_ ?].
Qed.

Lemma to_models_keeps gs rs : Forall (λ p, keeps gs p.1 p.2) rs →
  ∃ ms, to_models json_Marshal (ResourceObj <$> rs.*1) = Ok ms ∧ ms.*1 = rs.*1 ∧
    Forall2 (λ m p, FromResource json_Marshal p.1 = Ok m) ms.*2 rs.
Proof.
  induction 1 as [|[r r'] rs Hr Hrs (ms & Hms & Hrs1 & Hf)]; [by exists []|].
  destruct (FromResource_keeps gs r r' Hr) as (m & Hm & _). exists ((r, m) :: ms). csimpl.
  rewrite Hm. cbn [mbind result_bind]. rewrite Hms. cbn [mbind result_bind]. split; [done|].
  split; [by rewrite Hrs1|by constructor].
Qed.

(** The resources read back, under their keys. *)
Definition read_back (rs : list (Resource * Resource)) : gmap string Resource :=
  list_to_map ((λ p, (ResourceKey p.1, p.2)) <$> rs).

Lemma insert_rows_to_map (ms : list ResourceModel) (m : gmap string ResourceModel) :
  NoDup (rm_ResourceKey <$> ms) →
  insert_rows rm_ResourceKey ms m = list_to_map ((λ r, (rm_ResourceKey r, r)) <$> ms) ∪ m.
Proof.
  unfold insert_rows. revert m. induction ms as [|x ms IH]; intros m; csimpl.
  - by rewrite (left_id_L ∅ (∪)).
  - intros [Hx Hms]%NoDup_cons. rewrite IH by done. rewrite <-insert_union_l, insert_union_r; [done|].
    apply not_elem_of_list_to_map_1. rewrite <-list_fmap_compose. exact Hx.
Qed.

Lemma models_keys gs rs ms : Forall (λ p, keeps gs p.1 p.2) rs →
  Forall2 (λ m p, FromResource json_Marshal p.1 = Ok m) ms rs →
  rm_ResourceKey <$> ms = ResourceKey <$> rs.*1.
Proof.
  intros Hk Hf. induction Hf as [|m [r r'] ms rs Hm Hf IH]; [done|].
  apply Forall_cons in Hk as [Hr Hk]. csimpl. rewrite IH by done. f_equal. simpl in Hr, Hm.
  destruct (FromResource_keeps gs r r' Hr) as (m' & Hm' & <- & _). congruence.
Qed.

Lemma replaced_rows gs rs ms : Forall (λ p, keeps gs p.1 p.2) rs → NoDup (ResourceKey <$> rs.*1) →
  Forall2 (λ m p, FromResource json_Marshal p.1 = Ok m) ms rs →
  let rows : gmap string ResourceModel := list_to_map ((λ r, (rm_ResourceKey r, r)) <$> ms) in
  map_Forall (row_ok (gs_kind gs)) rows ∧ omap decoded rows = read_back rs ∧
  rs.*1 ≫= indexEntries gs ≡ₚ all_entries gs (read_back rs).
Proof.
  unfold read_back. intros Hk Hnd Hf. induction Hf as [|m [r r'] ms rs Hm Hf IH]; csimpl.
  { split_and!; [by apply map_Forall_empty|by rewrite omap_empty|done]. }
  apply Forall_cons in Hk as [Hr Hk]. csimpl in Hnd. apply NoDup_cons in Hnd as [Hnr Hnd].
  destruct (IH Hk Hnd) as (Hrows & Hdec & Hent). simpl in Hr.
  destruct (FromResource_keeps gs r r' Hr) as (m' & Hm' & Hkey & Hro & Hd & _). simpl in Hm. assert (m' = m) as -> by congruence.
  rewrite Hkey. split_and!; [by apply map_Forall_insert_2| |].
  - rewrite (omap_insert_Some _ _ _ _ r') by done. by rewrite Hdec.
  - rewrite all_entries_insert; [by rewrite Hent, (indexEntries_keeps _ _ _ Hr)|].
    apply not_elem_of_list_to_map_1. rewrite <-list_fmap_compose.
    by rewrite <-list_fmap_compose in Hnr.
Qed.

Lemma replace_tx_ok gs rs d' :
  gorm_ok gs → Forall (λ p, keeps gs p.1 p.2) rs →
  replace_tx json_Marshal gs (ResourceObj <$> rs.*1) (gs_db gs) = (d', None) →
  NoDup (ResourceKey <$> rs.*1) ∧ others_same gs (gs_db gs) d' ∧
  gorm_ok (with_db gs d') ∧ gs_items (with_db gs d') = read_back rs.
Proof.
  intros Hok Hk. destruct (to_models_keeps gs rs Hk) as (ms & Hms & Hms1 & Hf).
  unfold replace_tx. destruct (db_Delete _ _ _) as [d1 [n|e]] eqn:Hd; [|done].
  apply db_Delete_spec in Hd as [[Hr1 Ho1 He1] _]. rewrite delete_rows_all in Hr1.
  intros (d2 & [Hr2 He2]%db_DeleteEntries_spec & Hc)%and_then_None.
  assert (H2 : tx_effect gs (gs_db gs) d2 ∅ []).
  { split; [by rewrite Hr2| |split].
    - by rewrite He2, own_cleared.
    - intros t Ht. by rewrite Hr2, Ho1.
    - rewrite He2. unfold foreign. rewrite list_filter_filter_l by done. by rewrite He1. }
  destruct rs as [|p rs].
  { csimpl in Hc. injection Hc as <-. split; [constructor|]. split; [apply H2|].
    assert (Hemp : omap decoded (∅ : gmap string ResourceModel) = ∅) by apply omap_empty.
    destruct (tx_gorm_ok gs _ _ _ _ H2) as [Hg Hi]; [apply map_Forall_empty|by rewrite Hemp|].
    split; [done|]. by rewrite Hi, Hemp. }
  change (ResourceObj <$> (p :: rs).*1) with (ResourceObj p.1 :: (ResourceObj <$> rs.*1)) in Hc, Hms.
  cbv iota in Hc. rewrite Hms in Hc.
  apply and_then_None in Hc as (d3 & (Hnd & _ & [Hr3 Ho3 He3])%db_Create_spec & [Hr4 He4]%wrapping_None%createEntries_spec).
  assert (Hkeys : NoDup (ResourceKey <$> (p :: rs).*1)).
  { by rewrite <-(models_keys gs _ ms.*2 Hk Hf). }
  destruct (replaced_rows gs (p :: rs) ms.*2 Hk Hkeys Hf) as (Hrows & Hdec & Hent).
  rewrite insert_rows_to_map in Hr3 by done. destruct H2 as [Hr2' He2' [Ht2 Hf2]].
  rewrite Hr2', (right_id_L ∅ (∪)) in Hr3. split; [done|].
  assert (H4 : tx_effect gs (gs_db gs) d' (list_to_map ((λ r, (rm_ResourceKey r, r)) <$> ms.*2))
    ((p :: rs).*1 ≫= indexEntries gs)).
  { rewrite <-Hms1. split; [by rewrite Hr4| |split].
    - rewrite He4. unfold own at 1. rewrite filter_app. fold (own gs (db_entries d3)).
      fold (own gs (ms.*1 ≫= indexEntries gs)). by rewrite He3, He2', own_bind.
    - intros t Ht. by rewrite Hr4, Ho3, Ht2.
    - rewrite He4. unfold foreign at 1. rewrite filter_app. fold (foreign gs (db_entries d3)).
      fold (foreign gs (ms.*1 ≫= indexEntries gs)). by rewrite He3, Hf2, foreign_bind, app_nil_r. }
  split; [apply H4|]. rewrite <-Hdec. eapply tx_gorm_ok; [exact H4|done|]. by rewrite Hdec.
Qed.

Lemma replace_tx_up gs rs d : db_up d → Forall (λ p, keeps gs p.1 p.2) rs →
  NoDup (ResourceKey <$> rs.*1) →
  ∃ d', replace_tx json_Marshal gs (ResourceObj <$> rs.*1) d = (d', None) ∧ db_up d'.
Proof.
  intros Hd Hk Hnd. destruct (to_models_keeps gs rs Hk) as (ms & Hms & Hms1 & Hf). unfold replace_tx.
  destruct (db_up_Delete d (table gs) (λ _, true) Hd) as [Hu1 He1].
  destruct (db_Delete _ _ _) as [d1 [n|e]] eqn:Ed; [|done]. simpl in Hu1.
  apply db_Delete_spec in Ed as [[Hr1 _ _] _]. rewrite delete_rows_all in Hr1.
  destruct (db_up_DeleteEntries d1 (of_kind gs) Hu1) as [Hu2 He2].
  destruct (db_DeleteEntries d1 _) as [d2 e] eqn:Ee. simpl in Hu2, He2. subst e.
  apply db_DeleteEntries_spec in Ee as [Hr2 _]. simpl. destruct rs as [|p rs]; [by exists d2|].
  change (ResourceObj <$> (p :: rs).*1) with (ResourceObj p.1 :: (ResourceObj <$> rs.*1)) in *.
  cbv iota. rewrite Hms. pose proof (models_keys gs _ ms.*2 Hk Hf) as Hkeys.
  destruct (db_up_Create d2 (table gs) ms.*2 Hu2) as [Hu3 He3].
  { by rewrite Hkeys. }
  { intros Hnil. rewrite Hnil in Hf. by apply Forall2_nil_inv_l in Hf. }
  { apply Forall_forall. intros m _. by rewrite Hr2, Hr1, lookup_empty. }
  destruct (db_Create _ _ _) as [d3 e]. simpl in Hu3, He3. subst e. simpl.
  destruct (createEntries_up d3 (ms.*1 ≫= indexEntries gs) Hu3) as (d4 & -> & Hu4). by exists d4.
Qed.

(** ** The writes against their specification *)

(** A write, with the resources that will be read back. *)
Inductive write :=
| WAdd (r r' : Resource)
| WUpdate (r r' : Resource)
| WDelete (r : Resource)
| WReplace (l : list (Resource * Resource)).

Definition perform (other : D → D) (gs : store) (w : write) : store * option error :=
  match w with
  | WAdd r _ => Add json_Marshal other gs (ResourceObj r)
  | WUpdate r _ => Update json_Marshal json_Unmarshal other gs (ResourceObj r)
  | WDelete r => Delete (with_db gs (other (gs_db gs))) (ResourceObj r)
  | WReplace l => Replace json_Marshal (with_db gs (other (gs_db gs))) (ResourceObj <$> l.*1)
  end.

Definition writable (gs : store) (w : write) : Prop :=
  match w with
  | WAdd r r' | WUpdate r r' => keeps gs r r'
  | WDelete _ => True
  | WReplace l => Forall (λ p, keeps gs p.1 p.2) l
  end.

(** What a write does to the stored resources, and when it is possible. *)
Definition effect (w : write) (m : gmap string Resource) : gmap string Resource :=
  match w with
  | WAdd r r' | WUpdate r r' => <[ResourceKey r := r']> m
  | WDelete r => delete (ResourceKey r) m
  | WReplace l => read_back l
  end.
Definition possible (w : write) (m : gmap string Resource) : Prop :=
  match w with
  | WAdd r _ => m !! ResourceKey r = None
  | WUpdate r _ | WDelete r => is_Some (m !! ResourceKey r)
  | WReplace l => NoDup (ResourceKey <$> l.*1)
  end.

(** The error of an impossible write; the database's own for a replacement. *)
Definition refusal (w : write) (e : error) : Prop :=
  match w with
  | WAdd r _ => e = ErrorResourceAlreadyExists (kind_string (res_kind r)) (res_Name r) (res_Mesh r)
  | WUpdate r _ | WDelete r => e = ErrorResourceNotFound (kind_string (res_kind r)) (res_Name r) (res_Mesh r)
  | WReplace _ => True
  end.

(** The transaction of a write. *)
Definition write_tx (gs : store) (w : write) (tx : D → D * option error) : Prop :=
  match w with
  | WAdd r _ => ∃ m, FromResource json_Marshal r = Ok m ∧ tx = add_tx gs r m
  | WUpdate r _ => ∃ m old, FromResource json_Marshal r = Ok m ∧ ResourceKey old = ResourceKey r ∧
      tx = update_tx gs r old m
  | WDelete r => tx = delete_tx gs r
  | WReplace l => tx = replace_tx json_Marshal gs (ResourceObj <$> l.*1)
  end.

Lemma write_tx_ok gs w tx d d' :
  gorm_ok (with_db gs d) → writable gs w → write_tx gs w tx → tx d = (d', None) →
  possible w (gs_items (with_db gs d)) ∧ others_same gs d d' ∧
  gorm_ok (with_db gs d') ∧ gs_items (with_db gs d') = effect w (gs_items (with_db gs d)).
Proof.
  intros Hok Hw Htx He. set (gs0 := with_db gs d) in *.
  assert (Hk : ∀ r r', keeps gs r r' → keeps gs0 r r') by (by intros r r' []).
  assert (Ho : others_same gs0 d d' → others_same gs d d') by by intros [].
  destruct w as [r r'|r r'|r|l]; simpl in *.
  - destruct Htx as (m & Hm & ->). destruct (add_tx_ok gs0 r r' m d' Hok) as (? & ? & ? & ?); auto.
  - destruct Htx as (m & old & Hm & Hold & ->).
    destruct (update_tx_ok gs0 r r' old m d' Hok) as (? & ? & ? & ?); auto.
  - subst tx. destruct (delete_tx_ok gs0 r d' Hok) as (? & ? & ? & ?); auto.
  - subst tx. destruct (replace_tx_ok gs0 l d' Hok) as (? & ? & ? & ?); auto.
    eapply Forall_impl; [exact Hw|]. intros [??]. apply Hk.
Qed.

Lemma gs_rows_items gs k : gorm_ok gs → is_Some (gs_items gs !! k) → is_Some (gs_rows gs !! k).
Proof. intros Hok Hk. apply not_eq_None_Some. rewrite <-items_None by done. by apply not_eq_None_Some. Qed.

Lemma write_tx_up gs w tx d :
  gorm_ok (with_db gs d) → db_up d → writable gs w → write_tx gs w tx →
  possible w (gs_items (with_db gs d)) → ∃ d', tx d = (d', None) ∧ db_up d'.
Proof.
  intros Hok Hd Hw Htx Hp. destruct w as [r r'|r r'|r|l]; simpl in *.
  - destruct Htx as (m & Hm & ->). destruct (FromResource_keeps gs r r' Hw) as (m' & Hm' & Hkey & _).
    apply add_tx_up; [done|congruence|]. by apply items_None in Hp.
  - destruct Htx as (m & old & Hm & Hold & ->). apply update_tx_up; [done|]. by apply gs_rows_items in Hp.
  - subst tx. apply delete_tx_up; [done|]. by apply gs_rows_items in Hp.
  - subst tx. by apply replace_tx_up.
Qed.

(** An operation is its checks followed by its transaction. *)
Lemma perform_cases other gs w gs' e :
  gorm_ok gs → writable gs w → perform other gs w = (gs', e) →
  (gs' = gs ∧ is_Some e) ∨
  ∃ tx d', write_tx gs w tx ∧ InTransaction (other (gs_db gs)) tx = (d', e) ∧ gs' = with_db gs d'.
Proof.
  intros Hok Hw. destruct w as [r r'|r r'|r|l]; simpl in *.
  - rewrite decide_True by apply Hw. destruct (db_Count _ _ _) as [n|e']; [|intros [= <- <-]; by left].
    case_decide; [intros [= <- <-]; by left|].
    destruct (FromResource json_Marshal r) as [m|e'] eqn:Hm; [|intros [= <- <-]; by left].
    destruct (InTransaction _ _) as [d' e'] eqn:Ht. intros [= <- <-]. right.
    exists (add_tx gs r m), d'. split_and!; [by exists m|done|done].
  - rewrite decide_True by apply Hw. destruct (GetByKey _ _ _) as [[[old|n]|]|e'] eqn:Hg;
      try (intros [= <- <-]; by left).
    destruct (FromResource json_Marshal r) as [m|e'] eqn:Hm; [|intros [= <- <-]; by left].
    destruct (InTransaction _ _) as [d' e'] eqn:Ht. intros [= <- <-]. right.
    exists (update_tx gs r old m), d'. split_and!; [exists m, old; split_and!; [done| |done]|done|done].
    unfold GetByKey in Hg. pose proof (db_First_spec (gs_db gs) (table gs) (has_key (ResourceKey r))) as Hf.
    destruct (db_First _ _ _) as [row|er]; [|by destruct (errors_is _ _)].
    destruct Hf as (k & Hrow & Hkey%bool_decide_eq_true). pose proof (db_rows_key _ _ _ _ Hrow) as Hk2.
    destruct (row_ok_decoded _ _ _ (go_rows _ Hok _ _ Hrow)) as (r0 & Hr0 & _ & Hkr0 & _).
    rewrite Hr0 in Hg. cbn [mbind result_bind] in Hg. injection Hg as <-. congruence.
  - unfold Delete. destruct (InTransaction _ _) as [d' e'] eqn:Ht. intros [= <- <-]. right.
    by exists (delete_tx gs r), d'.
  - unfold Replace. destruct (InTransaction _ _) as [d' e'] eqn:Ht. intros [= <- <-]. right.
    by exists (replace_tx json_Marshal gs (ResourceObj <$> l.*1)), d'.
Qed.

#[export] Instance possible_dec w m : Decision (possible w m).
Proof. destruct w; simpl; apply _. Defined.

(** C3: whatever statements of the database fail, also when only the answer of
    a commit is lost, and whatever other replicas write before its
    transaction, a write of the database store leaves the index entries those
    of the stored rows. It is refused by its checks, or rolled back with an
    error, or takes its whole effect on the rows it found; without an error it
    took effect. The tables and the entries of other kinds stay as they were. *)
Theorem writes_atomic other gs w gs' e :
  gorm_ok gs → gorm_ok (with_db gs (other (gs_db gs))) → writable gs w →
  perform other gs w = (gs', e) →
  let found := with_db gs (other (gs_db gs)) in
  gorm_ok gs' ∧
  ((gs' = gs ∧ is_Some e) ∨
   others_same gs (gs_db found) (gs_db gs') ∧
   ((gs_items gs' = gs_items found ∧ is_Some e) ∨
    (possible w (gs_items found) ∧ gs_items gs' = effect w (gs_items found)))).
Proof.
  intros Hok Hoth Hw Hp found.
  destruct (perform_cases other gs w gs' e Hok Hw Hp) as [[-> He]|(tx & d' & Htx & Hin & ->)].
  { split; [done|]. by left. }
  destruct (InTransaction_atomic _ _ _ _ Hin) as [(d1 & H1 & Hv)|[He Hv]].
  - destruct (write_tx_ok gs w tx _ d1 Hoth Hw Htx H1) as (Hpos & Hos & Hok1 & Hit1).
    destruct (gorm_ok_view (with_db gs d1) d' Hok1 Hv) as [Hok2 Hit2].
    split; [exact Hok2|]. right. split; [by eapply others_same_view|]. right. split; [done|].
    etransitivity; [exact Hit2|exact Hit1].
  - destruct (gorm_ok_view found d' Hoth Hv) as [Hok2 Hit2].
    split; [exact Hok2|]. right. split; [eapply others_same_view; [apply others_same_refl|done]|].
    left. by split.
Qed.

Lemma GetByKey_ok gs k : gorm_ok gs → db_up (gs_db gs) →
  GetByKey json_Unmarshal gs k = Ok (ResourceObj <$> gs_items gs !! k).
Proof.
  intros Hok Hd. unfold GetByKey. pose proof (matching_key (gs_rows gs) k (db_rows_keyed _ _)) as Hm.
  destruct (gs_rows gs !! k) as [row|] eqn:Hrow.
  - pose proof (db_up_First (gs_db gs) (table gs) (has_key k) Hd) as Hu.
    fold (gs_rows gs) in Hu. rewrite Hm in Hu. specialize (Hu (map_non_empty_singleton _ _)).
    pose proof (db_First_spec (gs_db gs) (table gs) (has_key k)) as Hf.
    destruct (db_First _ _ _) as [row'|er]; [|done]. destruct Hf as (k' & Hrow' & Hk).
    assert (Hin : matching (has_key k) (gs_rows gs) !! k' = Some row') by by apply lookup_matching.
    rewrite Hm in Hin. apply lookup_singleton_Some in Hin as [<- <-].
    destruct (row_ok_decoded _ _ _ (go_rows _ Hok _ _ Hrow)) as (r0 & -> & Hdec & _).
    cbn [mbind result_bind]. unfold gs_items. by rewrite lookup_omap, Hrow; simpl; rewrite Hdec.
  - rewrite (db_up_First_none (gs_db gs)) by done. rewrite errors_is_refl.
    assert (gs_items gs !! k = None) as -> by by apply items_None. done.
Qed.

Lemma with_db_id (gs : store) : with_db gs (gs_db gs) = gs.
Proof. by destruct gs. Qed.

(** A count of the rows with a key. *)
Lemma Count_ok gs k n : gorm_ok gs → db_Count (gs_db gs) (table gs) (has_key k) = Ok n →
  n = match gs_items gs !! k with Some _ => 1 | None => 0 end.
Proof.
  intros Hok Hn%db_Count_spec. rewrite size_matching_key in Hn by apply db_rows_keyed. fold (gs_rows gs) in Hn.
  destruct (gs_items gs !! k) eqn:Hi.
  - destruct (gs_rows_items gs k Hok) as [row Hrow]; [by eexists|]. by rewrite Hrow in Hn.
  - apply items_None in Hi; [|done]. by rewrite Hi in Hn.
Qed.

(** The transaction an undisturbed, possible write runs. *)
Lemma perform_tx gs w :
  gorm_ok gs → db_up (gs_db gs) → writable gs w → possible w (gs_items gs) →
  ∃ tx, write_tx gs w tx ∧
    perform id gs w = (let '(d, e) := InTransaction (gs_db gs) tx in (with_db gs d, e)).
Proof.
  intros Hok Hd Hw Hpos. destruct w as [r r'|r r'|r|l]; simpl in *.
  - destruct (FromResource_keeps gs r r' Hw) as (m & Hm & _). rewrite decide_True by apply Hw.
    pose proof (db_up_Count (gs_db gs) (table gs) (has_key (ResourceKey r)) Hd) as Hu.
    destruct (db_Count _ _ _) as [n|er] eqn:Hc; [|done]. apply Count_ok in Hc; [|done]. rewrite Hpos in Hc.
    rewrite decide_False by lia. rewrite Hm. exists (add_tx gs r m). split; [by exists m|done].
  - destruct (FromResource_keeps gs r r' Hw) as (m & Hm & _). rewrite decide_True by apply Hw.
    rewrite GetByKey_ok by done. destruct Hpos as [old Hold]. rewrite Hold. simpl. rewrite Hm.
    exists (update_tx gs r old m). split; [|done]. exists m, old. split_and!; [done| |done].
    by destruct (items_Some gs _ _ Hok Hold).
  - exists (delete_tx gs r). split; [done|]. by rewrite with_db_id.
  - eexists. split; [done|]. by rewrite with_db_id.
Qed.

Lemma perform_refused gs w gs' e :
  gorm_ok gs → db_up (gs_db gs) → writable gs w → ¬ possible w (gs_items gs) →
  perform id gs w = (gs', e) →
  gorm_ok gs' ∧ gs_items gs' = gs_items gs ∧ others_same gs (gs_db gs) (gs_db gs') ∧
  ∃ er, e = Some er ∧ refusal w er.
Proof.
  intros Hok Hd Hw Hn. pose proof (others_same_refl gs (gs_db gs)) as Hsame.
  destruct w as [r r'|r r'|r|l]; simpl in *.
  - rewrite decide_True by apply Hw.
    pose proof (db_up_Count (gs_db gs) (table gs) (has_key (ResourceKey r)) Hd) as Hu.
    destruct (db_Count _ _ _) as [n|er] eqn:Hc; [|done]. apply Count_ok in Hc; [|done].
    destruct (gs_items gs !! ResourceKey r); [|done]. rewrite decide_True by lia. intros [= <- <-]. split_and!; [done..|by eexists].
  - rewrite decide_True by apply Hw. rewrite GetByKey_ok by done.
    destruct (gs_items gs !! ResourceKey r) eqn:Hi; [by destruct Hn|]. simpl. intros [= <- <-]. split_and!; [done..|by eexists].
  - unfold Delete. rewrite with_db_id.
    assert (He : ∃ tx, delete_tx gs r (gs_db gs) = (tx, Some (not_found r))).
    { unfold delete_tx. destruct (db_up_Delete (gs_db gs) (table gs) (has_key (ResourceKey r)) Hd) as [_ Hu].
      destruct (db_Delete _ _ _) as [d1 [n|er]] eqn:Ed; [|done]. apply db_Delete_spec in Ed as [_ Hz].
      rewrite size_matching_key in Hz by apply db_rows_keyed. fold (gs_rows gs) in Hz.
      assert (Hrow : gs_rows gs !! ResourceKey r = None).
      { apply items_None; [done|]. by apply eq_None_not_Some. }
      rewrite Hrow in Hz. rewrite decide_True by done. by eexists. }
    destruct He as [tx He]. rewrite (InTransaction_err _ _ _ _ He), with_db_id. intros [= <- <-].
    split_and!; [done..|]. by eexists.
  - unfold Replace. rewrite with_db_id. destruct (InTransaction _ _) as [d' er] eqn:Hin. intros [= <- <-].
    destruct (InTransaction_atomic _ _ _ _ Hin) as [(d1 & H1 & Hv)|[[er' ->] Hv]].
    + by destruct (replace_tx_ok gs l d1 Hok Hw H1) as [? _].
    + destruct (gorm_ok_view gs d' Hok Hv) as [? ?].
      split_and!; [done|done|by eapply others_same_view|]. by eexists.
Qed.

(** C26: on a database that is up, and with no other writer, the database store
    is a map of resources: an addition under a fresh key, an update and a
    deletion of a stored key and a replacement by distinct keys succeed and
    have their effect; any other write changes nothing and is refused, with
    the error that says so for the single writes. *)
Theorem writes_refine gs w :
  gorm_ok gs → db_up (gs_db gs) → writable gs w →
  ∃ gs' e, perform id gs w = (gs', e) ∧ gorm_ok gs' ∧ others_same gs (gs_db gs) (gs_db gs') ∧
    if decide (possible w (gs_items gs))
    then e = None ∧ gs_items gs' = effect w (gs_items gs) ∧ db_up (gs_db gs')
    else gs_items gs' = gs_items gs ∧ ∃ er, e = Some er ∧ refusal w er.
Proof.
  intros Hok Hd Hw. destruct (perform id gs w) as [gs' e] eqn:Hp. exists gs', e. split; [done|].
  case_decide as Hpos.
  - destruct (perform_tx gs w Hok Hd Hw Hpos) as (tx & Htx & Heq). rewrite Hp in Heq.
    pose proof Hok as Hid. pose proof Hpos as Hpid. rewrite <-(with_db_id gs) in Hid, Hpid.
    destruct (write_tx_up gs w tx (gs_db gs) Hid Hd Hw Htx Hpid) as (d1 & H1 & Hu1).
    destruct (InTransaction_up (gs_db gs) tx d1 Hd H1 Hu1) as (d' & Hin & Hu' & Hv).
    rewrite Hin in Heq. injection Heq as -> ->.
    destruct (write_tx_ok gs w tx _ d1 Hid Hw Htx H1) as (_ & Hos & Hok1 & Hit1).
    destruct (gorm_ok_view (with_db gs d1) d' Hok1 Hv) as [Hok2 Hit2]. rewrite with_db_id in Hit1.
    split; [exact Hok2|]. split; [by eapply others_same_view|]. split_and!; [done| |done].
    etransitivity; [exact Hit2|exact Hit1].
  - destruct (perform_refused gs w gs' e Hok Hd Hw Hpos Hp) as (? & ? & ? & ?). done.
Qed.
End writes.

(** ** At a concrete database *)
Module GormExample.
#[local] Existing Instance RefDatabase.ops.
#[local] Existing Instance RefDatabase.laws.
#[local] Existing Instance default_range.
Abbreviation DB := (RefDatabase.database ResourceModel ResourceIndexModel).
#[local] Instance db_ops : Database DB ResourceModel ResourceIndexModel := RefDatabase.ops rm_ResourceKey.
#[local] Instance db_laws : DatabaseLaws rm_ResourceKey DB := RefDatabase.laws rm_ResourceKey.

(** Condition routes without a spec, stored as their keys; annotations are lost. *)
Definition route (annotations : option (gmap string string)) (key : string) : Resource :=
  {| res_meta := {| meta_Name := (ParseResourceKey key).2; meta_Labels := None;
                    meta_Annotations := annotations |};
     res_Mesh := (ParseResourceKey key).1; res_spec := ConditionRouteSpec None |}.
Definition marshal (r : Resource) : result error string := Ok (ResourceKey r).
Definition unmarshal (kind : ResourceKind) (data : string) : result error Resource :=
  Ok (route None data).

Definition empty : GormStore DB :=
  {| gs_kind := ConditionRouteKind; gs_indexers := {["mesh" := ByMesh]};
     gs_db := {| RefDatabase.tables := ∅; RefDatabase.indices := [] |} |}.
Definition noted : Resource := route (Some {["note" := "x"]}) "m/shop".
Definition add : write := WAdd noted (route None "m/shop").
Definition one : GormStore DB := (perform marshal unmarshal id empty add).1.

Lemma empty_ok : gorm_ok unmarshal empty.
Proof.
  split; [|apply reflexive_eq; vm_compute; reflexivity].
  assert (gs_rows empty = ∅) as -> by (vm_compute; reflexivity). intros k r Hk. by rewrite lookup_empty in Hk.
Qed.

Lemma one_ok : gorm_ok unmarshal one.
Proof.
  split.
  - assert (gs_rows one = {["m/shop" := {| rm_ResourceKey := "m/shop"; rm_ResourceKind := "ConditionRoute";
      rm_Name := "shop"; rm_Mesh := "m"; rm_Data := "m/shop" |}]}) as -> by (vm_compute; reflexivity).
    apply map_Forall_singleton. split; [done|]. by exists (route None "m/shop").
  - apply reflexive_eq. vm_compute. reflexivity.
Qed.

Lemma keeps_noted (gs : GormStore DB) : gs_kind gs = ConditionRouteKind → gs_indexers gs = {["mesh" := ByMesh]} →
  keeps marshal unmarshal gs noted (route None "m/shop").
Proof.
  intros Hk Hi. split; rewrite ?Hk; [done|done|by exists "m/shop"|].
  intros n f. rewrite Hi. by intros [_ <-]%lookup_singleton_Some.
Qed.

Lemma writes_refine_witness :
  ∃ gs', perform marshal unmarshal id empty add = (gs', None) ∧
    gs_items unmarshal gs' = {["m/shop" := route None "m/shop"]}.
Proof.
  destruct (writes_refine marshal unmarshal empty add empty_ok I
    (keeps_noted empty eq_refl eq_refl)) as (gs' & e & Hp & _ & _ & Hd).
  rewrite decide_True in Hd by (vm_compute; reflexivity). destruct Hd as (He & Hi & _). subst e.
  exists gs'. split; [exact Hp|]. rewrite Hi. vm_compute. reflexivity.
Defined.

(** Another replica takes the key first: the addition is rolled back. *)
Lemma writes_atomic_witness :
  ∃ gs' e, perform marshal unmarshal (λ _, gs_db one) empty add = (gs', e) ∧
    gorm_ok unmarshal gs' ∧ is_Some e.
Proof.
  destruct (perform marshal unmarshal (λ _, gs_db one) empty add) as [gs' e] eqn:Hp.
  destruct (writes_atomic marshal unmarshal (λ _, gs_db one) empty add gs' e empty_ok one_ok
    (keeps_noted empty eq_refl eq_refl) Hp) as [Hok Hc].
  exists gs', e. split; [reflexivity|]. split; [exact Hok|].
  destruct Hc as [[_ He]|[_ [[_ He]|[Hpos _]]]]; [exact He|exact He|].
  exfalso. vm_compute in Hpos. discriminate Hpos.
Defined.
End GormExample.
