(* ===== verification/GormQueries.v ===== *)
(** pkg/store/dbcommon/gorm_store.go: the queries of the database store, their
    pages, its initialization, and its agreement with the in-memory store. *)
From S2P Require Import Prelude GoStrings Errors Resource Libs Indexers Store MemoryStore MemoryQueries Gorm Database GormStore GormWrites.

Open Scope string_scope.
Open Scope list_scope.
Open Scope Z_scope.

Section queries.
Context {D : Type} `{Database D ResourceModel ResourceIndexModel, !DatabaseLaws rm_ResourceKey D, MapRange}.
Context (json_Unmarshal : ResourceKind → string → result error Resource).
Abbreviation store := (GormStore D).
Abbreviation gorm_ok := (gorm_ok json_Unmarshal).
Abbreviation gs_items := (gs_items json_Unmarshal).
Abbreviation ToResource := (ToResource json_Unmarshal).

Lemma elem_of_indexEntries (gs : store) r x :
  x ∈ indexEntries gs r ↔ ∃ n f v, gs_indexers gs !! n = Some f ∧ index_has f v (ResourceObj r) = true ∧
    x = {| rim_ResourceKind := kind_name gs; rim_IndexName := n; rim_IndexValue := v;
           rim_ResourceKey := ResourceKey r; rim_Operator := operator_string Equals |}.
Proof.
  unfold indexEntries. rewrite list_elem_of_bind. split.
  - intros ([n f] & Hx & Hf%elem_of_go_range). simpl in Hx. destruct (f (ResourceObj r)) as [vs|] eqn:E;
      [|by apply elem_of_nil in Hx].
    apply list_elem_of_fmap in Hx as (v & -> & Hv). exists n, f, v. split_and!; [done| |done].
    by eapply index_has_Ok.
  - intros (n & f & v & Hf & Hv & ->). exists (n, f). split; [|by apply elem_of_go_range]. simpl.
    destruct (f (ResourceObj r)) as [vs|] eqn:E; [|unfold index_has in Hv; by rewrite E in Hv].
    apply list_elem_of_fmap. exists v. split; [done|]. by eapply index_has_Ok in E; apply E.
Qed.

(** An entry of the kind is there because a stored resource has the value. *)
Lemma elem_of_entries (gs : store) x : gorm_ok gs →
  (x ∈ db_entries (gs_db gs) ∧ of_kind gs x = true) ↔
  ∃ k r, gs_items gs !! k = Some r ∧ x ∈ indexEntries gs r.
Proof.
  intros Hok. transitivity (x ∈ own gs (db_entries (gs_db gs))).
  { unfold own. rewrite list_elem_of_filter. naive_solver. }
  rewrite (go_sync _ _ Hok). unfold all_entries. rewrite list_elem_of_bind. split.
  - intros (r & Hx & ([k r'] & -> & Hk%elem_of_map_to_list)%list_elem_of_fmap). by exists k, r'.
  - intros (k & r & Hk & Hx). exists r. split; [done|]. apply list_elem_of_fmap. exists (k, r).
    by rewrite elem_of_map_to_list.
Qed.

Lemma unique_keys_spec seen l : NoDup (unique_keys seen l) ∧
  ∀ k, k ∈ unique_keys seen l ↔ k ∉ seen ∧ ∃ x, x ∈ l ∧ rim_ResourceKey x = k.
Proof.
  revert seen. induction l as [|x l IH]; intros seen; simpl.
  { split; [constructor|]. intros k. rewrite elem_of_nil. naive_solver set_solver. }
  case_decide as Hx.
  - destruct (IH seen) as [Hn Hk]. split; [done|]. intros k. rewrite Hk. setoid_rewrite elem_of_cons. naive_solver.
  - destruct (IH ({[rim_ResourceKey x]} ∪ seen)) as [Hn Hk]. split.
    + apply NoDup_cons. split; [|done]. rewrite Hk. set_solver.
    + intros k. rewrite elem_of_cons, Hk. setoid_rewrite elem_of_cons.
      destruct (decide (k = rim_ResourceKey x)) as [->|]; [naive_solver|]. set_solver.
Qed.

(** The keys of the entries of an index whose value satisfies [p]. *)
Lemma index_keys_spec (gs : store) n (p : string → bool) :
  gorm_ok gs → db_up (gs_db gs) →
  ∃ l, db_FindEntries (gs_db gs) (λ x, of_index gs n x && p (rim_IndexValue x)) = Ok l ∧
    ∀ k, (∃ x, x ∈ l ∧ rim_ResourceKey x = k) ↔
      ∃ r f v, gs_items gs !! k = Some r ∧ gs_indexers gs !! n = Some f ∧
        index_has f v (ResourceObj r) = true ∧ p v = true.
Proof.
  intros Hok Hd. set (q := λ x, of_index gs n x && p (rim_IndexValue x)).
  pose proof (db_up_FindEntries (gs_db gs) q Hd) as Hu. destruct (db_FindEntries _ q) as [l|] eqn:Hl; [|done].
  apply db_FindEntries_spec in Hl. exists l. split; [done|]. intros k.
  assert (Hx : ∀ x, x ∈ l ↔ (x ∈ db_entries (gs_db gs) ∧ of_kind gs x = true) ∧
    rim_IndexName x = n ∧ p (rim_IndexValue x) = true).
  { intros x. rewrite Hl, list_elem_of_filter. unfold q, of_index. rewrite !andb_true_iff, bool_decide_eq_true.
    naive_solver. }
  split.
  - intros (x & Hxl & <-). apply Hx in Hxl as [Hin [Hn Hp]]. apply elem_of_entries in Hin as (k & r & Hk & Hr); [|done].
    apply elem_of_indexEntries in Hr as (n' & f & v & Hf & Hv & ->). simpl in *. subst n'.
    exists r, f, v. destruct (items_Some _ gs k r Hok Hk) as [-> _]. done.
  - intros (r & f & v & Hk & Hf & Hv & Hp). eexists. split.
    + apply Hx. split; [apply elem_of_entries; [done|]|].
      * exists k, r. split; [done|]. apply elem_of_indexEntries. by exists n, f, v.
      * done.
    + simpl. by destruct (items_Some _ gs k r Hok Hk) as [-> _].
Qed.

(** A row of the table and the resource it stores. *)
Lemma stored_row (gs : store) k m : gorm_ok gs → gs_rows gs !! k = Some m →
  ∃ r, ToResource m = Ok r ∧ ResourceKey r = k ∧ rm_ResourceKey m = k ∧ gs_items gs !! k = Some r.
Proof.
  intros Hok Hk. destruct (row_ok_decoded _ _ _ _ (go_rows _ _ Hok _ _ Hk)) as (r & Hr & Hdec & Hkr & _).
  exists r. split_and!; [done|done|by apply (db_rows_keyed _ _ _ _ Hk)|].
  unfold GormWrites.gs_items. by rewrite lookup_omap, Hk.
Qed.

Lemma decode_rows (gs : store) (l : list (string * ResourceModel)) : gorm_ok gs →
  (∀ p, p ∈ l → gs_rows gs !! p.1 = Some p.2) →
  ∃ rs, result_mapM ToResource l.*2 = Ok rs ∧ ResourceKey <$> rs = l.*1 ∧
    Forall (λ r, gs_items gs !! ResourceKey r = Some r) rs.
Proof.
  intros Hok. induction l as [|[k m] l IH]; intros Hin; [by exists []|]. csimpl.
  destruct (stored_row gs k m Hok) as (r & -> & Hk & _ & Hi); [apply (Hin (k, m)); by left|]. cbn [mbind result_bind].
  destruct IH as (rs & -> & Hrs & Hall); [intros p Hp; apply Hin; by right|]. exists (r :: rs). csimpl.
  split_and!; [done|by rewrite Hk, Hrs|]. constructor; [by rewrite Hk|done].
Qed.

Lemma result_mapM_perm {E A B} (f : A → result E B) l l' rs :
  l ≡ₚ l' → result_mapM f l' = Ok rs → ∃ rs', result_mapM f l = Ok rs' ∧ rs' ≡ₚ rs.
Proof.
  intros Hp Hf%result_mapM_Ok. symmetry in Hp.
  destruct (Permutation_Forall2 Hp Hf) as (rs' & Hp' & Hf'). exists rs'.
  split; [by apply result_mapM_Ok|by symmetry].
Qed.

(** The resources of a list of keys, in the order of the database. *)
Lemma gorm_GetByKeys_spec (gs : store) ks : gorm_ok gs → db_up (gs_db gs) →
  ∃ l, GetByKeys json_Unmarshal gs ks = Ok l ∧ NoDup (ResourceKey <$> l) ∧
    ∀ r, r ∈ l ↔ ResourceKey r ∈ ks ∧ gs_items gs !! ResourceKey r = Some r.
Proof.
  intros Hok Hd. destruct ks as [|k0 ks].
  { exists []. split_and!; [done|constructor|]. intros r. set_solver. }
  set (all := k0 :: ks). set (p := λ m : ResourceModel, bool_decide (rm_ResourceKey m ∈ all)).
  change (GetByKeys json_Unmarshal gs all) with
    (db_Find (gs_db gs) (table gs) p ≫= λ models, result_mapM ToResource models).
  pose proof (db_up_Find (gs_db gs) (table gs) p Hd) as Hu.
  destruct (db_Find _ _ p) as [ms|] eqn:Hl; [|done]. apply db_Find_spec in Hl. cbn [mbind result_bind].
  set (sel := matching p (gs_rows gs)).
  assert (Hsel : ∀ q, q ∈ map_to_list sel ↔ gs_rows gs !! q.1 = Some q.2 ∧ q.1 ∈ all).
  { intros [k m]. unfold sel. rewrite elem_of_map_to_list, lookup_matching. unfold p. simpl.
    rewrite bool_decide_eq_true. split; intros [Hk Hm]; (split; [done|]);
      pose proof (db_rows_keyed _ _ _ _ Hk); congruence. }
  destruct (decode_rows gs (map_to_list sel) Hok) as (rs0 & Hm0 & Hk0 & Hall0); [by intros q [? _]%Hsel|].
  destruct (result_mapM_perm ToResource ms _ rs0 Hl Hm0) as (rs & -> & Hp). exists rs. split; [done|].
  assert (Hin : ∀ r, r ∈ rs0 → gs_items gs !! ResourceKey r = Some r) by by apply Forall_forall.
  split; [rewrite Hp, Hk0; apply NoDup_fst_map_to_list|]. intros r. rewrite Hp. split.
  - intros Hr. split; [|by apply Hin]. assert (Hk : ResourceKey r ∈ ResourceKey <$> rs0) by by apply list_elem_of_fmap_2.
    rewrite Hk0 in Hk. by apply list_elem_of_fmap in Hk as (q & -> & [_ ?]%Hsel).
  - intros [Hka Hi]. destruct (items_Some _ gs _ r Hok Hi) as (_ & _ & m & Hm & _).
    assert (Hk : ResourceKey r ∈ ResourceKey <$> rs0).
    { rewrite Hk0. apply list_elem_of_fmap. exists (ResourceKey r, m). split; [done|]. by apply Hsel. }
    apply list_elem_of_fmap in Hk as (r2 & Hk & Hr2). pose proof (Hin _ Hr2) as Hi2. rewrite <-Hk in Hi2. congruence.
Qed.

(** ** Index queries *)

Lemma findByIndex_spec (gs : store) n f v : gorm_ok gs → db_up (gs_db gs) →
  gs_indexers gs !! n = Some f →
  ∃ l, findByIndex json_Unmarshal gs n v = Ok l ∧ NoDup (ResourceKey <$> l) ∧
    ∀ r, r ∈ l ↔ gs_items gs !! ResourceKey r = Some r ∧ index_has f v (ResourceObj r) = true.
Proof.
  intros Hok Hd Hf. unfold findByIndex, IndexExists. rewrite Hf. rewrite bool_decide_true by done.
  destruct (index_keys_spec gs n (λ w, bool_decide (w = v)) Hok Hd) as (es & -> & Hes). cbn [mbind result_bind].
  assert (Hks : ∀ k, k ∈ unique_keys ∅ es ↔ ∃ r, gs_items gs !! k = Some r ∧ index_has f v (ResourceObj r) = true).
  { intros k. destruct (unique_keys_spec ∅ es) as [_ ->]. rewrite Hes. setoid_rewrite bool_decide_eq_true.
    split; [|naive_solver set_solver]. intros [_ (r & f' & w & Hi & Hf' & Hv & ->)].
    rewrite Hf in Hf'. injection Hf' as <-. by exists r. }
  destruct (gorm_GetByKeys_spec gs (unique_keys ∅ es) Hok Hd) as (l & Hl & Hn & Hin).
  assert (Hc : match es with [] => Ok [] | _ :: _ => GetByKeys json_Unmarshal gs (unique_keys ∅ es) end = Ok l).
  { destruct es; [|done]. simpl in Hl. by injection Hl as <-. }
  exists l. split; [exact Hc|]. split; [done|]. intros r. rewrite Hin, Hks. split.
  - intros [(r' & Hr' & Hv) Hi]. rewrite Hi in Hr'. injection Hr' as <-. done.
  - intros [Hi Hv]. split; [by exists r|done].
Qed.

(** The store can answer [c]: the index exists, the operator is supported, and
    a prefix has no character that [LIKE] interprets. *)
Definition db_cond_valid (idx : Indexers) (c : IndexCondition) : Prop :=
  is_Some (idx !! ic_IndexName c) ∧
  match ic_Operator c with
  | Equals => True
  | HasPrefix => no_wildcard (ic_Value c) = true
  | OtherOperator _ => False
  end.

Lemma gorm_condition_keys_spec (gs : store) c : gorm_ok gs → db_up (gs_db gs) →
  db_cond_valid (gs_indexers gs) c →
  ∃ ks, condition_keys json_Unmarshal gs c = Ok ks ∧
    ∀ k, k ∈ ks ↔ ∃ r, gs_items gs !! k = Some r ∧ cond_holds (gs_indexers gs) c r.
Proof.
  intros Hok Hd [[f Hf] Hop]. unfold condition_keys, cond_holds. destruct (ic_Operator c); [| |done].
  - unfold IndexKeys, IndexExists. rewrite Hf, bool_decide_true by done.
    destruct (findByIndex_spec gs _ f (ic_Value c) Hok Hd Hf) as (l & -> & _ & Hin). eexists. split; [done|].
    intros k. rewrite list_elem_of_fmap. setoid_rewrite Hin. split.
    + intros (r & -> & Hi & Hv). exists r. split; [done|]. by exists f.
    + intros (r & Hi & f' & Hf' & Hv). simplify_eq.
      destruct (items_Some _ gs k r Hok Hi) as [<- _]. by exists r.
  - unfold getKeysByPrefixFromDB.
    destruct (index_keys_spec gs (ic_IndexName c) (λ w, db_LIKE w (ic_Value c +:+ "%")) Hok Hd) as (es & -> & Hes).
    cbn [mbind result_bind]. eexists. split; [done|]. intros k.
    destruct (unique_keys_spec ∅ es) as [_ ->]. rewrite Hes. split.
    + intros [_ (r & f' & w & Hi & Hf' & Hv & Hl)]. rewrite Hf in Hf'. injection Hf' as <-.
      exists r. split; [done|]. exists f. split; [done|]. exists w. split; [done|].
      by rewrite db_LIKE_prefix in Hl.
    + intros (r & Hi & f' & Hf' & w & Hv & Hp). split; [set_solver|]. exists r, f', w.
      split_and!; [done..|]. by rewrite db_LIKE_prefix.
Qed.

Lemma lookup_key_set ks k : key_set ks !! k = if decide (k ∈ ks) then Some () else None.
Proof.
  unfold key_set. case_decide as Hk.
  - induction ks as [|k' ks IH]; [by apply elem_of_nil in Hk|]. csimpl.
    destruct (decide (k' = k)) as [->|Hne]; [by rewrite lookup_insert_eq|].
    rewrite lookup_insert_ne by done. apply IH. set_solver.
  - apply not_elem_of_list_to_map_1. by rewrite <-list_fmap_compose, list_fmap_id.
Qed.

Lemma is_Some_key_set ks k : is_Some (key_set ks !! k) ↔ k ∈ ks.
Proof. rewrite lookup_key_set. case_decide; split; try done; by intros []. Qed.

Lemma gorm_intersect_spec (gs : store) set cs : gorm_ok gs → db_up (gs_db gs) →
  Forall (db_cond_valid (gs_indexers gs)) cs →
  ∃ set', intersect_conditions json_Unmarshal gs set cs = Ok set' ∧
    ∀ k, is_Some (set' !! k) ↔ is_Some (set !! k) ∧
      ∀ c, c ∈ cs → ∃ r, gs_items gs !! k = Some r ∧ cond_holds (gs_indexers gs) c r.
Proof.
  intros Hok Hd Hcs. revert set. induction Hcs as [|c cs Hc Hcs IH]; intros set; simpl.
  { exists set. split; [done|]. set_solver. }
  destruct (gorm_condition_keys_spec gs c Hok Hd Hc) as (kc & -> & Hkc). cbn [mbind result_bind].
  destruct (IH (key_set (filter (λ k, is_Some (set !! k)) kc))) as (set' & -> & Hs). exists set'. split; [done|].
  intros k. rewrite Hs, is_Some_key_set, list_elem_of_filter, Hkc. setoid_rewrite elem_of_cons. naive_solver.
Qed.

(** The keys of a query. *)
Lemma gorm_getKeys_spec (gs : store) cs : gorm_ok gs → db_up (gs_db gs) →
  Forall (db_cond_valid (gs_indexers gs)) cs → cs ≠ [] →
  ∃ ks, getKeysByIndexes json_Unmarshal gs cs = Ok ks ∧ NoDup ks ∧
    ∀ k, k ∈ ks ↔ ∃ r, gs_items gs !! k = Some r ∧ Forall (λ c, cond_holds (gs_indexers gs) c r) cs.
Proof.
  intros Hok Hd Hcs Hne. destruct Hcs as [|c cs Hc Hcs]; [done|]. unfold getKeysByIndexes.
  destruct (gorm_condition_keys_spec gs c Hok Hd Hc) as (kc & -> & Hkc). cbn [mbind result_bind].
  destruct (gorm_intersect_spec gs (key_set kc) cs Hok Hd Hcs) as (set & -> & Hs). cbn [mbind result_bind].
  eexists. split; [done|]. split; [apply NoDup_go_range_fst|]. intros k. transitivity (is_Some (set !! k)).
  { rewrite list_elem_of_fmap. split.
    - intros ([k' u] & -> & Hu%elem_of_go_range). by exists u.
    - intros [u Hu]. exists (k, u). by rewrite elem_of_go_range. }
  rewrite Hs, is_Some_key_set, Hkc. split.
  - intros [(r & Hr & Hrc) Hall]. exists r. split; [done|]. constructor; [done|].
    apply Forall_forall. intros c' Hc'. destruct (Hall _ Hc') as (r' & Hr' & ?). by rewrite Hr in Hr'; simplify_eq.
  - intros (r & Hr & [? Hall]%Forall_cons). split; [by exists r|]. intros c' Hc'. exists r. split; [done|].
    rewrite Forall_forall in Hall. by apply Hall.
Qed.

#[export] Instance key_le_total : Total key_le.
Proof. intros a b. unfold key_le. apply (total String.le). Qed.
#[export] Instance key_le_trans : Transitive key_le.
Proof. intros a b c. unfold key_le. apply transitivity. Qed.

Lemma sort_resources_keys l : ResourceKey <$> sort_resources l = sort_strings (ResourceKey <$> l).
Proof.
  unfold sort_resources. apply (StronglySorted_unique String.le).
  - apply fmap_sorted. apply (StronglySorted_merge_sort key_le).
  - apply sort_strings_sorted.
  - by rewrite merge_sort_Permutation, sort_strings_perm.
Qed.

Lemma stored_omap (m : gmap string Resource) l :
  Forall (λ r, m !! ResourceKey r = Some r) l → omap (λ k, m !! k) (ResourceKey <$> l) = l.
Proof. induction 1 as [|r l Hr Hl IH]; [done|]. csimpl. by rewrite Hr, IH. Qed.

(** Resources that are stored under their keys are determined by the keys. *)
Lemma stored_ext (m : gmap string Resource) l l' :
  Forall (λ r, m !! ResourceKey r = Some r) l → Forall (λ r, m !! ResourceKey r = Some r) l' →
  ResourceKey <$> l = ResourceKey <$> l' → l = l'.
Proof. intros Hl Hl' He. rewrite <-(stored_omap m l), <-(stored_omap m l') by done. by rewrite He. Qed.

Lemma stored_perm (m : gmap string Resource) l l' :
  Forall (λ r, m !! ResourceKey r = Some r) l → Forall (λ r, m !! ResourceKey r = Some r) l' →
  ResourceKey <$> l ≡ₚ ResourceKey <$> l' → l ≡ₚ l'.
Proof. intros Hl Hl' Hp. rewrite <-(stored_omap m l), <-(stored_omap m l') by done. by rewrite Hp. Qed.

(** The stored resources with keys out of [ks], [ks] being keys of stored ones. *)
Lemma gorm_stored_keys (gs : store) ks : gorm_ok gs → db_up (gs_db gs) → NoDup ks →
  Forall (λ k, is_Some (gs_items gs !! k)) ks →
  ∃ l, GetByKeys json_Unmarshal gs ks = Ok l ∧ ResourceKey <$> l ≡ₚ ks ∧
    Forall (λ r, gs_items gs !! ResourceKey r = Some r) l.
Proof.
  intros Hok Hd Hn Hall. destruct (gorm_GetByKeys_spec gs ks Hok Hd) as (l & Hl & Hnl & Hin).
  exists l. split; [done|]. split; [|apply Forall_forall; intros r Hr; by apply Hin in Hr as [_ ?]].
  apply NoDup_Permutation; [done|done|]. intros k. rewrite list_elem_of_fmap. split.
  - by intros (r & -> & [? _]%Hin).
  - intros Hk. rewrite Forall_forall in Hall. destruct (Hall k Hk) as [r Hr].
    destruct (items_Some _ gs k r Hok Hr) as [Hkr _]. exists r. split; [done|]. apply Hin. by rewrite Hkr.
Qed.

Lemma gorm_ListByIndexes_spec (gs : store) cs : gorm_ok gs → db_up (gs_db gs) →
  Forall (db_cond_valid (gs_indexers gs)) cs →
  ∃ ks l, getKeysByIndexes json_Unmarshal gs cs = Ok ks ∧ NoDup ks ∧
    ListByIndexes json_Unmarshal gs cs = Ok l ∧ ResourceKey <$> l = sort_strings ks ∧
    Forall (λ r, gs_items gs !! ResourceKey r = Some r) l ∧
    (cs ≠ [] → ∀ k, k ∈ ks ↔ ∃ r, gs_items gs !! k = Some r ∧
      Forall (λ c, cond_holds (gs_indexers gs) c r) cs).
Proof.
  intros Hok Hd Hcs. destruct (decide (cs = [])) as [->|Hne].
  { exists [], []. split_and!; try done. constructor. }
  destruct (gorm_getKeys_spec gs cs Hok Hd Hcs Hne) as (ks & Hks & Hn & Hin).
  destruct (gorm_stored_keys gs ks Hok Hd Hn) as (l & Hl & Hkl & Hall).
  { apply Forall_forall. intros k (r & ? & _)%Hin. by eexists. }
  exists ks, (sort_resources l). unfold ListByIndexes. rewrite Hks. cbn [mbind result_bind]. rewrite Hl.
  cbn [mbind result_bind]. split_and!; [done|done|done| | |done].
  - rewrite sort_resources_keys. by apply sort_strings_perm_eq.
  - unfold sort_resources. by rewrite merge_sort_Permutation.
Qed.

(** ** Pages *)

(** a page of the database store holds the resources that the query's
    sorted list has at its positions (in the database's order), and the size of
    that list; a page behind the end is empty. Taking a page panics exactly
    when it starts before the end and its offset or its size is negative, or
    their sum exceeds [int]. *)
Theorem gorm_page_cuts_list (gs : store) cs pq l : gorm_ok gs → db_up (gs_db gs) →
  Forall (db_cond_valid (gs_indexers gs)) cs → in_i64 (PageOffset pq) → in_i64 (PageSize pq) →
  Z.of_nat (length l) <= i64_max → ListByIndexes json_Unmarshal gs cs = Ok l →
  let total := Z.of_nat (length l) in
  if decide (PageOffset pq < total ∧
       (PageOffset pq < 0 ∨ PageSize pq < 0 ∨ i64_max < PageOffset pq + PageSize pq))
  then PageListByIndexes json_Unmarshal gs cs pq = None
  else ∃ data, PageListByIndexes json_Unmarshal gs cs pq =
      Some (Ok {| pd_Total := total; pd_PageOffset := PageOffset pq; pd_PageSize := PageSize pq;
                  pd_Data := data |}) ∧
    data ≡ₚ take (Z.to_nat (PageSize pq)) (drop (Z.to_nat (PageOffset pq)) l).
Proof.
  intros Hok Hd Hcs Ho Hz Hmax Hl.
  destruct (gorm_ListByIndexes_spec gs cs Hok Hd Hcs) as (ks & l' & Hks & Hn & Hl' & Hkl & Hall & _).
  rewrite Hl in Hl'. apply (inj Ok) in Hl' as <-. intros total.
  assert (Hlen : Z.of_nat (length (sort_strings ks)) = total).
  { rewrite <-Hkl. unfold total. by rewrite length_fmap. }
  unfold PageListByIndexes. rewrite Hks, Hlen. set (o := PageOffset pq) in *. set (z := PageSize pq) in *.
  destruct (decide (total <= o)) as [Hge|Hlt].
  { rewrite decide_False by lia. exists []. split; [done|]. rewrite drop_ge by (unfold total in *; lia).
    by rewrite take_nil. }
  unfold in_i64, i64_min in *.
  destruct (decide (o + z <= i64_max ∧ 0 <= o ∧ 0 <= z)) as [Hin|Hout].
  - rewrite decide_False by lia. rewrite i64_id by (unfold in_i64, i64_min; lia).
    set (hi := if decide (total < o + z) then total else o + z).
    assert (Hhi : hi = Z.min total (o + z)) by (unfold hi; case_decide; lia).
    unfold go_slice. rewrite decide_True by (rewrite Hlen; lia). cbn [mbind option_bind].
    set (pk := take (Z.to_nat (hi - o)) (drop (Z.to_nat o) (sort_strings ks))).
    assert (Hpk : pk = ResourceKey <$> take (Z.to_nat z) (drop (Z.to_nat o) l)).
    { unfold pk. rewrite <-Hkl, <-fmap_drop, <-fmap_take. f_equal. rewrite Hhi.
      destruct (decide (o + z <= total)); [f_equal; lia|].
      rewrite !take_ge; [done|rewrite length_drop; lia|rewrite length_drop; lia]. }
    assert (Hsub : Forall (λ r, gs_items gs !! ResourceKey r = Some r)
      (take (Z.to_nat z) (drop (Z.to_nat o) l))) by by apply Forall_take, Forall_drop.
    destruct (gorm_stored_keys gs pk Hok Hd) as (data & -> & Hkd & Hdata).
    + eapply sublist_NoDup; [rewrite <-(sort_strings_perm ks) in Hn; exact Hn|].
      unfold pk. etransitivity; [apply sublist_take|apply sublist_drop].
    + rewrite Hpk. apply Forall_fmap. eapply Forall_impl; [exact Hsub|]. intros r Hr. exists r. exact Hr.
    + cbn [mbind result_bind]. exists data. split; [done|]. rewrite Hpk in Hkd.
      by eapply stored_perm.
  - rewrite decide_True by lia. unfold go_slice. rewrite decide_False; [done|]. rewrite Hlen.
    destruct (decide (i64_max < o + z)) as [Hi|Hi].
    + pose proof (i64_overflow (o + z)) as Hneg. unfold i64_max in *. case_decide; lia.
    + destruct (decide (o < 0)); [lia|].
      rewrite i64_id by (unfold in_i64, i64_min, i64_max in *; lia). case_decide; lia.
Qed.
End queries.

(** ** Initialization *)
Section init.
Context {D : Type} `{Database D ResourceModel ResourceIndexModel, !DatabaseLaws rm_ResourceKey D, MapRange}.
Context (json_Unmarshal : ResourceKind → string → result error Resource).
Abbreviation store := (GormStore D).

Lemma add_indexers_fresh (m : Indexers) l : NoDup l.*1 → Forall (λ p, m !! p.1 = None) l →
  add_indexers m l = (list_to_map l ∪ m, None).
Proof.
  revert m. induction l as [|[n f] l IH]; intros m Hn Hm; csimpl.
  - by rewrite (left_id_L ∅ (∪)).
  - apply NoDup_cons in Hn as [Hn Hl]. apply Forall_cons in Hm as [Hf Hm]. simpl in Hf. rewrite Hf.
    rewrite IH; [|done|].
    + rewrite <-insert_union_l, insert_union_r; [done|]. by apply not_elem_of_list_to_map_1.
    + apply Forall_forall. intros [n' f'] Hin. rewrite Forall_forall in Hm. specialize (Hm _ Hin). simpl in *.
      rewrite lookup_insert_ne; [done|]. intros ->. apply Hn. apply list_elem_of_fmap. by exists (n', f').
Qed.

Lemma map_to_list_omap_snd {A B} (f : A → option B) (m : gmap string A) :
  (map_to_list (omap f m)).*2 ≡ₚ omap f (map_to_list m).*2.
Proof.
  induction m as [|k x m Hk IH] using map_ind; [by rewrite omap_empty, !map_to_list_empty|].
  rewrite (map_to_list_insert m) by done. csimpl. destruct (f x) as [y|] eqn:Hf.
  - rewrite (omap_insert_Some _ _ _ _ y) by done. rewrite map_to_list_insert; [csimpl; by rewrite IH|].
    by rewrite lookup_omap, Hk.
  - rewrite omap_insert_None by done. rewrite delete_id; [done|]. by rewrite lookup_omap, Hk.
Qed.

Lemma backfill_tx_ok (gs : store) ms : db_up (gs_db gs) →
  map_Forall (row_ok json_Unmarshal (gs_kind gs)) (gs_rows gs) → ms ≡ₚ (map_to_list (gs_rows gs)).*2 →
  ∃ d', backfill_tx json_Unmarshal gs ms (gs_db gs) = (d', None) ∧ db_up d' ∧
    gorm_ok json_Unmarshal (with_db gs d') ∧ gs_rows (with_db gs d') = gs_rows gs ∧
    others_same gs (gs_db gs) d'.
Proof.
  intros Hd Hrows Hms. unfold backfill_tx.
  destruct (db_up_DeleteEntries (gs_db gs) (of_kind gs) Hd) as [Hu1 He1].
  destruct (db_DeleteEntries _ _) as [d1 e] eqn:Ee. simpl in Hu1, He1. subst e.
  apply db_DeleteEntries_spec in Ee as [Hr1 Hx1]. simpl.
  destruct (createEntries_up d1 (omap (decoded json_Unmarshal) ms ≫= indexEntries gs) Hu1) as (d2 & He2 & Hu2).
  exists d2. split; [exact He2|]. split; [done|]. apply createEntries_spec in He2 as [Hr2 Hx2].
  assert (Heff : tx_effect gs (gs_db gs) d2 (gs_rows gs) (omap (decoded json_Unmarshal) ms ≫= indexEntries gs)).
  { split; [by rewrite Hr2, Hr1| |split].
    - rewrite Hx2. unfold own at 1. rewrite filter_app. fold (own gs (db_entries d1)).
      fold (own gs (omap (decoded json_Unmarshal) ms ≫= indexEntries gs)). by rewrite Hx1, own_cleared, own_bind.
    - intros t _. by rewrite Hr2, Hr1.
    - rewrite Hx2. unfold foreign at 1. rewrite filter_app. fold (foreign gs (db_entries d1)).
      fold (foreign gs (omap (decoded json_Unmarshal) ms ≫= indexEntries gs)).
      rewrite Hx1, foreign_bind, app_nil_r. unfold foreign. by rewrite list_filter_filter_l. }
  assert (Hent : omap (decoded json_Unmarshal) ms ≫= indexEntries gs ≡ₚ
    all_entries gs (omap (decoded json_Unmarshal) (gs_rows gs))).
  { unfold all_entries. by rewrite map_to_list_omap_snd, Hms. }
  destruct (tx_gorm_ok json_Unmarshal gs _ _ _ _ Heff Hrows Hent) as [Hok _].
  split; [done|]. split; [apply Heff|apply Heff].
Qed.

(** starting the database store of a kind on an existing database gives it
    exactly the registered indexers and rebuilds the index entries of the kind
    from its rows, which stay as they are, like the rest of the database; for
    a kind without rows, entries are left as they are and must not be there. *)
Theorem Init_rebuilds kind (d : D) idx :
  let gs := NewGormStore kind d in
  db_up d → map_Forall (row_ok json_Unmarshal kind) (gs_rows gs) →
  (gs_rows gs = ∅ → own gs (db_entries d) = []) →
  ∃ gs', Init json_Unmarshal gs idx = (gs', None) ∧ gorm_ok json_Unmarshal gs' ∧ db_up (gs_db gs') ∧
    gs_kind gs' = kind ∧ gs_indexers gs' = idx ∧ gs_rows gs' = gs_rows gs ∧
    others_same gs d (gs_db gs').
Proof.
  intros gs Hd Hrows Hempty. unfold Init. change (gs_db gs) with d.
  destruct (db_up_migrate d (table gs) Hd) as [Hu1 He1].
  pose proof (db_AutoMigrate_spec d (table gs)) as [Hr1 Hx1].
  destruct (db_AutoMigrate d (table gs)) as [d1 e1]. simpl in Hu1, He1, Hr1, Hx1. subst e1.
  destruct (db_up_migrate_entries d1 Hu1) as [Hu2 He2].
  pose proof (db_AutoMigrateEntries_spec d1) as [Hr2 Hx2].
  cbn [wrapping and_then fst snd option_fmap option_map fmap].
  destruct (db_AutoMigrateEntries d1) as [d2 e2]. simpl in Hu2, He2, Hr2, Hx2. subst e2.
  cbn [wrapping fst snd option_fmap option_map fmap]. unfold AddIndexers.
  change (gs_indexers (with_db gs d2)) with (∅ : Indexers).
  rewrite add_indexers_fresh; [|apply NoDup_go_range_fst|apply Forall_forall; intros p _; apply lookup_empty].
  rewrite list_to_map_go_range, (right_id_L ∅ (∪)). cbn [gs_kind gs_db with_db].
  set (gs2 := {| gs_kind := gs_kind gs; gs_indexers := idx; gs_db := d2 |}).
  assert (Hrows2 : gs_rows gs2 = gs_rows gs).
  { unfold gs_rows. simpl. by rewrite Hr2, Hr1. }
  assert (Hos2 : others_same gs d d2).
  { split; [intros t _; by rewrite Hr2, Hr1|by rewrite Hx2, Hx1]. }
  unfold backfillIndices.
  pose proof (db_up_Find (gs_db gs2) (table gs2) (λ _, true) Hu2) as Hf.
  destruct (db_Find _ _ _) as [ms|] eqn:Hms; [|done]. apply db_Find_spec in Hms. fold (gs_rows gs2) in Hms.
  assert (Hall : matching (λ _, true) (gs_rows gs2) = gs_rows gs2).
  { unfold matching. by apply map_filter_id. }
  rewrite Hall in Hms.
  assert (Hcase : gs_rows gs2 = ∅ ∧ ms = [] ∨ ∃ m ms', ms = m :: ms').
  { destruct ms as [|m ms]; [left|right; by eexists _, _]. split; [|done].
    symmetry in Hms. by apply Permutation_nil_r, fmap_nil_inv, map_to_list_empty_iff in Hms. }
  destruct Hcase as [[Hr0 ->]|(m & ms' & ->)].
  - exists gs2. split; [done|]. split; [|split_and!; done]. split; [by rewrite Hr0|]. unfold gs_items. rewrite Hr0, omap_empty.
    change (own gs2 (db_entries (gs_db gs2))) with (own gs (db_entries d2)).
    rewrite Hx2, Hx1, Hempty by congruence. done.
  - destruct (backfill_tx_ok gs2 (m :: ms') Hu2) as (d3 & Hb & Hu3 & Hok3 & Hr3 & Hos3);
      [by rewrite Hrows2|done|].
    destruct (InTransaction_up (gs_db gs2) _ d3 Hu2 Hb Hu3) as (d4 & Hin & Hu4 & Hv4).
    rewrite Hin. eexists. split; [done|].
    destruct (gorm_ok_view json_Unmarshal (with_db gs2 d3) d4 Hok3 Hv4) as [Hok4 _].
    split; [exact Hok4|]. split_and!; [done|done|done| |].
    + rewrite <-Hrows2, <-Hr3. apply Hv4.
    + eapply store_others_trans; [exact Hos2|]. eapply (others_same_view gs d2 d3); [|exact Hv4].
      by destruct Hos3.
Qed.
End init.

(** ** The two stores *)
Section agreement.
Context {D : Type} `{Database D ResourceModel ResourceIndexModel, !DatabaseLaws rm_ResourceKey D, MapRange}.
Context (json_Unmarshal : ResourceKind → string → result error Resource).
Context {I T S : Type} `{Indexer I, !IndexerLaws I, Radix T, !RadixLaws T,
  LancetSet S, !LancetSetLaws S, LancetSort, !LancetSortLaws}.

(** C38: an in-memory store and a database store with the same resources and
    indexers answer an index query, by equality or by prefix and with any number
    of conditions, with the same list. The in-memory store was reached by a
    client whose writes were of resources without a separator in the values of
    the indexers the query asks for a prefix of; the prefixes hold no separator
    (which the memory store splits at) and no wildcard of LIKE (which the
    database store does not escape); and the database answers and compares texts
    byte by byte, LIKE included, as PostgreSQL does and MySQL only under a
    binary collation. *)
Theorem stores_agree rk idx (rs : resourceStore I T) (gs : GormStore D) cs :
  idx_safe rk idx → reachable (prefixed_by cs) rk idx rs → gorm_ok json_Unmarshal gs → db_up (gs_db gs) →
  mem_items rs = gs_items json_Unmarshal gs → proxy_indexers rs = gs_indexers gs →
  Forall (cond_valid (proxy_indexers rs)) cs → Forall (db_cond_valid (gs_indexers gs)) cs →
  ∃ l, MemoryStore.ListByIndexes rs cs = Ok l ∧ ListByIndexes json_Unmarshal gs cs = Ok l.
Proof.
  intros Hi Hr Hok Hd Hit Hidx Hc Hdc. pose proof (reachable_sync _ _ _ _ Hi Hr) as Hs.
  destruct (gorm_ListByIndexes_spec json_Unmarshal gs cs Hok Hd Hdc)
    as (ks & l & Hks & Hn & Hl & Hkl & Hall & Hin).
  destruct (decide (cs = [])) as [->|Hne].
  { exists []. split; [|done]. unfold MemoryStore.ListByIndexes. simpl. f_equal.
    apply Permutation_nil_r, slice_SortBy_perm. }
  destruct (getKeysByIndexes_spec _ rs cs (sy_ok _ _ Hs) (or_intror (conj Hs (covered_prefixed cs))) Hc Hne) as (mks & Hmks & Hmn & Hmin).
  destruct (ListByIndexes_keys rs mks cs (sy_ok _ _ Hs) Hmks) as (ml & Hml & Hmkl & Hmall).
  { apply Forall_forall. intros k (r & ? & _)%Hmin. by eexists. }
  exists ml. split; [done|]. rewrite Hl. f_equal. symmetry. apply (stored_ext (mem_items rs)); [done| |].
  - by rewrite Hit.
  - rewrite Hmkl, Hkl. apply sort_strings_perm_eq, NoDup_Permutation; [done|done|]. intros k.
    by rewrite Hmin, Hin, Hit, Hidx.
Qed.
End agreement.

(** ** At concrete databases *)
Module GormQueriesExample.
#[local] Existing Instance default_range.
#[local] Existing Instance Ref.indexer_ops.
#[local] Existing Instance Ref.indexer_laws.
#[local] Existing Instance Ref.radix_ops.
#[local] Existing Instance Ref.radix_laws.
#[local] Existing Instance Ref.lset_ops.
#[local] Existing Instance Ref.lset_laws.
#[local] Existing Instance Ref.lsort_ops.
#[local] Existing Instance Ref.lsort_laws.
#[local] Existing Instance GormExample.db_ops.
#[local] Existing Instance GormExample.db_laws.
Import GormExample.

Definition in_mesh : list IndexCondition :=
  [{| ic_IndexName := "mesh"; ic_Value := "m"; ic_Operator := HasPrefix |}].
Lemma in_mesh_valid : Forall (db_cond_valid (gs_indexers one)) in_mesh.
Proof. repeat constructor. by eexists. Qed.

(** The page [1, 1 + 2^63 - 1) of two resources. *)
Definition two : GormStore DB :=
  (perform marshal unmarshal id one (WAdd (route None "m/spare") (route None "m/spare"))).1.
Definition row (name : string) : ResourceModel :=
  {| rm_ResourceKey := "m/" +:+ name; rm_ResourceKind := "ConditionRoute"; rm_Name := name; rm_Mesh := "m";
     rm_Data := "m/" +:+ name |}.
Lemma two_gorm_ok : gorm_ok unmarshal two.
Proof.
  split.
  - assert (gs_rows two = {["m/shop" := row "shop"; "m/spare" := row "spare"]}) as -> by (vm_compute; reflexivity).
    apply map_Forall_insert_2; [split; [done|by exists (route None "m/shop")]|].
    apply map_Forall_singleton. split; [done|by exists (route None "m/spare")].
  - apply reflexive_eq. vm_compute. reflexivity.
Qed.

Lemma gorm_page_cuts_list_witness :
  PageListByIndexes unmarshal two in_mesh {| PageOffset := 1; PageSize := i64_max |} = None ∧
  ∃ data, PageListByIndexes unmarshal two in_mesh {| PageOffset := 1; PageSize := 5 |} =
      Some (Ok {| pd_Total := 2; pd_PageOffset := 1; pd_PageSize := 5; pd_Data := data |}) ∧
    data ≡ₚ [route None "m/spare"].
Proof.
  assert (Hv : Forall (db_cond_valid (gs_indexers two)) in_mesh) by (repeat constructor; by eexists).
  assert (Hl : ListByIndexes unmarshal two in_mesh = Ok [route None "m/shop"; route None "m/spare"])
    by (vm_compute; reflexivity).
  assert (Hup : db_up (gs_db two)) by exact I.
  assert (Hlen : Z.of_nat (length [route None "m/shop"; route None "m/spare"]) <= i64_max) by (vm_compute; discriminate).
  split.
  - set (pq := {| PageOffset := 1; PageSize := i64_max |}).
    assert (Ho : in_i64 (PageOffset pq)) by (vm_compute; split; discriminate).
    assert (Hz : in_i64 (PageSize pq)) by (vm_compute; split; discriminate).
    pose proof (gorm_page_cuts_list unmarshal two in_mesh pq _ two_gorm_ok Hup Hv Ho Hz Hlen Hl) as Hp.
    subst pq. cbn [length PageOffset PageSize] in Hp. rewrite decide_True in Hp by (unfold i64_max; lia). exact Hp.
  - set (pq := {| PageOffset := 1; PageSize := 5 |}).
    assert (Ho : in_i64 (PageOffset pq)) by (vm_compute; split; discriminate).
    assert (Hz : in_i64 (PageSize pq)) by (vm_compute; split; discriminate).
    pose proof (gorm_page_cuts_list unmarshal two in_mesh pq _ two_gorm_ok Hup Hv Ho Hz Hlen Hl) as Hp.
    subst pq. cbn [length PageOffset PageSize] in Hp. rewrite decide_False in Hp by (unfold i64_max; lia). exact Hp.
Defined.

(** A database of an older version: rows without index entries. *)
Definition old_db : DB :=
  {| RefDatabase.tables := RefDatabase.tables (gs_db two); RefDatabase.indices := [] |}.

Lemma Init_rebuilds_witness :
  ∃ gs', Init unmarshal (NewGormStore ConditionRouteKind old_db) {["mesh" := ByMesh]} = (gs', None) ∧
    gorm_ok unmarshal gs' ∧
    ListByIndexes unmarshal gs' in_mesh = Ok [route None "m/shop"; route None "m/spare"].
Proof.
  assert (Hup : db_up old_db) by exact I.
  destruct (Init_rebuilds unmarshal ConditionRouteKind old_db {["mesh" := ByMesh]} Hup
    (go_rows _ _ two_gorm_ok) (λ _, eq_refl)) as (gs' & Hi & Hok & _).
  exists gs'. split; [exact Hi|]. split; [exact Hok|].
  assert (Hg : gs' = (Init unmarshal (NewGormStore ConditionRouteKind old_db) {["mesh" := ByMesh]}).1)
    by (rewrite Hi; reflexivity).
  rewrite Hg. vm_compute. reflexivity.
Defined.

(** The same two resources in memory. *)
Definition mesh_idx : Indexers := {["mesh" := ByMesh]}.
Abbreviation mstore := (resourceStore Ref.indexer (gset string)).
Definition m0 : mstore := MemoryStore.Init ConditionRouteKind mesh_idx.
Definition m1 : mstore := (MemoryStore.Add m0 (ResourceObj (route None "m/shop"))).1.
Definition m2 : mstore := (MemoryStore.Add m1 (ResourceObj (route None "m/spare"))).1.

Lemma mesh_idx_safe : idx_safe ConditionRouteKind mesh_idx.
Proof. apply idx_safe_insert; [|apply idx_safe_empty]. intros r _. reflexivity. Qed.

Lemma route_storable N (s : mstore) key : rs_rk s = ConditionRouteKind → proxy_indexers s = mesh_idx →
  no_sep (ParseResourceKey key).1 → storable N s (route None key).
Proof.
  intros Hk Hi Hn. split; [by rewrite Hk|]. rewrite Hi. unfold mesh_idx. intros n f v _ [<- <-]%lookup_singleton_Some Hv.
  apply bool_decide_eq_true, list_elem_of_singleton in Hv. by subst v.
Qed.

Lemma m2_reachable N : reachable N ConditionRouteKind mesh_idx m2.
Proof.
  eapply rtc_l; [apply (step_Add N m0 (route None "m/shop"));
    [apply route_storable; vm_compute; reflexivity|vm_compute; reflexivity]|].
  apply rtc_once, (step_Add N m1 (route None "m/spare"));
    [apply route_storable; vm_compute; reflexivity|vm_compute; reflexivity].
Qed.

Lemma stores_agree_witness :
  ∃ l, MemoryStore.ListByIndexes m2 in_mesh = Ok l ∧ ListByIndexes unmarshal two in_mesh = Ok l.
Proof.
  assert (Hup : db_up (gs_db two)) by exact I.
  apply (stores_agree unmarshal ConditionRouteKind mesh_idx m2 two in_mesh mesh_idx_safe (m2_reachable _) two_gorm_ok Hup).
  - vm_compute. reflexivity.
  - reflexivity.
  - repeat constructor. by eexists.
  - repeat constructor. by eexists.
Defined.
End GormQueriesExample.
