(* ===== verification/Lock.v ===== *)
(** pkg/core/lock/key.go and pkg/lock/gorm/lock.go: locks kept as rows of a
    database table, with an expiry. *)
From S2P Require Import Prelude Errors Gorm.

Open Scope string_scope.
Open Scope list_scope.
Open Scope Z_scope.

(** ** key.go *)
Definition TagRouteKeyPrefix : string := "tag_route".
Definition ConfiguratorRuleKeyPrefix : string := "configurator_rule".
Definition ConditionRuleKeyPrefix : string := "condition_rule".

Definition BuildLockKey (prefix : string) (parts : list string) : string :=
  foldl (λ key part, key +:+ ":" +:+ part) prefix parts.
Definition BuildTagRouteLockKey (mesh name : string) : string :=
  TagRouteKeyPrefix +:+ ":" +:+ mesh +:+ ":" +:+ name.
Definition BuildConfiguratorRuleLockKey (mesh name : string) : string :=
  ConfiguratorRuleKeyPrefix +:+ ":" +:+ mesh +:+ ":" +:+ name.
Definition BuildConditionRuleLockKey (mesh name : string) : string :=
  ConditionRuleKeyPrefix +:+ ":" +:+ mesh +:+ ":" +:+ name.

(** ** model.go: the columns the code sets or reads; times and durations are
    nanoseconds. *)
Record LockRecord := { LockKey : string; Owner : string; ExpireAt : Z }.

Definition DefaultAutoRenewThreshold : Z := 10 * 1000000000.

(** ** lock.go *)
Section lock.
Context {D : Type} `{Table LockRecord D}.

(** [time.Now()] is read at [now0] and again, in the transaction, at [now]. *)
Definition TryLock (owner : string) (db : D) (key : string) (ttl now0 now : Z) : D * result error bool :=
  let expireAt := now0 + ttl in
  Transaction db (λ tx,
    match tb_Delete tx (λ r, bool_decide (LockKey r = key) && bool_decide (ExpireAt r < now)) with
    | (tx, Err e) => (tx, Err (errorf_w ("failed to clean expired lock for key " +:+ key +:+ ": ") e ""))
    | (tx, Ok _) =>
        match tb_CreateDoNothing tx {| LockKey := key; Owner := owner; ExpireAt := expireAt |} with
        | (tx, Err e) => (tx, Err (errorf_w "failed to insert lock record: " e ""))
        | (tx, Ok rowsAffected) => (tx, Ok (negb (rowsAffected =? 0)))
        end
    end).

Definition lock_not_held : error := biz_new LockNotHeld "lock not held by this owner".

Definition mine (owner key : string) (r : LockRecord) : bool :=
  bool_decide (LockKey r = key) && bool_decide (Owner r = owner).

Definition Unlock (owner : string) (db : D) (key : string) : D * option error :=
  match tb_Delete db (mine owner key) with
  | (db, Err e) => (db, Some (errorf_w "failed to release lock: " e ""))
  | (db, Ok rowsAffected) => (db, if rowsAffected =? 0 then Some lock_not_held else None)
  end.

Definition with_expiry (t : Z) (r : LockRecord) : LockRecord :=
  {| LockKey := LockKey r; Owner := Owner r; ExpireAt := t |}.

Definition Renew (owner : string) (db : D) (key : string) (ttl now : Z) : D * option error :=
  match tb_Updates db (mine owner key) (with_expiry (now + ttl)) with
  | (db, Err e) => (db, Some (errorf_w "failed to renew lock: " e ""))
  | (db, Ok rowsAffected) => (db, if rowsAffected =? 0 then Some lock_not_held else None)
  end.

Definition IsLocked (db : D) (key : string) (now : Z) : result error bool :=
  match tb_Count db (λ r, bool_decide (LockKey r = key) && bool_decide (now < ExpireAt r)) with
  | Err e => Err (errorf_w "failed to check lock status: " e "")
  | Ok count => Ok (0 <? count)
  end.

Definition CleanupExpiredLocks (db : D) (now : Z) : D * option error :=
  match tb_Delete db (λ r, bool_decide (ExpireAt r < now)) with
  | (db, Err e) => (db, Some (errorf_w "failed to cleanup expired locks: " e ""))
  | (db, Ok _) => (db, None)
  end.

(** The retry loop of [Lock]. Attempt [i] reads the clock at [now i]; then
    [done i] is the error of the context when its channel is ready before the
    ticker's, and [env i] what the other processes do until the next attempt.
    [None] is an exhausted fuel. *)
Fixpoint Lock (fuel : nat) (env : nat → D → D) (now : nat → Z) (done : nat → option error)
    (owner : string) (i : nat) (db : D) (key : string) (ttl : Z) : option (D * option error) :=
  match fuel with
  | O => None
  | S fuel =>
      match TryLock owner db key ttl (now i) (now i) with
      | (db, Err e) => Some (db, Some (errorf_w "failed to try lock: " e ""))
      | (db, Ok true) => Some (db, None)
      | (db, Ok false) =>
          match done i with
          | Some e => Some (db, Some e)
          | None => Lock fuel env now done owner (S i) (env i db) key ttl
          end
      end
  end.

(** [WithLock]: [fn] runs on the rest of the world and, with the renewals and
    the other processes, on the lock table; the deferred [Unlock] only logs. *)
Definition WithLock {W : Type} (fuel : nat) (env : nat → D → D) (now : nat → Z)
    (done : nat → option error) (owner : string) (db : D) (key : string) (ttl : Z)
    (fn : D → W → D * W * option error) (w : W) : option (D * W * option error) :=
  '(db, err) ← Lock fuel env now done owner 0 db key ttl;
  match err with
  | Some e => Some (db, w, Some (errorf_w "failed to acquire lock: " e ""))
  | None =>
      let '(db, w, res) := fn db w in
      Some ((Unlock owner db key).1, w, res)
  end.

(** One tick of [autoRenew]; it stops at the first failure. *)
Definition autoRenew_tick (owner : string) (db : D) (key : string) (ttl now : Z) : D * bool :=
  let '(db, err) := Renew owner db key ttl now in
  (db, match err with Some _ => false | None => true end).
End lock.

(** ** What each operation does to the table *)
Section table.
Context {D : Type} `{TableLaws LockRecord LockKey D}.
Abbreviation rows := (tb_rows LockKey (D := D)).

(** An unexpired row: [TryLock] at [now] leaves it alone. *)
Definition live (m : gmap string LockRecord) (key : string) (now : Z) : option LockRecord :=
  match m !! key with
  | Some r => if decide (now <= ExpireAt r) then Some r else None
  | None => None
  end.

Lemma purge_lookup d key now k :
  delete_rows (λ r, bool_decide (LockKey r = key) && bool_decide (ExpireAt r < now)) (rows d) !! k =
  if decide (k = key) then live (rows d) key now else rows d !! k.
Proof.
  apply option_eq. intros r. rewrite lookup_delete_rows. unfold live. case_decide as Hk.
  - subst k. destruct (rows d !! key) as [r'|] eqn:E; [|naive_solver].
    pose proof (tb_rows_key LockKey _ _ _ E) as Hkey. split.
    + intros [[= <-] Hp]. rewrite decide_True; [done|].
      apply andb_false_iff in Hp. rewrite !bool_decide_eq_false in Hp. destruct Hp; [done|lia].
    + case_decide; [|done]. intros [= <-]. split; [done|]. apply andb_false_iff. right.
      apply bool_decide_eq_false. lia.
  - split; [by intros [? _]|]. intros Hr. split; [done|]. apply andb_false_iff. left.
    apply bool_decide_eq_false. by rewrite (tb_rows_key LockKey _ _ _ Hr).
Qed.

(** The rows after a purge and an insertion of the key. *)
Definition locked_rows (m : gmap string LockRecord) (owner key : string) (expireAt now : Z)
    : gmap string LockRecord :=
  match live m key now with
  | Some _ => m
  | None => <[key := {| LockKey := key; Owner := owner; ExpireAt := expireAt |}]> m
  end.

Lemma TryLock_rows owner d key ttl now0 now :
  let '(d', res) := TryLock owner d key ttl now0 now in
  match res with
  | Ok b => rows d' = locked_rows (rows d) owner key (now0 + ttl) now ∧
      b = bool_decide (live (rows d) key now = None)
  | Err _ => rows d' = rows d ∨ rows d' = locked_rows (rows d) owner key (now0 + ttl) now
  end.
Proof.
  unfold TryLock, Transaction.
  set (p := λ r, bool_decide (LockKey r = key) && bool_decide (ExpireAt r < now)).
  pose proof (tb_Delete_spec LockKey d p) as Hdel.
  destruct (tb_Delete d p) as [tx [n|e]]; [|by left]. destruct Hdel as [Hdel _].
  set (r := {| LockKey := key; Owner := owner; ExpireAt := now0 + ttl |}).
  pose proof (tb_CreateDoNothing_spec LockKey tx r) as Hins.
  destruct (tb_CreateDoNothing tx r) as [tx2 [n2|e]]; [|by left]. destruct Hins as [Hins Hn2].
  assert (Hkey : rows tx !! key = live (rows d) key now).
  { rewrite Hdel. unfold p. by rewrite purge_lookup, decide_True. }
  change (LockKey r) with key in *.
  assert (Hrows : rows tx2 = locked_rows (rows d) owner key (now0 + ttl) now).
  { rewrite Hins. unfold insert_row, locked_rows. change (LockKey r) with key. rewrite Hkey.
    destruct (live (rows d) key now) as [r'|] eqn:El; apply map_eq; intros k.
    - rewrite Hdel. unfold p. rewrite purge_lookup. case_decide; [|done]. subst k. rewrite El.
      unfold live in El. destruct (rows d !! key); [|done]. by case_decide; simplify_eq.
    - destruct (decide (k = key)) as [->|Hne]; [by rewrite !lookup_insert_eq|].
      rewrite !lookup_insert_ne by done. rewrite Hdel. unfold p. by rewrite purge_lookup, decide_False. }
  assert (Hb : negb (n2 =? 0) = bool_decide (live (rows d) key now = None)).
  { rewrite Hn2, Hkey. by destruct (live (rows d) key now). }
  pose proof (tb_Commit_spec LockKey d tx2) as Hc. destruct (tb_Commit d tx2) as [d' [e|]].
  - rewrite Hrows in Hc. done.
  - rewrite Hc. done.
Qed.

Lemma TryLock_up owner d key ttl now0 now :
  tb_up LockKey d →
  tb_up LockKey (TryLock owner d key ttl now0 now).1 ∧
  is_ok (TryLock owner d key ttl now0 now).2 = true.
Proof.
  intros Hup. unfold TryLock, Transaction.
  match goal with |- context [tb_Delete d ?p] => destruct (tb_Delete_up LockKey d p Hup) as [H1 H2];
    destruct (tb_Delete d p) as [tx [n|e]]; [|done] end. simpl in H1.
  match goal with |- context [tb_CreateDoNothing tx ?r] => destruct (tb_CreateDoNothing_up LockKey tx r H1) as [H3 H4];
    destruct (tb_CreateDoNothing tx r) as [tx2 [n2|e]]; [|done] end. simpl in H3.
  destruct (tb_Commit_up LockKey d tx2 Hup H3) as [H5 H6]. by destruct (tb_Commit d tx2) as [d' [e|]].
Qed.

Lemma lookup_mine owner key m k r :
  (∀ k r, m !! k = Some r → LockKey r = k) →
  delete_rows (mine owner key) m !! k = Some r ↔ m !! k = Some r ∧ ¬ (k = key ∧ Owner r = owner).
Proof.
  intros Hm. rewrite lookup_delete_rows. unfold mine. split.
  - intros [Hk Hp]. split; [done|]. intros [-> <-]. rewrite (Hm _ _ Hk), !bool_decide_eq_true_2 in Hp by done. done.
  - intros [Hk Hn]. split; [done|]. apply andb_false_iff. rewrite !bool_decide_eq_false, (Hm _ _ Hk).
    destruct (decide (k = key)); tauto.
Qed.

(** [Unlock] and [Renew], whether or not they report an error. *)
Lemma Unlock_rows owner d key :
  rows (Unlock owner d key).1 = rows d ∨ rows (Unlock owner d key).1 = delete_rows (mine owner key) (rows d).
Proof.
  unfold Unlock. pose proof (tb_Delete_spec LockKey d (mine owner key)) as Hd.
  destruct (tb_Delete d _) as [d' [n|e]]; simpl in *; [right; apply Hd|done].
Qed.

Lemma Renew_rows owner d key ttl now :
  let d' := (Renew owner d key ttl now).1 in
  match (Renew owner d key ttl now).2 with
  | None => (∃ r, rows d !! key = Some r ∧ Owner r = owner) ∧
      rows d' = update_rows (mine owner key) (with_expiry (now + ttl)) (rows d)
  | Some _ => rows d' = rows d ∨ rows d' = update_rows (mine owner key) (with_expiry (now + ttl)) (rows d)
  end.
Proof.
  unfold Renew. pose proof (tb_Updates_spec LockKey d (mine owner key) (with_expiry (now + ttl)) (λ _, eq_refl)) as Hu.
  destruct (tb_Updates d _ _) as [d' [n|e]]; simpl in *; [|done]. destruct Hu as [Hr Hn].
  destruct (Z.eqb_spec n 0) as [Hz|Hz]; [by right|]. split; [|done].
  destruct (proj1 (size_matching_pos (mine owner key) (rows d))) as (k & r & Hk & Hp); [lia|].
  unfold mine in Hp. apply andb_true_iff in Hp. rewrite !bool_decide_eq_true in Hp.
  destruct Hp as [Hkey Ho]. pose proof (tb_rows_key LockKey _ _ _ Hk) as Hkk. exists r.
  by rewrite <-Hkey, Hkk.
Qed.

Lemma Cleanup_rows d now :
  rows (CleanupExpiredLocks d now).1 = rows d ∨
  rows (CleanupExpiredLocks d now).1 = delete_rows (λ r, bool_decide (ExpireAt r < now)) (rows d).
Proof.
  unfold CleanupExpiredLocks. pose proof (tb_Delete_spec LockKey d (λ r, bool_decide (ExpireAt r < now))) as Hd.
  destruct (tb_Delete d _) as [d' [n|e]]; simpl in *; [right; apply Hd|done].
Qed.
End table.

(** ** Processes sharing the table *)
Section system.
Context {D : Type} `{TableLaws LockRecord LockKey D}.
Abbreviation rows := (tb_rows LockKey (D := D)).
(** The lock instance a goroutine uses, by its [owner] id. *)
Context (inst : string → string).

(** The database, the clock all processes read, and what the goroutines
    believe: the deadline up to which each holds a key. *)
Record sys := { sy_db : D; sy_clock : Z; sy_held : gmap (string * string) Z }.

Inductive step : sys → sys → Prop :=
| step_tick s t : sy_clock s <= t →
    step s {| sy_db := sy_db s; sy_clock := t; sy_held := sy_held s |}
| step_TryLock s g key ttl now0 now d res : now0 <= now <= sy_clock s →
    TryLock (inst g) (sy_db s) key ttl now0 now = (d, res) →
    step s {| sy_db := d; sy_clock := sy_clock s;
              sy_held := match res with Ok true => <[(g, key) := now0 + ttl]> (sy_held s)
                                      | _ => sy_held s end |}
| step_Unlock s g key :
    step s {| sy_db := (Unlock (inst g) (sy_db s) key).1; sy_clock := sy_clock s;
              sy_held := delete (g, key) (sy_held s) |}
| step_Renew s g key ttl now d err : now <= sy_clock s →
    (∀ deadline, sy_held s !! (g, key) = Some deadline → deadline <= now + ttl) →
    Renew (inst g) (sy_db s) key ttl now = (d, err) →
    step s {| sy_db := d; sy_clock := sy_clock s;
              sy_held := match err with None => alter (λ _, now + ttl) (g, key) (sy_held s)
                                      | Some _ => sy_held s end |}
| step_Cleanup s now : now <= sy_clock s →
    step s {| sy_db := (CleanupExpiredLocks (sy_db s) now).1; sy_clock := sy_clock s;
              sy_held := sy_held s |}.

(** [g] holds [key]: it believes so and its deadline has not passed. *)
Definition holds (s : sys) (g key : string) : Prop :=
  ∃ deadline, sy_held s !! (g, key) = Some deadline ∧ sy_clock s <= deadline.

(** A holder's row is in the table until its deadline at least. *)
Definition backed (s : sys) : Prop :=
  ∀ g key deadline, sy_held s !! (g, key) = Some deadline → sy_clock s <= deadline →
    ∃ r, rows (sy_db s) !! key = Some r ∧ Owner r = inst g ∧ deadline <= ExpireAt r.

Lemma live_backed s g key now deadline :
  backed s → sy_held s !! (g, key) = Some deadline → sy_clock s <= deadline → now <= sy_clock s →
  is_Some (live (rows (sy_db s)) key now).
Proof.
  intros Hb Hh Hc Hn. destruct (Hb _ _ _ Hh Hc) as (r & Hr & _ & Hd).
  unfold live. rewrite Hr, decide_True by lia. by eexists.
Qed.

Lemma locked_rows_same m owner key expireAt now :
  is_Some (live m key now) → locked_rows m owner key expireAt now = m.
Proof. unfold locked_rows. by intros [r ->]. Qed.

Lemma locked_rows_ne m owner key expireAt now k :
  k ≠ key → locked_rows m owner key expireAt now !! k = m !! k.
Proof. intros Hk. unfold locked_rows. destruct (live m key now); [done|by rewrite lookup_insert_ne]. Qed.

Lemma backed_step s s' : Inj (=) (=) inst → backed s → step s s' → backed s'.
Proof.
  intros Hinj Hb Hs. destruct Hs as [s t Ht|s g key ttl now0 now d res Hn Htry|s g key
    |s g key ttl now d err Hn Hext Hren|s now Hn]; intros g' k dl Hh Hc; simpl in *.
  - apply (Hb _ _ _ Hh). lia.
  - pose proof (TryLock_rows (inst g) (sy_db s) key ttl now0 now) as Hr. rewrite Htry in Hr.
    assert (Hold : ∀ dl', sy_held s !! (g', k) = Some dl' → sy_clock s <= dl' →
      ∃ r, rows d !! k = Some r ∧ Owner r = inst g' ∧ dl' <= ExpireAt r).
    { intros dl' Hh' Hc'. destruct (Hb _ _ _ Hh' Hc') as (r & Hk & Ho & Hd).
      assert (Hlook : locked_rows (rows (sy_db s)) (inst g) key (now0 + ttl) now !! k = Some r).
      { destruct (decide (k = key)) as [->|Hne]; [|by rewrite locked_rows_ne].
        rewrite locked_rows_same; [done|]. eapply live_backed; [done|done|done|lia]. }
      exists r. split; [|done]. destruct res as [b|e]; [destruct Hr as [-> _]; done|by destruct Hr as [->| ->]]. }
    destruct res as [[|]|e]; [|by apply Hold|by apply Hold]. destruct Hr as [Hr Hnone].
    symmetry in Hnone. apply bool_decide_eq_true in Hnone.
    apply lookup_insert_Some in Hh as [[[= <- <-] <-]|[Hne Hh]].
    + exists {| LockKey := key; Owner := inst g; ExpireAt := now0 + ttl |}. split; [|done].
      rewrite Hr. unfold locked_rows. rewrite Hnone. by rewrite lookup_insert_eq.
    + by apply Hold.
  - apply lookup_delete_Some in Hh as [Hne Hh]. destruct (Hb _ _ _ Hh Hc) as (r & Hk & Ho & Hd).
    exists r. split; [|done]. destruct (Unlock_rows (inst g) (sy_db s) key) as [-> | ->]; [done|].
    apply lookup_mine; [apply (tb_rows_key LockKey)|]. split; [done|]. intros [-> He].
    apply Hne. f_equal. apply Hinj. congruence.
  - pose proof (Renew_rows (inst g) (sy_db s) key ttl now) as Hr. rewrite Hren in Hr. simpl in Hr.
    assert (Hcase : ∃ dl0, sy_held s !! (g', k) = Some dl0 ∧
      (dl = dl0 ∨ (g', k) = (g, key) ∧ err = None ∧ dl = now + ttl)).
    { destruct err; [by exists dl; split; [|left]|]. destruct (decide ((g', k) = (g, key))) as [Heq|Hne].
      - rewrite Heq, lookup_alter_eq in Hh. apply fmap_Some in Hh as (dl0 & Hh & ->). rewrite Heq.
        exists dl0. split; [done|by right].
      - rewrite lookup_alter_ne in Hh by done. exists dl. split; [done|by left]. }
    destruct Hcase as (dl0 & Hh0 & Hdl).
    destruct Hdl as [->|(Heq & -> & ->)].
    + destruct (Hb _ _ _ Hh0 Hc) as (r & Hk & Ho & Hd).
      assert (Hupd : ∃ r', update_rows (mine (inst g) key) (with_expiry (now + ttl)) (rows (sy_db s)) !! k = Some r' ∧
        Owner r' = inst g' ∧ dl0 <= ExpireAt r').
      { eexists. split; [apply lookup_update_rows; by exists r|]. destruct (mine _ _ _) eqn:Em; [|done].
        simpl. split; [done|]. unfold mine in Em. apply andb_true_iff in Em.
        rewrite !bool_decide_eq_true in Em. destruct Em as [Ek Eo]. apply Hext.
        rewrite (tb_rows_key LockKey _ _ _ Hk) in Ek. rewrite <-Ek.
        assert (g = g') as -> by (apply Hinj; congruence). done. }
      destruct err; [destruct Hr as [-> | ->]; eauto|destruct Hr as [_ ->]; eauto].
    + injection Heq as -> ->. destruct Hr as [(r & Hk & Ho) Hr]. rewrite Hr.
      eexists. split; [apply lookup_update_rows; by exists r|]. unfold mine.
      rewrite (tb_rows_key LockKey _ _ _ Hk), !bool_decide_eq_true_2 by done. simpl. split; [done|lia].
  - destruct (Hb _ _ _ Hh Hc) as (r & Hk & Ho & Hd). exists r. split; [|done].
    destruct (Cleanup_rows (sy_db s) now) as [-> | ->]; [done|]. apply lookup_delete_rows.
    split; [done|]. apply bool_decide_eq_false. lia.
Qed.

(** C1: mutual exclusion: when every goroutine that takes locks has a lock
    instance of its own, then however their calls, renewals, clean-ups and lost
    answers interleave, at any time at most one of them holds a key, and
    its row is in the table. *)
Theorem lock_mutual_exclusion s0 s :
  Inj (=) (=) inst → sy_held s0 = ∅ → rtc step s0 s →
  ∀ key g1, holds s g1 key →
    (∀ g2, holds s g2 key → g1 = g2) ∧
    ∃ r, rows (sy_db s) !! key = Some r ∧ Owner r = inst g1 ∧ sy_clock s <= ExpireAt r.
Proof.
  intros Hinj Hnone Hr.
  assert (Hb : backed s).
  { assert (Hb0 : backed s0) by (intros ??? Hh; by rewrite Hnone in Hh).
    clear Hnone. induction Hr as [|s0 s1 s2 Hs _ IH]; [done|]. by apply IH, (backed_step s0). }
  intros key g1 (dl1 & Hh1 & Hc1). destruct (Hb _ _ _ Hh1 Hc1) as (r1 & Hr1 & Ho1 & Hd1). split.
  - intros g2 (dl2 & Hh2 & Hc2). destruct (Hb _ _ _ Hh2 Hc2) as (r2 & Hr2 & Ho2 & _).
    apply Hinj. congruence.
  - exists r1. split_and!; [done|done|lia].
Qed.

(** Goroutines that share one lock instance do not exclude each other
    from a third: when a holder outlives its deadline and a second goroutine of
    its process takes the lock over, the first one's release deletes the
    second one's row, and another process acquires the lock while the second
    goroutine still holds it. *)
Theorem shared_instance_not_exclusive d key a1 a2 b ttl :
  inst a1 = inst a2 → a1 ≠ a2 → a1 ≠ b → a2 ≠ b → 0 < ttl →
  tb_up LockKey d → rows d !! key = None →
  ∃ s, rtc step {| sy_db := d; sy_clock := 0; sy_held := ∅ |} s ∧ holds s a2 key ∧ holds s b key.
Proof.
  intros Hi H12 H1b H2b Httl Hup Hfree.
  assert (Htry : ∀ g d now, tb_up LockKey d → live (rows d) key now = None →
    ∃ d', TryLock (inst g) d key ttl now now = (d', Ok true) ∧ tb_up LockKey d' ∧
      rows d' = <[key := {| LockKey := key; Owner := inst g; ExpireAt := now + ttl |}]> (rows d)).
  { intros g db now Hu Hl. pose proof (TryLock_up (inst g) db key ttl now now Hu) as [Hu' Hok].
    pose proof (TryLock_rows (inst g) db key ttl now now) as Hr.
    destruct (TryLock _ _ _ _ _ _) as [d' [v|e]]; [|done]. destruct Hr as [Hr ->].
    rewrite bool_decide_eq_true_2 by done. exists d'. split_and!; [done|done|].
    rewrite Hr. unfold locked_rows. by rewrite Hl. }
  destruct (Htry a1 d 0 Hup) as (d1 & Ht1 & Hu1 & Hr1); [unfold live; by rewrite Hfree|].
  destruct (Htry a2 d1 (ttl + 1) Hu1) as (d2 & Ht2 & Hu2 & Hr2).
  { unfold live. rewrite Hr1, lookup_insert_eq. simpl. by rewrite decide_False by lia. }
  destruct (tb_Delete_up LockKey d2 (mine (inst a1) key) Hu2) as [Hu3 Hok3].
  assert (Hr3 : rows (Unlock (inst a1) d2 key).1 = delete_rows (mine (inst a1) key) (rows d2) ∧
    tb_up LockKey (Unlock (inst a1) d2 key).1).
  { unfold Unlock. pose proof (tb_Delete_spec LockKey d2 (mine (inst a1) key)) as Hd.
    destruct (tb_Delete d2 _) as [d3 [n|e]]; [|done]. split; [apply Hd|done]. }
  destruct Hr3 as [Hr3 Hu3'].
  destruct (Htry b (Unlock (inst a1) d2 key).1 (ttl + 1) Hu3') as (d4 & Ht4 & _ & _).
  { assert (Hn : rows (Unlock (inst a1) d2 key).1 !! key = None); [|unfold live; by rewrite Hn].
    rewrite Hr3. destruct (delete_rows _ _ !! key) as [r|] eqn:E; [|done].
    apply lookup_mine in E as [E Hn]; [|apply (tb_rows_key LockKey)].
    rewrite Hr2, lookup_insert_eq in E. injection E as <-. by destruct Hn. }
  set (h1 := <[(a1, key) := ttl]> (∅ : gmap (string * string) Z)).
  set (h2 := <[(a2, key) := ttl + 1 + ttl]> h1).
  exists {| sy_db := d4; sy_clock := ttl + 1;
            sy_held := <[(b, key) := ttl + 1 + ttl]> (delete (a1, key) h2) |}.
  split; [|split].
  - eapply rtc_l; [by apply (step_TryLock _ a1 key ttl 0 0 d1 (Ok true)); simpl; [lia|]|]. simpl.
    eapply rtc_l; [apply (step_tick _ (ttl + 1)); simpl; lia|]. simpl.
    eapply rtc_l; [by apply (step_TryLock _ a2 key ttl (ttl + 1) (ttl + 1) d2 (Ok true)); simpl; [lia|]|]. simpl.
    eapply rtc_l; [apply (step_Unlock _ a1 key)|]. simpl.
    eapply rtc_l; [by apply (step_TryLock _ b key ttl (ttl + 1) (ttl + 1) d4 (Ok true)); simpl; [lia|]|].
    apply rtc_refl.
  - exists (ttl + 1 + ttl). simpl. split; [|lia]. rewrite lookup_insert_ne by congruence.
    rewrite lookup_delete_ne by congruence. unfold h2. by rewrite lookup_insert_eq.
  - exists (ttl + 1 + ttl). simpl. split; [|lia]. by rewrite lookup_insert_eq.
Qed.
End system.

(** ** A single call *)
Section calls.
Context {D : Type} `{TableLaws LockRecord LockKey D}.
Abbreviation rows := (tb_rows LockKey (D := D)).

(** [TryLock] on a database that is up acquires the key exactly when no
    unexpired row has it, which then is the caller's until [ttl] after the
    first clock reading; otherwise it changes nothing. Other keys are never
    touched. A clock reading equal to the expiry still counts as locked. *)
Theorem TryLock_acquires_iff_free owner d key ttl now0 now :
  tb_up LockKey d →
  ∃ d' b, TryLock owner d key ttl now0 now = (d', Ok b) ∧
    (b = true ↔ ∀ r, rows d !! key = Some r → ExpireAt r < now) ∧
    rows d' = (if b then <[key := {| LockKey := key; Owner := owner; ExpireAt := now0 + ttl |}]> (rows d)
               else rows d).
Proof.
  intros Hup. destruct (TryLock_up owner d key ttl now0 now Hup) as [_ Hok].
  pose proof (TryLock_rows owner d key ttl now0 now) as Hr.
  destruct (TryLock _ _ _ _ _ _) as [d' [b|e]]; [|done]. destruct Hr as [Hr Hb].
  exists d', b. split; [done|]. subst b. rewrite Hr. unfold locked_rows, live.
  destruct (rows d !! key) as [r|] eqn:E; [case_decide|].
  - rewrite bool_decide_eq_false_2 by done. split; [|done]. split; [done|].
    intros Hall. specialize (Hall r eq_refl). lia.
  - rewrite bool_decide_eq_true_2 by done. split; [|done]. split; [|done]. intros _ r' [= <-]. lia.
  - rewrite bool_decide_eq_true_2 by done. split; [|done]. by split.
Qed.

Lemma Lock_spec fuel env now done owner i d key ttl :
  match Lock fuel env now done owner i d key ttl with
  | None => ∀ j, (i <= j < i + fuel)%nat → done j = None
  | Some (d', None) => ∃ r, rows d' !! key = Some r ∧ Owner r = owner
  | Some (d', Some e) => True
  end.
Proof.
  revert i d. induction fuel as [|fuel IH]; intros i d; cbn [Lock]; [intros j ?; lia|].
  pose proof (TryLock_rows owner d key ttl (now i) (now i)) as Hr.
  destruct (TryLock _ _ _ _ _ _) as [d' [[|]|e]]; [|destruct (done i) as [e|] eqn:Ed; [done|]|done].
  - destruct Hr as [-> Hb]. symmetry in Hb. apply bool_decide_eq_true in Hb.
    unfold locked_rows. rewrite Hb. eexists. by rewrite lookup_insert_eq.
  - specialize (IH (S i) (env i d')). destruct (Lock _ _ _ _ _ _ _ _ _) as [[d2 [e|]]|]; [done|done|].
    intros j Hj. destruct (decide (j = i)) as [->|Hne]; [done|]. apply IH. lia.
Qed.

(** [WithLock] runs the function at most once, and only while a row of
    this instance holds the key; the function's result is the result, also
    when it is an error, and after it the instance has no row for the key when
    the database is up. When the lock is not acquired nothing is run. *)
Theorem WithLock_guards {W} fuel env now done owner d key ttl (fn : D → W → D * W * option error) w :
  match WithLock fuel env now done owner d key ttl fn w with
  | None => ∀ i, (i < fuel)%nat → done i = None
  | Some (d', w', res) =>
      (w' = w ∧ ∃ e, res = Some (errorf_w "failed to acquire lock: " e "")) ∨
      (∃ d1 d2, (∃ r, rows d1 !! key = Some r ∧ Owner r = owner) ∧ fn d1 w = (d2, w', res) ∧
        (tb_up LockKey d2 → rows d' = delete_rows (mine owner key) (rows d2) ∧
           ∀ r, rows d' !! key = Some r → Owner r ≠ owner))
  end.
Proof.
  unfold WithLock. pose proof (Lock_spec fuel env now done owner 0 d key ttl) as Hl.
  destruct (Lock _ _ _ _ _ _ _ _ _) as [[d1 [e|]]|]; cbn [mbind option_bind].
  - left. split; [done|]. by eexists.
  - destruct (fn d1 w) as [[d2 w2] res] eqn:Hf. right. exists d1, d2. split_and!; [done|done|].
    intros Hup. unfold Unlock. pose proof (tb_Delete_spec LockKey d2 (mine owner key)) as Hd.
    destruct (tb_Delete_up LockKey d2 (mine owner key) Hup) as [_ Hok].
    destruct (tb_Delete d2 _) as [d3 [n|e]]; [|done]. destruct Hd as [Hd _]. simpl. split; [done|].
    intros r Hr. rewrite Hd in Hr. apply lookup_mine in Hr as [_ Hn]; [|apply (tb_rows_key LockKey)].
    intros Ho. by apply Hn.
  - intros i Hi. apply Hl. lia.
Qed.
End calls.

(** ** On the reference table *)
Module LockExample.
Abbreviation DB := (gmap string LockRecord).
#[local] Instance ref_ops : Table LockRecord DB := RefTable.ops LockKey.
#[local] Instance ref_laws : TableLaws LockKey DB := RefTable.laws LockKey.

Definition empty : sys (D := DB) := {| sy_db := ∅; sy_clock := 0; sy_held := ∅ |}.
Definition one : sys (D := DB) :=
  {| sy_db := (TryLock "a" (∅ : DB) "k" 30 0 0).1; sy_clock := 0; sy_held := {[("a", "k") := 30]} |}.

Lemma lock_mutual_exclusion_witness :
  holds one "a" "k" ∧ ∀ g, holds one g "k" → "a" = g.
Proof.
  assert (Ha : holds one "a" "k") by (exists 30; split; [vm_compute; reflexivity|simpl; lia]).
  split; [exact Ha|].
  assert (Hr : rtc (step (λ g, g)) empty one).
  { apply rtc_once. apply (step_TryLock (λ g, g) empty "a" "k" 30 0 0 _ (Ok true));
      [simpl; lia|vm_compute; reflexivity]. }
  exact (proj1 (lock_mutual_exclusion (λ g, g) empty one (λ x y E, E) eq_refl Hr "k" "a" Ha)).
Defined.

Definition instance_of (g : string) : string := if decide (g = "replica") then "B" else "A".

Lemma shared_instance_not_exclusive_witness :
  ∃ s : sys (D := DB), holds s "request 2" "k" ∧ holds s "replica" "k".
Proof.
  destruct (shared_instance_not_exclusive instance_of (∅ : DB) "k"
    "request 1" "request 2" "replica" 30 ltac:(vm_compute; reflexivity) ltac:(discriminate) ltac:(discriminate)
    ltac:(discriminate) ltac:(reflexivity) I eq_refl) as (s & _ & H1 & H2).
  exists s. exact (conj H1 H2).
Defined.

Lemma TryLock_acquires_iff_free_witness :
  ∃ d' b, TryLock "b" (TryLock "a" (∅ : DB) "k" 30 0 0).1 "k" 30 31 31 = (d', Ok b) ∧ b = true.
Proof.
  assert (Hup : tb_up LockKey (TryLock "a" (∅ : DB) "k" 30 0 0).1) by exact I.
  destruct (TryLock_acquires_iff_free "b" (TryLock "a" (∅ : DB) "k" 30 0 0).1 "k" 30 31 31 Hup)
    as (d' & b & Ht & Hb & _). exists d', b. split; [exact Ht|]. apply Hb.
  intros r. vm_compute. by intros [= <-].
Defined.

(** The function fails; the lock is gone. *)
Lemma WithLock_guards_witness :
  ∃ d w, WithLock 1 (λ _ d, d) (λ _, 5) (λ _, None) "a" (∅ : DB) "k" 30
           (λ d w, (d, w + 1, Some (ErrorText "failed"))) 7 = Some (d, w, Some (ErrorText "failed")) ∧
         ∀ r, RefTable.rows LockKey d !! "k" = Some r → Owner r ≠ "a".
Proof.
  pose proof (WithLock_guards 1 (λ _ d, d) (λ _, 5) (λ _, None) "a" (∅ : DB) "k" 30
    (λ d w, (d, w + 1, Some (ErrorText "failed"))) 7) as Hw.
  destruct (WithLock _ _ _ _ _ _ _ _ _ _) as [[[d w] res]|] eqn:E.
  - assert (res = Some (ErrorText "failed")) as -> by (revert E; vm_compute; by intros [= <- <- <-]).
    exists d, w. split; [reflexivity|].
    destruct Hw as [(_ & e & He)|(d1 & d2 & _ & _ & Hup)]; [discriminate He|]. exact (proj2 (Hup I)).
  - exfalso. revert E. vm_compute. discriminate.
Defined.
End LockExample.
