(* ===== verification/Leader.v ===== *)
(** pkg/core/leader: leader election over a lease row per component, with the
    version column as the fence of renewals. *)
From S2P Require Import Prelude Errors Gorm.

Open Scope string_scope.
Open Scope list_scope.
Open Scope Z_scope.

(** ** model.go, the columns the code sets or reads; times and durations are
    nanoseconds *)
Record LeaderLease := {
  Component : string; HolderID : string; AcquiredAt : Z; ExpiresAt : Z; Version : Z }.

(** ** leader.go *)
Definition Second : Z := 1000000000.
Definition DefaultLeaseDuration : Z := 30 * Second.
Definition DefaultRenewInterval : Z := 10 * Second.
Definition DefaultAcquireRetryInterval : Z := 5 * Second.

Record LeaderElection := {
  component : string; holderID : string; leaseDuration : Z; renewInterval : Z; acquireRetry : Z;
  isLeader : bool; currentVersion : Z }.

Definition Option_ := LeaderElection → LeaderElection.

Definition WithLeaseDuration (d : Z) : Option_ := λ le,
  {| component := component le; holderID := holderID le; leaseDuration := d;
     renewInterval := renewInterval le; acquireRetry := acquireRetry le;
     isLeader := isLeader le; currentVersion := currentVersion le |}.
Definition WithRenewInterval (d : Z) : Option_ := λ le,
  {| component := component le; holderID := holderID le; leaseDuration := leaseDuration le;
     renewInterval := d; acquireRetry := acquireRetry le;
     isLeader := isLeader le; currentVersion := currentVersion le |}.
Definition WithAcquireRetryInterval (d : Z) : Option_ := λ le,
  {| component := component le; holderID := holderID le; leaseDuration := leaseDuration le;
     renewInterval := renewInterval le; acquireRetry := d;
     isLeader := isLeader le; currentVersion := currentVersion le |}.

Definition NewLeaderElection (component_ holderID_ : string) (opts : list Option_) : LeaderElection :=
  foldl (λ le opt, opt le)
    {| component := component_; holderID := holderID_; leaseDuration := DefaultLeaseDuration;
       renewInterval := DefaultRenewInterval; acquireRetry := DefaultAcquireRetryInterval;
       isLeader := false; currentVersion := 0 |} opts.

Definition set_leader (le : LeaderElection) (b : bool) (version : Z) : LeaderElection :=
  {| component := component le; holderID := holderID le; leaseDuration := leaseDuration le;
     renewInterval := renewInterval le; acquireRetry := acquireRetry le;
     isLeader := b; currentVersion := version |}.

Definition not_leader (le : LeaderElection) : LeaderElection := set_leader le false (currentVersion le).

(** The row a take-over or a renewal leaves; [version + 1] is computed by the
    database. *)
Definition taken_over (holder : string) (now expiresAt : Z) (l : LeaderLease) : LeaderLease :=
  {| Component := Component l; HolderID := holder; AcquiredAt := now; ExpiresAt := expiresAt;
     Version := i64 (Version l + 1) |}.
Definition expired_at (t : Z) (l : LeaderLease) : LeaderLease :=
  {| Component := Component l; HolderID := HolderID l; AcquiredAt := AcquiredAt l; ExpiresAt := t;
     Version := Version l |}.

Definition of_component (c : string) (l : LeaderLease) : bool := bool_decide (Component l = c).
Definition expired (c : string) (now : Z) (l : LeaderLease) : bool :=
  of_component c l && bool_decide (ExpiresAt l < now).
Definition held_by (c holder : string) (l : LeaderLease) : bool :=
  of_component c l && bool_decide (HolderID l = holder).

Section leader.
Context {D : Type} `{Table LeaderLease D}.

(** [TryAcquire], statement by statement: the [UPDATE], after which the row is
    read back ([Some true]), a row is inserted ([Some false]), or the call has
    failed ([None]). *)
Definition acquire_update (le : LeaderElection) (db : D) (now : Z)
    : LeaderElection * D * option bool :=
  match tb_Updates db (expired (component le) now)
          (taken_over (holderID le) now (now + leaseDuration le)) with
  | (db, Err _) => (not_leader le, db, None)
  | (db, Ok rowsAffected) => (le, db, Some (bool_decide (0 < rowsAffected)))
  end.

Definition acquire_readback (le : LeaderElection) (db : D) : LeaderElection * bool :=
  match tb_First db (of_component (component le)) with
  | Err _ => (not_leader le, false)
  | Ok lease => (set_leader le true (Version lease), true)
  end.

Definition acquire_insert (le : LeaderElection) (db : D) (now : Z) : LeaderElection * D * bool :=
  match tb_Create db {| Component := component le; HolderID := holderID le; AcquiredAt := now;
                        ExpiresAt := now + leaseDuration le; Version := 1 |} with
  | (db, Some _) => (not_leader le, db, false)
  | (db, None) => (set_leader le true 1, db, true)
  end.

(** The whole call; [env] is what other replicas do to the table between its
    two statements. *)
Definition TryAcquire (env : D → D) (le : LeaderElection) (db : D) (now : Z)
    : LeaderElection * D * bool :=
  match acquire_update le db now with
  | (le, db, None) => (le, db, false)
  | (le, db, Some true) => let '(le, b) := acquire_readback le (env db) in (le, env db, b)
  | (le, db, Some false) => acquire_insert le (env db) now
  end.

Definition Renew (le : LeaderElection) (db : D) (now : Z) : LeaderElection * D * bool :=
  if isLeader le then
    match tb_Updates db
            (λ l, held_by (component le) (holderID le) l && bool_decide (Version l = currentVersion le))
            (taken_over (holderID le) now (now + leaseDuration le)) with
    | (db, Err _) => (not_leader le, db, false)
    | (db, Ok rowsAffected) =>
        if decide (0 < rowsAffected)
        then (set_leader le true (i64 (currentVersion le + 1)), db, true)
        else (not_leader le, db, false)
    end
  else (le, db, false).

Definition Release (le : LeaderElection) (db : D) (now : Z) : LeaderElection * D :=
  (not_leader le,
   (tb_Updates db (held_by (component le) (holderID le)) (expired_at (now - Second))).1).

(** ** The election loop

    One round of the [select] of [RunLeaderElection]: the channel that was
    ready, with the clock. The result holds the callbacks called, in order; the
    loop goes on while it is [Some]. *)
Inductive ready := CtxDone (now : Z) | StopCh (now : Z) | AcquireTick (now : Z) | RenewTick (now : Z).
Inductive callback := OnStartLeading | OnStopLeading.

Record loop_state := { lp_le : LeaderElection; lp_db : D; lp_isLeader : bool }.

Definition stop_loop (st : loop_state) (now : Z) : loop_state * list callback :=
  if lp_isLeader st then
    let '(le, db) := Release (lp_le st) (lp_db st) now in
    ({| lp_le := le; lp_db := db; lp_isLeader := lp_isLeader st |}, [OnStopLeading])
  else (st, []).

(** [env i] is what other replicas do to the table before round [i] and in
    the middle of its [TryAcquire]. *)
Definition election_round (env : D → D) (st : loop_state) (r : ready)
    : loop_state * list callback * bool :=
  match r with
  | CtxDone now | StopCh now => (stop_loop st now, false)
  | AcquireTick now =>
      if lp_isLeader st then (st, [], true)
      else match TryAcquire env (lp_le st) (lp_db st) now with
           | (le, db, true) => ({| lp_le := le; lp_db := db; lp_isLeader := true |}, [OnStartLeading], true)
           | (le, db, false) => ({| lp_le := le; lp_db := db; lp_isLeader := false |}, [], true)
           end
  | RenewTick now =>
      if lp_isLeader st then
        match Renew (lp_le st) (lp_db st) now with
        | (le, db, true) => ({| lp_le := le; lp_db := db; lp_isLeader := true |}, [], true)
        | (le, db, false) => ({| lp_le := le; lp_db := db; lp_isLeader := false |}, [OnStopLeading], true)
        end
      else (st, [], true)
  end.

Fixpoint RunLeaderElection (env : nat → D → D) (st : loop_state) (rounds : list ready)
    : loop_state * list callback :=
  match rounds with
  | [] => (st, [])
  | r :: rounds =>
      let st := {| lp_le := lp_le st; lp_db := env (length rounds) (lp_db st); lp_isLeader := lp_isLeader st |} in
      let '(st, cbs, go) := election_round (env (length rounds)) st r in
      if go then let '(st, cbs') := RunLeaderElection env st rounds in (st, cbs ++ cbs')
      else (st, cbs)
  end.
End leader.

(** ** Rows of the table *)
Section table.
Context {D : Type} `{TableLaws LeaderLease Component D}.
Abbreviation rows := (tb_rows Component (D := D)).

Lemma component_row c d k l : rows d !! k = Some l → of_component c l = bool_decide (k = c).
Proof. intros Hk. unfold of_component. by rewrite (tb_rows_key Component _ _ _ Hk). Qed.

(** An update of rows of component [c] only. *)
Lemma update_component (p : LeaderLease → bool) f c d :
  (∀ l, p l = true → of_component c l = true) →
  update_rows p f (rows d) = match rows d !! c with
    | Some l => if p l then <[c := f l]> (rows d) else rows d
    | None => rows d
    end.
Proof.
  intros Hp.
  assert (Hother : ∀ k l, rows d !! k = Some l → k ≠ c → p l = false).
  { intros k l Hk Hne. destruct (p l) eqn:E; [|done]. apply Hp in E.
    rewrite (component_row _ _ _ _ Hk) in E. by apply bool_decide_eq_true in E. }
  apply map_eq. intros k. apply option_eq. intros r. rewrite lookup_update_rows. split.
  - intros (l & Hk & ->). destruct (decide (k = c)) as [->|Hne].
    + rewrite Hk. destruct (p l) eqn:E; [by rewrite lookup_insert_eq|done].
    + rewrite (Hother _ _ Hk Hne). destruct (rows d !! c) as [l'|]; [|done].
      destruct (p l'); [by rewrite lookup_insert_ne|done].
  - destruct (decide (k = c)) as [->|Hne].
    + destruct (rows d !! c) as [l|] eqn:El; [|by rewrite El]. destruct (p l) eqn:E.
      * rewrite lookup_insert_eq. intros [= <-]. exists l. by rewrite E.
      * rewrite El. intros [= <-]. exists l. by rewrite E.
    + intros Hk. assert (Hk' : rows d !! k = Some r).
      { destruct (rows d !! c) as [l|]; [|done]. destruct (p l); [by rewrite lookup_insert_ne in Hk|done]. }
      exists r. by rewrite (Hother _ _ Hk' Hne).
Qed.

Lemma matching_component (p : LeaderLease → bool) c d :
  (∀ l, p l = true → of_component c l = true) →
  0 < Z.of_nat (size (matching p (rows d))) ↔ ∃ l, rows d !! c = Some l ∧ p l = true.
Proof.
  intros Hp. rewrite size_matching_pos. split; [|naive_solver].
  intros (k & l & Hk & Hl). exists l. pose proof (Hp _ Hl) as Hc.
  rewrite (component_row _ _ _ _ Hk) in Hc. apply bool_decide_eq_true in Hc as <-. done.
Qed.

Lemma expired_component c now l : expired c now l = true → of_component c l = true.
Proof. unfold expired. by intros [? _]%andb_true_iff. Qed.
Lemma held_component c h l : held_by c h l = true → of_component c l = true.
Proof. unfold held_by. by intros [? _]%andb_true_iff. Qed.

Lemma expired_row c now d l : rows d !! c = Some l → expired c now l = bool_decide (ExpiresAt l < now).
Proof. intros Hl. unfold expired. rewrite (component_row _ _ _ _ Hl). by rewrite bool_decide_eq_true_2. Qed.
Lemma held_row c h d l : rows d !! c = Some l → held_by c h l = bool_decide (HolderID l = h).
Proof. intros Hl. unfold held_by. rewrite (component_row _ _ _ _ Hl). by rewrite bool_decide_eq_true_2. Qed.

(** What a statement leaves of the lease row. *)
Lemma acquire_update_row le d now :
  let '(le', d', r) := acquire_update le d now in
  holderID le' = holderID le ∧ component le' = component le ∧ leaseDuration le' = leaseDuration le ∧
  (∀ k, k ≠ component le → rows d' !! k = rows d !! k) ∧
  match r with
  | Some true => ∃ l, rows d !! component le = Some l ∧ ExpiresAt l < now ∧
      rows d' !! component le = Some (taken_over (holderID le) now (now + leaseDuration le) l)
  | Some false => rows d' = rows d ∧ (∀ l, rows d !! component le = Some l → now <= ExpiresAt l)
  | None => rows d' = rows d ∨ ∃ l, rows d !! component le = Some l ∧ ExpiresAt l < now ∧
      rows d' !! component le = Some (taken_over (holderID le) now (now + leaseDuration le) l)
  end.
Proof.
  unfold acquire_update. set (f := taken_over (holderID le) now (now + leaseDuration le)).
  pose proof (tb_Updates_spec Component d (expired (component le) now) f (λ _, eq_refl)) as Hu.
  pose proof (update_component (expired (component le) now) f (component le) d
    (expired_component _ _)) as Hup.
  pose proof (matching_component (expired (component le) now) (component le) d
    (expired_component _ _)) as Hm.
  assert (Hne : ∀ k, k ≠ component le →
    update_rows (expired (component le) now) f (rows d) !! k = rows d !! k).
  { intros k Hk. rewrite Hup. destruct (rows d !! component le) as [l|]; [|done].
    destruct (expired _ _ l); [by rewrite lookup_insert_ne|done]. }
  assert (Hnoop : (∀ l, rows d !! component le = Some l → ¬ ExpiresAt l < now) →
    update_rows (expired (component le) now) f (rows d) = rows d).
  { intros Hn. rewrite Hup. destruct (rows d !! component le) as [l|] eqn:El; [|done].
    rewrite (expired_row _ now _ _ El). rewrite bool_decide_eq_false_2; [done|by apply Hn]. }
  assert (Htake : ∀ l, rows d !! component le = Some l → ExpiresAt l < now →
    update_rows (expired (component le) now) f (rows d) !! component le = Some (f l)).
  { intros l El Hlt. rewrite Hup, El, (expired_row _ now _ _ El), bool_decide_eq_true_2 by done.
    by rewrite lookup_insert_eq. }
  destruct (tb_Updates d _ _) as [d' [n|e]]; simpl in Hu.
  - destruct Hu as [Hr Hn]. rewrite <-Hn in Hm. split_and!; try done; [by rewrite Hr|].
    destruct (decide (0 < n)) as [Hpos|Hpos].
    + rewrite bool_decide_eq_true_2 by done. apply Hm in Hpos as (l & El & Hex). exists l.
      rewrite (expired_row _ now _ _ El) in Hex. apply bool_decide_eq_true in Hex.
      split_and!; [done|done|]. rewrite Hr. by apply Htake.
    + rewrite bool_decide_eq_false_2 by done.
      assert (Hall : ∀ l, rows d !! component le = Some l → ¬ ExpiresAt l < now).
      { intros l El Hlt. apply Hpos, Hm. exists l. split; [done|].
        rewrite (expired_row _ now _ _ El). by apply bool_decide_eq_true. }
      split; [rewrite Hr; by apply Hnoop|]. intros l El. specialize (Hall l El). lia.
  - split_and!; try done; [destruct Hu as [-> | ->]; done|].
    destruct Hu as [Hr|Hr]; [by left|].
    destruct (rows d !! component le) as [l|] eqn:El; [destruct (decide (ExpiresAt l < now)) as [Hlt|Hge]|].
    + right. exists l. split_and!; [done|done|]. rewrite Hr. by apply Htake.
    + left. rewrite Hr. apply Hnoop. by intros l' [= <-].
    + left. rewrite Hr. apply Hnoop. done.
Qed.

Lemma acquire_insert_row le d now :
  let '(le', d', b) := acquire_insert le d now in
  let l := {| Component := component le; HolderID := holderID le; AcquiredAt := now;
              ExpiresAt := now + leaseDuration le; Version := 1 |} in
  holderID le' = holderID le ∧ component le' = component le ∧ leaseDuration le' = leaseDuration le ∧
  (∀ k, k ≠ component le → rows d' !! k = rows d !! k) ∧
  if b then rows d !! component le = None ∧ rows d' !! component le = Some l
  else rows d' = rows d ∨ rows d !! component le = None ∧ rows d' !! component le = Some l.
Proof.
  unfold acquire_insert. set (l := {| Version := 1 |}).
  pose proof (tb_Create_spec Component d l) as Hc. destruct (tb_Create d l) as [d' [e|]].
  - split_and!; try done.
    + intros k Hk. destruct Hc as [-> | ->]; [done|]. unfold insert_row. change (Component l) with (component le).
      destruct (rows d !! component le); [done|by rewrite lookup_insert_ne].
    + destruct Hc as [Hc|Hc]; [by left|]. unfold insert_row in Hc. change (Component l) with (component le) in Hc.
      destruct (rows d !! component le) eqn:El; [by left|]. right. rewrite Hc. by rewrite lookup_insert_eq.
  - change (Component l) with (component le) in Hc. destruct Hc as [Hn Hc]. split_and!; try done.
    + intros k Hk. rewrite Hc. by rewrite lookup_insert_ne.
    + rewrite Hc. by rewrite lookup_insert_eq.
Qed.

(** The condition of a renewal. *)
Definition fence (le : LeaderElection) (l : LeaderLease) : Prop :=
  HolderID l = holderID le ∧ Version l = currentVersion le.

Lemma Renew_row le d now :
  let '(le', d', b) := Renew le d now in
  holderID le' = holderID le ∧ component le' = component le ∧ leaseDuration le' = leaseDuration le ∧
  (∀ k, k ≠ component le → rows d' !! k = rows d !! k) ∧
  if b then isLeader le = true ∧ isLeader le' = true ∧ currentVersion le' = i64 (currentVersion le + 1) ∧
    ∃ l, rows d !! component le = Some l ∧ fence le l ∧
      rows d' !! component le = Some (taken_over (holderID le) now (now + leaseDuration le) l)
  else isLeader le' = false ∧ currentVersion le' = currentVersion le ∧
    (rows d' = rows d ∨ isLeader le = true ∧ ∃ l, rows d !! component le = Some l ∧ fence le l ∧
      rows d' !! component le = Some (taken_over (holderID le) now (now + leaseDuration le) l)).
Proof.
  unfold Renew. destruct (isLeader le) eqn:Hl; [|split_and!; try done; by left].
  set (p := λ l, held_by (component le) (holderID le) l && bool_decide (Version l = currentVersion le)).
  set (f := taken_over (holderID le) now (now + leaseDuration le)).
  assert (Hpc : ∀ l, p l = true → of_component (component le) l = true).
  { intros l [Hp _]%andb_true_iff. by apply held_component in Hp. }
  assert (Hpf : ∀ l, rows d !! component le = Some l → p l = true ↔ fence le l).
  { intros l El. unfold p, fence. rewrite (held_row _ _ _ _ El), andb_true_iff, !bool_decide_eq_true. done. }
  pose proof (tb_Updates_spec Component d p f (λ _, eq_refl)) as Hu.
  pose proof (update_component p f (component le) d Hpc) as Hup.
  pose proof (matching_component p (component le) d Hpc) as Hm.
  assert (Hne : ∀ k, k ≠ component le → update_rows p f (rows d) !! k = rows d !! k).
  { intros k Hk. rewrite Hup. destruct (rows d !! component le) as [l|]; [|done].
    destruct (p l); [by rewrite lookup_insert_ne|done]. }
  destruct (tb_Updates d p f) as [d' [n|e]]; simpl in Hu.
  - destruct Hu as [Hr Hn]. rewrite <-Hn in Hm. case_decide as Hpos.
    + split_and!; try done; [by rewrite Hr|]. apply Hm in Hpos as (l & El & Hp). exists l.
      split_and!; [done|by apply Hpf|]. rewrite Hr, Hup, El, Hp. by rewrite lookup_insert_eq.
    + split_and!; try done; [by rewrite Hr|]. left. rewrite Hr, Hup.
      destruct (rows d !! component le) as [l|] eqn:El; [|done]. destruct (p l) eqn:Hp; [|done].
      exfalso. apply Hpos, Hm. by exists l.
  - split_and!; try done; [by destruct Hu as [-> | ->]|].
    destruct Hu as [Hr|Hr]; [by left|].
    destruct (rows d !! component le) as [l|] eqn:El; [|left; by rewrite Hr, Hup].
    destruct (p l) eqn:Hp; [|left; by rewrite Hr, Hup].
    right. split; [done|]. exists l. split_and!; [done|by apply Hpf|]. rewrite Hr, Hup.
    by rewrite lookup_insert_eq.
Qed.

Lemma Release_row le d now :
  rows (Release le d now).2 = rows d ∨
  ∃ l, rows d !! component le = Some l ∧ HolderID l = holderID le ∧
    rows (Release le d now).2 = <[component le := expired_at (now - Second) l]> (rows d).
Proof.
  unfold Release. simpl.
  set (p := held_by (component le) (holderID le)). set (f := expired_at (now - Second)).
  pose proof (tb_Updates_spec Component d p f (λ _, eq_refl)) as Hu.
  pose proof (update_component p f (component le) d (held_component _ _)) as Hup.
  destruct (tb_Updates d p f) as [d' res]; simpl.
  assert (Hr : rows d' = rows d ∨ rows d' = update_rows p f (rows d))
    by (destruct res; simpl in Hu; [right; apply Hu|done]).
  destruct Hr as [Hr|Hr]; [by left|]. rewrite Hup in Hr.
  destruct (rows d !! component le) as [l|] eqn:El; [|by left]. destruct (p l) eqn:Hp; [|by left].
  right. exists l. unfold p in Hp. rewrite (held_row _ _ _ _ El) in Hp. by apply bool_decide_eq_true in Hp.
Qed.
End table.

(** ** Replicas competing for one component *)
Section system.
Context {D : Type} `{TableLaws LeaderLease Component D}.
Abbreviation rows := (tb_rows Component (D := D)).
Context (c : string).

(** The replicas by holder id. [sy_pending] has the replicas in the middle of
    [TryAcquire], with the clock reading of the call: [true] before the
    read-back, [false] before the insertion. [sy_deadline] is the expiry each
    one computed at its last successful take-over, insertion or renewal. *)
Record sys := {
  sy_db : D;
  sy_clock : Z;
  sy_replicas : gmap string LeaderElection;
  sy_pending : gmap string (bool * Z);
  sy_deadline : gmap string Z }.

Inductive step : sys → sys → Prop :=
| step_tick s t : sy_clock s <= t →
    step s {| sy_db := sy_db s; sy_clock := t; sy_replicas := sy_replicas s;
              sy_pending := sy_pending s; sy_deadline := sy_deadline s |}
| step_update s h le now le' d r :
    sy_replicas s !! h = Some le → sy_pending s !! h = None → now <= sy_clock s →
    acquire_update le (sy_db s) now = (le', d, r) →
    step s {| sy_db := d; sy_clock := sy_clock s; sy_replicas := <[h := le']> (sy_replicas s);
              sy_pending := match r with Some b => <[h := (b, now)]> (sy_pending s) | None => sy_pending s end;
              sy_deadline := match r with Some true => <[h := now + leaseDuration le]> (sy_deadline s)
                                        | _ => sy_deadline s end |}
| step_readback s h le now le' b :
    sy_replicas s !! h = Some le → sy_pending s !! h = Some (true, now) →
    acquire_readback le (sy_db s) = (le', b) →
    step s {| sy_db := sy_db s; sy_clock := sy_clock s; sy_replicas := <[h := le']> (sy_replicas s);
              sy_pending := delete h (sy_pending s); sy_deadline := sy_deadline s |}
| step_insert s h le now le' d b :
    sy_replicas s !! h = Some le → sy_pending s !! h = Some (false, now) → now <= sy_clock s →
    acquire_insert le (sy_db s) now = (le', d, b) →
    step s {| sy_db := d; sy_clock := sy_clock s; sy_replicas := <[h := le']> (sy_replicas s);
              sy_pending := delete h (sy_pending s);
              sy_deadline := if b then <[h := now + leaseDuration le]> (sy_deadline s) else sy_deadline s |}
| step_renew s h le now le' d b :
    sy_replicas s !! h = Some le → sy_pending s !! h = None → now <= sy_clock s →
    (∀ t, sy_deadline s !! h = Some t → t <= now + leaseDuration le) →
    Renew le (sy_db s) now = (le', d, b) →
    step s {| sy_db := d; sy_clock := sy_clock s; sy_replicas := <[h := le']> (sy_replicas s);
              sy_pending := sy_pending s;
              sy_deadline := if b then <[h := now + leaseDuration le]> (sy_deadline s) else sy_deadline s |}
| step_release s h le now le' d :
    sy_replicas s !! h = Some le → sy_pending s !! h = None → now <= sy_clock s →
    Release le (sy_db s) now = (le', d) →
    step s {| sy_db := d; sy_clock := sy_clock s; sy_replicas := <[h := le']> (sy_replicas s);
              sy_pending := sy_pending s; sy_deadline := delete h (sy_deadline s) |}.

(** [h] has the lease: the expiry it knows of has not passed. *)
Definition has_lease (s : sys) (h : string) : Prop :=
  ∃ t, sy_deadline s !! h = Some t ∧ sy_clock s <= t.

Definition named (s : sys) : Prop :=
  ∀ h le, sy_replicas s !! h = Some le → holderID le = h ∧ component le = c.

Definition backed (s : sys) : Prop :=
  ∀ h t, sy_deadline s !! h = Some t → sy_clock s <= t →
    ∃ l, rows (sy_db s) !! c = Some l ∧ HolderID l = h ∧ t <= ExpiresAt l.

(** A row whose expiry has passed backs no lease. *)
Lemma not_backed s h t now :
  backed s → sy_deadline s !! h = Some t → sy_clock s <= t → now <= sy_clock s →
  (∀ l, rows (sy_db s) !! c = Some l → ExpiresAt l < now) → False.
Proof. intros Hb Hh Hc Hn Hall. destruct (Hb _ _ Hh Hc) as (l & Hl & _ & ?). specialize (Hall l Hl). lia. Qed.

Lemma named_insert s h le le' d cl p dl :
  named s → sy_replicas s !! h = Some le → holderID le' = holderID le → component le' = component le →
  named {| sy_db := d; sy_clock := cl; sy_replicas := <[h := le']> (sy_replicas s); sy_pending := p; sy_deadline := dl |}.
Proof.
  intros Hn Hh Hid Hcomp h' x Hx. simpl in Hx.
  apply lookup_insert_Some in Hx as [[<- <-]|[_ Hx]]; [|by apply Hn].
  rewrite Hid, Hcomp. by apply Hn.
Qed.

Lemma named_step s s' : named s → step s s' → named s'.
Proof.
  intros Hn Hs. destruct Hs as [s t Ht|s h le now le' d r Hh Hp Hc He|s h le now le' b Hh Hp He
    |s h le now le' d b Hh Hp Hc He|s h le now le' d b Hh Hp Hc Hx He|s h le now le' d Hh Hp Hc He].
  - exact Hn.
  - pose proof (acquire_update_row le (sy_db s) now) as Hr. rewrite He in Hr. eapply named_insert; naive_solver.
  - unfold acquire_readback in He. eapply named_insert; [done|done| |]; by destruct (tb_First _ _); simplify_eq.
  - pose proof (acquire_insert_row le (sy_db s) now) as Hr. rewrite He in Hr. simpl in Hr.
    eapply named_insert; [done|done|apply Hr|apply Hr].
  - pose proof (Renew_row le (sy_db s) now) as Hr. rewrite He in Hr.
    eapply named_insert; [done|done|apply Hr|apply Hr].
  - unfold Release in He. injection He as <- <-. by eapply named_insert.
Qed.

Lemma lease_backed_step s s' : named s → backed s → step s s' → backed s'.
Proof.
  intros Hn Hb Hs. destruct Hs as [s t Ht|s h le now le' d r Hh Hp Hc He|s h le now le' b Hh Hp He
    |s h le now le' d b Hh Hp Hc He|s h le now le' d b Hh Hp Hc Hx He|s h le now le' d Hh Hp Hc He];
    intros h' dl Hd Hle; simpl in *; try (destruct (Hn _ _ Hh) as [Hid Hcomp]).
  - apply (Hb _ _ Hd). lia.
  - pose proof (acquire_update_row le (sy_db s) now) as Hr. rewrite He in Hr.
    destruct Hr as (_ & _ & _ & _ & Hr). rewrite Hcomp in Hr.
    destruct r as [[|]|].
    + destruct Hr as (l & Hl & Hex & Hl'). apply lookup_insert_Some in Hd as [[<- <-]|[_ Hd]].
      * rewrite Hl'. eexists. split; [done|]. simpl. split; [done|lia].
      * exfalso. eapply (not_backed s h' dl now); [done|done|done|done|]. intros ? Hl2. by simplify_eq.
    + destruct Hr as [-> _]. by apply Hb.
    + destruct Hr as [->|(l & Hl & Hex & Hl')]; [by apply Hb|].
      exfalso. eapply (not_backed s h' dl now); [done|done|done|done|]. intros ? Hl2. by simplify_eq.
  - by apply Hb.
  - pose proof (acquire_insert_row le (sy_db s) now) as Hr. rewrite He in Hr. simpl in Hr.
    destruct Hr as (_ & _ & _ & _ & Hr). rewrite Hcomp in Hr. destruct b.
    + destruct Hr as [Hnone Hl]. apply lookup_insert_Some in Hd as [[<- <-]|[_ Hd]].
      * rewrite Hl. eexists. split; [done|]. simpl. split; [done|lia].
      * destruct (Hb _ _ Hd Hle) as (l & Hl2 & _). congruence.
    + destruct Hr as [->|[Hnone _]]; [by apply Hb|].
      destruct (Hb _ _ Hd Hle) as (l & Hl2 & _). congruence.
  - pose proof (Renew_row le (sy_db s) now) as Hr. rewrite He in Hr.
    destruct Hr as (_ & _ & _ & _ & Hr). rewrite Hcomp in Hr.
    assert (Hext : ∀ l, rows (sy_db s) !! c = Some l → fence le l → sy_deadline s !! h' = Some dl →
      ∃ l', Some (taken_over (holderID le) now (now + leaseDuration le) l) = Some l' ∧ HolderID l' = h' ∧ dl <= ExpiresAt l').
    { intros l Hl [Hf _] Hd'. destruct (Hb _ _ Hd' Hle) as (l2 & Hl2 & Hh2 & _). simplify_eq.
      eexists. split; [done|]. simpl. split; [congruence|]. apply Hx. rewrite <-Hd'. f_equal. congruence. }
    destruct b.
    + destruct Hr as (_ & _ & _ & l & Hl & Hf & ->). apply lookup_insert_Some in Hd as [[<- <-]|[_ Hd]].
      * eexists. split; [done|]. simpl. split; [done|lia].
      * by apply Hext.
    + destruct Hr as (_ & _ & [->|(_ & l & Hl & Hf & ->)]); [by apply Hb|by apply Hext].
  - apply lookup_delete_Some in Hd as [Hne Hd]. destruct (Hb _ _ Hd Hle) as (l & Hl & Hh' & Hdl).
    exists l. split; [|done]. pose proof (Release_row le (sy_db s) now) as Hr. rewrite He in Hr. simpl in Hr.
    destruct Hr as [->|(l2 & Hl2 & Hh2 & _)]; [done|]. rewrite Hcomp in Hl2. congruence.
Qed.

(** C27: at most one replica has an unexpired lease at any time, however the
    statements of their acquisitions, renewals and releases interleave, also
    when answers of the database are lost; and the lease row is that replica's. *)
Theorem lease_exclusive s0 s :
  named s0 → sy_deadline s0 = ∅ → rtc step s0 s →
  ∀ h1, has_lease s h1 →
    (∀ h2, has_lease s h2 → h1 = h2) ∧
    ∃ l, rows (sy_db s) !! c = Some l ∧ HolderID l = h1 ∧ sy_clock s <= ExpiresAt l.
Proof.
  intros Hn Hnone Hr.
  assert (Hb : backed s).
  { assert (Hb0 : backed s0) by (intros ?? Hh; by rewrite Hnone in Hh).
    clear Hnone. induction Hr as [|s0 s1 s2 Hs _ IH]; [done|].
    by apply IH; [eapply named_step|eapply lease_backed_step]. }
  intros h1 (t1 & Ht1 & Hc1). destruct (Hb _ _ Ht1 Hc1) as (l1 & Hl1 & Hh1 & Hd1). split.
  - intros h2 (t2 & Ht2 & Hc2). destruct (Hb _ _ Ht2 Hc2) as (l2 & Hl2 & Hh2 & _). congruence.
  - exists l1. split_and!; [done|done|lia].
Qed.
End system.

(** ** A single call *)
Section calls.
Context {D : Type} `{TableLaws LeaderLease Component D}.
Abbreviation rows := (tb_rows Component (D := D)).

(** An undisturbed [TryAcquire] on a database that is up succeeds exactly
    when the component has no lease yet or an expired one, of whichever
    holder. It then owns the row, and remembers its version, one more than
    before; an unexpired lease is left as it is, even the caller's own. *)
Theorem TryAcquire_takes_expired le d now :
  tb_up Component d →
  (∀ l, rows d !! component le = Some l → in_i64 (Version l + 1)) →
  let '(le', d', b) := TryAcquire (λ d, d) le d now in
  isLeader le' = b ∧
  (b = true ↔ ∀ l, rows d !! component le = Some l → ExpiresAt l < now) ∧
  if b then ∃ l', rows d' !! component le = Some l' ∧ HolderID l' = holderID le ∧
      ExpiresAt l' = now + leaseDuration le ∧ Version l' = currentVersion le' ∧
      Version l' = match rows d !! component le with Some l => Version l + 1 | None => 1 end
  else rows d' = rows d.
Proof.
  intros Hup Hv. unfold TryAcquire. pose proof (acquire_update_row le d now) as Hu.
  assert (Hok : ∃ b, (acquire_update le d now).2 = Some b ∧ tb_up Component (acquire_update le d now).1.2 ∧
    (acquire_update le d now).1.1 = le).
  { unfold acquire_update. destruct (tb_Updates_up Component d (expired (component le) now)
      (taken_over (holderID le) now (now + leaseDuration le)) Hup) as [Hup' Hok].
    destruct (tb_Updates d _ _) as [d' [n|e]]; [|done]. by eexists. }
  destruct (acquire_update le d now) as [[le1 d1] r]. simpl in Hok. destruct Hok as (b & -> & Hup1 & ->).
  destruct Hu as (_ & _ & _ & _ & Hu). destruct b.
  - destruct Hu as (l & Hl & Hex & Hl1). unfold acquire_readback.
    assert (Hfirst : ∃ l2, tb_First d1 (of_component (component le)) = Ok l2 ∧
      l2 = taken_over (holderID le) now (now + leaseDuration le) l).
    { assert (Hone : matching (of_component (component le)) (rows d1) ≠ ∅).
      { intros He. assert (Hf := proj1 (matching_empty _ _) He _ _ Hl1).
        rewrite (component_row _ _ _ _ Hl1), bool_decide_eq_true_2 in Hf by done. done. }
      pose proof (tb_First_up Component d1 _ Hup1 Hone) as Hok.
      destruct (tb_First d1 _) as [l2|e] eqn:Ef; [|done]. exists l2. split; [done|].
      apply (tb_First_spec Component) in Ef as (k & Hk & Hc). rewrite (component_row _ _ _ _ Hk) in Hc.
      apply bool_decide_eq_true in Hc as ->. congruence. }
    destruct Hfirst as (l2 & -> & ->). simpl. split_and!; [done| |].
    + split; [|done]. intros _ l' Hl'. congruence.
    + eexists. split_and!; [done|done|done|done|]. simpl. rewrite Hl. apply i64_id. by apply Hv.
  - destruct Hu as [Hr Hge]. pose proof (acquire_insert_row le d1 now) as Hi.
    unfold acquire_insert in *. set (new := {| Version := 1 |}) in *.
    destruct (tb_Create_up Component d1 new Hup1) as (_ & Hfresh & Hrows).
    destruct (tb_Create d1 new) as [d2 [e|]]; simpl in *; destruct Hi as (_ & _ & _ & _ & Hi).
    + rewrite Hr in *. destruct (rows d !! component le) as [l|] eqn:El; [|by specialize (Hfresh eq_refl)].
      split_and!; [done| |].
      * split; [done|]. intros Hall. specialize (Hge l eq_refl). specialize (Hall l eq_refl). lia.
      * rewrite Hrows. unfold insert_row. simpl. by rewrite El.
    + rewrite Hr in *. destruct Hi as [Hnone Hl]. split_and!; [done| |].
      * split; [|done]. intros _ l Hl'. congruence.
      * exists new. split_and!; try done. by rewrite Hnone.
Qed.

(** A renewal succeeds only for the leader whose row still has its holder
    id and the version it remembers; the row's expiry then moves on, and row
    and memory advance to the same next version. A replica whose lease another
    one has taken over in the meantime loses leadership and leaves the row as
    it is. *)
Theorem Renew_fenced le d now :
  tb_up Component d →
  let '(le', d', b) := Renew le d now in
  isLeader le' = b ∧
  (b = true ↔ isLeader le = true ∧ ∃ l, rows d !! component le = Some l ∧
     HolderID l = holderID le ∧ Version l = currentVersion le) ∧
  if b then ∃ l', rows d' !! component le = Some l' ∧ HolderID l' = holderID le ∧
      ExpiresAt l' = now + leaseDuration le ∧ Version l' = currentVersion le'
  else rows d' = rows d.
Proof.
  intros Hup. pose proof (Renew_row le d now) as Hr.
  assert (Hok : isLeader le = true → ∃ d' n, tb_Updates d
      (λ l, held_by (component le) (holderID le) l && bool_decide (Version l = currentVersion le))
      (taken_over (holderID le) now (now + leaseDuration le)) = (d', Ok n) ∧
      (0 < n ↔ ∃ l, rows d !! component le = Some l ∧ fence le l)).
  { intros _. match goal with |- ∃ _ _, tb_Updates d ?p ?f = _ ∧ _ =>
      pose proof (tb_Updates_spec Component d p f (λ _, eq_refl)) as Hs;
      destruct (tb_Updates_up Component d p f Hup) as [_ Hok]; set (q := p) in * end.
    destruct (tb_Updates d q _) as [d' [n|e]]; [|done]. exists d', n. split; [done|]. destruct Hs as [_ ->].
    rewrite (matching_component q (component le)).
    - split; intros (l & Hl & Hp); exists l; (split; [done|]); revert Hp; unfold q, fence;
        rewrite (held_row _ _ _ _ Hl), andb_true_iff, !bool_decide_eq_true; done.
    - intros l [Hp _]%andb_true_iff. by apply held_component in Hp. }
  unfold Renew in *. destruct (isLeader le) eqn:Hl.
  2: { split_and!; [done|naive_solver|done]. }
  destruct (Hok eq_refl) as (d' & n & Hu & Hn). rewrite Hu in *. case_decide as Hpos.
  - destruct Hr as (_ & _ & _ & _ & _ & _ & _ & l & El & [Hh Hv] & Hl'). split_and!; [done| |].
    + split; [|done]. intros _. split; [done|]. by exists l.
    + eexists. split; [done|]. simpl. split_and!; try done. by rewrite Hv.
  - destruct Hr as (_ & _ & _ & _ & _ & _ & Hr). split_and!; [done| |].
    + split; [done|]. intros [_ (l & El & Hh & Hv)]. exfalso. apply Hpos, Hn. by exists l.
    + destruct Hr as [Hr|(_ & l & El & Hf & _)]; [done|]. exfalso. apply Hpos, Hn. by exists l.
Qed.
End calls.

(** ** The loop *)
Section loop.
Context {D : Type} `{Table LeaderLease D}.

(** [cbs] alternates, starting with a start unless [b], a leader. *)
Fixpoint alternates (b : bool) (cbs : list callback) : Prop :=
  match cbs with
  | [] => True
  | OnStartLeading :: cbs => b = false ∧ alternates true cbs
  | OnStopLeading :: cbs => b = true ∧ alternates false cbs
  end.

(** Whether the last callback was a start, [b] before. *)
Definition leading (b : bool) (cbs : list callback) : bool :=
  foldl (λ _ cb, match cb with OnStartLeading => true | OnStopLeading => false end) b cbs.

Lemma alternates_app b l k : alternates b l → alternates (leading b l) k → alternates b (l ++ k).
Proof. revert b. induction l as [|[|] l IH]; intros b; simpl; [done|..]; intros [-> ?] ?; (split; [done|by apply IH]). Qed.

Lemma round_alternates env st r st' cbs go :
  election_round env st r = (st', cbs, go) →
  alternates (lp_isLeader st) cbs ∧
  (if go then lp_isLeader st' = leading (lp_isLeader st) cbs else leading (lp_isLeader st) cbs = false).
Proof.
  destruct st as [le d b]. destruct r as [now|now|now|now]; simpl; unfold stop_loop; simpl; destruct b;
    try (destruct (TryAcquire _ _ _ _) as [[??] []]); try (destruct (Renew _ _ _) as [[??] []]);
    intros; simplify_eq/=; done.
Qed.

Definition is_stop (r : ready) : Prop := match r with CtxDone _ | StopCh _ => True | _ => False end.

Lemma loop_alternates env st rounds st' cbs :
  RunLeaderElection env st rounds = (st', cbs) →
  alternates (lp_isLeader st) cbs ∧ (Exists is_stop rounds → leading (lp_isLeader st) cbs = false).
Proof.
  revert st cbs. induction rounds as [|r rounds IH]; intros st cbs Hrun; cbn [RunLeaderElection] in Hrun.
  { injection Hrun as <- <-. split; [done|]. by intros ?%Exists_nil. }
  destruct (election_round _ _ r) as [[st1 cbs1] go] eqn:He.
  pose proof (round_alternates _ _ _ _ _ _ He) as [Ha Hgo]. simpl in Ha, Hgo. destruct go.
  - destruct (RunLeaderElection env st1 rounds) as [st2 cbs2] eqn:Er. injection Hrun as <- <-.
    destruct (IH _ _ Er) as [Ha2 Hl2]. rewrite Hgo in Ha2, Hl2. split; [by apply alternates_app|].
    intros Hex. unfold leading in *. rewrite foldl_app. apply Hl2.
    apply Exists_cons in Hex as [Hr|Hr]; [|done]. exfalso. by destruct r.
  - injection Hrun as <- <-. by split.
Qed.

(** whatever the order in which the channels become ready and whatever the
    database answers, [onStartLeading] and [onStopLeading] are called in strict
    alternation, the start first; and when the loop is left because of the
    context or the stop channel, the last call, if any, was a stop. *)
Theorem callbacks_alternate env st rounds st' cbs :
  RunLeaderElection env st rounds = (st', cbs) → lp_isLeader st = false →
  alternates false cbs ∧ (Exists is_stop rounds → leading false cbs = false).
Proof. intros Hrun Hl. pose proof (loop_alternates _ _ _ _ _ Hrun) as Ha. by rewrite Hl in Ha. Qed.
End loop.

(** ** On the reference table *)
Module LeaderExample.
Abbreviation DB := (gmap string LeaderLease).
#[local] Instance ref_ops : Table LeaderLease DB := RefTable.ops Component.
#[local] Instance ref_laws : TableLaws Component DB := RefTable.laws Component.

Definition le_a : LeaderElection := NewLeaderElection "counter" "a" [].
Definition le_b : LeaderElection := NewLeaderElection "counter" "b" [].

Definition start : sys (D := DB) :=
  {| sy_db := ∅; sy_clock := 0; sy_replicas := <["b" := le_b]> {["a" := le_a]};
     sy_pending := ∅; sy_deadline := ∅ |}.

(** [a] finds no row to update and inserts one. *)
Definition mid : sys (D := DB) :=
  {| sy_db := ∅; sy_clock := sy_clock start; sy_replicas := <["a" := le_a]> (sy_replicas start);
     sy_pending := <["a" := (false, 0)]> (sy_pending start); sy_deadline := sy_deadline start |}.
Definition led : sys (D := DB) :=
  {| sy_db := (acquire_insert le_a (∅ : DB) 0).1.2; sy_clock := sy_clock mid;
     sy_replicas := <["a" := set_leader le_a true 1]> (sy_replicas mid);
     sy_pending := delete "a" (sy_pending mid);
     sy_deadline := <["a" := 0 + leaseDuration le_a]> (sy_deadline mid) |}.

Lemma start_led : rtc step start led.
Proof.
  apply (rtc_l _ _ mid).
  - exact (step_update start "a" le_a 0 le_a (∅ : DB) (Some false) ltac:(vm_compute; reflexivity) eq_refl
      ltac:(vm_compute; discriminate) ltac:(vm_compute; reflexivity)).
  - apply rtc_once. exact (step_insert mid "a" le_a 0 (set_leader le_a true 1) (acquire_insert le_a (∅ : DB) 0).1.2 true
      ltac:(vm_compute; reflexivity) ltac:(vm_compute; reflexivity) ltac:(vm_compute; discriminate)
      ltac:(vm_compute; reflexivity)).
Qed.

Lemma lease_exclusive_witness : has_lease led "a" ∧ ∀ h, has_lease led h → "a" = h.
Proof.
  assert (Ha : has_lease led "a") by (exists DefaultLeaseDuration; split; [reflexivity|vm_compute; discriminate]).
  assert (Hn : named "counter" start).
  { intros h le Hh. simpl in Hh. apply lookup_insert_Some in Hh as [[<- <-]|[_ Hh]]; [done|].
    by apply lookup_singleton_Some in Hh as [<- <-]. }
  split; [exact Ha|]. exact (proj1 (lease_exclusive "counter" start led Hn eq_refl start_led "a" Ha)).
Defined.

(** The lease of [a] has lapsed. *)
Definition old : LeaderLease :=
  {| Component := "counter"; HolderID := "a"; AcquiredAt := 0; ExpiresAt := 30; Version := 4 |}.
Definition lapsed : DB := {["counter" := old]}.

Lemma lapsed_row l : tb_rows Component lapsed !! "counter" = Some l → l = old.
Proof.
  assert (Hr : tb_rows Component lapsed !! "counter" = Some old) by (vm_compute; reflexivity).
  rewrite Hr. by intros [= <-].
Qed.

Lemma TryAcquire_takes_expired_witness :
  (TryAcquire (λ d, d) le_b lapsed 31).2 = true ∧ (TryAcquire (λ d, d) le_b lapsed 30).2 = false.
Proof.
  assert (Hup : tb_up Component lapsed) by exact I.
  assert (Hv : ∀ l, tb_rows Component lapsed !! component le_b = Some l → in_i64 (Version l + 1)).
  { intros l Hl. rewrite (lapsed_row l Hl). vm_compute. split; discriminate. }
  split.
  - pose proof (TryAcquire_takes_expired le_b lapsed 31 Hup Hv) as Ht.
    destruct (TryAcquire _ le_b lapsed 31) as [[le d] b]. destruct Ht as (_ & Hb & _). apply Hb.
    intros l Hl. rewrite (lapsed_row l Hl). reflexivity.
  - pose proof (TryAcquire_takes_expired le_b lapsed 30 Hup Hv) as Ht.
    destruct (TryAcquire _ le_b lapsed 30) as [[le d] b]. destruct Ht as (_ & Hb & _). simpl.
    destruct b; [|reflexivity]. exfalso.
    pose proof (proj1 Hb eq_refl old ltac:(vm_compute; reflexivity)) as Hlt. simpl in Hlt. lia.
Defined.

(** [a] believes in version 3 of a row that is at version 4. *)
Lemma Renew_fenced_witness :
  (Renew (set_leader le_a true 4) lapsed 20).2 = true ∧ (Renew (set_leader le_a true 3) lapsed 20).2 = false.
Proof.
  assert (Hup : tb_up Component lapsed) by exact I. split.
  - pose proof (Renew_fenced (set_leader le_a true 4) lapsed 20 Hup) as Hr.
    destruct (Renew _ lapsed 20) as [[le d] b]. destruct Hr as (_ & Hb & _). apply Hb. split; [reflexivity|].
    exists old. split; [vm_compute; reflexivity|split; reflexivity].
  - pose proof (Renew_fenced (set_leader le_a true 3) lapsed 20 Hup) as Hr.
    destruct (Renew _ lapsed 20) as [[le d] b]. destruct Hr as (_ & Hb & _). simpl.
    destruct b; [|reflexivity]. exfalso. destruct (proj1 Hb eq_refl) as (_ & l & Hl & _ & Hv).
    rewrite (lapsed_row l Hl) in Hv. discriminate Hv.
Defined.

Definition run : loop_state (D := DB) * list callback :=
  RunLeaderElection (λ _ d, d) {| lp_le := le_b; lp_db := lapsed; lp_isLeader := false |}
    [AcquireTick 5; AcquireTick 31; RenewTick 40; StopCh 45].

Lemma callbacks_alternate_witness :
  run.2 = [OnStartLeading; OnStopLeading] ∧ leading false run.2 = false.
Proof.
  split; [vm_compute; reflexivity|].
  apply (proj2 (callbacks_alternate _ _ _ run.1 run.2 (surjective_pairing run) eq_refl)).
  apply Exists_exists. exists (StopCh 45). split; [|exact I]. do 3 right. left.
Defined.
End LeaderExample.
