(* ===== verification/Terms.v ===== *)
(** The leadership terms of the components that run informers: [Start] and
    [startBusinessLogic] of pkg/core/discovery/component.go and
    pkg/core/engine/component.go, which are the same up to their fields. *)
From S2P Require Import Prelude GoStrings Errors Resource Configuration Libs Gorm EventBus Informer Leader.

Open Scope string_scope.
Open Scope list_scope.
Open Scope nat_scope.

(** What the components ask of a [controller.ResourceListerWatcher]; not every
    one is a [ResourceKeyProvider]. *)
Record ResourceListerWatcher := {
  lw_ResourceKind : string;
  lw_TransformFunc : option TransformFunc;
  lw_KeyFunc : option (obj → result error string) }.

(** An informer with what it was made of; [S] is a store. *)
Record wired (S : Type) := {
  wi_lw : ResourceListerWatcher;
  wi_store : S;
  wi_keyFunc : obj → result error string;
  wi_informer : informer }.
Arguments wi_lw {S}.
Arguments wi_store {S}.
Arguments wi_keyFunc {S}.
Arguments wi_informer {S}.
Arguments Build_wired {S}.

Definition with_informer {S} (w : wired S) (s : informer) : wired S :=
  {| wi_lw := wi_lw w; wi_store := wi_store w; wi_keyFunc := wi_keyFunc w; wi_informer := s |}.

(** Informers are numbered by their creation. *)
Record discoveryComponent := {
  di_configs : list DiscoveryConfig;
  di_informers : gmap string (list nat);
  di_subscribers : list Subscriber;
  di_leaderElection : option LeaderElection;
  di_subscribed : bool }.
Record engineComponent := {
  en_name : string;
  en_informers : list nat;
  en_subscribers : list Subscriber;
  en_leaderElection : option LeaderElection;
  en_subscribed : bool }.

(** What [startBusinessLogic] uses of either. *)
Class Business (C : Type) := {
  bs_subscribers : C → list Subscriber;
  bs_informers : C → list nat;
  bs_subscribed : C → bool;
  bs_set_subscribed : C → C;
  bs_leaderElection : C → option LeaderElection;
  bs_error : Subscriber → error → error }.
Class BusinessLaws C `{Business C} := {
  bs_set_informers c : bs_informers (bs_set_subscribed c) = bs_informers c;
  bs_set_subscribers c : bs_subscribers (bs_set_subscribed c) = bs_subscribers c;
  bs_set_set c : bs_subscribed (bs_set_subscribed c) = true }.

Section instances.
Context `{MapRange}.

#[export] Instance discovery_business : Business discoveryComponent := {
  bs_subscribers := di_subscribers;
  bs_informers d := (go_range (di_informers d)).*2 ≫= id;
  bs_subscribed := di_subscribed;
  bs_set_subscribed d :=
    {| di_configs := di_configs d; di_informers := di_informers d;
       di_subscribers := di_subscribers d; di_leaderElection := di_leaderElection d;
       di_subscribed := true |};
  bs_leaderElection := di_leaderElection;
  bs_error sub err := biz_wrap err EventError
    ("subscriber " +:+ sub_Name sub +:+ " can not subscribe resource changed events") }.
#[export] Instance discovery_laws : BusinessLaws discoveryComponent.
Proof. by split. Qed.

#[export] Instance engine_business : Business engineComponent := {
  bs_subscribers := en_subscribers;
  bs_informers := en_informers;
  bs_subscribed := en_subscribed;
  bs_set_subscribed e :=
    {| en_name := en_name e; en_informers := en_informers e;
       en_subscribers := en_subscribers e; en_leaderElection := en_leaderElection e;
       en_subscribed := true |};
  bs_leaderElection := en_leaderElection;
  bs_error sub err := errorf_w ("could not subscribe " +:+ sub_Name sub +:+ " to eventbus, ") err "" }.
#[export] Instance engine_laws : BusinessLaws engineComponent.
Proof. by split. Qed.
End instances.

(** ** One replica

    Channels are numbered by their [make]; the process keeps whether each is
    closed. [go informer.Run(stopCh)] is in [rp_goroutines] until it is
    scheduled, in [rp_entered] between the two critical sections of [Run], and
    in [rp_running] while [controller.Run] has not returned. *)
Section replica.
Context {S C : Type} `{Business C}.

Fixpoint subscribe_all (bus : eventBus) (subs : list Subscriber) : eventBus * option error :=
  match subs with
  | [] => (bus, None)
  | sub :: subs =>
      match Subscribe bus sub with
      | (bus, Some err) => (bus, Some (bs_error sub err))
      | (bus, None) => subscribe_all bus subs
      end
  end.

Definition startBusinessLogic (c : C) (bus : eventBus) (stopCh : nat)
    : C * eventBus * list (nat * nat) * option error :=
  if bs_subscribed c then (c, bus, (λ i, (i, stopCh)) <$> bs_informers c, None)
  else
    match subscribe_all bus (bs_subscribers c) with
    | (bus, Some err) => (c, bus, [], Some err)
    | (bus, None) =>
        (bs_set_subscribed c, bus, (λ i, (i, stopCh)) <$> bs_informers c, None)
    end.

Record replica := {
  rp_component : C;
  rp_bus : eventBus;
  rp_heap : list (wired S);
  rp_channels : list bool;
  rp_leaderStopCh : option nat;
  rp_goroutines : list (nat * nat);
  rp_entered : list (nat * nat);
  rp_running : list (nat * nat) }.

Definition onStartLeading (r : replica) : replica :=
  let ch := length (rp_channels r) in
  let '(c, bus, gos, _) := startBusinessLogic (rp_component r) (rp_bus r) ch in
  {| rp_component := c; rp_bus := bus; rp_heap := rp_heap r;
     rp_channels := rp_channels r ++ [false]; rp_leaderStopCh := Some ch;
     rp_goroutines := rp_goroutines r ++ gos; rp_entered := rp_entered r;
     rp_running := rp_running r |}.

Definition onStopLeading (r : replica) : replica :=
  match rp_leaderStopCh r with
  | None => r
  | Some ch =>
      {| rp_component := rp_component r; rp_bus := rp_bus r; rp_heap := rp_heap r;
         rp_channels := <[ch := true]> (rp_channels r); rp_leaderStopCh := None;
         rp_goroutines := rp_goroutines r; rp_entered := rp_entered r; rp_running := rp_running r |}
  end.

(** [Start] without an election: the channel is the one of the process. *)
Definition Start_unelected (r : replica) (ch : nat) : replica * option error :=
  let '(c, bus, gos, err) := startBusinessLogic (rp_component r) (rp_bus r) ch in
  ({| rp_component := c; rp_bus := bus; rp_heap := rp_heap r; rp_channels := rp_channels r;
      rp_leaderStopCh := rp_leaderStopCh r; rp_goroutines := rp_goroutines r ++ gos;
      rp_entered := rp_entered r; rp_running := rp_running r |}, err).

(** The [k]th goroutine is scheduled: its [Run] asks whether the informer has
    started. *)
Definition run_goroutine (r : replica) (k i ch : nat) (w : wired S) : replica :=
  let '(s, enters) := Run_enter (wi_informer w) in
  {| rp_component := rp_component r; rp_bus := rp_bus r;
     rp_heap := <[i := with_informer w s]> (rp_heap r);
     rp_channels := rp_channels r; rp_leaderStopCh := rp_leaderStopCh r;
     rp_goroutines := delete k (rp_goroutines r);
     rp_entered := if enters : bool then rp_entered r ++ [(i, ch)] else rp_entered r;
     rp_running := rp_running r |}.

(** The [k]th call that was let through makes its controller and runs it. *)
Definition start_controller (r : replica) (k i ch : nat) (w : wired S) : replica :=
  {| rp_component := rp_component r; rp_bus := rp_bus r;
     rp_heap := <[i := with_informer w (Run_start (wi_informer w))]> (rp_heap r);
     rp_channels := rp_channels r; rp_leaderStopCh := rp_leaderStopCh r;
     rp_goroutines := rp_goroutines r; rp_entered := delete k (rp_entered r);
     rp_running := rp_running r ++ [(i, ch)] |}.

(** The [k]th controller returns. *)
Definition return_controller (r : replica) (k i : nat) (w : wired S) : replica :=
  {| rp_component := rp_component r; rp_bus := rp_bus r;
     rp_heap := <[i := with_informer w (Run_return (wi_informer w))]> (rp_heap r);
     rp_channels := rp_channels r; rp_leaderStopCh := rp_leaderStopCh r;
     rp_goroutines := rp_goroutines r; rp_entered := rp_entered r;
     rp_running := delete k (rp_running r) |}.

Definition with_rbus (r : replica) (b : eventBus) : replica :=
  {| rp_component := rp_component r; rp_bus := b; rp_heap := rp_heap r;
     rp_channels := rp_channels r; rp_leaderStopCh := rp_leaderStopCh r;
     rp_goroutines := rp_goroutines r; rp_entered := rp_entered r; rp_running := rp_running r |}.

Definition is_closed (r : replica) (ch : nat) : Prop := rp_channels r !! ch = Some true.

(** What the scheduler does without the election: goroutines start, their
    [Run]s go on, and a controller returns once its channel is closed. *)
Inductive scheduled : replica → replica → Prop :=
| sc_go r k i ch w :
    rp_goroutines r !! k = Some (i, ch) → rp_heap r !! i = Some w →
    scheduled r (run_goroutine r k i ch w)
| sc_start r k i ch w :
    rp_entered r !! k = Some (i, ch) → rp_heap r !! i = Some w →
    scheduled r (start_controller r k i ch w)
| sc_return r k i ch w :
    rp_running r !! k = Some (i, ch) → is_closed r ch → rp_heap r !! i = Some w →
    scheduled r (return_controller r k i w).

(** The callbacks of the election come at any time, and others use the bus. *)
Inductive replica_steps (r0 : replica) : list callback → replica → Prop :=
| rp_refl : replica_steps r0 [] r0
| rp_start cbs r : replica_steps r0 cbs r → replica_steps r0 (cbs ++ [OnStartLeading]) (onStartLeading r)
| rp_stop cbs r : replica_steps r0 cbs r → replica_steps r0 (cbs ++ [OnStopLeading]) (onStopLeading r)
| rp_scheduled cbs r r' : replica_steps r0 cbs r → scheduled r r' → replica_steps r0 cbs r'
| rp_others cbs r b : replica_steps r0 cbs r → replica_steps r0 cbs (with_rbus r b).

(** Nothing is left to schedule. *)
Definition at_rest (r : replica) : Prop :=
  rp_goroutines r = [] ∧ rp_entered r = [] ∧ Forall (λ p, ¬ is_closed r p.2) (rp_running r).

(** The process before [Start]. *)
Record fresh (r : replica) : Prop := {
  fr_subscribed : bs_subscribed (rp_component r) = false;
  fr_known : Forall (λ i, i < length (rp_heap r)) (bs_informers (rp_component r));
  fr_NoDup : NoDup (bs_informers (rp_component r));
  fr_informers : Forall (λ w, inf_started (wi_informer w) = false) (rp_heap r);
  fr_channels : rp_channels r = [];
  fr_leaderStopCh : rp_leaderStopCh r = None;
  fr_goroutines : rp_goroutines r = [];
  fr_entered : rp_entered r = [];
  fr_running : rp_running r = [] }.
End replica.
Arguments replica : clear implicits.

(** The engine has the same code. *)
Definition engine_startBusinessLogic `{MapRange} := startBusinessLogic (C := engineComponent).
Definition engine_onStartLeading `{MapRange} {S} := onStartLeading (S := S) (C := engineComponent).
Definition engine_onStopLeading {S} := onStopLeading (S := S) (C := engineComponent).
Definition engine_Start_unelected `{MapRange} {S} := Start_unelected (S := S) (C := engineComponent).

Section theorems.
Context {S C : Type} `{BusinessLaws C}.
Implicit Types r : replica S C.

Definition started r (i : nat) : Prop :=
  ∃ w, rp_heap r !! i = Some w ∧ inf_started (wi_informer w) = true.

(** The calls of [Run] that have not returned. *)
Definition calls r : list (nat * nat) := rp_goroutines r ++ rp_entered r ++ rp_running r.

(** What holds after the callbacks [cbs], which alternate. *)
Record terms_ok (cbs : list callback) r : Prop := {
  tk_current : ∀ ch, rp_leaderStopCh r = Some ch → rp_channels r !! ch = Some false;
  tk_leading : is_Some (rp_leaderStopCh r) ↔ leading false cbs = true;
  tk_others : ∀ ch, ch < length (rp_channels r) → rp_leaderStopCh r ≠ Some ch → is_closed r ch;
  tk_channels : Forall (λ p, p.2 < length (rp_channels r)) (calls r);
  tk_known : Forall (λ i, i < length (rp_heap r)) (bs_informers (rp_component r));
  tk_NoDup : NoDup (bs_informers (rp_component r));
  tk_wired : Forall (λ p, p.1 ∈ bs_informers (rp_component r)) (calls r);
  tk_once : NoDup (calls r);
  tk_running : Forall (λ p, started r p.1) (rp_running r);
  tk_started : bs_subscribed (rp_component r) = true →
    Forall (λ i, started r i ∨ i ∈ (rp_goroutines r ++ rp_entered r).*1) (bs_informers (rp_component r)) }.

Lemma start_outcome (c : C) bus ch c' bus' gos err :
  startBusinessLogic c bus ch = (c', bus', gos, err) →
  bs_informers c' = bs_informers c ∧
  (gos = [] ∧ bs_subscribed c' = bs_subscribed c ∧ bs_subscribed c' = false ∨
   gos = (λ i, (i, ch)) <$> bs_informers c ∧ bs_subscribed c' = true).
Proof.
  unfold startBusinessLogic. destruct (bs_subscribed c) eqn:E; [intros [= <- <- <- <-]; auto|].
  destruct (subscribe_all _ _) as [b [e|]]; intros [= <- <- <- <-]; [by auto|].
  rewrite bs_set_informers, bs_set_set. auto.
Qed.

Lemma fresh_ok r : fresh r → terms_ok [] r.
Proof.
  intros [Hs Hk Hn Hi Hc Hl Hg He Hr].
  split; unfold calls; rewrite ?Hs, ?Hc, ?Hl, ?Hg, ?He, ?Hr; simpl; try done; try by constructor.
  all: first [by intros [??] | intros ch Hlt; lia].
Qed.

Lemma alternates_snoc b cbs cb :
  alternates b (cbs ++ [cb]) →
  alternates b cbs ∧ leading b cbs = match cb with OnStartLeading => false | OnStopLeading => true end.
Proof.
  revert b. induction cbs as [|[|] cbs IH]; intros b; simpl.
  - destruct cb; naive_solver.
  - intros [-> Ha]. by destruct (IH _ Ha).
  - intros [-> Ha]. by destruct (IH _ Ha).
Qed.

Lemma leading_snoc b cbs cb :
  leading b (cbs ++ [cb]) = match cb with OnStartLeading => true | OnStopLeading => false end.
Proof. unfold leading. by rewrite foldl_app. Qed.

Lemma fresh_channel (l : list bool) ch : ch < length l → l !! ch = Some true → (l ++ [false]) !! ch = Some true.
Proof. intros. by rewrite lookup_app_l. Qed.

(** The goroutines of a new term, on a channel of their own. *)
Lemma term_calls (is_ : list nat) ch (cs : list (nat * nat)) n :
  Forall (λ p, p.2 < n) cs → NoDup cs → NoDup is_ → n ≤ ch → NoDup (cs ++ ((λ i, (i, ch)) <$> is_)).
Proof.
  intros Hc Hn Hi Hle. apply NoDup_app. split; [done|]. split.
  - intros [i c] Hin (j & Hj & _)%list_elem_of_fmap. apply (proj1 (Forall_forall _ _) Hc) in Hin. simplify_eq/=. lia.
  - apply NoDup_fmap_2; [|done]. by intros ?? [= ->].
Qed.

Lemma term_start_ok cbs r :
  terms_ok cbs r → leading false cbs = false → terms_ok (cbs ++ [OnStartLeading]) (onStartLeading r).
Proof.
  intros [Hc Hl Ho Hch Hk Hnd Hw Hn Hr Hs] Hf.
  assert (Hnone : rp_leaderStopCh r = None).
  { destruct (rp_leaderStopCh r); [|done]. rewrite Hf in Hl. by destruct Hl as [Hl _]; specialize (Hl (mk_is_Some _ _ eq_refl)). }
  unfold onStartLeading. destruct (startBusinessLogic _ _ _) as [[[c b] gos] err] eqn:E.
  apply start_outcome in E as [Hi E].
  assert (Hp : ∀ x, calls (Build_replica c b (rp_heap r) x (Some (length (rp_channels r)))
      (rp_goroutines r ++ gos) (rp_entered r) (rp_running r)) ≡ₚ calls r ++ gos).
  { intros x. unfold calls. simpl. rewrite <-!(assoc_L (++)). apply Permutation_app_head.
    rewrite (comm (++) gos), <-(assoc_L (++)). done. }
  assert (Hgos : ∀ P : nat * nat → Prop, (∀ i, i ∈ bs_informers (rp_component r) → P (i, length (rp_channels r))) → Forall P gos).
  { intros P HP. destruct E as [(-> & _)|(-> & _)]; [constructor|]. by apply Forall_fmap, Forall_forall. }
  split; simpl; rewrite ?leading_snoc, ?Hi, ?Hp; try done.
  - intros ch [= <-]. by rewrite lookup_app_r, Nat.sub_diag.
  - intros ch Hlt Hne. rewrite length_app in Hlt. simpl in Hlt. unfold is_closed. simpl.
    assert (ch < length (rp_channels r)) by (destruct (decide (ch = length (rp_channels r))); [congruence|lia]).
    apply fresh_channel; [done|]. apply Ho; [done|]. by rewrite Hnone.
  - rewrite length_app. simpl. apply Forall_app. split.
    + eapply Forall_impl; [exact Hch|]. simpl. lia.
    + apply Hgos. simpl. lia.
  - apply Forall_app. split; [done|]. by apply Hgos.
  - destruct E as [(-> & _)|(-> & _)]; [by rewrite app_nil_r|]. by eapply term_calls.
  - intros Ht. destruct E as [(_ & _ & Hx)|(-> & _)]; [congruence|]. apply Forall_forall. intros i Hin. right.
    rewrite !fmap_app, <-list_fmap_compose, !elem_of_app. left. right. by apply list_elem_of_fmap_2' with i.
Qed.

Lemma term_stop_ok cbs r :
  terms_ok cbs r → leading false cbs = true → terms_ok (cbs ++ [OnStopLeading]) (onStopLeading r).
Proof.
  intros [Hc Hl Ho Hch Hk Hnd Hw Hn Hr Hs] Ht. apply Hl in Ht as [ch Hstop]. unfold onStopLeading. rewrite Hstop.
  assert (Hlt : ch < length (rp_channels r)) by (by eapply lookup_lt_Some, Hc).
  split; simpl; rewrite ?leading_snoc, ?length_insert; try done.
  - intros ch' Hlt' _. unfold is_closed. simpl. destruct (decide (ch = ch')) as [<-|Hne].
    + by apply list_lookup_insert_eq.
    + rewrite list_lookup_insert_ne by done. apply Ho; [done|]. congruence.
Qed.

Lemma heap_started r i j w s :
  rp_heap r !! i = Some w → (inf_started (wi_informer w) = true → inf_started s = true) →
  started r j → ∃ w', <[i := with_informer w s]> (rp_heap r) !! j = Some w' ∧ inf_started (wi_informer w') = true.
Proof.
  intros Hi Hs (w' & Hj & Hw'). destruct (decide (i = j)) as [<-|Hne].
  - rewrite list_lookup_insert_eq by (by eapply lookup_lt_Some). eexists. split; [done|].
    simplify_eq. by apply Hs.
  - rewrite list_lookup_insert_ne by done. eauto.
Qed.

Lemma Run_enter_started s : inf_started (Run_enter s).1 = inf_started s.
Proof. unfold Run_enter. by destruct (inf_started s) eqn:E. Qed.

Lemma elem_of_delete {A} (l : list A) k x y : l !! k = Some y → x ∈ l → x = y ∨ x ∈ delete k l.
Proof. intros Hk. rewrite (delete_Permutation _ _ _ Hk) at 1. intros ?%elem_of_cons. naive_solver. Qed.

Lemma informers_kept r r' : scheduled r r' →
  rp_component r' = rp_component r ∧ rp_channels r' = rp_channels r ∧
  rp_leaderStopCh r' = rp_leaderStopCh r ∧ length (rp_heap r') = length (rp_heap r).
Proof.
  intros [? k i ch w _ _|? k i ch w _ _|? k i ch w _ _ _]; unfold run_goroutine;
    [destruct (Run_enter _)|..]; simpl; by rewrite length_insert.
Qed.

Lemma NoDup_part {A} (l k : list A) : l ⊆+ k → NoDup k → NoDup l.
Proof. intros [m ->]%submseteq_Permutation. by intros [? _]%NoDup_app. Qed.

(** A call goes on to the next place or returns. *)
Lemma scheduled_calls r r' : scheduled r r' → calls r' ⊆+ calls r.
Proof.
  intros [? k i ch w Hk _|? k i ch w Hk _|? k i ch w Hk _ _]; unfold calls, run_goroutine; simpl.
  - destruct (Run_enter _) as [s []]; simpl.
    + rewrite (delete_Permutation _ _ _ Hk) at 2. rewrite <-(assoc_L (++)). simpl. by rewrite <-Permutation_middle, <-Permutation_middle.
    + apply submseteq_app; [apply sublist_submseteq, sublist_delete|done].
  - apply submseteq_app; [done|]. rewrite (delete_Permutation _ _ _ Hk) at 2. simpl.
    by rewrite (assoc_L (++)), <-Permutation_cons_append.
  - do 2 (apply submseteq_app; [done|]). apply sublist_submseteq, sublist_delete.
Qed.

Lemma scheduled_started r r' j : scheduled r r' → started r j → started r' j.
Proof.
  intros [? k i ch w _ Hw|? k i ch w _ Hw|? k i ch w _ _ Hw] Hj; unfold run_goroutine, started in *;
    [pose proof (Run_enter_started (wi_informer w)) as Ht; destruct (Run_enter _) as [s b]; simpl in *|..];
    apply (heap_started _ _ _ _ _ Hw); try done. by rewrite Ht.
Qed.

Lemma start_starts r k i ch w : rp_heap r !! i = Some w → started (start_controller r k i ch w) i.
Proof.
  intros Hw. exists (with_informer w (Run_start (wi_informer w))). simpl.
  by rewrite list_lookup_insert_eq by by eapply lookup_lt_Some.
Qed.

Lemma running_started r r' : scheduled r r' →
  Forall (λ p, started r p.1) (rp_running r) → Forall (λ p, started r' p.1) (rp_running r').
Proof.
  intros Hs Hr. assert (Hold : Forall (λ p, started r' p.1) (rp_running r)).
  { eapply Forall_impl; [exact Hr|]. intros p. by apply scheduled_started. }
  destruct Hs as [? k i ch w _ _|? k i ch w _ Hw|? k i ch w _ _ _]; simpl.
  - unfold run_goroutine in *. by destruct (Run_enter _).
  - apply Forall_app. split; [done|]. apply Forall_singleton. by apply start_starts.
  - by apply Forall_delete.
Qed.

(** An informer of a goroutine or of a call that was let through has started,
    or still has one. *)
Lemma pending_or_started r r' j : scheduled r r' →
  j ∈ (rp_goroutines r ++ rp_entered r).*1 → started r' j ∨ j ∈ (rp_goroutines r' ++ rp_entered r').*1.
Proof.
  intros Hs ([j' c] & -> & Hj)%list_elem_of_fmap. simpl.
  assert (Hin : (j', c) ∈ rp_goroutines r' ++ rp_entered r' → j' ∈ (rp_goroutines r' ++ rp_entered r').*1).
  { intros Hx. apply list_elem_of_fmap. by exists (j', c). }
  destruct Hs as [? k i ch w Hk Hw|? k i ch w Hk Hw|? k i ch w Hk _ Hw]; simpl in *; [| |by auto].
  - revert Hin. unfold run_goroutine, Run_enter, started. destruct (inf_started (wi_informer w)) eqn:Es; simpl; intros Hin.
    + apply elem_of_app in Hj as [Hj|Hj]; [|right; apply Hin, elem_of_app; by right].
      destruct (elem_of_delete _ _ _ _ Hk Hj) as [[= -> ->]|Hd]; [|right; apply Hin, elem_of_app; by left].
      left. exists (with_informer w (set_informer_stopped (wi_informer w))). split; [|done].
      by rewrite list_lookup_insert_eq by by eapply lookup_lt_Some.
    + right. apply Hin. rewrite !elem_of_app in *. destruct Hj as [Hj|Hj]; [|auto].
      destruct (elem_of_delete _ _ _ _ Hk Hj) as [->|Hd]; [|auto]. right. right. by left.
  - apply elem_of_app in Hj as [Hj|Hj]; [right; apply Hin, elem_of_app; by left|].
    destruct (elem_of_delete _ _ _ _ Hk Hj) as [[= -> ->]|Hd]; [left; by apply start_starts|].
    right. apply Hin, elem_of_app. by right.
Qed.

Lemma scheduled_ok cbs r r' : scheduled r r' → terms_ok cbs r → terms_ok cbs r'.
Proof.
  intros Hs [Hc Hl Ho Hch Hk Hnd Hw Hn Hr Hst]. pose proof (scheduled_calls _ _ Hs) as Hsub.
  destruct (informers_kept _ _ Hs) as (Ec & Ech & El & Eh).
  split; unfold is_closed; rewrite ?Ec, ?Ech, ?El, ?Eh; try done.
  - apply Forall_forall. intros p Hp. by eapply (proj1 (Forall_forall _ _) Hch), elem_of_submseteq.
  - apply Forall_forall. intros p Hp. by eapply (proj1 (Forall_forall _ _) Hw), elem_of_submseteq.
  - by eapply NoDup_part.
  - by eapply running_started.
  - intros Ht. eapply Forall_impl; [by apply Hst|]. intros j [Hj|Hj]; [left; by eapply scheduled_started|].
    by eapply pending_or_started.
Qed.

Lemma steps_ok r0 cbs r :
  terms_ok [] r0 → replica_steps r0 cbs r → alternates false cbs → terms_ok cbs r.
Proof.
  intros H0r. induction 1 as [|cbs r _ IH|cbs r _ IH|cbs r r' _ IH Hs|cbs r b _ IH]; intros Ha; [done|..].
  - apply alternates_snoc in Ha as [Ha Hl]. by apply term_start_ok; [apply IH|].
  - apply alternates_snoc in Ha as [Ha Hl]. by apply term_stop_ok; [apply IH|].
  - by eapply scheduled_ok; [|apply IH].
  - by destruct (IH Ha); split.
Qed.

(** ** The scheduler comes to rest *)
Definition work r : nat :=
  3 * length (rp_goroutines r) + 2 * length (rp_entered r) + length (rp_running r).

Lemma scheduled_work r r' : scheduled r r' → work r' < work r.
Proof.
  intros [? k i ch w Hk _|? k i ch w Hk _|? k i ch w Hk _ _]; unfold work;
    pose proof (length_delete _ _ (mk_is_Some _ _ Hk)) as Hd; apply lookup_lt_Some in Hk.
  - unfold run_goroutine. destruct (Run_enter _) as [s []]; simpl; rewrite ?length_app, Hd; simpl; lia.
  - simpl. rewrite length_app, Hd. simpl. lia.
  - simpl. rewrite Hd. lia.
Qed.

Lemma call_wired cbs r p : terms_ok cbs r → p ∈ calls r → ∃ w, rp_heap r !! p.1 = Some w.
Proof.
  intros Hok Hp. apply lookup_lt_is_Some. apply (proj1 (Forall_forall _ _) (tk_known _ _ Hok)).
  by apply (proj1 (Forall_forall _ _) (tk_wired _ _ Hok)).
Qed.

Lemma rests_or_goes cbs r : terms_ok cbs r → at_rest r ∨ ∃ r', scheduled r r'.
Proof.
  intros Hok. pose proof (λ p, call_wired _ _ p Hok) as Hw.
  unfold calls in Hw. destruct (rp_goroutines r) as [|[i ch] gos] eqn:Eg; [destruct (rp_entered r) as [|[i ch] es] eqn:Ee|].
  - destruct (decide (Forall (λ p, rp_channels r !! p.2 ≠ Some true) (rp_running r))) as [Hf|Hf].
    { left. split; [done|]. split; [done|]. eapply Forall_impl; [exact Hf|]. done. }
    right. apply not_Forall_Exists in Hf; [|apply _]. apply Exists_exists in Hf as ([i ch] & Hin & Hcl).
    destruct (Hw _ Hin) as [w Hi]. apply list_elem_of_lookup in Hin as [k Hk].
    eexists. eapply (sc_return _ k); [done| |done]. unfold is_closed. by apply dec_stable.
  - right. destruct (Hw (i, ch)) as [w Hi]; [left|]. exists (start_controller r 0 i ch w).
    apply sc_start; [by rewrite Ee|done].
  - right. destruct (Hw (i, ch)) as [w Hi]; [left|]. exists (run_goroutine r 0 i ch w).
    apply sc_go; [by rewrite Eg|done].
Qed.

Lemma comes_to_rest cbs r : terms_ok cbs r → ∃ r', rtc scheduled r r' ∧ at_rest r' ∧ terms_ok cbs r'.
Proof.
  remember (work r) as n eqn:En. revert r En. induction (lt_wf n) as [n _ IH]. intros r -> Hok.
  destruct (rests_or_goes _ _ Hok) as [Hr|[r1 Hr1]]; [by exists r; split; [apply rtc_refl|]|].
  destruct (IH _ (scheduled_work _ _ Hr1) r1 eq_refl (scheduled_ok _ _ _ Hr1 Hok)) as (r' & Hs & Hrest & Hok').
  exists r'. split; [by eapply rtc_l|]. done.
Qed.

(** While no term has ended, a started informer runs. *)
Lemma first_term_runs r0 cbs r :
  fresh r0 → replica_steps r0 cbs r → OnStopLeading ∉ cbs →
  (∀ ch, ¬ is_closed r ch) ∧ ∀ i, started r i → i ∈ (rp_running r).*1.
Proof.
  intros Hf. induction 1 as [|cbs r _ IH|cbs r _ IH|cbs r r' _ IH Hs|cbs r b _ IH]; intros Hn.
  - destruct Hf as [_ _ _ Hi Hc _ _ _ _]. split.
    + intros ch. unfold is_closed. by rewrite Hc.
    + intros i (w & Hw & Hst). apply (proj1 (Forall_lookup _ _) Hi) in Hw. congruence.
  - destruct IH as [Hc Hi]; [set_solver|]. unfold onStartLeading.
    destruct (startBusinessLogic _ _ _) as [[[c b] gos] err]. split; [|exact Hi].
    intros ch [Hx|[_ Hx]]%lookup_app_Some; [by apply (Hc ch)|].
    apply list_lookup_singleton_Some in Hx as [_ ?]. done.
  - set_solver.
  - destruct (IH Hn) as [Hc Hi]. destruct (informers_kept _ _ Hs) as (_ & Ech & _).
    split; [intros ch; unfold is_closed; rewrite Ech; apply Hc|]. intros j Hj.
    destruct Hs as [r k i ch w Hk Hw|r k i ch w Hk Hw|r k i ch w Hk Hcl _]; [| |by destruct (Hc ch)].
    + assert (started r j) as Hx%Hi; [|unfold run_goroutine; by destruct (Run_enter _)].
      revert Hj. unfold run_goroutine. pose proof (Run_enter_started (wi_informer w)) as Ht.
      destruct (Run_enter _) as [s e]. intros (w' & Hj & Hw'). simpl in *.
      destruct (decide (i = j)) as [<-|Hne]; [|rewrite list_lookup_insert_ne in Hj by done; by exists w'].
      rewrite list_lookup_insert_eq in Hj by (by eapply lookup_lt_Some). simplify_eq/=. exists w. split; congruence.
    + destruct Hj as (w' & Hj & Hw'). simpl in *. rewrite fmap_app, elem_of_app.
      destruct (decide (i = j)) as [<-|Hne]; [right; by left|]. rewrite list_lookup_insert_ne in Hj by done.
      left. apply Hi. by exists w'.
  - by apply IH.
Qed.

Lemma scheduled_steps r0 cbs r r' : rtc scheduled r r' → replica_steps r0 cbs r → replica_steps r0 cbs r'.
Proof. induction 1; [done|]. intros. apply IHrtc. by eapply rp_scheduled. Qed.

Lemma scheduled_component r r' : rtc scheduled r r' → rp_component r' = rp_component r.
Proof. induction 1 as [|r1 r2 r3 Hs _ IH]; [done|]. rewrite IH. by destruct (informers_kept _ _ Hs). Qed.

Lemma rest_not_leading cbs r : terms_ok cbs r → at_rest r → leading false cbs = false → rp_running r = [].
Proof.
  intros Hok (_ & _ & Hr) Hl. destruct (rp_running r) as [|[i ch] l] eqn:E; [done|]. exfalso.
  apply Forall_cons in Hr as [Hr _]. apply Hr. simpl. apply (tk_others _ _ Hok).
  - apply (proj1 (Forall_forall _ _) (tk_channels _ _ Hok) (i, ch)). unfold calls. rewrite E, !elem_of_app. right. right. left.
  - intros Hs. assert (leading false cbs = true) as Ht by (apply (tk_leading _ _ Hok); by eexists). congruence.
Qed.

Lemma first_term_all r0 r :
  fresh r0 → replica_steps r0 [OnStartLeading] r → at_rest r → bs_subscribed (rp_component r) = true →
  ∀ i, i ∈ (rp_running r).*1 ↔ i ∈ bs_informers (rp_component r).
Proof.
  intros Hf Hs (Hg & He & _) Ht i. pose proof (steps_ok _ _ _ (fresh_ok _ Hf) Hs (conj eq_refl I)) as Hok. split.
  - intros ([j ch] & -> & Hj)%list_elem_of_fmap.
    apply (proj1 (Forall_forall _ _) (tk_wired _ _ Hok) (j, ch)). unfold calls. rewrite !elem_of_app. auto.
  - intros Hi. apply (first_term_runs r0 [OnStartLeading] r Hf Hs); [set_solver|].
    destruct (proj1 (Forall_forall _ _) (tk_started _ _ Hok Ht) i Hi) as [Hst|Hgo]; [done|].
    rewrite Hg, He in Hgo. by apply elem_of_nil in Hgo.
Qed.

Lemma scheduled_sn r : sn scheduled r.
Proof.
  remember (work r) as n eqn:En. revert r En. induction (lt_wf n) as [n _ IH]. intros r ->.
  constructor. intros r' Hr'. apply (IH (work r')); [by apply scheduled_work|done].
Qed.

(** ** A regained leadership *)

(** Every informer of the component has run, and none runs. *)
Record spent r : Prop := {
  sp_started : Forall (started r) (bs_informers (rp_component r));
  sp_gos : Forall (λ p, p.1 ∈ bs_informers (rp_component r)) (rp_goroutines r);
  sp_entered : rp_entered r = [];
  sp_idle : rp_running r = [] }.

Lemma spent_forever r cbs r' : spent r → replica_steps r cbs r' → spent r'.
Proof.
  intros Hr. induction 1 as [|cbs r' _ IH|cbs r' _ IH|cbs r' r'' _ IH Hs|cbs r' b _ IH]; [done|..];
    destruct IH as [Hst Hg He Hi].
  - unfold onStartLeading. destruct (startBusinessLogic _ _ _) as [[[c bus] gos] err] eqn:E.
    apply start_outcome in E as [Hinf E]. split; simpl; rewrite ?Hinf; [done| |done|done].
    apply Forall_app. split; [done|]. destruct E as [(-> & _)|(-> & _)]; [constructor|].
    apply Forall_fmap, Forall_forall. by simpl.
  - unfold onStopLeading. destruct (rp_leaderStopCh r'); by split.
  - destruct Hs as [r1 k i ch w Hk Hw|r1 k i ch w Hk _|r1 k i ch w Hk _ _]; [|by rewrite He in Hk|by rewrite Hi in Hk].
    assert (started r1 i) as (w' & Hw' & Hst').
    { apply (proj1 (Forall_forall _ _) Hst). apply (proj1 (Forall_lookup _ _) Hg _ _ Hk). }
    simplify_eq. unfold run_goroutine, Run_enter. rewrite Hst'. split; simpl; [|by apply Forall_delete|done|done].
    eapply Forall_impl; [exact Hst|]. intros j Hj. by apply heap_started.
  - by split.
Qed.

(** Once a term has ended, a replica that leads again runs no informer: their
    [Run] refuses to start a second time. *)
Theorem regained_leadership_idle r0 cbs r cbs' r' :
  fresh r0 → replica_steps r0 cbs r → alternates false cbs →
  leading false cbs = false → at_rest r → bs_subscribed (rp_component r) = true →
  replica_steps r cbs' r' → rp_running r' = [].
Proof.
  intros Hf Hs Ha Hl Hrest Ht Hs'. pose proof (steps_ok _ _ _ (fresh_ok _ Hf) Hs Ha) as Hok.
  eapply sp_idle, spent_forever; [|exact Hs']. split.
  - eapply Forall_impl; [by apply (tk_started _ _ Hok)|]. destruct Hrest as (Hg & He & _). rewrite Hg, He.
    by intros i [Hi|Hi%elem_of_nil].
  - pose proof (tk_wired _ _ Hok) as Hw. by apply Forall_app in Hw as [Hw _].
  - by destruct Hrest as (_ & He & _).
  - by eapply rest_not_leading.
Qed.

(** C7: The informers follow the leadership. Whatever the election loop meets,
    whenever its callbacks come and however goroutines are scheduled, between
    the two critical sections of [Run] too, an informer has at most one
    controller per term, and a controller runs on the channel of the current
    term or on a closed one. The scheduler always comes to rest; then no
    controller runs unless the replica leads, and in its first term, when the
    subscriptions succeeded, those of all informers do. *)
Theorem informers_follow_leadership {D} `{Table LeaderLease D} env st rounds (st' : loop_state (D := D)) cbs r0 r :
  RunLeaderElection env st rounds = (st', cbs) → lp_isLeader st = false →
  fresh r0 → replica_steps r0 cbs r →
  NoDup (rp_running r) ∧
  (∀ i ch, (i, ch) ∈ rp_running r →
     is_closed r ch ∨ leading false cbs = true ∧ rp_leaderStopCh r = Some ch) ∧
  sn scheduled r ∧ (∃ r', rtc scheduled r r' ∧ at_rest r') ∧
  ∀ r', rtc scheduled r r' → at_rest r' →
    (Exists is_stop rounds ∨ leading false cbs = false → rp_running r' = []) ∧
    (cbs = [OnStartLeading] → bs_subscribed (rp_component r) = true →
     ∀ i, i ∈ (rp_running r').*1 ↔ i ∈ bs_informers (rp_component r)).
Proof.
  intros Hrun Hnl Hf Hs. destruct (callbacks_alternate _ _ _ _ _ Hrun Hnl) as [Ha Hstop].
  pose proof (steps_ok _ _ _ (fresh_ok _ Hf) Hs Ha) as Hok. split_and!.
  - eapply NoDup_part; [|apply (tk_once _ _ Hok)]. unfold calls. rewrite (assoc_L (++)). by apply submseteq_inserts_l.
  - intros i ch Hin. destruct (decide (rp_leaderStopCh r = Some ch)) as [He|Hne].
    + right. split; [|done]. apply (tk_leading _ _ Hok). by eexists.
    + left. apply (tk_others _ _ Hok); [|done].
      apply (proj1 (Forall_forall _ _) (tk_channels _ _ Hok) (i, ch)). unfold calls. rewrite !elem_of_app. auto.
  - apply scheduled_sn.
  - destruct (comes_to_rest _ _ Hok) as (r' & ? & ? & _). by exists r'.
  - intros r' Hr' Hrest. pose proof (scheduled_steps _ _ _ _ Hr' Hs) as Hs'.
    pose proof (steps_ok _ _ _ (fresh_ok _ Hf) Hs' Ha) as Hok'. split.
    + intros Hl. apply (rest_not_leading cbs); [done..|]. by destruct Hl as [?%Hstop|?].
    + intros -> Ht. rewrite <-(scheduled_component _ _ Hr') in Ht |- *. by eapply first_term_all.
Qed.
End theorems.

(** ** Subscriptions that succeed *)
Section subscriptions.
Context {C : Type} `{BusinessLaws C}.

Definition subscribers_at (b : eventBus) (kind : string) : list (option Subscriber) :=
  (λ p, ss_subscriber <$> eb_heap b !! p) <$> default [] (eb_subscriberDir b !! kind).

Definition fits_on (b : eventBus) (s : Subscriber) : Prop :=
  Forall (λ o, sub_Name <$> o ≠ Some (sub_Name s)) (subscribers_at b (sub_ResourceKind s)).

Lemma launch_subscribers b p k :
  subscribers_at (launchDrainer b p) k = subscribers_at b k ∧ eb_stopped (launchDrainer b p) = eb_stopped b.
Proof.
  unfold launchDrainer. destruct (eb_stopped b) eqn:Es; [done|].
  destruct (eb_heap b !! p) as [st|] eqn:Hp; [|done]. destruct (ss_drainerStarted st); [done|].
  split; [|done]. unfold subscribers_at. simpl. apply list_fmap_ext. intros _ q _.
  destruct (decide (p = q)) as [<-|Hne]; [|by rewrite list_lookup_insert_ne].
  by rewrite list_lookup_insert_eq, Hp by by eapply lookup_lt_Some.
Qed.

Lemma Subscribe_new b s :
  bus_inv b → eb_stopped b = false → fits_on b s →
  ∃ b', Subscribe b s = (b', None) ∧ bus_inv b' ∧ eb_stopped b' = false ∧
    ∀ k, subscribers_at b' k = subscribers_at b k ++ (if decide (k = sub_ResourceKind s) then [Some s] else []).
Proof.
  intros Hb Hst Hfit. pose proof (proj1 (Subscribe_inv b s Hb)) as Hinv. revert Hinv. unfold Subscribe. rewrite Hst.
  destruct (existsb _ _) eqn:Hex.
  { exfalso. apply existsb_exists in Hex as (p & Hp%list_elem_of_In & Hn%bool_decide_eq_true_1).
    unfold fits_on, subscribers_at in Hfit. rewrite Forall_fmap in Hfit.
    apply (proj1 (Forall_forall _ _) Hfit p Hp). unfold subscriber_name in Hn. simpl.
    destruct (eb_heap b !! p); simpl in *; congruence. }
  set (st := {| ss_subscriber := s |}). cbv zeta. set (b1 := with_dir _ _). intros Hinv.
  assert (Hat : ∀ k, subscribers_at b1 k =
    subscribers_at b k ++ (if decide (k = sub_ResourceKind s) then [Some s] else [])).
  { intros k. unfold subscribers_at, b1. simpl.
    assert (Hold : ∀ l, eb_subscriberDir b !! k = Some l →
      (λ p, ss_subscriber <$> (eb_heap b ++ [st]) !! p) <$> l = (λ p, ss_subscriber <$> eb_heap b !! p) <$> l).
    { intros l Hl. apply list_fmap_ext. intros j q Hq.
      destruct (bo_dir _ (proj1 Hb) k q) as (x & Hx & _); [exists l; split; [done|by eapply list_elem_of_lookup_2]|].
      by rewrite Hx, (lookup_app_l_Some _ _ _ _ Hx). }
    destruct (decide (k = sub_ResourceKind s)) as [->|Hne].
    - rewrite lookup_insert_eq. simpl. rewrite fmap_app. f_equal; [|by simpl; rewrite list_lookup_middle].
      destruct (eb_subscriberDir b !! _) as [l|] eqn:E; [by apply Hold|done].
    - rewrite lookup_insert_ne, app_nil_r by done.
      destruct (eb_subscriberDir b !! k) as [l|] eqn:E; [by apply Hold|done]. }
  eexists. split; [done|]. split; [exact Hinv|]. destruct (_ && eb_started _); [|by split].
  split; [by rewrite (proj2 (launch_subscribers _ _ ""))|]. intros k. by rewrite (proj1 (launch_subscribers _ _ _)).
Qed.

(** Subscribers of one kind have different names. *)
Definition named_apart (subs : list Subscriber) : Prop := NoDup ((λ s, (sub_ResourceKind s, sub_Name s)) <$> subs).

Definition of_kind (k : string) (subs : list Subscriber) : list (option Subscriber) :=
  Some <$> filter (λ s, sub_ResourceKind s = k) subs.

Lemma subscribe_all_ok b subs :
  bus_inv b → eb_stopped b = false → Forall (fits_on b) subs → named_apart subs →
  ∃ b', subscribe_all b subs = (b', None) ∧ bus_inv b' ∧ eb_stopped b' = false ∧
    ∀ k, subscribers_at b' k = subscribers_at b k ++ of_kind k subs.
Proof.
  revert b. induction subs as [|s subs IH]; intros b Hb Hst Hf Hn.
  { exists b. split_and!; [done..|]. intros k. by rewrite app_nil_r. }
  apply Forall_cons in Hf as [Hs Hf]. unfold named_apart in Hn. rewrite fmap_cons in Hn. apply NoDup_cons in Hn as [Hni Hn].
  destruct (Subscribe_new b s Hb Hst Hs) as (b1 & E1 & Hb1 & Hst1 & Hat1). simpl. rewrite E1.
  destruct (IH b1) as (b' & E & Hb' & Hst' & Hat'); [done..| |done|].
  - apply Forall_forall. intros s' Hs'. unfold fits_on. rewrite Hat1. apply Forall_app. split.
    + by apply (proj1 (Forall_forall _ _) Hf).
    + destruct (decide _) as [Hk|]; [|done]. apply Forall_singleton. simpl. intros [= Hnm]. apply Hni.
      apply list_elem_of_fmap. exists s'. split; [congruence|done].
  - exists b'. split_and!; [done..|]. intros k. rewrite Hat', Hat1, <-app_assoc. f_equal. unfold of_kind.
    rewrite filter_cons. destruct (decide (k = sub_ResourceKind s)), (decide (sub_ResourceKind s = k)); simplify_eq; done.
Qed.

Lemma startBusinessLogic_ok (c : C) b ch :
  bus_inv b → eb_stopped b = false → bs_subscribed c = false →
  Forall (fits_on b) (bs_subscribers c) → named_apart (bs_subscribers c) →
  ∃ b', startBusinessLogic c b ch =
      (bs_set_subscribed c, b', (λ i, (i, ch)) <$> bs_informers c, None) ∧
    bus_inv b' ∧ eb_stopped b' = false ∧
    ∀ k, subscribers_at b' k = subscribers_at b k ++ of_kind k (bs_subscribers c).
Proof.
  intros Hb Hst Hs Hf Hn. destruct (subscribe_all_ok b (bs_subscribers c)) as (b' & E & ?); [done..|].
  exists b'. unfold startBusinessLogic. by rewrite Hs, E.
Qed.
End subscriptions.

(** ** A replica with one informer *)
Module TermsExample.
Import LeaderExample.
#[local] Existing Instances default_range ref_ops ref_laws.

Definition lw : ResourceListerWatcher :=
  {| lw_ResourceKind := "RPCInstance"; lw_TransformFunc := None; lw_KeyFunc := None |}.
Definition sub : Subscriber :=
  {| sub_ResourceKind := "RPCInstance"; sub_Name := "Discovery-RPCInstance"; sub_AsyncEnabled := true |}.
Definition disc : discoveryComponent :=
  {| di_configs := []; di_informers := {["zk" := [0]]}; di_subscribers := [sub];
     di_leaderElection := None; di_subscribed := false |}.
Definition r0 : replica unit discoveryComponent :=
  {| rp_component := disc; rp_bus := Init 4; rp_heap := [Build_wired lw () ResourceKeyFunc (NewInformerWithOptions 0)];
     rp_channels := []; rp_leaderStopCh := None; rp_goroutines := []; rp_entered := []; rp_running := [] |}.

Lemma r0_fresh : fresh r0.
Proof.
  split; try reflexivity.
  - repeat constructor.
  - apply NoDup_singleton.
  - repeat constructor.
Qed.

Definition first_run : loop_state (D := DB) * list callback :=
  RunLeaderElection (λ _ d, d) {| lp_le := le_b; lp_db := lapsed; lp_isLeader := false |}
    [AcquireTick 5; AcquireTick 31].

Lemma started_once : replica_steps r0 [OnStartLeading] (onStartLeading r0).
Proof. apply (rp_start r0 []). constructor. Qed.

(** In the first term the informer comes to run; once the loop has been left
    it does not. *)
Lemma informers_follow_leadership_witness :
  (∃ r', rtc scheduled (onStartLeading r0) r' ∧ at_rest r' ∧ 0 ∈ (rp_running r').*1) ∧
  ∃ r', rtc scheduled (onStopLeading (onStartLeading r0)) r' ∧ at_rest r' ∧ rp_running r' = [].
Proof.
  split.
  - destruct (informers_follow_leadership (λ _ d, d) _ [AcquireTick 5; AcquireTick 31] first_run.1 first_run.2 r0
      (onStartLeading r0) (surjective_pairing first_run) eq_refl r0_fresh started_once)
      as (_ & _ & _ & (r' & Hs & Hr) & Hall).
    exists r'. split; [exact Hs|]. split; [exact Hr|]. apply (proj2 (Hall r' Hs Hr) eq_refl eq_refl). left.
  - destruct (informers_follow_leadership (λ _ d, d) _ _ run.1 run.2 r0 (onStopLeading (onStartLeading r0))
      (surjective_pairing run) eq_refl r0_fresh (rp_stop r0 [OnStartLeading] _ started_once))
      as (_ & _ & _ & (r' & Hs & Hr) & Hall).
    exists r'. split; [exact Hs|]. split; [exact Hr|]. apply (proj1 (Hall r' Hs Hr)). right. reflexivity.
Defined.

(** The replica leads again, and its informer does not run. *)
Example idle_second_term cbs r' :
  let w := Build_wired lw () ResourceKeyFunc (NewInformerWithOptions 0) in
  let r1 := start_controller (run_goroutine (onStartLeading r0) 0 0 0 w) 0 0 0 w in
  let r2 := onStopLeading r1 in
  replica_steps (return_controller r2 0 0 (Build_wired lw () ResourceKeyFunc (Run (NewInformerWithOptions 0)).1)) cbs r' →
  rp_running r' = [].
Proof.
  intros w r1 r2. apply (regained_leadership_idle r0 [OnStartLeading; OnStopLeading]); try reflexivity; [exact r0_fresh|..].
  - apply (rp_scheduled r0 _ r2).
    + apply (rp_stop r0 [OnStartLeading]). eapply rp_scheduled; [|by apply (sc_start _ 0)].
      apply (rp_scheduled r0 _ (onStartLeading r0)); [exact started_once|]. by apply sc_go.
    + by apply (sc_return _ 0 0 0).
  - by repeat split.
  - split; [reflexivity|]. split; [reflexivity|constructor].
Qed.

(** The [Run]s of two terms ask before either has started the informer: it
    gets two controllers, the one of the ended term until it returns. *)
Lemma terms_overlap : ∃ r,
  replica_steps r0 [OnStartLeading; OnStopLeading; OnStartLeading] r ∧ rp_running r = [(0, 0); (0, 1)].
Proof.
  eexists. split.
  - eapply rp_scheduled; [eapply rp_scheduled; [eapply rp_scheduled|]|].
    + apply (rp_start r0 [OnStartLeading; OnStopLeading]), (rp_stop r0 [OnStartLeading]).
      eapply rp_scheduled; [exact started_once|]. by apply (sc_go _ 0 0 0).
    + by apply (sc_go _ 0 0 1).
    + by apply (sc_start _ 0 0 0).
    + by apply (sc_start _ 0 0 1).
  - vm_compute. reflexivity.
Qed.
End TermsExample.
