(* ===== verification/Startup.v ===== *)
(** The start of the process: the [Init] methods of the components, which
    wire informers, subscribers, stores, governors and elections as the
    configuration says, run by the bootstrap of Runtime.v. *)
From S2P Require Import Prelude GoStrings Errors Resource Configuration Libs Runtime EventBus Informer Leader Counter Terms.

Open Scope string_scope.
Open Scope list_scope.

(** The configuration as the components read it. *)
Record Settings := {
  cf_Store : StoreConfig;
  cf_Engine : EngineConfig;
  cf_Discovery : list DiscoveryConfig;
  cf_EventBus : option EventBusConfig;
  cf_RuleVersioning : option VersioningConfig }.

(** [None]: a component dereferences a nil part. *)
Definition settings (c : AdminConfig) : option Settings :=
  s ← ac_Store c; e ← ac_Engine c; ds ← mapM id (ac_Discovery c);
  Some {| cf_Store := s; cf_Engine := e; cf_Discovery := ds;
          cf_EventBus := ac_EventBus c; cf_RuleVersioning := ac_RuleVersioning c |}.

(** ** Factories

    A factory registry answers with the first factory that supports a type. *)
Record Factory (T P : Type) := { ft_Support : T → bool; ft_New : P }.
Arguments ft_Support {T P}.
Arguments ft_New {T P}.
Arguments Build_Factory {T P}.

Definition find_factory {T P} (factories : list (Factory T P)) (t : T) : option (Factory T P) :=
  snd <$> list_find (λ f, ft_Support f t = true) factories.

Definition supported {T P} (what t : string) (o : option (Factory T P)) : result error (Factory T P) :=
  match o with Some f => Ok f | None => Err (ErrorText (what +:+ " type " +:+ t +:+ " not supported")) end.

Definition GetStoreFactory {P} (fs : list (Factory string P)) (t : string) : result error (Factory string P) :=
  supported "store" t (find_factory fs t).
Definition discovery_GetListWatcherFactory {P} (fs : list (Factory string P)) (t : string) : result error (Factory string P) :=
  supported "discovery" t (find_factory fs t).
Definition engine_GetListWatcherFactory {P} (fs : list (Factory string P)) (t : string) : result error (Factory string P) :=
  supported "engine" t (find_factory fs t).
Definition GetGovernorFactory {P} (fs : list (Factory string P)) (t : string) : result error (Factory string P) :=
  supported "governor" t (find_factory fs t).
Definition GetSupportedFactory {P} (fs : list (Factory Settings P)) (cfg : Settings) : result error (Factory Settings P) :=
  match find_factory fs cfg with Some f => Ok f | None => Err (ErrorText "no supported lock factory found") end.
Definition GetAllSupportedFactories {P} (fs : list (Factory Settings P)) (cfg : Settings) : list (Factory Settings P) :=
  filter (λ f, ft_Support f cfg = true) fs.

Section startup.
Context `{MapRange}.
(** Stores, governors, locks and database connections. *)
Context {S G L DB : Type}.
Context (cfg : Settings).

(** What is registered before [main]: the kinds of resources, in the order
    [AllResourceKinds] has them, and the factories. *)
Context (AllResourceKinds : list string)
  (store_factories : list (Factory string (string → StoreConfig → result error S)))
  (store_Init : S → result error S)
  (discovery_factories : list (Factory string (DiscoveryConfig → result error (list ResourceListerWatcher))))
  (engine_factories : list (Factory string (EngineConfig → result error (list ResourceListerWatcher))))
  (governor_factories : list (Factory string (string → DiscoveryConfig → gmap string S → result error G)))
  (lock_factories : list (Factory Settings (Settings → result error L))).
(** The connection of a store that has a pool, and the leases. *)
Context (store_db : S → option DB) (GenerateHolderID : string → result error string)
  (EnsureTable : DB → LeaderElection → option error).

(** The mutable fields of the components; the informers are numbered by their
    place in [pr_heap]. *)
Record process := {
  pr_bus : eventBus;
  pr_stores : gmap string S;
  pr_heap : list (wired S);
  pr_discovery : discoveryComponent;
  pr_engine : engineComponent;
  pr_governors : gmap string G;
  pr_rm : bool;
  pr_lock : option L;
  pr_counter : option (managerComponent * option LeaderElection);
  pr_versioning : option (S * Z) }.

Definition process_init : process :=
  {| pr_bus := EventBus.Init 0; pr_stores := ∅; pr_heap := [];
     pr_discovery := {| di_configs := []; di_informers := ∅; di_subscribers := [];
                        di_leaderElection := None; di_subscribed := false |};
     pr_engine := {| en_name := ""; en_informers := []; en_subscribers := [];
                     en_leaderElection := None; en_subscribed := false |};
     pr_governors := ∅; pr_rm := false; pr_lock := None; pr_counter := None; pr_versioning := None |}.

Definition with_pbus (w : process) b : process :=
  {| pr_bus := b; pr_stores := pr_stores w; pr_heap := pr_heap w; pr_discovery := pr_discovery w;
     pr_engine := pr_engine w; pr_governors := pr_governors w; pr_rm := pr_rm w; pr_lock := pr_lock w;
     pr_counter := pr_counter w; pr_versioning := pr_versioning w |}.
Definition with_stores (w : process) st : process :=
  {| pr_bus := pr_bus w; pr_stores := st; pr_heap := pr_heap w; pr_discovery := pr_discovery w;
     pr_engine := pr_engine w; pr_governors := pr_governors w; pr_rm := pr_rm w; pr_lock := pr_lock w;
     pr_counter := pr_counter w; pr_versioning := pr_versioning w |}.
Definition with_discovery_ (w : process) h d : process :=
  {| pr_bus := pr_bus w; pr_stores := pr_stores w; pr_heap := h; pr_discovery := d;
     pr_engine := pr_engine w; pr_governors := pr_governors w; pr_rm := pr_rm w; pr_lock := pr_lock w;
     pr_counter := pr_counter w; pr_versioning := pr_versioning w |}.
Definition with_engine (w : process) h e : process :=
  {| pr_bus := pr_bus w; pr_stores := pr_stores w; pr_heap := h; pr_discovery := pr_discovery w;
     pr_engine := e; pr_governors := pr_governors w; pr_rm := pr_rm w; pr_lock := pr_lock w;
     pr_counter := pr_counter w; pr_versioning := pr_versioning w |}.
Definition with_governors (w : process) g : process :=
  {| pr_bus := pr_bus w; pr_stores := pr_stores w; pr_heap := pr_heap w; pr_discovery := pr_discovery w;
     pr_engine := pr_engine w; pr_governors := g; pr_rm := pr_rm w; pr_lock := pr_lock w;
     pr_counter := pr_counter w; pr_versioning := pr_versioning w |}.
Definition with_rest (w : process) rm l c v : process :=
  {| pr_bus := pr_bus w; pr_stores := pr_stores w; pr_heap := pr_heap w; pr_discovery := pr_discovery w;
     pr_engine := pr_engine w; pr_governors := pr_governors w; pr_rm := rm; pr_lock := l;
     pr_counter := c; pr_versioning := v |}.

(** ** Event bus and stores *)
Definition bus_Init (w : process) : process * option error :=
  let n := match cf_EventBus cfg with Some c => bus_BufferSize c | None => bus_BufferSize DefaultEventBus end in
  (with_pbus w (EventBus.Init (Z.to_nat n)), None).

Fixpoint create_stores (new : string → StoreConfig → result error S) (kinds : list string) (w : process)
    : process * option error :=
  match kinds with
  | [] => (w, None)
  | kind :: kinds =>
      match new kind (cf_Store cfg) with
      | Err e => (w, Some e)
      | Ok s =>
          match store_Init s with
          | Err e => (with_stores w (<[kind := s]> (pr_stores w)), Some e)
          | Ok s => create_stores new kinds (with_stores w (<[kind := s]> (pr_stores w)))
          end
      end
  end.

Definition store_component_Init (w : process) : process * option error :=
  match GetStoreFactory store_factories (store_Type (cf_Store cfg)) with
  | Err e => (w, Some e)
  | Ok f => create_stores (ft_New f) AllResourceKinds w
  end.

Definition route (w : process) (k : string) : result error S :=
  match pr_stores w !! k with
  | Some s => Ok s
  | None => Err (ErrorText (k +:+ " is not supported by store yet"))
  end.

Definition GetDB (w : process) : option DB := head (omap (λ p, store_db p.2) (go_range (pr_stores w))).

(** The election of a component, if the replicas share a database. *)
Definition election (w : process) (component : string) : option LeaderElection :=
  if decide (store_Type (cf_Store cfg) = "memory") then None
  else
    db ← GetDB w;
    match GenerateHolderID component with
    | Err _ => None
    | Ok holderID =>
        let le := NewLeaderElection component holderID [] in
        match EnsureTable db le with Some _ => None | None => Some le end
    end.

(** ** Discovery *)
Definition keyFunc : obj → result error string := ResourceKeyFunc.

(** The informers of the lister-watchers, at the end of the heap. *)
Fixpoint wire_informers (w : process) (heap : list (wired S)) (lws : list ResourceListerWatcher)
    : list (wired S) * result error (list nat) :=
  match lws with
  | [] => (heap, Ok [])
  | lw :: lws =>
      match route w (lw_ResourceKind lw) with
      | Err _ => (heap, Err (ErrorText ("cannot find store for resource kind " +:+ lw_ResourceKind lw)))
      | Ok s =>
          let '(heap', r) := wire_informers w (heap ++ [Build_wired lw s keyFunc (NewInformerWithOptions 0)]) lws in
          (heap', informers ← r; Ok (length heap :: informers))
      end
  end.

Definition initInformers (w : process) (c : DiscoveryConfig) : list (wired S) * result error (list nat) :=
  match discovery_GetListWatcherFactory discovery_factories (dc_Type c) with
  | Err e => (pr_heap w, Err e)
  | Ok f =>
      match ft_New f c with
      | Err e => (pr_heap w, Err e)
      | Ok lwList => wire_informers w (pr_heap w) lwList
      end
  end.

Definition add_informers (d : discoveryComponent) (id : string) (l : list nat) : discoveryComponent :=
  {| di_configs := di_configs d; di_informers := <[id := l]> (di_informers d);
     di_subscribers := di_subscribers d; di_leaderElection := di_leaderElection d;
     di_subscribed := di_subscribed d |}.

Fixpoint init_discoveries (w : process) (configs : list DiscoveryConfig) : process * option error :=
  match configs with
  | [] => (w, None)
  | c :: configs =>
      match initInformers w c with
      | (heap, Err e) => (with_discovery_ w heap (pr_discovery w), Some e)
      | (heap, Ok informers) =>
          init_discoveries (with_discovery_ w heap (add_informers (pr_discovery w) (dc_ID c) informers)) configs
      end
  end.

(** The [Name], [ResourceKind] and [AsyncEnabled] of a subscriber. *)
Definition named (prefix : string) (kind : ResourceKind) : Subscriber :=
  {| sub_ResourceKind := kind_string kind; sub_Name := prefix +:+ kind_string kind; sub_AsyncEnabled := true |}.

Definition route_or (w : process) (kind : ResourceKind) : result error S :=
  match route w (kind_string kind) with
  | Ok s => Ok s
  | Err e => Err (biz_wrap e StoreError ("can not find store for resource kind " +:+ kind_string kind))
  end.

Definition has_type (t : string) (configs : list DiscoveryConfig) : bool := existsb (λ c, bool_decide (dc_Type c = t)) configs.

Definition initSubscribes (w : process) (configs : list DiscoveryConfig) (engineConfig : option EngineConfig)
    : result error (list Subscriber) :=
  _ ← route_or w InstanceKind; _ ← route_or w RuntimeInstanceKind; _ ← route_or w ApplicationKind;
  _ ← route_or w ServiceKind; _ ← route_or w ServiceProviderMetadataKind;
  Ok ([named "Discovery-" RPCInstanceKind; named "Discovery-" ServiceConsumerMetadataKind;
       named "Discovery-" ServiceProviderMetadataKind; named "Discovery-" InstanceKind] ++
      (if has_type "nacos2" configs then [named "Nacos2Discovery-" NacosServiceKind] else []) ++
      (if has_type "zookeeper" configs then [named "Discovery-" ZKMetadataKind; named "Discovery-" ZKConfigKind] else []) ++
      (if from_option (λ e, bool_decide (ec_Type e = "kubernetes")) false engineConfig
       then [named "Discovery-" LifecycleEventKind] else [])).

(** The type assertions of the components hold: there is one component of
    each type. *)
Definition activated (b : Builder) (typ : string) (wrap : error → error) : result error Runtime.Component :=
  match GetActivatedComponent b typ with Ok c => Ok c | Err e => Err (wrap e) end.

Definition not_retrieved (what : string) (e : error) : error :=
  biz_new UnknownError ("can not retrieve " +:+ what +:+ " from runtime in discovery, " +:+ error_string e).

Definition with_configs (d : discoveryComponent) : discoveryComponent :=
  {| di_configs := cf_Discovery cfg; di_informers := di_informers d; di_subscribers := di_subscribers d;
     di_leaderElection := di_leaderElection d; di_subscribed := di_subscribed d |}.
Definition with_subscribers (d : discoveryComponent) (subs : list Subscriber) (le : option LeaderElection)
    : discoveryComponent :=
  {| di_configs := di_configs d; di_informers := di_informers d; di_subscribers := di_subscribers d ++ subs;
     di_leaderElection := le; di_subscribed := di_subscribed d |}.

Definition discovery_Init (b : Builder) (w : process) : process * option error :=
  match (_ ← activated b Runtime.EventBus (not_retrieved "event bus"); activated b Runtime.ResourceStore (not_retrieved "store")) with
  | Err e => (w, Some e)
  | Ok _ =>
      match init_discoveries (with_discovery_ w (pr_heap w) (with_configs (pr_discovery w))) (cf_Discovery cfg) with
      | (w, Some e) => (w, Some e)
      | (w, None) =>
          match initSubscribes w (cf_Discovery cfg) (Some (cf_Engine cfg)) with
          | Err e => (w, Some e)
          | Ok subs =>
              (with_discovery_ w (pr_heap w)
                 (with_subscribers (pr_discovery w) subs (election w ResourceDiscovery)), None)
          end
      end
  end.

(** ** Engine *)
Definition resolveInformerKeyFunc (lw : ResourceListerWatcher) (MetaNamespaceKeyFunc : obj → result error string)
    : obj → result error string :=
  default MetaNamespaceKeyFunc (lw_KeyFunc lw).

Context (MetaNamespaceKeyFunc : obj → result error string).

Definition with_engine_informer (w : process) (e : engineComponent) (i : wired S) : process :=
  with_engine w (pr_heap w ++ [i])
    {| en_name := en_name e; en_informers := en_informers e ++ [length (pr_heap w)];
       en_subscribers := en_subscribers e; en_leaderElection := en_leaderElection e;
       en_subscribed := en_subscribed e |}.

Fixpoint wire_engine (w : process) (lws : list ResourceListerWatcher) : process * option error :=
  match lws with
  | [] => (w, None)
  | lw :: lws =>
      let rk := lw_ResourceKind lw in
      match route w rk with
      | Err e => (w, Some (errorf_w ("can not find store for resource kind " +:+ rk +:+ ", ") e ""))
      | Ok s =>
          let informer := NewInformerWithOptions 0 in
          match (match lw_TransformFunc lw with
                 | None => (informer, None)
                 | Some f => SetTransform informer (Some f)
                 end) with
          | (informer, Some e) =>
              (w, Some (errorf_w ("can not set transform for informer of resource kind " +:+ rk +:+ ", ") e ""))
          | (informer, None) =>
              wire_engine (with_engine_informer w (pr_engine w)
                (Build_wired lw s (resolveInformerKeyFunc lw MetaNamespaceKeyFunc) informer)) lws
          end
      end
  end.

Definition engine_initInformers (w : process) : process * option error :=
  match engine_GetListWatcherFactory engine_factories (ec_Type (cf_Engine cfg)) with
  | Err e => (w, Some e)
  | Ok f => match ft_New f (cf_Engine cfg) with Err e => (w, Some e) | Ok lwList => wire_engine w lwList end
  end.

Definition engine_initSubscribers (w : process) : result error (list Subscriber) :=
  match route w (kind_string InstanceKind) with
  | Err e => Err (errorf_w ("can not find store for resource kind " +:+ kind_string InstanceKind +:+ ", ") e "")
  | Ok _ => Ok [named "Engine-" RuntimeInstanceKind]
  end.

Definition not_retrieved_in (what name : string) (e : error) : error :=
  errorf_w ("can not retrieve " +:+ what +:+ " from runtime in engine " +:+ name +:+ ", ") e "".

Definition engine_Init (b : Builder) (w : process) : process * option error :=
  let name := ec_ID (cf_Engine cfg) in
  let e := pr_engine w in
  let w := with_engine w (pr_heap w)
    {| en_name := name; en_informers := en_informers e; en_subscribers := en_subscribers e;
       en_leaderElection := en_leaderElection e; en_subscribed := en_subscribed e |} in
  match (_ ← activated b Runtime.EventBus (not_retrieved_in "event bus" name);
         activated b Runtime.ResourceStore (not_retrieved_in "store" name)) with
  | Err e => (w, Some e)
  | Ok _ =>
      match engine_initInformers w with
      | (w, Some e) => (w, Some (errorf_w "init informer failed, " e ""))
      | (w, None) =>
          match engine_initSubscribers w with
          | Err e => (w, Some (errorf_w "init subscribers failed, " e ""))
          | Ok subs =>
              let e := pr_engine w in
              (with_engine w (pr_heap w)
                 {| en_name := en_name e; en_informers := en_informers e;
                    en_subscribers := en_subscribers e ++ subs;
                    en_leaderElection := election w ResourceEngine;
                    en_subscribed := en_subscribed e |}, None)
          end
      end
  end.

(** ** Governors, manager, counters, lock, history *)
Fixpoint create_governors (w : process) (configs : list DiscoveryConfig) : process * option error :=
  match configs with
  | [] => (w, None)
  | c :: configs =>
      match (f ← GetGovernorFactory governor_factories (dc_Type c); ft_New f (dc_ID c) c (pr_stores w)) with
      | Err e => (w, Some e)
      | Ok governor => create_governors (with_governors w (<[dc_ID c := governor]> (pr_governors w))) configs
      end
  end.

Definition governor_Init (b : Builder) (w : process) : process * option error :=
  match (_ ← activated b Runtime.EventBus (not_retrieved "event bus");
         activated b Runtime.ResourceStore (not_retrieved "store")) with
  | Err e => (w, Some e)
  | Ok _ => create_governors w (cf_Discovery cfg)
  end.

(** The first error is formatted with [%s], the second with [%w]. *)
Definition manager_Init (b : Builder) (w : process) : process * option error :=
  let cause := "failed to init resource manager, cause: " in
  match (_ ← activated b Runtime.ResourceStore (λ e, ErrorText (cause +:+ error_string e));
         activated b RuleGovernor (λ e, errorf_w cause e "")) with
  | Err e => (w, Some e)
  | Ok _ => (with_rest w true (pr_lock w) (pr_counter w) (pr_versioning w), None)
  end.

(** A store that cannot be retrieved only means that there is no election. *)
Definition counter_Init (b : Builder) (w : process) : process * option error :=
  let le := match GetActivatedComponent b Runtime.ResourceStore with
            | Err _ => None
            | Ok _ => election w "counter manager"
            end in
  let c := {| mc_manager := newCounterManager; mc_needsLeaderElection := bool_decide (is_Some le);
              mc_isLeader := false; mc_bound := false |} in
  (with_rest w (pr_rm w) (pr_lock w) (Some (c, le)) (pr_versioning w), None).

Definition lock_Init (w : process) : process * option error :=
  match GetSupportedFactory lock_factories cfg with
  | Err _ => (w, None)
  | Ok f =>
      match ft_New f cfg with
      | Err e => (w, Some (errorf_w "failed to create distributed lock: " e ""))
      | Ok l => (with_rest w (pr_rm w) (Some l) (pr_counter w) (pr_versioning w), None)
      end
  end.

(** A lock is there only if a factory supported the configuration. *)
Definition GetLockFromRuntime (components : gmap ComponentType Runtime.Component) (w : process) : result error L :=
  match components !! "distributed lock" with
  | None => Err (ErrorText "component distributed lock not found")
  | Some _ =>
      match pr_lock w with
      | None => Err (ErrorText "distributed lock is not available (possibly using memory store)")
      | Some l => Ok l
      end
  end.

(** [ensureStores] checks that the store is there, which the route did. *)
Definition versioning_Init (b : Builder) (w : process) : process * option error :=
  let max := match cf_RuleVersioning cfg with
             | Some c => ver_MaxVersionsPerRule c
             | None => ver_MaxVersionsPerRule DefaultVersioning
             end in
  match GetActivatedComponent b Runtime.ResourceStore with
  | Err e => (w, Some e)
  | Ok _ =>
      match route w (kind_string RuleVersionKind) with
      | Err e => (w, Some (errorf_w "failed to get RuleVersion store: " e ""))
      | Ok s => (with_rest w (pr_rm w) (pr_lock w) (pr_counter w) (Some (s, max)), None)
      end
  end.

(** ** The bootstrap of the process

    The console and the diagnostics server keep their configuration and build
    HTTP handlers. *)
Definition Init_component (c : Runtime.Component) (b : Builder) (w : process) : process * option error :=
  let typ := Type_ c in
  if decide (typ = Runtime.EventBus) then bus_Init w
  else if decide (typ = Runtime.ResourceStore) then store_component_Init w
  else if decide (typ = ResourceDiscovery) then discovery_Init b w
  else if decide (typ = ResourceEngine) then engine_Init b w
  else if decide (typ = RuleGovernor) then governor_Init b w
  else if decide (typ = ResourceManager) then manager_Init b w
  else if decide (typ = "counter manager") then counter_Init b w
  else if decide (typ = "distributed lock") then lock_Init w
  else if decide (typ = "rule versioning") then versioning_Init b w
  else (w, None).

Definition boot : option (process * result error (gmap ComponentType Runtime.Component)) :=
  Bootstrap Init_component (RegisterAll ∅ registered) process_init.

(** runtime.go, [Start]: an error of a core component is a panic of the
    process, one of another component is logged. *)
Definition component_failed (typ : ComponentType) (err : option error) : option string :=
  match err with
  | Some e =>
      if decide (typ ∈ CoreComponentTypes) then
        Some ("core component " +:+ typ +:+ " running failed with error: " +:+ error_string e)
      else None
  | None => None
  end.

(** ** What is made *)

(** The lister-watchers of a discovery and of the engine. *)
Definition listers (c : DiscoveryConfig) (lws : list ResourceListerWatcher) : Prop :=
  ∃ f, find_factory discovery_factories (dc_Type c) = Some f ∧ ft_New f c = Ok lws.
Definition engine_listers (lws : list ResourceListerWatcher) : Prop :=
  ∃ f, find_factory engine_factories (ec_Type (cf_Engine cfg)) = Some f ∧ ft_New f (cf_Engine cfg) = Ok lws.

Definition storable (lws : list ResourceListerWatcher) : Prop :=
  Forall (λ lw, lw_ResourceKind lw ∈ AllResourceKinds) lws.

(** Every factory that is asked supports its type and makes what it is asked
    for, of kinds that have a store. *)
Record available : Prop := {
  av_kinds : Forall (λ k, kind_string k ∈ AllResourceKinds) all_kinds;
  av_stores : ∃ f, find_factory store_factories (store_Type (cf_Store cfg)) = Some f ∧
    Forall (λ k, ∃ s s', ft_New f k (cf_Store cfg) = Ok s ∧ store_Init s = Ok s') AllResourceKinds;
  av_discovery : Forall (λ c, ∃ lws, listers c lws ∧ storable lws) (cf_Discovery cfg);
  av_engine : ∃ lws, engine_listers lws ∧ storable lws;
  av_governors : Forall (λ c, ∃ f, find_factory governor_factories (dc_Type c) = Some f ∧
    ∀ st, ∃ g, ft_New f (dc_ID c) c st = Ok g) (cf_Discovery cfg);
  av_lock : ∀ f, find_factory lock_factories cfg = Some f → ∃ l, ft_New f cfg = Ok l }.

(** An informer over the lister-watcher and the store of its kind, not
    started, that keeps its transform and key function if [engine]. *)
Definition wired_as (stores : gmap string S) (engine : bool) (heap : list (wired S)) (i : nat)
    (lw : ResourceListerWatcher) : Prop :=
  ∃ s w, heap !! i = Some w ∧ stores !! lw_ResourceKind lw = Some s ∧ wi_lw w = lw ∧ wi_store w = s ∧
    inf_started (wi_informer w) = false ∧
    inf_transform (wi_informer w) = (if engine then lw_TransformFunc lw else None) ∧
    wi_keyFunc w = (if engine then resolveInformerKeyFunc lw MetaNamespaceKeyFunc else keyFunc).

Definition counter_subscribers : list Subscriber :=
  (λ k, {| sub_ResourceKind := k; sub_Name := "counter-manager/" +:+ k; sub_AsyncEnabled := false |})
    <$> handledKinds newCounterManager.

(** The replica that [Start] finds. *)
Definition replica_of {C} (c : C) (w : process) : replica S C :=
  {| rp_component := c; rp_bus := pr_bus w; rp_heap := pr_heap w; rp_channels := [];
     rp_leaderStopCh := None; rp_goroutines := []; rp_entered := []; rp_running := [] |}.

Record wired_process (w : process) : Prop := {
  wp_stores k : is_Some (pr_stores w !! k) ↔ k ∈ AllResourceKinds;
  wp_discoveries c : c ∈ cf_Discovery cfg → ∃ l lws, di_informers (pr_discovery w) !! dc_ID c = Some l ∧
    listers c lws ∧ Forall2 (wired_as (pr_stores w) false (pr_heap w)) l lws;
  wp_engine : ∃ lws, engine_listers lws ∧
    Forall2 (wired_as (pr_stores w) true (pr_heap w)) (en_informers (pr_engine w)) lws;
  wp_apart : NoDup (bs_informers (pr_discovery w) ++ bs_informers (pr_engine w));
  wp_fresh : fresh (replica_of (pr_discovery w) w) ∧ fresh (replica_of (pr_engine w) w);
  wp_governors c : c ∈ cf_Discovery cfg → is_Some (pr_governors w !! dc_ID c);
  wp_elections : di_leaderElection (pr_discovery w) = election w ResourceDiscovery ∧
    en_leaderElection (pr_engine w) = election w ResourceEngine;
  wp_manager : pr_rm w = true ∧ is_Some (pr_counter w) ∧ is_Some (pr_versioning w);
  wp_lock : is_Some (pr_lock w) ↔ is_Some (find_factory lock_factories cfg);
  wp_subscribes subs :
    subs ≡ₚ di_subscribers (pr_discovery w) ++ en_subscribers (pr_engine w) ++ counter_subscribers →
    ∃ b, subscribe_all (C := discoveryComponent) (pr_bus w) subs = (b, None) ∧
      ∀ k, subscribers_at b k = of_kind k subs }.

(** *** One operation after the other *)
Lemma init_cons b w c l w' :
  Init_component c b w = (w', None) → b !! Type_ c = None →
  init_in_order Init_component b w (c :: l) = init_in_order Init_component (<[Type_ c := c]> b) w' l.
Proof.
  intros Hi Hb. cbn [init_in_order]. unfold initAndActivateComponent, ActivateComponent. by rewrite Hi, Hb.
Qed.

Lemma create_stores_ok new kinds w :
  Forall (λ k, ∃ s s', new k (cf_Store cfg) = Ok s ∧ store_Init s = Ok s') kinds →
  ∃ st, create_stores new kinds w = (with_stores w st, None) ∧
    ∀ k, is_Some (st !! k) ↔ k ∈ kinds ∨ is_Some (pr_stores w !! k).
Proof.
  revert w. induction kinds as [|kind kinds IH]; intros w Hf.
  { exists (pr_stores w). destruct w. split; [done|]. intros k. set_solver. }
  apply Forall_cons in Hf as [(s & s' & Hs & Hs') Hf]. cbn [create_stores]. rewrite Hs, Hs'.
  destruct (IH (with_stores w (<[kind := s']> (pr_stores w))) Hf) as (st & -> & Hk).
  exists st. split; [done|]. intros k. rewrite Hk. simpl. rewrite lookup_insert_is_Some, elem_of_cons.
  destruct (decide (kind = k)); naive_solver.
Qed.

Lemma wire_informers_ok w heap lws :
  Forall (λ lw, is_Some (pr_stores w !! lw_ResourceKind lw)) lws →
  ∃ made, wire_informers w heap lws = (heap ++ made, Ok (seq (length heap) (length lws))) ∧
    Forall (λ x, inf_started (wi_informer x) = false) made ∧
    Forall2 (wired_as (pr_stores w) false (heap ++ made)) (seq (length heap) (length lws)) lws.
Proof.
  revert heap. induction lws as [|lw lws IH]; intros heap Hf.
  { exists []. split_and!; [by rewrite app_nil_r|constructor..]. }
  apply Forall_cons in Hf as [[s Hs] Hf]. cbn [wire_informers]. unfold route. rewrite Hs.
  set (x := Build_wired lw s keyFunc (NewInformerWithOptions 0)).
  destruct (IH (heap ++ [x]) Hf) as (made & -> & Hfresh & Hw). exists (x :: made).
  rewrite length_app, Nat.add_1_r in Hw |- *. rewrite <-app_assoc in Hw |- *. cbn [app] in Hw |- *. split_and!.
  - done.
  - by constructor.
  - cbn [length seq]. constructor; [|done]. exists s, x. by rewrite list_lookup_middle.
Qed.

Lemma wired_as_app stores engine heap made i lw :
  wired_as stores engine heap i lw → wired_as stores engine (heap ++ made) i lw.
Proof. intros (s & w & Hw & Hrest). exists s, w. split; [by apply lookup_app_l_Some|done]. Qed.

Lemma informers_insert (m : gmap string (list nat)) k l :
  m !! k = None → (go_range (<[k := l]> m)).*2 ≫= id ≡ₚ l ++ ((go_range m).*2 ≫= id).
Proof. intros Hm. by rewrite !go_range_perm, map_to_list_insert. Qed.

Definition unstarted (heap : list (wired S)) : Prop := Forall (λ x, inf_started (wi_informer x) = false) heap.

(** Every kind has a store. *)
Definition complete_stores (w : process) : Prop := ∀ k, k ∈ AllResourceKinds → is_Some (pr_stores w !! k).

Lemma storable_routes w lws :
  complete_stores w → storable lws → Forall (λ lw, is_Some (pr_stores w !! lw_ResourceKind lw)) lws.
Proof. intros Hc Hl. eapply Forall_impl; [exact Hl|]. intros lw. apply Hc. Qed.

Lemma init_discoveries_ok w configs :
  complete_stores w → Forall (λ c, ∃ lws, listers c lws ∧ storable lws) configs →
  NoDup (dc_ID <$> configs) → (∀ c, c ∈ configs → di_informers (pr_discovery w) !! dc_ID c = None) →
  NoDup (bs_informers (pr_discovery w)) →
  Forall (λ i, i < length (pr_heap w))%nat (bs_informers (pr_discovery w)) →
  ∃ made m, init_discoveries w configs = (with_discovery_ w (pr_heap w ++ made)
      {| di_configs := di_configs (pr_discovery w); di_informers := m;
         di_subscribers := di_subscribers (pr_discovery w);
         di_leaderElection := di_leaderElection (pr_discovery w);
         di_subscribed := di_subscribed (pr_discovery w) |}, None) ∧
    unstarted made ∧ di_informers (pr_discovery w) ⊆ m ∧
    (∀ c, c ∈ configs → ∃ l lws, m !! dc_ID c = Some l ∧ listers c lws ∧
       Forall2 (wired_as (pr_stores w) false (pr_heap w ++ made)) l lws) ∧
    NoDup ((go_range m).*2 ≫= id) ∧
    Forall (λ i, i < length (pr_heap w ++ made))%nat ((go_range m).*2 ≫= id).
Proof.
  revert w. induction configs as [|c configs IH]; intros w Hs Hf Hn Hfree Hnd Hlt.
  { exists [], (di_informers (pr_discovery w)). destruct w as [? ? ? [] ? ? ? ? ? ?]. simpl in *. rewrite !app_nil_r.
    split_and!; try done; [constructor|]. by intros ? ?%elem_of_nil. }
  apply Forall_cons in Hf as [(lws & (f & Hfind & Hnew) & Hst) Hf].
  rewrite fmap_cons in Hn. apply NoDup_cons in Hn as [Hni Hn].
  cbn [init_discoveries]. unfold initInformers, discovery_GetListWatcherFactory. rewrite Hfind. cbn [supported]. rewrite Hnew.
  destruct (wire_informers_ok w (pr_heap w) lws (storable_routes _ _ Hs Hst)) as (made1 & -> & Hun & Hw1).
  set (l := seq _ _) in *. assert (Hnone : di_informers (pr_discovery w) !! dc_ID c = None) by (apply Hfree; left).
  assert (Hperm := informers_insert _ _ l Hnone).
  assert (Hlen : length (pr_heap w ++ made1) = (length (pr_heap w) + length made1)%nat) by apply length_app.
  assert (Hl : Forall (λ i, i < length (pr_heap w ++ made1))%nat l).
  { apply Forall_forall. intros i Hi. destruct (proj1 (list_elem_of_lookup _ _) Hi) as [j Hj].
    destruct (Forall2_lookup_l _ _ _ _ _ Hw1 Hj) as (lw & _ & s & x & Hx & _). by eapply lookup_lt_Some. }
  destruct (IH (with_discovery_ w (pr_heap w ++ made1) (add_informers (pr_discovery w) (dc_ID c) l)))
    as (made & m & E & Hun' & Hsub & Hall & Hnd' & Hlt'); [done|done|done|..]; cbn [pr_discovery with_discovery_ add_informers di_informers pr_heap].
  - intros c' Hc'. rewrite lookup_insert_ne; [by apply Hfree; right|]. intros He. apply Hni. rewrite He. by apply list_elem_of_fmap_2.
  - unfold bs_informers, discovery_business. cbn [di_informers]. rewrite Hperm. apply NoDup_app. split; [apply NoDup_seq|]. split; [|done].
    intros i Hi Hi'. apply (proj1 (Forall_forall _ _) Hlt) in Hi'. unfold l in Hi. apply elem_of_seq in Hi. lia.
  - unfold bs_informers, discovery_business. cbn [di_informers]. rewrite Hperm. apply Forall_app. split; [done|].
    eapply Forall_impl; [exact Hlt|]. simpl. intros i. rewrite Hlen. lia.
  - exists (made1 ++ made), m. rewrite E. cbn [pr_discovery with_discovery_ add_informers di_informers pr_heap] in *.
    rewrite <-app_assoc in *. split; [done|]. split; [by apply Forall_app|]. split.
    { etrans; [by apply (insert_subseteq _ (dc_ID c) l)|done]. }
    split_and!; [|done|done]. intros c' [->|Hc']%elem_of_cons; [|by apply Hall].
    exists l, lws. split; [eapply lookup_weaken; [apply lookup_insert_eq|done]|]. split; [by exists f|].
    eapply Forall2_impl; [exact Hw1|]. intros i lw Hi. rewrite app_assoc. by apply wired_as_app.
Qed.

Lemma wire_engine_ok w lws :
  Forall (λ lw, is_Some (pr_stores w !! lw_ResourceKind lw)) lws →
  ∃ made, wire_engine w lws = (with_engine w (pr_heap w ++ made)
      {| en_name := en_name (pr_engine w);
         en_informers := en_informers (pr_engine w) ++ seq (length (pr_heap w)) (length lws);
         en_subscribers := en_subscribers (pr_engine w); en_leaderElection := en_leaderElection (pr_engine w);
         en_subscribed := en_subscribed (pr_engine w) |}, None) ∧
    unstarted made ∧
    Forall2 (wired_as (pr_stores w) true (pr_heap w ++ made)) (seq (length (pr_heap w)) (length lws)) lws.
Proof.
  revert w. induction lws as [|lw lws IH]; intros w Hf.
  { exists []. destruct w as [? ? ? ? [] ? ? ? ? ?]. simpl. rewrite !app_nil_r. split_and!; [done|constructor..]. }
  apply Forall_cons in Hf as [[s Hs] Hf]. cbn [wire_engine]. unfold route. rewrite Hs.
  assert (∃ i, (match lw_TransformFunc lw with None => (NewInformerWithOptions 0, None)
                | Some f => SetTransform (NewInformerWithOptions 0) (Some f) end) = (i, None) ∧
             inf_started i = false ∧ inf_transform i = lw_TransformFunc lw) as (i & -> & Hun & Htr).
  { destruct (lw_TransformFunc lw); by eexists. }
  set (x := Build_wired lw s _ i). set (w1 := with_engine_informer w (pr_engine w) x).
  destruct (IH w1 Hf) as (made & -> & Hfresh & Hw). unfold w1, with_engine_informer in *.
  cbn [pr_heap pr_engine pr_stores with_engine en_name en_informers en_subscribers en_leaderElection en_subscribed] in *.
  exists (x :: made). rewrite length_app, Nat.add_1_r in *. rewrite <-!app_assoc in *. cbn [app length seq] in *. split_and!.
  - done.
  - by constructor.
  - constructor; [|done]. exists s, x. by rewrite list_lookup_middle.
Qed.

Lemma create_governors_ok w configs :
  Forall (λ c, ∃ f, find_factory governor_factories (dc_Type c) = Some f ∧
    ∀ st, ∃ g, ft_New f (dc_ID c) c st = Ok g) configs →
  ∃ gs, create_governors w configs = (with_governors w gs, None) ∧
    ∀ k, is_Some (pr_governors w !! k) ∨ k ∈ dc_ID <$> configs → is_Some (gs !! k).
Proof.
  revert w. induction configs as [|c configs IH]; intros w Hf.
  { exists (pr_governors w). destruct w. split; [done|]. set_solver. }
  apply Forall_cons in Hf as [(f & Hfind & Hnew) Hf]. destruct (Hnew (pr_stores w)) as [g Hg].
  cbn [create_governors]. unfold GetGovernorFactory. rewrite Hfind. simpl. rewrite Hg.
  destruct (IH (with_governors w (<[dc_ID c := g]> (pr_governors w))) Hf) as (gs & -> & Hk).
  exists gs. split; [done|]. intros k Hin. apply Hk. simpl. rewrite lookup_insert_is_Some.
  destruct (decide (dc_ID c = k)) as [He|Hne]; [by left; left|].
  destruct Hin as [Hin|Hin]; [by left; right|]. apply elem_of_cons in Hin as [->|Hin]; [done|by right].
Qed.

Lemma route_ok w k : complete_stores w → k ∈ AllResourceKinds → ∃ s, route w k = Ok s.
Proof. intros Hc Hk. unfold route. destruct (Hc k Hk) as [s ->]. by exists s. Qed.

Lemma route_or_ok w kind : complete_stores w → available → ∃ s, route_or w kind = Ok s.
Proof.
  intros Hc Ha. unfold route_or. pose proof (proj1 (Forall_forall _ _) (av_kinds Ha) kind (elem_of_all_kinds _)) as Hk.
  destruct (route_ok w _ Hc Hk) as [s ->]. by exists s.
Qed.

Lemma initSubscribes_ok w configs e :
  complete_stores w → available → ∃ subs, initSubscribes w configs e = Ok subs ∧
    subs ⊆ [named "Discovery-" RPCInstanceKind; named "Discovery-" ServiceConsumerMetadataKind;
            named "Discovery-" ServiceProviderMetadataKind; named "Discovery-" InstanceKind;
            named "Nacos2Discovery-" NacosServiceKind; named "Discovery-" ZKMetadataKind;
            named "Discovery-" ZKConfigKind; named "Discovery-" LifecycleEventKind] ∧ named_apart subs.
Proof.
  intros Hc Ha. unfold initSubscribes.
  destruct (route_or_ok w InstanceKind Hc Ha) as [? ->]. destruct (route_or_ok w RuntimeInstanceKind Hc Ha) as [? ->].
  destruct (route_or_ok w ApplicationKind Hc Ha) as [? ->]. destruct (route_or_ok w ServiceKind Hc Ha) as [? ->].
  destruct (route_or_ok w ServiceProviderMetadataKind Hc Ha) as [? ->]. simpl.
  eexists. split; [done|]. destruct (has_type _ _), (has_type _ _), (from_option _ _ _); simpl;
    (split; [set_solver|apply (bool_decide_unpack _); vm_compute; exact I]).
Qed.

Lemma activated_ok b typ wrap : is_Some (b !! typ) → ∃ c, activated b typ wrap = Ok c.
Proof. intros [c Hc]. exists c. unfold activated, GetActivatedComponent. by rewrite Hc. Qed.

(** The subscribers of the discovery and the engine. *)
Definition own_subscribers : list Subscriber :=
  [named "Discovery-" RPCInstanceKind; named "Discovery-" ServiceConsumerMetadataKind;
   named "Discovery-" ServiceProviderMetadataKind; named "Discovery-" InstanceKind;
   named "Nacos2Discovery-" NacosServiceKind; named "Discovery-" ZKMetadataKind;
   named "Discovery-" ZKConfigKind; named "Discovery-" LifecycleEventKind].

Lemma discovery_Init_ok b w :
  is_Some (b !! Runtime.EventBus) → is_Some (b !! Runtime.ResourceStore) →
  complete_stores w → available → NoDup (dc_ID <$> cf_Discovery cfg) →
  pr_discovery w = pr_discovery process_init →
  ∃ made m subs, discovery_Init b w = (with_discovery_ w (pr_heap w ++ made)
      {| di_configs := cf_Discovery cfg; di_informers := m; di_subscribers := subs;
         di_leaderElection := election w ResourceDiscovery; di_subscribed := false |}, None) ∧
    unstarted made ∧
    (∀ c, c ∈ cf_Discovery cfg → ∃ l lws, m !! dc_ID c = Some l ∧ listers c lws ∧
       Forall2 (wired_as (pr_stores w) false (pr_heap w ++ made)) l lws) ∧
    NoDup ((go_range m).*2 ≫= id) ∧ Forall (λ i, i < length (pr_heap w ++ made))%nat ((go_range m).*2 ≫= id) ∧
    subs ⊆ own_subscribers ∧ named_apart subs.
Proof.
  intros Hb1 Hb2 Hc Ha Hn Hd. unfold discovery_Init.
  destruct (activated_ok b _ (not_retrieved "event bus") Hb1) as [? ->].
  destruct (activated_ok b _ (not_retrieved "store") Hb2) as [? ->]. cbn [mbind result_bind].
  set (w1 := with_discovery_ w _ _).
  assert (Hperm : (go_range (∅ : gmap string (list nat))).*2 ≫= id = []).
  { apply Permutation_nil. by rewrite go_range_perm, map_to_list_empty. }
  assert (Hempty : bs_informers (pr_discovery w1) = []).
  { unfold w1, with_configs, bs_informers, discovery_business. cbn. by rewrite Hd. }
  destruct (init_discoveries_ok w1 (cf_Discovery cfg)) as (made & m & -> & Hun & _ & Hall & Hnd & Hlt).
  { exact Hc. } { apply (av_discovery Ha). } { done. }
  { intros c _. unfold w1, with_configs. cbn. rewrite Hd. apply lookup_empty. }
  { rewrite Hempty. constructor. } { rewrite Hempty. constructor. }
  set (w2 := with_discovery_ w1 _ _).
  destruct (initSubscribes_ok w2 (cf_Discovery cfg) (Some (cf_Engine cfg)) Hc Ha) as (subs & -> & Hsub & Hap).
  exists made, m, subs. split; [|by split_and!].
  unfold w2, w1, with_subscribers, with_configs. cbn. by rewrite Hd.
Qed.

Lemma engine_Init_ok b w :
  is_Some (b !! Runtime.EventBus) → is_Some (b !! Runtime.ResourceStore) →
  complete_stores w → available → pr_engine w = pr_engine process_init →
  ∃ made lws, engine_Init b w = (with_engine w (pr_heap w ++ made)
      {| en_name := ec_ID (cf_Engine cfg); en_informers := seq (length (pr_heap w)) (length lws);
         en_subscribers := [named "Engine-" RuntimeInstanceKind];
         en_leaderElection := election w ResourceEngine; en_subscribed := false |}, None) ∧
    unstarted made ∧ engine_listers lws ∧
    Forall2 (wired_as (pr_stores w) true (pr_heap w ++ made)) (seq (length (pr_heap w)) (length lws)) lws.
Proof.
  intros Hb1 Hb2 Hc Ha He. unfold engine_Init. set (w1 := with_engine w _ _).
  destruct (activated_ok b _ (not_retrieved_in "event bus" (ec_ID (cf_Engine cfg))) Hb1) as [? ->].
  destruct (activated_ok b _ (not_retrieved_in "store" (ec_ID (cf_Engine cfg))) Hb2) as [? ->]. cbn [mbind result_bind].
  destruct (av_engine Ha) as (lws & (f & Hfind & Hnew) & Hst).
  unfold engine_initInformers, engine_GetListWatcherFactory. rewrite Hfind. cbn [supported]. rewrite Hnew.
  destruct (wire_engine_ok w1 lws) as (made & -> & Hun & Hw); [by apply storable_routes|].
  unfold engine_initSubscribers. set (w2 := with_engine w1 _ _).
  destruct (route_ok w2 (kind_string InstanceKind)) as [s ->]; [exact Hc| |].
  { by apply (proj1 (Forall_forall _ _) (av_kinds Ha) InstanceKind (elem_of_all_kinds _)). }
  exists made, lws. split; [|by split_and!; [|exists f|]]. unfold w2, w1. cbn. by rewrite He.
Qed.

Lemma counters_apart : named_apart counter_subscribers.
Proof.
  unfold named_apart, counter_subscribers. rewrite <-list_fmap_compose. apply NoDup_fmap_2; [by intros ?? [= -> _]|].
  unfold handledKinds. rewrite go_range_perm. apply NoDup_fst_map_to_list.
Qed.

Lemma named_apart_perm l k : l ≡ₚ k → named_apart l → named_apart k.
Proof. unfold named_apart. by intros ->. Qed.

Lemma all_apart subs : subs ⊆ own_subscribers → named_apart subs →
  named_apart (subs ++ [named "Engine-" RuntimeInstanceKind] ++ counter_subscribers).
Proof.
  intros Hsub Hap. unfold named_apart in *. rewrite !fmap_app. apply NoDup_app. split; [done|]. split.
  - intros p (s & -> & Hs%Hsub)%list_elem_of_fmap Hin. apply elem_of_app in Hin as [Hin|Hin].
    + apply list_elem_of_singleton in Hin. unfold own_subscribers in Hs.
      repeat (apply elem_of_cons in Hs as [->|Hs]; [done|]). by apply elem_of_nil in Hs.
    + unfold counter_subscribers in Hin. rewrite <-list_fmap_compose in Hin.
      apply list_elem_of_fmap in Hin as (k & Hk & _). unfold own_subscribers in Hs.
      repeat (apply elem_of_cons in Hs as [->|Hs]; [done|]). by apply elem_of_nil in Hs.
  - apply NoDup_app. split; [apply NoDup_singleton|]. split; [|apply counters_apart].
    intros p ->%list_elem_of_singleton Hin. unfold counter_subscribers in Hin. rewrite <-list_fmap_compose in Hin.
    by apply list_elem_of_fmap in Hin as (k & Hk & _).
Qed.

Lemma settings_ids c : settings c = Some cfg → NoDup (Meshes c) → NoDup (dc_ID <$> cf_Discovery cfg).
Proof.
  unfold settings, Meshes, discovery_ids. intros Hs Hn.
  apply bind_Some in Hs as (s & _ & Hs). apply bind_Some in Hs as (e & _ & Hs).
  apply bind_Some in Hs as (ds & Hds & [= <-]). simpl. revert Hn.
  assert (omap (option_map dc_ID) (ac_Discovery c) = dc_ID <$> ds) as ->; [|done].
  apply mapM_Some in Hds. induction Hds as [|o d l k Ho _ IH]; [done|]. simpl in Ho. subst o. csimpl. by rewrite IH.
Qed.

Lemma unstarted_app h k : unstarted h → unstarted k → unstarted (h ++ k).
Proof. intros. by apply Forall_app. Qed.

Lemma start_ready {C} `{Business C} (c : C) w :
  bs_subscribed c = false → Forall (λ i, i < length (pr_heap w))%nat (bs_informers c) → NoDup (bs_informers c) →
  unstarted (pr_heap w) → fresh (replica_of c w).
Proof. intros. by split. Qed.

Lemma wired_known stores engine heap l lws :
  Forall2 (wired_as stores engine heap) l lws → Forall (λ i, i < length heap)%nat l.
Proof.
  intros Hw. apply Forall_forall. intros i [j Hj]%list_elem_of_lookup.
  destruct (Forall2_lookup_l _ _ _ _ _ Hw Hj) as (lw & _ & s & x & Hx & _). by eapply lookup_lt_Some.
Qed.

Lemma lock_Init_ok w :
  available → pr_lock w = None →
  ∃ lo, lock_Init w = (with_rest w (pr_rm w) lo (pr_counter w) (pr_versioning w), None) ∧
    (is_Some lo ↔ is_Some (find_factory lock_factories cfg)).
Proof.
  intros Ha Hl. unfold lock_Init, GetSupportedFactory. destruct (find_factory lock_factories cfg) as [f|] eqn:E.
  - destruct (av_lock Ha f E) as [l ->]. exists (Some l). split; [done|]. by split; eexists.
  - exists None. split; [destruct w; simpl in *; by subst|done].
Qed.

(** The builder after the components of a list. *)
Definition builder_of (l : list Runtime.Component) : Builder := foldl (λ b c, <[Type_ c := c]> b) ∅ l.

(** The state the components that run informers are initialized in. *)
Record based (w : process) : Prop := {
  ba_bus : ∃ n, pr_bus w = EventBus.Init n;
  ba_stores k : is_Some (pr_stores w !! k) ↔ k ∈ AllResourceKinds;
  ba_heap : pr_heap w = [];
  ba_discovery : pr_discovery w = pr_discovery process_init;
  ba_engine : pr_engine w = pr_engine process_init;
  ba_lock : is_Some (pr_lock w) ↔ is_Some (find_factory lock_factories cfg);
  ba_counter : is_Some (pr_counter w) }.

Lemma boot_base l :
  available → ∃ w, based w ∧
    init_in_order Init_component ∅ process_init
      ([diagnosticsServer; eventBus_component; storeComponent; counter_component; lock_component] ++ l) =
    init_in_order Init_component
      (builder_of [diagnosticsServer; eventBus_component; storeComponent; counter_component; lock_component]) w l.
Proof.
  intros Ha. cbn [app]. rewrite (init_cons _ process_init _ _ process_init) by reflexivity.
  rewrite (init_cons _ process_init _ _ (bus_Init process_init).1) by reflexivity. set (w1 := (bus_Init process_init).1).
  destruct (av_stores Ha) as (f & Hfind & Hnew).
  destruct (create_stores_ok (ft_New f) AllResourceKinds w1 Hnew) as (st & Est & Hst).
  assert (Es : store_component_Init w1 = (with_stores w1 st, None)).
  { unfold store_component_Init, GetStoreFactory. by rewrite Hfind. }
  rewrite (init_cons _ _ storeComponent _ _ Es) by reflexivity. set (w2 := with_stores w1 st).
  erewrite (init_cons _ w2 counter_component) by reflexivity. set (w3 := with_rest w2 _ _ _ _).
  destruct (lock_Init_ok w3 Ha eq_refl) as (lo & Elo & Hlo).
  rewrite (init_cons _ _ lock_component _ _ Elo) by reflexivity. eexists. split; [|reflexivity].
  split; try done.
  - by eexists.
  - intros k. etrans; [apply Hst|]. split; [|by left]. intros [?|[? Hl]]; [done|].
    unfold w1 in Hl. simpl in Hl. by rewrite lookup_empty in Hl.
Qed.

Lemma subscribes n subs subs' :
  subs ⊆ own_subscribers → named_apart subs →
  subs' ≡ₚ subs ++ [named "Engine-" RuntimeInstanceKind] ++ counter_subscribers →
  ∃ b, subscribe_all (C := discoveryComponent) (EventBus.Init n) subs' = (b, None) ∧
    ∀ k, subscribers_at b k = of_kind k subs'.
Proof.
  intros Hsub Hap Hp. pose proof (named_apart_perm _ _ (symmetry Hp) (all_apart subs Hsub Hap)) as Hn.
  destruct (subscribe_all_ok (C := discoveryComponent) (EventBus.Init n) subs') as (b & E & _ & _ & Hk); [apply Init_inv|done| |done|].
  - apply Forall_forall. intros s _. unfold fits_on, subscribers_at. simpl. rewrite lookup_empty. constructor.
  - exists b. split; [done|]. intros k. rewrite Hk. unfold subscribers_at at 1. simpl. by rewrite lookup_empty.
Qed.

Lemma wired_intro w n made made' m subs lws :
  pr_bus w = EventBus.Init n → (∀ k, is_Some (pr_stores w !! k) ↔ k ∈ AllResourceKinds) →
  pr_heap w = made ++ made' → unstarted made → unstarted made' →
  pr_discovery w = {| di_configs := cf_Discovery cfg; di_informers := m; di_subscribers := subs;
    di_leaderElection := election w ResourceDiscovery; di_subscribed := false |} →
  pr_engine w = {| en_name := ec_ID (cf_Engine cfg); en_informers := seq (length made) (length lws);
    en_subscribers := [named "Engine-" RuntimeInstanceKind];
    en_leaderElection := election w ResourceEngine; en_subscribed := false |} →
  (∀ c, c ∈ cf_Discovery cfg → ∃ l lws, m !! dc_ID c = Some l ∧ listers c lws ∧
     Forall2 (wired_as (pr_stores w) false made) l lws) →
  NoDup ((go_range m).*2 ≫= id) → Forall (λ i, i < length made)%nat ((go_range m).*2 ≫= id) →
  subs ⊆ own_subscribers → named_apart subs → engine_listers lws →
  Forall2 (wired_as (pr_stores w) true (made ++ made')) (seq (length made) (length lws)) lws →
  (∀ c, c ∈ cf_Discovery cfg → is_Some (pr_governors w !! dc_ID c)) →
  pr_rm w = true ∧ is_Some (pr_counter w) ∧ is_Some (pr_versioning w) →
  (is_Some (pr_lock w) ↔ is_Some (find_factory lock_factories cfg)) →
  wired_process w.
Proof.
  intros Hbus Hst Hheap Hun Hun' Hd He Hall Hnd Hlt Hsub Hap Hli Hwe Hgov Hrest Hlock.
  assert (Hlt' : Forall (λ i, i < length (made ++ made'))%nat ((go_range m).*2 ≫= id)).
  { eapply Forall_impl; [exact Hlt|]. simpl. intros i. rewrite length_app. lia. }
  split; rewrite ?Hd, ?He, ?Hheap; try done.
  - intros c Hin. destruct (Hall c Hin) as (l & lws' & Hl & Hli' & Hf). exists l, lws'. split_and!; [done..|].
    eapply Forall2_impl; [exact Hf|]. intros i lw. apply wired_as_app.
  - by exists lws.
  - apply NoDup_app. split; [exact Hnd|]. split; [|apply NoDup_seq].
    intros i Hi Hi'. apply (proj1 (Forall_forall _ _) Hlt) in Hi. apply elem_of_seq in Hi'. lia.
  - split; apply start_ready; rewrite ?Hheap; try done; try by apply unstarted_app.
    + by eapply wired_known.
    + apply NoDup_seq.
  - intros subs' Hp. rewrite Hbus. by eapply subscribes.
Qed.

(** The components that run informers, and those built on them. *)
Lemma boot_rest w :
  based w → available → NoDup (dc_ID <$> cf_Discovery cfg) →
  ∃ b' w',
    init_in_order Init_component
      (builder_of [diagnosticsServer; eventBus_component; storeComponent; counter_component; lock_component]) w
      [Runtime.discoveryComponent; Runtime.engineComponent; ruleGovernorComponent; resourceManagerComponent;
       consoleWebServer; versioning_component] = (b', w', None) ∧
    Build b' = Ok b' ∧ wired_process w'.
Proof.
  intros [(n & Hbus) Hst Hheap Hdi Hen Hlo Hco] Ha Hn.
  assert (Hc : complete_stores w) by (intros k Hk; by apply Hst).
  match goal with |- context [init_in_order _ ?b w _] =>
    destruct (discovery_Init_ok b w) as (made & m & subs & Ed & Hun & Hall & Hnd & Hlt & Hsub & Hap);
      [by eexists|by eexists|exact Hc|exact Ha|exact Hn|exact Hdi|] end.
  rewrite (init_cons _ _ Runtime.discoveryComponent _ _ Ed) by reflexivity. set (w5 := with_discovery_ w _ _) in *.
  match goal with |- context [init_in_order _ ?b w5 _] =>
    destruct (engine_Init_ok b w5) as (made' & lws & Ee & Hun' & Hli & Hwe);
      [by eexists|by eexists|exact Hc|exact Ha|exact Hen|] end.
  rewrite (init_cons _ _ Runtime.engineComponent _ _ Ee) by reflexivity. set (w6 := with_engine w5 _ _) in *.
  destruct (create_governors_ok w6 (cf_Discovery cfg) (av_governors Ha)) as (gs & Eg & Hgs).
  match goal with |- context [init_in_order _ ?b w6 _] =>
    assert (Eg' : governor_Init b w6 = (with_governors w6 gs, None)) by exact Eg end.
  rewrite (init_cons _ _ ruleGovernorComponent _ _ Eg') by reflexivity. set (w7 := with_governors w6 gs) in *.
  erewrite (init_cons _ w7 resourceManagerComponent) by reflexivity. set (w8 := with_rest w7 _ _ _ _).
  rewrite (init_cons _ w8 consoleWebServer _ w8) by reflexivity.
  destruct (route_ok w8 (kind_string RuleVersionKind) Hc) as [rv Erv].
  { by apply (proj1 (Forall_forall _ _) (av_kinds Ha) RuleVersionKind (elem_of_all_kinds _)). }
  match goal with |- context [init_in_order _ ?b w8 _] =>
    assert (∃ v, versioning_Init b w8 = (with_rest w8 (pr_rm w8) (pr_lock w8) (pr_counter w8) (Some v), None)) as [v Ev] end.
  { eexists. unfold versioning_Init. rewrite Erv. reflexivity. }
  rewrite (init_cons _ _ versioning_component _ _ Ev) by reflexivity. cbn [init_in_order].
  eexists _, _. split; [reflexivity|]. split.
  { apply Build_ok. intros t Ht. unfold CoreComponentTypes in Ht.
    repeat (apply elem_of_cons in Ht as [->|Ht]; [by eexists|]). by apply elem_of_nil in Ht. }
  eapply (wired_intro _ n made made'); simpl; rewrite ?Hheap; try done.
  - by rewrite Hheap in Hall.
  - by rewrite Hheap in Hlt.
  - unfold w5 in Hwe. simpl in Hwe. by rewrite Hheap in Hwe.
  - intros c Hin. apply Hgs. right. by apply list_elem_of_fmap_2.
Qed.

(** C8: The bootstrap of the process. When the configuration has all its parts
    and no two discoveries of one id, as every configuration that loads, and
    the factories it names can make what they are asked for, every component is
    initialized in the order of the dependencies; each discovery then has one
    unstarted informer per lister-watcher, over the store of its kind, the
    engine too, with its transforms and keys, no informer is shared, each mesh
    has a governor, elections are set up where replicas share a database, and
    all subscribers can be subscribed, in whatever order the components start. *)
Theorem boots c :
  NoDup (Meshes c) → settings c = Some cfg → available →
  ∃ w comps, boot = Some (w, Ok comps) ∧ wired_process w.
Proof.
  intros Hids Hset Ha. pose proof (settings_ids c Hset Hids) as Hn.
  destruct process_initialization_order as (components & Hgather & Hsort).
  unfold boot, Bootstrap, bootstrapComponents. rewrite Hgather, Hsort. cbn [mbind option_bind].
  destruct (boot_base [Runtime.discoveryComponent; Runtime.engineComponent; ruleGovernorComponent; resourceManagerComponent;
       consoleWebServer; versioning_component] Ha) as (w & Hw & E). cbn [app] in E. rewrite E.
  destruct (boot_rest w Hw Ha Hn) as (b' & w' & -> & Hb & Hw'). cbn [mbind option_bind]. rewrite Hb.
  by exists w', b'.
Qed.
End startup.

(** ** A process of two registries and Kubernetes *)
Module StartupExample.
#[local] Existing Instance default_range.

Definition at_ (a : string) : AddressConfig := {| addr_Registry := a; addr_ConfigCenter := a; addr_MetadataReport := a |}.
Definition periods : DiscoveryProperties := {| dp_ConfigWatchPeriod := 30; dp_ServiceWatchPeriod := 30 |}.
Definition zk : DiscoveryConfig :=
  {| dc_ID := "zk"; dc_Name := "zk"; dc_Type := "zookeeper"; dc_Address := at_ "zookeeper://zk:2181"; dc_Properties := periods |}.
Definition nacos : DiscoveryConfig :=
  {| dc_ID := "nacos"; dc_Name := "nacos"; dc_Type := "nacos2"; dc_Address := at_ "nacos://nacos:8848"; dc_Properties := periods |}.
Definition k8s : EngineConfig :=
  {| ec_ID := "k8s"; ec_Name := "k8s"; ec_Type := "kubernetes";
     ec_Properties := {| ep_KubeConfigPath := ""; ep_PodWatchSelector := ""; ep_DubboAppIdentifier := None;
       ep_DubboRPCPortIdentifier := None; ep_DubboDiscoveryIdentifier := None; ep_MainContainerChooseStrategy := None |} |}.
Definition config : AdminConfig :=
  {| ac_Log := None; ac_Diagnostics := None; ac_Observability := None; ac_Console := None;
     ac_Store := Some {| store_Type := "mysql"; store_Address := "dsn" |};
     ac_Discovery := [Some zk; Some nacos]; ac_Engine := Some k8s; ac_EventBus := None; ac_RuleVersioning := None |}.
Definition cfg : Settings :=
  {| cf_Store := {| store_Type := "mysql"; store_Address := "dsn" |}; cf_Engine := k8s; cf_Discovery := [zk; nacos];
     cf_EventBus := None; cf_RuleVersioning := None |}.

Definition lister (k : ResourceKind) : ResourceListerWatcher :=
  {| lw_ResourceKind := kind_string k; lw_TransformFunc := Some Ok; lw_KeyFunc := None |}.
Definition of_type {P} (t : string) (p : P) : Factory string P := Build_Factory (λ t', bool_decide (t' = t)) p.

(** A store is its kind; every store has the connection [()]. *)
Definition boot_ := boot (L := string) cfg (kind_string <$> all_kinds)
  [of_type "memory" (λ k _, Ok k); of_type "mysql" (λ k _, Ok k)] Ok
  [of_type "zookeeper" (λ _, Ok [lister RPCInstanceKind; lister ZKConfigKind]); of_type "nacos2" (λ _, Ok [lister NacosServiceKind])]
  [of_type "kubernetes" (λ _, Ok [lister RuntimeInstanceKind])]
  [of_type "zookeeper" (λ m _ _, Ok m); of_type "nacos2" (λ m _ _, Ok m)]
  [Build_Factory (λ c, bool_decide (store_Type (cf_Store c) = "mysql")) (λ _, Ok "lock")]
  (λ _, Some ()) (λ c, Ok (c +:+ "@host")) (λ _ _, None) ResourceKeyFunc.

Lemma boots_witness :
  ∃ w comps, boot_ = Some (w, Ok comps) ∧ is_Some (pr_governors w !! "zk") ∧ is_Some (pr_lock w).
Proof.
  destruct (boots (L := string) cfg (kind_string <$> all_kinds)
    [of_type "memory" (λ k _, Ok k); of_type "mysql" (λ k _, Ok k)] Ok
    [of_type "zookeeper" (λ _, Ok [lister RPCInstanceKind; lister ZKConfigKind]); of_type "nacos2" (λ _, Ok [lister NacosServiceKind])]
    [of_type "kubernetes" (λ _, Ok [lister RuntimeInstanceKind])]
    [of_type "zookeeper" (λ m _ _, Ok m); of_type "nacos2" (λ m _ _, Ok m)]
    [Build_Factory (λ c, bool_decide (store_Type (cf_Store c) = "mysql")) (λ _, Ok "lock")]
    (λ _, Some ()) (λ c, Ok (c +:+ "@host")) (λ _ _, None) ResourceKeyFunc config) as (w & comps & Hb & Hw).
  - refine (bool_decide_unpack _ _). vm_compute. exact I.
  - reflexivity.
  - split.
    + refine (bool_decide_unpack _ _). vm_compute. exact I.
    + eexists. split; [reflexivity|]. apply Forall_forall. intros k _. by exists k, k.
    + repeat constructor; (eexists; split; [eexists; split; reflexivity|]);
        refine (bool_decide_unpack _ _); vm_compute; exact I.
    + eexists. split; [eexists; split; reflexivity|]. refine (bool_decide_unpack _ _). vm_compute. exact I.
    + repeat constructor; (eexists; split; [reflexivity|intros st; by eexists]).
    + intros f [= <-]. by eexists.
  - exists w, comps. destruct Hw as [_ _ _ _ _ Hg _ _ Hl _]. split; [exact Hb|]. split.
    + apply (Hg zk). left.
    + apply Hl. by eexists.
Defined.

(** What runs in the process: nine subscribers, and an election for the
    discovery, the engine and the counters. *)
Example booted : match boot_ with
  | Some (w, Ok _) => (sub_Name <$> di_subscribers (pr_discovery w),
                       component <$> di_leaderElection (pr_discovery w), en_informers (pr_engine w))
  | _ => ([], None, [])
  end = (["Discovery-RPCInstance"; "Discovery-ServiceConsumerMetadata"; "Discovery-ServiceProviderMetadata";
          "Discovery-Instance"; "Nacos2Discovery-NacosService"; "Discovery-ZKMetadata"; "Discovery-ZKConfig";
          "Discovery-LifecycleEvent"], Some "resource discovery", [3%nat]).
Proof. vm_compute. reflexivity. Qed.
End StartupExample.
