(* ===== verification/Queries.v ===== *)
(** What a client of a store may rely on when it lists resources by equality
    of indexes: the answer is determined by the stored resources. The
    in-memory store and the reference store are instances. *)
From S2P Require Import Prelude GoStrings Errors Resource Libs Indexers Store MemoryStore MemoryQueries.

Open Scope string_scope.
Open Scope list_scope.

(** The resources of [m] that satisfy [P], ordered by key. *)
Definition query (m : gmap string Resource) (P : Resource → bool) : list Resource :=
  omap (λ k, m !! k) (sort_strings (filter (λ p, P p.2) (map_to_list m)).*1).

Definition index_is (idx : Indexers) (n v : string) (r : Resource) : bool :=
  match idx !! n with Some f => index_has f v (ResourceObj r) | None => false end.

Definition equals (n v : string) : IndexCondition :=
  {| ic_IndexName := n; ic_Value := v; ic_Operator := Equals |}.

Definition all_are (idx : Indexers) (cs : list (string * string)) (r : Resource) : bool :=
  forallb (λ c, index_is idx c.1 c.2 r) cs.

Lemma indexed_by (idx : Indexers) n f v (cs : list (string * string)) : idx !! n = Some f →
  Forall (λ c, is_Some (idx !! c.1)) cs → Forall (λ c, is_Some (idx !! c.1)) ((n, v) :: cs).
Proof. intros Hn. constructor; [|done]. simpl. by eexists. Qed.

Class ResourceStoreQueries (S : Type) `{ResourceStoreLaws S} :=
  st_ListByIndexes_spec s cs : st_ok s → cs ≠ [] →
    Forall (λ c, is_Some (st_indexers s !! c.1)) cs →
    st_ListByIndexes s ((λ c, equals c.1 c.2) <$> cs) = Ok (query (st_items s) (all_are (st_indexers s) cs)).

(** A map that files every resource under its key. *)
Definition self_keyed (m : gmap string Resource) : Prop := map_Forall (λ k r, ResourceKey r = k) m.

Section query.
Context (m : gmap string Resource) (P : Resource → bool).

Lemma elem_of_query_keys k :
  k ∈ (filter (λ p, P p.2) (map_to_list m)).*1 ↔ ∃ r, m !! k = Some r ∧ P r = true.
Proof.
  rewrite list_elem_of_fmap. split.
  - intros ([k' r] & -> & [HP Hin%elem_of_map_to_list]%list_elem_of_filter). exists r.
    split; [done|]. by apply Is_true_true.
  - intros (r & Hk & HP). exists (k, r). split; [done|]. apply list_elem_of_filter.
    split; [by apply Is_true_true|]. by apply elem_of_map_to_list.
Qed.

Lemma NoDup_query_keys : NoDup (filter (λ p, P p.2) (map_to_list m)).*1.
Proof.
  apply NoDup_fmap_fst; [|apply NoDup_filter, NoDup_map_to_list].
  intros k r r' [_ H1%elem_of_map_to_list]%list_elem_of_filter [_ H2%elem_of_map_to_list]%list_elem_of_filter.
  congruence.
Qed.

Context (Hm : self_keyed m).

Lemma omap_stored_keys l : Forall (λ k, is_Some (m !! k)) l → ResourceKey <$> omap (λ k, m !! k) l = l.
Proof.
  induction 1 as [|k l [r Hk] Hl IH]; [done|]. simpl. rewrite Hk. csimpl.
  by rewrite IH, (Hm _ _ Hk).
Qed.

Lemma query_keys : ResourceKey <$> query m P = sort_strings (filter (λ p, P p.2) (map_to_list m)).*1.
Proof.
  unfold query. apply omap_stored_keys, Forall_forall. intros k. rewrite elem_of_sort_strings. intros Hk.
  apply elem_of_query_keys in Hk as (r & ? & _). by eexists.
Qed.

Lemma elem_of_query r : r ∈ query m P ↔ m !! ResourceKey r = Some r ∧ P r = true.
Proof.
  unfold query. rewrite list_elem_of_omap. split.
  - intros (k & Hk & Hr). rewrite elem_of_sort_strings, elem_of_query_keys in Hk.
    destruct Hk as (r' & Hk & HP). rewrite Hk in Hr. simplify_eq. by rewrite (Hm _ _ Hk).
  - intros [Hr HP]. exists (ResourceKey r). split; [|done].
    apply elem_of_sort_strings, elem_of_query_keys. by exists r.
Qed.

Lemma query_unique l :
  StronglySorted String.le (ResourceKey <$> l) → NoDup (ResourceKey <$> l) →
  (∀ r, r ∈ l ↔ m !! ResourceKey r = Some r ∧ P r = true) → l = query m P.
Proof.
  intros Hs Hn Hin.
  assert (Hk : ResourceKey <$> l = ResourceKey <$> query m P).
  { apply (StronglySorted_unique String.le); [done|rewrite query_keys; apply sort_strings_sorted|].
    apply NoDup_Permutation; [done| |].
    - rewrite query_keys, sort_strings_perm. apply NoDup_query_keys.
    - intros k. rewrite !list_elem_of_fmap. setoid_rewrite Hin. by setoid_rewrite elem_of_query. }
  assert (Hst : ∀ r, r ∈ l → m !! ResourceKey r = Some r) by (intros r Hr; by apply Hin).
  assert (Hst' : ∀ r, r ∈ query m P → m !! ResourceKey r = Some r) by (intros r Hr; by apply elem_of_query).
  clear Hs Hn Hin. revert l Hk Hst. generalize dependent (query m P).
  intros q Hq l. revert q Hq. induction l as [|r l IH]; intros [|r' q] Hq Hk Hl; try done.
  csimpl in Hk. injection Hk as Hr Hk. f_equal.
  - pose proof (Hl r ltac:(left)) as H1. pose proof (Hq r' ltac:(left)) as H2. rewrite Hr, H2 in H1. congruence.
  - apply IH; [intros ??; apply Hq; by right|done|intros ??; apply Hl; by right].
Qed.
End query.

(** An entry that does not satisfy [P], before or after, does not count. *)
Definition unseen (P : Resource → bool) (o : option Resource) : Prop := ∀ r, o = Some r → P r = false.

Lemma query_same m m' P : self_keyed m → self_keyed m' →
  (∀ k, m !! k = m' !! k ∨ unseen P (m !! k) ∧ unseen P (m' !! k)) → query m P = query m' P.
Proof.
  intros Hm Hm' Hk. apply query_unique; [done|..].
  - rewrite query_keys by done. apply sort_strings_sorted.
  - rewrite query_keys, sort_strings_perm by done. apply NoDup_query_keys.
  - intros r. rewrite elem_of_query by done.
    destruct (Hk (ResourceKey r)) as [->|[H1 H2]]; [done|].
    split; intros [Hr HP]; [apply H1 in Hr|apply H2 in Hr]; congruence.
Qed.

Lemma query_insert_other m P k r : self_keyed m → ResourceKey r = k →
  unseen P (m !! k) → P r = false → query (<[k := r]> m) P = query m P.
Proof.
  intros Hm Hr Ho HP. apply query_same; [by apply map_Forall_insert_2|done|]. intros j.
  destruct (decide (k = j)) as [<-|]; [|left; by rewrite lookup_insert_ne].
  right. split; [|done]. rewrite lookup_insert_eq. by intros ? [= <-].
Qed.

Lemma query_delete_other m P k : self_keyed m → unseen P (m !! k) → query (delete k m) P = query m P.
Proof.
  intros Hm Ho. apply query_same; [by apply map_Forall_delete|done|]. intros j.
  destruct (decide (k = j)) as [<-|]; [|left; by rewrite lookup_delete_ne].
  right. split; [|done]. rewrite lookup_delete_eq. by intros ? [=].
Qed.

Lemma query_ext m P Q : self_keyed m → (∀ k r, m !! k = Some r → P r = Q r) → query m P = query m Q.
Proof.
  intros Hm HPQ. apply query_unique; [done|..].
  - rewrite query_keys by done. apply sort_strings_sorted.
  - rewrite query_keys, sort_strings_perm by done. apply NoDup_query_keys.
  - intros r. rewrite elem_of_query by done. split; intros [Hr HP]; (split; [done|]);
      by rewrite (HPQ _ _ Hr) in *.
Qed.

Lemma query_length_keys m m' P : self_keyed m → self_keyed m' →
  (∀ k, (∃ r, m !! k = Some r ∧ P r = true) ↔ (∃ r, m' !! k = Some r ∧ P r = true)) →
  length (query m P) = length (query m' P).
Proof.
  intros Hm Hm' Hk. rewrite <-(length_fmap ResourceKey (query m P)), <-(length_fmap ResourceKey (query m' P)).
  rewrite !query_keys by done. rewrite !(Permutation_length (sort_strings_perm _)). apply Permutation_length.
  apply NoDup_Permutation; [apply NoDup_query_keys..|]. intros k. by rewrite !elem_of_query_keys.
Qed.

Lemma query_insert_same m P k r0 r : self_keyed m → m !! k = Some r0 → ResourceKey r = k → P r = P r0 →
  length (query (<[k := r]> m) P) = length (query m P).
Proof.
  intros Hm Hk Hr HP. apply query_length_keys; [by apply map_Forall_insert_2|done|]. intros j.
  destruct (decide (k = j)) as [<-|]; [|by rewrite lookup_insert_ne].
  rewrite lookup_insert_eq, Hk. naive_solver congruence.
Qed.

Lemma query_empty m P : self_keyed m → query m P = [] ↔ ∀ k r, m !! k = Some r → P r = false.
Proof.
  intros Hm. split.
  - intros Hq k r Hk. destruct (P r) eqn:HP; [|done].
    assert (r ∈ query m P) as Hin by (apply elem_of_query; [done|]; by rewrite (Hm _ _ Hk)).
    rewrite Hq in Hin. by apply not_elem_of_nil in Hin.
  - intros Hall. destruct (query m P) as [|r q] eqn:Hq; [done|].
    assert (Hin : r ∈ query m P) by (rewrite Hq; left).
    rewrite elem_of_query in Hin by done. destruct Hin as [Hr HP]. by rewrite (Hall _ _ Hr) in HP.
Qed.

(** At most one key satisfies [P]. *)
Lemma query_singleton m P k r : self_keyed m → m !! k = Some r → P r = true →
  (∀ k' r', m !! k' = Some r' → P r' = true → k' = k) → query m P = [r].
Proof.
  intros Hm Hk HP Huniq. symmetry. apply query_unique; [done|..].
  - simpl. repeat constructor.
  - apply NoDup_singleton.
  - intros r'. rewrite list_elem_of_singleton. split.
    + intros ->. by rewrite (Hm _ _ Hk).
    + intros [Hr' HP']. pose proof (Huniq _ _ Hr' HP') as Hkk. rewrite Hkk in Hr'. congruence.
Qed.

(** The only element of a list. *)
Definition the_only (l : list Resource) : option Resource := match l with [r] => Some r | _ => None end.

Lemma list_of_one (l : list Resource) o : NoDup l → (∀ r, r ∈ l ↔ o = Some r) → l = option_list o.
Proof.
  intros Hn Hin. destruct o as [r|].
  - apply Permutation_singleton_r, NoDup_Permutation; [done|apply NoDup_singleton|]. intros x.
    rewrite Hin, list_elem_of_singleton. naive_solver.
  - destruct l as [|r l]; [done|]. by pose proof (proj1 (Hin r) ltac:(left)).
Qed.

Lemma the_only_spec l o : NoDup l → (∀ r, r ∈ l ↔ o = Some r) → the_only l = o.
Proof. intros Hn Hin. rewrite (list_of_one l o) by done. by destruct o. Qed.

Lemma the_only_elem l r : the_only l = Some r → r ∈ l.
Proof. destruct l as [|x [|y l]]; simpl; try done. intros [= ->]. by left. Qed.

Lemma NoDup_query m P : self_keyed m → NoDup (query m P).
Proof.
  intros Hm. apply (NoDup_fmap_1 ResourceKey). rewrite query_keys, sort_strings_perm by done.
  apply NoDup_query_keys.
Qed.

(** ** The stores *)
Lemma RefStore_matches s n v r : RefStore.matches s (equals n v) r = index_is (RefStore.indexers s) n v r.
Proof.
  unfold RefStore.matches, index_is, index_has. simpl.
  destruct (RefStore.indexers s !! n) as [f|]; [|done]. by destruct (f _).
Qed.

#[local] Existing Instance RefStore.ops.
#[local] Existing Instance RefStore.laws.

#[export] Program Instance RefStore_queries : ResourceStoreQueries RefStore.store.
Next Obligation.
  intros s cs _ _ _. unfold query. simpl. do 4 f_equal. apply list_filter_iff. intros [k r].
  assert (∀ a b : bool, a = b → a ↔ b) as Hab by (by intros ?? ->). apply Hab. cbn [snd]. unfold all_are.
  induction cs as [|[n v] cs IH]; [done|]. csimpl. f_equal; first [apply RefStore_matches|exact IH].
Qed.

Section memory.
Context {I T S : Type} `{Indexer I, !IndexerLaws I, Radix T, !RadixLaws T, LancetSet S, !LancetSetLaws S,
  LancetSort, !LancetSortLaws, MapRange}.

Lemma all_are_holds idx cs r : Forall (λ c, is_Some (idx !! c.1)) cs →
  Forall (λ c, cond_holds idx c r) ((λ c, equals c.1 c.2) <$> cs) ↔ all_are idx cs r = true.
Proof.
  intros Hidx. unfold all_are. rewrite forallb_forall, Forall_fmap, Forall_forall. rewrite Forall_forall in Hidx.
  setoid_rewrite <-list_elem_of_In. split; intros Hall c Hc; specialize (Hall c Hc).
  - destruct Hall as (f & Hf & Hi). unfold index_is. simpl in Hf. by rewrite Hf.
  - unfold index_is in Hall. destruct (Hidx c Hc) as [f Hf]. rewrite Hf in Hall. by exists f.
Qed.

#[export] Program Instance memory_queries : ResourceStoreQueries (resourceStore I T).
Next Obligation.
  intros s cs Hok Hne Hidx. simpl in *.
  destruct (getKeysByIndexes_spec (λ _, True) s ((λ c, equals c.1 c.2) <$> cs)) as (ks & Hks & Hn & Hin); [done|..].
  { left. by apply Forall_fmap, Forall_true. }
  { apply Forall_fmap. eapply Forall_impl; [exact Hidx|]. by intros c Hc. }
  { by destruct cs. }
  destruct (ListByIndexes_keys s ks _ Hok Hks) as (l & -> & Hkl & Hall).
  { apply Forall_forall. intros k (r & ? & _)%Hin. by eexists. }
  f_equal. apply query_unique.
  - intros k r Hk. by apply (mem_items_key s k r Hok) in Hk as [-> _].
  - rewrite Hkl. apply sort_strings_sorted.
  - by rewrite Hkl, sort_strings_perm.
  - intros r. rewrite Forall_forall in Hall.
    assert (Hkin : ResourceKey r ∈ ks ↔ ResourceKey r ∈ ResourceKey <$> l) by by rewrite Hkl, sort_strings_perm.
    rewrite Hin, list_elem_of_fmap in Hkin. split.
    + intros Hr. split; [by apply Hall|]. apply all_are_holds; [done|].
      destruct (proj2 Hkin) as (r' & Hr' & Hc); [by exists r|]. rewrite (Hall _ Hr) in Hr'. by simplify_eq.
    + intros [Hr Hc%all_are_holds]; [|done].
      destruct (proj1 Hkin) as (r' & Hk' & Hr'); [by exists r|].
      pose proof (Hall _ Hr') as Hst. rewrite <-Hk', Hr in Hst. by simplify_eq.
Qed.
End memory.
