(* ===== verification/Subscribers.v ===== *)
(** What the subscribers of pkg/core/discovery and pkg/core/engine share: they
    read and write the stores of the store component, by kind
    (pkg/core/store/component.go), send events to the bus and give up at the
    first error. *)
From S2P Require Import Prelude GoStrings Errors Resource Libs Indexers Store Queries EventBus.

Open Scope string_scope.
Open Scope list_scope.

(** The stores by kind and the calls of the bus's [Send], oldest first. What
    becomes of a sent event is not decided here: [EventBus] models the bus, and
    [Settling] the channel of one subscriber, which drops events when it is
    full. *)
Record world (St : Type) := { w_stores : gmap ResourceKind St; w_sent : list Event }.
Arguments Build_world {St}.
Arguments w_stores {St}.
Arguments w_sent {St}.

(** A handler changes the world and may return an error. *)
Definition M (St A : Type) : Type := world St → world St * result error A.
#[export] Instance M_ret {St} : MRet (M St) := λ A a w, (w, Ok a).
#[export] Instance M_bind {St} : MBind (M St) := λ A B f m w,
  match m w with (w, Ok a) => f a w | (w, Err e) => (w, Err e) end.

Definition fail {St A} (e : error) : M St A := λ w, (w, Err e).
Definition lift {St A} (r : result error A) : M St A := λ w, (w, r).
(** [if err := m; err != nil { log }]. *)
Definition attempt {St A} (m : M St A) : M St bool := λ w, let '(w, r) := m w in (w, Ok (is_ok r)).
(** [for _, x := range l]. *)
Fixpoint each {St A} (f : A → M St unit) (l : list A) : M St unit :=
  match l with [] => mret () | x :: l => _ ← f x; each f l end.

Lemma bind_ok {St A B} (m : M St A) (f : A → M St B) w w' a :
  m w = (w', Ok a) → (m ≫= f) w = f a w'.
Proof. intros Hm. unfold mbind, M_bind. by rewrite Hm. Qed.

(** A nil pointer is dereferenced. *)
Definition nil_pointer : error :=
  ErrorText "runtime error: invalid memory address or nil pointer dereference".

Section operations.
Context {St : Type} `{ResourceStore St}.

Definition ResourceKindRoute (stores : gmap ResourceKind St) (k : ResourceKind) : result error St :=
  match stores !! k with
  | Some store => Ok store
  | None => Err (ErrorText (kind_string k +:+ " is not supported by store yet"))
  end.

Definition reading {A} (k : ResourceKind) (q : St → result error A) : M St A := λ w,
  (w, s ← ResourceKindRoute (w_stores w) k; q s).

Definition writing (k : ResourceKind) (op : St → obj → St * option error) (r : Resource) : M St unit := λ w,
  match ResourceKindRoute (w_stores w) k with
  | Err e => (w, Err e)
  | Ok s =>
      let '(s, err) := op s (ResourceObj r) in
      ({| w_stores := <[k := s]> (w_stores w); w_sent := w_sent w |},
       match err with Some e => Err e | None => Ok () end)
  end.

Definition Send (e : Event) : M St unit := λ w,
  ({| w_stores := w_stores w; w_sent := w_sent w ++ [e] |}, Ok ()).

(** [x, ok := obj.( *T)], where [T] is the resource type of a kind: a nil
    interface passes. *)
Definition expect (k : ResourceKind) (failed : Resource → error) (o : option Resource) : result error (option Resource) :=
  match o with
  | Some r => if decide (res_kind r = k) then Ok o else Err (failed r)
  | None => Ok None
  end.

(** [GetByKey], followed by the assertion to the kind's type. *)
Definition get_typed (k : ResourceKind) (mesh name : string) (failed : error) : M St (option Resource) :=
  found ← reading k (λ s, st_GetByKey s (BuildResourceKey mesh name));
  match found with
  | None => mret None
  | Some (ResourceObj r) => if decide (res_kind r = k) then mret (Some r) else fail failed
  | Some (OtherObj _) => fail failed
  end.

(** [ListByIndexes], followed by the assertion of every item. *)
Definition list_typed (k : ResourceKind) (cs : list IndexCondition) (failed : error) : M St (list Resource) :=
  rs ← reading k (λ s, st_ListByIndexes s cs);
  if forallb (λ r, bool_decide (res_kind r = k)) rs then mret rs else fail failed.
End operations.

(** ** Over sound stores *)
Section sound.
Context {St : Type} `{ResourceStoreQueries St}.

(** Every store is sound and holds its own kind. *)
Definition world_ok (w : world St) : Prop := map_Forall (λ k s, st_ok s ∧ st_kind s = k) (w_stores w).

Definition items (w : world St) (k : ResourceKind) : gmap string Resource :=
  match w_stores w !! k with Some s => st_items s | None => ∅ end.
Definition indexers (w : world St) (k : ResourceKind) : Indexers :=
  match w_stores w !! k with Some s => st_indexers s | None => ∅ end.

(** The store of kind [k] now holds [m]; everything else is as before, but
    for the events [es] sent. *)
Record changed (w w' : world St) (k : ResourceKind) (m : gmap string Resource) (es : list Event) : Prop := {
  ch_ok : world_ok w';
  ch_items : items w' k = m;
  ch_others : ∀ k', k' ≠ k → items w' k' = items w k';
  ch_indexers : ∀ k', indexers w' k' = indexers w k';
  ch_kinds : dom (w_stores w') = dom (w_stores w);
  ch_sent : w_sent w' = w_sent w ++ es }.

Lemma world_store (w : world St) k : world_ok w → k ∈ dom (w_stores w) →
  ∃ s, w_stores w !! k = Some s ∧ st_ok s ∧ st_kind s = k ∧ st_items s = items w k ∧
    st_indexers s = indexers w k.
Proof.
  intros Hw [s Hs]%elem_of_dom. exists s. unfold items, indexers. rewrite Hs.
  destruct (Hw _ _ Hs). by split_and!.
Qed.

Lemma items_key (w : world St) k key r : world_ok w → items w k !! key = Some r →
  ResourceKey r = key ∧ res_kind r = k.
Proof.
  intros Hw. unfold items. destruct (w_stores w !! k) as [s|] eqn:Hs; [|by rewrite lookup_empty].
  destruct (Hw _ _ Hs) as [Hok <-]. intros Hr. by apply (st_items_key s).
Qed.

Lemma items_self_keyed (w : world St) k : world_ok w → self_keyed (items w k).
Proof. intros Hw key r Hr. by apply (items_key w k). Qed.

Lemma changed_refl (w : world St) k : world_ok w → changed w w k (items w k) [].
Proof. intros Hw. split; try done. by rewrite app_nil_r. Qed.

Lemma changed_trans (w1 w2 w3 : world St) k m m' es es' :
  changed w1 w2 k m es → changed w2 w3 k m' es' → changed w1 w3 k m' (es ++ es').
Proof.
  intros [_ _ Ho Hx Hd Hs] [Hw Hi Ho' Hx' Hd' Hs']. split; [done|done|..].
  - intros k' Hk'. by rewrite Ho', Ho.
  - intros k'. by rewrite Hx', Hx.
  - by rewrite Hd', Hd.
  - by rewrite Hs', Hs, (assoc_L (++)).
Qed.

Lemma changed_send (w w' : world St) k m es e : changed w w' k m es →
  changed w {| w_stores := w_stores w'; w_sent := w_sent w' ++ [e] |} k m (es ++ [e]).
Proof. intros [????? Hs]. split; try done. simpl. by rewrite Hs, (assoc_L (++)). Qed.

Lemma reading_GetByKey (w : world St) k key : world_ok w → k ∈ dom (w_stores w) →
  reading k (λ s, st_GetByKey s key) w = (w, Ok (ResourceObj <$> items w k !! key)).
Proof.
  intros Hw (s & Hs & Hok & _ & Hi & _)%(world_store w); [|done].
  unfold reading, ResourceKindRoute. rewrite Hs. simpl. by rewrite st_GetByKey_spec, Hi.
Qed.

Lemma get_typed_ok (w : world St) k mesh name e : world_ok w → k ∈ dom (w_stores w) →
  get_typed k mesh name e w = (w, Ok (items w k !! BuildResourceKey mesh name)).
Proof.
  intros Hw Hd. unfold get_typed, mbind, M_bind. rewrite reading_GetByKey by done.
  destruct (items w k !! _) as [r|] eqn:Hr; [|done]. cbn [fmap option_fmap option_map].
  apply (items_key w k) in Hr as [_ ?]; [|done]. by rewrite decide_True.
Qed.

Lemma list_typed_ok (w : world St) k cs e : world_ok w → k ∈ dom (w_stores w) → cs ≠ [] →
  Forall (λ c, is_Some (indexers w k !! c.1)) cs →
  list_typed k ((λ c, equals c.1 c.2) <$> cs) e w = (w, Ok (query (items w k) (all_are (indexers w k) cs))).
Proof.
  intros Hw Hd Hne Hidx. destruct (world_store w k Hw Hd) as (s & Hs & Hok & _ & Hi & Hx).
  unfold list_typed, mbind, M_bind, reading, ResourceKindRoute. rewrite Hs. cbn [mbind result_bind].
  rewrite <-Hx in Hidx. rewrite st_ListByIndexes_spec, Hi, Hx by done.
  replace (forallb _ _) with true; [done|]. symmetry. apply forallb_forall.
  intros r Hr%list_elem_of_In%elem_of_query; [|by apply items_self_keyed].
  destruct Hr as [Hr _]. apply bool_decide_eq_true. by apply (items_key w k) in Hr as [_ ?].
Qed.

(** A successful write. *)
Lemma store_changed (w : world St) k (s s' : St) m : world_ok w → w_stores w !! k = Some s →
  st_ok s' → st_kind s' = st_kind s → st_indexers s' = st_indexers s → st_items s' = m →
  changed w {| w_stores := <[k := s']> (w_stores w); w_sent := w_sent w |} k m [].
Proof.
  intros Hw Hs Hok Hk Hx Hi. unfold items, indexers. split; simpl.
  - apply map_Forall_insert_2; [|done]. split; [done|]. rewrite Hk. by apply (Hw _ _ Hs).
  - unfold items. simpl. by rewrite lookup_insert_eq.
  - intros k' Hne. unfold items. simpl. by rewrite lookup_insert_ne.
  - intros k'. unfold indexers. simpl. destruct (decide (k = k')) as [<-|Hne].
    + by rewrite lookup_insert_eq, Hs.
    + by rewrite lookup_insert_ne.
  - rewrite dom_insert_L. apply elem_of_dom_2 in Hs. set_solver.
  - by rewrite app_nil_r.
Qed.

Lemma writing_Add (w : world St) r : world_ok w → res_kind r ∈ dom (w_stores w) →
  items w (res_kind r) !! ResourceKey r = None →
  ∃ w', writing (res_kind r) st_Add r w = (w', Ok ()) ∧
    changed w w' (res_kind r) (<[ResourceKey r := r]> (items w (res_kind r))) [].
Proof.
  intros Hw Hd Hn. destruct (world_store w _ Hw Hd) as (s & Hs & Hok & Hk & Hi & _).
  destruct (st_Add_fresh s r) as (s' & Ha & ? & ? & ? & ?); [done|done|by rewrite Hi|].
  unfold writing, ResourceKindRoute. rewrite Hs, Ha. eexists. split; [done|].
  eapply store_changed; try done. by rewrite <-Hi.
Qed.

(** An [Add] that may find its key taken. *)
Lemma writing_Add_sound (w : world St) r : world_ok w → res_kind r ∈ dom (w_stores w) →
  ∃ w' res m, writing (res_kind r) st_Add r w = (w', res) ∧ changed w w' (res_kind r) m [].
Proof.
  intros Hw Hd. destruct (world_store w _ Hw Hd) as (s & Hs & Hok & Hk & Hi & _).
  destruct (st_Add_sound s r) as (s' & err & Ha & ? & ? & ?); [done|done|].
  unfold writing, ResourceKindRoute. rewrite Hs, Ha. eexists _, _, _. split; [done|]. by eapply store_changed.
Qed.

Lemma writing_Update (w : world St) r : world_ok w → res_kind r ∈ dom (w_stores w) →
  is_Some (items w (res_kind r) !! ResourceKey r) →
  ∃ w', writing (res_kind r) st_Update r w = (w', Ok ()) ∧
    changed w w' (res_kind r) (<[ResourceKey r := r]> (items w (res_kind r))) [].
Proof.
  intros Hw Hd Hn. destruct (world_store w _ Hw Hd) as (s & Hs & Hok & Hk & Hi & _).
  destruct (st_Update_present s r) as (s' & Ha & ? & ? & ? & ?); [done|done|by rewrite Hi|].
  unfold writing, ResourceKindRoute. rewrite Hs, Ha. eexists. split; [done|].
  eapply store_changed; try done. by rewrite <-Hi.
Qed.

Lemma writing_Delete (w : world St) k r : world_ok w → k ∈ dom (w_stores w) →
  is_Some (items w k !! ResourceKey r) →
  ∃ w', writing k st_Delete r w = (w', Ok ()) ∧
    changed w w' k (delete (ResourceKey r) (items w k)) [].
Proof.
  intros Hw Hd Hn. destruct (world_store w _ Hw Hd) as (s & Hs & Hok & Hk & Hi & _).
  destruct (st_Delete_present s r) as (s' & Ha & ? & ? & ? & ?); [done|by rewrite Hi|].
  unfold writing, ResourceKindRoute. rewrite Hs, Ha. eexists. split; [done|].
  eapply store_changed; try done. by rewrite <-Hi.
Qed.
End sound.
