(* ===== verification/RegistryEvents.v ===== *)
(** Lifecycle events the registry subscribers record for the console:
    pkg/core/discovery/subscriber/registry_event_adapter.go. *)
From S2P Require Import Prelude GoStrings Errors Resource Libs Indexers Store Queries EventBus Subscribers.
From Stdlib Require Import Ascii.

Open Scope string_scope.
Open Scope list_scope.

Record RegistryEventInput := {
  ri_Mesh : string; ri_Source : string; ri_SourceType : string; ri_Category : string; ri_Action : string;
  ri_Message : string; ri_Type : string; ri_AppName : string; ri_InstanceName : string;
  ri_InstanceIP : string; ri_ServiceName : string }.

(** [registryEventNameSanitizer]: every run of characters outside
    [a-zA-Z0-9._-] becomes one dash; [inside] a run the dash is written. *)
Definition name_char (c : ascii) : bool :=
  is_upper c || is_lower c || bool_decide (48 ≤ Z.of_nat (nat_of_ascii c) ≤ 57)%Z ||
  bool_decide (c ∈ ["."; "_"; "-"]%char).
Fixpoint sanitize (inside : bool) (s : string) : string :=
  match s with
  | EmptyString => ""
  | String c s =>
      if name_char c then String c (sanitize false s)
      else if inside then sanitize true s else String "-" (sanitize true s)
  end.

(** [strings.Trim(s, "-")]. *)
Fixpoint trim_left_dashes (s : string) : string :=
  match s with String c s' => if decide (c = "-"%char) then trim_left_dashes s' else s | EmptyString => "" end.
Definition trim_dashes (s : string) : string :=
  String.rev (trim_left_dashes (String.rev (trim_left_dashes s))).

Definition event_name (now : Z) (input : RegistryEventInput) : string :=
  let nameSeed := str_join "-" [ri_SourceType input; ri_Category input; ri_Action input; ri_AppName input;
                                ri_ServiceName input; ri_InstanceName input; ri_InstanceIP input] in
  let sanitized := trim_dashes (sanitize false nameSeed) in
  let sanitized := if decide (sanitized = "") then "event" else sanitized in
  pretty now +:+ "-" +:+ sanitized.

Definition involvedObjName (input : RegistryEventInput) : string :=
  if decide (ri_InstanceIP input ≠ "") then ri_AppName input +:+ "/" +:+ ri_InstanceIP input
  else if decide (ri_ServiceName input ≠ "") then ri_AppName input +:+ "/" +:+ ri_ServiceName input
  else ri_AppName input.

Section record.
Context {St : Type} `{ResourceStore St}.
(** [time.Now()] in nanoseconds, by the number of the call; and its text. *)
Context (now : nat → Z) (Format : Z → string).

Definition lifecycle_event (t : Z) (input : RegistryEventInput) : Resource :=
  {| res_meta := {| meta_Name := event_name t input; meta_Labels := Some ∅; meta_Annotations := None |};
     res_Mesh := ri_Mesh input;
     res_spec := LifecycleEventSpec (Some {|
       le_Namespace := ""; le_Reason := ri_Action input; le_Message := ri_Message input;
       le_Type := if decide (str_lower (ri_Type input) = "warning") then "warning" else "normal";
       le_InvolvedObjKind := ri_Category input; le_InvolvedObjName := involvedObjName input;
       le_SourceComponent := ri_SourceType input; le_SourceHost := ri_InstanceIP input;
       le_FirstTimestamp := Format t; le_LastTimestamp := Format t; le_Count := 0%Z;
       le_EventSource := "REGISTRY" |}) |}.

(** Failures are logged. *)
Definition RecordRegistryEvent (t : Z) (input : RegistryEventInput) : M St unit :=
  if decide (ri_Mesh input = "" ∨ ri_Message input = "") then mret ()
  else _ ← attempt (writing LifecycleEventKind st_Add (lifecycle_event t input)); mret ().

(** One event per input, at the times of the clock from call [i] on. *)
Fixpoint record_events (i : nat) (inputs : list RegistryEventInput) : M St unit :=
  match inputs with
  | [] => mret ()
  | input :: inputs => _ ← RecordRegistryEvent (now i) input; record_events (S i) inputs
  end.
End record.

(** Recording changes the store of events and nothing else. *)
Section recorded.
Context {St : Type} `{ResourceStoreQueries St} (now : nat → Z) (Format : Z → string).

Definition only_events (w w' : world St) : Prop := ∃ m, changed w w' LifecycleEventKind m [].

Lemma only_events_refl (w : world St) : world_ok w → only_events w w.
Proof. intros Hw. exists (items w LifecycleEventKind). by apply changed_refl. Qed.

Lemma only_events_trans (w1 w2 w3 : world St) : only_events w1 w2 → only_events w2 w3 → only_events w1 w3.
Proof.
  intros [m1 H1'] [m2 H2']. exists m2. exact (changed_trans _ _ _ _ _ _ _ _ H1' H2').
Qed.

Lemma RecordRegistryEvent_ok (w : world St) t input : world_ok w → LifecycleEventKind ∈ dom (w_stores w) →
  ∃ w', RecordRegistryEvent Format t input w = (w', Ok ()) ∧ only_events w w'.
Proof.
  intros Hw Hd. unfold RecordRegistryEvent. destruct (decide _); [exists w; by split; [|apply only_events_refl]|].
  destruct (writing_Add_sound w (lifecycle_event Format t input) Hw Hd) as (w' & r & m & Hw' & Hc).
  change (res_kind _) with LifecycleEventKind in Hw', Hc. exists w'. split; [|by exists m].
  unfold mbind, M_bind, attempt. by rewrite Hw'.
Qed.

Lemma record_events_ok (w : world St) i inputs : world_ok w → LifecycleEventKind ∈ dom (w_stores w) →
  ∃ w', record_events now Format i inputs w = (w', Ok ()) ∧ only_events w w'.
Proof.
  revert w i. induction inputs as [|input inputs IH]; intros w i Hw Hd; [exists w; by split; [|apply only_events_refl]|].
  destruct (RecordRegistryEvent_ok w (now i) input Hw Hd) as (w1 & Hw1 & Ho1). pose proof Ho1 as [m Hc].
  destruct (IH w1 (S i)) as (w2 & Hw2 & Ho2); [apply (ch_ok _ _ _ _ _ Hc)|by rewrite (ch_kinds _ _ _ _ _ Hc)|].
  exists w2. split; [|by eapply only_events_trans]. simpl. by erewrite bind_ok by exact Hw1.
Qed.
End recorded.
