(* ===== verification/Settling.v ===== *)
(** A derived store that is brought up to date by announcements: whoever
    changes the store it is derived from sends an event, the bus puts the
    event into the channel of the subscriber or drops it when the channel is
    full (pkg/core/events/component.go), and the subscriber's goroutine takes
    the events one at a time, reads the source and recomputes what the event
    announces, while the source goes on changing. This file says when that
    settles, for any such subscriber. *)
From S2P Require Import Prelude Errors Resource Libs Indexers Store Queries EventBus Subscribers.

Open Scope list_scope.
Open Scope nat_scope.

(** The object an event is about, as the bus and the subscriber see it. *)
Definition event_object (e : Event) : option Resource :=
  match ev_newObj e with Some r => Some r | None => ev_oldObj e end.

(** The bus hands an event to the subscribers of the kind of its object. *)
Definition is_about (k : ResourceKind) (e : Event) : bool :=
  match event_object e with Some r => bool_decide (res_kind r = k) | None => false end.

(** Where the subscriber's goroutine is: idle, with an event it has taken from
    the channel, or past the read of its source, with what it found there. *)
Inductive drainer (St : Type) :=
| Idle
| Took (e : Event)
| HasRead (e : Event) (seen : option St).
Arguments Idle {St}.
Arguments Took {St}.
Arguments HasRead {St}.

(** What happened to the events: dropped on a full channel, or the source read
    for them. *)
Inductive happening := Dropped (e : Event) | SourceRead (e : Event).

(** The world, the channel of one asynchronous subscriber, its goroutine, and
    a record of what happened, oldest first. *)
Record queued (St : Type) := {
  qu_world : world St;
  qu_channel : list Event;
  qu_drainer : drainer St;
  qu_log : list happening }.
Arguments Build_queued {St}.
Arguments qu_world {St}.
Arguments qu_channel {St}.
Arguments qu_drainer {St}.
Arguments qu_log {St}.

(** The world with another store of kind [k]. *)
Definition with_source {St} (k : ResourceKind) (w : world St) (s : option St) : world St :=
  {| w_stores := partial_alter (λ _, s) k (w_stores w); w_sent := w_sent w |}.

Section channel.
Context {St : Type}.
(** The subscriber, the kind it subscribes to and reads, and the size of its
    channel. *)
Context (process : Event → M St unit) (k : ResourceKind) (cap : nat).
Implicit Types q : queued St.

(** [Send] as the subscriber sees it: [select { case st.ch <- event: default: }]. *)
Definition offer q (e : Event) : queued St :=
  if is_about k e then
    if length (qu_channel q) <? cap then
      {| qu_world := qu_world q; qu_channel := qu_channel q ++ [e];
         qu_drainer := qu_drainer q; qu_log := qu_log q |}
    else
      {| qu_world := qu_world q; qu_channel := qu_channel q;
         qu_drainer := qu_drainer q; qu_log := qu_log q ++ [Dropped e] |}
  else q.

(** The events sent between two worlds. *)
Definition sent_since (w w' : world St) : list Event := drop (length (w_sent w)) (w_sent w').

(** The world moves on and the bus gets the events sent meanwhile. *)
Definition moved q (w' : world St) : queued St :=
  foldl offer
    {| qu_world := w'; qu_channel := qu_channel q; qu_drainer := qu_drainer q; qu_log := qu_log q |}
    (sent_since (qu_world q) w').

(** Someone else's handler. *)
Definition act {A} (m : M St A) q : queued St := moved q (m (qu_world q)).1.

(** [for event := range st.ch]. *)
Definition take_event q : queued St :=
  match qu_drainer q, qu_channel q with
  | Idle, e :: es =>
      {| qu_world := qu_world q; qu_channel := es; qu_drainer := Took e; qu_log := qu_log q |}
  | _, _ => q
  end.

Definition read_source q : queued St :=
  match qu_drainer q with
  | Took e =>
      {| qu_world := qu_world q; qu_channel := qu_channel q;
         qu_drainer := HasRead e (w_stores (qu_world q) !! k); qu_log := qu_log q ++ [SourceRead e] |}
  | _ => q
  end.

(** The rest of the handler: it has the source as it was when it was read, and
    leaves it as it is now. *)
Definition finish_event q : queued St :=
  match qu_drainer q with
  | HasRead e seen =>
      let w := qu_world q in
      let w' := (process e (with_source k w seen)).1 in
      moved {| qu_world := w; qu_channel := qu_channel q; qu_drainer := Idle; qu_log := qu_log q |}
        (with_source k w' (w_stores w !! k))
  | _ => q
  end.

Inductive drains_on : queued St → queued St → Prop :=
| drains_take q : drains_on q (take_event q)
| drains_read q : drains_on q (read_source q)
| drains_finish q : drains_on q (finish_event q).

(** The goroutine alone: the event it is at, or the next one, from beginning to
    end. *)
Definition drainer_turn q : queued St := finish_event (read_source (take_event q)).
Fixpoint drainer_turns (n : nat) q : queued St :=
  match n with O => q | S n => drainer_turns n (drainer_turn q) end.

Definition at_hand q : list Event :=
  match qu_drainer q with Idle => [] | Took e | HasRead e _ => [e] end.
Definition unhandled q : list Event := at_hand q ++ qu_channel q.

(** The beginning of a process. *)
Definition opened (w : world St) : queued St :=
  {| qu_world := w; qu_channel := []; qu_drainer := Idle; qu_log := [] |}.
End channel.

Section settling.
Context {St X A B : Type}.
Context (process : Event → M St unit) (k : ResourceKind) (cap : nat).
Implicit Types q : queued St.

(** For the [x] that are [valid], [src w x] is what is derived from, [tgt w x]
    what is stored, and [ok] says that they fit; [announces e x] : the event
    says that [src] has changed for [x]. *)
Context (base : world St → Prop) (sound : Event → Prop) (announces : Event → X → Prop)
  (valid : X → Prop) (src : world St → X → A) (tgt : world St → X → B) (ok : X → A → B → Prop).

Definition up_to_date (w : world St) (x : X) : Prop := ok x (src w x) (tgt w x).

(** An event about [x] waits in the channel or is being handled. *)
Definition waiting q (x : X) : Prop := ∃ e, e ∈ unhandled q ∧ announces e x.

(** An event about [x] was dropped, and the source has not been read for
    another one about [x] since. *)
Definition missed q (x : X) : Prop :=
  ∃ l1 e l2, qu_log q = l1 ++ Dropped e :: l2 ∧ announces e x ∧
    ∀ e', SourceRead e' ∈ l2 → ¬ announces e' x.

(** Processing an event puts right what it announces, leaves the rest and the
    source alone, and what it sends is for other subscribers. *)
Record subscriber_ok : Prop := {
  sb_kind e x : announces e x → is_about k e = true;
  sb_decide e x : announces e x ∨ ¬ announces e x;
  sb_base w o : base w → base o → base (with_source k w (w_stores o !! k));
  sb_src w o x : src (with_source k w (w_stores o !! k)) x = src o x;
  sb_tgt w s x : tgt (with_source k w s) x = tgt w x;
  sb_process w e : base w → sound e → is_about k e = true →
    base (process e w).1 ∧
    (∃ new, w_sent (process e w).1 = w_sent w ++ new ∧ Forall (λ e, is_about k e = false) new) ∧
    (∀ x, src (process e w).1 x = src w x) ∧
    (∀ x, valid x → announces e x → up_to_date (process e w).1 x) ∧
    (∀ x, valid x → ¬ announces e x → tgt (process e w).1 x = tgt w x) }.

(** Whoever changes the source announces it, and leaves the derived store
    alone; [es] are the events sent. *)
Record reported (w w' : world St) (es : list Event) : Prop := {
  rp_base : base w';
  rp_sent : w_sent w' = w_sent w ++ es;
  rp_sound : Forall sound es;
  rp_tgt x : valid x → tgt w' x = tgt w x;
  rp_src x : valid x → src w' x = src w x ∨ ∃ e, e ∈ es ∧ announces e x }.

(** An event about [x] that will still be read for, or was missed. *)
Definition coming q (x : X) : Prop :=
  (∃ e, (e ∈ qu_channel q ∨ qu_drainer q = Took e) ∧ announces e x) ∨ missed q x.

Definition fits (e : Event) : Prop := is_about k e = true ∧ sound e.

Record consistent q : Prop := {
  cn_base : base (qu_world q);
  cn_sound : Forall fits (unhandled q);
  cn_read e seen : qu_drainer q = HasRead e seen →
    ∃ o, base o ∧ seen = w_stores o !! k ∧
      ∀ x, valid x → announces e x → src o x = src (qu_world q) x ∨ coming q x;
  cn_right x : valid x → up_to_date (qu_world q) x ∨
    (∃ e seen, qu_drainer q = HasRead e seen ∧ announces e x) ∨ coming q x }.

Lemma consistent_opened w : base w → (∀ x, valid x → up_to_date w x) → consistent (opened w).
Proof. split; [done|by constructor|done|]. left. auto. Qed.

(** ** Sending *)
Lemma offer_drainer q e : qu_drainer (offer k cap q e) = qu_drainer q ∧ qu_world (offer k cap q e) = qu_world q.
Proof. unfold offer. destruct (is_about k e); [by destruct (length (qu_channel q) <? cap)|done]. Qed.

Lemma missed_more q q' l x : qu_log q' = qu_log q ++ l →
  (∀ e, SourceRead e ∈ l → ¬ announces e x) → missed q x → missed q' x.
Proof.
  intros Hl Hn (l1 & e & l2 & Hq & Ha & Hs). exists l1, e, (l2 ++ l). split; [|split; [done|]].
  - by rewrite Hl, Hq, <-(assoc_L (++)).
  - intros e' [?|?]%elem_of_app; auto.
Qed.

Lemma offer_coming q e x : coming q x → coming (offer k cap q e) x.
Proof.
  intros [(e' & Hin & Ha)|Hm]; unfold offer; destruct (is_about k e); try (destruct (_ <? _)).
  - left. exists e'. set_solver.
  - left. by exists e'.
  - left. by exists e'.
  - right. by eapply missed_more; [symmetry; apply app_nil_r| |]; [set_solver|].
  - right. eapply missed_more; [done| |done]. by intros ? [=]%list_elem_of_singleton.
  - by right.
Qed.

Lemma offer_announced q e x : is_about k e = true → announces e x → coming (offer k cap q e) x.
Proof.
  intros Hk Ha. unfold offer. rewrite Hk. destruct (_ <? _).
  - left. exists e. set_solver.
  - right. exists (qu_log q), e, []. split; [done|]. split; [done|]. by intros ? ?%elem_of_nil.
Qed.

Lemma offers_coming es q x : (coming q x ∨ ∃ e, e ∈ es ∧ is_about k e = true ∧ announces e x) →
  coming (foldl (offer k cap) q es) x.
Proof.
  revert q. induction es as [|e es IH]; intros q; cbn [foldl].
  - intros [?|(e & ?%elem_of_nil & _)]; done.
  - intros H. apply IH. destruct H as [?|(e' & [->|?]%elem_of_cons & ? & ?)];
      [left; by apply offer_coming|left; by apply offer_announced|right; by exists e'].
Qed.

Lemma offers_kept es q :
  qu_drainer (foldl (offer k cap) q es) = qu_drainer q ∧ qu_world (foldl (offer k cap) q es) = qu_world q.
Proof.
  revert q. induction es as [|e es IH]; intros q; [done|]. cbn [foldl].
  destruct (IH (offer k cap q e)) as [-> ->]. apply offer_drainer.
Qed.

Lemma offers_sound es q : Forall sound es → Forall fits (qu_channel q) →
  Forall fits (qu_channel (foldl (offer k cap) q es)).
Proof.
  revert q. induction es as [|e es IH]; intros q Hes Hq; [done|]. apply Forall_cons in Hes as [He Hes].
  cbn [foldl]. apply IH; [done|]. unfold offer. destruct (is_about k e) eqn:Hk; [|done].
  destruct (_ <? _); [|done]. apply Forall_app. split; [done|]. by apply Forall_singleton.
Qed.

Lemma offers_others es q : Forall (λ e, is_about k e = false) es → foldl (offer k cap) q es = q.
Proof. revert q. induction 1 as [|e es He _ IH]; [done|]. cbn [foldl]. unfold offer at 2. by rewrite He. Qed.

Lemma sent_since_app (w w' : world St) es : w_sent w' = w_sent w ++ es → sent_since w w' = es.
Proof. intros Hs. unfold sent_since. by rewrite Hs, drop_app_length. Qed.

Context (Hsub : subscriber_ok).

(** ** Reports *)
Lemma consistent_act {C} (m : M St C) q es :
  consistent q → reported (qu_world q) (m (qu_world q)).1 es → consistent (act k cap m q).
Proof.
  intros [Hb Hs Hr Hx] [Hb' Hsent Hes Ht Hsrc]. unfold act, moved. rewrite (sent_since_app _ _ _ Hsent).
  set (w' := (m (qu_world q)).1) in *.
  set (q1 := {| qu_world := w' |}). destruct (offers_kept es q1) as [Ed Ew].
  assert (Hold : ∀ x, coming q x → coming (foldl (offer k cap) q1 es) x) by (intros x Hc; apply offers_coming; by left).
  assert (Hnew : ∀ x, valid x → src w' x = src (qu_world q) x ∨ coming (foldl (offer k cap) q1 es) x).
  { intros x Hv. destruct (Hsrc x Hv) as [?|(e & He & Ha)]; [by left|]. right. apply offers_coming. right.
    exists e. split_and!; [done|by eapply (sb_kind Hsub)|done]. }
  split; rewrite ?Ew, ?Ed; cbn [qu_world qu_drainer q1]; [done|..].
  - unfold unhandled, at_hand in *. rewrite Ed. cbn [qu_drainer q1]. apply Forall_app in Hs as [? ?].
    apply Forall_app. split; [done|]. by apply offers_sound.
  - intros e seen He. destruct (Hr e seen He) as (o & Ho & Hseen & Hall). exists o. split_and!; [done..|].
    intros x Hv Ha. destruct (Hnew x Hv) as [->|?]; [|by right]. destruct (Hall x Hv Ha); auto.
  - intros x Hv. unfold up_to_date in *. rewrite (Ht x Hv). destruct (Hnew x Hv) as [->|?]; [|by right; right].
    destruct (Hx x Hv) as [?|[?|?]]; auto.
Qed.

(** ** The goroutine *)
Lemma take_consistent q : consistent q → consistent (take_event q).
Proof.
  intros Hc. pose proof Hc as [Hb Hs Hr Hx]. unfold take_event.
  destruct (qu_drainer q) eqn:Ed; try done. destruct (qu_channel q) as [|e es] eqn:Ec; [done|]. split; simpl.
  - done.
  - unfold unhandled, at_hand in *. by rewrite Ed, Ec in Hs.
  - done.
  - intros x Hv. destruct (Hx x Hv) as [?|[(? & ? & ? & _)|[(e' & Hin & Ha)|Hm]]]; [by left|congruence|..].
    + right; right; left. exists e'. split; [|done]. simpl. rewrite Ec, Ed in Hin.
      destruct Hin as [[->|?]%elem_of_cons|?]; naive_solver.
    + right; right; right. exact Hm.
Qed.

Lemma read_consistent q : consistent q → consistent (read_source k q).
Proof.
  intros Hc. pose proof Hc as [Hb Hs Hr Hx]. unfold read_source.
  destruct (qu_drainer q) as [|e|] eqn:Ed; try done. split; simpl.
  - done.
  - unfold unhandled, at_hand in *. by rewrite Ed in Hs.
  - intros e' seen [= <- <-]. exists (qu_world q). by split_and!; [..|left].
  - intros x Hv. destruct (sb_decide Hsub e x) as [Ha|Hn]; [right; left; eauto|].
    destruct (Hx x Hv) as [?|[(? & ? & ? & _)|[(e' & Hin & Ha)|Hm]]]; [by left|congruence|..].
    + right; right; left. exists e'. split; [|done]. rewrite Ed in Hin. destruct Hin as [?|[= ->]]; [by left|done].
    + right; right; right. eapply missed_more; [done| |exact Hm]. by intros ? [= ->]%list_elem_of_singleton.
Qed.

Lemma finish_event_ok q e seen : consistent q → qu_drainer q = HasRead e seen →
  consistent (finish_event process k cap q) ∧ qu_channel (finish_event process k cap q) = qu_channel q ∧
  qu_drainer (finish_event process k cap q) = Idle.
Proof.
  intros [Hb Hs Hr Hx] Ed. unfold finish_event. rewrite Ed.
  destruct (Hr e seen Ed) as (o & Ho & -> & Hall). cbv zeta.
  assert (He : fits e ∧ Forall fits (qu_channel q)).
  { unfold unhandled, at_hand in Hs. rewrite Ed in Hs. by apply Forall_cons in Hs. }
  destruct He as [[Hk He] Hch]. set (w := qu_world q) in *. set (m := with_source k w (w_stores o !! k)).
  destruct (sb_process Hsub m e (sb_base Hsub w o Hb Ho) He Hk) as (Hb' & (new & Hsent & Hnew) & Hsrc & Hann & Hrest).
  set (w' := (process e m).1) in *. unfold moved. cbn [qu_world].
  rewrite (sent_since_app w (with_source k w' (w_stores w !! k)) new) by exact Hsent. rewrite offers_others by done.
  split; [|done]. split; cbn [qu_world qu_drainer]; [by apply (sb_base Hsub)|done|done|].
  intros x Hv. unfold up_to_date in *. rewrite (sb_src Hsub), (sb_tgt Hsub). fold w.
  destruct (sb_decide Hsub e x) as [Ha|Hn].
  - destruct (Hall x Hv Ha) as [Heq|[(e' & [?|?] & ?)|?]]; [left|right; right; left; eauto|congruence|by right; right; right].
    rewrite <-Heq, <-(sb_src Hsub w o x). fold m. rewrite <-Hsrc. by apply Hann.
  - rewrite Hrest by done. unfold m. rewrite (sb_tgt Hsub).
    destruct (Hx x Hv) as [?|[(? & ? & ? & ?)|[(e' & [?|?] & ?)|?]]];
      [by left|congruence|right; right; left; eauto|congruence|by right; right; right].
Qed.

Lemma finish_consistent q : consistent q → consistent (finish_event process k cap q).
Proof.
  intros Hc. destruct (qu_drainer q) as [|e|e seen] eqn:Ed; [unfold finish_event; by rewrite Ed..|].
  by eapply finish_event_ok.
Qed.

Lemma drains_consistent q q' : drains_on process k cap q q' → consistent q → consistent q'.
Proof. intros []; [apply take_consistent|apply read_consistent|apply finish_consistent]. Qed.

(** One event less. *)
Lemma turn_ok q : consistent q →
  consistent (drainer_turn process k cap q) ∧ unhandled (drainer_turn process k cap q) = tail (unhandled q).
Proof.
  intros Hc. assert (Hc' : consistent (read_source k (take_event q))) by by apply read_consistent, take_consistent.
  split; [by apply finish_consistent|]. unfold drainer_turn. revert Hc'. unfold take_event, read_source, unhandled, at_hand.
  destruct (qu_drainer q) as [|e|e seen] eqn:Ed.
  - destruct (qu_channel q) as [|e es] eqn:Ec; simpl; rewrite ?Ed; intros Hc'.
    + unfold finish_event. by rewrite Ed, Ed, Ec.
    + destruct (finish_event_ok _ _ _ Hc' eq_refl) as (_ & -> & ->). done.
  - rewrite Ed. intros Hc'. destruct (finish_event_ok _ _ _ Hc' eq_refl) as (_ & -> & ->). done.
  - rewrite Ed. intros Hc'. destruct (finish_event_ok _ _ _ Hc' Ed) as (_ & -> & ->). done.
Qed.

(** The goroutine alone comes to an end, with everything right but for what
    was missed. *)
Lemma settles q : consistent q →
  let q' := drainer_turns process k cap (length (unhandled q)) q in
  unhandled q' = [] ∧ ∀ x, valid x → up_to_date (qu_world q') x ∨ missed q' x.
Proof.
  remember (length (unhandled q)) as n eqn:Hn. revert q Hn.
  induction n as [|n IH]; intros q Hn Hc; cbn [drainer_turns].
  - symmetry in Hn. apply nil_length_inv in Hn. split; [done|]. unfold unhandled, at_hand in Hn.
    apply app_eq_nil in Hn as [Hh Hch]. intros x Hv.
    destruct (cn_right _ Hc x Hv) as [?|[(e & seen & Ed & _)|[(e & [He|He] & _)|?]]]; [by left|..|by right].
    + by rewrite Ed in Hh.
    + rewrite Hch in He. by apply elem_of_nil in He.
    + by rewrite He in Hh.
  - destruct (turn_ok q Hc) as [Hc' Hu]. apply IH; [|done]. rewrite Hu. destruct (unhandled q); simpl in *; lia.
Qed.

(** In every state, what is not right is announced or was missed. *)
Lemma consistent_right q x : consistent q → valid x →
  up_to_date (qu_world q) x ∨ waiting q x ∨ missed q x.
Proof.
  intros Hc Hv. destruct (cn_right _ Hc x Hv) as [?|[(e & seen & Ed & ?)|[(e & Hin & ?)|?]]]; [by left|..|by right; right];
    right; left; exists e; (split; [|done]); unfold unhandled, at_hand.
  - rewrite Ed. by left.
  - rewrite elem_of_app. destruct Hin as [?|Ed]; [by right|left]. rewrite Ed. by left.
Qed.
End settling.

(** ** The world a handler sees *)
Section seen.
Context {St : Type} `{ResourceStoreQueries St} (k : ResourceKind).
Implicit Types w o : world St.

Abbreviation seen w o := (with_source k w (w_stores o !! k)).

Lemma seen_lookup w o k' : w_stores (seen w o) !! k' = w_stores (if decide (k = k') then o else w) !! k'.
Proof.
  unfold with_source. simpl. case_decide as Hd; [subst; by rewrite lookup_partial_alter_eq|].
  by rewrite lookup_partial_alter_ne.
Qed.

Lemma seen_items w o k' : items (seen w o) k' = items (if decide (k = k') then o else w) k'.
Proof. unfold items. by rewrite seen_lookup. Qed.

Lemma seen_other w s k' : k' ≠ k → items (with_source k w s) k' = items w k'.
Proof. intros Hk. unfold items, with_source. simpl. by rewrite lookup_partial_alter_ne. Qed.

Lemma seen_indexers w o k' : indexers (seen w o) k' = indexers (if decide (k = k') then o else w) k'.
Proof. unfold indexers. by rewrite seen_lookup. Qed.

Lemma seen_ok w o : world_ok w → world_ok o → world_ok (seen w o).
Proof. intros Hw Ho k' s. rewrite seen_lookup. case_decide; [apply Ho|apply Hw]. Qed.

Lemma seen_kinds w o k' : k' ∈ dom (w_stores w) → k' ∈ dom (w_stores o) → k' ∈ dom (w_stores (seen w o)).
Proof. rewrite !elem_of_dom, seen_lookup. by case_decide. Qed.
End seen.
