(* ===== verification/Instances.v ===== *)
(** Instances of applications. An instance has two sources: its registration
    in a registry (an RPC instance) and the workload that runs it (a runtime
    instance). pkg/core/resource/apis/mesh/v1alpha1/instance_helper.go merges
    them; pkg/core/discovery/subscriber/rpc_instance.go and
    pkg/core/engine/subscriber/runtime_instance.go keep the store of instances,
    and pkg/core/discovery/subscriber/instance.go the one of applications. *)
From S2P Require Import Prelude GoStrings Errors Resource Libs Indexers Store Queries EventBus Subscribers.

Open Scope string_scope.
Open Scope list_scope.
Open Scope Z_scope.

(** ** instance_helper.go *)
Definition BuildInstanceResName (appName ip : string) (rpcPort : Z) : string :=
  appName +:+ ip +:+ ":" +:+ pretty rpcPort.

Definition instance_spec (r : Resource) : option Instance_ :=
  match res_spec r with InstanceSpec s => s | _ => None end.
Definition rpc_spec (r : Resource) : option RPCInstance :=
  match res_spec r with RPCInstanceSpec s => s | _ => None end.
Definition runtime_spec (r : Resource) : option RuntimeInstance :=
  match res_spec r with RuntimeInstanceSpec s => s | _ => None end.

Definition with_instance (r : Resource) (i : Instance_) : Resource :=
  {| res_meta := res_meta r; res_Mesh := res_Mesh r; res_spec := InstanceSpec (Some i) |}.
Definition with_labels (r : Resource) (l : option (gmap string string)) : Resource :=
  {| res_meta := {| meta_Name := meta_Name (res_meta r); meta_Labels := l;
                    meta_Annotations := meta_Annotations (res_meta r) |};
     res_Mesh := res_Mesh r; res_spec := res_spec r |}.

Definition empty_instance : Instance_ :=
  {| inst_Name := ""; inst_AppName := ""; inst_Ip := ""; inst_RpcPort := 0; inst_QosPort := 0;
     inst_ReleaseVersion := ""; inst_RegisterTime := ""; inst_UnregisterTime := "";
     inst_Protocol := ""; inst_Serialization := ""; inst_PreferSerialization := "";
     inst_Tags := ∅; inst_Image := ""; inst_CreateTime := ""; inst_StartTime := "";
     inst_ReadyTime := ""; inst_DeployState := ""; inst_WorkloadType := "";
     inst_WorkloadName := ""; inst_Node := ""; inst_SourceEngine := ""; inst_Probes := [];
     inst_Conditions := [] |}.

(** The assignments to the fields that identify an instance, to those that
    come from its registration, and to those that come from its workload. *)
Definition set_identity (i : Instance_) (name appName ip : string) (rpcPort : Z) : Instance_ :=
  {| inst_Name := name; inst_AppName := appName; inst_Ip := ip; inst_RpcPort := rpcPort;
     inst_QosPort := inst_QosPort i;
     inst_ReleaseVersion := inst_ReleaseVersion i; inst_RegisterTime := inst_RegisterTime i;
     inst_UnregisterTime := inst_UnregisterTime i; inst_Protocol := inst_Protocol i;
     inst_Serialization := inst_Serialization i; inst_PreferSerialization := inst_PreferSerialization i;
     inst_Tags := inst_Tags i; inst_Image := inst_Image i; inst_CreateTime := inst_CreateTime i;
     inst_StartTime := inst_StartTime i; inst_ReadyTime := inst_ReadyTime i;
     inst_DeployState := inst_DeployState i; inst_WorkloadType := inst_WorkloadType i;
     inst_WorkloadName := inst_WorkloadName i; inst_Node := inst_Node i;
     inst_SourceEngine := inst_SourceEngine i; inst_Probes := inst_Probes i;
     inst_Conditions := inst_Conditions i |}.

Definition set_registration (i : Instance_) (release registered unregistered protocol
    serialization preferSerialization : string) (tags : gmap string string) : Instance_ :=
  {| inst_Name := inst_Name i; inst_AppName := inst_AppName i; inst_Ip := inst_Ip i;
     inst_RpcPort := inst_RpcPort i; inst_QosPort := inst_QosPort i;
     inst_ReleaseVersion := release; inst_RegisterTime := registered;
     inst_UnregisterTime := unregistered; inst_Protocol := protocol;
     inst_Serialization := serialization; inst_PreferSerialization := preferSerialization;
     inst_Tags := tags; inst_Image := inst_Image i; inst_CreateTime := inst_CreateTime i;
     inst_StartTime := inst_StartTime i; inst_ReadyTime := inst_ReadyTime i;
     inst_DeployState := inst_DeployState i; inst_WorkloadType := inst_WorkloadType i;
     inst_WorkloadName := inst_WorkloadName i; inst_Node := inst_Node i;
     inst_SourceEngine := inst_SourceEngine i; inst_Probes := inst_Probes i;
     inst_Conditions := inst_Conditions i |}.

Definition set_workload (i : Instance_) (image createTime startTime readyTime deployState
    workloadType workloadName node sourceEngine : string) (probes : list Probe)
    (conditions : list Condition) : Instance_ :=
  {| inst_Name := inst_Name i; inst_AppName := inst_AppName i; inst_Ip := inst_Ip i;
     inst_RpcPort := inst_RpcPort i; inst_QosPort := inst_QosPort i;
     inst_ReleaseVersion := inst_ReleaseVersion i; inst_RegisterTime := inst_RegisterTime i;
     inst_UnregisterTime := inst_UnregisterTime i; inst_Protocol := inst_Protocol i;
     inst_Serialization := inst_Serialization i; inst_PreferSerialization := inst_PreferSerialization i;
     inst_Tags := inst_Tags i; inst_Image := image; inst_CreateTime := createTime;
     inst_StartTime := startTime; inst_ReadyTime := readyTime; inst_DeployState := deployState;
     inst_WorkloadType := workloadType; inst_WorkloadName := workloadName; inst_Node := node;
     inst_SourceEngine := sourceEngine; inst_Probes := probes; inst_Conditions := conditions |}.

Definition merge_registration (s : RPCInstance) (i : Instance_) : Instance_ :=
  set_registration i (rpc_ReleaseVersion s) (rpc_RegisterTime s) (rpc_UnregisterTime s)
    (rpc_Protocol s) (rpc_Serialization s) (rpc_PreferSerialization s) (rpc_Tags s).
Definition clear_registration (now : string) (i : Instance_) : Instance_ :=
  set_registration i "" "" now "" "" "" ∅.
Definition merge_workload (s : RuntimeInstance) (i : Instance_) : Instance_ :=
  set_workload i (rt_Image s) (rt_CreateTime s) (rt_StartTime s) (rt_ReadyTime s) (rt_Phase s)
    (rt_WorkloadType s) (rt_WorkloadName s) (rt_Node s) (rt_SourceEngine s) (rt_Probes s)
    (rt_Conditions s).
Definition clear_workload (i : Instance_) : Instance_ :=
  set_workload i "" "" "" "" "" "" "" "" "" [] [].

(** The specs are dereferenced: a nil one panics. *)
Definition MergeRPCInstanceIntoInstance (rpc inst : Resource) : result error Resource :=
  match rpc_spec rpc, instance_spec inst with
  | Some s, Some i => Ok (with_instance inst (merge_registration s i))
  | _, _ => Err nil_pointer
  end.

Definition MergeRuntimeInstanceIntoInstance (rt inst : Resource) : result error Resource :=
  match runtime_spec rt, instance_spec inst with
  | Some s, Some i =>
      Ok (with_labels (with_instance inst (merge_workload s i)) (meta_Labels (res_meta rt)))
  | _, _ => Err nil_pointer
  end.

Definition NewInstanceResourceWithAttributes (name mesh : string) : Resource :=
  {| res_meta := {| meta_Name := name; meta_Labels := Some ∅; meta_Annotations := None |};
     res_Mesh := mesh; res_spec := InstanceSpec (Some empty_instance) |}.

Definition FromRPCInstance (rpc : Resource) : result error Resource :=
  match rpc_spec rpc with
  | None => Err nil_pointer
  | Some s =>
      let resName := BuildInstanceResName (rpc_AppName s) (rpc_Ip s) (rpc_Port s) in
      let inst := NewInstanceResourceWithAttributes resName (res_Mesh rpc) in
      MergeRPCInstanceIntoInstance rpc
        (with_instance inst (set_identity empty_instance (rpc_Name s) (rpc_AppName s) (rpc_Ip s) (rpc_Port s)))
  end.

Definition FromRuntimeInstance (rt : Resource) : result error Resource :=
  match runtime_spec rt with
  | None => Err nil_pointer
  | Some s =>
      let resName := BuildInstanceResName (rt_AppName s) (rt_Ip s) (rt_RpcPort s) in
      let inst := NewInstanceResourceWithAttributes resName (res_Mesh rt) in
      MergeRuntimeInstanceIntoInstance rt
        (with_instance inst (set_identity empty_instance resName (rt_AppName s) (rt_Ip s) (rt_RpcPort s)))
  end.

Definition ClearRPCInstanceFromInstance (now : string) (inst : Resource) : Resource :=
  match instance_spec inst with
  | None => inst
  | Some i => with_instance inst (clear_registration now i)
  end.

Definition ClearRuntimeInstanceFromInstance (inst : Resource) : Resource :=
  match instance_spec inst with
  | None => inst
  | Some i => with_labels (with_instance inst (clear_workload i)) None
  end.

Definition has_workload (i : Instance_) : bool :=
  bool_decide (inst_SourceEngine i ≠ "" ∨ inst_DeployState i ≠ "" ∨ inst_WorkloadName i ≠ "" ∨
    inst_Node i ≠ "" ∨ inst_Image i ≠ "" ∨ inst_StartTime i ≠ "" ∨ inst_ReadyTime i ≠ "") ||
  negb (bool_decide (inst_Conditions i = [])).

Definition HasRuntimeInstanceSource (inst : Resource) : bool :=
  match instance_spec inst with None => false | Some i => has_workload i end.
Definition HasRPCInstanceSource (inst : Resource) : bool :=
  match instance_spec inst with None => false | Some i => bool_decide (inst_RegisterTime i ≠ "") end.

(** The names of the indexes (pkg/core/store/index). *)
Definition ByMeshIndex : string := "idx_mesh".
Definition ByInstanceAppNameIndex : string := "idx_instance_app_name".
Definition ByInstanceIpIndex : string := "idx_instance_ip".
Definition ByInstanceNameIndex : string := "idx_instance_name".
Definition ByRuntimeInstanceIPIndex : string := "idx_rt_instance_ip".

Definition DefaultMesh : string := "default".
(** pkg/config/engine/config.go: the engine type with a runtime to look at. *)
Definition Kubernetes : string := "kubernetes".

Section subscribers.
Context {St : Type} `{ResourceStore St}.
(** [strutil.IsBlank] of lancet, [String] of a resource, the engine type of
    the configuration. *)
Context (IsBlank : string → bool) (res_String : Resource → string) (engineType : string).

Definition nil_object (what : string) : string := "process " +:+ what +:+ " obj is nil, skipped processing".

(** ** rpc_instance.go *)
Definition rpc_checkAttributeEnough (rpc : Resource) : bool :=
  match rpc_spec rpc with
  | None => false
  | Some s => negb (IsBlank (rpc_AppName s) || IsBlank (rpc_Ip s) || bool_decide (rpc_Port s <= 0) ||
                    IsBlank (res_Mesh rpc) || bool_decide (DefaultMesh = res_Mesh rpc))
  end.

Definition getRelatedInstanceRes (rpc : Resource) : M St (option Resource) :=
  get_typed InstanceKind (res_Mesh rpc) (res_Name rpc) (NewAssertionError (kind_string InstanceKind) "").

(** The exact match is searched first; a candidate without a spec is passed
    over there, but can still be the first one. *)
Definition exact_runtime (mesh : string) (i : Instance_) (candidate : Resource) : bool :=
  match runtime_spec candidate with
  | None => false
  | Some s => bool_decide (res_Mesh candidate = mesh ∧ rt_AppName s = inst_AppName i ∧
                           rt_RpcPort s = inst_RpcPort i)
  end.

(** An error of the store is logged, the runtime instance is then missing. *)
Definition getRuntimeInstanceForInstance (inst : Resource) : M St (option Resource) := λ w,
  match instance_spec inst with
  | None => (w, Err nil_pointer)
  | Some i =>
      match reading RuntimeInstanceKind (λ s, st_ListByIndexes s [equals ByRuntimeInstanceIPIndex (inst_Ip i)]) w with
      | (w, Err _) => (w, Ok None)
      | (w, Ok resources) =>
          match resources with
          | [] => (w, Ok None)
          | _ =>
              let candidates := filter (λ r, res_kind r = RuntimeInstanceKind) resources in
              match list_find (λ r, exact_runtime (res_Mesh inst) i r = true) candidates with
              | Some (_, r) => (w, Ok (Some r))
              | None =>
                  match candidates with
                  | r :: _ => (w, Ok (Some r))
                  | [] => (w, Err (ErrorText "runtime error: index out of range [0] with length 0"))
                  end
              end
          end
      end
  end.

Definition findRelatedRuntimeInstanceAndMerge (inst : Resource) : M St Resource :=
  if decide (engineType = Kubernetes) then
    rt ← getRuntimeInstanceForInstance inst;
    match rt with
    | None => mret inst
    | Some rt => lift (MergeRuntimeInstanceIntoInstance rt inst)
    end
  else mret inst.

(** What is done once the related instance is known. *)
Definition rpc_upsert_related (rpc : Resource) (related : option Resource) : M St unit :=
  match related with
  | Some inst =>
      inst ← lift (MergeRPCInstanceIntoInstance rpc inst);
      writing InstanceKind st_Update inst
  | None =>
      inst ← lift (FromRPCInstance rpc);
      inst ← findRelatedRuntimeInstanceAndMerge inst;
      _ ← writing InstanceKind st_Add inst;
      Send (NewResourceChangedEvent Added None (Some inst))
  end.

Definition rpc_processUpsert (rpc : Resource) : M St unit :=
  if rpc_checkAttributeEnough rpc then
    related ← getRelatedInstanceRes rpc;
    rpc_upsert_related rpc related
  else mret ().

(** The cleared instance stays as long as the other source is there. *)
Definition keep_or_delete (inst : Resource) (keep : bool) : M St unit :=
  if keep then
    _ ← writing InstanceKind st_Update inst;
    Send (NewResourceChangedEvent Updated (Some inst) (Some inst))
  else
    _ ← writing InstanceKind st_Delete inst;
    Send (NewResourceChangedEvent Deleted (Some inst) None).

Definition rpc_processDelete (now : string) (rpc : Resource) : M St unit :=
  related ← getRelatedInstanceRes rpc;
  match related with
  | None => mret ()
  | Some inst =>
      let inst := ClearRPCInstanceFromInstance now inst in
      keep_or_delete inst (HasRuntimeInstanceSource inst)
  end.

(** [ProcessEvent] of both subscribers: an event of another type is ignored. *)
Definition process_change (what : string) (err : string → error) (event : Event) (newObj oldObj : option Resource)
    (processUpsert processDelete : Resource → M St unit) : M St unit :=
  match ev_typ event with
  | Added | Updated | Replaced | Sync =>
      match newObj with
      | None => fail (err (nil_object (what +:+ " upsert event, but new")))
      | Some r => processUpsert r
      end
  | Deleted =>
      match oldObj with
      | None => fail (err (nil_object (what +:+ " delete event, but old")))
      | Some r => processDelete r
      end
  | OtherDelta _ => mret ()
  end.

Definition rpc_ProcessEvent (now : string) (event : Event) : M St unit :=
  let failed r := NewAssertionError (kind_string RPCInstanceKind) (res_String r) in
  newObj ← lift (expect RPCInstanceKind failed (ev_newObj event));
  oldObj ← lift (expect RPCInstanceKind failed (ev_oldObj event));
  process_change "rpc instance" (biz_new EventError) event newObj oldObj rpc_processUpsert (rpc_processDelete now).

(** ** pkg/core/engine/subscriber/runtime_instance.go *)
Definition rt_identified (rt : Resource) (s : RuntimeInstance) : bool :=
  negb (IsBlank (rt_AppName s) || IsBlank (rt_Ip s) || bool_decide (rt_RpcPort s <= 0)).

Definition rt_checkAttributesEnough (rt : Resource) : bool :=
  match runtime_spec rt with
  | None => false
  | Some s => rt_identified rt s &&
              negb (IsBlank (res_Mesh rt) || bool_decide (DefaultMesh = res_Mesh rt))
  end.
Definition hasRuntimeIdentity (rt : Resource) : bool :=
  match runtime_spec rt with
  | None => false
  | Some s => rt_identified rt s && negb (IsBlank (res_Mesh rt))
  end.

Definition instance_assertion : error := NewAssertionError "InstanceResource" "".

Definition rt_instance_name (s : RuntimeInstance) : string :=
  BuildInstanceResName (rt_AppName s) (rt_Ip s) (rt_RpcPort s).

Definition getRelatedInstanceByName (rt : Resource) : M St (option Resource) :=
  match runtime_spec rt with
  | None => mret None
  | Some s =>
      if rt_identified rt s then
        resources ← list_typed InstanceKind [equals ByInstanceNameIndex (rt_instance_name s)] instance_assertion;
        mret (the_only (filter (λ r, IsBlank (res_Mesh rt) = true ∨ res_Mesh r = res_Mesh rt) resources))
      else mret None
  end.

Definition getRelatedInstanceByIP (s : RuntimeInstance) : M St (option Resource) :=
  resources ← list_typed InstanceKind [equals ByInstanceIpIndex (rt_Ip s)] instance_assertion;
  mret (the_only resources).

Definition getRelatedKubernetesInstance (rt : Resource) (s : RuntimeInstance) : M St (option Resource) :=
  if hasRuntimeIdentity rt then
    found ← (if negb (IsBlank (res_Mesh rt)) && bool_decide (DefaultMesh ≠ res_Mesh rt)
             then get_typed InstanceKind (res_Mesh rt) (rt_instance_name s) instance_assertion
             else mret None);
    match found with
    | Some inst => mret (Some inst)
    | None =>
        found ← getRelatedInstanceByName rt;
        match found with
        | Some inst => mret (Some inst)
        | None => getRelatedInstanceByIP s
        end
    end
  else getRelatedInstanceByIP s.

Definition getRelatedInstance (rt : Resource) : M St (option Resource) :=
  match runtime_spec rt with
  | None => mret None
  | Some s =>
      if decide (rt_SourceEngineType s = Kubernetes) then getRelatedKubernetesInstance rt s
      else getRelatedInstanceByName rt
  end.

Definition rt_upsert_related (rt : Resource) (related : option Resource) : M St unit :=
  match related with
  | Some inst =>
      inst ← lift (MergeRuntimeInstanceIntoInstance rt inst);
      writing InstanceKind st_Update inst
  | None =>
      if rt_checkAttributesEnough rt then
        inst ← lift (FromRuntimeInstance rt);
        _ ← writing InstanceKind st_Add inst;
        Send (NewResourceChangedEvent Added None (Some inst))
      else mret ()
  end.

Definition rt_processUpsert (rt : Resource) : M St unit :=
  related ← getRelatedInstance rt; rt_upsert_related rt related.

Definition rt_processDelete (rt : Resource) : M St unit :=
  related ← getRelatedInstance rt;
  match related with
  | None => mret ()
  | Some inst =>
      let inst := ClearRuntimeInstanceFromInstance inst in
      keep_or_delete inst (HasRPCInstanceSource inst)
  end.

Definition rt_ProcessEvent (event : Event) : M St unit :=
  let failed (_ : Resource) := NewAssertionError (kind_string RuntimeInstanceKind) "" in
  newObj ← lift (expect RuntimeInstanceKind failed (ev_newObj event));
  oldObj ← lift (expect RuntimeInstanceKind failed (ev_oldObj event));
  process_change "runtime instance" ErrorText event newObj oldObj rt_processUpsert rt_processDelete.

(** ** instance.go *)
Definition BuildAppResource (mesh name : string) (instanceCount : Z) : Resource :=
  {| res_meta := {| meta_Name := name; meta_Labels := Some ∅; meta_Annotations := None |};
     res_Mesh := mesh;
     res_spec := ApplicationSpec (Some {| app_Name := name; app_InstanceCount := instanceCount |}) |}.

Definition with_count (app : Resource) (n : Z) : result error Resource :=
  match res_spec app with
  | ApplicationSpec (Some a) =>
      Ok {| res_meta := res_meta app; res_Mesh := res_Mesh app;
            res_spec := ApplicationSpec (Some {| app_Name := app_Name a; app_InstanceCount := n |}) |}
  | _ => Err nil_pointer
  end.

(** An error of the listing is overwritten by the next one: the list is then
    empty. *)
Definition list_or_empty (cs : list IndexCondition) : M St (list Resource) := λ w,
  match reading InstanceKind (λ s, st_ListByIndexes s cs) w with
  | (w, Ok l) => (w, Ok l)
  | (w, Err _) => (w, Ok [])
  end.

Definition instance_changed (inst : Resource) : M St unit :=
  match instance_spec inst with
  | None => fail nil_pointer
  | Some i =>
      list ← list_or_empty [equals ByMeshIndex (res_Mesh inst);
                            equals ByInstanceAppNameIndex (inst_AppName i)];
      let count := Z.of_nat (length list) in
      app ← get_typed ApplicationKind (res_Mesh inst) (inst_AppName i)
              (NewAssertionError (kind_string ApplicationKind) "");
      match app with
      | None =>
          let app := BuildAppResource (res_Mesh inst) (inst_AppName i) count in
          _ ← writing ApplicationKind st_Add app;
          Send (NewResourceChangedEvent Added None (Some app))
      | Some app =>
          app ← lift (with_count app count);
          writing ApplicationKind st_Update app
      end
  end.

Definition inst_ProcessEvent (event : Event) : M St unit :=
  let failed r := NewAssertionError (kind_string InstanceKind) (res_String r) in
  newObj ← lift (expect InstanceKind failed (ev_newObj event));
  oldObj ← lift (expect InstanceKind failed (ev_oldObj event));
  match newObj, oldObj with
  | Some inst, _ => instance_changed inst
  | None, Some inst => instance_changed inst
  | None, None => fail nil_pointer
  end.
End subscribers.
