(* ===== verification/InstanceJoin.v ===== *)
(** The store of instances is the join of what the registries and the engine
    report: the subscribers of Instances.v against that specification. *)
From S2P Require Import Prelude GoStrings Errors Resource Libs Indexers Store Queries EventBus Subscribers Instances.
From Stdlib Require Import Ascii.

Open Scope string_scope.
Open Scope list_scope.
Open Scope Z_scope.

(** ** The specification

    Who an instance is. *)
Record identity := { id_Mesh : string; id_AppName : string; id_Ip : string; id_Port : Z }.

Definition id_name (d : identity) : string := BuildInstanceResName (id_AppName d) (id_Ip d) (id_Port d).
Definition key_of (d : identity) : string := BuildResourceKey (id_Mesh d) (id_name d).

(** The instance with a registration [reg] and a workload [rt]; [left] is the
    time it was unregistered. *)
Definition join (d : identity) (reg : option RPCInstance) (rt : option RuntimeInstance) (left : string) : Instance_ :=
  let i := set_identity empty_instance (id_name d) (id_AppName d) (id_Ip d) (id_Port d) in
  let i := match reg with
           | Some s => merge_registration s i
           | None => set_registration i "" "" left "" "" "" ∅
           end in
  match rt with Some s => merge_workload s i | None => i end.

(** What was reported last, by instance. *)
Record sources := { registered : gmap string RPCInstance; running : gmap string Resource }.

Inductive report :=
| Registered (d : identity) (rpc : Resource)
| Unregistered (d : identity) (rpc : Resource) (now : string)
| Running (d : identity) (rt : Resource)
| Gone (d : identity) (rt : Resource).

Definition reported (a : sources) (e : report) : sources :=
  match e with
  | Registered d rpc =>
      match rpc_spec rpc with
      | Some s => {| registered := <[key_of d := s]> (registered a); running := running a |}
      | None => a
      end
  | Unregistered d _ _ => {| registered := delete (key_of d) (registered a); running := running a |}
  | Running d rt => {| registered := registered a; running := <[key_of d := rt]> (running a) |}
  | Gone d _ => {| registered := registered a; running := delete (key_of d) (running a) |}
  end.

Section join.
Context {St : Type} `{ResourceStoreQueries St}.
Context (IsBlank : string → bool) (res_String : Resource → string) (engineType : string).
(** A string is blank when it has only white space. *)
Context (IsBlank_app : ∀ a b, IsBlank (a +:+ b) = IsBlank a && IsBlank b).

(** The instances of the meshes: they have addresses of their own, and names
    and meshes that the console accepts; [pod d] is the key of the runtime
    instance that runs [d]. *)
Record population := {
  member : identity → Prop;
  pod : identity → string;
  pop_ip d d' : member d → member d' → id_Ip d = id_Ip d' → d = d';
  pop_key d d' : member d → member d' → key_of d = key_of d' → d = d';
  pop_pod d d' : member d → member d' → pod d = pod d' → d = d';
  pop_app d : member d → IsBlank (id_AppName d) = false;
  pop_addr d : member d → IsBlank (id_Ip d) = false ∧ 0 < id_Port d;
  pop_mesh d : member d → IsBlank (id_Mesh d) = false ∧ id_Mesh d ≠ DefaultMesh }.
Context (pop : population).

(** A report about the instance [d]. A runtime instance that does not say
    which instance it runs is found by its address, on Kubernetes. *)
Definition registers (d : identity) (rpc : Resource) : Prop :=
  res_Mesh rpc = id_Mesh d ∧ res_Name rpc = id_name d ∧
  ∃ s, res_spec rpc = RPCInstanceSpec (Some s) ∧ rpc_Name s = id_name d ∧
    rpc_AppName s = id_AppName d ∧ rpc_Ip s = id_Ip d ∧ rpc_Port s = id_Port d ∧
    rpc_RegisterTime s ≠ "".

Definition identified (d : identity) (rt : Resource) (s : RuntimeInstance) : Prop :=
  res_Mesh rt = id_Mesh d ∧ rt_AppName s = id_AppName d ∧ rt_RpcPort s = id_Port d.

Definition runs (d : identity) (rt : Resource) : Prop :=
  ResourceKey rt = pod pop d ∧
  ∃ s, res_spec rt = RuntimeInstanceSpec (Some s) ∧ rt_Ip s = id_Ip d ∧
    has_workload (merge_workload s empty_instance) = true ∧
    (identified d rt s ∨
     rt_checkAttributesEnough IsBlank rt = false ∧ engineType = Kubernetes ∧ rt_SourceEngineType s = Kubernetes).

Definition possible (a : sources) (e : report) : Prop :=
  match e with
  | Registered d rpc => member pop d ∧ registers d rpc
  | Unregistered d rpc _ => member pop d ∧ res_kind rpc = RPCInstanceKind ∧
      res_Mesh rpc = id_Mesh d ∧ res_Name rpc = id_name d
  | Running d rt => member pop d ∧ runs d rt
  | Gone d rt => member pop d ∧ runs d rt ∧ is_Some (running a !! key_of d)
  end.

(** The informer files a runtime instance before its event is processed. *)
Definition filed (rt : Resource) : M St unit := λ w,
  match ResourceKindRoute (w_stores w) RuntimeInstanceKind with
  | Ok s =>
      match st_GetByKey s (ResourceKey rt) with
      | Ok (Some _) => writing RuntimeInstanceKind st_Update rt w
      | _ => writing RuntimeInstanceKind st_Add rt w
      end
  | Err e => (w, Err e)
  end.

Definition handled (e : report) : M St unit :=
  match e with
  | Registered _ rpc =>
      rpc_ProcessEvent IsBlank res_String engineType "" (NewResourceChangedEvent Added None (Some rpc))
  | Unregistered _ rpc now =>
      rpc_ProcessEvent IsBlank res_String engineType now (NewResourceChangedEvent Deleted (Some rpc) None)
  | Running _ rt =>
      _ ← filed rt; rt_ProcessEvent IsBlank (NewResourceChangedEvent Added None (Some rt))
  | Gone _ rt =>
      _ ← writing RuntimeInstanceKind st_Delete rt;
      rt_ProcessEvent IsBlank (NewResourceChangedEvent Deleted (Some rt) None)
  end.

(** The stores have the registered indexers. *)
Record setup (w : world St) : Prop := {
  su_ok : world_ok w;
  su_kinds : InstanceKind ∈ dom (w_stores w) ∧ RuntimeInstanceKind ∈ dom (w_stores w);
  su_ip : indexers w InstanceKind !! ByInstanceIpIndex = Some (byInstanceIp IsBlank);
  su_name : indexers w InstanceKind !! ByInstanceNameIndex = Some (byInstanceName IsBlank);
  su_rt_ip : indexers w RuntimeInstanceKind !! ByRuntimeInstanceIPIndex = Some (byRuntimeInstanceIp IsBlank) }.

(** An instance is stored with what is known about it; one that is neither
    registered nor running under its identity may be missing. *)
Definition shown (a : sources) (k : string) (o : option Resource) : Prop :=
  match o with
  | Some inst => ∃ d left, member pop d ∧ k = key_of d ∧ res_Mesh inst = id_Mesh d ∧ res_Name inst = id_name d ∧
      (is_Some (registered a !! k) ∨ is_Some (running a !! k)) ∧
      instance_spec inst = Some (join d (registered a !! k) (running a !! k ≫= runtime_spec) left) ∧
      match running a !! k with
      | Some rt => meta_Labels (res_meta inst) = meta_Labels (res_meta rt)
      | None => True
      end
  | None => registered a !! k = None ∧
      ∀ rt, running a !! k = Some rt → rt_checkAttributesEnough IsBlank rt = false
  end.

Record view (w : world St) (a : sources) : Prop := {
  vw_setup : setup w;
  vw_registered k s : registered a !! k = Some s → rpc_RegisterTime s ≠ "";
  vw_running k rt : running a !! k = Some rt → ∃ d, member pop d ∧ k = key_of d ∧ runs d rt ∧
    items w RuntimeInstanceKind !! pod pop d = Some rt;
  vw_pods pk rt : items w RuntimeInstanceKind !! pk = Some rt →
    ∃ d, member pop d ∧ pk = pod pop d ∧ running a !! key_of d = Some rt;
  vw_shown k : shown a k (items w InstanceKind !! k) }.

(** ** Lookups *)
Lemma instance_index (f : Instance_ → string) v r :
  index_has (λ o, s ← assert_spec InstanceKind as_instance o; Ok (index_field s IsBlank f)) v (ResourceObj r) =
  match instance_spec r with Some i => negb (IsBlank (f i)) && bool_decide (v = f i) | None => false end.
Proof.
  unfold index_has, assert_spec, instance_spec. simpl.
  destruct (res_spec r) as [| |[i|]| | | | | | | | | | | | | |]; try done. simpl. unfold index_field.
  destruct (IsBlank (f i)); simpl; [done|]. apply bool_decide_ext. set_solver.
Qed.

Lemma runtime_index v r :
  index_has (byRuntimeInstanceIp IsBlank) v (ResourceObj r) =
  match runtime_spec r with Some s => negb (IsBlank (rt_Ip s)) && bool_decide (v = rt_Ip s) | None => false end.
Proof.
  unfold index_has, byRuntimeInstanceIp, assert_spec, runtime_spec. simpl.
  destruct (res_spec r) as [| | | |[i|]| | | | | | | | | | | |]; try done. simpl. unfold index_field.
  destruct (IsBlank (rt_Ip i)); simpl; [done|]. apply bool_decide_ext. set_solver.
Qed.

(** Every stored instance is one of the population. *)
Definition known (w : world St) : Prop := ∀ k inst, items w InstanceKind !! k = Some inst →
  ∃ d i, member pop d ∧ k = key_of d ∧ res_Mesh inst = id_Mesh d ∧ instance_spec inst = Some i ∧
    inst_Name i = id_name d ∧ inst_Ip i = id_Ip d.

Lemma join_identity d reg rt left : let i := join d reg rt left in
  inst_Name i = id_name d ∧ inst_AppName i = id_AppName d ∧ inst_Ip i = id_Ip d ∧ inst_RpcPort i = id_Port d.
Proof. by destruct reg, rt. Qed.

Lemma view_known w a : view w a → known w.
Proof.
  intros Hv k inst Hk. pose proof (vw_shown _ _ Hv k) as Hs. rewrite Hk in Hs.
  destruct Hs as (d & left & Hd & -> & Hm & _ & _ & Hi & _). exists d. eexists.
  split_and!; [done|done|done|exact Hi|apply join_identity..].
Qed.

Lemma name_not_blank d : member pop d → IsBlank (id_name d) = false.
Proof. intros Hd. unfold id_name, BuildInstanceResName. by rewrite IsBlank_app, (pop_app pop d Hd). Qed.

Lemma by_ip w d s : setup w → known w → member pop d → rt_Ip s = id_Ip d →
  getRelatedInstanceByIP s w = (w, Ok (items w InstanceKind !! key_of d)).
Proof.
  intros [Hw [Hd _] Hip _ _] Hk Hm Hs. unfold getRelatedInstanceByIP.
  erewrite bind_ok; [|apply (list_typed_ok w InstanceKind [(ByInstanceIpIndex, rt_Ip s)]);
    [done|done|done|eapply indexed_by; [exact Hip|constructor]]].
  unfold mret, M_ret. do 2 f_equal. apply the_only_spec.
  { by apply NoDup_query, items_self_keyed. }
  intros r. rewrite elem_of_query by by apply items_self_keyed.
  unfold all_are, index_is. simpl. rewrite Hip. unfold byInstanceIp. rewrite instance_index, andb_true_r. split.
  - intros [Hr Hi]. destruct (Hk _ _ Hr) as (d' & i & Hd' & Hkey & _ & Hsp & _ & Hip').
    rewrite Hsp in Hi. apply andb_true_iff in Hi as [_ Hi%bool_decide_eq_true].
    rewrite Hkey in Hr. rewrite (pop_ip pop d' d) in Hr; [done|done|done|congruence].
  - intros Hr. destruct (Hk _ _ Hr) as (d' & i & Hd' & Hkey & _ & Hsp & _ & Hip').
    apply (pop_key pop) in Hkey; [subst d'|done..].
    split; [by rewrite (proj1 (items_key w InstanceKind _ _ Hw Hr))|].
    rewrite Hsp, Hip', Hs. destruct (pop_addr pop d Hm) as [-> _]. by rewrite bool_decide_eq_true_2.
Qed.

(** The query by name, before the filter on the mesh. *)
Lemma by_name w rt s o : setup w → runtime_spec rt = Some s → rt_identified IsBlank rt s = true →
  IsBlank (res_Mesh rt) = false →
  (∀ r i, items w InstanceKind !! ResourceKey r = Some r → instance_spec r = Some i →
     (negb (IsBlank (inst_Name i)) = true ∧ inst_Name i = rt_instance_name s ∧ res_Mesh r = res_Mesh rt ↔ o = Some r)) →
  (∀ r, o = Some r → items w InstanceKind !! ResourceKey r = Some r ∧ is_Some (instance_spec r)) →
  getRelatedInstanceByName IsBlank rt w = (w, Ok o).
Proof.
  intros [Hw [Hd _] _ Hn _] Hs Hid Hb Hin Ho. unfold getRelatedInstanceByName. rewrite Hs, Hid.
  erewrite bind_ok; [|apply (list_typed_ok w InstanceKind [(ByInstanceNameIndex, rt_instance_name s)]);
    [done|done|done|eapply indexed_by; [exact Hn|constructor]]].
  unfold mret, M_ret. do 2 f_equal. apply the_only_spec.
  { by apply NoDup_filter, NoDup_query, items_self_keyed. }
  intros r. rewrite list_elem_of_filter, elem_of_query by by apply items_self_keyed.
  unfold all_are, index_is. simpl. rewrite Hn. unfold byInstanceName. rewrite instance_index, andb_true_r. split.
  - intros (Hm & Hr & Hi). destruct (instance_spec r) as [i|] eqn:Hsp; [|done].
    apply andb_true_iff in Hi as [Hb' Hi%bool_decide_eq_true]. apply (Hin r i); [done|done|].
    split_and!; [done|done|]. destruct Hm; [congruence|done].
  - intros Hr. destruct (Ho r Hr) as [Hst [i Hi]]. destruct (proj2 (Hin r i Hst Hi) Hr) as (Hb' & Hi' & Hm).
    split; [by right|]. split; [done|]. by rewrite Hi, Hb', bool_decide_eq_true_2.
Qed.

Lemma runs_spec d rt : runs d rt → ∃ s, runtime_spec rt = Some s ∧ rt_Ip s = id_Ip d ∧
  has_workload (merge_workload s empty_instance) = true ∧
  (identified d rt s ∨
   rt_checkAttributesEnough IsBlank rt = false ∧ engineType = Kubernetes ∧ rt_SourceEngineType s = Kubernetes).
Proof. intros (_ & s & Hs & ?). exists s. unfold runtime_spec. by rewrite Hs. Qed.

Lemma identified_enough d rt s : member pop d → runtime_spec rt = Some s → rt_Ip s = id_Ip d →
  identified d rt s → rt_identified IsBlank rt s = true ∧ IsBlank (res_Mesh rt) = false ∧
    res_Mesh rt ≠ DefaultMesh ∧ rt_instance_name s = id_name d ∧ rt_checkAttributesEnough IsBlank rt = true.
Proof.
  intros Hd Hs Hip (Hm & Ha & Hp). destruct (pop_mesh pop d Hd) as [Hb Hne].
  destruct (pop_addr pop d Hd) as [Hbi Hpos].
  assert (Hid : rt_identified IsBlank rt s = true).
  { unfold rt_identified. rewrite Ha, Hip, Hp, (pop_app pop d Hd), Hbi. simpl.
    by rewrite bool_decide_eq_false_2 by lia. }
  split_and!; [done|by rewrite Hm|by rewrite Hm| |].
  - unfold rt_instance_name, id_name. by rewrite Ha, Hip, Hp.
  - unfold rt_checkAttributesEnough. rewrite Hs, Hid, Hm, Hb. simpl. by rewrite bool_decide_eq_false_2.
Qed.

Lemma by_name_identified w d rt s : setup w → known w → member pop d → runtime_spec rt = Some s →
  rt_Ip s = id_Ip d → identified d rt s →
  getRelatedInstanceByName IsBlank rt w = (w, Ok (items w InstanceKind !! key_of d)).
Proof.
  intros Hsu Hk Hd Hs Hip Hi. destruct (identified_enough d rt s Hd Hs Hip Hi) as (Hid & Hb & _ & Hn & _).
  destruct Hi as (Hm & _ & _). apply (by_name w rt s); [done|done|done|done|..].
  - intros r i Hr Hsp. destruct (Hk _ _ Hr) as (d' & i' & Hd' & Hkey & Hm' & Hsp' & Hn' & _).
    rewrite Hsp in Hsp'. injection Hsp' as <-. rewrite Hn, Hm, Hn', Hm', name_not_blank by done. split.
    + intros (_ & Hnn & Hmm). unfold key_of in *. by rewrite <-Hnn, <-Hmm, <-Hkey.
    + intros Hr'. pose proof (proj1 (items_key w InstanceKind _ _ (su_ok _ Hsu) Hr')) as Hkk.
      rewrite Hkey in Hkk. by apply (pop_key pop) in Hkk as ->.
  - intros r Hr. rewrite (proj1 (items_key w InstanceKind _ _ (su_ok _ Hsu) Hr)). split; [done|].
    destruct (Hk _ _ Hr) as (d' & i' & _ & _ & _ & -> & _). by eexists.
Qed.

Lemma by_name_default w rt s : setup w → known w → runtime_spec rt = Some s →
  rt_identified IsBlank rt s = true → IsBlank (res_Mesh rt) = false → res_Mesh rt = DefaultMesh →
  getRelatedInstanceByName IsBlank rt w = (w, Ok None).
Proof.
  intros Hsu Hk Hs Hid Hb Hm. apply (by_name w rt s); [done|done|done|done| |done].
  intros r i Hr Hsp. destruct (Hk _ _ Hr) as (d' & i' & Hd' & _ & Hm' & _).
  destruct (pop_mesh pop d' Hd') as [_ Hne]. split; [|done]. intros (_ & _ & Hmm). congruence.
Qed.

(** The instance a runtime instance runs is found however it is identified. *)
Lemma getRelatedInstance_ok w d rt : setup w → known w → member pop d → runs d rt →
  getRelatedInstance IsBlank rt w = (w, Ok (items w InstanceKind !! key_of d)).
Proof.
  intros Hsu Hk Hd (s & Hs & Hip & _ & Hid)%runs_spec. unfold getRelatedInstance. rewrite Hs.
  pose proof (by_ip w d s Hsu Hk Hd Hip) as Hbyip.
  case_decide as Hkube; [|destruct Hid as [Hid|(_ & _ & ?)]; [by eapply by_name_identified|done]].
  unfold getRelatedKubernetesInstance. destruct (hasRuntimeIdentity IsBlank rt) eqn:Hh; [|done].
  destruct Hid as [Hid|(Hen & _ & _)].
  - destruct (identified_enough d rt s Hd Hs Hip Hid) as (_ & Hb & Hne & Hn & _).
    rewrite Hb, bool_decide_eq_true_2 by congruence. cbn [negb andb].
    erewrite bind_ok; [|apply get_typed_ok; apply Hsu].
    rewrite Hn. destruct Hid as (Hm & ?). rewrite Hm. fold (key_of d).
    destruct (items w InstanceKind !! key_of d) as [inst|] eqn:Hi; [done|].
    erewrite bind_ok; [|by eapply (by_name_identified w d)]. by rewrite Hi, Hbyip.
  - unfold hasRuntimeIdentity in Hh. rewrite Hs in Hh. apply andb_true_iff in Hh as [Hrid Hb%negb_true_iff].
    unfold rt_checkAttributesEnough in Hen. rewrite Hs, Hrid, Hb in Hen. simpl in Hen.
    apply negb_false_iff, bool_decide_eq_true in Hen.
    rewrite bool_decide_eq_false_2 by (rewrite Hen; auto). rewrite andb_false_r.
    erewrite bind_ok; [|done]. cbn beta iota.
    erewrite bind_ok; [|by eapply by_name_default]. exact Hbyip.
Qed.

(** ** The joined instance under the changes of the code *)
Lemma merge_registration_join s d reg rt left left' :
  merge_registration s (join d reg rt left) = join d (Some s) rt left'.
Proof. by destruct reg, rt. Qed.
Lemma clear_registration_join now d reg rt left :
  clear_registration now (join d reg rt left) = join d None rt now.
Proof. by destruct reg, rt. Qed.
Lemma merge_workload_join s d reg rt left :
  merge_workload s (join d reg rt left) = join d reg (Some s) left.
Proof. by destruct reg, rt. Qed.
Lemma clear_workload_join d reg rt left : clear_workload (join d reg rt left) = join d reg None left.
Proof. by destruct reg, rt. Qed.
Lemma has_workload_join d reg rt left : has_workload (join d reg rt left) =
  match rt with Some s => has_workload (merge_workload s empty_instance) | None => false end.
Proof. by destruct reg, rt. Qed.
Lemma registered_join d reg rt left : inst_RegisterTime (join d reg rt left) =
  match reg with Some s => rpc_RegisterTime s | None => "" end.
Proof. by destruct reg, rt. Qed.

(** What a handler achieves: the instance [d] is shown as [a] says, the rest
    of the stores is as before. *)
Record placed (w w' : world St) (d : identity) (a : sources) : Prop := {
  pl_setup : setup w';
  pl_pods : items w' RuntimeInstanceKind = items w RuntimeInstanceKind;
  pl_others k : k ≠ key_of d → items w' InstanceKind !! k = items w InstanceKind !! k;
  pl_shown : shown a (key_of d) (items w' InstanceKind !! key_of d) }.

Lemma setup_changed w w' k m es : setup w → changed w w' k m es → setup w'.
Proof.
  intros [Hw Hd Hi Hn Hr] Hc. destruct Hc as [Hok _ _ Hx Hdom _].
  split; [done|by rewrite Hdom|by rewrite Hx..].
Qed.

Lemma changed_placed w w' d a m es : setup w → changed w w' InstanceKind m es →
  (∀ k, k ≠ key_of d → m !! k = items w InstanceKind !! k) → shown a (key_of d) (m !! key_of d) →
  placed w w' d a.
Proof.
  intros Hsu Hc Hm Hs. pose proof (ch_items _ _ _ _ _ Hc) as Hi. split.
  - by eapply setup_changed.
  - by apply (ch_others _ _ _ _ _ Hc).
  - intros k Hk. rewrite Hi. by apply Hm.
  - by rewrite Hi.
Qed.

Lemma placed_same w d a : setup w → shown a (key_of d) (items w InstanceKind !! key_of d) → placed w w d a.
Proof. by split. Qed.

Lemma put_ok w d a inst op : setup w → ResourceKey inst = key_of d → res_kind inst = InstanceKind →
  (∃ w', writing InstanceKind op inst w = (w', Ok ()) ∧
     changed w w' InstanceKind (<[key_of d := inst]> (items w InstanceKind)) []) →
  shown a (key_of d) (Some inst) →
  ∃ w', writing InstanceKind op inst w = (w', Ok ()) ∧ placed w w' d a ∧
    ∀ e, placed w {| w_stores := w_stores w'; w_sent := w_sent w' ++ [e] |} d a.
Proof.
  intros Hsu Hkey Hkind (w' & Hwr & Hc) Hs. exists w'.
  assert (Hm : ∀ k, k ≠ key_of d → <[key_of d:=inst]> (items w InstanceKind) !! k = items w InstanceKind !! k)
    by (intros k Hk; by rewrite lookup_insert_ne).
  assert (Hs' : shown a (key_of d) (<[key_of d:=inst]> (items w InstanceKind) !! key_of d))
    by by rewrite lookup_insert_eq.
  split; [done|]. split; [by eapply changed_placed|]. intros e.
  eapply changed_placed; [done|by apply changed_send|done|done].
Qed.

Lemma update_ok w d a inst : setup w → ResourceKey inst = key_of d → res_kind inst = InstanceKind →
  is_Some (items w InstanceKind !! key_of d) → shown a (key_of d) (Some inst) →
  ∃ w', writing InstanceKind st_Update inst w = (w', Ok ()) ∧ placed w w' d a ∧
    ∀ e, placed w {| w_stores := w_stores w'; w_sent := w_sent w' ++ [e] |} d a.
Proof.
  intros Hsu Hkey Hkind Hp Hs. apply put_ok; try done.
  destruct (writing_Update w inst) as (w' & Hw' & Hc); [apply Hsu|rewrite Hkind; apply Hsu|by rewrite Hkind, Hkey|].
  exists w'. rewrite Hkind in Hw', Hc. by rewrite Hkey in Hc.
Qed.

Lemma add_ok w d a inst : setup w → ResourceKey inst = key_of d → res_kind inst = InstanceKind →
  items w InstanceKind !! key_of d = None → shown a (key_of d) (Some inst) →
  ∃ w', writing InstanceKind st_Add inst w = (w', Ok ()) ∧ placed w w' d a ∧
    ∀ e, placed w {| w_stores := w_stores w'; w_sent := w_sent w' ++ [e] |} d a.
Proof.
  intros Hsu Hkey Hkind Hp Hs. apply put_ok; try done.
  destruct (writing_Add w inst) as (w' & Hw' & Hc); [apply Hsu|rewrite Hkind; apply Hsu|by rewrite Hkind, Hkey|].
  exists w'. rewrite Hkind in Hw', Hc. by rewrite Hkey in Hc.
Qed.

Lemma keep_or_delete_ok w d a inst (keep : bool) : setup w → ResourceKey inst = key_of d → res_kind inst = InstanceKind →
  is_Some (items w InstanceKind !! key_of d) → shown a (key_of d) (if keep then Some inst else None) →
  ∃ w', keep_or_delete inst keep w = (w', Ok tt) ∧ placed w w' d a.
Proof.
  intros Hsu Hkey Hkind Hp Hs. unfold keep_or_delete. destruct keep.
  - destruct (update_ok w d a inst) as (w' & Hw' & _ & Hpl); try done.
    eexists. erewrite bind_ok by exact Hw'. split; [reflexivity|apply Hpl].
  - destruct (writing_Delete w InstanceKind inst) as (w' & Hw' & Hc); [apply Hsu|apply Hsu|by rewrite Hkey|].
    eexists. erewrite bind_ok by exact Hw'. split; [reflexivity|].
    eapply changed_placed; [done|by apply changed_send| |]; rewrite Hkey.
    + intros k Hk. by rewrite lookup_delete_ne.
    + by rewrite lookup_delete_eq.
Qed.

(** ** The handlers *)
Lemma rpc_enough d rpc : member pop d → registers d rpc → rpc_checkAttributeEnough IsBlank rpc = true.
Proof.
  intros Hd (Hm & _ & s & Hs & _ & Ha & Hip & Hp & _). unfold rpc_checkAttributeEnough, rpc_spec.
  destruct (pop_mesh pop d Hd) as [Hb Hne]. destruct (pop_addr pop d Hd) as [Hbi Hpos].
  rewrite Hs, Ha, Hip, Hp, Hm, (pop_app pop d Hd), Hbi, Hb. simpl.
  rewrite !bool_decide_eq_false_2; [done|congruence|lia].
Qed.

Lemma getRelatedInstanceRes_ok w d rpc : setup w → res_Mesh rpc = id_Mesh d → res_Name rpc = id_name d →
  getRelatedInstanceRes rpc w = (w, Ok (items w InstanceKind !! key_of d)).
Proof.
  intros Hsu Hm Hn. unfold getRelatedInstanceRes. rewrite get_typed_ok by apply Hsu. by rewrite Hm, Hn.
Qed.

(** The runtime instance of [d] is found by its address. *)
Lemma getRuntime_ok w a d inst i : view w a → member pop d → instance_spec inst = Some i → inst_Ip i = id_Ip d →
  getRuntimeInstanceForInstance inst w = (w, Ok (running a !! key_of d)).
Proof.
  intros Hv Hd Hi Hip. pose proof (vw_setup _ _ Hv) as Hsu.
  destruct (world_store w RuntimeInstanceKind (su_ok _ Hsu)) as (s & Hs & Hok & _ & His & Hxs); [apply Hsu|].
  assert (Hl : st_ListByIndexes s [equals ByRuntimeInstanceIPIndex (inst_Ip i)] = Ok (option_list (running a !! key_of d))).
  { pose proof (st_ListByIndexes_spec s [(ByRuntimeInstanceIPIndex, inst_Ip i)] Hok) as Hq. csimpl in Hq.
    rewrite Hxs, His in Hq. rewrite Hq; [|done|eapply indexed_by; [apply Hsu|constructor]]. f_equal.
    pose proof (items_self_keyed w RuntimeInstanceKind (su_ok _ Hsu)) as Hk.
    apply list_of_one; [by apply NoDup_query|]. intros r. rewrite elem_of_query by done.
    unfold all_are, index_is. simpl. rewrite (su_rt_ip _ Hsu), runtime_index, andb_true_r. split.
    - intros [Hr Hrs]. destruct (vw_pods _ _ Hv _ _ Hr) as (d' & Hd' & _ & Hrun).
      destruct (vw_running _ _ Hv _ _ Hrun) as (d'' & Hd'' & Hkey & (s' & Hs' & Hip' & _)%runs_spec & _).
      apply (pop_key pop) in Hkey as <-; [|done..]. rewrite Hs', Hip', Hip in Hrs.
      apply andb_true_iff in Hrs as [_ Hrs%bool_decide_eq_true]. by apply (pop_ip pop) in Hrs as ->.
    - intros Hr. destruct (vw_running _ _ Hv _ _ Hr) as (d' & Hd' & Hkey & Hruns & Hit).
      apply (pop_key pop) in Hkey as <-; [|done..]. pose proof (proj1 Hruns) as Hkr.
      destruct (runs_spec _ _ Hruns) as (s' & Hs' & Hip' & _).
      rewrite Hkr. split; [done|]. rewrite Hs', Hip', Hip. destruct (pop_addr pop d Hd) as [-> _].
      by rewrite bool_decide_eq_true_2. }
  unfold getRuntimeInstanceForInstance, reading, ResourceKindRoute. rewrite Hi, Hs. cbn [mbind result_bind]. rewrite Hl.
  destruct (running a !! key_of d) as [r|] eqn:Hr; [|done]. cbn [option_list].
  destruct (vw_running _ _ Hv _ _ Hr) as (d' & _ & _ & (_ & s' & Hs' & _) & _).
  assert (Hf : filter (λ r, res_kind r = RuntimeInstanceKind) [r] = [r]).
  { rewrite filter_cons_True; [done|]. unfold res_kind. by rewrite Hs'. }
  change (option_list (Some r)) with [r]. rewrite !Hf. simpl. by case_decide.
Qed.

Lemma rpc_upsert_ok w a d rpc : view w a → member pop d → registers d rpc →
  ∃ w', rpc_processUpsert IsBlank engineType rpc w = (w', Ok ()) ∧ placed w w' d (reported a (Registered d rpc)).
Proof.
  intros Hv Hd Hreg. pose proof (vw_setup _ _ Hv) as Hsu. pose proof (vw_shown _ _ Hv (key_of d)) as Hsh.
  unfold rpc_processUpsert. rewrite (rpc_enough d rpc Hd Hreg).
  destruct Hreg as (Hm & Hn & s & Hs & Hnm & Ha & Hip & Hp & _).
  erewrite bind_ok by (by eapply getRelatedInstanceRes_ok).
  assert (Hrs : rpc_spec rpc = Some s) by (unfold rpc_spec; by rewrite Hs).
  assert (Ha' : ∀ rt inst left, res_Mesh inst = id_Mesh d → res_Name inst = id_name d →
    running a !! key_of d = rt → instance_spec inst = Some (join d (Some s) (rt ≫= runtime_spec) left) →
    match rt with Some rt => meta_Labels (res_meta inst) = meta_Labels (res_meta rt) | None => True end →
    shown (reported a (Registered d rpc)) (key_of d) (Some inst)).
  { intros rt inst left Hmi Hni Hrt Hi Hl. simpl. rewrite Hrs. exists d, left. cbn [registered running].
    rewrite lookup_insert_eq, Hrt. split_and!; try done. by left; eexists. }
  destruct (items w InstanceKind !! key_of d) as [inst|] eqn:Hit; simpl in Hsh.
  - destruct Hsh as (d' & left & Hd' & Hkey & Hmi & Hni & _ & Hi & Hl).
    apply (pop_key pop) in Hkey as <-; [|done..].
    unfold rpc_upsert_related. erewrite bind_ok; [|unfold lift, MergeRPCInstanceIntoInstance; by rewrite Hrs, Hi].
    erewrite merge_registration_join with (left' := left).
    destruct (update_ok w d (reported a (Registered d rpc)) (with_instance inst (join d (Some s) (running a !! key_of d ≫= runtime_spec) left)))
      as (w' & -> & Hpl & _); [done| |done|by rewrite Hit| |by exists w'].
    { unfold key_of. by rewrite <-Hmi, <-Hni. }
    by apply (Ha' (running a !! key_of d) _ left).
  - destruct Hsh as [Hnr Hrun]. unfold rpc_upsert_related.
    set (inst := with_instance (NewInstanceResourceWithAttributes (id_name d) (id_Mesh d)) (join d (Some s) None "")).
    erewrite bind_ok with (a := inst) (w' := w).
    2: { unfold lift, FromRPCInstance, MergeRPCInstanceIntoInstance. rewrite Hrs, Hnm, Ha, Hip, Hp, Hm. done. }
    assert (Hmerge : ∃ inst', findRelatedRuntimeInstanceAndMerge engineType inst w = (w, Ok inst') ∧
      res_Mesh inst' = id_Mesh d ∧ res_Name inst' = id_name d ∧ res_kind inst' = InstanceKind ∧
      instance_spec inst' = Some (join d (Some s) (running a !! key_of d ≫= runtime_spec) "") ∧
      match running a !! key_of d with
      | Some rt => meta_Labels (res_meta inst') = meta_Labels (res_meta rt) | None => True end).
    { unfold findRelatedRuntimeInstanceAndMerge. destruct (running a !! key_of d) as [rt|] eqn:Hrt.
      - destruct (vw_running _ _ Hv _ _ Hrt) as (d' & Hd' & Hkey & (rs & Hrts & Hrip & _ & Hid)%runs_spec & _).
        apply (pop_key pop) in Hkey as <-; [|done..]. rewrite decide_True.
        2: { destruct Hid as [Hid|(_ & ? & _)]; [|done].
          destruct (identified_enough d rt rs Hd Hrts Hrip Hid) as (_ & _ & _ & _ & He).
          rewrite (Hrun rt eq_refl) in He. done. }
        erewrite bind_ok; [|by eapply (getRuntime_ok w a d)]. rewrite Hrt. unfold lift, MergeRuntimeInstanceIntoInstance.
        rewrite Hrts. eexists. split; [reflexivity|]. split_and!; [done|done|done| |done]. simpl. by rewrite Hrts.
      - exists inst. split; [|by split_and!]. case_decide; [|done].
        erewrite bind_ok; [|by eapply (getRuntime_ok w a d)]. by rewrite Hrt. }
    destruct Hmerge as (inst' & Hf & Hmi & Hni & Hki & Hi & Hl).
    erewrite bind_ok by exact Hf.
    destruct (add_ok w d (reported a (Registered d rpc)) inst') as (w' & Hw' & _ & Hpl); [done| |done|done| |].
    { unfold ResourceKey, key_of. by rewrite Hmi, Hni. }
    { by apply (Ha' (running a !! key_of d) _ ""). }
    eexists. erewrite bind_ok by exact Hw'. split; [reflexivity|apply Hpl].
Qed.

Lemma rpc_delete_ok w a d rpc now : view w a → member pop d → res_Mesh rpc = id_Mesh d → res_Name rpc = id_name d →
  ∃ w', rpc_processDelete now rpc w = (w', Ok ()) ∧ placed w w' d (reported a (Unregistered d rpc now)).
Proof.
  intros Hv Hd Hm Hn. pose proof (vw_setup _ _ Hv) as Hsu. pose proof (vw_shown _ _ Hv (key_of d)) as Hsh.
  unfold rpc_processDelete. erewrite bind_ok by (by eapply getRelatedInstanceRes_ok).
  destruct (items w InstanceKind !! key_of d) as [inst|] eqn:Hit; simpl in Hsh.
  - destruct Hsh as (d' & left & Hd' & Hkey & Hmi & Hni & _ & Hi & Hl).
    apply (pop_key pop) in Hkey as <-; [|done..].
    unfold ClearRPCInstanceFromInstance, HasRuntimeInstanceSource. rewrite Hi, clear_registration_join.
    cbn [instance_spec with_instance res_spec]. rewrite has_workload_join.
    apply keep_or_delete_ok; [done| |done|by rewrite Hit|].
    { unfold key_of. by rewrite <-Hmi, <-Hni. }
    destruct (running a !! key_of d) as [rt|] eqn:Hrt; cbn [mbind option_bind].
    + destruct (vw_running _ _ Hv _ _ Hrt) as (d' & _ & _ & (rs & Hrts & _ & Hw & _)%runs_spec & _).
      rewrite Hrts, Hw. exists d, now. cbn [reported registered running]. rewrite lookup_delete_eq, Hrt.
      cbn [mbind option_bind]. rewrite Hrts. split_and!; try done. right. by eexists.
    + simpl. rewrite lookup_delete_eq, Hrt. by split.
  - exists w. split; [done|]. apply placed_same; [done|]. rewrite Hit. simpl. rewrite lookup_delete_eq. split; [done|apply Hsh].
Qed.

Lemma rt_upsert_ok w a d rt : setup w → known w → shown a (key_of d) (items w InstanceKind !! key_of d) →
  member pop d → runs d rt →
  ∃ w', rt_processUpsert IsBlank rt w = (w', Ok ()) ∧ placed w w' d (reported a (Running d rt)).
Proof.
  intros Hsu Hk Hsh Hd Hr. unfold rt_processUpsert. erewrite bind_ok by (by apply getRelatedInstance_ok).
  pose proof (runs_spec _ _ Hr) as (s & Hs & Hip & _ & Hid).
  assert (Ha' : ∀ inst left, res_Mesh inst = id_Mesh d → res_Name inst = id_name d →
    instance_spec inst = Some (join d (registered a !! key_of d) (Some s) left) →
    meta_Labels (res_meta inst) = meta_Labels (res_meta rt) →
    shown (reported a (Running d rt)) (key_of d) (Some inst)).
  { intros inst left Hmi Hni Hi Hl. exists d, left. cbn [reported registered running].
    rewrite lookup_insert_eq. cbn [mbind option_bind]. rewrite Hs. split_and!; try done. right. by eexists. }
  destruct (items w InstanceKind !! key_of d) as [inst|] eqn:Hit; simpl in Hsh.
  - destruct Hsh as (d' & left & Hd' & Hkey & Hmi & Hni & _ & Hi & _).
    apply (pop_key pop) in Hkey as <-; [|done..]. unfold rt_upsert_related.
    erewrite bind_ok; [|unfold lift, MergeRuntimeInstanceIntoInstance; by rewrite Hs, Hi].
    rewrite merge_workload_join.
    destruct (update_ok w d (reported a (Running d rt)) (with_labels (with_instance inst
      (join d (registered a !! key_of d) (Some s) left)) (meta_Labels (res_meta rt))))
      as (w' & -> & Hpl & _); [done| |done|by rewrite Hit| |by exists w'].
    { unfold key_of. by rewrite <-Hmi, <-Hni. }
    by apply (Ha' _ left).
  - destruct Hsh as [Hnr _]. unfold rt_upsert_related.
    destruct (rt_checkAttributesEnough IsBlank rt) eqn:Hen.
    + destruct Hid as [Hid|[? _]]; [|done].
      destruct (identified_enough d rt s Hd Hs Hip Hid) as (_ & _ & _ & Hn & _). destruct Hid as (Hm & Ha & Hp).
      erewrite bind_ok; [|unfold lift, FromRuntimeInstance, MergeRuntimeInstanceIntoInstance; by rewrite Hs].
      set (inst := with_labels _ _).
      destruct (add_ok w d (reported a (Running d rt)) inst) as (w' & Hw' & _ & Hpl); [done| |done|done| |].
      { unfold key_of. rewrite <-Hm, <-Hn. done. }
      { apply (Ha' _ ""); [done..| |done]. rewrite Hnr. unfold join.
        rewrite <-Hn, <-Ha, <-Hip, <-Hp. reflexivity. }
      eexists. erewrite bind_ok by exact Hw'. split; [reflexivity|apply Hpl].
    + exists w. split; [done|]. apply placed_same; [done|]. rewrite Hit. simpl. split; [done|].
      rewrite lookup_insert_eq. by intros ? [= <-].
Qed.

Lemma rt_delete_ok w a d rt : setup w → known w → shown a (key_of d) (items w InstanceKind !! key_of d) →
  (∀ s, registered a !! key_of d = Some s → rpc_RegisterTime s ≠ "") → member pop d → runs d rt →
  ∃ w', rt_processDelete IsBlank rt w = (w', Ok ()) ∧ placed w w' d (reported a (Gone d rt)).
Proof.
  intros Hsu Hk Hsh Htime Hd Hr. unfold rt_processDelete. erewrite bind_ok by (by apply getRelatedInstance_ok).
  destruct (items w InstanceKind !! key_of d) as [inst|] eqn:Hit; simpl in Hsh.
  - destruct Hsh as (d' & left & Hd' & Hkey & Hmi & Hni & _ & Hi & _).
    apply (pop_key pop) in Hkey as <-; [|done..].
    unfold ClearRuntimeInstanceFromInstance, HasRPCInstanceSource. rewrite Hi, clear_workload_join.
    cbn [instance_spec with_labels with_instance res_spec]. rewrite registered_join.
    apply keep_or_delete_ok; [done| |done|by rewrite Hit|].
    { unfold key_of. by rewrite <-Hmi, <-Hni. }
    destruct (registered a !! key_of d) as [s|] eqn:Hreg.
    + rewrite bool_decide_eq_true_2 by by apply Htime. exists d, left. cbn [reported registered running].
      rewrite lookup_delete_eq, Hreg. split_and!; try done. left. by eexists.
    + simpl. rewrite lookup_delete_eq. by split.
  - destruct Hsh as [Hnr _]. exists w. split; [done|]. apply placed_same; [done|]. rewrite Hit. simpl.
    rewrite lookup_delete_eq. by split.
Qed.

(** ** Runs *)
Record pods_ok (m running : gmap string Resource) : Prop := {
  po_running k rt : running !! k = Some rt →
    ∃ d, member pop d ∧ k = key_of d ∧ runs d rt ∧ m !! pod pop d = Some rt;
  po_pods pk rt : m !! pk = Some rt → ∃ d, member pop d ∧ pk = pod pop d ∧ running !! key_of d = Some rt }.

Lemma pods_insert m r d rt : pods_ok m r → member pop d → runs d rt →
  pods_ok (<[pod pop d := rt]> m) (<[key_of d := rt]> r).
Proof.
  intros [Hr Hp] Hd Hruns. split.
  - intros k rt'. rewrite lookup_insert_Some. intros [[<- <-]|[Hne Hk]].
    + exists d. by rewrite lookup_insert_eq.
    + destruct (Hr _ _ Hk) as (d' & Hd' & -> & ? & ?). exists d'. split_and!; try done.
      rewrite lookup_insert_ne; [done|]. by intros ->%(pop_pod pop).
  - intros pk rt'. rewrite lookup_insert_Some. intros [[<- <-]|[Hne Hk]].
    + exists d. by rewrite lookup_insert_eq.
    + destruct (Hp _ _ Hk) as (d' & Hd' & -> & ?). exists d'. split_and!; try done.
      rewrite lookup_insert_ne; [done|]. by intros ->%(pop_key pop).
Qed.

Lemma pods_delete m r d : pods_ok m r → member pop d →
  pods_ok (delete (pod pop d) m) (delete (key_of d) r).
Proof.
  intros [Hr Hp] Hd. split.
  - intros k rt. rewrite lookup_delete_Some. intros [Hne Hk].
    destruct (Hr _ _ Hk) as (d' & Hd' & -> & ? & ?). exists d'. split_and!; try done.
    rewrite lookup_delete_ne; [done|]. by intros ->%(pop_pod pop).
  - intros pk rt. rewrite lookup_delete_Some. intros [Hne Hk].
    destruct (Hp _ _ Hk) as (d' & Hd' & -> & ?). exists d'. split_and!; try done.
    rewrite lookup_delete_ne; [done|]. by intros ->%(pop_key pop).
Qed.

Lemma view_placed w w1 w' a a' d : view w a → items w1 InstanceKind = items w InstanceKind → placed w1 w' d a' →
  (∀ k, k ≠ key_of d → registered a' !! k = registered a !! k ∧ running a' !! k = running a !! k) →
  (∀ k s, registered a' !! k = Some s → rpc_RegisterTime s ≠ "") →
  pods_ok (items w1 RuntimeInstanceKind) (running a') → view w' a'.
Proof.
  intros Hv Hi [Hsu Hp Ho Hs] Hoff Ht [Hr Hpods]. split; [done|done|by rewrite Hp|by rewrite Hp|].
  intros k. destruct (decide (k = key_of d)) as [->|Hne]; [done|].
  rewrite Ho, Hi by done. pose proof (vw_shown _ _ Hv k) as Hk. destruct (Hoff k Hne) as [Hra Hrb].
  unfold shown in *. by rewrite Hra, Hrb.
Qed.

Lemma view_pods w a : view w a → pods_ok (items w RuntimeInstanceKind) (running a).
Proof. intros Hv. split; [apply (vw_running _ _ Hv)|apply (vw_pods _ _ Hv)]. Qed.

Lemma filed_ok w rt : setup w → res_kind rt = RuntimeInstanceKind →
  ∃ w', filed rt w = (w', Ok ()) ∧
    changed w w' RuntimeInstanceKind (<[ResourceKey rt := rt]> (items w RuntimeInstanceKind)) [].
Proof.
  intros Hsu Hk. destruct (world_store w RuntimeInstanceKind (su_ok _ Hsu)) as (s & Hs & Hok & _ & Hi & _); [apply Hsu|].
  unfold filed, ResourceKindRoute. rewrite Hs, st_GetByKey_spec, Hi by done.
  destruct (items w RuntimeInstanceKind !! ResourceKey rt) as [r|] eqn:Hr; simpl.
  - destruct (writing_Update w rt) as (w' & Hw' & Hc); [apply Hsu|rewrite Hk; apply Hsu|by rewrite Hk, Hr|].
    rewrite Hk in Hw', Hc. by exists w'.
  - destruct (writing_Add w rt) as (w' & Hw' & Hc); [apply Hsu|rewrite Hk; apply Hsu|by rewrite Hk, Hr|].
    rewrite Hk in Hw', Hc. by exists w'.
Qed.

Lemma rpc_event typ now old new w : Forall (λ r, res_kind r = RPCInstanceKind) (option_list old ++ option_list new) →
  rpc_ProcessEvent IsBlank res_String engineType now (NewResourceChangedEvent typ old new) w =
  process_change "rpc instance" (biz_new EventError) (NewResourceChangedEvent typ old new) new old
    (rpc_processUpsert IsBlank engineType) (rpc_processDelete now) w.
Proof.
  intros Hall. unfold rpc_ProcessEvent, mbind, M_bind, lift, expect. cbn.
  destruct new as [n|], old as [o|]; simpl in Hall; repeat (apply Forall_cons in Hall as [? Hall]);
    by rewrite ?decide_True by done.
Qed.

Lemma rt_event typ old new w : Forall (λ r, res_kind r = RuntimeInstanceKind) (option_list old ++ option_list new) →
  rt_ProcessEvent IsBlank (NewResourceChangedEvent typ old new) w =
  process_change "runtime instance" ErrorText (NewResourceChangedEvent typ old new) new old
    (rt_processUpsert IsBlank) (rt_processDelete IsBlank) w.
Proof.
  intros Hall. unfold rt_ProcessEvent, mbind, M_bind, lift, expect. cbn.
  destruct new as [n|], old as [o|]; simpl in Hall; repeat (apply Forall_cons in Hall as [? Hall]);
    by rewrite ?decide_True by done.
Qed.

Lemma runs_kind d rt : runs d rt → res_kind rt = RuntimeInstanceKind.
Proof. intros (_ & s & Hs & _). unfold res_kind. by rewrite Hs. Qed.

Lemma known_same w w' : known w → items w' InstanceKind = items w InstanceKind → known w'.
Proof. intros Hk Hi k inst. rewrite Hi. apply Hk. Qed.

Lemma handled_ok w a e : view w a → possible a e →
  ∃ w', handled e w = (w', Ok ()) ∧ view w' (reported a e).
Proof.
  intros Hv Hp. pose proof (vw_setup _ _ Hv) as Hsu. pose proof (view_pods _ _ Hv) as Hpods.
  pose proof (vw_registered _ _ Hv) as Ht.
  destruct e as [d rpc|d rpc now|d rt|d rt]; simpl in Hp; cbn [handled].
  - destruct Hp as [Hd Hreg]. pose proof Hreg as (_ & _ & s & Hs & _ & _ & _ & _ & Htime).
    destruct (rpc_upsert_ok w a d rpc Hv Hd Hreg) as (w' & Hw' & Hpl). exists w'.
    rewrite rpc_event by (simpl; repeat constructor; unfold res_kind; by rewrite Hs). split; [exact Hw'|].
    eapply view_placed; [exact Hv|done|exact Hpl|..]; simpl; unfold rpc_spec; rewrite Hs; cbn [registered running].
    + intros k Hne. by rewrite lookup_insert_ne.
    + intros k s' [[_ <-]|[_ Hk]]%lookup_insert_Some; [done|by eapply Ht].
    + done.
  - destruct Hp as (Hd & Hk & Hm & Hn). destruct (rpc_delete_ok w a d rpc now Hv Hd Hm Hn) as (w' & Hw' & Hpl).
    exists w'. rewrite rpc_event by (simpl; repeat constructor; done). split; [exact Hw'|].
    eapply view_placed; [exact Hv|done|exact Hpl|..]; cbn [reported registered running].
    + intros k Hne. by rewrite lookup_delete_ne.
    + intros k s' [_ Hks]%lookup_delete_Some. by eapply Ht.
    + done.
  - destruct Hp as [Hd Hr]. destruct (filed_ok w rt Hsu (runs_kind _ _ Hr)) as (w1 & Hw1 & Hc).
    assert (Hi : items w1 InstanceKind = items w InstanceKind) by (by apply (ch_others _ _ _ _ _ Hc)).
    destruct (rt_upsert_ok w1 a d rt) as (w' & Hw' & Hpl);
      [by eapply setup_changed|by eapply known_same; [by eapply view_known|]|rewrite Hi; apply (vw_shown _ _ Hv)|done|done|].
    exists w'. erewrite bind_ok by exact Hw1.
    rewrite rt_event by (simpl; repeat constructor; by eapply runs_kind). split; [exact Hw'|].
    eapply view_placed; [exact Hv|exact Hi|exact Hpl|..]; cbn [reported registered running].
    + intros k Hne. by rewrite lookup_insert_ne.
    + exact Ht.
    + rewrite (ch_items _ _ _ _ _ Hc), (proj1 Hr). by apply pods_insert.
  - destruct Hp as (Hd & Hr & [r Hrun]).
    destruct (vw_running _ _ Hv _ _ Hrun) as (d' & Hd' & Hkey & _ & Hit). apply (pop_key pop) in Hkey as <-; [|done..].
    destruct (writing_Delete w RuntimeInstanceKind rt) as (w1 & Hw1 & Hc);
      [apply Hsu|apply Hsu|rewrite (proj1 Hr); by eexists|].
    assert (Hi : items w1 InstanceKind = items w InstanceKind) by (by apply (ch_others _ _ _ _ _ Hc)).
    destruct (rt_delete_ok w1 a d rt) as (w' & Hw' & Hpl);
      [by eapply setup_changed|by eapply known_same; [by eapply view_known|]|rewrite Hi; apply (vw_shown _ _ Hv)|apply Ht|done|done|].
    exists w'. erewrite bind_ok by exact Hw1.
    rewrite rt_event by (simpl; repeat constructor; by eapply runs_kind). split; [exact Hw'|].
    eapply view_placed; [exact Hv|exact Hi|exact Hpl|..]; cbn [reported registered running].
    + intros k Hne. by rewrite lookup_delete_ne.
    + exact Ht.
    + rewrite (ch_items _ _ _ _ _ Hc), (proj1 Hr). by apply pods_delete.
Qed.

(** Each report of a sequence is possible after those before it. *)
Fixpoint all_possible (a : sources) (es : list report) : Prop :=
  match es with [] => True | e :: es => possible a e ∧ all_possible (reported a e) es end.

Definition nothing : sources := {| registered := ∅; running := ∅ |}.

(** C10: the store of instances is the join of what the registries and the
    engine report, when the two subscribers handle their reports one after the
    other ([registration_lost] shows what two at once can lose). The instances
    of the population have IP addresses, keys and pods of their own, names,
    ports and meshes that the console accepts, registrations that name them and
    a registration time, and workloads that name them or, on Kubernetes, are
    found by their IP address. Whatever the order in which their registrations
    and workloads come and go from empty stores, every handler succeeds. At the
    end each instance that is registered, or whose workload runs and names it,
    is stored under its key; besides these there can only be instances whose
    workload runs without naming them. A stored instance has the fields of its
    last registration, or none of one when it is not registered, and the fields
    of its last workload, or none of one when none runs, with the labels of the
    workload while it runs. *)
Theorem instances_joined w es : setup w → items w InstanceKind = ∅ → items w RuntimeInstanceKind = ∅ →
  all_possible nothing es →
  ∃ w', each handled es w = (w', Ok ()) ∧ view w' (foldl reported nothing es).
Proof.
  intros Hsu Hi Hr Hp. assert (Hv : view w nothing).
  { split; [done|done|done|by rewrite Hr|]. intros k. rewrite Hi. by split. }
  clear Hsu Hi Hr. revert w Hv Hp. generalize nothing. induction es as [|e es IH]; intros a w Hv Hp; [by exists w|].
  destruct Hp as [Hpe Hp]. destruct (handled_ok w a e Hv Hpe) as (w1 & Hw1 & Hv1).
  destruct (IH _ _ Hv1 Hp) as (w' & Hw' & Hv'). exists w'. split; [|exact Hv'].
  cbn [each]. by erewrite bind_ok by exact Hw1.
Qed.
End join.

(** ** Two instances, one of whose pods does not say what it runs *)
Module InstanceJoinExample.
#[local] Existing Instance RefStore.ops.
#[local] Existing Instance RefStore.laws.
#[local] Existing Instance RefStore_queries.

Definition IsBlank (s : string) : bool := forallb (λ c, bool_decide (c = " "%char)) (String.list_ascii_of_string s).

Lemma IsBlank_app a b : IsBlank (a +:+ b) = IsBlank a && IsBlank b.
Proof.
  unfold IsBlank. induction a as [|c a IH]; [done|].
  change (String c a +:+ b) with (String c (a +:+ b)). simpl. by rewrite IH, andb_assoc.
Qed.

Definition shop : identity := {| id_Mesh := "nacos"; id_AppName := "shop"; id_Ip := "10.0.0.1"; id_Port := 20880 |}.
Definition cart : identity := {| id_Mesh := "nacos"; id_AppName := "cart"; id_Ip := "10.0.0.2"; id_Port := 20880 |}.

(** The pod of [cart] does not know its mesh. *)
Definition pod_mesh (d : identity) : string := if decide (id_AppName d = "shop") then id_Mesh d else "k8s".
Definition pods_of (d : identity) : string := BuildResourceKey (pod_mesh d) ("pod-" +:+ id_AppName d).

Program Definition two : population IsBlank :=
  {| member d := d = shop ∨ d = cart; pod := pods_of |}.
Solve Obligations with (intros; naive_solver).

Definition meta (name : string) (labels : option (gmap string string)) : ObjectMeta :=
  {| meta_Name := name; meta_Labels := labels; meta_Annotations := None |}.

Definition rpc (d : identity) (release : string) : Resource :=
  {| res_meta := meta (id_name d) None; res_Mesh := id_Mesh d;
     res_spec := RPCInstanceSpec (Some
       {| rpc_Name := id_name d; rpc_Ip := id_Ip d; rpc_Port := id_Port d; rpc_AppName := id_AppName d;
          rpc_RegisterTime := "2024-01-01 00:00:00"; rpc_UnregisterTime := ""; rpc_Revision := "";
          rpc_MetadataStorageType := ""; rpc_ReleaseVersion := release; rpc_Protocol := "tri";
          rpc_Serialization := ""; rpc_PreferSerialization := ""; rpc_Tags := ∅; rpc_Endpoints := [];
          rpc_Metadata := ∅ |}) |}.

Definition rt (d : identity) (image : string) : Resource :=
  let identified := bool_decide (id_AppName d = "shop") in
  {| res_meta := meta ("pod-" +:+ id_AppName d) (Some {["app" := id_AppName d]});
     res_Mesh := pod_mesh d;
     res_spec := RuntimeInstanceSpec (Some
       {| rt_Name := id_AppName d; rt_Ip := id_Ip d;
          rt_RpcPort := if identified then id_Port d else 0; rt_Image := image;
          rt_AppName := if identified then id_AppName d else ""; rt_CreateTime := ""; rt_StartTime := "";
          rt_ReadyTime := ""; rt_Phase := "Running"; rt_WorkloadName := ""; rt_WorkloadType := "";
          rt_Node := "n1"; rt_Probes := []; rt_Conditions := []; rt_SourceEngine := "k8s";
          rt_SourceEngineType := Kubernetes |}) |}.

Definition w0 : world RefStore.store :=
  {| w_stores := {[
       InstanceKind := {| RefStore.kind := InstanceKind; RefStore.indexers := {[
         ByInstanceIpIndex := byInstanceIp IsBlank; ByInstanceNameIndex := byInstanceName IsBlank ]};
         RefStore.items := ∅ |};
       RuntimeInstanceKind := {| RefStore.kind := RuntimeInstanceKind; RefStore.indexers := {[
         ByRuntimeInstanceIPIndex := byRuntimeInstanceIp IsBlank ]}; RefStore.items := ∅ |} ]};
     w_sent := [] |}.

Definition reports : list report :=
  [Running cart (rt cart "v1"); Registered shop (rpc shop "3.2"); Registered cart (rpc cart "3.3");
   Running shop (rt shop "v1"); Unregistered cart (rpc cart "3.3") "noon"; Running cart (rt cart "v2");
   Unregistered shop (rpc shop "3.2") "noon"; Gone shop (rt shop "v1")].

Lemma w0_setup : setup IsBlank w0.
Proof.
  split; [|unfold w0; cbn [w_stores]; set_solver|reflexivity..].
  intros k s Hs. unfold w0 in Hs. simpl in Hs.
  apply lookup_insert_Some in Hs as [[<- <-]|[_ Hs]]; [split; [by apply map_Forall_empty|done]|].
  apply lookup_singleton_Some in Hs as [<- <-]. split; [by apply map_Forall_empty|done].
Qed.

Lemma shop_registers v : registers shop (rpc shop v).
Proof. split_and!; [done|done|]. eexists. by split_and!. Qed.
Lemma cart_registers v : registers cart (rpc cart v).
Proof. split_and!; [done|done|]. eexists. by split_and!. Qed.
Lemma shop_runs v : runs IsBlank Kubernetes two shop (rt shop v).
Proof. split; [done|]. eexists. split_and!; [done|done|done|by left]. Qed.
Lemma cart_runs v : runs IsBlank Kubernetes two cart (rt cart v).
Proof. split; [done|]. eexists. split_and!; [done|done|done|by right]. Qed.

Lemma reports_possible : all_possible IsBlank Kubernetes two nothing reports.
Proof.
  unfold reports. cbn [all_possible possible].
  split; [split; [by right|apply cart_runs]|].
  split; [split; [by left|apply shop_registers]|].
  split; [split; [by right|apply cart_registers]|].
  split; [split; [by left|apply shop_runs]|].
  split; [split_and!; [by right|done|done|done]|].
  split; [split; [by right|apply cart_runs]|].
  split; [split_and!; [by left|done|done|done]|].
  split; [|done]. split_and!; [by left|apply shop_runs|]. vm_compute. by eexists.
Qed.

(** [cart] stays without its registration, with its new image; [shop] is gone. *)
Lemma instances_joined_witness :
  ∃ w', each (handled IsBlank res_Name Kubernetes) reports w0 = (w', Ok ()) ∧
    view IsBlank Kubernetes two w' (foldl reported nothing reports) ∧
    map_to_list (instance_spec <$> items w' InstanceKind) =
      [(key_of cart, (λ s, join cart None (Some s) "noon") <$> runtime_spec (rt cart "v2"))].
Proof.
  destruct (instances_joined IsBlank res_Name Kubernetes IsBlank_app two w0 reports w0_setup eq_refl eq_refl
    reports_possible) as (w' & Hrun & Hv).
  exists w'. split; [exact Hrun|]. split; [exact Hv|].
  assert (Hw : w' = (each (handled IsBlank res_Name Kubernetes) reports w0).1) by by rewrite Hrun.
  rewrite Hw. vm_compute. reflexivity.
Defined.
End InstanceJoinExample.

(** ** The two subscribers at once

    Each has a goroutine of its own. When both look for the instance before
    either has stored it, both add it; the in-memory store takes the second,
    and the registration is lost. *)
Module InstanceRaceExample.
Import InstanceJoinExample.
#[local] Existing Instance default_range.
#[local] Existing Instance Ref.indexer_ops.
#[local] Existing Instance Ref.radix_ops.
#[local] Existing Instance Ref.lset_ops.
#[local] Existing Instance Ref.lsort_ops.
Abbreviation mstore := (MemoryStore.resourceStore Ref.indexer (gset string)).
#[local] Existing Instance MemoryStore.memory_store.

Definition m0 : world mstore :=
  {| w_stores := {[
       InstanceKind := MemoryStore.Init InstanceKind {[
         ByInstanceIpIndex := byInstanceIp IsBlank; ByInstanceNameIndex := byInstanceName IsBlank ]};
       RuntimeInstanceKind := MemoryStore.Init RuntimeInstanceKind {[
         ByRuntimeInstanceIPIndex := byRuntimeInstanceIp IsBlank ]} ]};
     w_sent := [] |}.

(** Both lookups, then both writes. *)
Definition interleaved : M mstore unit :=
  related_rpc ← getRelatedInstanceRes (rpc shop "3.2");
  related_rt ← getRelatedInstance IsBlank (rt shop "v1");
  _ ← rpc_upsert_related "mock" (rpc shop "3.2") related_rpc;
  rt_upsert_related IsBlank (rt shop "v1") related_rt.

Definition stored (w : world mstore) : option Instance_ :=
  match w_stores w !! InstanceKind with
  | Some s => match st_GetByKey s (key_of shop) with Ok (Some (ResourceObj r)) => instance_spec r | _ => None end
  | None => None
  end.

Lemma registration_lost :
  (interleaved m0).2 = Ok () ∧ inst_RegisterTime <$> stored (interleaved m0).1 = Some "" ∧
  inst_Image <$> stored (interleaved m0).1 = Some "v1".
Proof. vm_compute. split_and!; reflexivity. Qed.
End InstanceRaceExample.
