(* ===== verification/ApplicationCounts.v ===== *)
(** The instance counts of applications: the subscribers of Instances.v that
    change the store of instances announce it on the bus, and the one that
    counts (pkg/core/discovery/subscriber/instance.go) works through those that
    its channel had room for, while further reports come in. *)
From S2P Require Import Prelude GoStrings Errors Resource Libs Indexers Store Queries EventBus Subscribers Settling Instances.

Open Scope string_scope.
Open Scope list_scope.
Open Scope Z_scope.

Section counts.
Context {St : Type} `{ResourceStoreQueries St}.
Context (IsBlank : string → bool) (res_String : Resource → string).

(** What a reporter says about itself: a registration is named after its
    address, and meshes have no separator in their names. *)
Definition well_named (r : Resource) : Prop :=
  no_sep (res_Mesh r) ∧
  ∀ s, rpc_spec r = Some s →
    res_Name r = rpc_Name s ∧ res_Name r = BuildInstanceResName (rpc_AppName s) (rpc_Ip s) (rpc_Port s).

Definition well_named_event (e : Event) : Prop :=
  Forall well_named (option_list (ev_oldObj e) ++ option_list (ev_newObj e)).

(** The size of the counting subscriber's channel. *)
Context (cap : nat).

Abbreviation counter := (inst_ProcessEvent res_String).

(** Reports of the registries and of the engine are handled, one at a time and
    possibly without success, while the counting goroutine takes its events,
    lists instances, and writes counts. *)
Inductive step : queued St → queued St → Prop :=
| step_rpc q engineType now e : well_named_event e →
    step q (act InstanceKind cap (rpc_ProcessEvent IsBlank res_String engineType now e) q)
| step_runtime q e : well_named_event e → step q (act InstanceKind cap (rt_ProcessEvent IsBlank e) q)
| step_drains q q' : drains_on counter InstanceKind cap q q' → step q q'.

(** The instances of an application. *)
Definition belongs (mesh app : string) (r : Resource) : bool :=
  bool_decide (res_Mesh r = mesh) &&
  match instance_spec r with Some i => bool_decide (inst_AppName i = app) | None => false end.

Definition instances_of (w : world St) (mesh app : string) : list Resource :=
  query (items w InstanceKind) (belongs mesh app).

Definition count_of (r : Resource) : option Z :=
  match res_spec r with ApplicationSpec (Some a) => Some (app_InstanceCount a) | _ => None end.

(** The stored count is the number of instances; no application is stored
    only if there are none. *)
Definition counted (w : world St) (mesh app : string) : Prop :=
  match items w ApplicationKind !! BuildResourceKey mesh app with
  | Some r => count_of r = Some (Z.of_nat (length (instances_of w mesh app)))
  | None => instances_of w mesh app = []
  end.

(** The event is an announcement about an instance of the application. *)
Definition announces (e : Event) (x : string * string) : Prop :=
  ∃ r, event_object e = Some r ∧ res_kind r = InstanceKind ∧ belongs x.1 x.2 r = true.

(** What a count is derived from and where it is stored. *)
Definition population (w : world St) (x : string * string) : nat := length (instances_of w x.1 x.2).
Definition application (w : world St) (x : string * string) : option Resource :=
  items w ApplicationKind !! BuildResourceKey x.1 x.2.
Definition shows_count (_ : string * string) (n : nat) (o : option Resource) : Prop :=
  match o with Some r => count_of r = Some (Z.of_nat n) | None => n = 0%nat end.
Definition plain_mesh (x : string * string) : Prop := no_sep x.1.

Lemma counted_iff w mesh app :
  counted w mesh app ↔ up_to_date population application shows_count w (mesh, app).
Proof.
  unfold counted, up_to_date, shows_count, application, population. simpl.
  destruct (items w ApplicationKind !! _); [done|]. split; [by intros ->|apply nil_length_inv].
Qed.

Record indexed (w : world St) : Prop := {
  in_ok : world_ok w;
  in_kinds : InstanceKind ∈ dom (w_stores w) ∧ ApplicationKind ∈ dom (w_stores w);
  in_mesh : indexers w InstanceKind !! ByMeshIndex = Some ByMesh;
  in_app : indexers w InstanceKind !! ByInstanceAppNameIndex = Some (byInstanceAppName IsBlank);
  in_ip : indexers w InstanceKind !! ByInstanceIpIndex = Some (byInstanceIp IsBlank);
  in_name : indexers w InstanceKind !! ByInstanceNameIndex = Some (byInstanceName IsBlank) }.

(** A stored instance and the instance of an announcement. *)
Definition sane (r : Resource) : Prop :=
  no_sep (res_Mesh r) ∧ ∃ i, res_spec r = InstanceSpec (Some i) ∧
    IsBlank (inst_AppName i) = false ∧ IsBlank (inst_Name i) = false ∧ inst_Name i = res_Name r.

Definition sane_event (e : Event) : Prop :=
  ∀ r, event_object e = Some r → res_kind r = InstanceKind → sane r ∧
    Forall (λ r, res_kind r = InstanceKind) (option_list (ev_oldObj e)).

Record base (w : world St) : Prop := {
  bs_indexed : indexed w;
  bs_instances : map_Forall (λ _, sane) (items w InstanceKind);
  bs_apps : map_Forall (λ _ r, is_Some (count_of r)) (items w ApplicationKind) }.

(** ** Reports are announced *)
Context (IsBlank_app : ∀ a b, IsBlank (a +:+ b) = IsBlank a && IsBlank b).

Record announced (w w' : world St) : Prop := {
  an_indexed : indexed w';
  an_apps : items w' ApplicationKind = items w ApplicationKind;
  an_sane : map_Forall (λ _, sane) (items w' InstanceKind);
  an_sent : ∃ es, w_sent w' = w_sent w ++ es ∧ Forall sane_event es ∧
    ∀ mesh app, length (instances_of w' mesh app) = length (instances_of w mesh app) ∨
      ∃ e, e ∈ es ∧ announces e (mesh, app) }.

Lemma indexed_changed w w' k m es : indexed w → changed w w' k m es → indexed w'.
Proof.
  intros [Hw Hd Hm Ha Hi Hn] [Hok _ _ Hx Hdom _]. split; [done|by rewrite Hdom|by rewrite Hx..].
Qed.

Lemma announced_refl w : indexed w → map_Forall (λ _, sane) (items w InstanceKind) → announced w w.
Proof.
  intros Hx Hs. split; [done..|]. exists []. rewrite app_nil_r. split_and!; [done|constructor|by left].
Qed.

Lemma announced_by w w' m es : indexed w → changed w w' InstanceKind m es →
  map_Forall (λ _, sane) m → Forall sane_event es →
  (∀ mesh app, length (query m (belongs mesh app)) = length (query (items w InstanceKind) (belongs mesh app)) ∨
     ∃ e, e ∈ es ∧ announces e (mesh, app)) →
  announced w w'.
Proof.
  intros Hx Hc Hs He Hcount. split.
  - by eapply indexed_changed.
  - by apply (ch_others _ _ _ _ _ Hc).
  - by rewrite (ch_items _ _ _ _ _ Hc).
  - exists es. split_and!; [apply (ch_sent _ _ _ _ _ Hc)|done|].
    intros mesh app. unfold instances_of. by rewrite (ch_items _ _ _ _ _ Hc).
Qed.

(** The same instance, of the same application, with other details. *)
Definition same_owner (r r' : Resource) : Prop :=
  ResourceKey r' = ResourceKey r ∧ res_kind r' = InstanceKind ∧ (sane r → sane r') ∧
  ∀ mesh app, belongs mesh app r' = belongs mesh app r.

Lemma sane_kind r : sane r → res_kind r = InstanceKind.
Proof. intros (_ & i & Hs & _). unfold res_kind. by rewrite Hs. Qed.

Lemma sane_sent typ old new : Forall sane (option_list old ++ option_list new) →
  sane_event (NewResourceChangedEvent typ old new).
Proof.
  intros Hall r Hr Hk. apply Forall_app in Hall as [Ho Hn].
  assert (Hold : Forall (λ r, res_kind r = InstanceKind) (option_list old))
    by (eapply Forall_impl; [exact Ho|apply sane_kind]).
  split; [|exact Hold]. unfold event_object in Hr. simpl in Hr.
  destruct new as [n|]; simplify_eq; [exact (Forall_inv Hn)|].
  exact (Forall_inv Ho).
Qed.

Lemma update_announced w r r' : indexed w → map_Forall (λ _, sane) (items w InstanceKind) →
  items w InstanceKind !! ResourceKey r = Some r → same_owner r r' →
  ∃ w', writing InstanceKind st_Update r' w = (w', Ok ()) ∧ announced w w' ∧
    announced w (Send (NewResourceChangedEvent Updated (Some r') (Some r')) w').1.
Proof.
  intros Hx Hs Hr (Hkey & Hkind & Hsane & Hb). pose proof (items_self_keyed w InstanceKind (in_ok _ Hx)) as Hsk.
  pose proof (Hsane (Hs _ _ Hr)) as Hs'.
  destruct (writing_Update w r') as (w' & Hw' & Hc); [apply Hx|rewrite Hkind; apply Hx|by rewrite Hkind, Hkey, Hr|].
  rewrite Hkind in Hw', Hc. exists w'. split; [done|].
  assert (Hm : map_Forall (λ _, sane) (<[ResourceKey r' := r']> (items w InstanceKind)))
    by by apply map_Forall_insert_2.
  assert (Hl : ∀ mesh app, length (query (<[ResourceKey r' := r']> (items w InstanceKind)) (belongs mesh app)) =
    length (query (items w InstanceKind) (belongs mesh app))).
  { intros mesh app. by eapply query_insert_same; [done|rewrite Hkey|done|]. }
  split.
  - eapply announced_by; [done|exact Hc|done|constructor|by left].
  - eapply announced_by; [done|apply changed_send, Hc|done| |by left].
    apply Forall_singleton, sane_sent; simpl; auto using Forall_cons_2, Forall_nil_2.
Qed.

Lemma add_announced w r : indexed w → map_Forall (λ _, sane) (items w InstanceKind) →
  items w InstanceKind !! ResourceKey r = None → sane r →
  ∃ w', writing InstanceKind st_Add r w = (w', Ok ()) ∧
    announced w (Send (NewResourceChangedEvent Added None (Some r)) w').1.
Proof.
  intros Hx Hs Hr Hsr. pose proof (items_self_keyed w InstanceKind (in_ok _ Hx)) as Hsk.
  pose proof (sane_kind r Hsr) as Hkind.
  destruct (writing_Add w r) as (w' & Hw' & Hc); [apply Hx|rewrite Hkind; apply Hx|by rewrite Hkind|].
  rewrite Hkind in Hw', Hc. exists w'. split; [done|].
  eapply announced_by; [done|apply changed_send, Hc|by apply map_Forall_insert_2| |].
  - apply Forall_singleton, sane_sent; simpl; auto using Forall_cons_2, Forall_nil_2.
  - intros mesh app. destruct (belongs mesh app r) eqn:Hb.
    + right. eexists. split; [by apply list_elem_of_singleton|]. by exists r.
    + left. rewrite query_insert_other; [done|done|done| |done]. rewrite Hr. by intros ? [=].
Qed.

Lemma delete_announced w r r' : indexed w → map_Forall (λ _, sane) (items w InstanceKind) →
  items w InstanceKind !! ResourceKey r = Some r → same_owner r r' →
  ∃ w', writing InstanceKind st_Delete r' w = (w', Ok ()) ∧
    announced w (Send (NewResourceChangedEvent Deleted (Some r') None) w').1.
Proof.
  intros Hx Hs Hr (Hkey & Hkind & Hsane & Hb). pose proof (items_self_keyed w InstanceKind (in_ok _ Hx)) as Hsk.
  destruct (writing_Delete w InstanceKind r') as (w' & Hw' & Hc); [apply Hx|apply Hx|by rewrite Hkey, Hr|].
  exists w'. split; [done|].
  eapply announced_by; [done|apply changed_send, Hc|by apply map_Forall_delete| |].
  - pose proof (Hsane (Hs _ _ Hr)) as Hs'.
    apply Forall_singleton, sane_sent; simpl; auto using Forall_cons_2, Forall_nil_2.
  - intros mesh app. destruct (belongs mesh app r') eqn:Hbr.
    + right. eexists. split; [by apply list_elem_of_singleton|]. by exists r'.
    + left. rewrite Hkey. rewrite query_delete_other; [done|done|]. rewrite Hr. intros ? [= <-]. by rewrite <-Hb.
Qed.

(** The changes of the code keep an instance with its application. *)
Lemma same_owner_intro r r' i i' : instance_spec r = Some i → res_spec r' = InstanceSpec (Some i') →
  res_Mesh r' = res_Mesh r → res_Name r' = res_Name r →
  inst_AppName i' = inst_AppName i → inst_Name i' = inst_Name i → same_owner r r'.
Proof.
  intros Hi Hi' Hm Hn Ha Hnm. split_and!.
  - unfold ResourceKey. by rewrite Hm, Hn.
  - unfold res_kind. by rewrite Hi'.
  - intros (Hsep & j & Hj & Hb & Hbn & Hname). unfold instance_spec in Hi. rewrite Hj in Hi. injection Hi as ->.
    split; [by rewrite Hm|]. exists i'. by rewrite Ha, Hnm, Hn.
  - intros mesh app. unfold belongs. rewrite Hm, Hi. unfold instance_spec. by rewrite Hi', Ha.
Qed.

Lemma merged_registration_owner rpc r r' : MergeRPCInstanceIntoInstance rpc r = Ok r' → same_owner r r'.
Proof.
  unfold MergeRPCInstanceIntoInstance. intros Hm. destruct (rpc_spec rpc) as [s|]; [|done].
  destruct (instance_spec r) as [i|] eqn:Hi; [|done]. injection Hm as <-. by eapply same_owner_intro.
Qed.
Lemma merged_workload_owner rt r r' : MergeRuntimeInstanceIntoInstance rt r = Ok r' → same_owner r r'.
Proof.
  unfold MergeRuntimeInstanceIntoInstance. intros Hm. destruct (runtime_spec rt) as [s|]; [|done].
  destruct (instance_spec r) as [i|] eqn:Hi; [|done]. injection Hm as <-. by eapply same_owner_intro.
Qed.
Lemma cleared_registration_owner now r : sane r → same_owner r (ClearRPCInstanceFromInstance now r).
Proof.
  intros (_ & i & Hs & _). assert (Hi : instance_spec r = Some i) by (unfold instance_spec; by rewrite Hs).
  unfold ClearRPCInstanceFromInstance. rewrite Hi. by eapply same_owner_intro.
Qed.
Lemma cleared_workload_owner r : sane r → same_owner r (ClearRuntimeInstanceFromInstance r).
Proof.
  intros (_ & i & Hs & _). assert (Hi : instance_spec r = Some i) by (unfold instance_spec; by rewrite Hs).
  unfold ClearRuntimeInstanceFromInstance. rewrite Hi. by eapply same_owner_intro.
Qed.

Lemma same_owner_trans r1 r2 r3 : same_owner r1 r2 → same_owner r2 r3 → same_owner r1 r3.
Proof. intros (H1' & H2' & H3' & H4') (K1 & K2 & K3 & K4). split_and!; [congruence|done|auto|]. intros. by rewrite K4. Qed.

(** [lift] either goes on or fails. *)
Lemma lift_bind {A B} (r : result error A) (f : A → M St B) w :
  (lift r ≫= f) w = match r with Ok a => f a w | Err e => (w, Err e) end.
Proof. by destruct r. Qed.

Lemma instance_is w f n v r i : instance_spec r = Some i → IsBlank (f i) = false →
  indexers w InstanceKind !! n = Some (λ o, s ← assert_spec InstanceKind as_instance o; Ok (index_field s IsBlank f)) →
  index_is (indexers w InstanceKind) n v r = bool_decide (v = f i).
Proof.
  unfold index_is, index_has, assert_spec, instance_spec. intros Hi Hb ->. simpl.
  destruct (res_spec r) as [| |j| | | | | | | | | | | | | |]; try done. subst j. simpl. rewrite Hb. simpl.
  apply bool_decide_ext. set_solver.
Qed.

Section handlers.
Context (w : world St) (Hx : indexed w) (Hs : map_Forall (λ _, sane) (items w InstanceKind)).

(** An instance found in the store. *)
Definition found (o : option Resource) : Prop :=
  ∀ r, o = Some r → items w InstanceKind !! ResourceKey r = Some r.

Lemma keep_or_delete_announced r r' keep : items w InstanceKind !! ResourceKey r = Some r → same_owner r r' →
  announced w (keep_or_delete r' keep w).1.
Proof.
  intros Hr Ho. unfold keep_or_delete. destruct keep.
  - destruct (update_announced w r r' Hx Hs Hr Ho) as (w' & Hw' & _ & Ha). by erewrite bind_ok by exact Hw'.
  - destruct (delete_announced w r r' Hx Hs Hr Ho) as (w' & Hw' & Ha). by erewrite bind_ok by exact Hw'.
Qed.

Lemma related_delete_announced (related : M St (option Resource)) o clear keep :
  related w = (w, Ok o) → found o → (∀ r, sane r → same_owner r (clear r)) →
  announced w ((inst ← related;
    match inst with
    | None => mret ()
    | Some inst => let inst := clear inst in keep_or_delete inst (keep inst)
    end : M St unit) w).1.
Proof.
  intros Hrel Hf Hc. erewrite bind_ok by exact Hrel. destruct o as [r|]; [|by apply announced_refl].
  pose proof (Hf r eq_refl) as Hr. eapply keep_or_delete_announced; [exact Hr|]. apply Hc, (Hs _ _ Hr).
Qed.

Lemma merge_announced r (merge : Resource → result error Resource) :
  items w InstanceKind !! ResourceKey r = Some r → (∀ r', merge r = Ok r' → same_owner r r') →
  announced w ((inst ← lift (merge r); writing InstanceKind st_Update inst : M St unit) w).1.
Proof.
  intros Hr Hm. rewrite lift_bind. destruct (merge r) as [r'|e] eqn:E; [|by apply announced_refl].
  destruct (update_announced w r r' Hx Hs Hr (Hm r' eq_refl)) as (w' & -> & Ha & _). exact Ha.
Qed.

Lemma add_announces r : items w InstanceKind !! ResourceKey r = None → sane r →
  announced w ((_ ← writing InstanceKind st_Add r; Send (NewResourceChangedEvent Added None (Some r)) : M St unit) w).1.
Proof.
  intros Hr Hsr. destruct (add_announced w r Hx Hs Hr Hsr) as (w' & Hw' & Ha). by erewrite bind_ok by exact Hw'.
Qed.

Lemma stored_found k o : o = items w InstanceKind !! k → found o.
Proof. intros -> r Hr. by rewrite (proj1 (items_key w InstanceKind _ _ (in_ok _ Hx) Hr)). Qed.

(** *** Registrations *)
Lemma rpc_related rpc :
  getRelatedInstanceRes rpc w = (w, Ok (items w InstanceKind !! ResourceKey rpc)).
Proof. unfold getRelatedInstanceRes. by rewrite get_typed_ok by apply Hx. Qed.

Lemma from_rpc_sane rpc inst : well_named rpc → rpc_checkAttributeEnough IsBlank rpc = true →
  FromRPCInstance rpc = Ok inst → sane inst ∧ ResourceKey inst = ResourceKey rpc.
Proof.
  intros [Hsep Hn] He Hf. unfold FromRPCInstance, MergeRPCInstanceIntoInstance in Hf.
  destruct (rpc_spec rpc) as [s|] eqn:Hs'; [|done]. injection Hf as <-. destruct (Hn s eq_refl) as [Hn1 Hn2].
  unfold rpc_checkAttributeEnough in He. rewrite Hs' in He. apply negb_true_iff in He.
  repeat (apply orb_false_iff in He as [He _]). split.
  - split; [done|]. eexists. split; [reflexivity|]. split; [done|]. simpl.
    rewrite <-Hn1, Hn2. unfold BuildInstanceResName. split; [by rewrite IsBlank_app, He|]. done.
  - unfold ResourceKey. rewrite Hn2. done.
Qed.

Lemma runtime_lookup inst : ∃ r, getRuntimeInstanceForInstance inst w = (w, r).
Proof.
  unfold getRuntimeInstanceForInstance, reading. destruct (instance_spec inst); [|by eexists].
  destruct (ResourceKindRoute _ _ ≫= _) as [[|x l]|]; [by eexists| |by eexists].
  destruct (list_find _ _) as [[? ?]|]; [by eexists|]. case_match; by eexists.
Qed.

Lemma runtime_merge engineType inst :
  ∃ r, findRelatedRuntimeInstanceAndMerge engineType inst w = (w, r) ∧
    ∀ inst', r = Ok inst' → inst' = inst ∨ same_owner inst inst'.
Proof.
  unfold findRelatedRuntimeInstanceAndMerge. case_decide; [|eexists; split; [done|]; naive_solver].
  destruct (runtime_lookup inst) as [r Hr]. unfold mbind, M_bind. rewrite Hr.
  destruct r as [[rt|]|e]; [|eexists; split; [done|]; naive_solver..].
  eexists. split; [done|]. intros inst' Hm. right. by eapply merged_workload_owner.
Qed.

Lemma rpc_upsert_announced engineType rpc : well_named rpc →
  announced w (rpc_processUpsert IsBlank engineType rpc w).1.
Proof.
  intros Hn. unfold rpc_processUpsert. destruct (rpc_checkAttributeEnough IsBlank rpc) eqn:He; [|by apply announced_refl].
  erewrite bind_ok by apply rpc_related. unfold rpc_upsert_related.
  destruct (items w InstanceKind !! ResourceKey rpc) as [r|] eqn:Hr.
  - apply merge_announced; [|apply merged_registration_owner].
    by rewrite (proj1 (items_key w InstanceKind _ _ (in_ok _ Hx) Hr)).
  - rewrite lift_bind. destruct (FromRPCInstance rpc) as [inst|e] eqn:Hf; [|by apply announced_refl].
    destruct (from_rpc_sane rpc inst Hn He Hf) as [Hsane Hkey].
    destruct (runtime_merge engineType inst) as (r & Hm & Hsame). unfold mbind at 1, M_bind at 1. rewrite Hm.
    destruct r as [inst'|e]; [|by apply announced_refl]. destruct (Hsame inst' eq_refl) as [->|Ho].
    + apply add_announces; [by rewrite Hkey|done].
    + destruct Ho as (Hk & _ & Hs' & _). apply add_announces; [by rewrite Hk, Hkey|by apply Hs'].
Qed.

Lemma rpc_delete_announced now rpc : announced w (rpc_processDelete now rpc w).1.
Proof.
  unfold rpc_processDelete. apply (related_delete_announced _ (items w InstanceKind !! ResourceKey rpc)).
  - apply rpc_related.
  - by eapply stored_found.
  - apply cleared_registration_owner.
Qed.

(** *** Workloads *)
Lemma by_ip_found s : ∃ o, getRelatedInstanceByIP s w = (w, Ok o) ∧ found o.
Proof.
  unfold getRelatedInstanceByIP.
  erewrite bind_ok; [|apply (list_typed_ok w InstanceKind [(ByInstanceIpIndex, rt_Ip s)]);
    [apply Hx|apply Hx|done|eapply indexed_by; [apply Hx|constructor]]].
  eexists. split; [done|]. intros r Hr%the_only_elem.
  rewrite elem_of_query in Hr by (apply items_self_keyed, Hx). apply Hr.
Qed.

(** The instance of a runtime instance that says what it runs. *)
Definition identity_key (rt : Resource) (s : RuntimeInstance) : string :=
  BuildResourceKey (res_Mesh rt) (rt_instance_name s).

Lemma stored_identity rt s r : no_sep (res_Mesh rt) → items w InstanceKind !! identity_key rt s = Some r →
  ∃ i, res_Mesh r = res_Mesh rt ∧ instance_spec r = Some i ∧ inst_Name i = rt_instance_name s ∧ IsBlank (inst_Name i) = false.
Proof.
  intros Hsep Hr. destruct (Hs _ _ Hr) as (Hsep' & i & Hi & _ & Hb & Hn).
  pose proof (proj1 (items_key w InstanceKind _ _ (in_ok _ Hx) Hr)) as Hk.
  apply BuildResourceKey_inj in Hk as [Hm Hk]; [|done..]. exists i. unfold instance_spec. rewrite Hi.
  split_and!; [done|done|congruence|done].
Qed.

Lemma by_name_found rt : no_sep (res_Mesh rt) →
  ∃ o, getRelatedInstanceByName IsBlank rt w = (w, Ok o) ∧ found o ∧
    (o = None → ∀ s, runtime_spec rt = Some s → rt_identified IsBlank rt s = true → IsBlank (res_Mesh rt) = false →
       items w InstanceKind !! identity_key rt s = None).
Proof.
  intros Hsep. unfold getRelatedInstanceByName. destruct (runtime_spec rt) as [s|]; [|by exists None].
  destruct (rt_identified IsBlank rt s) eqn:Hid; [|exists None; split_and!; [done|done|intros _ s' [= <-]; congruence]].
  pose proof (items_self_keyed w InstanceKind (in_ok _ Hx)) as Hsk.
  erewrite bind_ok; [|apply (list_typed_ok w InstanceKind [(ByInstanceNameIndex, rt_instance_name s)]);
    [apply Hx|apply Hx|done|eapply indexed_by; [apply Hx|constructor]]].
  eexists. split; [done|]. split.
  { intros r Hr%the_only_elem. rewrite list_elem_of_filter, elem_of_query in Hr by done. apply Hr. }
  intros Hnone s' [= <-] _ Hb. destruct (items w InstanceKind !! identity_key rt s) as [r|] eqn:Hr; [|done].
  rewrite (the_only_spec _ (Some r)) in Hnone; [done|by apply NoDup_filter, NoDup_query|].
  assert (Hall : ∀ x i, instance_spec x = Some i → IsBlank (inst_Name i) = false →
    all_are (indexers w InstanceKind) [(ByInstanceNameIndex, rt_instance_name s)] x =
      bool_decide (rt_instance_name s = inst_Name i)).
  { intros x i Hi Hbn. unfold all_are. simpl. rewrite andb_true_r.
    eapply (instance_is w inst_Name); [done|done|apply Hx]. }
  destruct (stored_identity rt s r Hsep Hr) as (i & Hm & Hi & Hn & Hbn).
  pose proof (proj1 (items_key w InstanceKind _ _ (in_ok _ Hx) Hr)) as Hk.
  intros x. rewrite list_elem_of_filter, elem_of_query by done. split.
  - intros ([?|Hmx] & Hst & Hq); [congruence|]. destruct (Hs _ _ Hst) as (_ & j & Hj & _ & Hbj & Hnj).
    assert (Hjx : instance_spec x = Some j) by (unfold instance_spec; by rewrite Hj).
    rewrite (Hall x j Hjx Hbj), Hnj in Hq. apply bool_decide_eq_true in Hq.
    assert (ResourceKey x = identity_key rt s) as Hkx by (unfold ResourceKey, identity_key; by rewrite Hmx, Hq).
    rewrite Hkx, Hr in Hst. by simplify_eq.
  - intros [= <-]. split; [by right|]. rewrite Hk. split; [done|]. rewrite (Hall r i Hi Hbn).
    by apply bool_decide_eq_true.
Qed.

Lemma rt_related rt : no_sep (res_Mesh rt) →
  ∃ o, getRelatedInstance IsBlank rt w = (w, Ok o) ∧ found o ∧
    (o = None → ∀ s, runtime_spec rt = Some s → rt_checkAttributesEnough IsBlank rt = true →
       items w InstanceKind !! identity_key rt s = None).
Proof.
  intros Hsep. unfold getRelatedInstance. destruct (runtime_spec rt) as [s|] eqn:Hrs; [|by exists None].
  destruct (by_name_found rt Hsep) as (o & Hon & Hfn & Hnn). destruct (by_ip_found s) as (o' & Hip & Hfi).
  assert (Hen : rt_checkAttributesEnough IsBlank rt = true → rt_identified IsBlank rt s = true ∧
    IsBlank (res_Mesh rt) = false ∧ DefaultMesh ≠ res_Mesh rt).
  { unfold rt_checkAttributesEnough. rewrite Hrs. intros [Hi Hm%negb_true_iff]%andb_true_iff.
    by apply orb_false_iff in Hm as [? ?%bool_decide_eq_false]. }
  case_decide.
  2: { exists o. split_and!; [done|done|]. intros -> s' [= <-] He. destruct (Hen He) as (? & ? & _). by apply Hnn. }
  unfold getRelatedKubernetesInstance, hasRuntimeIdentity. rewrite Hrs.
  destruct (rt_identified IsBlank rt s && negb (IsBlank (res_Mesh rt))) eqn:Hid.
  - assert (Hg : ∃ k, (if negb (IsBlank (res_Mesh rt)) && bool_decide (DefaultMesh ≠ res_Mesh rt)
        then get_typed InstanceKind (res_Mesh rt) (rt_instance_name s) instance_assertion
        else mret None : M St (option Resource)) w = (w, Ok k) ∧ found k ∧
        (k = None → rt_checkAttributesEnough IsBlank rt = true → items w InstanceKind !! identity_key rt s = None)).
    { destruct (negb _ && _) eqn:Hmesh.
      - rewrite get_typed_ok by apply Hx. eexists. split; [done|]. split; [by eapply stored_found|done].
      - exists None. split_and!; [done|done|]. intros _ (_ & Hb & Hd)%Hen.
        by rewrite Hb, bool_decide_eq_true_2 in Hmesh by done. }
    destruct Hg as (k & Hg & Hfk & Hkn). erewrite bind_ok by exact Hg. destruct k as [r|].
    { exists (Some r). by split_and!. }
    erewrite bind_ok by exact Hon. destruct o as [r|].
    { exists (Some r). by split_and!. }
    exists o'. split_and!; [done|done|]. intros -> s' [= <-]. by apply Hkn.
  - exists o'. split_and!; [done|done|]. intros _ s' _ (Hi & Hb & _)%Hen. by rewrite Hi, Hb in Hid.
Qed.

Lemma from_runtime_sane rt s inst : no_sep (res_Mesh rt) → runtime_spec rt = Some s →
  rt_checkAttributesEnough IsBlank rt = true →
  FromRuntimeInstance rt = Ok inst → sane inst ∧ ResourceKey inst = identity_key rt s.
Proof.
  intros Hsep Hrs He Hf. unfold FromRuntimeInstance, MergeRuntimeInstanceIntoInstance in Hf. rewrite Hrs in Hf.
  injection Hf as <-. unfold rt_checkAttributesEnough, rt_identified in He. rewrite Hrs in He.
  apply andb_true_iff in He as [He%negb_true_iff _]. repeat (apply orb_false_iff in He as [He _]).
  split; [|done]. split; [done|]. eexists. split; [reflexivity|]. split; [done|]. simpl.
  split; [|done]. unfold BuildInstanceResName. by rewrite IsBlank_app, He.
Qed.

Lemma rt_upsert_announced rt : no_sep (res_Mesh rt) → announced w (rt_processUpsert IsBlank rt w).1.
Proof.
  intros Hsep. unfold rt_processUpsert. destruct (rt_related rt Hsep) as (o & Ho & Hf & Hn).
  erewrite bind_ok by exact Ho. unfold rt_upsert_related. destruct o as [r|].
  - apply merge_announced; [by apply Hf|apply merged_workload_owner].
  - destruct (rt_checkAttributesEnough IsBlank rt) eqn:He; [|by apply announced_refl].
    rewrite lift_bind. destruct (FromRuntimeInstance rt) as [inst|e] eqn:Hfr; [|by apply announced_refl].
    assert (∃ s, runtime_spec rt = Some s) as [s Hrs]
      by (unfold FromRuntimeInstance in Hfr; destruct (runtime_spec rt); by eauto).
    destruct (from_runtime_sane rt s inst Hsep Hrs He Hfr) as [Hsane Hkey].
    apply add_announces; [|done]. rewrite Hkey. by apply Hn.
Qed.

Lemma rt_delete_announced rt : no_sep (res_Mesh rt) → announced w (rt_processDelete IsBlank rt w).1.
Proof.
  intros Hsep. destruct (rt_related rt Hsep) as (o & Ho & Hf & _).
  unfold rt_processDelete. apply (related_delete_announced _ o); [done|done|apply cleared_workload_owner].
Qed.
End handlers.

Lemma report_announced w what err e up down : indexed w → map_Forall (λ _, sane) (items w InstanceKind) →
  (∀ r, ev_newObj e = Some r → announced w (up r w).1) → (∀ r, ev_oldObj e = Some r → announced w (down r w).1) →
  announced w (process_change what err e (ev_newObj e) (ev_oldObj e) up down w).1.
Proof.
  intros Hx Hs Hup Hdown. unfold process_change.
  destruct (ev_typ e); try (destruct (ev_newObj e) as [r|]; [by apply Hup|by apply announced_refl]).
  - destruct (ev_oldObj e) as [r|]; [by apply Hdown|by apply announced_refl].
  - by apply announced_refl.
Qed.

Lemma expect_cases k failed o : expect k failed o = Ok o ∨ ∃ e, expect k failed o = Err e.
Proof. unfold expect. destruct o as [r|]; [case_decide|]; eauto. Qed.

Lemma expected_announced w k failed failed' e (m : option Resource → option Resource → M St unit) :
  indexed w → map_Forall (λ _, sane) (items w InstanceKind) → announced w (m (ev_newObj e) (ev_oldObj e) w).1 →
  announced w ((newObj ← lift (expect k failed (ev_newObj e));
                oldObj ← lift (expect k failed' (ev_oldObj e)); m newObj oldObj : M St unit) w).1.
Proof.
  intros Hx Hs Hm. rewrite lift_bind.
  destruct (expect_cases k failed (ev_newObj e)) as [->|[er ->]]; [|by apply announced_refl].
  rewrite lift_bind. destruct (expect_cases k failed' (ev_oldObj e)) as [->|[er ->]]; [done|by apply announced_refl].
Qed.

Lemma well_named_objects e r : well_named_event e → ev_newObj e = Some r ∨ ev_oldObj e = Some r → well_named r.
Proof.
  intros [Ho Hn]%Forall_app [Hr|Hr]; rewrite Hr in *; [exact (Forall_inv Hn)|exact (Forall_inv Ho)].
Qed.

Lemma announced_reported w w' : base w → announced w w' →
  ∃ es, reported base sane_event announces plain_mesh population application w w' es.
Proof.
  intros [Hx Hs Ha] [Hx' Happs Hs' (es & Hsent & Hes & Hlen)]. exists es. split; [|done|done|..].
  - split; [done|done|by rewrite Happs].
  - intros x _. unfold application. by rewrite Happs.
  - intros [mesh app] _. apply Hlen.
Qed.

(** ** Counting *)
Lemma belongs_index w x mesh app : indexed w → sane x →
  all_are (indexers w InstanceKind) [(ByMeshIndex, mesh); (ByInstanceAppNameIndex, app)] x = belongs mesh app x.
Proof.
  intros Hx (_ & i & Hi & Hb & _). assert (Hsp : instance_spec x = Some i) by (unfold instance_spec; by rewrite Hi).
  unfold all_are. simpl. rewrite andb_true_r. unfold belongs. rewrite Hsp. f_equal.
  - unfold index_is. rewrite (in_mesh _ Hx). unfold index_has, ByMesh. apply bool_decide_ext. set_solver.
  - rewrite (instance_is w inst_AppName _ _ _ i Hsp Hb (in_app _ Hx)). by apply bool_decide_ext.
Qed.

Lemma list_instances w mesh app : indexed w → map_Forall (λ _, sane) (items w InstanceKind) →
  list_or_empty [equals ByMeshIndex mesh; equals ByInstanceAppNameIndex app] w = (w, Ok (instances_of w mesh app)).
Proof.
  intros Hx Hs. destruct (world_store w InstanceKind (in_ok _ Hx)) as (s & Hst & Hok & _ & Hi & Hxs); [apply Hx|].
  unfold list_or_empty, reading, ResourceKindRoute. rewrite Hst. cbn [mbind result_bind].
  pose proof (st_ListByIndexes_spec s [(ByMeshIndex, mesh); (ByInstanceAppNameIndex, app)] Hok) as Hq. csimpl in Hq.
  rewrite Hi, Hxs in Hq. rewrite Hq.
  - do 2 f_equal. apply query_ext; [apply items_self_keyed, Hx|]. intros k r Hr. by apply belongs_index, (Hs _ _ Hr).
  - done.
  - eapply indexed_by; [apply Hx|]. eapply indexed_by; [apply Hx|constructor].
Qed.

Definition app_key (r : Resource) (i : Instance_) : string := BuildResourceKey (res_Mesh r) (inst_AppName i).

(** What processing an announcement does: the application of the instance
    gets the current count. *)
Lemma instance_changed_ok w r i : indexed w → map_Forall (λ _, sane) (items w InstanceKind) →
  map_Forall (λ _ r, is_Some (count_of r)) (items w ApplicationKind) → sane r → instance_spec r = Some i →
  ∃ w' app es, instance_changed r w = (w', Ok ()) ∧
    changed w w' ApplicationKind (<[app_key r i := app]> (items w ApplicationKind)) es ∧
    count_of app = Some (Z.of_nat (length (instances_of w (res_Mesh r) (inst_AppName i)))) ∧
    (es = [] ∨ es = [NewResourceChangedEvent Added None (Some app)]) ∧ res_kind app = ApplicationKind.
Proof.
  intros Hx Hs Ha Hsane Hi. unfold instance_changed. rewrite Hi.
  erewrite bind_ok by by apply list_instances. cbn beta zeta.
  erewrite bind_ok by (apply get_typed_ok; apply Hx). fold (app_key r i).
  set (n := Z.of_nat (length (instances_of w (res_Mesh r) (inst_AppName i)))).
  destruct (items w ApplicationKind !! app_key r i) as [app|] eqn:Happ.
  - destruct (Ha _ _ Happ) as [c Hcnt]. unfold count_of in Hcnt.
    destruct (items_key w ApplicationKind _ _ (in_ok _ Hx) Happ) as [Hk Hkind].
    destruct (res_spec app) as [[a|]| | | | | | | | | | | | | | | |] eqn:Hsp; try done.
    rewrite lift_bind. unfold with_count. rewrite Hsp.
    set (app' := {| res_meta := res_meta app; res_Mesh := res_Mesh app; res_spec := _ |}).
    destruct (writing_Update w app') as (w' & Hw' & Hch); [apply Hx|apply Hx|..].
    { change (is_Some (items w ApplicationKind !! ResourceKey app)). by rewrite Hk, Happ. }
    exists w', app', []. change (ResourceKey app') with (ResourceKey app) in Hch. rewrite Hk in Hch.
    change (res_kind app') with ApplicationKind in Hch.
    split_and!; [done|done|done|by left|done].
  - destruct (writing_Add w (BuildAppResource (res_Mesh r) (inst_AppName i) n)) as (w' & Hw' & Hch); [apply Hx|apply Hx|done|].
    eexists _, _, [_]. erewrite bind_ok by exact Hw'.
    split; [reflexivity|]. split; [exact (changed_send _ _ _ _ _ _ Hch)|]. split_and!; [done|by right|done].
Qed.

Lemma event_kinds e r : sane_event e → event_object e = Some r → res_kind r = InstanceKind →
  ∀ w, inst_ProcessEvent res_String e w = instance_changed r w.
Proof.
  intros Hsn Hr Hk w. destruct (Hsn r Hr Hk) as [_ Hold]. unfold inst_ProcessEvent, event_object in *.
  rewrite !lift_bind. unfold expect. destruct (ev_newObj e) as [n|]; simplify_eq.
  - rewrite decide_True by done. rewrite lift_bind. destruct (ev_oldObj e) as [o|]; [|done].
    by rewrite decide_True by exact (Forall_inv Hold).
  - rewrite Hr. rewrite lift_bind. by rewrite decide_True.
Qed.

Lemma base_seen w o : base w → base o → base (with_source InstanceKind w (w_stores o !! InstanceKind)).
Proof.
  intros [[Hw [Hi Ha] Hm Happ Hip Hn] Hs Hc] [[Hw' [Hi' Ha'] Hm' Happ' Hip' Hn'] Hs' Hc'].
  split; [split; rewrite ?seen_indexers; try done; [by apply seen_ok|split; by apply seen_kinds]|..]; by rewrite seen_items.
Qed.

Lemma announces_decide e x : announces e x ∨ ¬ announces e x.
Proof.
  unfold announces. destruct (event_object e) as [r|]; [|right; by intros (? & [=] & _)].
  destruct (decide (res_kind r = InstanceKind ∧ belongs x.1 x.2 r = true)) as [[? ?]|Hn]; [left; by exists r|].
  right. by intros (? & [= <-] & ?).
Qed.

Lemma counter_ok :
  subscriber_ok counter InstanceKind base sane_event announces plain_mesh population application shows_count.
Proof.
  split.
  - intros e x (r & Hr & Hk & _). unfold is_about. by rewrite Hr, bool_decide_eq_true_2.
  - apply announces_decide.
  - apply base_seen.
  - intros w o x. unfold population, instances_of. by rewrite seen_items.
  - intros w s x. unfold application. by rewrite seen_other.
  - intros w e [Hx Hs Ha] He Hk. unfold is_about in Hk.
    destruct (event_object e) as [r|] eqn:Hr; [|done]. apply bool_decide_eq_true in Hk.
    rewrite (event_kinds e r He Hr Hk). destruct (He r Hr Hk) as [Hsane _].
    pose proof Hsane as (Hsep & i & Hi & _). assert (Hsp : instance_spec r = Some i) by (unfold instance_spec; by rewrite Hi).
    destruct (instance_changed_ok w r i Hx Hs Ha Hsane Hsp) as (w' & app & new & -> & Hch & Hcnt & Hnew & Happ).
    pose proof (ch_items _ _ _ _ _ Hch) as Hia. cbn [fst].
    assert (Hii : items w' InstanceKind = items w InstanceKind) by (by apply (ch_others _ _ _ _ _ Hch)).
    split_and!.
    + split; [by eapply indexed_changed|by rewrite Hii|]. rewrite Hia. apply map_Forall_insert_2; [by eexists|done].
    + exists new. split; [apply (ch_sent _ _ _ _ _ Hch)|].
      destruct Hnew as [-> | ->]; [by constructor|]. apply Forall_singleton. unfold is_about. simpl. by rewrite Happ.
    + intros x. unfold population, instances_of. by rewrite Hii.
    + intros [mesh a] _ (x & Hx' & _ & Hb). rewrite Hr in Hx'. injection Hx' as <-. simpl in *.
      unfold belongs in Hb. rewrite Hsp in Hb.
      apply andb_true_iff in Hb as [<-%bool_decide_eq_true <-%bool_decide_eq_true].
      unfold up_to_date, application, population, instances_of. rewrite Hia, Hii. simpl. fold (app_key r i).
      by rewrite lookup_insert_eq.
    + intros [mesh a] Hsep' Hn. unfold application. rewrite Hia. simpl. apply lookup_insert_ne.
      unfold app_key. intros [? ?]%BuildResourceKey_inj; [|done|done]. apply Hn. exists r. split_and!; [done..|].
      unfold belongs. simpl. rewrite Hsp. apply andb_true_iff. split; by apply bool_decide_eq_true.
Qed.

Abbreviation consistent :=
  (consistent InstanceKind base sane_event announces plain_mesh population application shows_count).

Lemma step_consistent q q' : step q q' → consistent q → consistent q'.
Proof.
  intros Hstep Hcons. pose proof (cn_base _ _ _ _ _ _ _ _ _ Hcons) as Hb. pose proof Hb as [Hx Hs _].
  destruct Hstep as [q engineType now e He|q e He|q q' Hd].
  - destruct (announced_reported (qu_world q) (rpc_ProcessEvent IsBlank res_String engineType now e (qu_world q)).1 Hb)
      as [es Hr]; [|by eapply consistent_act; [apply counter_ok|done|exact Hr]].
    unfold rpc_ProcessEvent.
    apply (expected_announced (qu_world q) _ _ _ e (λ n o, process_change "rpc instance" (biz_new EventError) e n o
      (rpc_processUpsert IsBlank engineType) (rpc_processDelete now))); [done|done|].
    apply report_announced; [done|done| |].
    + intros r Hr. apply rpc_upsert_announced; [done|done|]. by eapply well_named_objects; [|left].
    + intros r Hr. by apply rpc_delete_announced.
  - destruct (announced_reported (qu_world q) (rt_ProcessEvent IsBlank e (qu_world q)).1 Hb)
      as [es Hr]; [|by eapply consistent_act; [apply counter_ok|done|exact Hr]].
    unfold rt_ProcessEvent.
    apply (expected_announced (qu_world q) _ _ _ e (λ n o, process_change "runtime instance" ErrorText e n o
      (rt_processUpsert IsBlank) (rt_processDelete IsBlank))); [done|done|].
    apply report_announced; [done|done| |].
    + intros r Hr. apply rt_upsert_announced; [done|done|]. apply (well_named_objects e r He). by left.
    + intros r Hr. apply rt_delete_announced; [done|done|]. apply (well_named_objects e r He). by right.
  - by eapply drains_consistent; [apply counter_ok|done|].
Qed.

End counts.

(** ** Two registrations of one application *)
Module CountsExample.
#[local] Existing Instance RefStore.ops.
#[local] Existing Instance RefStore.laws.
#[local] Existing Instance RefStore_queries.

Definition is_blank (s : string) : bool := bool_decide (s = "").

Definition empty_store (k : ResourceKind) (idx : Indexers) : RefStore.store :=
  {| RefStore.kind := k; RefStore.indexers := idx; RefStore.items := ∅ |}.

Definition start : world RefStore.store :=
  {| w_stores := {[
       InstanceKind := empty_store InstanceKind {[
         ByMeshIndex := ByMesh; ByInstanceAppNameIndex := byInstanceAppName is_blank;
         ByInstanceIpIndex := byInstanceIp is_blank; ByInstanceNameIndex := byInstanceName is_blank ]};
       ApplicationKind := empty_store ApplicationKind ∅ ]};
     w_sent := [] |}.

Definition registration (app ip : string) : Resource :=
  {| res_meta := {| meta_Name := BuildInstanceResName app ip 20880; meta_Labels := None; meta_Annotations := None |};
     res_Mesh := "nacos";
     res_spec := RPCInstanceSpec (Some
       {| rpc_Name := BuildInstanceResName app ip 20880; rpc_Ip := ip; rpc_Port := 20880; rpc_AppName := app;
          rpc_RegisterTime := "t"; rpc_UnregisterTime := ""; rpc_Revision := "";
          rpc_MetadataStorageType := ""; rpc_ReleaseVersion := ""; rpc_Protocol := "tri";
          rpc_Serialization := ""; rpc_PreferSerialization := ""; rpc_Tags := ∅; rpc_Endpoints := [];
          rpc_Metadata := ∅ |}) |}.

Definition registers (app ip : string) : M RefStore.store unit :=
  rpc_ProcessEvent is_blank res_Name "mock" "now" (NewResourceChangedEvent Added None (Some (registration app ip))).

Abbreviation system := (queued RefStore.store).
Abbreviation counter := (inst_ProcessEvent res_Name).

(** The counting goroutine has listed one instance when the other is handled. *)
Definition q1 : system := read_source InstanceKind (take_event (act InstanceKind 4 (registers "shop" "10.0.0.1") (opened start))).
Definition q2 : system := act InstanceKind 4 (registers "shop" "10.0.0.2") q1.

Lemma start_indexed : indexed is_blank start.
Proof.
  split; [|unfold start; cbn [w_stores]; set_solver|reflexivity..].
  intros k s Hs. unfold start in Hs. cbn [w_stores] in Hs.
  apply lookup_insert_Some in Hs as [[<- <-]|[_ Hs]]; [split; [by apply map_Forall_empty|done]|].
  apply lookup_singleton_Some in Hs as [<- <-]. split; [by apply map_Forall_empty|done].
Qed.

Lemma registration_named app ip : well_named_event (NewResourceChangedEvent Added None (Some (registration app ip))).
Proof. apply Forall_singleton. split; [done|]. by intros s [= <-]. Qed.

Lemma is_blank_app a b : is_blank (a +:+ b) = is_blank a && is_blank b.
Proof. unfold is_blank. by destruct a. Qed.

Lemma reports q cap app ip : step is_blank res_Name cap q (act InstanceKind cap (registers app ip) q).
Proof. apply (step_rpc _ _ _ q "mock" "now"), registration_named. Qed.

Lemma q2_reachable : rtc (step is_blank res_Name 4) (opened start) q2.
Proof.
  eapply rtc_l; [apply (reports _ _ "shop" "10.0.0.1")|].
  eapply rtc_l; [apply step_drains, drains_take|]. eapply rtc_l; [apply step_drains, drains_read|].
  apply rtc_once, (reports _ _ "shop" "10.0.0.2").
Qed.

Definition stored_count (app : string) (q : system) : option Z :=
  items (qu_world q) ApplicationKind !! BuildResourceKey "nacos" app ≫= count_of.


(** With room for one event, the announcement of a second application is
    dropped when it comes before the first one is taken: the application is not
    even stored when the channel is empty. *)
Definition q3 : system :=
  act InstanceKind 1 (registers "cart" "10.0.0.9") (act InstanceKind 1 (registers "shop" "10.0.0.1") (opened start)).

Lemma announcement_dropped :
  rtc (step is_blank res_Name 1) (opened start) q3 ∧
  let q' := drainer_turns counter InstanceKind 1 (length (unhandled q3)) q3 in
  unhandled q' = [] ∧ stored_count "shop" q' = Some 1 ∧
  length (instances_of (qu_world q') "nacos" "cart") = 1%nat ∧ stored_count "cart" q' = None.
Proof.
  split; [|by vm_compute]. eapply rtc_l; [apply (reports _ _ "shop" "10.0.0.1")|]. apply rtc_once, (reports _ _ "cart" "10.0.0.9").
Qed.
End CountsExample.
