(* ===== verification/ServiceCatalog.v ===== *)
(** The catalogue of services, derived from what providers publish:
    pkg/core/discovery/subscriber/service_provider_metadata.go and the key
    functions of service_helper.go. *)
From S2P Require Import Prelude GoStrings Errors Resource Libs Indexers Store Queries EventBus Subscribers Settling.
From Stdlib Require Import Ascii.

Open Scope string_scope.
Open Scope list_scope.

(** ** service_helper.go *)
Definition BuildServiceKey (serviceName version group appName : string) : string :=
  serviceName +:+ ":" +:+ version +:+ ":" +:+ group +:+ ":" +:+ appName.
Definition BuildServiceIdentityKey (serviceName version group : string) : string :=
  serviceName +:+ ":" +:+ version +:+ ":" +:+ group.

Definition provider_spec (r : Resource) : option ServiceProviderMetadata :=
  match res_spec r with ServiceProviderMetadataSpec s => s | _ => None end.

(** ** The description of a service *)
Definition isJavaTypeHint (typeName : string) : bool :=
  let typeName := str_lower typeName in has_prefix typeName "java." || str_has typeName ".java.".

Definition methodHasJavaTypeHint (m : Method) : bool :=
  existsb isJavaTypeHint (method_ParameterTypes m) || isJavaTypeHint (method_ReturnType m) ||
  existsb (λ p, isJavaTypeHint p.2) (method_Parameters m).

Section service.
Context `{MapRange}.

Definition metadataTypeHasJavaHint (t : MetadataType) : bool :=
  isJavaTypeHint (typ_Type t) || existsb isJavaTypeHint (typ_Items t) ||
  existsb isJavaTypeHint (go_range (typ_Properties t)).*2.

Definition looksLikeDubboGo (s : ServiceProviderMetadata) : bool :=
  let release := str_lower (default "" (spm_Parameters s !! "release")) in
  has_prefix release "dubbo-golang-" || has_prefix release "dubbo-go-".
Definition looksLikeDubboJava (s : ServiceProviderMetadata) : bool :=
  existsb methodHasJavaTypeHint (spm_Methods s) || existsb metadataTypeHasJavaHint (spm_Types s).

Definition inferProviderLanguage (s : ServiceProviderMetadata) : string :=
  let language := default "" (spm_Parameters s !! "language") in
  if decide (language ≠ "") then language
  else if looksLikeDubboGo s then "golang"
  else if looksLikeDubboJava s then "java" else "".

(** The loop over the providers: the language and the set of method names. *)
Definition describe (acc : string * gmap string unit) (provider : Resource) : string * gmap string unit :=
  match provider_spec provider with
  | None => acc
  | Some s =>
      let '(language, methodSet) := acc in
      (if decide (language = "") then inferProviderLanguage s else language,
       foldl (λ set m, if decide (method_Name m = "") then set else <[method_Name m := ()]> set)
         methodSet (spm_Methods s))
  end.

Definition buildServiceSpec (serviceName version group : string) (providers : list Resource) : Service :=
  let '(language, methodSet) := foldl describe ("", ∅) providers in
  {| svc_Name := serviceName; svc_Group := group; svc_Version := version; svc_Language := language;
     svc_Methods := sort_strings (go_range methodSet).*1 |}.

Definition NewServiceResourceWithAttributes (name mesh : string) (spec : Service) : Resource :=
  {| res_meta := {| meta_Name := name; meta_Labels := Some ∅; meta_Annotations := None |};
     res_Mesh := mesh; res_spec := ServiceSpec (Some spec) |}.
Definition NewApplicationResourceWithAttributes (name mesh : string) : Resource :=
  {| res_meta := {| meta_Name := name; meta_Labels := Some ∅; meta_Annotations := None |};
     res_Mesh := mesh; res_spec := ApplicationSpec (Some {| app_Name := name; app_InstanceCount := 0 |}) |}.

(** ** The subscriber *)
Definition ByServiceProviderServiceKey : string := "idx_service_provider_service_key".
Definition ByMeshIndex : string := "idx_mesh".

Context {St : Type} `{ResourceStore St}.
Context (res_String : Resource → string).

Definition ensureApplication (mesh : string) (s : ServiceProviderMetadata) : M St unit :=
  if decide (spm_ProviderAppName s = "") then mret ()
  else
    found ← reading ApplicationKind (λ st, st_GetByKey st (BuildResourceKey mesh (spm_ProviderAppName s)));
    match found with
    | Some _ => mret ()
    | None =>
        let app := NewApplicationResourceWithAttributes (spm_ProviderAppName s) mesh in
        _ ← writing ApplicationKind st_Add app;
        Send (NewResourceChangedEvent Added None (Some app))
    end.

Definition syncService (mesh serviceName version group : string) : M St unit :=
  let serviceKey := BuildServiceIdentityKey serviceName version group in
  providers ← list_typed ServiceProviderMetadataKind
    [equals ByMeshIndex mesh; equals ByServiceProviderServiceKey serviceKey]
    (NewAssertionError (kind_string ServiceProviderMetadataKind) "");
  oldRes ← get_typed ServiceKind mesh serviceKey (NewAssertionError (kind_string ServiceKind) "");
  match providers, oldRes with
  | [], None => mret ()
  | [], Some old =>
      _ ← writing ServiceKind st_Delete old;
      Send (NewResourceChangedEvent Deleted (Some old) None)
  | _, None =>
      let res := NewServiceResourceWithAttributes serviceKey mesh (buildServiceSpec serviceName version group providers) in
      _ ← writing ServiceKind st_Add res;
      Send (NewResourceChangedEvent Added None (Some res))
  | _, Some old =>
      let res := NewServiceResourceWithAttributes serviceKey mesh (buildServiceSpec serviceName version group providers) in
      _ ← writing ServiceKind st_Update res;
      Send (NewResourceChangedEvent Updated (Some old) (Some res))
  end.

Definition no_spec : error := biz_new UnknownError "provider metadata resource spec is nil".

(** [processUpsert] and [processUpdate] do the same. *)
Definition processUpsert (r : Resource) : M St unit :=
  match provider_spec r with
  | None => fail no_spec
  | Some s =>
      _ ← ensureApplication (res_Mesh r) s;
      syncService (res_Mesh r) (spm_ServiceName s) (spm_Version s) (spm_Group s)
  end.

Definition processDelete (r : Resource) : M St unit :=
  match provider_spec r with
  | None => fail no_spec
  | Some s => syncService (res_Mesh r) (spm_ServiceName s) (spm_Version s) (spm_Group s)
  end.

Definition ProcessEvent (event : Event) : M St unit :=
  let failed r := NewAssertionError "*v1alpha1.ServiceProviderMetadataResource" (res_String r) in
  let missing what := biz_new EventError
    ("process provider metadata resource " +:+ what +:+ " obj is nil, skipped processing") in
  newObj ← lift (expect ServiceProviderMetadataKind failed (ev_newObj event));
  oldObj ← lift (expect ServiceProviderMetadataKind failed (ev_oldObj event));
  match ev_typ event with
  | Added | Replaced | Sync =>
      match newObj with None => fail (missing "upsert event, but new") | Some r => processUpsert r end
  | Updated =>
      match newObj with None => fail (missing "update event, but new") | Some r => processUpsert r end
  | Deleted =>
      match oldObj with None => fail (missing "delete event, but old") | Some r => processDelete r end
  | OtherDelta _ => mret ()
  end.
End service.

(** ** The catalogue *)
Record service_id := { sv_Mesh : string; sv_Name : string; sv_Version : string; sv_Group : string }.
#[export] Instance service_id_eq_dec : EqDecision service_id.
Proof. solve_decision. Defined.

Definition service_key (x : service_id) : string :=
  BuildResourceKey (sv_Mesh x) (BuildServiceIdentityKey (sv_Name x) (sv_Version x) (sv_Group x)).

Definition no_colon (s : string) : Prop := str_contains ":"%char s = false.

(** The parts of keys contain no separators. *)
Definition plain (x : service_id) : Prop :=
  no_sep (sv_Mesh x) ∧ no_colon (sv_Name x) ∧ no_colon (sv_Version x) ∧ no_colon (sv_Group x).

Lemma identity_key_inj n v g n' v' g' : no_colon n → no_colon v → no_colon n' → no_colon v' →
  BuildServiceIdentityKey n v g = BuildServiceIdentityKey n' v' g' → n = n' ∧ v = v' ∧ g = g'.
Proof.
  intros Hn Hv Hn' Hv' [-> Hr]%(str_sep_inj ":"%char); [|done|done].
  apply (str_sep_inj ":"%char) in Hr as [-> ->]; done.
Qed.

Lemma service_key_inj x y : plain x → plain y → service_key x = service_key y → x = y.
Proof.
  intros (? & ? & ? & _) (? & ? & ? & _) [? Hi]%BuildResourceKey_inj; [|done|done].
  apply identity_key_inj in Hi as (? & ? & ?); [|done..]. destruct x, y; simpl in *; by subst.
Qed.

Definition offers (x : service_id) (r : Resource) : bool :=
  bool_decide (res_Mesh r = sv_Mesh x) &&
  match provider_spec r with
  | Some s => bool_decide (spm_ServiceName s = sv_Name x ∧ spm_Version s = sv_Version x ∧ spm_Group s = sv_Group x)
  | None => false
  end.

(** What a provider publishes is filed under the service and its own name. *)
Definition sane (r : Resource) : Prop :=
  ∃ s, res_spec r = ServiceProviderMetadataSpec (Some s) ∧
    plain {| sv_Mesh := res_Mesh r; sv_Name := spm_ServiceName s; sv_Version := spm_Version s; sv_Group := spm_Group s |} ∧
    res_Name r = BuildServiceKey (spm_ServiceName s) (spm_Version s) (spm_Group s) (spm_ProviderAppName s).

Definition service_of (r : Resource) : service_id :=
  match provider_spec r with
  | Some s => {| sv_Mesh := res_Mesh r; sv_Name := spm_ServiceName s; sv_Version := spm_Version s; sv_Group := spm_Group s |}
  | None => {| sv_Mesh := res_Mesh r; sv_Name := ""; sv_Version := ""; sv_Group := "" |}
  end.

Lemma sane_spec r : sane r → ∃ s, provider_spec r = Some s ∧ res_kind r = ServiceProviderMetadataKind ∧
  plain (service_of r) ∧ res_Name r = BuildServiceKey (spm_ServiceName s) (spm_Version s) (spm_Group s) (spm_ProviderAppName s).
Proof.
  intros (s & Hs & Hp & Hn). exists s. unfold service_of, provider_spec, res_kind. by rewrite Hs.
Qed.

Lemma offers_iff x r : sane r → offers x r = true ↔ service_of r = x.
Proof.
  intros (s & Hs & _)%sane_spec. unfold offers, service_of. rewrite Hs, andb_true_iff, !bool_decide_eq_true.
  destruct x; simpl. naive_solver.
Qed.

(** The key of a provider says which service it offers. *)
Lemma same_key_same_service r r' : sane r → sane r' → ResourceKey r = ResourceKey r' → service_of r = service_of r'.
Proof.
  intros (s & Hs & _ & (Hm & Hn & Hv & Hg) & Hname)%sane_spec (s' & Hs' & _ & (Hm' & Hn' & Hv' & Hg') & Hname')%sane_spec.
  unfold ResourceKey. rewrite Hname, Hname'. unfold service_of in *. rewrite Hs in *. rewrite Hs' in *. simpl in *.
  intros [Hmesh Hk]%BuildResourceKey_inj; [|done|done]. unfold BuildServiceKey in Hk.
  apply (str_sep_inj ":"%char) in Hk as [Hkn Hk]; [|done|done].
  apply (str_sep_inj ":"%char) in Hk as [Hkv Hk]; [|done|done].
  apply (str_sep_inj ":"%char) in Hk as [Hkg _]; [|done|done]. congruence.
Qed.

(** *** What a service is said to be *)
Section description.
Context `{MapRange}.

Definition method_names (ps : list Resource) : list string :=
  filter (λ n, n ≠ "") (method_Name <$> (omap provider_spec ps ≫= spm_Methods)).

Definition described (x : service_id) (ps : list Resource) : Service :=
  {| svc_Name := sv_Name x; svc_Group := sv_Group x; svc_Version := sv_Version x;
     svc_Language := default "" (head (filter (λ l, l ≠ "") (inferProviderLanguage <$> omap provider_spec ps)));
     svc_Methods := sort_strings (elements (list_to_set (method_names ps) : gset string)) |}.

Lemma describe_methods ps l set n :
  n ∈ dom (foldl describe (l, set) ps).2 ↔ n ∈ dom set ∨ n ∈ method_names ps.
Proof.
  revert l set. induction ps as [|r ps IH]; intros l set; [unfold method_names; set_solver|].
  cbn [foldl]. unfold method_names. cbn [omap list_omap]. unfold describe at 2.
  destruct (provider_spec r) as [s|]; [|apply IH].
  rewrite IH. unfold method_names. cbn [mbind list_bind]. rewrite fmap_app, filter_app, elem_of_app.
  assert (Hin : n ∈ dom (foldl (λ set m, if decide (method_Name m = "") then set else <[method_Name m := ()]> set)
                    set (spm_Methods s)) ↔ n ∈ dom set ∨ n ∈ filter (λ n, n ≠ "") (method_Name <$> spm_Methods s)).
  { clear. generalize (spm_Methods s). intros ms. revert set. induction ms as [|m ms IH]; intros set; [set_solver|].
    cbn [foldl]. rewrite IH. csimpl. destruct (decide (method_Name m = "")) as [He|He].
    - rewrite filter_cons_False by (intros Hne; by apply Hne). done.
    - rewrite filter_cons_True by done. rewrite dom_insert. set_solver. }
  rewrite Hin. tauto.
Qed.

Lemma describe_language ps l set :
  (foldl describe (l, set) ps).1 =
  if decide (l = "") then default "" (head (filter (λ l, l ≠ "") (inferProviderLanguage <$> omap provider_spec ps))) else l.
Proof.
  revert l set. induction ps as [|r ps IH]; intros l set; cbn [foldl]; [by destruct (decide (l = ""))|].
  cbn [omap list_omap]. unfold describe at 2. destruct (provider_spec r) as [s|]; [|apply IH]. rewrite IH. csimpl.
  destruct (decide (l = "")) as [->|Hl]; [|by rewrite decide_False].
  destruct (decide (inferProviderLanguage s = "")) as [He|He].
  - rewrite filter_cons_False by (intros Hne; by apply Hne). done.
  - by rewrite filter_cons_True.
Qed.

Lemma buildServiceSpec_described x ps :
  buildServiceSpec (sv_Name x) (sv_Version x) (sv_Group x) ps = described x ps.
Proof.
  unfold buildServiceSpec, described. pose proof (describe_language ps "" ∅) as Hl.
  pose proof (λ n, describe_methods ps "" ∅ n) as Hm.
  destruct (foldl describe ("", ∅) ps) as [language methodSet]. simpl in Hl, Hm. rewrite Hl. f_equal.
  apply sort_strings_perm_eq, NoDup_Permutation; [apply NoDup_go_range_fst|apply NoDup_elements|]. intros n.
  rewrite elem_of_elements, elem_of_list_to_set. specialize (Hm n). rewrite dom_empty in Hm.
  transitivity (n ∈ dom methodSet); [|set_solver].
  rewrite list_elem_of_fmap, elem_of_dom. split.
  - intros ([k u] & -> & Hk%elem_of_go_range). by exists u.
  - intros [u Hu]. exists (n, u). by rewrite elem_of_go_range.
Qed.
End description.

(** ** Providers come and go *)
Section catalogue.
Context {St : Type} `{ResourceStoreQueries St} `{MapRange}.
Context (res_String : Resource → string).

(** What the informer of provider metadata does with a report: it files it
    and sends the event. *)
Definition published (r : Resource) : M St unit :=
  old ← get_typed ServiceProviderMetadataKind (res_Mesh r) (res_Name r) no_spec;
  match old with
  | None =>
      _ ← writing ServiceProviderMetadataKind st_Add r;
      Send (NewResourceChangedEvent Added None (Some r))
  | Some old =>
      _ ← writing ServiceProviderMetadataKind st_Update r;
      Send (NewResourceChangedEvent Updated (Some old) (Some r))
  end.

Definition withdrawn (mesh name : string) : M St unit :=
  old ← get_typed ServiceProviderMetadataKind mesh name no_spec;
  match old with
  | None => mret ()
  | Some old =>
      _ ← writing ServiceProviderMetadataKind st_Delete old;
      Send (NewResourceChangedEvent Deleted (Some old) None)
  end.

Abbreviation process := (ProcessEvent res_String).

(** The size of the catalogue subscriber's channel. *)
Context (cap : nat).

(** The reports are handled one at a time, while the catalogue's goroutine
    takes its events, lists the providers, and writes entries. *)
Inductive step : queued St → queued St → Prop :=
| step_published q r : sane r → step q (act ServiceProviderMetadataKind cap (published r) q)
| step_withdrawn q mesh name : step q (act ServiceProviderMetadataKind cap (withdrawn mesh name) q)
| step_drains q q' : drains_on process ServiceProviderMetadataKind cap q q' → step q q'.

Definition providers_of (w : world St) (x : service_id) : list Resource :=
  query (items w ServiceProviderMetadataKind) (offers x).

Definition service_resource (x : service_id) (ps : list Resource) : Resource :=
  NewServiceResourceWithAttributes (BuildServiceIdentityKey (sv_Name x) (sv_Version x) (sv_Group x))
    (sv_Mesh x) (described x ps).

(** The entry of the catalogue that the providers call for. *)
Definition entry (x : service_id) (ps : list Resource) : option Resource :=
  match ps with [] => None | _ => Some (service_resource x ps) end.

Definition catalogued (w : world St) (x : service_id) : Prop :=
  items w ServiceKind !! service_key x = entry x (providers_of w x).

(** The stored entry. *)
Definition stored (w : world St) (x : service_id) : option Resource := items w ServiceKind !! service_key x.
Definition fits_providers (x : service_id) (ps : list Resource) (o : option Resource) : Prop := o = entry x ps.

Definition announces (e : Event) (x : service_id) : Prop :=
  ∃ r, event_object e = Some r ∧ res_kind r = ServiceProviderMetadataKind ∧ offers x r = true.

Record indexed (w : world St) : Prop := {
  in_ok : world_ok w;
  in_kinds : ServiceProviderMetadataKind ∈ dom (w_stores w) ∧ ServiceKind ∈ dom (w_stores w) ∧
    ApplicationKind ∈ dom (w_stores w);
  in_mesh : indexers w ServiceProviderMetadataKind !! ByMeshIndex = Some ByMesh;
  in_key : indexers w ServiceProviderMetadataKind !! ByServiceProviderServiceKey = Some byServiceProviderServiceKey }.

(** What the informer sends. *)
Definition sane_event (e : Event) : Prop :=
  ∀ r, event_object e = Some r → res_kind r = ServiceProviderMetadataKind → sane r ∧
    (e = NewResourceChangedEvent Added None (Some r) ∨
     e = NewResourceChangedEvent Deleted (Some r) None ∨
     ∃ old, res_kind old = ServiceProviderMetadataKind ∧ e = NewResourceChangedEvent Updated (Some old) (Some r)).

Record base (w : world St) : Prop := {
  bs_indexed : indexed w;
  bs_sane : map_Forall (λ _, sane) (items w ServiceProviderMetadataKind) }.

Lemma catalogue_indexed_changed w w' k m es : indexed w → changed w w' k m es → indexed w'.
Proof.
  intros [Hok Hk Hm Hx] Hc. split; [apply (ch_ok _ _ _ _ _ Hc)|by rewrite (ch_kinds _ _ _ _ _ Hc)|
    by rewrite (ch_indexers _ _ _ _ _ Hc)..].
Qed.

Lemma base_changed w w' k m es : base w → changed w w' k m es → k ≠ ServiceProviderMetadataKind → base w'.
Proof.
  intros [Hx Hs] Hc Hne. split; [by eapply catalogue_indexed_changed|]. by rewrite (ch_others _ _ _ _ _ Hc).
Qed.

(** The query of [syncService] finds the providers of the service. *)
Lemma all_are_offers w x r : indexed w → plain x → sane r →
  all_are (indexers w ServiceProviderMetadataKind)
    [(ByMeshIndex, sv_Mesh x);
     (ByServiceProviderServiceKey, BuildServiceIdentityKey (sv_Name x) (sv_Version x) (sv_Group x))] r = offers x r.
Proof.
  intros Hx (_ & Hn & Hv & _) (s & Hs & (_ & Hn' & Hv' & _) & _). unfold all_are, index_is. simpl.
  rewrite (in_mesh _ Hx), (in_key _ Hx). unfold index_has, byServiceProviderServiceKey, assert_spec. simpl.
  unfold offers, provider_spec. rewrite Hs. simpl. rewrite andb_true_r. f_equal.
  - apply bool_decide_ext. rewrite list_elem_of_singleton. done.
  - apply bool_decide_ext. rewrite list_elem_of_singleton. unfold buildServiceProviderServiceKey. split.
    + intros Hk. apply identity_key_inj in Hk as (-> & -> & ->); done.
    + by intros (-> & -> & ->).
Qed.

Lemma list_providers w x e : base w → plain x →
  list_typed ServiceProviderMetadataKind
    [equals ByMeshIndex (sv_Mesh x);
     equals ByServiceProviderServiceKey (BuildServiceIdentityKey (sv_Name x) (sv_Version x) (sv_Group x))] e w =
  (w, Ok (providers_of w x)).
Proof.
  intros [Hx Hs] Hp.
  pose proof (list_typed_ok w ServiceProviderMetadataKind
    [(ByMeshIndex, sv_Mesh x);
     (ByServiceProviderServiceKey, BuildServiceIdentityKey (sv_Name x) (sv_Version x) (sv_Group x))] e) as Hl.
  simpl in Hl. rewrite Hl; [|apply Hx|apply Hx|done|].
  - do 2 f_equal. apply query_ext; [apply items_self_keyed, Hx|]. intros k r Hr. apply all_are_offers; [done..|]. by eapply Hs.
  - eapply indexed_by; [apply Hx|]. eapply indexed_by; [apply Hx|]. constructor.
Qed.

(** An event for other subscribers. *)
Definition for_others (e : Event) : Prop := is_about ServiceProviderMetadataKind e = false ∧ sane_event e.

Lemma kind_for_others typ r k : res_kind r = k → k ≠ ServiceProviderMetadataKind →
  ∀ old new, (new = Some r ∨ new = None ∧ old = Some r) → for_others (NewResourceChangedEvent typ old new).
Proof.
  intros <- Hk old new Hr. unfold for_others, sane_event, is_about.
  assert (Ho : event_object (NewResourceChangedEvent typ old new) = Some r) by (by destruct Hr as [->|[-> ->]]).
  rewrite Ho. split; [by apply bool_decide_eq_false|]. by intros ? [= <-].
Qed.

(** *** The handlers *)
Lemma ensureApplication_ok w mesh s : indexed w →
  ∃ w' m es, ensureApplication mesh s w = (w', Ok ()) ∧ changed w w' ApplicationKind m es ∧
    (length es ≤ 1)%nat ∧ Forall for_others es.
Proof.
  intros Hx. unfold ensureApplication. destruct (decide (spm_ProviderAppName s = "")) as [He|He].
  { exists w, (items w ApplicationKind), []. split_and!; [done|apply changed_refl, Hx|simpl; lia|constructor]. }
  erewrite bind_ok by (apply reading_GetByKey; apply Hx).
  destruct (items w ApplicationKind !! _) as [r|] eqn:Hr; cbn [fmap option_fmap option_map].
  { exists w, (items w ApplicationKind), []. split_and!; [done|apply changed_refl, Hx|simpl; lia|constructor]. }
  destruct (writing_Add w (NewApplicationResourceWithAttributes (spm_ProviderAppName s) mesh)) as (w' & Hw' & Hc);
    [apply Hx|apply Hx|done|].
  eexists _, _, _. erewrite bind_ok by exact Hw'. split; [done|]. split; [exact (changed_send _ _ _ _ _ _ Hc)|].
  split; [simpl; lia|]. apply Forall_singleton. eapply kind_for_others; [| |by left]; done.
Qed.

Lemma syncService_ok w x : base w → plain x →
  ∃ w' m es, syncService (sv_Mesh x) (sv_Name x) (sv_Version x) (sv_Group x) w = (w', Ok ()) ∧
    changed w w' ServiceKind m es ∧ (length es ≤ 1)%nat ∧ Forall for_others es ∧
    m !! service_key x = entry x (providers_of w x) ∧
    ∀ k, k ≠ service_key x → m !! k = items w ServiceKind !! k.
Proof.
  intros Hb Hp. pose proof (bs_indexed _ Hb) as Hx. unfold syncService.
  erewrite bind_ok by by apply list_providers. erewrite bind_ok by (apply get_typed_ok; apply Hx).
  fold (service_key x). rewrite buildServiceSpec_described. fold (service_resource x (providers_of w x)).
  assert (Hsr : res_kind (service_resource x (providers_of w x)) = ServiceKind) by done.
  assert (Hsk : ResourceKey (service_resource x (providers_of w x)) = service_key x) by done.
  destruct (items w ServiceKind !! service_key x) as [old|] eqn:Hold.
  - destruct (items_key w ServiceKind _ _ (in_ok _ Hx) Hold) as [Hok Hokind].
    destruct (providers_of w x) as [|p ps] eqn:Hps.
    + destruct (writing_Delete w ServiceKind old) as (w' & Hw' & Hc); [apply Hx|apply Hx|by rewrite Hok, Hold|].
      eexists _, _, _. erewrite bind_ok by exact Hw'. split; [done|]. split; [exact (changed_send _ _ _ _ _ _ Hc)|].
      rewrite Hok. split_and!; [simpl; lia| |by rewrite lookup_delete_eq|by intros k Hk; rewrite lookup_delete_ne].
      apply Forall_singleton. eapply kind_for_others; [exact Hokind|done|by right].
    + rewrite <-Hps in *. destruct (writing_Update w (service_resource x (providers_of w x))) as (w' & Hw' & Hc);
        [apply Hx|apply Hx|by rewrite Hsk, Hsr, Hold|].
      eexists _, _, _. erewrite bind_ok by exact Hw'. split; [done|]. split; [exact (changed_send _ _ _ _ _ _ Hc)|].
      rewrite Hsk. split_and!; [simpl; lia| |rewrite lookup_insert_eq; by rewrite Hps|by intros k Hk; rewrite lookup_insert_ne].
      apply Forall_singleton. eapply kind_for_others; [exact Hsr|done|by left].
  - destruct (providers_of w x) as [|p ps] eqn:Hps.
    + exists w, (items w ServiceKind), []. split_and!; [done|apply changed_refl, Hx|simpl; lia|constructor|done|done].
    + rewrite <-Hps in *. destruct (writing_Add w (service_resource x (providers_of w x))) as (w' & Hw' & Hc);
        [apply Hx|apply Hx|by rewrite Hsk, Hsr|].
      eexists _, _, _. erewrite bind_ok by exact Hw'. split; [done|]. split; [exact (changed_send _ _ _ _ _ _ Hc)|].
      rewrite Hsk. split_and!; [simpl; lia| |rewrite lookup_insert_eq; by rewrite Hps|by intros k Hk; rewrite lookup_insert_ne].
      apply Forall_singleton. eapply kind_for_others; [exact Hsr|done|by left].
Qed.

(** Processing an event about a service brings its entry up to date and leaves
    the others alone. *)
Definition synchronized (w w' : world St) (x : service_id) : Prop :=
  base w' ∧ (∃ es, w_sent w' = w_sent w ++ es ∧ Forall for_others es) ∧
  catalogued w' x ∧ (∀ y, providers_of w' y = providers_of w y) ∧ ∀ y, plain y → y ≠ x → stored w' y = stored w y.

Lemma sync_synchronized w x : base w → plain x →
  ∃ w', syncService (sv_Mesh x) (sv_Name x) (sv_Version x) (sv_Group x) w = (w', Ok ()) ∧ synchronized w w' x.
Proof.
  intros Hb Hp. destruct (syncService_ok w x Hb Hp) as (w' & m & es & Hw' & Hc & _ & Hes & Hm & Ho).
  assert (Hpr : ∀ y, providers_of w' y = providers_of w y).
  { intros y. unfold providers_of. by rewrite (ch_others _ _ _ _ _ Hc). }
  exists w'. split; [done|]. split_and!; [by eapply base_changed| | |done|].
  - exists es. split; [apply (ch_sent _ _ _ _ _ Hc)|done].
  - unfold catalogued. by rewrite (ch_items _ _ _ _ _ Hc), Hpr.
  - intros y Hy Hne. unfold stored. rewrite (ch_items _ _ _ _ _ Hc). apply Ho.
    intros Hk. by apply service_key_inj in Hk.
Qed.

Lemma upsert_synchronized w r : base w → sane r →
  ∃ w', processUpsert r w = (w', Ok ()) ∧ synchronized w w' (service_of r).
Proof.
  intros Hb Hr. destruct (sane_spec r Hr) as (s & Hs & _ & Hp & _). unfold processUpsert. rewrite Hs.
  destruct (ensureApplication_ok w (res_Mesh r) s (bs_indexed _ Hb)) as (w1 & m & es & Hw1 & Hc & _ & Hes).
  erewrite bind_ok by exact Hw1.
  assert (Hb1 : base w1) by by eapply base_changed.
  destruct (sync_synchronized w1 (service_of r) Hb1 Hp) as (w' & Hw' & Hb' & (es' & Hs' & Hes') & Hx & Hpr & Ho).
  unfold service_of in Hw'. rewrite Hs in Hw'. exists w'. split; [exact Hw'|]. split_and!; [done| |done|..].
  - exists (es ++ es'). rewrite Hs', (ch_sent _ _ _ _ _ Hc). split; [by rewrite (assoc_L (++))|]. by apply Forall_app.
  - intros y. rewrite Hpr. unfold providers_of. by rewrite (ch_others _ _ _ _ _ Hc).
  - intros y Hy Hne. rewrite Ho by done. unfold stored. by rewrite (ch_others _ _ _ _ _ Hc).
Qed.

Lemma delete_synchronized w r : base w → sane r →
  ∃ w', processDelete r w = (w', Ok ()) ∧ synchronized w w' (service_of r).
Proof.
  intros Hb Hr. destruct (sane_spec r Hr) as (s & Hs & _ & Hp & _). unfold processDelete. rewrite Hs.
  destruct (sync_synchronized w (service_of r) Hb Hp) as (w' & Hw' & Hsync).
  unfold service_of in Hw'. rewrite Hs in Hw'. by exists w'.
Qed.

Lemma event_synchronized w e r : base w → sane_event e → event_object e = Some r →
  res_kind r = ServiceProviderMetadataKind →
  ∃ w', process e w = (w', Ok ()) ∧ synchronized w w' (service_of r).
Proof.
  intros Hb He Hr Hk. destruct (He r Hr Hk) as [Hs Hcase]. unfold ProcessEvent, expect.
  destruct Hcase as [-> |[-> |(old & Hold & ->)]]; cbn [ev_newObj ev_oldObj ev_typ NewResourceChangedEvent].
  - rewrite decide_True by done. by apply upsert_synchronized.
  - rewrite decide_True by done. by apply delete_synchronized.
  - rewrite !decide_True by done. by apply upsert_synchronized.
Qed.

Lemma catalogue_base_seen w o : base w → base o →
  base (with_source ServiceProviderMetadataKind w (w_stores o !! ServiceProviderMetadataKind)).
Proof.
  intros [[Hw (Hp & Hs & Ha) Hm Hx] Hsane] [[Hw' (Hp' & Hs' & Ha') Hm' Hx'] Hsane'].
  split; [split; rewrite ?seen_indexers; try done; [by apply seen_ok|split_and!; by apply seen_kinds]|by rewrite seen_items].
Qed.

Lemma catalogue_announces_decide e x : announces e x ∨ ¬ announces e x.
Proof.
  unfold announces. destruct (event_object e) as [r|]; [|right; by intros (? & [=] & _)].
  destruct (decide (res_kind r = ServiceProviderMetadataKind ∧ offers x r = true)) as [[? ?]|Hn]; [left; by exists r|].
  right. by intros (? & [= <-] & ?).
Qed.

Lemma catalogue_ok :
  subscriber_ok process ServiceProviderMetadataKind base sane_event announces plain providers_of stored fits_providers.
Proof.
  split.
  - intros e x (r & Hr & Hk & _). unfold is_about. by rewrite Hr, bool_decide_eq_true_2.
  - apply catalogue_announces_decide.
  - apply catalogue_base_seen.
  - intros w o x. unfold providers_of. by rewrite seen_items.
  - intros w s x. unfold stored. by rewrite seen_other.
  - intros w e Hb He Hk. unfold is_about in Hk.
    destruct (event_object e) as [r|] eqn:Hr; [|done]. apply bool_decide_eq_true in Hk.
    destruct (event_synchronized w e r Hb He Hr Hk) as (w' & -> & Hb' & (es & Hsent & Hes) & Hx & Hpr & Ho). cbn [fst].
    destruct (He r Hr Hk) as [Hsane _]. split_and!; [done| |done| |].
    + exists es. split; [done|]. eapply Forall_impl; [exact Hes|]. by intros ? [? _].
    + intros x _ (r' & Hr' & _ & Hof). rewrite Hr in Hr'. injection Hr' as <-. by apply offers_iff in Hof as <-.
    + intros x Hx' Hn. apply Ho; [done|]. intros ->. apply Hn. exists r. split_and!; [done..|]. by apply offers_iff.
Qed.

(** *** The reports *)
Abbreviation consistent :=
  (consistent ServiceProviderMetadataKind base sane_event announces plain providers_of stored fits_providers).

Definition reports (w w' : world St) : Prop :=
  ∃ es, reported base sane_event announces plain providers_of stored w w' es.

Lemma reported_refl w : base w → reports w w.
Proof. intros Hb. exists []. split; [done| |constructor|done|by left]. by rewrite app_nil_r. Qed.

(** A change of the providers of one service, followed by an event about it. *)
Lemma change_reported w w' m e r : base w → changed w w' ServiceProviderMetadataKind m [e] →
  map_Forall (λ _, sane) m → sane_event e → event_object e = Some r → sane r →
  (∀ y, y ≠ service_of r → query m (offers y) = providers_of w y) → reports w w'.
Proof.
  intros Hb Hc Hm He Hr Hs Ho. exists [e]. split.
  - split; [by eapply catalogue_indexed_changed; [apply Hb|]|]. by rewrite (ch_items _ _ _ _ _ Hc).
  - apply (ch_sent _ _ _ _ _ Hc).
  - by apply Forall_singleton.
  - intros y _. unfold stored. by rewrite (ch_others _ _ _ _ _ Hc).
  - intros y _. destruct (decide (y = service_of r)) as [->|Hne].
    + right. exists e. split; [by left|]. exists r. split; [done|].
      split; [by destruct (sane_spec r Hs) as (? & _ & ? & _)|]. by apply offers_iff.
    + left. unfold providers_of. by rewrite (ch_items _ _ _ _ _ Hc), Ho.
Qed.

Lemma offers_other y r : sane r → y ≠ service_of r → offers y r = false.
Proof. intros Hs Hne. apply not_true_is_false. rewrite offers_iff by done. by intros <-. Qed.

Lemma published_reported w r : base w → sane r → reports w (published r w).1.
Proof.
  intros Hb Hs. destruct (sane_spec r Hs) as (s & _ & Hk & _). pose proof (bs_indexed _ Hb) as Hx.
  pose proof (items_self_keyed w ServiceProviderMetadataKind (in_ok _ Hx)) as Hsk.
  unfold published. erewrite bind_ok by (apply get_typed_ok; apply Hx). fold (ResourceKey r).
  destruct (items w ServiceProviderMetadataKind !! ResourceKey r) as [old|] eqn:Hold.
  - destruct (items_key w _ _ _ (in_ok _ Hx) Hold) as [Hok Hokind]. pose proof (bs_sane _ Hb _ _ Hold) as Hso.
    destruct (writing_Update w r) as (w' & Hw' & Hc); [apply Hx|rewrite Hk; apply Hx|by rewrite Hk, Hold|].
    rewrite Hk in Hw', Hc. erewrite bind_ok by exact Hw'. cbn [Send fst].
    eapply change_reported; [done|exact (changed_send _ _ _ _ _ _ Hc)| | |done|done|].
    + apply map_Forall_insert_2; [done|apply Hb].
    + intros ? [= <-] _. split; [done|]. right; right. by exists old.
    + intros y Hne. apply query_insert_other; [done|done| |by apply offers_other].
      rewrite Hold. intros ? [= <-]. apply offers_other; [done|]. by rewrite (same_key_same_service old r).
  - destruct (writing_Add w r) as (w' & Hw' & Hc); [apply Hx|rewrite Hk; apply Hx|by rewrite Hk|].
    rewrite Hk in Hw', Hc. erewrite bind_ok by exact Hw'. cbn [Send fst].
    eapply change_reported; [done|exact (changed_send _ _ _ _ _ _ Hc)| | |done|done|].
    + apply map_Forall_insert_2; [done|apply Hb].
    + intros ? [= <-] _. split; [done|]. by left.
    + intros y Hne. apply query_insert_other; [done|done| |by apply offers_other]. rewrite Hold. by intros ? [=].
Qed.

Lemma withdrawn_reported w mesh name : base w → reports w (withdrawn mesh name w).1.
Proof.
  intros Hb. pose proof (bs_indexed _ Hb) as Hx.
  pose proof (items_self_keyed w ServiceProviderMetadataKind (in_ok _ Hx)) as Hsk.
  unfold withdrawn. erewrite bind_ok by (apply get_typed_ok; apply Hx).
  destruct (items w ServiceProviderMetadataKind !! _) as [old|] eqn:Hold; [|by apply reported_refl].
  destruct (items_key w _ _ _ (in_ok _ Hx) Hold) as [Hok Hokind]. pose proof (bs_sane _ Hb _ _ Hold) as Hso.
  destruct (writing_Delete w ServiceProviderMetadataKind old) as (w' & Hw' & Hc); [apply Hx|apply Hx|by rewrite Hok, Hold|].
  erewrite bind_ok by exact Hw'. cbn [Send fst].
  eapply change_reported; [done|exact (changed_send _ _ _ _ _ _ Hc)| | |done|done|].
  - apply map_Forall_delete, Hb.
  - intros ? [= <-] _. split; [done|]. by right; left.
  - intros y Hne. apply query_delete_other; [done|]. rewrite Hok, Hold. intros ? [= <-]. by apply offers_other.
Qed.

Lemma catalogue_step_consistent q q' : step q q' → consistent q → consistent q'.
Proof.
  intros Hstep Hcons. pose proof (cn_base _ _ _ _ _ _ _ _ _ Hcons) as Hb. destruct Hstep as [q r Hr|q mesh name|q q' Hd].
  - destruct (published_reported (qu_world q) r Hb Hr) as [es He].
    by eapply consistent_act; [apply catalogue_ok|done|exact He].
  - destruct (withdrawn_reported (qu_world q) mesh name Hb) as [es He].
    by eapply consistent_act; [apply catalogue_ok|done|exact He].
  - by eapply drains_consistent; [apply catalogue_ok|done|].
Qed.

Lemma empty_consistent w0 : indexed w0 → items w0 ServiceProviderMetadataKind = ∅ → items w0 ServiceKind = ∅ →
  consistent (opened w0).
Proof.
  intros Hx Hp Hs. apply consistent_opened; [split; [done|by rewrite Hp]|]. intros x _.
  unfold up_to_date, fits_providers, stored, providers_of. by rewrite Hs, Hp.
Qed.

End catalogue.

(** ** Two providers of one service *)
Module CatalogueExample.
#[local] Existing Instance RefStore.ops.
#[local] Existing Instance RefStore.laws.
#[local] Existing Instance RefStore_queries.
#[local] Existing Instance default_range.

Definition empty_store (k : ResourceKind) (idx : Indexers) : RefStore.store :=
  {| RefStore.kind := k; RefStore.indexers := idx; RefStore.items := ∅ |}.

Definition start : world RefStore.store :=
  {| w_stores := {[
       ServiceProviderMetadataKind := empty_store ServiceProviderMetadataKind {[
         ByMeshIndex := ByMesh; ByServiceProviderServiceKey := byServiceProviderServiceKey ]};
       ServiceKind := empty_store ServiceKind ∅;
       ApplicationKind := empty_store ApplicationKind ∅ ]};
     w_sent := [] |}.

Definition method (name : string) : Method :=
  {| method_Annotations := []; method_Name := name; method_ParameterTypes := ["java.lang.String"];
     method_Parameters := []; method_ReturnType := "" |}.

Definition provider (app : string) (methods : list string) : Resource :=
  {| res_meta := {| meta_Name := BuildServiceKey "org.Greeter" "1.0" "" app; meta_Labels := None; meta_Annotations := None |};
     res_Mesh := "nacos";
     res_spec := ServiceProviderMetadataSpec (Some
       {| spm_ServiceName := "org.Greeter"; spm_ProviderAppName := app; spm_Version := "1.0"; spm_Group := "";
          spm_CanonicalName := "org.Greeter"; spm_Methods := method <$> methods; spm_Parameters := ∅; spm_Types := [] |}) |}.

Definition greeter : service_id :=
  {| sv_Mesh := "nacos"; sv_Name := "org.Greeter"; sv_Version := "1.0"; sv_Group := "" |}.

Lemma catalogue_start_indexed : indexed start.
Proof.
  split; [|unfold start; cbn [w_stores]; set_solver|reflexivity..].
  intros k s Hs. unfold start in Hs. cbn [w_stores] in Hs.
  apply lookup_insert_Some in Hs as [[<- <-]|[_ Hs]]; [split; [by apply map_Forall_empty|done]|].
  apply lookup_insert_Some in Hs as [[<- <-]|[_ Hs]]; [split; [by apply map_Forall_empty|done]|].
  apply lookup_singleton_Some in Hs as [<- <-]. split; [by apply map_Forall_empty|done].
Qed.

Lemma provider_sane app ms : sane (provider app ms).
Proof. eexists. split; [reflexivity|]. by split_and!. Qed.

Abbreviation system := (queued RefStore.store).
Abbreviation process := (ProcessEvent res_Name).

(** The goroutine has listed one provider when the other is published. *)
Definition q1 : system :=
  read_source ServiceProviderMetadataKind
    (take_event (act ServiceProviderMetadataKind 4 (published (provider "shop" ["hello"; "bye"])) (opened start))).
Definition q2 : system := act ServiceProviderMetadataKind 4 (published (provider "cart" ["hello"; "again"])) q1.

Lemma catalogue_q2_reachable : rtc (step res_Name 4) (opened start) q2.
Proof.
  eapply rtc_l; [apply step_published, (provider_sane "shop" ["hello"; "bye"])|].
  eapply rtc_l; [apply step_drains, drains_take|]. eapply rtc_l; [apply step_drains, drains_read|].
  apply rtc_once, step_published, (provider_sane "cart" ["hello"; "again"]).
Qed.

Definition service_at (q : system) : option Service :=
  items (qu_world q) ServiceKind !! service_key greeter ≫= λ r,
  match res_spec r with ServiceSpec s => s | _ => None end.

End CatalogueExample.
