(* ===== verification/Json.v ===== *)
(** What the code uses of unicode/utf8, encoding/json and strconv.ParseFloat:
    texts are strings of bytes, floats are the binary64 values of the IEEE
    specification in the Standard Library. *)
From S2P Require Import Prelude GoStrings Errors.
From Stdlib Require Import Ascii Floats.SpecFloat.

Open Scope string_scope.
Open Scope list_scope.
Open Scope Z_scope.

(** ** unicode/utf8 *)
Definition byte (c : ascii) : Z := Z.of_nat (nat_of_ascii c).
Definition of_byte (b : Z) : ascii := ascii_of_nat (Z.to_nat b).
Definition within (lo hi x : Z) : bool := bool_decide (lo ≤ x ∧ x ≤ hi).
Definition RuneError : Z := 65533.

(** The range of the second byte, given the first one. *)
Definition second_byte (b : Z) : Z * Z :=
  if decide (b = 224) then (160, 191) else if decide (b = 237) then (128, 159)
  else if decide (b = 240) then (144, 191) else if decide (b = 244) then (128, 143) else (128, 191).

(** [utf8.DecodeRuneInString]: the rune and the number of its bytes after the
    first one. *)
Definition decode_rune (b : Z) (s : string) : Z * nat :=
  if decide (b < 128) then (b, 0%nat)
  else
    let '(lo, hi) := second_byte b in
    let cont c := within 128 191 (byte c) in
    match s with
    | String c1 s1 =>
        let b1 := byte c1 in
        if within 194 223 b && within 128 191 b1 then ((b - 192) * 64 + (b1 - 128), 1%nat)
        else if within 224 239 b && within lo hi b1 then
          match s1 with
          | String c2 _ =>
              if cont c2 then ((b - 224) * 4096 + (b1 - 128) * 64 + (byte c2 - 128), 2%nat) else (RuneError, 0%nat)
          | _ => (RuneError, 0%nat)
          end
        else if within 240 244 b && within lo hi b1 then
          match s1 with
          | String c2 (String c3 _) =>
              if cont c2 && cont c3 then
                ((b - 240) * 262144 + (b1 - 128) * 4096 + (byte c2 - 128) * 64 + (byte c3 - 128), 3%nat)
              else (RuneError, 0%nat)
          | _ => (RuneError, 0%nat)
          end
        else (RuneError, 0%nat)
    | EmptyString => (RuneError, 0%nat)
    end.

(** [[]rune(s)]; [skip] bytes belong to the rune before. *)
Fixpoint runes_skip (skip : nat) (s : string) : list Z :=
  match s with
  | EmptyString => []
  | String c s =>
      match skip with
      | S skip => runes_skip skip s
      | O => let '(r, n) := decode_rune (byte c) s in r :: runes_skip n s
      end
  end.
Definition runes (s : string) : list Z := runes_skip 0 s.

(** [utf8.AppendRune]. *)
Definition encode_rune (r : Z) : string :=
  let b x := of_byte x in
  let cont n := b (128 + (r / n) mod 64) in
  if decide (r < 128) then String (b r) ""
  else if decide (r < 2048) then String (b (192 + r / 64)) (String (cont 1) "")
  else if decide (r < 65536) then String (b (224 + r / 4096)) (String (cont 64) (String (cont 1) ""))
  else String (b (240 + r / 262144)) (String (cont 4096) (String (cont 64) (String (cont 1) ""))).

(** ** strconv.ParseFloat *)
Abbreviation float64 := spec_float.
Definition digit_of (base : Z) (c : ascii) : option Z :=
  let b := byte (to_lower c) in
  let d := if within 48 57 b then b - 48 else if within 97 102 b then b - 87 else 99 in
  if decide (d < base) then Some d else None.

(** The digits with at most one point: mantissa, digits behind the point,
    digits seen, rest. Underscores are skipped here and checked below. *)
Fixpoint read_mantissa (base m : Z) (point : bool) (frac : Z) (seen : bool) (s : string) : Z * Z * bool * string :=
  match s with
  | EmptyString => (m, frac, seen, s)
  | String c s' =>
      if decide (c = "_"%char) then read_mantissa base m point frac seen s'
      else if decide (c = "."%char) then
        if point then (m, frac, seen, s) else read_mantissa base m true frac seen s'
      else match digit_of base c with
           | Some d => read_mantissa base (m * base + d) point (if point then frac + 1 else frac) true s'
           | None => (m, frac, seen, s)
           end
  end.

(** The digits of the exponent: larger ones than 10000 are cut. *)
Fixpoint read_exponent (e : Z) (seen : bool) (s : string) : Z * bool * string :=
  match s with
  | EmptyString => (e, seen, s)
  | String c s' =>
      if decide (c = "_"%char) then read_exponent e seen s'
      else match digit_of 10 c with
           | Some d => read_exponent (if decide (e < 10000) then e * 10 + d else e) true s'
           | None => (e, seen, s)
           end
  end.

(** [underscoreOK]: underscores stand between digits, or behind the base
    prefix; [saw] is the kind of the last character. *)
Inductive saw := SawStart | SawDigit | SawUnderscore | SawOther.
Fixpoint underscore_number (hex : bool) (last : saw) (s : string) : bool :=
  match s with
  | EmptyString => match last with SawUnderscore => false | _ => true end
  | String c s =>
      match digit_of (if hex then 16 else 10) c with
      | Some _ => underscore_number hex SawDigit s
      | None =>
          if decide (c = "_"%char) then
            match last with SawDigit => underscore_number hex SawUnderscore s | _ => false end
          else match last with SawUnderscore => false | _ => underscore_number hex SawOther s end
      end
  end.
Definition signed (s : string) : bool * string :=
  match s with
  | String "-" s => (true, s)
  | String "+" s => (false, s)
  | _ => (false, s)
  end%char.
Definition underscoreOK (s : string) : bool :=
  let s := (signed s).2 in
  match str_take 2 (str_lower s) with
  | "0x" => underscore_number true SawDigit (str_drop 2 s)
  | "0b" | "0o" => underscore_number false SawDigit (str_drop 2 s)
  | _ => underscore_number false SawStart s
  end.

(** The nearest binary64 to [m * 10^e] and to [m * 2^e]; decimal exponents
    beyond the range of the format do not need the division. *)
Definition prec64 : Z := 53.
Definition emax64 : Z := 1024.
Definition round_decimal (neg : bool) (m e : Z) : float64 :=
  match m with
  | Zpos p =>
      let magnitude := e + Z.log2 m * 30103 / 100000 in
      if decide (310 < magnitude) then S754_infinity neg
      else if decide (magnitude < -340) then S754_zero neg
      else if decide (0 ≤ e) then binary_normalize prec64 emax64 (cond_Zopp neg (m * 10 ^ e)) 0 neg
      else let '(q, e', l) := SFdiv_core_binary prec64 emax64 m 0 (10 ^ (- e)) 0 in
           binary_round_aux prec64 emax64 neg q e' l
  | _ => S754_zero neg
  end.
Definition round_binary (neg : bool) (m e : Z) : float64 :=
  match m with
  | Zpos p => binary_round prec64 emax64 neg p e
  | _ => S754_zero neg
  end.

Definition is_infinite (x : float64) : bool := match x with S754_infinity _ => true | _ => false end.
Definition is_nan (x : float64) : bool := match x with S754_nan => true | _ => false end.

(** [strconv.ParseFloat(s, 64)]; [None] is any error. *)
Definition ParseFloat (s : string) : option float64 :=
  let '(neg, u) := signed s in
  let low := str_lower u in
  if decide (low = "inf" ∨ low = "infinity") then Some (S754_infinity neg)
  else if decide (str_lower s = "nan") then Some S754_nan
  else
    let hex := bool_decide (str_take 2 low = "0x") && bool_decide (2 < String.length u)%nat in
    let base := if hex then 16 else 10 in
    let '(m, frac, seen, rest) := read_mantissa base 0 false 0 false (if hex then str_drop 2 u else u) in
    if negb seen then None
    else
      let exponent :=
        match rest with
        | String c rest' =>
            if decide (to_lower c = if hex then "p" else "e")%char then
              let '(eneg, digits) := signed rest' in
              let '(e, eseen, rest) := read_exponent 0 false digits in
              if eseen then Some (if eneg then - e else e, rest) else None
            else if hex then None else Some (0, rest)
        | EmptyString => if hex then None else Some (0, rest)
        end in
      match exponent with
      | Some (e, EmptyString) =>
          if str_contains "_" s && negb (underscoreOK s) then None
          else
            let x := if hex then round_binary neg m (e - 4 * frac) else round_decimal neg m (e - frac) in
            if is_infinite x then None else Some x
      | _ => None
      end.

(** ** encoding/json

    A parsed document; numbers keep their text. *)
Inductive json :=
| JNull | JBool (b : bool) | JNumber (text : string) | JString (s : string)
| JArray (l : list json) | JObject (members : list (string * json)).

Fixpoint skip_space (s : string) : string :=
  match s with
  | String c s' => if decide (byte c = 32 ∨ byte c = 9 ∨ byte c = 10 ∨ byte c = 13) then skip_space s' else s
  | EmptyString => s
  end.

Definition hex4 (s : string) : option (Z * string) :=
  match s with
  | String a (String b (String c (String d s))) =>
      x ← digit_of 16 a; y ← digit_of 16 b; z ← digit_of 16 c; t ← digit_of 16 d;
      Some (((x * 16 + y) * 16 + z) * 16 + t, s)
  | _ => None
  end.

Definition quote_char : ascii := of_byte 34.
Definition backslash : ascii := of_byte 92.

(** [\uXXXX], with the second half of a surrogate pair if there is one. *)
Definition read_unicode (s : string) : option (string * string) :=
  '(r, s) ← hex4 s;
  if within 55296 56319 r then
    match s with
    | String c (String u s') =>
        if decide (c = backslash ∧ u = "u"%char) then
          '(r2, s2) ← hex4 s';
          if within 56320 57343 r2 then Some (encode_rune (65536 + (r - 55296) * 1024 + (r2 - 56320)), s2)
          else Some (encode_rune RuneError, s)
        else Some (encode_rune RuneError, s)
    | _ => Some (encode_rune RuneError, s)
    end
  else if within 56320 57343 r then Some (encode_rune RuneError, s)
  else Some (encode_rune r, s).

(** The text behind an opening quote, up to the closing one; invalid UTF-8
    becomes [RuneError]. Every round reads a byte, so the length is enough
    fuel. *)
Fixpoint read_string (fuel : nat) (s : string) : option (string * string) :=
  match fuel, s with
  | S fuel, String c s =>
      if decide (c = quote_char) then Some ("", s)
      else if decide (c = backslash) then
        match s with
        | String c s =>
            '(piece, s) ←
              match c with
              | "b"%char => Some (String (of_byte 8) "", s) | "f"%char => Some (String (of_byte 12) "", s)
              | "n"%char => Some (String (of_byte 10) "", s) | "r"%char => Some (String (of_byte 13) "", s)
              | "t"%char => Some (String (of_byte 9) "", s)
              | "u"%char => read_unicode s
              | _ => if decide (c = quote_char ∨ c = backslash ∨ c = "/"%char) then Some (String c "", s) else None
              end;
            '(t, s) ← read_string fuel s; Some (piece +:+ t, s)
        | EmptyString => None
        end
      else if decide (byte c < 32) then None
      else let '(r, n) := decode_rune (byte c) s in
           '(t, s) ← read_string fuel (str_drop n s); Some (encode_rune r +:+ t, s)
  | _, _ => None
  end.

(** A number of the grammar: -? (0 | [1-9][0-9]* ) (. [0-9]+)? ([eE][+-]?[0-9]+)? *)
Fixpoint read_digits (s : string) : string * string :=
  match s with
  | String c s' =>
      if within 48 57 (byte c) then let '(d, r) := read_digits s' in (String c d, r) else ("", s)
  | EmptyString => ("", s)
  end.
Definition read_number (s : string) : option (string * string) :=
  let '(sign, s) := match s with String "-" s => ("-", s) | _ => ("", s) end in
  let '(int, s) := match s with
                   | String "0" s => ("0", s)
                   | _ => read_digits s
                   end in
  if decide (int = "") then None
  else
    '(frac, s) ← match s with
                 | String "." s => let '(d, s) := read_digits s in
                                   if decide (d = "") then None else Some ("." +:+ d, s)
                 | _ => Some ("", s)
                 end;
    '(exp, s) ← match s with
                | String c s' =>
                    if decide (to_lower c = "e"%char) then
                      let '(es, s') := match s' with
                                       | String "-" s' => ("-", s') | String "+" s' => ("+", s') | _ => ("", s')
                                       end in
                      let '(d, s') := read_digits s' in
                      if decide (d = "") then None else Some (String c es +:+ d, s')
                    else Some ("", s)
                | EmptyString => Some ("", s)
                end;
    Some (sign +:+ int +:+ frac +:+ exp, s).

(** One value at the start of a text, and the rest. A call reads at least a
    byte before the next one, so the length is enough fuel. *)
Fixpoint read_value (fuel : nat) (s : string) : option (json * string) :=
  match fuel with
  | O => None
  | S fuel =>
      match skip_space s with
      | EmptyString => None
      | String c s' =>
          let s := String c s' in
          if has_prefix s "null" then Some (JNull, str_drop 4 s)
          else if has_prefix s "true" then Some (JBool true, str_drop 4 s)
          else if has_prefix s "false" then Some (JBool false, str_drop 5 s)
          else if decide (c = quote_char) then
            '(t, s) ← read_string (String.length s') s'; Some (JString t, s)
          else if decide (c = "["%char) then
            '(l, s) ← read_elements fuel true s'; Some (JArray l.*2, s)
          else if decide (c = "{"%char) then
            '(l, s) ← read_members fuel true s'; Some (JObject l, s)
          else '(t, s) ← read_number s; Some (JNumber t, s)
      end
  end
(** The elements of an array, each with its text; [first]: a closing bracket
    may follow at once. *)
with read_elements (fuel : nat) (first : bool) (s : string) : option (list (string * json) * string) :=
  match fuel with
  | O => None
  | S fuel =>
      let s := skip_space s in
      match first, s with
      | true, String "]" s => Some ([], s)
      | _, _ =>
          '(j, rest) ← read_value fuel s;
          let text := str_take (String.length s - String.length rest) s in
          match skip_space rest with
          | String "," rest => '(l, rest) ← read_elements fuel false rest; Some ((text, j) :: l, rest)
          | String "]" rest => Some ([(text, j)], rest)
          | _ => None
          end
      end
  end
with read_members (fuel : nat) (first : bool) (s : string) : option (list (string * json) * string) :=
  match fuel with
  | O => None
  | S fuel =>
      match first, skip_space s with
      | true, String "}" s => Some ([], s)
      | _, String q s =>
          if decide (q = quote_char) then
            '(name, s) ← read_string (String.length s) s;
            match skip_space s with
            | String ":" s =>
                '(j, s) ← read_value fuel s;
                match skip_space s with
                | String "," s => '(l, s) ← read_members fuel false s; Some ((name, j) :: l, s)
                | String "}" s => Some ([(name, j)], s)
                | _ => None
                end
            | _ => None
            end
          else None
      | _, _ => None
      end
  end.

Definition parse (s : string) : option json :=
  '(j, rest) ← read_value (2 * String.length s + 1) s;
  if decide (skip_space rest = "") then Some j else None.

(** [json.Unmarshal] into a [string] and into a [[]json.RawMessage]; null
    leaves the zero value. [None] is any error. *)
Definition Unmarshal_string (raw : string) : option string :=
  match parse raw with
  | Some (JString s) => Some s
  | Some JNull => Some ""
  | _ => None
  end.
Definition Unmarshal_raws (raw : string) : option (list string) :=
  match parse raw with
  | Some (JArray _) =>
      match skip_space raw with
      | String _ s => '(l, _) ← read_elements (2 * String.length raw) true s; Some l.*1
      | EmptyString => None
      end
  | Some JNull => Some []
  | _ => None
  end.

(** Into an [any]: numbers become [float64], an object a map, where the last
    of equal names counts. *)
Inductive any :=
| ANil | ABool (b : bool) | AFloat (x : float64) | AString (s : string)
| ASlice (l : list any) | AMap (m : list (string * any)).

Fixpoint to_any (j : json) : option any :=
  match j with
  | JNull => Some ANil
  | JBool b => Some (ABool b)
  | JNumber t => AFloat <$> ParseFloat t
  | JString s => Some (AString s)
  | JArray l =>
      ASlice <$> (fix go l := match l with
                              | [] => Some []
                              | j :: l => a ← to_any j; r ← go l; Some (a :: r)
                              end) l
  | JObject ms =>
      AMap <$> (fix go l := match l with
                            | [] => Some []
                            | (n, j) :: l => a ← to_any j; r ← go l;
                                Some (if existsb (λ p, bool_decide (p.1 = n)) r then r else (n, a) :: r)
                            end) ms
  end.
Definition Unmarshal_any (raw : string) : option any := parse raw ≫= to_any.
