(* ===== verification/NacosServices.v ===== *)
(** What Nacos reports about its services becomes RPC instances and the
    metadata of consumers: pkg/core/discovery/subscriber/nacos_service.go, with
    rpc_instance_helper.go and serviceconsumermetadata_helper.go of
    pkg/core/resource/apis/mesh/v1alpha1. *)
From S2P Require Import Prelude GoStrings Errors Resource Libs Indexers Store Queries EventBus Subscribers RegistryEvents Json Instances ServiceCatalog.
From Stdlib Require Import Ascii.

Open Scope string_scope.
Open Scope list_scope.

(** ** pkg/common/constants *)
Definition URLParamsKey : string := "dubbo.metadata-service.url-params".
Definition EndpointsKey : string := "dubbo.endpoints".
Definition MetadataRevisionKey : string := "dubbo.metadata.revision".
Definition MetadataStorageTypeKey : string := "dubbo.metadata.storage-type".
Definition TimestampKey : string := "timestamp".

(** [metadata[key]]. *)
Definition value_of (metadata : gmap string string) (key : string) : string := default "" (metadata !! key).

(** ** rpc_instance_helper.go

    [json.Unmarshal] into a [map[string]string]: a member of another type is
    the empty string, and the error of the call is only logged. *)
Definition Unmarshal_params (raw : string) : gmap string string :=
  match parse raw with
  | Some (JObject ms) =>
      foldl (λ m p, <[p.1 := match p.2 with JString s => s | _ => "" end]> m) ∅ ms
  | _ => ∅
  end.

(** Into a [[]*Endpoint]: names of fields in any case, members of other types
    are skipped, a nil pointer reads as an endpoint without port and protocol. *)
Definition endpoint_member (e : Z * string) (p : string * json) : Z * string :=
  match str_lower p.1, p.2 with
  | "port", JNumber t => (default e.1 (ParseInt t), e.2)
  | "protocol", JString s => (e.1, s)
  | _, _ => e
  end.
Definition Unmarshal_endpoints (raw : string) : list (Z * string) :=
  match parse raw with
  | Some (JArray l) =>
      (λ j, match j with JObject ms => foldl endpoint_member (0%Z, "") ms | _ => (0%Z, "") end) <$> l
  | _ => []
  end.

Definition getRPCInstanceTags (metadata : gmap string string) : gmap string string :=
  filter (λ p, p.1 ∉ [URLParamsKey; EndpointsKey; MetadataRevisionKey; MetadataStorageTypeKey; TimestampKey])
    metadata.

Section subscriber.
(** [time.UnixMilli(t).Format], and [strutil.IsBlank]. *)
Context (FormatMilli : Z → string) (IsBlank : string → bool).

Definition ToRPCInstance (mesh appName ip : string) (port : Z) (metadata : gmap string string) : Resource :=
  let resName := BuildInstanceResName appName ip port in
  let registerTime := match ParseInt (value_of metadata TimestampKey) with
                      | Some timestamp => FormatMilli timestamp
                      | None => ""
                      end in
  let paramsMap := match metadata !! URLParamsKey with
                   | Some urlParams => Unmarshal_params urlParams
                   | None => ∅
                   end in
  {| res_meta := {| meta_Name := resName; meta_Labels := Some ∅; meta_Annotations := None |};
     res_Mesh := mesh;
     res_spec := RPCInstanceSpec (Some {|
       rpc_Name := resName; rpc_Ip := ip; rpc_Port := port; rpc_AppName := appName;
       rpc_RegisterTime := registerTime; rpc_UnregisterTime := "";
       rpc_Revision := value_of metadata MetadataRevisionKey;
       rpc_MetadataStorageType := value_of metadata MetadataStorageTypeKey;
       rpc_ReleaseVersion := value_of paramsMap "release"; rpc_Protocol := value_of paramsMap "protocol";
       rpc_Serialization := value_of paramsMap "serialization";
       rpc_PreferSerialization := value_of paramsMap "prefer.serialization";
       rpc_Tags := getRPCInstanceTags metadata;
       rpc_Endpoints := Unmarshal_endpoints (value_of metadata EndpointsKey);
       rpc_Metadata := metadata |}) |}.

(** *** serviceconsumermetadata_helper.go *)
Definition ToServiceConsumerMetadataByMap (metadata : gmap string string) (mesh : string) : option Resource :=
  let consumerAppName := value_of metadata "application" in
  match metadata !! "interface" with
  | None => None
  | Some serviceName =>
      let version := value_of metadata "version" in
      let group := value_of metadata "group" in
      Some {| res_meta := {| meta_Name := BuildServiceKey serviceName version group consumerAppName;
                             meta_Labels := Some ∅; meta_Annotations := None |};
              res_Mesh := mesh;
              res_spec := ServiceConsumerMetadataSpec {|
                scm_ServiceName := serviceName; scm_ConsumerAppName := consumerAppName;
                scm_Version := version; scm_Group := group; scm_Metadata := metadata |} |}
  end.

(** ** nacos_service.go *)
Definition nacos_spec (r : Resource) : option NacosService :=
  match res_spec r with NacosServiceSpec s => s | _ => None end.

(** [maputil.FromEntries]: the last entry of a key counts. *)
Definition FromEntries {A} (l : list (string * A)) : gmap string A := foldl (λ m e, <[e.1 := e.2]> m) ∅ l.

Definition rpc_entry (r : Resource) (i : NacosInstance) : string * Resource :=
  let res := ToRPCInstance (res_Mesh r) (res_Name r) (ni_Ip i) (ni_Port i) (ni_Metadata i) in
  (ResourceKey res, res).

(** An instance with invalid metadata has the empty key and a nil resource. *)
Definition consumer_entry (r : Resource) (i : NacosInstance) : string * option Resource :=
  match ToServiceConsumerMetadataByMap (ni_Metadata i) (res_Mesh r) with
  | Some res => (ResourceKey res, Some res)
  | None => ("", None)
  end.

(** A word character or a dot; the rest of a text behind them. *)
Definition word_char (c : ascii) : bool :=
  is_upper c || is_lower c || bool_decide (48 ≤ Z.of_nat (nat_of_ascii c) ≤ 57)%Z || bool_decide (c ∈ ["_"; "."]%char).
Fixpoint skip_word (s : string) : string :=
  match s with String c s' => if word_char c then skip_word s' else s | EmptyString => "" end.

(** [providerRe] and [consumerRe]: the side, a colon, word characters, and
    nothing more, or a colon, word characters and a colon, or two colons and
    word characters. *)
Definition side_matches (side name : string) : bool :=
  has_prefix name (side +:+ ":") &&
  let s := str_drop (String.length side + 1) name in
  match s with
  | String c _ =>
      word_char c &&
      match skip_word s with
      | EmptyString => true
      | String d s2 =>
          bool_decide (d = ":"%char) &&
          (bool_decide (skip_word s2 = ":") ||
           match s2 with String e s3 => bool_decide (e = ":"%char ∧ skip_word s3 = "") | _ => false end)
      end
  | EmptyString => false
  end.

Definition parseServiceName (s : string) : result error string :=
  if has_prefix s "consumers:" then
    Ok (default "" (head (str_split ":" (str_drop (String.length "consumers:") s))))
  else Err (ErrorText "invalid prefix").

Definition ByRPCInstanceAppName : string := "idx_rpc_instance_app_name".
Definition ByServiceConsumerServiceName : string := "idx_service_consumer_service_name".

Section handlers.
Context {St : Type} `{ResourceStore St} `{MapRange}.
Context (now : nat → Z) (Format : Z → string) (res_String : Resource → string).

(** *** Keeping a store in step with a report

    The loops of both upsert handlers: an item of an invalid instance is nil
    and panics when it is stored; a failed write is logged. *)
Definition delete_item (k : ResourceKind) (item : Resource) : M St unit :=
  ok ← attempt (writing k st_Delete item);
  if (ok : bool) then Send (NewResourceChangedEvent Deleted (Some item) None) else mret ().
Definition add_item (k : ResourceKind) (item : option Resource) : M St unit :=
  match item with
  | None => fail nil_pointer
  | Some item =>
      ok ← attempt (writing k st_Add item);
      if (ok : bool) then Send (NewResourceChangedEvent Added None (Some item)) else mret ()
  end.
Definition update_item (k : ResourceKind) (item : option Resource) : M St unit :=
  match item with
  | None => fail nil_pointer
  | Some item =>
      ok ← attempt (writing k st_Update item);
      if (ok : bool) then Send (NewResourceChangedEvent Updated (Some item) (Some item)) else mret ()
  end.

(** [maputil.Minus] is the difference of maps. *)
Definition synchronize (k : ResourceKind) (oldItems : gmap string Resource) (newItems : gmap string (option Resource))
    : M St unit :=
  _ ← each (delete_item k) (go_range (filter (λ p, newItems !! p.1 = None) oldItems)).*2;
  _ ← each (add_item k) (go_range (filter (λ p, oldItems !! p.1 = None) newItems)).*2;
  each (update_item k) (go_range (filter (λ p, is_Some (oldItems !! p.1)) newItems)).*2.

Definition by_key (l : list Resource) : gmap string Resource := FromEntries ((λ r, (ResourceKey r, r)) <$> l).

(** *** Events for the console *)
Definition recorded_type (t : DeltaType) : bool :=
  match t with Added | Updated | Deleted => true | _ => false end.

Definition buildNacosRPCInstanceMap (r : option Resource) : gmap string Resource :=
  match r with
  | None => ∅
  | Some r => match nacos_spec r with
              | None => ∅
              | Some s => FromEntries (rpc_entry r <$> ns_Instances s)
              end
  end.

Definition buildNacosConsumerMap (r : option Resource) : gmap string Resource :=
  match r with
  | None => ∅
  | Some r => match nacos_spec r with
              | None => ∅
              | Some s => by_key (omap (λ i, ToServiceConsumerMetadataByMap (ni_Metadata i) (res_Mesh r)) (ns_Instances s))
              end
  end.

Definition instance_input (action what : string) (item : Resource) : list RegistryEventInput :=
  match rpc_spec item with
  | None => []
  | Some s =>
      [{| ri_Mesh := res_Mesh item; ri_Source := "Nacos"; ri_SourceType := "nacos"; ri_Category := "registry";
          ri_Action := action;
          ri_Message := "Nacos instance " +:+ what +:+ ": " +:+ rpc_Name s +:+ " (" +:+ rpc_Ip s +:+ ":" +:+
                        pretty (rpc_Port s) +:+ ")";
          ri_Type := ""; ri_AppName := rpc_AppName s; ri_InstanceName := rpc_Name s; ri_InstanceIP := rpc_Ip s;
          ri_ServiceName := "" |}]
  end.

Definition consumer_input (serviceName action what : string) (item : Resource) : list RegistryEventInput :=
  match res_spec item with
  | ServiceConsumerMetadataSpec s =>
      [{| ri_Mesh := res_Mesh item; ri_Source := "Nacos"; ri_SourceType := "nacos"; ri_Category := "metadata";
          ri_Action := action;
          ri_Message := "Nacos consumer metadata " +:+ what +:+ ": " +:+ scm_ConsumerAppName s +:+ " -> " +:+ serviceName;
          ri_Type := ""; ri_AppName := scm_ConsumerAppName s; ri_InstanceName := ""; ri_InstanceIP := "";
          ri_ServiceName := serviceName |}]
  | _ => []
  end.

(** The three loops: what is gone, what is new, what has another spec. *)
Definition changes (oldItems newItems : gmap string Resource) (gone added updated : Resource → list RegistryEventInput)
    (same : Resource → Resource → bool) : list RegistryEventInput :=
  ((go_range (filter (λ p, newItems !! p.1 = None) oldItems)).*2 ≫= gone) ++
  ((go_range (filter (λ p, oldItems !! p.1 = None) newItems)).*2 ≫= added) ++
  (go_range newItems ≫= λ p,
     match oldItems !! p.1 with
     | None => []
     | Some oldItem => if same oldItem p.2 then [] else updated p.2
     end).

#[local] Instance RPCInstance_eq_dec : EqDecision RPCInstance.
Proof. solve_decision. Defined.
#[local] Instance ServiceConsumerMetadata_eq_dec : EqDecision ServiceConsumerMetadata.
Proof. solve_decision. Defined.

(** [reflect.DeepEqual] of the specs. *)
Definition same_rpc (a b : Resource) : bool :=
  match rpc_spec a, rpc_spec b with Some s, Some t => bool_decide (s = t) | _, _ => true end.
Definition same_consumer (a b : Resource) : bool :=
  match res_spec a, res_spec b with
  | ServiceConsumerMetadataSpec s, ServiceConsumerMetadataSpec t => bool_decide (s = t)
  | _, _ => true
  end.

Definition recordNacosInstanceEvents (oldService newService : option Resource) (eventType : DeltaType) : M St unit :=
  if recorded_type eventType then
    record_events now Format 0
      (changes (buildNacosRPCInstanceMap oldService) (buildNacosRPCInstanceMap newService)
         (instance_input "deregistered" "deregistered") (instance_input "registered" "registered")
         (instance_input "updated" "metadata updated") same_rpc)
  else mret ().

Definition recordNacosConsumerEvents (oldService newService : option Resource) (eventType : DeltaType)
    (serviceName : string) : M St unit :=
  if recorded_type eventType then
    record_events now Format 0
      (changes (buildNacosConsumerMap oldService) (buildNacosConsumerMap newService)
         (consumer_input serviceName "consumer-removed" "removed")
         (consumer_input serviceName "consumer-added" "added")
         (consumer_input serviceName "consumer-updated" "updated") same_consumer)
  else mret ().

(** *** The handlers *)
Definition rpc_instances_of (r : Resource) : M St (list Resource) :=
  list_typed RPCInstanceKind [equals ByMeshIndex (res_Mesh r); equals ByRPCInstanceAppName (res_Name r)]
    (NewAssertionError (kind_string RPCInstanceKind) "").

Definition processRPCInstanceUpsert (oldService : option Resource) (r : Resource) (eventType : DeltaType) : M St unit :=
  match nacos_spec r with
  | None => fail nil_pointer
  | Some s =>
      let newInstances := FromEntries (rpc_entry r <$> ns_Instances s) in
      resources ← rpc_instances_of r;
      _ ← synchronize RPCInstanceKind (by_key resources) (Some <$> newInstances);
      recordNacosInstanceEvents oldService (Some r) eventType
  end.

(** The event is sent even if the deletion failed. *)
Definition processRPCInstanceDelete (r : Resource) (eventType : DeltaType) : M St unit :=
  resources ← reading RPCInstanceKind (λ st, st_ListByIndexes st
    [equals ByMeshIndex (res_Mesh r); equals ByRPCInstanceAppName (res_Name r)]);
  _ ← each (λ item, _ ← attempt (writing RPCInstanceKind st_Delete item);
                    Send (NewResourceChangedEvent Deleted (Some item) None)) resources;
  recordNacosInstanceEvents (Some r) None eventType.

Definition parse_error (r : Resource) (e : error) : error :=
  biz_wrap e UnknownError ("parse service name error, raw nacos service is" +:+ res_String r).

Definition processConsumerMetadataUpsert (oldService : option Resource) (r : Resource) (eventType : DeltaType) : M St unit :=
  match parseServiceName (res_Name r) with
  | Err e => fail (parse_error r e)
  | Ok serviceName =>
      match nacos_spec r with
      | None => fail nil_pointer
      | Some s =>
          let newConsumers := FromEntries (consumer_entry r <$> ns_Instances s) in
          resources ← list_typed ServiceConsumerMetadataKind
            [equals ByMeshIndex (res_Mesh r); equals ByServiceConsumerServiceName serviceName]
            (NewAssertionError (kind_string ServiceConsumerMetadataKind) "");
          _ ← synchronize ServiceConsumerMetadataKind (by_key resources) newConsumers;
          recordNacosConsumerEvents oldService (Some r) eventType serviceName
      end
  end.

Definition processServiceConsumerDelete (r : Resource) (eventType : DeltaType) : M St unit := λ w,
  match ResourceKindRoute (w_stores w) ServiceConsumerMetadataKind with
  | Err e => (w, Err e)
  | Ok _ =>
      match parseServiceName (res_Name r) with
      | Err e => (w, Err (parse_error r e))
      | Ok serviceName =>
          (resources ← reading ServiceConsumerMetadataKind (λ st, st_ListByIndexes st
             [equals ByMeshIndex (res_Mesh r); equals ByServiceConsumerServiceName serviceName]);
           _ ← each (λ item, _ ← attempt (writing ServiceConsumerMetadataKind st_Delete item);
                             Send (NewResourceChangedEvent Deleted (Some item) None)) resources;
           recordNacosConsumerEvents (Some r) None eventType serviceName) w
      end
  end.

Definition nacos_processUpsert (oldService : option Resource) (r : Resource) (eventType : DeltaType) : M St unit :=
  if side_matches "providers" (res_Name r) then mret ()
  else if side_matches "consumers" (res_Name r) then processConsumerMetadataUpsert oldService r eventType
  else processRPCInstanceUpsert oldService r eventType.

Definition nacos_processDelete (r : Resource) (eventType : DeltaType) : M St unit :=
  if side_matches "providers" (res_Name r) then mret ()
  else if side_matches "consumers" (res_Name r) then processServiceConsumerDelete r eventType
  else processRPCInstanceDelete r eventType.

Definition nacos_ProcessEvent (event : Event) : M St unit :=
  let failed r := NewAssertionError "*v1alpha1.NacosServiceResource" (res_String r) in
  newObj ← lift (expect NacosServiceKind failed (ev_newObj event));
  oldObj ← lift (expect NacosServiceKind failed (ev_oldObj event));
  process_change "nacos service" (biz_new EventError) event newObj oldObj
    (λ r, nacos_processUpsert oldObj r (ev_typ event)) (λ r, nacos_processDelete r (ev_typ event)).
End handlers.
End subscriber.
