(* ===== verification/RegistrySync.v ===== *)
(** After a report of Nacos the store of RPC instances holds what was reported
    about the application, and the events sent say exactly what changed. *)
From S2P Require Import Prelude GoStrings Errors Resource Libs Indexers Store Queries EventBus Subscribers RegistryEvents Json Instances ServiceCatalog NacosServices.

Open Scope string_scope.
Open Scope list_scope.

Section sync.
Context {St : Type} `{ResourceStoreQueries St} `{MapRange}.

(** ** Loops over items *)

(** Each item of [l] has its effect on the store of kind [k] and sends an
    event, where [pre] holds when its turn comes. *)
Section loop.
Context {A : Type} (f : A → M St unit) (k : ResourceKind).
Context (eff : gmap string Resource → A → gmap string Resource) (ev : A → Event) (pre : gmap string Resource → A → Prop).

Fixpoint pre_all (m : gmap string Resource) (l : list A) : Prop :=
  match l with [] => True | x :: l => pre m x ∧ pre_all (eff m x) l end.

Lemma each_changed w l :
  (∀ w x, world_ok w → k ∈ dom (w_stores w) → pre (items w k) x →
     ∃ w', f x w = (w', Ok ()) ∧ changed w w' k (eff (items w k) x) [ev x]) →
  world_ok w → k ∈ dom (w_stores w) → pre_all (items w k) l →
  ∃ w', each f l w = (w', Ok ()) ∧ changed w w' k (foldl eff (items w k) l) (ev <$> l).
Proof.
  intros Hf. revert w. induction l as [|x l IH]; intros w Hw Hd Hp; [exists w; by split; [|apply changed_refl]|].
  destruct Hp as [Hx Hl]. destruct (Hf w x Hw Hd Hx) as (w1 & Hw1 & Hc1).
  destruct (IH w1) as (w2 & Hw2 & Hc2).
  - apply (ch_ok _ _ _ _ _ Hc1).
  - by rewrite (ch_kinds _ _ _ _ _ Hc1).
  - by rewrite (ch_items _ _ _ _ _ Hc1).
  - exists w2. rewrite (ch_items _ _ _ _ _ Hc1) in Hc2.
    split; [cbn [each]; by erewrite bind_ok by exact Hw1|]. exact (changed_trans _ _ _ _ _ _ _ _ Hc1 Hc2).
Qed.
End loop.

Lemma each_fmap {A B} (f : B → M St unit) (g : A → B) l : each f (g <$> l) = each (λ x, f (g x)) l.
Proof. induction l as [|x l IH]; [done|]. csimpl. by rewrite IH. Qed.

Lemma attempt_ok (m : M St unit) w w' : m w = (w', Ok ()) → attempt m w = (w', Ok true).
Proof. intros Hm. unfold attempt. by rewrite Hm. Qed.

Definition deleted_event (r : Resource) : Event := NewResourceChangedEvent Deleted (Some r) None.
Definition added_event (r : Resource) : Event := NewResourceChangedEvent Added None (Some r).
Definition updated_event (r : Resource) : Event := NewResourceChangedEvent Updated (Some r) (Some r).

Lemma delete_item_ok k w r : world_ok w → k ∈ dom (w_stores w) → is_Some (items w k !! ResourceKey r) →
  ∃ w', delete_item k r w = (w', Ok ()) ∧ changed w w' k (delete (ResourceKey r) (items w k)) [deleted_event r].
Proof.
  intros Hw Hd Hs. destruct (writing_Delete w k r Hw Hd Hs) as (w' & Hw' & Hc). eexists.
  unfold delete_item. erewrite bind_ok by by apply attempt_ok. split; [done|]. exact (changed_send _ _ _ _ _ _ Hc).
Qed.
Lemma add_item_ok k w r : world_ok w → k ∈ dom (w_stores w) → res_kind r = k → items w k !! ResourceKey r = None →
  ∃ w', add_item k (Some r) w = (w', Ok ()) ∧ changed w w' k (<[ResourceKey r := r]> (items w k)) [added_event r].
Proof.
  intros Hw Hd <- Hs. destruct (writing_Add w r Hw Hd Hs) as (w' & Hw' & Hc). eexists.
  unfold add_item. erewrite bind_ok by by apply attempt_ok. split; [done|]. exact (changed_send _ _ _ _ _ _ Hc).
Qed.
Lemma update_item_ok k w r : world_ok w → k ∈ dom (w_stores w) → res_kind r = k → is_Some (items w k !! ResourceKey r) →
  ∃ w', update_item k (Some r) w = (w', Ok ()) ∧ changed w w' k (<[ResourceKey r := r]> (items w k)) [updated_event r].
Proof.
  intros Hw Hd <- Hs. destruct (writing_Update w r Hw Hd Hs) as (w' & Hw' & Hc). eexists.
  unfold update_item. erewrite bind_ok by by apply attempt_ok. split; [done|]. exact (changed_send _ _ _ _ _ _ Hc).
Qed.

(** *** What the loops leave *)
Definition drop (m : gmap string Resource) (r : Resource) := delete (ResourceKey r) m.
Definition put (m : gmap string Resource) (r : Resource) := <[ResourceKey r := r]> m.

Lemma fold_drop m l j : foldl drop m l !! j = if decide (j ∈ ResourceKey <$> l) then None else m !! j.
Proof.
  revert m. induction l as [|r l IH]; intros m; [done|]. cbn [foldl]. rewrite IH. csimpl. unfold drop.
  destruct (decide (j ∈ ResourceKey <$> l)) as [Hin|Hin]; [by rewrite decide_True by by right|].
  destruct (decide (ResourceKey r = j)) as [<-|Hne].
  - rewrite lookup_delete_eq, decide_True; [done|left].
  - rewrite lookup_delete_ne, decide_False; [done|set_solver|done].
Qed.

Lemma fold_put m l j : NoDup (ResourceKey <$> l) →
  (∀ r, r ∈ l → ResourceKey r = j → foldl put m l !! j = Some r) ∧
  (j ∉ ResourceKey <$> l → foldl put m l !! j = m !! j).
Proof.
  revert m. induction l as [|r l IH]; intros m; [by split; [set_solver|]|].
  csimpl. intros [Hnin Hn]%NoDup_cons. destruct (IH (put m r) Hn) as [Hin Hout]. split.
  - intros r' [->|Hr']%elem_of_cons Hk; [|by apply Hin]. rewrite Hout by by rewrite <-Hk.
    unfold put. by rewrite Hk, lookup_insert_eq.
  - intros [Hne Hj]%not_elem_of_cons. rewrite Hout by done. unfold put. by rewrite lookup_insert_ne.
Qed.

Lemma drop_pre m l : NoDup (ResourceKey <$> l) → (∀ r, r ∈ l → is_Some (m !! ResourceKey r)) →
  pre_all drop (λ m r, is_Some (m !! ResourceKey r)) m l.
Proof.
  revert m. induction l as [|r l IH]; intros m; [done|]. csimpl. intros [Hnin Hn]%NoDup_cons Hl.
  split; [apply Hl; left|]. apply IH; [done|]. intros r' Hr'. unfold drop.
  rewrite lookup_delete_ne; [apply Hl; by right|]. intros Hk. apply Hnin. rewrite Hk. by apply list_elem_of_fmap_2.
Qed.

Lemma add_pre k m l : NoDup (ResourceKey <$> l) → (∀ r, r ∈ l → res_kind r = k ∧ m !! ResourceKey r = None) →
  pre_all put (λ m r, res_kind r = k ∧ m !! ResourceKey r = None) m l.
Proof.
  revert m. induction l as [|r l IH]; intros m; [done|]. csimpl. intros [Hnin Hn]%NoDup_cons Hl.
  split; [apply Hl; left|]. apply IH; [done|]. intros r' Hr'. unfold put.
  rewrite lookup_insert_ne; [apply Hl; by right|]. intros Hk. apply Hnin. rewrite Hk. by apply list_elem_of_fmap_2.
Qed.

Lemma update_pre k m l : (∀ r, r ∈ l → res_kind r = k ∧ is_Some (m !! ResourceKey r)) →
  pre_all put (λ m r, res_kind r = k ∧ is_Some (m !! ResourceKey r)) m l.
Proof.
  revert m. induction l as [|r l IH]; intros m Hl; [done|].
  split; [apply Hl; left|]. apply IH. intros r' Hr'. destruct (Hl r') as [? ?]; [by right|]. split; [done|].
  unfold put. destruct (decide (ResourceKey r = ResourceKey r')) as [->|Hne]; [by rewrite lookup_insert_eq|].
  by rewrite lookup_insert_ne.
Qed.

(** The values of a map whose entries are filed under their keys. *)
Lemma map_range_keys (m : gmap string Resource) : self_keyed m → ResourceKey <$> (go_range m).*2 = (go_range m).*1.
Proof.
  intros Hm. rewrite <-list_fmap_compose. apply list_fmap_ext. intros i [k r] Hi. simpl. apply (Hm k r).
  apply elem_of_go_range. by eapply list_elem_of_lookup_2.
Qed.

Lemma range_values (m : gmap string Resource) r : self_keyed m → r ∈ (go_range m).*2 ↔ m !! ResourceKey r = Some r.
Proof.
  intros Hm. rewrite list_elem_of_fmap. split.
  - intros ([k r'] & -> & Hk%elem_of_go_range). simpl. by rewrite (Hm _ _ Hk).
  - intros Hr. exists (ResourceKey r, r). split; [done|]. by apply elem_of_go_range.
Qed.

Lemma range_NoDup (m : gmap string Resource) : self_keyed m → NoDup (ResourceKey <$> (go_range m).*2).
Proof. intros Hm. rewrite map_range_keys by done. apply NoDup_go_range_fst. Qed.

(** The values of a map of resources that are not nil. *)
Lemma range_somes (m : gmap string Resource) (n : gmap string (option Resource)) :
  self_keyed m → (∀ k, n !! k = Some <$> m !! k) →
  ∃ l, (go_range n).*2 = Some <$> l ∧ NoDup (ResourceKey <$> l) ∧ (∀ r, r ∈ l ↔ m !! ResourceKey r = Some r) ∧
    ∀ j, j ∈ ResourceKey <$> l ↔ is_Some (m !! j).
Proof.
  intros Hm Hn.
  assert (Hl : ∀ p, p ∈ go_range n → ∃ r, p = (ResourceKey r, Some r) ∧ m !! ResourceKey r = Some r).
  { intros [k o] Hk%elem_of_go_range. rewrite Hn in Hk. destruct (m !! k) as [r|] eqn:Hr; [|done].
    injection Hk as <-. exists r. by rewrite (Hm _ _ Hr). }
  exists (omap id (go_range n).*2).
  assert (Hs : (go_range n).*2 = Some <$> omap id (go_range n).*2 ∧ ResourceKey <$> omap id (go_range n).*2 = (go_range n).*1).
  { revert Hl. generalize (go_range n). intros l Hl. induction l as [|p l IH]; [done|].
    destruct (Hl p ltac:(left)) as (r & -> & _). destruct IH as [IH1 IH2]; [intros q Hq; apply Hl; by right|].
    csimpl. split; f_equal; done. }
  destruct Hs as [Hs Hk]. split; [done|]. split; [rewrite Hk; apply NoDup_go_range_fst|]. split.
  - intros r. rewrite list_elem_of_omap. split.
    + intros (o & Ho & Hor). unfold id in Hor. subst o. apply list_elem_of_fmap in Ho as (p & Hp & Hin).
      destruct (Hl p Hin) as (r' & -> & Hr'). simpl in Hp. injection Hp as ->. done.
    + intros Hr. exists (Some r). split; [|done]. apply list_elem_of_fmap. exists (ResourceKey r, Some r). split; [done|].
      apply elem_of_go_range. by rewrite Hn, Hr.
  - intros j. rewrite Hk, list_elem_of_fmap. split.
    + intros ([j' o] & -> & Hj%elem_of_go_range). rewrite Hn in Hj. simpl. destruct (m !! j'); [by eexists|done].
    + intros [r Hr]. exists (j, Some r). split; [done|]. apply elem_of_go_range. by rewrite Hn, Hr.
Qed.

(** ** Synchronizing *)
Definition departed (old new : gmap string Resource) : gmap string Resource := filter (λ p, new !! p.1 = None) old.
Definition arrived (old new : gmap string Resource) : gmap string Resource := filter (λ p, old !! p.1 = None) new.
Definition stayed (old new : gmap string Resource) : gmap string Resource := filter (λ p, is_Some (old !! p.1)) new.

(** The list has the values of the map, each once. *)
Definition lists (l : list Resource) (m : gmap string Resource) : Prop :=
  NoDup (ResourceKey <$> l) ∧ ∀ r, r ∈ l ↔ m !! ResourceKey r = Some r.

Lemma lists_keys l m j : self_keyed m → lists l m → j ∈ ResourceKey <$> l ↔ is_Some (m !! j).
Proof.
  intros Hm [_ Hl]. rewrite list_elem_of_fmap. split.
  - intros (r & -> & Hr%Hl). by eexists.
  - intros [r Hr]. exists r. rewrite Hl, (Hm _ _ Hr). done.
Qed.

Lemma self_keyed_filter (P : string * Resource → Prop) `{∀ x, Decision (P x)} (m : gmap string Resource) :
  self_keyed m → self_keyed (filter P m).
Proof. intros Hm k r [Hk _]%map_lookup_filter_Some. by apply Hm. Qed.

(** What the three loops leave. *)
Lemma synchronized_items m old new ds as_ us : self_keyed old → self_keyed new →
  lists ds (departed old new) → lists as_ (arrived old new) → lists us (stayed old new) →
  foldl put (foldl put (foldl drop m ds) as_) us = new ∪ (m ∖ old).
Proof.
  intros Ho Hn Hd Ha Hu. apply map_eq. intros j.
  pose proof (lists_keys ds _ j (self_keyed_filter _ _ Ho) Hd) as Hdj.
  pose proof (lists_keys as_ _ j (self_keyed_filter _ _ Hn) Ha) as Haj.
  pose proof (lists_keys us _ j (self_keyed_filter _ _ Hn) Hu) as Huj.
  destruct (fold_put (foldl put (foldl drop m ds) as_) us j (proj1 Hu)) as [Hu1 Hu2].
  destruct (fold_put (foldl drop m ds) as_ j (proj1 Ha)) as [Ha1 Ha2].
  destruct (new !! j) as [r|] eqn:Hr.
  - rewrite (lookup_union_Some_l _ _ _ _ Hr). pose proof (Hn _ _ Hr) as Hk. destruct (old !! j) as [o|] eqn:Hoj.
    + apply Hu1; [|done]. apply (proj2 Hu). rewrite Hk. apply map_lookup_filter_Some. split; [done|]. simpl. by rewrite Hoj.
    + rewrite Hu2.
      * apply Ha1; [|done]. apply (proj2 Ha). rewrite Hk. by apply map_lookup_filter_Some.
      * rewrite Huj. intros [x [_ Hx]%map_lookup_filter_Some]. simpl in Hx. rewrite Hoj in Hx. by destruct Hx.
  - rewrite lookup_union_r by done. rewrite Hu2.
    2: { rewrite Huj. intros [x [Hx _]%map_lookup_filter_Some]. congruence. }
    rewrite Ha2. 2: { rewrite Haj. intros [x [Hx _]%map_lookup_filter_Some]. congruence. }
    rewrite fold_drop. rewrite lookup_difference. destruct (old !! j) as [o|] eqn:Hoj.
    + rewrite decide_True; [done|]. rewrite Hdj. exists o. by apply map_lookup_filter_Some.
    + rewrite decide_False; [done|]. rewrite Hdj. intros [x [Hx _]%map_lookup_filter_Some]. congruence.
Qed.

Lemma synchronize_ok w k old new : world_ok w → k ∈ dom (w_stores w) → self_keyed new →
  map_Forall (λ _ r, res_kind r = k) new → old ⊆ items w k →
  (∀ j, is_Some (new !! j) → is_Some (items w k !! j) → is_Some (old !! j)) →
  ∃ w' ds as_ us, synchronize k old (Some <$> new) w = (w', Ok ()) ∧
    changed w w' k (new ∪ (items w k ∖ old))
      ((deleted_event <$> ds) ++ (added_event <$> as_) ++ (updated_event <$> us)) ∧
    lists ds (departed old new) ∧ lists as_ (arrived old new) ∧ lists us (stayed old new).
Proof.
  intros Hw Hd Hn Hk Hsub Hclash.
  assert (Ho : self_keyed old).
  { intros j r Hr. apply (items_key w k j r Hw). by eapply lookup_weaken. }
  assert (Hds : (go_range (filter (λ p : string * Resource, (Some <$> new : gmap string (option Resource)) !! p.1 = None) old)).*2 =
    (go_range (departed old new)).*2).
  { f_equal. f_equal. apply map_filter_ext. intros j r _. simpl. rewrite lookup_fmap. by destruct (new !! j). }
  destruct (range_somes (arrived old new) (filter (λ p : string * option Resource, old !! p.1 = None) (Some <$> new))) as (as_ & Has & Hna & Hina & _).
  { by apply self_keyed_filter. }
  { intros j. unfold arrived. rewrite map_filter_fmap, lookup_fmap. done. }
  destruct (range_somes (stayed old new) (filter (λ p : string * option Resource, is_Some (old !! p.1)) (Some <$> new))) as (us & Hus & Hnu & Hinu & _).
  { by apply self_keyed_filter. }
  { intros j. unfold stayed. rewrite map_filter_fmap, lookup_fmap. done. }
  set (ds := (go_range (departed old new)).*2) in *.
  assert (Hld : lists ds (departed old new)).
  { split; [by apply range_NoDup, self_keyed_filter|]. intros r. by apply range_values, self_keyed_filter. }
  assert (Hla : lists as_ (arrived old new)) by done. assert (Hlu : lists us (stayed old new)) by done.
  destruct (each_changed (delete_item k) k drop deleted_event (λ m r, is_Some (m !! ResourceKey r)) w ds) as (w1 & Hw1 & Hc1).
  { intros. by apply delete_item_ok. } { done. } { done. }
  { apply drop_pre; [apply Hld|]. intros r [Hr _]%(proj2 Hld)%map_lookup_filter_Some. exists r. by eapply lookup_weaken. }
  destruct (each_changed (λ r, add_item k (Some r)) k put added_event
    (λ m r, res_kind r = k ∧ m !! ResourceKey r = None) w1 as_) as (w2 & Hw2 & Hc2).
  { intros ? ? ? ? [? ?]. by apply add_item_ok. }
  { apply (ch_ok _ _ _ _ _ Hc1). } { by rewrite (ch_kinds _ _ _ _ _ Hc1). }
  { apply add_pre; [apply Hla|]. intros r [Hr Hro]%(proj2 Hla)%map_lookup_filter_Some. split; [by eapply Hk|].
    rewrite (ch_items _ _ _ _ _ Hc1), fold_drop. destruct (decide _); [done|]. apply eq_None_not_Some. intros Hs.
    destruct (Hclash _ ltac:(by eexists) Hs) as [o Hoo]. simpl in Hro. congruence. }
  destruct (each_changed (λ r, update_item k (Some r)) k put updated_event
    (λ m r, res_kind r = k ∧ is_Some (m !! ResourceKey r)) w2 us) as (w3 & Hw3 & Hc3).
  { intros ? ? ? ? [? ?]. by apply update_item_ok. }
  { apply (ch_ok _ _ _ _ _ Hc2). } { by rewrite (ch_kinds _ _ _ _ _ Hc2), (ch_kinds _ _ _ _ _ Hc1). }
  { apply update_pre. intros r [Hr Hro]%(proj2 Hlu)%map_lookup_filter_Some. split; [by eapply Hk|].
    rewrite (ch_items _ _ _ _ _ Hc2), (ch_items _ _ _ _ _ Hc1).
    destruct (fold_put (foldl drop (items w k) ds) as_ (ResourceKey r) Hna) as [_ Hout]. rewrite Hout.
    - rewrite fold_drop, decide_False.
      + destruct Hro as [o Hoo]. exists o. by eapply lookup_weaken.
      + rewrite (lists_keys _ _ _ (self_keyed_filter _ _ Ho) Hld). intros [x [_ Hx]%map_lookup_filter_Some].
        simpl in Hx. congruence.
    - rewrite (lists_keys _ _ _ (self_keyed_filter _ _ Hn) Hla). intros [x [_ Hx]%map_lookup_filter_Some].
      simpl in Hx, Hro. rewrite Hx in Hro. by destruct Hro. }
  exists w3, ds, as_, us. split.
  - unfold synchronize. rewrite Hds. erewrite bind_ok by exact Hw1.
    rewrite Has, (each_fmap _ Some as_). erewrite bind_ok by exact Hw2. by rewrite Hus, (each_fmap _ Some us).
  - rewrite (ch_items _ _ _ _ _ Hc2), (ch_items _ _ _ _ _ Hc1), (synchronized_items _ old new) in Hc3 by done.
    split; [|done]. rewrite (assoc_L (++)).
    exact (changed_trans _ _ _ _ _ _ _ _ (changed_trans _ _ _ _ _ _ _ _ Hc1 Hc2) Hc3).
Qed.

(** Following the events gives what the loops leave. *)
Definition follow (m : gmap string Resource) (e : Event) : gmap string Resource :=
  match ev_typ e, ev_oldObj e, ev_newObj e with
  | Deleted, Some r, _ => drop m r
  | (Added | Updated), _, Some r => put m r
  | _, _, _ => m
  end.

Lemma follow_deleted m l : foldl follow m (deleted_event <$> l) = foldl drop m l.
Proof. revert m. induction l as [|r l IH]; intros m; [done|apply IH]. Qed.
Lemma follow_added m l : foldl follow m (added_event <$> l) = foldl put m l.
Proof. revert m. induction l as [|r l IH]; intros m; [done|apply IH]. Qed.
Lemma follow_updated m l : foldl follow m (updated_event <$> l) = foldl put m l.
Proof. revert m. induction l as [|r l IH]; intros m; [done|apply IH]. Qed.

(** ** Reports of Nacos *)
Context (FormatMilli : Z → string) (IsBlank : string → bool) (now : nat → Z) (Format : Z → string)
  (res_String : Resource → string).

(** The instances a report names. *)
Definition named (r : Resource) : gmap string Resource :=
  match nacos_spec r with Some s => FromEntries (rpc_entry FormatMilli r <$> ns_Instances s) | None => ∅ end.

(** A service is reported with its instances, or no longer exists. *)
Inductive notice := Reports (r : Resource) | Withdraws (r : Resource).

Definition service_of (r : Resource) : string * string := (res_Mesh r, res_Name r).

Definition noticed (a : gmap (string * string) Resource) (e : notice) : gmap (string * string) Resource :=
  match e with Reports r => <[service_of r := r]> a | Withdraws r => delete (service_of r) a end.

(** The event the informer of the service sends. *)
Definition announcement (a : gmap (string * string) Resource) (e : notice) : Event :=
  match e with
  | Reports r =>
      match a !! service_of r with
      | Some old => NewResourceChangedEvent Updated (Some old) (Some r)
      | None => NewResourceChangedEvent Added None (Some r)
      end
  | Withdraws r => NewResourceChangedEvent Deleted (Some r) None
  end.

(** An application of Nacos; [owner] tells the keys of the instances of
    different applications apart. *)
Context (owner : string → string * string).
Definition application (r : Resource) : Prop :=
  (∃ s, res_spec r = NacosServiceSpec (Some s)) ∧ IsBlank (res_Name r) = false ∧
  side_matches "providers" (res_Name r) = false ∧ side_matches "consumers" (res_Name r) = false ∧
  ∀ k, is_Some (named r !! k) → owner k = service_of r.

Fixpoint applications (a : gmap (string * string) Resource) (l : list notice) : Prop :=
  match l with
  | [] => True
  | e :: l => match e with Reports r => application r | Withdraws r => a !! service_of r = Some r end ∧
              applications (noticed a e) l
  end.

Fixpoint handle_notices (a : gmap (string * string) Resource) (l : list notice) : M St unit :=
  match l with
  | [] => mret ()
  | e :: l => _ ← nacos_ProcessEvent FormatMilli now Format res_String (announcement a e); handle_notices (noticed a e) l
  end.

Record wired (w : world St) : Prop := {
  wi_ok : world_ok w;
  wi_kinds : RPCInstanceKind ∈ dom (w_stores w) ∧ LifecycleEventKind ∈ dom (w_stores w);
  wi_mesh : indexers w RPCInstanceKind !! ByMeshIndex = Some ByMesh;
  wi_app : indexers w RPCInstanceKind !! ByRPCInstanceAppName = Some (byRPCInstanceAppName IsBlank) }.

(** The store has the instances of the applications last reported. *)
Record mirrored (w : world St) (a : gmap (string * string) Resource) : Prop := {
  mi_wired : wired w;
  mi_apps s r : a !! s = Some r → application r ∧ s = service_of r;
  mi_items k x : items w RPCInstanceKind !! k = Some x ↔ ∃ s r, a !! s = Some r ∧ named r !! k = Some x }.

Lemma FromEntries_lookup {A} (l : list (string * A)) (m : gmap string A) k x :
  foldl (λ m e, <[e.1 := e.2]> m) m l !! k = Some x → m !! k = Some x ∨ (k, x) ∈ l.
Proof.
  revert m. induction l as [|[j y] l IH]; intros m; [by left|]. cbn [foldl]. intros [Hm|Hl]%IH; [|right; by right].
  apply lookup_insert_Some in Hm as [[<- <-]|[_ ?]]; [right; left|by left].
Qed.

Lemma named_entry r k x : named r !! k = Some x →
  ResourceKey x = k ∧ res_kind x = RPCInstanceKind ∧ res_Mesh x = res_Mesh r ∧
  ∃ s, rpc_spec x = Some s ∧ rpc_AppName s = res_Name r.
Proof.
  unfold named. destruct (nacos_spec r) as [s|]; [|by rewrite lookup_empty].
  intros [Hk|Hk]%FromEntries_lookup; [by rewrite lookup_empty in Hk|].
  apply list_elem_of_fmap in Hk as (i & [= -> ->] & _). split_and!; [done..|]. by eexists.
Qed.

Lemma named_self_keyed r : self_keyed (named r).
Proof. intros k x Hk. by apply named_entry in Hk as (? & _). Qed.

(** *** The instances of an application *)
Definition current (a : gmap (string * string) Resource) (s : string * string) : gmap string Resource :=
  match a !! s with Some r => named r | None => ∅ end.
Definition own (w : world St) (r : Resource) : list Resource :=
  query (items w RPCInstanceKind)
    (all_are (indexers w RPCInstanceKind) [(ByMeshIndex, res_Mesh r); (ByRPCInstanceAppName, res_Name r)]).

Lemma rpc_spec_Some x i : rpc_spec x = Some i → res_spec x = RPCInstanceSpec (Some i).
Proof. unfold rpc_spec. by destruct (res_spec x); try done; intros ->. Qed.

Lemma own_match w a r x k : mirrored w a → application r → items w RPCInstanceKind !! k = Some x →
  all_are (indexers w RPCInstanceKind) [(ByMeshIndex, res_Mesh r); (ByRPCInstanceAppName, res_Name r)] x = true ↔
  is_Some (current a (service_of r) !! k).
Proof.
  intros Hmi Hr Hk. apply (mi_items _ _ Hmi) in Hk as (s & r' & Hs & Hx).
  destruct (mi_apps _ _ Hmi _ _ Hs) as [(_ & Hb' & _ & _ & Ho) ->]. pose proof (named_entry _ _ _ Hx) as (_ & _ & Hm & i & Hi & Ha).
  unfold all_are, index_is. cbn [forallb fst snd]. rewrite (wi_mesh _ (mi_wired _ _ Hmi)), (wi_app _ (mi_wired _ _ Hmi)).
  assert (Hix : index_has (byRPCInstanceAppName IsBlank) (res_Name r) (ResourceObj x) = bool_decide (res_Name r = res_Name r')).
  { unfold index_has, byRPCInstanceAppName, assert_spec. simpl. rewrite (rpc_spec_Some _ _ Hi). simpl. unfold index_field.
    rewrite Ha, Hb'. apply bool_decide_ext. set_solver. }
  rewrite Hix. unfold index_has, ByMesh. rewrite andb_true_r, andb_true_iff, !bool_decide_eq_true, Hm.
  unfold current. split.
  - intros [Hmm%list_elem_of_singleton Hn]. unfold service_of in Hs. rewrite <-Hmm, <-Hn in Hs. unfold service_of. rewrite Hs. by eexists.
  - destruct (a !! service_of r) as [r2|] eqn:Hr2; [|intros [? ?]; by rewrite lookup_empty in *]. intros Hk2.
    destruct (mi_apps _ _ Hmi _ _ Hr2) as [(_ & _ & _ & _ & Ho2) He].
    assert (service_of r' = service_of r) as [= -> ->]; [|by split; [left|]].
    rewrite <-(Ho k) by by eexists. rewrite (Ho2 k Hk2). done.
Qed.

Lemma by_key_lookup l k x : NoDup (ResourceKey <$> l) → by_key l !! k = Some x ↔ x ∈ l ∧ ResourceKey x = k.
Proof.
  intros Hn. assert (Hf : by_key l = foldl put ∅ l).
  { unfold by_key, FromEntries. generalize (∅ : gmap string Resource). clear Hn.
    induction l as [|y l IH]; intros m; [done|apply IH]. }
  rewrite Hf. destruct (fold_put ∅ l k Hn) as [Hin Hout]. split.
  - intros Hk. destruct (decide (k ∈ ResourceKey <$> l)) as [Hkl|Hkl]; [|rewrite Hout, lookup_empty in Hk by done; done].
    apply list_elem_of_fmap in Hkl as (y & -> & Hy). rewrite (Hin y Hy eq_refl) in Hk. by injection Hk as <-.
  - intros [Hx Hk]. by apply Hin.
Qed.

Lemma own_elem w a r x : mirrored w a → application r → x ∈ own w r ↔ current a (service_of r) !! ResourceKey x = Some x.
Proof.
  intros Hmi Hr. unfold own. rewrite elem_of_query by apply items_self_keyed, (wi_ok _ (mi_wired _ _ Hmi)). split.
  - intros [Hk Hp]. rewrite (own_match w a r x _ Hmi Hr Hk) in Hp. destruct Hp as [y Hy]. rewrite Hy. f_equal.
    unfold current in Hy. destruct (a !! service_of r) as [r'|] eqn:Hr'; [|by rewrite lookup_empty in Hy].
    assert (items w RPCInstanceKind !! ResourceKey x = Some y) by (apply (mi_items _ _ Hmi); eauto). congruence.
  - intros Hk. assert (Hi : items w RPCInstanceKind !! ResourceKey x = Some x).
    { apply (mi_items _ _ Hmi). unfold current in Hk.
      destruct (a !! service_of r) as [r'|] eqn:Hr'; [by eauto|by rewrite lookup_empty in Hk]. }
    split; [done|]. apply (own_match w a r x _ Hmi Hr Hi). by eexists.
Qed.

Lemma current_entry a s k x : (∀ s r, a !! s = Some r → application r ∧ s = service_of r) →
  current a s !! k = Some x → ResourceKey x = k ∧ owner k = s ∧ ∃ r, a !! s = Some r ∧ named r !! k = Some x.
Proof.
  intros Ha. unfold current. destruct (a !! s) as [r|] eqn:Hs; [|by rewrite lookup_empty]. intros Hk.
  destruct (Ha _ _ Hs) as [(_ & _ & _ & _ & Ho) ->]. split_and!; [by eapply named_entry|apply Ho; by eexists|by eauto].
Qed.

Lemma own_NoDup w r : wired w → NoDup (ResourceKey <$> own w r).
Proof.
  intros Hw. unfold own. rewrite query_keys by apply items_self_keyed, (wi_ok _ Hw).
  rewrite sort_strings_perm. apply NoDup_query_keys.
Qed.

Lemma own_by_key w a r : mirrored w a → application r → by_key (own w r) = current a (service_of r).
Proof.
  intros Hmi Hr. apply map_eq. intros k. apply option_eq. intros x.
  rewrite by_key_lookup by apply own_NoDup, (mi_wired _ _ Hmi). rewrite (own_elem w a r x Hmi Hr). split.
  - by intros [Hk <-].
  - intros Hk. destruct (current_entry _ _ _ _ (mi_apps _ _ Hmi) Hk) as [-> _]. done.
Qed.

Lemma current_items w a s : mirrored w a → current a s ⊆ items w RPCInstanceKind.
Proof.
  intros Hmi. apply map_subseteq_spec. intros k x Hk. apply (mi_items _ _ Hmi).
  destruct (current_entry _ _ _ _ (mi_apps _ _ Hmi) Hk) as (_ & _ & r & ? & ?). eauto.
Qed.

(** A key of the application is nowhere else. *)
Lemma other_key w a s k x : mirrored w a → items w RPCInstanceKind !! k = Some x → current a s !! k = None → owner k ≠ s.
Proof.
  intros Hmi Hk Hn <-. apply (mi_items _ _ Hmi) in Hk as (s & r & Hs & Hx).
  destruct (mi_apps _ _ Hmi _ _ Hs) as [(_ & _ & _ & _ & Ho) ->].
  rewrite (Ho k) in Hn by by eexists. unfold current in Hn. rewrite Hs in Hn. congruence.
Qed.

Lemma wired_changed w w' k m es : wired w → changed w w' k m es → wired w'.
Proof. intros [Hw Hk Hm Ha] [Hok _ _ Hx Hd _]. split; [done|by rewrite Hd|by rewrite Hx..]. Qed.

(** What is left when an application has the instances [m] now. *)
Lemma mirrored_after w a w' a' s m : mirrored w a → wired w' →
  items w' RPCInstanceKind = m ∪ (items w RPCInstanceKind ∖ current a s) →
  (∀ s', s' ≠ s → a' !! s' = a !! s') →
  (∀ r, a' !! s = Some r → application r ∧ s = service_of r) → current a' s = m → mirrored w' a'.
Proof.
  intros Hmi Hw' Hit Hoth Hat Hm. split; [done|..].
  - intros s' r Hs'. destruct (decide (s' = s)) as [->|Hne]; [by apply Hat|]. rewrite Hoth in Hs' by done. by apply (mi_apps _ _ Hmi).
  - intros k x. rewrite Hit. assert (Hmk : ∀ y, m !! k = Some y ↔ ∃ r, a' !! s = Some r ∧ named r !! k = Some y).
    { intros y. rewrite <-Hm. unfold current. destruct (a' !! s) as [r|]; [|rewrite lookup_empty]; naive_solver. }
    rewrite lookup_union_Some_raw, lookup_difference_Some. split.
    + intros [(r & ? & ?)%Hmk|(Hno & Hk & Hc)]; [by eauto|]. pose proof (other_key _ _ _ _ _ Hmi Hk Hc) as Hne.
      apply (mi_items _ _ Hmi) in Hk as (s' & r & Hs' & Hx). exists s', r. split; [|done]. rewrite Hoth; [done|].
      destruct (mi_apps _ _ Hmi _ _ Hs') as [(_ & _ & _ & _ & Ho) ->]. rewrite <-(Ho k) by by eexists. done.
    + intros (s' & r & Hs' & Hx). destruct (decide (s' = s)) as [->|Hne]; [left; apply Hmk; by eauto|right].
      rewrite Hoth in Hs' by done. assert (Hok : owner k = s').
      { destruct (mi_apps _ _ Hmi _ _ Hs') as [(_ & _ & _ & _ & Ho) ->]. apply Ho. by eexists. }
      split_and!; [|apply (mi_items _ _ Hmi); by eauto|]; apply eq_None_not_Some; intros [y Hy].
      * apply Hmk in Hy as (r' & Hr' & Hy). destruct (Hat _ Hr') as [(_ & _ & _ & _ & Ho) ->].
        rewrite Ho in Hok by by eexists. by apply Hne.
      * destruct (current_entry _ _ _ _ (mi_apps _ _ Hmi) Hy) as (_ & Hos & _). congruence.
Qed.

(** *** The handlers *)
Lemma recorded_ok w old new t : wired w →
  ∃ w', recordNacosInstanceEvents FormatMilli now Format old new t w = (w', Ok ()) ∧ wired w' ∧
    items w' RPCInstanceKind = items w RPCInstanceKind ∧ w_sent w' = w_sent w.
Proof.
  intros Hw. unfold recordNacosInstanceEvents. destruct (recorded_type t); [|by exists w].
  destruct (record_events_ok now Format w 0
    (changes (buildNacosRPCInstanceMap FormatMilli old) (buildNacosRPCInstanceMap FormatMilli new)
       (instance_input "deregistered" "deregistered") (instance_input "registered" "registered")
       (instance_input "updated" "metadata updated") same_rpc)) as (w' & Hw' & m & Hc); [apply Hw..|].
  exists w'. split; [exact Hw'|]. split; [by eapply wired_changed|]. split; [by apply (ch_others _ _ _ _ _ Hc)|].
  by rewrite (ch_sent _ _ _ _ _ Hc), app_nil_r.
Qed.

(** The handler of [e] succeeds, and the events it sends tell what changed. *)
Definition keeps (a : gmap (string * string) Resource) (e : notice) (f : M St unit) (w : world St) : Prop :=
  ∃ w' es, f w = (w', Ok ()) ∧ mirrored w' (noticed a e) ∧ w_sent w' = w_sent w ++ es ∧
    foldl follow (items w RPCInstanceKind) es = items w' RPCInstanceKind.

Lemma upsert_ok w a r old t : mirrored w a → application r →
  keeps a (Reports r) (processRPCInstanceUpsert FormatMilli now Format old r t) w.
Proof.
  intros Hmi Hr. pose proof (mi_wired _ _ Hmi) as Hwi. pose proof Hr as [[s Hs] Hr'].
  assert (Hsp : nacos_spec r = Some s) by (unfold nacos_spec; by rewrite Hs).
  assert (Hown : by_key (own w r) = current a (service_of r)) by by apply own_by_key.
  unfold keeps, processRPCInstanceUpsert, rpc_instances_of. rewrite Hsp.
  erewrite bind_ok.
  2: { apply (list_typed_ok w RPCInstanceKind [(ByMeshIndex, res_Mesh r); (ByRPCInstanceAppName, res_Name r)]); [apply Hwi..|done|].
    eapply indexed_by; [apply Hwi|]. eapply indexed_by; [apply Hwi|constructor]. }
  fold (own w r). rewrite Hown.
  assert (Hnm : named r = FromEntries (rpc_entry FormatMilli r <$> ns_Instances s)) by (unfold named; by rewrite Hsp).
  rewrite <-Hnm.
  destruct (synchronize_ok w RPCInstanceKind (current a (service_of r)) (named r))
    as (w1 & ds & as_ & us & Hw1 & Hc & Hd & Ha & Hu); [apply Hwi..|apply named_self_keyed| |by apply current_items| |].
  { intros k x Hk. by apply named_entry in Hk as (_ & ? & _). }
  { intros k Hk [x Hx]. destruct (current a (service_of r) !! k) as [y|] eqn:Hn; [by eexists|].
    destruct (other_key _ _ _ _ _ Hmi Hx Hn). by apply Hr'. }
  erewrite bind_ok by exact Hw1. pose proof (wired_changed _ _ _ _ _ Hwi Hc) as Hwi1.
  destruct (recorded_ok w1 old (Some r) t Hwi1) as (w2 & Hw2 & Hwi2 & Hi2 & Hs2).
  exists w2. eexists. split; [exact Hw2|]. rewrite Hs2, Hi2, (ch_items _ _ _ _ _ Hc), (ch_sent _ _ _ _ _ Hc).
  split; [|split; [reflexivity|]].
  - eapply mirrored_after; [done|done|by rewrite Hi2, (ch_items _ _ _ _ _ Hc)|..]; simpl.
    + intros s' Hne. by rewrite lookup_insert_ne.
    + intros r'. rewrite lookup_insert_eq. by intros [= <-].
    + unfold current. by rewrite lookup_insert_eq.
  - rewrite !foldl_app, follow_deleted, follow_added, follow_updated. apply synchronized_items; [|apply named_self_keyed|done..].
    intros k x Hk. by apply (current_entry _ _ _ _ (mi_apps _ _ Hmi)) in Hk as [? _].
Qed.

Lemma reading_own w r : wired w →
  reading RPCInstanceKind (λ st, st_ListByIndexes st
    [equals ByMeshIndex (res_Mesh r); equals ByRPCInstanceAppName (res_Name r)]) w = (w, Ok (own w r)).
Proof.
  intros Hwi. destruct (world_store w RPCInstanceKind) as (st & Hst & Hok & _ & Hi & Hx); [apply Hwi..|].
  unfold reading, ResourceKindRoute. rewrite Hst. cbn [mbind result_bind].
  pose proof (st_ListByIndexes_spec st [(ByMeshIndex, res_Mesh r); (ByRPCInstanceAppName, res_Name r)] Hok) as Hq.
  csimpl in Hq. rewrite Hq; [unfold own; by rewrite Hi, Hx|done|]. rewrite Hx.
  eapply indexed_by; [apply Hwi|]. eapply indexed_by; [apply Hwi|constructor].
Qed.

(** What is left when the instances of the application are deleted. *)
Lemma own_left w a r : mirrored w a → application r →
  foldl drop (items w RPCInstanceKind) (own w r) = ∅ ∪ (items w RPCInstanceKind ∖ current a (service_of r)).
Proof.
  intros Hmi Hr. rewrite (left_id_L ∅ (∪)). apply map_eq. intros k. rewrite fold_drop, lookup_difference.
  assert (Hk : k ∈ ResourceKey <$> own w r ↔ is_Some (current a (service_of r) !! k)).
  { rewrite list_elem_of_fmap. split.
    - intros (x & -> & Hx%(own_elem w a r x Hmi Hr)). by eexists.
    - intros [x Hx]. destruct (current_entry _ _ _ _ (mi_apps _ _ Hmi) Hx) as [Hk _]. exists x.
      split; [done|]. apply (own_elem w a r x Hmi Hr). by rewrite Hk. }
  destruct (decide _) as [Hd|Hd]; rewrite Hk in Hd; [by destruct Hd as [? ->]|by apply eq_None_not_Some in Hd as ->].
Qed.

Lemma delete_ok w a r t : mirrored w a → a !! service_of r = Some r →
  keeps a (Withdraws r) (processRPCInstanceDelete FormatMilli now Format r t) w.
Proof.
  intros Hmi Har. pose proof (mi_wired _ _ Hmi) as Hwi. pose proof (wi_ok _ Hwi) as Hwo.
  destruct (mi_apps _ _ Hmi _ _ Har) as [Hr _].
  unfold keeps, processRPCInstanceDelete. erewrite bind_ok by by apply reading_own.
  assert (Hin : ∀ x, x ∈ own w r → is_Some (items w RPCInstanceKind !! ResourceKey x)).
  { intros x Hx%(elem_of_query _ _ (items_self_keyed w _ Hwo)). exists x. by destruct Hx. }
  destruct (each_changed (λ item, _ ← attempt (writing RPCInstanceKind st_Delete item);
      Send (NewResourceChangedEvent Deleted (Some item) None)) RPCInstanceKind drop deleted_event
      (λ m r, is_Some (m !! ResourceKey r)) w (own w r)) as (w1 & Hw1 & Hc); [|apply Hwi..| |].
  { intros w0 x Hw0 Hd Hs. destruct (writing_Delete w0 RPCInstanceKind x Hw0 Hd Hs) as (w' & Hw' & Hc). eexists.
    erewrite bind_ok by by apply attempt_ok. split; [done|]. exact (changed_send _ _ _ _ _ _ Hc). }
  { apply drop_pre; [by apply own_NoDup|done]. }
  erewrite bind_ok by exact Hw1. pose proof (wired_changed _ _ _ _ _ Hwi Hc) as Hwi1.
  destruct (recorded_ok w1 (Some r) None t Hwi1) as (w2 & Hw2 & Hwi2 & Hi2 & Hs2).
  exists w2. eexists. split; [exact Hw2|]. rewrite Hs2, Hi2, (ch_items _ _ _ _ _ Hc), (ch_sent _ _ _ _ _ Hc).
  split; [|split; [reflexivity|by rewrite follow_deleted]].
  eapply mirrored_after; [done|done|rewrite Hi2, (ch_items _ _ _ _ _ Hc); by apply own_left|..]; simpl.
  - intros s' Hne. by rewrite lookup_delete_ne.
  - intros r'. by rewrite lookup_delete_eq.
  - unfold current. by rewrite lookup_delete_eq.
Qed.

Lemma expect_application (failed : Resource → error) (o : option Resource) :
  match o with Some r => application r | None => True end → expect NacosServiceKind failed o = Ok o.
Proof. destruct o as [r|]; [|done]. intros [[s Hs] _]. unfold expect, res_kind. by rewrite Hs. Qed.

Lemma notice_ok w a e : mirrored w a → match e with Reports r => application r | Withdraws r => a !! service_of r = Some r end →
  keeps a e (nacos_ProcessEvent FormatMilli now Format res_String (announcement a e)) w.
Proof.
  intros Hmi He. unfold nacos_ProcessEvent. destruct e as [r|r].
  - assert (Hob : match a !! service_of r with Some o => application o | None => True end).
    { destruct (a !! service_of r) as [o|] eqn:Ho; [|done]. by apply (mi_apps _ _ Hmi) in Ho as [? _]. }
    pose proof He as (_ & _ & Hp & Hc & _).
    unfold announcement. destruct (a !! service_of r) as [o|]; unfold keeps, lift;
      (erewrite bind_ok; [|by rewrite (expect_application _ (Some r))]);
      (erewrite bind_ok; [|by rewrite expect_application]); cbn [ev_typ ev_newObj ev_oldObj NewResourceChangedEvent process_change];
      unfold nacos_processUpsert; rewrite Hp, Hc; by apply upsert_ok.
  - destruct (mi_apps _ _ Hmi _ _ He) as [Happ _]. pose proof Happ as (_ & _ & Hp & Hc & _).
    unfold announcement, keeps, lift. erewrite bind_ok; [|by rewrite (expect_application _ None)].
    erewrite bind_ok; [|by rewrite (expect_application _ (Some r))].
    cbn [ev_typ ev_newObj ev_oldObj NewResourceChangedEvent process_change].
    unfold nacos_processDelete. rewrite Hp, Hc. by apply delete_ok.
Qed.

(** C13: the store of RPC instances mirrors the applications of Nacos. The
    reports and withdrawals are about applications: services whose names are not
    blank and are not those of providers or consumers of an interface; a
    withdrawal takes back the last report; no key of an instance belongs to two
    applications, which the names of instances do not ensure
    ([instance_names_collide]); and the events are handled one at a time. Then,
    from a store without RPC instances, after any sequence of reports and
    withdrawals every event was handled without an error, the store has exactly
    the instances named by the last report of each application that still
    exists, and whoever follows the events sent, from nothing, arrives at the
    store as it is. *)
Theorem registry_mirrored w l : wired w → items w RPCInstanceKind = ∅ → applications ∅ l →
  ∃ w' es, handle_notices ∅ l w = (w', Ok ()) ∧
    (∀ k x, items w' RPCInstanceKind !! k = Some x ↔
       ∃ s r, foldl noticed ∅ l !! s = Some r ∧ named r !! k = Some x) ∧
    w_sent w' = w_sent w ++ es ∧ foldl follow ∅ es = items w' RPCInstanceKind.
Proof.
  intros Hw Hi Hl. assert (Hm : mirrored w ∅).
  { split; [done|by intros s r Hs; rewrite lookup_empty in Hs|]. intros k x. rewrite Hi, lookup_empty.
    split; [done|]. intros (s & r & Hs & _). by rewrite lookup_empty in Hs. }
  rewrite <-Hi. clear Hw Hi. revert w Hm Hl. generalize (∅ : gmap (string * string) Resource).
  induction l as [|e l IH]; intros a w Hm Hl.
  - exists w, []. rewrite app_nil_r. split_and!; [done|apply Hm|done|done].
  - destruct Hl as [He Hl]. destruct (notice_ok w a e Hm He) as (w1 & es1 & Hw1 & Hm1 & Hs1 & Hf1).
    destruct (IH _ _ Hm1 Hl) as (w2 & es2 & Hw2 & Hi2 & Hs2 & Hf2). exists w2, (es1 ++ es2).
    cbn [handle_notices]. erewrite bind_ok by exact Hw1. split_and!; [done|done|by rewrite Hs2, Hs1, (assoc_L (++))|].
    by rewrite foldl_app, Hf1.
Qed.
End sync.

(** ** Two applications *)
Module RegistrySyncExample.
#[local] Existing Instance RefStore.ops.
#[local] Existing Instance RefStore.laws.
#[local] Existing Instance RefStore_queries.
#[local] Existing Instance default_range.

Definition is_blank (s : string) : bool := forallb (λ c, bool_decide (c = Ascii.ascii_of_nat 32)) (String.list_ascii_of_string s).
Definition clock (i : nat) : Z := (1700000000000000000 + Z.of_nat i)%Z.
Definition format (t : Z) : string := "at " +:+ pretty t.

Definition quoted (s : string) : string := String quote_char (s +:+ String quote_char "").
Definition instance (ip : string) (release : string) : NacosInstance :=
  {| ni_Ip := ip; ni_Port := 20880;
     ni_Metadata := {[ URLParamsKey := "{" +:+ quoted "release" +:+ ":" +:+ quoted release +:+ "}" ]} |}.
Definition service (app : string) (l : list NacosInstance) : Resource :=
  {| res_meta := {| meta_Name := app; meta_Labels := None; meta_Annotations := None |}; res_Mesh := "nacos";
     res_spec := NacosServiceSpec (Some {| ns_ServiceKey := app; ns_Instances := l |}) |}.

Definition shop1 : Resource := service "shop" [instance "10.0.0.1" "3.2"; instance "10.0.0.2" "3.2"].
Definition shop2 : Resource := service "shop" [instance "10.0.0.3" "3.3"; instance "10.0.0.2" "3.3"].
Definition cart : Resource := service "cart" [instance "10.0.0.9" "3.1"].

Definition owner_of (k : string) : string * string :=
  if has_prefix k "nacos/shop" then ("nacos", "shop") else ("nacos", "cart").

Definition story : list notice := [Reports shop1; Reports cart; Reports shop2; Withdraws cart].

Definition start : world RefStore.store :=
  {| w_stores := {[
       RPCInstanceKind := {| RefStore.kind := RPCInstanceKind; RefStore.items := ∅;
         RefStore.indexers := {[ ByMeshIndex := ByMesh; ByRPCInstanceAppName := byRPCInstanceAppName is_blank ]} |};
       LifecycleEventKind := {| RefStore.kind := LifecycleEventKind; RefStore.items := ∅; RefStore.indexers := ∅ |} ]};
     w_sent := [] |}.

Lemma start_wired : wired is_blank start.
Proof.
  split; [|unfold start; cbn [w_stores]; set_solver|reflexivity..].
  intros k s Hs. unfold start in Hs. cbn [w_stores] in Hs.
  apply lookup_insert_Some in Hs as [[<- <-]|[_ Hs]]; [split; [by apply map_Forall_empty|done]|].
  apply lookup_singleton_Some in Hs as [<- <-]. split; [by apply map_Forall_empty|done].
Qed.

Lemma service_application app l : app = "shop" ∨ app = "cart" → application format is_blank owner_of (service app l).
Proof.
  intros Happ. split; [by eexists|]. split_and!; [by destruct Happ as [->| ->]..|].
  intros k [x Hx]. apply FromEntries_lookup in Hx as [Hx|Hx]; [by rewrite lookup_empty in Hx|].
  apply list_elem_of_fmap in Hx as (i & Hx & _). apply (f_equal fst) in Hx.
  change (k = BuildResourceKey "nacos" (BuildInstanceResName app (ni_Ip i) (ni_Port i))) in Hx. subst k.
  (* the comparison ends at the address *)
  destruct i as [[|c ip] port m], Happ as [->| ->]; reflexivity.
Qed.

Lemma story_applications : applications format is_blank owner_of ∅ story.
Proof.
  cbn [applications story]. split; [by apply service_application; left|].
  split; [by apply service_application; right|]. split; [by apply service_application; left|]. split; [|done].
  vm_compute. reflexivity.
Qed.

(** One instance of [shop] left, one came, one was updated; [cart] is gone. *)
Lemma registry_mirrored_witness :
  ∃ w' es, handle_notices format clock format res_Name ∅ story start = (w', Ok ()) ∧
    foldl follow ∅ es = items w' RPCInstanceKind ∧
    ((λ e, ev_typ e) <$> w_sent w') = [Added; Added; Added; Deleted; Added; Updated; Deleted] ∧
    (map_to_list ((λ x, rpc_ReleaseVersion <$> rpc_spec x) <$> items w' RPCInstanceKind)) =
      [("nacos/shop10.0.0.3:20880", Some "3.3"); ("nacos/shop10.0.0.2:20880", Some "3.3")].
Proof.
  destruct (registry_mirrored format is_blank clock format res_Name owner_of start story start_wired eq_refl
    story_applications) as (w' & es & Hrun & _ & _ & Hf).
  exists w', es. split; [exact Hrun|]. split; [exact Hf|].
  assert (Hw : w' = (handle_notices format clock format res_Name ∅ story start).1) by by rewrite Hrun.
  rewrite Hw. split; vm_compute; reflexivity.
Defined.

(** The owner of a name is not clear in general: nothing separates the
    application from the address. *)
Lemma instance_names_collide : BuildInstanceResName "shop1" "1.2.3.4" 20880 = BuildInstanceResName "shop" "11.2.3.4" 20880.
Proof. reflexivity. Qed.
End RegistrySyncExample.
