(* ===== verification/ZkRegistry.v ===== *)
(** What ZooKeeper reports becomes rules and metadata of services:
    pkg/core/discovery/subscriber/zk_config.go, zk_metadata.go and
    service_consumer_metadata.go, with the helpers of
    pkg/core/resource/apis/mesh/v1alpha1 that read the nodes. *)
From S2P Require Import Prelude GoStrings Errors Resource Libs Indexers Store Queries EventBus Subscribers RegistryEvents Json Instances ServiceCatalog NacosServices.

Open Scope string_scope.
Open Scope list_scope.

(** ** Reading nodes

    [json.Unmarshal] into a [map[string]string]; [None] is any error. *)
Definition text_of (j : json) : option string :=
  match j with JString s => Some s | JNull => Some "" | _ => None end.
Definition texts_of (j : json) : option (list string) :=
  match j with JArray l => mapM text_of l | JNull => Some [] | _ => None end.
Definition add_members (m : gmap string string) (j : json) : option (gmap string string) :=
  match j with
  | JObject ms => foldl (λ acc p, m ← acc; t ← text_of p.2; Some (<[p.1 := t]> m)) (Some m) ms
  | JNull => Some ∅
  | _ => None
  end.

(** Into a struct: the members in turn, names of fields in any case; null
    leaves a text as it is. *)
Definition fields {A} (field : A → string → json → option A) (start : A) (j : json) : option A :=
  match j with
  | JObject ms => foldl (λ acc p, a ← acc; field a (str_lower p.1) p.2) (Some start) ms
  | JNull => Some start
  | _ => None
  end.
Definition text_or (old : string) (j : json) : option string :=
  match j with JString s => Some s | JNull => Some old | _ => None end.
(** Into a slice of pointers; the readers skip nil elements. *)
Definition elements_of {A} (element : json → option A) (j : json) : option (list A) :=
  match j with
  | JArray l => mapM element (filter (λ j, match j with JNull => false | _ => true end = true) l)
  | JNull => Some []
  | _ => None
  end.

Definition parameter_field (p : string * string) (name : string) (j : json) : option (string * string) :=
  if decide (name = "name") then t ← text_or p.1 j; Some (t, p.2)
  else if decide (name = "type") then t ← text_or p.2 j; Some (p.1, t)
  else Some p.

Definition method_field (m : Method) (name : string) (j : json) : option Method :=
  let '(Build_Method annotations n types parameters ret) := m in
  if decide (name = "annotations") then l ← texts_of j; Some (Build_Method l n types parameters ret)
  else if decide (name = "name") then t ← text_or n j; Some (Build_Method annotations t types parameters ret)
  else if decide (name = "parametertypes") then l ← texts_of j; Some (Build_Method annotations n l parameters ret)
  else if decide (name = "parameters") then
    l ← elements_of (fields parameter_field ("", "")) j; Some (Build_Method annotations n types l ret)
  else if decide (name = "returntype") then t ← text_or ret j; Some (Build_Method annotations n types parameters t)
  else Some m.

Definition type_field (t : MetadataType) (name : string) (j : json) : option MetadataType :=
  let '(Build_MetadataType enums items properties type) := t in
  if decide (name = "enums") then l ← texts_of j; Some (Build_MetadataType l items properties type)
  else if decide (name = "items") then l ← texts_of j; Some (Build_MetadataType enums l properties type)
  else if decide (name = "properties") then m ← add_members properties j; Some (Build_MetadataType enums items m type)
  else if decide (name = "type") then x ← text_or type j; Some (Build_MetadataType enums items properties x)
  else Some t.

Definition metadata_field (s : ServiceProviderMetadata) (name : string) (j : json) : option ServiceProviderMetadata :=
  let '(Build_ServiceProviderMetadata service app version group canonical methods parameters types) := s in
  if decide (name = "servicename") then
    t ← text_or service j; Some (Build_ServiceProviderMetadata t app version group canonical methods parameters types)
  else if decide (name = "providerappname") then
    t ← text_or app j; Some (Build_ServiceProviderMetadata service t version group canonical methods parameters types)
  else if decide (name = "version") then
    t ← text_or version j; Some (Build_ServiceProviderMetadata service app t group canonical methods parameters types)
  else if decide (name = "group") then
    t ← text_or group j; Some (Build_ServiceProviderMetadata service app version t canonical methods parameters types)
  else if decide (name = "canonicalname") then
    t ← text_or canonical j; Some (Build_ServiceProviderMetadata service app version group t methods parameters types)
  else if decide (name = "methods") then
    l ← elements_of (fields method_field (Build_Method [] "" [] [] "")) j;
    Some (Build_ServiceProviderMetadata service app version group canonical l parameters types)
  else if decide (name = "parameters") then
    m ← add_members parameters j; Some (Build_ServiceProviderMetadata service app version group canonical methods m types)
  else if decide (name = "types") then
    l ← elements_of (fields type_field (Build_MetadataType [] [] ∅ "")) j;
    Some (Build_ServiceProviderMetadata service app version group canonical methods parameters l)
  else Some s.

Definition Unmarshal_metadata (data : string) : option ServiceProviderMetadata :=
  parse data ≫= fields metadata_field (Build_ServiceProviderMetadata "" "" "" "" "" [] ∅ []).

Definition new_resource_of (name mesh : string) (s : Spec) : Resource :=
  {| res_meta := {| meta_Name := name; meta_Labels := Some ∅; meta_Annotations := None |};
     res_Mesh := mesh; res_spec := s |}.

(** *** serviceprovidermetadata_helper.go

    The name that is passed in is not used. *)
Definition ToServiceProviderMetadataResource (mesh name data : string) : option Resource :=
  s ← Unmarshal_metadata data;
  let serviceName := spm_CanonicalName s in
  let providerAppName := value_of (spm_Parameters s) "application" in
  let version := value_of (spm_Parameters s) "version" in
  let group := value_of (spm_Parameters s) "group" in
  Some (new_resource_of (BuildServiceKey serviceName version group providerAppName) mesh
    (ServiceProviderMetadataSpec (Some (Build_ServiceProviderMetadata serviceName providerAppName version group
       (spm_CanonicalName s) (spm_Methods s) (spm_Parameters s) (spm_Types s))))).
Definition ToServiceProviderMetadataRes (mesh data : string) : option Resource :=
  ToServiceProviderMetadataResource mesh "" data.

(** *** serviceconsumermetadata_helper.go

    The result is an interface: nil when the data cannot be read, but an
    interface around a nil pointer when they name no service. *)
Inductive interface := Nil | NilPointer | Object (r : Resource).
Definition ToServiceConsumerMetadataByRawData (mesh data : string) : interface :=
  match parse data ≫= add_members ∅ with
  | None => Nil
  | Some metadataMap =>
      match ToServiceConsumerMetadataByMap metadataMap mesh with Some r => Object r | None => NilPointer end
  end.

(** ** Rules *)
Definition sourceRegistryZookeeper : string := "zookeeper".
Definition RuleSuffixSet : list string :=
  ["configurators"; "condition-router"; "tag-router"; "affinity-router"; "script-router"].

Definition zk_config (r : Resource) : option ZKConfig := match res_spec r with ZKConfigSpec s => s | _ => None end.
Definition zk_metadata (r : Resource) : option ZKMetadata := match res_spec r with ZKMetadataSpec s => s | _ => None end.

(** The part of the name of a node behind the last dot. *)
Definition node_suffix (s : ZKConfig) : string := default "" (last (str_split "." (zc_NodeName s))).
Definition rule_kind_of (suffix : string) : option ResourceKind :=
  if decide (suffix = "tag-router") then Some TagRouteKind
  else if decide (suffix = "condition-router") then Some ConditionRouteKind
  else if decide (suffix = "configurators") then Some DynamicConfigKind else None.

Section subscriber.
(** [strutil.IsBlank]; [time.Now()] and its text; [String] of a resource. *)
Context (IsBlank : string → bool) (now : Z) (Format : Z → string) (res_String : Resource → string).
(** What [yaml.Unmarshal] of sigs.k8s.io/yaml leaves in an empty spec, whether
    or not it fails. *)
Context (yaml_TagRoute : string → TagRoute) (yaml_ConditionRoute : string → ConditionRoute)
  (yaml_DynamicConfig : string → DynamicConfig).

(** [ToTagRouteResource], [ToConditionRouteResource], [ToDynamicConfigResource]:
    errors are only logged. *)
Definition ToTagRouteResource (mesh name data : string) : Resource :=
  new_resource_of name mesh (TagRouteSpec (Some (yaml_TagRoute data))).
Definition ToConditionRouteResource (mesh name data : string) : Resource :=
  new_resource_of name mesh (ConditionRouteSpec (Some (yaml_ConditionRoute data))).
Definition ToDynamicConfigResource (mesh name data : string) : Resource :=
  new_resource_of name mesh (DynamicConfigSpec (Some (yaml_DynamicConfig data))).

Section handlers.
Context {St : Type} `{ResourceStore St}.

Definition extractRuleEventContext (r : Resource) : string * string :=
  match res_spec r with
  | TagRouteSpec (Some s) => (tr_Key s, "tag-route")
  | ConditionRouteSpec (Some s) => (cr_Key s, "condition-route")
  | DynamicConfigSpec (Some s) => (dc_Key s, "dynamic-config")
  | _ => ("", "")
  end.

Definition recordConfigPlatformEvent (res : Resource) (action : string) : M St unit :=
  let '(serviceName, category) := extractRuleEventContext res in
  if decide (serviceName = "") then mret ()
  else RecordRegistryEvent Format now
    {| ri_Mesh := res_Mesh res; ri_Source := "Zookeeper"; ri_SourceType := "zookeeper"; ri_Category := category;
       ri_Action := action; ri_Message := "Zookeeper " +:+ category +:+ " " +:+ action +:+ ": " +:+ serviceName;
       ri_Type := ""; ri_AppName := ""; ri_InstanceName := ""; ri_InstanceIP := ""; ri_ServiceName := serviceName |}.

Definition from_zookeeper : gmap string string := {["source-registry" := sourceRegistryZookeeper]}.

(** Each change is sent twice, once with its source and once without. *)
Definition processConfigUpsert (toRuleRes : string → string → string → Resource) (configRes : Resource) (s : ZKConfig)
    : M St unit :=
  let newRuleRes := toRuleRes (res_Mesh configRes) (res_Name configRes) (zc_NodeData s) in
  let kind := res_kind newRuleRes in
  found ← reading kind (λ st, st_GetByKey st (ResourceKey newRuleRes));
  match found with
  | None =>
      _ ← writing kind st_Add newRuleRes;
      _ ← recordConfigPlatformEvent newRuleRes "added";
      _ ← Send (NewResourceChangedEvent Added None (Some newRuleRes));
      Send (NewResourceChangedEventWithContext Added None (Some newRuleRes) from_zookeeper)
  | Some oldRes =>
      _ ← writing kind st_Update newRuleRes;
      match expect kind (λ _, NewAssertionError (kind_string kind) "") (obj_resource oldRes) with
      | Ok (Some old) =>
          _ ← Send (NewResourceChangedEventWithContext Updated (Some old) (Some newRuleRes) from_zookeeper);
          _ ← recordConfigPlatformEvent newRuleRes "updated";
          Send (NewResourceChangedEvent Updated (Some old) (Some newRuleRes))
      | _ => fail (NewAssertionError (kind_string kind) "")
      end
  end.

Definition processConfigDelete (ruleKind : ResourceKind) (configRes : Resource) : M St unit :=
  old ← get_typed ruleKind (res_Mesh configRes) (res_Name configRes) (NewAssertionError (kind_string ruleKind) "");
  match old with
  | None => mret ()
  | Some old =>
      _ ← writing ruleKind st_Delete old;
      _ ← recordConfigPlatformEvent old "deleted";
      _ ← Send (NewResourceChangedEvent Deleted (Some old) None);
      Send (NewResourceChangedEventWithContext Deleted (Some old) None from_zookeeper)
  end.

Definition unknown_rule (r : Resource) (s : ZKConfig) (rest : string) : error :=
  biz_new UnknownError ("unknown rule type in mesh " +:+ res_Mesh r +:+ ", skipped processing, " +:+ rest).

Definition config_processUpsert (configRes : Resource) : M St unit :=
  match zk_config configRes with
  | None => fail nil_pointer
  | Some s =>
      let suffix := node_suffix s in
      if decide (suffix ∈ RuleSuffixSet) then
        match rule_kind_of suffix with
        | Some TagRouteKind => processConfigUpsert ToTagRouteResource configRes s
        | Some ConditionRouteKind => processConfigUpsert ToConditionRouteResource configRes s
        | Some DynamicConfigKind => processConfigUpsert ToDynamicConfigResource configRes s
        | _ => fail (unknown_rule configRes s
                 ("path: " +:+ zc_NodeName s +:+ ", raw content: " +:+ zc_NodeData s))
        end
      else mret ()
  end.

Definition config_processDelete (configRes : Resource) : M St unit :=
  match zk_config configRes with
  | None => fail nil_pointer
  | Some s =>
      let suffix := node_suffix s in
      if decide (suffix ∈ RuleSuffixSet) then
        match rule_kind_of suffix with
        | Some k => processConfigDelete k configRes
        | None => fail (unknown_rule configRes s ("node: " +:+ zc_NodeName s))
        end
      else mret ()
  end.

Definition nil_new (what : string) : error :=
  biz_new EventError ("process zk " +:+ what +:+ " upsert event, but new obj is nil, skipped processing").

Definition config_ProcessEvent (event : Event) : M St unit :=
  let failed r := NewAssertionError "*v1alpha1.ZKConfigResource" (res_String r) in
  newObj ← lift (expect ZKConfigKind failed (ev_newObj event));
  oldObj ← lift (expect ZKConfigKind failed (ev_oldObj event));
  process_change "zk config" (biz_new EventError) event newObj oldObj
    (λ r, match zk_config r with None => fail (nil_new "config") | Some _ => config_processUpsert r end)
    config_processDelete.

(** ** Metadata of services *)
Definition recordMetadataPlatformEvent (res : Resource) (action : string) : M St unit :=
  let record side app service := RecordRegistryEvent Format now
    {| ri_Mesh := res_Mesh res; ri_Source := "Zookeeper"; ri_SourceType := "zookeeper"; ri_Category := "metadata";
       ri_Action := action;
       ri_Message := "Zookeeper " +:+ side +:+ " metadata " +:+ action +:+ ": " +:+ app +:+ " -> " +:+ service;
       ri_Type := ""; ri_AppName := app; ri_InstanceName := ""; ri_InstanceIP := ""; ri_ServiceName := service |} in
  match res_spec res with
  | ServiceProviderMetadataSpec (Some s) => record "provider" (spm_ProviderAppName s) (spm_ServiceName s)
  | ServiceConsumerMetadataSpec s => record "consumer" (scm_ConsumerAppName s) (scm_ServiceName s)
  | _ => mret ()
  end.

(** A nil pointer has a kind but no key. *)
Definition processMetadataUpsert (kind : ResourceKind) (newMetadataRes : interface) : M St unit :=
  match newMetadataRes with
  | Nil => fail (biz_new ZKError "cannot unmarshal metadata")
  | NilPointer => _ ← reading kind (λ _, Ok ()); fail nil_pointer
  | Object res =>
      found ← reading (res_kind res) (λ st, st_GetByKey st (ResourceKey res));
      match found with
      | None =>
          _ ← writing (res_kind res) st_Add res;
          _ ← recordMetadataPlatformEvent res "added";
          Send (NewResourceChangedEvent Added None (Some res))
      | Some oldRes =>
          _ ← writing (res_kind res) st_Update res;
          match expect kind (λ _, NewAssertionError (kind_string kind) "") (obj_resource oldRes) with
          | Ok (Some old) =>
              _ ← recordMetadataPlatformEvent res "updated";
              Send (NewResourceChangedEvent Updated (Some old) (Some res))
          | _ => fail (NewAssertionError (kind_string kind) "")
          end
      end
  end.

Definition metadata_processUpsert (metadataRes : Resource) : M St unit :=
  match zk_metadata metadataRes with
  | None => fail nil_pointer
  | Some s =>
      match rev (str_split "/" (zm_NodePath s)) with
      | _ :: side :: _ =>
          if decide (side = "provider") then
            processMetadataUpsert ServiceProviderMetadataKind
              match ToServiceProviderMetadataRes (res_Mesh metadataRes) (zm_NodeData s) with
              | Some r => Object r
              | None => Nil
              end
          else if decide (side = "consumer") then
            processMetadataUpsert ServiceConsumerMetadataKind
              (ToServiceConsumerMetadataByRawData (res_Mesh metadataRes) (zm_NodeData s))
          else mret ()
      | _ => fail (biz_new ZKError ("invalid zk metadata node path: " +:+ zm_NodePath s))
      end
  end.

(** Deletions are ignored: the nodes outlive the services. *)
Definition metadata_ProcessEvent (event : Event) : M St unit :=
  let failed r := NewAssertionError "*v1alpha1.ZKMetadataResource" (res_String r) in
  newObj ← lift (expect ZKMetadataKind failed (ev_newObj event));
  oldObj ← lift (expect ZKMetadataKind failed (ev_oldObj event));
  process_change "zk metadata" (biz_new EventError) event newObj oldObj
    (λ r, match zk_metadata r with None => fail (nil_new "metadata") | Some _ => metadata_processUpsert r end)
    (λ _, mret ()).

(** ** service_consumer_metadata.go: the applications of consumers *)
Definition consumer_processUpsert (r : Resource) : M St unit :=
  match res_spec r with
  | ServiceConsumerMetadataSpec s =>
      if IsBlank (scm_ConsumerAppName s) then mret ()
      else
        found ← reading ApplicationKind (λ st, st_GetByKey st (BuildResourceKey (res_Mesh r) (scm_ConsumerAppName s)));
        match found with
        | Some _ => mret ()
        | None =>
            let app := NewApplicationResourceWithAttributes (scm_ConsumerAppName s) (res_Mesh r) in
            _ ← writing ApplicationKind st_Add app;
            Send (NewResourceChangedEvent Added None (Some app))
        end
  | _ => fail (biz_new UnknownError "consumer metadata resource spec is nil")
  end.

Definition consumer_ProcessEvent (event : Event) : M St unit :=
  let failed r := NewAssertionError "*v1alpha1.ServiceConsumerMetadataResource" (res_String r) in
  newObj ← lift (expect ServiceConsumerMetadataKind failed (ev_newObj event));
  match ev_typ event with
  | Added | Updated | Replaced | Sync =>
      match newObj with
      | None => fail (biz_new EventError
                  "process consumer metadata resource upsert event, but new obj is nil, skipped processing")
      | Some r => consumer_processUpsert r
      end
  | _ => mret ()
  end.
End handlers.
End subscriber.
