(* ===== verification/ZkMirror.v ===== *)
(** The stores of rules mirror the nodes of ZooKeeper, and the catalogue of
    services settles on the metadata ZooKeeper reports. *)
From S2P Require Import Prelude GoStrings Errors Resource Libs Indexers Store Queries EventBus Subscribers Settling RegistryEvents Json Instances ServiceCatalog NacosServices ZkRegistry.
From stdpp Require Import functions.

Open Scope string_scope.
Open Scope list_scope.

Section recording.
Context {St : Type} `{ResourceStoreQueries St}.
Context (now : Z) (Format : Z → string).
Implicit Types w : world St.

Lemma recordConfig_ok w r action : world_ok w → LifecycleEventKind ∈ dom (w_stores w) →
  ∃ w', recordConfigPlatformEvent now Format r action w = (w', Ok ()) ∧ only_events w w'.
Proof.
  intros Hw Hd. unfold recordConfigPlatformEvent. destruct (extractRuleEventContext r) as [name category].
  destruct (decide (name = "")); [exists w; by split; [|apply only_events_refl]|]. by apply RecordRegistryEvent_ok.
Qed.

Lemma recordMetadata_ok w r action : world_ok w → LifecycleEventKind ∈ dom (w_stores w) →
  ∃ w', recordMetadataPlatformEvent now Format r action w = (w', Ok ()) ∧ only_events w w'.
Proof.
  intros Hw Hd. unfold recordMetadataPlatformEvent.
  destruct (res_spec r) as [| | | | |[s|]| | | | | | | | | | |];
    try (exists w; by split; [|apply only_events_refl]); by apply RecordRegistryEvent_ok.
Qed.

(** *** Changes of one kind and of the recorded events *)
Record filed w w' (k : ResourceKind) (m : gmap string Resource) (es : list Event) : Prop := {
  fl_ok : world_ok w';
  fl_items : items w' k = m;
  fl_others : ∀ k', k' ≠ k → k' ≠ LifecycleEventKind → items w' k' = items w k';
  fl_indexers : ∀ k', indexers w' k' = indexers w k';
  fl_kinds : dom (w_stores w') = dom (w_stores w);
  fl_sent : w_sent w' = w_sent w ++ es }.

Lemma changed_filed w w' k m es : changed w w' k m es → filed w w' k m es.
Proof. intros [????]. split; try done. by intros k' ? _; auto. Qed.

Lemma filed_refl w k : world_ok w → filed w w k (items w k) [].
Proof. intros Hw. by apply changed_filed, changed_refl. Qed.

Lemma filed_record w w1 w2 k m es : filed w w1 k m es → only_events w1 w2 → k ≠ LifecycleEventKind → filed w w2 k m es.
Proof.
  intros [Hok Hi Ho Hx Hd Hs] [m' [Hok' _ Ho' Hx' Hd' Hs']] Hk. split; [done|..].
  - by rewrite Ho'.
  - intros k' Hne Hne'. by rewrite Ho', Ho.
  - intros k'. by rewrite Hx', Hx.
  - by rewrite Hd', Hd.
  - by rewrite Hs', Hs, app_nil_r.
Qed.

Lemma filed_send w w' k m es e : filed w w' k m es →
  filed w {| w_stores := w_stores w'; w_sent := w_sent w' ++ [e] |} k m (es ++ [e]).
Proof. intros [????? Hs]. split; try done. simpl. by rewrite Hs, (assoc_L (++)). Qed.

Lemma Send_ok w e : Send e w = ({| w_stores := w_stores w; w_sent := w_sent w ++ [e] |}, Ok ()).
Proof. done. Qed.
End recording.

(** ** Rules *)
Section rules.
Context {St : Type} `{ResourceStoreQueries St}.
Context (now : Z) (Format : Z → string) (res_String : Resource → string).
Context (yaml_TagRoute : string → TagRoute) (yaml_ConditionRoute : string → ConditionRoute)
  (yaml_DynamicConfig : string → DynamicConfig).
Implicit Types w : world St.

Abbreviation process := (config_ProcessEvent now Format res_String yaml_TagRoute yaml_ConditionRoute yaml_DynamicConfig).

(** *** What a node says, whatever the stores are *)
Inductive change := PutRule (r : Resource) | DropRule (k : ResourceKind) (key : string).

Definition rule_of_node (node : Resource) : option Resource :=
  s ← zk_config node;
  k ← rule_kind_of (node_suffix s);
  let spec := match k with
              | TagRouteKind => TagRouteSpec (Some (yaml_TagRoute (zc_NodeData s)))
              | ConditionRouteKind => ConditionRouteSpec (Some (yaml_ConditionRoute (zc_NodeData s)))
              | _ => DynamicConfigSpec (Some (yaml_DynamicConfig (zc_NodeData s)))
              end in
  Some (new_resource_of (res_Name node) (res_Mesh node) spec).

Definition node_change (e : Event) : option change :=
  match ev_typ e, ev_newObj e, ev_oldObj e with
  | (Added | Updated | Replaced | Sync), Some node, _ => PutRule <$> rule_of_node node
  | Deleted, _, Some node =>
      s ← zk_config node; k ← rule_kind_of (node_suffix s);
      Some (DropRule k (BuildResourceKey (res_Mesh node) (res_Name node)))
  | _, _, _ => None
  end.

(** *** The rules by kind and key, and what is announced *)
Abbreviation rules := (ResourceKind → gmap string Resource).

Definition twice (typ : DeltaType) (old new : option Resource) : list Event :=
  [NewResourceChangedEvent typ old new; NewResourceChangedEventWithContext typ old new from_zookeeper].

Definition apply_change (c : option change) (σ : rules) : rules * list Event :=
  match c with
  | Some (PutRule r) =>
      (<[res_kind r := <[ResourceKey r := r]> (σ (res_kind r))]> σ,
       match σ (res_kind r) !! ResourceKey r with
       | None => twice Added None (Some r)
       | Some old => rev (twice Updated (Some old) (Some r))
       end)
  | Some (DropRule k key) =>
      (<[k := delete key (σ k)]> σ,
       match σ k !! key with None => [] | Some old => twice Deleted (Some old) None end)
  | None => (σ, [])
  end.

Fixpoint mirror (es : list Event) (σ : rules) : rules * list Event :=
  match es with
  | [] => (σ, [])
  | e :: es => let '(σ, sent) := apply_change (node_change e) σ in let '(σ, sent') := mirror es σ in (σ, sent ++ sent')
  end.

(** The stores show the rules; the recorded events are not among them. *)
Record shows w (σ : rules) : Prop := {
  sh_ok : world_ok w;
  sh_kinds : TagRouteKind ∈ dom (w_stores w) ∧ ConditionRouteKind ∈ dom (w_stores w) ∧
    DynamicConfigKind ∈ dom (w_stores w) ∧ LifecycleEventKind ∈ dom (w_stores w);
  sh_items k : k ≠ LifecycleEventKind → items w k = σ k }.

Lemma filed_shows w w' σ k m es : shows w σ → filed w w' k m es → shows w' (<[k := m]> σ).
Proof.
  intros [Hok Hk Hi] [Hok' Hm Ho _ Hd _]. split; [done|by rewrite Hd|]. intros k' Hne.
  destruct (decide (k = k')) as [<-|Hkk]; [by rewrite fn_lookup_insert|].
  rewrite fn_lookup_insert_ne by done. rewrite Ho by done. by apply Hi.
Qed.

Definition is_rule_kind (k : ResourceKind) : Prop := k ∈ [TagRouteKind; ConditionRouteKind; DynamicConfigKind].

Lemma rule_kind_cases suffix k : rule_kind_of suffix = Some k → is_rule_kind k ∧ suffix ∈ RuleSuffixSet.
Proof.
  unfold rule_kind_of, is_rule_kind, RuleSuffixSet. repeat case_decide; intros [= <-]; subst; set_solver.
Qed.

Lemma rule_kind_stored w σ k : shows w σ → is_rule_kind k → k ∈ dom (w_stores w) ∧ k ≠ LifecycleEventKind.
Proof. intros [_ (?&?&?&?) _] Hk. unfold is_rule_kind in Hk. set_solver. Qed.

(** *** The handlers do what the nodes say *)
(** What an action does is what the change says. *)
Definition performs (m : M St unit) (c : option change) : Prop := ∀ w σ, shows w σ →
  shows (m w).1 (apply_change c σ).1 ∧ w_sent (m w).1 = w_sent w ++ (apply_change c σ).2.

Lemma performs_nothing m : (∀ w, (m w).1 = w) → performs m None.
Proof. intros Hm w σ Hs. rewrite Hm. simpl. by rewrite app_nil_r. Qed.

Lemma performs_filed w σ k m es c w' : shows w σ → filed w w' k m es → k ≠ LifecycleEventKind →
  (items w k = σ k → apply_change c σ = (<[k := m]> σ, es)) →
  shows w' (apply_change c σ).1 ∧ w_sent w' = w_sent w ++ (apply_change c σ).2.
Proof.
  intros Hs Hf Hne Hc. rewrite Hc by by apply (sh_items _ _ Hs). split; [by eapply filed_shows|by apply (fl_sent _ _ _ _ _ Hf)].
Qed.

Lemma upsert_performs to node s r : to (res_Mesh node) (res_Name node) (zc_NodeData s) = r → is_rule_kind (res_kind r) →
  performs (processConfigUpsert now Format to node s) (Some (PutRule r)).
Proof.
  intros Hr Hk w σ Hs. destruct (rule_kind_stored _ _ _ Hs Hk) as [Hd Hne]. pose proof (sh_ok _ _ Hs) as Hw.
  destruct (sh_kinds _ _ Hs) as (_ & _ & _ & Hl). unfold processConfigUpsert. rewrite Hr.
  erewrite bind_ok by by apply reading_GetByKey.
  destruct (items w (res_kind r) !! ResourceKey r) as [old|] eqn:Hold; cbn [fmap option_fmap option_map].
  - destruct (writing_Update w r Hw Hd) as (w1 & Hw1 & Hc1%changed_filed); [by rewrite Hold|].
    erewrite bind_ok by exact Hw1. destruct (items_key w _ _ _ Hw Hold) as [_ Hkind].
    unfold expect. cbn [obj_resource]. rewrite decide_True by done.
    erewrite bind_ok by apply Send_ok. apply (filed_send _ _ _ _ _ (NewResourceChangedEventWithContext Updated (Some old) (Some r) from_zookeeper)) in Hc1.
    destruct (recordConfig_ok now Format _ r "updated" (fl_ok _ _ _ _ _ Hc1)) as (w3 & Hw3 & Hc3);
      [by rewrite (fl_kinds _ _ _ _ _ Hc1)|]. erewrite bind_ok by exact Hw3.
    eapply performs_filed; [done|by eapply filed_send, filed_record|done|].
    intros Hi. simpl. by rewrite <-Hi, Hold.
  - destruct (writing_Add w r Hw Hd) as (w1 & Hw1 & Hc1%changed_filed); [done|].
    erewrite bind_ok by exact Hw1.
    destruct (recordConfig_ok now Format _ r "added" (fl_ok _ _ _ _ _ Hc1)) as (w2 & Hw2 & Hc2);
      [by rewrite (fl_kinds _ _ _ _ _ Hc1)|]. erewrite bind_ok by exact Hw2.
    erewrite bind_ok by apply Send_ok.
    eapply performs_filed; [done|by eapply filed_send, filed_send, filed_record|done|].
    intros Hi. simpl. by rewrite <-Hi, Hold.
Qed.

Lemma delete_performs k node : is_rule_kind k →
  performs (processConfigDelete now Format k node) (Some (DropRule k (BuildResourceKey (res_Mesh node) (res_Name node)))).
Proof.
  intros Hk w σ Hs. destruct (rule_kind_stored _ _ _ Hs Hk) as [Hd Hne]. pose proof (sh_ok _ _ Hs) as Hw.
  destruct (sh_kinds _ _ Hs) as (_ & _ & _ & Hl). unfold processConfigDelete.
  erewrite bind_ok by by apply get_typed_ok.
  destruct (items w k !! BuildResourceKey (res_Mesh node) (res_Name node)) as [old|] eqn:Hold.
  - destruct (items_key w _ _ _ Hw Hold) as [Hkey Hkind].
    destruct (writing_Delete w k old Hw Hd) as (w1 & Hw1 & Hc1%changed_filed); [by rewrite Hkey, Hold|].
    rewrite Hkey in Hc1. erewrite bind_ok by exact Hw1.
    destruct (recordConfig_ok now Format _ old "deleted" (fl_ok _ _ _ _ _ Hc1)) as (w2 & Hw2 & Hc2);
      [by rewrite (fl_kinds _ _ _ _ _ Hc1)|]. erewrite bind_ok by exact Hw2.
    erewrite bind_ok by apply Send_ok.
    eapply performs_filed; [done|by eapply filed_send, filed_send, filed_record|done|].
    intros Hi. simpl. by rewrite <-Hi, Hold.
  - eapply performs_filed; [done|apply (filed_refl _ k Hw)|done|]. intros Hi. simpl.
    rewrite <-Hi, Hold. by rewrite delete_id.
Qed.

(** Events of the bus for this subscriber. *)
Definition about_config (e : Event) : Prop :=
  ∀ r, ev_newObj e = Some r ∨ ev_oldObj e = Some r → res_kind r = ZKConfigKind.

Lemma config_upsert_performs node :
  performs (config_processUpsert now Format yaml_TagRoute yaml_ConditionRoute yaml_DynamicConfig node)
    (PutRule <$> rule_of_node node).
Proof.
  unfold config_processUpsert, rule_of_node.
  destruct (zk_config node) as [s|]; cbn [mbind option_bind]; [|by apply performs_nothing].
  destruct (rule_kind_of (node_suffix s)) as [k|] eqn:Hk; cbn [mbind option_bind].
  - destruct (rule_kind_cases _ _ Hk) as [Hr Hin]. rewrite decide_True by done.
    assert (Hcase : k = TagRouteKind ∨ k = ConditionRouteKind ∨ k = DynamicConfigKind) by (unfold is_rule_kind in Hr; set_solver).
    destruct Hcase as [-> |[-> | ->]]; by apply upsert_performs.
  - destruct (decide _); by apply performs_nothing.
Qed.

Lemma config_delete_performs node :
  performs (config_processDelete now Format node)
    (s ← zk_config node; k ← rule_kind_of (node_suffix s);
     Some (DropRule k (BuildResourceKey (res_Mesh node) (res_Name node)))).
Proof.
  unfold config_processDelete.
  destruct (zk_config node) as [s|]; cbn [mbind option_bind]; [|by apply performs_nothing].
  destruct (rule_kind_of (node_suffix s)) as [k|] eqn:Hk; cbn [mbind option_bind].
  - destruct (rule_kind_cases _ _ Hk) as [Hr Hin]. rewrite decide_True by done. by apply delete_performs.
  - destruct (decide _); by apply performs_nothing.
Qed.

Lemma expect_config o w : (∀ r, o = Some r → res_kind r = ZKConfigKind) →
  lift (expect ZKConfigKind (λ r, NewAssertionError "*v1alpha1.ZKConfigResource" (res_String r)) o) w = (w, Ok o).
Proof. intros Ho. destruct o as [r|]; [|done]. unfold lift, expect. by rewrite decide_True by auto. Qed.

Lemma event_performs e : about_config e → performs (process e) (node_change e).
Proof.
  intros He w σ Hs. unfold config_ProcessEvent.
  erewrite bind_ok by (apply expect_config; intros r ?; apply He; auto).
  erewrite bind_ok by (apply expect_config; intros r ?; apply He; auto).
  destruct e as [typ old new ctx]. unfold process_change, node_change. cbn [ev_newObj ev_oldObj ev_typ].
  assert (Hup : ∀ node, performs (match zk_config node with None => fail (nil_new "config")
      | Some _ => config_processUpsert now Format yaml_TagRoute yaml_ConditionRoute yaml_DynamicConfig node end)
    (PutRule <$> rule_of_node node)).
  { intros node. destruct (zk_config node) eqn:Hz; [by apply config_upsert_performs|].
    unfold rule_of_node. rewrite Hz. by apply performs_nothing. }
  destruct typ; first [destruct new as [node|]; [by apply Hup|by apply performs_nothing]
    |destruct old as [node|]; [destruct new; by apply config_delete_performs|destruct new; by apply performs_nothing]
    |destruct new, old; by apply performs_nothing].
Qed.

(** C18: the stores of tag routes, condition routes and configurators mirror the
    nodes of ZooKeeper. Whatever events about nodes are processed, the stores
    hold afterwards what the nodes say, read one after the other: the rule of
    the last report under its key, nothing under the key of a deleted node, and
    nothing changed by nodes without the suffix of a rule or without a
    document; and what was sent to the bus announces each change exactly
    twice, with and without its source, in that order of the changes. *)
Theorem rules_mirrored w σ es : shows w σ → Forall about_config es →
  let w' := foldl (λ w e, (process e w).1) w es in
  shows w' (mirror es σ).1 ∧ w_sent w' = w_sent w ++ (mirror es σ).2.
Proof.
  intros Hs Hes. revert w σ Hs. induction Hes as [|e es He _ IH]; intros w σ Hs; [simpl; by rewrite app_nil_r|].
  destruct (event_performs e He w σ Hs) as [Hs' Hsent]. cbn [foldl mirror].
  destruct (apply_change (node_change e) σ) as [σ1 sent]. cbn [fst snd] in *.
  destruct (IH _ _ Hs') as [Hs2 Hsent2]. destruct (mirror es σ1) as [σ2 sent']. cbn [fst snd] in *.
  split; [done|]. by rewrite Hsent2, Hsent, (assoc_L (++)).
Qed.
End rules.

(** ** Metadata *)
Section metadata.
Context {St : Type} `{ResourceStoreQueries St} `{MapRange}.
Context (now : Z) (Format : Z → string) (res_String : Resource → string).
Implicit Types w : world St.

Abbreviation report := (metadata_ProcessEvent now Format res_String).
Abbreviation catalogue := (ServiceCatalog.ProcessEvent res_String).
Abbreviation base := (base (St := St)).
Abbreviation consistent :=
  (consistent ServiceProviderMetadataKind base sane_event announces plain providers_of stored fits_providers).
Abbreviation reported := reports.

(** Nothing changes for the catalogue: its sources and its entries are as they
    were, and the events [es] sent are sane. *)
Record elsewhere w w' (es : list Event) : Prop := {
  el_ok : world_ok w';
  el_providers : items w' ServiceProviderMetadataKind = items w ServiceProviderMetadataKind;
  el_services : items w' ServiceKind = items w ServiceKind;
  el_indexers : ∀ k, indexers w' k = indexers w k;
  el_kinds : dom (w_stores w') = dom (w_stores w);
  el_sent : w_sent w' = w_sent w ++ es }.

Lemma elsewhere_base w w' es : base w → elsewhere w w' es → base w'.
Proof.
  intros [[Hok Hk Hm Hx] Hs] [Hok' Hp _ Hi Hd _]. split; [split; [done|by rewrite Hd|by rewrite Hi..]|by rewrite Hp].
Qed.

Lemma elsewhere_same w w' es x : elsewhere w w' es →
  providers_of w' x = providers_of w x ∧ stored w' x = stored w x.
Proof. intros He. unfold stored, providers_of. by rewrite (el_providers _ _ _ He), (el_services _ _ _ He). Qed.

Lemma elsewhere_reported w w' es : base w → elsewhere w w' es → Forall sane_event es → reported w w'.
Proof.
  intros Hb He Hes. exists es. split; [by eapply elsewhere_base|apply (el_sent _ _ _ He)|done|..];
    intros x _; destruct (elsewhere_same _ _ _ x He); auto.
Qed.

(** Something that is filed as well afterwards does not matter. *)
Lemma reported_elsewhere w w1 w' : reported w w1 → elsewhere w1 w' [] → reported w w'.
Proof.
  intros [es [Hb Hs Hes Ht Hr]] He. pose proof (el_sent _ _ _ He) as Hsent. rewrite app_nil_r in Hsent.
  exists es. split; [by eapply elsewhere_base|by rewrite Hsent|done|..]; intros x Hx;
    destruct (elsewhere_same _ _ _ x He) as [Hp Hst]; rewrite ?Hp, ?Hst; auto.
Qed.

Lemma filed_elsewhere w w' k m es : filed w w' k m es → k ≠ ServiceProviderMetadataKind → k ≠ ServiceKind →
  elsewhere w w' es.
Proof. intros [? ? Ho ? ? ?] ? ?. split; try done; by apply Ho. Qed.

Definition has_metadata_stores w : Prop :=
  ServiceConsumerMetadataKind ∈ dom (w_stores w) ∧ LifecycleEventKind ∈ dom (w_stores w).

Definition metadata_sent w r : Event :=
  match items w (res_kind r) !! ResourceKey r with
  | None => NewResourceChangedEvent Added None (Some r)
  | Some old => NewResourceChangedEvent Updated (Some old) (Some r)
  end.

Lemma processMetadataUpsert_ok w r : world_ok w → res_kind r ∈ dom (w_stores w) → res_kind r ≠ LifecycleEventKind →
  LifecycleEventKind ∈ dom (w_stores w) →
  ∃ w', processMetadataUpsert now Format (res_kind r) (Object r) w = (w', Ok ()) ∧
    filed w w' (res_kind r) (<[ResourceKey r := r]> (items w (res_kind r))) [metadata_sent w r].
Proof.
  intros Hw Hd Hne Hl. unfold processMetadataUpsert, metadata_sent.
  erewrite bind_ok by by apply reading_GetByKey.
  destruct (items w (res_kind r) !! ResourceKey r) as [old|] eqn:Hold; cbn [fmap option_fmap option_map].
  - destruct (writing_Update w r Hw Hd) as (w1 & Hw1 & Hc1%changed_filed); [by rewrite Hold|].
    erewrite bind_ok by exact Hw1. destruct (items_key w _ _ _ Hw Hold) as [_ Hkind].
    unfold expect. cbn [obj_resource]. rewrite decide_True by done.
    destruct (recordMetadata_ok now Format _ r "updated" (fl_ok _ _ _ _ _ Hc1)) as (w2 & Hw2 & Hc2);
      [by rewrite (fl_kinds _ _ _ _ _ Hc1)|]. erewrite bind_ok by exact Hw2.
    eexists. split; [apply Send_ok|]. rewrite <-(app_nil_l [_]). by eapply filed_send, filed_record.
  - destruct (writing_Add w r Hw Hd) as (w1 & Hw1 & Hc1%changed_filed); [done|].
    erewrite bind_ok by exact Hw1.
    destruct (recordMetadata_ok now Format _ r "added" (fl_ok _ _ _ _ _ Hc1)) as (w2 & Hw2 & Hc2);
      [by rewrite (fl_kinds _ _ _ _ _ Hc1)|]. erewrite bind_ok by exact Hw2.
    eexists. split; [apply Send_ok|]. rewrite <-(app_nil_l [_]). by eapply filed_send, filed_record.
Qed.

(** A provider's metadata are filed and announced as [published] says. *)
Lemma published_filed w r : world_ok w → res_kind r = ServiceProviderMetadataKind →
  ServiceProviderMetadataKind ∈ dom (w_stores w) →
  filed w (published r w).1 ServiceProviderMetadataKind
    (<[ResourceKey r := r]> (items w ServiceProviderMetadataKind)) [metadata_sent w r].
Proof.
  intros Hw Hk Hd. unfold published, metadata_sent. rewrite Hk.
  erewrite bind_ok by by apply get_typed_ok. fold (ResourceKey r).
  destruct (items w ServiceProviderMetadataKind !! ResourceKey r) as [old|] eqn:Hold.
  - destruct (writing_Update w r Hw) as (w1 & Hw1 & Hc1%changed_filed); [by rewrite Hk|by rewrite Hk, Hold|].
    rewrite Hk in Hw1, Hc1. erewrite bind_ok by exact Hw1. rewrite <-(app_nil_l [_]). by apply filed_send.
  - destruct (writing_Add w r Hw) as (w1 & Hw1 & Hc1%changed_filed); [by rewrite Hk|by rewrite Hk|].
    rewrite Hk in Hw1, Hc1. erewrite bind_ok by exact Hw1. rewrite <-(app_nil_l [_]). by apply filed_send.
Qed.

Lemma provider_reported w r : base w → has_metadata_stores w → sane r →
  ∃ w', processMetadataUpsert now Format ServiceProviderMetadataKind (Object r) w = (w', Ok ()) ∧
    reported w w' ∧ dom (w_stores w') = dom (w_stores w).
Proof.
  intros Hb [_ Hl] Hs. destruct (sane_spec r Hs) as (s & _ & Hk & _). pose proof (in_ok _ (bs_indexed _ Hb)) as Hw.
  destruct (in_kinds _ (bs_indexed _ Hb)) as [Hd _].
  destruct (processMetadataUpsert_ok w r) as (w' & Hw' & Hf); [done|by rewrite Hk|by rewrite Hk|done|].
  rewrite Hk in Hw', Hf. exists w'. split; [done|]. split; [|apply (fl_kinds _ _ _ _ _ Hf)].
  pose proof (published_filed w r Hw Hk Hd) as Hp.
  eapply reported_elsewhere; [by apply published_reported|].
  destruct Hf as [Hok Hi Ho Hx Hdom Hsent], Hp as [_ Hi' Ho' Hx' Hdom' Hsent']. split; [done|..].
  - by rewrite Hi, Hi'.
  - by rewrite Ho, Ho'.
  - intros k. by rewrite Hx, Hx'.
  - by rewrite Hdom, Hdom'.
  - by rewrite Hsent, Hsent', app_nil_r.
Qed.

Lemma consumer_reported w r : base w → has_metadata_stores w → res_kind r = ServiceConsumerMetadataKind →
  ∃ w', processMetadataUpsert now Format ServiceConsumerMetadataKind (Object r) w = (w', Ok ()) ∧
    reported w w' ∧ dom (w_stores w') = dom (w_stores w).
Proof.
  intros Hb [Hc Hl] Hk. pose proof (in_ok _ (bs_indexed _ Hb)) as Hw.
  destruct (processMetadataUpsert_ok w r) as (w' & Hw' & Hf); [done|by rewrite Hk|by rewrite Hk|done|].
  rewrite Hk in Hw', Hf. exists w'. split; [done|]. split; [|apply (fl_kinds _ _ _ _ _ Hf)].
  eapply elsewhere_reported; [done|by eapply filed_elsewhere|]. apply Forall_singleton.
  unfold metadata_sent. rewrite Hk. destruct (_ !! _); (eapply kind_for_others; [exact Hk|done|by left]).
Qed.

(** *** Reports and deliveries *)

(** The names in the metadata of a provider contain no separators of keys. *)
Definition plain_node (node : Resource) : Prop := ∀ s r, zk_metadata node = Some s →
  ToServiceProviderMetadataRes (res_Mesh node) (zm_NodeData s) = Some r → plain (ServiceCatalog.service_of r).

Definition about_metadata (e : Event) : Prop :=
  ∀ r, ev_newObj e = Some r ∨ ev_oldObj e = Some r → res_kind r = ZKMetadataKind ∧ plain_node r.

(** The size of the catalogue's channel. *)
Context (cap : nat).

Inductive zk_step : queued St → queued St → Prop :=
| zk_reported q e : about_metadata e → zk_step q (act ServiceProviderMetadataKind cap (report e) q)
| zk_drains q q' : drains_on catalogue ServiceProviderMetadataKind cap q q' → zk_step q q'.

Lemma decoded_sane mesh data r : ToServiceProviderMetadataRes mesh data = Some r →
  plain (ServiceCatalog.service_of r) → sane r.
Proof.
  unfold ToServiceProviderMetadataRes, ToServiceProviderMetadataResource.
  intros (s & _ & [= <-])%bind_Some Hp. by eexists.
Qed.

Lemma decoded_consumer_kind mesh data r : ToServiceConsumerMetadataByRawData mesh data = Object r →
  res_kind r = ServiceConsumerMetadataKind.
Proof.
  unfold ToServiceConsumerMetadataByRawData, ToServiceConsumerMetadataByMap.
  destruct (parse data ≫= add_members ∅) as [m|]; [|done]. destruct (m !! "interface"); [|done]. by intros [= <-].
Qed.

(** A failed read leaves the stores alone. *)
Lemma nothing_reported w (m : M St unit) : base w → (m w).1 = w → reported w (m w).1 ∧ dom (w_stores (m w).1) = dom (w_stores w).
Proof. intros Hb ->. split; [by apply reported_refl|done]. Qed.

Lemma upsert_reported w node : base w → has_metadata_stores w → plain_node node →
  let w' := (metadata_processUpsert now Format node w).1 in reported w w' ∧ dom (w_stores w') = dom (w_stores w).
Proof.
  intros Hb Hh Hp. unfold metadata_processUpsert. destruct (zk_metadata node) as [s|] eqn:Hs; [|by apply nothing_reported].
  destruct (rev (str_split "/" (zm_NodePath s))) as [|? [|side ?]]; [by apply nothing_reported..|].
  destruct (decide (side = "provider")); [|destruct (decide (side = "consumer")); [|by apply nothing_reported]].
  - destruct (ToServiceProviderMetadataRes _ _) as [r|] eqn:Hr; [|by apply nothing_reported].
    destruct (provider_reported w r Hb Hh) as (w' & -> & ?); [|done]. eapply decoded_sane; [exact Hr|]. by apply (Hp s).
  - destruct (ToServiceConsumerMetadataByRawData _ _) as [| |r] eqn:Hr; [by apply nothing_reported| |].
    + apply nothing_reported; [done|]. cbn [processMetadataUpsert]. unfold mbind, M_bind, reading.
      by destruct (ResourceKindRoute _ _).
    + destruct (consumer_reported w r Hb Hh) as (w' & -> & ?); [by eapply decoded_consumer_kind|done].
Qed.

Lemma report_reported w e : base w → has_metadata_stores w → about_metadata e →
  reported w (report e w).1 ∧ dom (w_stores (report e w).1) = dom (w_stores w).
Proof.
  intros Hb Hh He. unfold metadata_ProcessEvent.
  assert (Hcast : ∀ o, (∀ r, o = Some r → res_kind r = ZKMetadataKind) →
    lift (expect ZKMetadataKind (λ r, NewAssertionError "*v1alpha1.ZKMetadataResource" (res_String r)) o) w = (w, Ok o)).
  { intros [r|] Ho; [|done]. unfold lift, expect. by rewrite decide_True by auto. }
  erewrite bind_ok by (apply Hcast; intros r ?; apply He; auto).
  erewrite bind_ok by (apply Hcast; intros r ?; apply He; auto).
  destruct e as [typ old new ctx]. unfold process_change. cbn [ev_newObj ev_oldObj ev_typ].
  assert (Hup : ∀ node, new = Some node → let w' := ((match zk_metadata node with None => fail (nil_new "metadata")
      | Some _ => metadata_processUpsert now Format node end) w).1 in
      reported w w' ∧ dom (w_stores w') = dom (w_stores w)).
  { intros node ->. destruct (zk_metadata node); [|by apply (nothing_reported w (fail _))].
    apply upsert_reported; [done|done|]. apply (He node). by left. }
  destruct typ; try (by apply (nothing_reported w (mret ())));
    try (destruct new as [node|]; [by apply Hup|by apply (nothing_reported w (fail _))]).
  destruct old; [by apply (nothing_reported w (mret ()))|by apply (nothing_reported w (fail _))].
Qed.

(** *** Stores do not go away *)
Definition keeps_stores {A} (m : M St A) : Prop := ∀ w, dom (w_stores w) ⊆ dom (w_stores (m w).1).

Lemma keeps_bind {A B} (m : M St A) (f : A → M St B) : keeps_stores m → (∀ a, keeps_stores (f a)) → keeps_stores (m ≫= f).
Proof.
  intros Hm Hf w. unfold mbind, M_bind. specialize (Hm w). destruct (m w) as [w1 [a|e]]; [|done].
  etransitivity; [exact Hm|apply Hf].
Qed.
Lemma keeps_same {A} (m : M St A) : (∀ w, w_stores (m w).1 = w_stores w) → keeps_stores m.
Proof. intros Hm w. by rewrite Hm. Qed.
Lemma keeps_writing k op r : keeps_stores (writing k op r).
Proof.
  intros w. unfold writing. destruct (ResourceKindRoute _ _) as [s|]; [|done]. destruct (op s _) as [s' err].
  simpl. rewrite dom_insert_L. set_solver.
Qed.
Lemma keeps_typed k mesh name e : keeps_stores (get_typed k mesh name e).
Proof. apply keeps_bind; [by apply keeps_same|]. intros [[r|]|]; try (destruct (decide _)); by apply keeps_same. Qed.
Lemma keeps_listed k cs e : keeps_stores (list_typed k cs e).
Proof. apply keeps_bind; [by apply keeps_same|]. intros l. destruct (forallb _ _); by apply keeps_same. Qed.

Lemma keeps_sync mesh n v g : keeps_stores (syncService mesh n v g).
Proof.
  apply keeps_bind; [apply keeps_listed|]. intros ps. apply keeps_bind; [apply keeps_typed|].
  intros o. destruct ps, o; try (by apply keeps_same);
    (apply keeps_bind; [apply keeps_writing|intros []; by apply keeps_same]).
Qed.

Lemma keeps_ensure mesh s : keeps_stores (ensureApplication mesh s).
Proof.
  unfold ensureApplication. destruct (decide _); [by apply keeps_same|]. apply keeps_bind; [by apply keeps_same|].
  intros [?|]; [by apply keeps_same|]. apply keeps_bind; [apply keeps_writing|]. intros []. by apply keeps_same.
Qed.

Lemma keeps_catalogue e : keeps_stores (catalogue e).
Proof.
  apply keeps_bind; [by apply keeps_same|]. intros new. apply keeps_bind; [by apply keeps_same|]. intros old.
  assert (Hup : ∀ r, keeps_stores (processUpsert r)).
  { intros r. unfold processUpsert. destruct (provider_spec r); [|by apply keeps_same].
    apply keeps_bind; [apply keeps_ensure|]. intros []. apply keeps_sync. }
  destruct (ev_typ e); try (destruct new; [apply Hup|by apply keeps_same]); [|by apply keeps_same].
  destruct old as [r|]; [|by apply keeps_same]. unfold processDelete.
  destruct (provider_spec r); [apply keeps_sync|by apply keeps_same].
Qed.

Lemma moved_keeps q w' : qu_world (moved ServiceProviderMetadataKind cap q w') = w'.
Proof. unfold moved. by destruct (offers_kept ServiceProviderMetadataKind cap (sent_since (qu_world q) w')
  {| qu_world := w'; qu_channel := qu_channel q; qu_drainer := qu_drainer q; qu_log := qu_log q |}) as [_ ->]. Qed.

Lemma drains_keep q q' : drains_on catalogue ServiceProviderMetadataKind cap q q' →
  has_metadata_stores (qu_world q) → has_metadata_stores (qu_world q').
Proof.
  intros [q1|q1|q1] Hh.
  - unfold take_event. by destruct (qu_drainer q1), (qu_channel q1).
  - unfold read_source. by destruct (qu_drainer q1).
  - unfold finish_event. destruct (qu_drainer q1) as [| |e seen]; try done. rewrite moved_keeps. cbn [qu_world].
    assert (Hkeep : ∀ w k s, k ≠ ServiceProviderMetadataKind → k ∈ dom (w_stores w) ↔
      k ∈ dom (w_stores (with_source ServiceProviderMetadataKind w s))).
    { intros w k s Hk. rewrite !elem_of_dom. unfold with_source. simpl. by rewrite lookup_partial_alter_ne. }
    destruct Hh. split; apply Hkeep; try done; apply keeps_catalogue; by apply Hkeep.
Qed.

Lemma zk_step_consistent q q' : zk_step q q' → consistent q ∧ has_metadata_stores (qu_world q) →
  consistent q' ∧ has_metadata_stores (qu_world q').
Proof.
  intros Hstep [Hc Hh]. destruct Hstep as [q e He|q q' Hd].
  - destruct (report_reported (qu_world q) e (cn_base _ _ _ _ _ _ _ _ _ Hc) Hh He) as [[es Hr] Hd].
    split; [by eapply consistent_act; [apply (catalogue_ok res_String)|done|exact Hr]|].
    unfold act. rewrite moved_keeps. unfold has_metadata_stores. by rewrite Hd.
  - split; [by eapply drains_consistent; [apply catalogue_ok|done|]|by eapply drains_keep].
Qed.

End metadata.

(** ** Two tag rules and a provider *)
Module ZkMirrorExample.
#[local] Existing Instance RefStore.ops.
#[local] Existing Instance RefStore.laws.
#[local] Existing Instance RefStore_queries.
#[local] Existing Instance default_range.

Definition empty_store (k : ResourceKind) : RefStore.store :=
  {| RefStore.kind := k; RefStore.items := ∅;
     RefStore.indexers := if decide (k = ServiceProviderMetadataKind) then
       {[ ServiceCatalog.ByMeshIndex := ByMesh;
          ServiceCatalog.ByServiceProviderServiceKey := byServiceProviderServiceKey ]} else ∅ |}.
Definition start : world RefStore.store :=
  {| w_stores := list_to_map ((λ k, (k, empty_store k)) <$> all_kinds); w_sent := [] |}.

Lemma start_lookup k : w_stores start !! k = Some (empty_store k).
Proof. by destruct k. Qed.
Lemma start_ok : world_ok start.
Proof. intros k s. rewrite start_lookup. intros [= <-]. split; [by apply map_Forall_empty|done]. Qed.
Lemma start_dom k : k ∈ dom (w_stores start).
Proof. apply elem_of_dom. rewrite start_lookup. by eexists. Qed.
Lemma start_items k : items start k = ∅.
Proof. unfold items. by rewrite start_lookup. Qed.

Definition node (name : string) (s : Spec) : Resource := new_resource_of name "zk" s.
Definition config (name data : string) : Resource :=
  node name (ZKConfigSpec (Some {| zc_NodeName := name; zc_NodeData := data |})).

Definition tag_route (data : string) : TagRoute :=
  {| tr_Priority := 0; tr_Enabled := true; tr_Runtime := true; tr_Key := data; tr_ConfigVersion := "v3.0";
     tr_Force := false; tr_Tags := [] |}.
Definition condition_route (data : string) : ConditionRoute :=
  {| cr_ConfigVersion := "v3.0"; cr_Priority := 0; cr_Enabled := true; cr_Force := false; cr_Runtime := true;
     cr_Key := data; cr_Scope := "application"; cr_Conditions := [] |}.
Definition dynamic_config (data : string) : DynamicConfig :=
  {| dc_Key := data; dc_Scope := "application"; dc_ConfigVersion := "v3.0"; dc_Enabled := true; dc_Configs := [] |}.
Definition handle := config_ProcessEvent 1 (λ _, "now") res_Name tag_route condition_route dynamic_config.

Definition history : list Event :=
  [NewResourceChangedEvent Added None (Some (config "shop.tag-router" "shop"));
   NewResourceChangedEvent Added None (Some (config "cart.tag-router" "cart"));
   NewResourceChangedEvent Updated (Some (config "shop.tag-router" "shop")) (Some (config "shop.tag-router" "shop2"));
   NewResourceChangedEvent Added None (Some (config "readme.txt" "text"));
   NewResourceChangedEvent Deleted (Some (config "cart.tag-router" "cart")) None].

Lemma rules_mirrored_witness :
  shows start (λ _, ∅) ∧ Forall about_config history ∧
  (let w := foldl (λ w e, (handle e w).1) start history in
   shows w (mirror tag_route condition_route dynamic_config history (λ _, ∅)).1 ∧
   map_to_list (items w TagRouteKind) =
     [("zk/shop.tag-router", new_resource_of "shop.tag-router" "zk" (TagRouteSpec (Some (tag_route "shop2"))))] ∧
   length (w_sent w) = 8).
Proof.
  assert (Hs : shows start (λ _, ∅)).
  { split; [apply start_ok|by split_and!; apply start_dom|]. intros k _. apply start_items. }
  assert (He : Forall about_config history).
  { unfold history. repeat constructor; intros r [Hr|Hr]; by simplify_eq/=. }
  split; [exact Hs|]. split; [exact He|].
  destruct (rules_mirrored 1 (λ _, "now") res_Name tag_route condition_route dynamic_config start (λ _, ∅) history Hs He)
    as [Hm _].
  split; [exact Hm|]. split; vm_compute; reflexivity.
Defined.

(** *** A provider's metadata in JSON *)
Definition quote (s : string) : string := String (Ascii.ascii_of_nat 34) s +:+ String (Ascii.ascii_of_nat 34) "".
Definition member (k v : string) : string := quote k +:+ ":" +:+ v.
Definition metadata_text : string :=
  "{" +:+ member "canonicalName" (quote "org.Greeter") +:+ "," +:+
  member "parameters" ("{" +:+ member "application" (quote "shop") +:+ "," +:+ member "version" (quote "1.0") +:+ "}")
  +:+ "," +:+ member "methods" ("[{" +:+ member "name" (quote "hello") +:+ "},null]") +:+ "}".
Definition metadata_node : Resource :=
  node "m1" (ZKMetadataSpec (Some {| zm_NodePath := "/dubbo/metadata/org.Greeter/1.0/provider/shop";
                                     zm_NodeData := metadata_text |})).
Definition report_event : Event := NewResourceChangedEvent Added None (Some metadata_node).
Definition reported_once : queued RefStore.store :=
  act ServiceProviderMetadataKind 4 (metadata_ProcessEvent 1 (λ _, "now") res_Name report_event) (opened start).
Definition greeter : service_id := {| sv_Mesh := "zk"; sv_Name := "org.Greeter"; sv_Version := "1.0"; sv_Group := "" |}.

Lemma report_plain : about_metadata report_event.
Proof.
  intros r [[= <-]|[=]]. split; [done|]. intros s r [= <-]. cbn [zm_NodeData].
  assert (Hd : ServiceCatalog.service_of <$> ToServiceProviderMetadataRes (res_Mesh metadata_node) metadata_text = Some greeter)
    by (vm_compute; reflexivity).
  intros Hr. rewrite Hr in Hd. injection Hd as ->. by split_and!.
Qed.

End ZkMirrorExample.
