(* ===== verification/NacosWatch.v ===== *)
(** pkg/discovery/nacos2/listerwatcher: the services of Nacos, listed by pages
    and watched by turns. *)
From S2P Require Import Prelude GoStrings Errors Resource ZkRegistry Watching.

Open Scope string_scope.
Open Scope list_scope.

(** The increment of a [uint32]. *)
Definition u32 (z : Z) : Z := (z `mod` 4294967296)%Z.

(** ** The naming client

    github.com/nacos-group/nacos-sdk-go. A call answers, and the callbacks
    that run until it returns are listed with it: the service and what the
    callback is given. *)
Record nacos_Instance := { mi_Ip : string; mi_Port : Z; mi_Metadata : gmap string string }.
Abbreviation notification := (string * result error (list nacos_Instance))%type.

Class NamingClient (C : Type) := {
  nm_GetAllServicesInfo : C → Z → Z → C * list notification * result error (list string);
  nm_GetService : C → string → C * list notification * result error (list nacos_Instance);
  nm_Subscribe : C → string → C * list notification * option error;
  nm_Unsubscribe : C → string → string → C * list notification * option error }.

(** What the documentation says: a page is a part of the list of services, and
    only services that are subscribed are notified; the one that is unsubscribed
    can still be notified until the call returns. The services change between
    the turns ([step_registry]). [nm_up]: the client answers until the turn is
    over. *)
Record same_services {C} (names : C → list string) (up : C → Prop) (c c' : C) : Prop := {
  ss_names : names c' = names c;
  ss_up : up c → up c' }.

Class NamingClientLaws (C : Type) `{NamingClient C} := {
  nm_names : C → list string;
  nm_subscribed : C → gset string;
  nm_up : C → Prop;
  nm_page c size n c' ns r : nm_GetAllServicesInfo c size n = (c', ns, r) →
    same_services nm_names nm_up c c' ∧ nm_subscribed c' = nm_subscribed c ∧ (∀ p, p ∈ ns → p.1 ∈ nm_subscribed c) ∧
    (∀ l, r = Ok l → l = slice size n (nm_names c)) ∧ (nm_up c → is_ok r = true);
  nm_subscribe c s c' ns e : nm_Subscribe c s = (c', ns, e) →
    same_services nm_names nm_up c c' ∧
    nm_subscribed c' = (match e with None => {[s]} ∪ nm_subscribed c | Some _ => nm_subscribed c end) ∧
    (∀ p, p ∈ ns → p.1 ∈ nm_subscribed c') ∧ (nm_up c → e = None);
  nm_unsubscribe c s g c' ns e : nm_Unsubscribe c s g = (c', ns, e) →
    same_services nm_names nm_up c c' ∧
    nm_subscribed c' = (match e with None => nm_subscribed c ∖ {[s]} | Some _ => nm_subscribed c end) ∧
    (∀ p, p ∈ ns → p.1 ∈ nm_subscribed c) ∧ (nm_up c → e = None) }.

Section service.
Context {C : Type} `{NamingClient C, MapRange}.
Context (mesh nacosAddress : string).
Abbreviation W := (watcher C).

Definition toNacosServiceResource (serviceName : string) (instances : list nacos_Instance) : Resource :=
  new_resource_of serviceName mesh (NacosServiceSpec (Some
    {| ns_ServiceKey := serviceName;
       ns_Instances := (λ item, {| ni_Ip := mi_Ip item; ni_Port := i64 (mi_Port item); ni_Metadata := mi_Metadata item |})
                       <$> instances |})).

(** The callback of a subscription. *)
Definition notified (n : notification) : list watch_Event :=
  match n.2 with Err _ => [] | Ok instances => [modified (toNacosServiceResource n.1 instances)] end.

(** The watcher after a call of the client. *)
Definition after_call (c : C) (ns : list notification) (w : W) : W := emit (ns ≫= notified) (set_client c w).

Definition service_listPage (pageNo pageSize : Z) (w : W) : W * result error (list string) :=
  let '(c, ns, r) := nm_GetAllServicesInfo (wt_client w) pageSize pageNo in
  (after_call c ns w,
   match r with
   | Err e => Err (BizError (Some e) NacosError ("get service names failed in nacos " +:+ nacosAddress +:+
       " failed, page size: " +:+ pretty pageSize +:+ ", page num: " +:+ pretty pageNo))
   | Ok serviceNames => Ok serviceNames
   end).

Definition subscribeService (serviceName : string) (w : W) : W * option error :=
  let '(c, ns, e) := nm_Subscribe (wt_client w) serviceName in
  (after_call c ns w,
   match e with
   | Some e => Some (BizError (Some e) NacosError ("subscribe service " +:+ serviceName +:+ " failed in nacos " +:+ mesh))
   | None => None
   end).

Definition unsubscribeService (serviceName : string) (w : W) : W * option error :=
  let w := emit [gone (toNacosServiceResource serviceName [])] w in
  let '(c, ns, e) := nm_Unsubscribe (wt_client w) serviceName "DEFAULT_GROUP" in
  (after_call c ns w, e).

Definition processNacosService (serviceName : string) (w : W) : W :=
  match wt_marks w !! serviceName with
  | Some _ => set_marks (<[serviceName := true]> (wt_marks w)) w
  | None =>
      match subscribeService serviceName w with
      | (w, Some _) => w
      | (w, None) => set_marks (<[serviceName := true]> (wt_marks w)) w
      end
  end.

(** A page of a hundred, and whether it is the last one. *)
Definition service_page {A} (n : Z) (p : W * A) : (W * A) * result error (list string * bool) :=
  let '(w, acc) := p in
  let '(w, r) := service_listPage n 100 w in
  ((w, acc), (λ serviceNames, (serviceNames, bool_decide (List.length serviceNames < 100))) <$> r).

Definition fetchAllServiceNames (fuel : nat) (w : W) : option (W * result error (list string)) :=
  (λ o : (W * list string) * option error,
     (o.1.1, match o.2 with Some e => Err e | None => Ok o.1.2 end)) <$>
  pages service_page (λ n, u32 (n + 1)) (λ name p, (p.1, p.2 ++ [name])) fuel 1 (w, []).

Definition fetchAndProcessService (fuel : nat) (w : W) : option (W * option error) :=
  (λ o : (W * unit) * option error,
     match o.2 with
     | Some e => (o.1.1, Some e)
     | None => (sweep unsubscribeService o.1.1, None)
     end) <$>
  pages service_page (λ n, u32 (n + 1)) (λ name p, (processNacosService name p.1, p.2)) fuel 1 (w, ()).

(** The services that cannot be read are left out. *)
Definition read_service (p : W * list Resource) (serviceName : string) : W * list Resource :=
  let '(c, ns, r) := nm_GetService (wt_client p.1) serviceName in
  (after_call c ns p.1,
   match r with Err _ => p.2 | Ok hosts => p.2 ++ [toNacosServiceResource serviceName hosts] end).
Definition service_List (fuel : nat) (w : W) : option (W * result error (list Resource)) :=
  o ← fetchAllServiceNames fuel w;
  match o with
  | (w, Err e) => Some (w, Err e)
  | (w, Ok serviceNames) =>
      let '(w, resList) := foldl read_service (w, []) serviceNames in Some (w, Ok resList)
  end.

(** The job [Watch] schedules; errors are logged. [false] when it stops the
    scheduler. *)
Definition service_turn (fuel : nat) (w : W) : option (W * bool) :=
  if wt_stopWatch w then Some (w, false)
  else (λ o : W * option error, (o.1, true)) <$> fetchAndProcessService fuel w.

Definition service_Stop (w : W) : W :=
  {| wt_client := wt_client w; wt_marks := wt_marks w; wt_results := wt_results w; wt_stopWatch := true |}.
End service.

Definition NewNacosServiceListerWatcher {C} (c : C) : watcher C := Build_watcher c ∅ [] false.

(** ** The services that are watched are the services of Nacos *)
Section service_laws.
Context {C : Type} `{NamingClientLaws C, MapRange}.
Context (mesh nacosAddress : string).
Abbreviation W := (watcher C).
Abbreviation service := (toNacosServiceResource mesh).
Abbreviation key s := (BuildResourceKey mesh s).

Lemma key_inj s s' : key s = key s' → s = s'.
Proof. unfold BuildResourceKey. intros [=]%(inj (String.append mesh)). done. Qed.

(** The store of the informer: [m0] is what the first listing put into it. *)
Context (m0 : gmap string Resource).
Abbreviation store l := (foldl replay_event m0 l).

Lemma store_app l l' : store (l ++ l') = foldl replay_event (store l) l'.
Proof. apply foldl_app. Qed.

(** The deletion of a service was sent; it was reported after that. *)
Definition deleted (l : list watch_Event) (s : string) : Prop := gone (service s []) ∈ l.
Definition late (l : list watch_Event) (s : string) : Prop :=
  ∃ l1 l2 instances, l = l1 ++ gone (service s []) :: l2 ∧ modified (service s instances) ∈ l2.

Lemma late_more l l' s : late l s → late (l ++ l') s.
Proof.
  intros (l1 & l2 & i & -> & Hi). exists l1, (l2 ++ l'), i. rewrite <-(assoc_L (++)). split; [done|]. set_solver.
Qed.

Definition untouched (j : string) (l : list watch_Event) : Prop :=
  Forall (λ e, ResourceKey <$> we_Object e ≠ Some j) l.

(** Where a stored resource comes from: a report of one of the services [U], a
    late report, or the first listing, when it was not reported since. *)
Definition reported (U : gset string) (l : list watch_Event) : Prop :=
  ∀ j r, store l !! j = Some r →
    (∃ s instances, (s ∈ U ∨ late l s) ∧ j = key s ∧ r = service s instances) ∨
    (m0 !! j = Some r ∧ untouched j l).

Lemma reported_mono U U' l : U ⊆ U' → reported U l → reported U' l.
Proof. intros HU Hm j r [(s & i & Hs & ? & ?)|?]%Hm; [left; exists s, i; set_solver|by right]. Qed.

Lemma notified_cases p : notified mesh p = [] ∨ ∃ l, notified mesh p = [modified (service p.1 l)].
Proof. unfold notified. destruct p.2; [right; eauto|by left]. Qed.

Lemma reported_modified U l s i : reported U l → s ∈ U ∨ deleted l s → reported U (l ++ [modified (service s i)]).
Proof.
  intros Hm Hs j r Hj. rewrite store_app in Hj. cbn in Hj. apply lookup_insert_Some in Hj as [[<- <-]|[Hne Hj]].
  - left. exists s, i. split_and!; [|done..]. destruct Hs as [?|Hd]; [by left|right].
    apply list_elem_of_split in Hd as (l1 & l2 & ->). exists l1, (l2 ++ [modified (service s i)]), i.
    rewrite <-(assoc_L (++)). split; [done|]. set_solver.
  - destruct (Hm j r Hj) as [(s' & i' & Hs' & ? & ?)|[? Hu]]; [left|right].
    + exists s', i'. split_and!; [|done..]. destruct Hs'; [by left|right; by apply late_more].
    + split; [done|]. apply Forall_app. split; [done|]. apply Forall_singleton. cbn. congruence.
Qed.

Lemma reported_notified U l ns : reported U l → (∀ p, p ∈ ns → p.1 ∈ U ∨ deleted l p.1) →
  reported U (l ++ (ns ≫= notified mesh)).
Proof.
  revert l. induction ns as [|p ns IH]; intros l Hm Hns; [by rewrite app_nil_r|]. csimpl. rewrite (assoc_L (++)).
  apply IH.
  - destruct (notified_cases p) as [->|(i & ->)]; [by rewrite app_nil_r|]. apply reported_modified; [done|].
    apply Hns. left.
  - intros q Hq. destruct (Hns q) as [?|?]; [by right|by left|right]. unfold deleted in *. set_solver.
Qed.

Lemma reported_gone U l s : reported U l → reported (U ∖ {[s]}) (l ++ [gone (service s [])]).
Proof.
  intros Hm j r Hj. rewrite store_app in Hj. cbn in Hj. apply lookup_delete_Some in Hj as [Hne Hj].
  destruct (Hm j r Hj) as [(s' & i & Hs & -> & ->)|[? Hu]]; [left|right].
  - exists s', i. split_and!; [|done..]. destruct Hs as [?|?]; [left|right; by apply late_more].
    assert (s ≠ s') by (intros ->; by apply Hne). set_solver.
  - split; [done|]. apply Forall_app. split; [done|]. apply Forall_singleton. cbn. congruence.
Qed.

Lemma notified_keeps m ns j : is_Some (m !! j) → is_Some (foldl replay_event m (ns ≫= notified mesh) !! j).
Proof.
  revert m. induction ns as [|p ns IH]; intros m Hm; [done|]. csimpl. rewrite foldl_app. apply IH.
  destruct (notified_cases p) as [->|(l & ->)]; [done|]. cbn. apply lookup_insert_is_Some. destruct (decide (ResourceKey (service p.1 l) = j)); auto.
Qed.

(** What holds in every state: what is watched is what is subscribed, and where
    the rest of the store comes from. *)
Definition watching_ok (w : W) : Prop :=
  dom (wt_marks w) = nm_subscribed (wt_client w) ∧ reported (nm_subscribed (wt_client w)) (wt_results w).

Lemma listPage_ok n size w : watching_ok w → watching_ok (service_listPage mesh nacosAddress n size w).1.
Proof.
  intros [Hd Hr]. unfold service_listPage. destruct (nm_GetAllServicesInfo _ _ _) as [[c ns] r] eqn:E.
  destruct (nm_page _ _ _ _ _ _ E) as (_ & Hs & Hns & _). split; cbn; [by rewrite Hs|].
  rewrite Hs. apply reported_notified; [done|]. auto.
Qed.

Lemma processNacosService_ok s w : watching_ok w → watching_ok (processNacosService mesh s w).
Proof.
  intros [Hd Hr]. unfold processNacosService. destruct (wt_marks w !! s) as [b|] eqn:Hs.
  { split; cbn; [|done]. rewrite dom_insert_L, <-Hd. apply elem_of_dom_2 in Hs. set_solver. }
  unfold subscribeService. destruct (nm_Subscribe _ _) as [[c ns] [e|]] eqn:E;
    destruct (nm_subscribe _ _ _ _ _ E) as (_ & Hs' & Hns & _); split; cbn.
  - by rewrite Hs'.
  - apply reported_notified; [by rewrite Hs'|auto].
  - by rewrite dom_insert_L, Hs', Hd.
  - apply reported_notified; [|auto]. rewrite Hs'. eapply reported_mono; [|done]. set_solver.
Qed.

Lemma unsubscribeService_ok s w : watching_ok w → let '(w', e) := unsubscribeService mesh s w in
  wt_marks w' = wt_marks w ∧ reported (nm_subscribed (wt_client w')) (wt_results w') ∧
  nm_subscribed (wt_client w') = match e with None => nm_subscribed (wt_client w) ∖ {[s]} | Some _ => nm_subscribed (wt_client w) end.
Proof.
  intros [Hd Hr]. unfold unsubscribeService. destruct (nm_Unsubscribe _ _ _) as [[c ns] e] eqn:E.
  destruct (nm_unsubscribe _ _ _ _ _ _ E) as (_ & Hs' & Hns & _). cbn in Hs', Hns |- *.
  split_and!; [done| |by destruct e].
  apply reported_notified.
  - eapply (reported_mono (nm_subscribed (wt_client w) ∖ {[s]})); [rewrite Hs'; destruct e; set_solver|].
    by apply reported_gone.
  - intros p Hp. destruct (decide (p.1 = s)) as [->|Hne]; [right; unfold deleted; set_solver|left].
    specialize (Hns p Hp). rewrite Hs'. destruct e; set_solver.
Qed.

Lemma sweep_one_ok w s b : watching_ok w → wt_marks w !! s = Some b →
  watching_ok (sweep_one (unsubscribeService mesh) w (s, b)).
Proof.
  intros Hw Hs. unfold sweep_one. cbn [fst snd]. destruct b.
  - destruct Hw as [Hd Hr]. split; [|done]. cbn. rewrite dom_insert_L, <-Hd. apply elem_of_dom_2 in Hs. set_solver.
  - pose proof (unsubscribeService_ok s w Hw) as Hu. destruct (unsubscribeService mesh s w) as [w' [e|]];
      destruct Hu as (Hm & Hr & Hsub), Hw as [Hd _]; split; cbn; [|done| |done].
    + by rewrite Hm, Hsub.
    + by rewrite dom_delete_L, Hm, Hsub, Hd.
Qed.

Lemma unsubscribeService_marks s w : wt_marks (unsubscribeService mesh s w).1 = wt_marks w.
Proof. unfold unsubscribeService. by destruct (nm_Unsubscribe _ _ _) as [[c ns] e]. Qed.

Lemma sweep_ok w : watching_ok w → watching_ok (sweep (unsubscribeService mesh) w).
Proof. intros Hw. apply sweep_ind; [apply unsubscribeService_marks|by intros; apply sweep_one_ok|done]. Qed.

Lemma service_page_fst {A} n w (acc : A) :
  (service_page mesh nacosAddress n (w, acc)).1 = ((service_listPage mesh nacosAddress n 100 w).1, acc).
Proof. unfold service_page. by destruct (service_listPage _ _ _ _ _) as [w' r]. Qed.

Lemma service_turn_ok fuel w w' b : watching_ok w →
  service_turn mesh nacosAddress fuel w = Some (w', b) → watching_ok w'.
Proof.
  intros Hw. unfold service_turn. destruct (wt_stopWatch w); [by intros [= <- _]|].
  unfold fetchAndProcessService. destruct (pages _ _ _ _ _ _) as [[[w1 []] e]|] eqn:E; [|done]. cbn.
  assert (Hw1 : watching_ok w1).
  { eapply (pages_ind _ _ _ (λ p : W * unit, watching_ok p.1)) in E; [done| | |done].
    - intros n [w0 []] Hw0. rewrite service_page_fst. by apply listPage_ok.
    - intros s p. by apply processNacosService_ok. }
  destruct e as [e|]; cbn; intros [= <- _]; [done|]. by apply sweep_ok.
Qed.

(** *** A turn the client answers *)

(** What holds of the client and the store after the names [gones] were
    unsubscribed from, and in the rest of the turn. *)
Record turning (w0 : W) (gones : list string) (w : W) : Prop := {
  tn_up : nm_up (wt_client w);
  tn_names : nm_names (wt_client w) = nm_names (wt_client w0);
  tn_stop : wt_stopWatch w = wt_stopWatch w0;
  tn_kept : ∀ s, s ∉ gones → is_Some (store (wt_results w0) !! key s) → is_Some (store (wt_results w) !! key s) }.

Lemma turning_call w0 gones w c ns : turning w0 gones w → same_services nm_names nm_up (wt_client w) c →
  turning w0 gones (after_call mesh c ns w).
Proof.
  intros [Hup Hnm Hst Hk] [Hn Hu]. split; cbn; [by apply Hu|by rewrite Hn|done|].
  intros s Hs Hm. rewrite store_app. by apply notified_keeps, Hk.
Qed.

Lemma turning_page w0 n w : turning w0 [] w → watching_ok w → (1 ≤ n)%Z → (Z.to_nat ((n - 1) * 100) ≤ List.length (nm_names (wt_client w0)))%nat →
  ∃ w', service_page mesh nacosAddress n (w, ()) =
      ((w', ()), Ok (slice 100 n (nm_names (wt_client w0)), bool_decide (List.length (slice 100 n (nm_names (wt_client w0))) < 100))) ∧
    turning w0 [] w' ∧ watching_ok w' ∧ wt_marks w' = wt_marks w.
Proof.
  intros Ht Hok Hn Hl. pose proof (listPage_ok n 100 w Hok) as Hok'. unfold service_page, service_listPage in *.
  destruct (nm_GetAllServicesInfo _ _ _) as [[c ns] r] eqn:E. destruct (nm_page _ _ _ _ _ _ E) as (Hsame & _ & _ & Hsl & Hup).
  specialize (Hup (tn_up _ _ _ Ht)). destruct r as [l|]; [|done]. specialize (Hsl l eq_refl). rewrite (tn_names _ _ _ Ht) in Hsl. subst l.
  eexists. split; [done|]. split_and!; [by apply turning_call|done|done].
Qed.

Lemma turning_process w0 s w : turning w0 [] w → watching_ok w →
  turning w0 [] (processNacosService mesh s w) ∧ wt_marks (processNacosService mesh s w) = <[s := true]> (wt_marks w).
Proof.
  intros Ht Hok. unfold processNacosService. destruct (wt_marks w !! s) as [b|]; [split; [|done]; by destruct Ht|].
  unfold subscribeService. destruct (nm_Subscribe _ _) as [[c ns] e] eqn:E.
  destruct (nm_subscribe _ _ _ _ _ E) as (Hsame & _ & _ & He). rewrite (He (tn_up _ _ _ Ht)).
  pose proof (turning_call w0 [] w c ns Ht Hsame) as Ht'. split; [|done]. by destruct Ht'.
Qed.

Lemma turning_unsubscribe w0 gones s w : turning w0 gones w → ∃ w', unsubscribeService mesh s w = (w', None) ∧
  wt_marks w' = wt_marks w ∧ turning w0 (gones ++ [s]) w'.
Proof.
  intros Ht. unfold unsubscribeService. destruct (nm_Unsubscribe _ _ _) as [[c ns] e] eqn:E.
  destruct (nm_unsubscribe _ _ _ _ _ _ E) as (Hsame & _ & _ & He). cbn in He.
  rewrite (He (tn_up _ _ _ Ht)). eexists. split; [done|]. split; [done|]. apply turning_call; [|done].
  destruct Ht as [Hup Hnm Hst Hk]. split; [done..|]. intros s' Hs' Hm. cbn. rewrite store_app. cbn.
  rewrite lookup_delete_ne; [apply Hk; [set_solver|done]|]. intros Heq%key_inj. cbn in Heq. set_solver.
Qed.

Lemma pages_up fuel w : wt_stopWatch w = false → watching_ok w → nm_up (wt_client w) →
  let l := nm_names (wt_client w) in (Z.of_nat (List.length l) < 100 * Z.of_nat fuel)%Z → (Z.of_nat (List.length l) < 100 * 4294967295)%Z →
  ∃ w', pages (service_page mesh nacosAddress) (λ n, u32 (n + 1)) (λ name p, (processNacosService mesh name p.1, p.2)) fuel 1 (w, ()) =
      Some ((w', ()), None) ∧ turning w [] w' ∧ watching_ok w' ∧ wt_marks w' = marked l (wt_marks w).
Proof.
  intros Hst Hok Hup l Hf Hl.
  destruct (pages_good (service_page mesh nacosAddress) (λ n, u32 (n + 1)) (λ name (p : W * unit), (processNacosService mesh name p.1, p.2))
    100 l (λ done (p : W * unit), turning w [] p.1 ∧ watching_ok p.1 ∧ wt_marks p.1 = marked done (wt_marks w)) eq_refl) with (fuel := fuel) (n := 1%Z) (w := (w, ()))
    as ([w' []] & Hp & Hg); [| |lia|cbn; lia|lia| |by exists w'].
  - intros done n [w1 []] (Ht & Hok1 & Hm) Hn Hle. destruct (turning_page w n w1 Ht Hok1 Hn Hle) as (w2 & -> & Ht2 & Hok2 & Hm2).
    eexists _, _. split; [reflexivity|]. split_and!; [done|done|by rewrite <-Hm|..].
    + intros Hb%bool_decide_eq_true. fold l in Hb. unfold slice in Hb. rewrite length_take, length_drop in Hb. lia.
    + intros Hb%bool_decide_eq_false. fold l in Hb. unfold slice in Hb. rewrite length_take, length_drop in Hb.
      split; [lia|]. unfold u32. rewrite Z.mod_small; lia.
  - intros done x rest [w1 []] Hl1 (Ht & Hok1 & Hm). cbn in *. destruct (turning_process w x w1 Ht Hok1) as [Ht' Hm'].
    split_and!; [done|by apply processNacosService_ok|]. rewrite Hm', Hm. unfold marked. by rewrite foldl_app.
  - split_and!; [by split|done|done].
Qed.

Lemma turn_up fuel w : wt_stopWatch w = false → watching_ok w → nm_up (wt_client w) →
  let l := nm_names (wt_client w) in (Z.of_nat (List.length l) < 100 * Z.of_nat fuel)%Z → (Z.of_nat (List.length l) < 100 * 4294967295)%Z →
  ∃ w', service_turn mesh nacosAddress fuel w = Some (w', true) ∧ turning w (swept (marked l (wt_marks w))) w' ∧ watching_ok w' ∧
    wt_marks w' = kept (marked l (wt_marks w)).
Proof.
  intros Hst Hok Hup l Hf Hl. destruct (pages_up fuel w) as (w1 & Hp & Ht & Hok1 & Hm); [done..|].
  unfold service_turn, fetchAndProcessService. rewrite Hst, Hp. cbn. eexists. split; [done|]. fold l in Hm. rewrite <-Hm.
  destruct (sweep_good (unsubscribeService mesh) (turning w)) with (w := w1) as [Hg Hk]; [| |done|].
  - intros gones s w2. apply turning_unsubscribe.
  - intros gones w2 m Ht2. by destruct Ht2.
  - split_and!; [done|by apply sweep_ok|done].
Qed.

(** *** The first listing *)
Lemma fetchAllServiceNames_up fuel w : nm_up (wt_client w) → watching_ok w →
  let l := nm_names (wt_client w) in (Z.of_nat (List.length l) < 100 * Z.of_nat fuel)%Z → (Z.of_nat (List.length l) < 100 * 4294967295)%Z →
  ∃ w', fetchAllServiceNames mesh nacosAddress fuel w = Some (w', Ok l) ∧ wt_marks w' = wt_marks w ∧ nm_up (wt_client w').
Proof.
  intros Hup Hok l Hf Hl.
  destruct (pages_good (service_page mesh nacosAddress) (λ n, u32 (n + 1)) (λ name (p : W * list string), (p.1, p.2 ++ [name])) 100 l
    (λ done (p : W * list string), turning w [] p.1 ∧ watching_ok p.1 ∧ wt_marks p.1 = wt_marks w ∧ p.2 = done) eq_refl)
    with (fuel := fuel) (n := 1%Z) (w := (w, [] : list string)) as ([w' names] & Hp & Ht & _ & Hm & Hn); [| |lia|cbn; lia|lia| |].
  - intros done n [w1 acc] (Ht & Hok1 & Hm & Ha) Hn Hle. destruct (turning_page w n w1 Ht Hok1 Hn Hle) as (w2 & Hp & Ht2 & Hok2 & Hm2).
    unfold service_page in *. destruct (service_listPage mesh nacosAddress n 100 w1) as [w3 r]. injection Hp as -> Hr.
    rewrite Hr. eexists _, _. split; [reflexivity|]. split_and!; [done|done|cbn in *; congruence|done|..].
    + intros Hb%bool_decide_eq_true. fold l in Hb. unfold slice in Hb. rewrite length_take, length_drop in Hb. lia.
    + intros Hb%bool_decide_eq_false. fold l in Hb. unfold slice in Hb. rewrite length_take, length_drop in Hb.
      split; [lia|]. unfold u32. rewrite Z.mod_small; lia.
  - intros done x rest [w1 acc] _ (Ht & Hok1 & Hm & Ha). cbn in *. by subst.
  - split_and!; [by split|done..].
  - exists w'. unfold fetchAllServiceNames. rewrite Hp. cbn in *. subst. split_and!; [done|done|apply Ht].
Qed.

(** *** Executions

    Turns, reports to the callbacks between them, changes of the registry,
    and [Stop], in any order. *)
Inductive service_step (w : W) : W → Prop :=
| step_turn fuel w' b : service_turn mesh nacosAddress fuel w = Some (w', b) → service_step w w'
| step_report p : p.1 ∈ nm_subscribed (wt_client w) → service_step w (emit (notified mesh p) w)
| step_registry c : nm_subscribed c = nm_subscribed (wt_client w) → service_step w (set_client c w)
| step_Stop : service_step w (service_Stop w).

Lemma service_steps_ok w w' : rtc service_step w w' → watching_ok w → watching_ok w'.
Proof.
  induction 1 as [|w w1 w2 Hs _ IH]; [done|]. intros Hok. apply IH. destruct Hs as [fuel w' b Ht|p Hp|c Hc|].
  - by eapply service_turn_ok.
  - destruct Hok as [Hd Hr]. split; [done|]. cbn.
    pose proof (reported_notified _ _ [p] Hr) as Hn. csimpl in Hn. rewrite app_nil_r in Hn. apply Hn. set_solver.
  - destruct Hok as [Hd Hr]. split; cbn; by rewrite Hc.
  - done.
Qed.

Lemma new_ok (c : C) : nm_subscribed c = ∅ → watching_ok (NewNacosServiceListerWatcher c).
Proof. intros Hc. split; cbn; [by rewrite Hc|]. intros j r Hj. right. by split; [|constructor]. Qed.

End service_laws.

(** ** A registry *)
Module NacosWatchExample.
Record registry := {
  rg_services : list (string * list nacos_Instance); rg_subscribed : gset string; rg_answers : bool }.
Definition hosts (g : registry) (s : string) : list nacos_Instance :=
  default [] ((list_to_map (rg_services g) : gmap string _) !! s).
Definition subscribed_to (g : registry) (U : gset string) : registry :=
  {| rg_services := rg_services g; rg_subscribed := U; rg_answers := rg_answers g |}.

(** A subscription is answered with a first report. *)
#[export] Instance registry_client : NamingClient registry := {
  nm_GetAllServicesInfo g size n :=
    (g, [], if rg_answers g then Ok (slice size n (rg_services g).*1) else Err (ErrorText "no answer"));
  nm_GetService g s := (g, [], if rg_answers g then Ok (hosts g s) else Err (ErrorText "no answer"));
  nm_Subscribe g s :=
    if rg_answers g then (subscribed_to g ({[s]} ∪ rg_subscribed g), [(s, Ok (hosts g s))], None)
    else (g, [], Some (ErrorText "no answer"));
  nm_Unsubscribe g s _ :=
    if rg_answers g then (subscribed_to g (rg_subscribed g ∖ {[s]}), [], None)
    else (g, [], Some (ErrorText "no answer")) }.

#[export] Instance registry_laws : NamingClientLaws registry.
Proof.
  refine {| nm_names g := (rg_services g).*1; nm_subscribed := rg_subscribed; nm_up g := rg_answers g = true |}.
  - intros g size n c' ns r [= <- <- <-]. split_and!; [done|done|set_solver| |].
    + destruct (rg_answers g); [by intros l [= <-]|done].
    + by intros ->.
  - intros g s c' ns e. cbn. destruct (rg_answers g) eqn:Ha; intros [= <- <- <-]; split_and!; try done; set_solver.
  - intros g s gr c' ns e. cbn. destruct (rg_answers g) eqn:Ha; intros [= <- <- <-]; split_and!; try done; set_solver.
Defined.

Definition shop_host : nacos_Instance := {| mi_Ip := "10.0.0.1"; mi_Port := 20880; mi_Metadata := ∅ |}.
Definition before : registry :=
  {| rg_services := [("shop", [shop_host]); ("cart", [])]; rg_subscribed := ∅; rg_answers := true |}.
Definition after : registry :=
  {| rg_services := [("cart", [shop_host])]; rg_subscribed := {["shop"; "cart"]}; rg_answers := true |}.

Definition turned (w : watcher registry) : watcher registry :=
  let _ := default_range in
  match service_turn (H0 := default_range) "prod" "nacos:8848" 3 w with Some (w, _) => w | None => w end.
Definition watched : watcher registry := set_client after (turned (NewNacosServiceListerWatcher before)).

(** What the first listing has left: a service that was gone before the first
    turn, and [shop] as it was then. *)
Definition first_listing : gmap string Resource :=
  {[ "prod/old" := toNacosServiceResource "prod" "old" []; "prod/shop" := toNacosServiceResource "prod" "shop" [] ]}.
Abbreviation stored w := (foldl replay_event first_listing (wt_results w)).


(** A client that notifies a service once more while it is unsubscribed: the
    report comes after the deletion was sent and brings the service back into
    the store, where it stays; nobody watches it any more. *)
Definition late_client : NamingClient registry := {|
  nm_GetAllServicesInfo := nm_GetAllServicesInfo (NamingClient := registry_client);
  nm_GetService := nm_GetService (NamingClient := registry_client);
  nm_Subscribe := nm_Subscribe (NamingClient := registry_client);
  nm_Unsubscribe g s _ :=
    (subscribed_to g (rg_subscribed g ∖ {[s]}),
     if decide (s ∈ rg_subscribed g) then [(s, Ok [shop_host])] else [], None) |}.
Lemma late_laws : NamingClientLaws (H := late_client) registry.
Proof.
  refine (Build_NamingClientLaws _ late_client (λ g, (rg_services g).*1) rg_subscribed (λ g, rg_answers g = true) _ _ _).
  - intros g size n c' ns r Hp. by apply (nm_page (NamingClientLaws := registry_laws)) in Hp.
  - intros g s c' ns e Hs. by apply (nm_subscribe (NamingClientLaws := registry_laws)) in Hs.
  - intros g s gr c' ns e. cbn. destruct (decide (s ∈ rg_subscribed g)) as [Hs|Hs]; intros [= <- <- <-]; split_and!; try done; set_solver.
Qed.
Definition turned_late (w : watcher registry) : watcher registry :=
  match service_turn (H := late_client) (H0 := default_range) "prod" "nacos:8848" 3 w with Some (w, _) => w | None => w end.

Lemma late_report_stays : let w2 := turned_late (turned_late watched) in
  wt_marks w2 !! "shop" = None ∧ is_Some (replay (wt_results w2) !! "prod/shop").
Proof. split; [vm_compute; reflexivity|]. vm_compute. by eexists. Qed.

(** A service that was in the first listing and is gone before the first turn
    is never reported as deleted. *)
Lemma gone_before_first_turn :
  (λ o : watcher registry * result error (list Resource), match o.2 with Ok l => ResourceKey <$> l | Err _ => [] end) <$>
    service_List "prod" "nacos:8848" 3 (NewNacosServiceListerWatcher before) = Some ["prod/shop"; "prod/cart"] ∧
  let g := {| rg_services := [("cart", [shop_host])]; rg_subscribed := ∅; rg_answers := true |} in
  let w2 := turned (turned (NewNacosServiceListerWatcher g)) in
  (λ e, ResourceKey <$> we_Object e) <$> wt_results w2 = [Some "prod/cart"].
Proof. split; vm_compute; reflexivity. Qed.
End NacosWatchExample.
