(* ===== verification/NacosConfigs.v ===== *)
(** pkg/discovery/nacos2/listerwatcher/nacos_config.go: the documents of the
    configuration centre of Nacos, listed by pages and watched by turns. *)
From S2P Require Import Prelude GoStrings Errors Resource Json ZkRegistry Watching.

Open Scope string_scope.
Open Scope list_scope.

(** ** The configuration client

    A document is known by its id and group. As for the naming client, a call
    answers and the callbacks that run until it returns are listed with it. *)
Record ConfigItem := { ci_DataId : string; ci_Group : string; ci_Content : string }.
Record ConfigPage := { cp_TotalCount : Z; cp_PageItems : list ConfigItem }.
Abbreviation document := (string * string)%type.
Abbreviation change := (document * string)%type.

Class ConfigClient (C : Type) := {
  cc_SearchConfig : C → string → string → string → Z → Z → C * list change * result error ConfigPage;
  cc_ListenConfig : C → string → string → C * list change * option error;
  cc_CancelListenConfig : C → string → string → C * list change * option error }.

(** What the documentation says: a page is a part of the documents that match,
    counted in total; documents that are listened to are reported, until the
    call that cancels it has returned. [cc_up]: until the turn is over the client answers and no
    document changes, so that reports have the listed contents. *)
Class ConfigClientLaws (C : Type) `{ConfigClient C} := {
  cc_items : C → string → string → string → list ConfigItem;
  cc_listened : C → gset document;
  cc_up : C → Prop;
  cc_same (U : gset document) (c c' : C) (ns : list change) : Prop :=
    (∀ s e g, cc_items c' s e g = cc_items c s e g) ∧ (cc_up c → cc_up c') ∧
    ∀ d g content, ((d, g), content) ∈ ns → (d, g) ∈ U ∧
      (cc_up c → ∀ s e item, item ∈ cc_items c s e g → ci_DataId item = d → ci_Content item = content);
  cc_items_ok c s e g : NoDup (ci_DataId <$> cc_items c s e g) ∧ ∀ item, item ∈ cc_items c s e g → ci_Group item = g;
  cc_page c s e g n size c' ns r : cc_SearchConfig c s e g n size = (c', ns, r) →
    cc_same (cc_listened c) c c' ns ∧ cc_listened c' = cc_listened c ∧
    (∀ p, r = Ok p → cp_TotalCount p = Z.of_nat (List.length (cc_items c s e g)) ∧ cp_PageItems p = slice size n (cc_items c s e g)) ∧
    (cc_up c → is_ok r = true);
  cc_listen c d g c' ns e : cc_ListenConfig c d g = (c', ns, e) →
    cc_same (cc_listened c') c c' ns ∧
    cc_listened c' = (match e with None => {[(d, g)]} ∪ cc_listened c | Some _ => cc_listened c end) ∧ (cc_up c → e = None);
  cc_cancel c d g c' ns e : cc_CancelListenConfig c d g = (c', ns, e) →
    cc_same (cc_listened c) c c' ns ∧
    cc_listened c' = (match e with None => cc_listened c ∖ {[(d, g)]} | Some _ => cc_listened c end) ∧ (cc_up c → e = None) }.

(** ** The lister-watcher *)

(** The fields that do not change; the others are a [watcher]. *)
Record ConfigListerWatcher := {
  cl_rk : ResourceKind;
  cl_mesh : string;
  cl_nacosAddress : string;
  cl_toResourceFunc : string → string → string → option Resource;
  cl_blurSearch : bool;
  cl_searchExpr : string;
  cl_nacosGroup : string }.

Section configs.
Context {C : Type} `{ConfigClient C, MapRange}.
Context (lw : ConfigListerWatcher).
Abbreviation W := (watcher C).

Definition to_resource (dataId content : string) : option Resource := cl_toResourceFunc lw (cl_mesh lw) dataId content.

(** The callback of a listener: the object is nil when the document cannot be
    converted. *)
Definition config_changed (n : change) : watch_Event :=
  {| we_Type := watch_Modified; we_Object := to_resource n.1.1 n.2 |}.
Definition after_config_call (c : C) (ns : list change) (w : W) : W := emit (config_changed <$> ns) (set_client c w).

Definition searchOp : string := if cl_blurSearch lw then "blur" else "accurate".
Definition config_listPage (pageNum pageSize : Z) (w : W) : W * result error ConfigPage :=
  let '(c, ns, r) := cc_SearchConfig (wt_client w) searchOp (cl_searchExpr lw) (cl_nacosGroup lw) pageNum pageSize in
  (after_config_call c ns w,
   match r with
   | Err e => Err (BizError (Some e) NacosError ("cannot do page list of config, page size " +:+ pretty pageSize +:+
       ", page num " +:+ pretty pageNum +:+ ", nacos address " +:+ cl_nacosAddress lw))
   | Ok configPage => Ok configPage
   end).

Definition config_failed (cause : error) (what configKey : string) : error :=
  BizError (Some cause) NacosError (what +:+ " config " +:+ configKey +:+ " failed in nacos " +:+ cl_nacosAddress lw).

Definition subscribeConfig (configKey group : string) (w : W) : W * option error :=
  let '(c, ns, e) := cc_ListenConfig (wt_client w) configKey group in
  (after_config_call c ns w, (λ e, config_failed e "subscribe" configKey) <$> e).

(** The deletion is sent whether the listener was cancelled or not. *)
Definition unsubscribeConfig (configKey : string) (w : W) : W * option error :=
  let '(c, ns, e) := cc_CancelListenConfig (wt_client w) configKey (cl_nacosGroup lw) in
  (emit [{| we_Type := watch_Deleted; we_Object := to_resource configKey "" |}] (after_config_call c ns w),
   (λ e, config_failed e "unsubscribe" configKey) <$> e).

Definition processConfig (item : ConfigItem) (w : W) : W :=
  match to_resource (ci_DataId item) (ci_Content item) with
  | None => w
  | Some res =>
      let w := emit [modified res] w in
      match wt_marks w !! ci_DataId item with
      | Some _ => set_marks (<[ci_DataId item := true]> (wt_marks w)) w
      | None =>
          match subscribeConfig (ci_DataId item) (ci_Group item) w with
          | (w, Some _) => w
          | (w, None) => set_marks (<[ci_DataId item := true]> (wt_marks w)) w
          end
      end
  end.

(** A page, and whether the pages so far have all documents. *)
Definition config_page {A} (pageSize pageNum : Z) (p : W * A) : (W * A) * result error (list ConfigItem * bool) :=
  let '(w, acc) := p in
  let '(w, r) := config_listPage pageNum pageSize w in
  ((w, acc), (λ configPage, (cp_PageItems configPage, (cp_TotalCount configPage <=? i64 (pageNum * pageSize))%Z)) <$> r).

Definition fetchAllConfigs (fuel : nat) (w : W) : option (W * result error (list Resource)) :=
  (λ o : (W * list Resource) * option error,
     (o.1.1, match o.2 with Some e => Err e | None => Ok o.1.2 end)) <$>
  pages (config_page 100) (λ n, i64 (n + 1))
    (λ item p, match to_resource (ci_DataId item) (ci_Content item) with None => p | Some r => (p.1, p.2 ++ [r]) end)
    fuel 1 (w, []).

Definition fetchAndProcessConfigs (fuel : nat) (w : W) : option (W * option error) :=
  (λ o : (W * unit) * option error,
     match o.2 with
     | Some e => (o.1.1, Some e)
     | None => (sweep unsubscribeConfig o.1.1, None)
     end) <$>
  pages (config_page 50) (λ n, i64 (n + 1)) (λ item p, (processConfig item p.1, p.2)) fuel 1 (w, ()).

Definition config_List (fuel : nat) (w : W) : option (W * result error (list Resource)) := fetchAllConfigs fuel w.

(** The job [Watch] schedules: when the watching has ended it stops the
    scheduler, and goes on with its last turn. *)
Definition config_turn (fuel : nat) (w : W) : option (W * bool) :=
  (λ o : W * option error, (o.1, negb (wt_stopWatch w))) <$> fetchAndProcessConfigs fuel w.

Definition config_Stop (w : W) : W :=
  {| wt_client := wt_client w; wt_marks := wt_marks w; wt_results := wt_results w; wt_stopWatch := true |}.
End configs.

(** The watchers of documents in factory.go, but for the one of mappings, a
    kind nothing else inspects. Those of rules convert every document. *)
Section factory.
Context (mesh address : string).
Context (yaml_TagRoute : string → TagRoute) (yaml_ConditionRoute : string → ConditionRoute)
  (yaml_DynamicConfig : string → DynamicConfig).

Definition NewConfigListerWatcher (rk : ResourceKind) (toResourceFunc : string → string → string → option Resource)
    (blurSearch : bool) (searchExpr nacosGroup : string) : ConfigListerWatcher :=
  {| cl_rk := rk; cl_mesh := mesh; cl_nacosAddress := address; cl_toResourceFunc := toResourceFunc;
     cl_blurSearch := blurSearch; cl_searchExpr := searchExpr; cl_nacosGroup := nacosGroup |}.

Definition NacosConfigGroup : string := "dubbo".
Definition config_listerWatchers : list ConfigListerWatcher :=
  [NewConfigListerWatcher DynamicConfigKind (λ m d c, Some (ToDynamicConfigResource yaml_DynamicConfig m d c))
     true "*.configurators" NacosConfigGroup;
   NewConfigListerWatcher ConditionRouteKind (λ m d c, Some (ToConditionRouteResource yaml_ConditionRoute m d c))
     true "*.condition-router" NacosConfigGroup;
   NewConfigListerWatcher TagRouteKind (λ m d c, Some (ToTagRouteResource yaml_TagRoute m d c))
     true "*.tag-router" NacosConfigGroup;
   NewConfigListerWatcher ServiceProviderMetadataKind ToServiceProviderMetadataResource
     true "*:provider:*" NacosConfigGroup].
End factory.

(** ** A turn the client answers *)
Section config_laws.
Context {C : Type} `{ConfigClientLaws C, MapRange}.
Context (lw : ConfigListerWatcher).
Abbreviation W := (watcher C).
Abbreviation key d := (BuildResourceKey (cl_mesh lw) d).
Abbreviation group := (cl_nacosGroup lw).
Abbreviation listed c := (cc_items c (searchOp lw) (cl_searchExpr lw) group).

(** Every document becomes the resource of its own id. *)
Context (to_res : string → string → Resource).
Context (to_resource_total : ∀ d content, to_resource lw d content = Some (to_res d content)).
Context (to_resource_key : ∀ d content, ResourceKey (to_res d content) = key d).

Lemma doc_key_inj d d' : key d = key d' → d = d'.
Proof. unfold BuildResourceKey. intros [=]%(inj (String.append (cl_mesh lw))). done. Qed.

Lemma lookup_changed m n ns d : foldl replay_event m (config_changed lw <$> n :: ns) !! key d =
  foldl replay_event (<[key n.1.1 := to_res n.1.1 n.2]> m) (config_changed lw <$> ns) !! key d.
Proof using to_resource_total to_resource_key.
  csimpl. unfold replay_event at 2. cbn [config_changed we_Object we_Type]. by rewrite to_resource_total, to_resource_key.
Qed.

(** Reports of other documents, or with the content the store has. *)
Lemma changed_keeps m ns d (o : option Resource) : m !! key d = o →
  (∀ d' g content, ((d', g), content) ∈ ns → d' = d → o = Some (to_res d content)) →
  foldl replay_event m (config_changed lw <$> ns) !! key d = o.
Proof using to_resource_total to_resource_key.
  revert m. induction ns as [|[[d' g] content] ns IH]; intros m Hm Hns; [done|].
  rewrite lookup_changed. apply IH; [|intros d2 g2 c2 Hin; apply (Hns d2 g2); by right]. cbn.
  destruct (decide (d' = d)) as [->|Hne].
  - rewrite lookup_insert_eq. symmetry. apply (Hns d g); [left|done].
  - rewrite lookup_insert_ne; [done|]. by intros ?%doc_key_inj.
Qed.

(** What holds in the course of the turn, when the documents [done] have been
    processed and the listeners of [gones] cancelled. *)
Record config_turning (w0 : W) (done : list ConfigItem) (gones : list string) (w : W) : Prop := {
  ct_up : cc_up (wt_client w);
  ct_items : ∀ s e g, cc_items (wt_client w) s e g = cc_items (wt_client w0) s e g;
  ct_stop : wt_stopWatch w = wt_stopWatch w0;
  ct_done : ∀ item, item ∈ done → ci_DataId item ∉ gones →
    replay (wt_results w) !! key (ci_DataId item) = Some (to_res (ci_DataId item) (ci_Content item));
  ct_gones : ∀ d, d ∈ gones → (d, group) ∉ cc_listened (wt_client w) ∧ replay (wt_results w) !! key d = None }.

(** The watcher listens to documents of its group only. *)
Definition own_group (c : C) : Prop := ∀ d g, (d, g) ∈ cc_listened c → g = group.

Lemma turning_config_call U w0 done gones w c ns : config_turning w0 done gones w → cc_same U (wt_client w) c ns →
  (∀ item, item ∈ done → item ∈ listed (wt_client w0)) → (∀ d g, (d, g) ∈ U → g = group) →
  (∀ d, d ∈ gones → (d, group) ∉ U ∧ (d, group) ∉ cc_listened c) → config_turning w0 done gones (after_config_call lw c ns w).
Proof using to_resource_total to_resource_key.
  intros [Hup Hit Hst Hd Hg] Hsame Hdone Hown Hl. destruct (Hsame) as (Hitems & Hu & Hns).
  split; cbn; [by apply Hu|intros; by rewrite Hitems|done|..].
  - intros item Hin Hng. rewrite replay_app. apply changed_keeps; [by apply Hd|].
    intros d' g content Hc ->. destruct (Hns _ _ _ Hc) as [Hin' Hcur]. pose proof (Hown _ _ Hin') as ->.
    rewrite (Hcur Hup (searchOp lw) (cl_searchExpr lw) item); [done| |done]. rewrite Hit. by apply Hdone.
  - intros d Hin. split; [by apply Hl|]. rewrite replay_app. apply changed_keeps; [by apply Hg|].
    intros d' g content Hc ->. destruct (Hns _ _ _ Hc) as [Hlis _]. pose proof (Hown _ _ Hlis) as ->. by apply (proj1 (Hl d Hin)) in Hlis.
Qed.

Lemma turning_config_page w0 done n w : config_turning w0 done [] w → own_group (wt_client w) →
  (∀ item, item ∈ done → item ∈ listed (wt_client w0)) →
  let l := listed (wt_client w0) in
  ∃ w', config_page lw 50 n (w, ()) = ((w', ()), Ok (slice 50 n l, (Z.of_nat (List.length l) <=? i64 (n * 50))%Z)) ∧
    config_turning w0 done [] w' ∧ own_group (wt_client w') ∧ wt_marks w' = wt_marks w.
Proof using to_resource_total to_resource_key.
  intros Ht Hown Hdone l. unfold config_page, config_listPage. destruct (cc_SearchConfig _ _ _ _ _ _) as [[c ns] r] eqn:E.
  destruct (cc_page _ _ _ _ _ _ _ _ _ E) as (Hsame & Hl & Hp & Hup). specialize (Hup (ct_up _ _ _ _ Ht)).
  destruct r as [p|]; [|done]. destruct (Hp p eq_refl) as [Htot Hpage]. rewrite (ct_items _ _ _ _ Ht) in *.
  assert (Hown' : own_group c) by (intros d g; rewrite Hl; apply Hown).
  eexists. split; [cbn; by rewrite Htot, Hpage|]. split_and!; [|done|done]. eapply turning_config_call; [done|exact Hsame|done|exact Hown|set_solver].
Qed.

Lemma turning_emit_listed w0 done w item : config_turning w0 done [] w → item ∈ listed (wt_client w0) → item ∉ done →
  (∀ i, i ∈ done → i ∈ listed (wt_client w0)) →
  config_turning w0 (done ++ [item]) [] (emit [modified (to_res (ci_DataId item) (ci_Content item))] w).
Proof using to_resource_total to_resource_key.
  intros [Hup Hit Hst Hd Hg] Hin Hnin Hdone. split; cbn; [done..| |set_solver].
  intros i Hi _. rewrite replay_app. cbn. rewrite to_resource_key. apply elem_of_app in Hi as [Hi| ->%list_elem_of_singleton].
  - rewrite lookup_insert_ne; [apply Hd; set_solver|]. intros Heq%doc_key_inj. apply Hnin.
    destruct (cc_items_ok (wt_client w0) (searchOp lw) (cl_searchExpr lw) group) as [Hnd _].
    apply Hdone in Hi as Hi'. apply list_elem_of_lookup in Hi' as (k1 & Hk1). apply list_elem_of_lookup in Hin as (k2 & Hk2).
    assert (k1 = k2) as ->.
    { eapply NoDup_lookup; [exact Hnd|..]; rewrite list_lookup_fmap; [by rewrite Hk1|by rewrite Hk2; cbn; rewrite Heq]. }
    congruence.
  - apply lookup_insert_eq.
Qed.

Lemma turning_marks w0 done gones w m : config_turning w0 done gones w → config_turning w0 done gones (set_marks m w).
Proof. by intros []. Qed.

Lemma turning_processConfig w0 done w item : config_turning w0 done [] w → own_group (wt_client w) →
  item ∈ listed (wt_client w0) → item ∉ done → (∀ i, i ∈ done → i ∈ listed (wt_client w0)) →
  config_turning w0 (done ++ [item]) [] (processConfig lw item w) ∧ own_group (wt_client (processConfig lw item w)) ∧
  wt_marks (processConfig lw item w) = <[ci_DataId item := true]> (wt_marks w).
Proof using to_resource_total to_resource_key.
  intros Ht Hown Hin Hnin Hdone. pose proof (turning_emit_listed _ _ _ _ Ht Hin Hnin Hdone) as Ht1.
  unfold processConfig. rewrite to_resource_total. cbn [emit wt_marks]. destruct (wt_marks w !! _) as [b|].
  { split_and!; [by apply turning_marks|done|done]. }
  unfold subscribeConfig. destruct (cc_ListenConfig _ _ _) as [[c ns] e] eqn:E. cbn in E.
  destruct (cc_listen _ _ _ _ _ _ E) as (Hsame & Hl & He). rewrite (He (ct_up _ _ _ _ Ht)) in *. cbn.
  assert (Hown' : own_group c).
  { intros d g. rewrite Hl. intros [[= _ ->]%elem_of_singleton|Hc]%elem_of_union; [|by eapply Hown].
    by eapply (proj2 (cc_items_ok _ _ _ _)). }
  split_and!; [|done|done]. apply turning_marks. eapply turning_config_call; [done|exact Hsame| |exact Hown'|set_solver].
  intros i [Hi| ->%list_elem_of_singleton]%elem_of_app; [by apply Hdone|done].
Qed.

Lemma turning_unsubscribeConfig w0 done gones d w : config_turning w0 done gones w → own_group (wt_client w) →
  (∀ i, i ∈ done → i ∈ listed (wt_client w0)) →
  ∃ w', unsubscribeConfig lw d w = (w', None) ∧ wt_marks w' = wt_marks w ∧ own_group (wt_client w') ∧
    config_turning w0 done (gones ++ [d]) w'.
Proof using to_resource_total to_resource_key.
  intros Ht Hown Hdone. unfold unsubscribeConfig. destruct (cc_CancelListenConfig _ _ _) as [[c ns] e] eqn:E.
  destruct (cc_cancel _ _ _ _ _ _ E) as (Hsame & Hl & He). rewrite (He (ct_up _ _ _ _ Ht)) in *.
  assert (Hown' : own_group c) by (intros d' g; rewrite Hl; intros [? _]%elem_of_difference; by eapply Hown).
  assert (Hlg : ∀ x, x ∈ gones ++ [d] → (x, group) ∉ cc_listened c).
  { intros x [Hx| ->%list_elem_of_singleton]%elem_of_app; rewrite Hl; [|set_solver].
    destruct (ct_gones _ _ _ _ Ht x Hx) as [Hx' _]. set_solver. }
  eexists. split; [done|]. split; [done|]. split; [done|].
  destruct (turning_config_call _ w0 done gones w c ns Ht Hsame Hdone Hown) as [Hup Hit Hst Hd Hg].
  { intros x Hx. split; [by apply (ct_gones _ _ _ _ Ht)|]. apply Hlg. set_solver. }
  split; [done..| |]; cbn [emit wt_results wt_client].
  - intros i Hi Hng. rewrite replay_app. cbn. rewrite to_resource_total. cbn. rewrite to_resource_key, lookup_delete_ne; [apply Hd; set_solver|].
    intros Heq%doc_key_inj. set_solver.
  - intros x Hx. split; [by apply Hlg|]. rewrite replay_app. cbn. rewrite to_resource_total. cbn. rewrite to_resource_key.
    destruct (decide (d = x)) as [<-|Hne]; [by rewrite lookup_delete_eq|]. rewrite lookup_delete_ne by by intros ?%doc_key_inj.
    apply Hg. set_solver.
Qed.

Lemma config_pages_up fuel w : own_group (wt_client w) → cc_up (wt_client w) →
  let l := listed (wt_client w) in (Z.of_nat (List.length l) < 50 * Z.of_nat fuel)%Z → (Z.of_nat (List.length l) < 4611686018427387904)%Z →
  ∃ w', pages (config_page lw 50) (λ n, i64 (n + 1)) (λ item p, (processConfig lw item p.1, p.2)) fuel 1 (w, ()) = Some ((w', ()), None) ∧
    config_turning w l [] w' ∧ own_group (wt_client w') ∧ wt_marks w' = marked (ci_DataId <$> l) (wt_marks w).
Proof using to_resource_total to_resource_key.
  intros Hown Hup l Hf Hl. destruct (cc_items_ok (wt_client w) (searchOp lw) (cl_searchExpr lw) group) as [Hnd%NoDup_fmap_1 _].
  destruct (pages_good (config_page lw 50) (λ n, i64 (n + 1)) (λ item (p : W * unit), (processConfig lw item p.1, p.2)) 50 l
    (λ done (p : W * unit), (∀ i, i ∈ done → i ∈ l) ∧ config_turning w done [] p.1 ∧ own_group (wt_client p.1) ∧
       wt_marks p.1 = marked (ci_DataId <$> done) (wt_marks w)) eq_refl)
    with (fuel := fuel) (n := 1%Z) (w := (w, ())) as ([w' []] & Hp & _ & Hg); [| |lia|cbn; lia|lia| |by exists w'].
  - intros done n [w1 []] (Hd & Ht & Ho & Hm) Hn Hle. cbn in Hd, Ht, Ho, Hm.
    destruct (turning_config_page w done n w1 Ht Ho Hd) as (w2 & -> & Ht2 & Ho2 & Hm2). fold l.
    eexists _, _. split; [reflexivity|]. cbn. rewrite Hm2.
    assert (Hi : i64 (n * 50) = (n * 50)%Z) by (apply i64_id; unfold in_i64, i64_min, i64_max; lia). rewrite Hi.
    split; [by split_and!|]. split; [intros ?%Z.leb_le; lia|]. intros ?%Z.leb_gt. split; [lia|].
    apply i64_id. unfold in_i64, i64_min, i64_max. lia.
  - intros done x rest [w1 []] Hl1 (Hd & Ht & Ho & Hm). cbn in *.
    assert (Hx : x ∈ l) by (rewrite Hl1; set_solver).
    assert (Hnx : x ∉ done). { unfold l in Hl1. rewrite Hl1 in Hnd. apply NoDup_app in Hnd as (_ & Hdis & _). intros Hin. apply (Hdis x Hin). left. }
    destruct (turning_processConfig w done w1 x Ht Ho Hx Hnx Hd) as (Ht' & Ho' & Hm').
    split_and!; [set_solver|done|done|]. rewrite Hm', Hm, fmap_app. unfold marked. by rewrite foldl_app.
  - cbn. split_and!; [set_solver| |done|done]. split; [done..|set_solver|set_solver].
Qed.

(** C15: the rules of an informer are the documents of Nacos, after a turn
    during which the client answers and no document changes, from a watcher that
    listens to documents of its own group only. The turn ends. Every document
    listed then is in the store, with its content, as the resource of its id,
    and is watched, with its mark cleared. A document that was watched with its
    mark cleared, as a successful turn leaves it, and is not listed is out of
    the store, not watched, and not listened to any more; one whose mark was
    still set, because a turn marked it and then failed, loses its mark and
    stays for the next turn. Documents that are not watched, because listening
    to them failed, are not covered ([unlistened_document_stays]). *)
Theorem nacos_documents_mirrored fuel w :
  own_group (wt_client w) → cc_up (wt_client w) →
  let l := listed (wt_client w) in
  (Z.of_nat (List.length l) < 50 * Z.of_nat fuel)%Z → (Z.of_nat (List.length l) < 4611686018427387904)%Z →
  ∃ w', config_turn lw fuel w = Some (w', negb (wt_stopWatch w)) ∧
    (∀ item, item ∈ l → wt_marks w' !! ci_DataId item = Some false ∧
       replay (wt_results w') !! key (ci_DataId item) = Some (to_res (ci_DataId item) (ci_Content item))) ∧
    (∀ d, d ∉ ci_DataId <$> l → wt_marks w !! d = Some false →
       wt_marks w' !! d = None ∧ replay (wt_results w') !! key d = None ∧ (d, group) ∉ cc_listened (wt_client w')) ∧
    (∀ d, d ∉ ci_DataId <$> l → wt_marks w !! d = Some true → wt_marks w' !! d = Some false).
Proof using to_resource_total to_resource_key.
  intros Hown Hup l Hf Hl. destruct (config_pages_up fuel w Hown Hup Hf Hl) as (w1 & Hp & Ht & Ho & Hm). fold l in Ht, Hm.
  unfold config_turn, fetchAndProcessConfigs. rewrite Hp. cbn. eexists. split; [done|].
  destruct (sweep_good (unsubscribeConfig lw) (λ gones w2, config_turning w l gones w2 ∧ own_group (wt_client w2))) with (w := w1)
    as [[Hg _] Hk]; [| |done|].
  - intros gones d w2 [Ht2 Ho2]. destruct (turning_unsubscribeConfig w l gones d w2 Ht2 Ho2) as (w3 & ? & ? & ? & ?); [done|]. by exists w3.
  - intros gones w2 m [Ht2 Ho2]. split; [by apply turning_marks|done].
  - rewrite Hk, Hm in *. split_and!.
    + intros item Hin. rewrite lookup_kept, lookup_marked, (decide_True (P := _ ∈ _)) by by apply list_elem_of_fmap_2.
      split; [done|]. apply (ct_done _ _ _ _ Hg); [done|].
      rewrite elem_of_swept, lookup_marked, decide_True by by apply list_elem_of_fmap_2. done.
    + intros d Hd Hmd. rewrite lookup_kept, lookup_marked, (decide_False (P := _ ∈ _)), Hmd by done. split; [done|].
      destruct (ct_gones _ _ _ _ Hg d) as [? ?]; [|done]. by rewrite elem_of_swept, lookup_marked, decide_False.
    + intros d Hd Hmd. by rewrite lookup_kept, lookup_marked, (decide_False (P := _ ∈ _)), Hmd.
Qed.
End config_laws.

(** The three watchers of rules satisfy what the theorem asks of a conversion. *)
Lemma rule_watcher_total (make : string → string → string → Resource) lw :
  cl_toResourceFunc lw = (λ m d c, Some (make m d c)) → (∀ m d c, ResourceKey (make m d c) = BuildResourceKey m d) →
  (∀ d content, to_resource lw d content = Some (make (cl_mesh lw) d content)) ∧
  (∀ d content, ResourceKey (make (cl_mesh lw) d content) = BuildResourceKey (cl_mesh lw) d).
Proof. intros Hf Hk. split; [|done]. intros d c. unfold to_resource. by rewrite Hf. Qed.

(** ** A configuration centre *)
Module NacosConfigsExample.
Record centre := { cn_documents : gmap document string; cn_listened : gset document; cn_answers : bool }.
Definition listening (c : centre) (U : gset document) : centre :=
  {| cn_documents := cn_documents c; cn_listened := U; cn_answers := cn_answers c |}.

(** A blurred search is for a suffix. *)
Definition matching (c : centre) (search pattern group : string) : list ConfigItem :=
  (λ p : document * string, {| ci_DataId := p.1.1; ci_Group := p.1.2; ci_Content := p.2 |}) <$>
  filter (λ p : document * string, p.1.2 = group ∧
            (if String.eqb search "blur" then has_suffix p.1.1 (str_drop 1 pattern) else String.eqb p.1.1 pattern) = true)
    (map_to_list (cn_documents c)).

Definition no_answer : error := ErrorText "no answer".
#[export] Instance centre_client : ConfigClient centre := {
  cc_SearchConfig c s e g n size :=
    (c, [], if cn_answers c then Ok {| cp_TotalCount := Z.of_nat (List.length (matching c s e g)); cp_PageItems := slice size n (matching c s e g) |}
            else Err no_answer);
  cc_ListenConfig c d g :=
    if cn_answers c then (listening c ({[(d, g)]} ∪ cn_listened c), [], None) else (c, [], Some no_answer);
  cc_CancelListenConfig c d g :=
    if cn_answers c then (listening c (cn_listened c ∖ {[(d, g)]}), [], None) else (c, [], Some no_answer) }.

Lemma matching_ok c s e g :
  NoDup (ci_DataId <$> matching c s e g) ∧ ∀ item, item ∈ matching c s e g → ci_Group item = g.
Proof.
  unfold matching. split.
  - rewrite <-list_fmap_compose. apply NoDup_fmap_2_strong; [|apply NoDup_filter, NoDup_map_to_list].
    intros [[d1 g1] c1] [[d2 g2] c2] [[Hg1 _] H1%elem_of_map_to_list]%list_elem_of_filter [[Hg2 _] H2%elem_of_map_to_list]%list_elem_of_filter.
    cbn in *. intros ->. subst. congruence.
  - intros item ([[d g'] content] & -> & [[Hg _] _]%list_elem_of_filter)%list_elem_of_fmap. done.
Qed.

#[export] Instance centre_laws : ConfigClientLaws centre.
Proof.
  refine {| cc_items := matching; cc_listened := cn_listened; cc_up c := cn_answers c = true; cc_items_ok := matching_ok |}.
  - intros c s e g n size c' ns r [= <- <- <-]. split_and!; [done|done|set_solver|done| |].
    + destruct (cn_answers c); [by intros p [= <-]|done].
    + by intros ->.
  - intros c d g c' ns e. cbn. destruct (cn_answers c) eqn:Ha; intros [= <- <- <-]; split_and!; try done; set_solver.
  - intros c d g c' ns e. cbn. destruct (cn_answers c) eqn:Ha; intros [= <- <- <-]; split_and!; try done; set_solver.
Defined.

Definition tags (data : string) : TagRoute :=
  {| tr_Priority := 0; tr_Enabled := true; tr_Force := false; tr_Runtime := false; tr_Key := data;
     tr_ConfigVersion := "v3.0"; tr_Tags := [] |}.
Definition tag_route (m d c : string) : Resource := ToTagRouteResource tags m d c.
Definition tag_watcher : ConfigListerWatcher :=
  NewConfigListerWatcher "prod" "nacos:8848" TagRouteKind (λ m d c, Some (tag_route m d c)) true "*.tag-router" NacosConfigGroup.

(** shop.tag-router is listed by the first turn and gone in the second, which
    finds cart.tag-router. *)
Definition centre_of (docs : gmap document string) (U : gset document) : centre :=
  {| cn_documents := docs; cn_listened := U; cn_answers := true |}.
Definition config_turned (w : watcher centre) : watcher centre :=
  match config_turn (H0 := default_range) tag_watcher 3 w with Some (w, _) => w | None => w end.
Definition first_turn : watcher centre :=
  config_turned (Build_watcher (centre_of {[("shop.tag-router", "dubbo") := "old"]} ∅) ∅ [] false).
Definition second_client : centre :=
  centre_of {[("cart.tag-router", "dubbo") := "new"; ("cart.tag-router", "mapping") := "other"]} {[("shop.tag-router", "dubbo")]}.

Lemma nacos_documents_mirrored_witness :
  replay (wt_results first_turn) !! "prod/shop.tag-router" = Some (tag_route "prod" "shop.tag-router" "old") ∧
  let w2 := config_turned (set_client second_client first_turn) in
  replay (wt_results w2) !! "prod/cart.tag-router" = Some (tag_route "prod" "cart.tag-router" "new") ∧
  replay (wt_results w2) !! "prod/shop.tag-router" = None ∧ wt_marks w2 !! "shop.tag-router" = None.
Proof.
  split; [vm_compute; reflexivity|].
  destruct (rule_watcher_total tag_route tag_watcher) as [Htot Hkey]; [reflexivity|reflexivity|].
  destruct (nacos_documents_mirrored (H1 := default_range) tag_watcher (tag_route "prod") Htot Hkey 3 (set_client second_client first_turn))
    as (w2 & Ht & Hl & Hg & _).
  - intros d g Hin. cbn in Hin. by apply elem_of_singleton in Hin as [= -> ->].
  - reflexivity.
  - vm_compute. reflexivity.
  - vm_compute. reflexivity.
  - cbn zeta. assert (Hw2 : config_turned (set_client second_client first_turn) = w2) by (unfold config_turned; by rewrite Ht). rewrite Hw2.
    destruct (Hl {| ci_DataId := "cart.tag-router"; ci_Group := "dubbo"; ci_Content := "new" |}) as [_ Hcart]; [vm_compute; left|].
    destruct (Hg "shop.tag-router") as (Hm & Hr & _); [vm_compute; intros Hin; by apply list_elem_of_singleton in Hin|vm_compute; reflexivity|].
    split_and!; [exact Hcart|exact Hr|exact Hm].
Defined.

(** A document is sent before it is listened to: when that fails it is not
    watched, and its removal is never reported. *)
Definition deaf_client : ConfigClient centre := {|
  cc_SearchConfig := cc_SearchConfig (ConfigClient := centre_client);
  cc_ListenConfig c d g := (c, [], Some no_answer);
  cc_CancelListenConfig := cc_CancelListenConfig (ConfigClient := centre_client) |}.
Definition deaf_turned (w : watcher centre) : watcher centre :=
  match config_turn (H := deaf_client) (H0 := default_range) tag_watcher 3 w with Some (w, _) => w | None => w end.

Lemma unlistened_document_stays :
  let w1 := deaf_turned (Build_watcher (centre_of {[("shop.tag-router", "dubbo") := "old"]} ∅) ∅ [] false) in
  let w3 := deaf_turned (deaf_turned (set_client (centre_of ∅ ∅) w1)) in
  wt_marks w3 = ∅ ∧ is_Some (replay (wt_results w3) !! "prod/shop.tag-router").
Proof. split; [vm_compute; reflexivity|]. vm_compute. by eexists. Qed.

(** The deletion of metadata of a provider is sent without an object, since
    the empty document is no JSON, and leaves the store as it was. *)
Definition metadata_watcher : ConfigListerWatcher :=
  NewConfigListerWatcher "prod" "nacos:8848" ServiceProviderMetadataKind ToServiceProviderMetadataResource true "*:provider:*" NacosConfigGroup.

Lemma metadata_deletion_lost (w : watcher centre) d :
  ∃ w', (unsubscribeConfig metadata_watcher d w).1 = emit [{| we_Type := watch_Deleted; we_Object := None |}] w' ∧
    replay (wt_results (unsubscribeConfig metadata_watcher d w).1) = replay (wt_results w').
Proof.
  unfold unsubscribeConfig. destruct (cc_CancelListenConfig _ _ _) as [[c ns] e].
  exists (after_config_call metadata_watcher c ns w). split; [reflexivity|]. cbn [fst emit wt_results]. by rewrite replay_app.
Qed.

(** A turn after [Stop] still asks the client and sends what it answers. *)
Lemma turn_after_stop :
  (λ o : watcher centre * bool, (List.length (wt_results o.1), o.2)) <$>
    config_turn (H0 := default_range) tag_watcher 3
      (config_Stop (Build_watcher (centre_of {[("shop.tag-router", "dubbo") := "old"]} ∅) ∅ [] false)) = Some (1, false).
Proof. vm_compute. reflexivity. Qed.
End NacosConfigsExample.
