(* ===== verification/ZkWatcher.v ===== *)
(** pkg/discovery/zk/zkwatcher/watcher.go: the recursive watcher, whose
    goroutines read and watch the nodes under a path while others change them. *)
From S2P Require Import Prelude GoStrings.

Open Scope string_scope.
Open Scope list_scope.

(** ** The tree

    A node is known by the names that lead to it from the path that is
    watched, which is [[]]. *)
Abbreviation path := (list string).
Abbreviation tree := (gmap path string).

Definition child_of (p q : path) : option string :=
  c ← last q; if decide (q = p ++ [c]) then Some c else None.
Definition children (t : tree) (p : path) : list string := omap (child_of p) (map_to_list t).*1.

(** The node itself and those below it. *)
Definition under (t : tree) (p : path) : list path := filter (λ q, p `prefix_of` q) (map_to_list t).*1.

(** Every node but the root has its parent. *)
Definition closed (t : tree) : Prop := [] ∈ dom t ∧ ∀ p c, p ++ [c] ∈ dom t → p ∈ dom t.

(** ** Events *)
Inductive zk_event := EventNodeDataChanged | EventNodeDeleted | EventNodeChildrenChanged | EventOther.

Inductive EventType := NodeCreated | NodeDeleted | NodeChanged.
Record ZookeeperEvent := { ze_Type : EventType; ze_Path : path; ze_Data : string; ze_LeafNode : bool }.

(** ** Goroutines

    Where a goroutine stands. A watch that was set fires once: the event is
    then in its channel. *)
Inductive goroutine :=
| Walking (todo : list path)                                              (* watchPathRecursively: paths to come *)
| Listing (p : path) (todo : list path)                                   (* before conn.Children *)
| GettingData (p : path)                                                  (* watchDataChanges: before conn.GetW *)
| Sending (p : path) (data : string) (leaf : bool) (fired : option zk_event)
| WatchingData (p : path) (leaf : bool) (fired : option zk_event)
| SendingDeleted (p : path) (leaf : bool)
| GettingChildren (p : path)                                              (* watchChildrenChanges: before conn.ChildrenW *)
| WatchingChildren (p : path) (names : list string) (fired : option zk_event)
| Comparing (p : path) (names : list string).                             (* before conn.Children *)

Inductive advanced := Blocked | Moves (gs : list goroutine) (sent : list ZookeeperEvent) | Panics.

(** [watchPathRecursively path]: a goroutine for its data, its children, a
    goroutine for its children list, then the children in order. The error of a
    path below the first one is logged. *)
Definition watch_next (todo : list path) : advanced :=
  match todo with
  | [] => Moves [] []
  | p :: todo => Moves [GettingData p; Listing p todo] []
  end.
Definition list_children (t : tree) (p : path) (todo : list path) : advanced :=
  match t !! p with
  | None => Moves [Walking todo] []
  | Some _ => Moves [GettingChildren p; Walking (((λ c, p ++ [c]) <$> children t p) ++ todo)] []
  end.

(** The rounds of [watchDataChanges]; a failing call is tried again a second
    later. Sending on the closed channel panics. *)
Definition get_data (t : tree) (stopped : bool) (p : path) : advanced :=
  if stopped then Moves [] []
  else match t !! p with
       | None => Moves [GettingData p] []
       | Some data => Moves [Sending p data (bool_decide (children t p = [])) None] []
       end.
Definition send_created (stopped : bool) (p : path) (data : string) (leaf : bool) (fired : option zk_event) : advanced :=
  if stopped then Panics
  else Moves [WatchingData p leaf fired]
         [{| ze_Type := NodeCreated; ze_Path := p; ze_Data := data; ze_LeafNode := leaf |}].
Definition data_event (stopped : bool) (p : path) (leaf : bool) (fired : option zk_event) : advanced :=
  match fired with
  | Some EventNodeDeleted => Moves [SendingDeleted p leaf] []
  | Some _ => Moves [GettingData p] []
  | None => if stopped then Moves [] [] else Blocked
  end.
Definition send_deleted (stopped : bool) (p : path) (leaf : bool) : advanced :=
  if stopped then Panics
  else Moves [] [{| ze_Type := NodeDeleted; ze_Path := p; ze_Data := ""; ze_LeafNode := leaf |}].

(** The rounds of [watchChildrenChanges]. *)
Definition get_children (t : tree) (stopped : bool) (p : path) : advanced :=
  if stopped then Moves [] []
  else match t !! p with
       | None => Moves [GettingChildren p] []
       | Some _ => Moves [WatchingChildren p (children t p) None] []
       end.
Definition children_event (stopped : bool) (p : path) (names : list string) (fired : option zk_event) : advanced :=
  match fired with
  | Some EventNodeChildrenChanged => Moves [Comparing p names] []
  | Some EventNodeDeleted => Moves [] []
  | Some _ => Moves [GettingChildren p] []
  | None => if stopped then Moves [] [] else Blocked
  end.
Definition added (t : tree) (p : path) (names : list string) : list path :=
  (λ c, p ++ [c]) <$> filter (λ c, c ∉ names) (children t p).
Definition compare_children (t : tree) (p : path) (names : list string) : advanced :=
  match t !! p with
  | None => Moves [GettingChildren p] []
  | Some _ => Moves (GettingChildren p :: ((λ q, Walking [q]) <$> added t p names)) []
  end.

Definition advance (t : tree) (stopped : bool) (g : goroutine) : advanced :=
  match g with
  | Walking todo => watch_next todo
  | Listing p todo => list_children t p todo
  | GettingData p => get_data t stopped p
  | Sending p data leaf fired => send_created stopped p data leaf fired
  | WatchingData p leaf fired => data_event stopped p leaf fired
  | SendingDeleted p leaf => send_deleted stopped p leaf
  | GettingChildren p => get_children t stopped p
  | WatchingChildren p names fired => children_event stopped p names fired
  | Comparing p names => compare_children t p names
  end.

(** ** The watcher in the registry *)
Record RecursiveWatcher := {
  rw_tree : tree;
  rw_goroutines : list goroutine;
  rw_eventChan : list ZookeeperEvent;
  rw_stopped : bool }.

Definition StartAsync (t : tree) : RecursiveWatcher :=
  {| rw_tree := t; rw_goroutines := [Walking [[]]]; rw_eventChan := []; rw_stopped := false |}.
Definition watcher_Stop (w : RecursiveWatcher) : RecursiveWatcher :=
  {| rw_tree := rw_tree w; rw_goroutines := rw_goroutines w; rw_eventChan := rw_eventChan w; rw_stopped := true |}.

(** One goroutine takes its next step. *)
Inductive step (w : RecursiveWatcher) : RecursiveWatcher → Prop :=
| step_advance l1 g l2 gs sent : rw_goroutines w = l1 ++ g :: l2 → advance (rw_tree w) (rw_stopped w) g = Moves gs sent →
    step w {| rw_tree := rw_tree w; rw_goroutines := l1 ++ gs ++ l2; rw_eventChan := rw_eventChan w ++ sent;
              rw_stopped := rw_stopped w |}.

(** The registry fires the watches of a node. *)
Definition fire_data (p : path) (e : zk_event) (g : goroutine) : goroutine :=
  match g with
  | Sending q data leaf None => if decide (q = p) then Sending q data leaf (Some e) else g
  | WatchingData q leaf None => if decide (q = p) then WatchingData q leaf (Some e) else g
  | _ => g
  end.
Definition fire_children (p : path) (e : zk_event) (g : goroutine) : goroutine :=
  match g with
  | WatchingChildren q names None => if decide (q = p) then WatchingChildren q names (Some e) else g
  | _ => g
  end.

(** A client sets the data of a node, creates a child, or removes a node that
    has no children. *)
Definition on_tree (t : tree) (fire : goroutine → goroutine) (w : RecursiveWatcher) : RecursiveWatcher :=
  {| rw_tree := t; rw_goroutines := fire <$> rw_goroutines w; rw_eventChan := rw_eventChan w; rw_stopped := rw_stopped w |}.
Definition set_node (p : path) (data : string) (w : RecursiveWatcher) : RecursiveWatcher :=
  on_tree (<[p := data]> (rw_tree w)) (fire_data p EventNodeDataChanged) w.
Definition create_node (p : path) (c data : string) (w : RecursiveWatcher) : RecursiveWatcher :=
  on_tree (<[p ++ [c] := data]> (rw_tree w)) (fire_children p EventNodeChildrenChanged) w.
Definition remove_node (p : path) (c : string) (w : RecursiveWatcher) : RecursiveWatcher :=
  on_tree (delete (p ++ [c]) (rw_tree w))
    (λ g, fire_children p EventNodeChildrenChanged
            (fire_children (p ++ [c]) EventNodeDeleted (fire_data (p ++ [c]) EventNodeDeleted g))) w.

Inductive changed (w : RecursiveWatcher) : RecursiveWatcher → Prop :=
| ch_set p data : p ∈ dom (rw_tree w) → changed w (set_node p data w)
| ch_create p c data : p ∈ dom (rw_tree w) → p ++ [c] ∉ dom (rw_tree w) → changed w (create_node p c data w)
| ch_remove p c : p ++ [c] ∈ dom (rw_tree w) → children (rw_tree w) (p ++ [c]) = [] → changed w (remove_node p c w).

Definition at_rest (w : RecursiveWatcher) : Prop :=
  Forall (λ g, advance (rw_tree w) (rw_stopped w) g = Blocked) (rw_goroutines w).
