(* ===== verification/ZkSettling.v ===== *)
(** When nodes change one at a time, and the goroutines of the watcher come to
    rest in between, the events it sent mirror the tree and every node is
    watched. *)
From S2P Require Import Prelude GoStrings ZkWatcher.

Open Scope list_scope.
Open Scope nat_scope.

(** ** Trees *)
Lemma child_of_Some p q c : child_of p q = Some c ↔ q = p ++ [c].
Proof.
  unfold child_of. destruct (last q) as [c'|] eqn:E; cbn.
  - destruct (decide (q = p ++ [c'])) as [->|Hne].
    + split; [by intros [= ->]|]. by intros [_ [= ->]]%app_inj_2.
    + split; [done|]. intros ->. rewrite last_snoc in E. congruence.
  - split; [done|]. intros ->. by rewrite last_snoc in E.
Qed.

Lemma elem_of_children t p c : c ∈ children t p ↔ p ++ [c] ∈ dom t.
Proof.
  unfold children. rewrite list_elem_of_omap. split.
  - intros (q & Hq & ->%child_of_Some). apply list_elem_of_fmap in Hq as ([q' d] & Heq & Hin%elem_of_map_to_list). cbn in *.
    subst. by apply elem_of_dom_2 in Hin.
  - intros [d Hd]%elem_of_dom. exists (p ++ [c]). split; [|by apply child_of_Some].
    apply list_elem_of_fmap. exists (p ++ [c], d). split; [done|]. by apply elem_of_map_to_list.
Qed.

Lemma NoDup_children t p : NoDup (children t p).
Proof.
  unfold children. generalize (NoDup_fst_map_to_list t). generalize (map_to_list t).*1. intros l.
  induction l as [|q l IH]; [constructor|]. intros [Hq Hl]%NoDup_cons. cbn. destruct (child_of p q) as [c|] eqn:E; [|by apply IH].
  apply NoDup_cons. split; [|by apply IH]. apply child_of_Some in E as ->.
  intros (q & Hin & ->%child_of_Some)%list_elem_of_omap. done.
Qed.

Lemma elem_of_under t p q : q ∈ under t p ↔ q ∈ dom t ∧ p `prefix_of` q.
Proof.
  unfold under. rewrite list_elem_of_filter, list_elem_of_fmap, elem_of_dom. split.
  - intros [Hp ([q' d] & -> & Hin%elem_of_map_to_list)]. eauto.
  - intros [[d Hd] Hp]. split; [done|]. exists (q, d). split; [done|]. by apply elem_of_map_to_list.
Qed.

Lemma NoDup_under t p : NoDup (under t p).
Proof. apply NoDup_filter, NoDup_fst_map_to_list. Qed.

Lemma closed_prefix t p q : closed t → p ++ q ∈ dom t → p ∈ dom t.
Proof.
  intros [_ Ht]. revert p. induction q as [|c q IH] using rev_ind; intros p Hp; [by rewrite app_nil_r in Hp|].
  apply IH. apply (Ht _ c). by rewrite <-app_assoc.
Qed.

(** The nodes below the children are those below the node. *)
Lemma under_children t p : closed t → p ∈ dom t →
  under t p ≡ₚ p :: (((λ c, p ++ [c]) <$> children t p) ≫= under t).
Proof.
  intros Ht Hp. apply NoDup_Permutation; [apply NoDup_under| |].
  - apply NoDup_cons. split.
    + intros (q & Hq & (c & -> & Hc)%list_elem_of_fmap)%list_elem_of_bind. apply elem_of_under in Hq as [_ Hq].
      apply prefix_length in Hq. rewrite length_app in Hq. cbn in Hq. lia.
    + apply NoDup_bind; [|intros; apply NoDup_under|apply NoDup_fmap_2; [intros ?? [_ [=]]%app_inj_2; [done|done]|apply NoDup_children]].
      intros x1 x2 q (c1 & -> & _)%list_elem_of_fmap (c2 & -> & _)%list_elem_of_fmap [_ [r1 H1]]%elem_of_under [_ [r2 H2]]%elem_of_under.
      rewrite H1, <-!app_assoc in H2. apply app_inv_head in H2. injection H2 as -> _. done.
  - intros q. rewrite elem_of_under, elem_of_cons, list_elem_of_bind. split.
    + intros [Hq [[|c r] ->]]; [left; by rewrite app_nil_r|]. right. exists (p ++ [c]).
      rewrite elem_of_under. split; [split; [done|exists r; by rewrite <-app_assoc]|].
      apply (list_elem_of_fmap_2 (λ c, p ++ [c])), elem_of_children. apply (closed_prefix t _ r); [done|]. by rewrite <-app_assoc.
    + intros [->|(q' & Hq & (c & -> & _)%list_elem_of_fmap)]; [by split|].
      apply elem_of_under in Hq as [Hq [r ->]]. split; [done|]. exists ([c] ++ r). by rewrite <-app_assoc.
Qed.

Lemma under_root t : under t [] ≡ₚ (map_to_list t).*1.
Proof.
  apply NoDup_Permutation; [apply NoDup_under|apply NoDup_fst_map_to_list|]. intros q. rewrite elem_of_under, list_elem_of_fmap, elem_of_dom. split.
  - intros [[d Hd] _]. exists (q, d). split; [done|]. by apply elem_of_map_to_list.
  - intros ([q' d] & -> & Hin%elem_of_map_to_list). split; [eauto|apply prefix_nil].
Qed.

Definition below (t : tree) (todo : list path) : list path := todo ≫= under t.

Lemma below_cons t p todo : closed t → p ∈ dom t →
  below t (p :: todo) ≡ₚ p :: below t (((λ c, p ++ [c]) <$> children t p) ++ todo).
Proof. intros Ht Hp. unfold below. csimpl. rewrite bind_app, (under_children t p) by done. done. Qed.

(** ** Updates

    What an event does to a copy of the tree; the order of updates of distinct
    paths does not matter. *)
Abbreviation update := (path * option string)%type.
Definition updated (m : tree) (u : update) : tree := partial_alter (λ _, u.2) u.1 m.
Definition update_of (e : ZookeeperEvent) : update :=
  (ze_Path e, match ze_Type e with NodeDeleted => None | _ => Some (ze_Data e) end).
Definition mirror (es : list ZookeeperEvent) : tree := foldl updated ∅ (update_of <$> es).

Lemma updated_perm m us us' : us ≡ₚ us' → NoDup us.*1 → foldl updated m us = foldl updated m us'.
Proof.
  intros Hp. revert m. induction Hp as [|u us us' Hp IH|u v us|us1 us2 us3 H1 IH1 H2 IH2]; intros m Hn; [done|..].
  - cbn. apply IH. by apply NoDup_cons in Hn as [_ ?].
  - cbn. f_equal. unfold updated. apply partial_alter_partial_alter_ne. csimpl in Hn. apply NoDup_cons in Hn as [Hn _]. set_solver.
  - rewrite IH1 by done. apply IH2. by rewrite <-H1.
Qed.

(** ** What a goroutine will still do while nothing changes *)

(** What it may assume of the tree. *)
Definition valid (t : tree) (g : goroutine) : Prop :=
  match g with
  | Walking todo => ∀ p, p ∈ todo → p ∈ dom t
  | Listing p todo => p ∈ dom t ∧ ∀ p, p ∈ todo → p ∈ dom t
  | GettingData p | GettingChildren p | Comparing p _ => p ∈ dom t
  | Sending p data _ fired => t !! p = Some data ∧ fired = None
  | WatchingData p _ None | WatchingData p _ (Some EventNodeDataChanged) => p ∈ dom t
  | WatchingData p _ (Some EventNodeDeleted) | SendingDeleted p _ => p ∉ dom t
  | WatchingData _ _ (Some _) => False
  | WatchingChildren p names None => p ∈ dom t ∧ ∀ c, c ∈ names ↔ c ∈ children t p
  | WatchingChildren p _ (Some EventNodeChildrenChanged) => p ∈ dom t
  | WatchingChildren p _ (Some EventNodeDeleted) => p ∉ dom t
  | WatchingChildren _ _ (Some _) => False
  end.

(** The watches it leaves, of data ([true]) and of children ([false]), and the
    events it still sends. *)
Definition both (p : path) : list (bool * path) := [(true, p); (false, p)].
Definition watches_of (t : tree) (g : goroutine) : list (bool * path) :=
  match g with
  | Walking todo => below t todo ≫= both
  | Listing p todo => (false, p) :: (below t (((λ c, p ++ [c]) <$> children t p) ++ todo) ≫= both)
  | GettingData p | Sending p _ _ _ => [(true, p)]
  | WatchingData p _ (Some EventNodeDeleted) => []
  | WatchingData p _ _ => [(true, p)]
  | SendingDeleted _ _ => []
  | GettingChildren p => [(false, p)]
  | WatchingChildren p names (Some EventNodeChildrenChanged) | Comparing p names =>
      (false, p) :: (below t (added t p names) ≫= both)
  | WatchingChildren p _ (Some EventNodeDeleted) => []
  | WatchingChildren p _ _ => [(false, p)]
  end.

Definition creation (t : tree) (p : path) : update := (p, t !! p).
Definition updates_of (t : tree) (g : goroutine) : list update :=
  match g with
  | Walking todo => creation t <$> below t todo
  | Listing p todo => creation t <$> below t (((λ c, p ++ [c]) <$> children t p) ++ todo)
  | GettingData p | Sending p _ _ _ => [creation t p]
  | WatchingData p _ (Some EventNodeDeleted) | SendingDeleted p _ => [(p, None)]
  | WatchingData p _ (Some _) => [creation t p]
  | WatchingChildren p names (Some EventNodeChildrenChanged) | Comparing p names => creation t <$> below t (added t p names)
  | _ => []
  end.

(** How many steps that takes at most. *)
Definition walk_cost (t : tree) (todo : list path) : nat := 1 + 8 * List.length (below t todo).
Definition cost (t : tree) (g : goroutine) : nat :=
  match g with
  | Walking todo => walk_cost t todo
  | Listing p todo => 2 + walk_cost t (((λ c, p ++ [c]) <$> children t p) ++ todo)
  | GettingData _ => 2
  | Sending _ _ _ _ | SendingDeleted _ _ | GettingChildren _ => 1
  | WatchingData _ _ None => 0
  | WatchingData _ _ (Some _) => 3
  | WatchingChildren p names (Some EventNodeChildrenChanged) => 3 + sum_list (walk_cost t ∘ (λ q, [q]) <$> added t p names)
  | Comparing p names => 2 + sum_list (walk_cost t ∘ (λ q, [q]) <$> added t p names)
  | WatchingChildren _ _ None => 0
  | WatchingChildren _ _ (Some _) => 1
  end.
Definition costs (t : tree) (gs : list goroutine) : nat := sum_list (cost t <$> gs).

Lemma added_dom t p names q : q ∈ added t p names → q ∈ dom t.
Proof. intros (c & -> & [_ Hc%elem_of_children]%list_elem_of_filter)%list_elem_of_fmap. done. Qed.

Lemma walking_each {A} (f : goroutine → list A) (h : list path → list A) qs : (∀ q, f (Walking q) = h q) →
  (∀ q l, h (q :: l) = h [q] ++ h l) → h [] = [] → ((λ q, Walking [q]) <$> qs) ≫= f = h qs.
Proof.
  intros Hf Hc Hn. induction qs as [|q qs IH]; [by rewrite Hn|]. csimpl. by rewrite IH, Hf, (Hc q qs).
Qed.

Lemma below_split t q l : below t (q :: l) = below t [q] ++ below t l.
Proof. unfold below. csimpl. by rewrite app_nil_r. Qed.

(** A step keeps what is left to do, and shortens it. *)
Definition keeps (t : tree) (g : goroutine) (a : advanced) : Prop :=
  match a with
  | Blocked => updates_of t g = [] ∧ cost t g = 0
  | Panics => False
  | Moves gs sent => Forall (valid t) gs ∧ gs ≫= watches_of t ≡ₚ watches_of t g ∧
      updates_of t g ≡ₚ (update_of <$> sent) ++ (gs ≫= updates_of t) ∧ costs t gs < cost t g
  end.

Lemma watch_next_keeps t todo : closed t → valid t (Walking todo) → keeps t (Walking todo) (watch_next todo).
Proof.
  intros Ht Hv. destruct todo as [|p todo]; [cbn; split_and!; [constructor|done|done|lia]|].
  cbn in Hv. assert (Hp : p ∈ dom t) by (apply Hv; left). split_and!.
  - constructor; [done|]. constructor; [|constructor]. split; [done|]. intros q Hq. apply Hv. by right.
  - cbn. rewrite (below_cons t p todo Ht Hp). csimpl. by rewrite app_nil_r.
  - cbn. rewrite (below_cons t p todo Ht Hp). csimpl. by rewrite app_nil_r.
  - unfold costs. cbn. unfold walk_cost. rewrite (below_cons t p todo Ht Hp). cbn [List.length]. lia.
Qed.

Lemma list_children_keeps t p todo : valid t (Listing p todo) → keeps t (Listing p todo) (list_children t p todo).
Proof.
  intros [Hp Hv]. unfold list_children. destruct (t !! p) as [d|] eqn:E; [|by apply not_elem_of_dom in E]. split_and!.
  - constructor; [done|]. constructor; [|constructor]. intros q [(c & -> & Hc%elem_of_children)%list_elem_of_fmap|Hq]%elem_of_app; [done|by apply Hv].
  - cbn. by rewrite app_nil_r.
  - cbn. by rewrite app_nil_r.
  - unfold costs. cbn. lia.
Qed.

Lemma compare_children_keeps t p names : valid t (Comparing p names) → keeps t (Comparing p names) (compare_children t p names).
Proof.
  intros Hp. unfold compare_children. destruct (t !! p) as [d|] eqn:E; [|by apply not_elem_of_dom in E]. cbn [keeps]. split_and!.
  - constructor; [done|]. apply Forall_fmap, Forall_forall. intros q Hq q' ->%list_elem_of_singleton. by eapply added_dom.
  - csimpl. apply Permutation_skip. generalize (added t p names). intros qs. induction qs as [|q qs IH]; [done|].
    by rewrite (below_split t q qs), bind_app, <-IH.
  - csimpl. generalize (added t p names). intros qs. induction qs as [|q qs IH]; [done|].
    by rewrite (below_split t q qs), fmap_app, IH.
  - unfold costs. csimpl. rewrite <-list_fmap_compose. unfold compose. cbn. lia.
Qed.

Lemma advance_keeps t g : closed t → valid t g → keeps t g (advance t false g).
Proof.
  intros Ht Hv. destruct g as [todo|p todo|p|p d leaf fired|p leaf fired|p leaf|p|p names fired|p names]; cbn [advance].
  - by apply watch_next_keeps.
  - by apply list_children_keeps.
  - apply elem_of_dom in Hv as [d Hd]. unfold get_data. rewrite Hd. unfold keeps, costs. cbn.
    split_and!; [by repeat constructor|done|done|lia].
  - destruct Hv as [Hd ->]. unfold keeps, costs. cbn. unfold creation. rewrite Hd. split_and!; [|done|done|lia].
    constructor; [|constructor]. cbn. by apply elem_of_dom_2 in Hd.
  - destruct fired as [[]|]; unfold keeps, costs; cbn; cbn in Hv; try done; split_and!; try done; try lia; by repeat constructor.
  - unfold keeps, costs. cbn. split_and!; [constructor|done|done|lia].
  - apply elem_of_dom in Hv as [d Hd]. unfold get_children. rewrite Hd. unfold keeps, costs. cbn.
    split_and!; [|done|done|lia]. constructor; [|constructor]. by apply elem_of_dom_2 in Hd.
  - destruct fired as [[]|]; unfold keeps, costs; cbn; cbn in Hv; try done; split_and!; try done; try lia;
      rewrite ?app_nil_r; by repeat constructor.
  - by apply compare_children_keeps.
Qed.

(** ** The phase between two changes *)
Record settling (w : RecursiveWatcher) : Prop := {
  se_closed : closed (rw_tree w);
  se_running : rw_stopped w = false;
  se_valid : Forall (valid (rw_tree w)) (rw_goroutines w);
  se_watches : rw_goroutines w ≫= watches_of (rw_tree w) ≡ₚ (map_to_list (rw_tree w)).*1 ≫= both;
  se_once : NoDup (rw_goroutines w ≫= updates_of (rw_tree w)).*1;
  se_mirror : foldl updated (mirror (rw_eventChan w)) (rw_goroutines w ≫= updates_of (rw_tree w)) = rw_tree w }.

Lemma step_settling w w' : step w w' → settling w →
  settling w' ∧ rw_tree w' = rw_tree w ∧ costs (rw_tree w') (rw_goroutines w') < costs (rw_tree w) (rw_goroutines w).
Proof.
  intros [l1 g l2 gs sent Hg Ha] [Hc Hr Hv Hw Ho Hm]. rewrite Hr in Ha. rewrite Hg in *.
  apply Forall_app in Hv as [Hv1 [Hvg Hv2]%Forall_cons].
  pose proof (advance_keeps _ g Hc Hvg) as Hk. rewrite Ha in Hk. destruct Hk as (Hvs & Hws & Hus & Hcost).
  assert (Hu : (l1 ++ g :: l2) ≫= updates_of (rw_tree w) ≡ₚ (update_of <$> sent) ++ ((l1 ++ gs ++ l2) ≫= updates_of (rw_tree w))).
  { rewrite !bind_app. cbn. rewrite Hus. solve_Permutation. }
  split; [|split; [done|]]; cbn.
  - split; cbn; [done|done|by rewrite !Forall_app|..].
    + rewrite <-Hw, !bind_app. cbn. by rewrite Hws.
    + rewrite Hu, fmap_app in Ho. by apply NoDup_app in Ho as (_ & _ & ?).
    + unfold mirror. rewrite fmap_app, foldl_app, <-foldl_app. rewrite <-Hm at 2. symmetry. by apply updated_perm.
  - unfold costs in *. rewrite !fmap_app, !sum_list_with_app. csimpl. rewrite ?fmap_app, ?sum_list_with_app. csimpl. lia.
Qed.

(** *** At rest *)
Definition watching (g : goroutine) : option (bool * path) :=
  match g with
  | WatchingData p _ None => Some (true, p)
  | WatchingChildren p _ None => Some (false, p)
  | _ => None
  end.

Lemma resting_goroutine t g : closed t → valid t g → advance t false g = Blocked →
  updates_of t g = [] ∧ ∃ x, watching g = Some x ∧ watches_of t g = [x].
Proof.
  intros Ht Hv Hb. pose proof (advance_keeps t g Ht Hv) as Hk. rewrite Hb in Hk. destruct Hk as [Hu Hcost]. split; [done|].
  destruct g as [todo|p todo|p|p d leaf fired|p leaf [[]|]|p leaf|p|p names [[]|]|p names]; cbn in Hcost; try done; try lia;
    eexists; split; reflexivity.
Qed.

Lemma resting_watches t gs : closed t → Forall (valid t) gs → Forall (λ g, advance t false g = Blocked) gs →
  gs ≫= updates_of t = [] ∧ ∃ xs, watching <$> gs = Some <$> xs ∧ gs ≫= watches_of t = xs.
Proof.
  intros Ht Hv Hb. induction gs as [|g gs IH]; [split; [done|by exists []]|].
  apply Forall_cons in Hv as [Hv Hvs]. apply Forall_cons in Hb as [Hb Hbs]. destruct (IH Hvs Hbs) as (Hu & xs & Hx & Hw).
  destruct (resting_goroutine t g Ht Hv Hb) as (Hu1 & x & Hx1 & Hw1). csimpl. rewrite Hu1, Hu, Hw1, Hw, Hx1, Hx.
  split; [done|]. by exists (x :: xs).
Qed.

Lemma settled w : settling w → at_rest w → mirror (rw_eventChan w) = rw_tree w ∧
  watching <$> rw_goroutines w ≡ₚ Some <$> ((map_to_list (rw_tree w)).*1 ≫= both).
Proof.
  intros [Hc Hr Hv Hw Ho Hm] Hb. unfold at_rest in Hb. rewrite Hr in Hb. destruct (resting_watches _ _ Hc Hv Hb) as (Hu & xs & Hx & Hxs).
  split; [by rewrite Hu in Hm|]. by rewrite Hx, <-Hw, Hxs.
Qed.

(** ** Changes *)

(** A list of pieces that differs from another one at one element. *)
Lemma bind_at {A B D} (tag : A → B) (x : B) (f h : A → list D) (l : list D) (gs : list A) :
  NoDup (tag <$> gs) → x ∈ tag <$> gs → (∀ g, g ∈ gs → tag g = x → f g ≡ₚ h g ++ l) →
  (∀ g, g ∈ gs → tag g ≠ x → f g = h g) → gs ≫= f ≡ₚ (gs ≫= h) ++ l.
Proof.
  induction gs as [|g gs IH]; [by intros _ Hx%not_elem_of_nil|]. csimpl. intros [Hn Hnd]%NoDup_cons Hx Heq Hne.
  apply elem_of_cons in Hx as [->|Hx].
  - rewrite (Heq g) by (done || left).
    assert (Hrest : gs ≫= f = gs ≫= h).
    { clear IH Heq. induction gs as [|g' gs IH]; [done|]. csimpl.
      csimpl in Hn. apply not_elem_of_cons in Hn as [Hn1 Hn2]. rewrite (Hne g'); [|right; left|done].
      f_equal. apply IH; [done|by apply NoDup_cons in Hnd as [_ ?]|]. intros g2 Hg2. apply Hne. set_solver. }
    rewrite Hrest. solve_Permutation.
  - rewrite (Hne g); [|left|].
    + rewrite IH; [by rewrite app_assoc|done|done| |]; intros g' Hg'; [apply Heq|apply Hne]; by right.
    + by intros <-.
Qed.

(** The goroutines at rest, by what they watch. *)
Record resting (t : tree) (gs : list goroutine) : Prop := {
  rs_tag : ∀ g, g ∈ gs → ∃ p, (∃ leaf, g = WatchingData p leaf None) ∨
    (∃ names, g = WatchingChildren p names None ∧ ∀ c, c ∈ names ↔ c ∈ children t p);
  rs_watching : watching <$> gs ≡ₚ Some <$> ((map_to_list t).*1 ≫= both) }.

Lemma settled_resting w : settling w → at_rest w → resting (rw_tree w) (rw_goroutines w).
Proof.
  intros Hs Hb. destruct (settled w Hs Hb) as [_ Hw]. destruct Hs as [Hc Hr Hv _ _ _]. unfold at_rest in Hb. rewrite Hr in Hb.
  split; [|done]. intros g Hg. rewrite Forall_forall in Hv, Hb. specialize (Hv g Hg). specialize (Hb g Hg).
  destruct g as [[]|p todo|p|p d leaf fired|p leaf [[]|]|p leaf|p|p names [[]|]|p names]; try done; cbn in Hb.
  - unfold list_children in Hb. by destruct (_ !! _).
  - unfold get_data in Hb. by destruct (_ !! _).
  - exists p. left. by exists leaf.
  - unfold get_children in Hb. by destruct (_ !! _).
  - exists p. right. exists names. by destruct Hv.
  - unfold compare_children in Hb. by destruct (_ !! _).
Qed.

Lemma NoDup_both (l : list path) : NoDup l → NoDup (l ≫= both).
Proof.
  intros Hl. apply NoDup_bind; [|intros p _; by repeat constructor; set_solver|done].
  intros p q [b r] _ _. unfold both. set_solver.
Qed.

Lemma elem_of_both (l : list path) b p : (b, p) ∈ l ≫= both ↔ p ∈ l.
Proof.
  rewrite list_elem_of_bind. unfold both. split.
  - intros (q & Hq & Hin). set_solver.
  - intros Hp. exists p. split; [|done]. destruct b; set_solver.
Qed.

Lemma resting_NoDup t gs : resting t gs → NoDup (watching <$> gs).
Proof. intros [_ ->]. apply NoDup_fmap_2, NoDup_both, NoDup_fst_map_to_list. apply _. Qed.

Lemma elem_of_keys (t : tree) p : p ∈ (map_to_list t).*1 ↔ p ∈ dom t.
Proof.
  rewrite list_elem_of_fmap, elem_of_dom. split.
  - intros ([q d] & -> & Hin%elem_of_map_to_list). eauto.
  - intros [d Hd]. exists (p, d). split; [done|]. by apply elem_of_map_to_list.
Qed.

Lemma resting_watched t gs b p : resting t gs → p ∈ dom t → Some (b, p) ∈ watching <$> gs.
Proof. intros [_ ->] Hp. apply list_elem_of_fmap_2, elem_of_both, elem_of_keys. done. Qed.

Lemma resting_dom t gs g b p : resting t gs → g ∈ gs → watching g = Some (b, p) → p ∈ dom t.
Proof.
  intros [_ Hw] Hg Hx. apply elem_of_keys, (elem_of_both _ b). apply (list_elem_of_fmap_inj_2 Some). rewrite <-Hw, <-Hx. by apply list_elem_of_fmap_2.
Qed.

Lemma fmap_bind {A B D} (f : B → list D) (g : A → B) l : (g <$> l) ≫= f = l ≫= (λ x, f (g x)).
Proof. induction l as [|x l IH]; [done|]. csimpl. by rewrite IH. Qed.
Lemma bind_ext {A D} (f g : A → list D) l : (∀ x, x ∈ l → f x = g x) → l ≫= f = l ≫= g.
Proof. induction l as [|x l IH]; intros Hl; [done|]. csimpl. rewrite (Hl x) by left. f_equal. apply IH. intros y Hy. apply Hl. by right. Qed.
Lemma bind_nils {A D} (l : list A) : l ≫= (λ _, @nil D) = [].
Proof. induction l as [|x l IH]; [done|]. csimpl. done. Qed.

Lemma bind_filter {A D} (P : D → Prop) `{∀ y, Decision (P y)} (f : A → list D) l :
  filter P (l ≫= f) = l ≫= (λ x, filter P (f x)).
Proof. induction l as [|x l IH]; [done|]. csimpl. by rewrite filter_app, IH. Qed.

Lemma change_settling w t' fire u : settling w → at_rest w → closed t' →
  Forall (valid t') (fire <$> rw_goroutines w) →
  rw_goroutines w ≫= (λ g, watches_of t' (fire g)) ≡ₚ (map_to_list t').*1 ≫= both →
  rw_goroutines w ≫= (λ g, updates_of t' (fire g)) ≡ₚ [u] → updated (rw_tree w) u = t' →
  settling (on_tree t' fire w).
Proof.
  intros Hs Hb Hc Hv Hw Hu Ht. destruct (settled w Hs Hb) as [Hm _].
  apply Permutation_singleton_r in Hu as Hu'.
  split; cbn; rewrite ?(fmap_bind _ fire), ?Hu'; [done|by apply Hs|done|done|apply NoDup_singleton|].
  change (updated (mirror (rw_eventChan w)) u = t'). by rewrite Hm.
Qed.

(** The updates of a change come from the goroutine that watches [x]. *)
Lemma one_update w t' fire x u : resting (rw_tree w) (rw_goroutines w) → x ∈ watching <$> rw_goroutines w →
  (∀ g, g ∈ rw_goroutines w → updates_of t' (fire g) = if decide (watching g = x) then [u] else []) →
  rw_goroutines w ≫= (λ g, updates_of t' (fire g)) ≡ₚ [u].
Proof.
  intros Hr Hx Hf. rewrite (bind_at watching x _ (λ _, []) [u]); [by rewrite bind_nils|by eapply resting_NoDup|done|..];
    intros g Hg Ht; rewrite Hf by done; by case_decide.
Qed.

Lemma keys_dom (t t' : tree) : dom t = dom t' → (map_to_list t).*1 ≡ₚ (map_to_list t').*1.
Proof. intros Hd. apply NoDup_Permutation; [apply NoDup_fst_map_to_list..|]. intros q. by rewrite !elem_of_keys, Hd. Qed.

Lemma children_dom t t' p c : dom t = dom t' → c ∈ children t p ↔ c ∈ children t' p.
Proof. intros Hd. by rewrite !elem_of_children, Hd. Qed.

Lemma set_settling w p data : settling w → at_rest w → p ∈ dom (rw_tree w) → settling (set_node p data w).
Proof.
  intros Hs Hb Hp. pose proof (settled_resting w Hs Hb) as Hr. set (t' := <[p := data]> (rw_tree w)).
  assert (Hd : dom t' = dom (rw_tree w)) by (unfold t'; rewrite dom_insert_L; set_solver).
  unfold set_node. fold t'. apply (change_settling w t' _ (creation t' p)); [done|done|..].
  - unfold closed. rewrite Hd. apply Hs.
  - apply Forall_fmap, Forall_forall. intros g Hg. destruct (rs_tag _ _ Hr g Hg) as (q & [(leaf & ->)|(names & -> & Hn)]); cbn.
    + pose proof (resting_dom _ _ _ _ _ Hr Hg eq_refl). case_decide; cbn; by rewrite Hd.
    + rewrite Hd. split; [by apply (resting_dom _ _ _ _ _ Hr Hg eq_refl)|]. intros c. rewrite Hn. by apply children_dom.
  - rewrite (bind_ext _ (watches_of (rw_tree w))).
    + rewrite (se_watches _ Hs). f_equiv. by apply keys_dom.
    + intros g Hg. destruct (rs_tag _ _ Hr g Hg) as (q & [(leaf & ->)|(names & -> & Hn)]); cbn; [by case_decide|done].
  - apply (one_update w _ _ (Some (true, p))); [done|by eapply resting_watched|].
    intros g Hg. destruct (rs_tag _ _ Hr g Hg) as (q & [(leaf & ->)|(names & -> & Hn)]); cbn; repeat case_decide; simplify_eq; done.
  - unfold updated, creation, t'. cbn. by rewrite lookup_insert_eq.
Qed.

(** *** A child is created *)
Section create.
Context (t : tree) (p : path) (c data : string).
Context (Hc : closed t) (Hp : p ∈ dom t) (Hnc : p ++ [c] ∉ dom t).
Let t' := <[p ++ [c] := data]> t.

Lemma created_dom q : q ∈ dom t' ↔ q = p ++ [c] ∨ q ∈ dom t.
Proof using. clear Hc Hp Hnc. unfold t'. rewrite dom_insert_L. set_solver. Qed.

Lemma created_children q x : x ∈ children t' q ↔ (q = p ∧ x = c) ∨ x ∈ children t q.
Proof using.
  clear Hc Hp Hnc. rewrite !elem_of_children, created_dom. split; [|by intros [[-> ->]|?]; [left|right]].
  intros [[-> ->]%app_inj_tail|?]; [by left|by right].
Qed.

Lemma created_closed : closed t'.
Proof using Hc Hp.
  destruct Hc as [Hroot Hcl]. split; [apply created_dom; by right|]. intros q x. rewrite !created_dom.
  intros [[-> _]%app_inj_tail|Hq]; [by right|right; by apply (Hcl q x)].
Qed.

(** The walk the parent starts visits the new node only. *)
Lemma created_below names : (∀ x, x ∈ names ↔ x ∈ children t p) → below t' (added t' p names) ≡ₚ [p ++ [c]].
Proof using Hc Hnc.
  intros Hn. assert (Ha : filter (λ x, x ∉ names) (children t' p) ≡ₚ [c]).
  { apply NoDup_Permutation; [apply NoDup_filter, NoDup_children|apply NoDup_singleton|]. intros x.
    rewrite list_elem_of_filter, list_elem_of_singleton, created_children, Hn, elem_of_children.
    split; [naive_solver|]. intros ->. split; [done|naive_solver]. }
  unfold below, added. rewrite Ha. csimpl. rewrite app_nil_r.
  apply NoDup_Permutation; [apply NoDup_under|apply NoDup_singleton|]. intros q.
  rewrite elem_of_under, list_elem_of_singleton, created_dom. split.
  - intros [[->|Hq] [r Hqr]]; [done|]. exfalso. apply Hnc. apply (closed_prefix _ _ r); [done|]. by rewrite <-Hqr.
  - intros ->. split; [by left|done].
Qed.
End create.

Lemma create_settling w p c data : settling w → at_rest w → p ∈ dom (rw_tree w) → p ++ [c] ∉ dom (rw_tree w) →
  settling (create_node p c data w).
Proof.
  intros Hs Hb Hp Hnc. pose proof (settled_resting w Hs Hb) as Hr. set (t' := <[p ++ [c] := data]> (rw_tree w)).
  assert (Hadd := created_below (rw_tree w) p c data (se_closed _ Hs) Hnc). fold t' in Hadd.
  unfold create_node. fold t'. apply (change_settling w t' _ (creation t' (p ++ [c]))); [done|done|by apply created_closed; [apply Hs|]|..].
  - apply Forall_fmap, Forall_forall. intros g Hg. destruct (rs_tag _ _ Hr g Hg) as (q & [(leaf & ->)|(names & -> & Hn)]); cbn;
      pose proof (resting_dom _ _ _ _ _ Hr Hg eq_refl) as Hq.
    + apply created_dom. by right.
    + case_decide as Hqp; cbn; [apply created_dom; by right|]. split; [apply created_dom; by right|].
      intros x. unfold t'. rewrite Hn, created_children. naive_solver.
  - rewrite (bind_at watching (Some (false, p)) _ (watches_of (rw_tree w)) (both (p ++ [c])));
      [|by eapply resting_NoDup|by eapply resting_watched|..].
    + rewrite (se_watches _ Hs). unfold t'. rewrite map_to_list_insert by by apply not_elem_of_dom. csimpl. solve_Permutation.
    + intros g Hg. destruct (rs_tag _ _ Hr g Hg) as (q & [(leaf & ->)|(names & -> & Hn)]); cbn; [done|intros [= ->]].
      rewrite decide_True by done. cbn. by rewrite Hadd.
    + intros g Hg. destruct (rs_tag _ _ Hr g Hg) as (q & [(leaf & ->)|(names & -> & Hn)]); cbn; [done|intros Hne].
      by rewrite decide_False by congruence.
  - rewrite (bind_at watching (Some (false, p)) _ (λ _, []) [creation t' (p ++ [c])]);
      [by rewrite bind_nils|by eapply resting_NoDup|by eapply resting_watched|..];
      intros g Hg; destruct (rs_tag _ _ Hr g Hg) as (q & [(leaf & ->)|(names & -> & Hn)]); cbn; try done.
    + intros [= ->]. rewrite decide_True by done. cbn. by rewrite Hadd.
    + intros Hne. by rewrite decide_False by congruence.
  - unfold updated, creation, t'. cbn. by rewrite lookup_insert_eq.
Qed.

(** *** A node is removed *)
Section remove.
Context (t : tree) (p : path) (c : string).
Context (Hc : closed t) (Hp : p ++ [c] ∈ dom t) (Hleaf : children t (p ++ [c]) = []).
Let t' := delete (p ++ [c]) t.

Lemma removed_dom q : q ∈ dom t' ↔ q ≠ p ++ [c] ∧ q ∈ dom t.
Proof using. clear Hc Hp Hleaf. unfold t'. rewrite dom_delete_L. set_solver. Qed.

Lemma removed_children q x : x ∈ children t' q ↔ ¬ (q = p ∧ x = c) ∧ x ∈ children t q.
Proof using.
  clear Hc Hp Hleaf. rewrite !elem_of_children, removed_dom. split; intros [Hne Hin]; (split; [|done]).
  - intros [-> ->]. done.
  - intros [-> ->]%app_inj_tail. by apply Hne.
Qed.

Lemma removed_closed : closed t'.
Proof using Hc Hp Hleaf.
  destruct Hc as [Hroot Hcl]. split; [apply removed_dom; split; [by destruct p|done]|]. intros q x. rewrite !removed_dom.
  intros [_ Hq]. split; [|by apply (Hcl q x)]. intros ->. apply elem_of_children in Hq. rewrite Hleaf in Hq. by apply not_elem_of_nil in Hq.
Qed.

Lemma removed_added names : (∀ x, x ∈ names ↔ x ∈ children t p) → added t' p names = [].
Proof using.
  clear Hc Hp Hleaf. intros Hn. unfold added.
  destruct (filter (λ x, x ∉ names) (children t' p)) as [|x l] eqn:E; [done|]. exfalso.
  assert (Hx : x ∈ filter (λ x, x ∉ names) (children t' p)) by (rewrite E; left).
  apply list_elem_of_filter in Hx as [Hx [_ Hin]%removed_children]. apply Hx. by apply Hn.
Qed.
End remove.

Lemma remove_settling w p c : settling w → at_rest w → p ++ [c] ∈ dom (rw_tree w) → children (rw_tree w) (p ++ [c]) = [] →
  settling (remove_node p c w).
Proof.
  intros Hs Hb Hq Hleaf. pose proof (settled_resting w Hs Hb) as Hr. set (t' := delete (p ++ [c]) (rw_tree w)).
  assert (Hpc : p ≠ p ++ [c]) by (intros He%(f_equal List.length); rewrite length_app in He; cbn in He; lia).
  unfold remove_node. fold t'. apply (change_settling w t' _ (p ++ [c], None)); [done|done|by apply removed_closed; [apply Hs|..]|..].
  - apply Forall_fmap, Forall_forall. intros g Hg. destruct (rs_tag _ _ Hr g Hg) as (q & [(leaf & ->)|(names & -> & Hn)]); cbn;
      pose proof (resting_dom _ _ _ _ _ Hr Hg eq_refl) as Hd; case_decide as H1; cbn; unfold t'; rewrite ?removed_dom; [naive_solver..|].
    case_decide as H2; cbn; rewrite removed_dom; [done|]. split; [done|]. intros x. rewrite Hn, removed_children. naive_solver.
  - rewrite (bind_ext _ (λ g, filter (λ y, y.2 ≠ p ++ [c]) (watches_of (rw_tree w) g))).
    + rewrite <-bind_filter, (se_watches _ Hs).
      apply NoDup_Permutation; [apply NoDup_filter, NoDup_both, NoDup_fst_map_to_list|apply NoDup_both, NoDup_fst_map_to_list|].
      intros [b q]. rewrite list_elem_of_filter, !elem_of_both, !elem_of_keys. unfold t'. by rewrite removed_dom.
    + intros g Hg. destruct (rs_tag _ _ Hr g Hg) as (q & [(leaf & ->)|(names & -> & Hn)]); cbn [watches_of];
        rewrite filter_cons, filter_nil; cbn; case_decide as H1; cbn; try (by case_decide).
      case_decide as H2; [|by case_decide]. subst q. cbn. unfold t'. rewrite removed_added by done. by case_decide.
  - apply (one_update w _ _ (Some (true, p ++ [c]))); [done|by eapply resting_watched|].
    intros g Hg. destruct (rs_tag _ _ Hr g Hg) as (q & [(leaf & ->)|(names & -> & Hn)]); cbn.
    + repeat case_decide; simplify_eq; done.
    + case_decide as H1; cbn; [by case_decide|]. case_decide as H2; cbn; [|by case_decide].
      subst q. unfold t'. rewrite removed_added by done. by case_decide.
  - done.
Qed.

(** ** Runs *)
Lemma updated_creations t m l q : foldl updated m (creation t <$> l) !! q = if decide (q ∈ l) then t !! q else m !! q.
Proof.
  revert m. induction l as [|p l IH]; intros m; [done|]. csimpl. rewrite IH. unfold updated, creation. cbn.
  destruct (decide (q ∈ l)) as [Hl|Hl]; [by rewrite decide_True by by right|].
  destruct (decide (p = q)) as [->|Hne]; [by rewrite lookup_partial_alter_eq, decide_True by left|].
  rewrite lookup_partial_alter_ne by done. rewrite decide_False; [done|set_solver].
Qed.

Lemma creations_fst t l : (creation t <$> l).*1 = l.
Proof. induction l as [|q l IH]; [done|]. csimpl. by rewrite IH. Qed.

Lemma start_settling t : closed t → settling (StartAsync t).
Proof.
  intros Hc. assert (Hb : below t [[]] ≡ₚ (map_to_list t).*1) by (unfold below; csimpl; rewrite app_nil_r; apply under_root).
  assert (Hn : NoDup (below t [[]])) by (rewrite Hb; apply NoDup_fst_map_to_list).
  split; cbn [StartAsync rw_tree rw_goroutines rw_eventChan rw_stopped]; [done|done|..].
  - constructor; [|constructor]. intros p ->%list_elem_of_singleton. apply Hc.
  - cbn [mbind list_bind watches_of]. by rewrite app_nil_r, Hb.
  - cbn [mbind list_bind updates_of]. by rewrite app_nil_r, creations_fst.
  - cbn [mbind list_bind updates_of]. rewrite app_nil_r. apply map_eq. intros q. rewrite updated_creations. case_decide as Hq; [done|].
    rewrite Hb, elem_of_keys in Hq. symmetry. by apply not_elem_of_dom.
Qed.

(** The goroutines run, and others change nodes when they are at rest. *)
Inductive run (t : tree) : RecursiveWatcher → Prop :=
| run_start : run t (StartAsync t)
| run_step w w' : run t w → step w w' → run t w'
| run_change w w' : run t w → at_rest w → changed w w' → run t w'.

Lemma run_settling t w : closed t → run t w → settling w.
Proof.
  intros Hc. induction 1 as [|w w' _ IH Hs|w w' _ IH Hr Hch]; [by apply start_settling|by eapply step_settling|].
  destruct Hch as [p data Hp|p c data Hp Hn|p c Hp Hl]; [by apply set_settling|by apply create_settling|by apply remove_settling].
Qed.

Lemma steps_bound n w w' : settling w → nsteps step n w w' →
  n + costs (rw_tree w') (rw_goroutines w') ≤ costs (rw_tree w) (rw_goroutines w).
Proof.
  intros Hs Hn. revert Hs. induction Hn as [|n w w1 w2 H1 _ IH]; intros Hs; [done|].
  destruct (step_settling _ _ H1 Hs) as (Hs1 & _ & Hlt). specialize (IH Hs1). lia.
Qed.

Lemma rest_or_step w : settling w → at_rest w ∨ ∃ w', step w w'.
Proof.
  intros [Hc Hr Hv _ _ _]. unfold at_rest.
  assert (Hd : ∀ l1 l2, rw_goroutines w = l1 ++ l2 → Forall (λ g, advance (rw_tree w) (rw_stopped w) g = Blocked) l2 ∨ ∃ w', step w w').
  { intros l1 l2. revert l1. induction l2 as [|g l2 IH]; intros l1 Hl; [by left; constructor|].
    destruct (IH (l1 ++ [g])) as [Hrest|?]; [by rewrite <-app_assoc| |by right].
    assert (Hg : valid (rw_tree w) g). { rewrite Hl in Hv. by apply Forall_app in Hv as [_ [? _]%Forall_cons]. }
    pose proof (advance_keeps _ g Hc Hg) as Hk. destruct (advance (rw_tree w) false g) as [|gs sent|] eqn:Ha; [| |done].
    - left. constructor; [by rewrite Hr|done].
    - right. eexists. eapply step_advance; [exact Hl|]. by rewrite Hr. }
  by apply (Hd []).
Qed.

(** C16: the watcher of ZooKeeper keeps up. When nodes are set, created and removed one at a time, each once the goroutines
    have come to rest, then in every state: the goroutines can only take a bounded number of steps before they rest; they
    do not rest while one of them can go on, and none panics; and at rest the events sent mirror the tree, and every node
    has one goroutine that watches its data and one that watches its children, and there are no others. *)
Theorem watcher_settles t w : closed t → run t w →
  (∀ n w', nsteps step n w w' → n ≤ costs (rw_tree w) (rw_goroutines w)) ∧
  (at_rest w ∨ ∃ w', step w w') ∧
  (at_rest w → mirror (rw_eventChan w) = rw_tree w ∧
     watching <$> rw_goroutines w ≡ₚ Some <$> ((map_to_list (rw_tree w)).*1 ≫= both)).
Proof.
  intros Hc Hr. pose proof (run_settling t w Hc Hr) as Hs. split_and!.
  - intros n w' Hn. pose proof (steps_bound n w w' Hs Hn). lia.
  - by apply rest_or_step.
  - by apply settled.
Qed.

(** ** Runs of a small registry *)
Module ZkSettlingExample.
Open Scope string_scope.

(** The goroutine at a position takes a step, if it can. *)
Definition advance_at (n : nat) (w : RecursiveWatcher) : RecursiveWatcher :=
  match rw_goroutines w !! n with
  | None => w
  | Some g =>
      match advance (rw_tree w) (rw_stopped w) g with
      | Moves gs sent =>
          {| rw_tree := rw_tree w; rw_goroutines := take n (rw_goroutines w) ++ gs ++ drop (S n) (rw_goroutines w);
             rw_eventChan := rw_eventChan w ++ sent; rw_stopped := rw_stopped w |}
      | _ => w
      end
  end.

(** The first goroutine that can go on does, for a number of rounds. *)
Definition moves (w : RecursiveWatcher) (g : goroutine) : bool :=
  match advance (rw_tree w) (rw_stopped w) g with Moves _ _ => true | _ => false end.
Fixpoint settle (fuel : nat) (w : RecursiveWatcher) : RecursiveWatcher :=
  match fuel with
  | O => w
  | S fuel => match list_find (λ g, moves w g = true) (rw_goroutines w) with
              | Some (n, _) => settle fuel (advance_at n w)
              | None => w
              end
  end.

Lemma advance_at_steps n w : rtc step w (advance_at n w).
Proof.
  unfold advance_at. destruct (rw_goroutines w !! n) as [g|] eqn:Hg; [|done].
  destruct (advance _ _ g) as [|gs sent|] eqn:Ha; [done| |done]. apply rtc_once.
  eapply step_advance; [|done]. by rewrite take_drop_middle.
Qed.

Lemma settle_steps fuel w : rtc step w (settle fuel w).
Proof.
  revert w. induction fuel as [|fuel IH]; intros w; [done|]. cbn. destruct (list_find _ _) as [[n g]|]; [|done].
  etrans; [apply advance_at_steps|apply IH].
Qed.

Lemma run_steps t w w' : rtc step w w' → run t w → run t w'.
Proof. induction 1 as [|w w1 w2 Hs _ IH]; [done|]. intros Hr. apply IH. by eapply run_step. Qed.

Definition small : tree := {[ [] := ""; ["shop"] := "1" ]}.
Definition watched : RecursiveWatcher := settle 50 (StartAsync small).
Definition grown : RecursiveWatcher := settle 50 (create_node ["shop"] "eu" "2" watched).

Lemma small_closed : closed small.
Proof.
  split; [by vm_compute; constructor|]. intros p c. unfold small. rewrite !dom_insert_L, dom_singleton_L.
  rewrite !elem_of_union, !elem_of_singleton. intros [Hp|Hp]; [by destruct p|].
  destruct p as [|x [|y p]]; [by left| |]; cbn in Hp; congruence.
Qed.

Lemma watched_rest : at_rest watched.
Proof. vm_compute. repeat constructor. Qed.
Lemma grown_rest : at_rest grown.
Proof. vm_compute. repeat constructor. Qed.
Lemma grown_run : run small grown.
Proof.
  eapply run_steps; [apply settle_steps|]. eapply run_change; [eapply run_steps; [apply settle_steps|apply run_start]|apply watched_rest|].
  apply ch_create; [apply elem_of_dom; vm_compute; by eexists|]. apply not_elem_of_dom. vm_compute. reflexivity.
Qed.

Lemma watcher_settles_witness : at_rest grown ∧ rw_tree grown !! ["shop"; "eu"] = Some "2" ∧ mirror (rw_eventChan grown) = rw_tree grown.
Proof.
  split; [apply grown_rest|]. split; [vm_compute; reflexivity|].
  by apply (watcher_settles small grown small_closed grown_run), grown_rest.
Defined.

(** Two children created in quick succession: the second one is there when
    the list is read again, and is taken for one that was there before. *)
Definition twice : RecursiveWatcher :=
  let w := advance_at 1 (advance_at 1 (create_node [] "cart" "2" watched)) in
  settle 50 (create_node [] "till" "3" w).

Lemma child_missed : at_rest twice ∧ rw_tree twice !! ["till"] = Some "3" ∧ mirror (rw_eventChan twice) !! ["till"] = None.
Proof. split_and!; [vm_compute; repeat constructor|vm_compute; reflexivity..]. Qed.

(** [Stop] closes the channel of events under the goroutines that send. *)
Lemma stop_panics : let w := watcher_Stop (advance_at 0 (advance_at 0 (StartAsync small))) in
  ∃ g, g ∈ rw_goroutines w ∧ advance (rw_tree w) (rw_stopped w) g = Panics.
Proof. exists (Sending [] "" false None). split; [vm_compute; left|reflexivity]. Qed.
End ZkSettlingExample.
