(* ===== verification/ZkListerWatch.v ===== *)
(** pkg/discovery/zk: the lister-watcher that turns nodes into resources, and
    the conversions of its factory. *)
From S2P Require Import Prelude GoStrings Errors Resource Json Instances NacosServices ZkRegistry Watching ZkWatcher ZkSettling.

Open Scope string_scope.
Open Scope list_scope.

(** The path of a node under the path that is watched. *)
Definition render (basePath : string) (p : path) : string := foldl (λ s c, s +:+ "/" +:+ c) basePath p.

(** ** factory.go *)
Section factory.
Context (FormatMilli : Z → string) (IsBlank : string → bool).

Definition toUpsertZKConfigResource (mesh nodePath nodeData : string) : option Resource :=
  match str_split "/" nodePath with
  | [_; _; _; configName] =>
      Some (new_resource_of configName mesh (ZKConfigSpec (Some {| zc_NodeName := configName; zc_NodeData := nodeData |})))
  | _ => None
  end.
Definition toDeleteZKConfigResource (mesh nodePath : string) : option Resource :=
  match str_split "/" nodePath with
  | [_; _; _; configName] =>
      Some (new_resource_of configName mesh (ZKConfigSpec (Some {| zc_NodeName := configName; zc_NodeData := "" |})))
  | _ => None
  end.

Definition toUpsertZKMetadataResource (mesh nodePath nodeData : string) : option Resource :=
  if decide (List.length (str_split "/" nodePath) < 5)%nat then None
  else Some (new_resource_of nodePath mesh (ZKMetadataSpec (Some {| zm_NodePath := nodePath; zm_NodeData := nodeData |}))).
Definition toDeleteZKMetadataResource (mesh nodePath : string) : option Resource :=
  if decide (List.length (str_split "/" nodePath) < 5)%nat then None
  else Some (new_resource_of nodePath mesh (ZKMetadataSpec (Some {| zm_NodePath := ""; zm_NodeData := "" |}))).

(** *** Instances of curator *)
Record ZookeeperInstance := {
  zi_Name : string; zi_Address : string; zi_Port : Z; zi_Payload : option (option (gmap string string)) }.

(** The members that are read; [None] is any error. The metadata of a payload
    are nil when it has none. *)
Definition int_or (old : Z) (j : json) : option Z :=
  match j with JNumber t => ParseInt t | JNull => Some old | _ => None end.
Definition payload_field (m : option (gmap string string)) (name : string) (j : json) : option (option (gmap string string)) :=
  if decide (name = "metadata") then
    match j with JNull => Some None | _ => Some <$> add_members (default ∅ m) j end
  else if decide (name ∈ ["@class"; "id"; "name"]) then _ ← text_or "" j; Some m
  else Some m.
Definition instance_field (i : ZookeeperInstance) (name : string) (j : json) : option ZookeeperInstance :=
  let '(Build_ZookeeperInstance n a p payload) := i in
  if decide (name = "name") then t ← text_or n j; Some (Build_ZookeeperInstance t a p payload)
  else if decide (name = "address") then t ← text_or a j; Some (Build_ZookeeperInstance n t p payload)
  else if decide (name = "port") then z ← int_or p j; Some (Build_ZookeeperInstance n a z payload)
  else if decide (name = "payload") then
    match j with
    | JNull => Some (Build_ZookeeperInstance n a p None)
    | _ => m ← fields payload_field (default None payload) j; Some (Build_ZookeeperInstance n a p (Some m))
    end
  else if decide (name ∈ ["id"; "servicetype"; "urispec"]) then _ ← text_or "" j; Some i
  else if decide (name ∈ ["sslport"; "registrationtimeutc"]) then _ ← int_or 0 j; Some i
  else Some i.
Definition Unmarshal_instance (data : string) : option ZookeeperInstance :=
  j ← parse data; fields instance_field (Build_ZookeeperInstance "" "" 0 None) j.

Definition toUpsertRPCInstanceResource (mesh nodePath nodeData : string) : option Resource :=
  zkInstance ← Unmarshal_instance nodeData;
  if IsBlank (zi_Name zkInstance) || IsBlank (zi_Address zkInstance) || (zi_Port zkInstance <=? 0)%Z then None
  else match zi_Payload zkInstance with
       | Some (Some metadata) =>
           Some (ToRPCInstance FormatMilli mesh (zi_Name zkInstance) (zi_Address zkInstance) (zi_Port zkInstance) metadata)
       | _ => None
       end.

(** [Err] is the panic of the index into a name without a colon. *)
Definition index_out_of_range : error := ErrorText "index out of range [1] with length 1".
Definition toDeleteRPCInstanceResource (mesh nodePath : string) : result error (option Resource) :=
  match str_split "/" nodePath with
  | _ :: _ :: appName :: endpoint :: _ =>
      match str_split ":" endpoint with
      | ip :: port :: _ =>
          Ok (port ← ParseInt port; Some (new_resource_of (BuildInstanceResName appName ip port) mesh (RPCInstanceSpec (Some
                {| rpc_Name := ""; rpc_Ip := ""; rpc_Port := 0; rpc_AppName := ""; rpc_RegisterTime := ""; rpc_UnregisterTime := "";
                   rpc_Revision := ""; rpc_MetadataStorageType := ""; rpc_ReleaseVersion := ""; rpc_Protocol := "";
                   rpc_Serialization := ""; rpc_PreferSerialization := ""; rpc_Tags := ∅; rpc_Endpoints := []; rpc_Metadata := ∅ |}))))
      | _ => Err index_out_of_range
      end
  | _ => Ok None
  end.
End factory.

(** ** listerwatcher.go *)
Record ListerWatcher := {
  lw_basePath : string;
  lw_rk : ResourceKind;
  lw_mesh : string;
  lw_zkAddr : string;
  lw_toUpsertResourceFunc : string → string → string → option Resource;
  lw_toDeleteResourceFunc : string → string → option Resource }.

Section lister_watcher.
Context (lw : ListerWatcher).
(** The connection: the data of a node and the names of its children. *)
Context (conn_Get : path → result error string) (conn_Children : path → result error (list string)).

Definition upsert_of (p : path) (data : string) : option Resource :=
  lw_toUpsertResourceFunc lw (lw_mesh lw) (render (lw_basePath lw) p) data.
Definition delete_of (p : path) : option Resource :=
  lw_toDeleteResourceFunc lw (lw_mesh lw) (render (lw_basePath lw) p).

Definition list_failed (verb : string) (p : path) (cause : error) : error :=
  BizError (Some cause) ZKError (verb +:+ " " +:+ kind_string (lw_rk lw) +:+ " from zk failed, path: " +:+ render (lw_basePath lw) p +:+
    ", addr: " +:+ lw_zkAddr lw +:+ ", cause: " +:+ error_string cause).

(** [None] is the lack of fuel, one unit per level of the tree. *)
Fixpoint listRecursively (fuel : nat) (p : path) : option (result error (list Resource)) :=
  match fuel with
  | O => None
  | S fuel =>
      match conn_Get p with
      | Err e => Some (Err (list_failed "get" p e))
      | Ok nodeData =>
          let resList := match upsert_of p nodeData with Some res => [res] | None => [] end in
          match conn_Children p with
          | Err e => Some (Err (list_failed "list" p e))
          | Ok names =>
              foldl (λ acc c, r ← acc;
                       match r with
                       | Err e => Some (Err e)
                       | Ok resList => (λ r, (λ resources, resList ++ resources) <$> r) <$> listRecursively fuel (p ++ [c])
                       end) (Some (Ok resList)) names
          end
      end
  end.
Definition zk_List (fuel : nat) : option (result error (list Resource)) := listRecursively fuel [].

Definition handleEvent (e : ZookeeperEvent) : list watch_Event :=
  match ze_Type e with
  | NodeCreated =>
      match upsert_of (ze_Path e) (ze_Data e) with
      | None => []
      | Some res => [{| we_Type := watch_Added; we_Object := Some res |}]
      end
  | NodeChanged =>
      match upsert_of (ze_Path e) (ze_Data e) with
      | None => []
      | Some res => [{| we_Type := watch_Modified; we_Object := Some res |}]
      end
  | NodeDeleted =>
      match delete_of (ze_Path e) with
      | None => []
      | Some res => [{| we_Type := watch_Deleted; we_Object := Some res |}]
      end
  end.
End lister_watcher.

(** ** The store follows the nodes of rules *)

Lemma render_app base p c : render base (p ++ [c]) = render base p +:+ String PathSeparator c.
Proof. unfold render. by rewrite foldl_app. Qed.

(** The parts of the path of a node. *)
Lemma split_render base p : str_split "/" (render base p) = str_split "/" base ++ (p ≫= str_split "/").
Proof.
  induction p as [|c p IH] using rev_ind; [by rewrite app_nil_r|].
  rewrite render_app, bind_app. change "/" with (String PathSeparator ""). rewrite str_split_char_app. change (String PathSeparator "") with "/".
  rewrite IH. csimpl. by rewrite app_nil_r, <-app_assoc.
Qed.

Lemma split_pieces_length p : (List.length p ≤ List.length (p ≫= str_split "/"))%nat.
Proof.
  induction p as [|c p IH]; [done|]. csimpl. rewrite length_app. cbn [List.length].
  pose proof (str_split_nonempty "/" c). destruct (str_split "/" c); [done|]. cbn. lia.
Qed.

Lemma split_single c x : str_split "/" c = [x] → no_sep c ∧ x = c.
Proof.
  intros Hs. destruct (str_contains PathSeparator c) eqn:Hc; [|unfold no_sep; rewrite (str_split_char_whole PathSeparator c Hc : str_split "/" c = [c]) in Hs; split; [done|congruence]].
  exfalso. destruct (str_index PathSeparator c) as [i|] eqn:Hi; [|apply str_index_None in Hi; congruence].
  apply str_index_Some in Hi as [Hcut Hn]. rewrite Hcut in Hs. change "/" with (String PathSeparator "") in Hs at 1. rewrite (str_split_char PathSeparator) in Hs by done.
  injection Hs as _ Hs. by apply str_split_nonempty in Hs.
Qed.

Section mirror.
Context (lw : ListerWatcher) (key : path → option string).
Context (upsert_key : ∀ p d, ResourceKey <$> upsert_of lw p d = key p).
Context (delete_key : ∀ p, ResourceKey <$> delete_of lw p = key p).
Context (key_inj : ∀ p q k, key p = Some k → key q = Some k → p = q).

(** The store [m] has the resources of the nodes of [t]. *)
Definition mirrors (m : gmap string Resource) (t : tree) : Prop :=
  ∀ k r, m !! k = Some r ↔ ∃ p d, key p = Some k ∧ t !! p = Some d ∧ upsert_of lw p d = Some r.

Lemma mirrors_at m t p k : mirrors m t → key p = Some k → m !! k = t !! p ≫= upsert_of lw p.
Proof using key_inj.
  intros Hm Hk. apply option_eq. intros r. rewrite (Hm k r), bind_Some. split.
  - intros (q & d & Hq & Hd & Hu). rewrite (key_inj p q k) by done. by exists d.
  - intros (d & Hd & Hu). by exists p, d.
Qed.

Lemma mirrors_update m t e : mirrors m t →
  mirrors (foldl replay_event m (handleEvent lw e)) (updated t (update_of e)).
Proof using upsert_key delete_key key_inj.
  intros Hm. destruct e as [typ p data leaf].
  assert (Hrest : ∀ o k r, key p ≠ Some k → (m !! k = Some r ↔ ∃ q d, key q = Some k ∧ partial_alter (λ _, o) p t !! q = Some d ∧ upsert_of lw q d = Some r)).
  { intros o k r Hne. rewrite (Hm k r). split; intros (q & d & Hq & Hd & Hu); exists q, d;
      (assert (p ≠ q) by congruence); by rewrite lookup_partial_alter_ne in *. }
  assert (Hat : ∀ o k r, key p = Some k → (o ≫= upsert_of lw p = Some r ↔ ∃ q d, key q = Some k ∧ partial_alter (λ _, o) p t !! q = Some d ∧ upsert_of lw q d = Some r)).
  { intros o k r Hk. rewrite bind_Some. split.
    - intros (d & -> & Hu). exists p, d. by rewrite lookup_partial_alter_eq.
    - intros (q & d & Hq & Hd & Hu). rewrite <-(key_inj p q k) in * by done. rewrite lookup_partial_alter_eq in Hd. by exists d. }
  unfold updated, update_of, handleEvent. cbn [ze_Type ze_Path ze_Data fst snd].
  intros k r. destruct (decide (key p = Some k)) as [Hk|Hk].
  - rewrite <-Hat by done. pose proof (upsert_key p data) as Hu. pose proof (delete_key p) as Hd. rewrite Hk in Hu, Hd.
    apply fmap_Some in Hu as (u & Hu & ->). apply fmap_Some in Hd as (d & Hd & Hdk).
    destruct typ; rewrite ?Hu, ?Hd; cbn; [by rewrite lookup_insert_eq, Hu|by rewrite <-Hdk, lookup_delete_eq|by rewrite lookup_insert_eq, Hu].
  - rewrite <-Hrest by done. pose proof (upsert_key p data) as Hu. pose proof (delete_key p) as Hd.
    destruct typ; [destruct (upsert_of lw p data) as [u|]|destruct (delete_of lw p) as [u|]|destruct (upsert_of lw p data) as [u|]];
      cbn in *; try done; rewrite ?lookup_insert_ne, ?lookup_delete_ne by congruence; done.
Qed.

Lemma mirrors_replay es : mirrors (replay (es ≫= handleEvent lw)) (mirror es).
Proof using upsert_key delete_key key_inj.
  unfold replay, mirror. assert (H0 : mirrors ∅ ∅) by (intros k r; rewrite lookup_empty; split; [done|by intros (p & d & _ & ? & _)]).
  revert H0. generalize (∅ : gmap string Resource) (∅ : tree). induction es as [|e es IH]; intros m t Hm; [done|].
  csimpl. rewrite foldl_app. by apply IH, mirrors_update.
Qed.
End mirror.

(** ** A listing reads the whole tree *)
Definition no_node : error := ErrorText "zk: node does not exist".
Definition tree_Get (t : tree) (p : path) : result error string := match t !! p with Some d => Ok d | None => Err no_node end.
Definition tree_Children (t : tree) (p : path) : result error (list string) :=
  match t !! p with Some _ => Ok (children t p) | None => Err no_node end.

Section listing.
Context (lw : ListerWatcher) (t : tree) (Ht : closed t).
Definition listed_at (p : path) : option Resource := t !! p ≫= upsert_of lw p.

Lemma list_loop fuel qs res : (∀ q, q ∈ qs → ∃ l, listRecursively lw (tree_Get t) (tree_Children t) fuel q = Some (Ok l) ∧ l ≡ₚ omap listed_at (under t q)) →
  ∀ p names, qs = (λ c, p ++ [c]) <$> names →
  ∃ l, foldl (λ acc c, r ← acc;
          match r with
          | Err e => Some (Err e)
          | Ok resList => (λ r, (λ resources, resList ++ resources) <$> r) <$> listRecursively lw (tree_Get t) (tree_Children t) fuel (p ++ [c])
          end) (Some (Ok res)) names = Some (Ok (res ++ l)) ∧ l ≡ₚ omap listed_at (qs ≫= under t).
Proof using.
  intros Hq p names ->. revert res. induction names as [|c names IH]; intros res; [exists []; split; [by rewrite app_nil_r|done]|].
  destruct (Hq (p ++ [c])) as (l1 & Hl1 & Hp1); [csimpl; left|]. cbn [foldl]. cbn [mbind option_bind]. rewrite Hl1. cbn [fmap option_fmap option_map result_fmap].
  destruct IH with (res := res ++ l1) as (l2 & -> & Hp2); [intros q Hin; apply Hq; csimpl; by right|].
  exists (l1 ++ l2). split; [by rewrite (assoc_L (++))|]. csimpl. by rewrite omap_app, Hp1, Hp2.
Qed.

(** One level of the tree per unit of fuel. *)
Lemma listRecursively_lists fuel p : p ∈ dom t → (∀ q, q ∈ dom t → List.length q < List.length p + fuel)%nat →
  ∃ l, listRecursively lw (tree_Get t) (tree_Children t) fuel p = Some (Ok l) ∧ l ≡ₚ omap listed_at (under t p).
Proof using Ht.
  revert p. induction fuel as [|fuel IH]; intros p Hp Hf; [specialize (Hf p Hp); lia|].
  pose proof Hp as [d Hd]%elem_of_dom. cbn [listRecursively]. unfold tree_Get at 1, tree_Children at 1. rewrite Hd.
  destruct (list_loop fuel ((λ c, p ++ [c]) <$> children t p) (match upsert_of lw p d with Some r => [r] | None => [] end)) with (p := p) (names := children t p)
    as (l & -> & Hl); [|done|].
  - intros q (c & -> & Hc%elem_of_children)%list_elem_of_fmap. apply IH; [done|]. intros q Hq. specialize (Hf q Hq). rewrite length_app. cbn. lia.
  - eexists. split; [done|]. rewrite (under_children t p Ht Hp). cbn [omap list_omap]. unfold listed_at at 1. rewrite Hd. cbn [mbind option_bind].
    rewrite Hl. by destruct (upsert_of lw p d).
Qed.
End listing.

(** ** Rules *)
Definition config_watcher (mesh zkAddr : string) : ListerWatcher :=
  {| lw_basePath := "/dubbo/config"; lw_rk := ZKConfigKind; lw_mesh := mesh; lw_zkAddr := zkAddr;
     lw_toUpsertResourceFunc := toUpsertZKConfigResource; lw_toDeleteResourceFunc := toDeleteZKConfigResource |}.
Definition config_resource (mesh name data : string) : Resource :=
  new_resource_of name mesh (ZKConfigSpec (Some {| zc_NodeName := name; zc_NodeData := data |})).
Definition config_key (mesh : string) (p : path) : option string :=
  match p with [c] => if decide (no_sep c) then Some (BuildResourceKey mesh c) else None | _ => None end.

(** The nodes right below the base path are the rules. *)
Lemma config_parts (f : string → Resource) p :
  match str_split "/" (render "/dubbo/config" p) with [_; _; _; name] => Some (f name) | _ => None end =
  match p with [c] => if decide (no_sep c) then Some (f c) else None | _ => None end.
Proof.
  rewrite split_render. change (str_split "/" "/dubbo/config") with ["";"dubbo";"config"]. cbn [app].
  destruct p as [|c [|c2 p]]; [done| |].
  - cbn [mbind list_bind]. rewrite app_nil_r. destruct (str_split "/" c) as [|x [|y l]] eqn:Hs.
    + by apply str_split_nonempty in Hs.
    + apply split_single in Hs as [Hc ->]. by rewrite decide_True.
    + rewrite decide_False; [done|]. intros Hc. change "/" with (String PathSeparator "") in Hs.
      by rewrite (str_split_char_whole PathSeparator c Hc) in Hs.
  - pose proof (split_pieces_length (c :: c2 :: p)) as Hlen. cbn [List.length] in Hlen.
    destruct ((c :: c2 :: p) ≫= str_split "/") as [|? [|? ?]]; cbn in Hlen; [lia|lia|done].
Qed.

Lemma config_upsert mesh addr p data : upsert_of (config_watcher mesh addr) p data =
  match p with [c] => if decide (no_sep c) then Some (config_resource mesh c data) else None | _ => None end.
Proof. apply (config_parts (λ name, config_resource mesh name data)). Qed.
Lemma config_delete mesh addr p : delete_of (config_watcher mesh addr) p =
  match p with [c] => if decide (no_sep c) then Some (config_resource mesh c "") else None | _ => None end.
Proof. apply (config_parts (λ name, config_resource mesh name "")). Qed.

Lemma config_mirrors mesh addr es :
  mirrors (config_watcher mesh addr) (config_key mesh) (replay (es ≫= handleEvent (config_watcher mesh addr))) (mirror es).
Proof.
  apply mirrors_replay.
  - intros p d. rewrite config_upsert. unfold config_key. destruct p as [|c [|]]; [done| |done]. by case_decide.
  - intros p. rewrite config_delete. unfold config_key. destruct p as [|c [|]]; [done| |done]. by case_decide.
  - intros [|c [|]] [|c' [|]] k; cbn; try done. repeat case_decide; try done. intros [= <-] Hk.
    unfold BuildResourceKey in Hk. injection Hk as Hk. apply (inj (String.append mesh)) in Hk. congruence.
Qed.

(** C17: the rule nodes of ZooKeeper are in the store. The nodes of the tree are
    set, created and removed one at a time, each once the goroutines of the
    watcher have come to rest ([child_missed] shows what a creation at another
    time can lose). Then, at rest, the events the lister-watcher has sent leave
    in the store exactly one resource for every direct child of /dubbo/config
    whose name has no separator, under its name and with its data, and none for
    deeper nodes; and a listing of the tree at that moment, with a unit of fuel
    per level, succeeds with the same resources. *)
Theorem rule_nodes_mirrored mesh addr t w fuel :
  closed t → run t w → at_rest w → (∀ q, q ∈ dom (rw_tree w) → (List.length q < fuel)%nat) →
  let lw := config_watcher mesh addr in
  let store := replay (rw_eventChan w ≫= handleEvent lw) in
  (∀ k r, store !! k = Some r ↔ ∃ name data, no_sep name ∧ rw_tree w !! [name] = Some data ∧
     k = BuildResourceKey mesh name ∧ r = config_resource mesh name data) ∧
  ∃ l, zk_List lw (tree_Get (rw_tree w)) (tree_Children (rw_tree w)) fuel = Some (Ok l) ∧
    ∀ r, r ∈ l ↔ store !! ResourceKey r = Some r.
Proof.
  intros Hc Hr Hb Hf lw store. pose proof (run_settling t w Hc Hr) as Hs. destruct (settled w Hs Hb) as [Hm _].
  assert (Hstore : ∀ k r, store !! k = Some r ↔ ∃ name data, no_sep name ∧ rw_tree w !! [name] = Some data ∧
     k = BuildResourceKey mesh name ∧ r = config_resource mesh name data).
  { intros k r. pose proof (config_mirrors mesh addr (rw_eventChan w) k r) as Hk. rewrite Hm in Hk. unfold store, lw. rewrite Hk. split.
    - intros (p & d & Hp & Hd & Hu). rewrite config_upsert in Hu. destruct p as [|c [|]]; [done| |done]. cbn in Hp.
      case_decide; [|done]. exists c, d. split_and!; [done|done|congruence|congruence].
    - intros (name & d & Hn & Hd & -> & ->). exists [name], d. rewrite config_upsert. cbn. by rewrite !decide_True by done. }
  split; [done|]. destruct (se_closed _ Hs) as [Hroot _].
  destruct (listRecursively_lists lw (rw_tree w) (se_closed _ Hs) fuel [] Hroot) as (l & Hl & Hp); [intros q Hq; by apply Hf|].
  exists l. split; [done|]. intros r. rewrite Hp, list_elem_of_omap, Hstore. unfold listed_at. split.
  - intros (p & Hp' & (d & Hd & Hu)%bind_Some). unfold lw in Hu. rewrite config_upsert in Hu. destruct p as [|c [|]]; [done| |done].
    case_decide; [|done]. exists c, d. split_and!; [done|done| |congruence]. by injection Hu as <-.
  - intros (name & d & Hn & Hd & _ & ->). exists [name]. split; [apply elem_of_under; split; [by apply elem_of_dom_2 in Hd|apply prefix_nil]|].
    rewrite Hd. cbn [mbind option_bind]. unfold lw. rewrite config_upsert. by rewrite decide_True.
Qed.

Module ZkListerWatchExample.
Import ZkSettlingExample.

(** The run of [ZkSettlingExample], where the node shop has a child. *)
Lemma rule_nodes_mirrored_witness :
  replay (rw_eventChan grown ≫= handleEvent (config_watcher "prod" "zk:2181")) !! "prod/shop" = Some (config_resource "prod" "shop" "1").
Proof.
  destruct (rule_nodes_mirrored "prod" "zk:2181" small grown 3 small_closed grown_run grown_rest) as [Hs _].
  - intros q Hq. apply (proj2 (elem_of_keys (rw_tree grown) q)) in Hq. vm_compute in Hq.
    repeat (apply elem_of_cons in Hq as [->|Hq]; [cbn; lia|]). by apply not_elem_of_nil in Hq.
  - apply Hs. exists "shop", "1". split_and!; [vm_compute; reflexivity|vm_compute; reflexivity|reflexivity|reflexivity].
Defined.

(** The deletion of an instance whose name has no colon panics. *)
Lemma deletion_panics : toDeleteRPCInstanceResource "prod" "/services/shop/5f1c" = Err index_out_of_range.
Proof. vm_compute. reflexivity. Qed.

End ZkListerWatchExample.
