(* ===== verification/LifecycleEvents.v ===== *)
(** pkg/core/discovery/subscriber/lifecycle_event.go: the events of Kubernetes
    that the informer stored are filed under a name that sorts by time, in the
    mesh of the instance they concern. *)
From S2P Require Import Prelude GoStrings Errors Resource Libs Indexers Store Queries Informer EventBus Subscribers.
From Stdlib Require Import Ascii.

Open Scope string_scope.
Open Scope list_scope.
Open Scope Z_scope.

Definition ByRuntimeInstanceNameIndex : string := "idx_rt_instance_name".

(** [fmt.Sprintf("%019d", z)]: the sign counts for the width. *)
Fixpoint zeros (n : nat) : string := match n with O => "" | S n => String "0" (zeros n) end.
Definition padded (width : nat) (s : string) : string := zeros (width - String.length s) +:+ s.
Definition sprintf_019d (z : Z) : string :=
  if decide (z < 0) then "-" +:+ padded 18 (pretty (Z.to_N (- z))) else padded 19 (pretty (Z.to_N z)).

Definition lifecycle_spec (r : Resource) : option LifecycleEvent :=
  match res_spec r with LifecycleEventSpec s => s | _ => None end.

Definition renamed (r : Resource) (name : string) : Resource :=
  {| res_meta := {| meta_Name := name; meta_Labels := meta_Labels (res_meta r);
                    meta_Annotations := meta_Annotations (res_meta r) |};
     res_Mesh := res_Mesh r; res_spec := res_spec r |}.
Definition in_mesh_of (r : Resource) (mesh : string) : Resource :=
  {| res_meta := res_meta r; res_Mesh := mesh; res_spec := res_spec r |}.

Definition empty_event : LifecycleEvent :=
  {| le_Namespace := ""; le_Reason := ""; le_Message := ""; le_Type := ""; le_InvolvedObjKind := ""; le_InvolvedObjName := "";
     le_SourceComponent := ""; le_SourceHost := ""; le_FirstTimestamp := ""; le_LastTimestamp := ""; le_Count := 0;
     le_EventSource := "" |}.
Definition NewLifecycleEventResourceWithAttributes (name mesh : string) : Resource :=
  {| res_meta := {| meta_Name := name; meta_Labels := Some ∅; meta_Annotations := None |};
     res_Mesh := mesh; res_spec := LifecycleEventSpec (Some empty_event) |}.

(** The clock and [time.Parse] in nanoseconds. *)
Section names.
Context (parse_time : string → option Z) (now : Z).

Definition timestamp (s : LifecycleEvent) : Z :=
  let t := if decide (le_LastTimestamp s ≠ "") then default 0 (parse_time (le_LastTimestamp s)) else 0 in
  if decide (t = 0) then now else t.

Definition sortablePrefix (t : Z) : string := sprintf_019d (i64 (i64_max - t)).

Definition prefixTimestampKey (r : Resource) (s : LifecycleEvent) : Resource :=
  renamed r (sortablePrefix (timestamp s) +:+ "-" +:+ res_Name r).
End names.

Section subscriber.
Context {St : Type} `{ResourceStore St}.
Context (parse_time : string → option Z) (now : Z).
(** Whether an identifier of Dubbo applications is configured. *)
Context (identifier : bool).
(** The event the informer stored and the event it sent are one object: [touch]
    is what a change of the sent one does to the entry of a store under the
    given key. A store that keeps copies is left as it is. *)
Context (touch : St → string → Resource → St).

Definition touching (key : string) (r : Resource) : M St unit := λ w,
  ({| w_stores := alter (λ s, touch s key r) LifecycleEventKind (w_stores w); w_sent := w_sent w |}, Ok ()).

(** The first instance of the name that lives in another mesh. *)
Definition other_mesh (mesh : string) (rts : list Resource) : option string :=
  head (filter (λ x, x ≠ "" ∧ x ≠ mesh) (res_Mesh <$> filter (λ r, res_kind r = RuntimeInstanceKind) rts)).

(** Failures are logged. *)
Definition alignMeshFromRuntimeInstance (r : Resource) (s : LifecycleEvent) : M St Resource := λ w,
  match reading RuntimeInstanceKind
          (λ st, st_ListByIndexes st [equals ByRuntimeInstanceNameIndex (le_InvolvedObjName s)]) w with
  | (w, Err _) => (w, Ok r)
  | (w, Ok rts) =>
      match other_mesh (res_Mesh r) rts with
      | None => (w, Ok r)
      | Some mesh => (_ ← attempt (writing LifecycleEventKind st_Delete r); mret (in_mesh_of r mesh)) w
      end
  end.

Definition writeEvent (r : Resource) (s : LifecycleEvent) : M St unit :=
  _ ← reading LifecycleEventKind (λ _, Ok ());
  if decide (le_EventSource s = "KUBERNETES") then
    let r' := prefixTimestampKey parse_time now r s in
    _ ← touching (ResourceKey r) r';
    _ ← writing LifecycleEventKind st_Add r';
    if decide (res_Name r ≠ "") then
      _ ← attempt (writing LifecycleEventKind st_Delete (NewLifecycleEventResourceWithAttributes (res_Name r) (res_Mesh r)));
      mret ()
    else mret ()
  else writing LifecycleEventKind st_Add r.

Definition processUpsert (ev : Event) : M St unit :=
  match ev_newObj ev with
  | None => mret ()
  | Some r =>
      match lifecycle_spec r with
      | None => mret ()
      | Some s =>
          if decide (le_EventSource s = "REGISTRY") then writeEvent r s
          else if identifier then
            if decide (le_InvolvedObjKind s ≠ "Pod") then mret ()
            else r ← alignMeshFromRuntimeInstance r s; writeEvent r s
          else mret ()
      end
  end.

(** A failed deletion is logged. *)
Definition processDelete (ev : Event) : M St unit :=
  match ev_oldObj ev with
  | None => mret ()
  | Some r =>
      if decide (res_kind r = LifecycleEventKind) then
        _ ← reading LifecycleEventKind (λ _, Ok ());
        _ ← attempt (writing LifecycleEventKind st_Delete r); mret ()
      else mret ()
  end.

Definition ProcessEvent (ev : Event) : M St unit :=
  match ev_typ ev with Deleted => processDelete ev | _ => processUpsert ev end.
End subscriber.

(** ** Names sort by time, the latest first *)
Fixpoint digits (w : nat) (x : N) : string :=
  match w with O => "" | S w => digits w (x `div` 10) +:+ String (pretty_N_char (x `mod` 10)) "" end.

Lemma zeros_snoc n : zeros n +:+ "0" = zeros (S n).
Proof. induction n as [|n IH]; [done|]. exact (f_equal (String "0") IH). Qed.
Lemma digits_0 w : digits w 0 = zeros w.
Proof. induction w as [|w IH]; [done|]. cbn [digits]. change (0 `div` 10)%N with 0%N. rewrite IH. apply zeros_snoc. Qed.

Lemma pretty_go_digits w x s : (x < 10 ^ N.of_nat w)%N →
  ∃ l, pretty_N_go x s = l +:+ s ∧ (String.length l ≤ w)%nat ∧ zeros (w - String.length l) +:+ l = digits w x.
Proof.
  revert x s. induction w as [|w IH]; intros x s Hx.
  - exists "". assert (x = 0%N) as -> by (simpl in Hx; lia). by rewrite pretty_N_go_0.
  - destruct (decide (x = 0%N)) as [->|Hn].
    + exists "". rewrite pretty_N_go_0, digits_0. simpl. split_and!; [done|lia|by rewrite str_app_nil_r].
    + destruct (IH (x `div` 10)%N (String (pretty_N_char (x `mod` 10)) s)) as (l & Hl & Hlen & Hd).
      { apply N.Div0.div_lt_upper_bound. replace (N.of_nat (S w)) with (N.succ (N.of_nat w)) in Hx by lia.
        by rewrite N.pow_succ_r' in Hx. }
      exists (l +:+ String (pretty_N_char (x `mod` 10)) ""). rewrite pretty_N_go_step, Hl, str_length_app by lia.
      split_and!; [by rewrite <-str_app_assoc|simpl; lia|]. cbn [digits String.length].
      rewrite <-Hd, (str_app_assoc (zeros _)). f_equal. f_equal. simpl. f_equal. lia.
Qed.

Lemma padded_digits w x : (x < 10 ^ N.of_nat (S w))%N → padded (S w) (pretty x) = digits (S w) x.
Proof.
  intros Hx. destruct (decide (x = 0%N)) as [->|Hn].
  - rewrite digits_0. change (pretty 0%N) with "0". unfold padded. simpl. rewrite Nat.sub_0_r. apply zeros_snoc.
  - destruct (pretty_go_digits (S w) x "" Hx) as (l & Hl & _ & Hd). rewrite str_app_nil_r in Hl.
    unfold padded, pretty, pretty_N. by rewrite decide_False, Hl.
Qed.

Lemma compare_same p a b : String.compare (p +:+ a) (p +:+ b) = String.compare a b.
Proof. induction p as [|c p IH]; [done|]. simpl. unfold Ascii.compare. by rewrite N.compare_refl. Qed.

Lemma digit_lt d e : (d < e)%N → (e < 10)%N → Ascii.compare (pretty_N_char d) (pretty_N_char e) = Lt.
Proof.
  intros Hd He. assert (Hn : ∃ m n, d = N.of_nat m ∧ e = N.of_nat n ∧ (m < n < 10)%nat).
  { exists (N.to_nat d), (N.to_nat e). lia. }
  destruct Hn as (m & n & -> & -> & Hmn). clear Hd He.
  do 10 (destruct n as [|n]; [do 10 (destruct m as [|m]; [reflexivity || lia|]); lia|]). lia.
Qed.

Lemma digits_compare w x y a b : (x < y)%N → (y < 10 ^ N.of_nat w)%N →
  String.compare (digits w x +:+ a) (digits w y +:+ b) = Lt.
Proof.
  revert x y a b. induction w as [|w IH]; intros x y a b Hxy Hy; [simpl in Hy; lia|].
  cbn [digits]. rewrite <-!str_app_assoc.
  assert (Hy' : (y `div` 10 < 10 ^ N.of_nat w)%N).
  { apply N.Div0.div_lt_upper_bound. replace (N.of_nat (S w)) with (N.succ (N.of_nat w)) in Hy by lia.
    by rewrite N.pow_succ_r' in Hy. }
  pose proof (N.Div0.div_mod x 10) as Ex. pose proof (N.Div0.div_mod y 10) as Ey.
  pose proof (N.mod_lt x 10 ltac:(done)) as Mx. pose proof (N.mod_lt y 10 ltac:(done)) as My.
  destruct (decide (x `div` 10 < y `div` 10)%N) as [Hq|Hq]; [by apply IH|].
  assert (Heq : (x `div` 10 = y `div` 10)%N).
  { apply N.le_antisymm; [|by apply N.nlt_ge]. apply N.Div0.div_le_mono. by apply N.lt_le_incl. }
  rewrite Heq, compare_same. simpl. rewrite digit_lt; [done| |done].
  revert Ex Ey Heq Hxy. clear. generalize (x `mod` 10)%N, (y `mod` 10)%N, (x `div` 10)%N, (y `div` 10)%N. lia.
Qed.

Lemma ten_19 : Z.of_N (10 ^ N.of_nat 19) = 10000000000000000000.
Proof. reflexivity. Qed.
Lemma below_ten_19 z : 0 <= z <= i64_max → (Z.to_N z < 10 ^ N.of_nat 19)%N.
Proof. intros Hz. apply N2Z.inj_lt. rewrite ten_19, Z2N.id by lia. unfold i64_max in Hz. lia. Qed.

Lemma sortablePrefix_digits t : 0 <= t <= i64_max → sortablePrefix t = digits 19 (Z.to_N (i64_max - t)).
Proof.
  intros Ht. unfold sortablePrefix. rewrite i64_id by (unfold in_i64, i64_min, i64_max in *; lia).
  unfold sprintf_019d. rewrite decide_False by lia. apply (padded_digits 18), below_ten_19. lia.
Qed.

(** A later event sorts before an earlier one, whatever their names were. *)
Theorem latest_first parse_time now r s r' s' :
  res_Mesh r = res_Mesh r' → timestamp parse_time now s < timestamp parse_time now s' →
  0 <= timestamp parse_time now s → timestamp parse_time now s' <= i64_max →
  String.ltb (ResourceKey (prefixTimestampKey parse_time now r' s')) (ResourceKey (prefixTimestampKey parse_time now r s)) = true.
Proof.
  intros Hm Ht H0 H1. unfold String.ltb, ResourceKey, BuildResourceKey, prefixTimestampKey, res_Name.
  cbn [renamed res_Mesh res_meta meta_Name]. rewrite Hm, compare_same, !sortablePrefix_digits by lia.
  set (a := digits 19 _). set (b := digits 19 _).
  assert (Hab : ∀ u v, String.compare (a +:+ u) (b +:+ v) = Lt).
  { intros u v. apply digits_compare; [unfold i64_max in *; lia|]. apply below_ten_19. lia. }
  clearbody a b. simpl. by rewrite Hab.
Qed.

(** ** Over a store that keeps copies, or one that keeps the objects *)
Section filed.
Context {St : Type} `{ResourceStoreQueries St}.
Context (parse_time : string → option Z) (now : Z) (touch : St → string → Resource → St).
(** The renamed object is added under its new key and the old key is deleted,
    with the effect this has on a store that keeps copies, although the entry
    under the old key may have become the renamed object; and deleting a key that
    is not stored changes nothing, whatever it returns. *)
Context (Hrename : ∀ s r' old, st_ok s → res_kind r' = st_kind s → ResourceKey r' ≠ ResourceKey old →
     st_items s !! ResourceKey r' = None →
     ∃ s1 s2 err, st_Add (touch s (ResourceKey old) r') (ResourceObj r') = (s1, None) ∧
       st_Delete s1 (ResourceObj old) = (s2, err) ∧
       st_ok s2 ∧ st_kind s2 = st_kind s ∧ st_indexers s2 = st_indexers s ∧
       st_items s2 = delete (ResourceKey old) (<[ResourceKey r' := r']> (st_items s)))
  (Habsent : ∀ s r, st_ok s → st_items s !! ResourceKey r = None → ∃ s' err, st_Delete s (ResourceObj r) = (s', err) ∧
     st_ok s' ∧ st_kind s' = st_kind s ∧ st_indexers s' = st_indexers s ∧ st_items s' = st_items s).

Abbreviation E := LifecycleEventKind.
Implicit Types w : world St.

Lemma attempt_delete w r : world_ok w → E ∈ dom (w_stores w) →
  ∃ w' b, attempt (writing E st_Delete r) w = (w', Ok b) ∧
    changed w w' E (delete (ResourceKey r) (items w E)) [].
Proof using All.
  intros Hw Hd. unfold attempt. destruct (items w E !! ResourceKey r) as [r'|] eqn:Hr.
  - destruct (writing_Delete w E r Hw Hd ltac:(by eexists)) as (w' & -> & Hc). by exists w', true.
  - destruct (world_store w _ Hw Hd) as (s & Hs & Hok & Hk & Hi & _).
    destruct (Habsent s r Hok ltac:(by rewrite Hi)) as (s' & err & Ha & ? & ? & ? & Hi').
    unfold writing, ResourceKindRoute. rewrite Hs, Ha. eexists _, _. split; [done|].
    rewrite delete_id by done. eapply store_changed; try done. by rewrite Hi', Hi.
Qed.

(** The three steps of the renaming. *)
Lemma renaming w r' old : world_ok w → E ∈ dom (w_stores w) → res_kind r' = E →
  ResourceKey r' ≠ ResourceKey old → items w E !! ResourceKey r' = None →
  ∃ w1 w2 b, (_ ← touching touch (ResourceKey old) r'; writing E st_Add r') w = (w1, Ok ()) ∧
    attempt (writing E st_Delete old) w1 = (w2, Ok b) ∧
    changed w w2 E (delete (ResourceKey old) (<[ResourceKey r' := r']> (items w E))) [].
Proof using All.
  intros Hw Hd Hk Hne Hnew. destruct (world_store w _ Hw Hd) as (s & Hs & Hok & Hks & Hi & _).
  destruct (Hrename s r' old Hok) as (s1 & s2 & err & Ha & Hdel & Hok2 & Hk2 & Hx2 & Hi2);
    [congruence|done|by rewrite Hi|].
  rewrite (bind_ok _ _ w {| w_stores := alter (λ s, touch s (ResourceKey old) r') E (w_stores w); w_sent := w_sent w |} ()) by done.
  unfold attempt, writing, ResourceKindRoute. cbn [w_stores w_sent]. rewrite lookup_alter_eq, Hs. cbn [fmap option_fmap option_map].
  rewrite Ha. eexists _, _, _. split; [reflexivity|]. cbn [w_stores w_sent]. rewrite lookup_insert_eq, Hdel.
  split; [reflexivity|]. rewrite insert_insert_eq, <-Hi.
  assert (Hst : <[E := s2]> (alter (λ s, touch s (ResourceKey old) r') E (w_stores w)) = <[E := s2]> (w_stores w)).
  { apply map_eq. intros k. destruct (decide (k = E)) as [->|Hke]; [by rewrite !lookup_insert_eq|].
    by rewrite !lookup_insert_ne, lookup_alter_ne. }
  rewrite Hst. by eapply store_changed.
Qed.

Lemma reading_routed w : E ∈ dom (w_stores w) → reading E (λ _, Ok ()) w = (w, Ok ()).
Proof. intros (s & Hs)%elem_of_dom. unfold reading, ResourceKindRoute. by rewrite Hs. Qed.

(** Where an event is filed. *)
Definition filed_as (s : LifecycleEvent) (mesh : string) (r : Resource) : Resource :=
  prefixTimestampKey parse_time now (in_mesh_of r mesh) s.

Lemma renamed_apart r s : ResourceKey (prefixTimestampKey parse_time now r s) ≠ ResourceKey r.
Proof using.
  intros Hk%(f_equal String.length). revert Hk. unfold ResourceKey, BuildResourceKey, prefixTimestampKey, res_Name.
  cbn [renamed res_Mesh res_meta meta_Name]. rewrite str_length_app, str_length_app. cbn [String.length].
  rewrite !str_length_app. cbn [String.length]. lia.
Qed.

Lemma write_kubernetes w r s : world_ok w → E ∈ dom (w_stores w) → lifecycle_spec r = Some s →
  le_EventSource s = "KUBERNETES" → res_Name r ≠ "" →
  items w E !! ResourceKey (prefixTimestampKey parse_time now r s) = None →
  ∃ w', writeEvent parse_time now touch r s w = (w', Ok ()) ∧
    changed w w' E (delete (ResourceKey r)
      (<[ResourceKey (prefixTimestampKey parse_time now r s) := prefixTimestampKey parse_time now r s]> (items w E))) [].
Proof using All.
  intros Hw Hd Hs Hk Hn Hnew. unfold writeEvent. rewrite (bind_ok _ _ _ _ _ (reading_routed w Hd)).
  rewrite decide_True by done. set (r' := prefixTimestampKey parse_time now r s) in *.
  assert (Hkr : res_kind r' = E).
  { unfold lifecycle_spec in Hs. unfold res_kind. simpl. by destruct (res_spec r). }
  destruct (renaming w r' (NewLifecycleEventResourceWithAttributes (res_Name r) (res_Mesh r)) Hw Hd Hkr
    (renamed_apart r s) Hnew) as (w1 & w2 & b & Ha & Hdel & Hc).
  assert (Hadd : ∀ f : unit → M St unit, (_ ← touching touch (ResourceKey r) r'; _ ← writing E st_Add r'; f ()) w = f () w1).
  { intros f. exact (bind_ok (writing E st_Add r') (λ _, f ()) _ _ _ Ha). }
  cbv zeta. rewrite (Hadd (λ _, _)). rewrite decide_True by done.
  eexists. split; [by erewrite bind_ok by exact Hdel|]. exact Hc.
Qed.

(** The instances with the name of the pod. *)
Definition instances_named w (pod : string) : list Resource :=
  query (items w RuntimeInstanceKind) (all_are (indexers w RuntimeInstanceKind) [(ByRuntimeInstanceNameIndex, pod)]).
Definition resolved_mesh w (r : Resource) (s : LifecycleEvent) : string :=
  default (res_Mesh r) (other_mesh (res_Mesh r) (instances_named w (le_InvolvedObjName s))).

Lemma align_resolves w r s : world_ok w → E ∈ dom (w_stores w) → RuntimeInstanceKind ∈ dom (w_stores w) →
  is_Some (indexers w RuntimeInstanceKind !! ByRuntimeInstanceNameIndex) →
  ∃ w', alignMeshFromRuntimeInstance r s w = (w', Ok (in_mesh_of r (resolved_mesh w r s))) ∧
    changed w w' E (if decide (resolved_mesh w r s = res_Mesh r) then items w E
                    else delete (ResourceKey r) (items w E)) [].
Proof using All.
  intros Hw Hd Hrd Hx. unfold alignMeshFromRuntimeInstance.
  destruct (world_store w _ Hw Hrd) as (st & Hs & Hok & _ & Hi & Hxs).
  pose proof (st_ListByIndexes_spec st [(ByRuntimeInstanceNameIndex, le_InvolvedObjName s)] Hok) as Hl. csimpl in Hl.
  unfold reading, ResourceKindRoute. rewrite Hs. cbn [mbind result_bind].
  rewrite Hl; [|done|constructor; [by rewrite Hxs|constructor]]. rewrite Hi, Hxs.
  fold (instances_named w (le_InvolvedObjName s)).
  unfold resolved_mesh. destruct (other_mesh _ _) as [mesh|] eqn:Hm; cbn [default].
  - assert (Hne : mesh ≠ res_Mesh r).
    { unfold other_mesh in Hm. apply head_Some_elem_of, list_elem_of_filter in Hm. tauto. }
    rewrite decide_False by done. destruct (attempt_delete w r Hw Hd) as (w' & b & Hdel & Hc).
    exists w'. split; [|done]. by rewrite (bind_ok _ _ _ _ _ Hdel).
  - rewrite decide_True by done. exists w. split; [|by apply changed_refl]. by destruct r.
Qed.

(** C20: a Kubernetes event of a pod, with a name, is filed once when an
    identifier of Dubbo applications is configured and the new key is free:
    under the name that sorts by its time, in the mesh of a runtime instance
    with the name of its pod that lives in another mesh, or else in its own, and
    no longer under the key the informer gave it. Nothing else changes. This
    holds of a store that keeps copies of what it is given and of one that keeps
    the objects, whose entry becomes the renamed event before it is added again
    ([copies_rename], [in_place_renames]). *)
Theorem kubernetes_event_filed w typ r s : typ ≠ Deleted → world_ok w → E ∈ dom (w_stores w) →
  RuntimeInstanceKind ∈ dom (w_stores w) → is_Some (indexers w RuntimeInstanceKind !! ByRuntimeInstanceNameIndex) →
  lifecycle_spec r = Some s → le_EventSource s = "KUBERNETES" → le_InvolvedObjKind s = "Pod" → res_Name r ≠ "" →
  let r' := filed_as s (resolved_mesh w r s) r in
  items w E !! ResourceKey r' = None →
  ∃ w', ProcessEvent parse_time now true touch (NewResourceChangedEvent typ None (Some r)) w = (w', Ok ()) ∧
    changed w w' E (delete (BuildResourceKey (resolved_mesh w r s) (res_Name r))
      (<[ResourceKey r' := r']>
         (if decide (resolved_mesh w r s = res_Mesh r) then items w E else delete (ResourceKey r) (items w E)))) [].
Proof using All.
  intros Ht Hw Hd Hrd Hx Hs Hk Hp Hn r' Hnew.
  assert (Hrun : ProcessEvent parse_time now true touch (NewResourceChangedEvent typ None (Some r)) w =
    (r ← alignMeshFromRuntimeInstance r s; writeEvent parse_time now touch r s) w).
  { unfold ProcessEvent. cbn [NewResourceChangedEvent ev_typ]. destruct typ; try done;
      unfold processUpsert; cbn [NewResourceChangedEvent ev_newObj]; rewrite Hs, Hk; simpl;
      by rewrite (decide_False (P := _ ≠ "Pod")) by (by rewrite Hp; intros []). }
  rewrite Hrun. destruct (align_resolves w r s Hw Hd Hrd Hx) as (w1 & Ha & Hc). rewrite (bind_ok _ _ _ _ _ Ha).
  destruct (write_kubernetes w1 (in_mesh_of r (resolved_mesh w r s)) s (ch_ok _ _ _ _ _ Hc)) as (w2 & Hwr & Hc2);
    [by rewrite (ch_kinds _ _ _ _ _ Hc)|done|done|done| |].
  { rewrite (ch_items _ _ _ _ _ Hc). case_decide; [done|]. rewrite lookup_delete_None. by right. }
  rewrite Hwr. eexists. split; [done|]. rewrite (ch_items _ _ _ _ _ Hc) in Hc2. exact (changed_trans _ _ _ _ _ _ _ _ Hc Hc2).
Qed.

(** The deletion the informer announces later has the key it gave the event,
    and removes nothing: a filed event stays. *)
Theorem filed_event_stays w r : world_ok w → E ∈ dom (w_stores w) → res_kind r = E →
  items w E !! ResourceKey r = None →
  ∃ w', ProcessEvent parse_time now true touch (NewResourceChangedEvent Deleted (Some r) None) w = (w', Ok ()) ∧
    changed w w' E (items w E) [].
Proof using All.
  intros Hw Hd Hk Hr. unfold ProcessEvent. cbn [NewResourceChangedEvent ev_typ]. unfold processDelete.
  cbn [NewResourceChangedEvent ev_oldObj]. rewrite decide_True by done. rewrite (bind_ok _ _ _ _ _ (reading_routed w Hd)).
  destruct (attempt_delete w r Hw Hd) as (w' & b & Hdel & Hc). rewrite (bind_ok _ _ _ _ _ Hdel).
  rewrite delete_id in Hc by done. by exists w'.
Qed.
End filed.

(** ** A pod of an instance that Nacos lists *)
Module LifecycleExample.
#[local] Existing Instance RefStore.ops.
#[local] Existing Instance RefStore.laws.
#[local] Existing Instance RefStore_queries.

(** A store that keeps copies of what it is given, and one that keeps the
    objects, so that an entry becomes what its object is changed to. *)
Definition copies (s : RefStore.store) (_ : string) (_ : Resource) : RefStore.store := s.
Definition in_place (s : RefStore.store) (key : string) (r : Resource) : RefStore.store :=
  {| RefStore.kind := RefStore.kind s; RefStore.indexers := RefStore.indexers s;
     RefStore.items := alter (λ _, r) key (RefStore.items s) |}.

Definition renames (touch : RefStore.store → string → Resource → RefStore.store) : Prop :=
  ∀ s r' old, st_ok s → res_kind r' = st_kind s → ResourceKey r' ≠ ResourceKey old →
    st_items s !! ResourceKey r' = None →
    ∃ s1 s2 err, st_Add (touch s (ResourceKey old) r') (ResourceObj r') = (s1, None) ∧
      st_Delete s1 (ResourceObj old) = (s2, err) ∧
      st_ok s2 ∧ st_kind s2 = st_kind s ∧ st_indexers s2 = st_indexers s ∧
      st_items s2 = delete (ResourceKey old) (<[ResourceKey r' := r']> (st_items s)).

Lemma delete_same_elsewhere (m m' : gmap string Resource) k k' r : (∀ j, j ≠ k → m !! j = m' !! j) →
  delete k (<[k' := r]> m) = delete k (<[k' := r]> m').
Proof.
  intros Hm. apply map_eq. intros j. destruct (decide (j = k)) as [->|Hj]; [by rewrite !lookup_delete_eq|].
  rewrite !lookup_delete_ne by done. destruct (decide (j = k')) as [->|Hj']; [by rewrite !lookup_insert_eq|].
  rewrite !lookup_insert_ne by done. by apply Hm.
Qed.

Lemma renames_by touch : (∀ s key r, RefStore.kind (touch s key r) = RefStore.kind s ∧
    RefStore.indexers (touch s key r) = RefStore.indexers s ∧
    ∀ j, j ≠ key → RefStore.items (touch s key r) !! j = RefStore.items s !! j) → renames touch.
Proof.
  intros Ht s r old Hok Hk Hne Hnew. simpl in *. destruct (Ht s (ResourceKey old) r) as (Ek & Ex & Ei).
  destruct (touch s (ResourceKey old) r) as [kd ix m]. simpl in *. subst kd ix.
  set (m1 := <[ResourceKey r := r]> m). set (m2 := delete (ResourceKey old) (<[ResourceKey r := r]> (RefStore.items s))).
  assert (Hm : delete (ResourceKey old) m1 = m2) by by apply delete_same_elsewhere.
  assert (Hok2 : ∀ x, x = m2 → RefStore.well_keyed {| RefStore.kind := RefStore.kind s;
      RefStore.indexers := RefStore.indexers s; RefStore.items := x |}).
  { intros x ->. apply map_Forall_delete. by apply map_Forall_insert_2. }
  rewrite Ei, Hnew by done. cbn. exists {| RefStore.kind := RefStore.kind s; RefStore.indexers := RefStore.indexers s;
    RefStore.items := m1 |}.
  destruct (bool_decide (is_Some (m1 !! ResourceKey old))) eqn:Hb; cbn.
  - rewrite Hb. eexists _, _. split_and!; [done..|by apply Hok2|done|done|done].
  - rewrite Hb. eexists _, _. apply bool_decide_eq_false, eq_None_not_Some in Hb.
    split_and!; [done..|apply Hok2; by rewrite <-Hm, delete_id|done|done|]. cbn. by rewrite <-Hm, delete_id.
Qed.

Lemma copies_rename : renames copies.
Proof. by apply renames_by. Qed.
Lemma in_place_renames : renames in_place.
Proof. apply renames_by. intros s key r. split; [done|]. split; [done|]. intros j Hj. simpl. by rewrite lookup_alter_ne. Qed.

Lemma copies_absent (s : RefStore.store) r : st_ok s → st_items s !! ResourceKey r = None →
  ∃ s' err, st_Delete s (ResourceObj r) = (s', err) ∧
     st_ok s' ∧ st_kind s' = st_kind s ∧ st_indexers s' = st_indexers s ∧ st_items s' = st_items s.
Proof.
  intros Hok Hr. simpl in Hr. eexists s, _. split; [|done]. simpl.
  rewrite bool_decide_eq_false_2 by (rewrite Hr; by intros []). reflexivity.
Qed.

Definition restarted : LifecycleEvent :=
  {| le_Namespace := "prod"; le_Reason := "BackOff"; le_Message := "restarting"; le_Type := "Warning";
     le_InvolvedObjKind := "Pod"; le_InvolvedObjName := "shop-1"; le_SourceComponent := "kubelet"; le_SourceHost := "n1";
     le_FirstTimestamp := ""; le_LastTimestamp := "2024-05-01 00:00:00"; le_Count := 3; le_EventSource := "KUBERNETES" |}.
Definition event : Resource :=
  {| res_meta := {| meta_Name := "prod/shop-1.17"; meta_Labels := Some ∅; meta_Annotations := None |};
     res_Mesh := "k8s"; res_spec := LifecycleEventSpec (Some restarted) |}.
Definition pod : Resource :=
  {| res_meta := {| meta_Name := "shop-1"; meta_Labels := None; meta_Annotations := None |};
     res_Mesh := "nacos"; res_spec := RuntimeInstanceSpec (Some
       {| rt_Name := "shop-1"; rt_Ip := "10.0.0.1"; rt_RpcPort := 20880; rt_Image := ""; rt_AppName := "shop";
          rt_CreateTime := ""; rt_StartTime := ""; rt_ReadyTime := ""; rt_Phase := "Running"; rt_WorkloadName := "";
          rt_WorkloadType := ""; rt_Node := ""; rt_Probes := []; rt_Conditions := []; rt_SourceEngine := "k8s";
          rt_SourceEngineType := "kubernetes" |}) |}.
Definition holding (k : ResourceKind) (idx : Indexers) (l : list Resource) : RefStore.store :=
  {| RefStore.kind := k; RefStore.indexers := idx; RefStore.items := list_to_map ((λ r, (ResourceKey r, r)) <$> l) |}.
Definition world_before : world RefStore.store :=
  {| w_stores := {[ LifecycleEventKind := holding LifecycleEventKind ∅ [event];
                    RuntimeInstanceKind := holding RuntimeInstanceKind
                      {[ ByRuntimeInstanceNameIndex := byRuntimeInstanceName ]} [pod] ]};
     w_sent := [] |}.
Definition parse (s : string) : option Z := if decide (s = "") then None else Some 1714521600000000000.

Lemma world_before_ok : world_ok world_before.
Proof.
  intros k s Hs. change ((<[LifecycleEventKind := holding LifecycleEventKind ∅ [event]]> {[ RuntimeInstanceKind :=
    holding RuntimeInstanceKind {[ ByRuntimeInstanceNameIndex := byRuntimeInstanceName ]} [pod] ]} : gmap _ _) !! k = Some s) in Hs.
  apply lookup_insert_Some in Hs as [[<- <-]|[_ [<- <-]%lookup_singleton_Some]]; (split; [|done]);
    intros key r Hr%elem_of_list_to_map_2%list_elem_of_fmap; destruct Hr as (x & [= -> ->] & Hx);
    apply list_elem_of_singleton in Hx as ->; done.
Qed.

(** The event moves to the mesh of the instance, under a name that counts down
    with the time, whichever the store keeps. *)
Lemma kubernetes_event_filed_witness :
  (∃ w', ProcessEvent parse 7 true in_place (NewResourceChangedEvent Added None (Some event)) world_before = (w', Ok ()) ∧
    items w' LifecycleEventKind !! ResourceKey event = None) ∧
  (∃ w', ProcessEvent parse 7 true copies (NewResourceChangedEvent Added None (Some event)) world_before = (w', Ok ()) ∧
    items w' LifecycleEventKind !! ResourceKey event = None) ∧
  match ProcessEvent parse 7 true in_place (NewResourceChangedEvent Added None (Some event)) world_before with
  | (w', _) => (λ r, (res_Mesh r, res_Name r)) <$> (map_to_list (items w' LifecycleEventKind)).*2
  end = [("nacos", "7508850436854775807-prod/shop-1.17")].
Proof.
  assert (Hall : ∀ touch, renames touch →
    ∃ w', ProcessEvent parse 7 true touch (NewResourceChangedEvent Added None (Some event)) world_before = (w', Ok ()) ∧
      items w' LifecycleEventKind !! ResourceKey event = None).
  { intros touch Ht.
    destruct (kubernetes_event_filed parse 7 touch Ht copies_absent world_before Added event restarted)
      as (w' & Hrun & Hc); [discriminate|exact world_before_ok|apply elem_of_dom; by eexists..|by eexists
      |reflexivity|reflexivity|reflexivity|discriminate|vm_compute; reflexivity|].
    exists w'. split; [exact Hrun|]. rewrite (ch_items _ _ _ _ _ Hc). vm_compute. reflexivity. }
  split; [apply Hall, in_place_renames|]. split; [apply Hall, copies_rename|vm_compute; reflexivity].
Defined.
End LifecycleExample.
