(* ===== verification/RuleService.v ===== *)
(** pkg/console/service/rule_version.go: the mutations of traffic rules, each
    recorded in the rule's history before it takes effect, and the rollback to
    a recorded version. The live rules are behind the [ResourceManager]
    interface of pkg/core/manager. *)
From S2P Require Import Prelude GoStrings Errors Resource Libs Indexers Store Versioning Gorm Lock.

Open Scope string_scope.
Open Scope list_scope.
Open Scope Z_scope.

(** pkg/core/manager/manager.go: the operations the service uses. [GetByKey]
    returns [None] when the resource does not exist. *)
Class ResourceManager (M : Type) := {
  rm_GetByKey : M → ResourceKind → string → result error (option Resource);
  rm_Add : M → Resource → M * option error;
  rm_Update : M → Resource → M * option error;
  rm_Upsert : M → Resource → M * option error;
  rm_DeleteByKey : M → ResourceKind → string → string → M * option error;
}.

Record RuleMutationOptions := { opts_Author : string }.
Record RuleRef := { ref_Kind : ResourceKind; ref_Mesh : string; ref_Name : string }.
Record RollbackResult := {
  rb_RolledBackFromVersionNo : Z; rb_VersionNo : Z; rb_Source : string }.

Definition ref_of (res : Resource) : RuleRef :=
  {| ref_Kind := res_kind res; ref_Mesh := res_Mesh res; ref_Name := res_Name res |}.
Definition ref_key (ruleRef : RuleRef) : string :=
  BuildResourceKey (ref_Mesh ruleRef) (ref_Name ruleRef).

Definition ruleLockKey (ruleRef : RuleRef) : string :=
  match ref_Kind ruleRef with
  | ConditionRouteKind => BuildConditionRuleLockKey (ref_Mesh ruleRef) (ref_Name ruleRef)
  | TagRouteKind => BuildTagRouteLockKey (ref_Mesh ruleRef) (ref_Name ruleRef)
  | DynamicConfigKind => BuildConfiguratorRuleLockKey (ref_Mesh ruleRef) (ref_Name ruleRef)
  | k => BuildLockKey (kind_string k) [ref_Mesh ruleRef; ref_Name ruleRef]
  end.

Section service.
Context {S M : Type} `{ResourceStore S, ResourceManager M}.
(** The JSON codecs and the digest of Versioning.v. *)
Context (protojson_Marshal : Spec → result error string) (json_canonical : string → result error string)
  (HashSpecJSON : string → string)
  (protojson_Unmarshal json_Unmarshal : ResourceKind → string → result error Spec).
(** The cancellation of the application context and the other writers of the
    version store, during the [i]-th append of a call; the clock of each append
    and the retention of the service. *)
Context (ctx : nat → Ctx) (env : nat → nat → S → S) (now : nat → Z) (maxVersions : Z).
(** The lock manager, when there is one: the error of [WithLock] when it does
    not acquire the key. *)
Context (lockMgr : option (string → option error)).

Abbreviation Append_ i := (Append protojson_Marshal json_canonical HashSpecJSON (ctx i) (env i) (now i) maxVersions).
Abbreviation Normalize := (NormalizeResource protojson_Marshal json_canonical HashSpecJSON).

(** The state of a call: the version store of the service, [None] when the
    versioning service is not available, and the manager. *)
Definition state : Type := option S * M.

Definition getRuleIfExists (m : M) (ruleRef : RuleRef) : result error (option Resource) :=
  rm_GetByKey m (ref_Kind ruleRef) (ref_key ruleRef).

Definition getExistingRule (m : M) (ruleRef : RuleRef) : result error Resource :=
  res ← getRuleIfExists m ruleRef;
  match res with
  | Some res => Ok res
  | None => Err (ErrorText (kind_string (ref_Kind ruleRef) +:+ " " +:+ ref_key ruleRef +:+ " does not exist"))
  end.

Definition appendRuleHistory (i : nat) (svc : option S) (res : Resource) (op source author reason : string)
    (rolledBackFrom : option Z) : option S * result error Version :=
  match svc with
  | None => (None, Err ErrVersionStoreError)
  | Some s =>
      let '(s, r) := Append_ i s (Some res) op source author reason rolledBackFrom in (Some s, r)
  end.

Definition ensureBaselineHistory (i : nat) (svc : option S) (res : Resource) : option S * option error :=
  match svc with
  | None => (None, Some ErrVersionStoreError)
  | Some s =>
      match HasHistory (Some s) (res_kind res) (res_Mesh res) (res_Name res) with
      | Err e => (Some s, Some e)
      | Ok true => (Some s, None)
      | Ok false =>
          match Append_ i s (Some res) OperationCreate SourceBootstrap "system:baseline"
                  "import existing rule before first edit" None with
          | (s, Err e) => (Some s, Some e)
          | (s, Ok _) => (Some s, None)
          end
      end
  end.

Definition withRuleLock {A} (ruleRef : RuleRef) (st : A) (fn : A → A * option error) : A * option error :=
  match lockMgr with
  | None => fn st
  | Some acquire =>
      match acquire (ruleLockKey ruleRef) with
      | Some e => (st, Some e)
      | None => fn st
      end
  end.

Definition createRule (st : state) (res : Resource) (opts : RuleMutationOptions) : state * option error :=
  withRuleLock (ref_of res) st (λ '(svc, m),
    match appendRuleHistory 0 svc res OperationCreate SourceAdmin (opts_Author opts) "" None with
    | (svc, Err e) => ((svc, m), Some e)
    | (svc, Ok _) => let '(m, err) := rm_Add m res in ((svc, m), err)
    end).

Definition updateRule (st : state) (res : Resource) (opts : RuleMutationOptions) : state * option error :=
  withRuleLock (ref_of res) st (λ '(svc, m),
    match getExistingRule m (ref_of res) with
    | Err e => ((svc, m), Some e)
    | Ok existing =>
        match ensureBaselineHistory 0 svc existing with
        | (svc, Some e) => ((svc, m), Some e)
        | (svc, None) =>
            match appendRuleHistory 1 svc res OperationUpdate SourceAdmin (opts_Author opts) "" None with
            | (svc, Err e) => ((svc, m), Some e)
            | (svc, Ok _) => let '(m, err) := rm_Update m res in ((svc, m), err)
            end
        end
    end).

Definition deleteRule (st : state) (ruleRef : RuleRef) (opts : RuleMutationOptions) : state * option error :=
  withRuleLock ruleRef st (λ '(svc, m),
    match getRuleIfExists m ruleRef with
    | Err e => ((svc, m), Some e)
    | Ok None => ((svc, m), None)
    | Ok (Some snapshot) =>
        match ensureBaselineHistory 0 svc snapshot with
        | (svc, Some e) => ((svc, m), Some e)
        | (svc, None) =>
            match appendRuleHistory 1 svc snapshot OperationDelete SourceAdmin (opts_Author opts) "" None with
            | (svc, Err e) => ((svc, m), Some e)
            | (svc, Ok _) =>
                let '(m, err) := rm_DeleteByKey m (ref_Kind ruleRef) (ref_Mesh ruleRef) (ref_key ruleRef) in
                ((svc, m), err)
            end
        end
    end).

Definition ListRuleVersions (svc : option S) (ruleRef : RuleRef) : result error ListResult :=
  Service_List svc (ref_Kind ruleRef) (ref_Mesh ruleRef) (ref_Name ruleRef).

Definition GetRuleVersion (svc : option S) (ruleRef : RuleRef) (versionNo : Z) : result error Version :=
  Service_Get svc (ref_Kind ruleRef) (ref_Mesh ruleRef) (ref_Name ruleRef) versionNo.

Definition DiffRuleVersion (st : state) (ruleRef : RuleRef) (versionNo : Z) (against : string)
    : result error DiffResult :=
  match st.1 with
  | None => Err ErrVersionStoreError
  | Some s =>
      if decide (against ≠ "" ∧ against ≠ "current") then
        DiffHistoryVersions (Some s) (ref_Kind ruleRef) (ref_Mesh ruleRef) (ref_Name ruleRef) versionNo against
      else
        left ← Service_Get (Some s) (ref_Kind ruleRef) (ref_Mesh ruleRef) (ref_Name ruleRef) versionNo;
        current ← getRuleIfExists st.2 ruleRef;
        specJSON ← match current with
                   | None => Ok DeleteSpecJSON
                   | Some current => n ← Normalize current; Ok n.2
                   end;
        Ok {| dr_Left := {| ds_VersionNo := ver_VersionNo left; ds_SpecJSON := ver_SpecJSON left |};
              dr_Right := {| ds_VersionNo := 0; ds_SpecJSON := specJSON |} |}
  end.

Definition not_rollbackable : error :=
  biz_new InvalidArgument "only CREATE or UPDATE rule versions can be rolled back".

(** The checks of a rollback, up to the resource it will write and whether the
    rule exists now. *)
Definition rollback_target (svc : option S) (m : M) (ruleRef : RuleRef) (targetVersionNo : Z)
    : result error (Version * Resource * bool) :=
  target ← Service_Get svc (ref_Kind ruleRef) (ref_Mesh ruleRef) (ref_Name ruleRef) targetVersionNo;
  if decide (ver_Operation target = OperationDelete) then Err ErrRollbackToDelete
  else if decide (ver_Operation target ≠ OperationCreate ∧ ver_Operation target ≠ OperationUpdate)
  then Err not_rollbackable
  else
    current ← getRuleIfExists m ruleRef;
    same ← match current with
           | None => Ok false
           | Some current => n ← Normalize current; Ok (bool_decide (n.1 = ver_ContentHash target))
           end;
    if (same : bool) then Err ErrRollbackToCurrent
    else
      res ← ResourceFromSpecJSON protojson_Unmarshal json_Unmarshal (ref_Kind ruleRef) (ref_Mesh ruleRef)
              (ref_Name ruleRef) (ver_SpecJSON target);
      Ok (target, res, bool_decide (is_Some current)).

Definition RollbackRuleVersion (st : state) (ruleRef : RuleRef) (targetVersionNo : Z)
    (reason author : string) : state * result error (option RollbackResult) :=
  match st.1 with
  | None => (st, Err ErrVersionStoreError)
  | Some _ =>
      let reason := trim_space reason in
      if decide (reason = "") then (st, Err (biz_new InvalidArgument "rollback reason is required"))
      else
        let body := λ '((svc, m), r),
          match rollback_target svc m ruleRef targetVersionNo with
          | Err e => ((svc, m), r, Some e)
          | Ok (target, res, exists_) =>
              let operation := if (exists_ : bool) then OperationUpdate else OperationCreate in
              match appendRuleHistory 0 svc res operation SourceRollback author reason
                      (Some (ver_VersionNo target)) with
              | (svc, Err e) => ((svc, m), r, Some e)
              | (svc, Ok appended) =>
                  match rm_Upsert m res with
                  | (m, Some e) => ((svc, m), r, Some e)
                  | (m, None) =>
                      ((svc, m), Some {| rb_RolledBackFromVersionNo := ver_VersionNo target;
                                         rb_VersionNo := ver_VersionNo appended;
                                         rb_Source := SourceRollback |}, None)
                  end
              end
          end in
        match withRuleLock ruleRef (st, None) body with
        | (st, _, Some e) => (st, Err e)
        | (st, r, None) => (st, Ok r)
        end
  end.
End service.

(** What a manager over sound stores promises: [GetByKey] finds a resource by
    its kind and key. *)
Class ResourceManagerLaws (M : Type) `{ResourceManager M} := {
  rm_ok : M → Prop;
  rm_GetByKey_key m kind key r : rm_ok m → rm_GetByKey m kind key = Ok (Some r) →
    res_kind r = kind ∧ ResourceKey r = key;
}.

(** ** Undisturbed calls: no cancellation, no other writer *)
Section undisturbed.
Context {S M : Type} `{ResourceStoreLaws S, ResourceManagerLaws M}.
Context (protojson_Marshal : Spec → result error string) (json_canonical : string → result error string)
  (HashSpecJSON : string → string)
  (protojson_Unmarshal json_Unmarshal : ResourceKind → string → result error Spec).
Context (now : nat → Z) (maxVersions : Z) (lockMgr : option (string → option error)).

Definition calm : nat → Ctx := λ _, never.
Definition alone : nat → nat → S → S := λ _ _ s, s.
Abbreviation Normalize := (NormalizeResource protojson_Marshal json_canonical HashSpecJSON).
Abbreviation history s res := (hist (res_kind res) (ResourceKey res) (st_items s)).
Abbreviation newest s res := (max_no s (res_kind res) (ResourceKey res)).

(** The lock manager, if any, hands out the lock of the rule. *)
Definition lock_free (ruleRef : RuleRef) : Prop :=
  match lockMgr with None => True | Some acquire => acquire (ruleLockKey ruleRef) = None end.

Lemma withRuleLock_free {A} ruleRef (st : A) fn : lock_free ruleRef → withRuleLock lockMgr ruleRef st fn = fn st.
Proof. unfold lock_free, withRuleLock. destruct lockMgr; [by intros ->|done]. Qed.

(** The version [v] records [op] on a rule with content [json]. *)
Record records (v : Version) (op source json : string) : Prop := {
  rec_op : ver_Operation v = op;
  rec_source : ver_Source v = source;
  rec_json : ver_SpecJSON v = if decide (op = OperationDelete) then DeleteSpecJSON else json }.

Lemma append_ok s res i op source author reason rb h j :
  hist_ok s → newest s res < i64_max → Normalize res = Ok (h, j) → source ≠ "" →
  ∃ s' v, Append protojson_Marshal json_canonical HashSpecJSON (calm i) (alone i) (now i) maxVersions s
      (Some res) op source author reason rb = (s', Ok v) ∧
    hist_ok s' ∧ others_same (res_kind res) (ResourceKey res) s s' ∧
    history s' res = retained maxVersions (v :: history s res) ∧
    records v op source j ∧ ver_VersionNo v = newest s res + 1 ∧
    ver_RolledBackFromVersionNo v = match rb with Some 0 => None | _ => rb end ∧ ver_Reason v = reason.
Proof.
  intros Hs Hmax Hn Hsrc. unfold Append, BuildInsertRequest. rewrite Hn. cbn [mbind result_bind].
  destruct (if decide (op = OperationDelete) then _ else _) as [h' j'] eqn:Ej.
  rewrite (decide_False (P := source = "")) by done.
  set (req := {| req_RuleKind := _ |}).
  destruct (insert_undisturbed s req (now i) maxVersions Hs Hmax) as (s' & Hi & Hs' & Hh & Ho).
  exists s'. eexists. split; [exact Hi|]. split_and!; [done|done|done| |done| |done].
  - split; [done|done|]. simpl. by case_decide; injection Ej as <- <-.
  - simpl. destruct rb as [[|p|p]|]; done.
Qed.

(** The history a mutation continues: the one there is, or the baseline that is
    recorded first. *)
Definition continues (s : S) (res : Resource) (json : string) (base : list Version) : Prop :=
  match history s res with
  | [] => ∃ b, base = [b] ∧ records b OperationCreate SourceBootstrap json ∧ ver_VersionNo b = 1
  | l => base = l
  end.

Lemma baseline_ok s old i h j :
  hist_ok s → newest s old < i64_max → Normalize old = Ok (h, j) →
  ∃ s1, ensureBaselineHistory protojson_Marshal json_canonical HashSpecJSON calm alone now maxVersions i
      (Some s) old = (Some s1, None) ∧
    hist_ok s1 ∧ others_same (res_kind old) (ResourceKey old) s s1 ∧
    continues s old j (history s1 old) ∧ newest s1 old <= newest s old + 1.
Proof.
  intros Hs Hmax Hn. unfold ensureBaselineHistory, HasHistory, available.
  change (BuildResourceKey (res_Mesh old) (res_Name old)) with (ResourceKey old).
  rewrite LatestVersion_ok by done. unfold continues.
  destruct (history s old) as [|v l] eqn:Eh.
  - change (errors_is ErrVersionNotFound ErrVersionNotFound) with true. cbv iota.
    destruct (append_ok s old i OperationCreate SourceBootstrap "system:baseline"
      "import existing rule before first edit" None h j Hs Hmax Hn) as (s1 & b & -> & Hs1 & Ho & Hh & Hr & Hv & _);
      [done|].
    assert (Hmax0 : newest s old = 0) by (unfold max_no; by rewrite Eh).
    rewrite Eh in Hh. assert (Hh1 : history s1 old = [b]).
    { rewrite Hh. unfold retained. case_decide; [|done]. apply take_ge. simpl. lia. }
    exists s1. split_and!; [done|done|done| |].
    + rewrite Hh1. exists b. split_and!; [done|done|]. by rewrite Hv, Hmax0.
    + rewrite <-Hv. unfold max_no. rewrite Hh1. done.
  - exists s. split_and!; [done|done|done|by rewrite Eh|lia].
Qed.

(** An update of an existing rule records first the rule as it was, as
    baseline, when it has no history yet, then the new content as an UPDATE
    under the next number, and only then writes the live rule; the result is the
    manager's. When that write fails, the version is in the history
    nevertheless. No other rule's history changes. *)
Theorem updateRule_recorded s m res opts old h j ho jo :
  hist_ok s → rm_ok m → lock_free (ref_of res) → newest s res + 1 < i64_max →
  getRuleIfExists m (ref_of res) = Ok (Some old) →
  Normalize old = Ok (ho, jo) → Normalize res = Ok (h, j) →
  ∃ s' v base,
    updateRule protojson_Marshal json_canonical HashSpecJSON calm alone now maxVersions lockMgr
      (Some s, m) res opts = ((Some s', (rm_Update m res).1), (rm_Update m res).2) ∧
    hist_ok s' ∧ others_same (res_kind res) (ResourceKey res) s s' ∧
    continues s res jo base ∧ history s' res = retained maxVersions (v :: base) ∧
    records v OperationUpdate SourceAdmin j.
Proof.
  intros Hs Hm Hl Hmax Hget Hno Hn. pose proof (rm_GetByKey_key _ _ _ _ Hm Hget) as [Hk Hkey].
  change (ref_Kind (ref_of res)) with (res_kind res) in Hk.
  change (ref_key (ref_of res)) with (ResourceKey res) in Hkey.
  unfold updateRule. rewrite withRuleLock_free by done.
  unfold getExistingRule. rewrite Hget. cbn [mbind result_bind].
  destruct (baseline_ok s old 0 ho jo Hs) as (s1 & -> & Hs1 & Ho1 & Hc & Hm1); [rewrite Hk, Hkey; lia|done|].
  unfold continues in Hc. rewrite Hk, Hkey in *. unfold appendRuleHistory.
  destruct (append_ok s1 res 1 OperationUpdate SourceAdmin (opts_Author opts) "" None h j Hs1)
    as (s' & v & -> & Hs' & Ho' & Hh & Hr & _); [lia|done|done|].
  destruct (rm_Update m res) as [m' err]. exists s', v, (history s1 res).
  split_and!; [done|done|by eapply others_same_trans|done|done|done].
Qed.

(** a deletion of an existing rule records a DELETE marker with an empty
    document, after the baseline when there is no history, and then deletes the
    live rule; deleting a rule that does not exist succeeds and records
    nothing. *)
Theorem deleteRule_recorded s m ruleRef opts cur :
  hist_ok s → rm_ok m → lock_free ruleRef → getRuleIfExists m ruleRef = Ok cur →
  let run := deleteRule protojson_Marshal json_canonical HashSpecJSON calm alone now maxVersions lockMgr
               (Some s, m) ruleRef opts in
  let del := rm_DeleteByKey m (ref_Kind ruleRef) (ref_Mesh ruleRef) (ref_key ruleRef) in
  match cur with
  | None => run = ((Some s, m), None)
  | Some old => ∀ h j, newest s old + 1 < i64_max → Normalize old = Ok (h, j) →
      ∃ s' v base, run = ((Some s', del.1), del.2) ∧ hist_ok s' ∧
        others_same (ref_Kind ruleRef) (ref_key ruleRef) s s' ∧ continues s old j base ∧
        hist (ref_Kind ruleRef) (ref_key ruleRef) (st_items s') = retained maxVersions (v :: base) ∧
        records v OperationDelete SourceAdmin j
  end.
Proof.
  intros Hs Hm Hl Hget run del. unfold run, deleteRule. rewrite withRuleLock_free by done. rewrite Hget.
  destruct cur as [old|]; [|done]. intros h j Hmax Hn.
  pose proof (rm_GetByKey_key _ _ _ _ Hm Hget) as [Hk Hkey].
  destruct (baseline_ok s old 0 h j Hs) as (s1 & -> & Hs1 & Ho1 & Hc & Hm1); [lia|done|].
  unfold appendRuleHistory.
  destruct (append_ok s1 old 1 OperationDelete SourceAdmin (opts_Author opts) "" None h j Hs1)
    as (s' & v & -> & Hs' & Ho' & Hh & Hr & _); [lia|done|done|].
  fold del. destruct del as [m' err]. exists s', v, (history s1 old). rewrite Hk, Hkey in *.
  split_and!; [done|done|by eapply others_same_trans| |done|done].
  unfold continues in *. by rewrite Hk, Hkey in *.
Qed.

(** ** Rollback *)
Lemma Service_Get_ok s kind mesh name v :
  hist_ok s → v ∈ hist kind (BuildResourceKey mesh name) (st_items s) →
  ∃ b, Service_Get (Some s) kind mesh name (ver_VersionNo v) = Ok (with_latest v b).
Proof.
  intros Hs Hv. unfold Service_Get, available. rewrite GetVersion_ok by done. cbn [mbind result_bind].
  unfold get_HistorySnapshot. rewrite get_historyState_ok by done. cbn [mbind result_bind].
  destruct (sn_Head _) as [w|]; [by eexists|]. exists (ver_IsLatestRecorded v). by destruct v.
Qed.

(** A number without a version of the rule has no key in the store. *)
Lemma Service_Get_missing s kind mesh name n :
  hist_ok s → 0 < n → (∀ v, v ∈ hist kind (BuildResourceKey mesh name) (st_items s) → ver_VersionNo v ≠ n) →
  Service_Get (Some s) kind mesh name n = Err ErrVersionNotFound.
Proof.
  intros Hs Hn Hno. set (key := BuildResourceKey mesh name) in *.
  assert (Hfree : st_items s !! buildVersionResourceKey kind key n = None).
  { destruct (st_items s !! _) as [r|] eqn:E; [|done]. exfalso.
    destruct (ho_items _ Hs _ _ E) as (spec & kind' & Hspec & Hkk & Hsep & Hpos & Hkey).
    rewrite buildVersionResourceKey_vkey in Hkey.
    apply vkey_inj in Hkey as (<- & Hmesh & Hname & Hnn); [|apply extractMesh_no_sep|done|lia|lia].
    assert (Hv : ver_of kind key r = Some (version_of_spec spec)).
    { apply ver_of_Some. exists spec. split_and!; [done| |done]. by apply matches_spec. }
    apply (Hno (version_of_spec spec)); [|symmetry; exact Hnn].
    apply elem_of_hist; [apply Hs|]. exists r. split; [done|]. simpl. by rewrite <-Hnn. }
  unfold Service_Get, available. fold key. unfold GetVersion, getVersionResourceForRule.
  rewrite st_GetByKey_spec by apply Hs. by rewrite Hfree.
Qed.

Abbreviation Target := (rollback_target protojson_Marshal json_canonical HashSpecJSON protojson_Unmarshal json_Unmarshal).
Abbreviation Rollback := (RollbackRuleVersion protojson_Marshal json_canonical HashSpecJSON
  protojson_Unmarshal json_Unmarshal calm alone now maxVersions lockMgr).
Abbreviation ref_history s ruleRef := (hist (ref_Kind ruleRef) (ref_key ruleRef) (st_items s)).

(** A rollback that its checks refuse changes nothing. *)
Lemma rollback_err s m ruleRef n reason author e :
  lock_free ruleRef → trim_space reason ≠ "" → Target (Some s) m ruleRef n = Err e →
  Rollback (Some s, m) ruleRef n reason author = ((Some s, m), Err e).
Proof.
  intros Hl Hr Ht. unfold RollbackRuleVersion. cbn [fst]. rewrite decide_False by done.
  rewrite withRuleLock_free by done. by rewrite Ht.
Qed.

(** a rollback is refused, and changes neither the history nor the rule,
    when the version is not recorded, when it is a DELETE marker, and when its
    content is what the rule has now. *)
Theorem rollback_refused s m ruleRef n reason author :
  hist_ok s → lock_free ruleRef → trim_space reason ≠ "" →
  let run := Rollback (Some s, m) ruleRef n reason author in
  let refused e := run = ((Some s, m), Err e) in
  (0 < n → (∀ v, v ∈ ref_history s ruleRef → ver_VersionNo v ≠ n) → refused ErrVersionNotFound) ∧
  (∀ v, v ∈ ref_history s ruleRef → ver_VersionNo v = n →
     (ver_Operation v = OperationDelete → refused ErrRollbackToDelete) ∧
     (∀ cur j, ver_Operation v = OperationCreate ∨ ver_Operation v = OperationUpdate →
        getRuleIfExists m ruleRef = Ok (Some cur) → Normalize cur = Ok (ver_ContentHash v, j) →
        refused ErrRollbackToCurrent)).
Proof.
  intros Hs Hl Hr run refused. unfold refused, run. split.
  - intros Hn Hno. apply rollback_err; [done|done|]. unfold rollback_target.
    by rewrite Service_Get_missing.
  - intros v Hv <-. destruct (Service_Get_ok s (ref_Kind ruleRef) (ref_Mesh ruleRef) (ref_Name ruleRef) v Hs Hv)
      as [b Hget]. split.
    + intros Hop. apply rollback_err; [done|done|]. unfold rollback_target. rewrite Hget.
      cbn [mbind result_bind]. by rewrite decide_True.
    + intros cur j Hop Hcur Hn. apply rollback_err; [done|done|]. unfold rollback_target. rewrite Hget.
      cbn [mbind result_bind]. change (ver_Operation (with_latest v b)) with (ver_Operation v).
      rewrite decide_False by (by destruct Hop as [-> | ->]). rewrite decide_False by tauto.
      rewrite Hcur. cbn [mbind result_bind]. rewrite Hn. cbn [mbind result_bind fst].
      by rewrite bool_decide_eq_true_2.
Qed.

(** The codecs decode into the spec type of the kind they are asked for. *)
Definition typed_codecs : Prop := ∀ kind json spec,
  protojson_Unmarshal kind json = Ok spec ∨ json_Unmarshal kind json = Ok spec → spec_kind spec = kind.

(** C6: an undisturbed rollback to a recorded CREATE or UPDATE version of
    different content restores it. Undisturbed means that the lock of the rule
    is handed out or there is no lock manager, that the context is not
    cancelled, and that nobody else writes the history meanwhile; the reason
    must not be blank, version numbers must not be exhausted, the contents must
    be normalized, and the version must decode, by codecs that give a kind its
    own type of spec. Then the resource decoded from the version is recorded as
    a new newest version, from source ROLLBACK, that names the version it came
    from, as UPDATE when the rule exists and as CREATE when it was deleted, and
    is then written. Of the versions recorded before, those stay that the
    retention limit leaves room for, so that the oldest is dropped when the
    limit is reached; the histories of other rules stay as they are. The answer
    has both numbers, or the error of the write. *)
Theorem rollback_restores s m ruleRef target cur res h j reason author :
  hist_ok s → lock_free ruleRef → typed_codecs → trim_space reason ≠ "" →
  max_no s (ref_Kind ruleRef) (ref_key ruleRef) < i64_max →
  target ∈ ref_history s ruleRef →
  ver_Operation target = OperationCreate ∨ ver_Operation target = OperationUpdate →
  getRuleIfExists m ruleRef = Ok cur →
  (∀ c, cur = Some c → ∃ hc jc, Normalize c = Ok (hc, jc) ∧ hc ≠ ver_ContentHash target) →
  ResourceFromSpecJSON protojson_Unmarshal json_Unmarshal (ref_Kind ruleRef) (ref_Mesh ruleRef)
    (ref_Name ruleRef) (ver_SpecJSON target) = Ok res →
  Normalize res = Ok (h, j) →
  ∃ s' v,
    Rollback (Some s, m) ruleRef (ver_VersionNo target) reason author =
      ((Some s', (rm_Upsert m res).1),
       match (rm_Upsert m res).2 with
       | Some e => Err e
       | None => Ok (Some {| rb_RolledBackFromVersionNo := ver_VersionNo target;
                             rb_VersionNo := ver_VersionNo v; rb_Source := SourceRollback |})
       end) ∧
    hist_ok s' ∧ others_same (ref_Kind ruleRef) (ref_key ruleRef) s s' ∧
    ref_history s' ruleRef = retained maxVersions (v :: ref_history s ruleRef) ∧
    records v (if decide (cur = None) then OperationCreate else OperationUpdate) SourceRollback j ∧
    ver_VersionNo v = max_no s (ref_Kind ruleRef) (ref_key ruleRef) + 1 ∧
    ver_RolledBackFromVersionNo v = Some (ver_VersionNo target).
Proof.
  intros Hs Hl Htyped Hreason Hmax Htarget Hop Hcur Hdiff Hres Hn.
  assert (Hkind : res_kind res = ref_Kind ruleRef ∧ ResourceKey res = ref_key ruleRef).
  { unfold ResourceFromSpecJSON in Hres. case_decide; [|done]. apply bind_Ok in Hres as (spec & Hspec & Hres').
    apply (inj Ok) in Hres' as <-. split; [|done]. unfold res_kind. simpl. apply (Htyped _ (ver_SpecJSON target)).
    unfold unmarshalSpec in Hspec. destruct (protojson_Unmarshal _ _); [by left|].
    destruct (json_Unmarshal _ _); [by right|done]. }
  destruct Hkind as [Hk Hkey].
  destruct (Service_Get_ok s (ref_Kind ruleRef) (ref_Mesh ruleRef) (ref_Name ruleRef) target Hs Htarget) as [b Hget].
  assert (Ht : Target (Some s) m ruleRef (ver_VersionNo target) =
    Ok (with_latest target b, res, bool_decide (is_Some cur))).
  { unfold rollback_target. rewrite Hget. cbn [mbind result_bind].
    change (ver_Operation (with_latest target b)) with (ver_Operation target).
    rewrite decide_False by (by destruct Hop as [-> | ->]). rewrite decide_False by tauto.
    rewrite Hcur. cbn [mbind result_bind].
    change (ver_SpecJSON (with_latest target b)) with (ver_SpecJSON target). rewrite Hres.
    destruct cur as [c|]; [|done]. destruct (Hdiff c eq_refl) as (hc & jc & -> & Hne).
    cbn [mbind result_bind fst]. rewrite (bool_decide_eq_false_2 (hc = _)) by done. done. }
  unfold RollbackRuleVersion. cbn [fst]. rewrite decide_False by done. rewrite withRuleLock_free by done.
  rewrite Ht. unfold appendRuleHistory.
  destruct (append_ok s res 0 (if bool_decide (is_Some cur) then OperationUpdate else OperationCreate)
    SourceRollback author (trim_space reason) (Some (ver_VersionNo target)) h j Hs)
    as (s' & v & Ha & Hs' & Ho & Hh & Hr & Hv & Hrb & _); [by rewrite Hk, Hkey|done|done|].
  change (ver_VersionNo (with_latest target b)) with (ver_VersionNo target). rewrite Ha.
  destruct (rm_Upsert m res) as [m' err]. exists s', v. rewrite Hk, Hkey in *.
  assert (Hpos : 0 < ver_VersionNo target).
  { apply elem_of_hist in Htarget as (r & Hrow & Hin); [|apply Hs]. by eapply wf_key; [apply (ho_items _ Hs)|]. }
  split_and!; [by destruct err|done|done|done| |done|].
  - destruct cur; [rewrite decide_False by done|rewrite decide_True by done]; exact Hr.
  - rewrite Hrb. destruct (ver_VersionNo target); [lia|done|done].
Qed.
End undisturbed.

(** ** At concrete rules *)
Module RuleServiceExample.
Import VersioningExample.
#[local] Existing Instance RefStore.ops.
#[local] Existing Instance RefStore.laws.

(** A manager that writes its store directly. *)
#[local] Instance direct : ResourceManager RefStore.store := {
  rm_GetByKey s kind key :=
    Ok (r ← RefStore.items s !! key; if decide (res_kind r = kind ∧ ResourceKey r = key) then Some r else None);
  rm_Add s r := st_Add s (ResourceObj r);
  rm_Update s r := st_Update s (ResourceObj r);
  rm_Upsert s r := match RefStore.items s !! ResourceKey r with
                   | Some _ => st_Update s (ResourceObj r)
                   | None => st_Add s (ResourceObj r)
                   end;
  rm_DeleteByKey s kind mesh key := match RefStore.items s !! key with
                                    | Some r => st_Delete s (ResourceObj r)
                                    | None => (s, Some (ErrorText "does not exist"))
                                    end;
}.
#[local] Program Instance direct_laws : ResourceManagerLaws RefStore.store := { rm_ok _ := True }.
Next Obligation.
  intros s kind key r _. simpl. destruct (RefStore.items s !! key) as [x|]; simpl; [|done].
  case_decide as Hx; [|done]. by intros [= <-].
Qed.

(** A route is its key, encoded as itself. *)
Definition route (key : string) : Spec :=
  ConditionRouteSpec (Some {| cr_ConfigVersion := "v3.0"; cr_Priority := 0; cr_Enabled := true;
    cr_Force := false; cr_Runtime := true; cr_Key := key; cr_Scope := "service"; cr_Conditions := [] |}).
Definition rule (key : string) : Resource :=
  {| res_meta := {| meta_Name := "shop"; meta_Labels := None; meta_Annotations := None |};
     res_Mesh := "m"; res_spec := route key |}.
Definition marshal (spec : Spec) : result error string :=
  match spec with ConditionRouteSpec (Some c) => Ok (cr_Key c) | _ => Ok "null" end.
Definition unmarshal (kind : ResourceKind) (json : string) : result error Spec :=
  if decide (kind = ConditionRouteKind) then Ok (route json) else Err (ErrorText "unknown kind").

Definition rules (l : list Resource) : RefStore.store :=
  foldl (λ s r, (st_Add s (ResourceObj r)).1)
    {| RefStore.kind := ConditionRouteKind; RefStore.indexers := ∅; RefStore.items := ∅ |} l.

Definition shop : RuleRef := {| ref_Kind := ConditionRouteKind; ref_Mesh := "m"; ref_Name := "shop" |}.
Definition hash (s : string) : string := "h" +:+ s.

Lemma updateRule_recorded_witness :
  ∃ s' v b, updateRule marshal Ok hash calm alone (λ _, 9) 5 (Some (λ _, None))
    (Some none, rules [rule "x"]) (rule "y") {| opts_Author := "ann" |} =
    ((Some s', (st_Update (rules [rule "x"]) (ResourceObj (rule "y"))).1), None) ∧
    hist ConditionRouteKind "m/shop" (st_items s') = [v; b] ∧ ver_SpecJSON v = "y" ∧ ver_SpecJSON b = "x".
Proof.
  destruct (updateRule_recorded marshal Ok hash (λ _, 9) 5 (Some (λ _, None)) none (rules [rule "x"]) (rule "y")
    {| opts_Author := "ann" |} (rule "x") "hy" "y" "hx" "x" none_ok ltac:(exact I) eq_refl ltac:(vm_compute; reflexivity)
    ltac:(vm_compute; reflexivity) eq_refl eq_refl) as (s' & v & base & Hrun & _ & _ & Hc & Hh & Hr).
  assert (Hb : ∃ b, base = [b] ∧ records b OperationCreate SourceBootstrap "x" ∧ ver_VersionNo b = 1) by exact Hc.
  destruct Hb as (b & -> & Hrb & _). exists s', v, b. split; [exact Hrun|]. split; [exact Hh|].
  split; [exact (rec_json _ _ _ _ Hr)|exact (rec_json _ _ _ _ Hrb)].
Defined.

(** The rule was deleted already. *)
Lemma deleteRule_recorded_witness :
  deleteRule marshal Ok hash calm alone (λ _, 9) 5 None (Some none, rules []) shop {| opts_Author := "ann" |} =
  ((Some none, rules []), None).
Proof.
  exact (deleteRule_recorded marshal Ok hash (λ _, 9) 5 None none (rules []) shop {| opts_Author := "ann" |}
    None none_ok ltac:(exact I) ltac:(exact I) eq_refl).
Defined.

Definition version_b : Version := new_version (request "b" "bob") 2 5 5.

Lemma two_has : version_b ∈ hist ConditionRouteKind "m/shop" (st_items two).
Proof.
  assert (Hh : hist ConditionRouteKind "m/shop" (st_items two) = [version_b; new_version (request "a" "bob") 1 5 5])
    by (vm_compute; reflexivity).
  rewrite Hh. left.
Qed.

Lemma rollback_refused_witness :
  RollbackRuleVersion marshal Ok hash unmarshal unmarshal calm alone (λ _, 9) 5 None
    (Some two, rules [rule "b"]) shop 2 "why" "ann" = ((Some two, rules [rule "b"]), Err ErrRollbackToCurrent).
Proof.
  apply (proj2 (proj2 (rollback_refused marshal Ok hash unmarshal unmarshal (λ _, 9) 5 None two (rules [rule "b"])
    shop 2 "why" "ann" two_ok ltac:(exact I) ltac:(discriminate)) version_b two_has eq_refl) (rule "b") "b").
  - right. reflexivity.
  - vm_compute. reflexivity.
  - vm_compute. reflexivity.
Defined.

Lemma rollback_restores_witness :
  ∃ s', RollbackRuleVersion marshal Ok hash unmarshal unmarshal calm alone (λ _, 9) 5 None
      (Some two, rules [rule "x"]) shop 2 " why " "ann" =
    ((Some s', (st_Update (rules [rule "x"]) (ResourceObj (rule "b"))).1),
     Ok (Some {| rb_RolledBackFromVersionNo := 2; rb_VersionNo := 3; rb_Source := SourceRollback |})) ∧
    length (hist ConditionRouteKind "m/shop" (st_items s')) = 3%nat.
Proof.
  destruct (rollback_restores marshal Ok hash unmarshal unmarshal (λ _, 9) 5 None two (rules [rule "x"]) shop
    version_b (Some (rule "x")) (rule "b") "hb" "b" " why " "ann" two_ok ltac:(exact I)) as (s' & v & Hrun & _ & _ & Hh & _ & Hv & _).
  - intros kind json spec. unfold unmarshal. case_decide; [|by intros []]. subst kind.
    by intros [[= <-]|[= <-]].
  - discriminate.
  - vm_compute. reflexivity.
  - exact two_has.
  - right. reflexivity.
  - vm_compute. reflexivity.
  - intros c [= <-]. exists "hx", "x". split; [reflexivity|discriminate].
  - reflexivity.
  - reflexivity.
  - assert (Hv3 : ver_VersionNo v = 3) by (rewrite Hv; vm_compute; reflexivity).
    exists s'. rewrite Hv3 in Hrun. split; [exact Hrun|].
    assert (Hlen : hist ConditionRouteKind "m/shop" (st_items s') =
      retained 5 (v :: hist ConditionRouteKind "m/shop" (st_items two))) by exact Hh.
    rewrite Hlen. reflexivity.
Defined.
End RuleServiceExample.
