(* ===== verification/Manager.v ===== *)
(** pkg/core/manager/manager.go and pkg/core/governor: reads go to the store of
    the kind, writes of rules to the governor of the mesh. *)
From S2P Require Import Prelude GoStrings Errors Resource Libs Indexers Store Versioning RuleService.

Open Scope string_scope.
Open Scope list_scope.

(** pkg/core/governor/governor.go *)
Definition RuleResourceKinds : list ResourceKind := [DynamicConfigKind; ConditionRouteKind; TagRouteKind].

(** [RuleGovernor]: its writes reach a registry and, through it, the stores;
    both are the world [W]. *)
Class RuleGovernor (G W : Type) := {
  gov_CreateRule : G → W → Resource → W * option error;
  gov_UpdateRule : G → W → Resource → W * option error;
  gov_DeleteRule : G → W → Resource → W * option error;
}.

Section manager.
Context {St W G : Type} `{ResourceStore St, RuleGovernor G W}.
(** [storeRouter.ResourceKindRoute]. *)
Context (ResourceKindRoute : W → ResourceKind → result error St).

(** The manager: its governors by mesh, and the world its routers reach. *)
Record resourcesManager := { rg_governors : gmap string G; rg_world : W }.

Definition with_world (rm : resourcesManager) (w : W) : resourcesManager :=
  {| rg_governors := rg_governors rm; rg_world := w |}.

(** pkg/core/governor/component.go *)
Definition ResourceMeshRoute (rm : resourcesManager) (mesh : string) : result error G :=
  match rg_governors rm !! mesh with
  | Some governor => Ok governor
  | None => Err (biz_new GovernorError ("mesh " +:+ mesh +:+ " not found for governor"))
  end.
Definition ResourceRoute (rm : resourcesManager) (r : Resource) : result error G :=
  ResourceMeshRoute rm (res_Mesh r).

(** The failed assertion asks the nil [res] for its type name and panics,
    which the console's recovery turns into a failed request. *)
Definition nil_dereference : error :=
  ErrorText "runtime error: invalid memory address or nil pointer dereference".

(** An error of the store is dropped: it does not come with [exist]. *)
Definition GetByKey (rm : resourcesManager) (rk : ResourceKind) (key : string)
    : result error (option Resource) :=
  rs ← ResourceKindRoute (rg_world rm) rk;
  match st_GetByKey rs key with
  | Err _ => Ok None
  | Ok None => Ok None
  | Ok (Some item) =>
      match item with
      | ResourceObj res => Ok (Some res)
      | OtherObj _ => Err nil_dereference
      end
  end.

Definition GetByKeys (rm : resourcesManager) (rk : ResourceKind) (keys : list string)
    : result error (list Resource) :=
  rs ← ResourceKindRoute (rg_world rm) rk; st_GetByKeys rs keys.

Definition ListByIndexes (rm : resourcesManager) (rk : ResourceKind) (indexes : list IndexCondition)
    : result error (list Resource) :=
  rs ← ResourceKindRoute (rg_world rm) rk; st_ListByIndexes rs indexes.

Definition invalid_kind : error := biz_new InvalidArgument "invalid resource kind".

Definition routed (rm : resourcesManager) (r : Resource)
    (op : G → W → Resource → W * option error) : resourcesManager * option error :=
  if decide (res_kind r ∈ RuleResourceKinds) then
    match ResourceRoute rm r with
    | Err e => (rm, Some e)
    | Ok gov => let '(w, err) := op gov (rg_world rm) r in (with_world rm w, err)
    end
  else (rm, Some invalid_kind).

Definition Add (rm : resourcesManager) (r : Resource) : resourcesManager * option error :=
  routed rm r gov_CreateRule.
Definition Update (rm : resourcesManager) (r : Resource) : resourcesManager * option error :=
  routed rm r gov_UpdateRule.

Definition Upsert (rm : resourcesManager) (r : Resource) : resourcesManager * option error :=
  if decide (res_kind r ∈ RuleResourceKinds) then
    match GetByKey rm (res_kind r) (ResourceKey r) with
    | Ok (Some _) => Update rm r
    | _ => Add rm r
    end
  else (rm, Some invalid_kind).

Definition DeleteByKey (rm : resourcesManager) (rk : ResourceKind) (mesh key : string)
    : resourcesManager * option error :=
  if decide (rk ∈ RuleResourceKinds) then
    match ResourceMeshRoute rm mesh with
    | Err e => (rm, Some e)
    | Ok gov =>
        match GetByKey rm rk key with
        | Err e => (rm, Some (ErrorText ("failed to get resource " +:+ key +:+ ": " +:+ error_string e)))
        | Ok None => (rm, Some (ErrorText (kind_string rk +:+ " " +:+ key +:+ " does not exist")))
        | Ok (Some r) =>
            let '(w, err) := gov_DeleteRule gov (rg_world rm) r in (with_world rm w, err)
        end
    end
  else (rm, Some invalid_kind).
End manager.

#[export] Instance resource_manager {St W G} `{ResourceStore St, RuleGovernor G W}
    (route : W → ResourceKind → result error St) : ResourceManager (resourcesManager (W := W) (G := G)) := {
  rm_GetByKey := GetByKey route;
  rm_Add := Add;
  rm_Update := Update;
  rm_Upsert := Upsert route;
  rm_DeleteByKey := DeleteByKey route;
}.

(** ** Over sound stores *)
Section sound.
Context {St W G : Type} `{ResourceStoreLaws St, RuleGovernor G W}.
Context (route : W → ResourceKind → result error St).

Definition sound (rm : resourcesManager (W := W) (G := G)) : Prop :=
  ∀ kind rs, route (rg_world rm) kind = Ok rs → st_ok rs ∧ st_kind rs = kind.

Lemma GetByKey_sound rm kind rs key :
  sound rm → route (rg_world rm) kind = Ok rs → GetByKey route rm kind key = Ok (st_items rs !! key).
Proof.
  intros Hs Hr. destruct (Hs _ _ Hr) as [Hok _]. unfold GetByKey. rewrite Hr. cbn [mbind result_bind].
  rewrite st_GetByKey_spec by done. by destruct (st_items rs !! key).
Qed.

#[export] Program Instance resource_manager_laws :
    ResourceManagerLaws (resourcesManager (W := W) (G := G)) (H := resource_manager route) :=
  {| rm_ok := sound |}.
Next Obligation.
  intros rm kind key r Hs Hg. simpl in Hg. destruct (route (rg_world rm) kind) as [rs|e] eqn:Er.
  - rewrite (GetByKey_sound _ _ rs) in Hg by done. apply (inj Ok) in Hg.
    destruct (Hs _ _ Er) as [Hok <-]. by destruct (st_items_key rs key r Hok Hg).
  - unfold GetByKey in Hg. by rewrite Er in Hg.
Qed.

(** a write of a rule goes to the governor of its mesh and nowhere else:
    [Upsert] to its update when the store has the key and to its creation when
    it has not; a resource of another kind, and one of a mesh without governor,
    is refused with the error that says so and nothing changes. *)
Theorem Upsert_dispatches rm r rs :
  sound rm → route (rg_world rm) (res_kind r) = Ok rs →
  Upsert route rm r =
    if decide (res_kind r ∈ RuleResourceKinds) then
      match rg_governors rm !! res_Mesh r with
      | None => (rm, Some (biz_new GovernorError ("mesh " +:+ res_Mesh r +:+ " not found for governor")))
      | Some gov =>
          let '(w, err) := match st_items rs !! ResourceKey r with
            | Some _ => gov_UpdateRule gov (rg_world rm) r
            | None => gov_CreateRule gov (rg_world rm) r
            end in
          ({| rg_governors := rg_governors rm; rg_world := w |}, err)
      end
    else (rm, Some (biz_new InvalidArgument "invalid resource kind")).
Proof.
  intros Hs Hr. unfold Upsert. case_decide as Hk; [|done]. rewrite (GetByKey_sound _ _ rs) by done.
  destruct (st_items rs !! ResourceKey r); unfold Update, Add, routed; rewrite decide_True by done;
    unfold ResourceRoute, ResourceMeshRoute; by destruct (rg_governors rm !! res_Mesh r).
Qed.
End sound.

(** When the store fails to answer, the manager takes the resource for
    missing: the read reports that it does not exist instead of the store's
    error, an upsert creates it, and a deletion says that there is nothing. *)
Theorem GetByKey_drops_store_error {St W G} `{ResourceStore St, RuleGovernor G W} route
    (rm : resourcesManager (W := W) (G := G)) (rs : St) r e :
  route (rg_world rm) (res_kind r) = Ok rs → st_GetByKey rs (ResourceKey r) = Err e →
  res_kind r ∈ RuleResourceKinds → is_Some (rg_governors rm !! res_Mesh r) →
  GetByKey route rm (res_kind r) (ResourceKey r) = Ok None ∧
  Upsert route rm r = Add rm r ∧
  DeleteByKey route rm (res_kind r) (res_Mesh r) (ResourceKey r) =
    (rm, Some (ErrorText (kind_string (res_kind r) +:+ " " +:+ ResourceKey r +:+ " does not exist"))).
Proof.
  intros Hr He Hk [gov Hg].
  assert (Hget : GetByKey route rm (res_kind r) (ResourceKey r) = Ok None).
  { unfold GetByKey. rewrite Hr. cbn [mbind result_bind]. by rewrite He. }
  split; [done|]. unfold Upsert, DeleteByKey, ResourceMeshRoute. by rewrite !decide_True, Hget, Hg by done.
Qed.

(** ** At concrete stores *)
Module ManagerExample.
#[local] Existing Instance RefStore.ops.
#[local] Existing Instance RefStore.laws.

(** The world is the store of the condition routes; the only governor writes it. *)
#[local] Instance writer : RuleGovernor unit RefStore.store := {
  gov_CreateRule _ s r := st_Add s (ResourceObj r);
  gov_UpdateRule _ s r := st_Update s (ResourceObj r);
  gov_DeleteRule _ s r := st_Delete s (ResourceObj r);
}.

Definition route (s : RefStore.store) (kind : ResourceKind) : result error RefStore.store :=
  if decide (kind = RefStore.kind s) then Ok s
  else Err (ErrorText (kind_string kind +:+ " is not supported by store yet")).

Definition routes (l : list Resource) : resourcesManager (W := RefStore.store) (G := unit) :=
  {| rg_governors := {["m" := tt]}; rg_world := RuleServiceExample.rules l |}.

Lemma rules_sound l : Forall (λ r, res_kind r = ConditionRouteKind) l → sound route (routes l).
Proof.
  intros Hl kind rs. simpl. unfold route. case_decide as Hk; [|done]. intros [= <-]. split; [|done].
  clear Hk. unfold RuleServiceExample.rules.
  assert (Hg : ∀ s, RefStore.well_keyed s → RefStore.kind s = ConditionRouteKind →
    RefStore.well_keyed (foldl (λ s r, (st_Add s (ResourceObj r)).1) s l)).
  { induction Hl as [|r l Hr Hl IH]; intros s Hs Hk; [done|]. simpl. apply IH.
    - case_bool_decide; [done|]. apply map_Forall_insert_2; [|done]. simpl. by rewrite Hk.
    - by case_bool_decide. }
  apply Hg; [apply map_Forall_empty|done].
Qed.

Lemma Upsert_dispatches_witness :
  (Upsert route (routes [RuleServiceExample.rule "x"]) (RuleServiceExample.rule "y")).1 =
  {| rg_governors := {["m" := tt]};
     rg_world := (st_Update (RuleServiceExample.rules [RuleServiceExample.rule "x"])
       (ResourceObj (RuleServiceExample.rule "y"))).1 |}.
Proof.
  rewrite (Upsert_dispatches route (routes [RuleServiceExample.rule "x"]) (RuleServiceExample.rule "y")
    (RuleServiceExample.rules [RuleServiceExample.rule "x"])).
  - reflexivity.
  - apply rules_sound. repeat constructor.
  - reflexivity.
Defined.

(** A store whose database is gone. *)
#[local] Instance down : ResourceStore unit := {
  st_Add s _ := (s, Some (ErrorText "down")); st_Update s _ := (s, Some (ErrorText "down"));
  st_Delete s _ := (s, Some (ErrorText "down")); st_Get _ _ := Err (ErrorText "down");
  st_GetByKey _ _ := Err (ErrorText "down"); st_List _ := []; st_ListKeys _ := [];
  st_ByIndex _ _ _ := Err (ErrorText "down"); st_GetByKeys _ _ := Err (ErrorText "down");
  st_ListByIndexes _ _ := Err (ErrorText "down") }.

Lemma GetByKey_drops_store_error_witness :
  GetByKey (λ _ _, Ok tt) (routes []) ConditionRouteKind "m/shop" = Ok None.
Proof.
  refine (proj1 (GetByKey_drops_store_error (λ _ _, Ok tt) (routes []) tt (RuleServiceExample.rule "x")
    (ErrorText "down") eq_refl eq_refl _ _)).
  - right. left.
  - by eexists.
Defined.
End ManagerExample.
