(* ===== verification/RuleCodec.v ===== *)
(** pkg/core/resource/apis/mesh/v1alpha1/router_rule_codec.go: the YAML form of
    rules in the configuration center, and the checks before a write. *)
From S2P Require Import Prelude GoStrings Errors Resource.

Open Scope string_scope.
Open Scope list_scope.
Open Scope Z_scope.

Definition affinityRuntimeOmittedAnnotation : string := "dubbo.apache.org/affinity-runtime-omitted".
Definition affinityEnabledOmittedAnnotation : string := "dubbo.apache.org/affinity-enabled-omitted".
Definition scriptEnabledOmittedAnnotation : string := "dubbo.apache.org/script-enabled-omitted".

(** pkg/common/constants/rule.go *)
Definition ConfiguratorVersionV3 : string := "v3.0".
Definition ConfiguratorVersionV3x1 : string := "v3.1".
Definition ScopeApplication : string := "application".
Definition ScopeService : string := "service".
Definition AffinityRuleDotSuffix : string := ".affinity-router".
Definition ScriptRuleDotSuffix : string := ".script-router".
Definition ScriptTypeJavaScript : string := "javascript".
Definition MaxScriptRuleSize : Z := 64 * 1024.

(** A [*bool] is an [option bool]. *)
Record affinityAwareYAML := { aay_Key : string; aay_Ratio : Z }.
Record affinityRouteYAML := {
  ary_ConfigVersion : string; ary_Scope : string; ary_Key : string;
  ary_Runtime : option bool; ary_Enabled : option bool; ary_AffinityAware : option affinityAwareYAML }.
Record scriptRouteYAML := {
  sry_ConfigVersion : string; sry_Scope : string; sry_Key : string; sry_Enabled : option bool;
  sry_Type : string; sry_Script : string }.

Abbreviation Annotations := (option (gmap string string)).

Definition annotation (a : Annotations) (key : string) : string := default "" (a ≫= (.!! key)).

Definition optionalRuleBool (value : bool) (annotations : Annotations) (omitted : string) : option bool :=
  if decide (value = false ∧ annotation annotations omitted = "true") then None else Some value.

Definition markRuleBooleanOmitted (annotations : Annotations) (key : string) : Annotations :=
  Some (<[key := "true"]> (default ∅ annotations)).

Definition clearRuleBooleanOmitted (annotations : Annotations) (key : string) : Annotations :=
  let m := delete key (default ∅ annotations) in if decide (m = ∅) then None else Some m.

Definition invalidRule (message : string) : error := biz_new InvalidArgument message.
Definition ruleYAMLError (name : string) (err : error) : error :=
  biz_wrap err YamlError ("invalid rule YAML " +:+ name).

(** [guard P e]: [if !P { return e }] of a chain of checks. *)
Definition check (P : Prop) `{Decision P} (e : error) (rest : option error) : option error :=
  if decide P then rest else Some e.

Definition ValidateRule (r : option Resource) : option error :=
  match r with
  | None => Some (invalidRule "rule spec is required")
  | Some r =>
      match res_spec r with
      | AffinityRouteSpec None | ScriptRouteSpec None => Some (invalidRule "rule spec is required")
      | AffinityRouteSpec (Some s) =>
          check (ar_ConfigVersion s = ConfiguratorVersionV3x1)
            (invalidRule "affinity configVersion must be v3.1") $
          check (ar_Scope s = ScopeApplication ∨ ar_Scope s = ScopeService)
            (invalidRule "affinity scope must be application or service") $
          check (trim_space (ar_Key s) ≠ "" ∧ res_Name r = ar_Key s +:+ AffinityRuleDotSuffix)
            (invalidRule "affinity rule name must be key.affinity-router") $
          match ar_Affinity s with
          | None => Some (invalidRule "affinityAware.key is required")
          | Some a =>
              check (trim_space (aa_Key a) ≠ "") (invalidRule "affinityAware.key is required") $
              check (0 <= aa_Ratio a <= 100) (invalidRule "affinityAware.ratio must be in [0, 100]") None
          end
      | ScriptRouteSpec (Some s) =>
          check (sr_ConfigVersion s = ConfiguratorVersionV3 ∨ sr_ConfigVersion s = ConfiguratorVersionV3x1)
            (invalidRule "script configVersion must be v3.0 or v3.1") $
          check (sr_Scope s = ScopeApplication)
            (invalidRule "script rules only support application scope") $
          check (trim_space (sr_Key s) ≠ "" ∧ res_Name r = sr_Key s +:+ ScriptRuleDotSuffix)
            (invalidRule "script rule name must be key.script-router") $
          check (sr_Type s = ScriptTypeJavaScript) (invalidRule "script type must be javascript") $
          check (trim_space (sr_Script s) ≠ "") (invalidRule "script must be non-empty") $
          check (Z.of_nat (String.length (sr_Script s)) <= MaxScriptRuleSize)
            (invalidRule ("script must not exceed " +:+ pretty MaxScriptRuleSize +:+ " bytes")) None
      | _ => None
      end
  end.

(** The resources [NewAffinityRouteResourceWithAttributes] and
    [NewScriptRouteResourceWithAttributes] build, with the spec filled in. *)
Definition with_attributes (name mesh : string) (annotations : Annotations) (spec : Spec) : Resource :=
  {| res_meta := {| meta_Name := name; meta_Labels := Some ∅; meta_Annotations := annotations |};
     res_Mesh := mesh; res_spec := spec |}.

Definition empty_affinity : AffinityRoute :=
  {| ar_ConfigVersion := ""; ar_Scope := ""; ar_Key := ""; ar_Runtime := false; ar_Enabled := false;
     ar_Affinity := None |}.
Definition empty_script : ScriptRoute :=
  {| sr_ConfigVersion := ""; sr_Scope := ""; sr_Key := ""; sr_Enabled := false; sr_Type := "";
     sr_Script := "" |}.
Definition NewAffinityRouteResourceWithAttributes (name mesh : string) : Resource :=
  with_attributes name mesh None (AffinityRouteSpec (Some empty_affinity)).
Definition NewScriptRouteResourceWithAttributes (name mesh : string) : Resource :=
  with_attributes name mesh None (ScriptRouteSpec (Some empty_script)).

(** What one optional boolean does to the spec and the annotations. *)
Definition decode_bool (b : option bool) (omitted : string) (a : Annotations) : bool * Annotations :=
  match b with
  | Some v => (v, clearRuleBooleanOmitted a omitted)
  | None => (false, markRuleBooleanOmitted a omitted)
  end.

Section codec.
(** [sigs.k8s.io/yaml] on the external forms and on the protobuf specs. *)
Context (yaml_affinity : affinityRouteYAML → result error string)
  (yaml_script : scriptRouteYAML → result error string) (yaml_spec : Spec → result error string)
  (unyaml_affinity : string → result error affinityRouteYAML)
  (unyaml_script : string → result error scriptRouteYAML)
  (unyaml_spec : ResourceKind → string → result error Spec).

Definition affinity_external (r : Resource) (s : AffinityRoute) : affinityRouteYAML :=
  let a := meta_Annotations (res_meta r) in
  {| ary_ConfigVersion := ar_ConfigVersion s; ary_Scope := ar_Scope s; ary_Key := ar_Key s;
     ary_Runtime := optionalRuleBool (ar_Runtime s) a affinityRuntimeOmittedAnnotation;
     ary_Enabled := optionalRuleBool (ar_Enabled s) a affinityEnabledOmittedAnnotation;
     ary_AffinityAware :=
       (λ x, {| aay_Key := aa_Key x; aay_Ratio := aa_Ratio x |}) <$> ar_Affinity s |}.

Definition script_external (r : Resource) (s : ScriptRoute) : scriptRouteYAML :=
  {| sry_ConfigVersion := sr_ConfigVersion s; sry_Scope := sr_Scope s; sry_Key := sr_Key s;
     sry_Enabled := optionalRuleBool (sr_Enabled s) (meta_Annotations (res_meta r))
                      scriptEnabledOmittedAnnotation;
     sry_Type := sr_Type s; sry_Script := sr_Script s |}.

(** A nil [Spec] of another kind is a typed nil inside a non-nil interface
    value, and is marshalled. *)
Definition EncodeRule (r : option Resource) : result error string :=
  match ValidateRule r, r with
  | Some e, _ => Err e
  | None, None => Err (invalidRule "rule spec is required")
  | None, Some r =>
      let data := match res_spec r with
                  | AffinityRouteSpec (Some s) => yaml_affinity (affinity_external r s)
                  | ScriptRouteSpec (Some s) => yaml_script (script_external r s)
                  | spec => yaml_spec spec
                  end in
      match data with
      | Ok data => Ok data
      | Err e => Err (biz_wrap e YamlError "failed to marshal rule")
      end
  end.

Definition affinity_internal (mesh name : string) (external : affinityRouteYAML) : Resource :=
  let '(runtime, a) := decode_bool (ary_Runtime external) affinityRuntimeOmittedAnnotation None in
  let '(enabled, a) := decode_bool (ary_Enabled external) affinityEnabledOmittedAnnotation a in
  with_attributes name mesh a (AffinityRouteSpec (Some
    {| ar_ConfigVersion := ary_ConfigVersion external; ar_Scope := ary_Scope external;
       ar_Key := ary_Key external; ar_Runtime := runtime; ar_Enabled := enabled;
       ar_Affinity := (λ x, {| aa_Key := aay_Key x; aa_Ratio := aay_Ratio x |}) <$> ary_AffinityAware external |})).

Definition script_internal (mesh name : string) (external : scriptRouteYAML) : Resource :=
  let '(enabled, a) := decode_bool (sry_Enabled external) scriptEnabledOmittedAnnotation None in
  with_attributes name mesh a (ScriptRouteSpec (Some
    {| sr_ConfigVersion := sry_ConfigVersion external; sr_Scope := sry_Scope external;
       sr_Key := sry_Key external; sr_Enabled := enabled; sr_Type := sry_Type external;
       sr_Script := sry_Script external |})).

Definition validated (r : Resource) : result error Resource :=
  match ValidateRule (Some r) with Some e => Err e | None => Ok r end.

(** A resource of another kind is built without name and mesh. *)
Definition DecodeRule (kind : ResourceKind) (mesh name data : string) : result error Resource :=
  let blank := bool_decide (trim_space data = "") in
  match kind with
  | AffinityRouteKind =>
      if blank then Ok (NewAffinityRouteResourceWithAttributes name mesh)
      else match unyaml_affinity data with
           | Err e => Err (ruleYAMLError name e)
           | Ok external => validated (affinity_internal mesh name external)
           end
  | ScriptRouteKind =>
      if blank then Ok (NewScriptRouteResourceWithAttributes name mesh)
      else match unyaml_script data with
           | Err e => Err (ruleYAMLError name e)
           | Ok external => validated (script_internal mesh name external)
           end
  | _ =>
      match unyaml_spec kind data with
      | Err e => Err (ruleYAMLError name e)
      | Ok spec => Ok {| res_meta := {| meta_Name := ""; meta_Labels := None; meta_Annotations := None |};
                         res_Mesh := ""; res_spec := spec |}
      end
  end.

(** [ToAffinityRouteResource], [ToScriptRouteResource]: [None] is nil. *)
Definition ToRuleResource (kind : ResourceKind) (new : string → string → Resource) (mesh name data : string)
    : option Resource :=
  if decide (trim_space data = "") then Some (new name mesh)
  else match DecodeRule kind mesh name data with Ok r => Some r | Err _ => None end.

Definition ToAffinityRouteResource : string → string → string → option Resource :=
  ToRuleResource AffinityRouteKind NewAffinityRouteResourceWithAttributes.
Definition ToScriptRouteResource : string → string → string → option Resource :=
  ToRuleResource ScriptRouteKind NewScriptRouteResourceWithAttributes.

(** ** Round trips *)

(** What the library promises of the two structures: decoding undoes encoding,
    and a document with fields is not blank. *)
Record yaml_faithful : Prop := {
  yf_affinity v data : yaml_affinity v = Ok data → unyaml_affinity data = Ok v ∧ trim_space data ≠ "";
  yf_script v data : yaml_script v = Ok data → unyaml_script data = Ok v ∧ trim_space data ≠ "" }.

Lemma decode_optional_from value a a' omitted :
  (decode_bool (optionalRuleBool value a omitted) omitted a').1 = value.
Proof. unfold optionalRuleBool. case_decide as H; [|done]. by destruct H as [-> _]. Qed.

Lemma annotation_mark a k k' :
  annotation (markRuleBooleanOmitted a k) k' = if decide (k = k') then "true" else annotation a k'.
Proof.
  unfold annotation, markRuleBooleanOmitted. simpl. case_decide as Hk.
  - subst k'. by rewrite lookup_insert_eq.
  - rewrite lookup_insert_ne by done. by destruct a.
Qed.

Lemma annotation_clear a k k' :
  annotation (clearRuleBooleanOmitted a k) k' = if decide (k = k') then "" else annotation a k'.
Proof.
  unfold annotation, clearRuleBooleanOmitted.
  assert (Hd : default "" (delete k (default ∅ a) !! k') = if decide (k = k') then "" else default "" (a ≫= (.!! k'))).
  { case_decide as Hk; [subst k'; by rewrite lookup_delete_eq|]. rewrite lookup_delete_ne by done. by destruct a. }
  rewrite <-Hd. clear Hd. case_decide as He; [by rewrite He, lookup_empty|done].
Qed.

Lemma optional_decode b a omitted :
  optionalRuleBool (decode_bool b omitted a).1 (decode_bool b omitted a).2 omitted = b.
Proof.
  unfold optionalRuleBool. destruct b as [v|]; simpl.
  - rewrite annotation_clear, (decide_True (P := omitted = omitted)) by done.
    rewrite decide_False; [done|]. by intros [_ ?].
  - rewrite annotation_mark, (decide_True (P := omitted = omitted)) by done. by rewrite decide_True.
Qed.

Lemma decode_bool_other b a k k' : k ≠ k' →
  annotation (decode_bool b k a).2 k' = annotation a k'.
Proof. intros Hk. destruct b; simpl; [rewrite annotation_clear|rewrite annotation_mark]; by rewrite decide_False. Qed.

Lemma affinity_external_internal mesh name e :
  ∃ s, res_spec (affinity_internal mesh name e) = AffinityRouteSpec (Some s) ∧
    affinity_external (affinity_internal mesh name e) s = e.
Proof.
  unfold affinity_internal.
  pose proof (optional_decode (ary_Runtime e) None affinityRuntimeOmittedAnnotation) as Hr.
  destruct (decode_bool (ary_Runtime e) _ None) as [runtime a1] eqn:E1.
  pose proof (optional_decode (ary_Enabled e) a1 affinityEnabledOmittedAnnotation) as He.
  pose proof (decode_bool_other (ary_Enabled e) a1 affinityEnabledOmittedAnnotation
    affinityRuntimeOmittedAnnotation ltac:(discriminate)) as Ho.
  destruct (decode_bool (ary_Enabled e) _ a1) as [enabled a2]. simpl in *.
  eexists. split; [done|]. unfold affinity_external. simpl.
  assert (Hr2 : optionalRuleBool runtime a2 affinityRuntimeOmittedAnnotation = ary_Runtime e).
  { unfold optionalRuleBool in *. by rewrite Ho. }
  rewrite Hr2, He. destruct e as [v sc k rt en [[ak ar]|]]; done.
Qed.

Lemma script_external_internal mesh name e :
  ∃ s, res_spec (script_internal mesh name e) = ScriptRouteSpec (Some s) ∧
    script_external (script_internal mesh name e) s = e.
Proof.
  unfold script_internal.
  pose proof (optional_decode (sry_Enabled e) None scriptEnabledOmittedAnnotation) as He.
  destruct (decode_bool (sry_Enabled e) _ None) as [enabled a]. simpl in *.
  eexists. split; [done|]. unfold script_external. simpl. rewrite He. by destruct e.
Qed.

Lemma ValidateRule_meta r r' :
  res_spec r = res_spec r' → res_Name r = res_Name r' → ValidateRule (Some r) = ValidateRule (Some r').
Proof. intros Hs Hn. unfold ValidateRule. by rewrite Hs, Hn. Qed.

Lemma affinity_internal_external mesh name r s :
  res_spec (affinity_internal mesh name (affinity_external r s)) = AffinityRouteSpec (Some s).
Proof.
  unfold affinity_internal. cbn [affinity_external ary_Runtime ary_Enabled].
  pose proof (λ a, decode_optional_from (ar_Runtime s) (meta_Annotations (res_meta r)) a
    affinityRuntimeOmittedAnnotation) as H1.
  pose proof (λ a, decode_optional_from (ar_Enabled s) (meta_Annotations (res_meta r)) a
    affinityEnabledOmittedAnnotation) as H2.
  specialize (H1 None). destruct (decode_bool _ _ None) as [rt a1]. simpl in H1. subst rt.
  specialize (H2 a1). destruct (decode_bool _ _ a1) as [en a2]. simpl in H2. subst en.
  by destruct s as [v sc k rt en [[ak ar]|]].
Qed.

Lemma script_internal_external mesh name r s :
  res_spec (script_internal mesh name (script_external r s)) = ScriptRouteSpec (Some s).
Proof.
  unfold script_internal. cbn [script_external sry_Enabled].
  pose proof (decode_optional_from (sr_Enabled s) (meta_Annotations (res_meta r)) None
    scriptEnabledOmittedAnnotation) as H1.
  destruct (decode_bool _ _ None) as [en a]. simpl in H1. subst en. by destruct s.
Qed.

Lemma internal_key mesh name :
  (∀ e, res_Mesh (affinity_internal mesh name e) = mesh ∧ res_Name (affinity_internal mesh name e) = name) ∧
  (∀ e, res_Mesh (script_internal mesh name e) = mesh ∧ res_Name (script_internal mesh name e) = name).
Proof.
  split; intros e; unfold affinity_internal, script_internal.
  - destruct (decode_bool _ _ None) as [??]. by destruct (decode_bool _ _ _).
  - by destruct (decode_bool _ _ None).
Qed.

Lemma validated_again r r' :
  res_spec r' = res_spec r → res_Name r' = res_Name r → ValidateRule (Some r) = None →
  ValidateRule (Some r') = None ∧ validated r' = Ok r'.
Proof. intros Hs Hn Hv. unfold validated. by rewrite (ValidateRule_meta r' r), Hv. Qed.

Lemma EncodeRule_inv r data :
  EncodeRule (Some r) = Ok data → ValidateRule (Some r) = None ∧
  match res_spec r with
  | AffinityRouteSpec (Some s) => yaml_affinity (affinity_external r s) = Ok data
  | ScriptRouteSpec (Some s) => yaml_script (script_external r s) = Ok data
  | spec => yaml_spec spec = Ok data
  end.
Proof.
  unfold EncodeRule. destruct (ValidateRule (Some r)); [done|]. intros H. split; [done|].
  repeat case_match; simplify_eq; done.
Qed.

(** C33: an affinity or script rule that is encoded for the configuration
    center decodes to a rule of the same name, mesh and spec, which encodes to
    the same document again: the booleans the document left out stay left out. *)
Theorem rule_roundtrip r data :
  yaml_faithful → res_kind r = AffinityRouteKind ∨ res_kind r = ScriptRouteKind →
  EncodeRule (Some r) = Ok data →
  ∃ r', DecodeRule (res_kind r) (res_Mesh r) (res_Name r) data = Ok r' ∧
    res_spec r' = res_spec r ∧ ResourceKey r' = ResourceKey r ∧ EncodeRule (Some r') = Ok data.
Proof.
  intros Hy Hk (Hv & Hd)%EncodeRule_inv.
  destruct (internal_key (res_Mesh r) (res_Name r)) as [Ka Ks].
  destruct (res_spec r) as [| | | | | | | | | |[s|]|[s|]| | | | |] eqn:Hs;
    unfold res_kind in *; rewrite Hs in *; simpl in Hk; try (by destruct Hk);
    try (by unfold ValidateRule in Hv; rewrite Hs in Hv).
  - pose proof (affinity_internal_external (res_Mesh r) (res_Name r) r s) as Hi.
    destruct (affinity_external_internal (res_Mesh r) (res_Name r) (affinity_external r s)) as (s' & Hs' & Hx).
    destruct (Ka (affinity_external r s)) as [Hm Hn]. rewrite Hi in Hs'. injection Hs' as <-.
    set (r' := affinity_internal _ _ _) in *.
    destruct (validated_again r r') as [Hv' Hok]; [by rewrite Hi, Hs|done|done|].
    destruct (yf_affinity Hy _ _ Hd) as [Hu Hb]. exists r'. unfold DecodeRule, EncodeRule, ResourceKey.
    cbn -[ValidateRule validated trim_space]. rewrite bool_decide_eq_false_2, Hu by done. fold r'.
    rewrite Hok, Hm, Hn, Hv', Hi, Hx, Hd. done.
  - pose proof (script_internal_external (res_Mesh r) (res_Name r) r s) as Hi.
    destruct (script_external_internal (res_Mesh r) (res_Name r) (script_external r s)) as (s' & Hs' & Hx).
    destruct (Ks (script_external r s)) as [Hm Hn]. rewrite Hi in Hs'. injection Hs' as <-.
    set (r' := script_internal _ _ _) in *.
    destruct (validated_again r r') as [Hv' Hok]; [by rewrite Hi, Hs|done|done|].
    destruct (yf_script Hy _ _ Hd) as [Hu Hb]. exists r'. unfold DecodeRule, EncodeRule, ResourceKey.
    cbn -[ValidateRule validated trim_space]. rewrite bool_decide_eq_false_2, Hu by done. fold r'.
    rewrite Hok, Hm, Hn, Hv', Hi, Hx, Hd. done.
Qed.
End codec.

Module RuleCodecExample.
(** A script rule whose document leaves [enabled] out. *)
Definition script : scriptRouteYAML :=
  {| sry_ConfigVersion := "v3.1"; sry_Scope := "application"; sry_Key := "shop"; sry_Enabled := None;
     sry_Type := "javascript"; sry_Script := "return invokers" |}.
#[export] Instance script_eq_dec : EqDecision scriptRouteYAML.
Proof. solve_decision. Defined.
Definition document : string := "type: javascript".
Definition yaml (v : scriptRouteYAML) : result error string :=
  if decide (v = script) then Ok document else Err (ErrorText "yaml").
Definition unyaml (d : string) : result error scriptRouteYAML :=
  if decide (d = document) then Ok script else Err (ErrorText "yaml").
Definition rule : Resource := script_internal "mesh" "shop.script-router" script.

Lemma yaml_faithful_script :
  yaml_faithful (λ _, Err (ErrorText "yaml")) yaml (λ _, Err (ErrorText "yaml")) unyaml.
Proof.
  split; [done|]. intros v d. unfold yaml. case_decide as Hv; [|done]. intros [= <-]. by subst v.
Qed.

Lemma rule_roundtrip_witness :
  ∃ r', DecodeRule (λ _, Err (ErrorText "yaml")) unyaml (λ _ _, Err (ErrorText "yaml"))
      ScriptRouteKind "mesh" "shop.script-router" document = Ok r' ∧
    res_spec r' = res_spec rule ∧ ResourceKey r' = ResourceKey rule ∧
    EncodeRule (λ _, Err (ErrorText "yaml")) yaml (λ _, Err (ErrorText "yaml")) (Some r') = Ok document.
Proof.
  exact (rule_roundtrip (λ _, Err (ErrorText "yaml")) yaml (λ _, Err (ErrorText "yaml"))
    (λ _, Err (ErrorText "yaml")) unyaml (λ _ _, Err (ErrorText "yaml")) rule document
    yaml_faithful_script (or_intror eq_refl) ltac:(vm_compute; reflexivity)).
Defined.
End RuleCodecExample.
