(* ===== verification/ConditionExpr.v ===== *)
(** pkg/console/model/condition_rule.go: argument routes and the expressions
    they are kept as in condition rules, printed by [ToExpression] and read by
    [ParseConditionExpression]. *)
From S2P Require Import Prelude GoStrings.
From Stdlib Require Import Ascii.

Open Scope string_scope.
Open Scope list_scope.

Definition Equal : string := "=".
Definition NotEqual : string := "!=".

Record RouteCondition := { rc_Index : string; rc_Relation : string; rc_Value : string }.
Record DestinationCondition := { tc_Relation : string; tc_Tag : string; tc_Value : string }.
Record Destination := { dst_Conditions : list DestinationCondition; dst_Weight : Z }.
Record ServiceArgument := {
  sa_Conditions : list RouteCondition;
  sa_Destinations : list Destination;
  sa_Method : string }.

(** ** Printing *)
Definition route_string (r : RouteCondition) : string :=
  if decide (rc_Relation r = Equal) then "arguments[" +:+ rc_Index r +:+ "]" +:+ Equal +:+ rc_Value r
  else "arguments[" +:+ rc_Index r +:+ "]" +:+ NotEqual +:+ rc_Value r.

Definition destination_string (d : DestinationCondition) : string :=
  if decide (tc_Relation d = Equal) then tc_Tag d +:+ Equal +:+ tc_Value d
  else tc_Tag d +:+ NotEqual +:+ tc_Value d.

(** The two nested loops over the destinations. *)
Fixpoint print_conditions (destIdx condIdx : nat) (expression : string)
    (l : list DestinationCondition) : string :=
  match l with
  | [] => expression
  | condition :: l =>
      let expression :=
        if decide (0 < destIdx ∨ 0 < condIdx) then expression +:+ " & " else expression in
      print_conditions destIdx (S condIdx) (expression +:+ destination_string condition) l
  end.

Fixpoint print_destinations (destIdx : nat) (expression : string) (l : list Destination) : string :=
  match l with
  | [] => expression
  | destination :: l =>
      let expression := print_conditions destIdx 0 expression (dst_Conditions destination) in
      print_destinations (S destIdx)
        (match l with [] => expression | _ => expression +:+ ", " end) l
  end.

Definition ToExpression (sa : ServiceArgument) : string :=
  let expression := "method=" +:+ sa_Method sa in
  let expression :=
    foldl (λ e condition, e +:+ (" & " +:+ route_string condition)) expression (sa_Conditions sa) in
  match sa_Destinations sa with
  | [] => expression
  | _ => print_destinations 0 (expression +:+ " => ") (sa_Destinations sa)
  end.

(** ** Parsing *)

(** The relation of a condition and the texts around it. *)
Definition cut_relation (condition : string) : option (string * string * string) :=
  let cut op :=
    i ← str_find op condition;
    Some (op, trim_space (str_take i condition), trim_space (str_drop (i + String.length op) condition)) in
  match cut NotEqual with
  | Some c => Some c
  | None => cut Equal
  end.

Definition parseRouteCondition (condition : string) : RouteCondition :=
  match cut_relation condition with
  | None => {| rc_Index := ""; rc_Relation := ""; rc_Value := "" |}
  | Some (relation, leftPart, rightPart) =>
      if has_prefix leftPart "arguments[" && has_suffix leftPart "]" then
        let argIndex := str_drop 10 (str_take (String.length leftPart - 1) leftPart) in
        {| rc_Index := argIndex; rc_Relation := relation; rc_Value := rightPart |}
      else {| rc_Index := leftPart; rc_Relation := relation; rc_Value := rightPart |}
  end.

Definition parseDestinationCondition (condition : string) : DestinationCondition :=
  match cut_relation condition with
  | None => {| tc_Relation := ""; tc_Tag := ""; tc_Value := "" |}
  | Some (relation, leftPart, rightPart) =>
      {| tc_Relation := relation; tc_Tag := leftPart; tc_Value := rightPart |}
  end.

Fixpoint from_loop (method : string) (conditions : list RouteCondition) (subConditions : list string)
    : string * list RouteCondition :=
  match subConditions with
  | [] => (method, conditions)
  | condition :: rest =>
      let condition := trim_space condition in
      if has_prefix condition "method=" then
        from_loop (trim_space (trim_prefix condition "method=")) conditions rest
      else
        let routeCond := parseRouteCondition condition in
        from_loop method
          (if decide (rc_Index routeCond = "") then conditions else conditions ++ [routeCond]) rest
  end.

Definition parseFromPart (fromPart : string) : string * list RouteCondition :=
  from_loop "" [] (str_split "&" fromPart).

Definition parseToPart (toPart : string) : list Destination :=
  if decide (toPart = "") then []
  else
    let conditions :=
      omap (λ condition,
        let destCond := parseDestinationCondition (trim_space condition) in
        if decide (tc_Tag destCond = "") then None else Some destCond) (str_split "&" toPart) in
    [{| dst_Conditions := conditions; dst_Weight := 0 |}].

Definition ParseConditionExpression (expression : string) : ServiceArgument :=
  let parts := str_split "=>" expression in
  let fromPart := trim_space (default "" (head parts)) in
  let toPart := match parts with _ :: p :: _ => trim_space p | _ => "" end in
  let '(method, conditions) := parseFromPart fromPart in
  {| sa_Method := method; sa_Conditions := conditions; sa_Destinations := parseToPart toPart |}.

Example parse_tag : ParseConditionExpression "method=buy & arguments[0]=gold => region=$region & env!=gray" =
  {| sa_Method := "buy";
     sa_Conditions := [{| rc_Index := "0"; rc_Relation := "="; rc_Value := "gold" |}];
     sa_Destinations := [{| dst_Conditions :=
       [{| tc_Relation := "="; tc_Tag := "region"; tc_Value := "$region" |};
        {| tc_Relation := "!="; tc_Tag := "env"; tc_Value := "gray" |}]; dst_Weight := 0 |}] |}.
Proof. vm_compute. reflexivity. Qed.

(** ** Round trip *)

(** Printable ASCII without blanks and the characters an expression is
    built with. *)
Definition plain_char (c : ascii) : bool :=
  graphic c && negb (bool_decide (c ∈ ["&"; "="; "!"; ">"]%char)).

Definition plain (s : string) : bool := str_all plain_char s.

(** *** Finding a separator *)
Lemma str_find_two x y a b :
  x ≠ y → str_contains y a = false →
  str_find (String x (String y "")) (a +:+ String x (String y b)) = Some (String.length a).
Proof.
  intros Hxy. induction a as [|c a IH].
  - intros _. change ("" +:+ String x (String y b)) with (String x (String y b)). simpl.
    destruct (ascii_dec x x), (ascii_dec y y); try done. by destruct b.
  - change ((String c a) +:+ String x (String y b)) with (String c (a +:+ String x (String y b))).
    simpl. case_decide as Hc; [done|]. intros Ha. rewrite IH by done.
    destruct (ascii_dec x c) as [->|]; [|done].
    destruct a as [|d a]; simpl.
    + by destruct (ascii_dec y c).
    + simpl in Ha. case_decide; [done|]. by destruct (ascii_dec y d).
Qed.

Lemma str_find_none c sep s :
  str_contains c sep = true → str_contains c s = false → str_find sep s = None.
Proof.
  intros Hsep Hs. destruct (String.prefix sep s) eqn:Hp.
  - apply str_prefix_spec in Hp as [t ->]. rewrite str_contains_app in Hs.
    apply orb_false_iff in Hs as [Hs _]. congruence.
  - revert Hs. induction s as [|d s IH]; cbn [str_find str_contains]; rewrite Hp; [done|].
    case_decide; [done|]. intros Hs. rewrite IH; [done| |done].
    destruct (String.prefix sep s) eqn:Hp'; [|done].
    apply str_prefix_spec in Hp' as [t ->]. rewrite str_contains_app in Hs.
    apply orb_false_iff in Hs as [Hs' _]. congruence.
Qed.

Lemma str_find_char c a b :
  str_contains c a = false → str_find (String c "") (a +:+ String c b) = Some (String.length a).
Proof.
  induction a as [|d a IH].
  - intros _. change ("" +:+ String c b) with (String c b). simpl. destruct (ascii_dec c c); [|done].
    by destruct b.
  - change ((String d a) +:+ String c b) with (String d (a +:+ String c b)).
    simpl. case_decide as Hd; [done|]. intros Ha. rewrite IH by done.
    by destruct (ascii_dec c d) as [->|].
Qed.

(** *** Cutting at a separator *)
(** *** Texts joined by [" & "] *)
Definition joined (w : string) (ws : list string) : string :=
  foldl (λ e v, e +:+ (" & " +:+ v)) w ws.

Lemma joined_app a b ws : joined (a +:+ b) ws = a +:+ joined b ws.
Proof.
  unfold joined. revert b. induction ws as [|w ws IH]; intros b; [done|]. simpl.
  rewrite <-str_app_assoc. apply IH.
Qed.
Lemma joined_cons w v ws : joined w (v :: ws) = (w +:+ " ") +:+ ("&" +:+ String " " (joined v ws)).
Proof.
  change (joined w (v :: ws)) with (joined (w +:+ (" & " +:+ v)) ws).
  rewrite joined_app. change (" & " +:+ v) with (" & " +:+ v). rewrite joined_app.
  by rewrite <-str_app_assoc.
Qed.

(** A text between separators: graphic, not empty and without separators. *)
Definition word (s : string) : Prop :=
  s ≠ "" ∧ str_all (λ c, graphic c && negb (bool_decide (c ∈ ["&"; ">"]%char))) s = true.

Lemma word_graphic s : word s → str_all graphic s = true.
Proof. intros [_ Hs]. eapply str_all_impl; [|exact Hs]. intros c [? _]%andb_true_iff. done. Qed.
Lemma word_starts s : word s → starts s.
Proof. intros Hs. apply graphic_starts; [apply Hs|by apply word_graphic]. Qed.
Lemma word_ends s : word s → ends s.
Proof. intros Hs. apply graphic_ends; [apply Hs|by apply word_graphic]. Qed.
Lemma word_no c s : c ∈ ["&"; ">"]%char → word s → str_contains c s = false.
Proof.
  intros Hc [_ Hs]. eapply str_all_contains; [|exact Hs]. simpl.
  rewrite bool_decide_eq_true_2 by done. apply andb_false_r.
Qed.

Lemma joined_starts w ws : word w → starts (joined w ws).
Proof. intros Hw. rewrite <-(str_app_nil_r w), joined_app. by apply starts_app, word_starts. Qed.
Lemma joined_ends w ws : word w → Forall word ws → ends (joined w ws).
Proof.
  intros Hw Hws. revert w Hw. induction Hws as [|v ws Hv _ IH]; intros w Hw; [by apply word_ends|].
  rewrite joined_cons, str_app_assoc. change (String " " (joined v ws)) with (" " +:+ joined v ws).
  rewrite str_app_assoc. by apply ends_app, IH.
Qed.
Lemma joined_no_gt w ws : word w → Forall word ws → str_contains ">" (joined w ws) = false.
Proof.
  intros Hw Hws. revert w Hw. induction Hws as [|v ws Hv _ IH]; intros w Hw.
  - apply word_no; [set_solver|done].
  - rewrite joined_cons, !str_contains_app, (word_no ">" w) by (set_solver || done).
    simpl. by apply IH.
Qed.

Lemma split_joined w ws :
  word w → Forall word ws →
  trim_space <$> str_split "&" (joined w ws) = w :: ws ∧
  trim_space <$> str_split "&" (String " " (joined w ws)) = w :: ws.
Proof.
  intros Hw Hws. revert w Hw. induction Hws as [|v ws Hv _ IH]; intros w Hw.
  - change (joined w []) with w.
    assert (str_contains "&" w = false) as Hn by (apply word_no; [set_solver|done]).
    split; rewrite str_split_whole by (by apply (str_find_none "&")); simpl;
      rewrite ?trim_blank_left, trim_tidy by (by apply word_starts || by apply word_ends); done.
  - assert (str_contains "&" w = false) as Hn by (apply word_no; [set_solver|done]).
    rewrite joined_cons. specialize (IH v Hv) as [_ IH].
    change (String " " ((w +:+ " ") +:+ ("&" +:+ String " " (joined v ws))))
      with ((String " " (w +:+ " ")) +:+ ("&" +:+ String " " (joined v ws))).
    assert (Hn' : str_contains "&" (w +:+ " ") = false) by (by rewrite str_contains_app, Hn).
    split; rewrite str_split_cut by (done || by apply str_find_char); rewrite fmap_cons, IH;
      rewrite ?trim_blank_left, trim_tidy_right by (by apply word_starts || by apply word_ends); done.
Qed.

(** *** Conditions *)
Definition relation_ok (r : string) : Prop := r = Equal ∨ r = NotEqual.
Definition route_ok (r : RouteCondition) : Prop :=
  rc_Index r ≠ "" ∧ plain (rc_Index r) = true ∧ plain (rc_Value r) = true ∧ relation_ok (rc_Relation r).
Definition destination_ok (d : DestinationCondition) : Prop :=
  tc_Tag d ≠ "" ∧ plain (tc_Tag d) = true ∧ plain (tc_Value d) = true ∧ relation_ok (tc_Relation d).

Lemma plain_no c s : c ∈ ["&"; "="; "!"; ">"]%char → plain s = true → str_contains c s = false.
Proof.
  intros Hc. apply str_all_contains. unfold plain_char. rewrite bool_decide_eq_true_2 by done.
  apply andb_false_r.
Qed.
Lemma plain_graphic s : plain s = true → str_all graphic s = true.
Proof. apply str_all_impl. by intros c [? _]%andb_true_iff. Qed.
Definition word_char (c : ascii) : bool := graphic c && negb (bool_decide (c ∈ ["&"; ">"]%char)).
Lemma plain_word s : plain s = true → str_all word_char s = true.
Proof.
  apply str_all_impl. unfold word_char. intros c [Hg Hn]%andb_true_iff. rewrite Hg. simpl.
  apply negb_true_iff, bool_decide_eq_false in Hn. apply negb_true_iff, bool_decide_eq_false_2. set_solver.
Qed.
Lemma plain_trim s : plain s = true → trim_space s = s.
Proof.
  intros Hs%plain_graphic. destruct (decide (s = "")) as [->|]; [done|].
  apply trim_tidy; [by apply graphic_starts|by apply graphic_ends].
Qed.

(** A relation between a text without ["="] and ["!"] and a plain text. *)
Lemma cut_relation_of l op v :
  l ≠ "" → str_all graphic l = true → str_contains "=" l = false → str_contains "!" l = false →
  plain v = true → relation_ok op → cut_relation (l +:+ (op +:+ v)) = Some (op, l, v).
Proof.
  intros Hne Hg He Hn Hv Hop. unfold cut_relation.
  assert (Htl : trim_space l = l) by (apply trim_tidy; [by apply graphic_starts|by apply graphic_ends]).
  assert (Htv := plain_trim v Hv). destruct Hop as [->| ->].
  - rewrite (str_find_none "!" NotEqual).
    2: done.
    2: { rewrite !str_contains_app, Hn. simpl. apply plain_no; [set_solver|done]. }
    simpl. change (Equal +:+ v) with (String "=" v).
    change Equal with (String "=" ""). rewrite str_find_char by done. simpl.
    rewrite str_take_app, Nat.add_1_r, str_drop_app_S. by rewrite Htl, Htv.
  - change (NotEqual +:+ v) with (String "!" (String "=" v)).
    change NotEqual with (String "!" (String "=" "")). rewrite str_find_two by done. simpl.
    rewrite str_take_app. replace (String.length l + 2) with (String.length (l +:+ "!="))
      by apply str_length_app.
    change (String "!" (String "=" v)) with ("!=" +:+ v). rewrite str_app_assoc, str_drop_app.
    by rewrite Htl, Htv.
Qed.

Lemma parse_route_string r : route_ok r → parseRouteCondition (route_string r) = r.
Proof.
  intros (Hne & Hi & Hv & Hr). unfold parseRouteCondition.
  assert (Hs : route_string r =
    (("arguments[" +:+ rc_Index r) +:+ "]") +:+ (rc_Relation r +:+ rc_Value r)).
  { unfold route_string. destruct Hr as [->| ->]; simpl; by rewrite <-!str_app_assoc. }
  rewrite Hs. clear Hs.
  set (l := ("arguments[" +:+ rc_Index r) +:+ "]").
  assert (Hall : ∀ p : ascii → bool, str_all p "arguments[" = true → str_all p "]" = true →
    str_all p (rc_Index r) = true → str_all p l = true).
  { intros p H1 H2 H3. unfold l. by rewrite !str_all_app, H1, H2, H3. }
  rewrite cut_relation_of; [| |by apply Hall, plain_graphic| | |done|done].
  - assert (Hp : has_prefix l "arguments[" = true).
    { unfold l. rewrite <-str_app_assoc. apply str_prefix_app. }
    rewrite Hp. unfold l at 1. rewrite has_suffix_snoc. simpl andb. cbn match.
    unfold l. rewrite !str_length_app, Nat.add_sub. rewrite <-str_length_app, str_take_app.
    change 10 with (String.length "arguments["). rewrite str_drop_app. by destruct r.
  - unfold l. by destruct (rc_Index r).
  - unfold l. by rewrite !str_contains_app, (plain_no "=" (rc_Index r)) by (set_solver || done).
  - unfold l. by rewrite !str_contains_app, (plain_no "!" (rc_Index r)) by (set_solver || done).
Qed.

Lemma parse_destination_string d :
  destination_ok d → parseDestinationCondition (destination_string d) = d.
Proof.
  intros (Hne & Ht & Hv & Hr). unfold parseDestinationCondition.
  assert (Hs : destination_string d = tc_Tag d +:+ (tc_Relation d +:+ tc_Value d)).
  { unfold destination_string. by destruct Hr as [->| ->]. }
  rewrite Hs, cut_relation_of; try done; [by destruct d|by apply plain_graphic|..];
    apply plain_no; (set_solver || done).
Qed.

Lemma route_word r : route_ok r → word (route_string r).
Proof.
  intros (Hne & Hi%plain_word & Hv%plain_word & Hr). unfold route_string.
  split; [by case_decide|]. fold word_char.
  case_decide; rewrite !str_all_app, Hi, Hv; done.
Qed.
Lemma destination_word d : destination_ok d → word (destination_string d).
Proof.
  intros (Hne & Ht%plain_word & Hv%plain_word & Hr). unfold destination_string.
  split; [case_decide; by destruct (tc_Tag d)|]. fold word_char.
  case_decide; rewrite !str_all_app, Ht, Hv; done.
Qed.
Lemma words_of {A} (f : A → string) (P : A → Prop) l :
  (∀ x, P x → word (f x)) → Forall P l → Forall word (f <$> l).
Proof. intros Hf Hl. apply Forall_fmap. by eapply Forall_impl. Qed.
Lemma method_word m : plain m = true → word ("method=" +:+ m).
Proof. intros Hm%plain_word. split; [done|]. fold word_char. by rewrite str_all_app, Hm. Qed.

(** *** Expressions *)
Fixpoint from_words (method : string) (conditions : list RouteCondition) (words : list string)
    : string * list RouteCondition :=
  match words with
  | [] => (method, conditions)
  | w :: rest =>
      if has_prefix w "method=" then from_words (trim_space (trim_prefix w "method=")) conditions rest
      else
        let routeCond := parseRouteCondition w in
        from_words method
          (if decide (rc_Index routeCond = "") then conditions else conditions ++ [routeCond]) rest
  end.

Lemma from_loop_words m cs l : from_loop m cs l = from_words m cs (trim_space <$> l).
Proof.
  revert m cs. induction l as [|c l IH]; intros m cs; [done|].
  rewrite fmap_cons. simpl. by destruct (has_prefix _ _).
Qed.

Lemma from_words_routes m cs rs :
  Forall route_ok rs → from_words m cs (route_string <$> rs) = (m, cs ++ rs).
Proof.
  intros Hrs. revert cs. induction Hrs as [|r rs Hr _ IH]; intros cs; [by rewrite app_nil_r|].
  rewrite fmap_cons. cbn [from_words].
  assert (has_prefix (route_string r) "method=" = false) as ->.
  { unfold route_string. by case_decide. }
  rewrite parse_route_string by done. rewrite decide_False by apply Hr.
  rewrite IH, <-app_assoc. done.
Qed.

Lemma parseFromPart_joined m rs :
  plain m = true → Forall route_ok rs →
  parseFromPart (joined ("method=" +:+ m) (route_string <$> rs)) = (m, rs).
Proof.
  intros Hm Hrs. unfold parseFromPart. rewrite from_loop_words.
  rewrite (proj1 (split_joined _ _ (method_word m Hm) (words_of _ _ _ route_word Hrs))).
  cbn [from_words]. unfold trim_prefix.
  assert (has_prefix ("method=" +:+ m) "method=" = true) as -> by apply str_prefix_app.
  change (String.length "method=") with (String.length "method="). rewrite str_drop_app.
  rewrite plain_trim by done. by rewrite from_words_routes.
Qed.

Definition tagged (w : string) : option DestinationCondition :=
  let d := parseDestinationCondition w in if decide (tc_Tag d = "") then None else Some d.

Lemma parse_destinations ds :
  Forall destination_ok ds → omap tagged (destination_string <$> ds) = ds.
Proof.
  induction 1 as [|d ds Hd _ IH]; [done|]. rewrite fmap_cons.
  assert (tagged (destination_string d) = Some d) as Ht.
  { unfold tagged. rewrite parse_destination_string by done. by rewrite decide_False by apply Hd. }
  cbn [omap list_omap]. rewrite Ht. by f_equal.
Qed.

Lemma omap_trim {A} (f : string → option A) (l : list string) : omap (λ c, f (trim_space c)) l = omap f (trim_space <$> l).
Proof. induction l as [|c l IH]; csimpl; [done|]. by rewrite IH. Qed.

Lemma parseToPart_joined d ds :
  Forall destination_ok (d :: ds) →
  parseToPart (joined (destination_string d) (destination_string <$> ds)) =
  [{| dst_Conditions := d :: ds; dst_Weight := 0 |}].
Proof.
  intros Hds. pose proof (Forall_inv Hds) as Hd. pose proof (Forall_inv_tail Hds) as Htl.
  unfold parseToPart. rewrite decide_False.
  2: { destruct (joined_starts _ (destination_string <$> ds) (destination_word d Hd)) as (c & t & -> & _).
       done. }
  change (omap _ _) with (omap (λ c, tagged (trim_space c))
    (str_split "&" (joined (destination_string d) (destination_string <$> ds)))).
  rewrite (omap_trim tagged).
  rewrite (proj1 (split_joined _ _ (destination_word d Hd) (words_of _ _ _ destination_word Htl))).
  by rewrite <-fmap_cons, parse_destinations.
Qed.

Lemma print_conditions_joined i e l :
  print_conditions 0 (S i) e l = joined e (destination_string <$> l).
Proof.
  revert i e. induction l as [|d l IH]; intros i e; [done|]. cbn [print_conditions].
  rewrite decide_True by lia. rewrite IH. by rewrite <-str_app_assoc.
Qed.

Lemma foldl_joined e rs :
  foldl (λ e condition, e +:+ (" & " +:+ route_string condition)) e rs =
  joined e (route_string <$> rs).
Proof. unfold joined. revert e. induction rs as [|r rs IH]; intros e; [done|]. apply IH. Qed.

(** An argument route whose texts are plain, with no destination or with the
    conditions of a single destination of weight 0. *)
Record canonical (sa : ServiceArgument) : Prop := {
  cn_method : plain (sa_Method sa) = true;
  cn_conditions : Forall route_ok (sa_Conditions sa);
  cn_destinations : sa_Destinations sa = [] ∨
    ∃ d ds, sa_Destinations sa = [{| dst_Conditions := d :: ds; dst_Weight := 0 |}] ∧
      Forall destination_ok (d :: ds) }.

(** C39: Reading back the expression printed for an argument route gives the
    route: its method, its argument conditions with their relations, and the
    conditions of its destination. The texts are of graphic characters other
    than those the expressions are made of; every argument condition has an
    index, every condition of a destination a tag, and both the relation = or
    !=; and there is no destination or one, of weight 0 and with at least one
    condition. *)
Theorem expression_roundtrip sa (Hc : canonical sa) : ParseConditionExpression (ToExpression sa) = sa.
Proof.
  destruct Hc as [Hm Hrs Hds]. unfold ToExpression, ParseConditionExpression. rewrite foldl_joined.
  set (F := joined ("method=" +:+ sa_Method sa) (route_string <$> sa_Conditions sa)).
  pose proof (method_word _ Hm) as Hw.
  pose proof (words_of _ _ _ route_word Hrs) as Hws.
  pose proof (joined_starts _ (route_string <$> sa_Conditions sa) Hw) as HFs.
  pose proof (joined_ends _ _ Hw Hws) as HFe. pose proof (joined_no_gt _ _ Hw Hws) as HFn.
  pose proof (parseFromPart_joined _ _ Hm Hrs) as HF. fold F in HFs, HFe, HFn, HF.
  destruct Hds as [Hds|(d & ds & Hds & Hok)]; rewrite Hds.
  - rewrite str_split_whole by by apply (str_find_none ">"). simpl.
    rewrite trim_tidy by done. rewrite HF. destruct sa; simpl in *. by subst.
  - cbn [print_destinations dst_Conditions print_conditions]. rewrite decide_False by lia.
    rewrite print_conditions_joined, joined_app.
    pose proof (Forall_inv Hok) as Hd.
    pose proof (words_of _ _ _ destination_word (Forall_inv_tail Hok)) as Hdw.
    pose proof (destination_word d Hd) as Hd1.
    set (T := joined (destination_string d) (destination_string <$> ds)).
    change ((F +:+ " => ") +:+ T) with ((F +:+ (" " +:+ ("=>" +:+ " "))) +:+ T).
    replace ((F +:+ (" " +:+ ("=>" +:+ " "))) +:+ T) with ((F +:+ " ") +:+ ("=>" +:+ String " " T))
      by by rewrite <-!str_app_assoc.
    rewrite str_split_cut; [|done|].
    2: { apply str_find_two; [done|]. by rewrite str_contains_app, HFn. }
    rewrite str_split_whole by (apply (str_find_none ">"); [done|]; simpl; by apply joined_no_gt).
    simpl. rewrite trim_tidy_right by done. rewrite HF, trim_blank_left.
    rewrite trim_tidy by (by apply joined_starts || by apply joined_ends).
    unfold T. rewrite parseToPart_joined by done. destruct sa; simpl in *. by subst.
Qed.

Module ConditionExprExample.

Definition gold : ServiceArgument :=
  {| sa_Method := "buy";
     sa_Conditions := [{| rc_Index := "0"; rc_Relation := "="; rc_Value := "gold" |};
                       {| rc_Index := "1"; rc_Relation := "!="; rc_Value := "" |}];
     sa_Destinations := [{| dst_Conditions :=
       [{| tc_Relation := "="; tc_Tag := "region"; tc_Value := "$region" |};
        {| tc_Relation := "!="; tc_Tag := "env"; tc_Value := "gray" |}]; dst_Weight := 0 |}] |}.

Lemma gold_canonical : canonical gold.
Proof.
  split; [done|..].
  - repeat (constructor; [split_and!; try done; ((by left) || (by right))|]). constructor.
  - right. eexists _, _. split; [reflexivity|].
    repeat (constructor; [split_and!; try done; ((by left) || (by right))|]). constructor.
Qed.

Lemma expression_roundtrip_witness :
  ToExpression gold = "method=buy & arguments[0]=gold & arguments[1]!= => region=$region & env!=gray" ∧
  ParseConditionExpression (ToExpression gold) = gold.
Proof. split; [by vm_compute|]. apply expression_roundtrip. exact gold_canonical. Defined.

(** Two destinations come back as one, the first destination's last value
    with a comma, and weights are lost. *)
Example two_destinations :
  let to v := {| dst_Conditions := [{| tc_Relation := "="; tc_Tag := "env"; tc_Value := v |}];
                 dst_Weight := 50 |} in
  ParseConditionExpression (ToExpression
    {| sa_Method := "buy"; sa_Conditions := []; sa_Destinations := [to "a"; to "b"] |}) =
  {| sa_Method := "buy"; sa_Conditions := [];
     sa_Destinations := [{| dst_Conditions :=
       [{| tc_Relation := "="; tc_Tag := "env"; tc_Value := "a," |};
        {| tc_Relation := "="; tc_Tag := "env"; tc_Value := "b" |}]; dst_Weight := 0 |}] |}.
Proof. vm_compute. reflexivity. Qed.

End ConditionExprExample.
