(* ===== verification/ServiceMethods.v ===== *)
(** pkg/console/service/service.go: the methods of a service, taken from the
    metadata its providers report, and the declared types a method refers to
    directly or through other types. *)
From S2P Require Import Prelude GoStrings Errors Resource Libs Indexers Store RuleService Manager.
From stdpp Require Import relations.

Open Scope string_scope.
Open Scope list_scope.

Abbreviation Metadata := (option ServiceProviderMetadata).

(** pkg/console/model/service.go *)
Record BaseServiceReq := {
  req_ServiceName : string; req_Group : string; req_Version : string; req_Mesh : string }.

Definition ServiceKey (s : BaseServiceReq) : string :=
  req_ServiceName s +:+ ":" +:+ req_Version s +:+ ":" +:+ req_Group s.

Record ServiceMethodSummaryResp := {
  ms_MethodName : string; ms_ParameterTypes : list string; ms_Signature : string }.
Record ServiceMethodTypeResp := {
  tr_Type : string; tr_Properties : gmap string string;
  tr_Items : list string; tr_Enums : list string }.
Record ServiceMethodDetailResp := {
  md_MethodName : string; md_Signature : string; md_ParameterTypes : list string;
  md_Parameters : list (string * string); md_ReturnType : string;
  md_Types : list ServiceMethodTypeResp }.

(** ** service.go *)
Definition methodSig (m : Method) : string :=
  str_join "," (method_ParameterTypes m) +:+ "->" +:+ method_ReturnType m.

Definition methodKey (methodName signature : string) : string :=
  methodName +:+ String Ascii.zero signature.

Section service.
Context `{MapRange}.
(** [strutil.IsBlank] of lancet. *)
Context (IsBlank : string → bool).

(** [sort.Slice] by name, then signature. *)
Definition method_le (a b : Method) : Prop :=
  if decide (method_Name a = method_Name b) then String.le (methodSig a) (methodSig b)
  else String.le (method_Name a) (method_Name b).
#[local] Instance method_le_dec a b : Decision (method_le a b).
Proof. unfold method_le. destruct (decide _); apply _. Defined.

Definition methods_of (metadata : Metadata) : list Method :=
  match metadata with Some spec => spm_Methods spec | None => [] end.

Definition collectMethods (metadataList : list Metadata) : list Method :=
  let methodByKey :=
    foldl (λ m metadata,
      foldl (λ m method,
        if decide (method_Name method = "") then m
        else <[methodKey (method_Name method) (methodSig method) := method]> m) m (methods_of metadata))
      (∅ : gmap string Method) metadataList in
  merge_sort method_le (go_range methodByKey).*2.

Definition toMethodDetail (m : Method) : ServiceMethodDetailResp := {|
  md_MethodName := method_Name m; md_Signature := methodSig m;
  md_ParameterTypes := method_ParameterTypes m; md_Parameters := method_Parameters m;
  md_ReturnType := method_ReturnType m; md_Types := [] |}.

Definition buildMethodSummaries (metadataList : list Metadata) : list ServiceMethodSummaryResp :=
  (λ m, let detail := toMethodDetail m in
    {| ms_MethodName := md_MethodName detail; ms_ParameterTypes := md_ParameterTypes detail;
       ms_Signature := md_Signature detail |}) <$> collectMethods metadataList.

Definition findMethod (metadataList : list Metadata) (methodName signature : string) : option Method :=
  snd <$> list_find (λ m, method_Name m = methodName ∧ methodSig m = signature)
    (metadataList ≫= methods_of).

(** *** Types *)
Definition types_of (metadata : Metadata) : list MetadataType :=
  match metadata with Some spec => spm_Types spec | None => [] end.

Definition buildTypeMap (metadataList : list Metadata) : gmap string MetadataType :=
  foldl (λ m metadata,
    foldl (λ m typeSpec,
      let typeName := typ_Type typeSpec in
      if decide (typeName = "") then m
      else match m !! typeName with Some _ => m | None => <[typeName := typeSpec]> m end)
      m (types_of metadata)) ∅ metadataList.

(** A loop of calls that extend [visited]; [None] is a call out of fuel. *)
Fixpoint visit_all (f : string → gset string → option (gset string)) (names : list string)
    (visited : gset string) : option (gset string) :=
  match names with
  | [] => Some visited
  | name :: names => visited ← f name visited; visit_all f names visited
  end.

Fixpoint collectRelatedTypes (fuel : nat) (typesByName : gmap string MetadataType)
    (typeName : string) (visited : gset string) : option (gset string) :=
  match fuel with
  | O => None
  | S fuel =>
      if IsBlank typeName then Some visited
      else
        match typesByName !! typeName with
        | None => Some visited
        | Some typeSpec =>
            if decide (typeName ∈ visited) then Some visited
            else
              let visited := {[typeName]} ∪ visited in
              visited ← visit_all (collectRelatedTypes fuel typesByName) (typ_Items typeSpec) visited;
              visit_all (collectRelatedTypes fuel typesByName) (go_range (typ_Properties typeSpec)).*2
                visited
        end
  end.

Definition toServiceMethodTypeResp (t : MetadataType) : ServiceMethodTypeResp := {|
  tr_Type := typ_Type t; tr_Properties := typ_Properties t; tr_Items := typ_Items t;
  tr_Enums := typ_Enums t |}.

(** Each nested call visits one more declared type, so the recursion is never
    deeper than their number. *)
Definition buildRelatedTypes (metadataList : list Metadata) (m : Method)
    : option (list ServiceMethodTypeResp) :=
  let typesByName := buildTypeMap metadataList in
  let collect := collectRelatedTypes (S (size typesByName)) typesByName in
  visited ← visit_all collect (method_ParameterTypes m) ∅;
  visited ← collect (method_ReturnType m) visited;
  Some (omap (λ typeName, toServiceMethodTypeResp <$> typesByName !! typeName)
         (sort_strings (elements visited))).

(** *** The requests *)
Section requests.
Context {St W G : Type} `{ResourceStore St, RuleGovernor G W}.
Context (ResourceKindRoute : W → ResourceKind → result error St).
Implicit Types rm : resourcesManager (W := W) (G := G).

(** pkg/core/manager/manager_helper.go: [ListByIndexes] at the metadata type. *)
Definition typed_metadata (r : Resource) : result error Metadata :=
  match res_spec r with
  | ServiceProviderMetadataSpec s => Ok s
  | _ => Err (NewAssertionError (kind_string ServiceProviderMetadataKind) "")
  end.

Definition providerIndexes (req : BaseServiceReq) : list IndexCondition :=
  [{| ic_IndexName := "idx_mesh"; ic_Value := req_Mesh req; ic_Operator := Equals |};
   {| ic_IndexName := "idx_service_provider_service_key"; ic_Value := ServiceKey req;
      ic_Operator := Equals |}].

Definition listProviderMeta rm (req : BaseServiceReq) : result error (list Metadata) :=
  resources ← ListByIndexes ResourceKindRoute rm ServiceProviderMetadataKind (providerIndexes req);
  result_mapM typed_metadata resources.

Definition GetServiceMethodNames rm (req : BaseServiceReq) : result error (list ServiceMethodSummaryResp) :=
  metadataList ← listProviderMeta rm req; Ok (buildMethodSummaries metadataList).

Definition GetServiceMethodDetail rm (req : BaseServiceReq) (methodName signature : string)
    : result error (option ServiceMethodDetailResp) :=
  metadataList ← listProviderMeta rm req;
  match findMethod metadataList methodName signature with
  | None => Err (biz_new NotFoundError
      ("method " +:+ methodName +:+ " not found for service " +:+ req_ServiceName req))
  | Some method =>
      let detail := toMethodDetail method in
      Ok (types ← buildRelatedTypes metadataList method;
          Some {| md_MethodName := md_MethodName detail; md_Signature := md_Signature detail;
                  md_ParameterTypes := md_ParameterTypes detail; md_Parameters := md_Parameters detail;
                  md_ReturnType := md_ReturnType detail; md_Types := types |})
  end.
End requests.

(** ** Related types are the reachable declared types *)
Section reachable.
Context (T : gmap string MetadataType).

Definition declared (n : string) : Prop := IsBlank n = false ∧ is_Some (T !! n).

(** The declaration of [a] refers to the declared type [b]. *)
Definition refers (a b : string) : Prop :=
  ∃ t, T !! a = Some t ∧ declared b ∧
    (b ∈ typ_Items t ∨ ∃ k, typ_Properties t !! k = Some b).

Definition references (t : MetadataType) : list string :=
  typ_Items t ++ (go_range (typ_Properties t)).*2.

Lemma elem_of_references t b :
  b ∈ references t ↔ b ∈ typ_Items t ∨ ∃ k, typ_Properties t !! k = Some b.
Proof.
  unfold references. rewrite elem_of_app, list_elem_of_fmap. split.
  - intros [?|([k x] & -> & Hk%elem_of_go_range)]; [by left|]. right. by exists k.
  - intros [?|[k Hk]]; [by left|]. right. exists (k, b). by rewrite elem_of_go_range.
Qed.

Lemma visit_all_app f l k v : visit_all f (l ++ k) v = visit_all f l v ≫= visit_all f k.
Proof. revert v. induction l as [|x l IH]; intros v; [done|]. simpl. destruct (f x v); [apply IH|done]. Qed.

Lemma collect_unfold fuel n v t :
  IsBlank n = false → T !! n = Some t → n ∉ v →
  collectRelatedTypes (S fuel) T n v =
  visit_all (collectRelatedTypes fuel T) (references t) ({[n]} ∪ v).
Proof.
  intros Hb Ht Hn. simpl. rewrite Hb, Ht, decide_False by done. unfold references.
  by rewrite visit_all_app.
Qed.

(** [v'] extends [v] by types reachable from one of [names], contains the
    declared ones among [names], and is closed where it extends [v]. *)
Record visits (names : list string) (v v' : gset string) : Prop := {
  vs_more : v ⊆ v';
  vs_names : ∀ n, n ∈ names → declared n → n ∈ v';
  vs_sound : ∀ x, x ∈ v' → x ∉ v → ∃ n, n ∈ names ∧ declared n ∧ rtc refers n x;
  vs_closed : ∀ x y, x ∈ v' → x ∉ v → refers x y → y ∈ v' }.

Lemma visits_nothing names v : (∀ n, n ∈ names → ¬ declared n ∨ n ∈ v) → visits names v v.
Proof.
  intros Hn. split; [done| |by intros ??..]. intros n Hin Hd. by destruct (Hn n Hin).
Qed.

Lemma visit_all_visits f names v v' :
  (∀ n v v', f n v = Some v' → visits [n] v v') →
  visit_all f names v = Some v' → visits names v v'.
Proof.
  intros Hf. revert v. induction names as [|n names IH]; intros v; simpl.
  - intros [= <-]. apply visits_nothing. set_solver.
  - destruct (f n v) as [w|] eqn:Hw; [|done]. simpl.
    intros [H1 H2 H3 H4]%IH. apply Hf in Hw as [K1 K2 K3 K4]. split.
    + set_solver.
    + intros m [->|Hm]%elem_of_cons Hd; [|by auto]. apply H1, K2; [by left|done].
    + intros x Hx Hxv. destruct (decide (x ∈ w)) as [Hxw|Hxw].
      * destruct (K3 x Hxw Hxv) as (m & ->%list_elem_of_singleton & ? & ?). exists n. by split; [left|].
      * destruct (H3 x Hx Hxw) as (m & ? & ? & ?). exists m. by split; [right|].
    + intros x y Hx Hxv Hxy. destruct (decide (x ∈ w)) as [Hxw|Hxw]; [|by eauto]. apply H1. by eapply K4.
Qed.

Lemma collect_visits fuel n v v' : collectRelatedTypes fuel T n v = Some v' → visits [n] v v'.
Proof.
  revert n v v'. induction fuel as [|fuel IH]; intros n v v'; [done|].
  destruct (IsBlank n) eqn:Hb.
  { simpl. rewrite Hb. intros [= <-]. apply visits_nothing. intros m ->%list_elem_of_singleton.
    left. intros [? _]. congruence. }
  destruct (T !! n) as [t|] eqn:Ht.
  2: { simpl. rewrite Hb, Ht. intros [= <-]. apply visits_nothing.
       intros m ->%list_elem_of_singleton. left. intros [_ [? ?]]. congruence. }
  destruct (decide (n ∈ v)) as [Hn|Hn].
  { simpl. rewrite Hb, Ht, decide_True by done. intros [= <-]. apply visits_nothing.
    intros m ->%list_elem_of_singleton. by right. }
  rewrite (collect_unfold _ _ _ t) by done.
  intros [H1 H2 H3 H4]%visit_all_visits; [|exact IH].
  assert (Hdn : declared n) by (split; [done|by eexists]).
  assert (Href : ∀ m, m ∈ references t → declared m → refers n m).
  { intros m Hm Hd. exists t. split_and!; [done..|]. by apply elem_of_references. }
  split; [set_solver|set_solver| |].
  - intros x Hx Hxv. exists n. split_and!; [by left|done|].
    destruct (decide (x = n)) as [->|Hne]; [done|].
    destruct (H3 x Hx ltac:(set_solver)) as (m & Hm & Hd & Hr). eapply rtc_l; [by apply Href|done].
  - intros x y Hx Hxv Hxy. destruct (decide (x = n)) as [->|Hne].
    + destruct Hxy as (t' & Ht' & Hd & Hin). simplify_eq. apply H2; [by apply elem_of_references|done].
    + eapply H4; [done|set_solver|done].
Qed.

(** Fuel: one more than the declared types not visited yet is enough. *)
Definition unvisited (v : gset string) : nat := size (dom T ∖ v).

Lemma unvisited_mono v v' : v ⊆ v' → (unvisited v' ≤ unvisited v)%nat.
Proof. intros Hv. unfold unvisited. apply subseteq_size. set_solver. Qed.

Lemma visit_all_total f names v k :
  (∀ n v v', f n v = Some v' → v ⊆ v') →
  (∀ n v, (unvisited v ≤ k)%nat → is_Some (f n v)) → (unvisited v ≤ k)%nat →
  is_Some (visit_all f names v).
Proof.
  intros Hmono Hf. revert v. induction names as [|n names IH]; intros v Hk; simpl; [by eexists|].
  destruct (Hf n v Hk) as [w Hw]. rewrite Hw. simpl. apply IH.
  pose proof (unvisited_mono _ _ (Hmono _ _ _ Hw)). lia.
Qed.

Lemma collect_mono fuel n v v' : collectRelatedTypes fuel T n v = Some v' → v ⊆ v'.
Proof. intros Hc. by apply (vs_more _ _ _ (collect_visits _ _ _ _ Hc)). Qed.

Lemma collect_total fuel n v : (unvisited v < fuel)%nat → is_Some (collectRelatedTypes fuel T n v).
Proof.
  revert n v. induction fuel as [|fuel IH]; intros n v Hf; [lia|].
  destruct (IsBlank n) eqn:Hb; [simpl; rewrite Hb; by eexists|].
  destruct (T !! n) as [t|] eqn:Ht; [|simpl; rewrite Hb, Ht; by eexists].
  destruct (decide (n ∈ v)) as [Hn|Hn]; [simpl; rewrite Hb, Ht, decide_True by done; by eexists|].
  rewrite (collect_unfold _ _ _ t) by done.
  assert (Hlt : (unvisited ({[n]} ∪ v) < unvisited v)%nat).
  { unfold unvisited. apply subset_size. split; [set_solver|]. intros Hsub.
    assert (n ∈ dom T) by (apply elem_of_dom; by eexists). set_solver. }
  apply (visit_all_total _ _ _ (unvisited ({[n]} ∪ v))); [apply collect_mono| |done].
  intros m w Hw. apply IH. lia.
Qed.
End reachable.

Lemma closed_reachable T (V : gset string) :
  (∀ x y, x ∈ V → refers T x y → y ∈ V) → ∀ n x, rtc (refers T) n x → n ∈ V → x ∈ V.
Proof. intros Hc n x Hr. induction Hr; eauto. Qed.

Lemma buildRelatedTypes_visits metadataList m :
  let T := buildTypeMap metadataList in
  ∃ V, visits T (method_ParameterTypes m ++ [method_ReturnType m]) ∅ V ∧
    buildRelatedTypes metadataList m =
    Some (omap (λ n, toServiceMethodTypeResp <$> T !! n) (sort_strings (elements V))).
Proof.
  intros T. unfold buildRelatedTypes. fold T. cbv zeta.
  set (collect := collectRelatedTypes (S (size T)) T).
  assert (Hu : (unvisited T ∅ ≤ size T)%nat) by (unfold unvisited; rewrite difference_empty_L, size_dom; lia).
  destruct (visit_all_total T collect (method_ParameterTypes m ++ [method_ReturnType m]) ∅ (size T))
    as [V HV]; [apply collect_mono|intros n v Hv; apply collect_total; lia|done|].
  exists V. split; [eapply visit_all_visits; [|exact HV]; apply collect_visits|].
  rewrite visit_all_app in HV.
  destruct (visit_all collect (method_ParameterTypes m) ∅) as [w|]; [|done]. simpl in HV |- *.
  by destruct (collect (method_ReturnType m) w) as [V'|]; simplify_eq/=.
Qed.

(** The types listed with a method are exactly the declared types that its
    parameter types and return type reach through items and properties of
    declared types, whatever cycles the declarations form: the search ends,
    each such type is listed once, with its first declaration, in the order of
    the names. *)
Theorem related_types_reachable metadataList m :
  let T := buildTypeMap metadataList in
  ∃ names, NoDup names ∧ StronglySorted String.le names ∧
    (∀ x, x ∈ names ↔ ∃ n, n ∈ method_ParameterTypes m ++ [method_ReturnType m] ∧
       declared T n ∧ rtc (refers T) n x) ∧
    buildRelatedTypes metadataList m = Some (omap (λ n, toServiceMethodTypeResp <$> T !! n) names) ∧
    Forall (λ n, is_Some (T !! n)) names.
Proof.
  intros T. destruct (buildRelatedTypes_visits metadataList m) as (V & [_ Hn Hs Hc] & Hb).
  fold T in Hn, Hs, Hc, Hb. exists (sort_strings (elements V)).
  assert (Hiff : ∀ x, x ∈ V ↔ ∃ n, n ∈ method_ParameterTypes m ++ [method_ReturnType m] ∧
    declared T n ∧ rtc (refers T) n x).
  { intros x. split; [intros Hx; apply Hs; [done|set_solver]|]. intros (n & Hin & Hd & Hr).
    eapply closed_reachable; [|done|by apply Hn]. intros y z Hy Hyz. eapply Hc; [done|set_solver|done]. }
  split_and!; [|apply sort_strings_sorted| |done|].
  - rewrite sort_strings_perm. apply NoDup_elements.
  - intros x. by rewrite elem_of_sort_strings, elem_of_elements.
  - apply Forall_forall. intros x. rewrite elem_of_sort_strings, elem_of_elements, Hiff.
    intros (n & _ & Hd & Hr). inversion Hr as [|? y ? _ Hr']; subst; [by apply Hd|].
    apply rtc_inv_r in Hr as [->|(z & _ & t & _ & Hd' & _)]; [by apply Hd|by apply Hd'].
Qed.

(** ** The list of methods *)
Lemma foldl_bind {A B C} (f : C → B → C) (g : A → list B) l c :
  foldl (λ c a, foldl f c (g a)) c l = foldl f c (l ≫= g).
Proof.
  revert c. induction l as [|a l IH]; intros c; [done|].
  rewrite bind_cons, foldl_app. apply IH.
Qed.

Definition key_of (m : Method) : string := methodKey (method_Name m) (methodSig m).
Definition add_method (b : gmap string Method) (m : Method) : gmap string Method :=
  if decide (method_Name m = "") then b else <[key_of m := m]> b.

Lemma add_methods_spec l b :
  (∀ k m, foldl add_method b l !! k = Some m →
     b !! k = Some m ∨ m ∈ l ∧ method_Name m ≠ "" ∧ k = key_of m) ∧
  (∀ k, is_Some (b !! k) → is_Some (foldl add_method b l !! k)) ∧
  (∀ m, m ∈ l → method_Name m ≠ "" → is_Some (foldl add_method b l !! key_of m)).
Proof.
  revert b. induction l as [|x l IH]; intros b; simpl.
  { split_and!; [by left|done|]. by intros m ?%not_elem_of_nil. }
  destruct (IH (add_method b x)) as (H1 & H2 & H3). unfold add_method in *.
  destruct (decide (method_Name x = "")) as [Hx|Hx].
  - split_and!; [|done|].
    + intros k m [?|(? & ? & ?)]%H1; [by left|]. right. by split; [right|].
    + intros m [->|Hm]%elem_of_cons Hne; [done|]. by apply H3.
  - split_and!.
    + intros k m [Hb|(? & ? & ?)]%H1.
      * apply lookup_insert_Some in Hb as [[<- <-]|[_ Hb]]; [|by left].
        right. by split; [left|].
      * right. by split; [right|].
    + intros k Hk. apply H2. destruct (decide (key_of x = k)) as [->|];
        [rewrite lookup_insert_eq; by eexists | by rewrite lookup_insert_ne].
    + intros m [->|Hm]%elem_of_cons Hne; [|by apply H3]. apply H2. rewrite lookup_insert_eq. by eexists.
Qed.

#[local] Instance method_le_total : Total method_le.
Proof.
  intros a b. unfold method_le. destruct (decide (method_Name a = method_Name b)) as [He|He].
  - rewrite decide_True by done. apply (total String.le).
  - rewrite decide_False by done. apply (total String.le).
Qed.
#[local] Instance method_le_trans : Transitive method_le.
Proof.
  intros a b c. unfold method_le.
  destruct (decide (method_Name a = method_Name b)) as [Hab|Hab],
    (decide (method_Name b = method_Name c)) as [Hbc|Hbc]; intros H1 H2.
  - rewrite decide_True by congruence. by etrans.
  - rewrite decide_False by congruence. by rewrite Hab.
  - rewrite decide_False by congruence. by rewrite <-Hbc.
  - destruct (decide _) as [Hac|Hac]; [|by etrans]. exfalso. apply Hab.
    apply (anti_symm String.le); [done|]. by rewrite Hac.
Qed.

Record collected (ms l : list Method) : Prop := {
  cl_sound : ∀ m, m ∈ l → m ∈ ms ∧ method_Name m ≠ "";
  cl_complete : ∀ m, m ∈ ms → method_Name m ≠ "" → ∃ n, n ∈ l ∧ key_of n = key_of m;
  cl_inj : ∀ m n, m ∈ l → n ∈ l → key_of m = key_of n → m = n;
  cl_nodup : NoDup l;
  cl_sorted : StronglySorted method_le l }.

Lemma collectMethods_collected metadataList :
  collected (metadataList ≫= methods_of) (collectMethods metadataList).
Proof.
  set (ms := metadataList ≫= methods_of). set (b := foldl add_method ∅ ms).
  assert (Hcol : collectMethods metadataList = merge_sort method_le (go_range b).*2).
  { unfold collectMethods, b, ms. by rewrite <-(foldl_bind add_method methods_of). }
  destruct (add_methods_spec ms ∅) as (H1 & _ & H3). fold b in H1, H3.
  assert (Hb : ∀ k m, b !! k = Some m → m ∈ ms ∧ method_Name m ≠ "" ∧ k = key_of m).
  { intros k m Hk. by destruct (H1 _ _ Hk) as [?|?]. }
  assert (Hin : ∀ m, m ∈ collectMethods metadataList ↔ b !! key_of m = Some m).
  { intros m. rewrite Hcol, merge_sort_Permutation, list_elem_of_fmap. split.
    - intros ([k x] & -> & Hk%elem_of_go_range). simpl. by destruct (Hb _ _ Hk) as (_ & _ & <-).
    - intros Hk. exists (key_of m, m). by rewrite elem_of_go_range. }
  split.
  - intros m Hm%Hin. by destruct (Hb _ _ Hm) as (? & ? & _).
  - intros m Hm Hne. destruct (H3 m Hm Hne) as [n Hn]. destruct (Hb _ _ Hn) as (_ & _ & Hk).
    exists n. split; [|done]. apply Hin. by rewrite <-Hk.
  - intros m n Hm%Hin Hn%Hin Hk. rewrite Hk in Hm. congruence.
  - rewrite Hcol, merge_sort_Permutation. apply NoDup_fmap_2_strong; [|apply NoDup_go_range].
    intros [k m] [k' m'] Hk%elem_of_go_range Hk'%elem_of_go_range ?. simpl in *. subst.
    destruct (Hb _ _ Hk) as (_ & _ & ->), (Hb _ _ Hk') as (_ & _ & ->). done.
  - rewrite Hcol. apply (StronglySorted_merge_sort _).
Qed.

Lemma StronglySorted_map {A B} (R : relation A) (R' : relation B) (f : A → B) l :
  (∀ a b, R a b → R' (f a) (f b)) → StronglySorted R l → StronglySorted R' (f <$> l).
Proof.
  intros Hf. induction 1 as [|a l Hs IH Ha]; [constructor|]. rewrite fmap_cons.
  constructor; [done|]. apply Forall_fmap. eapply Forall_impl; [exact Ha|]. intros b. apply Hf.
Qed.

(** The method list of a service names every method its providers
    declare, once per name and signature, ordered by name and then signature,
    and nothing else; each listed method can be looked up again by its name
    and signature. *)
Theorem methods_listed_once metadataList
    (Hnul : ∀ m, m ∈ metadataList ≫= methods_of → str_contains Ascii.zero (method_Name m) = false) :
  let l := buildMethodSummaries metadataList in
  let ids := (λ s, (ms_MethodName s, ms_Signature s)) <$> l in
  NoDup ids ∧
  StronglySorted (λ a b, if decide (a.1 = b.1) then String.le a.2 b.2 else String.le a.1 b.1) ids ∧
  (∀ name sig, (name, sig) ∈ ids ↔ name ≠ "" ∧
     ∃ m, m ∈ metadataList ≫= methods_of ∧ method_Name m = name ∧ methodSig m = sig) ∧
  (∀ s, s ∈ l → ∃ m, findMethod metadataList (ms_MethodName s) (ms_Signature s) = Some m ∧
     method_Name m = ms_MethodName s ∧ methodSig m = ms_Signature s).
Proof.
  destruct (collectMethods_collected metadataList) as [Hs Hc Hi Hn Hso].
  set (ms := metadataList ≫= methods_of) in *.
  assert (Hinj : ∀ m n, m ∈ ms → n ∈ ms → key_of m = key_of n →
    method_Name m = method_Name n ∧ methodSig m = methodSig n).
  { intros m n Hm Hn' Hk. apply (str_sep_inj Ascii.zero); [by apply Hnul|by apply Hnul|exact Hk]. }
  cbv zeta. unfold buildMethodSummaries. rewrite <-list_fmap_compose. split_and!.
  - apply NoDup_fmap_2_strong; [|done]. intros m n Hm Hn' Heq. injection Heq as Hname Hsig.
    simpl in *. apply Hi; [done..|]. unfold key_of. by rewrite Hname, Hsig.
  - eapply StronglySorted_map; [|exact Hso]. by intros a b.
  - intros name sig. rewrite list_elem_of_fmap. split.
    + intros (m & [= -> ->] & Hm). destruct (Hs m Hm). split; [done|]. eauto.
    + intros (Hne & m & Hm & <- & <-). destruct (Hc m Hm Hne) as (n & Hn' & Hk). exists n.
      destruct (Hinj n m) as [Hna Hsi]; [by apply Hs|done|done|]. split; [simpl; by rewrite Hna, Hsi|done].
  - intros s (m & -> & Hm)%list_elem_of_fmap. simpl. destruct (Hs m Hm) as [Hms _].
    unfold findMethod. fold ms.
    destruct (list_find_elem_of (λ x, method_Name x = method_Name m ∧ methodSig x = methodSig m) ms m Hms)
      as [[i x] Hx]; [done|]. rewrite Hx. apply list_find_Some in Hx as (_ & [? ?] & _).
    by exists x.
Qed.
End service.

Module ServiceMethodsExample.

Definition buy : Method :=
  {| method_Annotations := []; method_Name := "buy"; method_ParameterTypes := ["Order"];
     method_Parameters := []; method_ReturnType := "void" |}.
Definition order : MetadataType :=
  {| typ_Enums := []; typ_Items := ["Line"]; typ_Properties := {["next" := "Order"]}; typ_Type := "Order" |}.
Definition line : MetadataType :=
  {| typ_Enums := []; typ_Items := ["Order"; "int"]; typ_Properties := ∅; typ_Type := "Line" |}.
Definition unused : MetadataType :=
  {| typ_Enums := []; typ_Items := []; typ_Properties := ∅; typ_Type := "Other" |}.
Definition shop : Metadata :=
  Some {| spm_ServiceName := "shop"; spm_ProviderAppName := "app"; spm_Version := ""; spm_Group := "";
          spm_CanonicalName := ""; spm_Methods := [buy; buy]; spm_Parameters := ∅;
          spm_Types := [order; unused; line] |}.

#[local] Existing Instance default_range.

(** A cycle of declarations. *)
Example order_types :
  buildRelatedTypes (λ s, bool_decide (s = "")) [None; shop] buy =
  Some [toServiceMethodTypeResp line; toServiceMethodTypeResp order].
Proof. vm_compute. reflexivity. Qed.

Lemma methods_listed_once_witness :
  (∀ name sig, (name, sig) ∈ (λ s, (ms_MethodName s, ms_Signature s)) <$> buildMethodSummaries [None; shop] ↔
     name ≠ "" ∧ ∃ m, m ∈ [buy; buy] ∧ method_Name m = name ∧ methodSig m = sig) ∧
  length (buildMethodSummaries [None; shop]) = 1.
Proof.
  split; [|by vm_compute].
  assert (Hnul : ∀ m, m ∈ [None; shop] ≫= methods_of → str_contains Ascii.zero (method_Name m) = false).
  { simpl. intros m Hm. set_unfold. naive_solver. }
  exact (proj1 (proj2 (proj2 (methods_listed_once [None; shop] Hnul)))).
Defined.

End ServiceMethodsExample.
