(* ===== verification/GenericArgs.v ===== *)
(** Arguments of a generic call: the console receives them as JSON and turns
    them into values of the parameter types the provider published
    (pkg/console/service/service_generic_invoke_decode.go). *)
From S2P Require Import Prelude GoStrings Errors Json.
From Stdlib Require Import Ascii Floats.SpecFloat.

Open Scope string_scope.
Open Scope list_scope.
Open Scope Z_scope.

(** ** Values

    [int8], [int16], [int32], [int64] and the [uint16] of a character. *)
Inductive width := W8 | W16 | W32 | W64 | WChar.
Definition wmin (w : width) : Z :=
  match w with W8 => -128 | W16 => -32768 | W32 => -2147483648 | W64 => i64_min | WChar => 0 end.
Definition wmax (w : width) : Z :=
  match w with W8 => 127 | W16 => 32767 | W32 => 2147483647 | W64 => i64_max | WChar => 65535 end.

(** The element type of a slice. *)
Inductive elem := EInt (w : width) | EFloat32 | EFloat64 | EAny.

Inductive value :=
| VNil
| VInt (w : width) (z : Z)
| VFloat32 (x : spec_float)
| VFloat64 (x : float64)
| VAny (a : any)
| VSlice (e : elem) (l : list value).

(** The Java types that are decoded into numbers. *)
Definition primitive (ty : string) : option elem :=
  if decide (ty = "byte" ∨ ty = "java.lang.Byte") then Some (EInt W8)
  else if decide (ty = "short" ∨ ty = "java.lang.Short") then Some (EInt W16)
  else if decide (ty = "int" ∨ ty = "java.lang.Integer") then Some (EInt W32)
  else if decide (ty = "long" ∨ ty = "java.lang.Long") then Some (EInt W64)
  else if decide (ty = "float" ∨ ty = "java.lang.Float") then Some EFloat32
  else if decide (ty = "double" ∨ ty = "java.lang.Double") then Some EFloat64
  else if decide (ty = "char" ∨ ty = "java.lang.Character") then Some (EInt WChar)
  else None.

Section decode.
(** Go leaves the conversion of a float beyond the range of [int64] to the
    machine. *)
Context (int64_overflow : float64 → Z).

(** ** Numbers *)
Definition isNullRawMessage (raw : string) : bool := bool_decide (trim_space raw = "null").

Definition json_error (raw : string) : error := ErrorText ("cannot unmarshal " +:+ raw).

Definition decodeJSONValue (raw : string) : result error any :=
  match Unmarshal_any raw with Some a => Ok a | None => Err (json_error raw) end.

(** [None]: the text is not a string. *)
Definition parseJSONStringRaw (raw : string) : result error (option string) :=
  match trim_space raw with
  | String c _ =>
      if decide (c = quote_char) then
        match Unmarshal_string raw with Some s => Ok (Some s) | None => Err (json_error raw) end
      else Ok None
  | EmptyString => Ok None
  end.

Definition parseFloat64Text (text : string) : result error float64 :=
  let text := trim_space text in
  if decide (text = "") then Err (ErrorText "empty value")
  else match ParseFloat text with
       | None => Err (ErrorText ("strconv.ParseFloat: parsing " +:+ go_quote text))
       | Some x => if is_nan x || is_infinite x then Err (ErrorText "invalid numeric value") else Ok x
       end.

(** [math.Trunc] and the conversion of an integral float. *)
Definition float_int (x : float64) : Z :=
  match x with
  | S754_finite s m e => cond_Zopp s (if decide (0 ≤ e) then Zpos m * 2 ^ e else Zpos m / 2 ^ (- e))
  | _ => 0
  end.
Definition Trunc (x : float64) : float64 :=
  match x with
  | S754_finite s m e => binary_normalize prec64 emax64 (float_int x) 0 s
  | _ => x
  end.

(** [math.MinInt64] and [math.MaxInt64] as the [float64] constants they are
    compared as: the second is rounded to 2^63. *)
Definition float_MinInt64 : float64 := binary_normalize prec64 emax64 i64_min 0 false.
Definition float_MaxInt64 : float64 := binary_normalize prec64 emax64 i64_max 0 false.

Definition int64_of_float (x : float64) : Z :=
  let n := float_int x in if decide (i64_min ≤ n ∧ n ≤ i64_max) then n else int64_overflow x.

(** The texts of these errors also show the value. *)
Definition int64FromFloat (x : float64) : result error Z :=
  if is_nan x || is_infinite x then Err (ErrorText "invalid numeric value")
  else if negb (SFeqb (Trunc x) x) then Err (ErrorText "value is not an integer")
  else if SFltb x float_MinInt64 || SFltb float_MaxInt64 x then Err (ErrorText "value out of range")
  else Ok (int64_of_float x).

Definition parseInt64Text (text : string) : result error Z :=
  let text := trim_space text in
  if decide (text = "") then Err (ErrorText "empty value")
  else if str_contains "." text || str_contains "e" text || str_contains "E" text then
    x ← parseFloat64Text text; int64FromFloat x
  else match ParseInt text with
       | Some n => Ok n
       | None => Err (ErrorText ("strconv.ParseInt: parsing " +:+ go_quote text))
       end.

Definition parseInt64Raw (raw : string) : result error Z :=
  text ← parseJSONStringRaw raw;
  match text with
  | Some text => parseInt64Text text
  | None => parseInt64Text (trim_space raw)
  end.

Definition parseFloat64Raw (raw : string) : result error float64 :=
  text ← parseJSONStringRaw raw;
  match text with
  | Some text => parseFloat64Text text
  | None => parseFloat64Text (trim_space raw)
  end.

Definition out_of_range (n : Z) : error := ErrorText ("value " +:+ pretty n +:+ " out of range").

Definition parseBoundedInt64Raw (raw : string) (minValue maxValue : Z) : result error Z :=
  n ← parseInt64Raw raw;
  if decide (n < minValue ∨ maxValue < n) then Err (out_of_range n) else Ok n.

(** [decodeInt8Raw], [decodeInt16Raw], [decodeInt32Raw], [decodeInt64Raw]; the
    conversion to the width keeps a value within its bounds. *)
Definition decodeIntRaw (w : width) (raw : string) : result error Z :=
  parseBoundedInt64Raw raw (wmin w) (wmax w).

Definition decodeCharRaw (raw : string) : result error Z :=
  text ← parseJSONStringRaw raw;
  match text with
  | Some text =>
      match runes text with
      | [r] => if decide (r < 0 ∨ 65535 < r) then Err (ErrorText ("character " +:+ go_quote text +:+ " out of range"))
               else Ok r
      | _ => Err (ErrorText "expected single character")
      end
  | None => parseBoundedInt64Raw raw 0 65535
  end.

(** [float32(x)]: rounding to binary32. *)
Definition to_float32 (x : float64) : spec_float :=
  match x with S754_finite s m e => binary_round 24 128 s m e | _ => x end.

Definition decodePrimitive (e : elem) (raw : string) : result error value :=
  match e with
  | EInt WChar => n ← decodeCharRaw raw; Ok (VInt WChar n)
  | EInt w => n ← decodeIntRaw w raw; Ok (VInt w n)
  | EFloat32 => x ← parseFloat64Raw raw; Ok (VFloat32 (to_float32 x))
  | EFloat64 => x ← parseFloat64Raw raw; Ok (VFloat64 x)
  | EAny => a ← decodeJSONValue raw; Ok (VAny a)
  end.

(** ** Arrays and arguments *)
Fixpoint decode_elements (decode : string → result error value) (index : Z) (elements : list string)
    : result error (list value) :=
  match elements with
  | [] => Ok []
  | element :: elements =>
      match decode element with
      | Err e => Err (errorf_w ("invalid array element at index " +:+ pretty index +:+ ": ") e "")
      | Ok v => vs ← decode_elements decode (index + 1) elements; Ok (v :: vs)
      end
  end.

Definition decodeRawArray (e : elem) (raw : string) (decode : string → result error value) : result error value :=
  if isNullRawMessage raw then Ok (VSlice e [])
  else match Unmarshal_raws raw with
       | None => Err (errorf_w "expected JSON array: " (json_error raw) "")
       | Some elements => l ← decode_elements decode 0 elements; Ok (VSlice e l)
       end.

Definition splitGenericArrayType (parameterType : string) : option string :=
  if has_suffix parameterType "[]" then Some (str_take (String.length parameterType - 2) parameterType) else None.

(** One level of the decoder, and the decoder: an element type is two
    characters shorter, so the length of the type is enough fuel. *)
Definition decodeArg_step (decodeArg : string → string → result error value) (parameterType raw : string)
    : result error value :=
  if isNullRawMessage raw then Ok VNil
  else if decide (parameterType = "") then decodePrimitive EAny raw
  else match splitGenericArrayType parameterType with
       | Some elementType =>
           match primitive (trim_space elementType) with
           | Some e => decodeRawArray e raw (decodePrimitive e)
           | None => decodeRawArray EAny raw (decodeArg elementType)
           end
       | None =>
           match primitive parameterType with
           | Some e => decodePrimitive e raw
           | None => decodePrimitive EAny raw
           end
       end.

Fixpoint decodeArg_fuel (fuel : nat) (parameterType raw : string) : result error value :=
  match fuel with
  | O => Err (ErrorText "out of fuel")
  | S fuel => decodeArg_step (decodeArg_fuel fuel) parameterType raw
  end.

Definition decodeGenericInvokeArg (parameterType raw : string) : result error value :=
  decodeArg_fuel (S (String.length parameterType)) parameterType raw.

Fixpoint decode_args (index : Z) (parameterTypes args : list string) : result error (list value) :=
  match parameterTypes, args with
  | ty :: parameterTypes, arg :: args =>
      match decodeGenericInvokeArg ty arg with
      | Err e => Err (errorf_w ("invalid argument at index " +:+ pretty index +:+ " for type " +:+
                                trim_space ty +:+ ": ") e "")
      | Ok v => vs ← decode_args (index + 1) parameterTypes args; Ok (v :: vs)
      end
  | _, _ => Ok []
  end.

Definition decodeGenericInvokeArgs (parameterTypes args : list string) : result error (list value) :=
  if decide (length parameterTypes ≠ length args) then
    Err (ErrorText ("parameter types count " +:+ pretty (Z.of_nat (length parameterTypes)) +:+
                    " does not match args count " +:+ pretty (Z.of_nat (length args))))
  else decode_args 0 parameterTypes args.
End decode.

(** ** What a parameter type promises

    Null is a value of every type. The integers of a type are in its range,
    doubles are finite, the elements of an array of numbers are numbers. *)
Inductive has_type : string → value → Prop :=
| typed_nil ty : has_type ty VNil
| typed_int ty w z : primitive ty = Some (EInt w) → wmin w ≤ z ≤ wmax w → has_type ty (VInt w z)
| typed_float ty x : primitive ty = Some EFloat32 → is_nan x = false → has_type ty (VFloat32 x)
| typed_double ty x : primitive ty = Some EFloat64 → is_nan x = false → is_infinite x = false →
    has_type ty (VFloat64 x)
| typed_numbers ty e l : primitive (trim_space ty) = Some e →
    Forall (λ v, v ≠ VNil ∧ has_type (trim_space ty) v) l → has_type (ty +:+ "[]") (VSlice e l)
| typed_array ty l : primitive (trim_space ty) = None →
    Forall (has_type ty) l → has_type (ty +:+ "[]") (VSlice EAny l)
| typed_other ty a : primitive ty = None → splitGenericArrayType ty = None → has_type ty (VAny a).

Section theorems.
Context (int64_overflow : float64 → Z) (overflow_int64 : ∀ x, i64_min ≤ int64_overflow x ≤ i64_max).

Lemma int64FromFloat_range x n : int64FromFloat int64_overflow x = Ok n → i64_min ≤ n ≤ i64_max.
Proof using overflow_int64.
  unfold int64FromFloat. destruct (is_nan x || is_infinite x); [done|]. destruct (negb _); [done|].
  destruct (SFltb _ _ || _); [done|]. intros [= <-]. unfold int64_of_float.
  destruct (decide (i64_min ≤ float_int x ∧ float_int x ≤ i64_max)); [done|apply overflow_int64].
Qed.

Lemma ParseInt_range s n : ParseInt s = Some n → i64_min ≤ n ≤ i64_max.
Proof.
  unfold ParseInt. destruct (match s with String "-" d => _ | String "+" d => _ | _ => _ end) as [sign digits].
  destruct (decide _); [done|]. intros (m & _ & Hm)%bind_Some. destruct (decide _); [|done]. by simplify_eq.
Qed.

Lemma parseInt64Text_range s n : parseInt64Text int64_overflow s = Ok n → i64_min ≤ n ≤ i64_max.
Proof using overflow_int64.
  unfold parseInt64Text. destruct (decide _); [done|]. destruct (_ || _).
  - intros (x & _ & Hx)%bind_Ok. by eapply int64FromFloat_range.
  - destruct (ParseInt _) as [m|] eqn:Hm; [|done]. intros [= <-]. by eapply ParseInt_range.
Qed.

Lemma parseBounded_range raw lo hi n : parseBoundedInt64Raw int64_overflow raw lo hi = Ok n → lo ≤ n ≤ hi.
Proof.
  unfold parseBoundedInt64Raw. intros (m & _ & Hm)%bind_Ok. destruct (decide _); [done|].
  simplify_eq. lia.
Qed.

Lemma parseFloat64Text_finite s x : parseFloat64Text s = Ok x → is_nan x = false ∧ is_infinite x = false.
Proof.
  unfold parseFloat64Text. destruct (decide _); [done|]. destruct (ParseFloat _) as [y|]; [|done].
  destruct (is_nan y) eqn:Hn; [done|]. destruct (is_infinite y) eqn:Hi; [done|]. by intros [= <-].
Qed.

Lemma parseFloat64Raw_finite raw x : parseFloat64Raw raw = Ok x → is_nan x = false ∧ is_infinite x = false.
Proof.
  unfold parseFloat64Raw. intros ([text|] & _ & Hx)%bind_Ok; by eapply parseFloat64Text_finite.
Qed.

Lemma decodeCharRaw_range raw n : decodeCharRaw int64_overflow raw = Ok n → 0 ≤ n ≤ 65535.
Proof.
  unfold decodeCharRaw. intros ([text|] & _ & Hx)%bind_Ok; [|by eapply parseBounded_range].
  destruct (runes text) as [|r [|? ?]]; [done| |done]. destruct (decide _); [done|]. simplify_eq. lia.
Qed.

Lemma shr_1_nonneg mrs : 0 ≤ shr_m mrs → 0 ≤ shr_m (shr_1 mrs).
Proof. destruct mrs as [[|[p|p|]|[p|p|]] r s]; simpl; lia. Qed.

Lemma shr_nonneg mrs e n : 0 ≤ shr_m mrs → 0 ≤ shr_m (shr mrs e n).1.
Proof.
  intros Hm. destruct n as [|p|]; [done| |done]. simpl. revert mrs Hm.
  induction p as [p IH|p IH|]; intros mrs Hm; simpl; auto using shr_1_nonneg.
Qed.

Lemma shr_fexp_nonneg prec emax m e l : 0 ≤ m → 0 ≤ shr_m (shr_fexp prec emax m e l).1.
Proof. intros Hm. apply shr_nonneg. destruct l as [|[]]; exact Hm. Qed.

(** Rounding a number gives a number. *)
Lemma binary_round_number prec emax s m e : is_nan (binary_round prec emax s m e) = false.
Proof.
  unfold binary_round, binary_round_aux. destruct (shl_align _ _ _) as [mz ez].
  pose proof (shr_fexp_nonneg prec emax (Zpos mz) ez loc_Exact ltac:(lia)) as H1.
  destruct (shr_fexp prec emax (Zpos mz) ez loc_Exact) as [mrs e1]. simpl in H1.
  assert (H2 : 0 ≤ round_nearest_even (shr_m mrs) (loc_of_shr_record mrs))
    by (destruct (loc_of_shr_record mrs) as [|[]]; simpl; try destruct (Z.even _); lia).
  pose proof (shr_fexp_nonneg prec emax _ e1 loc_Exact H2) as H3.
  destruct (shr_fexp prec emax _ e1 loc_Exact) as [mrs' e2]. simpl in H3.
  destruct (shr_m mrs') as [|q|q]; [done|by destruct (e2 <=? emax - prec)|lia].
Qed.

Lemma to_float32_number x : is_nan x = false → is_nan (to_float32 x) = false.
Proof. destruct x; try done. intros _. apply binary_round_number. Qed.

Lemma decodePrimitive_typed ty e raw v : primitive ty = Some e → decodePrimitive int64_overflow e raw = Ok v →
  v ≠ VNil ∧ has_type ty v.
Proof.
  intros He. destruct e as [w| | |].
  - assert (Hw : decodePrimitive int64_overflow (EInt w) raw = Ok v → ∃ n, v = VInt w n ∧ wmin w ≤ n ≤ wmax w).
    { destruct w; simpl; intros (n & Hn & [= <-])%bind_Ok; exists n; (split; [done|]);
        first [by eapply parseBounded_range|by apply decodeCharRaw_range in Hn]. }
    intros (n & -> & Hn)%Hw. split; [done|]. by apply typed_int.
  - simpl. intros (x & Hx & [= <-])%bind_Ok. apply parseFloat64Raw_finite in Hx as [Hx _].
    split; [done|]. apply typed_float; [done|]. by apply to_float32_number.
  - simpl. intros (x & Hx & [= <-])%bind_Ok. apply parseFloat64Raw_finite in Hx as [Hn Hi].
    split; [done|]. by apply typed_double.
  - exfalso. revert He. unfold primitive. repeat (destruct (decide _); [done|]). done.
Qed.

Lemma decode_elements_Forall (P : value → Prop) decode i l vs :
  (∀ s v, decode s = Ok v → P v) → decode_elements decode i l = Ok vs → Forall P vs.
Proof.
  intros HP. revert i vs. induction l as [|s l IH]; intros i vs; simpl; [intros [= <-]; constructor|].
  destruct (decode s) as [v|e] eqn:Hv; [|done]. intros (vs' & Hvs & [= <-])%bind_Ok.
  constructor; [by eapply HP|by eapply IH].
Qed.

Lemma decodeRawArray_Forall (P : value → Prop) e raw decode v :
  (∀ s v, decode s = Ok v → P v) → decodeRawArray e raw decode = Ok v → ∃ l, v = VSlice e l ∧ Forall P l.
Proof.
  intros HP. unfold decodeRawArray. destruct (isNullRawMessage raw); [intros [= <-]; by exists []|].
  destruct (Unmarshal_raws raw) as [elements|]; [|done]. intros (l & Hl & [= <-])%bind_Ok.
  exists l. split; [done|]. by eapply decode_elements_Forall.
Qed.

(** *** Array types *)
Lemma split_array_app ty e : splitGenericArrayType ty = Some e → ty = e +:+ "[]".
Proof.
  unfold splitGenericArrayType, has_suffix. destruct (String.prefix _ _) eqn:Hp; [|done].
  apply str_prefix_spec in Hp as [t Ht]. apply (f_equal String.rev) in Ht. rewrite rev_involutive in Ht.
  change (String.rev "[]" +:+ t) with (String "]" (String "[" t)) in Ht. rewrite !rev_cons, <-str_app_assoc in Ht.
  change (String "[" "" +:+ String "]" "") with "[]" in Ht. intros [= <-]. subst ty.
  rewrite str_length_app. change (String.length "[]") with 2%nat. rewrite Nat.add_sub. by rewrite str_take_app.
Qed.

Lemma split_array_length ty e : splitGenericArrayType ty = Some e → (String.length e < String.length ty)%nat.
Proof. intros ->%split_array_app. rewrite str_length_app. simpl. lia. Qed.

Lemma decode_elements_ext f g i l : (∀ s, f s = g s) → decode_elements f i l = decode_elements g i l.
Proof. intros Hfg. revert i. induction l as [|s l IH]; intros i; simpl; [done|]. by rewrite Hfg, IH. Qed.

Lemma decodeRawArray_ext e raw f g : (∀ s, f s = g s) → decodeRawArray e raw f = decodeRawArray e raw g.
Proof.
  intros Hfg. unfold decodeRawArray. destruct (isNullRawMessage raw); [done|]. destruct (Unmarshal_raws raw); [|done].
  by rewrite (decode_elements_ext f g).
Qed.

Abbreviation decodeArg := (decodeGenericInvokeArg int64_overflow).

Lemma decodeArg_fuel_enough n m ty raw : (String.length ty < n)%nat → (String.length ty < m)%nat →
  decodeArg_fuel int64_overflow n ty raw = decodeArg_fuel int64_overflow m ty raw.
Proof.
  revert m ty raw. induction n as [|n IH]; intros m ty raw Hn Hm; [lia|]. destruct m as [|m]; [lia|]. simpl.
  unfold decodeArg_step. destruct (isNullRawMessage raw); [done|]. destruct (decide (ty = "")); [done|].
  destruct (splitGenericArrayType ty) as [e|] eqn:He; [|done]. apply split_array_length in He.
  destruct (primitive (trim_space e)); [done|]. apply decodeRawArray_ext. intros s. apply IH; lia.
Qed.

(** The decoder is the recursive function of the code. *)
Lemma decodeArg_unfold ty raw : decodeArg ty raw = decodeArg_step int64_overflow decodeArg ty raw.
Proof.
  unfold decodeGenericInvokeArg at 1. cbn [decodeArg_fuel]. unfold decodeArg_step.
  destruct (isNullRawMessage raw); [done|]. destruct (decide (ty = "")); [done|].
  destruct (splitGenericArrayType ty) as [e|] eqn:He; [|done]. apply split_array_length in He.
  destruct (primitive (trim_space e)); [done|]. apply decodeRawArray_ext. intros s.
  apply decodeArg_fuel_enough; lia.
Qed.

Lemma primitive_empty : primitive "" = None.
Proof. reflexivity. Qed.

Lemma decodeAny_typed ty raw v : primitive ty = None → splitGenericArrayType ty = None →
  decodePrimitive int64_overflow EAny raw = Ok v → has_type ty v.
Proof. simpl. intros Hp Hs (a & _ & [= <-])%bind_Ok. by apply typed_other. Qed.

Lemma decodeArg_typed ty raw v : decodeArg ty raw = Ok v → has_type ty v.
Proof using overflow_int64.
  remember (String.length ty) as n eqn:Hn. revert ty Hn raw v. induction (lt_wf n) as [n _ IH].
  intros ty -> raw v. rewrite decodeArg_unfold. unfold decodeArg_step.
  destruct (isNullRawMessage raw); [intros [= <-]; constructor|].
  destruct (decide (ty = "")) as [->|_]; [by apply decodeAny_typed|].
  destruct (splitGenericArrayType ty) as [e|] eqn:He.
  - pose proof (split_array_length ty e He) as Hl. pose proof (split_array_app ty e He) as Hty. rewrite Hty.
    destruct (primitive (trim_space e)) as [p|] eqn:Hp.
    + intros Hv. destruct (decodeRawArray_Forall (λ v, v ≠ VNil ∧ has_type (trim_space e) v) _ _ _ _
        (λ s v, decodePrimitive_typed _ _ s v Hp) Hv) as (l & -> & Hall). by apply typed_numbers.
    + intros Hv. destruct (decodeRawArray_Forall (has_type e) _ _ _ _
        (λ s v, IH _ Hl e eq_refl s v) Hv) as (l & -> & Hall). by apply typed_array.
  - destruct (primitive ty) as [p|] eqn:Hp; [intros Hv; by eapply decodePrimitive_typed|by apply decodeAny_typed].
Qed.

Lemma decode_args_typed i tys args vs : decode_args int64_overflow i tys args = Ok vs → length tys = length args →
  Forall2 has_type tys vs.
Proof using overflow_int64.
  revert i args vs. induction tys as [|ty tys IH]; intros i [|arg args] vs; simpl; try done.
  - intros [= <-] _. constructor.
  - destruct (decodeArg ty arg) as [v|] eqn:Hv; [|done]. intros (vs' & Hvs & [= <-])%bind_Ok Hl.
    constructor; [by eapply decodeArg_typed|]. eapply IH; [done|lia].
Qed.

(** C21: decoded arguments have the types of the parameters. Whatever JSON is
    sent, an accepted list has one value per parameter: null, an integer in
    the range of the Java type, a finite double, a float that is a number, an
    array whose elements have the element type (an array of numbers holds no
    null), or any JSON value where the type is not decoded further. *)
Theorem decoded_args_typed tys args vs :
  decodeGenericInvokeArgs int64_overflow tys args = Ok vs → Forall2 has_type tys vs.
Proof using overflow_int64.
  unfold decodeGenericInvokeArgs. destruct (decide _) as [|Hl]; [done|]. intros Hd.
  eapply decode_args_typed; [done|]. by apply dec_stable.
Qed.


(** *** Integers *)
Definition number_char (c : ascii) : bool := within 48 57 (byte c) || bool_decide (c = "-"%char).

Lemma number_char_graphic c : number_char c = true → graphic c = true.
Proof. destruct c as [[] [] [] [] [] [] [] []]; vm_compute; done. Qed.

Lemma pretty_N_number (x : N) : str_all number_char (pretty x) = true ∧ pretty x ≠ "".
Proof.
  assert (Hgo : ∀ s, str_all number_char s = true → s ≠ "" ∨ x ≠ 0%N →
    str_all number_char (pretty_N_go x s) = true ∧ pretty_N_go x s ≠ "").
  { induction (N.lt_wf_0 x) as [x _ IH]. intros s Hs Hne.
    destruct (decide (x = 0%N)) as [->|Hx]; [rewrite pretty_N_go_0; by destruct Hne|].
    rewrite pretty_N_go_step by lia. apply IH; [apply N.div_lt; lia| |by left]. cbn [str_all]. rewrite Hs, andb_true_r.
    assert (x `mod` 10 < 10)%N as Hm by (apply N.mod_lt; lia). pose proof (digit_char _ Hm).
    unfold number_char, within, byte. rewrite bool_decide_eq_true_2; [done|]. generalize dependent (x `mod` 10)%N. intros; lia. }
  unfold pretty, pretty_N. destruct (decide (x = 0%N)); [done|]. apply Hgo; [done|by right].
Qed.

Lemma pretty_Z_number (n : Z) : str_all number_char (pretty n) = true ∧ pretty n ≠ "".
Proof.
  destruct n as [|p|p]; [done|apply (pretty_N_number (N.pos p))|].
  change (pretty (Z.neg p)) with (String "-" (pretty (N.pos p))). simpl. by destruct (pretty_N_number (N.pos p)).
Qed.

Lemma number_tidy s : str_all number_char s = true → s ≠ "" → trim_space s = s.
Proof.
  intros Hs Hne. pose proof (str_all_impl _ _ _ number_char_graphic Hs).
  apply trim_tidy; [by apply graphic_starts|by apply graphic_ends].
Qed.

(** What the decoder says of a number beyond int64. *)
Definition not_int64 (n : Z) : error := ErrorText ("strconv.ParseInt: parsing " +:+ go_quote (pretty n)).

Lemma parseInt64Raw_pretty n :
  parseInt64Raw int64_overflow (pretty n) = if decide (i64_min ≤ n ≤ i64_max) then Ok n else Err (not_int64 n).
Proof.
  destruct (pretty_Z_number n) as [Hs Hne]. pose proof (number_tidy _ Hs Hne) as Ht.
  assert (Hstr : parseJSONStringRaw (pretty n) = Ok None).
  { unfold parseJSONStringRaw. rewrite Ht. destruct (pretty n) as [|c s]; [done|].
    apply andb_true_iff in Hs as [Hc _]. rewrite decide_False; [done|]. by intros ->. }
  unfold parseInt64Raw. rewrite Hstr. cbn [mbind result_bind]. rewrite Ht. unfold parseInt64Text. rewrite Ht.
  rewrite decide_False by done.
  rewrite !(str_all_contains number_char) by done. simpl orb. cbn match. rewrite ParseInt_pretty_any.
  by case_decide.
Qed.

Lemma primitive_not_array ty e : primitive ty = Some e → splitGenericArrayType ty = None.
Proof. unfold primitive. repeat (destruct (decide _) as [Hc|_]; [intros _; by destruct Hc as [-> | ->]|]). done. Qed.

Lemma number_not_null (n : Z) : isNullRawMessage (pretty n) = false.
Proof.
  destruct (pretty_Z_number n) as [Hs Hne]. unfold isNullRawMessage. rewrite (number_tidy _ Hs Hne).
  apply bool_decide_eq_false. intros Hnull. by rewrite Hnull in Hs.
Qed.

(** C23: integers are exact. A JSON integer that is written without a fraction
    or an exponent is decoded to itself when it is in the range of the Java type
    of the parameter. It is refused when it is not: as out of range when it is an
    int64, and as no integer otherwise; no such number wraps around. A number
    with a fraction or an exponent goes through a float, for which this is not so
    ([long_bound_rounded]). *)
Theorem integers_exact ty w n : primitive ty = Some (EInt w) →
  decodeArg ty (pretty n) =
  if decide (wmin w ≤ n ≤ wmax w) then Ok (VInt w n)
  else if decide (i64_min ≤ n ≤ i64_max) then Err (out_of_range n) else Err (not_int64 n).
Proof.
  intros Hty. rewrite decodeArg_unfold. unfold decodeArg_step. rewrite number_not_null.
  rewrite decide_False by (intros ->; by rewrite primitive_empty in Hty).
  rewrite (primitive_not_array _ _ Hty), Hty.
  assert (Hb : ∀ lo hi, i64_min ≤ lo → hi ≤ i64_max → parseBoundedInt64Raw int64_overflow (pretty n) lo hi =
    if decide (lo ≤ n ≤ hi) then Ok n
    else if decide (i64_min ≤ n ≤ i64_max) then Err (out_of_range n) else Err (not_int64 n)).
  { intros lo hi Hlo Hhi. unfold parseBoundedInt64Raw. rewrite parseInt64Raw_pretty.
    destruct (decide (i64_min ≤ n ≤ i64_max)), (decide (lo ≤ n ≤ hi)); cbn [mbind result_bind]; try lia; try done;
      destruct (decide (n < lo ∨ hi < n)); done || lia. }
  assert (Hc : decodeCharRaw int64_overflow (pretty n) = parseBoundedInt64Raw int64_overflow (pretty n) 0 65535).
  { unfold decodeCharRaw, parseJSONStringRaw. destruct (pretty_Z_number n) as [Hs Hne].
    rewrite (number_tidy _ Hs Hne). destruct (pretty n) as [|c s]; [done|].
    apply andb_true_iff in Hs as [Hc _]. rewrite decide_False; [done|]. by intros ->. }
  destruct w; simpl; unfold decodeIntRaw; rewrite ?Hc, Hb by (simpl; unfold i64_min, i64_max; lia);
    repeat (destruct (decide _); try done).
Qed.

(** floats just beyond the range are taken for integers. The bound 2^63 - 1
    of [long] is compared as a float, which is 2^63, so a JSON number 2^63
    written with a fraction passes the check and becomes whatever the machine
    converts it to, although the same number without a fraction is refused. *)
Theorem long_bound_rounded :
  decodeArg "long" "9223372036854775808.0" =
    Ok (VInt W64 (int64_overflow (binary_normalize prec64 emax64 (2 ^ 63) 0 false))) ∧
  decodeArg "long" "9223372036854775808" =
    Err (ErrorText ("strconv.ParseInt: parsing " +:+ go_quote "9223372036854775808")).
Proof using overflow_int64.
  split; [|vm_compute; reflexivity].
  assert (Hp : parseInt64Raw int64_overflow "9223372036854775808.0" =
    Ok (int64_overflow (binary_normalize prec64 emax64 (2 ^ 63) 0 false))) by (vm_compute; reflexivity).
  rewrite decodeArg_unfold. unfold decodeArg_step.
  change (isNullRawMessage "9223372036854775808.0") with false. cbn match. rewrite decide_False by done.
  change (splitGenericArrayType "long") with (@None string). change (primitive "long") with (Some (EInt W64)).
  cbn match. unfold decodePrimitive, decodeIntRaw, parseBoundedInt64Raw. rewrite Hp. cbn [mbind result_bind].
  pose proof (overflow_int64 (binary_normalize prec64 emax64 (2 ^ 63) 0 false)). simpl wmin. simpl wmax.
  by rewrite decide_False by lia.
Qed.
End theorems.

(** ** Examples *)
Module GenericArgsExample.
(** The conversion of amd64. *)
Definition overflow (_ : float64) : Z := i64_min.
Lemma overflow_range x : i64_min ≤ overflow x ≤ i64_max.
Proof. unfold overflow, i64_min, i64_max. lia. Qed.

Definition quoted (s : string) : string := String quote_char (s +:+ String quote_char "").
Definition types : list string := ["int[]"; "char"; "double"; "org.User"].
Definition args : list string := ["[1, 2e2]"; quoted "x"; "null"; "{" +:+ quoted "id" +:+ ": 7}"].

Lemma decoded_args_typed_witness : ∃ vs, decodeGenericInvokeArgs overflow types args = Ok vs ∧
  vs !! 0%nat = Some (VSlice (EInt W32) [VInt W32 1; VInt W32 200]) ∧ Forall2 has_type types vs.
Proof.
  eexists. split; [vm_compute; reflexivity|]. split; [reflexivity|].
  apply (decoded_args_typed overflow overflow_range types args). vm_compute. reflexivity.
Defined.

Lemma integers_exact_witness :
  decodeGenericInvokeArg overflow "short" "-32768" = Ok (VInt W16 (-32768)) ∧
  decodeGenericInvokeArg overflow "byte" "128" = Err (out_of_range 128) ∧
  decodeGenericInvokeArg overflow "long" "9223372036854775808" = Err (not_int64 9223372036854775808).
Proof.
  split; [|split].
  - exact (integers_exact overflow "short" W16 (-32768) eq_refl).
  - exact (integers_exact overflow "byte" W8 128 eq_refl).
  - exact (integers_exact overflow "long" W64 9223372036854775808 eq_refl).
Defined.

Lemma long_bound_rounded_witness :
  decodeGenericInvokeArg overflow "long" "9223372036854775808.0" = Ok (VInt W64 (-9223372036854775808)).
Proof.
  exact (proj1 (long_bound_rounded overflow overflow_range)).
Defined.
End GenericArgsExample.
