(* ===== verification/GenericInvoke.v ===== *)
(** Generic calls from the console (pkg/console/service/service_generic_invoke.go):
    the method is looked up in the metadata of the service, its arguments are
    decoded, and the endpoints of the instance are tried in turn with every
    serialization until one answers. *)
From S2P Require Import Prelude GoStrings Errors Resource Libs Indexers Store RuleService Manager ServiceMethods Json GenericArgs Instances.

Open Scope string_scope.
Open Scope list_scope.
Open Scope Z_scope.

Record genericInvocation := {
  gi_URL : string; gi_Protocol : string; gi_Serialization : string; gi_ServiceName : string;
  gi_Group : string; gi_Version : string; gi_MethodName : string;
  gi_ParameterTypes : list string; gi_Args : list value }.

Record genericInvokeTarget := {
  gt_ip : string; gt_protocol : string; gt_port : Z; gt_serialization : string }.

(** ** Targets *)
Definition Hessian2Serialization : string := "hessian2".

(** [appendCandidate]: [seen] holds the candidates. *)
Definition appendCandidate (candidates : list string) (value : string) : list string :=
  let value := trim_space value in
  if decide (value = "") then candidates
  else if decide (value ∈ candidates) then candidates
  else candidates ++ [value].

Definition buildGenericInvokeSerializations (s : RPCInstance) : list string :=
  let candidates := appendCandidate [] (rpc_Serialization s) in
  let candidates := foldl appendCandidate candidates (str_split "," (rpc_PreferSerialization s)) in
  match candidates with
  | [] => appendCandidate candidates Hessian2Serialization
  | _ => candidates
  end.

(** The check for an empty list of candidates, or of targets, never applies. *)
Definition buildGenericInvokeTargets (rpc : Resource) : result error (list genericInvokeTarget) :=
  match rpc_spec rpc with
  | None => Err (biz_new InvalidArgument "rpc instance is empty")
  | Some s =>
      match rpc_Endpoints s with
      | [] => Err (biz_new NotFoundError ("rpc instance " +:+ rpc_Name s +:+ " has no available rpc endpoints"))
      | endpoints =>
          match buildGenericInvokeSerializations s with
          | [] => Err (biz_new NotFoundError
                    ("rpc instance " +:+ rpc_Name s +:+ " has no available serialization metadata"))
          | serializations =>
              Ok (endpoints ≫= λ endpoint, (λ serialization,
                {| gt_ip := rpc_Ip s; gt_protocol := endpoint.2; gt_port := endpoint.1;
                   gt_serialization := serialization |}) <$> serializations)
          end
      end
  end.

(** ** Attempts *)
Definition Canceled : error := ErrorText "context canceled".
Definition DeadlineExceeded : error := ErrorText "context deadline exceeded".

Section invoke.
(** [E] is what the calls act on: the providers, the network and the clock;
    [ctx_Err] is [callCtx.Err()]. *)
Context {E V : Type}.
Context (invokeGenericServiceRPC : E → genericInvocation → E * result error V) (ctx_Err : E → option error).
(** The errors of dubbo-go's protocol/base. *)
Context (ErrClientClosed ErrDestroyedInvoker ErrNoReply : error).

Definition isRetryableGenericInvokeError (err : error) : bool :=
  if errors_is err Canceled || errors_is err DeadlineExceeded then false
  else errors_is err ErrClientClosed || errors_is err ErrDestroyedInvoker || errors_is err ErrNoReply.

Definition attempt (invocation : genericInvocation) (target : genericInvokeTarget) : genericInvocation :=
  {| gi_URL := gt_protocol target +:+ "://" +:+ gt_ip target +:+ ":" +:+ pretty (gt_port target);
     gi_Protocol := gt_protocol target; gi_Serialization := gt_serialization target;
     gi_ServiceName := gi_ServiceName invocation; gi_Group := gi_Group invocation;
     gi_Version := gi_Version invocation; gi_MethodName := gi_MethodName invocation;
     gi_ParameterTypes := gi_ParameterTypes invocation; gi_Args := gi_Args invocation |}.

(** The loop over the targets; without any, result and error are nil. *)
Fixpoint invokeGenericServiceWithTargets (targets : list genericInvokeTarget) (invocation : genericInvocation)
    (lastErr : option error) (e : E) : E * result error (option V) :=
  match targets with
  | [] => (e, match lastErr with Some err => Err err | None => Ok None end)
  | target :: targets =>
      match ctx_Err e with
      | Some err => (e, Err err)
      | None =>
          match invokeGenericServiceRPC e (attempt invocation target) with
          | (e, Ok v) => (e, Ok (Some v))
          | (e, Err err) =>
              if isRetryableGenericInvokeError err
              then invokeGenericServiceWithTargets targets invocation (Some err) e
              else (e, Err err)
          end
      end
  end.
End invoke.

(** ** Requests *)
Record ServiceGenericInvokeReq := {
  ir_Base : BaseServiceReq; ir_InstanceName : string; ir_MethodName : string; ir_Signature : string;
  ir_Args : list string; ir_TimeoutMs : Z; ir_Attachments : gmap string string }.

Definition DefaultServiceGenericInvokeTimeoutMs : Z := 3000.

(** pkg/console/model/service.go: the fields are trimmed before they are
    checked. *)
Definition Validate (IsBlank : string → bool) (r : ServiceGenericInvokeReq) : result error ServiceGenericInvokeReq :=
  let b := ir_Base r in
  let mesh := trim_space (req_Mesh b) in
  let service := trim_space (req_ServiceName b) in
  let method := trim_space (ir_MethodName r) in
  let signature := trim_space (ir_Signature r) in
  let instance := trim_space (ir_InstanceName r) in
  if IsBlank mesh then Err (ErrorText "mesh is empty")
  else if IsBlank service then Err (ErrorText "service name is empty")
  else if IsBlank method then Err (ErrorText "method name is empty")
  else if IsBlank signature then Err (ErrorText "signature is empty")
  else if IsBlank instance then Err (ErrorText "instance name is empty")
  else Ok {| ir_Base := {| req_ServiceName := service; req_Group := trim_space (req_Group b);
                           req_Version := trim_space (req_Version b); req_Mesh := mesh |};
             ir_InstanceName := instance; ir_MethodName := method; ir_Signature := signature;
             ir_Args := ir_Args r;
             ir_TimeoutMs := if decide (ir_TimeoutMs r ≤ 0) then DefaultServiceGenericInvokeTimeoutMs else ir_TimeoutMs r;
             ir_Attachments := ir_Attachments r |}.

Section requests.
Context {St W G : Type} `{ResourceStore St, RuleGovernor G W}.
Context (ResourceKindRoute : W → ResourceKind → result error St).
Context {E V : Type}.
(** The environment of a call is the one of the process with the context of
    the request: its time limit and its attachments. *)
Context (invokeGenericServiceRPC : E → genericInvocation → E * result error V) (ctx_Err : E → option error).
Context (WithTimeout : Z → gmap string string → E → E) (cancel : E → E).
Context (ErrClientClosed ErrDestroyedInvoker ErrNoReply : error) (int64_overflow : float64 → Z).
Implicit Types rm : resourcesManager (W := W) (G := G).

(** pkg/core/manager/manager_helper.go: [GetByKey] at a type. *)
Definition get_of_kind rm (k : ResourceKind) (key : string) : result error (option Resource) :=
  found ← GetByKey ResourceKindRoute rm k key;
  match found with
  | None => Ok None
  | Some r => if decide (res_kind r = k) then Ok (Some r) else Err (NewAssertionError (kind_string k) "")
  end.

Definition getGenericInvokeInstance rm (mesh instanceName : string) : result error (Resource * Instance_) :=
  found ← get_of_kind rm InstanceKind (BuildResourceKey mesh instanceName);
  match found with
  | None => Err (biz_new NotFoundError ("instance " +:+ instanceName +:+ " not found"))
  | Some r =>
      match instance_spec r with
      | None => Err (biz_new NotFoundError ("instance " +:+ instanceName +:+ " not found"))
      | Some i =>
          if decide (inst_AppName i = "" ∨ inst_Ip i = "" ∨ inst_RpcPort i ≤ 0)
          then Err (biz_new InvalidArgument ("instance " +:+ instanceName +:+ " is not a valid rpc invoke target"))
          else Ok (r, i)
      end
  end.

Definition findRPCInstanceByInstance rm (inst : Resource) (i : Instance_) : result error Resource :=
  let rpcInstanceName := BuildInstanceResName (inst_AppName i) (inst_Ip i) (inst_RpcPort i) in
  found ← get_of_kind rm RPCInstanceKind (BuildResourceKey (res_Mesh inst) rpcInstanceName);
  match found with
  | Some r => match rpc_spec r with
              | Some _ => Ok r
              | None => Err (biz_new NotFoundError ("rpc instance not found for instance " +:+ inst_Name i))
              end
  | None => Err (biz_new NotFoundError ("rpc instance not found for instance " +:+ inst_Name i))
  end.

(** What is found out before the call is made. *)
Definition prepare rm (req : ServiceGenericInvokeReq) : result error (list genericInvokeTarget * genericInvocation) :=
  let base := ir_Base req in
  '(inst, i) ← getGenericInvokeInstance rm (req_Mesh base) (ir_InstanceName req);
  metadataList ← listProviderMeta ResourceKindRoute rm base;
  match findMethod metadataList (ir_MethodName req) (ir_Signature req) with
  | None => Err (biz_new NotFoundError
      ("method " +:+ ir_MethodName req +:+ " not found for service " +:+ req_ServiceName base))
  | Some method =>
      let parameterTypes := method_ParameterTypes method in
      if decide (length parameterTypes ≠ length (ir_Args req)) then
        Err (biz_new InvalidArgument "resolved method parameter count does not match args length")
      else
        match decodeGenericInvokeArgs int64_overflow parameterTypes (ir_Args req) with
        | Err e => Err (biz_new InvalidArgument (error_string e))
        | Ok decodedArgs =>
            rpc ← findRPCInstanceByInstance rm inst i;
            targets ← buildGenericInvokeTargets rpc;
            Ok (targets, {| gi_URL := ""; gi_Protocol := ""; gi_Serialization := "";
              gi_ServiceName := req_ServiceName base; gi_Group := req_Group base;
              gi_Version := req_Version base; gi_MethodName := ir_MethodName req;
              gi_ParameterTypes := parameterTypes; gi_Args := decodedArgs |})
        end
  end.

(** The elapsed time of the answer is left out; the value is normalized below. *)
Definition InvokeServiceGeneric rm (req : ServiceGenericInvokeReq) (e : E) : E * result error (option V) :=
  match prepare rm req with
  | Err err => (e, Err err)
  | Ok (targets, invocation) =>
      let e := WithTimeout (ir_TimeoutMs req) (ir_Attachments req) e in
      let '(e, r) := invokeGenericServiceWithTargets invokeGenericServiceRPC ctx_Err
                       ErrClientClosed ErrDestroyedInvoker ErrNoReply targets invocation None e in
      (cancel e, match r with
                 | Ok v => Ok v
                 | Err _ => Err (biz_new InternalError "generic invoke failed, please check server logs")
                 end)
  end.
End requests.

(** ** Results

    What [reflect] shows of a value: nil, a pointer or an interface with what
    it refers to, a value with a [MarshalJSON] of its own, a map in the order
    its keys are visited, a slice or array, a struct with its fields, or any
    other value of an opaque type. *)
Record field := { fd_Name : string; fd_PkgPath : string; fd_jsonTag : string }.

Inductive goval (X : Type) :=
| GInvalid
| GRef (v : option (goval X))
| GMarshaler (x : X)
| GMap (l : list (goval X * goval X))
| GSlice (l : list (goval X))
| GStruct (l : list (field * goval X))
| GScalar (x : X).
Arguments GInvalid {X}. Arguments GRef {X} v. Arguments GMarshaler {X} x. Arguments GMap {X} l.
Arguments GSlice {X} l. Arguments GStruct {X} l. Arguments GScalar {X} x.

(** What is handed to the JSON encoder: a map has strings for keys, each once. *)
Inductive jsonval (X : Type) :=
| NNil | NValue (x : X) | NMap (l : list (string * jsonval X)) | NSlice (l : list (jsonval X)).
Arguments NNil {X}. Arguments NValue {X} x. Arguments NMap {X} l. Arguments NSlice {X} l.

(** [normalized[key] = v]. *)
Definition set_key {A} (m : list (string * A)) (k : string) (v : A) : list (string * A) :=
  filter (λ p, p.1 ≠ k) m ++ [(k, v)].

(** The name of a field in the output; [None]: it is left out. *)
Definition field_name (f : field) : option string :=
  if decide (fd_PkgPath f ≠ "") then None
  else if decide (fd_jsonTag f = "") then Some (fd_Name f)
  else
    let tagName := trim_space (default "" (head (str_split "," (fd_jsonTag f)))) in
    if decide (tagName = "-") then None
    else if decide (tagName = "") then Some (fd_Name f) else Some tagName.

Section normalize.
Context {X : Type} (Sprint : jsonval X → string).

Fixpoint normalizeJSONValue (v : goval X) : jsonval X :=
  match v with
  | GInvalid | GRef None => NNil
  | GRef (Some v) => normalizeJSONValue v
  | GMarshaler x => NValue x
  | GMap l =>
      NMap ((fix go m l := match l with
                           | [] => m
                           | (k, v) :: l => go (set_key m (Sprint (normalizeJSONValue k)) (normalizeJSONValue v)) l
                           end) [] l)
  | GSlice l => NSlice ((fix go l := match l with [] => [] | v :: l => normalizeJSONValue v :: go l end) l)
  | GStruct l =>
      NMap ((fix go m l := match l with
                           | [] => m
                           | (f, v) :: l =>
                               match field_name f with
                               | Some name => go (set_key m name (normalizeJSONValue v)) l
                               | None => go m l
                               end
                           end) [] l)
  | GScalar x => NValue x
  end.

(** The last visible field, or entry, with a name. *)
Fixpoint entry_of {A} (k : string) (l : list (string * A)) : option A :=
  match l with
  | [] => None
  | (k', v) :: l => match entry_of k l with Some v => Some v | None => if decide (k' = k) then Some v else None end
  end.
End normalize.

Lemma set_key_NoDup {A} (m : list (string * A)) k v : NoDup m.*1 → NoDup (set_key m k v).*1.
Proof.
  intros Hm. unfold set_key. rewrite fmap_app. apply NoDup_app. split_and!.
  - clear v. induction m as [|[k' v'] m IH]; [done|]. apply NoDup_cons in Hm as [Hk Hm]. specialize (IH Hm).
    destruct (decide (k' = k)) as [->|Hne].
    + by rewrite filter_cons_False by (simpl; tauto).
    + rewrite filter_cons_True by done. csimpl. apply NoDup_cons. split; [|done]. intros Hin. apply Hk.
      apply list_elem_of_fmap in Hin as ([k2 v2] & Hk2 & [_ Hin]%list_elem_of_filter). apply list_elem_of_fmap.
      by exists (k2, v2).
  - intros k' Hk' Hk2%list_elem_of_singleton. apply list_elem_of_fmap in Hk' as (p & Hp' & [Hp _]%list_elem_of_filter).
    simpl in *. congruence.
  - apply NoDup_singleton.
Qed.

Lemma entry_of_app {A} (k : string) (m n : list (string * A)) :
  entry_of k (m ++ n) = match entry_of k n with Some v => Some v | None => entry_of k m end.
Proof. induction m as [|[k' v'] m IH]; simpl; [by destruct (entry_of k n)|]. rewrite IH. by destruct (entry_of k n). Qed.

Lemma entry_of_set_key {A} (m : list (string * A)) k v k' :
  entry_of k' (set_key m k v) = if decide (k = k') then Some v else entry_of k' m.
Proof.
  unfold set_key. rewrite entry_of_app. simpl. destruct (decide (k = k')) as [|Hne]; [done|].
  induction m as [|[k2 v2] m IH]; [done|]. destruct (decide (k2 = k)) as [->|Hk].
  - rewrite filter_cons_False by (simpl; tauto). rewrite IH. simpl. rewrite decide_False by done.
    by destruct (entry_of k' m).
  - rewrite filter_cons_True by done. simpl. by rewrite IH.
Qed.

Section normalized.
Context {X : Type} (Sprint : jsonval X → string).

(** The visible fields of a struct, by their names in the output. *)
Definition visible (l : list (field * goval X)) : list (string * jsonval X) :=
  omap (λ p, (λ name, (name, normalizeJSONValue Sprint p.2)) <$> field_name p.1) l.
Definition printed (l : list (goval X * goval X)) : list (string * jsonval X) :=
  (λ p, (Sprint (normalizeJSONValue Sprint p.1), normalizeJSONValue Sprint p.2)) <$> l.

Lemma fold_set_key (l m : list (string * jsonval X)) : NoDup m.*1 →
  NoDup (foldl (λ m p, set_key m p.1 p.2) m l).*1 ∧
  ∀ k, entry_of k (foldl (λ m p, set_key m p.1 p.2) m l) =
       match entry_of k l with Some v => Some v | None => entry_of k m end.
Proof.
  revert m. induction l as [|[k v] l IH]; intros m Hm; [done|]. cbn [foldl fst snd].
  destruct (IH (set_key m k v) (set_key_NoDup _ _ _ Hm)) as [Hn He]. split; [done|]. intros k'.
  rewrite He, entry_of_set_key. simpl. by destruct (entry_of k' l), (decide (k = k')).
Qed.

Lemma normalize_struct_fold l : normalizeJSONValue Sprint (GStruct l) = NMap (foldl (λ m p, set_key m p.1 p.2) [] (visible l)).
Proof.
  simpl. f_equal. generalize (@nil (string * jsonval X)). induction l as [|[f v] l IH]; intros m; [done|].
  unfold visible. csimpl. destruct (field_name f) as [name|]; cbn [fmap option_fmap option_map]; apply IH.
Qed.
Lemma normalize_map_fold l : normalizeJSONValue Sprint (GMap l) = NMap (foldl (λ m p, set_key m p.1 p.2) [] (printed l)).
Proof.
  simpl. f_equal. generalize (@nil (string * jsonval X)). induction l as [|[k v] l IH]; intros m; [done|]. apply IH.
Qed.

(** results are shown as JSON objects. A struct and a map become objects
    whose names occur once: of a struct, the exported fields that are not
    hidden by a tag, under the name of the tag; of a map, its keys as they are
    printed. Where two fields or keys have the same name the last one is
    shown. *)
Theorem objects_normalized v : match v with
  | GStruct l => ∃ m, normalizeJSONValue Sprint v = NMap m ∧ NoDup m.*1 ∧ ∀ k, entry_of k m = entry_of k (visible l)
  | GMap l => ∃ m, normalizeJSONValue Sprint v = NMap m ∧ NoDup m.*1 ∧ ∀ k, entry_of k m = entry_of k (printed l)
  | _ => True
  end.
Proof.
  destruct v as [| | |l| |l|]; try done.
  - rewrite normalize_map_fold. destruct (fold_set_key (printed l) [] (NoDup_nil_2)) as [Hn He].
    eexists. split; [done|]. split; [done|]. intros k. rewrite He. by destruct (entry_of k _).
  - rewrite normalize_struct_fold. destruct (fold_set_key (visible l) [] (NoDup_nil_2)) as [Hn He].
    eexists. split; [done|]. split; [done|]. intros k. rewrite He. by destruct (entry_of k _).
Qed.
End normalized.

(** ** Attempts are made in order *)
Section attempts.
Context {E V : Type}.
Context (rpc : E → genericInvocation → E * result error V) (ctx_Err : E → option error).
Context (ErrClientClosed ErrDestroyedInvoker ErrNoReply : error).

Abbreviation retryable := (isRetryableGenericInvokeError ErrClientClosed ErrDestroyedInvoker ErrNoReply).
(** A call: the environment it is made in, what is called, and the answer. *)
Record call := { cl_env : E; cl_invocation : genericInvocation; cl_answer : result error V }.

(** The calls made, oldest first. *)
Definition logged (s : E * list call) (inv : genericInvocation) : (E * list call) * result error V :=
  let '(e, log) := s in
  let '(e', r) := rpc e inv in
  ((e', log ++ [{| cl_env := e; cl_invocation := inv; cl_answer := r |}]), r).

Definition will_retry (c : call) : Prop := ∃ err, cl_answer c = Err err ∧ retryable err = true.

(** The calls made for the targets [ts] and how they ended. *)
Record tried (inv : genericInvocation) (ts : list genericInvokeTarget) (last : option error)
    (e' : E) (calls : list call) (r : result error (option V)) : Prop := {
  tr_order : cl_invocation <$> calls `prefix_of` (attempt inv <$> ts);
  tr_in_time : Forall (λ c, ctx_Err (cl_env c) = None) calls;
  tr_retried : ∀ pre c post, calls = pre ++ c :: post → post ≠ [] → will_retry c;
  tr_end : match r with
    | Ok (Some v) => ∃ pre c, calls = pre ++ [c] ∧ cl_answer c = Ok v
    | Ok None => calls = [] ∧ ts = [] ∧ last = None
    | Err err => (ctx_Err e' = Some err ∧ Forall will_retry calls ∧ (length calls < length ts)%nat) ∨
        (calls = [] ∧ ts = [] ∧ last = Some err) ∨
        ∃ pre c, calls = pre ++ [c] ∧ cl_answer c = Err err ∧ (retryable err = true → length calls = length ts)
    end }.

Lemma tried_once inv t ts last e e' r r' : ctx_Err e = None →
  match r, r' with
  | Ok v, Ok (Some v') => v = v'
  | Err err, Err err' => err = err' ∧ retryable err = false
  | _, _ => False
  end →
  tried inv (t :: ts) last e' [{| cl_env := e; cl_invocation := attempt inv t; cl_answer := r |}] r'.
Proof.
  intros He Hr. split.
  - apply prefix_cons, prefix_nil.
  - by apply Forall_singleton.
  - intros [|? [|]] ? ? [=] ?; by subst.
  - destruct r, r' as [[v'|]|err']; try done.
    + subst. by eexists [], _.
    + destruct Hr as [-> Hr]. right; right. eexists [], _. split; [done|]. split; [done|]. by rewrite Hr.
Qed.

Lemma tried_cons inv t ts last e e' err calls r : ctx_Err e = None → retryable err = true →
  tried inv ts (Some err) e' calls r →
  tried inv (t :: ts) last e' ({| cl_env := e; cl_invocation := attempt inv t; cl_answer := Err err |} :: calls) r.
Proof.
  intros He Hr [Ho Hi Hre Hend]. set (c0 := {| cl_env := e |}).
  assert (Hw : will_retry c0) by by exists err. split.
  - csimpl. by apply prefix_cons.
  - by constructor.
  - intros [|c' pre] c post [=] Hne; subst; [done|]. by eapply Hre.
  - destruct r as [[v|]|err'].
    + destruct Hend as (pre & c & -> & ?). by exists (c0 :: pre), c.
    + by destruct Hend as (_ & _ & ?).
    + destruct Hend as [(? & ? & ?)|[(-> & -> & [= ->])|(pre & c & -> & Ha & Hl)]].
      * left. split_and!; [done|by constructor|simpl; lia].
      * right; right. by exists [], c0.
      * right; right. exists (c0 :: pre), c. split_and!; [done|done|]. intros Hr'. simpl. by rewrite Hl.
Qed.

Lemma attempts_tried inv ts last e log :
  ∃ e' calls r, invokeGenericServiceWithTargets logged (ctx_Err ∘ fst)
      ErrClientClosed ErrDestroyedInvoker ErrNoReply ts inv last (e, log) = ((e', log ++ calls), r) ∧
    tried inv ts last e' calls r.
Proof.
  revert last e log. induction ts as [|t ts IH]; intros last e log; simpl.
  - eexists e, [], _. rewrite app_nil_r. split; [reflexivity|]. split.
    + apply prefix_nil.
    + constructor.
    + by intros [] ?.
    + destruct last; [right; left; done|done].
  - destruct (ctx_Err e) as [err|] eqn:Hctx.
    { eexists e, [], _. rewrite app_nil_r. split; [reflexivity|]. split; [apply prefix_nil|constructor|by intros [] ?|].
      left. split_and!; [done|constructor|simpl; lia]. }
    destruct (rpc e (attempt inv t)) as [e1 [v|err]] eqn:Hrpc.
    { eexists e1, [_], _. split; [reflexivity|]. by apply tried_once. }
    destruct (retryable err) eqn:Hr.
    2: { eexists e1, [_], _. split; [reflexivity|]. by apply tried_once. }
    destruct (IH (Some err) e1 (log ++ [{| cl_env := e; cl_invocation := attempt inv t; cl_answer := Err err |}]))
      as (e' & calls & r & Hrun & Ht).
    exists e', ({| cl_env := e; cl_invocation := attempt inv t; cl_answer := Err err |} :: calls), r.
    rewrite Hrun, <-(assoc_L (++)). split; [done|]. by apply tried_cons.
Qed.

(** C22: an instance is called once per target, in order. The calls made are the
    attempts for the first targets, each made once, and each while the context
    of the request is neither cancelled nor past its deadline; a further target
    is tried only after an error that allows it. The result is the answer of the
    last call, or its error when it does not allow another one or no target is
    left, or the error of the context, when that ends before every target was
    tried. *)
Theorem attempts_in_order inv ts e :
  ∃ e' calls r, invokeGenericServiceWithTargets logged (ctx_Err ∘ fst)
      ErrClientClosed ErrDestroyedInvoker ErrNoReply ts inv None (e, []) = ((e', calls), r) ∧
    tried inv ts None e' calls r.
Proof. apply (attempts_tried inv ts None e []). Qed.
End attempts.
