(* ===== verification/ServiceConfig.v ===== *)
(** pkg/console/service/service.go: the settings of a service (timeout,
    retries, same-region priority, argument routes), kept inside its
    configurator and its condition rule and edited through the rule service. *)
From S2P Require Import Prelude GoStrings Errors Resource Libs Indexers Store Versioning Gorm Lock RuleService Manager ConditionExpr ServiceMethods.

Open Scope string_scope.
Open Scope list_scope.
Open Scope Z_scope.

(** pkg/common/constants/rule.go *)
Definition ServiceDefaultTimeout : Z := 1000.
Definition ServiceDefaultRetries : Z := 2.
Definition SideProvider : string := "provider".
Definition SideConsumer : string := "consumer".
Definition ScopeService : string := "service".
Definition ConfiguratorVersionV3 : string := "v3.0".
Definition ConfiguratorRuleDotSuffix : string := ".configurators".
Definition ConditionRuleDotSuffix : string := ".condition-router".

(** The conversion [int32(n)]. *)
Definition i32 (z : Z) : Z := (z + 2147483648) `mod` 4294967296 - 2147483648.
Definition in_i32 (z : Z) : Prop := -2147483648 ≤ z ≤ 2147483647.

Lemma i32_id z : in_i32 z → i32 z = z.
Proof. unfold in_i32, i32. intros H. rewrite Z.mod_small; lia. Qed.

(** ** Reading and changing the entries of a configurator *)

(** The body of [getServiceTimeout] and [getServiceRetryTimes]. *)
Definition getParameter (side key : string) (conf : OverrideConfig) : option Z :=
  let value := default "" (oc_Parameters conf !! key) in
  if decide (oc_Side conf = side ∧ value ≠ "") then i32 <$> ParseInt value else None.

Definition getServiceTimeout : OverrideConfig → option Z := getParameter SideProvider "timeout".
Definition getServiceRetryTimes : OverrideConfig → option Z := getParameter SideConsumer "retries".

Definition set_parameter (key : string) (value : Z) (conf : OverrideConfig) : OverrideConfig := {|
  oc_Side := oc_Side conf; oc_Addresses := oc_Addresses conf;
  oc_ProviderAddresses := oc_ProviderAddresses conf;
  oc_Parameters := <[key := pretty value]> (oc_Parameters conf);
  oc_Applications := oc_Applications conf; oc_Services := oc_Services conf;
  oc_Type := oc_Type conf; oc_Enabled := oc_Enabled conf; oc_Match := oc_Match conf;
  oc_XGenerateByCp := oc_XGenerateByCp conf |}.

(** The entry a setting is created with. *)
Definition new_config (side key : string) (value : Z) : OverrideConfig := {|
  oc_Side := side; oc_Addresses := []; oc_ProviderAddresses := [];
  oc_Parameters := {[key := pretty value]}; oc_Applications := []; oc_Services := [];
  oc_Type := ""; oc_Enabled := false; oc_Match := None; oc_XGenerateByCp := true |}.

(** [slice.ForEachWithBreak] up to the first entry with the setting. *)
Fixpoint first_found (get : OverrideConfig → option Z) (l : list OverrideConfig) : option Z :=
  match l with
  | [] => None
  | conf :: l => match get conf with Some v => Some v | None => first_found get l end
  end.

Definition with_configs (dc : DynamicConfig) (configs : list OverrideConfig) : DynamicConfig := {|
  dc_Key := dc_Key dc; dc_Scope := dc_Scope dc; dc_ConfigVersion := dc_ConfigVersion dc;
  dc_Enabled := dc_Enabled dc; dc_Configs := configs |}.

Definition with_spec (r : Resource) (s : Spec) : Resource :=
  {| res_meta := res_meta r; res_Mesh := res_Mesh r; res_spec := s |}.

(** [NewDynamicConfigResourceWithAttributes], [NewConditionRouteResourceWithAttributes]. *)
Definition new_resource (name mesh : string) (s : Spec) : Resource :=
  {| res_meta := {| meta_Name := name; meta_Labels := Some ∅; meta_Annotations := None |};
     res_Mesh := mesh; res_spec := s |}.

Definition service_configurator (req : BaseServiceReq) (conf : OverrideConfig) : DynamicConfig := {|
  dc_Key := req_ServiceName req; dc_Scope := ScopeService;
  dc_ConfigVersion := ConfiguratorVersionV3; dc_Enabled := true; dc_Configs := [conf] |}.

Definition service_route (req : BaseServiceReq) (conditions : list string) : ConditionRoute := {|
  cr_ConfigVersion := "v3.0"; cr_Priority := 0; cr_Enabled := true; cr_Force := false;
  cr_Runtime := true; cr_Key := req_ServiceName req; cr_Scope := ScopeService;
  cr_Conditions := conditions |}.

Definition region_condition : string := "=>region=$region".
Definition isServiceSameRegion (condition : string) : bool :=
  str_has (trim_space condition) region_condition.

(** [isArgumentRoute judge whether the condition is argument route]. *)
Definition isArgumentRoute (condition : string) : bool := str_has condition "method".

(** The first entry with a setting: the entries before it, itself, the value
    it has, the entries after it. *)
Fixpoint split_found (get : OverrideConfig → option Z) (l : list OverrideConfig)
    : option (list OverrideConfig * OverrideConfig * Z * list OverrideConfig) :=
  match l with
  | [] => None
  | conf :: l =>
      match get conf with
      | Some v => Some ([], conf, v, l)
      | None => '(before, c, v, after) ← split_found get l; Some (conf :: before, c, v, after)
      end
  end.

Section config.
Context {S M : Type} `{ResourceStore S, ResourceManager M}.
Context (protojson_Marshal : Spec → result error string) (json_canonical : string → result error string)
  (HashSpecJSON : string → string).
Context (ctx : nat → Ctx) (env : nat → nat → S → S) (now : nat → Z) (maxVersions : Z).
Context (lockMgr : option (string → option error)).

(** What a change, in place, of the object [GetByKey] handed out does to the
    manager: a store that hands out its own objects now holds the changed one,
    a store that decodes on every read does not notice. *)
Context (touch : M → Resource → M).

Abbreviation state := (option S * M)%type.
Abbreviation updateRule := (updateRule protojson_Marshal json_canonical HashSpecJSON ctx env now maxVersions lockMgr).
Abbreviation createRule := (createRule protojson_Marshal json_canonical HashSpecJSON ctx env now maxVersions lockMgr).
Definition no_options : RuleMutationOptions := {| opts_Author := "" |}.

Definition touched (st : state) (res : Resource) : state := (st.1, touch st.2 res).

(** manager_helper.go: [GetByKey] at the two rule types. *)
Definition typed_error (kind : ResourceKind) : error := NewAssertionError (kind_string kind) "".

Definition GetConfigurator (m : M) (name mesh : string) : result error (option (Resource * option DynamicConfig)) :=
  res ← rm_GetByKey m DynamicConfigKind (BuildResourceKey mesh name);
  match res with
  | None => Ok None
  | Some res =>
      match res_spec res with
      | DynamicConfigSpec s => Ok (Some (res, s))
      | _ => Err (typed_error DynamicConfigKind)
      end
  end.

Definition GetConditionRule (m : M) (name mesh : string) : result error (option (Resource * option ConditionRoute)) :=
  res ← rm_GetByKey m ConditionRouteKind (BuildResourceKey mesh name);
  match res with
  | None => Ok None
  | Some res =>
      match res_spec res with
      | ConditionRouteSpec s => Ok (Some (res, s))
      | _ => Err (typed_error ConditionRouteKind)
      end
  end.

Definition UpdateConfigurator (st : state) (res : Resource) : state * option error := updateRule st res no_options.
Definition CreateConfigurator (st : state) (res : Resource) : state * option error := createRule st res no_options.
Definition UpdateConditionRule (st : state) (res : Resource) : state * option error := updateRule st res no_options.
Definition CreateConditionRule (st : state) (res : Resource) : state * option error := createRule st res no_options.

Definition configurator_name (req : BaseServiceReq) : string := ServiceKey req +:+ ConfiguratorRuleDotSuffix.
Definition condition_rule_name (req : BaseServiceReq) : string := ServiceKey req +:+ ConditionRuleDotSuffix.

(** *** Timeout *)
Definition GetServiceTimeoutConfig (m : M) (req : BaseServiceReq) : result error Z :=
  res ← GetConfigurator m (configurator_name req) (req_Mesh req);
  match res with
  | Some (_, Some dc) => Ok (default ServiceDefaultTimeout (first_found getServiceTimeout (dc_Configs dc)))
  | _ => Ok ServiceDefaultTimeout
  end.

Definition UpInsertServiceConfigTimeoutConfig (st : state) (req : BaseServiceReq) (timeout : Z)
    : state * option error :=
  let fresh := new_config SideProvider "timeout" timeout in
  match GetConfigurator st.2 (configurator_name req) (req_Mesh req) with
  | Err e => (st, Some e)
  | Ok (Some (res, Some dc)) =>
      match split_found getServiceTimeout (dc_Configs dc) with
      | Some (before, conf, oldTimeout, after) =>
          if decide (oldTimeout = timeout) then (st, None)
          else
            let res := with_spec res (DynamicConfigSpec (Some (with_configs dc
                         (before ++ set_parameter "timeout" timeout conf :: after)))) in
            UpdateConfigurator (touched st res) res
      | None =>
          let res := with_spec res (DynamicConfigSpec (Some (with_configs dc (dc_Configs dc ++ [fresh])))) in
          UpdateConfigurator (touched st res) res
      end
  | Ok _ =>
      if decide (timeout = ServiceDefaultTimeout) then (st, None)
      else CreateConfigurator st (new_resource (configurator_name req) (req_Mesh req)
             (DynamicConfigSpec (Some (service_configurator req fresh))))
  end.

(** *** Retries *)
Definition GetServiceRetryConfig (m : M) (req : BaseServiceReq) : result error Z :=
  res ← GetConfigurator m (configurator_name req) (req_Mesh req);
  match res with
  | Some (_, Some dc) => Ok (default ServiceDefaultRetries (first_found getServiceRetryTimes (dc_Configs dc)))
  | _ => Ok ServiceDefaultRetries
  end.

(** The loop over the entries: [before] has been visited. The loop goes on
    after an update; [inr] is a [return] inside it, [inl] the entries when it
    ends. *)
Fixpoint retry_loop (st : state) (res : Resource) (dc : DynamicConfig) (retries : Z)
    (before rest : list OverrideConfig) : state * (list OverrideConfig + option error) :=
  match rest with
  | [] => (st, inl before)
  | conf :: rest =>
      match getServiceRetryTimes conf with
      | None => retry_loop st res dc retries (before ++ [conf]) rest
      | Some retryTimes =>
          if decide (retryTimes = retries) then (st, inr None)
          else
            let conf := set_parameter "retries" retries conf in
            let changed := with_spec res (DynamicConfigSpec (Some (with_configs dc (before ++ conf :: rest)))) in
            match UpdateConfigurator (touched st changed) changed with
            | (st, Some e) => (st, inr (Some e))
            | (st, None) => retry_loop st res dc retries (before ++ [conf]) rest
            end
      end
  end.

Definition UpInsertServiceRetryConfig (st : state) (req : BaseServiceReq) (retries : Z)
    : state * option error :=
  let fresh := new_config SideConsumer "retries" retries in
  match GetConfigurator st.2 (configurator_name req) (req_Mesh req) with
  | Err e => (st, Some e)
  | Ok (Some (res, Some dc)) =>
      match retry_loop st res dc retries [] (dc_Configs dc) with
      | (st, inr r) => (st, r)
      | (st, inl configs) =>
          if decide (retries = ServiceDefaultRetries) then (st, None)
          else
            let res := with_spec res (DynamicConfigSpec (Some (with_configs dc (configs ++ [fresh])))) in
            UpdateConfigurator (touched st res) res
      end
  | Ok _ =>
      if decide (retries = ServiceDefaultRetries) then (st, None)
      else CreateConfigurator st (new_resource (configurator_name req) (req_Mesh req)
             (DynamicConfigSpec (Some (service_configurator req fresh))))
  end.

(** *** Same-region priority *)
Definition GetServiceRegionPriorityConfig (m : M) (req : BaseServiceReq) : result error bool :=
  res ← GetConditionRule m (condition_rule_name req) (req_Mesh req);
  match res with
  | None => Ok false
  | Some (_, None) => Err nil_dereference
  | Some (_, Some cr) => Ok (existsb isServiceSameRegion (cr_Conditions cr))
  end.

Definition with_conditions (cr : ConditionRoute) (conditions : list string) : ConditionRoute := {|
  cr_ConfigVersion := cr_ConfigVersion cr; cr_Priority := cr_Priority cr; cr_Enabled := cr_Enabled cr;
  cr_Force := cr_Force cr; cr_Runtime := cr_Runtime cr; cr_Key := cr_Key cr; cr_Scope := cr_Scope cr;
  cr_Conditions := conditions |}.

(** The conditions without the first one of the same region. *)
Fixpoint without_region (l : list string) : option (list string) :=
  match l with
  | [] => None
  | c :: l => if isServiceSameRegion c then Some l else cons c <$> without_region l
  end.

Definition UpInsertServiceRegionPriorityConfig (st : state) (req : BaseServiceReq) (enabled : bool)
    : state * option error :=
  match GetConditionRule st.2 (condition_rule_name req) (req_Mesh req) with
  | Err e => (st, Some e)
  | Ok (Some (res, Some cr)) =>
      match without_region (cr_Conditions cr) with
      | Some conditions =>
          if enabled then (st, None)
          else
            let res := with_spec res (ConditionRouteSpec (Some (with_conditions cr conditions))) in
            UpdateConditionRule (touched st res) res
      | None =>
          if negb enabled then (st, None)
          else
            let res := with_spec res (ConditionRouteSpec (Some (with_conditions cr
                         (cr_Conditions cr ++ [region_condition])))) in
            UpdateConditionRule (touched st res) res
      end
  | Ok _ =>
      if negb enabled then (st, None)
      else CreateConditionRule st (new_resource (condition_rule_name req) (req_Mesh req)
             (ConditionRouteSpec (Some (service_route req [region_condition]))))
  end.

(** *** Argument routes *)
Definition GetServiceArgumentRouteConfig (m : M) (req : BaseServiceReq)
    : result error (option (list ServiceArgument)) :=
  rawRes ← GetConditionRule m (condition_rule_name req) (req_Mesh req);
  match rawRes with
  | Some (_, Some cr) => Ok (Some (ParseConditionExpression <$> cr_Conditions cr))
  | _ => Ok None
  end.

Definition UpInsertServiceArgumentRouteConfig (st : state) (req : BaseServiceReq)
    (routes : list ServiceArgument) : state * option error :=
  let write st res old :=
    let conditions := filter (λ c, isArgumentRoute c = false) old ++ (ToExpression <$> routes) in
    let res := with_spec res (ConditionRouteSpec (Some (service_route req conditions))) in
    (st, res) in
  match GetConditionRule st.2 (condition_rule_name req) (req_Mesh req) with
  | Err e => (st, Some e)
  | Ok (Some (_, None)) => (st, Some nil_dereference)
  | Ok (Some (res, Some cr)) =>
      let '(st, res) := write st res (cr_Conditions cr) in
      UpdateConditionRule (touched st res) res
  | Ok None =>
      let '(st, res) := write st (new_resource (condition_rule_name req) (req_Mesh req)
                                    (ConditionRouteSpec None)) [] in
      UpdateConditionRule st res
  end.
End config.
