(* ===== verification/ServiceSettings.v ===== *)
(** What the service settings of ServiceConfig.v guarantee: a setting reads
    back as it was set, and what the edits leave behind in the rules. *)
From S2P Require Import Prelude GoStrings Errors Resource Libs Indexers Store Versioning Gorm Lock RuleService Manager ConditionExpr ServiceMethods ServiceConfig.

Open Scope string_scope.
Open Scope list_scope.
Open Scope Z_scope.

(** A manager whose reads see its own writes. *)
Class VisibleWrites (M : Type) `{ResourceManagerLaws M} := {
  vw_Update m res old m' : rm_ok m →
    rm_GetByKey m (res_kind res) (ResourceKey res) = Ok (Some old) → rm_Update m res = (m', None) →
    rm_ok m' ∧ rm_GetByKey m' (res_kind res) (ResourceKey res) = Ok (Some res);
  vw_Add m res m' : rm_ok m →
    rm_GetByKey m (res_kind res) (ResourceKey res) = Ok None → rm_Add m res = (m', None) →
    rm_ok m' ∧ rm_GetByKey m' (res_kind res) (ResourceKey res) = Ok (Some res) }.

(** ** Entries of a configurator *)
Lemma getParameter_set side key conf v old :
  in_i32 v → getParameter side key conf = Some old →
  getParameter side key (set_parameter key v conf) = Some v.
Proof.
  intros Hv. unfold getParameter. case_decide as Hd; [|done]. intros _. simpl.
  rewrite lookup_insert_eq. simpl.
  assert (Hp : ParseInt (pretty v) = Some v).
  { apply ParseInt_pretty. unfold in_i64, i64_min, i64_max. unfold in_i32 in Hv. lia. }
  rewrite decide_True.
  - rewrite Hp. simpl. by rewrite i32_id.
  - split; [by destruct Hd|]. intros He. by rewrite He in Hp.
Qed.

Lemma getParameter_new side key v :
  in_i32 v → getParameter side key (new_config side key v) = Some v.
Proof.
  intros Hv. unfold getParameter. simpl. rewrite lookup_singleton_eq. simpl.
  assert (Hp : ParseInt (pretty v) = Some v).
  { apply ParseInt_pretty. unfold in_i64, i64_min, i64_max. unfold in_i32 in Hv. lia. }
  rewrite decide_True.
  - rewrite Hp. simpl. by rewrite i32_id.
  - split; [done|]. intros He. by rewrite He in Hp.
Qed.

Lemma first_found_app get l k :
  first_found get (l ++ k) = match first_found get l with Some v => Some v | None => first_found get k end.
Proof. induction l as [|c l IH]; [done|]. simpl. by destruct (get c). Qed.

Lemma split_found_None get l : split_found get l = None → first_found get l = None.
Proof.
  induction l as [|c l IH]; [done|]. simpl. destruct (get c); [done|].
  destruct (split_found get l) as [[[[? ?] ?] ?]|]; [done|]. auto.
Qed.

Lemma split_found_Some get l before c v after :
  split_found get l = Some (before, c, v, after) →
  l = before ++ c :: after ∧ first_found get before = None ∧ get c = Some v.
Proof.
  revert before. induction l as [|x l IH]; intros before; [done|]. simpl.
  destruct (get x) eqn:Hx.
  - intros [= <- <- <- <-]. by split_and!.
  - destruct (split_found get l) as [[[[b c'] v'] a]|]; [|done]. simpl.
    intros [= <- <- <- <-]. destruct (IH b eq_refl) as (-> & Hb & Hc).
    split_and!; [done| |done]. simpl. by rewrite Hx.
Qed.

Lemma timeout_set conf v old :
  in_i32 v → getServiceTimeout conf = Some old →
  getServiceTimeout (set_parameter "timeout" v conf) = Some v.
Proof. apply getParameter_set. Qed.
Lemma retry_set conf v old :
  in_i32 v → getServiceRetryTimes conf = Some old →
  getServiceRetryTimes (set_parameter "retries" v conf) = Some v.
Proof. apply getParameter_set. Qed.
Lemma timeout_new v : in_i32 v → getServiceTimeout (new_config SideProvider "timeout" v) = Some v.
Proof. apply getParameter_new. Qed.
Lemma retry_new v : in_i32 v → getServiceRetryTimes (new_config SideConsumer "retries" v) = Some v.
Proof. apply getParameter_new. Qed.

Section settings.
Context {S M : Type} `{ResourceStore S, VisibleWrites M}.
Context (protojson_Marshal : Spec → result error string) (json_canonical : string → result error string)
  (HashSpecJSON : string → string).
Context (ctx : nat → Ctx) (env : nat → nat → S → S) (now : nat → Z) (maxVersions : Z).
Context (lockMgr : option (string → option error)).
Context (touch : M → Resource → M).
Context (touch_ok : ∀ m r, rm_ok m → rm_ok (touch m r)).

Abbreviation updateRule := (updateRule protojson_Marshal json_canonical HashSpecJSON ctx env now maxVersions lockMgr).
Abbreviation createRule := (createRule protojson_Marshal json_canonical HashSpecJSON ctx env now maxVersions lockMgr).
Abbreviation UpsertTimeout := (UpInsertServiceConfigTimeoutConfig protojson_Marshal json_canonical HashSpecJSON
  ctx env now maxVersions lockMgr touch).
Abbreviation UpsertRetry := (UpInsertServiceRetryConfig protojson_Marshal json_canonical HashSpecJSON
  ctx env now maxVersions lockMgr touch).
Abbreviation UpsertRegion := (UpInsertServiceRegionPriorityConfig protojson_Marshal json_canonical HashSpecJSON
  ctx env now maxVersions lockMgr touch).
Abbreviation UpsertRoutes := (UpInsertServiceArgumentRouteConfig protojson_Marshal json_canonical HashSpecJSON
  ctx env now maxVersions lockMgr touch).
Abbreviation retry_loop := (retry_loop protojson_Marshal json_canonical HashSpecJSON
  ctx env now maxVersions lockMgr touch).

Lemma withRuleLock_success {A} ruleRef (st : A) fn st' :
  withRuleLock lockMgr ruleRef st fn = (st', None) → fn st = (st', None).
Proof. unfold withRuleLock. destruct lockMgr as [acquire|]; [|done]. by destruct (acquire _). Qed.

(** A successful update of a rule was an update of an existing one. *)
Lemma updateRule_success svc m res opts svc' m' :
  rm_ok m → updateRule (svc, m) res opts = ((svc', m'), None) →
  rm_ok m' ∧ rm_GetByKey m' (res_kind res) (ResourceKey res) = Ok (Some res).
Proof.
  intros Hok Hu%withRuleLock_success. unfold getExistingRule, getRuleIfExists in Hu.
  cbn [ref_of ref_Kind] in Hu. change (ref_key (ref_of res)) with (ResourceKey res) in Hu.
  destruct (rm_GetByKey m (res_kind res) (ResourceKey res)) as [[old|]|e] eqn:Hget; simpl in Hu; try done.
  destruct (ensureBaselineHistory _ _ _ _ _ _ _ _ _ _) as [s1 [e|]]; [done|].
  destruct (appendRuleHistory _ _ _ _ _ _ _ _ _ _ _ _ _ _) as [s2 [v|e]]; [|done].
  destruct (rm_Update m res) as [m2 err] eqn:Hw. simplify_eq. by eapply vw_Update.
Qed.

Lemma createRule_success svc m res opts svc' m' :
  rm_ok m → rm_GetByKey m (res_kind res) (ResourceKey res) = Ok None →
  createRule (svc, m) res opts = ((svc', m'), None) →
  rm_ok m' ∧ rm_GetByKey m' (res_kind res) (ResourceKey res) = Ok (Some res).
Proof.
  intros Hok Hget Hc%withRuleLock_success.
  destruct (appendRuleHistory _ _ _ _ _ _ _ _ _ _ _ _ _ _) as [s2 [v|e]]; [|done].
  destruct (rm_Add m res) as [m2 err] eqn:Hw. simplify_eq. by eapply vw_Add.
Qed.

(** ** Configurators *)
Abbreviation conf_key req := (BuildResourceKey (req_Mesh req) (configurator_name req)).

Lemma GetConfigurator_found m name mesh res dc :
  rm_ok m → GetConfigurator m name mesh = Ok (Some (res, dc)) →
  ResourceKey res = BuildResourceKey mesh name ∧ res_spec res = DynamicConfigSpec dc.
Proof.
  intros Hok (r & Hr & Hs)%bind_Ok. destruct r as [r|]; [|done].
  destruct (res_spec r) eqn:Hspec; try done. simplify_eq.
  split; [|done]. by apply (rm_GetByKey_key _ _ _ _ Hok Hr).
Qed.

Lemma GetConfigurator_none m name mesh :
  GetConfigurator m name mesh = Ok None →
  rm_GetByKey m DynamicConfigKind (BuildResourceKey mesh name) = Ok None.
Proof.
  intros (r & Hr & Hs)%bind_Ok. destruct r as [r|]; [|done]. by destruct (res_spec r).
Qed.

Lemma GetConfigurator_reads m name mesh res dc :
  rm_GetByKey m DynamicConfigKind (BuildResourceKey mesh name) = Ok (Some (with_spec res (DynamicConfigSpec dc))) →
  GetConfigurator m name mesh = Ok (Some (with_spec res (DynamicConfigSpec dc), dc)).
Proof. intros Hr. unfold GetConfigurator. by rewrite Hr. Qed.

(** Replacing a configurator by one with the entries [configs]. *)
Lemma update_configs svc m name mesh res dc configs svc' m' :
  rm_ok m → ResourceKey res = BuildResourceKey mesh name →
  let changed := with_spec res (DynamicConfigSpec (Some (with_configs dc configs))) in
  updateRule (touched touch (svc, m) changed) changed no_options = ((svc', m'), None) →
  rm_ok m' ∧ GetConfigurator m' name mesh = Ok (Some (changed, Some (with_configs dc configs))).
Proof.
  intros Hok Hkey changed Hu. apply updateRule_success in Hu as [Hok' Hget]; [|by apply touch_ok].
  split; [done|]. apply GetConfigurator_reads. by rewrite <-Hkey.
Qed.

Lemma create_configs svc m name mesh fresh svc' m' :
  rm_ok m → GetConfigurator m name mesh = Ok None →
  createRule (svc, m) (new_resource name mesh (DynamicConfigSpec (Some fresh))) no_options = ((svc', m'), None) →
  ∃ r, GetConfigurator m' name mesh = Ok (Some (r, Some fresh)).
Proof.
  intros Hok Hnone Hc. apply createRule_success in Hc as [_ Hget]; [|done|by apply GetConfigurator_none].
  eexists. by apply (GetConfigurator_reads _ _ _ (new_resource name mesh (DynamicConfigSpec None))).
Qed.

(** The loop of the retries: what it returns, and the configurator then. *)
Lemma retry_loop_reads svc m req res dc retries before rest st' r :
  in_i32 retries → rm_ok m → ResourceKey res = conf_key req →
  (first_found getServiceRetryTimes before = None ∨
   first_found getServiceRetryTimes before = Some retries) →
  (∃ r, GetConfigurator m (configurator_name req) (req_Mesh req) =
    Ok (Some (r, Some (with_configs dc (before ++ rest))))) →
  retry_loop (svc, m) res dc retries before rest = (st', r) → (∀ e, r ≠ inr (Some e)) →
  rm_ok st'.2 ∧
  match r with
  | inl configs =>
      (first_found getServiceRetryTimes configs = None ∨
       first_found getServiceRetryTimes configs = Some retries) ∧
      ∃ r, GetConfigurator st'.2 (configurator_name req) (req_Mesh req) =
        Ok (Some (r, Some (with_configs dc configs)))
  | inr _ => GetServiceRetryConfig st'.2 req = Ok retries
  end.
Proof.
  intros Hi. revert svc m before. induction rest as [|conf rest IH]; intros svc m before Hok Hkey Hb Hget.
  { intros [= <- <-] _. rewrite app_nil_r in Hget. by split_and!. }
  cbn [ServiceConfig.retry_loop]. destruct (getServiceRetryTimes conf) as [old|] eqn:Hconf.
  2: { intros Hl Hr. refine (IH svc m (before ++ [conf]) Hok Hkey _ _ Hl Hr); [|by rewrite <-app_assoc].
       rewrite first_found_app. simpl. rewrite Hconf. destruct Hb as [->| ->]; auto. }
  destruct (decide (old = retries)) as [->|Hne].
  { intros [= <- <-] _. split; [done|]. destruct Hget as [x Hget]. unfold GetServiceRetryConfig. simpl.
    rewrite Hget. simpl. rewrite first_found_app. simpl. rewrite Hconf. by destruct Hb as [->| ->]. }
  set (conf' := set_parameter "retries" retries conf).
  set (changed := with_spec res _).
  destruct (UpdateConfigurator _ _ _ _ _ _ _ _ _ _) as [[svc1 m1] [e|]] eqn:Hu.
  { intros [= <- <-] Hr. by destruct (Hr e). }
  pose proof (update_configs _ _ _ _ _ _ _ _ _ Hok Hkey Hu) as [Hok1 Hget1].
  intros Hl Hr. refine (IH svc1 m1 (before ++ [conf']) Hok1 Hkey _ _ Hl Hr);
    [|rewrite <-app_assoc; by eexists].
  right. rewrite first_found_app. simpl.
  assert (getServiceRetryTimes conf' = Some retries) as -> by by eapply retry_set.
  by destruct Hb as [->| ->].
Qed.

Abbreviation has_spec m req :=
  (∀ r, GetConfigurator m (configurator_name req) (req_Mesh req) ≠ Ok (Some (r, None))).

Lemma timeout_reads svc m req value st' :
  rm_ok m → in_i32 value → has_spec m req →
  UpsertTimeout (svc, m) req value = (st', None) → GetServiceTimeoutConfig st'.2 req = Ok value.
Proof.
  intros Hok Hv Hspec. unfold UpInsertServiceConfigTimeoutConfig. simpl. destruct st' as [svc' m'].
  unfold GetServiceTimeoutConfig. simpl.
  destruct (GetConfigurator m (configurator_name req) (req_Mesh req)) as [[[res [dc|]]|]|e] eqn:Hget;
    [|by destruct (Hspec res)| |done].
  - destruct (GetConfigurator_found _ _ _ _ _ Hok Hget) as [Hkey _].
    destruct (split_found getServiceTimeout (dc_Configs dc)) as [[[[before c] old] after]|] eqn:Hs.
    + apply split_found_Some in Hs as (Hl & Hb & Hc). case_decide as Hd.
      * intros [= <- <-]. rewrite Hget. simpl. rewrite Hl, first_found_app, Hb. simpl. by rewrite Hc, Hd.
      * intros [_ ->]%(update_configs _ _ _ _ _ _ _ _ _ Hok Hkey). simpl.
        rewrite first_found_app, Hb. simpl. by rewrite (timeout_set _ _ _ Hv Hc).
    + intros [_ ->]%(update_configs _ _ _ _ _ _ _ _ _ Hok Hkey). simpl.
      rewrite first_found_app, (split_found_None _ _ Hs). simpl. by rewrite (timeout_new _ Hv).
  - case_decide as Hd; [intros [= <- <-]; rewrite Hget; by subst|].
    intros [r ->]%(create_configs _ _ _ _ _ _ _ Hok Hget). simpl. by rewrite (timeout_new _ Hv).
Qed.

Lemma retry_reads svc m req value st' :
  rm_ok m → in_i32 value → has_spec m req →
  UpsertRetry (svc, m) req value = (st', None) → GetServiceRetryConfig st'.2 req = Ok value.
Proof.
  intros Hok Hv Hspec. unfold UpInsertServiceRetryConfig. simpl. destruct st' as [svc' m'].
  destruct (GetConfigurator m (configurator_name req) (req_Mesh req)) as [[[res [dc|]]|]|e] eqn:Hget;
    [|by destruct (Hspec res)| |done].
  - destruct (GetConfigurator_found _ _ _ _ _ Hok Hget) as [Hkey _].
    destruct (retry_loop (svc, m) res dc value [] (dc_Configs dc)) as [[svc1 m1] r] eqn:Hl.
    intros Hrun.
    assert (Hstart : ∃ x, GetConfigurator m (configurator_name req) (req_Mesh req) =
      Ok (Some (x, Some (with_configs dc ([] ++ dc_Configs dc))))) by (exists res; by destruct dc).
    destruct (retry_loop_reads _ _ req _ _ _ [] _ _ r Hv Hok Hkey (or_introl eq_refl) Hstart Hl)
      as [Hok1 Hr]; [by intros e ->|].
    destruct r as [configs|r]; [|by simplify_eq]. destruct Hr as (Hf & x & Hg).
    unfold GetServiceRetryConfig in *. simpl in *. case_decide as Hd.
    + simplify_eq. rewrite Hg. simpl. by destruct Hf as [->| ->].
    + apply (update_configs _ _ _ _ _ _ _ _ _ Hok1 Hkey) in Hrun as [_ ->]. simpl.
      rewrite first_found_app. simpl. rewrite (retry_new _ Hv). by destruct Hf as [->| ->].
  - unfold GetServiceRetryConfig. simpl. case_decide as Hd; [intros [= <- <-]; rewrite Hget; by subst|].
    intros [r ->]%(create_configs _ _ _ _ _ _ _ Hok Hget). simpl. by rewrite (retry_new _ Hv).
Qed.

(** A service setting reads back as it was set: when setting a timeout
    or a retry count (any 32-bit value) succeeds, the next read returns that
    value, whether the configurator was created, an entry was changed or
    appended, or nothing had to be written because the value was the default
    or already there. *)
Theorem settings_read_back svc m req value st'
    (Hok : rm_ok m) (Hv : in_i32 value) (Hspec : has_spec m req) :
  (UpsertTimeout (svc, m) req value = (st', None) → GetServiceTimeoutConfig st'.2 req = Ok value) ∧
  (UpsertRetry (svc, m) req value = (st', None) → GetServiceRetryConfig st'.2 req = Ok value).
Proof. split; [by apply timeout_reads|by apply retry_reads]. Qed.

Lemma retry_loop_none st res dc retries before rest :
  first_found getServiceRetryTimes rest = None →
  retry_loop st res dc retries before rest = (st, inl (before ++ rest)).
Proof.
  revert before. induction rest as [|c rest IH]; intros before; simpl; [by rewrite app_nil_r|].
  destruct (getServiceRetryTimes c); [done|]. intros Hr. by rewrite IH, <-app_assoc.
Qed.

Lemma retry_loop_skip st res dc retries before pre rest :
  first_found getServiceRetryTimes pre = None →
  retry_loop st res dc retries before (pre ++ rest) = retry_loop st res dc retries (before ++ pre) rest.
Proof.
  revert before. induction pre as [|c pre IH]; intros before; simpl; [by rewrite app_nil_r|].
  destruct (getServiceRetryTimes c); [done|]. intros Hr. by rewrite IH, <-app_assoc.
Qed.

(** Changing a retry count leaves a second entry behind: the loop of
    [UpInsertServiceRetryConfig] does not return after it has updated the
    entry, so a configurator with one retry entry, set to a value that is
    neither the old one nor the default, ends with that entry changed and with
    a duplicate appended. *)
Theorem retry_change_duplicates svc m req res dc before conf old after retries st'
    (Hok : rm_ok m) (Hv : in_i32 retries)
    (Hget : GetConfigurator m (configurator_name req) (req_Mesh req) = Ok (Some (res, Some dc)))
    (Hl : dc_Configs dc = before ++ conf :: after)
    (Hb : first_found getServiceRetryTimes before = None) (Hc : getServiceRetryTimes conf = Some old)
    (Ha : first_found getServiceRetryTimes after = None)
    (Hne : retries ≠ old ∧ retries ≠ ServiceDefaultRetries)
    (Hrun : UpsertRetry (svc, m) req retries = (st', None)) :
  ∃ r, GetConfigurator st'.2 (configurator_name req) (req_Mesh req) = Ok (Some (r, Some (with_configs dc
    (before ++ set_parameter "retries" retries conf :: after ++ [new_config SideConsumer "retries" retries])))).
Proof.
  destruct (GetConfigurator_found _ _ _ _ _ Hok Hget) as [Hkey _].
  unfold UpInsertServiceRetryConfig in Hrun. cbn [fst snd] in Hrun. rewrite Hget, Hl in Hrun.
  rewrite retry_loop_skip in Hrun by done. cbn [ServiceConfig.retry_loop app] in Hrun. rewrite Hc in Hrun.
  rewrite decide_False in Hrun by (intros ->; naive_solver).
  destruct (UpdateConfigurator _ _ _ _ _ _ _ _ _ _) as [[svc1 m1] [e|]] eqn:Hu; [done|].
  pose proof (update_configs _ _ _ _ _ _ _ _ _ Hok Hkey Hu) as [Hok1 _].
  rewrite retry_loop_none in Hrun by done. rewrite decide_False in Hrun by naive_solver.
  destruct st' as [svc' m']. apply (update_configs _ _ _ _ _ _ _ _ _ Hok1 Hkey) in Hrun as [_ Hg].
  simpl. rewrite Hg. eexists. by rewrite <-!app_assoc.
Qed.

(** ** Condition rules *)
Abbreviation rule_key req := (BuildResourceKey (req_Mesh req) (condition_rule_name req)).

Lemma GetConditionRule_found m name mesh res cr :
  rm_ok m → GetConditionRule m name mesh = Ok (Some (res, cr)) → ResourceKey res = BuildResourceKey mesh name.
Proof.
  intros Hok (r & Hr & Hs)%bind_Ok. destruct r as [r|]; [|done].
  destruct (res_spec r) eqn:Hspec; try done. simplify_eq. by apply (rm_GetByKey_key _ _ _ _ Hok Hr).
Qed.

Lemma GetConditionRule_none m name mesh :
  GetConditionRule m name mesh = Ok None →
  rm_GetByKey m ConditionRouteKind (BuildResourceKey mesh name) = Ok None.
Proof.
  intros (r & Hr & Hs)%bind_Ok. destruct r as [r|]; [|done]. by destruct (res_spec r).
Qed.

Lemma GetConditionRule_reads m name mesh res cr :
  rm_GetByKey m ConditionRouteKind (BuildResourceKey mesh name) = Ok (Some (with_spec res (ConditionRouteSpec cr))) →
  GetConditionRule m name mesh = Ok (Some (with_spec res (ConditionRouteSpec cr), cr)).
Proof. intros Hr. unfold GetConditionRule. by rewrite Hr. Qed.

Lemma update_route svc m name mesh res cr svc' m' :
  rm_ok m → ResourceKey res = BuildResourceKey mesh name →
  let changed := with_spec res (ConditionRouteSpec (Some cr)) in
  updateRule (touched touch (svc, m) changed) changed no_options = ((svc', m'), None) →
  GetConditionRule m' name mesh = Ok (Some (changed, Some cr)).
Proof.
  intros Hok Hkey changed Hu. apply updateRule_success in Hu as [_ Hget]; [|by apply touch_ok].
  apply GetConditionRule_reads. by rewrite <-Hkey.
Qed.

(** Argument routes read back: when they are set on a service whose
    condition rule exists, the next read returns the routes set (over plain
    texts), after whatever conditions of the rule are not argument routes,
    parsed as if they were; when the service has no condition rule, setting
    them fails and changes nothing. *)
Theorem argument_routes_read_back svc m req routes (Hok : rm_ok m) (Hr : Forall canonical routes) :
  match GetConditionRule m (condition_rule_name req) (req_Mesh req) with
  | Ok (Some (res, Some cr)) => ∀ st', UpsertRoutes (svc, m) req routes = (st', None) →
      GetServiceArgumentRouteConfig st'.2 req =
      Ok (Some ((ParseConditionExpression <$> filter (λ c, isArgumentRoute c = false) (cr_Conditions cr)) ++ routes))
  | Ok None => ∃ e, UpsertRoutes (svc, m) req routes = ((svc, m), Some e)
  | _ => True
  end.
Proof.
  unfold UpInsertServiceArgumentRouteConfig. cbn [fst snd].
  destruct (GetConditionRule m (condition_rule_name req) (req_Mesh req)) as [[[res [cr|]]|]|e] eqn:Hget; try done.
  - intros [svc' m'] Hu. pose proof (GetConditionRule_found _ _ _ _ _ Hok Hget) as Hkey.
    apply (update_route _ _ _ _ _ _ _ _ Hok Hkey) in Hu. unfold GetServiceArgumentRouteConfig. simpl.
    rewrite Hu. simpl. clear Hu. rewrite fmap_app. do 3 f_equal. rewrite <-list_fmap_compose.
    induction Hr as [|x l Hx _ IH]; [done|]. rewrite fmap_cons, IH. simpl. by rewrite expression_roundtrip.
  - apply GetConditionRule_none in Hget. unfold UpdateConditionRule, RuleService.updateRule, withRuleLock.
    destruct lockMgr as [acquire|]; [destruct (acquire _); [by eexists|]|];
      unfold getExistingRule, getRuleIfExists;
      change (rm_GetByKey m _ _) with (rm_GetByKey m ConditionRouteKind (rule_key req));
      rewrite Hget; by eexists.
Qed.
End settings.

(** ** The history of an edited rule *)
Section history.
Context {S M : Type} `{ResourceStoreLaws S, ResourceManagerLaws M}.
Context (protojson_Marshal : Spec → result error string) (json_canonical : string → result error string)
  (HashSpecJSON : string → string).
Context (now : nat → Z) (maxVersions : Z) (lockMgr : option (string → option error)).
Context (touch : M → Resource → M).
Abbreviation Normalize := (NormalizeResource protojson_Marshal json_canonical HashSpecJSON).
Abbreviation history s res := (hist (res_kind res) (ResourceKey res) (st_items s)).
Abbreviation newest s res := (max_no s (res_kind res) (ResourceKey res)).

(** Editing a rule in place spoils its baseline: when the manager's store
    hands out its own objects, as the in-memory store does, the first change
    of a timeout records, as the state of the rule "before the first edit",
    the rule as it is after the edit, so the content the rule had is in no
    version of its history. *)
Theorem shared_edit_baseline s m req res dc before conf old after value h j
    (Hget : GetConfigurator m (configurator_name req) (req_Mesh req) = Ok (Some (res, Some dc)))
    (Hl : split_found getServiceTimeout (dc_Configs dc) = Some (before, conf, old, after))
    (Hne : old ≠ value) :
  let changed := with_spec res (DynamicConfigSpec (Some (with_configs dc
    (before ++ set_parameter "timeout" value conf :: after)))) in
  hist_ok s → history s changed = [] → newest s changed + 1 < i64_max →
  lock_free lockMgr (ref_of changed) → rm_ok (touch m changed) →
  rm_GetByKey (touch m changed) DynamicConfigKind (ResourceKey changed) = Ok (Some changed) →
  Normalize changed = Ok (h, j) →
  ∃ s' v b,
    UpInsertServiceConfigTimeoutConfig protojson_Marshal json_canonical HashSpecJSON calm alone now
      maxVersions lockMgr touch (Some s, m) req value =
      ((Some s', (rm_Update (touch m changed) changed).1), (rm_Update (touch m changed) changed).2) ∧
    history s' changed = retained maxVersions [v; b] ∧
    records v OperationUpdate SourceAdmin j ∧ records b OperationCreate SourceBootstrap j.
Proof.
  intros changed Hs Hh Hno Hlock Hok Hseen Hn. unfold UpInsertServiceConfigTimeoutConfig. cbn [fst snd].
  rewrite Hget, Hl, decide_False by done.
  destruct (updateRule_recorded protojson_Marshal json_canonical HashSpecJSON now maxVersions lockMgr
    s (touch m changed) changed no_options changed h j h j Hs Hok Hlock Hno Hseen Hn Hn)
    as (s' & v & base & Hrun & _ & _ & Hc & Hh' & Hv).
  unfold continues in Hc. rewrite Hh in Hc. destruct Hc as (b & -> & Hb & _).
  exists s', v, b. by split_and!.
Qed.
End history.

Module ServiceSettingsExample.
Import VersioningExample RuleServiceExample.
#[local] Existing Instance RefStore.ops.
#[local] Existing Instance RefStore.laws.
#[local] Existing Instance direct.
#[local] Existing Instance direct_laws.

Lemma direct_reads s r kind : RefStore.items s !! ResourceKey r = Some r → kind = res_kind r →
  rm_GetByKey s kind (ResourceKey r) = Ok (Some r).
Proof. intros Hr ->. simpl. rewrite Hr. simpl. by rewrite decide_True. Qed.

#[local] Program Instance direct_visible : VisibleWrites RefStore.store.
Next Obligation.
  intros s r old s' _ _ Hu. split; [exact I|]. apply direct_reads; [|done]. revert Hu. simpl.
  case_bool_decide; intros [= <-]. simpl. apply lookup_insert_eq.
Qed.
Next Obligation.
  intros s r s' _ _ Hu. split; [exact I|]. apply direct_reads; [|done]. revert Hu. simpl.
  case_bool_decide; intros [= <-]. simpl. apply lookup_insert_eq.
Qed.

Definition req : BaseServiceReq :=
  {| req_ServiceName := "shop"; req_Group := ""; req_Version := ""; req_Mesh := "m" |}.
Definition doc (spec : Spec) : result error string :=
  Ok match spec with
     | DynamicConfigSpec (Some dc) => str_join ";" ((λ c, default "" (oc_Parameters c !! "timeout")) <$> dc_Configs dc)
     | _ => "rule"
     end.
Definition configurator (side key : string) (value : Z) : Resource :=
  new_resource (configurator_name req) "m"
    (DynamicConfigSpec (Some (service_configurator req (new_config side key value)))).

Abbreviation timeout_run touch l v := (UpInsertServiceConfigTimeoutConfig doc Ok hash calm alone (λ _, 9) 5 None
  touch (Some none, rules l) req v).
Abbreviation retry_run l v := (UpInsertServiceRetryConfig doc Ok hash calm alone (λ _, 9) 5 None
  (λ m _, m) (Some none, rules l) req v).

Lemma settings_read_back_witness :
  (timeout_run (λ m _, m) [] 3000).2 = None ∧
  GetServiceTimeoutConfig (timeout_run (λ m _, m) [] 3000).1.2 req = Ok 3000.
Proof.
  assert (Hrun : (timeout_run (λ m _, m) [] 3000).2 = None) by (vm_compute; reflexivity).
  split; [exact Hrun|].
  assert (Hspec : ∀ r, GetConfigurator (rules []) (configurator_name req) (req_Mesh req) ≠ Ok (Some (r, None)))
    by (intros r; vm_compute; discriminate).
  assert (Htouch : ∀ m (r : Resource), rm_ok (M := RefStore.store) m → rm_ok m) by done.
  assert (Hv : in_i32 3000) by (split; discriminate).
  destruct (timeout_run (λ m _, m) [] 3000) as [st' err] eqn:Hr. cbn [fst snd] in *. subst err.
  exact (proj1 (settings_read_back doc Ok hash calm alone (λ _, 9) 5 None (λ m _, m) Htouch
    (Some none) (rules []) req 3000 st' I Hv Hspec) Hr).
Defined.

(** From 3 retries to 5. *)
Lemma retry_change_duplicates_witness :
  ∃ r, GetConfigurator (retry_run [configurator SideConsumer "retries" 3] 5).1.2
         (configurator_name req) "m" =
    Ok (Some (r, Some (with_configs (service_configurator req (new_config SideConsumer "retries" 3))
      [set_parameter "retries" 5 (new_config SideConsumer "retries" 3);
       new_config SideConsumer "retries" 5]))).
Proof.
  assert (Hrun : (retry_run [configurator SideConsumer "retries" 3] 5).2 = None) by (vm_compute; reflexivity).
  assert (Htouch : ∀ m (r : Resource), rm_ok (M := RefStore.store) m → rm_ok m) by done.
  assert (Hv : in_i32 5) by (split; discriminate).
  destruct (retry_run [configurator SideConsumer "retries" 3] 5) as [st' err] eqn:Hr. cbn [fst snd] in *.
  subst err.
  assert (Hget : GetConfigurator (rules [configurator SideConsumer "retries" 3]) (configurator_name req) "m" =
    Ok (Some (configurator SideConsumer "retries" 3,
      Some (service_configurator req (new_config SideConsumer "retries" 3))))) by (vm_compute; reflexivity).
  assert (Hne : 5 ≠ 3 ∧ 5 ≠ ServiceDefaultRetries) by (split; discriminate).
  exact (retry_change_duplicates doc Ok hash calm alone (λ _, 9) 5 None (λ m _, m) Htouch
    (Some none) (rules [configurator SideConsumer "retries" 3]) req
    (configurator SideConsumer "retries" 3) (service_configurator req (new_config SideConsumer "retries" 3))
    [] (new_config SideConsumer "retries" 3) 3 [] 5 st' I Hv Hget eq_refl eq_refl eq_refl eq_refl Hne Hr).
Defined.

(** A service without a condition rule. *)
Lemma argument_routes_read_back_witness :
  ∃ e, UpInsertServiceArgumentRouteConfig doc Ok hash calm alone (λ _, 9) 5 None (λ m _, m)
    (Some none, rules []) req [ConditionExprExample.gold] = ((Some none, rules []), Some e).
Proof.
  assert (Htouch : ∀ m (r : Resource), rm_ok (M := RefStore.store) m → rm_ok m) by done.
  assert (Hg : Forall canonical [ConditionExprExample.gold])
    by (constructor; [exact ConditionExprExample.gold_canonical | constructor]).
  exact (argument_routes_read_back doc Ok hash calm alone (λ _, 9) 5 None (λ m _, m) Htouch
    (Some none) (rules []) req [ConditionExprExample.gold] I Hg).
Defined.

(** A store that hands out its own objects. *)
Definition shared (m : RefStore.store) (r : Resource) : RefStore.store :=
  RefStore.with_items m (<[ResourceKey r := r]> (RefStore.items m)).

Lemma shared_edit_baseline_witness :
  ∃ s' v b m', timeout_run shared [configurator SideProvider "timeout" 100] 200 = ((Some s', m'), None) ∧
    hist DynamicConfigKind "m/shop::.configurators" (st_items s') = [v; b] ∧
    ver_SpecJSON v = "200" ∧ ver_SpecJSON b = "200".
Proof.
  set (m := rules [configurator SideProvider "timeout" 100]).
  assert (Hget : GetConfigurator m (configurator_name req) "m" =
    Ok (Some (configurator SideProvider "timeout" 100,
      Some (service_configurator req (new_config SideProvider "timeout" 100))))) by (vm_compute; reflexivity).
  assert (Hne : 100 ≠ 200) by discriminate.
  set (changed := configurator SideProvider "timeout" 200).
  assert (Hseen : rm_GetByKey (shared m changed) DynamicConfigKind (ResourceKey changed) = Ok (Some changed)).
  { apply direct_reads; [apply lookup_insert_eq|done]. }
  assert (Hmax : max_no none (res_kind changed) (ResourceKey changed) + 1 < i64_max) by (vm_compute; reflexivity).
  assert (Hok : rm_ok (M := RefStore.store) (shared m changed)) by exact I.
  destruct (shared_edit_baseline doc Ok hash (λ _, 9) 5 None shared none m req
    (configurator SideProvider "timeout" 100) (service_configurator req (new_config SideProvider "timeout" 100))
    [] (new_config SideProvider "timeout" 100) 100 [] 200 "h200" "200" Hget eq_refl Hne
    none_ok eq_refl Hmax I Hok Hseen eq_refl) as (s' & v & b & Hrun & Hh & Hv & Hb).
  exists s', v, b, (rm_Update (shared m changed) changed).1. split_and!.
  - exact Hrun.
  - exact Hh.
  - exact (rec_json _ _ _ _ Hv).
  - exact (rec_json _ _ _ _ Hb).
Defined.
End ServiceSettingsExample.
