(* ===== verification/ConsoleViews.v ===== *)
(** What the console shows of instances, applications and services:
    pkg/console/model/instance.go and application.go, and the queries of
    pkg/console/service/instance.go, application.go and service.go. *)
From S2P Require Import Prelude GoStrings Errors Resource Libs Indexers Store Queries RuleService Manager Instances.

Open Scope string_scope.
Open Scope list_scope.

(** ** Configuration (pkg/config/app/admin.go)

    The meshes and the engine; each has an id and a name. *)
Record Discovery_Config := { disc_ID : string; disc_Name : string }.
Record Engine_Config := { eng_ID : string; eng_Name : string }.
Record AdminConfig := { cfg_Discovery : list Discovery_Config; cfg_Engine : option Engine_Config }.

Definition FindDiscovery (cfg : AdminConfig) (id : string) : option Discovery_Config :=
  head (filter (λ d, disc_ID d = id) (cfg_Discovery cfg)).

(** pkg/common/util/discovery *)
Definition GetOrDefaultRegistryName (cfg : AdminConfig) (mesh : string) : string :=
  match FindDiscovery cfg mesh with Some d => disc_Name d | None => "default" end.

(** ** States of an instance (pkg/console/model/instance.go) *)
Section states.
(** [strutil.IsBlank]. *)
Context (IsBlank : string → bool).

(** The first condition about readiness counts; none: not ready. *)
Definition isPodReady (i : Instance_) : bool :=
  match head (filter (λ c, cond_Type c = "Ready") (inst_Conditions i)) with
  | Some c => bool_decide (cond_Status c = "True")
  | None => false
  end.

Definition DeriveInstanceDeployState (i : option Instance_) : string :=
  match i with
  | None => "Unknown"
  | Some i =>
      if IsBlank (inst_DeployState i) then "Unknown"
      else if decide (inst_DeployState i = "Running") then
        if isPodReady i then "Running" else "Starting"
      else inst_DeployState i
  end.

Definition DeriveInstanceRegisterState (i : option Instance_) : string :=
  match i with
  | None => "UnRegistered"
  | Some i => if IsBlank (inst_RegisterTime i) then "UnRegistered" else "Registered"
  end.

Definition DeriveInstanceLifecycleState (i : option Instance_) (deployState registerState : string) : string :=
  if decide (deployState ∈ ["Crashing"; "Failed"; "Succeeded"]) then "Error"
  else if decide (deployState = "Terminating") then "Terminating"
  else if decide (deployState = "Unknown") then
    if decide (registerState = "Registered") then "Serving" else "Unknown"
  else if decide (registerState = "Registered") then
    if decide (deployState = "Running") then "Serving" else "Error"
  else if match i with
          | Some i => bool_decide (deployState = "Running") && negb (IsBlank (inst_UnregisterTime i))
          | None => false
          end then "Draining"
  else if decide (deployState ∈ ["Pending"; "Starting"; "Running"]) then "Starting" else "Unknown".

(** The three states the console shows of one instance. *)
Definition deploy_state (i : Instance_) : string := DeriveInstanceDeployState (Some i).
Definition register_state (i : Instance_) : string := DeriveInstanceRegisterState (Some i).
Definition lifecycle_state (i : Instance_) : string :=
  DeriveInstanceLifecycleState (Some i) (deploy_state i) (register_state i).

(** ** Rows and details of instances *)
Record SearchInstanceResp := {
  sir_Ip : string; sir_Name : string; sir_WorkloadName : string; sir_AppName : string;
  sir_LifecycleState : string; sir_DeployState : string; sir_DeployCluster : string;
  sir_RegisterState : string; sir_RegisterClusters : list string; sir_CreateTime : string;
  sir_RegisterTime : string; sir_Labels : gmap string string }.

(** The name of the engine, if the instance runs in it. *)
Definition deploy_cluster (cfg : AdminConfig) (i : Instance_) : string :=
  match cfg_Engine cfg with
  | Some e => if decide (eng_ID e = inst_SourceEngine i) then eng_Name e else ""
  | None => ""
  end.

(** A resource without a spec is dereferenced. *)
Definition search_resp (cfg : AdminConfig) (r : Resource) : result error SearchInstanceResp :=
  match instance_spec r with
  | None => Err nil_dereference
  | Some i =>
      Ok {| sir_Ip := inst_Ip i; sir_Name := inst_Name i; sir_WorkloadName := inst_WorkloadName i;
            sir_AppName := inst_AppName i; sir_LifecycleState := lifecycle_state i;
            sir_DeployState := deploy_state i; sir_DeployCluster := deploy_cluster cfg i;
            sir_RegisterState := register_state i;
            sir_RegisterClusters := match FindDiscovery cfg (res_Mesh r) with Some d => [disc_Name d] | None => [] end;
            sir_CreateTime := inst_CreateTime i; sir_RegisterTime := inst_RegisterTime i;
            sir_Labels := inst_Tags i |}
  end.

Record ProbeView := { pv_Type : string; pv_Port : Z; pv_Open : bool }.
Record ProbeStruct := { ps_StartupProbe : ProbeView; ps_ReadinessProbe : ProbeView; ps_LivenessProbe : ProbeView }.
Definition no_probe : ProbeView := {| pv_Type := ""; pv_Port := 0; pv_Open := false |}.

Definition show_probe (s : ProbeStruct) (p : Probe) : ProbeStruct :=
  let v := {| pv_Type := probe_Type p; pv_Port := probe_Port p; pv_Open := true |} in
  if decide (probe_Type p = "startup") then
    {| ps_StartupProbe := v; ps_ReadinessProbe := ps_ReadinessProbe s; ps_LivenessProbe := ps_LivenessProbe s |}
  else if decide (probe_Type p = "readiness") then
    {| ps_StartupProbe := ps_StartupProbe s; ps_ReadinessProbe := v; ps_LivenessProbe := ps_LivenessProbe s |}
  else if decide (probe_Type p = "liveness") then
    {| ps_StartupProbe := ps_StartupProbe s; ps_ReadinessProbe := ps_ReadinessProbe s; ps_LivenessProbe := v |}
  else s.

Record InstanceDetailResp := {
  idr_RpcPort : Z; idr_Ip : string; idr_AppName : string; idr_WorkloadName : string;
  idr_Labels : gmap string string; idr_CreateTime : string; idr_ReadyTime : string; idr_RegisterTime : string;
  idr_RegisterClusters : list string; idr_DeployCluster : string; idr_LifecycleState : string;
  idr_DeployState : string; idr_RegisterState : string; idr_Node : string; idr_Image : string;
  idr_Probes : ProbeStruct }.

(** The engine is dereferenced here, whether there is one or not. *)
Definition FromInstanceResource (cfg : AdminConfig) (r : Resource) : result error InstanceDetailResp :=
  match instance_spec r, cfg_Engine cfg with
  | Some i, Some _ =>
      Ok {| idr_RpcPort := inst_RpcPort i; idr_Ip := inst_Ip i; idr_AppName := inst_AppName i;
            idr_WorkloadName := inst_WorkloadName i; idr_Labels := inst_Tags i;
            idr_CreateTime := inst_CreateTime i; idr_ReadyTime := inst_ReadyTime i;
            idr_RegisterTime := inst_RegisterTime i;
            idr_RegisterClusters := match FindDiscovery cfg (res_Mesh r) with Some d => [disc_Name d] | None => [] end;
            idr_DeployCluster := deploy_cluster cfg i; idr_LifecycleState := lifecycle_state i;
            idr_DeployState := deploy_state i; idr_RegisterState := register_state i;
            idr_Node := inst_Node i; idr_Image := inst_Image i;
            idr_Probes := foldl show_probe {| ps_StartupProbe := no_probe; ps_ReadinessProbe := no_probe;
                                              ps_LivenessProbe := no_probe |} (inst_Probes i) |}
  | _, _ => Err nil_dereference
  end.

Record AppInstanceInfoResp := {
  air_AppName : string; air_CreateTime : string; air_LifecycleState : string; air_DeployState : string;
  air_DeployClusters : string; air_IP : string; air_Labels : gmap string string; air_Name : string;
  air_RegisterCluster : string; air_RegisterState : string; air_RegisterTime : string; air_WorkloadName : string }.

Definition buildAppInstanceInfoResp (cfg : AdminConfig) (r : Resource) : result error AppInstanceInfoResp :=
  match instance_spec r, cfg_Engine cfg with
  | Some i, Some _ =>
      Ok {| air_AppName := inst_AppName i; air_CreateTime := inst_CreateTime i;
            air_LifecycleState := lifecycle_state i; air_DeployState := deploy_state i;
            air_DeployClusters := deploy_cluster cfg i; air_IP := inst_Ip i; air_Labels := inst_Tags i;
            air_Name := inst_Name i;
            air_RegisterCluster := match FindDiscovery cfg (res_Mesh r) with Some d => disc_Name d | None => "" end;
            air_RegisterState := register_state i; air_RegisterTime := inst_RegisterTime i;
            air_WorkloadName := inst_WorkloadName i |}
  | _, _ => Err nil_dereference
  end.

(** ** The details of an application (pkg/console/model/application.go)

    A [Set] is a map; [Values] lists it in any order. *)
Record ApplicationDetail := {
  ad_AppTypes : gset string; ad_DeployClusters : gset string; ad_DubboPorts : gset string;
  ad_DubboVersions : gset string; ad_Images : gset string; ad_RegisterClusters : gset string;
  ad_RegisterModes : gset string; ad_RPCProtocols : gset string; ad_SerialProtocols : gset string;
  ad_Workloads : gset string }.

Definition NewApplicationDetail : ApplicationDetail :=
  {| ad_AppTypes := ∅; ad_DeployClusters := ∅; ad_DubboPorts := ∅; ad_DubboVersions := ∅; ad_Images := ∅;
     ad_RegisterClusters := ∅; ad_RegisterModes := ∅; ad_RPCProtocols := ∅; ad_SerialProtocols := ∅;
     ad_Workloads := ∅ |}.

(** What an instance adds to each set. *)
Definition app_type (i : Instance_) : string :=
  if decide (inst_WorkloadType i = "StatefulSet") then "有状态" else "无状态".
Definition register_cluster (cfg : AdminConfig) (r : Resource) : list string :=
  match FindDiscovery cfg (res_Mesh r) with Some _ => [res_Mesh r] | None => [] end.
Definition deploy_clusters (cfg : AdminConfig) (i : Instance_) : list string :=
  match cfg_Engine cfg with
  | Some e => if decide (eng_ID e = inst_SourceEngine i) then [eng_Name e] else []
  | None => []
  end.
Definition serial_protocol (i : Instance_) : list string :=
  if negb (IsBlank (inst_Serialization i)) then [inst_Serialization i]
  else if negb (IsBlank (inst_PreferSerialization i)) then [inst_PreferSerialization i] else [].

Definition MergeInstance (cfg : AdminConfig) (a : ApplicationDetail) (r : Resource) : result error ApplicationDetail :=
  match instance_spec r with
  | None => Err nil_dereference
  | Some i =>
      Ok {| ad_AppTypes := {[app_type i]} ∪ ad_AppTypes a;
            ad_DeployClusters := list_to_set (deploy_clusters cfg i) ∪ ad_DeployClusters a;
            ad_DubboPorts := {[pretty (inst_RpcPort i)]} ∪ ad_DubboPorts a;
            ad_DubboVersions := {[inst_ReleaseVersion i]} ∪ ad_DubboVersions a;
            ad_Images := {[inst_Image i]} ∪ ad_Images a;
            ad_RegisterClusters := list_to_set (register_cluster cfg r) ∪ ad_RegisterClusters a;
            ad_RegisterModes := {["application"]} ∪ ad_RegisterModes a;
            ad_RPCProtocols := {[inst_Protocol i]} ∪ ad_RPCProtocols a;
            ad_SerialProtocols := list_to_set (serial_protocol i) ∪ ad_SerialProtocols a;
            ad_Workloads := {[inst_WorkloadName i]} ∪ ad_Workloads a |}
  end.

Fixpoint merge_all (cfg : AdminConfig) (a : ApplicationDetail) (l : list Resource) : result error ApplicationDetail :=
  match l with [] => Ok a | r :: l => a ← MergeInstance cfg a r; merge_all cfg a l end.
End states.
