(* ===== verification/ConsoleQueries.v ===== *)
(** The queries of the console over the resource manager:
    pkg/console/service/instance.go, application.go and service.go, against
    the interface of the manager they use. *)
From S2P Require Import Prelude GoStrings Errors Resource Libs Indexers Store Queries RuleService Manager Instances ServiceCatalog ConsoleViews.

Open Scope string_scope.
Open Scope list_scope.
Open Scope Z_scope.

(** ** pkg/core/manager: [ReadOnlyResourceManager] *)
Class ReadOnlyResourceManager (M : Type) := {
  ro_GetByKey : M → ResourceKind → string → result error (option Resource);
  ro_GetByKeys : M → ResourceKind → list string → result error (list Resource);
  ro_ListByIndexes : M → ResourceKind → list IndexCondition → result error (list Resource);
  ro_PageListByIndexes : M → ResourceKind → list IndexCondition → PageReq → result error (PageData Resource) }.

(** What it promises: a list by equality of indexes is determined by the
    stored resources of the kind. *)
Class ReadOnlyResourceManagerLaws (M : Type) `{ReadOnlyResourceManager M} := {
  ro_ok : M → Prop;
  ro_items : M → ResourceKind → gmap string Resource;
  ro_indexers : M → ResourceKind → Indexers;
  ro_items_key m k key r : ro_ok m → ro_items m k !! key = Some r → ResourceKey r = key ∧ res_kind r = k;
  ro_ListByIndexes_spec m k cs : ro_ok m → cs ≠ [] → Forall (λ c, is_Some (ro_indexers m k !! c.1)) cs →
    ro_ListByIndexes m k ((λ c, equals c.1 c.2) <$> cs) = Ok (query (ro_items m k) (all_are (ro_indexers m k) cs)) }.

(** The manager of the program, over stores of the kinds; [page] is the
    [PageListByIndexes] of the stores. *)
Section implementation.
Context {St W G : Type} `{ResourceStoreQueries St, RuleGovernor G W}.
Context (route : W → ResourceKind → result error St)
  (page : St → list IndexCondition → PageReq → result error (PageData Resource)).

Definition PageListByIndexes (rm : resourcesManager (W := W) (G := G)) (rk : ResourceKind)
    (indexes : list IndexCondition) (pr : PageReq) : result error (PageData Resource) :=
  rs ← route (rg_world rm) rk; page rs indexes pr.

#[export] Instance resources_reader : ReadOnlyResourceManager (resourcesManager (W := W) (G := G)) := {
  ro_GetByKey := GetByKey route;
  ro_GetByKeys := GetByKeys route;
  ro_ListByIndexes := ListByIndexes route;
  ro_PageListByIndexes := PageListByIndexes }.

#[export] Program Instance resources_reader_laws :
    ReadOnlyResourceManagerLaws (resourcesManager (W := W) (G := G)) := {
  ro_ok rm := ∀ k, ∃ s, route (rg_world rm) k = Ok s ∧ st_ok s ∧ st_kind s = k;
  ro_items rm k := match route (rg_world rm) k with Ok s => st_items s | Err _ => ∅ end;
  ro_indexers rm k := match route (rg_world rm) k with Ok s => st_indexers s | Err _ => ∅ end }.
Next Obligation.
  intros rm k key r Hok Hr. simpl in *. destruct (Hok k) as (s & Hs & Hso & Hk). rewrite Hs in Hr.
  rewrite <-Hk. by apply (st_items_key s).
Qed.
Next Obligation.
  intros rm k cs Hok Hne Hc. simpl in *. destruct (Hok k) as (s & Hs & Hso & _). rewrite Hs in *.
  unfold ListByIndexes. rewrite Hs. by apply st_ListByIndexes_spec.
Qed.
End implementation.

(** An error is replaced by [msg]; a nil dereference is a panic. *)
Definition or_internal {A} (msg : string) (r : result error A) : result error A :=
  match r with
  | Err e => if decide (e = nil_dereference) then r else Err (biz_new InternalError msg)
  | Ok _ => r
  end.

Section queries.
Context {M : Type} `{ReadOnlyResourceManager M} (IsBlank : string → bool) (cfg : AdminConfig).
Implicit Types m : M.

(** *** manager_helper.go: at the resource type of a kind *)
Definition of_kind (k : ResourceKind) (rs : list Resource) : result error (list Resource) :=
  if forallb (λ r, bool_decide (res_kind r = k)) rs then Ok rs else Err (NewAssertionError (kind_string k) "").
Definition get_by_key m (k : ResourceKind) (key : string) : result error (option Resource) :=
  found ← ro_GetByKey m k key;
  match found with
  | None => Ok None
  | Some r => if decide (res_kind r = k) then Ok (Some r) else Err (NewAssertionError (kind_string k) "")
  end.
Definition get_by_keys m (k : ResourceKind) (keys : list string) : result error (list Resource) :=
  rs ← ro_GetByKeys m k keys; of_kind k rs.
Definition list_by_indexes m (k : ResourceKind) (cs : list IndexCondition) : result error (list Resource) :=
  rs ← ro_ListByIndexes m k cs; of_kind k rs.
Definition page_list_by_indexes m (k : ResourceKind) (cs : list IndexCondition) (pr : PageReq)
    : result error (PageData Resource) :=
  pd ← ro_PageListByIndexes m k cs pr;
  rs ← of_kind k (pd_Data pd);
  Ok {| pd_Total := pd_Total pd; pd_PageOffset := pd_PageOffset pd; pd_PageSize := pd_PageSize pd; pd_Data := rs |}.

(** *** Answers *)
Record SearchPaginationResult (T : Type) := {
  sp_List : list T; sp_Total : Z; sp_PageOffset : Z; sp_PageSize : Z }.
Arguments Build_SearchPaginationResult {T}.

Definition paginated {T} (pd : PageData Resource) (l : list T) : SearchPaginationResult T :=
  {| sp_List := l; sp_Total := pd_Total pd; sp_PageOffset := pd_PageOffset pd; sp_PageSize := pd_PageSize pd |}.
Definition counted_list {T} (pr : PageReq) (l : list T) : SearchPaginationResult T :=
  {| sp_List := l; sp_Total := Z.of_nat (length l); sp_PageOffset := PageOffset pr; sp_PageSize := PageSize pr |}.
(** The rows of a page; an empty page has the total 0. *)
Definition rows {T} (pr : PageReq) (row : Resource → result error T) (pd : PageData Resource)
    : result error (SearchPaginationResult T) :=
  match pd_Data pd with
  | [] => Ok (counted_list pr [])
  | rs => l ← result_mapM row rs; Ok (paginated pd l)
  end.
(** The rows of any page. *)
Definition all_rows {T} (row : Resource → result error T) (pd : PageData Resource)
    : result error (SearchPaginationResult T) :=
  l ← result_mapM row (pd_Data pd); Ok (paginated pd l).

Definition has_prefix_of (n v : string) : IndexCondition :=
  {| ic_IndexName := n; ic_Value := v; ic_Operator := HasPrefix |}.

(** ** instance.go *)
Definition SearchInstanceByIp m (mesh keywords : string) (pr : PageReq) :=
  pd ← page_list_by_indexes m InstanceKind
         [equals Instances.ByMeshIndex mesh; has_prefix_of ByInstanceIpIndex keywords] pr;
  rows pr (search_resp IsBlank cfg) pd.
Definition SearchInstanceByName m (mesh keywords : string) (pr : PageReq) :=
  pd ← page_list_by_indexes m InstanceKind
         [equals Instances.ByMeshIndex mesh; has_prefix_of ByInstanceNameIndex keywords] pr;
  rows pr (search_resp IsBlank cfg) pd.
Definition SearchInstances m (mesh keywords : string) (pr : PageReq)
    : result error (SearchPaginationResult SearchInstanceResp) :=
  if negb (IsBlank keywords) then SearchInstanceByIp m mesh keywords pr
  else pd ← page_list_by_indexes m InstanceKind [equals Instances.ByMeshIndex mesh] pr;
       all_rows (search_resp IsBlank cfg) pd.

Definition GetInstanceDetail m (mesh instanceName : string) : result error InstanceDetailResp :=
  res ← get_by_key m InstanceKind (BuildResourceKey mesh instanceName);
  match res with
  | None => Err (biz_new NotFoundError ("instance " +:+ instanceName +:+ " not found"))
  | Some r => FromInstanceResource IsBlank cfg r
  end.

(** ** application.go *)
Definition app_instances (mesh app : string) : list IndexCondition :=
  [equals Instances.ByMeshIndex mesh; equals ByInstanceAppNameIndex app].

Definition GetApplicationDetail m (mesh app : string) : result error ApplicationDetail :=
  rs ← list_by_indexes m InstanceKind (app_instances mesh app);
  merge_all IsBlank cfg NewApplicationDetail rs.

Definition GetAppInstanceInfo m (mesh app : string) (pr : PageReq)
    : result error (SearchPaginationResult AppInstanceInfoResp) :=
  pd ← page_list_by_indexes m InstanceKind (app_instances mesh app) pr;
  all_rows (buildAppInstanceInfoResp IsBlank cfg) pd.

Definition ByServiceProviderAppName : string := "idx_service_provider_app_name".
Definition ByServiceProviderServiceKey : string := "idx_service_provider_service_key".
Definition ByServiceProviderServiceName : string := "idx_service_provider_service_name".
Definition ByServiceConsumerAppName : string := "idx_service_consumer_app_name".
Definition ByServiceConsumerServiceKey : string := "idx_service_consumer_service_key".
Definition ByServiceConsumerServiceName : string := "idx_service_consumer_service_name".
Definition ByServiceName : string := "idx_service_name".

Record ServiceSearchResp := {
  ssr_ServiceName : string; ssr_Version : string; ssr_Group : string; ssr_ConsumerAppName : string }.

Definition provider_of (r : Resource) : option ServiceProviderMetadata :=
  match res_spec r with ServiceProviderMetadataSpec s => s | _ => None end.
Definition consumer_of (r : Resource) : option ServiceConsumerMetadata :=
  match res_spec r with ServiceConsumerMetadataSpec s => Some s | _ => None end.
Definition service_of (r : Resource) : option Service :=
  match res_spec r with ServiceSpec s => s | _ => None end.

Definition row_of {A B} (get : Resource → option A) (f : A → B) (r : Resource) : result error B :=
  match get r with Some a => Ok (f a) | None => Err nil_dereference end.

Definition ToServiceSearchRespByProvider : Resource → result error ServiceSearchResp :=
  row_of provider_of (λ s, {| ssr_ServiceName := spm_ServiceName s; ssr_Version := spm_Version s;
                              ssr_Group := spm_Group s; ssr_ConsumerAppName := "" |}).
Definition ToServiceSearchRespByConsumer : Resource → result error ServiceSearchResp :=
  row_of consumer_of (λ s, {| ssr_ServiceName := scm_ServiceName s; ssr_Version := scm_Version s;
                              ssr_Group := scm_Group s; ssr_ConsumerAppName := scm_ConsumerAppName s |}).
Definition ToServiceSearchRespByService : Resource → result error ServiceSearchResp :=
  row_of service_of (λ s, {| ssr_ServiceName := svc_Name s; ssr_Version := svc_Version s;
                             ssr_Group := svc_Group s; ssr_ConsumerAppName := "" |}).

Definition getAppProvideServiceInfo m (mesh app serviceName : string) (pr : PageReq) :=
  pd ← page_list_by_indexes m ServiceProviderMetadataKind
         ([equals Instances.ByMeshIndex mesh; equals ByServiceProviderAppName app] ++
          (if negb (IsBlank serviceName) then [equals ByServiceProviderServiceName serviceName] else [])) pr;
  rows pr ToServiceSearchRespByProvider pd.
Definition getAppConsumeServiceInfo m (mesh app : string) (pr : PageReq) :=
  pd ← page_list_by_indexes m ServiceConsumerMetadataKind
         [equals Instances.ByMeshIndex mesh; equals ByServiceConsumerAppName app] pr;
  rows pr ToServiceSearchRespByConsumer pd.
(** The name of a service is not looked at on the side of the consumers. *)
Definition GetAppServiceInfo m (mesh app serviceName side : string) (pr : PageReq)
    : result error (SearchPaginationResult ServiceSearchResp) :=
  if decide (side = "consumer") then getAppConsumeServiceInfo m mesh app pr
  else getAppProvideServiceInfo m mesh app serviceName pr.

Record ApplicationSearchResp := {
  asr_AppName : string; asr_DeployClusters : list string; asr_InstanceCount : Z; asr_RegistryClusters : list string }.

Definition app_of (r : Resource) : option Application :=
  match res_spec r with ApplicationSpec s => s | _ => None end.

(** The engine of the configuration is dereferenced. *)
Definition app_row (r : Resource) : result error ApplicationSearchResp :=
  match app_of r, cfg_Engine cfg with
  | Some a, Some e =>
      Ok {| asr_AppName := app_Name a; asr_DeployClusters := [eng_Name e]; asr_InstanceCount := app_InstanceCount a;
            asr_RegistryClusters := [GetOrDefaultRegistryName cfg (res_Mesh r)] |}
  | _, _ => Err nil_dereference
  end.

Definition SearchApplicationsByKeywords m (mesh keywords : string)
    : result error (option (list ApplicationSearchResp)) :=
  res ← get_by_key m ApplicationKind (BuildResourceKey mesh keywords);
  match res with
  | None => Ok None
  | Some r => row ← app_row r; Ok (Some [row])
  end.

(** A name that is not found gives a nil answer. *)
Definition SearchApplications m (mesh keywords : string) (pr : PageReq)
    : result error (option (SearchPaginationResult ApplicationSearchResp)) :=
  if negb (IsBlank keywords) then
    l ← SearchApplicationsByKeywords m mesh keywords;
    Ok match l with Some l => Some (counted_list pr l) | None => None end
  else
    pd ← page_list_by_indexes m ApplicationKind [equals Instances.ByMeshIndex mesh] pr;
    r ← all_rows app_row pd;
    Ok (Some r).

(** ** service.go *)
Definition SearchServicesByKeywords m (mesh keywords : string) (pr : PageReq) :=
  pd ← page_list_by_indexes m ServiceKind
         [equals Instances.ByMeshIndex mesh; has_prefix_of ByServiceName keywords] pr;
  all_rows ToServiceSearchRespByService pd.
Definition SearchServices m (mesh keywords : string) (pr : PageReq)
    : result error (SearchPaginationResult ServiceSearchResp) :=
  if negb (IsBlank keywords) then SearchServicesByKeywords m mesh keywords pr
  else pd ← page_list_by_indexes m ServiceKind [equals Instances.ByMeshIndex mesh] pr;
       all_rows ToServiceSearchRespByService pd.

(** The consumers of a service, in whatever mesh they are. *)
Definition GetServiceTabDistribution m (mesh serviceName keywords : string) (pr : PageReq)
    : result error (SearchPaginationResult ApplicationSearchResp) :=
  match page_list_by_indexes m ServiceConsumerMetadataKind
          (equals ByServiceConsumerServiceName serviceName ::
           (if negb (IsBlank keywords) then [equals ByServiceConsumerAppName keywords] else [])) pr with
  | Err _ => Err (biz_new InternalError "get service consumer failed, please try again")
  | Ok pd =>
      match pd_Data pd with
      | [] => Ok (counted_list pr [])
      | rs =>
          keys ← result_mapM (row_of consumer_of (λ s, BuildResourceKey mesh (scm_ConsumerAppName s))) rs;
          apps ← get_by_keys m ApplicationKind keys;
          l ← result_mapM app_row apps;
          Ok (paginated pd l)
      end
  end.
End queries.
Arguments sp_List {T}. Arguments sp_Total {T}. Arguments Build_SearchPaginationResult {T}.

(** ** The details of an application collect its instances *)
Section detail.
Context {M : Type} `{ReadOnlyResourceManagerLaws M} (IsBlank : string → bool) (cfg : AdminConfig) (m : M).
Context (Hok : ro_ok m) (Hmesh : ro_indexers m InstanceKind !! Instances.ByMeshIndex = Some ByMesh)
  (Happ : ro_indexers m InstanceKind !! ByInstanceAppNameIndex = Some (byInstanceAppName IsBlank)).

(** The sets of the answer, with what an instance adds to each. *)
Definition facets : list ((ApplicationDetail → gset string) * (Resource → Instance_ → list string)) :=
  [(ad_AppTypes, λ _ i, [app_type i]); (ad_DeployClusters, λ _ i, deploy_clusters cfg i);
   (ad_DubboPorts, λ _ i, [pretty (inst_RpcPort i)]); (ad_DubboVersions, λ _ i, [inst_ReleaseVersion i]);
   (ad_Images, λ _ i, [inst_Image i]); (ad_RegisterClusters, λ r _, register_cluster cfg r);
   (ad_RegisterModes, λ _ _, ["application"]); (ad_RPCProtocols, λ _ i, [inst_Protocol i]);
   (ad_SerialProtocols, λ _ i, serial_protocol IsBlank i); (ad_Workloads, λ _ i, [inst_WorkloadName i])].

Lemma MergeInstance_adds a r i : instance_spec r = Some i →
  ∃ a', MergeInstance IsBlank cfg a r = Ok a' ∧ Forall (λ f, f.1 a' = list_to_set (f.2 r i) ∪ f.1 a) facets.
Proof.
  intros Hi. unfold MergeInstance. rewrite Hi. eexists. split; [done|].
  repeat constructor; simpl; set_solver.
Qed.

Lemma merge_all_adds l a : Forall (λ r, is_Some (instance_spec r)) l →
  ∃ a', merge_all IsBlank cfg a l = Ok a' ∧
    Forall (λ f, ∀ v, v ∈ f.1 a' ↔ v ∈ f.1 a ∨ ∃ r i, r ∈ l ∧ instance_spec r = Some i ∧ v ∈ f.2 r i) facets.
Proof.
  intros Hl. revert a. induction Hl as [|r l [i Hi] _ IH]; intros a; simpl.
  - exists a. split; [done|]. apply Forall_forall. intros f _ v. split; [by left|].
    intros [?|(r & i & Hr & _)]; [done|by apply elem_of_nil in Hr].
  - destruct (MergeInstance_adds a r i Hi) as (a1 & -> & H1). cbn [mbind result_bind].
    destruct (IH a1) as (a2 & -> & H2).
    exists a2. split; [done|]. rewrite Forall_forall in *. intros f Hf v. rewrite (H2 f Hf), (H1 f Hf).
    rewrite elem_of_union, elem_of_list_to_set. setoid_rewrite elem_of_cons. naive_solver.
Qed.

(** The instances of an application that a list by its name gives. *)
Lemma app_instances_listed mesh app :
  ∃ l, list_by_indexes m InstanceKind (app_instances mesh app) = Ok l ∧ NoDup (ResourceKey <$> l) ∧
    ∀ r, r ∈ l ↔ ro_items m InstanceKind !! ResourceKey r = Some r ∧ res_Mesh r = mesh ∧
      ∃ i, instance_spec r = Some i ∧ inst_AppName i = app ∧ IsBlank app = false.
Proof using Hok Hmesh Happ.
  assert (Hself : self_keyed (ro_items m InstanceKind)) by (intros k r Hr; by apply (ro_items_key m InstanceKind)).
  unfold list_by_indexes, of_kind, app_instances.
  pose proof (ro_ListByIndexes_spec m InstanceKind [(Instances.ByMeshIndex, mesh); (ByInstanceAppNameIndex, app)] Hok) as Hl.
  csimpl in Hl. rewrite Hl; clear Hl; [|done|eapply indexed_by; [exact Hmesh|]; eapply indexed_by; [exact Happ|constructor]].
  cbn [mbind result_bind]. set (l := query _ _).
  assert (Hin : ∀ r, r ∈ l ↔ ro_items m InstanceKind !! ResourceKey r = Some r ∧ res_Mesh r = mesh ∧
    ∃ i, instance_spec r = Some i ∧ inst_AppName i = app ∧ IsBlank app = false).
  { intros r. unfold l. rewrite elem_of_query by done. unfold all_are, index_is. cbn [forallb fst snd].
    rewrite Hmesh, Happ, andb_true_r, andb_true_iff. unfold index_has at 1, ByMesh. rewrite bool_decide_eq_true.
    unfold byInstanceAppName. unfold index_has, assert_spec, instance_spec. simpl.
    destruct (res_spec r) as [| |[i|]| | | | | | | | | | | | | |]; simpl; try (set_solver by naive_solver).
    unfold index_field. destruct (IsBlank (inst_AppName i)) eqn:Hbi; rewrite ?bool_decide_eq_true.
    - split; [set_solver|]. intros (_ & _ & j & [= <-] & Hj & Hb). congruence.
    - rewrite !list_elem_of_singleton. naive_solver. }
  exists l. split_and!; [|unfold l; rewrite query_keys, sort_strings_perm by done; apply NoDup_query_keys|done].
  replace (forallb _ l) with true; [done|].
  symmetry. apply forallb_forall. intros r Hr%list_elem_of_In%Hin. apply bool_decide_eq_true.
  by destruct (ro_items_key m InstanceKind _ _ Hok (proj1 Hr)).
Qed.

(** The details of an application collect its instances: for every
    application the query succeeds, and each set of the answer (types, ports,
    versions, images, protocols, clusters, workloads) has exactly the values
    of the instances stored for the application in the mesh. *)
Theorem application_detail_exact mesh app : IsBlank app = false →
  ∃ d, GetApplicationDetail IsBlank cfg m mesh app = Ok d ∧
    Forall (λ f, ∀ v, v ∈ f.1 d ↔ ∃ k r i, ro_items m InstanceKind !! k = Some r ∧ res_Mesh r = mesh ∧
      instance_spec r = Some i ∧ inst_AppName i = app ∧ v ∈ f.2 r i) facets.
Proof using Type*.
  intros Hb. assert (Hself : self_keyed (ro_items m InstanceKind)) by (intros k r Hr; by apply (ro_items_key m InstanceKind)).
  unfold GetApplicationDetail. destruct (app_instances_listed mesh app) as (l & -> & _ & Hin). cbn [mbind result_bind].
  assert (Hk : Forall (λ r, is_Some (instance_spec r)) l).
  { apply Forall_forall. intros r Hr%Hin. destruct Hr as (_ & _ & i & Hi & _). by eexists. }
  destruct (merge_all_adds l NewApplicationDetail Hk) as (d & Hd & Hf). exists d. split; [exact Hd|].
  rewrite Forall_forall in *. intros f Hfin v. rewrite (Hf f Hfin).
  assert (Hempty : f.1 NewApplicationDetail = ∅).
  { unfold facets in Hfin. repeat (apply elem_of_cons in Hfin as [->|Hfin]; [done|]). by apply elem_of_nil in Hfin. }
  rewrite Hempty. setoid_rewrite Hin. split.
  - intros [?|(r & i & (Hr & Hm & j & Hj & Ha & _) & Hi & Hv)]; [set_solver|]. rewrite Hi in Hj. injection Hj as <-.
    by exists (ResourceKey r), r, i.
  - intros (k & r & i & Hr & Hm & Hi & Ha & Hv). right. exists r, i. rewrite (Hself _ _ Hr).
    split_and!; [done|done|by exists i|done|done].
Qed.
End detail.

(** A reader over resources that are all there from the start. *)
Module ConsoleQueriesExample.
#[local] Existing Instance RefStore.ops.
#[local] Existing Instance RefStore.laws.
#[local] Existing Instance RefStore_queries.
#[local] Existing Instance resources_reader.
#[local] Existing Instance resources_reader_laws.

#[local] Instance no_writes : RuleGovernor unit (list Resource) := {
  gov_CreateRule _ l _ := (l, None); gov_UpdateRule _ l _ := (l, None); gov_DeleteRule _ l _ := (l, None) }.

Definition blank (s : string) : bool := bool_decide (s = "").
Definition indexes : Indexers :=
  {[ Instances.ByMeshIndex := ByMesh; ByInstanceAppNameIndex := byInstanceAppName blank ]}.
Definition route (l : list Resource) (k : ResourceKind) : result error RefStore.store :=
  Ok {| RefStore.kind := k; RefStore.indexers := indexes;
        RefStore.items := list_to_map ((λ r, (ResourceKey r, r)) <$> filter (λ r, res_kind r = k) l) |}.
Definition page (_ : RefStore.store) (_ : list IndexCondition) (_ : PageReq) : result error (PageData Resource) :=
  Ok (NewPageData 0 0 0 []).

Definition instance (name app version image workload : string) : Resource :=
  {| res_meta := {| meta_Name := name; meta_Labels := None; meta_Annotations := None |}; res_Mesh := "nacos";
     res_spec := InstanceSpec (Some
       {| inst_Name := name; inst_AppName := app; inst_Ip := "10.0.0.1"; inst_RpcPort := 20880; inst_QosPort := 22222;
          inst_ReleaseVersion := version; inst_RegisterTime := "2024-05-01"; inst_UnregisterTime := "";
          inst_Protocol := "tri"; inst_Serialization := "fastjson2"; inst_PreferSerialization := "";
          inst_Tags := ∅; inst_Image := image; inst_CreateTime := ""; inst_StartTime := ""; inst_ReadyTime := "";
          inst_DeployState := "Running"; inst_WorkloadType := if decide (workload = "") then "" else "Deployment";
          inst_WorkloadName := workload; inst_Node := ""; inst_SourceEngine := if decide (workload = "") then "" else "k8s";
          inst_Probes := []; inst_Conditions := [] |}) |}.

Definition rm : resourcesManager (W := list Resource) (G := unit) :=
  {| rg_governors := ∅;
     rg_world := [instance "shop-1" "shop" "3.2" "shop:v1" "shop"; instance "shop-2" "shop" "3.3" "shop:v2" "shop";
                  instance "cart-1" "cart" "2.7" "cart:v1" ""] |}.

Definition config : AdminConfig := {| cfg_Discovery := []; cfg_Engine := None |}.

Lemma rm_ok : ro_ok (M := resourcesManager) (H := resources_reader route page) rm.
Proof.
  intros k. eexists. split; [reflexivity|]. split; [|done].
  intros key r Hr%elem_of_list_to_map_2%list_elem_of_fmap. destruct Hr as (x & [= -> ->] & [Hx _]%list_elem_of_filter).
  done.
Qed.

(** Both instances of [shop], and not the one of [cart]. *)
Lemma application_detail_exact_witness :
  (∃ d, GetApplicationDetail (H := resources_reader route page) blank config rm "nacos" "shop" = Ok d ∧
    Forall (λ f, ∀ v, v ∈ f.1 d ↔ ∃ k r i, ro_items (H := resources_reader route page) rm InstanceKind !! k = Some r ∧
      res_Mesh r = "nacos" ∧ instance_spec r = Some i ∧ inst_AppName i = "shop" ∧ v ∈ f.2 r i) (facets blank config)) ∧
  (match GetApplicationDetail (H := resources_reader route page) blank config rm "nacos" "shop" with
   | Ok d => Some (bool_decide (ad_Images d = {["shop:v1"; "shop:v2"]} ∧ ad_DubboVersions d = {["3.2"; "3.3"]}))
   | Err _ => None
   end = Some true).
Proof.
  split; [|vm_compute; reflexivity].
  apply (application_detail_exact (H := resources_reader route page) blank config rm rm_ok); reflexivity.
Defined.
End ConsoleQueriesExample.
