(* ===== verification/ApplicationGraph.v ===== *)
(** The graph of an application (pkg/console/service/application.go,
    GraphApplications): the applications that consume its services and those
    whose services it consumes. *)
From S2P Require Import Prelude GoStrings Errors Resource Libs Indexers Store Queries RuleService Manager Instances ConsoleViews ConsoleQueries.

Open Scope string_scope.
Open Scope list_scope.

Record GraphNode := { gn_ID : string; gn_Label : string; gn_Type : string; gn_Rule : string }.
Record GraphEdge := { ge_Source : string; ge_Target : string }.
Record GraphData := { gd_Nodes : list GraphNode; gd_Edges : list GraphEdge }.

Definition app_node (rule app : string) : GraphNode :=
  {| gn_ID := app; gn_Label := app; gn_Type := "application"; gn_Rule := rule |}.

(** The nodes and edges so far, and the applications of one side that have a
    node. *)
Record building := { bd_set : gset string; bd_Nodes : list GraphNode; bd_Edges : list GraphEdge }.

Definition add_app (rule app : string) (edge : GraphEdge) (b : building) : building :=
  if decide (app ∈ bd_set b) then b
  else {| bd_set := {[app]} ∪ bd_set b; bd_Nodes := bd_Nodes b ++ [app_node rule app];
          bd_Edges := bd_Edges b ++ [edge] |}.

Section graph.
Context {M : Type} `{ReadOnlyResourceManager M}.
Implicit Types m : M.

Definition service_key (name version group : string) : string := name +:+ ":" +:+ version +:+ ":" +:+ group.
Definition provided_key (p : ServiceProviderMetadata) : string :=
  service_key (spm_ServiceName p) (spm_Version p) (spm_Group p).
Definition consumed_key (c : ServiceConsumerMetadata) : string :=
  service_key (scm_ServiceName c) (scm_Version c) (scm_Group c).

(** A list that fails is logged and left out. *)
Definition add_consumers m (mesh : string) (b : building) (r : Resource) : building :=
  match provider_of r with
  | None => b
  | Some p =>
      match list_by_indexes m ServiceConsumerMetadataKind
              [equals Instances.ByMeshIndex mesh; equals ByServiceConsumerServiceKey (provided_key p)] with
      | Err _ => b
      | Ok items =>
          foldl (λ b item, match consumer_of item with
                           | None => b
                           | Some c => add_app "consumer" (scm_ConsumerAppName c)
                               {| ge_Source := scm_ConsumerAppName c; ge_Target := spm_ProviderAppName p |} b
                           end) b items
      end
  end.

Definition add_providers m (mesh : string) (b : building) (r : Resource) : building :=
  match consumer_of r with
  | None => b
  | Some c =>
      match list_by_indexes m ServiceProviderMetadataKind
              [equals Instances.ByMeshIndex mesh; equals ByServiceProviderServiceKey (consumed_key c)] with
      | Err _ => b
      | Ok items =>
          foldl (λ b item, match provider_of item with
                           | None => b
                           | Some p => add_app "provider" (spm_ProviderAppName p)
                               {| ge_Source := scm_ConsumerAppName c; ge_Target := spm_ProviderAppName p |} b
                           end) b items
      end
  end.

Definition GraphApplications m (mesh app : string) : result error GraphData :=
  providers ← list_by_indexes m ServiceProviderMetadataKind
                [equals Instances.ByMeshIndex mesh; equals ByServiceProviderAppName app];
  consumers ← list_by_indexes m ServiceConsumerMetadataKind
                [equals Instances.ByMeshIndex mesh; equals ByServiceConsumerAppName app];
  let b := {| bd_set := ∅; bd_Nodes := [app_node "" app]; bd_Edges := [] |} in
  let b := foldl (add_consumers m mesh) b providers in
  let b := {| bd_set := ∅; bd_Nodes := bd_Nodes b; bd_Edges := bd_Edges b |} in
  let b := foldl (add_providers m mesh) b consumers in
  Ok {| gd_Nodes := bd_Nodes b; gd_Edges := bd_Edges b |}.
End graph.

(** ** Against the stored metadata *)
Section exact.
Context {M : Type} `{ReadOnlyResourceManagerLaws M} (m : M) (mesh : string).

Definition provides (app : string) (p : ServiceProviderMetadata) : Prop :=
  ∃ k r, ro_items m ServiceProviderMetadataKind !! k = Some r ∧ res_Mesh r = mesh ∧
    provider_of r = Some p ∧ spm_ProviderAppName p = app.
Definition consumes (app : string) (c : ServiceConsumerMetadata) : Prop :=
  ∃ k r, ro_items m ServiceConsumerMetadataKind !! k = Some r ∧ res_Mesh r = mesh ∧
    consumer_of r = Some c ∧ scm_ConsumerAppName c = app.

(** [a] consumes a service of [app]. *)
Definition depends_on (a app : string) : Prop :=
  ∃ c p, consumes a c ∧ provides app p ∧ consumed_key c = provided_key p.

Record graph_indexed : Prop := {
  gi_ok : ro_ok m;
  gi_mesh k : ro_indexers m k !! Instances.ByMeshIndex = Some ByMesh;
  gi_papp : ro_indexers m ServiceProviderMetadataKind !! ByServiceProviderAppName = Some byServiceProviderAppName;
  gi_pkey : ro_indexers m ServiceProviderMetadataKind !! ByServiceProviderServiceKey = Some byServiceProviderServiceKey;
  gi_capp : ro_indexers m ServiceConsumerMetadataKind !! ByServiceConsumerAppName = Some byServiceConsumerAppName;
  gi_ckey : ro_indexers m ServiceConsumerMetadataKind !! ByServiceConsumerServiceKey = Some byServiceConsumerServiceKey }.
Context (Hx : graph_indexed).

Lemma ro_self_keyed k : self_keyed (ro_items m k).
Proof using Hx. intros key r Hr. by apply (ro_items_key m k _ _ (gi_ok Hx)). Qed.

(** The answer of a list over the mesh and one other index. *)
Definition listed (k : ResourceKind) (n v : string) : list Resource :=
  query (ro_items m k) (all_are (ro_indexers m k) [(Instances.ByMeshIndex, mesh); (n, v)]).

Lemma list_ok k n v f : ro_indexers m k !! n = Some f →
  list_by_indexes m k [equals Instances.ByMeshIndex mesh; equals n v] = Ok (listed k n v).
Proof using Hx.
  intros Hn. unfold list_by_indexes, of_kind.
  pose proof (ro_ListByIndexes_spec m k [(Instances.ByMeshIndex, mesh); (n, v)] (gi_ok Hx)) as Hl. csimpl in Hl.
  rewrite Hl; [|done|]. 2: { eapply indexed_by; [apply (gi_mesh Hx)|]. eapply indexed_by; [exact Hn|constructor]. }
  cbn [mbind result_bind]. fold (listed k n v).
  replace (forallb _ _) with true; [done|]. symmetry. apply forallb_forall. intros r Hr%list_elem_of_In.
  apply elem_of_query in Hr as [Hr _]; [|apply ro_self_keyed]. apply bool_decide_eq_true.
  by apply (ro_items_key m k _ _ (gi_ok Hx)) in Hr as [_ ?].
Qed.

Lemma elem_of_listed k n v f r : ro_indexers m k !! n = Some f →
  r ∈ listed k n v ↔ ro_items m k !! ResourceKey r = Some r ∧ res_Mesh r = mesh ∧ index_has f v (ResourceObj r) = true.
Proof using Hx.
  intros Hn. unfold listed. rewrite elem_of_query by apply ro_self_keyed.
  unfold all_are, index_is. cbn [forallb fst snd]. rewrite (gi_mesh Hx), Hn, andb_true_r, andb_true_iff.
  unfold index_has at 1, ByMesh. rewrite bool_decide_eq_true. set_solver.
Qed.

Lemma provider_index (g : ServiceProviderMetadata → string) v r :
  index_has (λ o, s ← assert_spec ServiceProviderMetadataKind as_provider o; Ok (index_field s never g)) v (ResourceObj r) = true
  ↔ ∃ p, provider_of r = Some p ∧ g p = v.
Proof.
  unfold index_has, assert_spec, provider_of. simpl.
  destruct (res_spec r) as [s|s|s|s|s|s|s|s|s|s|s|s|s|s|s|s|s]; simpl; try naive_solver.
  unfold index_field, never. destruct s; rewrite bool_decide_eq_true, ?list_elem_of_singleton, ?elem_of_nil; naive_solver.
Qed.

Lemma consumer_index (g : ServiceConsumerMetadata → string) v r :
  index_has (λ o, s ← assert_spec ServiceConsumerMetadataKind as_consumer o; Ok (index_field s never g)) v (ResourceObj r) = true
  ↔ ∃ c, consumer_of r = Some c ∧ g c = v.
Proof.
  unfold index_has, assert_spec, consumer_of. simpl.
  destruct (res_spec r); simpl; try naive_solver.
  unfold index_field, never. rewrite bool_decide_eq_true, list_elem_of_singleton. naive_solver.
Qed.

(** *** Building

    From [b0], the applications [l] were added on one side. *)
Definition built (rule : string) (edge : string → GraphEdge) (b0 : building) (l : list string) (b : building) : Prop :=
  NoDup l ∧ bd_set b = list_to_set l ∧ bd_Nodes b = bd_Nodes b0 ++ (app_node rule <$> l) ∧
  bd_Edges b = bd_Edges b0 ++ (edge <$> l).

Lemma add_built rule edge b0 l b a : built rule edge b0 l b →
  ∃ l', built rule edge b0 l' (add_app rule a (edge a) b) ∧ ∀ x, x ∈ l' ↔ x ∈ l ∨ x = a.
Proof.
  intros (Hn & Hs & Hnodes & Hedges). unfold add_app. rewrite Hs. case_decide as Hd; rewrite elem_of_list_to_set in Hd.
  - exists l. split; [done|]. intros x. naive_solver.
  - exists (l ++ [a]). split; [|intros x; set_solver]. split_and!; simpl.
    + apply NoDup_app. split; [done|]. split; [set_solver|apply NoDup_singleton].
    + rewrite list_to_set_app_L. set_solver.
    + by rewrite Hnodes, fmap_app, <-(assoc_L (++)).
    + by rewrite Hedges, fmap_app, <-(assoc_L (++)).
Qed.

Lemma fold_built {A} rule edge (f : building → A → building) (names : A → string → Prop) b0 (xs : list A) l b :
  (∀ x b l, x ∈ xs → built rule edge b0 l b →
     ∃ l', built rule edge b0 l' (f b x) ∧ ∀ a, a ∈ l' ↔ a ∈ l ∨ names x a) →
  built rule edge b0 l b →
  ∃ l', built rule edge b0 l' (foldl f b xs) ∧ ∀ a, a ∈ l' ↔ a ∈ l ∨ ∃ x, x ∈ xs ∧ names x a.
Proof.
  intros Hf Hb. revert l b Hf Hb. induction xs as [|x xs IH]; intros l b Hf Hb; simpl.
  - exists l. split; [done|]. intros a. split; [by left|]. intros [?|(x & Hel & _)]; [done|by apply elem_of_nil in Hel].
  - destruct (Hf x b l) as (l1 & Hb1 & Hl1); [left|done|].
    destruct (IH l1 (f b x)) as (l2 & Hb2 & Hl2); [intros; apply Hf; [by right|done]|done|].
    exists l2. split; [done|]. intros a. rewrite Hl2, Hl1. set_solver.
Qed.

(** The metadata listed by an index. *)
Lemma provider_listed n g v p :
  ro_indexers m ServiceProviderMetadataKind !! n =
    Some (λ o, s ← assert_spec ServiceProviderMetadataKind as_provider o; Ok (index_field s never g)) →
  (∃ r, r ∈ listed ServiceProviderMetadataKind n v ∧ provider_of r = Some p) ↔
  provides (spm_ProviderAppName p) p ∧ g p = v.
Proof using Hx.
  intros Hn. setoid_rewrite (elem_of_listed _ _ _ _ _ Hn). setoid_rewrite provider_index. split.
  - intros (r & (Hk & Hm & p' & Hp' & Hg) & Hp). simplify_eq. split; [|done]. by exists (ResourceKey r), r.
  - intros ((k & r & Hk & Hm & Hp & _) & Hg). exists r. split; [|done].
    destruct (ro_items_key m _ _ _ (gi_ok Hx) Hk) as [-> _]. split_and!; [done|done|by exists p].
Qed.

Lemma consumer_listed n g v c :
  ro_indexers m ServiceConsumerMetadataKind !! n =
    Some (λ o, s ← assert_spec ServiceConsumerMetadataKind as_consumer o; Ok (index_field s never g)) →
  (∃ r, r ∈ listed ServiceConsumerMetadataKind n v ∧ consumer_of r = Some c) ↔
  consumes (scm_ConsumerAppName c) c ∧ g c = v.
Proof using Hx.
  intros Hn. setoid_rewrite (elem_of_listed _ _ _ _ _ Hn). setoid_rewrite consumer_index. split.
  - intros (r & (Hk & Hm & c' & Hc' & Hg) & Hc). simplify_eq. split; [|done]. by exists (ResourceKey r), r.
  - intros ((k & r & Hk & Hm & Hc & _) & Hg). exists r. split; [|done].
    destruct (ro_items_key m _ _ _ (gi_ok Hx) Hk) as [-> _]. split_and!; [done|done|by exists c].
Qed.

Lemma provides_app app p : provides app p ↔
  ∃ r, r ∈ listed ServiceProviderMetadataKind ByServiceProviderAppName app ∧ provider_of r = Some p.
Proof using Hx.
  rewrite (provider_listed _ _ _ _ (gi_papp Hx)). split; [|by intros [? <-]].
  intros Hp. destruct Hp as (k & r & ? & ? & ? & <-). split; [by exists k, r|done].
Qed.
Lemma consumes_app app c : consumes app c ↔
  ∃ r, r ∈ listed ServiceConsumerMetadataKind ByServiceConsumerAppName app ∧ consumer_of r = Some c.
Proof using Hx.
  rewrite (consumer_listed _ _ _ _ (gi_capp Hx)). split; [|by intros [? <-]].
  intros Hc. destruct Hc as (k & r & ? & ? & ? & <-). split; [by exists k, r|done].
Qed.

(** One step of each loop. *)
Lemma add_consumers_built app b0 l b r : r ∈ listed ServiceProviderMetadataKind ByServiceProviderAppName app →
  built "consumer" (λ a, {| ge_Source := a; ge_Target := app |}) b0 l b →
  ∃ l', built "consumer" (λ a, {| ge_Source := a; ge_Target := app |}) b0 l' (add_consumers m mesh b r) ∧
    ∀ a, a ∈ l' ↔ a ∈ l ∨ ∃ p c, provider_of r = Some p ∧ consumes a c ∧ consumed_key c = provided_key p.
Proof using Hx.
  intros Hr Hb. unfold add_consumers. destruct (provider_of r) as [p|] eqn:Hp; [|exists l; split; [done|naive_solver]].
  assert (spm_ProviderAppName p = app) as <-.
  { apply (provider_listed _ spm_ProviderAppName _ _ (gi_papp Hx)). by exists r. }
  rewrite (list_ok _ _ _ _ (gi_ckey Hx)). set (edge := λ a, {| ge_Source := a; ge_Target := spm_ProviderAppName p |}).
  destruct (fold_built "consumer" edge (λ b item, match consumer_of item with None => b
      | Some c => add_app "consumer" (scm_ConsumerAppName c) (edge (scm_ConsumerAppName c)) b end)
    (λ item a, ∃ c, consumer_of item = Some c ∧ scm_ConsumerAppName c = a) b0
    (listed ServiceConsumerMetadataKind ByServiceConsumerServiceKey (provided_key p)) l b) as (l' & Hb' & Hl'); [|done|].
  - intros x b1 l1 _ Hb1. destruct (consumer_of x) as [c|]; [|exists l1; split; [done|naive_solver]].
    destruct (add_built _ _ _ _ _ (scm_ConsumerAppName c) Hb1) as (l2 & Hb2 & Hl2). exists l2. split; [done|]. naive_solver.
  - exists l'. split; [exact Hb'|]. intros a. rewrite Hl'. apply or_iff_compat_l. split.
    + intros (x & Hxl & c & Hc & <-). exists p, c. split; [done|].
      apply (consumer_listed _ consumed_key _ _ (gi_ckey Hx)). by exists x.
    + intros (p' & c & [= <-] & Hc & Hkey).
      assert (scm_ConsumerAppName c = a) as <- by by destruct Hc as (? & ? & _ & _ & _ & ?).
      destruct (proj2 (consumer_listed _ consumed_key _ c (gi_ckey Hx)) (conj Hc Hkey)) as (x & Hx1 & Hx2). naive_solver.
Qed.

Lemma add_providers_built app b0 l b r : r ∈ listed ServiceConsumerMetadataKind ByServiceConsumerAppName app →
  built "provider" (λ a, {| ge_Source := app; ge_Target := a |}) b0 l b →
  ∃ l', built "provider" (λ a, {| ge_Source := app; ge_Target := a |}) b0 l' (add_providers m mesh b r) ∧
    ∀ a, a ∈ l' ↔ a ∈ l ∨ ∃ c p, consumer_of r = Some c ∧ provides a p ∧ provided_key p = consumed_key c.
Proof using Hx.
  intros Hr Hb. unfold add_providers. destruct (consumer_of r) as [c|] eqn:Hc; [|exists l; split; [done|naive_solver]].
  assert (scm_ConsumerAppName c = app) as <-.
  { apply (consumer_listed _ scm_ConsumerAppName _ _ (gi_capp Hx)). by exists r. }
  rewrite (list_ok _ _ _ _ (gi_pkey Hx)). set (edge := λ a, {| ge_Source := scm_ConsumerAppName c; ge_Target := a |}).
  destruct (fold_built "provider" edge (λ b item, match provider_of item with None => b
      | Some p => add_app "provider" (spm_ProviderAppName p) (edge (spm_ProviderAppName p)) b end)
    (λ item a, ∃ p, provider_of item = Some p ∧ spm_ProviderAppName p = a) b0
    (listed ServiceProviderMetadataKind ByServiceProviderServiceKey (consumed_key c)) l b) as (l' & Hb' & Hl'); [|done|].
  - intros x b1 l1 _ Hb1. destruct (provider_of x) as [p|]; [|exists l1; split; [done|naive_solver]].
    destruct (add_built _ _ _ _ _ (spm_ProviderAppName p) Hb1) as (l2 & Hb2 & Hl2). exists l2. split; [done|]. naive_solver.
  - exists l'. split; [exact Hb'|]. intros a. rewrite Hl'. apply or_iff_compat_l. split.
    + intros (x & Hxl & p & Hp & <-). exists c, p. split; [done|].
      apply (provider_listed _ provided_key _ _ (gi_pkey Hx)). by exists x.
    + intros (c' & p & [= <-] & Hp & Hkey).
      assert (spm_ProviderAppName p = a) as <- by by destruct Hp as (? & ? & _ & _ & _ & ?).
      destruct (proj2 (provider_listed _ provided_key _ p (gi_pkey Hx)) (conj Hp Hkey)) as (x & Hx1 & Hx2). naive_solver.
Qed.

(** C36: The graph of an application is exact: it has the application itself, a
    node for every application that consumes one of its services and a node
    for every application whose service it consumes, each once on its side,
    with the edge from the consumer to the provider, and nothing else. *)
Theorem graph_exact app :
  ∃ g consumers providers, GraphApplications m mesh app = Ok g ∧
    gd_Nodes g = app_node "" app :: (app_node "consumer" <$> consumers) ++ (app_node "provider" <$> providers) ∧
    gd_Edges g = ((λ a, {| ge_Source := a; ge_Target := app |}) <$> consumers) ++
                 ((λ a, {| ge_Source := app; ge_Target := a |}) <$> providers) ∧
    NoDup consumers ∧ (∀ a, a ∈ consumers ↔ depends_on a app) ∧
    NoDup providers ∧ (∀ a, a ∈ providers ↔ depends_on app a).
Proof using Hx.
  unfold GraphApplications. rewrite (list_ok _ _ _ _ (gi_papp Hx)), (list_ok _ _ _ _ (gi_capp Hx)). cbn [mbind result_bind].
  set (b0 := {| bd_set := ∅; bd_Nodes := [app_node "" app]; bd_Edges := [] |}).
  destruct (fold_built "consumer" (λ a, {| ge_Source := a; ge_Target := app |}) (add_consumers m mesh) _ b0 _ [] b0
    (λ x b l Hin Hb, add_consumers_built app b0 l b x Hin Hb)) as (cs & (Hcn & _ & Hc1 & Hc2) & Hcs).
  { split_and!; [constructor|done|by rewrite app_nil_r..]. }
  set (b1 := foldl (add_consumers m mesh) b0 _) in *.
  set (b2 := {| bd_set := ∅; bd_Nodes := bd_Nodes b1; bd_Edges := bd_Edges b1 |}).
  destruct (fold_built "provider" (λ a, {| ge_Source := app; ge_Target := a |}) (add_providers m mesh) _ b2 _ [] b2
    (λ x b l Hin Hb, add_providers_built app b2 l b x Hin Hb)) as (ps & (Hpn & _ & Hp1 & Hp2) & Hps).
  { split_and!; [constructor|done|by rewrite app_nil_r..]. }
  eexists _, cs, ps. split; [reflexivity|]. cbn [gd_Nodes gd_Edges]. rewrite Hp1, Hp2. cbn [b2 bd_Nodes bd_Edges].
  rewrite Hc1, Hc2. split_and!; [done|done|done| |done|].
  - intros a. rewrite Hcs, elem_of_nil. unfold depends_on. setoid_rewrite (provides_app app). naive_solver.
  - intros a. rewrite Hps, elem_of_nil. unfold depends_on. setoid_rewrite (consumes_app app). naive_solver.
Qed.
End exact.

(** ** Two applications that call each other *)
Module GraphExample.
#[local] Existing Instance RefStore.ops.
#[local] Existing Instance RefStore.laws.
#[local] Existing Instance RefStore_queries.

(** The world is a list of resources; nothing is written. *)
#[local] Instance no_writes : RuleGovernor unit (list Resource) := {
  gov_CreateRule _ l _ := (l, None); gov_UpdateRule _ l _ := (l, None); gov_DeleteRule _ l _ := (l, None) }.

Definition indexes : Indexers :=
  {[ Instances.ByMeshIndex := ByMesh; ByServiceProviderAppName := byServiceProviderAppName;
     ByServiceProviderServiceKey := byServiceProviderServiceKey; ByServiceConsumerAppName := byServiceConsumerAppName;
     ByServiceConsumerServiceKey := byServiceConsumerServiceKey ]}.

Definition route (l : list Resource) (k : ResourceKind) : result error RefStore.store :=
  Ok {| RefStore.kind := k; RefStore.indexers := indexes;
        RefStore.items := list_to_map ((λ r, (ResourceKey r, r)) <$> filter (λ r, res_kind r = k) l) |}.

(** Nothing is paged here. *)
Definition page (_ : RefStore.store) (_ : list IndexCondition) (_ : PageReq) : result error (PageData Resource) :=
  Ok (NewPageData 0 0 0 []).
#[local] Existing Instance resources_reader.
#[local] Existing Instance resources_reader_laws.

Definition named (name : string) (s : Spec) : Resource :=
  {| res_meta := {| meta_Name := name; meta_Labels := None; meta_Annotations := None |}; res_Mesh := "nacos"; res_spec := s |}.
Definition provider (app service : string) : Resource :=
  named (app +:+ "-" +:+ service) (ServiceProviderMetadataSpec (Some
    {| spm_ServiceName := service; spm_ProviderAppName := app; spm_Version := "1"; spm_Group := "";
       spm_CanonicalName := ""; spm_Methods := []; spm_Parameters := ∅; spm_Types := [] |})).
Definition consumer (app service : string) : Resource :=
  named (app +:+ "-" +:+ service) (ServiceConsumerMetadataSpec
    {| scm_ServiceName := service; scm_ConsumerAppName := app; scm_Version := "1"; scm_Group := ""; scm_Metadata := ∅ |}).

Definition rm : resourcesManager (W := list Resource) (G := unit) :=
  {| rg_governors := ∅;
     rg_world := [provider "shop" "Greeter"; provider "cart" "Cart"; consumer "cart" "Greeter"; consumer "web" "Greeter";
                  consumer "shop" "Cart"; consumer "web" "Cart"] |}.

Lemma rm_indexed : graph_indexed (M := resourcesManager) (H := resources_reader route page) rm.
Proof.
  split; [|reflexivity..]. intros k. eexists. split; [reflexivity|]. split; [|done].
  intros key r Hr%elem_of_list_to_map_2%list_elem_of_fmap. destruct Hr as (x & [= -> ->] & [Hx _]%list_elem_of_filter).
  done.
Qed.

(** [cart] is on both sides: its node occurs twice. *)
Lemma graph_exact_witness :
  (∃ g consumers providers, GraphApplications (H := resources_reader route page) rm "nacos" "shop" = Ok g ∧
    gd_Nodes g = app_node "" "shop" :: (app_node "consumer" <$> consumers) ++ (app_node "provider" <$> providers) ∧
    NoDup consumers ∧ (∀ a, a ∈ consumers ↔ depends_on (H := resources_reader route page) rm "nacos" a "shop")) ∧
  match GraphApplications (H := resources_reader route page) rm "nacos" "shop" with
  | Ok g => gn_ID <$> gd_Nodes g
  | Err _ => []
  end = ["shop"; "cart"; "web"; "cart"].
Proof.
  split; [|vm_compute; reflexivity].
  destruct (graph_exact (H := resources_reader route page) rm "nacos" rm_indexed "shop")
    as (g & cs & ps & Hg & Hn & _ & Hcn & Hcs & _).
  exists g, cs, ps. exact (conj Hg (conj Hn (conj Hcn Hcs))).
Defined.
End GraphExample.
