(* ===== verification/ServicePages.v ===== *)
(** The page of a service: its details and its graph
    (pkg/console/service/service.go) and the instances of its providers
    (service_provider_instances.go). *)
From S2P Require Import Prelude GoStrings Errors Resource Libs Indexers Store Queries RuleService Manager Instances ServiceCatalog ConsoleViews ConsoleQueries ApplicationGraph.

Open Scope string_scope.
Open Scope list_scope.
Open Scope Z_scope.

(** [model.ServiceDetailReq], [model.ServiceGraphReq] and [model.BaseServiceReq]. *)
Record ServiceReq := { sr_ServiceName : string; sr_Version : string; sr_Group : string; sr_Mesh : string }.
Definition ServiceKey (s : ServiceReq) : string := service_key (sr_ServiceName s) (sr_Version s) (sr_Group s).

Record ServiceDetailResp := { sd_Language : string; sd_Methods : list string }.

Definition service_node (key : string) : GraphNode :=
  {| gn_ID := key; gn_Label := key; gn_Type := "service"; gn_Rule := "" |}.
Definition provides_edge (key app : string) : GraphEdge := {| ge_Source := key; ge_Target := app |}.
Definition consumes_edge (key app : string) : GraphEdge := {| ge_Source := app; ge_Target := key |}.

(** The nodes of one side, and the set of applications that have one. *)
Definition add_node (rule app : string) (b : gmap string unit * list GraphNode) : gmap string unit * list GraphNode :=
  match b.1 !! app with
  | Some _ => b
  | None => (<[app := tt]> b.1, b.2 ++ [app_node rule app])
  end.
Definition app_nodes (rule : string) (apps : list string) (nodes : list GraphNode) : gmap string unit * list GraphNode :=
  foldl (λ b app, add_node rule app b) (∅, nodes) apps.

(** The names a list of metadata gives, without nil specs. *)
Definition provider_names (l : list Resource) : list string := omap (λ r, spm_ProviderAppName <$> provider_of r) l.
Definition consumer_names (l : list Resource) : list string := omap (λ r, scm_ConsumerAppName <$> consumer_of r) l.

(** [collectProviderAppNames]: without duplicates and empty names, sorted. *)
Definition collectProviderAppNames (metadataList : list Resource) : list string :=
  sort_strings (foldl (λ seen app, if decide (app = "" ∨ app ∈ seen) then seen else seen ++ [app]) []
                  (provider_names metadataList)).

(** [sort.Slice] by application, name and address; rows with the same three may
    come in any order. *)
Definition row_le (a b : SearchInstanceResp) : Prop :=
  if decide (sir_AppName a = sir_AppName b) then
    if decide (sir_Name a = sir_Name b) then String.le (sir_Ip a) (sir_Ip b) else String.le (sir_Name a) (sir_Name b)
  else String.le (sir_AppName a) (sir_AppName b).
#[export] Instance row_le_dec a b : Decision (row_le a b).
Proof. unfold row_le. repeat destruct (decide _); apply _. Defined.

Section pages.
Context {M : Type} `{ReadOnlyResourceManager M} `{MapRange} (IsBlank : string → bool) (cfg : AdminConfig).
Implicit Types m : M.

Definition GetServiceDetail m (req : ServiceReq) : result error ServiceDetailResp :=
  res ← get_by_key m ServiceKind
          (BuildResourceKey (sr_Mesh req) (BuildServiceIdentityKey (sr_ServiceName req) (sr_Version req) (sr_Group req)));
  match res ≫= service_of with
  | None => Err (biz_new NotFoundError "service not found")
  | Some s => Ok {| sd_Language := svc_Language s; sd_Methods := svc_Methods s |}
  end.

Definition service_providers m (req : ServiceReq) : result error (list Resource) :=
  list_by_indexes m ServiceProviderMetadataKind
    [equals Instances.ByMeshIndex (sr_Mesh req); equals ByServiceProviderServiceKey (ServiceKey req)].
Definition service_consumers m (req : ServiceReq) : result error (list Resource) :=
  list_by_indexes m ServiceConsumerMetadataKind
    [equals Instances.ByMeshIndex (sr_Mesh req); equals ByServiceConsumerServiceKey (ServiceKey req)].

Definition GraphServices m (req : ServiceReq) : result error GraphData :=
  providers ← or_internal "get service providers failed, please try again" (service_providers m req);
  if decide (length providers = 0%nat) then Err (biz_new NotFoundError "no providers found for this service")
  else
    consumers ← or_internal "get service consumers failed, please try again" (service_consumers m req);
    let key := ServiceKey req in
    let '(providerAppSet, nodes) := app_nodes "provider" (provider_names providers) [] in
    let '(consumerAppSet, nodes) := app_nodes "consumer" (consumer_names consumers) (nodes ++ [service_node key]) in
    Ok {| gd_Nodes := nodes;
          gd_Edges := (provides_edge key <$> (go_range providerAppSet).*1) ++
                      (consumes_edge key <$> (go_range consumerAppSet).*1) |}.

(** The rows of the instances that were not seen under their key before. *)
Definition add_instances (b : gset string * list SearchInstanceResp) (instances : list Resource)
    : result error (gset string * list SearchInstanceResp) :=
  foldl (λ b r,
    b ← b;
    match instance_spec r with
    | None => Ok b
    | Some _ =>
        if decide (ResourceKey r ∈ b.1) then Ok b
        else row ← search_resp IsBlank cfg r; Ok ({[ResourceKey r]} ∪ b.1, b.2 ++ [row])
    end) (Ok b) instances.

Definition GetServiceProviderInstances m (req : ServiceReq) : result error (list SearchInstanceResp) :=
  metadataList ← service_providers m req;
  b ← foldl (λ b app,
        b ← b; instances ← list_by_indexes m InstanceKind (app_instances (sr_Mesh req) app); add_instances b instances)
        (Ok (∅, [])) (collectProviderAppNames metadataList);
  Ok (merge_sort row_le b.2).
End pages.

(** ** Nodes of one side *)
Lemma app_nodes_spec rule apps nodes : ∃ l,
  (app_nodes rule apps nodes).2 = nodes ++ (app_node rule <$> l) ∧ NoDup l ∧
  (app_nodes rule apps nodes).1 = list_to_map ((λ a, (a, tt)) <$> l) ∧ ∀ a, a ∈ l ↔ a ∈ apps.
Proof.
  induction apps as [|a apps (l & Hn & Hd & Hs & Hin)] using rev_ind.
  - exists []. rewrite app_nil_r. split_and!; [done|constructor|done|done].
  - unfold app_nodes in *. rewrite foldl_snoc. set (b := foldl _ _ apps) in *. unfold add_node. rewrite Hs.
    destruct (list_to_map _ !! a) as [u|] eqn:Hl.
    + apply elem_of_list_to_map_2, list_elem_of_fmap in Hl as (x & [= -> _] & Hx). exists l.
      split_and!; [done|done|done|]. intros y. rewrite elem_of_app, list_elem_of_singleton, <-Hin. naive_solver.
    + apply not_elem_of_list_to_map in Hl. rewrite <-list_fmap_compose in Hl.
      assert (Ha : a ∉ l) by (by rewrite list_fmap_id in Hl).
      exists (l ++ [a]). cbn [fst snd]. split_and!.
      * by rewrite Hn, fmap_app, (assoc_L (++)).
      * apply NoDup_app. split; [done|]. split; [set_solver|apply NoDup_singleton].
      * rewrite fmap_app. csimpl. rewrite list_to_map_snoc; [done|]. by rewrite <-list_fmap_compose, list_fmap_id.
      * intros y. rewrite !elem_of_app. naive_solver.
Qed.

Lemma range_of_set `{MapRange} (l : list string) : NoDup l →
  (go_range (list_to_map ((λ a, (a, tt)) <$> l) : gmap string unit)).*1 ≡ₚ l.
Proof.
  intros Hl. rewrite go_range_perm, map_to_list_to_map.
  - by rewrite <-list_fmap_compose, list_fmap_id.
  - by rewrite <-list_fmap_compose, list_fmap_id.
Qed.

(** ** Against the stored resources *)
Section exact.
Context {M : Type} `{ReadOnlyResourceManagerLaws M} `{MapRange} (IsBlank : string → bool) (cfg : AdminConfig)
  (m : M) (req : ServiceReq).
Context (Hx : graph_indexed m).
Context (Happ : ro_indexers m InstanceKind !! ByInstanceAppNameIndex = Some (byInstanceAppName IsBlank)).

Abbreviation mesh := (sr_Mesh req).

(** The applications that provide the service in the mesh, or consume it. *)
Definition offered_by (a : string) : Prop := ∃ p, provides m mesh a p ∧ provided_key p = ServiceKey req.
Definition used_by (a : string) : Prop := ∃ c, consumes m mesh a c ∧ consumed_key c = ServiceKey req.

Lemma providers_listed : ∃ l, service_providers m req = Ok l ∧ (∀ a, a ∈ provider_names l ↔ offered_by a) ∧
  Forall (λ r, is_Some (provider_of r)) l.
Proof using Hx.
  unfold service_providers. rewrite (list_ok m mesh Hx _ _ _ _ (gi_pkey _ Hx)). eexists. split; [done|].
  pose proof (provider_listed m mesh Hx ByServiceProviderServiceKey provided_key (ServiceKey req)) as Hl. split.
  - intros a. unfold provider_names. rewrite list_elem_of_omap. split.
    + intros (r & Hr & Ha). destruct (provider_of r) as [p|] eqn:Hp; simplify_eq/=. exists p.
      apply (Hl p (gi_pkey _ Hx)). by exists r.
    + intros (p & Hp & Hkey). pose proof Hp as (? & ? & _ & _ & _ & Ha). rewrite <-Ha in Hp.
      destruct (proj2 (Hl p (gi_pkey _ Hx)) (conj Hp Hkey)) as (r & Hr & Hpr). exists r. by rewrite Hpr, <-Ha.
  - apply Forall_forall. intros r Hr. apply (elem_of_listed m mesh Hx _ _ _ _ _ (gi_pkey _ Hx)) in Hr as (_ & _ & Hi).
    apply provider_index in Hi as (p & -> & _). by eexists.
Qed.

Lemma consumers_listed : ∃ l, service_consumers m req = Ok l ∧ ∀ a, a ∈ consumer_names l ↔ used_by a.
Proof using Hx.
  unfold service_consumers. rewrite (list_ok m mesh Hx _ _ _ _ (gi_ckey _ Hx)). eexists. split; [done|].
  pose proof (consumer_listed m mesh Hx ByServiceConsumerServiceKey consumed_key (ServiceKey req)) as Hl.
  intros a. unfold consumer_names. rewrite list_elem_of_omap. split.
  - intros (r & Hr & Ha). destruct (consumer_of r) as [c|] eqn:Hc; simplify_eq/=. exists c.
    apply (Hl c (gi_ckey _ Hx)). by exists r.
  - intros (c & Hc & Hkey). pose proof Hc as (? & ? & _ & _ & _ & Ha). rewrite <-Ha in Hc.
    destruct (proj2 (Hl c (gi_ckey _ Hx)) (conj Hc Hkey)) as (r & Hr & Hcr). exists r. by rewrite Hcr, <-Ha.
Qed.

(** The graph of a service is exact: it has one node for each application
    that provides it in the mesh, the node of the service, one node for each
    application that consumes it, the edges from the service to its providers
    and from its consumers to it, and nothing else; a service that nobody
    provides is not found. *)
Theorem service_graph_exact :
  ((∃ a, offered_by a) →
   ∃ g providers consumers, GraphServices m req = Ok g ∧
     gd_Nodes g = (app_node "provider" <$> providers) ++ service_node (ServiceKey req) ::
                  (app_node "consumer" <$> consumers) ∧
     gd_Edges g ≡ₚ (provides_edge (ServiceKey req) <$> providers) ++ (consumes_edge (ServiceKey req) <$> consumers) ∧
     NoDup providers ∧ (∀ a, a ∈ providers ↔ offered_by a) ∧
     NoDup consumers ∧ (∀ a, a ∈ consumers ↔ used_by a)) ∧
  ((¬ ∃ a, offered_by a) → GraphServices m req = Err (biz_new NotFoundError "no providers found for this service")).
Proof using Hx.
  unfold GraphServices. destruct providers_listed as (ps & -> & Hps & Hpok), consumers_listed as (cs & -> & Hcs).
  cbn [or_internal mbind result_bind]. split.
  - intros [a Ha%Hps]. rewrite decide_False by (destruct ps; [by apply elem_of_nil in Ha|done]).
    destruct (app_nodes_spec "provider" (provider_names ps) []) as (pl & Hpn & Hpd & Hpm & Hpi).
    destruct (app_nodes "provider" _ _) as [pset pnodes]. cbn [fst snd] in *. subst pnodes pset. simpl.
    destruct (app_nodes_spec "consumer" (consumer_names cs)
      ((app_node "provider" <$> pl) ++ [service_node (ServiceKey req)])) as (cl & Hcn & Hcd & Hcm & Hci).
    destruct (app_nodes "consumer" _ _) as [cset cnodes]. cbn [fst snd] in *. subst cnodes cset.
    eexists _, pl, cl. split; [reflexivity|]. cbn [gd_Nodes gd_Edges]. split_and!; [|..].
    + by rewrite <-(assoc_L (++)).
    + by rewrite !range_of_set.
    + done.
    + intros x. by rewrite Hpi, Hps.
    + done.
    + intros x. by rewrite Hci, Hcs.
  - intros Hno. rewrite decide_True; [done|]. destruct ps as [|r ps]; [done|]. destruct Hno.
    apply Forall_cons in Hpok as [[p Hp] _]. exists (spm_ProviderAppName p). apply Hps.
    unfold provider_names. simpl. rewrite Hp. left.
Qed.

(** *** The instances of the providers *)
Definition instance_of (apps : list string) (r : Resource) : Prop :=
  ro_items m InstanceKind !! ResourceKey r = Some r ∧ res_Mesh r = mesh ∧
  ∃ i, instance_spec r = Some i ∧ inst_AppName i ∈ apps ∧ IsBlank (inst_AppName i) = false.

(** The rows [b] are those of the instances [rs]. *)
Definition rows_of (rs : list Resource) (b : gset string * list SearchInstanceResp) : Prop :=
  NoDup (ResourceKey <$> rs) ∧ b.1 = list_to_set (ResourceKey <$> rs) ∧
  result_mapM (search_resp IsBlank cfg) rs = Ok b.2.

Lemma mapM_snoc (rs : list Resource) rows r row : result_mapM (search_resp IsBlank cfg) rs = Ok rows →
  search_resp IsBlank cfg r = Ok row → result_mapM (search_resp IsBlank cfg) (rs ++ [r]) = Ok (rows ++ [row]).
Proof.
  intros Hrs Hr. revert rows Hrs. induction rs as [|r' rs IH]; simpl; intros rows Hrs.
  - injection Hrs as <-. by rewrite Hr.
  - destruct (search_resp _ _ r') as [row'|]; [|done]. cbn [mbind result_bind] in *.
    destruct (result_mapM _ rs) as [rows'|]; [|done]. cbn [mbind result_bind] in *. injection Hrs as <-.
    by rewrite (IH _ eq_refl).
Qed.

Lemma add_instances_rows rs b l : rows_of rs b → Forall (λ r, ro_items m InstanceKind !! ResourceKey r = Some r) rs →
  Forall (λ r, ro_items m InstanceKind !! ResourceKey r = Some r ∧ is_Some (instance_spec r)) l →
  ∃ rs' b', add_instances IsBlank cfg b l = Ok b' ∧ rows_of rs' b' ∧
    Forall (λ r, ro_items m InstanceKind !! ResourceKey r = Some r) rs' ∧ ∀ r, r ∈ rs' ↔ r ∈ rs ∨ r ∈ l.
Proof.
  intros Hb Hst Hl. induction l as [|r l IH] using rev_ind.
  - exists rs, b. split_and!; [done|done|done|]. intros r. rewrite elem_of_nil. tauto.
  - apply Forall_app in Hl as [Hl Hr]. apply Forall_singleton in Hr as [Hk [i Hi]].
    destruct (IH Hl) as (rs1 & b1 & Hadd & (Hnd & Hset & Hrows) & Hst1 & Hin).
    unfold add_instances in *. rewrite foldl_snoc, Hadd. cbn [mbind result_bind]. rewrite Hi.
    assert (Hkey : ResourceKey r ∈ b1.1 ↔ r ∈ rs1).
    { rewrite Hset, elem_of_list_to_set, list_elem_of_fmap. split; [|by exists r].
      intros (r' & Heq & Hr'). rewrite Forall_forall in Hst1. specialize (Hst1 _ Hr'). rewrite <-Heq, Hk in Hst1. congruence. }
    case_decide as Hd; rewrite Hkey in Hd.
    + exists rs1, b1. split_and!; [done|done|done|]. intros x. rewrite Hin. set_solver.
    + assert (∃ row, search_resp IsBlank cfg r = Ok row) as [row Hrow] by (unfold search_resp; rewrite Hi; by eexists).
      rewrite Hrow. cbn [mbind result_bind]. exists (rs1 ++ [r]). eexists. split; [reflexivity|]. unfold rows_of. split_and!.
      * rewrite fmap_app. apply NoDup_app. split; [done|]. split; [|apply NoDup_singleton].
        intros k Hk1 Hk2%list_elem_of_singleton. subst k. apply Hd, Hkey. rewrite Hset. by apply elem_of_list_to_set.
      * cbn [fst]. rewrite fmap_app, list_to_set_app_L, Hset. set_solver.
      * by apply mapM_snoc.
      * apply Forall_app. split; [done|]. by apply Forall_singleton.
      * intros x. rewrite elem_of_app, Hin. set_solver.
Qed.

Lemma collect_names l : NoDup (collectProviderAppNames l) ∧
  ∀ a, a ∈ collectProviderAppNames l ↔ a ∈ provider_names l ∧ a ≠ "".
Proof.
  unfold collectProviderAppNames. setoid_rewrite elem_of_sort_strings. rewrite sort_strings_perm.
  induction (provider_names l) as [|a names [IH1 IH2]] using rev_ind.
  - split; [constructor|]. set_solver.
  - rewrite foldl_snoc. set (seen := foldl _ _ names) in *. case_decide as Hd.
    + split; [done|]. intros x. rewrite IH2. destruct Hd as [->|Hd]; [set_solver|]. apply IH2 in Hd. set_solver.
    + split; [apply NoDup_app; split; [done|]; split; [set_solver|apply NoDup_singleton]|].
      intros x. rewrite elem_of_app, IH2. set_solver.
Qed.

(** The instances listed for a service are exactly the stored instances of
    the applications that provide it in the mesh, one row for each, ordered by
    application, name and address. *)
Theorem provider_instances_exact :
  ∃ rows rs, GetServiceProviderInstances IsBlank cfg m req = Ok (merge_sort row_le rows) ∧
    result_mapM (search_resp IsBlank cfg) rs = Ok rows ∧ NoDup (ResourceKey <$> rs) ∧
    ∀ r, r ∈ rs ↔ ∃ i, instance_spec r = Some i ∧ offered_by (inst_AppName i) ∧ IsBlank (inst_AppName i) = false ∧
      inst_AppName i ≠ "" ∧ res_Mesh r = mesh ∧ ro_items m InstanceKind !! ResourceKey r = Some r.
Proof using Hx Happ.
  unfold GetServiceProviderInstances. destruct providers_listed as (ps & -> & Hps & _). cbn [mbind result_bind].
  destruct (collect_names ps) as [_ Hc]. set (apps := collectProviderAppNames ps) in *.
  assert (Hf : ∃ rs b, foldl (λ b app, b ← b; instances ← list_by_indexes m InstanceKind (app_instances mesh app);
      add_instances IsBlank cfg b instances) (Ok (∅, [])) apps = Ok b ∧ rows_of rs b ∧
      Forall (λ r, ro_items m InstanceKind !! ResourceKey r = Some r) rs ∧ ∀ r, r ∈ rs ↔ instance_of apps r).
  { clear Hc. induction apps as [|a apps (rs & b & Hb & Hrows & Hst & Hin)] using rev_ind.
    - exists [], (∅, []). split_and!; [done|by repeat constructor|done|]. intros r. unfold instance_of. set_solver.
    - rewrite foldl_snoc, Hb. cbn [mbind result_bind].
      destruct (app_instances_listed IsBlank m (gi_ok _ Hx) (gi_mesh _ Hx _) Happ mesh a) as (l & -> & _ & Hl).
      cbn [mbind result_bind].
      destruct (add_instances_rows rs b l Hrows Hst) as (rs' & b' & Hadd & Hrows' & Hst' & Hin').
      { apply Forall_forall. intros r Hr%Hl. destruct Hr as (? & _ & i & ? & _). split; [done|by eexists]. }
      exists rs', b'. split_and!; [done|done|done|]. intros r. rewrite Hin', Hin, Hl. unfold instance_of. set_solver. }
  destruct Hf as (rs & b & -> & (Hnd & _ & Hrows) & _ & Hin). cbn [mbind result_bind].
  exists b.2, rs. split_and!; [done|done|done|]. intros r. rewrite Hin. unfold instance_of. split.
  - intros (? & ? & i & Hi & [Ha%Hps ?]%Hc & ?). by exists i.
  - intros (i & ? & ?%Hps & ? & ? & ? & ?). split_and!; [done|done|]. exists i. split_and!; [done|by apply Hc|done].
Qed.
End exact.

(** ** A service with one provider and two consumers *)
Module ServicePagesExample.
Import GraphExample.
#[local] Existing Instance RefStore.ops.
#[local] Existing Instance RefStore_queries.
#[local] Existing Instance resources_reader.
#[local] Existing Instance default_range.
#[local] Instance nothing_written : RuleGovernor unit (list Resource) := {
  gov_CreateRule _ l _ := (l, None); gov_UpdateRule _ l _ := (l, None); gov_DeleteRule _ l _ := (l, None) }.

Definition greeter : ServiceReq :=
  {| sr_ServiceName := "Greeter"; sr_Version := "1"; sr_Group := ""; sr_Mesh := "nacos" |}.
Definition nobody : ServiceReq :=
  {| sr_ServiceName := "Ghost"; sr_Version := "1"; sr_Group := ""; sr_Mesh := "nacos" |}.

Example greeter_graph :
  match GraphServices (H := resources_reader route page) rm greeter with
  | Ok g => Some (gn_ID <$> gd_Nodes g, (λ e, (ge_Source e, ge_Target e)) <$> gd_Edges g)
  | Err _ => None
  end = Some (["shop"; "Greeter:1:"; "cart"; "web"],
              [("Greeter:1:", "shop"); ("web", "Greeter:1:"); ("cart", "Greeter:1:")]).
Proof. vm_compute. reflexivity. Qed.
Example ghost_graph : GraphServices (H := resources_reader route page) rm nobody =
  Err (biz_new NotFoundError "no providers found for this service").
Proof. vm_compute. reflexivity. Qed.
End ServicePagesExample.
