(* ===== verification/AppSettings.v ===== *)
(** pkg/console/service/application.go and instance.go: the settings of an
    application (access log, flow weights, gray environments) and of an
    instance (traffic, access log), kept inside the configurator, the tag rule
    and the condition rule of the application. *)
From S2P Require Import Prelude GoStrings Errors Resource Libs Indexers Store Versioning Gorm Lock RuleService Manager ConditionExpr ServiceMethods ServiceConfig Instances ConsoleViews ConsoleQueries.

Open Scope string_scope.
Open Scope list_scope.
Open Scope Z_scope.

Definition ScopeApplication : string := "application".
Definition TagRuleDotSuffix : string := ".tag-router".

(** ** pkg/console/model: matches as the console writes them

    Every field is a pointer. *)
Record ModelStringMatch := {
  ms_Empty : option string; ms_Exact : option string; ms_Noempty : option string;
  ms_Prefix : option string; ms_Regex : option string; ms_Wildcard : option string }.
Record ModelParamMatch := { mp_Key : option string; mp_Value : option ModelStringMatch }.
Record FlowWeightSet := { fw_Weight : Z; fw_Scope : list ModelParamMatch }.
Record GraySet := { gs_EnvName : string; gs_Scope : list ModelParamMatch }.

Definition no_match : ModelStringMatch :=
  {| ms_Empty := None; ms_Exact := None; ms_Noempty := None; ms_Prefix := None; ms_Regex := None; ms_Wildcard := None |}.
Definition no_string_match : StringMatch :=
  {| sm_Exact := ""; sm_Prefix := ""; sm_Regex := ""; sm_Noempty := ""; sm_Empty := ""; sm_Wildcard := "" |}.

(** The first field that is set counts. *)
Definition StringMatchToModelStringMatch (m : option StringMatch) : option ModelStringMatch :=
  match m with
  | None => None
  | Some m =>
      Some (
        if decide (sm_Exact m ≠ "") then
          {| ms_Empty := None; ms_Exact := Some (sm_Exact m); ms_Noempty := None; ms_Prefix := None; ms_Regex := None; ms_Wildcard := None |}
        else if decide (sm_Prefix m ≠ "") then
          {| ms_Empty := None; ms_Exact := None; ms_Noempty := None; ms_Prefix := Some (sm_Prefix m); ms_Regex := None; ms_Wildcard := None |}
        else if decide (sm_Regex m ≠ "") then
          {| ms_Empty := None; ms_Exact := None; ms_Noempty := None; ms_Prefix := None; ms_Regex := Some (sm_Regex m); ms_Wildcard := None |}
        else if decide (sm_Noempty m ≠ "") then
          {| ms_Empty := None; ms_Exact := None; ms_Noempty := Some (sm_Noempty m); ms_Prefix := None; ms_Regex := None; ms_Wildcard := None |}
        else if decide (sm_Empty m ≠ "") then
          {| ms_Empty := Some (sm_Empty m); ms_Exact := None; ms_Noempty := None; ms_Prefix := None; ms_Regex := None; ms_Wildcard := None |}
        else if decide (sm_Wildcard m ≠ "") then
          {| ms_Empty := None; ms_Exact := None; ms_Noempty := None; ms_Prefix := None; ms_Regex := None; ms_Wildcard := Some (sm_Wildcard m) |}
        else no_match)
  end.

Definition ModelStringMatchToStringMatch (m : option ModelStringMatch) : option StringMatch :=
  match m with
  | None => None
  | Some m =>
      Some match ms_Exact m, ms_Prefix m, ms_Regex m, ms_Noempty m, ms_Empty m, ms_Wildcard m with
      | Some s, _, _, _, _, _ =>
          {| sm_Exact := s; sm_Prefix := ""; sm_Regex := ""; sm_Noempty := ""; sm_Empty := ""; sm_Wildcard := "" |}
      | None, Some s, _, _, _, _ =>
          {| sm_Exact := ""; sm_Prefix := s; sm_Regex := ""; sm_Noempty := ""; sm_Empty := ""; sm_Wildcard := "" |}
      | None, None, Some s, _, _, _ =>
          {| sm_Exact := ""; sm_Prefix := ""; sm_Regex := s; sm_Noempty := ""; sm_Empty := ""; sm_Wildcard := "" |}
      | None, None, None, Some s, _, _ =>
          {| sm_Exact := ""; sm_Prefix := ""; sm_Regex := ""; sm_Noempty := s; sm_Empty := ""; sm_Wildcard := "" |}
      | None, None, None, None, Some s, _ =>
          {| sm_Exact := ""; sm_Prefix := ""; sm_Regex := ""; sm_Noempty := ""; sm_Empty := s; sm_Wildcard := "" |}
      | None, None, None, None, None, Some s =>
          {| sm_Exact := ""; sm_Prefix := ""; sm_Regex := ""; sm_Noempty := ""; sm_Empty := ""; sm_Wildcard := s |}
      | None, None, None, None, None, None => no_string_match
      end
  end.

Definition to_model (p : ParamMatch) : ModelParamMatch :=
  {| mp_Key := Some (pm_Key p); mp_Value := StringMatchToModelStringMatch (pm_Value p) |}.
(** A missing key is dereferenced. *)
Definition from_model (p : ModelParamMatch) : result error ParamMatch :=
  match mp_Key p with
  | Some key => Ok {| pm_Key := key; pm_Value := ModelStringMatchToStringMatch (mp_Value p) |}
  | None => Err nil_dereference
  end.

(** ** Entries of the configurator *)
Definition isAppAccessLogConfig (conf : OverrideConfig) (appName : string) : bool :=
  bool_decide (oc_Side conf = SideProvider) &&
  match oc_Match conf with
  | Some cm => match cm_Application cm with
               | Some [sm] => bool_decide (sm_Exact sm = appName)
               | _ => false
               end
  | None => false
  end && bool_decide (is_Some (oc_Parameters conf !! "accesslog")).

Definition empty_condition : ConditionMatch :=
  {| cm_Address := None; cm_ProviderAddress := None; cm_Service := None; cm_Application := None; cm_Param := None |}.
Definition generated (parameters : gmap string string) (enabled : bool) (m : ConditionMatch) : OverrideConfig :=
  {| oc_Side := SideProvider; oc_Addresses := []; oc_ProviderAddresses := []; oc_Parameters := parameters;
     oc_Applications := []; oc_Services := []; oc_Type := ""; oc_Enabled := enabled; oc_Match := Some m;
     oc_XGenerateByCp := true |}.

Definition newAccessLogEnabledConfig (appName : string) : OverrideConfig :=
  generated {["accesslog" := "true"]} true
    {| cm_Address := None; cm_ProviderAddress := None; cm_Service := None;
       cm_Application := Some [ {| sm_Exact := appName; sm_Prefix := ""; sm_Regex := ""; sm_Noempty := "";
                                   sm_Empty := ""; sm_Wildcard := "" |} ]; cm_Param := None |}.

Definition with_enabled (conf : OverrideConfig) (enabled : bool) : OverrideConfig :=
  {| oc_Side := oc_Side conf; oc_Addresses := oc_Addresses conf; oc_ProviderAddresses := oc_ProviderAddresses conf;
     oc_Parameters := oc_Parameters conf; oc_Applications := oc_Applications conf; oc_Services := oc_Services conf;
     oc_Type := oc_Type conf; oc_Enabled := enabled; oc_Match := oc_Match conf;
     oc_XGenerateByCp := oc_XGenerateByCp conf |}.

Definition isFlowWeightConfig (conf : OverrideConfig) : bool :=
  bool_decide (oc_Side conf = SideProvider) &&
  match oc_Match conf with Some cm => bool_decide (is_Some (cm_Param cm)) | None => false end &&
  bool_decide (is_Some (oc_Parameters conf !! "weight")).

(** The entry is not enabled. *)
Definition fromFlowWeightSet (set : FlowWeightSet) : result error OverrideConfig :=
  params ← result_mapM from_model (fw_Scope set);
  Ok (generated {["weight" := pretty (fw_Weight set)]} false
        {| cm_Address := None; cm_ProviderAddress := None; cm_Service := None; cm_Application := None;
           cm_Param := Some params |}).

Definition isInstanceAccessLogOpen (conf : OverrideConfig) (ip : string) : bool :=
  match oc_Match conf with
  | Some cm => match cm_Address cm with
               | Some am => bool_decide (am_Wildcard am = ip +:+ ":*")
               | None => false
               end
  | None => false
  end && bool_decide (oc_Side conf = SideProvider) && bool_decide (oc_Parameters conf !! "accesslog" = Some "true").

Definition instance_access_log (ip : string) : OverrideConfig :=
  generated {["accesslog" := "true"]} false
    {| cm_Address := Some {| am_Wildcard := ip +:+ ":*"; am_Cird := ""; am_Exact := "" |};
       cm_ProviderAddress := None; cm_Service := None; cm_Application := None; cm_Param := None |}.

Definition app_configurator (appName : string) (configs : list OverrideConfig) : DynamicConfig :=
  {| dc_Key := appName; dc_Scope := ScopeApplication; dc_ConfigVersion := ConfiguratorVersionV3; dc_Enabled := true;
     dc_Configs := configs |}.

(** The first entry that satisfies [p], with what is before and behind it. *)
Fixpoint split_first {A} (p : A → bool) (l : list A) : option (list A * A * list A) :=
  match l with
  | [] => None
  | x :: l => if p x then Some ([], x, l)
              else '(before, y, after) ← split_first p l; Some (x :: before, y, after)
  end.

(** ** Tags *)
Definition isGrayTag (tag : Tag) : bool := negb (bool_decide (tag_Name tag = "") || negb (bool_decide (tag_Addresses tag = []))).

Definition fromGraySet (set : GraySet) : result error Tag :=
  params ← result_mapM from_model (gs_Scope set);
  Ok {| tag_Name := gs_EnvName set; tag_Addresses := []; tag_Match := params; tag_XGenerateByCp := true |}.

Definition with_tags (tr : TagRoute) (tags : list Tag) : TagRoute :=
  {| tr_Priority := tr_Priority tr; tr_Enabled := tr_Enabled tr; tr_Runtime := tr_Runtime tr; tr_Key := tr_Key tr;
     tr_ConfigVersion := tr_ConfigVersion tr; tr_Force := tr_Force tr; tr_Tags := tags |}.

(** ** Conditions *)
Definition disableExpression (ip : string) : string := "=>host!=" +:+ ip.

Fixpoint without_spaces (s : string) : string :=
  match s with
  | EmptyString => ""
  | String c s => if decide (c = Ascii.ascii_of_nat 32) then without_spaces s else String c (without_spaces s)
  end.

(** That the text contains the address follows from the last comparison. *)
Definition isInstanceTrafficDisabled (condition ip : string) : bool :=
  if decide (condition = "") then false
  else
    let condition := without_spaces condition in
    if has_prefix condition "=>" then
      let toCondition := str_drop 2 condition in
      str_has toCondition ip && bool_decide ("host!=" +:+ ip = toCondition)
    else false.

Definition generateDefaultConditionV3 (Enabled Force Runtime : bool) (Key Scope : string) : ConditionRoute :=
  {| cr_ConfigVersion := ConfiguratorVersionV3; cr_Priority := 0; cr_Enabled := true; cr_Force := Force;
     cr_Runtime := Runtime; cr_Key := Key; cr_Scope := Scope; cr_Conditions := [] |}.

Section settings.
Context {S M : Type} `{ResourceStore S, ResourceManager M, !ReadOnlyResourceManager M}.
Context (protojson_Marshal : Spec → result error string) (json_canonical : string → result error string)
  (HashSpecJSON : string → string).
Context (ctx : nat → Ctx) (env : nat → nat → S → S) (now : nat → Z) (maxVersions : Z).
Context (lockMgr : option (string → option error)).
(** As in ServiceConfig.v: a change, in place, of an object the manager handed out. *)
Context (touch : M → Resource → M).
Context (IsBlank : string → bool) (cfg : AdminConfig).

Abbreviation state := (option S * M)%type.
Abbreviation updateRule := (updateRule protojson_Marshal json_canonical HashSpecJSON ctx env now maxVersions lockMgr).
Abbreviation createRule := (createRule protojson_Marshal json_canonical HashSpecJSON ctx env now maxVersions lockMgr).
Abbreviation touched := (touched touch).

(** tag_rule.go *)
Definition GetTagRule (m : M) (name mesh : string) : result error (option (Resource * option TagRoute)) :=
  res ← rm_GetByKey m TagRouteKind (BuildResourceKey mesh name);
  match res with
  | None => Ok None
  | Some res => match res_spec res with
                | TagRouteSpec s => Ok (Some (res, s))
                | _ => Err (typed_error TagRouteKind)
                end
  end.
Definition UpdateTagRule (st : state) (res : Resource) : state * option error := updateRule st res no_options.
Definition CreateTagRule (st : state) (res : Resource) : state * option error := createRule st res no_options.

Definition app_configurator_name (appName : string) : string := appName +:+ ConfiguratorRuleDotSuffix.
Definition app_tag_rule_name (appName : string) : string := appName +:+ TagRuleDotSuffix.
Definition app_condition_rule_name (appName : string) : string := appName +:+ ConditionRuleDotSuffix.

Definition put_configs (st : state) (res : Resource) (dc : DynamicConfig) (configs : list OverrideConfig)
    : state * option error :=
  let res := with_spec res (DynamicConfigSpec (Some (with_configs dc configs))) in
  updateRule (touched st res) res no_options.
Definition create_configurator (st : state) (appName mesh : string) (configs : list OverrideConfig)
    : state * option error :=
  createRule st (new_resource (app_configurator_name appName) mesh
    (DynamicConfigSpec (Some (app_configurator appName configs)))) no_options.

(** *** Access log of an application

    The application is looked for in the mesh with the empty name, and the
    details are never nil. *)
Definition UpInsertAppAccessLog (st : state) (appName : string) (openAccessLog : bool) (mesh : string)
    : state * option error :=
  match GetApplicationDetail IsBlank cfg st.2 "" appName with
  | Err e => (st, Some e)
  | Ok _ =>
      match GetConfigurator st.2 (app_configurator_name appName) mesh with
      | Err e => (st, Some e)
      | Ok None =>
          if openAccessLog then create_configurator st appName mesh [newAccessLogEnabledConfig appName]
          else (st, None)
      | Ok (Some (_, None)) => (st, Some nil_dereference)
      | Ok (Some (res, Some dc)) =>
          match split_first (λ c, isAppAccessLogConfig c appName) (dc_Configs dc) with
          | None =>
              if openAccessLog then put_configs st res dc (dc_Configs dc ++ [newAccessLogEnabledConfig appName])
              else (st, None)
          | Some (before, conf, after) =>
              if decide (oc_Enabled conf = openAccessLog) then (st, None)
              else put_configs st res dc (before ++ with_enabled conf openAccessLog :: after)
          end
      end
  end.

Definition GetAppAccessLog (m : M) (appName mesh : string) : result error bool :=
  res ← GetConfigurator m (app_configurator_name appName) mesh;
  match res with
  | None => Ok false
  | Some (_, None) => Err nil_dereference
  | Some (_, Some dc) =>
      match split_first (λ c, isAppAccessLogConfig c appName) (dc_Configs dc) with
      | None => Ok false
      | Some (_, conf, _) => Ok (oc_Enabled conf)
      end
  end.

(** *** Flow weights

    Reading stops, without an error, at a weight that is not a number. *)
Fixpoint flow_weights (l : list OverrideConfig) : list FlowWeightSet :=
  match l with
  | [] => []
  | conf :: l =>
      if isFlowWeightConfig conf then
        match ParseInt (default "" (oc_Parameters conf !! "weight")) with
        | None => []
        | Some weight =>
            {| fw_Weight := i32 weight;
               fw_Scope := to_model <$> default [] (oc_Match conf ≫= cm_Param) |} :: flow_weights l
        end
      else flow_weights l
  end.

Definition GetAppFlowWeight (m : M) (appName mesh : string) : result error (list FlowWeightSet) :=
  res ← GetConfigurator m (app_configurator_name appName) mesh;
  match res with
  | None => Ok []
  | Some (_, None) => Err nil_dereference
  | Some (_, Some dc) => Ok (flow_weights (dc_Configs dc))
  end.

(** The old entries are gone from the object when a set turns out to lack a key. *)
Definition UpInsertAppFlowWeightConfig (st : state) (appName mesh : string) (flowWeightSets : list FlowWeightSet)
    : state * option error :=
  match GetApplicationDetail IsBlank cfg st.2 "" appName with
  | Err e => (st, Some e)
  | Ok _ =>
      match GetConfigurator st.2 (app_configurator_name appName) mesh with
      | Err e => (st, Some e)
      | Ok None =>
          match result_mapM fromFlowWeightSet flowWeightSets with
          | Err e => (st, Some e)
          | Ok configs => create_configurator st appName mesh configs
          end
      | Ok (Some (_, None)) => (st, Some nil_dereference)
      | Ok (Some (res, Some dc)) =>
          let kept := filter (λ c, isFlowWeightConfig c = false) (dc_Configs dc) in
          match result_mapM fromFlowWeightSet flowWeightSets with
          | Err e => (touched st (with_spec res (DynamicConfigSpec (Some (with_configs dc kept)))), Some e)
          | Ok configs => put_configs st res dc (kept ++ configs)
          end
      end
  end.

(** *** Gray environments *)
Definition GetGrayConfig (m : M) (appName mesh : string) : result error (list GraySet) :=
  res ← GetTagRule m (app_tag_rule_name appName) mesh;
  match res with
  | None => Ok []
  | Some (_, None) => Err nil_dereference
  | Some (_, Some tr) =>
      Ok ((λ tag, {| gs_EnvName := tag_Name tag; gs_Scope := to_model <$> tag_Match tag |}) <$>
          filter (λ tag, isGrayTag tag = true) (tr_Tags tr))
  end.

Definition gray_tag_route (appName : string) (tags : list Tag) : TagRoute :=
  {| tr_Priority := 0; tr_Enabled := true; tr_Runtime := false; tr_Key := appName;
     tr_ConfigVersion := ConfiguratorVersionV3; tr_Force := false; tr_Tags := tags |}.

Definition UpInsertAppGrayConfig (st : state) (appName mesh : string) (graySets : list GraySet)
    : state * option error :=
  match GetTagRule st.2 (app_tag_rule_name appName) mesh with
  | Err e => (st, Some e)
  | Ok res =>
      match GetApplicationDetail IsBlank cfg st.2 mesh appName with
      | Err e => (st, Some e)
      | Ok _ =>
          match res with
          | None =>
              match result_mapM fromGraySet graySets with
              | Err e => (st, Some e)
              | Ok tags => CreateTagRule st (new_resource (app_tag_rule_name appName) mesh
                             (TagRouteSpec (Some (gray_tag_route appName tags))))
              end
          | Some (_, None) => (st, Some nil_dereference)
          | Some (res, Some tr) =>
              let kept := filter (λ tag, isGrayTag tag = false) (tr_Tags tr) in
              match result_mapM fromGraySet graySets with
              | Err e => (touched st (with_spec res (TagRouteSpec (Some (with_tags tr kept)))), Some e)
              | Ok tags =>
                  let res := with_spec res (TagRouteSpec (Some (with_tags tr (kept ++ tags)))) in
                  UpdateTagRule (touched st res) res
              end
          end
      end
  end.

(** *** Traffic of an instance *)
Definition put_conditions (st : state) (res : Resource) (cr : ConditionRoute) (conditions : list string)
    : state * option error :=
  let res := with_spec res (ConditionRouteSpec (Some (with_conditions cr conditions))) in
  updateRule (touched st res) res no_options.

Definition UpdateInstanceTrafficStatus (st : state) (mesh appName instanceIP : string) (newDisabled : bool)
    : state * option error :=
  match GetConditionRule st.2 (app_condition_rule_name appName) mesh with
  | Err e => (st, Some e)
  | Ok (Some (res, Some cr)) =>
      match split_first (λ c, isInstanceTrafficDisabled c instanceIP) (cr_Conditions cr) with
      | Some (before, _, after) =>
          if newDisabled then (st, None) else put_conditions st res cr (before ++ after)
      | None =>
          if newDisabled then put_conditions st res cr (cr_Conditions cr ++ [disableExpression instanceIP])
          else (st, None)
      end
  | Ok _ =>
      if newDisabled then
        createRule st (new_resource (app_condition_rule_name appName) mesh
          (ConditionRouteSpec (Some (with_conditions (generateDefaultConditionV3 true true true appName ScopeApplication)
            [disableExpression instanceIP])))) no_options
      else (st, None)
  end.

Definition GetInstanceTrafficStatus (m : M) (mesh appName instanceIP : string) : result error bool :=
  res ← GetConditionRule m (app_condition_rule_name appName) mesh;
  match res with
  | None => Ok false
  | Some (_, None) => Err nil_dereference
  | Some (_, Some cr) => Ok (existsb (λ c, isInstanceTrafficDisabled c instanceIP) (cr_Conditions cr))
  end.

(** *** Access log of an instance *)
Definition GetInstanceAccessLogOpenStatus (m : M) (mesh applicationName instanceIP : string) : result error bool :=
  res ← GetConfigurator m (app_configurator_name applicationName) mesh;
  match res with
  | Some (_, Some dc) => Ok (dc_Enabled dc && existsb (λ c, isInstanceAccessLogOpen c instanceIP) (dc_Configs dc))
  | _ => Ok false
  end.

Definition UpdateInstanceAccessLogOpenStatus (st : state) (mesh appName instanceIP : string) (openStatus : bool)
    : state * option error :=
  match GetConfigurator st.2 (app_configurator_name appName) mesh with
  | Err e => (st, Some e)
  | Ok (Some (res, Some dc)) =>
      match split_first (λ c, isInstanceAccessLogOpen c instanceIP) (dc_Configs dc) with
      | Some (before, _, after) =>
          if openStatus then (st, None) else put_configs st res dc (before ++ after)
      | None =>
          if openStatus then put_configs st res dc (dc_Configs dc ++ [instance_access_log instanceIP])
          else (st, None)
      end
  | Ok _ =>
      if openStatus then create_configurator st appName mesh [instance_access_log instanceIP] else (st, None)
  end.
End settings.
