(* ===== verification/AppReadBack.v ===== *)
(** The settings of applications and instances of AppSettings.v read back as
    they were set, and leave the other entries of the rules alone. *)
From S2P Require Import Prelude GoStrings Errors Resource Libs Indexers Store Versioning Gorm Lock RuleService Manager ConditionExpr ServiceMethods ServiceConfig ServiceSettings Instances ConsoleViews ConsoleQueries AppSettings.

Open Scope string_scope.
Open Scope list_scope.
Open Scope Z_scope.

(** ** Matches

    At most one field is set, and not to the empty text. *)
Definition plain_match (m : option ModelStringMatch) : Prop :=
  match m with
  | None => True
  | Some m => match omap id [ms_Exact m; ms_Prefix m; ms_Regex m; ms_Noempty m; ms_Empty m; ms_Wildcard m] with
              | [] => True
              | [s] => s ≠ ""
              | _ => False
              end
  end.

Lemma match_roundtrip m : plain_match m → StringMatchToModelStringMatch (ModelStringMatchToStringMatch m) = m.
Proof.
  destruct m as [[[?|] [?|] [?|] [?|] [?|] [?|]]|]; simpl; try done; intros Hs;
    rewrite ?(decide_False (P := ¬ _)) by (intros Hn; by apply Hn); by rewrite ?decide_True by done.
Qed.

Definition plain_scope (l : list ModelParamMatch) : Prop := Forall (λ p, plain_match (mp_Value p)) l.

Lemma scope_roundtrip l params : result_mapM from_model l = Ok params → plain_scope l → to_model <$> params = l.
Proof.
  rewrite result_mapM_Ok. induction 1 as [|[key v] p l params Hp _ IH]; [done|].
  intros [Hv Hl]%Forall_cons. csimpl. rewrite IH by done. f_equal.
  unfold from_model in Hp. simpl in Hp. destruct key as [key|]; [|done]. injection Hp as <-.
  unfold to_model. simpl. by rewrite match_roundtrip.
Qed.

(** ** The first entry that satisfies a test *)
Section first.
Context {A : Type} (p : A → bool).

Lemma split_first_None l : split_first p l = None → filter (λ x, p x = true) l = [].
Proof.
  induction l as [|x l IH]; [done|]. simpl. destruct (p x) eqn:Hx; [done|].
  destruct (split_first p l) as [[[? ?] ?]|]; [done|]. intros _. rewrite filter_cons_False by by rewrite Hx. by apply IH.
Qed.

Lemma split_first_Some l before x after : split_first p l = Some (before, x, after) →
  l = before ++ x :: after ∧ filter (λ x, p x = true) before = [] ∧ p x = true.
Proof.
  revert before. induction l as [|y l IH]; intros before; [done|]. simpl. destruct (p y) eqn:Hy.
  - by intros [= <- <- <-].
  - destruct (split_first p l) as [[[b z] a]|]; [|done]. intros [= <- <- <-].
    destruct (IH b eq_refl) as (-> & Hb & Hz). split_and!; [done| |done]. by rewrite filter_cons_False by by rewrite Hy.
Qed.

Lemma split_first_app l x k : filter (λ x, p x = true) l = [] → p x = true →
  split_first p (l ++ x :: k) = Some (l, x, k).
Proof.
  intros Hl Hx. induction l as [|y l IH]; simpl; [by rewrite Hx|]. destruct (p y) eqn:Hy.
  - by rewrite filter_cons_True in Hl.
  - rewrite filter_cons_False in Hl by by rewrite Hy. by rewrite IH.
Qed.

Lemma split_first_none l : filter (λ x, p x = true) l = [] → split_first p l = None.
Proof.
  induction l as [|y l IH]; [done|]. simpl. destruct (p y) eqn:Hy; [by rewrite filter_cons_True|].
  rewrite filter_cons_False by by rewrite Hy. intros Hl. by rewrite IH.
Qed.

Lemma existsb_filter l : existsb p l = bool_decide (filter (λ x, p x = true) l ≠ []).
Proof.
  induction l as [|y l IH]; [done|]. simpl. destruct (p y) eqn:Hy.
  - by rewrite filter_cons_True.
  - by rewrite filter_cons_False by by rewrite Hy.
Qed.

Lemma filter_filter_neg (l : list A) : filter (λ x, p x = true) (filter (λ x, p x = false) l) = [].
Proof.
  induction l as [|y l IH]; [done|]. destruct (p y) eqn:Hy.
  - rewrite (filter_cons_False (λ x, p x = false)) by by rewrite Hy. done.
  - rewrite (filter_cons_True (λ x, p x = false)) by done. by rewrite filter_cons_False by by rewrite Hy.
Qed.

Lemma filter_all_true (l : list A) : Forall (λ x, p x = true) l → filter (λ x, p x = true) l = l ∧ filter (λ x, p x = false) l = [].
Proof.
  induction 1 as [|x l Hx _ [IH1 IH2]]; [done|].
  rewrite filter_cons_True, (filter_cons_False (λ x, p x = false)) by (done || by rewrite Hx). by rewrite IH1.
Qed.

Lemma filter_neg_idem (l : list A) : filter (λ x, p x = false) (filter (λ x, p x = false) l) = filter (λ x, p x = false) l.
Proof. rewrite list_filter_filter. apply list_filter_iff. naive_solver. Qed.
End first.

(** ** Flow weights and tags *)
Lemma flow_config set conf : fromFlowWeightSet set = Ok conf → in_i32 (fw_Weight set) → plain_scope (fw_Scope set) →
  isFlowWeightConfig conf = true ∧ ∀ l, flow_weights (conf :: l) = set :: flow_weights l.
Proof.
  intros (params & Hp & [= <-])%bind_Ok Hw Hs.
  assert (Hf : isFlowWeightConfig (generated {["weight" := pretty (fw_Weight set)]} false
    {| cm_Address := None; cm_ProviderAddress := None; cm_Service := None; cm_Application := None;
       cm_Param := Some params |}) = true).
  { unfold isFlowWeightConfig. simpl. by rewrite lookup_singleton_eq. }
  split; [done|]. intros l. cbn [flow_weights]. rewrite Hf. simpl oc_Parameters. rewrite lookup_singleton_eq. simpl default.
  rewrite ParseInt_pretty by (unfold in_i64, i64_min, i64_max; unfold in_i32 in Hw; lia).
  rewrite i32_id by done. simpl. rewrite (scope_roundtrip _ _ Hp Hs). by destruct set.
Qed.

Lemma flow_weights_kept l k : flow_weights (filter (λ c, isFlowWeightConfig c = false) l ++ k) = flow_weights k.
Proof.
  induction l as [|c l IH]; [done|]. destruct (isFlowWeightConfig c) eqn:Hc.
  - by rewrite filter_cons_False by by rewrite Hc.
  - rewrite filter_cons_True by done. simpl. by rewrite Hc.
Qed.

Definition plain_weight (s : FlowWeightSet) : Prop := in_i32 (fw_Weight s) ∧ plain_scope (fw_Scope s).
Definition plain_gray (s : GraySet) : Prop := gs_EnvName s ≠ "" ∧ plain_scope (gs_Scope s).

Lemma flow_configs sets configs : result_mapM fromFlowWeightSet sets = Ok configs → Forall plain_weight sets →
  Forall (λ c, isFlowWeightConfig c = true) configs ∧ flow_weights configs = sets.
Proof.
  rewrite result_mapM_Ok. induction 1 as [|set conf sets configs Hc _ IH]; [done|].
  intros [[Hw Hs] Hl]%Forall_cons. destruct (flow_config _ _ Hc Hw Hs) as [Hf Hr]. destruct (IH Hl) as [IH1 IH2].
  split; [by constructor|]. by rewrite Hr, IH2.
Qed.

Definition gray_of (tag : Tag) : GraySet := {| gs_EnvName := tag_Name tag; gs_Scope := to_model <$> tag_Match tag |}.

Lemma gray_tags sets tags : result_mapM fromGraySet sets = Ok tags → Forall plain_gray sets →
  Forall (λ t, isGrayTag t = true) tags ∧ gray_of <$> tags = sets.
Proof.
  rewrite result_mapM_Ok. induction 1 as [|set tag sets tags Hc _ IH]; [done|].
  intros [[Hn Hs] Hl]%Forall_cons. destruct (IH Hl) as [IH1 IH2]. apply bind_Ok in Hc as (params & Hp & [= <-]). split.
  - constructor; [|done]. unfold isGrayTag. simpl. by rewrite bool_decide_eq_false_2.
  - csimpl. rewrite IH2. f_equal. unfold gray_of. simpl. rewrite (scope_roundtrip _ _ Hp Hs). by destruct set.
Qed.

(** ** Conditions that disable an instance *)
Lemma str_find_suffix a b : is_Some (str_find b (a +:+ b)).
Proof.
  induction a as [|c a IH]; simpl.
  - assert (Hp : String.prefix b b = true) by (apply str_prefix_spec; exists ""; symmetry; apply str_app_nil_r).
    destruct b as [|d b]; [by eexists|]. change ("" +:+ String d b) with (String d b). cbn [str_find]. rewrite Hp. by eexists.
  - change (String c a +:+ b) with (String c (a +:+ b)). cbn [str_find].
    match goal with |- is_Some (if ?p then _ else _) => destruct p end; [by eexists|].
    destruct IH as [i ->]. by eexists.
Qed.

Lemma disabled_by_expression ip : without_spaces ip = ip → isInstanceTrafficDisabled (disableExpression ip) ip = true.
Proof.
  intros Hip. unfold isInstanceTrafficDisabled, disableExpression. rewrite decide_False by done.
  change (without_spaces ("=>host!=" +:+ ip)) with ("=>host!=" +:+ without_spaces ip). rewrite Hip.
  change (has_prefix ("=>host!=" +:+ ip) "=>") with (String.prefix "=>" ("=>" +:+ ("host!=" +:+ ip))).
  rewrite str_prefix_app. change (str_drop 2 ("=>host!=" +:+ ip)) with ("host!=" +:+ ip).
  rewrite bool_decide_eq_true_2 by done. rewrite andb_true_r. by apply bool_decide_eq_true, str_find_suffix.
Qed.

Section settings.
Context {S M : Type} `{ResourceStore S, VisibleWrites M, !ReadOnlyResourceManager M}.
Context (protojson_Marshal : Spec → result error string) (json_canonical : string → result error string)
  (HashSpecJSON : string → string).
Context (ctx : nat → Ctx) (env : nat → nat → S → S) (now : nat → Z) (maxVersions : Z).
Context (lockMgr : option (string → option error)).
Context (touch : M → Resource → M) (touch_ok : ∀ m r, rm_ok m → rm_ok (touch m r)).
Context (IsBlank : string → bool) (cfg : AdminConfig).

Abbreviation UpsertLog := (UpInsertAppAccessLog protojson_Marshal json_canonical HashSpecJSON ctx env now maxVersions
  lockMgr touch IsBlank cfg).
Abbreviation UpsertWeights := (UpInsertAppFlowWeightConfig protojson_Marshal json_canonical HashSpecJSON ctx env now
  maxVersions lockMgr touch IsBlank cfg).
Abbreviation UpsertGray := (UpInsertAppGrayConfig protojson_Marshal json_canonical HashSpecJSON ctx env now maxVersions
  lockMgr touch IsBlank cfg).
Abbreviation UpdateTraffic := (UpdateInstanceTrafficStatus protojson_Marshal json_canonical HashSpecJSON ctx env now
  maxVersions lockMgr touch).
Abbreviation UpdateLog := (UpdateInstanceAccessLogOpenStatus protojson_Marshal json_canonical HashSpecJSON ctx env now
  maxVersions lockMgr touch).

(** The entries of a rule; of a rule that is not there, none. *)
Definition configs_of (m : M) (app mesh : string) : list OverrideConfig :=
  match GetConfigurator m (app_configurator_name app) mesh with Ok (Some (_, Some dc)) => dc_Configs dc | _ => [] end.
Definition tags_of (m : M) (app mesh : string) : list Tag :=
  match GetTagRule m (app_tag_rule_name app) mesh with Ok (Some (_, Some tr)) => tr_Tags tr | _ => [] end.
Definition conditions_of (m : M) (app mesh : string) : list string :=
  match GetConditionRule m (app_condition_rule_name app) mesh with Ok (Some (_, Some cr)) => cr_Conditions cr | _ => [] end.

(** The two ways to write the configurator of an application. *)
Lemma put_configs_ok svc m app mesh res dc configs svc' m' :
  rm_ok m → GetConfigurator m (app_configurator_name app) mesh = Ok (Some (res, Some dc)) →
  put_configs protojson_Marshal json_canonical HashSpecJSON ctx env now maxVersions lockMgr touch
    (svc, m) res dc configs = ((svc', m'), None) →
  ∃ r, GetConfigurator m' (app_configurator_name app) mesh = Ok (Some (r, Some (with_configs dc configs))).
Proof using Type*.
  intros Hok Hget Hu. destruct (GetConfigurator_found _ _ _ _ _ Hok Hget) as [Hkey _].
  apply (update_configs _ _ _ _ _ _ _ _ touch touch_ok _ _ _ _ _ _ _ _ _ Hok Hkey) in Hu as [_ ->]. by eexists.
Qed.

Lemma create_configurator_ok svc m app mesh configs svc' m' :
  rm_ok m → GetConfigurator m (app_configurator_name app) mesh = Ok None →
  create_configurator protojson_Marshal json_canonical HashSpecJSON ctx env now maxVersions lockMgr
    (svc, m) app mesh configs = ((svc', m'), None) →
  ∃ r, GetConfigurator m' (app_configurator_name app) mesh = Ok (Some (r, Some (app_configurator app configs))).
Proof using Type*. intros Hok Hget Hc. exact (create_configs _ _ _ _ _ _ _ _ _ _ _ _ _ _ _ Hok Hget Hc). Qed.

Lemma log_generated app : isAppAccessLogConfig (newAccessLogEnabledConfig app) app = true.
Proof. unfold isAppAccessLogConfig. simpl. by rewrite lookup_singleton_eq, bool_decide_eq_true_2. Qed.

Abbreviation is_log app := (λ c, isAppAccessLogConfig c app).

Lemma access_log_reads svc m app mesh open st' : rm_ok m → UpsertLog (svc, m) app open mesh = (st', None) →
  GetAppAccessLog st'.2 app mesh = Ok open ∧
  filter (λ c, isAppAccessLogConfig c app = false) (configs_of st'.2 app mesh) =
  filter (λ c, isAppAccessLogConfig c app = false) (configs_of m app mesh).
Proof using Type*.
  intros Hok. unfold UpInsertAppAccessLog. cbn [fst snd]. destruct (GetApplicationDetail _ _ _ _ _); [|done].
  unfold configs_of, GetAppAccessLog. destruct st' as [svc' m']. cbn [snd].
  destruct (GetConfigurator m _ mesh) as [[[res [dc|]]|]|e] eqn:Hget; try done.
  - destruct (split_first (is_log app) (dc_Configs dc)) as [[[before conf] after]|] eqn:Hs.
    + apply split_first_Some in Hs as (Hl & Hb & Hc). case_decide as Hd.
      * intros [= <- <-]. rewrite Hget. cbn [mbind result_bind]. rewrite Hl, (split_first_app (is_log app)) by done.
        by rewrite Hd.
      * intros (r & Hr)%(put_configs_ok _ _ _ _ _ _ _ _ _ Hok Hget). rewrite Hr. cbn [mbind result_bind with_configs dc_Configs].
        rewrite (split_first_app (is_log app)) by done. split; [done|]. rewrite Hl, !filter_app. f_equal.
        by rewrite !(filter_cons_False (λ c, isAppAccessLogConfig c app = false)) by (change (¬ isAppAccessLogConfig conf app = false); cbv beta in Hc; by rewrite Hc).
    + apply split_first_None in Hs. destruct open.
      * intros (r & Hr)%(put_configs_ok _ _ _ _ _ _ _ _ _ Hok Hget). rewrite Hr. cbn [mbind result_bind with_configs dc_Configs].
        rewrite (split_first_app (is_log app)) by (done || apply log_generated). split; [done|].
        rewrite filter_app, filter_cons_False by by rewrite log_generated. by rewrite app_nil_r.
      * intros [= <- <-]. rewrite Hget. cbn [mbind result_bind]. by rewrite split_first_none.
  - destruct open; [|intros [= <- <-]; by rewrite Hget].
    intros (r & Hr)%(create_configurator_ok _ _ _ _ _ _ _ Hok Hget). rewrite Hr.
    cbn [mbind result_bind app_configurator dc_Configs split_first]. rewrite log_generated. split; [done|].
    by rewrite filter_cons_False by by rewrite log_generated.
Qed.

Lemma weights_read svc m app mesh sets st' : rm_ok m → Forall plain_weight sets →
  UpsertWeights (svc, m) app mesh sets = (st', None) →
  GetAppFlowWeight st'.2 app mesh = Ok sets ∧
  filter (λ c, isFlowWeightConfig c = false) (configs_of st'.2 app mesh) =
  filter (λ c, isFlowWeightConfig c = false) (configs_of m app mesh).
Proof using Type*.
  intros Hok Hp. unfold UpInsertAppFlowWeightConfig. cbn [fst snd]. destruct (GetApplicationDetail _ _ _ _ _); [|done].
  unfold configs_of, GetAppFlowWeight. destruct st' as [svc' m']. cbn [snd].
  destruct (GetConfigurator m _ mesh) as [[[res [dc|]]|]|e] eqn:Hget; try done;
    (destruct (result_mapM fromFlowWeightSet sets) as [configs|e] eqn:Hc; [|done]);
    destruct (flow_configs _ _ Hc Hp) as [Hf Hr]; apply (filter_all_true isFlowWeightConfig) in Hf as [_ Hf].
  - intros (r & ->)%(put_configs_ok _ _ _ _ _ _ _ _ _ Hok Hget). cbn [mbind result_bind with_configs dc_Configs].
    rewrite flow_weights_kept, Hr. split; [done|]. by rewrite filter_app, Hf, app_nil_r, filter_neg_idem.
  - intros (r & ->)%(create_configurator_ok _ _ _ _ _ _ _ Hok Hget).
    cbn [mbind result_bind app_configurator dc_Configs]. by rewrite Hr.
Qed.

Lemma GetTagRule_reads m name mesh res tr :
  rm_GetByKey m TagRouteKind (BuildResourceKey mesh name) = Ok (Some (with_spec res (TagRouteSpec tr))) →
  GetTagRule m name mesh = Ok (Some (with_spec res (TagRouteSpec tr), tr)).
Proof. intros Hr. unfold GetTagRule. by rewrite Hr. Qed.

Lemma gray_reads svc m app mesh sets st' : rm_ok m → Forall plain_gray sets →
  UpsertGray (svc, m) app mesh sets = (st', None) →
  GetGrayConfig st'.2 app mesh = Ok sets ∧
  filter (λ t, isGrayTag t = false) (tags_of st'.2 app mesh) = filter (λ t, isGrayTag t = false) (tags_of m app mesh).
Proof using Type*.
  intros Hok Hp. unfold UpInsertAppGrayConfig. cbn [fst snd]. unfold tags_of, GetGrayConfig. destruct st' as [svc' m']. cbn [snd].
  destruct (GetTagRule m _ mesh) as [res|e] eqn:Hget; [|done]. destruct (GetApplicationDetail _ _ _ _ _); [|done].
  assert (Hraw : ∃ r, rm_GetByKey m TagRouteKind (BuildResourceKey mesh (app_tag_rule_name app)) = Ok r ∧
    match res with None => r = None | Some (x, _) => r = Some x end).
  { apply bind_Ok in Hget as (r & Hr & Hs). exists r. split; [done|]. destruct r as [r|]; [|by simplify_eq].
    by destruct (res_spec r); simplify_eq. }
  destruct Hraw as (raw & Hraw & Hres).
  destruct res as [[res [tr|]]|]; try done; subst raw;
    (destruct (result_mapM fromGraySet sets) as [tags|e] eqn:Hc; [|done]);
    destruct (gray_tags _ _ Hc Hp) as [Hg Hr]; apply (filter_all_true isGrayTag) in Hg as [Hg1 Hg2].
  - destruct (rm_GetByKey_key _ _ _ _ Hok Hraw) as [_ Hkey]. intros Hu.
    apply (updateRule_success protojson_Marshal json_canonical HashSpecJSON ctx env now maxVersions lockMgr) in Hu as [_ Hu];
      [|by apply touch_ok]. change (ResourceKey (with_spec res _)) with (ResourceKey res) in Hu. rewrite Hkey in Hu.
    rewrite (GetTagRule_reads m' (app_tag_rule_name app) mesh _ _ Hu). cbn [mbind result_bind with_tags tr_Tags].
    rewrite !filter_app, filter_filter_neg, Hg1, Hg2, app_nil_l, app_nil_r, filter_neg_idem. split; [f_equal; exact Hr|done].
  - intros Hu. apply (createRule_success protojson_Marshal json_canonical HashSpecJSON ctx env now maxVersions lockMgr) in Hu as [_ Hu];
      [|done|exact Hraw]. rewrite (GetTagRule_reads m' (app_tag_rule_name app) mesh (new_resource (app_tag_rule_name app) mesh (TagRouteSpec None)) _ Hu).
    cbn [mbind result_bind gray_tag_route tr_Tags]. rewrite Hg1, Hg2. split; [f_equal; exact Hr|done].
Qed.

(** The settings of an application read back as they were set: when
    setting the access log, the flow weights or the gray environments
    succeeds, the next read returns them (weights of 32 bits, matches with at
    most one field, named environments), whether the rule was created or
    changed, and the entries of the rule that belong to other settings are
    what they were. *)
Theorem app_settings_read_back svc m app mesh st' (Hok : rm_ok m) :
  (∀ open, UpsertLog (svc, m) app open mesh = (st', None) →
     GetAppAccessLog st'.2 app mesh = Ok open ∧
     filter (λ c, isAppAccessLogConfig c app = false) (configs_of st'.2 app mesh) =
     filter (λ c, isAppAccessLogConfig c app = false) (configs_of m app mesh)) ∧
  (∀ sets, Forall plain_weight sets → UpsertWeights (svc, m) app mesh sets = (st', None) →
     GetAppFlowWeight st'.2 app mesh = Ok sets ∧
     filter (λ c, isFlowWeightConfig c = false) (configs_of st'.2 app mesh) =
     filter (λ c, isFlowWeightConfig c = false) (configs_of m app mesh)) ∧
  (∀ sets, Forall plain_gray sets → UpsertGray (svc, m) app mesh sets = (st', None) →
     GetGrayConfig st'.2 app mesh = Ok sets ∧
     filter (λ t, isGrayTag t = false) (tags_of st'.2 app mesh) = filter (λ t, isGrayTag t = false) (tags_of m app mesh)).
Proof using Type*.
  split_and!; intros *; [by apply access_log_reads|by apply weights_read|by apply gray_reads].
Qed.

Abbreviation disabling ip := (λ c, isInstanceTrafficDisabled c ip).
Abbreviation opening ip := (λ c, isInstanceAccessLogOpen c ip).

Lemma traffic_reads svc m app mesh ip disabled st' : rm_ok m → without_spaces ip = ip →
  (∀ r, GetConditionRule m (app_condition_rule_name app) mesh ≠ Ok (Some (r, None))) →
  UpdateTraffic (svc, m) mesh app ip disabled = (st', None) →
  GetInstanceTrafficStatus st'.2 mesh app ip =
  Ok (disabled || bool_decide (2 ≤ length (filter (λ c, isInstanceTrafficDisabled c ip = true) (conditions_of m app mesh)))%nat).
Proof using Type*.
  intros Hok Hip Hspec. unfold UpdateInstanceTrafficStatus, GetInstanceTrafficStatus, conditions_of. cbn [fst snd].
  destruct st' as [svc' m']. cbn [snd].
  destruct (GetConditionRule m _ mesh) as [[[res [cr|]]|]|e] eqn:Hget; [|by destruct (Hspec res)| |done].
  - pose proof (GetConditionRule_found _ _ _ _ _ Hok Hget) as Hkey.
    destruct (split_first (disabling ip) (cr_Conditions cr)) as [[[before c] after]|] eqn:Hs.
    + apply split_first_Some in Hs as (Hl & Hb & Hc). destruct disabled.
      * intros [= <- <-]. rewrite Hget. cbn [mbind result_bind]. rewrite Hl, existsb_app. cbn [existsb]. by rewrite Hc, orb_true_r.
      * intros Hu. apply (update_route _ _ _ _ _ _ _ _ touch touch_ok _ _ _ _ _ _ _ _ Hok Hkey) in Hu. rewrite Hu.
        cbn [mbind result_bind with_conditions cr_Conditions]. rewrite (existsb_filter (disabling ip)), Hl, !filter_app, Hb.
        rewrite filter_cons_True by done. f_equal. apply bool_decide_ext. destruct (filter _ after); simpl; [split; [done|lia]|].
        split; [lia|done].
    + apply split_first_None in Hs. rewrite Hs. destruct disabled.
      * intros Hu. apply (update_route _ _ _ _ _ _ _ _ touch touch_ok _ _ _ _ _ _ _ _ Hok Hkey) in Hu. rewrite Hu.
        cbn [mbind result_bind with_conditions cr_Conditions]. rewrite existsb_app. cbn [existsb].
        rewrite disabled_by_expression by done. by rewrite orb_true_r.
      * intros [= <- <-]. rewrite Hget. cbn [mbind result_bind]. by rewrite (existsb_filter (disabling ip)), Hs.
  - destruct disabled; [|intros [= <- <-]; by rewrite Hget]. intros Hu.
    apply (createRule_success protojson_Marshal json_canonical HashSpecJSON ctx env now maxVersions lockMgr) in Hu as [_ Hu];
      [|done|by apply GetConditionRule_none].
    rewrite (GetConditionRule_reads m' (app_condition_rule_name app) mesh
      (new_resource (app_condition_rule_name app) mesh (ConditionRouteSpec None)) _ Hu).
    cbn [mbind result_bind with_conditions cr_Conditions existsb]. by rewrite disabled_by_expression.
Qed.

Lemma open_generated ip : isInstanceAccessLogOpen (instance_access_log ip) ip = true.
Proof. unfold isInstanceAccessLogOpen. simpl. by rewrite lookup_singleton_eq, bool_decide_eq_true_2. Qed.

(** Whether the configurator of the application is enabled; a new one is. *)
Definition configurator_enabled (m : M) (app mesh : string) : bool :=
  match GetConfigurator m (app_configurator_name app) mesh with Ok (Some (_, Some dc)) => dc_Enabled dc | _ => true end.

Lemma instance_log_reads svc m app mesh ip open st' : rm_ok m →
  (∀ r, GetConfigurator m (app_configurator_name app) mesh ≠ Ok (Some (r, None))) →
  UpdateLog (svc, m) mesh app ip open = (st', None) →
  GetInstanceAccessLogOpenStatus st'.2 mesh app ip =
  Ok (configurator_enabled m app mesh &&
      (open || bool_decide (2 ≤ length (filter (λ c, isInstanceAccessLogOpen c ip = true) (configs_of m app mesh)))%nat)).
Proof using Type*.
  intros Hok Hspec. unfold UpdateInstanceAccessLogOpenStatus, GetInstanceAccessLogOpenStatus, configs_of, configurator_enabled.
  cbn [fst snd]. destruct st' as [svc' m']. cbn [snd].
  destruct (GetConfigurator m _ mesh) as [[[res [dc|]]|]|e] eqn:Hget; [|by destruct (Hspec res)| |done].
  - destruct (split_first (opening ip) (dc_Configs dc)) as [[[before c] after]|] eqn:Hs.
    + apply split_first_Some in Hs as (Hl & Hb & Hc). destruct open.
      * intros [= <- <-]. rewrite Hget. cbn [mbind result_bind]. rewrite Hl, existsb_app. cbn [existsb]. by rewrite Hc, orb_true_r.
      * intros (r & ->)%(put_configs_ok _ _ _ _ _ _ _ _ _ Hok Hget). cbn [mbind result_bind with_configs dc_Configs dc_Enabled].
        rewrite (existsb_filter (opening ip)), Hl, !filter_app, Hb, filter_cons_True by done.
        do 2 f_equal. apply bool_decide_ext. destruct (filter _ after); simpl; [split; [done|lia]|]. split; [lia|done].
    + apply split_first_None in Hs. rewrite Hs. destruct open.
      * intros (r & ->)%(put_configs_ok _ _ _ _ _ _ _ _ _ Hok Hget). cbn [mbind result_bind with_configs dc_Configs dc_Enabled].
        rewrite existsb_app. cbn [existsb]. by rewrite open_generated, orb_true_r.
      * intros [= <- <-]. rewrite Hget. cbn [mbind result_bind]. by rewrite (existsb_filter (opening ip)), Hs.
  - destruct open; [|intros [= <- <-]; by rewrite Hget].
    intros (r & ->)%(create_configurator_ok _ _ _ _ _ _ _ Hok Hget).
    cbn [mbind result_bind app_configurator dc_Configs dc_Enabled existsb]. by rewrite open_generated.
Qed.

(** What the switches of an instance do: after its traffic was disabled it
    reads as disabled; after it was enabled it reads as enabled unless the
    rule had two conditions that disable it, of which one is left; after its
    access log was opened or closed it reads so, with the same exception,
    provided the configurator of the application is enabled: while it is
    disabled the log reads as closed whatever was set. *)
Theorem instance_switches_read_back svc m app mesh ip st' (Hok : rm_ok m) :
  (∀ disabled, without_spaces ip = ip →
     (∀ r, GetConditionRule m (app_condition_rule_name app) mesh ≠ Ok (Some (r, None))) →
     UpdateTraffic (svc, m) mesh app ip disabled = (st', None) →
     GetInstanceTrafficStatus st'.2 mesh app ip =
     Ok (disabled || bool_decide (2 ≤ length (filter (λ c, isInstanceTrafficDisabled c ip = true) (conditions_of m app mesh)))%nat)) ∧
  (∀ open, (∀ r, GetConfigurator m (app_configurator_name app) mesh ≠ Ok (Some (r, None))) →
     UpdateLog (svc, m) mesh app ip open = (st', None) →
     GetInstanceAccessLogOpenStatus st'.2 mesh app ip =
     Ok (configurator_enabled m app mesh &&
         (open || bool_decide (2 ≤ length (filter (λ c, isInstanceAccessLogOpen c ip = true) (configs_of m app mesh)))%nat))).
Proof using Type*. split; intros *; [by apply traffic_reads|by apply instance_log_reads]. Qed.
End settings.

(** ** At a concrete manager *)
Module AppSettingsExample.
Import VersioningExample RuleServiceExample ServiceSettingsExample.
#[local] Existing Instance RefStore.ops.
#[local] Existing Instance RefStore.laws.
#[local] Existing Instance direct.
#[local] Existing Instance direct_laws.
#[local] Existing Instance direct_visible.

(** The manager has rules only, so no instance is listed. *)
#[local] Instance rules_reader : ReadOnlyResourceManager RefStore.store := {
  ro_GetByKey := rm_GetByKey;
  ro_GetByKeys _ _ _ := Ok [];
  ro_ListByIndexes _ _ _ := Ok [];
  ro_PageListByIndexes _ _ _ pr := Ok (NewPageData 0 (PageOffset pr) (PageSize pr) []) }.

Definition blank (s : string) : bool := bool_decide (s = "").
Definition console : AdminConfig := {| cfg_Discovery := []; cfg_Engine := None |}.

Definition gold : FlowWeightSet :=
  {| fw_Weight := 20; fw_Scope := [ {| mp_Key := Some "user"; mp_Value := Some
       {| ms_Empty := None; ms_Exact := Some "gold"; ms_Noempty := None; ms_Prefix := None; ms_Regex := None; ms_Wildcard := None |} |} ] |}.
Definition canary : GraySet := {| gs_EnvName := "canary"; gs_Scope := fw_Scope gold |}.
Definition other : OverrideConfig := new_config SideProvider "timeout" 100.
Definition existing : Resource :=
  new_resource (app_configurator_name "shop") "m" (DynamicConfigSpec (Some (app_configurator "shop" [other]))).

Abbreviation weights_run l sets := (UpInsertAppFlowWeightConfig doc Ok hash calm alone (λ _, 9) 5 None (λ m _, m)
  blank console (Some none, rules l) "shop" "m" sets).
Abbreviation gray_run l sets := (UpInsertAppGrayConfig doc Ok hash calm alone (λ _, 9) 5 None (λ m _, m)
  blank console (Some none, rules l) "shop" "m" sets).
Abbreviation log_run l open := (UpInsertAppAccessLog doc Ok hash calm alone (λ _, 9) 5 None (λ m _, m)
  blank console (Some none, rules l) "shop" open "m").
Abbreviation traffic_run l disabled := (UpdateInstanceTrafficStatus doc Ok hash calm alone (λ _, 9) 5 None (λ m _, m)
  (Some none, rules l) "m" "shop" "10.0.0.1" disabled).
Abbreviation instance_log_run l open := (UpdateInstanceAccessLogOpenStatus doc Ok hash calm alone (λ _, 9) 5 None (λ m _, m)
  (Some none, rules l) "m" "shop" "10.0.0.1" open).

Lemma same_ok (m : RefStore.store) (r : Resource) : rm_ok m → rm_ok m.
Proof. done. Qed.

Lemma succeeded {A} (run : A * option error) : run.2 = None → run = (run.1, None).
Proof. destruct run as [a e]. simpl. by intros ->. Qed.

Lemma app_settings_read_back_witness :
  (GetAppFlowWeight (weights_run [existing] [gold]).1.2 "shop" "m" = Ok [gold] ∧
   filter (λ c, isFlowWeightConfig c = false) (configs_of (weights_run [existing] [gold]).1.2 "shop" "m") = [other]) ∧
  GetAppAccessLog (log_run [existing] true).1.2 "shop" "m" = Ok true ∧
  GetGrayConfig (gray_run [] [canary]).1.2 "shop" "m" = Ok [canary].
Proof.
  assert (Hw : (weights_run [existing] [gold]).2 = None) by (vm_compute; reflexivity).
  assert (Hl : (log_run [existing] true).2 = None) by (vm_compute; reflexivity).
  assert (Hg : (gray_run [] [canary]).2 = None) by (vm_compute; reflexivity).
  assert (Hgold : Forall plain_weight [gold]).
  { constructor; [|constructor]. split; [split; discriminate|]. constructor; [discriminate|constructor]. }
  assert (Hcanary : Forall plain_gray [canary]).
  { constructor; [|constructor]. split; [discriminate|]. constructor; [discriminate|constructor]. }
  destruct (app_settings_read_back doc Ok hash calm alone (λ _, 9) 5 None (λ m _, m) same_ok blank console
    (Some none) (rules [existing]) "shop" "m" (weights_run [existing] [gold]).1 I) as (_ & Hweights & _).
  destruct (app_settings_read_back doc Ok hash calm alone (λ _, 9) 5 None (λ m _, m) same_ok blank console
    (Some none) (rules [existing]) "shop" "m" (log_run [existing] true).1 I) as (Hlog & _ & _).
  destruct (app_settings_read_back doc Ok hash calm alone (λ _, 9) 5 None (λ m _, m) same_ok blank console
    (Some none) (rules []) "shop" "m" (gray_run [] [canary]).1 I) as (_ & _ & Hgray).
  split; [|split].
  - destruct (Hweights [gold] Hgold (succeeded _ Hw)) as [Hr Hk]. split; [exact Hr|]. rewrite Hk. vm_compute. reflexivity.
  - exact (proj1 (Hlog true (succeeded _ Hl))).
  - exact (proj1 (Hgray [canary] Hcanary (succeeded _ Hg))).
Defined.

(** The rule disables the instance twice; the configurator is disabled. *)
Definition twice : Resource :=
  new_resource (app_condition_rule_name "shop") "m" (ConditionRouteSpec (Some (with_conditions
    (generateDefaultConditionV3 true true true "shop" ScopeApplication)
    [disableExpression "10.0.0.1"; "=> host != 10.0.0.1"]))).
Definition off : Resource :=
  new_resource (app_configurator_name "shop") "m" (DynamicConfigSpec (Some
    {| dc_Key := "shop"; dc_Scope := ScopeApplication; dc_ConfigVersion := ConfiguratorVersionV3; dc_Enabled := false;
       dc_Configs := [] |})).

Lemma instance_switches_read_back_witness :
  GetInstanceTrafficStatus (traffic_run [twice] false).1.2 "m" "shop" "10.0.0.1" = Ok true ∧
  GetInstanceAccessLogOpenStatus (instance_log_run [off] true).1.2 "m" "shop" "10.0.0.1" = Ok false.
Proof.
  assert (Ht : (traffic_run [twice] false).2 = None) by (vm_compute; reflexivity).
  assert (Hl : (instance_log_run [off] true).2 = None) by (vm_compute; reflexivity).
  split.
  - rewrite (proj1 (instance_switches_read_back doc Ok hash calm alone (λ _, 9) 5 None (λ m _, m) same_ok
      (Some none) (rules [twice]) "shop" "m" "10.0.0.1" (traffic_run [twice] false).1 I) false eq_refl
      ltac:(intros r; vm_compute; discriminate) (succeeded _ Ht)).
    vm_compute. reflexivity.
  - rewrite (proj2 (instance_switches_read_back doc Ok hash calm alone (λ _, 9) 5 None (λ m _, m) same_ok
      (Some none) (rules [off]) "shop" "m" "10.0.0.1" (instance_log_run [off] true).1 I) true
      ltac:(intros r; vm_compute; discriminate) (succeeded _ Hl)).
    vm_compute. reflexivity.
Defined.
End AppSettingsExample.
