(* ===== verification/RuleSearches.v ===== *)
(** The rules as the console shows them: the answers of
    pkg/console/model/configurator_rule.go, condition_rule.go and tag_rule.go,
    and the searches of the same files of pkg/console/service. *)
From S2P Require Import Prelude GoStrings Errors Resource Libs Indexers Store Queries RuleService Manager ServiceConfig Instances ConsoleViews ConsoleQueries AppSettings.

Open Scope string_scope.
Open Scope list_scope.
Open Scope Z_scope.

(** ** model/configurator_rule.go *)
Record RespAddress := {
  ra_Cird : option string; ra_Exact : option string; ra_Wildcard : option string }.
Record RespMatch := {
  rm_Address : option RespAddress; rm_App : option (list ModelStringMatch); rm_Param : list ModelParamMatch;
  rm_ProviderAddress : option RespAddress; rm_Service : option (list ModelStringMatch) }.
Record ConfigItem := {
  ci_Enabled : bool; ci_Match : option RespMatch; ci_Parameters : gmap string string; ci_Side : string }.
Record RespConfigurator := {
  rc_Configs : list ConfigItem; rc_ConfigVersion : string; rc_Enabled : bool; rc_Key : string; rc_Scope : string }.

Definition no_address : RespAddress := {| ra_Cird := None; ra_Exact := None; ra_Wildcard := None |}.

Definition addressMatchToRespAddress (address : option AddressMatch) : option RespAddress :=
  match address with
  | None => None
  | Some a => Some (
      if decide (am_Exact a ≠ "") then {| ra_Cird := None; ra_Exact := Some (am_Exact a); ra_Wildcard := None |}
      else if decide (am_Wildcard a ≠ "") then {| ra_Cird := None; ra_Exact := None; ra_Wildcard := Some (am_Wildcard a) |}
      else if decide (am_Cird a ≠ "") then {| ra_Cird := Some (am_Cird a); ra_Exact := None; ra_Wildcard := None |}
      else no_address)
  end.
Definition addressMatchToRespAddressMatch (address : option AddressMatch) : option RespAddress :=
  match address with
  | None => None
  | Some a => Some (
      if decide (am_Exact a ≠ "") then {| ra_Cird := None; ra_Exact := Some (am_Exact a); ra_Wildcard := None |}
      else if decide (am_Wildcard a ≠ "") then {| ra_Cird := None; ra_Exact := None; ra_Wildcard := Some (am_Wildcard a) |}
      else if decide (am_Cird a ≠ "") then {| ra_Cird := Some (am_Cird a); ra_Exact := None; ra_Wildcard := None |}
      else no_address)
  end.

Definition paramMatchToRespParamMatch (param : list ParamMatch) : list ModelParamMatch := to_model <$> param.

(** A match is an element of the message and never nil. *)
Definition listStringMatchToRespListStringMatch (l : option (list StringMatch)) : option (list ModelStringMatch) :=
  match l with
  | None => None
  | Some l => Some (omap (λ m, StringMatchToModelStringMatch (Some m)) l)
  end.

Definition conditionMatchToRespMatch (m : option ConditionMatch) : option RespMatch :=
  match m with
  | None => None
  | Some m => Some
      {| rm_Address := addressMatchToRespAddress (cm_Address m);
         rm_App := listStringMatchToRespListStringMatch (cm_Application m);
         rm_Param := paramMatchToRespParamMatch (default [] (cm_Param m));
         rm_ProviderAddress := addressMatchToRespAddressMatch (cm_ProviderAddress m);
         rm_Service := listStringMatchToRespListStringMatch (cm_Service m) |}
  end.

Definition overrideConfigToRespConfigItem (configs : list OverrideConfig) : list ConfigItem :=
  (λ config, {| ci_Enabled := oc_Enabled config; ci_Match := conditionMatchToRespMatch (oc_Match config);
                ci_Parameters := oc_Parameters config; ci_Side := oc_Side config |}) <$> configs.

Definition GenDynamicConfigToResp (pb : option DynamicConfig) : option RespConfigurator :=
  match pb with
  | None => None
  | Some pb => Some
      {| rc_Configs := overrideConfigToRespConfigItem (dc_Configs pb); rc_ConfigVersion := dc_ConfigVersion pb;
         rc_Enabled := dc_Enabled pb; rc_Key := dc_Key pb; rc_Scope := dc_Scope pb |}
  end.

(** ** model/condition_rule.go *)
Record ConditionRuleResp := {
  crr_Conditions : list string; crr_ConfigVersion : string; crr_Enabled : bool; crr_Force : bool;
  crr_Key : string; crr_Priority : Z; crr_Runtime : bool; crr_Scope : string }.

Definition GenConditionRuleToResp (data : option ConditionRoute) : option ConditionRuleResp :=
  match data with
  | None => None
  | Some d => Some
      {| crr_Conditions := cr_Conditions d; crr_ConfigVersion := cr_ConfigVersion d; crr_Enabled := cr_Enabled d;
         crr_Force := cr_Force d; crr_Key := cr_Key d; crr_Priority := cr_Priority d; crr_Runtime := cr_Runtime d;
         crr_Scope := cr_Scope d |}
  end.

(** ** model/tag_rule.go *)
Record RespTagElement := { te_Addresses : list string; te_Match : list ModelParamMatch; te_Name : string }.
Record TagRuleResp := {
  trr_ConfigVersion : string; trr_Enabled : bool; trr_Force : bool; trr_Key : string; trr_Priority : Z;
  trr_Runtime : bool; trr_Scope : string; trr_Tags : list RespTagElement }.

Definition tagToRespTagElement (tags : list Tag) : list RespTagElement :=
  (λ t, {| te_Addresses := tag_Addresses t; te_Match := paramMatchToRespParamMatch (tag_Match t);
           te_Name := tag_Name t |}) <$> tags.

Definition GenTagRouteResp (pb : option TagRoute) : option TagRuleResp :=
  match pb with
  | None => None
  | Some pb => Some
      {| trr_ConfigVersion := tr_ConfigVersion pb; trr_Enabled := tr_Enabled pb; trr_Force := tr_Force pb;
         trr_Key := tr_Key pb; trr_Priority := tr_Priority pb; trr_Runtime := tr_Runtime pb;
         trr_Scope := ScopeApplication; trr_Tags := tagToRespTagElement (tr_Tags pb) |}
  end.

(** ** Searches *)
Record ConfiguratorSearchResp := {
  cs_RuleName : string; cs_Scope : string; cs_CreateTime : string; cs_Enabled : bool }.
Record ConditionRuleSearchResp := {
  cds_CreateTime : string; cds_Enabled : bool; cds_RuleName : string; cds_Scope : string }.
Record TagRuleSearchResp := { ts_CreateTime : string; ts_Enabled : bool; ts_RuleName : string }.

(** [model.SearchReq] and [model.SearchConditionRuleReq]. *)
Record SearchReq := { sq_PageReq : PageReq; sq_Keywords : string; sq_Mesh : string }.

Definition configurator_spec (r : Resource) : option DynamicConfig :=
  match res_spec r with DynamicConfigSpec s => s | _ => None end.
Definition condition_spec (r : Resource) : option ConditionRoute :=
  match res_spec r with ConditionRouteSpec s => s | _ => None end.
Definition tag_spec (r : Resource) : option TagRoute :=
  match res_spec r with TagRouteSpec s => s | _ => None end.

Section searches.
Context {M : Type} `{ReadOnlyResourceManager M} (IsBlank : string → bool).
(** [CreationTimestamp.String()] of the metadata of a resource. *)
Context (creation_time : Resource → string).
Implicit Types m : M.

Definition in_mesh (mesh : string) : list IndexCondition := [equals Instances.ByMeshIndex mesh].
Definition one_row {T} (pr : PageReq) (row : T) : SearchPaginationResult T := counted_list pr [row].

(** *** configurator_rule.go *)
Definition configurator_failed : string := "search dynamic config rule failed, please try again".
Definition configurator_row (r : Resource) : result error ConfiguratorSearchResp :=
  row_of configurator_spec (λ s, {| cs_RuleName := res_Name r; cs_Scope := dc_Scope s; cs_CreateTime := "";
                                    cs_Enabled := dc_Enabled s |}) r.
Definition PageListConfiguratorRule m (req : SearchReq) : result error (SearchPaginationResult ConfiguratorSearchResp) :=
  pd ← or_internal configurator_failed (page_list_by_indexes m DynamicConfigKind (in_mesh (sq_Mesh req)) (sq_PageReq req));
  rows (sq_PageReq req) configurator_row pd.
Definition SearchConfiguratorRuleByKeywords m (req : SearchReq)
    : result error (SearchPaginationResult ConfiguratorSearchResp) :=
  res ← or_internal configurator_failed
          (get_by_key m DynamicConfigKind (BuildResourceKey (sq_Mesh req) (sq_Keywords req)));
  match res with
  | None => Ok (counted_list (sq_PageReq req) [])
  | Some r => row ← configurator_row r; Ok (one_row (sq_PageReq req) row)
  end.

(** *** condition_rule.go *)
Definition ToSearchConditionRuleResp (r : Resource) : result error ConditionRuleSearchResp :=
  row_of condition_spec (λ s, {| cds_CreateTime := creation_time r; cds_Enabled := cr_Enabled s;
                                 cds_RuleName := res_Name r; cds_Scope := cr_Scope s |}) r.
Definition SearchConditionRuleByKeywords m (req : SearchReq)
    : result error (SearchPaginationResult ConditionRuleSearchResp) :=
  res ← or_internal "search condition rule failed, please try again"
          (get_by_key m ConditionRouteKind (BuildResourceKey (sq_Mesh req) (sq_Keywords req)));
  match res with
  | None => Ok (counted_list (sq_PageReq req) [])
  | Some r => row ← ToSearchConditionRuleResp r; Ok (one_row (sq_PageReq req) row)
  end.
Definition SearchConditionRules m (req : SearchReq) : result error (SearchPaginationResult ConditionRuleSearchResp) :=
  if negb (IsBlank (sq_Keywords req)) then SearchConditionRuleByKeywords m req
  else
    pd ← or_internal "search condition route failed, please try again"
           (page_list_by_indexes m ConditionRouteKind (in_mesh (sq_Mesh req)) (sq_PageReq req));
    all_rows ToSearchConditionRuleResp pd.

(** *** tag_rule.go *)
Definition tag_failed : string := "search tag rule failed, please try again".
Definition tag_row (r : Resource) : result error TagRuleSearchResp :=
  row_of tag_spec (λ s, {| ts_CreateTime := ""; ts_Enabled := tr_Enabled s; ts_RuleName := res_Name r |}) r.
Definition PageListTagRule m (req : SearchReq) : result error (SearchPaginationResult TagRuleSearchResp) :=
  pd ← or_internal tag_failed (page_list_by_indexes m TagRouteKind (in_mesh (sq_Mesh req)) (sq_PageReq req));
  rows (sq_PageReq req) tag_row pd.
Definition SearchTagRuleByKeywords m (req : SearchReq) : result error (SearchPaginationResult TagRuleSearchResp) :=
  res ← or_internal tag_failed (get_by_key m TagRouteKind (BuildResourceKey (sq_Mesh req) (sq_Keywords req)));
  match res with
  | None => Ok (counted_list (sq_PageReq req) [])
  | Some r => row ← tag_row r; Ok (one_row (sq_PageReq req) row)
  end.
End searches.

(** ** What is shown is what is stored *)

(** A match that is written back has the first field of the stored one that is
    not empty, and nothing else; a stored match with one field comes back. *)
Definition sole_field (m : StringMatch) : Prop :=
  ∃ f s, m = match f with
             | 0 => {| sm_Exact := s; sm_Prefix := ""; sm_Regex := ""; sm_Noempty := ""; sm_Empty := ""; sm_Wildcard := "" |}
             | 1 => {| sm_Exact := ""; sm_Prefix := s; sm_Regex := ""; sm_Noempty := ""; sm_Empty := ""; sm_Wildcard := "" |}
             | 2 => {| sm_Exact := ""; sm_Prefix := ""; sm_Regex := s; sm_Noempty := ""; sm_Empty := ""; sm_Wildcard := "" |}
             | 3 => {| sm_Exact := ""; sm_Prefix := ""; sm_Regex := ""; sm_Noempty := s; sm_Empty := ""; sm_Wildcard := "" |}
             | 4 => {| sm_Exact := ""; sm_Prefix := ""; sm_Regex := ""; sm_Noempty := ""; sm_Empty := s; sm_Wildcard := "" |}
             | _ => {| sm_Exact := ""; sm_Prefix := ""; sm_Regex := ""; sm_Noempty := ""; sm_Empty := ""; sm_Wildcard := s |}
             end%nat.

Lemma shown_match_comes_back m : sole_field m →
  ModelStringMatchToStringMatch (StringMatchToModelStringMatch (Some m)) = Some m.
Proof.
  intros (f & s & ->). destruct (decide (s = "")) as [->|Hs].
  - by do 6 (destruct f as [|f]; [done|]).
  - do 6 (destruct f as [|f]; [simpl; by rewrite ?decide_False by done; rewrite ?decide_True by done|]).
    simpl. by rewrite decide_True by done.
Qed.

(** The two copies of the address conversion agree. *)
Lemma address_conversions_agree a : addressMatchToRespAddress a = addressMatchToRespAddressMatch a.
Proof. done. Qed.

(** *** The search by name

    It finds exactly the rule stored under the mesh and the keywords. *)
Section found.
Context {M : Type} `{ReadOnlyResourceManagerLaws M} (m : M).
Context (Hget : ∀ k key, ro_GetByKey m k key = Ok (ro_items m k !! key)) (Hok : ro_ok m).

Lemma typed_found k key : get_by_key m k key = Ok (ro_items m k !! key).
Proof using Hget Hok.
  unfold get_by_key. rewrite Hget. cbn [mbind result_bind]. destruct (ro_items m k !! key) as [r|] eqn:Hr; [|done].
  rewrite decide_True; [done|]. by apply (ro_items_key m k key).
Qed.

(** By name, at most the one rule stored under it is listed, and it always is;
    its row carries the name, the scope and the state of the stored rule. *)
Theorem configurator_found_by_name req :
  SearchConfiguratorRuleByKeywords m req =
    match ro_items m DynamicConfigKind !! BuildResourceKey (sq_Mesh req) (sq_Keywords req) with
    | None => Ok (counted_list (sq_PageReq req) [])
    | Some r =>
        match configurator_spec r with
        | None => Err nil_dereference
        | Some s => Ok (counted_list (sq_PageReq req)
            [ {| cs_RuleName := res_Name r; cs_Scope := dc_Scope s; cs_CreateTime := ""; cs_Enabled := dc_Enabled s |} ])
        end
    end.
Proof using Hget Hok.
  unfold SearchConfiguratorRuleByKeywords. rewrite typed_found. cbn [or_internal mbind result_bind].
  destruct (_ !! _) as [r|]; [|done]. unfold configurator_row, row_of. by destruct (configurator_spec r).
Qed.
End found.
