(* ===== verification/Http.v ===== *)
(** What a handler of the console hands to gin: pkg/console/model/common.go and
    pkg/console/util/error.go. *)
From S2P Require Import Prelude GoStrings Errors Resource Libs Indexers Store RuleService Manager.

Open Scope string_scope.
Open Scope list_scope.
Open Scope Z_scope.

(** ** model/common.go; [D] is what [Data] can hold. *)
Record CommonResp (D : Type) := { rsp_Code : string; rsp_Message : string; rsp_Data : option D }.
Arguments Build_CommonResp {D}. Arguments rsp_Code {D}. Arguments rsp_Message {D}. Arguments rsp_Data {D}.

Definition NewSuccessResp {D} (data : option D) : CommonResp D :=
  {| rsp_Code := "Success"; rsp_Message := "success"; rsp_Data := data |}.
Definition NewErrorResp {D} (msg : string) : CommonResp D :=
  {| rsp_Code := error_code_string UnknownError; rsp_Message := msg; rsp_Data := None |}.
(** The code and the message of a [bizerror.Error]. *)
Definition NewBizErrorResp {D} (err : ErrorCode * string) : CommonResp D :=
  {| rsp_Code := error_code_string err.1; rsp_Message := err.2; rsp_Data := None |}.

(** [errors.As] at a [bizerror.Error]. *)
Fixpoint as_biz (e : error) : option (ErrorCode * string) :=
  match e with
  | BizError _ code message => Some (code, message)
  | WrapError _ e => as_biz e
  | _ => None
  end.

(** ** gin

    [c.JSON], and the status [c.Bind] sends when it fails. *)
Inductive gin_call (D : Type) :=
| JSON (status : Z) (body : CommonResp D)
| AbortWithError (status : Z).
Arguments JSON {D}. Arguments AbortWithError {D}.

(** What a handler sends, in this order, before it returns or panics. *)
Record reply (D : Type) := { rp_sent : list (gin_call D); rp_panics : bool }.
Arguments Build_reply {D}. Arguments rp_sent {D}. Arguments rp_panics {D}.

Definition sent {D} (calls : list (gin_call D)) : reply D := {| rp_sent := calls; rp_panics := false |}.
Definition panicked {D} : reply D := {| rp_sent := []; rp_panics := true |}.
(** What was sent before the rest of the handler ran. *)
Definition after {D} (calls : list (gin_call D)) (r : reply D) : reply D :=
  {| rp_sent := calls ++ rp_sent r; rp_panics := rp_panics r |}.

Definition StatusOK : Z := 200.
Definition StatusBadRequest : Z := 400.

Definition success {D} (data : option D) : reply D := sent [JSON StatusOK (NewSuccessResp data)].
Definition bad_request {D} (msg : string) : reply D := sent [JSON StatusBadRequest (NewErrorResp msg)].
Definition plain_error {D} (e : error) : reply D := sent [JSON StatusOK (NewErrorResp (error_string e))].

(** ** util/error.go *)
Definition HandleServiceError {D} (e : error) : reply D :=
  sent [JSON StatusOK (NewBizErrorResp (default (UnknownError, error_string e) (as_biz e)))].
Definition HandleArgumentError {D} (e : error) : reply D :=
  sent [JSON StatusOK (NewBizErrorResp (InvalidArgument, error_string e))].
Definition HandleNotFoundError {D} (resName : string) : reply D :=
  sent [JSON StatusOK (NewBizErrorResp (NotFoundError, resName +:+ " not found"))].

(** The result of a service: an error is given to [failed], a nil dereference
    inside it leaves the handler. *)
Definition served {A D} (failed : error → reply D) (r : result error A) (k : A → reply D) : reply D :=
  match r with
  | Ok a => k a
  | Err e => if decide (e = nil_dereference) then panicked else failed e
  end.

(** ** What the client gets

    The first write fixes the status; the bodies follow each other. A panic
    before the first write is answered by the recovery of
    pkg/console/component.go. *)
Definition call_status {D} (c : gin_call D) : Z :=
  match c with JSON s _ => s | AbortWithError s => s end.
Definition bodies {D} (r : reply D) : list (CommonResp D) :=
  omap (λ c, match c with JSON _ b => Some b | AbortWithError _ => None end) (rp_sent r).
Definition status {D} (r : reply D) : Z :=
  match rp_sent r with
  | c :: _ => call_status c
  | [] => if rp_panics r then 500 else StatusOK
  end.
(** A body that parses: exactly one JSON value, and no panic. *)
Definition well_answered {D} (r : reply D) : Prop := length (bodies r) = 1%nat ∧ rp_panics r = false.
Definition succeeded {D} (r : reply D) : Prop := ∃ d, bodies r = [NewSuccessResp d] ∧ rp_panics r = false.

Lemma served_ok {A D} (failed : error → reply D) (r : result error A) k (P : reply D → Prop) :
  (∀ e, e ≠ nil_dereference → r = Err e → P (failed e)) → (∀ a, r = Ok a → P (k a)) →
  r ≠ Err nil_dereference → P (served failed r k).
Proof.
  intros Hf Hk Hn. unfold served. destruct r as [a|e]; [by apply Hk|]. case_decide; [by subst|by apply Hf].
Qed.

(** An answer whose codes are all error codes is no success. *)
Lemma failure_not_success {D} (calls : list (gin_call D)) panics :
  Forall (λ c, match c with JSON _ b => rsp_Code b ≠ "Success" | AbortWithError _ => True end) calls →
  ¬ succeeded {| rp_sent := calls; rp_panics := panics |}.
Proof.
  intros Hc (d & Hb & _). unfold bodies in Hb. cbn [rp_sent] in Hb. induction Hc as [|c l Hx Hc IH]; [done|].
  simpl in Hb. destruct c as [s b|s]; [|by apply IH]. injection Hb as -> _. by apply Hx.
Qed.

Lemma code_not_success c : error_code_string c ≠ "Success".
Proof. by destruct c. Qed.

(** Solves that an error or a panic is not a success. *)
Ltac not_success :=
  apply failure_not_success; simpl; repeat constructor; try apply code_not_success; try discriminate.
