(* ===== verification/RuleHandlers.v ===== *)
(** pkg/console/handler/configurator_rule.go, condition_rule.go and tag_rule.go:
    the requests on rules, over the services they call. *)
From S2P Require Import Prelude GoStrings Errors Resource Libs Indexers Store Versioning Gorm Lock RuleService Manager ServiceConfig ConsoleViews ConsoleQueries AppSettings RuleSearches Http.

Open Scope string_scope.
Open Scope list_scope.
Open Scope Z_scope.

(** What the answers carry. *)
Inductive rule_data :=
| ConfiguratorData (c : RespConfigurator) | ConditionData (c : ConditionRuleResp) | TagData (t : TagRuleResp)
| ConfiguratorPage (p : SearchPaginationResult ConfiguratorSearchResp)
| ConditionPage (p : SearchPaginationResult ConditionRuleSearchResp)
| TagPage (p : SearchPaginationResult TagRuleSearchResp)
| EmptyText.

(** A request on one rule: its path, its mesh, the user of its session and what
    gin binds of its body. *)
Record rule_request (B : Type) := {
  rq_ruleName : string; rq_mesh : string; rq_user : option string; rq_body : result error B }.
Arguments rq_ruleName {B}. Arguments rq_mesh {B}. Arguments rq_user {B}. Arguments rq_body {B}.

(** rule_version.go *)
Definition currentUser (user : option string) : string :=
  match user with
  | Some u => if decide (trim_space u ≠ "") then u else "system:unknown"
  | None => "system:unknown"
  end.
Definition mutationOptions {B} (c : rule_request B) : RuleMutationOptions :=
  {| opts_Author := currentUser (rq_user c) |}.

(** [New<Kind>ResourceWithAttributes], with the bound spec. *)
Definition requested {B} (c : rule_request B) (s : Spec) : Resource :=
  {| res_meta := {| meta_Name := rq_ruleName c; meta_Labels := Some ∅; meta_Annotations := None |};
     res_Mesh := rq_mesh c; res_spec := s |}.

Definition must_end (what suffix : string) : string := what +:+ " must end with " +:+ suffix.
Definition bad_name (status : Z) (what suffix : string) : reply rule_data :=
  sent [JSON status (NewBizErrorResp (InvalidArgument, must_end what suffix))].
(** [c.Bind] sends its status before the handler sees the error. *)
Definition bind_failed (r : reply rule_data) : reply rule_data := after [AbortWithError StatusBadRequest] r.
Definition not_found (ruleName : string) : gin_call rule_data :=
  JSON StatusOK (NewBizErrorResp (NotFoundError, ruleName +:+ " not found")).

Section handlers.
Context {S M : Type} `{ResourceStore S, ResourceManager M, !ReadOnlyResourceManager M}.
Context (protojson_Marshal : Spec → result error string) (json_canonical : string → result error string)
  (HashSpecJSON : string → string).
Context (ctx : nat → Ctx) (env : nat → nat → S → S) (now : nat → Z) (maxVersions : Z).
Context (lockMgr : option (string → option error)).
Context (IsBlank : string → bool) (creation_time : Resource → string).

Abbreviation state := (option S * M)%type.
Abbreviation createRule := (createRule protojson_Marshal json_canonical HashSpecJSON ctx env now maxVersions lockMgr).
Abbreviation updateRule := (updateRule protojson_Marshal json_canonical HashSpecJSON ctx env now maxVersions lockMgr).
Abbreviation deleteRule := (deleteRule protojson_Marshal json_canonical HashSpecJSON ctx env now maxVersions lockMgr).
Implicit Types st : state.

(** The answer to a mutation, after what was sent before. *)
Definition mutated (pre : list (gin_call rule_data)) (failed : error → reply rule_data) (ok : option rule_data)
    (r : state * option error) : state * reply rule_data :=
  (r.1, after pre match r.2 with
                  | None => success ok
                  | Some e => if decide (e = nil_dereference) then panicked else failed e
                  end).

(** ** configurator_rule.go *)
Definition ConfiguratorSearch st (bound : result error SearchReq) : state * reply rule_data :=
  (st, match bound with
       | Err e => bad_request (error_string e)
       | Ok req =>
           served HandleServiceError
             (if IsBlank (sq_Keywords req) then PageListConfiguratorRule st.2 req
              else SearchConfiguratorRuleByKeywords st.2 req)
             (λ p, success (Some (ConfiguratorPage p)))
       end).

Definition configurator_data (s : option DynamicConfig) : option rule_data := ConfiguratorData <$> GenDynamicConfigToResp s.
Definition configurator_name_text : string := "dynamic config name".

(** A rule that is not found is reported, then dereferenced. *)
Definition GetConfiguratorWithRuleName st (c : rule_request unit) : state * reply rule_data :=
  (st, if IsBlank (rq_ruleName c) then bad_request "ruleName cannot be empty"
       else if IsBlank (rq_mesh c) then bad_request "mesh cannot be empty"
       else
         served HandleServiceError (GetConfigurator st.2 (rq_ruleName c) (rq_mesh c)) (λ res,
           match res with
           | None => after [not_found (rq_ruleName c)] panicked
           | Some (_, s) => success (configurator_data s)
           end)).

(** Nor does the update stop when the rule is not found. *)
Definition PutConfiguratorWithRuleName st (c : rule_request DynamicConfig) : state * reply rule_data :=
  if has_suffix (rq_ruleName c) ConfiguratorRuleDotSuffix then
    match rq_body c with
    | Err e => (st, bind_failed (HandleArgumentError e))
    | Ok s =>
        match GetConfigurator st.2 (rq_ruleName c) (rq_mesh c) with
        | Err e => (st, if decide (e = nil_dereference) then panicked else HandleServiceError e)
        | Ok configurator =>
            let pre := match configurator with None => [not_found (rq_ruleName c)] | Some _ => [] end in
            mutated pre plain_error (configurator_data (Some s))
              (updateRule st (requested c (DynamicConfigSpec (Some s))) (mutationOptions c))
        end
    end
  else (st, bad_name StatusOK configurator_name_text ConfiguratorRuleDotSuffix).

Definition PostConfiguratorWithRuleName st (c : rule_request DynamicConfig) : state * reply rule_data :=
  if has_suffix (rq_ruleName c) ConfiguratorRuleDotSuffix then
    match rq_body c with
    | Err e => (st, bind_failed (HandleArgumentError e))
    | Ok s =>
        mutated [] plain_error (configurator_data (Some s))
          (createRule st (requested c (DynamicConfigSpec (Some s))) (mutationOptions c))
    end
  else (st, bad_name StatusBadRequest configurator_name_text ConfiguratorRuleDotSuffix).

Definition DeleteConfiguratorWithRuleName st (c : rule_request unit) : state * reply rule_data :=
  if has_suffix (rq_ruleName c) ConfiguratorRuleDotSuffix then
    mutated [] plain_error (Some EmptyText)
      (deleteRule st {| ref_Kind := DynamicConfigKind; ref_Mesh := rq_mesh c; ref_Name := rq_ruleName c |}
        (mutationOptions c))
  else (st, bad_name StatusOK configurator_name_text ConfiguratorRuleDotSuffix).

(** ** condition_rule.go *)
Definition ConditionRuleSearch st (bound : result error SearchReq) : state * reply rule_data :=
  (st, match bound with
       | Err e => bad_request (error_string e)
       | Ok req => served HandleServiceError (SearchConditionRules IsBlank creation_time st.2 req)
                     (λ p, success (Some (ConditionPage p)))
       end).

Definition condition_data (s : option ConditionRoute) : option rule_data := ConditionData <$> GenConditionRuleToResp s.

Definition GetConditionRuleWithRuleName st (c : rule_request unit) : state * reply rule_data :=
  (st, if has_suffix (rq_ruleName c) ConditionRuleDotSuffix then
         served HandleServiceError (GetConditionRule st.2 (rq_ruleName c) (rq_mesh c)) (λ res,
           match res with
           | None => sent [not_found (rq_ruleName c)]
           | Some (_, s) => success (condition_data s)
           end)
       else bad_request (must_end "ruleName" ConditionRuleDotSuffix)).

Definition PutConditionRuleWithRuleName st (c : rule_request ConditionRoute) : state * reply rule_data :=
  if has_suffix (rq_ruleName c) ConditionRuleDotSuffix then
    match GetConditionRule st.2 (rq_ruleName c) (rq_mesh c) with
    | Err e => (st, if decide (e = nil_dereference) then panicked else HandleServiceError e)
    | Ok None => (st, HandleNotFoundError (rq_ruleName c))
    | Ok (Some _) =>
        match rq_body c with
        | Err e => (st, HandleArgumentError e)
        | Ok s =>
            mutated [] HandleServiceError (condition_data (Some s))
              (updateRule st (requested c (ConditionRouteSpec (Some s))) (mutationOptions c))
        end
    end
  else (st, bad_name StatusBadRequest "ruleName" ConditionRuleDotSuffix).

Definition PostConditionRuleWithRuleName st (c : rule_request ConditionRoute) : state * reply rule_data :=
  if has_suffix (rq_ruleName c) ConditionRuleDotSuffix then
    match rq_body c with
    | Err e => (st, HandleArgumentError e)
    | Ok s =>
        mutated [] plain_error (condition_data (Some s))
          (createRule st (requested c (ConditionRouteSpec (Some s))) (mutationOptions c))
    end
  else (st, bad_name StatusBadRequest "ruleName" ConditionRuleDotSuffix).

Definition DeleteConditionRuleWithRuleName st (c : rule_request unit) : state * reply rule_data :=
  if has_suffix (rq_ruleName c) ConditionRuleDotSuffix then
    mutated [] plain_error (Some EmptyText)
      (deleteRule st {| ref_Kind := ConditionRouteKind; ref_Mesh := rq_mesh c; ref_Name := rq_ruleName c |}
        (mutationOptions c))
  else (st, bad_name StatusBadRequest "ruleName" ConditionRuleDotSuffix).

(** ** tag_rule.go *)
Definition TagRuleSearch st (bound : result error SearchReq) : state * reply rule_data :=
  (st, match bound with
       | Err e => bad_request (error_string e)
       | Ok req =>
           served HandleServiceError
             (if IsBlank (sq_Keywords req) then PageListTagRule st.2 req else SearchTagRuleByKeywords st.2 req)
             (λ p, success (Some (TagPage p)))
       end).

Definition tag_data (s : option TagRoute) : option rule_data := TagData <$> GenTagRouteResp s.

Definition GetTagRuleWithRuleName st (c : rule_request unit) : state * reply rule_data :=
  (st, if has_suffix (rq_ruleName c) TagRuleDotSuffix then
         served HandleServiceError (GetTagRule st.2 (rq_ruleName c) (rq_mesh c)) (λ res,
           match res with
           | None => HandleNotFoundError (rq_ruleName c)
           | Some (_, s) => success (tag_data s)
           end)
       else bad_name StatusBadRequest "ruleName" TagRuleDotSuffix).

Definition PutTagRuleWithRuleName st (c : rule_request TagRoute) : state * reply rule_data :=
  if has_suffix (rq_ruleName c) TagRuleDotSuffix then
    match GetTagRule st.2 (rq_ruleName c) (rq_mesh c) with
    | Err e => (st, if decide (e = nil_dereference) then panicked else HandleServiceError e)
    | Ok None => (st, HandleNotFoundError (rq_ruleName c))
    | Ok (Some _) =>
        match rq_body c with
        | Err e => (st, bind_failed (plain_error e))
        | Ok s =>
            mutated [] plain_error (tag_data (Some s))
              (updateRule st (requested c (TagRouteSpec (Some s))) (mutationOptions c))
        end
    end
  else (st, bad_name StatusBadRequest "ruleName" TagRuleDotSuffix).

Definition PostTagRuleWithRuleName st (c : rule_request TagRoute) : state * reply rule_data :=
  if has_suffix (rq_ruleName c) TagRuleDotSuffix then
    match rq_body c with
    | Err e => (st, bind_failed (plain_error e))
    | Ok s =>
        mutated [] plain_error (tag_data (Some s))
          (createRule st (requested c (TagRouteSpec (Some s))) (mutationOptions c))
    end
  else (st, bad_name StatusBadRequest "ruleName" TagRuleDotSuffix).

Definition DeleteTagRuleWithRuleName st (c : rule_request unit) : state * reply rule_data :=
  if has_suffix (rq_ruleName c) TagRuleDotSuffix then
    mutated [] plain_error (Some EmptyText)
      (deleteRule st {| ref_Kind := TagRouteKind; ref_Mesh := rq_mesh c; ref_Name := rq_ruleName c |}
        (mutationOptions c))
  else (st, bad_name StatusBadRequest "ruleName" TagRuleDotSuffix).

(** ** The routes of the rules (pkg/console/router/router.go) *)
Inductive rule_call :=
| SearchConfigurators (b : result error SearchReq) | GetConfiguratorRule (c : rule_request unit)
| PutConfigurator (c : rule_request DynamicConfig) | PostConfigurator (c : rule_request DynamicConfig)
| RemoveConfigurator (c : rule_request unit)
| SearchConditions (b : result error SearchReq) | GetCondition (c : rule_request unit)
| PutCondition (c : rule_request ConditionRoute) | PostCondition (c : rule_request ConditionRoute)
| RemoveCondition (c : rule_request unit)
| SearchTags (b : result error SearchReq) | GetTag (c : rule_request unit)
| PutTag (c : rule_request TagRoute) | PostTag (c : rule_request TagRoute) | RemoveTag (c : rule_request unit).

Definition handle_rule st (c : rule_call) : state * reply rule_data :=
  match c with
  | SearchConfigurators b => ConfiguratorSearch st b
  | GetConfiguratorRule c => GetConfiguratorWithRuleName st c
  | PutConfigurator c => PutConfiguratorWithRuleName st c
  | PostConfigurator c => PostConfiguratorWithRuleName st c
  | RemoveConfigurator c => DeleteConfiguratorWithRuleName st c
  | SearchConditions b => ConditionRuleSearch st b
  | GetCondition c => GetConditionRuleWithRuleName st c
  | PutCondition c => PutConditionRuleWithRuleName st c
  | PostCondition c => PostConditionRuleWithRuleName st c
  | RemoveCondition c => DeleteConditionRuleWithRuleName st c
  | SearchTags b => TagRuleSearch st b
  | GetTag c => GetTagRuleWithRuleName st c
  | PutTag c => PutTagRuleWithRuleName st c
  | PostTag c => PostTagRuleWithRuleName st c
  | RemoveTag c => DeleteTagRuleWithRuleName st c
  end.

(** ** What is answered is what was done *)
Inductive verb := Post | Put | Delete.

Definition mutation (v : verb) st (res : Resource) (opts : RuleMutationOptions) : state * option error :=
  match v with
  | Post => createRule st res opts
  | Put => updateRule st res opts
  | Delete => deleteRule st (ref_of res) opts
  end.

(** A call that changes a rule; with a body that binds, the change it asks for. *)
Definition is_write (c : rule_call) : bool :=
  match c with
  | PutConfigurator _ | PostConfigurator _ | RemoveConfigurator _ | PutCondition _ | PostCondition _
  | RemoveCondition _ | PutTag _ | PostTag _ | RemoveTag _ => true
  | _ => false
  end.
Definition asked {B} (v : verb) (spec : B → Spec) (c : rule_request B) : option (verb * Resource * RuleMutationOptions) :=
  match rq_body c with Ok b => Some (v, requested c (spec b), mutationOptions c) | Err _ => None end.
Definition removed (spec : Spec) (c : rule_request unit) : option (verb * Resource * RuleMutationOptions) :=
  Some (Delete, requested c spec, mutationOptions c).
Definition asked_of (c : rule_call) : option (verb * Resource * RuleMutationOptions) :=
  match c with
  | PutConfigurator c => asked Put (DynamicConfigSpec ∘ Some) c
  | PostConfigurator c => asked Post (DynamicConfigSpec ∘ Some) c
  | RemoveConfigurator c => removed (DynamicConfigSpec None) c
  | PutCondition c => asked Put (ConditionRouteSpec ∘ Some) c
  | PostCondition c => asked Post (ConditionRouteSpec ∘ Some) c
  | RemoveCondition c => removed (ConditionRouteSpec None) c
  | PutTag c => asked Put (TagRouteSpec ∘ Some) c
  | PostTag c => asked Post (TagRouteSpec ∘ Some) c
  | RemoveTag c => removed (TagRouteSpec None) c
  | _ => None
  end.

Definition rule_suffix (k : ResourceKind) : string :=
  match k with
  | DynamicConfigKind => ConfiguratorRuleDotSuffix
  | ConditionRouteKind => ConditionRuleDotSuffix
  | _ => TagRuleDotSuffix
  end.
(** What a success shows: the rule as it was sent, and nothing of a deleted one. *)
Definition shown (v : verb) (res : Resource) : option rule_data :=
  match v, res_spec res with
  | Delete, _ => Some EmptyText
  | _, DynamicConfigSpec s => configurator_data s
  | _, ConditionRouteSpec s => condition_data s
  | _, TagRouteSpec s => tag_data s
  | _, _ => None
  end.

(** Whether a rule that is to be updated is stored, as its service reads it. *)
Definition found st (res : Resource) : result error bool :=
  let name := res_Name res in
  let mesh := res_Mesh res in
  match res_kind res with
  | DynamicConfigKind => o ← GetConfigurator st.2 name mesh; Ok (bool_decide (is_Some o))
  | ConditionRouteKind => o ← GetConditionRule st.2 name mesh; Ok (bool_decide (is_Some o))
  | _ => o ← GetTagRule st.2 name mesh; Ok (bool_decide (is_Some o))
  end.

(** The requests that are well formed: the name of the rule ends as its kind
    requires and, for an update, the rule can be read; a condition or tag rule
    must be stored. *)
Definition admitted (v : verb) st (res : Resource) : bool :=
  has_suffix (res_Name res) (rule_suffix (res_kind res)) &&
  match v with
  | Put => match found st res with
           | Ok b => b || bool_decide (res_kind res = DynamicConfigKind)
           | Err _ => false
           end
  | _ => true
  end.

(** The call did nothing and says so, or it did what it was asked and its
    answer is the outcome. *)
Definition refused st (p : state * reply rule_data) : Prop := p.1 = st ∧ ¬ succeeded p.2.
Definition carried_out st v res opts (p : state * reply rule_data) : Prop :=
  p.1 = (mutation v st res opts).1 ∧
  match (mutation v st res opts).2 with
  | None => p.2 = success (shown v res)
  | Some _ => ¬ succeeded p.2
  end.

Ltac write_refused := first [split; [done|not_success] | split; [done|intros _; not_success]].

Lemma mutated_carried_out pre failed st v res opts :
  (∀ e, ∃ calls, failed e = sent calls ∧ Forall (λ c, match c with JSON _ b => rsp_Code b ≠ "Success" | _ => True end) calls) →
  Forall (λ c, match c with JSON _ b => rsp_Code b ≠ "Success" | AbortWithError _ => True end) pre →
  (pre ≠ [] → (mutation v st res opts).2 ≠ None) →
  carried_out st v res opts (mutated pre failed (shown v res) (mutation v st res opts)).
Proof.
  intros Hf Hp Hn. split; [done|]. unfold mutated. cbn [snd].
  destruct (mutation v st res opts).2 as [e|].
  - destruct (decide _) as [_|_]; [apply failure_not_success; by rewrite app_nil_r|].
    destruct (Hf e) as (calls & -> & Hc). apply failure_not_success. by apply Forall_app.
  - destruct pre as [|c l]; [done|]. by destruct (Hn ltac:(done)).
Qed.

Lemma plain_error_fails e : ∃ calls, @plain_error rule_data e = sent calls ∧
  Forall (λ c, match c with JSON _ b => rsp_Code b ≠ "Success" | _ => True end) calls.
Proof. eexists. split; [done|]. repeat constructor. simpl. discriminate. Qed.
Lemma service_error_fails e : ∃ calls, @HandleServiceError rule_data e = sent calls ∧
  Forall (λ c, match c with JSON _ b => rsp_Code b ≠ "Success" | _ => True end) calls.
Proof. eexists. split; [done|]. repeat constructor. apply code_not_success. Qed.

(** The update of a rule that is not there fails. *)
Lemma update_missing st res opts : rm_GetByKey st.2 (res_kind res) (ResourceKey res) = Ok None →
  (updateRule st res opts).2 ≠ None.
Proof.
  intros Hm. unfold RuleService.updateRule, withRuleLock. destruct lockMgr as [acquire|];
    [destruct (acquire _); [done|]|]; destruct st as [svc m]; simpl in Hm;
    unfold getExistingRule, getRuleIfExists;
    change (ref_Kind (ref_of res)) with (res_kind res); change (ref_key (ref_of res)) with (ResourceKey res); by rewrite Hm.
Qed.

Lemma update_missing_error st res opts : lockMgr = None → rm_GetByKey st.2 (res_kind res) (ResourceKey res) = Ok None →
  (updateRule st res opts).2 =
    Some (ErrorText (kind_string (res_kind res) +:+ " " +:+ ResourceKey res +:+ " does not exist")).
Proof.
  intros Hl Hm. unfold RuleService.updateRule, withRuleLock. rewrite Hl. destruct st as [svc m]. simpl in Hm.
  unfold getExistingRule, getRuleIfExists. change (ref_Kind (ref_of res)) with (res_kind res).
  change (ref_key (ref_of res)) with (ResourceKey res). by rewrite Hm.
Qed.

Lemma configurator_missing m name mesh : GetConfigurator m name mesh = Ok None →
  rm_GetByKey m DynamicConfigKind (BuildResourceKey mesh name) = Ok None.
Proof.
  unfold GetConfigurator. destruct (rm_GetByKey _ _ _) as [[r|]|e]; cbn [mbind result_bind]; [|done..].
  by destruct (res_spec r).
Qed.

(** C9: Every request on the rules answers what it did. A read changes neither
    the rules nor their history, nor does a write whose body does not bind, which
    never answers success. A write that binds is admitted exactly when the name
    of the rule ends as its kind requires and, for an update, the rule can be
    read and, unless it is a configurator, is stored. An admitted write is
    carried out, under the name of the user of the session: the rules and their
    history are those of the mutation, and it answers success, with the rule that
    was written, exactly when the mutation did not fail. A write that is not
    admitted changes nothing and does not answer success. *)
Theorem answers_what_it_did st c :
  match asked_of c with
  | None => (handle_rule st c).1 = st ∧ (is_write c = true → ¬ succeeded (handle_rule st c).2)
  | Some (v, res, opts) =>
      if admitted v st res then carried_out st v res opts (handle_rule st c) else refused st (handle_rule st c)
  end.
Proof.
  destruct c as [b|c|c|c|c|b|c|c|c|c|b|c|c|c|c]; try (split; [done|discriminate]); simpl; unfold asked;
    try (destruct (rq_body c) as [s|e] eqn:Hb).
  all: cbv beta delta [PutConfiguratorWithRuleName PostConfiguratorWithRuleName DeleteConfiguratorWithRuleName
    PutConditionRuleWithRuleName PostConditionRuleWithRuleName DeleteConditionRuleWithRuleName
    PutTagRuleWithRuleName PostTagRuleWithRuleName DeleteTagRuleWithRuleName]; rewrite ?Hb.
  all: try unfold admitted, found; cbn -[has_suffix GetConfigurator GetConditionRule GetTagRule];
    destruct (has_suffix (rq_ruleName c) _) eqn:Hs; [|write_refused]; cbn [andb].
  all: try (apply (mutated_carried_out [] _ st Post); auto using plain_error_fails; fail).
  all: try (apply (mutated_carried_out [] _ st Delete); auto using plain_error_fails; fail).
  all: try write_refused.
  - destruct (GetConfigurator st.2 (rq_ruleName c) (rq_mesh c)) as [[r|]|e] eqn:Hg; [..|case_decide; write_refused].
    + apply (mutated_carried_out [] _ st Put); auto using plain_error_fails.
    + apply (mutated_carried_out [_] _ st Put); auto using plain_error_fails.
      * repeat constructor. discriminate.
      * intros _. apply update_missing. by apply configurator_missing.
  - destruct (GetConditionRule st.2 (rq_ruleName c) (rq_mesh c)) as [[r|]|e]; [|write_refused|case_decide; write_refused].
    apply (mutated_carried_out [] _ st Put); auto using service_error_fails.
  - destruct (GetConditionRule st.2 (rq_ruleName c) (rq_mesh c)) as [[r|]|e']; [..|case_decide]; write_refused.
  - destruct (GetTagRule st.2 (rq_ruleName c) (rq_mesh c)) as [[r|]|e]; [|write_refused|case_decide; write_refused].
    apply (mutated_carried_out [] _ st Put); auto using plain_error_fails.
  - destruct (GetTagRule st.2 (rq_ruleName c) (rq_mesh c)) as [[r|]|e']; [..|case_decide]; write_refused.
Qed.

(** ** How often a request is answered *)
Definition silent (r : reply rule_data) : Prop := bodies r = [] ∧ rp_panics r = true.

Lemma once_served {A} failed (r : result error A) k :
  (∀ e, well_answered (failed e)) → (∀ a, well_answered (k a)) → well_answered (served failed r k) ∨ silent (served failed r k).
Proof. intros Hf Hk. unfold served. destruct r as [a|e]; [by left|]. case_decide; [by right|by left]. Qed.

Lemma once_mutated failed ok (r : state * option error) :
  (∀ e, well_answered (failed e)) → well_answered (mutated [] failed ok r).2 ∨ silent (mutated [] failed ok r).2.
Proof. intros Hf. unfold mutated. destruct r.2 as [e|]; [|by left]. simpl. case_decide; [by right|left; apply Hf]. Qed.

Definition only_configurators (c : rule_call) : bool :=
  match c with GetConfiguratorRule _ | PutConfigurator _ => true | _ => false end.

(** A request is answered by one body, unless the handler panics before it
    answers; the reading and the updating of configurators are exceptions. *)
Theorem answered_once st c : only_configurators c = false →
  well_answered (handle_rule st c).2 ∨ silent (handle_rule st c).2.
Proof.
  destruct c as [b|c|c|c|c|b|c|c|c|c|b|c|c|c|c]; intros Hc; try discriminate Hc; simpl.
  all: try (destruct b as [req|e]; [|by left]; by apply once_served).
  all: cbv beta delta [PostConfiguratorWithRuleName DeleteConfiguratorWithRuleName GetConditionRuleWithRuleName
    PutConditionRuleWithRuleName PostConditionRuleWithRuleName DeleteConditionRuleWithRuleName GetTagRuleWithRuleName
    PutTagRuleWithRuleName PostTagRuleWithRuleName DeleteTagRuleWithRuleName].
  all: destruct (has_suffix _ _); [|by left].
  all: try (by apply once_mutated).
  all: try (by destruct (rq_body c); [apply once_mutated|left]).
  all: try (apply once_served; [done|by intros [[]|]]).
  - destruct (GetConditionRule _ _ _) as [[]|]; [|by left|simpl; case_decide; [by right|by left]].
    destruct (rq_body c); [by apply once_mutated|by left].
  - destruct (GetTagRule _ _ _) as [[]|]; [|by left|simpl; case_decide; [by right|by left]].
    destruct (rq_body c); [by apply once_mutated|by left].
Qed.

(** A configurator that does not exist is answered twice when it is updated,
    the first time as not found, the second time with the error of the update;
    when it is read the handler panics after it answered. *)
Theorem missing_configurator_answered_twice st (c : rule_request DynamicConfig) s :
  has_suffix (rq_ruleName c) ConfiguratorRuleDotSuffix = true → rq_body c = Ok s →
  rm_GetByKey st.2 DynamicConfigKind (BuildResourceKey (rq_mesh c) (rq_ruleName c)) = Ok None → lockMgr = None →
  bodies (handle_rule st (PutConfigurator c)).2 =
    [NewBizErrorResp (NotFoundError, rq_ruleName c +:+ " not found");
     NewErrorResp (kind_string DynamicConfigKind +:+ " " +:+ BuildResourceKey (rq_mesh c) (rq_ruleName c) +:+ " does not exist")].
Proof.
  intros Hs Hb Hm Hl. simpl. unfold PutConfiguratorWithRuleName. rewrite Hs, Hb. unfold GetConfigurator. rewrite Hm.
  cbn [mbind result_bind]. unfold mutated.
  by rewrite (update_missing_error st (requested c (DynamicConfigSpec (Some s))) _ Hl Hm).
Qed.

Theorem missing_configurator_read_panics st (c : rule_request unit) :
  IsBlank (rq_ruleName c) = false → IsBlank (rq_mesh c) = false →
  rm_GetByKey st.2 DynamicConfigKind (BuildResourceKey (rq_mesh c) (rq_ruleName c)) = Ok None →
  (handle_rule st (GetConfiguratorRule c)).2 =
    {| rp_sent := [not_found (rq_ruleName c)]; rp_panics := true |}.
Proof.
  intros Hn Hm Hg. simpl. unfold GetConfiguratorWithRuleName. rewrite Hn, Hm. unfold GetConfigurator. by rewrite Hg.
Qed.
End handlers.

(** ** At a concrete manager *)
Module RuleHandlersExample.
Import VersioningExample RuleServiceExample.
#[local] Existing Instance RefStore.ops.
#[local] Existing Instance direct.

Definition put (name key : string) : rule_request ConditionRoute :=
  {| rq_ruleName := name; rq_mesh := "m"; rq_user := Some "ann";
     rq_body := match route key with ConditionRouteSpec (Some s) => Ok s | _ => Err (ErrorText "EOF") end |}.
Definition stored (key : string) : Resource :=
  {| res_meta := {| meta_Name := "shop.condition-router"; meta_Labels := None; meta_Annotations := None |};
     res_Mesh := "m"; res_spec := route key |}.
Definition run (st : option RefStore.store * RefStore.store) (c : rule_request ConditionRoute) :=
  PutConditionRuleWithRuleName marshal Ok hash calm alone (λ _, 9) 5 None st c.

(** The rule is written and shown; another name is refused; a missing rule is
    reported. *)
Example put_shown : bodies (run (Some none, rules [stored "x"]) (put "shop.condition-router" "y")).2 =
  [NewSuccessResp (shown Put (stored "y"))].
Proof. vm_compute. reflexivity. Qed.
Example put_elsewhere : run (Some none, rules [stored "x"]) (put "shop" "y") =
  ((Some none, rules [stored "x"]), bad_name 400 "ruleName" ".condition-router").
Proof. vm_compute. reflexivity. Qed.
Example put_missing : bodies (run (Some none, rules []) (put "shop.condition-router" "y")).2 =
  [NewBizErrorResp (NotFoundError, "shop.condition-router not found")].
Proof. vm_compute. reflexivity. Qed.
End RuleHandlersExample.
