(* ===== verification/VersionHandlers.v ===== *)
(** pkg/console/handler/rule_version.go: the requests on the history of a
    rule. *)
From S2P Require Import Prelude GoStrings Errors Resource Libs Indexers Store Versioning Gorm Lock RuleService Manager RuleHandlers Http.
From Stdlib Require Import Ascii.

Open Scope string_scope.
Open Scope list_scope.
Open Scope Z_scope.

(** ** pkg/console/model/rule_version.go *)
Record RuleVersionResp := {
  rvr_RuleKind : string; rvr_Mesh : string; rvr_ResourceKey : string; rvr_RuleName : string; rvr_VersionNo : Z;
  rvr_ContentHash : string; rvr_SpecJSON : string; rvr_Source : string; rvr_Operation : string; rvr_Author : string;
  rvr_Reason : string; rvr_RolledBackFromVersionNo : option Z; rvr_CreatedAt : Z; rvr_RecordedAt : Z;
  rvr_IsLatestRecorded : bool }.
Record RuleVersionListResp := {
  rvl_Items : list RuleVersionResp; rvl_Total : Z; rvl_LatestRecordedVersionNo : Z; rvl_LatestRecordedDeleted : bool }.
Record RuleVersionDiffSideResp := { rvs_VersionNo : Z; rvs_SpecJSON : string }.
Record RuleVersionDiffResp := { rvd_Left : RuleVersionDiffSideResp; rvd_Right : RuleVersionDiffSideResp }.
Record RollbackRuleVersionResp := { rbr_RolledBackFromVersionNo : Z; rbr_VersionNo : Z; rbr_Source : string }.

Inductive version_data :=
| VersionList (l : RuleVersionListResp) | VersionData (v : RuleVersionResp) | VersionDiff (d : RuleVersionDiffResp)
| RolledBack (r : RollbackRuleVersionResp).

(** ** handler/rule_version.go *)
Definition toRuleVersionResp (v : Version) : RuleVersionResp :=
  {| rvr_RuleKind := ver_RuleKind v; rvr_Mesh := ver_Mesh v; rvr_ResourceKey := ver_ResourceKey v;
     rvr_RuleName := ver_RuleName v; rvr_VersionNo := ver_VersionNo v; rvr_ContentHash := ver_ContentHash v;
     rvr_SpecJSON := ver_SpecJSON v; rvr_Source := ver_Source v; rvr_Operation := ver_Operation v;
     rvr_Author := ver_Author v; rvr_Reason := ver_Reason v;
     rvr_RolledBackFromVersionNo := ver_RolledBackFromVersionNo v; rvr_CreatedAt := ver_CreatedAt v;
     rvr_RecordedAt := ver_RecordedAt v; rvr_IsLatestRecorded := ver_IsLatestRecorded v |}.
Definition toRuleVersionListResp (r : ListResult) : RuleVersionListResp :=
  {| rvl_Items := toRuleVersionResp <$> lr_Items r; rvl_Total := lr_Total r;
     rvl_LatestRecordedVersionNo := lr_LatestRecordedVersionNo r;
     rvl_LatestRecordedDeleted := lr_LatestRecordedDeleted r |}.
Definition toRuleVersionDiffSideResp (s : DiffSide) : RuleVersionDiffSideResp :=
  {| rvs_VersionNo := ds_VersionNo s; rvs_SpecJSON := ds_SpecJSON s |}.
Definition toRuleVersionDiffResp (r : DiffResult) : RuleVersionDiffResp :=
  {| rvd_Left := toRuleVersionDiffSideResp (dr_Left r); rvd_Right := toRuleVersionDiffSideResp (dr_Right r) |}.
Definition toRollbackRuleVersionResp (r : RollbackResult) : RollbackRuleVersionResp :=
  {| rbr_RolledBackFromVersionNo := rb_RolledBackFromVersionNo r; rbr_VersionNo := rb_VersionNo r;
     rbr_Source := rb_Source r |}.

Definition maxRuleVersionReasonLength : nat := 1024.

Definition is_digit (c : Ascii.ascii) : bool :=
  bool_decide (48 <= Z.of_nat (Ascii.nat_of_ascii c) <= 57).
Fixpoint all_digits (s : string) : bool :=
  match s with EmptyString => true | String c s => is_digit c && all_digits s end.

Definition parsePositiveInt64 (raw : string) : result error Z :=
  if decide (raw = "") then Err (ErrorText "empty value")
  else if negb (all_digits raw) then Err (ErrorText "invalid decimal value")
  else if (1 <? String.length raw)%nat && has_prefix raw "0" then Err (ErrorText "invalid leading zero")
  else
    match ParseInt raw with
    | None => Err (ErrorText ("strconv.ParseInt: parsing " +:+ go_quote raw +:+ ": value out of range"))
    | Some value => if decide (value <= 0) then Err (ErrorText "value must be positive") else Ok value
    end.

(** [fmt.Errorf] wraps are looked through. *)
Definition versioningServiceError (e : error) : error :=
  if errors_is e ErrVersionNotFound then biz_new NotFoundError (error_string e)
  else if errors_is e ErrRollbackToDelete || errors_is e ErrRollbackToCurrent
  then biz_new InvalidArgument (error_string e)
  else match as_biz e with
       | Some (code, message) => biz_new code message
       | None => e
       end.
Definition version_error (e : error) : reply version_data := HandleServiceError (versioningServiceError e).

Definition writeVersioningInvalidArgument (message : string) : reply version_data :=
  sent [JSON StatusBadRequest (NewBizErrorResp (InvalidArgument, message))].

Definition validateRuleVersionReasonLength (reason : string) : option (reply version_data) :=
  if decide (String.length (trim_space reason) ≤ maxRuleVersionReasonLength)%nat then None
  else Some (writeVersioningInvalidArgument "reason must be at most 1024 characters").

(** A request on a version: the path, the query, the session and what is bound
    of the body. *)
Record version_request := {
  vr_kind : ResourceKind; vr_mesh : string; vr_ruleName : string; vr_versionNo : string; vr_against : string;
  vr_user : option string; vr_reason : result error string }.
Definition ruleRef (c : version_request) : RuleRef :=
  {| ref_Kind := vr_kind c; ref_Mesh := vr_mesh c; ref_Name := vr_ruleName c |}.

(** ** The number of a version *)
Lemma digit_value c : is_digit c = true → ∃ d : N, (d < 10)%N ∧ Z.of_nat (Ascii.nat_of_ascii c) - 48 = Z.of_N d ∧
  pretty_N_char d = c.
Proof.
  unfold is_digit. rewrite bool_decide_eq_true. intros Hc.
  exists (Z.to_N (Z.of_nat (Ascii.nat_of_ascii c) - 48)). split_and!; [lia|lia|].
  assert (Hn : ∃ n, (n < 10)%nat ∧ c = Ascii.ascii_of_nat (48 + n)).
  { exists (Ascii.nat_of_ascii c - 48)%nat. split; [lia|].
    replace (48 + _)%nat with (Ascii.nat_of_ascii c) by lia. by rewrite Ascii.ascii_nat_embedding. }
  destruct Hn as (n & Hn & ->). by do 10 (destruct n as [|n]; [done|]); lia.
Qed.

(** Digits read on from a value are the digits written before them. *)
Lemma pretty_digits s (acc : N) t v : (0 < acc)%N → all_digits s = true → parse_digits s (Z.of_N acc) = Some v →
  ∃ x, v = Z.of_N x ∧ (0 < x)%N ∧ pretty_N_go x t = pretty_N_go acc (s +:+ t).
Proof.
  revert acc. induction s as [|c s IH]; intros acc Ha Hd Hv; simpl in Hd, Hv.
  - injection Hv as <-. by exists acc.
  - apply andb_true_iff in Hd as [Hc Hd]. destruct (digit_value c Hc) as (d & Hlt & Hval & Hch).
    rewrite Hval, decide_True in Hv by lia. replace (Z.of_N acc * 10 + Z.of_N d) with (Z.of_N (acc * 10 + d)) in Hv by lia.
    destruct (IH (acc * 10 + d)%N ltac:(lia) Hd Hv) as (x & -> & Hx & Heq). exists x. split_and!; [done|done|].
    rewrite Heq, pretty_N_go_step by lia.
    assert (Hm : ((acc * 10 + d) `mod` 10 = d)%N) by (rewrite N.add_comm, N.Div0.mod_add; by apply N.mod_small).
    assert (Hq : ((acc * 10 + d) `div` 10 = acc)%N).
    { rewrite N.add_comm, N.div_add by lia. by rewrite N.div_small. }
    by rewrite Hm, Hq, Hch.
Qed.

Lemma all_digits_pretty_go (x : N) s : all_digits s = true → all_digits (pretty_N_go x s) = true.
Proof.
  revert s. induction (N.lt_wf_0 x) as [x _ IH]. intros s Hs.
  destruct (decide (x = 0%N)) as [->|Hx]; [by rewrite pretty_N_go_0|].
  rewrite pretty_N_go_step by lia. apply IH; [by apply N.div_lt; lia|]. simpl. rewrite Hs, andb_true_r.
  unfold is_digit. rewrite bool_decide_eq_true.
  assert (Hm : (x `mod` 10 < 10)%N) by (apply N.mod_lt; lia). pose proof (digit_char _ Hm) as Hd.
  revert Hm Hd. generalize (x `mod` 10)%N as d. intros d ??. lia.
Qed.

(** The text of a positive number starts with its first digit, not zero. *)
Lemma pretty_go_head (x : N) s : (0 < x)%N → ∃ c t, pretty_N_go x s = String c t ∧ c ≠ "0"%char.
Proof.
  revert s. induction (N.lt_wf_0 x) as [x _ IH]. intros s Hx. rewrite pretty_N_go_step by lia.
  destruct (decide (x `div` 10 = 0)%N) as [H0|H0].
  - rewrite H0, pretty_N_go_0. eexists _, _. split; [done|]. apply N.div_small_iff in H0; [|lia].
    rewrite N.mod_small by lia. intros Hc. pose proof (digit_char x H0) as Hd. rewrite Hc in Hd.
    change (0 = Z.of_N x) in Hd. lia.
  - apply IH; [by apply N.div_lt; lia|by apply N.neq_0_lt_0].
Qed.

(** The number of a version is a positive decimal string: it is accepted
    exactly when it is the decimal form of a positive 64 bit integer, without
    sign, leading zero or space, and its value is that integer. *)
Theorem parsePositiveInt64_exact raw n :
  parsePositiveInt64 raw = Ok n ↔ 0 < n <= i64_max ∧ raw = pretty n.
Proof.
  unfold parsePositiveInt64. split.
  - destruct (decide (raw = "")) as [|Hne]; [done|]. destruct (all_digits raw) eqn:Hd; [|done]. simpl.
    destruct (_ && _) eqn:Hz; [done|]. destruct (ParseInt raw) as [v|] eqn:Hp; [|done].
    case_decide as Hv; [done|]. intros [= <-].
    destruct raw as [|c s]; [done|]. simpl in Hd. apply andb_true_iff in Hd as [Hc Hd].
    destruct (digit_value c Hc) as (d & Hlt & Hval & Hch).
    assert (Hsign : (match String c s with String "-" d => (-1, d) | String "+" d => (1, d) | _ => (1, String c s) end)%char
      = (1, String c s)).
    { assert (c ≠ "-"%char ∧ c ≠ "+"%char) as [H1 H2] by (by split; intros ->).
      by destruct c as [[] [] [] [] [] [] [] []]. }
    unfold ParseInt in Hp. rewrite Hsign in Hp. cbv beta iota in Hp. rewrite decide_False in Hp by done.
    cbn [parse_digits] in Hp. rewrite Hval, decide_True in Hp by lia. rewrite Z.mul_0_l, Z.add_0_l in Hp.
    destruct (parse_digits s (Z.of_N d)) as [w|] eqn:Hw; [|done]. cbn [mbind option_bind] in Hp.
    case_decide as Hr; [|done]. injection Hp as <-. rewrite Z.mul_1_l in *.
    split; [lia|]. destruct (decide (d = 0%N)) as [->|Hd0].
    { (* a single zero *)
      replace c with "0"%char in Hz by (symmetry; by rewrite <-Hch). destruct s as [|c' s]; [|done].
      injection Hw as <-. lia. }
    destruct (pretty_digits s d "" w ltac:(lia) Hd Hw) as (x & -> & Hx & Heq).
    rewrite str_app_nil_r, (pretty_N_go_step d) in Heq by lia.
    rewrite N.div_small, pretty_N_go_0, N.mod_small, Hch in Heq by done.
    rewrite <-Heq. by destruct x.
  - intros [Hn ->]. destruct n as [|p|p]; [lia| |lia].
    change (pretty (Z.pos p)) with (pretty_N_go (N.pos p) "").
    destruct (pretty_go_head (N.pos p) "" ltac:(lia)) as (c & t & Hs & Hc). rewrite decide_False by (by rewrite Hs).
    rewrite all_digits_pretty_go by done. simpl.
    assert (has_prefix (pretty_N_go (N.pos p) "") "0" = false) as ->.
    { rewrite Hs. apply not_true_is_false. intros Hp%str_prefix_spec. destruct Hp as [t' Ht]. by injection Ht. }
    rewrite andb_false_r. change (pretty_N_go (N.pos p) "") with (pretty (Z.pos p)).
    rewrite ParseInt_pretty by (unfold in_i64, i64_min; lia). by rewrite decide_False by lia.
Qed.

Section handlers.
Context {S M : Type} `{ResourceStore S, ResourceManager M}.
Context (protojson_Marshal : Spec → result error string) (json_canonical : string → result error string)
  (HashSpecJSON : string → string)
  (protojson_Unmarshal json_Unmarshal : ResourceKind → string → result error Spec).
Context (ctx : nat → Ctx) (env : nat → nat → S → S) (now : nat → Z) (maxVersions : Z).
Context (lockMgr : option (string → option error)).

Abbreviation state := (option S * M)%type.
Implicit Types st : state.

Definition unavailable : reply version_data :=
  HandleServiceError (biz_new InternalError "rule history service is unavailable").
Definition ensureVersioningAvailable st (k : reply version_data) : reply version_data :=
  match st.1 with Some _ => k | None => unavailable end.
Definition parseVersionNo (c : version_request) (k : Z → reply version_data) : reply version_data :=
  match parsePositiveInt64 (vr_versionNo c) with
  | Ok n => k n
  | Err _ => writeVersioningInvalidArgument "versionNo must be a positive decimal string"
  end.

Definition ListRuleVersions_ st (c : version_request) : reply version_data :=
  ensureVersioningAvailable st
    (served version_error (ListRuleVersions st.1 (ruleRef c))
       (λ r, success (Some (VersionList (toRuleVersionListResp r))))).

Definition GetRuleVersion_ st (c : version_request) : reply version_data :=
  ensureVersioningAvailable st
    (parseVersionNo c (λ n,
       served version_error (GetRuleVersion st.1 (ruleRef c) n)
         (λ v, success (Some (VersionData (toRuleVersionResp v)))))).

Definition DiffRuleVersion_ st (c : version_request) : reply version_data :=
  ensureVersioningAvailable st
    (parseVersionNo c (λ n,
       served version_error
         (DiffRuleVersion protojson_Marshal json_canonical HashSpecJSON st (ruleRef c) n (vr_against c))
         (λ d, success (Some (VersionDiff (toRuleVersionDiffResp d)))))).

(** A result without error is never nil. *)
Definition RollbackRuleVersion_ st (c : version_request) : state * reply version_data :=
  match st.1, parsePositiveInt64 (vr_versionNo c), vr_reason c with
  | None, _, _ => (st, unavailable)
  | Some _, Err _, _ => (st, writeVersioningInvalidArgument "versionNo must be a positive decimal string")
  | Some _, Ok _, Err e => (st, writeVersioningInvalidArgument (error_string e))
  | Some _, Ok n, Ok reason =>
      match validateRuleVersionReasonLength reason with
      | Some r => (st, r)
      | None =>
          let '(st, r) := RollbackRuleVersion protojson_Marshal json_canonical HashSpecJSON protojson_Unmarshal
            json_Unmarshal ctx env now maxVersions lockMgr st (ruleRef c) n reason (currentUser (vr_user c)) in
          (st, served version_error r (λ r,
                 match r with
                 | Some r => success (Some (RolledBack (toRollbackRuleVersionResp r)))
                 | None => panicked
                 end))
      end
  end.

(** ** The rollback *)
Definition rollback st c n reason := RollbackRuleVersion protojson_Marshal json_canonical HashSpecJSON protojson_Unmarshal
  json_Unmarshal ctx env now maxVersions lockMgr st (ruleRef c) n reason (currentUser (vr_user c)).

(** What the handler accepts. *)
Definition acceptable st (c : version_request) (n : Z) (reason : string) : Prop :=
  is_Some st.1 ∧ 0 < n <= i64_max ∧ vr_versionNo c = pretty n ∧ vr_reason c = Ok reason ∧
  (String.length (trim_space reason) ≤ maxRuleVersionReasonLength)%nat.

Lemma biz_answer_fails status c : ¬ succeeded (sent [JSON status (@NewBizErrorResp version_data c)]).
Proof. intros (d & Hb & _). injection Hb as Hb _. by apply code_not_success in Hb. Qed.

(** C32: A request for a rollback that is not acceptable changes nothing and is
    answered with an error; an acceptable one is the rollback of the service,
    in the name of the user of the session, and answers success exactly when
    that succeeded. *)
Theorem rollback_answers st c :
  (∃ n reason, acceptable st c n reason ∧ (RollbackRuleVersion_ st c).1 = (rollback st c n reason).1 ∧
     (succeeded (RollbackRuleVersion_ st c).2 ↔ ∃ res, (rollback st c n reason).2 = Ok (Some res))) ∨
  ((∀ n reason, ¬ acceptable st c n reason) ∧ (RollbackRuleVersion_ st c).1 = st ∧
     ¬ succeeded (RollbackRuleVersion_ st c).2).
Proof.
  unfold RollbackRuleVersion_, acceptable. destruct st.1 as [svc|].
  2: { right. split_and!; [by intros ?? [[] _]|done|apply biz_answer_fails]. }
  destruct (parsePositiveInt64 (vr_versionNo c)) as [n|e] eqn:Hn.
  2: { right. split_and!; [|done|apply biz_answer_fails]. intros n r (_ & Hr & Hp & _).
       by rewrite (proj2 (parsePositiveInt64_exact _ n) (conj Hr Hp)) in Hn. }
  destruct (vr_reason c) as [reason|e].
  2: { right. split_and!; [|done|apply biz_answer_fails]. by intros ?? (_ & _ & _ & ? & _). }
  apply parsePositiveInt64_exact in Hn as [Hr Hp]. unfold validateRuleVersionReasonLength. case_decide as Hlen.
  2: { right. split_and!; [|done|apply biz_answer_fails]. by intros ?? (_ & _ & _ & [= <-] & ?). }
  left. exists n, reason. split; [by eauto|]. unfold rollback.
  destruct (RollbackRuleVersion _ _ _ _ _ _ _ _ _ _ _ _ _ _ _) as [st' [[res|]|e]]; simpl; (split; [done|]).
  - split; [by eauto|]. intros _. by eexists.
  - split; [by intros (? & [=] & _)|by intros [? ?]].
  - split; [|by intros [? ?]]. intros Hs. exfalso. revert Hs. case_decide; [by intros (? & [=] & _)|apply biz_answer_fails].
Qed.
End handlers.

(** ** Concrete numbers and reasons *)
Example numbers : parsePositiveInt64 <$> ["42"; "9223372036854775807"] = [Ok 42; Ok 9223372036854775807].
Proof. reflexivity. Qed.
Example not_numbers :
  ((λ s, match parsePositiveInt64 s with Ok _ => true | Err _ => false end) <$>
     [""; "0"; "007"; "+1"; "-1"; " 1"; "1.0"; "9223372036854775808"]) = repeat false 8.
Proof. reflexivity. Qed.

(** The length of a reason is counted in bytes: 513 letters of two bytes are
    too many. *)
Example long_reason : validateRuleVersionReasonLength
    (str_join "" (repeat (String (Ascii.ascii_of_nat 195) (String (Ascii.ascii_of_nat 169) "")) 513)) =
  Some (writeVersioningInvalidArgument "reason must be at most 1024 characters").
Proof. vm_compute. reflexivity. Qed.
