(* ===== verification/Overview.v ===== *)
(** The search field and the first page of the console:
    pkg/console/handler/search.go and overview.go. *)
From S2P Require Import Prelude GoStrings Errors Resource Libs Indexers Store Queries RuleService Manager Counter ConsoleViews ConsoleQueries RuleSearches Http.

Open Scope string_scope.
Open Scope list_scope.
Open Scope Z_scope.

(** ** search.go

    [model.SearchRes]; [None] stands for the nil result of a service that
    failed. *)
Record SearchRes := { sres_Find : bool; sres_Candidates : list string }.

Definition candidates {T} (name : T → string) (l : list T) : SearchRes :=
  match l with
  | [] => {| sres_Find := false; sres_Candidates := [] |}
  | _ => {| sres_Find := true; sres_Candidates := name <$> l |}
  end.
(** The error of the service is dropped and its nil page dereferenced. *)
Definition convertInstancesToSearchRes (r : result error (SearchPaginationResult SearchInstanceResp)) : option SearchRes :=
  match r with Ok p => Some (candidates sir_Name (sp_List p)) | Err _ => None end.
Definition convertServicesToSearchRes (r : result error (SearchPaginationResult ServiceSearchResp)) : option SearchRes :=
  match r with Ok p => Some (candidates ssr_ServiceName (sp_List p)) | Err _ => None end.
(** A nil slice is empty. *)
Definition convertApplicationsToSearchRes (r : result error (option (list ApplicationSearchResp))) : option SearchRes :=
  match r with
  | Ok apps => Some (candidates asr_AppName (default [] apps))
  | Err e => if decide (e = nil_dereference) then None else Some (candidates asr_AppName [])
  end.

Section search.
Context {M : Type} `{ReadOnlyResourceManager M} (IsBlank : string → bool) (cfg : AdminConfig).

(** The request for services has no mesh. *)
Definition global_search (m : M) (searchType : string) (req : SearchReq) : option (option SearchRes) :=
  if decide (searchType = "ip") then
    Some (convertInstancesToSearchRes (SearchInstanceByIp IsBlank cfg m (sq_Mesh req) (sq_Keywords req) (sq_PageReq req)))
  else if decide (searchType = "instanceName") then
    Some (convertInstancesToSearchRes (SearchInstanceByName IsBlank cfg m (sq_Mesh req) (sq_Keywords req) (sq_PageReq req)))
  else if decide (searchType = "appName") then
    Some (convertApplicationsToSearchRes (SearchApplicationsByKeywords cfg m (sq_Mesh req) (sq_Keywords req)))
  else if decide (searchType = "serviceName") then
    Some (convertServicesToSearchRes (SearchServicesByKeywords m "" (sq_Keywords req) (sq_PageReq req)))
  else None.

Definition BannerGlobalSearch (m : M) (searchType : string) (bound : result error SearchReq) : reply (PageData string) :=
  match bound with
  | Err e => bad_request (error_string e)
  | Ok req =>
      match global_search m searchType req with
      | None => bad_request "invalid search type"
      | Some None => panicked
      | Some (Some res) =>
          success (Some (NewPageData (Z.of_nat (length (sres_Candidates res))) (PageOffset (sq_PageReq req))
                           (PageSize (sq_PageReq req)) (sres_Candidates res)))
      end
  end.

(** Services are searched in no mesh, whatever mesh is asked for. *)
Theorem service_search_ignores_mesh m pr keywords mesh mesh' :
  BannerGlobalSearch m "serviceName" (Ok {| sq_PageReq := pr; sq_Keywords := keywords; sq_Mesh := mesh |}) =
  BannerGlobalSearch m "serviceName" (Ok {| sq_PageReq := pr; sq_Keywords := keywords; sq_Mesh := mesh' |}).
Proof. done. Qed.

(** A store that fails makes the search for instances or services panic. *)
Theorem failing_search_panics m searchType req : searchType ∈ ["ip"; "instanceName"; "serviceName"] →
  (∀ k cs pr, ∃ e, ro_PageListByIndexes m k cs pr = Err e) →
  BannerGlobalSearch m searchType (Ok req) = panicked.
Proof.
  intros Ht Hfail.
  assert (Hp : ∀ k cs pr, ∃ e, page_list_by_indexes m k cs pr = Err e).
  { intros k cs pr. unfold page_list_by_indexes. destruct (Hfail k cs pr) as [e ->].
    by eexists. }
  rewrite !elem_of_cons, elem_of_nil in Ht. unfold BannerGlobalSearch, global_search.
  destruct Ht as [->|[->|[->|[]]]]; simpl;
    unfold SearchInstanceByIp, SearchInstanceByName, SearchServicesByKeywords;
    match goal with |- context [page_list_by_indexes m ?k ?cs ?pr] => by destruct (Hp k cs pr) as [e ->] end.
Qed.
End search.

(** ** overview.go *)
Record OverviewResp := {
  ov_AppCount : Z; ov_ServiceCount : Z; ov_InsCount : Z;
  ov_Protocols : gmap string Z; ov_Releases : gmap string Z; ov_Discoveries : gmap string Z }.

Definition NewOverviewResp : OverviewResp :=
  {| ov_AppCount := 0; ov_ServiceCount := 0; ov_InsCount := 0; ov_Protocols := ∅; ov_Releases := ∅; ov_Discoveries := ∅ |}.

Section overview.
Context `{MapRange}.

Definition ClusterOverview (counterMgr : option counterManager) (mesh : string) : reply OverviewResp :=
  success (Some match counterMgr with
    | None => NewOverviewResp
    | Some cm =>
        if decide (mesh ≠ "") then
          {| ov_AppCount := CountByMesh cm (kind_string ApplicationKind) mesh;
             ov_ServiceCount := CountByMesh cm (kind_string ServiceProviderMetadataKind) mesh;
             ov_InsCount := CountByMesh cm (kind_string InstanceKind) mesh;
             ov_Protocols := DistributionByMesh cm (counterType_string ProtocolCounter) mesh;
             ov_Releases := DistributionByMesh cm (counterType_string ReleaseCounter) mesh;
             ov_Discoveries := DistributionByMesh cm (counterType_string DiscoveryCounter) mesh |}
        else
          {| ov_AppCount := Count cm (kind_string ApplicationKind);
             ov_ServiceCount := Count cm (kind_string ServiceProviderMetadataKind);
             ov_InsCount := Count cm (kind_string InstanceKind);
             ov_Protocols := Distribution cm (counterType_string ProtocolCounter);
             ov_Releases := Distribution cm (counterType_string ReleaseCounter);
             ov_Discoveries := Distribution cm (counterType_string DiscoveryCounter) |}
    end).

(** The numbers of the first page are those of the populations the counters
    agree with: over all meshes the sizes of the stores, in a mesh what they
    hold of it. A service counts once for each application that provides it. *)
Theorem overview_counts_populations cm mesh apps services instances :
  kind_ok cm (kind_string ApplicationKind) apps → fits apps →
  kind_ok cm (kind_string ServiceProviderMetadataKind) services → fits services →
  kind_ok cm (kind_string InstanceKind) instances → fits instances →
  Forall (λ k, is_Some (cm_simpleCounters cm !! kind_string k)) [ApplicationKind; ServiceProviderMetadataKind; InstanceKind] →
  ∃ o, ClusterOverview (Some cm) mesh = success (Some o) ∧
    let count m := Z.of_nat (if decide (mesh = "") then size m else tally (λ r, mesh_of r = or_default mesh) m) in
    ov_AppCount o = count apps ∧ ov_ServiceCount o = count services ∧ ov_InsCount o = count instances.
Proof.
  intros Ha Hfa Hs Hfs Hi Hfi Hreg. unfold ClusterOverview. eexists. split; [done|].
  assert (Hall : ∀ k m, kind_ok cm (kind_string k) m → fits m → is_Some (cm_simpleCounters cm !! kind_string k) →
    Count cm (kind_string k) = Z.of_nat (size m) ∧
    CountByMesh cm (kind_string k) mesh = Z.of_nat (tally (λ r, mesh_of r = or_default mesh) m)).
  { intros k m [Hc _ _] Hf [c Hk]. unfold Count, CountByMesh. rewrite Hk. split; [by apply Counter_Get_size; [apply Hc|]|].
    unfold Counter_GetByGroup, map_get. rewrite or_default_idemp. by rewrite (Hc c Hk), canon_default. }
  rewrite !Forall_cons in Hreg. destruct Hreg as (R1 & R2 & R3 & _).
  destruct (Hall _ _ Ha Hfa R1), (Hall _ _ Hs Hfs R2), (Hall _ _ Hi Hfi R3).
  destruct (decide (mesh = "")) as [->|Hm]; simpl.
  - done.
  - rewrite decide_True by done. done.
Qed.
End overview.
