(* ===== verification/PodInstances.v ===== *)
(** Pods of Kubernetes as runtime instances:
    pkg/engine/kubernetes/listerwatcher/runtime_instance.go and k8s_event.go,
    with the configuration of pkg/config/engine/config.go. *)
From S2P Require Import Prelude GoStrings Errors Resource Libs Indexers Store Queries EventBus Subscribers Instances ConsoleViews.

Open Scope string_scope.
Open Scope list_scope.
Open Scope Z_scope.

(** ** pkg/config/engine/config.go *)
Record KubernetesIdentifier := { ki_Type : string; ki_LabelKey : string; ki_AnnotationKey : string }.
Record MainContainerChooseStrategy := {
  mc_Type : string; mc_Index : Z; mc_Name : string; mc_AnnotationKey : string }.
Record Properties := {
  pr_DubboAppIdentifier : option KubernetesIdentifier;
  pr_DubboRPCPortIdentifier : option KubernetesIdentifier;
  pr_DubboDiscoveryIdentifier : option KubernetesIdentifier;
  pr_MainContainerChooseStrategy : option MainContainerChooseStrategy }.
Record EngineConfig := { ec_ID : string; ec_Name : string; ec_Type : string; ec_Properties : Properties }.

Definition config_error (text : string) : option error := Some (biz_new ConfigError text).
Definition Identifier_Validate (k : KubernetesIdentifier) : option error :=
  if decide (ki_Type k ∈ ["ByLabel"; "ByAnnotation"]) then None
  else config_error ("unsupported identifier type: " +:+ ki_Type k).
Definition Strategy_Validate (m : MainContainerChooseStrategy) : option error :=
  if decide (mc_Type m ∈ ["ByLast"; "ByIndex"; "ByName"; "ByAnnotation"]) then None
  else config_error ("unsupported main container choose strategy type: " +:+ mc_Type m).
(** The first error of the parts that are there. *)
Definition first_error (l : list (option error)) : option error := head (omap id l).
Definition Properties_Validate (p : Properties) : option error :=
  first_error [pr_DubboAppIdentifier p ≫= Identifier_Validate; pr_DubboRPCPortIdentifier p ≫= Identifier_Validate;
               pr_DubboDiscoveryIdentifier p ≫= Identifier_Validate;
               pr_MainContainerChooseStrategy p ≫= Strategy_Validate].
Definition Config_Validate (IsBlank : string → bool) (c : EngineConfig) : option error :=
  if IsBlank (ec_ID c) then config_error "engine id can not be empty"
  else if decide (ec_Type c ∈ ["kubernetes"; "mock"]) then Properties_Validate (ec_Properties c)
  else config_error ("engine type " +:+ ec_Type c +:+ " is not supported").

(** ** k8s.io/api/core/v1: what is read of a pod

    The port of a handler is its [IntVal]; the zero of a port given by name. *)
Record ProbeHandler := { ph_TCPSocket : option Z; ph_HTTPGet : option Z; ph_GRPC : option Z }.
Record Container := {
  ct_Name : string; ct_Image : string; ct_LivenessProbe : option ProbeHandler;
  ct_ReadinessProbe : option ProbeHandler; ct_StartupProbe : option ProbeHandler }.
(** The reason of a waiting container, the exit code of a terminated one. *)
Record ContainerStatus := { cs_Waiting : option string; cs_Terminated : option Z }.
Record PodCondition := {
  pc_Type : string; pc_Status : string; pc_LastTransitionTime : Z; pc_Reason : string; pc_Message : string }.
Record Pod := {
  pod_Name : string; pod_Labels : gmap string string; pod_Annotations : gmap string string;
  pod_CreationTimestamp : Z; pod_DeletionTimestamp : option Z;
  pod_OwnerReferences : list (string * string);   (* name and kind *)
  pod_NodeName : string; pod_Containers : list Container;
  pod_PodIP : string; pod_StartTime : option Z; pod_Phase : string; pod_Conditions : list PodCondition;
  pod_InitContainerStatuses : list ContainerStatus; pod_ContainerStatuses : list ContainerStatus }.

(** ** Phases *)
Definition pod_isPodReady (conditions : list PodCondition) : bool :=
  match head (filter (λ c, pc_Type c = "Ready") conditions) with
  | Some c => bool_decide (pc_Status c = "True")
  | None => false
  end.

Definition hasStartingContainerStatus (statuses : list ContainerStatus) : bool :=
  existsb (λ s, match cs_Waiting s with
                | Some reason => bool_decide (reason ∈ ["ContainerCreating"; "PodInitializing"])
                | None => false
                end) statuses.

Definition hasCrashingContainerStatus (statuses : list ContainerStatus) : bool :=
  existsb (λ s,
    match cs_Waiting s with
    | Some reason => bool_decide (reason ∈ ["CrashLoopBackOff"; "ImagePullBackOff"; "ErrImagePull"; "RunContainerError";
                                            "CreateContainerConfigError"; "CreateContainerError"; "StartError"])
    | None => false
    end ||
    match cs_Terminated s with Some code => bool_decide (code ≠ 0) | None => false end) statuses.

Definition derivePodPhase (pod : option Pod) : string :=
  match pod with
  | None => "Unknown"
  | Some pod =>
      if decide (is_Some (pod_DeletionTimestamp pod)) then "Terminating"
      else if hasCrashingContainerStatus (pod_InitContainerStatuses pod) ||
              hasCrashingContainerStatus (pod_ContainerStatuses pod) then "Crashing"
      else if decide (pod_Phase pod = "Pending") then
        if hasStartingContainerStatus (pod_InitContainerStatuses pod) ||
           hasStartingContainerStatus (pod_ContainerStatuses pod) then "Starting" else "Pending"
      else if decide (pod_Phase pod = "Running") then
        if pod_isPodReady (pod_Conditions pod) then "Running" else "Starting"
      else pod_Phase pod
  end.

(** ** The value [strconv.ParseInt] returns along with an error

    Zero for a text that is not a number, the bound of the type for one out of
    range; digits behind the point where it leaves the range are not read. *)
Fixpoint parse_uint (s : string) (acc : Z) : option Z :=
  match s with
  | EmptyString => Some acc
  | String c s =>
      let d := Z.of_nat (Ascii.nat_of_ascii c) - 48 in
      if decide (0 ≤ d ≤ 9) then
        let n := acc * 10 + d in if decide (n ≤ 2 ^ 64 - 1) then parse_uint s n else Some (2 ^ 64 - 1)
      else None
  end.
Definition ParseInt_value (s : string) : Z :=
  let '(sign, digits) :=
    match s with
    | String c d => if decide (c = Ascii.ascii_of_nat 45) then (-1, d)
                    else if decide (c = Ascii.ascii_of_nat 43) then (1, d) else (1, s)
    | _ => (1, s)
    end in
  if decide (digits = "") then 0
  else match parse_uint digits 0 with
       | Some n => Z.max i64_min (Z.min i64_max (sign * n))
       | None => 0
       end.

Section listerwatcher.
(** The configuration of the engine; [time.Time.Format]. *)
Context (cfg : EngineConfig) (Format : Z → string).

(** A container by index: out of range panics, and so does a missing strategy. *)
Definition out_of_range : error := ErrorText "runtime error: index out of range".
Definition container_at (containers : list Container) (i : Z) : result error (option Container) :=
  if decide (i < 0) then Err out_of_range
  else match containers !! Z.to_nat i with Some c => Ok (Some c) | None => Err out_of_range end.
Definition container_named (containers : list Container) (name : string) : option Container :=
  head (filter (λ c, ct_Name c = name) containers).

Definition getMainContainer (pod : Pod) : result error (option Container) :=
  let containers := pod_Containers pod in
  match pr_MainContainerChooseStrategy (ec_Properties cfg) with
  | None => Err nil_pointer
  | Some strategy =>
      if decide (mc_Type strategy = "ByLast") then container_at containers (Z.of_nat (length containers) - 1)
      else if decide (mc_Type strategy = "ByIndex") then container_at containers (mc_Index strategy)
      else if decide (mc_Type strategy = "ByName") then Ok (container_named containers (mc_Name strategy))
      else if decide (mc_Type strategy = "ByAnnotation") then
        Ok (value ← pod_Annotations pod !! mc_AnnotationKey strategy; container_named containers value)
      else Ok None
  end.

(** The text an identifier points at. *)
Definition identified (pod : Pod) (k : KubernetesIdentifier) (otherwise : string) : string :=
  if decide (ki_Type k = "ByAnnotation") then default "" (pod_Annotations pod !! ki_AnnotationKey k)
  else if decide (ki_Type k = "ByLabel") then default "" (pod_Labels pod !! ki_LabelKey k)
  else otherwise.

Definition getDubboAppName (pod : Pod) : string :=
  match pr_DubboAppIdentifier (ec_Properties cfg) with None => "" | Some k => identified pod k "" end.

Definition getDubboRPCPort (pod : Pod) : Z :=
  match pr_DubboRPCPortIdentifier (ec_Properties cfg) with
  | None => 0
  | Some k => if decide (ki_Type k = "ByAnnotation" ∨ ki_Type k = "ByLabel")
              then ParseInt_value (identified pod k "") else 0
  end.

Definition getDubboMesh (pod : Pod) : string :=
  match pr_DubboDiscoveryIdentifier (ec_Properties cfg) with
  | None => DefaultMesh
  | Some k => identified pod k DefaultMesh
  end.

Definition getProbePort (p : ProbeHandler) : Z :=
  match ph_TCPSocket p, ph_HTTPGet p, ph_GRPC p with
  | Some port, _, _ => port
  | None, Some port, _ => port
  | None, None, Some port => port
  | None, None, None => 0
  end.

Definition probe_of (type : string) (p : option ProbeHandler) : list Probe :=
  match p with Some p => [{| probe_Type := type; probe_Port := getProbePort p |}] | None => [] end.

Definition condition_of (c : PodCondition) : Condition :=
  {| cond_Type := pc_Type c; cond_Status := pc_Status c; cond_LastTransitionTime := Format (pc_LastTransitionTime c);
     cond_Reason := pc_Reason c; cond_Message := pc_Message c |}.

(** The last ready condition that is true counts. *)
Definition readyTime (pod : Pod) : string :=
  foldl (λ t c, if decide (pc_Type c = "Ready" ∧ pc_Status c = "True") then Format (pc_LastTransitionTime c) else t)
    "" (pod_Conditions pod).

Definition TransformFunc (pod : Pod) : result error Resource :=
  mainContainer ← getMainContainer pod;
  let owner := head (pod_OwnerReferences pod) in
  Ok {| res_meta := {| meta_Name := pod_Name pod; meta_Labels := Some ∅; meta_Annotations := None |};
        res_Mesh := getDubboMesh pod;
        res_spec := RuntimeInstanceSpec (Some {|
          rt_Name := pod_Name pod; rt_Ip := pod_PodIP pod; rt_RpcPort := getDubboRPCPort pod;
          rt_Image := match mainContainer with Some c => ct_Image c | None => "" end;
          rt_AppName := getDubboAppName pod;
          rt_CreateTime := Format (pod_CreationTimestamp pod);
          rt_StartTime := match pod_StartTime pod with Some t => Format t | None => "" end;
          rt_ReadyTime := readyTime pod; rt_Phase := derivePodPhase (Some pod);
          rt_WorkloadName := match owner with Some o => o.1 | None => "" end;
          rt_WorkloadType := match owner with Some o => o.2 | None => "" end;
          rt_Node := pod_NodeName pod;
          rt_Probes := match mainContainer with
                       | Some c => probe_of "liveness" (ct_LivenessProbe c) ++
                                   probe_of "readiness" (ct_ReadinessProbe c) ++
                                   probe_of "startup" (ct_StartupProbe c)
                       | None => []
                       end;
          rt_Conditions := condition_of <$> pod_Conditions pod;
          rt_SourceEngine := ec_ID cfg; rt_SourceEngineType := ec_Type cfg |}) |}.

(** An object of the informer: a pod, its resource, a tombstone around one of
    them, or something else. *)
Inductive object := PodObject (pod : Pod) | InstanceObject (r : Resource) | Tombstone (o : object) | Other (type : string).

Definition resourceKeyFromPod (pod : Pod) : string := BuildResourceKey (getDubboMesh pod) (pod_Name pod).

Fixpoint resourceKeyFromObject (o : object) : result error string :=
  match o with
  | Tombstone o => resourceKeyFromObject o
  | PodObject pod => Ok (resourceKeyFromPod pod)
  | InstanceObject r => Ok (ResourceKey r)
  | Other type => Err (NewAssertionError "Pod" type)
  end.

(** *** k8s_event.go

    The zero time has no text. *)
Record K8sEvent := {
  ke_Namespace : string; ke_Name : string; ke_Reason : string; ke_Message : string; ke_Type : string;
  ke_InvolvedKind : string; ke_InvolvedName : string; ke_Component : string; ke_Host : string;
  ke_FirstTimestamp : option Z; ke_LastTimestamp : option Z; ke_Count : Z }.

Definition event_TransformFunc (e : K8sEvent) : Resource :=
  {| res_meta := {| meta_Name := ke_Namespace e +:+ "/" +:+ ke_Name e; meta_Labels := Some ∅; meta_Annotations := None |};
     res_Mesh := ec_ID cfg;
     res_spec := LifecycleEventSpec (Some {|
       le_Namespace := ke_Namespace e; le_Reason := ke_Reason e; le_Message := ke_Message e; le_Type := ke_Type e;
       le_InvolvedObjKind := ke_InvolvedKind e; le_InvolvedObjName := ke_InvolvedName e;
       le_SourceComponent := ke_Component e; le_SourceHost := ke_Host e;
       le_FirstTimestamp := match ke_FirstTimestamp e with Some t => Format t | None => "" end;
       le_LastTimestamp := match ke_LastTimestamp e with Some t => Format t | None => "" end;
       le_Count := ke_Count e; le_EventSource := "KUBERNETES" |}) |}.
End listerwatcher.

(** ** What the console shows of a pod *)
Section shown.
Context (cfg : EngineConfig) (Format : Z → string) (IsBlank : string → bool).
(** [strutil.IsBlank] is false of words and true of the empty text. *)
Context (Hblank : IsBlank "" = true)
  (Hword : ∀ s, s ∈ ["Pending"; "Running"; "Failed"; "Succeeded"; "Unknown"; "Starting"; "Crashing"; "Terminating"] →
     IsBlank s = false).

Lemma ready_of_conditions cs i : inst_Conditions i = condition_of Format <$> cs → isPodReady i = pod_isPodReady cs.
Proof.
  intros Hi. unfold isPodReady, pod_isPodReady. rewrite Hi. clear Hi.
  induction cs as [|c cs IH]; [done|]. csimpl. destruct (decide (pc_Type c = "Ready")) as [He|He].
  - by rewrite !filter_cons_True.
  - by rewrite !filter_cons_False.
Qed.

Definition crashing (p : Pod) : bool :=
  hasCrashingContainerStatus (pod_InitContainerStatuses p) || hasCrashingContainerStatus (pod_ContainerStatuses p).

(** The state of an instance by what is known of its pod and its registration. *)
Definition expected_state (p : Pod) (i : Instance_) : string :=
  let registered := negb (IsBlank (inst_RegisterTime i)) in
  if decide (is_Some (pod_DeletionTimestamp p)) then "Terminating"
  else if crashing p then "Error"
  else if decide (pod_Phase p = "Running") then
    if pod_isPodReady (pod_Conditions p) then
      if registered then "Serving" else if IsBlank (inst_UnregisterTime i) then "Starting" else "Draining"
    else if registered then "Error" else "Starting"
  else if decide (pod_Phase p = "Pending") then if registered then "Error" else "Starting"
  else if decide (pod_Phase p ∈ ["Failed"; "Succeeded"]) then "Error"
  else if registered then "Serving" else "Unknown".

Definition phases : list string := ["Pending"; "Running"; "Failed"; "Succeeded"; "Unknown"; ""].

(** The states by the deployment alone. *)
Lemma lifecycle_by_deploy i d : lifecycle_state IsBlank i = DeriveInstanceLifecycleState IsBlank (Some i) d (register_state IsBlank i) →
  deploy_state IsBlank i = d → d ∈ ["Pending"; "Running"; "Failed"; "Succeeded"; "Unknown"; "Starting"; "Crashing"; "Terminating"] →
  let registered := negb (IsBlank (inst_RegisterTime i)) in
  lifecycle_state IsBlank i =
    if decide (d = "Terminating") then "Terminating"
    else if decide (d ∈ ["Crashing"; "Failed"; "Succeeded"]) then "Error"
    else if decide (d = "Unknown") then if registered then "Serving" else "Unknown"
    else if decide (d = "Running") then
      if registered then "Serving" else if IsBlank (inst_UnregisterTime i) then "Starting" else "Draining"
    else if registered then "Error" else "Starting".
Proof.
  intros -> _ Hd. unfold register_state, DeriveInstanceRegisterState, DeriveInstanceLifecycleState.
  generalize (IsBlank (inst_RegisterTime i)) (IsBlank (inst_UnregisterTime i)). intros reg unreg.
  repeat (apply elem_of_cons in Hd as [->|Hd]); [..|by apply elem_of_nil in Hd];
    destruct reg, unreg; vm_compute; reflexivity.
Qed.

Definition deployed (p : Pod) : string :=
  if decide (derivePodPhase (Some p) = "") then "Unknown" else derivePodPhase (Some p).

Lemma running_ready p : derivePodPhase (Some p) = "Running" → pod_Phase p ∈ phases → pod_isPodReady (pod_Conditions p) = true.
Proof.
  unfold derivePodPhase. intros Hr Hp. destruct (decide (is_Some _)); [done|]. fold (crashing p) in Hr.
  destruct (crashing p); [done|]. destruct (decide (pod_Phase p = "Pending")) as [|Hn]; [by destruct (_ || _)|].
  destruct (decide (pod_Phase p = "Running")); [by destruct (pod_isPodReady _)|done].
Qed.

Lemma deployed_known p : pod_Phase p ∈ phases →
  deployed p ∈ ["Pending"; "Running"; "Failed"; "Succeeded"; "Unknown"; "Starting"; "Crashing"; "Terminating"].
Proof.
  intros Hp. unfold deployed, derivePodPhase. apply (bool_decide_eq_true_1 _).
  destruct (decide (is_Some _)); [done|]. fold (crashing p). destruct (crashing p); [done|].
  generalize (pod_isPodReady (pod_Conditions p))
    (hasStartingContainerStatus (pod_InitContainerStatuses p) || hasStartingContainerStatus (pod_ContainerStatuses p)).
  intros ready starting. generalize dependent (pod_Phase p). intros phase Hp.
  repeat (apply elem_of_cons in Hp as [->|Hp]); [..|by apply elem_of_nil in Hp];
    destruct ready, starting; vm_compute; reflexivity.
Qed.

Lemma expected_by_deploy p i : pod_Phase p ∈ phases →
  let registered := negb (IsBlank (inst_RegisterTime i)) in
  expected_state p i =
    let d := deployed p in
    if decide (d = "Terminating") then "Terminating"
    else if decide (d ∈ ["Crashing"; "Failed"; "Succeeded"]) then "Error"
    else if decide (d = "Unknown") then if registered then "Serving" else "Unknown"
    else if decide (d = "Running") then
      if registered then "Serving" else if IsBlank (inst_UnregisterTime i) then "Starting" else "Draining"
    else if registered then "Error" else "Starting".
Proof.
  intros Hp. unfold expected_state, deployed, derivePodPhase.
  generalize (IsBlank (inst_RegisterTime i)) (IsBlank (inst_UnregisterTime i)). intros reg unreg.
  destruct (decide (is_Some _)); [done|]. fold (crashing p). destruct (crashing p); [done|].
  generalize (pod_isPodReady (pod_Conditions p))
    (hasStartingContainerStatus (pod_InitContainerStatuses p) || hasStartingContainerStatus (pod_ContainerStatuses p)).
  intros ready starting. generalize dependent (pod_Phase p). intros phase Hp.
  repeat (apply elem_of_cons in Hp as [->|Hp]); [..|by apply elem_of_nil in Hp];
    destruct ready, starting; vm_compute; reflexivity.
Qed.

(** the console shows of a pod what Kubernetes reports. A pod becomes a
    runtime instance under the key the informer knows the pod by; and whatever
    instance it is merged into, the state shown afterwards is determined by the
    pod and the registration: serving only if registered, and not if the pod is
    deleted, crashing, pending or running but not ready; a pod of unknown phase
    counts as serving as long as it is registered. *)
Theorem pod_states_shown p rt inst i : TransformFunc cfg Format p = Ok rt → instance_spec inst = Some i →
  pod_Phase p ∈ phases →
  ResourceKey rt = resourceKeyFromPod cfg p ∧
  ∃ inst' i', MergeRuntimeInstanceIntoInstance rt inst = Ok inst' ∧ instance_spec inst' = Some i' ∧
    ResourceKey inst' = ResourceKey inst ∧ lifecycle_state IsBlank i' = expected_state p i.
Proof using Hblank Hword.
  intros Hrt Hi Hphase. unfold TransformFunc in Hrt. apply bind_Ok in Hrt as (c & _ & [= <-]).
  split; [done|]. unfold MergeRuntimeInstanceIntoInstance. rewrite Hi. cbn [runtime_spec res_spec].
  eexists _, _. split; [done|]. split; [done|]. split; [done|].
  set (i' := merge_workload _ i).
  assert (Hready : isPodReady i' = pod_isPodReady (pod_Conditions p)) by by apply ready_of_conditions.
  assert (Hstate : inst_DeployState i' = derivePodPhase (Some p)) by done.
  assert (Hreg : inst_RegisterTime i' = inst_RegisterTime i ∧ inst_UnregisterTime i' = inst_UnregisterTime i) by done.
  clearbody i'. destruct Hreg as [Hr Hu].
  assert (Hd : deploy_state IsBlank i' = deployed p).
  { pose proof (deployed_known p Hphase) as Hk. unfold deploy_state, DeriveInstanceDeployState, deployed in *.
    rewrite Hstate. destruct (decide (derivePodPhase (Some p) = "")) as [->|Hne]; [by rewrite Hblank|].
    rewrite Hword, Hready by done. destruct (decide (derivePodPhase (Some p) = "Running")) as [Hrun|]; [|done].
    by rewrite (running_ready p). }
  assert (Hl : lifecycle_state IsBlank i' = DeriveInstanceLifecycleState IsBlank (Some i') (deployed p) (register_state IsBlank i'))
    by (unfold lifecycle_state; by rewrite Hd).
  rewrite (lifecycle_by_deploy i' (deployed p) Hl Hd (deployed_known p Hphase)), Hr, Hu.
  by rewrite (expected_by_deploy p i Hphase).
Qed.
End shown.

(** ** A pod whose container restarts, and one of unknown phase *)
Module PodExample.
Definition blank (s : string) : bool := bool_decide (s = "").
Definition engine : EngineConfig :=
  {| ec_ID := "k8s"; ec_Name := "cluster"; ec_Type := "kubernetes";
     ec_Properties := {|
       pr_DubboAppIdentifier := Some {| ki_Type := "ByLabel"; ki_LabelKey := "app"; ki_AnnotationKey := "" |};
       pr_DubboRPCPortIdentifier := Some {| ki_Type := "ByAnnotation"; ki_LabelKey := ""; ki_AnnotationKey := "port" |};
       pr_DubboDiscoveryIdentifier := None;
       pr_MainContainerChooseStrategy := Some {| mc_Type := "ByIndex"; mc_Index := 0; mc_Name := ""; mc_AnnotationKey := "" |} |} |}.
Definition pod (phase : string) (statuses : list ContainerStatus) : Pod :=
  {| pod_Name := "shop-0"; pod_Labels := {["app" := "shop"]}; pod_Annotations := {["port" := "20880"]};
     pod_CreationTimestamp := 1; pod_DeletionTimestamp := None; pod_OwnerReferences := [("shop", "StatefulSet")];
     pod_NodeName := "n1";
     pod_Containers := [{| ct_Name := "main"; ct_Image := "shop:v1"; ct_LivenessProbe := None;
                           ct_ReadinessProbe := Some {| ph_TCPSocket := Some 20880; ph_HTTPGet := None; ph_GRPC := None |};
                           ct_StartupProbe := None |}];
     pod_PodIP := "10.0.0.7"; pod_StartTime := Some 2; pod_Phase := phase;
     pod_Conditions := [{| pc_Type := "Ready"; pc_Status := "True"; pc_LastTransitionTime := 3; pc_Reason := ""; pc_Message := "" |}];
     pod_InitContainerStatuses := []; pod_ContainerStatuses := statuses |}.
Definition registered : Instance_ :=
  set_registration (set_identity empty_instance "shop10.0.0.7:20880" "shop" "10.0.0.7" 20880)
    "3.2" "2024-05-01" "" "tri" "" "" ∅.
Definition stored : Resource :=
  with_instance (NewInstanceResourceWithAttributes "shop10.0.0.7:20880" "nacos") registered.
Definition shown (p : Pod) : result error string :=
  rt ← TransformFunc engine pretty p; inst ← MergeRuntimeInstanceIntoInstance rt stored;
  match instance_spec inst with Some i => Ok (lifecycle_state blank i) | None => Err nil_pointer end.

Definition restarting : Pod := pod "Running" [{| cs_Waiting := Some "CrashLoopBackOff"; cs_Terminated := None |}].

Lemma pod_states_shown_witness :
  (∃ rt, TransformFunc engine pretty restarting = Ok rt ∧ ResourceKey rt = "default/shop-0" ∧
    ∃ inst' i', MergeRuntimeInstanceIntoInstance rt stored = Ok inst' ∧ instance_spec inst' = Some i' ∧
      ResourceKey inst' = ResourceKey stored ∧ lifecycle_state blank i' = expected_state blank restarting registered) ∧
  shown restarting = Ok "Error" ∧ shown (pod "Running" []) = Ok "Serving" ∧ shown (pod "Unknown" []) = Ok "Serving".
Proof.
  split; [|split_and!; vm_compute; reflexivity].
  assert (Hw : ∀ s, s ∈ ["Pending"; "Running"; "Failed"; "Succeeded"; "Unknown"; "Starting"; "Crashing"; "Terminating"] →
    blank s = false).
  { apply Forall_forall. repeat constructor. }
  eexists. split; [reflexivity|].
  destruct (pod_states_shown engine pretty blank eq_refl Hw restarting _ stored registered eq_refl eq_refl) as [Hk Hs].
  { unfold phases. right. left. }
  split; [exact (eq_trans Hk eq_refl)|exact Hs].
Defined.
End PodExample.
