(* ===== verification/EventTimeline.v ===== *)
(** The timeline of events the console shows for an application, an instance
    or a service: pkg/console/service/event.go. *)
From S2P Require Import Prelude GoStrings Errors Resource Libs Indexers Store Queries RuleService Manager Instances ServiceCatalog ConsoleViews ConsoleQueries RegistryEvents.

Open Scope string_scope.
Open Scope list_scope.
Open Scope Z_scope.

(** ** pkg/console/model/event.go *)
Record EventQueryReq := {
  er_AppName : string; er_InstanceName : string; er_InstanceIP : string; er_ServiceName : string;
  er_Mesh : string; er_PageReq : PageReq }.
Record EventItem := { ei_Time : string; ei_Type : string; ei_Message : string; ei_Source : string }.
Record EventListResp := { el_List : list EventItem; el_Total : Z }.

Definition defaultPageSize : Z := 20.

Definition event_spec (r : Resource) : option LifecycleEvent :=
  match res_spec r with LifecycleEventSpec s => s | _ => None end.

(** A candidate that ends with a slash or a dash is a prefix. *)
Definition candidate_matches (n candidate : string) : bool :=
  if has_suffix candidate "/" || has_suffix candidate "-" then has_prefix n candidate
  else bool_decide (n = candidate).
Definition name_matches (matchNames : list string) (r : Resource) : bool :=
  match event_spec r with
  | None => false
  | Some s => existsb (candidate_matches (le_InvolvedObjName s)) matchNames
  end.
Definition filterEventsByNames (resources : list Resource) (matchNames : list string) : list Resource :=
  filter (λ r, name_matches matchNames r = true) resources.

(** [filtered[offset:end]]; the sum may leave the range of int. *)
Definition out_of_bounds : error := ErrorText "runtime error: slice bounds out of range".
Definition page_of {A} (offset pageSize : Z) (l : list A) : result error (list A) :=
  let len := Z.of_nat (length l) in
  let offset := if decide (offset < 0) then 0 else offset in
  let offset := if decide (offset > len) then len else offset in
  let pageSize := if decide (pageSize ≤ 0) then defaultPageSize else pageSize in
  let end_ := i64 (offset + pageSize) in
  let end_ := if decide (end_ > len) then len else end_ in
  if decide (end_ < offset) then Err out_of_bounds
  else Ok (take (Z.to_nat (end_ - offset)) (drop (Z.to_nat offset) l)).

Definition event_item (s : LifecycleEvent) : EventItem :=
  {| ei_Time := le_LastTimestamp s;
     ei_Type := if decide (str_lower (le_Type s) = "warning") then "warning" else "normal";
     ei_Message := le_Message s;
     ei_Source := if decide (le_SourceComponent s = "") then le_EventSource s else le_SourceComponent s |}.
Definition toEventListResp (total : Z) (items : list Resource) : EventListResp :=
  {| el_List := omap (λ r, event_item <$> event_spec r) items; el_Total := total |}.

Section timeline.
Context {M : Type} `{ReadOnlyResourceManager M}.
Implicit Types m : M.

(** The names of the pods at an address, in any mesh. *)
Definition pod_names (rts : list Resource) : list string :=
  filter (λ n, n ≠ "") (omap (λ r, rt_Name <$> runtime_spec r) rts).
Definition pods_at m (ip : string) : list string :=
  match list_by_indexes m RuntimeInstanceKind [equals Instances.ByRuntimeInstanceIPIndex ip] with
  | Ok rts => pod_names rts
  | Err _ => []
  end.

(** Lists that fail are logged. *)
Definition resolveAppEventNames m (req : EventQueryReq) : list string :=
  if decide (er_AppName req = "") then []
  else
    [er_AppName req +:+ "/"; er_AppName req +:+ "-"] ++
    match list_by_indexes m InstanceKind (app_instances (er_Mesh req) (er_AppName req)) with
    | Ok instances =>
        filter (λ ip, ip ≠ "") (omap (λ r, inst_Ip <$> instance_spec r) instances) ≫= pods_at m
    | Err _ => []
    end.

Definition resolveInstanceEventNames m (req : EventQueryReq) : list string :=
  (if decide (er_InstanceName req ≠ "") then [er_InstanceName req] else []) ++
  (if decide (er_InstanceIP req ≠ "") then
     er_InstanceIP req ::
     (if decide (er_AppName req ≠ "") then [er_AppName req +:+ "/" +:+ er_InstanceIP req] else []) ++
     pods_at m (er_InstanceIP req)
   else []).

(** The rest of both handlers. *)
Definition list_events m (matchNames : list string) (req : EventQueryReq) : result error EventListResp :=
  resources ← list_by_indexes m LifecycleEventKind [equals Instances.ByMeshIndex (er_Mesh req)];
  let filtered := filterEventsByNames resources matchNames in
  paged ← page_of (PageOffset (er_PageReq req)) (PageSize (er_PageReq req)) filtered;
  Ok (toEventListResp (Z.of_nat (length filtered)) paged).

Definition ListApplicationEvents m (req : EventQueryReq) : result error EventListResp :=
  list_events m (resolveAppEventNames m req) req.
Definition ListInstanceEvents m (req : EventQueryReq) : result error EventListResp :=
  list_events m (resolveInstanceEventNames m req) req.

Definition ByLifecycleEventInvolvedObjName : string := "idx_lifecycle_event_involved_obj_name".
Definition ListServiceEvents m (req : EventQueryReq) : result error EventListResp :=
  pd ← page_list_by_indexes m LifecycleEventKind
         (equals Instances.ByMeshIndex (er_Mesh req) ::
          (if decide (er_ServiceName req ≠ "" ∧ er_AppName req ≠ "")
           then [has_prefix_of ByLifecycleEventInvolvedObjName (er_AppName req +:+ "/" +:+ er_ServiceName req)]
           else [])) (er_PageReq req);
  Ok (toEventListResp (pd_Total pd) (pd_Data pd)).
End timeline.

(** ** Pages *)
Lemma page_in_range {A} (l : list A) k size : 0 < size → Z.of_nat (length l) + size ≤ i64_max →
  page_of (Z.of_nat k * size) size l = Ok (take (Z.to_nat size) (drop (k * Z.to_nat size) l)).
Proof.
  intros Hs Hl. unfold page_of. set (len := Z.of_nat (length l)).
  rewrite (decide_False (P := Z.of_nat k * size < 0)) by nia. rewrite (decide_False (P := size ≤ 0)) by lia.
  assert (Hrange : ∀ o, 0 ≤ o ≤ len → i64 (o + size) = o + size).
  { intros o Ho. apply i64_id. unfold in_i64, i64_min, i64_max in *. lia. }
  destruct (decide (Z.of_nat k * size > len)) as [Hk|Hk].
  - rewrite Hrange by lia. destruct (decide (len + size > len)); [|lia]. rewrite decide_False by lia.
    rewrite !drop_ge by (unfold len in *; nia). by rewrite !take_nil.
  - rewrite Hrange by (unfold len in *; nia).
    replace (Z.to_nat (Z.of_nat k * size)) with (k * Z.to_nat size)%nat by nia.
    destruct (decide (Z.of_nat k * size + size > len)) as [He|He].
    + rewrite decide_False by lia. f_equal. rewrite !take_ge; [done|..]; rewrite length_drop; unfold len in *; nia.
    + rewrite decide_False by lia. do 2 f_equal. lia.
Qed.

Lemma concat_pages {A} (l : list A) n k :
  concat ((λ i, take n (drop (i * n) l)) <$> seq 0 k) = take (k * n) l.
Proof.
  induction k as [|k IH]; [done|]. rewrite seq_S, fmap_app, concat_app, IH. simpl. rewrite app_nil_r.
  rewrite (Nat.add_comm n), <-take_take_drop. done.
Qed.

Lemma all_pages {A} (l : list A) n : (0 < n)%nat →
  concat ((λ i, take n (drop (i * n) l)) <$> seq 0 (length l)) = l.
Proof. intros Hn. rewrite concat_pages, take_ge; [done|nia]. Qed.

(** ** The timeline is complete *)
Section complete.
Context {M : Type} `{ReadOnlyResourceManagerLaws M} (m : M).
Context (Hok : ro_ok m) (Hmesh : ro_indexers m LifecycleEventKind !! Instances.ByMeshIndex = Some ByMesh).

(** The events of a mesh that have one of the names, by key. *)
Definition matching (matchNames : list string) (mesh : string) : list Resource :=
  filterEventsByNames (query (ro_items m LifecycleEventKind)
    (all_are (ro_indexers m LifecycleEventKind) [(Instances.ByMeshIndex, mesh)])) matchNames.

Lemma elem_of_matching names mesh r : r ∈ matching names mesh ↔
  ro_items m LifecycleEventKind !! ResourceKey r = Some r ∧ res_Mesh r = mesh ∧
  ∃ s c, event_spec r = Some s ∧ c ∈ names ∧ candidate_matches (le_InvolvedObjName s) c = true.
Proof using Hok Hmesh.
  unfold matching, filterEventsByNames. rewrite list_elem_of_filter.
  rewrite elem_of_query by (intros k r' Hr; by apply (ro_items_key m LifecycleEventKind)).
  unfold all_are, index_is. cbn [forallb fst snd]. rewrite Hmesh, andb_true_r. unfold index_has, ByMesh, name_matches.
  rewrite bool_decide_eq_true, list_elem_of_singleton. destruct (event_spec r) as [s|]; [|naive_solver].
  rewrite existsb_exists. setoid_rewrite <-list_elem_of_In. naive_solver.
Qed.

Lemma matching_once names mesh : NoDup (ResourceKey <$> matching names mesh).
Proof using Hok.
  assert (Hq : ∀ l : list Resource, NoDup (ResourceKey <$> l) → NoDup (ResourceKey <$> filterEventsByNames l names)).
  { intros l. induction l as [|r l IH]; [done|]. csimpl. intros [Hr Hl]%NoDup_cons. unfold filterEventsByNames in *.
    rewrite filter_cons. destruct (decide _); [|by apply IH]. csimpl. apply NoDup_cons. split; [|by apply IH].
    intros (r' & Hr' & [_ Hin]%list_elem_of_filter)%list_elem_of_fmap. apply Hr. rewrite Hr'. by apply list_elem_of_fmap_2. }
  apply Hq. rewrite query_keys by (intros k r' Hr; by apply (ro_items_key m LifecycleEventKind)).
  rewrite sort_strings_perm. apply NoDup_query_keys.
Qed.

Lemma list_events_page names req k : let size := PageSize (er_PageReq req) in
  let l := matching names (er_Mesh req) in
  0 < size → Z.of_nat (length l) + size ≤ i64_max → PageOffset (er_PageReq req) = Z.of_nat k * size →
  list_events m names req =
    Ok (toEventListResp (Z.of_nat (length l)) (take (Z.to_nat size) (drop (k * Z.to_nat size) l))).
Proof using Hok Hmesh.
  intros size l Hs Hl Hk. unfold list_events, list_by_indexes, of_kind.
  pose proof (ro_ListByIndexes_spec m LifecycleEventKind [(Instances.ByMeshIndex, er_Mesh req)] Hok) as Hq.
  csimpl in Hq. rewrite Hq; clear Hq; [|done|by eapply indexed_by; [exact Hmesh|constructor]].
  cbn [mbind result_bind]. replace (forallb _ _) with true.
  2: { symmetry. apply forallb_forall. intros r Hr%list_elem_of_In. apply bool_decide_eq_true.
       rewrite elem_of_query in Hr by (intros k' r' Hr'; by apply (ro_items_key m LifecycleEventKind)).
       by destruct (ro_items_key m LifecycleEventKind _ _ Hok (proj1 Hr)). }
  cbn [mbind result_bind]. fold (matching names (er_Mesh req)). rewrite Hk. unfold size, l in *.
  by rewrite (page_in_range _ k _ Hs Hl).
Qed.

(** The request for page [k] of a size. *)
Definition at_page (req : EventQueryReq) (size : Z) (k : nat) : EventQueryReq :=
  {| er_AppName := er_AppName req; er_InstanceName := er_InstanceName req; er_InstanceIP := er_InstanceIP req;
     er_ServiceName := er_ServiceName req; er_Mesh := er_Mesh req;
     er_PageReq := {| PageOffset := Z.of_nat k * size; PageSize := size |} |}.

Lemma names_at_page req size k :
  resolveAppEventNames m (at_page req size k) = resolveAppEventNames m req ∧
  resolveInstanceEventNames m (at_page req size k) = resolveInstanceEventNames m req.
Proof. done. Qed.

Lemma items_app total (l l' : list Resource) :
  el_List (toEventListResp total (l ++ l')) = el_List (toEventListResp total l) ++ el_List (toEventListResp total l').
Proof. apply omap_app. Qed.

Lemma concat_items total (ls : list (list Resource)) :
  concat ((λ l, el_List (toEventListResp total l)) <$> ls) = el_List (toEventListResp total (concat ls)).
Proof.
  induction ls as [|l ls IH]; [done|]. rewrite fmap_cons. cbn [concat]. by rewrite IH, items_app.
Qed.

(** Pages of answers, put together. *)
Definition pages (answer : EventQueryReq → result error EventListResp) (req : EventQueryReq) (size : Z) (n : nat)
    : list EventItem :=
  concat ((λ k, match answer (at_page req size k) with Ok a => el_List a | Err _ => [] end) <$> seq 0 n).

Lemma pages_exact names req size : let l := matching names (er_Mesh req) in
  0 < size → Z.of_nat (length l) + size ≤ i64_max →
  (∀ k, is_ok (list_events m names (at_page req size k)) = true) ∧
  pages (list_events m names) req size (length l) = el_List (toEventListResp 0 l).
Proof using Hok Hmesh.
  intros l Hs Hl.
  assert (Hk : ∀ k, list_events m names (at_page req size k) =
    Ok (toEventListResp (Z.of_nat (length l)) (take (Z.to_nat size) (drop (k * Z.to_nat size) l)))).
  { intros k. by apply list_events_page. }
  split; [intros k; by rewrite Hk|]. unfold pages.
  transitivity (concat ((λ p, el_List (toEventListResp 0 p)) <$>
    ((λ k, take (Z.to_nat size) (drop (k * Z.to_nat size) l)) <$> seq 0 (length l)))).
  - rewrite <-list_fmap_compose. f_equal. apply list_fmap_ext. intros _ k _. by rewrite Hk.
  - rewrite concat_items, all_pages; [done|lia].
Qed.

(** An event of the registry about an application has its name in front. *)
Lemma recorded_name_matches Format t input : ri_InstanceIP input ≠ "" ∨ ri_ServiceName input ≠ "" →
  ∃ s, event_spec (lifecycle_event Format t input) = Some s ∧
    candidate_matches (le_InvolvedObjName s) (ri_AppName input +:+ "/") = true.
Proof.
  intros Hi. eexists. split; [done|]. simpl.
  assert (Hp : ∀ x, has_prefix (ri_AppName input +:+ "/" +:+ x) (ri_AppName input +:+ "/") = true).
  { intros x. apply str_prefix_spec. exists x. by rewrite <-str_app_assoc. }
  unfold candidate_matches, involvedObjName. rewrite has_suffix_snoc. simpl.
  destruct (decide (ri_InstanceIP input ≠ "")); [apply Hp|]. destruct (decide (ri_ServiceName input ≠ "")); [apply Hp|naive_solver].
Qed.

(** One about an address of an application has the name of the instance, which
    matches itself also when it is read as a prefix. *)
Lemma recorded_at_address Format t input : ri_InstanceIP input ≠ "" →
  ∃ s, event_spec (lifecycle_event Format t input) = Some s ∧
    candidate_matches (le_InvolvedObjName s) (ri_AppName input +:+ "/" +:+ ri_InstanceIP input) = true.
Proof.
  intros Hi. eexists. split; [done|]. simpl. unfold candidate_matches, involvedObjName. rewrite decide_True by done.
  case_match; [|by apply bool_decide_eq_true]. apply str_prefix_spec. exists "". by rewrite str_app_nil_r.
Qed.

(** C37: the timeline of an application is complete. The pages of any positive
    size, as long as the offsets stay in the range of int, all succeed and put
    together are, each once, the events of the mesh whose object has one of the
    names of the application, or begins with it when the name ends with a slash
    or a dash (so the timeline of shop also has the events of objects that begin
    with shop-). The pages of an instance are complete in the same sense, by the
    names of the instance. The stored events that the registry recorded for an
    instance or a service of the application, when the request names the
    application, are among those of the application; those it recorded for an
    address of the application, when the request names the application and the
    address, are among those of the instance. *)
Theorem timeline_complete req size : 0 < size →
  let check names answer :=
    let l := matching names (er_Mesh req) in Z.of_nat (length l) + size ≤ i64_max →
    (∀ k, is_ok (answer (at_page req size k)) = true) ∧
    pages answer req size (length l) = el_List (toEventListResp 0 l) ∧ NoDup (ResourceKey <$> l) ∧
    ∀ r, r ∈ l ↔ ro_items m LifecycleEventKind !! ResourceKey r = Some r ∧ res_Mesh r = er_Mesh req ∧
      ∃ s c, event_spec r = Some s ∧ c ∈ names ∧ candidate_matches (le_InvolvedObjName s) c = true in
  check (resolveAppEventNames m req) (ListApplicationEvents m) ∧
  check (resolveInstanceEventNames m req) (ListInstanceEvents m) ∧
  (∀ Format t input, let r := lifecycle_event Format t input in
     er_AppName req ≠ "" → ri_AppName input = er_AppName req → ri_Mesh input = er_Mesh req →
     ri_InstanceIP input ≠ "" ∨ ri_ServiceName input ≠ "" →
     ro_items m LifecycleEventKind !! ResourceKey r = Some r →
     r ∈ matching (resolveAppEventNames m req) (er_Mesh req) ∧
     (ri_InstanceIP input = er_InstanceIP req → er_InstanceIP req ≠ "" →
        r ∈ matching (resolveInstanceEventNames m req) (er_Mesh req))).
Proof using Hok Hmesh.
  intros Hs check. unfold check. clear check. split; [|split].
  - intros Hl. destruct (pages_exact (resolveAppEventNames m req) req size Hs Hl) as [Hk Hp].
    split; [intros k; apply Hk|]. split; [exact Hp|]. split; [apply matching_once|]. intros r. apply elem_of_matching.
  - intros Hl. destruct (pages_exact (resolveInstanceEventNames m req) req size Hs Hl) as [Hk Hp].
    split; [intros k; apply Hk|]. split; [exact Hp|]. split; [apply matching_once|]. intros r. apply elem_of_matching.
  - intros Format t input Hne Ha Hm Hi Hr. split.
    + apply elem_of_matching. split; [done|]. split; [done|].
      destruct (recorded_name_matches Format t input Hi) as (s & Hsp & Hc). exists s, (er_AppName req +:+ "/").
      rewrite <-Ha. split; [done|]. split; [|done]. unfold resolveAppEventNames. rewrite Ha, decide_False by done. left.
    + intros Hip Hn. apply elem_of_matching. split; [done|]. split; [done|].
      destruct (recorded_at_address Format t input) as (s & Hsp & Hc); [by rewrite Hip|].
      exists s, (er_AppName req +:+ "/" +:+ er_InstanceIP req). rewrite <-Ha, <-Hip. split; [done|]. split; [|done].
      unfold resolveInstanceEventNames. rewrite Ha, Hip, (decide_True (P := er_InstanceIP req ≠ "")) by done.
      rewrite (decide_True (P := er_AppName req ≠ "")) by done. apply elem_of_app. right. right. left.
Qed.
End complete.

(** ** Two recorded events and one of another application *)
Module EventTimelineExample.
#[local] Existing Instance RefStore.ops.
#[local] Existing Instance RefStore.laws.
#[local] Existing Instance RefStore_queries.
#[local] Existing Instance resources_reader.
#[local] Existing Instance resources_reader_laws.
#[local] Existing Instance ConsoleQueriesExample.no_writes.
Import ConsoleQueriesExample.

Definition input (app ip message : string) : RegistryEventInput :=
  {| ri_Mesh := "nacos"; ri_Source := "Nacos"; ri_SourceType := "nacos"; ri_Category := "registry";
     ri_Action := "registered"; ri_Message := message; ri_Type := ""; ri_AppName := app; ri_InstanceName := "";
     ri_InstanceIP := ip; ri_ServiceName := "" |}.
Definition recorded (t : Z) (app ip message : string) : Resource := lifecycle_event pretty t (input app ip message).

Definition events : resourcesManager (W := list Resource) (G := unit) :=
  {| rg_governors := ∅;
     rg_world := [instance "shop-1" "shop" "3.2" "shop:v1" "shop"; recorded 1 "shop" "10.0.0.1" "first";
                  recorded 2 "cart" "10.0.0.2" "other"; recorded 3 "shop" "10.0.0.3" "second"] |}.
Definition query_shop : EventQueryReq :=
  {| er_AppName := "shop"; er_InstanceName := ""; er_InstanceIP := "10.0.0.3"; er_ServiceName := ""; er_Mesh := "nacos";
     er_PageReq := {| PageOffset := 0; PageSize := 0 |} |}.

Lemma events_ok : ro_ok (M := resourcesManager) (H := resources_reader route page) events.
Proof.
  intros k. eexists. split; [reflexivity|]. split; [|done].
  intros key r Hr%elem_of_list_to_map_2%list_elem_of_fmap. destruct Hr as (x & [= -> ->] & [Hx _]%list_elem_of_filter).
  done.
Qed.

Lemma timeline_complete_witness :
  ei_Message <$> pages (ListApplicationEvents (H := resources_reader route page) events) query_shop 1 2 = ["first"; "second"] ∧
  ei_Message <$> pages (ListInstanceEvents (H := resources_reader route page) events) query_shop 1 2 = ["second"] ∧
  recorded 3 "shop" "10.0.0.3" "second" ∈
    matching (H := resources_reader route page) events (resolveAppEventNames (H := resources_reader route page) events query_shop) "nacos" ∧
  recorded 3 "shop" "10.0.0.3" "second" ∈
    matching (H := resources_reader route page) events (resolveInstanceEventNames (H := resources_reader route page) events query_shop) "nacos".
Proof.
  split; [vm_compute; reflexivity|]. split; [vm_compute; reflexivity|].
  destruct (timeline_complete (H := resources_reader route page) events events_ok eq_refl query_shop 1 eq_refl)
    as (_ & _ & Hr).
  destruct (Hr pretty 3 (input "shop" "10.0.0.3" "second")) as [Ha Hi]; [done|done|done|by left|vm_compute; reflexivity|].
  split; [exact Ha|by apply Hi].
Defined.
End EventTimelineExample.
