(* ===== verification/SettingsRequests.v ===== *)
(** The requests on the settings of services, applications and instances:
    pkg/console/handler/service.go, application.go and instance.go. *)
From S2P Require Import Prelude GoStrings Errors Resource Libs Indexers Store Versioning Gorm Lock RuleService Manager ConditionExpr ServiceMethods ServiceConfig ServiceSettings Instances ConsoleViews ConsoleQueries AppSettings AppReadBack Http.

Open Scope string_scope.
Open Scope list_scope.
Open Scope Z_scope.

(** What the answers carry. *)
Inductive setting :=
| TimeoutData (timeout : Z) | RetryData (retryTimes : Z) | RegionData (enabled : bool)
| RoutesData (routes : option (list ServiceArgument))
| AppAccessLogData (operatorLog : bool) | WeightsData (sets : list FlowWeightSet) | GrayData (sets : list GraySet)
| TrafficData (trafficDisable : bool) | OperatorLogData (operatorLog : bool)
| TrueData.

(** The parameters of a request; [c.Query] answers a missing one with the
    empty text. *)
Definition Query (q : gmap string string) (key : string) : string := default "" (q !! key).

(** strconv.ParseBool *)
Definition ParseBool (s : string) : result error bool :=
  if decide (s ∈ ["1"; "t"; "T"; "TRUE"; "true"; "True"]) then Ok true
  else if decide (s ∈ ["0"; "f"; "F"; "FALSE"; "false"; "False"]) then Ok false
  else Err (ErrorText ("strconv.ParseBool: parsing " +:+ go_quote s +:+ ": invalid syntax")).

(** The body of a setting of a service: its fields that the JSON has, the mesh
    only if it is there. *)
Record service_body (V : Type) := {
  sb_ServiceName : string; sb_Group : string; sb_Version : string; sb_Mesh : option string; sb_Value : V }.
Arguments sb_ServiceName {V}. Arguments sb_Group {V}. Arguments sb_Version {V}. Arguments sb_Mesh {V}. Arguments sb_Value {V}.

(** A request with parameters and what gin binds of its body. *)
Record put_request (B : Type) := { pq_query : gmap string string; pq_body : result error B }.
Arguments pq_query {B}. Arguments pq_body {B}.

(** The body is bound into a request that has the mesh of the parameters. *)
Definition bound_service {V} (q : gmap string string) (b : service_body V) : BaseServiceReq :=
  {| req_ServiceName := sb_ServiceName b; req_Group := sb_Group b; req_Version := sb_Version b;
     req_Mesh := default (Query q "mesh") (sb_Mesh b) |}.

Definition argument_error (msg : string) : reply setting := HandleArgumentError (ErrorText msg).
Definition invalid (err : ErrorCode * string) : reply setting := sent [JSON StatusBadRequest (NewBizErrorResp err)].
(** [c.Bind] sends its status before the handler sees the error. *)
Definition bind_aborted (r : reply setting) : reply setting := after [AbortWithError StatusBadRequest] r.

Section requests.
Context {S M : Type} `{ResourceStore S, ResourceManager M, !ReadOnlyResourceManager M}.
Context (protojson_Marshal : Spec → result error string) (json_canonical : string → result error string)
  (HashSpecJSON : string → string).
Context (ctx : nat → Ctx) (env : nat → nat → S → S) (now : nat → Z) (maxVersions : Z).
Context (lockMgr : option (string → option error)).
Context (touch : M → Resource → M) (IsBlank : string → bool) (cfg : AdminConfig).

Abbreviation state := (option S * M)%type.
Abbreviation UpsertTimeout := (UpInsertServiceConfigTimeoutConfig protojson_Marshal json_canonical HashSpecJSON
  ctx env now maxVersions lockMgr touch).
Abbreviation UpsertRetry := (UpInsertServiceRetryConfig protojson_Marshal json_canonical HashSpecJSON
  ctx env now maxVersions lockMgr touch).
Abbreviation UpsertRegion := (UpInsertServiceRegionPriorityConfig protojson_Marshal json_canonical HashSpecJSON
  ctx env now maxVersions lockMgr touch).
Abbreviation UpsertRoutes := (UpInsertServiceArgumentRouteConfig protojson_Marshal json_canonical HashSpecJSON
  ctx env now maxVersions lockMgr touch).
Abbreviation UpsertLog := (UpInsertAppAccessLog protojson_Marshal json_canonical HashSpecJSON ctx env now maxVersions
  lockMgr touch IsBlank cfg).
Abbreviation UpsertWeights := (UpInsertAppFlowWeightConfig protojson_Marshal json_canonical HashSpecJSON ctx env now
  maxVersions lockMgr touch IsBlank cfg).
Abbreviation UpsertGray := (UpInsertAppGrayConfig protojson_Marshal json_canonical HashSpecJSON ctx env now maxVersions
  lockMgr touch IsBlank cfg).
Abbreviation UpdateTraffic := (UpdateInstanceTrafficStatus protojson_Marshal json_canonical HashSpecJSON ctx env now
  maxVersions lockMgr touch).
Abbreviation UpdateLog := (UpdateInstanceAccessLogOpenStatus protojson_Marshal json_canonical HashSpecJSON ctx env now
  maxVersions lockMgr touch).
Implicit Types st : state.

(** The answers to a read and to a write. *)
Definition shown {A} (data : A → setting) (r : result error A) : reply setting :=
  served HandleServiceError r (λ a, success (Some (data a))).
Definition written (ok : option setting) (r : state * option error) : state * reply setting :=
  (r.1, match r.2 with
        | None => success ok
        | Some e => if decide (e = nil_dereference) then panicked else HandleServiceError e
        end).

(** ** model/service.go: [BaseServiceReq.Query] *)
Definition BaseServiceReq_Query (q : gmap string string) : result error BaseServiceReq :=
  let name := trim_space (Query q "serviceName") in
  if IsBlank name then Err (ErrorText "service name is empty")
  else Ok {| req_ServiceName := name; req_Group := trim_space (Query q "group");
             req_Version := trim_space (Query q "version"); req_Mesh := trim_space (Query q "mesh") |}.

Definition of_service (q : gmap string string) (failed : error → reply setting) (k : BaseServiceReq → reply setting)
    : reply setting :=
  match BaseServiceReq_Query q with Err e => failed e | Ok req => k req end.

Definition put_service {V} st (c : put_request (service_body V)) (failed : error → reply setting)
    (put : BaseServiceReq → V → state * option error) : state * reply setting :=
  match pq_body c with
  | Err e => (st, bind_aborted (failed e))
  | Ok b => written None (put (bound_service (pq_query c) b) (sb_Value b))
  end.
Definition plain_bad_request (e : error) : reply setting := bad_request (error_string e).

(** ** service.go *)
Definition ServiceConfigTimeoutGET st (q : gmap string string) : reply setting :=
  of_service q HandleArgumentError (λ req, shown TimeoutData (GetServiceTimeoutConfig st.2 req)).
Definition ServiceConfigTimeoutPUT st (c : put_request (service_body Z)) : state * reply setting :=
  put_service st c plain_bad_request (UpsertTimeout st).
Definition ServiceConfigRetryGET st (q : gmap string string) : reply setting :=
  of_service q HandleArgumentError (λ req, shown RetryData (GetServiceRetryConfig st.2 req)).
Definition ServiceConfigRetryPUT st (c : put_request (service_body Z)) : state * reply setting :=
  put_service st c HandleArgumentError (UpsertRetry st).
Definition ServiceConfigRegionPriorityGET st (q : gmap string string) : reply setting :=
  of_service q plain_bad_request (λ req, shown RegionData (GetServiceRegionPriorityConfig st.2 req)).
Definition ServiceConfigRegionPriorityPUT st (c : put_request (service_body bool)) : state * reply setting :=
  put_service st c plain_bad_request (UpsertRegion st).
Definition ServiceConfigArgumentRouteGET st (q : gmap string string) : reply setting :=
  of_service q HandleArgumentError (λ req, shown RoutesData (GetServiceArgumentRouteConfig st.2 req)).
Definition ServiceConfigArgumentRoutePUT st (c : put_request (service_body (list ServiceArgument))) : state * reply setting :=
  put_service st c HandleArgumentError (UpsertRoutes st).

(** ** application.go: both parameters are required, and not trimmed *)
Definition of_application {A} (q : gmap string string) (refuse : reply setting → A) (k : string → string → A) : A :=
  if IsBlank (Query q "appName") then refuse (argument_error "appName is required")
  else if IsBlank (Query q "mesh") then refuse (argument_error "mesh is required")
  else k (Query q "appName") (Query q "mesh").

Definition ApplicationConfigAccessLogPut st (q : gmap string string) : state * reply setting :=
  of_application q (pair st) (λ appName mesh,
    match ParseBool (Query q "operatorLog") with
    | Err e => (st, HandleArgumentError e)
    | Ok operatorLogOpen => written (Some TrueData) (UpsertLog st appName operatorLogOpen mesh)
    end).
Definition ApplicationConfigAccessLogGet st (q : gmap string string) : reply setting :=
  of_application q id (λ appName mesh, shown AppAccessLogData (GetAppAccessLog st.2 appName mesh)).
Definition ApplicationConfigFlowWeightGET st (q : gmap string string) : reply setting :=
  of_application q id (λ appName mesh, shown WeightsData (GetAppFlowWeight st.2 appName mesh)).
Definition ApplicationConfigFlowWeightPUT st (c : put_request (list FlowWeightSet)) : state * reply setting :=
  of_application (pq_query c) (pair st) (λ appName mesh,
    match pq_body c with
    | Err e => (st, bind_aborted (HandleArgumentError e))
    | Ok sets => written (Some TrueData) (UpsertWeights st appName mesh sets)
    end).
Definition ApplicationConfigGrayGET st (q : gmap string string) : reply setting :=
  of_application q id (λ appName mesh, shown GrayData (GetGrayConfig st.2 appName mesh)).
Definition ApplicationConfigGrayPUT st (c : put_request (list GraySet)) : state * reply setting :=
  of_application (pq_query c) (pair st) (λ appName mesh,
    match pq_body c with
    | Err e => (st, bind_aborted (HandleArgumentError e))
    | Ok sets => written (Some TrueData) (UpsertGray st appName mesh sets)
    end).

(** ** instance.go *)
Definition empty_argument (name : string) : reply setting := invalid (InvalidArgument, name +:+ " is empty").

(** The name of the application is trimmed when the traffic is set, not when
    it is read; the mesh is not checked. *)
Definition of_traffic {A} (q : gmap string string) (appName : string) (refuse : reply setting → A) (k : string → A) : A :=
  if IsBlank appName then refuse (empty_argument "appName")
  else
    let instanceIP := trim_space (Query q "instanceIP") in
    if IsBlank instanceIP then refuse (empty_argument "instanceIP") else k instanceIP.

Definition InstanceConfigTrafficDisableGET st (q : gmap string string) : reply setting :=
  let applicationName := Query q "appName" in
  of_traffic q applicationName id (λ instanceIP,
    shown TrafficData (GetInstanceTrafficStatus st.2 (Query q "mesh") applicationName instanceIP)).
Definition InstanceConfigTrafficDisablePUT st (q : gmap string string) : state * reply setting :=
  let appName := trim_space (Query q "appName") in
  of_traffic q appName (pair st) (λ instanceIP,
    match ParseBool (Query q "trafficDisable") with
    | Err e => (st, invalid (InvalidArgument, "parse trafficDisable failed"))
    | Ok disableTraffic => written None (UpdateTraffic st (Query q "mesh") appName instanceIP disableTraffic)
    end).

Definition InstanceConfigOperatorLogGET st (q : gmap string string) : reply setting :=
  if IsBlank (Query q "appName") then bad_request "application name is empty"
  else if IsBlank (Query q "instanceIP") then bad_request "instanceIP is empty"
  else if IsBlank (Query q "mesh") then bad_request "mesh is empty"
  else shown OperatorLogData (GetInstanceAccessLogOpenStatus st.2 (Query q "mesh") (Query q "appName") (Query q "instanceIP")).
Definition InstanceConfigOperatorLogPUT st (q : gmap string string) : state * reply setting :=
  if IsBlank (Query q "appName") then (st, bad_request "application name is empty")
  else if IsBlank (Query q "instanceIP") then (st, bad_request "instanceIP is empty")
  else
    match ParseBool (Query q "operatorLog") with
    | Err e => (st, bad_request (error_string e))
    | Ok openAccessLog =>
        if IsBlank (Query q "mesh") then (st, bad_request "mesh is empty")
        else written None (UpdateLog st (Query q "mesh") (Query q "appName") (Query q "instanceIP") openAccessLog)
    end.
End requests.


(** ** What the pages show after a change *)
Lemma error_no_success {D} e : ¬ succeeded (@HandleServiceError D e).
Proof. not_success. Qed.

Lemma argument_no_success {D} e : ¬ succeeded (@HandleArgumentError D e).
Proof. not_success. Qed.

Lemma written_succeeded {S M} ok (r : (option S * M) * option error) :
  succeeded (written ok r).2 → r = (r.1, None) ∧ (written ok r).1 = r.1.
Proof.
  destruct r as [st [e|]]; [|done]. unfold written. cbn [fst snd]. case_decide; [by intros (d & _ & ?)|].
  by intros ?%error_no_success.
Qed.

Section read_back.
Context {S M : Type} `{ResourceStore S, VisibleWrites M, !ReadOnlyResourceManager M}.
Context (protojson_Marshal : Spec → result error string) (json_canonical : string → result error string)
  (HashSpecJSON : string → string).
Context (ctx : nat → Ctx) (env : nat → nat → S → S) (now : nat → Z) (maxVersions : Z).
Context (lockMgr : option (string → option error)).
Context (touch : M → Resource → M) (touch_ok : ∀ m r, rm_ok m → rm_ok (touch m r)).
Context (IsBlank : string → bool) (cfg : AdminConfig).

Abbreviation TimeoutPUT := (ServiceConfigTimeoutPUT protojson_Marshal json_canonical HashSpecJSON ctx env now
  maxVersions lockMgr touch).
Abbreviation RetryPUT := (ServiceConfigRetryPUT protojson_Marshal json_canonical HashSpecJSON ctx env now
  maxVersions lockMgr touch).
Abbreviation LogPut := (ApplicationConfigAccessLogPut protojson_Marshal json_canonical HashSpecJSON ctx env now
  maxVersions lockMgr touch IsBlank cfg).
Abbreviation WeightPUT := (ApplicationConfigFlowWeightPUT protojson_Marshal json_canonical HashSpecJSON ctx env now
  maxVersions lockMgr touch IsBlank cfg).
Abbreviation GrayPUT := (ApplicationConfigGrayPUT protojson_Marshal json_canonical HashSpecJSON ctx env now
  maxVersions lockMgr touch IsBlank cfg).
Abbreviation TrafficPUT := (InstanceConfigTrafficDisablePUT protojson_Marshal json_canonical HashSpecJSON ctx env now
  maxVersions lockMgr touch IsBlank).

(** The parameters and the body name the same service. *)
Definition same_service {V} (c : put_request (service_body V)) (b : service_body V) : Prop :=
  pq_body c = Ok b ∧ BaseServiceReq_Query IsBlank (pq_query c) = Ok (bound_service (pq_query c) b).

Lemma service_page {V} (c : put_request (service_body V)) b failed failed' put (get : M → BaseServiceReq → result error V)
    data svc m :
  same_service c b →
  (∀ req st', put req (sb_Value b) = (st', None) → req = bound_service (pq_query c) b →
     get st'.2 req = Ok (sb_Value b)) →
  succeeded (put_service (S := S) (M := M) (svc, m) c failed put).2 →
  of_service IsBlank (pq_query c) failed'
    (λ req, shown data (get (put_service (svc, m) c failed put).1.2 req)) = success (Some (data (sb_Value b))).
Proof.
  intros [Hb Hq] Hget Hs. unfold of_service. rewrite Hq. revert Hs. unfold put_service. rewrite Hb.
  intros Hs. destruct (written_succeeded _ _ Hs) as [Hr ->].
  by rewrite (Hget _ _ Hr eq_refl).
Qed.

(** A request on an application that succeeds has both parameters. *)
Lemma application_page q st (put : string → string → (option S * M) * reply setting) :
  succeeded (of_application IsBlank q (pair st) put).2 →
  of_application IsBlank q (pair st) put = put (Query q "appName") (Query q "mesh") ∧
  ∀ get, of_application IsBlank q id get = get (Query q "appName") (Query q "mesh")  :> reply setting.
Proof.
  unfold of_application. destruct (IsBlank (Query q "appName")); [by intros ?%argument_no_success|].
  destruct (IsBlank (Query q "mesh")); [by intros ?%argument_no_success|]. by split.
Qed.

(** C34: The pages show what was set. When a request that sets the timeout or
    the retry count of a service, or the access log, the flow weights or the
    gray environments of an application, is answered with success, the next
    request that reads the setting with the same parameters is answered with
    success and the value that was set, and the entries that other settings of
    the application have in the rule are what they were. This is for a manager
    whose reads return a written resource as the same object (as those of the
    in-memory store do; a database store returns what its encoding keeps); for
    values and weights of 32 bits; for a body that names the service of the
    parameters, whose configurator, if there is one, is stored with a spec; for
    gray environments with a name; and for scopes in which every match has at
    most one field, which is not empty. *)
Theorem settings_pages_read_back svc m (Hok : rm_ok m) :
  (∀ c b, same_service c b → in_i32 (sb_Value b) →
     (∀ r, GetConfigurator m (configurator_name (bound_service (pq_query c) b)) (req_Mesh (bound_service (pq_query c) b))
       ≠ Ok (Some (r, None))) →
     (succeeded (TimeoutPUT (svc, m) c).2 →
        ServiceConfigTimeoutGET IsBlank (TimeoutPUT (svc, m) c).1 (pq_query c) = success (Some (TimeoutData (sb_Value b)))) ∧
     (succeeded (RetryPUT (svc, m) c).2 →
        ServiceConfigRetryGET IsBlank (RetryPUT (svc, m) c).1 (pq_query c) = success (Some (RetryData (sb_Value b))))) ∧
  (∀ q, succeeded (LogPut (svc, m) q).2 →
     ∃ open, ParseBool (Query q "operatorLog") = Ok open ∧
       ApplicationConfigAccessLogGet IsBlank (LogPut (svc, m) q).1 q = success (Some (AppAccessLogData open)) ∧
       let other := (λ c, isAppAccessLogConfig c (Query q "appName") = false) in
       filter other (configs_of (LogPut (svc, m) q).1.2 (Query q "appName") (Query q "mesh")) =
       filter other (configs_of m (Query q "appName") (Query q "mesh"))) ∧
  (∀ c sets, pq_body c = Ok sets → Forall plain_weight sets → succeeded (WeightPUT (svc, m) c).2 →
     ApplicationConfigFlowWeightGET IsBlank (WeightPUT (svc, m) c).1 (pq_query c) = success (Some (WeightsData sets)) ∧
     let other := (λ c, isFlowWeightConfig c = false) in
     filter other (configs_of (WeightPUT (svc, m) c).1.2 (Query (pq_query c) "appName") (Query (pq_query c) "mesh")) =
     filter other (configs_of m (Query (pq_query c) "appName") (Query (pq_query c) "mesh"))) ∧
  (∀ c sets, pq_body c = Ok sets → Forall plain_gray sets → succeeded (GrayPUT (svc, m) c).2 →
     ApplicationConfigGrayGET IsBlank (GrayPUT (svc, m) c).1 (pq_query c) = success (Some (GrayData sets)) ∧
     let other := (λ t, isGrayTag t = false) in
     filter other (tags_of (GrayPUT (svc, m) c).1.2 (Query (pq_query c) "appName") (Query (pq_query c) "mesh")) =
     filter other (tags_of m (Query (pq_query c) "appName") (Query (pq_query c) "mesh"))).
Proof using Type*.
  split_and!.
  - intros c b Hc Hv Hspec. split; intros Hs.
    + eapply service_page; [exact Hc| |exact Hs]. intros req st' Hp ->.
      by eapply timeout_reads.
    + eapply service_page; [exact Hc| |exact Hs]. intros req st' Hp ->.
      by eapply retry_reads.
  - intros q Hs. destruct (application_page _ _ _ Hs) as [Hp Hg]. unfold ApplicationConfigAccessLogGet. rewrite Hg.
    revert Hs. unfold ApplicationConfigAccessLogPut. rewrite Hp.
    destruct (ParseBool _) as [open|e]; [|intros Hs; destruct (argument_no_success _ Hs)].
    intros Hs. exists open. split; [done|]. destruct (written_succeeded _ _ Hs) as [Hr ->].
    apply access_log_reads in Hr as [Hr Hk]; [|done..]. by rewrite Hr.
  - intros c sets Hb Hw Hs. destruct (application_page _ _ _ Hs) as [Hp Hg]. unfold ApplicationConfigFlowWeightGET. rewrite Hg.
    revert Hs. unfold ApplicationConfigFlowWeightPUT. rewrite Hp, Hb. intros Hs.
    destruct (written_succeeded _ _ Hs) as [Hr ->]. apply weights_read in Hr as [Hr Hk]; [|done..]. by rewrite Hr.
  - intros c sets Hb Hw Hs. destruct (application_page _ _ _ Hs) as [Hp Hg]. unfold ApplicationConfigGrayGET. rewrite Hg.
    revert Hs. unfold ApplicationConfigGrayPUT. rewrite Hp, Hb. intros Hs.
    destruct (written_succeeded _ _ Hs) as [Hr ->]. apply gray_reads in Hr as [Hr Hk]; [|done..]. by rewrite Hr.
Qed.
End read_back.

(** ** At a concrete manager *)
Module SettingsRequestsExample.
Import VersioningExample RuleServiceExample ServiceSettingsExample AppSettingsExample.
#[local] Existing Instance RefStore.ops.
#[local] Existing Instance RefStore.laws.
#[local] Existing Instance direct.
#[local] Existing Instance direct_laws.
#[local] Existing Instance direct_visible.
#[local] Existing Instance rules_reader.

Definition service_params (name : string) : gmap string string := {[ "serviceName" := name; "mesh" := "m" ]}.
Definition service_put (name : string) : put_request (service_body Z) :=
  {| pq_query := service_params name;
     pq_body := Ok {| sb_ServiceName := name; sb_Group := ""; sb_Version := ""; sb_Mesh := None; sb_Value := 3000 |} |}.
Definition log_params : gmap string string := {[ "appName" := "shop"; "mesh" := "m"; "operatorLog" := "t" ]}.

Abbreviation timeout_put name := (ServiceConfigTimeoutPUT doc Ok hash calm alone (λ _, 9) 5 None (λ m _, m)
  (Some none, rules []) (service_put name)).
Abbreviation log_put := (ApplicationConfigAccessLogPut doc Ok hash calm alone (λ _, 9) 5 None (λ m _, m)
  blank console (Some none, rules [existing]) log_params).

Lemma timeout_put_succeeds : Http.succeeded (timeout_put "shop").2.
Proof. exists None. split; vm_compute; reflexivity. Qed.
Lemma log_put_succeeds : Http.succeeded log_put.2.
Proof. exists (Some TrueData). split; vm_compute; reflexivity. Qed.

Lemma settings_pages_read_back_witness :
  ServiceConfigTimeoutGET blank (timeout_put "shop").1 (service_params "shop") = success (Some (TimeoutData 3000)) ∧
  ApplicationConfigAccessLogGet blank log_put.1 log_params = success (Some (AppAccessLogData true)).
Proof.
  pose proof (settings_pages_read_back doc Ok hash calm alone (λ _, 9) 5 None (λ m _, m) same_ok blank console
    (Some none) (rules []) I) as (Hservice & _).
  pose proof (settings_pages_read_back doc Ok hash calm alone (λ _, 9) 5 None (λ m _, m) same_ok blank console
    (Some none) (rules [existing]) I) as (_ & Hlog & _).
  split.
  - refine (proj1 (Hservice (service_put "shop") _ (conj eq_refl _) _ _) timeout_put_succeeds);
      [vm_compute; reflexivity|split; discriminate|intros r; vm_compute; discriminate].
  - destruct (Hlog log_params log_put_succeeds) as (open & Ho & Hr & _). rewrite Hr.
    replace open with true; [reflexivity|]. vm_compute in Ho. by injection Ho.
Defined.

(** A name is checked and trimmed when a setting is read and not when it is
    set: the timeout of no service is set with success and cannot be read,
    and one set under a name with a space reads as the default. *)
Lemma service_name_unchecked :
  Http.succeeded (timeout_put "").2 ∧ is_Some (RefStore.items (timeout_put "").1.2 !! "m/::.configurators") ∧
  ServiceConfigTimeoutGET blank (timeout_put "").1 (service_params "") =
    HandleArgumentError (ErrorText "service name is empty") ∧
  Http.succeeded (timeout_put " shop").2 ∧
  ServiceConfigTimeoutGET blank (timeout_put " shop").1 (service_params " shop") = success (Some (TimeoutData 1000)).
Proof.
  split_and!; [exists None; split; vm_compute; reflexivity|vm_compute; eexists; reflexivity|vm_compute; reflexivity|
    exists None; split; vm_compute; reflexivity|vm_compute; reflexivity].
Qed.
End SettingsRequestsExample.
