(* ===== verification/QueryValues.v ===== *)
(** The query of a URL as [net/url] reads and writes it: [url.Values],
    [QueryEscape], [QueryUnescape], [ParseQuery] and [Values.Encode]. *)
From Stdlib Require Import Ascii.
From S2P Require Import Prelude GoStrings.

Open Scope string_scope.
Open Scope list_scope.
Open Scope Z_scope.

(** ** Escapes *)
Definition code (c : ascii) : Z := Z.of_nat (nat_of_ascii c).
Definition is_digit (c : ascii) : bool := bool_decide (48 <= code c <= 57).

(** What [shouldEscape] leaves alone in a component of a query. *)
Definition unreserved (c : ascii) : bool :=
  is_upper c || is_lower c || is_digit c || bool_decide (c ∈ ["-"; "_"; "."; "~"]%char).

Definition hex_char (n : nat) : ascii := default "0"%char (String.get n "0123456789ABCDEF").
Definition unhex (c : ascii) : option nat :=
  if bool_decide (48 <= code c <= 57) then Some (Z.to_nat (code c - 48))
  else if bool_decide (97 <= code c <= 102) then Some (Z.to_nat (code c - 97 + 10))
  else if bool_decide (65 <= code c <= 70) then Some (Z.to_nat (code c - 65 + 10))
  else None.

Definition escape_char (c : ascii) (s : string) : string :=
  if unreserved c then String c s
  else if decide (c = " "%char) then String "+" s
  else String "%" (String (hex_char (nat_of_ascii c / 16)) (String (hex_char (nat_of_ascii c mod 16)) s)).
Fixpoint QueryEscape (s : string) : string :=
  match s with "" => "" | String c s => escape_char c (QueryEscape s) end.

Fixpoint QueryUnescape (s : string) : option string :=
  match s with
  | "" => Some ""
  | String c s =>
      if decide (c = "%"%char) then
        match s with
        | String a (String b s) =>
            match unhex a, unhex b with
            | Some x, Some y => String (ascii_of_nat (x * 16 + y)) <$> QueryUnescape s
            | _, _ => None
            end
        | _ => None
        end
      else String (if decide (c = "+"%char) then " "%char else c) <$> QueryUnescape s
  end.

Lemma forall_ascii (P : ascii → bool) : forallb (λ n, P (ascii_of_nat n)) (seq 0 256) = true → ∀ c, P c = true.
Proof.
  intros Hf c. rewrite forallb_forall in Hf. rewrite <-(ascii_nat_embedding c). apply Hf.
  apply in_seq. pose proof (nat_ascii_bounded c). lia.
Qed.

Lemma escape_char_unescape c s : QueryUnescape (escape_char c s) = String c <$> QueryUnescape s.
Proof.
  set (ok := λ c, if unreserved c then negb (bool_decide (c = "%"%char)) && negb (bool_decide (c = "+"%char))
    else bool_decide (unhex (hex_char (nat_of_ascii c / 16)) = Some (nat_of_ascii c / 16)%nat ∧
                      unhex (hex_char (nat_of_ascii c mod 16)) = Some (nat_of_ascii c mod 16)%nat)).
  assert (Hok : ok c = true) by (apply forall_ascii; vm_compute; reflexivity). unfold ok in Hok. unfold escape_char.
  destruct (unreserved c) eqn:Hu.
  - apply andb_true_iff in Hok as [Hp%negb_true_iff%bool_decide_eq_false Hq%negb_true_iff%bool_decide_eq_false].
    simpl. by rewrite decide_False, decide_False by done.
  - apply bool_decide_eq_true in Hok as [Ha Hb]. case_decide as Hc; [by subst|].
    cbn [QueryUnescape]. rewrite decide_True, Ha, Hb by done. rewrite Nat.mul_comm, <-Nat.div_mod by done. by rewrite ascii_nat_embedding.
Qed.

Lemma unescape_escape s : QueryUnescape (QueryEscape s) = Some s.
Proof. induction s as [|c s IH]; [done|]. cbn [QueryEscape]. by rewrite escape_char_unescape, IH. Qed.

(** What an escaped text is made of. *)
Definition escaped_char (c : ascii) : bool := unreserved c || bool_decide (c ∈ ["%"; "+"]%char).

Lemma escape_chars s : str_all escaped_char (QueryEscape s) = true.
Proof.
  induction s as [|c s IH]; [done|]. cbn [QueryEscape]. unfold escape_char.
  set (ok := λ c, escaped_char (hex_char (nat_of_ascii c / 16)) && escaped_char (hex_char (nat_of_ascii c mod 16))).
  assert (Hok : ok c = true) by (apply forall_ascii; vm_compute; reflexivity).
  apply andb_true_iff in Hok as [Ha Hb].
  destruct (unreserved c) eqn:Hu; [|case_decide]; cbn [str_all]; rewrite ?Ha, ?Hb, IH, ?andb_true_r; [|done..].
  unfold escaped_char. by rewrite Hu.
Qed.

Lemma escape_without c s : escaped_char c = false → str_contains c (QueryEscape s) = false.
Proof. intros Hc. eapply str_all_contains; [exact Hc|apply escape_chars]. Qed.

(** ** Values *)
Abbreviation Values := (gmap string (list string)).

(** [m[key] = append(m[key], value)] *)
Definition add_value (m : Values) (p : string * string) : Values := <[p.1 := default [] (m !! p.1) ++ [p.2]]> m.
Definition Set_ (key value : string) (m : Values) : Values := <[key := [value]]> m.

(** [strings.Cut] *)
Definition cut (c : ascii) (s : string) : string * string :=
  match str_index c s with Some i => (str_take i s, str_drop (S i) s) | None => (s, "") end.

(** A piece of a query; the errors are dropped by [URL.Query]. *)
Definition parse_piece (piece : string) : option (string * string) :=
  if str_contains ";" piece then None
  else if decide (piece = "") then None
  else
    let '(key, value) := cut "=" piece in
    key ← QueryUnescape key; value ← QueryUnescape value; Some (key, value).
Definition ParseQuery (query : string) : Values := foldl add_value ∅ (omap parse_piece (str_split "&" query)).

Definition pairs_of (m : Values) (keys : list string) : list (string * string) :=
  keys ≫= λ k, (λ v, (k, v)) <$> default [] (m !! k).
Definition keys_of (m : Values) : list string := sort_strings (map_to_list m).*1.
Definition piece_of (p : string * string) : string := QueryEscape p.1 +:+ String "=" (QueryEscape p.2).
Definition Encode (m : Values) : string := str_join "&" (piece_of <$> pairs_of m (keys_of m)).

(** ** What is encoded is parsed *)
Lemma piece_chars p c : escaped_char c = false → c ≠ "="%char → str_contains c (piece_of p) = false.
Proof.
  intros Hc He. unfold piece_of. apply (str_all_contains (λ x, escaped_char x || bool_decide (x = "="%char))).
  - by rewrite Hc, bool_decide_eq_false_2.
  - rewrite str_all_app. cbn [str_all].
    assert (Hs : ∀ s, str_all (λ x, escaped_char x || bool_decide (x = "="%char)) (QueryEscape s) = true).
    { intros s. eapply str_all_impl; [|apply escape_chars]. intros x Hx. by rewrite Hx. }
    by rewrite !Hs.
Qed.

Lemma cut_piece p : cut "=" (piece_of p) = (QueryEscape p.1, QueryEscape p.2).
Proof.
  unfold cut, piece_of. rewrite str_index_app_sep by by apply escape_without.
  by rewrite str_take_app, str_drop_app_S.
Qed.

Lemma parse_piece_of p : parse_piece (piece_of p) = Some p.
Proof.
  unfold parse_piece. rewrite piece_chars by done. rewrite decide_False; [|unfold piece_of; by destruct (QueryEscape p.1)].
  rewrite cut_piece, unescape_escape. simpl. rewrite unescape_escape. by destruct p.
Qed.

Lemma split_pieces l : omap parse_piece (str_split "&" (str_join "&" (piece_of <$> l))) = l.
Proof.
  destruct (decide (l = [])) as [->|Hl]; [done|].
  rewrite str_split_join; [|by destruct l|apply Forall_fmap, Forall_true; intros p; by apply piece_chars].
  clear Hl. induction l as [|p l IH]; [done|]. rewrite fmap_cons. cbn [omap list_omap]. by rewrite parse_piece_of, IH.
Qed.

(** What a list of pairs has for a key. *)
Definition values_at (k : string) (l : list (string * string)) : list string := (filter (λ p, p.1 = k) l).*2.

Lemma add_values l m k : default [] (foldl add_value m l !! k) = default [] (m !! k) ++ values_at k l ∧
  (foldl add_value m l !! k = None ↔ m !! k = None ∧ values_at k l = []).
Proof.
  revert m. induction l as [|[k' v] l IH]; intros m; [by simpl; rewrite app_nil_r; naive_solver|].
  cbn [foldl]. destruct (IH (add_value m (k', v))) as [Hd Hn]. rewrite Hd, Hn. unfold values_at, add_value. cbn [fst snd].
  rewrite filter_cons. cbn [fst]. case_decide as Hk; [subst k'|].
  - rewrite lookup_insert_eq. simpl. split; [by rewrite <-app_assoc|naive_solver].
  - by rewrite lookup_insert_ne.
Qed.

Lemma values_at_key k k' (l : list string) : values_at k ((λ v, (k', v)) <$> l) = if decide (k' = k) then l else [].
Proof.
  unfold values_at. induction l as [|v l IHl]; [by destruct (decide _)|]. rewrite fmap_cons, filter_cons. cbn [fst].
  case_decide; [by rewrite fmap_cons, IHl|done].
Qed.

Lemma values_at_pairs m k keys : NoDup keys → values_at k (pairs_of m keys) = if decide (k ∈ keys) then default [] (m !! k) else [].
Proof.
  unfold pairs_of. induction 1 as [|k' keys Hk Hnd IH]; [done|]. rewrite bind_cons. unfold values_at in *.
  rewrite filter_app, fmap_app, IH. fold (values_at k ((λ v, (k', v)) <$> default [] (m !! k'))). rewrite values_at_key.
  destruct (decide (k' = k)) as [->|Hkk].
  - rewrite (decide_False (P := k ∈ keys)), app_nil_r by done. by rewrite decide_True by set_solver.
  - simpl. apply decide_ext. set_solver.
Qed.

(** No key is there without a value. *)
Definition filled (m : Values) : Prop := ∀ k, m !! k ≠ Some [].

Lemma parse_encode m : filled m → ParseQuery (Encode m) = m.
Proof.
  intros Hm. apply map_eq. intros k. unfold ParseQuery, Encode. rewrite split_pieces.
  destruct (add_values (pairs_of m (keys_of m)) ∅ k) as [Hd Hn]. rewrite lookup_empty in Hd, Hn. simpl in Hd.
  rewrite values_at_pairs in Hd, Hn by (unfold keys_of; rewrite sort_strings_perm; apply NoDup_fst_map_to_list).
  assert (Hk : k ∈ keys_of m ↔ is_Some (m !! k)).
  { unfold keys_of. rewrite elem_of_sort_strings, list_elem_of_fmap. split.
    - intros ([k' v] & -> & Hv%elem_of_map_to_list). by eexists.
    - intros [v Hv]. exists (k, v). by rewrite elem_of_map_to_list. }
  case_decide as Hc; rewrite Hk in Hc.
  - destruct Hc as [v Hv]. rewrite Hv in *. simpl in *. destruct (foldl _ _ _ !! k); simpl in *; [by subst|].
    subst v. by destruct (Hm k).
  - apply eq_None_not_Some in Hc. rewrite Hc. by apply Hn.
Qed.

Lemma parse_filled q : filled (ParseQuery q).
Proof.
  intros k. unfold ParseQuery. generalize (omap parse_piece (str_split "&" q)). intros l.
  assert (Hf : filled ∅) by by intros x; rewrite lookup_empty.
  revert Hf. generalize (∅ : Values). induction l as [|p l IH]; intros m Hf; [apply Hf|]. cbn [foldl]. apply IH.
  intros x. unfold add_value. destruct (decide (x = p.1)) as [->|Hx]; [|by rewrite lookup_insert_ne].
  rewrite lookup_insert_eq. intros [= Happ]. by destruct (default [] (m !! p.1)).
Qed.

Lemma Set_filled key value m : filled m → filled (Set_ key value m).
Proof.
  intros Hm k. unfold Set_. destruct (decide (k = key)) as [->|Hk]; [by rewrite lookup_insert_eq|by rewrite lookup_insert_ne].
Qed.
