(* ===== verification/Dashboards.v ===== *)
(** The links to the dashboards of Grafana
    (pkg/console/handler/observability.go, pkg/console/service/observability.go):
    a link is made by setting variables in the query of a configured URL. The
    URL is shared by the requests, and most of them set them in place, without a
    lock; the requests are served one after the other here. *)
From S2P Require Import Prelude GoStrings Errors Resource Libs Indexers Store Queries RuleService Manager Instances ConsoleViews ConsoleQueries ServicePages Http QueryValues.

Open Scope string_scope.
Open Scope list_scope.
Open Scope Z_scope.

(** [url.URL]: what [String] prints before its query, the query, and what
    comes after. *)
Record URL := { u_before : string; u_ForceQuery : bool; u_RawQuery : string; u_after : string }.

Definition URL_String (u : URL) : string :=
  u_before u +:+
  (if u_ForceQuery u || negb (bool_decide (u_RawQuery u = "")) then "?" +:+ u_RawQuery u else "") +:+ u_after u.
Definition URL_Query (u : URL) : Values := ParseQuery (u_RawQuery u).
Definition with_query (u : URL) (raw : string) : URL :=
  {| u_before := u_before u; u_ForceQuery := u_ForceQuery u; u_RawQuery := raw; u_after := u_after u |}.

(** The URLs of [GrafanaDashboardConfig]. *)
Record dashboards := {
  AppDashboardURL : option URL; InstanceDashboardURL : option URL; ServiceDashboardURL : option URL }.

(** What gin binds of a query for each kind of request. *)
Record InstanceDashboardReq := { id_InstanceName : string; id_Mesh : string }.
Record bound_requests := {
  br_app : result error string; br_instance : result error InstanceDashboardReq; br_service : result error ServiceReq }.

Inductive Dimension := AppDimension | InstanceDimension | ServiceDimension.
Inductive DashboardType := MetricDashboard | TraceDashboard.
Definition dimension_string (d : Dimension) : string :=
  match d with AppDimension => "application" | InstanceDimension => "instance" | ServiceDimension => "service" end.
Definition dashboard_string (t : DashboardType) : string :=
  match t with MetricDashboard => "metric" | TraceDashboard => "trace" end.

Section links.
Context `{MapRange}.

(** ** service/observability.go *)
Definition set_vars (vars : gmap string string) (q : Values) : Values :=
  foldl (λ q p, Set_ p.1 p.2 q) q (go_range vars).
(** The URL after the variables are set in it. *)
Definition linked (u : URL) (vars : gmap string string) : URL := with_query u (Encode (set_vars vars (URL_Query u))).
Definition concatURLWithQueryVars (baseURL : URL) (vars : gmap string string) : URL * string :=
  (linked baseURL vars, URL_String (linked baseURL vars)).

(** A function of the URL a pointer refers to, if it is not nil. *)
Definition on_url (baseURL : option URL) (k : URL → URL * result error string) : option URL * result error string :=
  match baseURL with
  | None => (None, Err (biz_new NotFoundError "grafana url is not configured"))
  | Some u => (Some (k u).1, (k u).2)
  end.
(** The variables are set in the URL itself, or in a copy of it. *)
Definition in_place (u : URL) (vars : result error (gmap string string)) : URL * result error string :=
  match vars with
  | Err e => (u, Err e)
  | Ok vars => let '(u, link) := concatURLWithQueryVars u vars in (u, Ok link)
  end.
Definition in_copy (u : URL) (vars : result error (gmap string string)) : URL * result error string :=
  (u, vars ← vars; Ok (concatURLWithQueryVars u vars).2).

Definition GetAppDashboard (baseURL : option URL) (appName : string) : option URL * result error string :=
  on_url baseURL (λ u, in_place u (Ok {["var-application" := appName]})).
Definition GetServiceDashboard (baseURL : option URL) (req : ServiceReq) : option URL * result error string :=
  on_url baseURL (λ u, in_place u (Ok {["var-service" := sr_ServiceName req]})).

Section store.
Context {M : Type} `{ReadOnlyResourceManager M}.
Implicit Types m : M.

Definition trace_applications (metadata : list Resource) : gset string :=
  list_to_set (filter (λ app, trim_space app ≠ "") (provider_names metadata)).
Definition service_trace_variables m (req : ServiceReq) : result error (gmap string string) :=
  metadata ← service_providers m req;
  match elements (trace_applications metadata) with
  | [] => Err (biz_new NotFoundError ("no provider application found for service " +:+ sr_ServiceName req))
  | [application] => Ok (<["var-service" := sr_ServiceName req]> {["var-application" := application]})
  | _ => Err (biz_new InvalidArgument ("multiple provider applications found for service " +:+ sr_ServiceName req))
  end.
Definition GetServiceTraceDashboard m (baseURL : option URL) (req : ServiceReq) : option URL * result error string :=
  on_url baseURL (λ u, in_copy u (service_trace_variables m req)).

Definition getInstanceDashboardResource m (req : InstanceDashboardReq) : result error Resource :=
  res ← get_by_key m InstanceKind (BuildResourceKey (id_Mesh req) (id_InstanceName req));
  match res with
  | None => Err (biz_new NotFoundError ("instance " +:+ id_InstanceName req +:+ " not found"))
  | Some r => Ok r
  end.
(** The spec is not checked for nil. *)
Definition dashboard_instance m (req : InstanceDashboardReq) : result error Instance_ :=
  res ← getInstanceDashboardResource m req;
  match instance_spec res with None => Err nil_dereference | Some i => Ok i end.
Definition GetInstanceDashboardVariables m (req : InstanceDashboardReq) : result error (gmap string string) :=
  i ← dashboard_instance m req;
  let port := if decide (inst_QosPort i ≠ 0) then inst_QosPort i else 22222 in
  Ok (<["var-instance" := inst_Ip i +:+ ":" +:+ pretty port]> {["var-application" := inst_AppName i]}).
Definition GetInstanceTraceDashboardVariables m (req : InstanceDashboardReq) : result error (gmap string string) :=
  i ← dashboard_instance m req;
  Ok (<["var-instance" := inst_Ip i]> {["var-application" := inst_AppName i]}).
Definition GetInstanceDashboard m (baseURL : option URL) (req : InstanceDashboardReq) : option URL * result error string :=
  on_url baseURL (λ u, in_place u (GetInstanceDashboardVariables m req)).
Definition GetInstanceTraceDashboard m (baseURL : option URL) (req : InstanceDashboardReq)
    : option URL * result error string :=
  on_url baseURL (λ u, in_copy u (GetInstanceTraceDashboardVariables m req)).

(** ** handler/observability.go *)
Definition getInstanceDashboard m (baseURL : option URL) (req : InstanceDashboardReq) (t : DashboardType) :=
  match t with
  | TraceDashboard => GetInstanceTraceDashboard m baseURL req
  | MetricDashboard => GetInstanceDashboard m baseURL req
  end.

Definition dashboard_link m (g : dashboards) (d : Dimension) (t : DashboardType) (c : bound_requests)
    : dashboards * result error string :=
  match d with
  | AppDimension =>
      match br_app c with
      | Err e => (g, Err e)
      | Ok app =>
          let '(u, r) := GetAppDashboard (AppDashboardURL g) app in
          ({| AppDashboardURL := u; InstanceDashboardURL := InstanceDashboardURL g;
              ServiceDashboardURL := ServiceDashboardURL g |}, r)
      end
  | InstanceDimension =>
      match br_instance c with
      | Err e => (g, Err e)
      | Ok req =>
          let '(u, r) := getInstanceDashboard m (InstanceDashboardURL g) req t in
          ({| AppDashboardURL := AppDashboardURL g; InstanceDashboardURL := u;
              ServiceDashboardURL := ServiceDashboardURL g |}, r)
      end
  | ServiceDimension =>
      match br_service c with
      | Err e => (g, Err e)
      | Ok req =>
          let '(u, r) := match t with
                         | TraceDashboard => GetServiceTraceDashboard m (ServiceDashboardURL g) req
                         | MetricDashboard => GetServiceDashboard (ServiceDashboardURL g) req
                         end in
          ({| AppDashboardURL := AppDashboardURL g; InstanceDashboardURL := InstanceDashboardURL g;
              ServiceDashboardURL := u |}, r)
      end
  end.

Definition binding_error (d : Dimension) (c : bound_requests) : option error :=
  match d with
  | AppDimension => match br_app c with Err e => Some e | Ok _ => None end
  | InstanceDimension => match br_instance c with Err e => Some e | Ok _ => None end
  | ServiceDimension => match br_service c with Err e => Some e | Ok _ => None end
  end.

(** [grafanaDashboards] are those of the type asked for. There is no return
    after the answer that they are not configured. *)
Definition GetGrafanaDashboard m (grafanaDashboards : option dashboards) (d : Dimension) (t : DashboardType)
    (c : bound_requests) : option dashboards * reply string :=
  match grafanaDashboards with
  | None =>
      (None, after [JSON StatusOK (NewBizErrorResp (NotFoundError,
                "please configure grafana dashboard for " +:+ dimension_string d +:+ " " +:+ dashboard_string t +:+
                " in config yaml"))]
             match binding_error d c with Some e => HandleServiceError e | None => panicked end)
  | Some g =>
      let '(g, r) := dashboard_link m g d t c in
      (Some g, served HandleServiceError r (λ link, success (Some link)))
  end.

(** Dashboards that are not configured are answered, and then dereferenced. *)
Theorem missing_dashboards_panic m d t c : rp_panics (GetGrafanaDashboard m None d t c).2 = true ∨
  length (bodies (GetGrafanaDashboard m None d t c).2) = 2%nat.
Proof. simpl. destruct (binding_error d c); [by right|by left]. Qed.
End store.

(** The link a request is after. *)
Definition link_of (u : URL) (vars : gmap string string) : string := URL_String (linked u vars).

(** ** Variables *)
Lemma set_vars_lookup vars q k : set_vars vars q !! k = match vars !! k with Some v => Some [v] | None => q !! k end.
Proof.
  unfold set_vars. rewrite <-(list_to_map_go_range vars) at 2. pose proof (NoDup_go_range_fst vars) as Hnd.
  revert q Hnd. induction (go_range vars) as [|[k' v] l IH]; intros q; [done|].
  intros [Hk Hl]%NoDup_cons. cbn [foldl fst snd]. rewrite IH by done. simpl. destruct (decide (k' = k)) as [->|Hne].
  - rewrite lookup_insert_eq, (not_elem_of_list_to_map_1 (M := gmap string) l k) by done. unfold Set_. by rewrite lookup_insert_eq.
  - unfold Set_. by rewrite !lookup_insert_ne by done.
Qed.

Lemma set_vars_filled vars q : filled q → filled (set_vars vars q).
Proof. intros Hq k. rewrite set_vars_lookup. destruct (vars !! k); [done|apply Hq]. Qed.

(** Setting the same variables again leaves nothing of what they were. *)
Lemma set_vars_over vars vars' q : dom vars' ⊆ dom vars → set_vars vars (set_vars vars' q) = set_vars vars q.
Proof.
  intros Hd. apply map_eq. intros k. rewrite !set_vars_lookup. destruct (vars !! k) eqn:Hv; [done|].
  apply not_elem_of_dom in Hv. destruct (vars' !! k) eqn:Hv'; [|done]. apply elem_of_dom_2 in Hv'. set_solver.
Qed.

(** A link that is opened has the variables, and the parameters the URL had
    besides. *)
Lemma linked_query u vars : URL_Query (linked u vars) = set_vars vars (URL_Query u).
Proof. unfold URL_Query at 1, linked. simpl. apply parse_encode, set_vars_filled, parse_filled. Qed.

Lemma linked_over u vars vars' : dom vars' ⊆ dom vars → linked (linked u vars') vars = linked u vars.
Proof. intros Hd. unfold linked at 1. rewrite linked_query, set_vars_over by done. done. Qed.

(** ** Requests one after the other

    What was set in a URL before does not matter to whoever sets as much. *)
Definition as_configured (D : gset string) (u0 u : URL) : Prop :=
  ∀ vars, D ⊆ dom vars → linked u vars = linked u0 vars.
Definition same_links (D : gset string) (o0 o : option URL) : Prop :=
  match o0, o with Some u0, Some u => as_configured D u0 u | None, None => True | _, _ => False end.

Lemma same_links_refl D o : same_links D o o.
Proof. by destruct o. Qed.

Lemma set_in_place D o0 o vars : same_links D o0 o → (∀ v, vars = Ok v → dom v = D) →
  same_links D o0 (on_url o (λ u, in_place u vars)).1 ∧
  (on_url o (λ u, in_place u vars)).2 = (on_url o0 (λ u, in_place u vars)).2.
Proof.
  destruct o0 as [u0|], o as [u|]; try done. simpl. intros Hs Hv. destruct vars as [v|e]; [|done].
  specialize (Hv v eq_refl). simpl. split; [|by rewrite Hs by by rewrite Hv].
  intros v' Hv'. rewrite linked_over by by rewrite Hv. by apply Hs.
Qed.

Lemma set_in_copy D o0 o vars : same_links D o0 o → (∀ v, vars = Ok v → D ⊆ dom v) →
  same_links D o0 (on_url o (λ u, in_copy u vars)).1 ∧
  (on_url o (λ u, in_copy u vars)).2 = (on_url o0 (λ u, in_copy u vars)).2.
Proof.
  destruct o0 as [u0|], o as [u|]; try done. simpl. intros Hs Hv. split; [done|].
  destruct vars as [v|e]; [|done]. simpl. by rewrite Hs by by apply Hv.
Qed.

Section requests.
Context {M : Type} `{ReadOnlyResourceManager M}.
Implicit Types m : M.

(** The variables of a request. *)
Definition link_variables m (d : Dimension) (t : DashboardType) (c : bound_requests) : result error (gmap string string) :=
  match d with
  | AppDimension => app ← br_app c; Ok {["var-application" := app]}
  | InstanceDimension =>
      req ← br_instance c;
      match t with
      | MetricDashboard => GetInstanceDashboardVariables m req
      | TraceDashboard => GetInstanceTraceDashboardVariables m req
      end
  | ServiceDimension =>
      req ← br_service c;
      match t with
      | MetricDashboard => Ok {["var-service" := sr_ServiceName req]}
      | TraceDashboard => service_trace_variables m req
      end
  end.
Definition configured_url (g : dashboards) (d : Dimension) : option URL :=
  match d with
  | AppDimension => AppDashboardURL g
  | InstanceDimension => InstanceDashboardURL g
  | ServiceDimension => ServiceDashboardURL g
  end.

(** The link a request gets of the dashboards as they were configured. *)
Definition own_link m (g0 : dashboards) (d : Dimension) (t : DashboardType) (c : bound_requests) : result error string :=
  match binding_error d c, configured_url g0 d with
  | Some e, _ => Err e
  | None, None => Err (biz_new NotFoundError "grafana url is not configured")
  | None, Some u => vars ← link_variables m d t c; Ok (link_of u vars)
  end.

(** What the metric links of each dimension set in place. *)
Definition set_by (d : Dimension) : gset string :=
  match d with
  | AppDimension => {["var-application"]}
  | InstanceDimension => {["var-application"; "var-instance"]}
  | ServiceDimension => {["var-service"]}
  end.
Definition unharmed (g0 g : dashboards) : Prop := ∀ d, same_links (set_by d) (configured_url g0 d) (configured_url g d).

Lemma instance_variables_set m req v : GetInstanceDashboardVariables m req = Ok v → dom v = set_by InstanceDimension.
Proof.
  unfold GetInstanceDashboardVariables. destruct (dashboard_instance m req) as [i|]; [|done]. intros [= <-].
  rewrite dom_insert_L, dom_singleton_L. simpl. set_solver.
Qed.
Lemma instance_trace_variables_set m req v :
  GetInstanceTraceDashboardVariables m req = Ok v → set_by InstanceDimension ⊆ dom v.
Proof.
  unfold GetInstanceTraceDashboardVariables. destruct (dashboard_instance m req) as [i|]; [|done]. intros [= <-].
  rewrite dom_insert_L, dom_singleton_L. simpl. set_solver.
Qed.
Lemma service_trace_variables_set m req v : service_trace_variables m req = Ok v → set_by ServiceDimension ⊆ dom v.
Proof.
  unfold service_trace_variables. destruct (service_providers m req) as [l|]; [|done]. simpl.
  destruct (elements _) as [|a [|]]; [done| |done]. intros [= <-]. rewrite dom_insert_L, dom_singleton_L. set_solver.
Qed.

Lemma dashboard_link_kept m g0 g d t c : unharmed g0 g →
  unharmed g0 (dashboard_link m g d t c).1 ∧ (dashboard_link m g d t c).2 = own_link m g0 d t c.
Proof.
  intros Hu. assert (Hput : ∀ o r, same_links (set_by d) (configured_url g0 d) o ∧ r = own_link m g0 d t c →
    unharmed g0 (match d with
      | AppDimension => {| AppDashboardURL := o; InstanceDashboardURL := InstanceDashboardURL g; ServiceDashboardURL := ServiceDashboardURL g |}
      | InstanceDimension => {| AppDashboardURL := AppDashboardURL g; InstanceDashboardURL := o; ServiceDashboardURL := ServiceDashboardURL g |}
      | ServiceDimension => {| AppDashboardURL := AppDashboardURL g; InstanceDashboardURL := InstanceDashboardURL g; ServiceDashboardURL := o |}
      end) ∧ r = own_link m g0 d t c).
  { intros o r [Ho Hr]. split; [|done]. intros d'. pose proof (Hu d'). by destruct d, d'. }
  pose proof (Hu d) as Hd. unfold own_link in *. destruct d; simpl in *.
  - destruct (br_app c) as [app|e]; [|done]. unfold GetAppDashboard.
    destruct (set_in_place _ _ _ (Ok {["var-application" := app]}) Hd) as [Hs Hr]; [by intros v [= <-]; apply dom_singleton_L|].
    destruct (on_url (AppDashboardURL g) _) as [o r]. apply Hput. split; [done|]. simpl in Hr. rewrite Hr. by destruct (AppDashboardURL g0).
  - destruct (br_instance c) as [req|e]; [|done]. unfold getInstanceDashboard. destruct t.
    + destruct (set_in_place _ _ _ (GetInstanceDashboardVariables m req) Hd) as [Hs Hr]; [apply instance_variables_set|].
      unfold GetInstanceDashboard. destruct (on_url (InstanceDashboardURL g) _) as [o r]. apply Hput. split; [done|].
      simpl in Hr. rewrite Hr. destruct (InstanceDashboardURL g0); [|done]. simpl. by destruct (GetInstanceDashboardVariables m req).
    + destruct (set_in_copy _ _ _ (GetInstanceTraceDashboardVariables m req) Hd) as [Hs Hr]; [apply instance_trace_variables_set|].
      unfold GetInstanceTraceDashboard. destruct (on_url (InstanceDashboardURL g) _) as [o r]. apply Hput. split; [done|].
      simpl in Hr. rewrite Hr. by destruct (InstanceDashboardURL g0).
  - destruct (br_service c) as [req|e]; [|done]. destruct t.
    + destruct (set_in_place _ _ _ (Ok {["var-service" := sr_ServiceName req]}) Hd) as [Hs Hr]; [by intros v [= <-]; apply dom_singleton_L|].
      unfold GetServiceDashboard. destruct (on_url (ServiceDashboardURL g) _) as [o r]. apply Hput. split; [done|].
      simpl in Hr. rewrite Hr. by destruct (ServiceDashboardURL g0).
    + destruct (set_in_copy _ _ _ (service_trace_variables m req) Hd) as [Hs Hr]; [apply service_trace_variables_set|].
      unfold GetServiceTraceDashboard. destruct (on_url (ServiceDashboardURL g) _) as [o r]. apply Hput. split; [done|].
      simpl in Hr. rewrite Hr. by destruct (ServiceDashboardURL g0).
Qed.

(** A request and the store it reads. *)
Record link_request := { lr_store : M; lr_dimension : Dimension; lr_type : DashboardType; lr_bound : bound_requests }.
Definition serve (o : option dashboards) (r : link_request) : option dashboards * reply string :=
  GetGrafanaDashboard (lr_store r) o (lr_dimension r) (lr_type r) (lr_bound r).
Definition served_all (o : option dashboards) (rs : list link_request) : option dashboards :=
  foldl (λ o r, (serve o r).1) o rs.

Lemma served_unharmed g0 rs g : unharmed g0 g → ∃ g', served_all (Some g) rs = Some g' ∧ unharmed g0 g'.
Proof.
  revert g. induction rs as [|r rs IH]; intros g Hu; [by exists g|]. cbn [served_all foldl]. unfold serve at 2. simpl.
  destruct (dashboard_link_kept (lr_store r) g0 g (lr_dimension r) (lr_type r) (lr_bound r) Hu) as [Hu' _].
  destruct (dashboard_link _ _ _ _ _) as [g' l]. by apply IH.
Qed.

(** C35: Requests that are served one after the other get each its own link.
    Whatever requests for links of metrics or traces have set variables in the
    shared URLs before, a request is answered as it would be with the URLs as
    they were configured: with the error of its binding, that no URL is
    configured, the error of its variables, or a link. Opening a link gives each
    variable of the request with its value, whatever characters it has, and
    every other parameter as the URL was configured with it. *)
Theorem links_in_sequence g0 rs r :
  (serve (served_all (Some g0) rs) r).2 =
    served HandleServiceError (own_link (lr_store r) g0 (lr_dimension r) (lr_type r) (lr_bound r))
      (λ link, success (Some link)) ∧
  ∀ u vars, configured_url g0 (lr_dimension r) = Some u →
    link_variables (lr_store r) (lr_dimension r) (lr_type r) (lr_bound r) = Ok vars →
    own_link (lr_store r) g0 (lr_dimension r) (lr_type r) (lr_bound r) = Ok (URL_String (linked u vars)) ∧
    ∀ k, URL_Query (linked u vars) !! k =
      match vars !! k with Some v => Some [v] | None => URL_Query u !! k end.
Proof.
  split.
  - destruct (served_unharmed g0 rs g0) as (g & -> & Hu); [intros d; apply same_links_refl|]. unfold serve. simpl.
    destruct (dashboard_link_kept (lr_store r) g0 g (lr_dimension r) (lr_type r) (lr_bound r) Hu) as [_ Hl].
    destruct (dashboard_link _ _ _ _ _) as [g' l]. simpl in Hl. by subst l.
  - intros u vars Hu Hv. split; [|intros k; by rewrite linked_query, set_vars_lookup].
    unfold own_link. rewrite Hu, Hv. destruct r as [m d t c]. simpl in *.
    destruct d; simpl in *; [destruct (br_app c)|destruct (br_instance c)|destruct (br_service c)]; done.
Qed.
End requests.
End links.

(** ** Requests for an instance *)
Module DashboardsExample.
Import ConsoleQueriesExample.
#[local] Existing Instance default_range.

(** The resources of a console. *)
#[local] Instance listed : ReadOnlyResourceManager (list Resource) := {
  ro_GetByKey l k key := Ok (find (λ r, bool_decide (res_kind r = k ∧ ResourceKey r = key)) l);
  ro_GetByKeys _ _ _ := Ok [];
  ro_ListByIndexes _ _ _ := Ok [];
  ro_PageListByIndexes _ _ _ _ := Ok (NewPageData 0 0 0 []) }.

Definition grafana : URL := {| u_before := "http://grafana/d/i"; u_ForceQuery := false; u_RawQuery := "kiosk=1"; u_after := "" |}.
Definition configured : dashboards :=
  {| AppDashboardURL := None; InstanceDashboardURL := Some grafana; ServiceDashboardURL := None |}.
Definition request (t : DashboardType) (name : string) : link_request (M := list Resource) :=
  {| lr_store := [instance "i1" "shop & co" "" "" ""; instance "i2" "pay" "" "" ""];
     lr_dimension := InstanceDimension; lr_type := t;
     lr_bound := {| br_app := Err (ErrorText "EOF"); br_instance := Ok {| id_InstanceName := name; id_Mesh := "nacos" |};
                    br_service := Err (ErrorText "EOF") |} |}.
Definition before : list (link_request (M := list Resource)) := [request MetricDashboard "i2"; request TraceDashboard "i2"].

(** The link of the third request has nothing of the first two. *)
Lemma links_in_sequence_witness :
  bodies (serve (served_all (Some configured) before) (request MetricDashboard "i1")).2 =
    bodies (serve (Some configured) (request MetricDashboard "i1")).2 ∧
  URL_Query (linked grafana {["var-application" := "shop & co"; "var-instance" := "10.0.0.1:22222"]}) !! "kiosk" = Some ["1"].
Proof.
  destruct (links_in_sequence configured before (request MetricDashboard "i1")) as [Hb Hl].
  split; [rewrite Hb; vm_compute; reflexivity|].
  destruct (Hl grafana _ eq_refl eq_refl) as [_ Hq].
  etransitivity; [apply Hq|vm_compute; reflexivity].
Defined.
End DashboardsExample.
