(* ===== verification/Metrics.v ===== *)
(** The metrics of an instance (pkg/console/service/instance.go,
    [GetInstanceMetrics]): what is read of the text format of Prometheus. *)
From Stdlib Require Import Ascii.
From S2P Require Import Prelude GoStrings Errors Resource Libs Indexers Store Queries RuleService Manager Instances ConsoleViews ConsoleQueries Http.

Open Scope string_scope.
Open Scope list_scope.
Open Scope Z_scope.

(** ** model/observability.go; [V] is [float64] *)
Record MetricsReq := { mr_InstanceName : string; mr_Mesh : string }.
Record Metric (V : Type) := { mt_Name : string; mt_Labels : gmap string string; mt_Value : V }.
Arguments Build_Metric {V}. Arguments mt_Name {V}. Arguments mt_Labels {V}. Arguments mt_Value {V}.
Record MetricsResp (V : Type) := { ms_InstanceName : string; ms_Metrics : list (Metric V) }.
Arguments Build_MetricsResp {V}. Arguments ms_InstanceName {V}. Arguments ms_Metrics {V}.

(** [strings.TrimSuffix] and [strings.Trim] of one byte. *)
Definition trim_suffix (s suffix : string) : string :=
  if has_suffix s suffix then str_take (String.length s - String.length suffix) s else s.
Fixpoint strip_char (c : ascii) (s : string) : string :=
  match s with String d t => if decide (d = c) then strip_char c t else s | "" => "" end.
Definition trim_char (c : ascii) (s : string) : string := String.rev (strip_char c (String.rev (strip_char c s))).

Definition quote : ascii := "034".
Definition newline : ascii := "010".

Section metrics.
(** What [fmt.Sscanf(text, "%f", &value)] leaves in a variable that was zero. *)
Context {V : Type} (Sscanf_f : string → V).

(** [strings.SplitN(label, "=", 2)] *)
Definition add_label (labels : gmap string string) (label : string) : gmap string string :=
  if decide (label = "") then labels
  else match str_index "=" label with
       | None => labels
       | Some i => <[str_take i label := trim_char quote (str_drop (S i) label)]> labels
       end.

Definition parse_line (line : string) : option (Metric V) :=
  let line := trim_space line in
  if decide (line = "") then None
  else if has_prefix line "#" then None
  else
    match str_split " " line with
    | [metricPart; valuePart] =>
        match str_index "{" metricPart with
        | None => None
        | Some i =>
            let labelsPart := trim_suffix (str_drop (S i) metricPart) "}" in
            Some {| mt_Name := str_take i metricPart; mt_Labels := foldl add_label ∅ (str_split "," labelsPart);
                    mt_Value := Sscanf_f valuePart |}
        end
    | _ => None
    end.
Definition parsePrometheusData (data : string) : list (Metric V) :=
  omap parse_line (str_split (String newline "") data).

Section requests.
Context {M : Type} `{ReadOnlyResourceManager M}.
(** The body that is got from a URL. *)
Context (http_Get : string → result error string).

Definition fetchMetricsData (ip : string) (port : Z) : result error (list (Metric V)) :=
  body ← http_Get ("http://" +:+ ip +:+ ":" +:+ pretty port +:+ "/metrics"); Ok (parsePrometheusData body).

(** Whether the instance exists is not looked at. *)
Definition GetInstanceMetrics (m : M) (req : MetricsReq) : result error (list (MetricsResp V)) :=
  res ← get_by_key m InstanceKind (BuildResourceKey (mr_Mesh req) (mr_InstanceName req));
  match res ≫= instance_spec with
  | None => Err nil_dereference
  | Some i =>
      metrics ← fetchMetricsData (inst_Ip i) (inst_QosPort i);
      Ok [ {| ms_InstanceName := inst_Name i; ms_Metrics := metrics |} ]
  end.

(** ** handler/observability.go *)
Definition GetMetricsList (m : M) (bound : result error MetricsReq) : reply (list (MetricsResp V)) :=
  match bound with
  | Err e => plain_error e
  | Ok req => served HandleServiceError (GetInstanceMetrics m req) (λ resp, success (Some resp))
  end.

(** The metrics of an instance that does not exist make the handler panic. *)
Theorem missing_instance_panics m req :
  ro_GetByKey m InstanceKind (BuildResourceKey (mr_Mesh req) (mr_InstanceName req)) = Ok None →
  GetMetricsList m (Ok req) = panicked.
Proof. intros Hm. unfold GetMetricsList, GetInstanceMetrics, get_by_key. by rewrite Hm. Qed.
End requests.

(** ** What an exposition becomes *)
Record sample := { sp_Name : string; sp_Labels : list (string * string); sp_Value : string }.

Definition label_text (l : string * string) : string := l.1 +:+ String "=" (String quote (l.2 +:+ String quote "")).
Definition sample_text (s : sample) : string :=
  (sp_Name s +:+ String "{" (str_join "," (label_text <$> sp_Labels s) +:+ "}")) +:+ String " " (sp_Value s).
Definition sample_metric (s : sample) : Metric V :=
  {| mt_Name := sp_Name s; mt_Labels := list_to_map (sp_Labels s); mt_Value := Sscanf_f (sp_Value s) |}.

(** Nothing printable is missing but the bytes the format gives a meaning:
    in a label neither a comma nor a quote, and no blank anywhere. *)
Definition plain_label (l : string * string) : Prop :=
  str_all graphic l.1 = true ∧ str_contains "=" l.1 = false ∧ str_contains "," l.1 = false ∧
  str_all graphic l.2 = true ∧ str_contains "," l.2 = false ∧ str_contains quote l.2 = false.
Definition plain_sample (s : sample) : Prop :=
  sp_Name s ≠ "" ∧ str_all graphic (sp_Name s) = true ∧ str_contains "{" (sp_Name s) = false ∧
  has_prefix (sp_Name s) "#" = false ∧ Forall plain_label (sp_Labels s) ∧ NoDup (sp_Labels s).*1 ∧
  sp_Value s ≠ "" ∧ str_all graphic (sp_Value s) = true.

Lemma strip_plain c s : str_contains c s = false → strip_char c s = s.
Proof. destruct s as [|d s]; simpl; [done|]. by case_decide. Qed.
Lemma rev_contains c s : str_contains c (String.rev s) = str_contains c s.
Proof.
  induction s as [|d s IH]; [done|]. rewrite rev_cons, str_contains_app, IH. simpl. case_decide; [apply orb_true_r|apply orb_false_r].
Qed.
Lemma trim_quoted c s : str_contains c s = false → trim_char c (String c (s +:+ String c "")) = s.
Proof.
  intros Hs. unfold trim_char. cbn [strip_char]. rewrite decide_True by done.
  assert (Hl : strip_char c (s +:+ String c "") = match s with "" => "" | _ => s +:+ String c "" end).
  { destruct s as [|d s].
    - change ("" +:+ String c "") with (String c ""). cbn [strip_char]. by rewrite decide_True.
    - change (String d s +:+ String c "") with (String d (s +:+ String c "")). revert Hs. cbn [strip_char str_contains].
      by case_decide. }
  rewrite Hl. destruct s as [|d t] eqn:Heq; [done|]. rewrite <-Heq in *. rewrite rev_snoc. cbn [strip_char].
  rewrite decide_True, strip_plain by (by rewrite ?rev_contains). apply rev_involutive.
Qed.

Lemma graphic_free s : str_all graphic s = true → str_contains " " s = false.
Proof. intros Hs. by apply (str_all_contains graphic). Qed.

Lemma label_graphic l : plain_label l → str_all graphic (label_text l) = true.
Proof.
  intros (Hk & _ & _ & Hv & _). unfold label_text. rewrite str_all_app, Hk. cbn [str_all andb].
  rewrite str_all_app, Hv. done.
Qed.
Lemma label_commas l : plain_label l → str_contains "," (label_text l) = false.
Proof.
  intros (_ & _ & Hk & _ & Hv & _). unfold label_text. rewrite str_contains_app, Hk. cbn [str_contains orb].
  rewrite str_contains_app, Hv. done.
Qed.
Lemma join_graphic l : Forall (λ s, str_all graphic s = true) l → str_all graphic (str_join "," l) = true.
Proof.
  induction 1 as [|s l Hs Hl IH]; [done|]. destruct l as [|t l]; [done|].
  change (str_join "," (s :: t :: l)) with (s +:+ String "," (str_join "," (t :: l))). rewrite str_all_app, Hs. exact IH.
Qed.

Lemma add_label_text labels l : plain_label l → add_label labels (label_text l) = <[l.1 := l.2]> labels.
Proof.
  intros (_ & He & _ & _ & _ & Hq). unfold add_label. rewrite decide_False by (unfold label_text; by destruct l.1).
  unfold label_text. rewrite str_index_app_sep by done. by rewrite str_take_app, str_drop_app_S, trim_quoted.
Qed.

Lemma labels_read l : Forall plain_label l → NoDup l.*1 →
  foldl add_label ∅ (str_split "," (str_join "," (label_text <$> l))) = list_to_map l.
Proof.
  intros Hl Hnd. destruct (decide (l = [])) as [->|Hne]; [done|].
  rewrite str_split_join; [|by destruct l|apply Forall_fmap; eapply Forall_impl; [exact Hl|by intros ? ?%label_commas]].
  assert (Hf : foldl add_label ∅ (label_text <$> l) = foldl (λ m p, <[p.1 := p.2]> m) ∅ l).
  { clear Hnd Hne. generalize (∅ : gmap string string). induction Hl as [|p l Hp Hl IH]; intros m; [done|].
    rewrite fmap_cons. cbn [foldl]. by rewrite add_label_text. }
  rewrite Hf. apply map_eq. intros k. apply option_eq. intros v. rewrite foldl_insert_lookup by done.
  rewrite <-elem_of_list_to_map by done. rewrite lookup_empty. naive_solver.
Qed.

Lemma not_comment c t u v : c ≠ "#"%char → has_prefix ((String c t +:+ u) +:+ v) "#" = false.
Proof.
  intros Hc. unfold has_prefix. change ((String c t +:+ u) +:+ v) with (String c ((t +:+ u) +:+ v)).
  rewrite str_prefix_cons. by rewrite decide_False by done.
Qed.

Lemma sample_read s : plain_sample s → parse_line (sample_text s) = Some (sample_metric s).
Proof.
  intros (Hn & Hg & Hb & Hh & Hl & Hnd & Hv & Hvg).
  assert (Hpart : str_all graphic (sp_Name s +:+ String "{" (str_join "," (label_text <$> sp_Labels s) +:+ "}")) = true).
  { rewrite str_all_app, Hg. cbn [str_all andb]. change (graphic "{") with true. rewrite str_all_app.
    rewrite join_graphic; [done|]. apply Forall_fmap. eapply Forall_impl; [exact Hl|apply label_graphic]. }
  assert (Htrim : trim_space (sample_text s) = sample_text s).
  { apply trim_tidy; unfold sample_text.
    - apply starts_app, starts_app. by apply graphic_starts.
    - apply ends_app. change (String " " (sp_Value s)) with (" " +:+ sp_Value s). apply ends_app. by apply graphic_ends. }
  unfold parse_line. rewrite Htrim.
  assert (Hc : ∃ c t, sp_Name s = String c t ∧ c ≠ "#"%char).
  { destruct (sp_Name s) as [|c t]; [done|]. exists c, t. split; [done|]. intros ->. by destruct t. }
  destruct Hc as (c & t & Hname & Hc). rewrite decide_False by (unfold sample_text; by rewrite Hname).
  assert (Hp : has_prefix (sample_text s) "#" = false) by by unfold sample_text; rewrite Hname; apply not_comment.
  rewrite Hp. unfold sample_text at 1. rewrite str_split_char by by apply graphic_free.
  rewrite str_split_char_whole by by apply graphic_free.
  rewrite str_index_app_sep by done. rewrite str_take_app, str_drop_app_S. unfold trim_suffix. rewrite has_suffix_snoc.
  rewrite str_length_app, Nat.add_sub, str_take_app. by rewrite labels_read.
Qed.

(** A page of plain samples, with comments and empty lines between them, is
    read sample by sample. *)
Theorem exposition_read (lines : list (sample + string))
    (Hplain : Forall (λ l, match l with inl s => plain_sample s | inr c => c = "" ∨ ∃ t, c = String "#" t end) lines)
    (Hlines : Forall (λ l, str_contains newline (match l with inl s => sample_text s | inr c => c end) = false) lines)
    (Hend : Forall (λ l, match l with inl s => True | inr c => c = "" ∨ ends c end) lines) :
  lines ≠ [] →
  parsePrometheusData (str_join (String newline "") ((λ l, match l with inl s => sample_text s | inr c => c end) <$> lines)) =
  omap (λ l, match l with inl s => Some (sample_metric s) | inr _ => None end) lines.
Proof.
  intros Hne. unfold parsePrometheusData.
  rewrite str_split_join; [|by destruct lines|by apply Forall_fmap].
  clear Hne Hlines. induction Hplain as [|l lines Hl _ IH]; [done|]. apply Forall_cons in Hend as [He Hend].
  specialize (IH Hend). rewrite fmap_cons. cbn [omap list_omap]. rewrite IH. destruct l as [s|c].
  - by rewrite sample_read.
  - unfold parse_line. destruct Hl as [->|[t ->]]; [done|]. destruct He as [He|He]; [done|].
    rewrite trim_tidy; [|by exists "#"%char, t|done]. rewrite decide_False by done.
    by replace (has_prefix (String "#" t) "#") with true by by destruct t.
Qed.
End metrics.

(** ** Texts that are not plain *)
Module MetricsExample.
Definition q (s : string) : string := String quote (s +:+ String quote "").

(** A sample without labels and one with a blank or a comma in a label are
    lost or cut, though the format allows them. *)
Theorem samples_lost :
  parse_line id "jvm_threads 5" = None ∧
  parse_line id ("requests{method=" +:+ q "get order" +:+ "} 5") = None ∧
  (mt_Labels <$> parse_line id ("requests{args=" +:+ q "int,string" +:+ "} 5")) = Some {["args" := "int"]}.
Proof. split_and!; vm_compute; reflexivity. Qed.
End MetricsExample.
