(* ===== verification/ReadRequests.v ===== *)
(** The requests of the console that read: services, applications, instances
    and events (pkg/console/handler/service.go, application.go, instance.go,
    event.go), and the generic invocation of a service. *)
From S2P Require Import Prelude GoStrings Errors Resource Libs Indexers Store Queries Versioning Gorm Lock RuleService Manager ConditionExpr ServiceMethods Json GenericArgs GenericInvoke Instances ConsoleViews ConsoleQueries ApplicationGraph ServicePages RuleSearches Http EventTimeline SettingsRequests.

Open Scope string_scope.
Open Scope list_scope.
Open Scope Z_scope.

(** What gin binds of a query, without the fields no service looks at. *)
Record ServiceTabDistributionReq := { td_ServiceName : string; td_Keywords : string; td_Mesh : string; td_PageReq : PageReq }.
Record ApplicationDetailReq := { ad_AppName : string; ad_Mesh : string }.
Record ApplicationTabInstanceInfoReq := { ai_AppName : string; ai_Mesh : string; ai_PageReq : PageReq }.
Record ApplicationServiceFormReq := {
  af_AppName : string; af_ServiceName : string; af_Side : string; af_Mesh : string; af_PageReq : PageReq }.
Record InstanceDetailReq := { in_InstanceName : string; in_Mesh : string }.

(** How the handlers are made: bind the request, ask the service, answer. *)
Definition answer {T} (r : result error T) : reply T := served HandleServiceError r (λ resp, success (Some resp)).
Definition read {Q T} (refuse : error → reply T) (bound : result error Q) (service : Q → result error T) : reply T :=
  match bound with Err e => refuse e | Ok req => answer (service req) end.
Definition bad_query {T} (e : error) : reply T := bad_request (error_string e).

Section requests.
Context `{MapRange} (IsBlank : string → bool) (cfg : AdminConfig).

(** ** model/service.go *)
Record ServiceMethodDetailReq := { md_Base : BaseServiceReq; md_MethodName : string; md_Signature : string }.
Definition present (what s : string) : result error string :=
  if IsBlank (trim_space s) then Err (ErrorText (what +:+ " is empty")) else Ok (trim_space s).
Definition ServiceMethodDetailReq_Query (q : gmap string string) : result error ServiceMethodDetailReq :=
  base ← BaseServiceReq_Query IsBlank q;
  methodName ← present "method name" (Query q "methodName");
  signature ← present "signature" (Query q "signature");
  Ok {| md_Base := base; md_MethodName := methodName; md_Signature := signature |}.

Section reader.
Context {M : Type} `{ReadOnlyResourceManager M}.
Implicit Types m : M.

(** ** service.go *)
Definition SearchServices m (bound : result error SearchReq) : reply (SearchPaginationResult ServiceSearchResp) :=
  read bad_query bound (λ req, ConsoleQueries.SearchServices IsBlank m (sq_Mesh req) (sq_Keywords req) (sq_PageReq req)).
Definition GetServiceTabDistribution m (bound : result error ServiceTabDistributionReq)
    : reply (SearchPaginationResult ApplicationSearchResp) :=
  read bad_query bound (λ req,
    ConsoleQueries.GetServiceTabDistribution IsBlank cfg m (td_Mesh req) (td_ServiceName req) (td_Keywords req) (td_PageReq req)).
Definition service_req (req : BaseServiceReq) : ServiceReq :=
  {| sr_ServiceName := req_ServiceName req; sr_Version := req_Version req; sr_Group := req_Group req;
     sr_Mesh := req_Mesh req |}.
Definition GetServiceProviderInstances m (q : gmap string string) : reply (list SearchInstanceResp) :=
  read HandleArgumentError (BaseServiceReq_Query IsBlank q) (λ req,
    ServicePages.GetServiceProviderInstances IsBlank cfg m (service_req req)).
Definition GetServiceGraph m (bound : result error ServiceReq) : reply GraphData :=
  read bad_query bound (GraphServices m).
Definition GetServiceDetail m (bound : result error ServiceReq) : reply ServiceDetailResp :=
  read bad_query bound (ServicePages.GetServiceDetail m).

(** ** application.go *)
Definition GetApplicationDetail m (bound : result error ApplicationDetailReq) : reply ApplicationDetail :=
  read HandleArgumentError bound (λ req, ConsoleQueries.GetApplicationDetail IsBlank cfg m (ad_Mesh req) (ad_AppName req)).
Definition GetApplicationTabInstanceInfo m (bound : result error ApplicationTabInstanceInfoReq)
    : reply (SearchPaginationResult AppInstanceInfoResp) :=
  read HandleArgumentError bound (λ req, GetAppInstanceInfo IsBlank cfg m (ai_Mesh req) (ai_AppName req) (ai_PageReq req)).
Definition GetApplicationServiceForm m (bound : result error ApplicationServiceFormReq)
    : reply (SearchPaginationResult ServiceSearchResp) :=
  read HandleArgumentError bound (λ req,
    GetAppServiceInfo IsBlank m (af_Mesh req) (af_AppName req) (af_ServiceName req) (af_Side req) (af_PageReq req)).
Definition ApplicationSearch m (bound : result error SearchReq)
    : reply (option (SearchPaginationResult ApplicationSearchResp)) :=
  read HandleArgumentError bound (λ req, SearchApplications IsBlank cfg m (sq_Mesh req) (sq_Keywords req) (sq_PageReq req)).
Definition GetApplicationGraph m (bound : result error ApplicationDetailReq) : reply GraphData :=
  read HandleArgumentError bound (λ req, GraphApplications m (ad_Mesh req) (ad_AppName req)).

(** ** instance.go; the service never answers a nil detail without an error *)
Definition GetInstanceDetail m (bound : result error InstanceDetailReq) : reply InstanceDetailResp :=
  read bad_query bound (λ req, ConsoleQueries.GetInstanceDetail IsBlank cfg m (in_Mesh req) (in_InstanceName req)).
Definition SearchInstances m (bound : result error SearchReq) : reply (SearchPaginationResult SearchInstanceResp) :=
  read (λ _, sent [JSON StatusBadRequest (NewBizErrorResp (InvalidArgument, "appName is empty"))]) bound
    (λ req, ConsoleQueries.SearchInstances IsBlank cfg m (sq_Mesh req) (sq_Keywords req) (sq_PageReq req)).

(** ** event.go *)
Definition GetApplicationEvents m (bound : result error EventQueryReq) : reply EventListResp :=
  read HandleArgumentError bound (ListApplicationEvents m).
Definition GetInstanceEvents m (bound : result error EventQueryReq) : reply EventListResp :=
  read HandleArgumentError bound (ListInstanceEvents m).
Definition GetServiceEvents m (bound : result error EventQueryReq) : reply EventListResp :=
  read HandleArgumentError bound (ListServiceEvents m).
End reader.

(** ** The methods of a service, and the call of one *)
Section manager.
Context {St W G : Type} `{ResourceStore St} (ResourceKindRoute : W → ResourceKind → result error St).
Context {E V : Type}.
Context (invokeGenericServiceRPC : E → genericInvocation → E * result error V) (ctx_Err : E → option error).
Context (WithTimeout : Z → gmap string string → E → E) (cancel : E → E).
Context (ErrClientClosed ErrDestroyedInvoker ErrNoReply : error) (int64_overflow : float64 → Z).
Implicit Types rm : resourcesManager (W := W) (G := G).

Definition GetServiceMethodNames rm (q : gmap string string) : reply (list ServiceMethodSummaryResp) :=
  read HandleArgumentError (BaseServiceReq_Query IsBlank q) (ServiceMethods.GetServiceMethodNames ResourceKindRoute rm).
Definition GetServiceMethodDetail rm (q : gmap string string) : reply (option ServiceMethodDetailResp) :=
  read HandleArgumentError (ServiceMethodDetailReq_Query q) (λ req,
    ServiceMethods.GetServiceMethodDetail IsBlank ResourceKindRoute rm (md_Base req) (md_MethodName req) (md_Signature req)).

Definition ServiceGenericInvoke rm (bound : result error ServiceGenericInvokeReq) (e : E) : E * reply (option V) :=
  match bound with
  | Err err => (e, HandleArgumentError err)
  | Ok req =>
      match Validate IsBlank req with
      | Err err => (e, HandleArgumentError err)
      | Ok req =>
          let '(e, r) := InvokeServiceGeneric ResourceKindRoute invokeGenericServiceRPC ctx_Err WithTimeout cancel
                           ErrClientClosed ErrDestroyedInvoker ErrNoReply int64_overflow rm req e in
          (e, answer r)
      end
  end.
End manager.
End requests.

(** ** What they answer *)
Lemma answer_once {T} (r : result error T) : well_answered (answer r) ↔ r ≠ Err nil_dereference.
Proof.
  unfold answer, served. destruct r as [a|e]; [by split|].
  case_decide as Hd; [subst; split; [by intros []|done]|]. split; [by intros _ [=]|by split].
Qed.

(** A request that reads is answered once, with success exactly when it was
    bound and the service found what it asks for; only a nil dereference in
    the service leaves it without an answer. *)
Theorem read_answered {Q T} (refuse : error → reply T) (bound : result error Q) service
    (Hrefuse : ∀ e, well_answered (refuse e) ∧ ¬ succeeded (refuse e)) :
  (well_answered (read refuse bound service) ↔ ∀ req, bound = Ok req → service req ≠ Err nil_dereference) ∧
  (∀ data, read refuse bound service = success (Some data) ↔ ∃ req, bound = Ok req ∧ service req = Ok data).
Proof.
  destruct bound as [req|e]; simpl.
  - rewrite answer_once. split; [naive_solver|]. intros data. unfold answer, served.
    destruct (service req) as [a|e] eqn:Hr; (split; [|intros (? & [= <-] & Hk); rewrite Hr in Hk; by simplify_eq]).
    + intros [= ->]. eauto.
    + case_decide; [done|]. intros Hs. exfalso. apply (error_no_success (D := T) e). rewrite Hs. by exists (Some data).
  - destruct (Hrefuse e) as [Hw Hn]. split; [naive_solver|]. intros data. split; [|by intros (? & [=] & _)].
    intros Hs. destruct Hn. rewrite Hs. by exists (Some data).
Qed.
