(* ===== verification/ZkGovernor.v ===== *)
(** pkg/governor/zk: rules written to ZooKeeper and, at once, to the store
    their readers use; pkg/core/store/component.go: the stores by kind. *)
From S2P Require Import Prelude GoStrings Errors Resource Libs Indexers Store Versioning Gorm Lock RuleService Manager ConditionExpr ServiceMethods ServiceConfig ServiceSettings.

Open Scope string_scope.
Open Scope list_scope.
Open Scope Z_scope.

(** github.com/go-zookeeper/zk: the operations on a connection. *)
Class ZooKeeper (C : Type) := {
  zk_Create : C → string → string → C * option error;
  zk_Set : C → string → string → C * option error;
  zk_Delete : C → string → C * option error }.

(** rule_spec_yaml.go: the document of a rule; condition and tag routes spell
    out the flags their own encoding leaves out when they are false. *)
Inductive rule_document :=
| ConditionRouteDoc (rule : ConditionRoute) (enabled force runtime : bool)
| TagRouteDoc (rule : TagRoute) (enabled force runtime : bool)
| PlainDoc (spec : Spec).

Definition rule_doc (spec : Spec) : rule_document :=
  match spec with
  | ConditionRouteSpec (Some r) => ConditionRouteDoc r (cr_Enabled r) (cr_Force r) (cr_Runtime r)
  | TagRouteSpec (Some r) => TagRouteDoc r (tr_Enabled r) (tr_Force r) (tr_Runtime r)
  | _ => PlainDoc spec
  end.

Section governor.
Context {C St : Type} `{ZooKeeper C, ResourceStore St}.
Context (yaml_Marshal : rule_document → result error string) (res_String : Resource → string).

(** The ZooKeeper connection and the stores of the store component. *)
Record world := { zw_conn : C; zw_stores : gmap ResourceKind St }.

Definition with_conn (w : world) (c : C) : world := {| zw_conn := c; zw_stores := zw_stores w |}.
Definition with_store (w : world) (k : ResourceKind) (s : St) : world :=
  {| zw_conn := zw_conn w; zw_stores := <[k := s]> (zw_stores w) |}.

Definition ResourceKindRoute (w : world) (k : ResourceKind) : result error St :=
  match zw_stores w !! k with
  | Some store => Ok store
  | None => Err (ErrorText (kind_string k +:+ " is not supported by store yet"))
  end.
Definition ResourceRoute (w : world) (r : Resource) : result error St := ResourceKindRoute w (res_kind r).

Definition MarshalRuleSpec (spec : Spec) : result error string := yaml_Marshal (rule_doc spec).

Definition rule_path (r : Resource) : string := "/dubbo/config/" +:+ res_Name r.

Definition marshal_failed (r : Resource) (e : error) : error :=
  biz_wrap e YamlError ("failed to marshal resource spec, res: " +:+ res_String r).
Definition zk_failed (verb : string) (r : Resource) (e : error) : error :=
  biz_wrap e ZKError ("failed to " +:+ verb +:+ " zk node, path: " +:+ rule_path r).

(** The store is brought up to date too; a failure there is only logged. *)
Definition save (w : world) (r : Resource) (op : St → obj → St * option error) : world :=
  match ResourceRoute w r with
  | Err _ => w
  | Ok st => with_store w (res_kind r) (op st (ResourceObj r)).1
  end.

Definition CreateRule (w : world) (r : Resource) : world * option error :=
  match MarshalRuleSpec (res_spec r) with
  | Err e => (w, Some (marshal_failed r e))
  | Ok content =>
      match zk_Create (zw_conn w) (rule_path r) content with
      | (c, Some e) => (with_conn w c, Some (zk_failed "create" r e))
      | (c, None) => (save (with_conn w c) r st_Add, None)
      end
  end.

Definition UpdateRule (w : world) (r : Resource) : world * option error :=
  match MarshalRuleSpec (res_spec r) with
  | Err e => (w, Some (marshal_failed r e))
  | Ok content =>
      match zk_Set (zw_conn w) (rule_path r) content with
      | (c, Some e) => (with_conn w c, Some (zk_failed "update" r e))
      | (c, None) => (save (with_conn w c) r st_Update, None)
      end
  end.

(** After a failed route the code goes on with a nil store. *)
Definition DeleteRule (w : world) (r : Resource) : world * option error :=
  match zk_Delete (zw_conn w) (rule_path r) with
  | (c, Some e) => (with_conn w c, Some (zk_failed "delete" r e))
  | (c, None) =>
      let w := with_conn w c in
      match ResourceRoute w r with
      | Err _ => (w, Some nil_dereference)
      | Ok st => (with_store w (res_kind r) (st_Delete st (ResourceObj r)).1, None)
      end
  end.
End governor.
Arguments world : clear implicits.
Arguments Build_world {C St}.

(** The governor of a mesh carries no state of its own. *)
#[export] Instance zk_governor {C St} `{ZooKeeper C, ResourceStore St}
    (yaml_Marshal : rule_document → result error string) (res_String : Resource → string) :
    RuleGovernor unit (world C St) := {
  gov_CreateRule _ := CreateRule yaml_Marshal res_String;
  gov_UpdateRule _ := UpdateRule yaml_Marshal res_String;
  gov_DeleteRule _ := DeleteRule }.

(** ** The manager over this governor shows its writes *)
Section visible.
Context {C St : Type} `{ZooKeeper C, ResourceStoreLaws St}.
Context (yaml_Marshal : rule_document → result error string) (res_String : Resource → string).
#[local] Instance gov : RuleGovernor unit (world C St) := zk_governor yaml_Marshal res_String.
#[local] Instance manager : ResourceManager (resourcesManager (W := world C St) (G := unit)) :=
  resource_manager ResourceKindRoute.

Abbreviation rm_t := (resourcesManager (W := world C St) (G := unit)).

(** Every store is sound and holds its own kind. *)
Definition stores_ok (w : world C St) : Prop :=
  map_Forall (λ k s, st_ok s ∧ st_kind s = k) (zw_stores w).

#[local] Program Instance manager_laws : ResourceManagerLaws rm_t := {
  rm_ok rm := stores_ok (rg_world rm) }.
Next Obligation.
  intros rm kind key r Hok. simpl. unfold GetByKey, ResourceKindRoute.
  destruct (zw_stores (rg_world rm) !! kind) as [s|] eqn:Hs; simpl; [|done].
  destruct (Hok _ _ Hs) as [Hst Hk]. rewrite st_GetByKey_spec by done.
  destruct (st_items s !! key) as [x|] eqn:Hx; simpl; [|done]. intros [= <-].
  destruct (st_items_key s key x Hst Hx). by subst.
Qed.

Lemma GetByKey_items (rm : rm_t) kind key s :
  stores_ok (rg_world rm) → zw_stores (rg_world rm) !! kind = Some s →
  GetByKey ResourceKindRoute rm kind key = Ok (st_items s !! key).
Proof.
  intros Hok Hs. unfold GetByKey, ResourceKindRoute. rewrite Hs. simpl.
  rewrite st_GetByKey_spec by by apply (Hok _ _ Hs). by destruct (st_items s !! key).
Qed.

(** A store operation that files [r] under its key. *)
Definition files (op : St → obj → St * option error) (r : Resource) (s : St) : Prop :=
  ∃ s', op s (ResourceObj r) = (s', None) ∧ st_ok s' ∧ st_kind s' = st_kind s ∧
    st_items s' !! ResourceKey r = Some r.

Lemma save_visible (rm : rm_t) c r op s gs :
  stores_ok (rg_world rm) → zw_stores (rg_world rm) !! res_kind r = Some s → files op r s →
  let rm' := {| rg_governors := gs; rg_world := save (with_conn (rg_world rm) c) r op |} : rm_t in
  stores_ok (rg_world rm') ∧ GetByKey ResourceKindRoute rm' (res_kind r) (ResourceKey r) = Ok (Some r).
Proof.
  intros Hok Hs (s' & Hop & Hs' & Hk & Hi). unfold save, ResourceRoute, ResourceKindRoute. simpl.
  rewrite Hs, Hop. simpl.
  assert (Hok' : stores_ok (with_store (with_conn (rg_world rm) c) (res_kind r) s')).
  { apply map_Forall_insert_2; [|exact Hok]. split; [done|]. rewrite Hk. by apply (Hok _ _ Hs). }
  split; [done|].
  erewrite GetByKey_items; [by rewrite Hi|done|]. simpl. apply lookup_insert_eq.
Qed.

Lemma found_store (rm : rm_t) r o :
  GetByKey ResourceKindRoute rm (res_kind r) (ResourceKey r) = Ok o →
  ∃ s, zw_stores (rg_world rm) !! res_kind r = Some s.
Proof.
  unfold GetByKey, ResourceKindRoute.
  destruct (zw_stores (rg_world rm) !! res_kind r) as [s|]; [by eexists|done].
Qed.

#[local] Program Instance manager_visible : VisibleWrites rm_t.
Next Obligation.
  intros rm r old rm' Hok Hget Hup. simpl in *.
  destruct (found_store _ _ _ Hget) as [s Hs]. rewrite (GetByKey_items _ _ _ s) in Hget by done.
  assert (Hold : is_Some (st_items s !! ResourceKey r)) by (simplify_eq; by eexists).
  unfold Update, routed in Hup. case_decide; [|done].
  destruct (Manager.ResourceRoute rm r); [|done]. simpl in Hup. unfold UpdateRule in Hup.
  destruct (MarshalRuleSpec _ _); [|done]. destruct (zk_Set _ _ _) as [c [e|]]; simplify_eq.
  destruct (Hok _ _ Hs) as [Hst Hk].
  destruct (st_Update_present s r Hst (eq_sym Hk) Hold) as (s' & ? & ? & ? & _ & Hi).
  apply (save_visible _ _ _ _ s); [done..|]. exists s'. split_and!; [done..|].
  rewrite Hi. apply lookup_insert_eq.
Qed.
Next Obligation.
  intros rm r rm' Hok Hget Hup. simpl in *.
  destruct (found_store _ _ _ Hget) as [s Hs]. rewrite (GetByKey_items _ _ _ s) in Hget by done.
  assert (Hold : st_items s !! ResourceKey r = None) by by simplify_eq.
  unfold Add, routed in Hup. case_decide; [|done].
  destruct (Manager.ResourceRoute rm r); [|done]. simpl in Hup. unfold CreateRule in Hup.
  destruct (MarshalRuleSpec _ _); [|done]. destruct (zk_Create _ _ _) as [c [e|]]; simplify_eq.
  destruct (Hok _ _ Hs) as [Hst Hk].
  destruct (st_Add_fresh s r Hst (eq_sym Hk) Hold) as (s' & ? & ? & ? & _ & Hi).
  apply (save_visible _ _ _ _ s); [done..|]. exists s'. split_and!; [done..|].
  rewrite Hi. apply lookup_insert_eq.
Qed.
End visible.
