(* ===== verification/NacosGovernor.v ===== *)
(** pkg/governor/nacos2/governor.go: rules written to the configuration centre
    of Nacos and, once it answers with them, to the store. *)
From S2P Require Import Prelude GoStrings Errors Resource Libs Indexers Store Manager ZkGovernor Queries EventBus Subscribers RegistryEvents Json Instances ServiceCatalog NacosServices ZkRegistry ZkMirror.

Open Scope string_scope.
Open Scope list_scope.

(** github.com/nacos-group/nacos-sdk-go: the documents of the group dubbo. *)
Class NacosConfig (C : Type) := {
  nc_PublishConfig : C → string → string → C * result error bool;
  nc_DeleteConfig : C → string → C * result error bool;
  nc_GetConfig : C → string → result error string }.

(** What was published is what is read. *)
Class NacosConfigLaws (C : Type) `{NacosConfig C} :=
  nc_published c name content c' : nc_PublishConfig c name content = (c', Ok true) → nc_GetConfig c' name = Ok content.

Section governor.
Context {C St : Type} `{NacosConfig C, ResourceStore St}.
Context (yaml_Marshal : rule_document → result error string) (res_String : Resource → string).
Context (yaml_TagRoute : string → TagRoute) (yaml_ConditionRoute : string → ConditionRoute)
  (yaml_DynamicConfig : string → DynamicConfig).

(** The client, and the stores with the events sent. *)
Record nacos_world := { nw_client : C; nw_world : world St }.
Definition on_client (w : nacos_world) (c : C) : nacos_world := {| nw_client := c; nw_world := nw_world w |}.

Definition nacos_failed (cause : option error) (what : string) (r : Resource) : option error :=
  Some (BizError cause NacosError ("failed to " +:+ what +:+ ", res: " +:+ res_String r)).

(** [None] for a kind that is not one of the three. *)
Definition rule_read (r : Resource) (content : string) : option Resource :=
  match res_kind r with
  | DynamicConfigKind => Some (ToDynamicConfigResource yaml_DynamicConfig (res_Mesh r) (res_Name r) content)
  | ConditionRouteKind => Some (ToConditionRouteResource yaml_ConditionRoute (res_Mesh r) (res_Name r) content)
  | TagRouteKind => Some (ToTagRouteResource yaml_TagRoute (res_Mesh r) (res_Name r) content)
  | _ => None
  end.

(** Failures are logged; the lister-watcher brings the store up to date later. *)
Definition store_rule (r : Resource) (content : string) : M St unit :=
  match rule_read r content with
  | None => fail nil_pointer
  | Some res =>
      obj ← reading (res_kind r) (λ st, st_GetByKey st (ResourceKey r));
      match obj with
      | Some obj =>
          _ ← writing (res_kind r) st_Update res;
          Send (NewResourceChangedEvent Updated (obj_resource obj) (Some res))
      | None =>
          _ ← writing (res_kind r) st_Add res;
          Send (NewResourceChangedEvent Added None (Some res))
      end
  end.

Definition GetConfigAndUpdateStore (w : nacos_world) (r : Resource) : nacos_world :=
  match nc_GetConfig (nw_client w) (res_Name r) with
  | Err _ => w
  | Ok content => {| nw_client := nw_client w; nw_world := (store_rule r content (nw_world w)).1 |}
  end.

Definition nacos_CreateRule (w : nacos_world) (r : Resource) : nacos_world * option error :=
  match MarshalRuleSpec yaml_Marshal (res_spec r) with
  | Err e => (w, nacos_failed (Some e) "marshal resource spec" r)
  | Ok rawContent =>
      match nc_PublishConfig (nw_client w) (res_Name r) rawContent with
      | (c, Err e) => (on_client w c, nacos_failed (Some e) "publish config" r)
      | (c, Ok false) => (on_client w c, nacos_failed None "publish config" r)
      | (c, Ok true) => (GetConfigAndUpdateStore (on_client w c) r, None)
      end
  end.

Definition nacos_UpdateRule (w : nacos_world) (r : Resource) : nacos_world * option error := nacos_CreateRule w r.

Definition nacos_DeleteRule (w : nacos_world) (r : Resource) : nacos_world * option error :=
  match nc_DeleteConfig (nw_client w) (res_Name r) with
  | (c, Err e) => (on_client w c, nacos_failed (Some e) "delete config" r)
  | (c, Ok false) => (on_client w c, nacos_failed None "delete config" r)
  | (c, Ok true) =>
      ({| nw_client := c; nw_world := (writing (res_kind r) st_Delete r (nw_world w)).1 |}, None)
  end.
End governor.
Arguments nacos_world : clear implicits.
Arguments Build_nacos_world {C St}.

(** It is a governor of the resource manager. *)
#[export] Instance nacos_governor {C St} `{NacosConfig C, ResourceStore St}
    (yaml_Marshal : rule_document → result error string) (res_String : Resource → string)
    (yaml_TagRoute : string → TagRoute) (yaml_ConditionRoute : string → ConditionRoute)
    (yaml_DynamicConfig : string → DynamicConfig) : RuleGovernor unit (nacos_world C St) := {
  gov_CreateRule _ := nacos_CreateRule yaml_Marshal res_String yaml_TagRoute yaml_ConditionRoute yaml_DynamicConfig;
  gov_UpdateRule _ := nacos_UpdateRule yaml_Marshal res_String yaml_TagRoute yaml_ConditionRoute yaml_DynamicConfig;
  gov_DeleteRule _ := nacos_DeleteRule res_String }.

(** ** What is written is stored *)
Section stored.
Context {C St : Type} `{!NacosConfig C, !NacosConfigLaws C} `{ResourceStoreQueries St}.
Context (yaml_Marshal : rule_document → result error string) (res_String : Resource → string).
Context (yaml_TagRoute : string → TagRoute) (yaml_ConditionRoute : string → ConditionRoute)
  (yaml_DynamicConfig : string → DynamicConfig).

Abbreviation read := (rule_read yaml_TagRoute yaml_ConditionRoute yaml_DynamicConfig).

(** The library reads back the documents it writes. *)
Definition yaml_reads_back : Prop := ∀ spec content, yaml_Marshal (rule_doc spec) = Ok content →
  match spec with
  | TagRouteSpec (Some s) => yaml_TagRoute content = s
  | ConditionRouteSpec (Some s) => yaml_ConditionRoute content = s
  | DynamicConfigSpec (Some s) => yaml_DynamicConfig content = s
  | _ => True
  end.

Definition is_rule (r : Resource) : Prop :=
  match res_spec r with TagRouteSpec (Some _) | ConditionRouteSpec (Some _) | DynamicConfigSpec (Some _) => True | _ => False end.

(** The resource the store gets for a rule: its name, mesh and spec. *)
Definition as_read (r : Resource) : Resource := new_resource_of (res_Name r) (res_Mesh r) (res_spec r).

Lemma read_back r content : yaml_reads_back → is_rule r → MarshalRuleSpec yaml_Marshal (res_spec r) = Ok content →
  read r content = Some (as_read r).
Proof.
  intros Hy Hr Hm. specialize (Hy _ _ Hm). unfold rule_read, is_rule, as_read, res_kind in *.
  destruct (res_spec r) as [| | | | | | |[s|]|[s|]|[s|]| | | | | | |]; try done; simpl; by rewrite <-Hy.
Qed.

Lemma is_rule_kind_of r : is_rule r → is_rule_kind (res_kind r).
Proof.
  unfold is_rule, is_rule_kind, res_kind.
  destruct (res_spec r) as [| | | | | | |[s|]|[s|]|[s|]| | | | | | |]; try done; set_solver.
Qed.

(** a rule written through Nacos is in the store when the call returns. If
    the client reads back what it published and the library what it wrote,
    then after a creation or update without error the store of the kind holds,
    under the key of the rule, a resource with its spec, and is otherwise
    unchanged, as are the other stores, and one event announces the change;
    after a failed one the stores and the events are as before. *)
Theorem nacos_writes_stored w r w' err : yaml_reads_back → world_ok (nw_world w) → is_rule r →
  res_kind r ∈ dom (w_stores (nw_world w)) →
  nacos_UpdateRule yaml_Marshal res_String yaml_TagRoute yaml_ConditionRoute yaml_DynamicConfig w r = (w', err) →
  match err with
  | None => changed (nw_world w) (nw_world w') (res_kind r)
      (<[ResourceKey r := as_read r]> (items (nw_world w) (res_kind r)))
      [match items (nw_world w) (res_kind r) !! ResourceKey r with
       | None => NewResourceChangedEvent Added None (Some (as_read r))
       | Some old => NewResourceChangedEvent Updated (Some old) (Some (as_read r))
       end]
  | Some _ => nw_world w' = nw_world w
  end.
Proof.
  intros Hy Hw Hr Hd. unfold nacos_UpdateRule, nacos_CreateRule.
  destruct (MarshalRuleSpec yaml_Marshal (res_spec r)) as [content|e] eqn:Hm; [|by intros [= <- <-]].
  destruct (nc_PublishConfig _ _ _) as [c [[]|e]] eqn:Hp; intros [= <- <-]; [|done..].
  unfold GetConfigAndUpdateStore. cbn [nw_client on_client]. rewrite (nc_published _ _ _ _ Hp).
  cbn [nw_world on_client].
  unfold store_rule. rewrite (read_back r content) by done.
  erewrite bind_ok by by apply reading_GetByKey.
  change (res_kind r) with (res_kind (as_read r)) in *. change (ResourceKey r) with (ResourceKey (as_read r)).
  destruct (items (nw_world w) (res_kind (as_read r)) !! ResourceKey (as_read r)) as [old|] eqn:Hold;
    cbn [fmap option_fmap option_map].
  - destruct (writing_Update (nw_world w) (as_read r) Hw Hd) as (w1 & Hw1 & Hc); [by rewrite Hold|].
    erewrite bind_ok by exact Hw1. exact (changed_send _ _ _ _ _ _ Hc).
  - destruct (writing_Add (nw_world w) (as_read r) Hw Hd) as (w1 & Hw1 & Hc); [done|].
    erewrite bind_ok by exact Hw1. exact (changed_send _ _ _ _ _ _ Hc).
Qed.
End stored.

(** ** A tag route is published *)
Module NacosGovernorExample.
#[local] Existing Instance RefStore.ops.
#[local] Existing Instance RefStore.laws.
#[local] Existing Instance RefStore_queries.

Abbreviation client := (gmap string string).
#[local] Instance client_ops : NacosConfig client := {
  nc_PublishConfig c name content := (<[name := content]> c, Ok true);
  nc_DeleteConfig c name := (delete name c, Ok true);
  nc_GetConfig c name := Ok (default "" (c !! name)) }.
#[local] Instance client_laws : NacosConfigLaws client.
Proof. intros c name content c' [= <-]. simpl. by rewrite lookup_insert_eq. Qed.

(** Documents of tag routes without tags: their key. *)
Definition route (key : string) : TagRoute :=
  {| tr_Priority := 0; tr_Enabled := true; tr_Runtime := false; tr_Key := key; tr_ConfigVersion := "v3.0";
     tr_Force := false; tr_Tags := [] |}.
Definition marshal (d : rule_document) : result error string :=
  match d with
  | TagRouteDoc (Build_TagRoute priority true false key version false []) _ _ _ =>
      if decide (priority = 0%Z ∧ version = "v3.0") then Ok key else Err (ErrorText "yaml")
  | _ => Err (ErrorText "yaml")
  end.
Definition no_condition (_ : string) : ConditionRoute :=
  {| cr_ConfigVersion := ""; cr_Priority := 0; cr_Enabled := false; cr_Force := false; cr_Runtime := false;
     cr_Key := ""; cr_Scope := ""; cr_Conditions := [] |}.
Definition no_config (_ : string) : DynamicConfig :=
  {| dc_Key := ""; dc_Scope := ""; dc_ConfigVersion := ""; dc_Enabled := false; dc_Configs := [] |}.

Lemma marshal_reads_back : yaml_reads_back marshal route no_condition no_config.
Proof.
  intros [| | | | | | |[s|]|[[p [] [] k v [] [|]]|]|[s|]| | | | | | |] content; simpl; try done.
  destruct (decide (p = 0%Z ∧ v = "v3.0")) as [[-> ->]|]; [|done]. by intros [= ->].
Qed.

Definition start : nacos_world client RefStore.store :=
  {| nw_client := ∅;
     nw_world := {| w_stores := {[TagRouteKind := {| RefStore.kind := TagRouteKind; RefStore.indexers := ∅; RefStore.items := ∅ |}]};
                    w_sent := [] |} |}.
Definition rule : Resource := new_resource_of "shop.tag-router" "nacos" (TagRouteSpec (Some (route "shop"))).
Definition updated := nacos_UpdateRule marshal res_Name route no_condition no_config start rule.

Lemma nacos_writes_stored_witness :
  updated.2 = None ∧ nw_client updated.1 !! "shop.tag-router" = Some "shop" ∧
  changed (nw_world start) (nw_world updated.1) TagRouteKind {[ResourceKey rule := rule]}
    [NewResourceChangedEvent Added None (Some rule)].
Proof.
  split; [reflexivity|]. split; [vm_compute; reflexivity|].
  assert (Hw : world_ok (nw_world start)).
  { intros k s Hs. unfold start in Hs. cbn [nw_world w_stores] in Hs. apply lookup_singleton_Some in Hs as [<- <-]. split; [by apply map_Forall_empty|done]. }
  assert (Hd : res_kind rule ∈ dom (w_stores (nw_world start))) by (unfold start; cbn [nw_world w_stores]; set_solver).
  exact (nacos_writes_stored marshal res_Name route no_condition no_config start rule updated.1 None
    marshal_reads_back Hw I Hd eq_refl).
Defined.
End NacosGovernorExample.
