(* ===== verification/Crypto.v ===== *)
(** The standard-library encodings the console's login flow is built on:
    [encoding/base64] (the unpadded URL alphabet), [crypto/sha256], and
    [crypto/subtle]'s comparison. Bytes are numbers below 256. *)
From S2P Require Import Prelude GoStrings.
From Stdlib Require Import Ascii.

Open Scope string_scope.
Open Scope list_scope.
Open Scope Z_scope.

(** [[]byte(s)]. *)
Fixpoint bytes_of (s : string) : list Z :=
  match s with
  | EmptyString => []
  | String a s => Z.of_nat (nat_of_ascii a) :: bytes_of s
  end.

(** ** base64.RawURLEncoding *)
Definition base64_char (z : Z) : ascii :=
  ascii_of_nat (Z.to_nat
    (if z <? 26 then 65 + z
     else if z <? 52 then 97 + (z - 26)
     else if z <? 62 then 48 + (z - 52)
     else if z =? 62 then 45 else 95)).

(** The [i]-th group of six bits of a number of [n] groups. *)
Definition sextet (v i : Z) : ascii := base64_char (Z.land (Z.shiftr v (6 * i)) 63).

Fixpoint base64_EncodeToString (l : list Z) : string :=
  match l with
  | [] => EmptyString
  | [a] =>
      let v := Z.shiftl a 4 in String (sextet v 1) (String (sextet v 0) EmptyString)
  | [a; b] =>
      let v := Z.shiftl (Z.shiftl a 8 + b) 2 in
      String (sextet v 2) (String (sextet v 1) (String (sextet v 0) EmptyString))
  | a :: b :: c :: l =>
      let v := Z.shiftl (Z.shiftl a 8 + b) 8 + c in
      String (sextet v 3) (String (sextet v 2) (String (sextet v 1)
        (String (sextet v 0) (base64_EncodeToString l))))
  end.

(** ** sha256.Sum256 *)
Definition u32 (z : Z) : Z := Z.land z 4294967295.
Definition rotr (n x : Z) : Z :=
  Z.lor (Z.shiftr x n) (u32 (Z.shiftl x (32 - n))).

(** The constants of the algorithm. *)
Definition sha_k : list Z :=
 [1116352408; 1899447441; 3049323471; 3921009573; 961987163; 1508970993; 2453635748; 2870763221;
  3624381080; 310598401; 607225278; 1426881987; 1925078388; 2162078206; 2614888103; 3248222580;
  3835390401; 4022224774; 264347078; 604807628; 770255983; 1249150122; 1555081692; 1996064986;
  2554220882; 2821834349; 2952996808; 3210313671; 3336571891; 3584528711; 113926993; 338241895;
  666307205; 773529912; 1294757372; 1396182291; 1695183700; 1986661051; 2177026350; 2456956037;
  2730485921; 2820302411; 3259730800; 3345764771; 3516065817; 3600352804; 4094571909; 275423344;
  430227734; 506948616; 659060556; 883997877; 958139571; 1322822218; 1537002063; 1747873779;
  1955562222; 2024104815; 2227730452; 2361852424; 2428436474; 2756734187; 3204031479; 3329325298].
Definition sha_init : list Z :=
 [1779033703; 3144134277; 1013904242; 2773480762; 1359893119; 2600822924; 528734635; 1541459225].

Definition big_endian (n : nat) (z : Z) : list Z :=
  (λ i, Z.land (Z.shiftr z (8 * Z.of_nat i)) 255) <$> reverse (seq 0 n).

(** The message, a one bit, zeros up to the last eight bytes of a block, and
    the length in bits. *)
Definition sha_pad (m : list Z) : list Z :=
  let n := Z.of_nat (length m) in
  m ++ 128 :: replicate (Z.to_nat ((55 - n) `mod` 64)) 0 ++ big_endian 8 (8 * n).

Fixpoint sha_words (l : list Z) : list Z :=
  match l with
  | a :: b :: c :: d :: l =>
      (Z.shiftl a 24 + Z.shiftl b 16 + Z.shiftl c 8 + d) :: sha_words l
  | _ => []
  end.

(** The message schedule, newest word first. *)
Fixpoint sha_schedule (n : nat) (w : list Z) : list Z :=
  match n with
  | O => w
  | S n =>
      let at_ i := default 0 (w !! (i : nat)) in
      let s0 x := Z.lxor (Z.lxor (rotr 7 x) (rotr 18 x)) (Z.shiftr x 3) in
      let s1 x := Z.lxor (Z.lxor (rotr 17 x) (rotr 19 x)) (Z.shiftr x 10) in
      sha_schedule n (u32 (s1 (at_ 1%nat) + at_ 6%nat + s0 (at_ 14%nat) + at_ 15%nat) :: w)
  end.

Definition sha_round (st : list Z) (kw : Z * Z) : list Z :=
  match st with
  | [a; b; c; d; e; f; g; h] =>
      let s1 := Z.lxor (Z.lxor (rotr 6 e) (rotr 11 e)) (rotr 25 e) in
      let ch := Z.lxor (Z.land e f) (Z.land (4294967295 - e) g) in
      let t1 := u32 (h + s1 + ch + kw.1 + kw.2) in
      let s0 := Z.lxor (Z.lxor (rotr 2 a) (rotr 13 a)) (rotr 22 a) in
      let maj := Z.lxor (Z.lxor (Z.land a b) (Z.land a c)) (Z.land b c) in
      [u32 (t1 + s0 + maj); a; b; c; u32 (d + t1); e; f; g]
  | _ => st
  end.

Definition sha_block (h : list Z) (ws : list Z) : list Z :=
  let w := reverse (sha_schedule 48 (reverse ws)) in
  zip_with (λ x y, u32 (x + y)) h (foldl sha_round h (zip sha_k w)).

Fixpoint sha_blocks (fuel : nat) (h ws : list Z) : list Z :=
  match fuel, ws with
  | S fuel, _ :: _ => sha_blocks fuel (sha_block h (take 16 ws)) (drop 16 ws)
  | _, _ => h
  end.

Definition Sum256 (m : list Z) : list Z :=
  let ws := sha_words (sha_pad m) in
  sha_blocks (length ws) sha_init ws ≫= big_endian 4.

(** [subtle.ConstantTimeCompare(x, y) == 1]. *)
Definition ConstantTimeCompare (x y : string) : bool := bool_decide (x = y).

(** The digest of FIPS 180-2, appendix B.1, and a message of two blocks. *)
Example Sum256_abc :
  base64_EncodeToString (Sum256 (bytes_of "abc")) =
  "ungWv48Bz-pBQUDeXa4iI7ADYaOWF3qctBD_YfIAFa0".
Proof. vm_compute. reflexivity. Qed.
Example Sum256_two_blocks :
  base64_EncodeToString (Sum256 (replicate 70 97)) =
  "a9XlA0hVoRJB8N7o_HKFD_2ZVbKDR6hkKLX6GRGfatA".
Proof. vm_compute. reflexivity. Qed.
