(* ===== verification/OAuthStore.v ===== *)
(** pkg/console/auth: the transactions of pending logins ([oauthTransactionStore]
    of service.go), kept by state in a map whose elements sit in a queue
    ordered by expiry. Times are instants in nanoseconds. *)
From S2P Require Import Prelude GoStrings Errors.

Open Scope string_scope.
Open Scope list_scope.
Open Scope Z_scope.

(** session.go *)
Record OAuthTransaction := {
  ot_ProviderID : string;
  ot_State : string;
  ot_CodeVerifier : string;
  ot_Nonce : string }.

#[export] Instance OAuthTransaction_eq_dec : EqDecision OAuthTransaction.
Proof. solve_decision. Defined.

Definition ErrTransactionStoreFull : error := ErrorText "OAuth transaction store is full".

Definition oauthTransactionTTL : Z := 10 * 60 * 1000000000.
Definition oauthTransactionCapacity : Z := 10000.

Record storedOAuthTransaction := {
  so_transaction : OAuthTransaction;
  so_expiresAt : Z }.

#[export] Instance storedOAuthTransaction_eq_dec : EqDecision storedOAuthTransaction.
Proof. solve_decision. Defined.

(** A [*list.Element]: its identity and the value it carries, which never
    changes. *)
Record element := {
  el_id : nat;
  el_Value : storedOAuthTransaction }.

#[export] Instance element_eq_dec : EqDecision element.
Proof. solve_decision. Defined.

(** [ts_next] is the identity of the next element to be allocated. *)
Record oauthTransactionStore := {
  ts_ttl : Z;
  ts_capacity : Z;
  ts_items : gmap string element;
  ts_expiryQueue : list element;
  ts_next : nat }.

Definition newOAuthTransactionStore (ttl capacity : Z) : oauthTransactionStore :=
  {| ts_ttl := ttl; ts_capacity := capacity; ts_items := ∅; ts_expiryQueue := []; ts_next := 0 |}.

Definition with_elements (s : oauthTransactionStore) (items : gmap string element)
    (queue : list element) : oauthTransactionStore :=
  {| ts_ttl := ts_ttl s; ts_capacity := ts_capacity s; ts_items := items;
     ts_expiryQueue := queue; ts_next := ts_next s |}.

Definition state_of (e : element) : string := ot_State (so_transaction (el_Value e)).
Definition expiry_of (e : element) : Z := so_expiresAt (el_Value e).

(** [delete(s.items, …)] and [s.expiryQueue.Remove(element)]. *)
Definition remove (s : oauthTransactionStore) (e : element) : oauthTransactionStore :=
  with_elements s (delete (state_of e) (ts_items s))
    (filter (λ x, el_id x ≠ el_id e) (ts_expiryQueue s)).

(** The loop of [removeExpired]; [fuel] bounds its iterations. *)
Fixpoint removeExpired_loop (fuel : nat) (s : oauthTransactionStore) (now : Z)
    : oauthTransactionStore :=
  match fuel, ts_expiryQueue s with
  | S fuel, e :: _ =>
      if decide (now < expiry_of e) then s else removeExpired_loop fuel (remove s e) now
  | _, _ => s
  end.
Definition removeExpired (s : oauthTransactionStore) (now : Z) : oauthTransactionStore :=
  removeExpired_loop (length (ts_expiryQueue s)) s now.

Definition push (s : oauthTransactionStore) (t : OAuthTransaction) (expiresAt : Z)
    : oauthTransactionStore :=
  let e := {| el_id := ts_next s;
              el_Value := {| so_transaction := t; so_expiresAt := expiresAt |} |} in
  {| ts_ttl := ts_ttl s; ts_capacity := ts_capacity s;
     ts_items := <[ot_State t := e]> (ts_items s);
     ts_expiryQueue := ts_expiryQueue s ++ [e]; ts_next := S (ts_next s) |}.

Definition Put (s : oauthTransactionStore) (t : OAuthTransaction) (now : Z)
    : oauthTransactionStore * option error :=
  let s := removeExpired s now in
  let s := match ts_items s !! ot_State t with
           | Some existing => remove s existing
           | None => s
           end in
  if decide (ts_capacity s ≤ Z.of_nat (size (ts_items s))) then (s, Some ErrTransactionStoreFull)
  else (push s t (now + ts_ttl s), None).

Definition Consume (s : oauthTransactionStore) (state : string) (now : Z)
    : oauthTransactionStore * option OAuthTransaction :=
  match ts_items s !! state with
  | None => (s, None)
  | Some e =>
      let s := remove s e in
      if decide (now < expiry_of e) then (s, Some (so_transaction (el_Value e))) else (s, None)
  end.

(** ** The invariant

    Map and queue hold the same elements, the queue is ordered by expiry, and
    nothing expires later than [ttl] after [clock], the latest time the store
    has seen. *)
Record store_ok (s : oauthTransactionStore) (clock : Z) : Prop := {
  so_items : ∀ k e, ts_items s !! k = Some e ↔ e ∈ ts_expiryQueue s ∧ state_of e = k;
  so_ids : NoDup (el_id <$> ts_expiryQueue s);
  so_next : Forall (λ e, (el_id e < ts_next s)%nat) (ts_expiryQueue s);
  so_sorted : StronglySorted (λ a b, expiry_of a ≤ expiry_of b) (ts_expiryQueue s);
  so_horizon : Forall (λ e, expiry_of e ≤ clock + ts_ttl s) (ts_expiryQueue s);
  so_capacity : Z.of_nat (size (ts_items s)) ≤ ts_capacity s;
  so_ttl : 0 ≤ ts_ttl s }.

(** What the store promises: a map from states to transactions and expiries. *)
Definition contents (s : oauthTransactionStore) : gmap string storedOAuthTransaction :=
  el_Value <$> ts_items s.

Definition unexpired (now : Z) (m : gmap string storedOAuthTransaction)
    : gmap string storedOAuthTransaction :=
  filter (λ p, now < so_expiresAt p.2) m.

Lemma el_id_inj l a b :
  NoDup (el_id <$> l) → a ∈ l → b ∈ l → el_id a = el_id b → a = b.
Proof.
  intros Hn [i Hi]%list_elem_of_lookup [j Hj]%list_elem_of_lookup He.
  assert (i = j) as ->; [|by simplify_eq].
  eapply NoDup_lookup; [exact Hn|..]; rewrite list_lookup_fmap, ?Hi, ?Hj; simpl; by f_equal.
Qed.

Lemma store_new_ok ttl capacity clock :
  0 ≤ ttl → 0 ≤ capacity → store_ok (newOAuthTransactionStore ttl capacity) clock.
Proof.
  intros Ht Hc. split; simpl; try done; try constructor.
  - by rewrite lookup_empty.
  - by intros [?%not_elem_of_nil ?].
Qed.

Lemma StronglySorted_filter_sub {A} (R : relation A) (P : A → Prop) `{∀ x, Decision (P x)} l :
  StronglySorted R l → StronglySorted R (filter P l).
Proof.
  induction 1 as [|x l Hs IH Hx]; [constructor|].
  rewrite filter_cons. case_decide; [|done]. constructor; [done|].
  apply Forall_forall. intros y [_ Hy]%list_elem_of_filter.
  by eapply Forall_forall in Hx.
Qed.

Lemma Forall_filter_sub {A} (P Q : A → Prop) `{∀ x, Decision (Q x)} l :
  Forall P l → Forall P (filter Q l).
Proof. rewrite !Forall_forall. intros Hl x [_ Hx]%list_elem_of_filter. by apply Hl. Qed.

Lemma remove_ok s clock e :
  store_ok s clock → e ∈ ts_expiryQueue s → store_ok (remove s e) clock.
Proof.
  intros Hs He. pose proof (so_ids _ _ Hs) as Hn.
  assert (Hsub : sublist (ts_expiryQueue (remove s e)) (ts_expiryQueue s)) by apply sublist_filter.
  split; simpl; try apply Hs.
  - intros k x. rewrite lookup_delete_Some, (so_items _ _ Hs), list_elem_of_filter. split.
    + intros (Hk & Hx & <-). split; [|done]. split; [|done].
      intros Hid. apply Hk. f_equal. by eapply el_id_inj.
    + intros [[Hid Hx] <-]. split; [|done]. intros Hst. apply Hid.
      assert (ts_items s !! state_of e = Some e) as H1 by by apply (so_items _ _ Hs).
      assert (ts_items s !! state_of x = Some x) as H2 by by apply (so_items _ _ Hs).
      rewrite Hst in H1. by simplify_eq.
  - eapply sublist_NoDup; [exact Hn|]. by apply fmap_sublist.
  - apply Forall_filter_sub, Hs.
  - apply StronglySorted_filter_sub, Hs.
  - apply Forall_filter_sub, Hs.
  - assert (H := so_capacity _ _ Hs).
    assert (size (delete (state_of e) (ts_items s)) ≤ size (ts_items s))%nat; [|lia].
    apply map_subseteq_size, delete_subseteq.
Qed.

Lemma store_ok_later s clock now : store_ok s clock → clock ≤ now → store_ok s now.
Proof.
  intros Hs Hle. split; try apply Hs.
  eapply Forall_impl; [exact (so_horizon _ _ Hs)|]. intros e He. simpl in *. lia.
Qed.

Lemma contents_remove s e : contents (remove s e) = delete (state_of e) (contents s).
Proof. apply fmap_delete. Qed.

Lemma contents_lookup s clock e :
  store_ok s clock → e ∈ ts_expiryQueue s → contents s !! state_of e = Some (el_Value e).
Proof.
  intros Hs He. unfold contents. rewrite lookup_fmap.
  by rewrite (proj2 (so_items _ _ Hs _ e)).
Qed.

Lemma length_contents s : size (contents s) = size (ts_items s).
Proof. apply map_size_fmap. Qed.

(** *** The expiry loop *)
Lemma remove_front_shorter s e q :
  ts_expiryQueue s = e :: q → (length (ts_expiryQueue (remove s e)) ≤ length q)%nat.
Proof.
  intros Hq. simpl. rewrite Hq, filter_cons_False by auto. apply length_filter.
Qed.

#[local] Arguments remove : simpl never.

Definition front_live (s : oauthTransactionStore) (now : Z) : Prop :=
  match ts_expiryQueue s with e :: _ => now < expiry_of e | [] => True end.

Lemma removeExpired_loop_stops fuel s now :
  (length (ts_expiryQueue s) ≤ fuel)%nat → front_live (removeExpired_loop fuel s now) now.
Proof.
  revert s. induction fuel as [|fuel IH]; intros s Hf; unfold front_live; simpl;
    destruct (ts_expiryQueue s) as [|e q] eqn:Hq; simpl in Hf; try lia;
    [by rewrite Hq..|].
  destruct (decide _); [by rewrite Hq|].
  apply IH. pose proof (remove_front_shorter s e q Hq). lia.
Qed.

Lemma removeExpired_loop_fuel fuel fuel' s now :
  (length (ts_expiryQueue s) ≤ fuel)%nat → (length (ts_expiryQueue s) ≤ fuel')%nat →
  removeExpired_loop fuel s now = removeExpired_loop fuel' s now.
Proof.
  revert fuel' s. induction fuel as [|fuel IH]; intros [|fuel'] s Hf Hf'; simpl;
    destruct (ts_expiryQueue s) as [|e q] eqn:Hq; simpl in *; try lia; try done.
  destruct (decide _); [done|].
  pose proof (remove_front_shorter s e q Hq). apply IH; lia.
Qed.

Lemma unexpired_all s clock now :
  store_ok s clock → front_live s now → unexpired now (contents s) = contents s.
Proof.
  intros Hs Hf. apply map_filter_id. intros k x Hx. simpl.
  unfold contents in Hx. apply lookup_fmap_Some in Hx as (e & <- & He).
  apply (so_items _ _ Hs) in He as [He _].
  pose proof (so_sorted _ _ Hs) as Hso. unfold front_live in Hf.
  destruct (ts_expiryQueue s) as [|f q]; [by apply not_elem_of_nil in He|].
  apply StronglySorted_inv in Hso as [_ Hall]. rewrite Forall_forall in Hall.
  apply elem_of_cons in He as [->|He]; [done|].
  specialize (Hall _ He). unfold expiry_of in *. lia.
Qed.

Lemma unexpired_delete now m k x :
  m !! k = Some x → so_expiresAt x ≤ now → unexpired now (delete k m) = unexpired now m.
Proof.
  intros Hk Hx. unfold unexpired. rewrite map_filter_delete. apply delete_id.
  apply map_lookup_filter_None. right. intros y Hy. simplify_eq. simpl. lia.
Qed.

Lemma removeExpired_loop_spec fuel s clock now :
  store_ok s clock → (length (ts_expiryQueue s) ≤ fuel)%nat →
  let s' := removeExpired_loop fuel s now in
  store_ok s' clock ∧ contents s' = unexpired now (contents s) ∧
  ts_ttl s' = ts_ttl s ∧ ts_capacity s' = ts_capacity s.
Proof.
  revert s. induction fuel as [|fuel IH]; intros s Hs Hf; simpl;
    destruct (ts_expiryQueue s) as [|e q] eqn:Hq; simpl in Hf; try lia;
    try (rewrite (unexpired_all s clock now Hs) by (unfold front_live; by rewrite Hq); done).
  assert (e ∈ ts_expiryQueue s) as He by (rewrite Hq; left).
  case_decide.
  - rewrite (unexpired_all s clock now Hs) by (unfold front_live; by rewrite Hq). done.
  - destruct (IH (remove s e)) as (Hok & Hc & ? & ?).
    + by apply remove_ok.
    + pose proof (remove_front_shorter s e q Hq). lia.
    + split_and!; try done. rewrite Hc, contents_remove.
      eapply unexpired_delete; [by eapply contents_lookup|]. unfold expiry_of in *. lia.
Qed.

Lemma removeExpired_spec s clock now :
  store_ok s clock →
  store_ok (removeExpired s now) clock ∧
  contents (removeExpired s now) = unexpired now (contents s) ∧
  ts_ttl (removeExpired s now) = ts_ttl s ∧
  ts_capacity (removeExpired s now) = ts_capacity s.
Proof. intros Hs. by apply removeExpired_loop_spec. Qed.

(** *** Put and Consume *)
Lemma push_ok s clock t :
  store_ok s clock → ts_items s !! ot_State t = None →
  Z.of_nat (size (ts_items s)) < ts_capacity s →
  store_ok (push s t (clock + ts_ttl s)) clock.
Proof.
  intros Hs Hn Hc.
  assert (Hlt := so_next _ _ Hs). assert (Hid := so_ids _ _ Hs).
  assert (Hho := so_horizon _ _ Hs). rewrite Forall_forall in Hlt, Hho.
  assert (Hfresh : ∀ e, e ∈ ts_expiryQueue s → state_of e ≠ ot_State t).
  { intros e He Hst. pose proof (proj2 (so_items _ _ Hs (state_of e) e) (conj He eq_refl)) as H.
    rewrite Hst in H. by simplify_eq. }
  split; simpl.
  - intros k e. rewrite lookup_insert_Some, (so_items _ _ Hs), elem_of_app, list_elem_of_singleton.
    split.
    + intros [[<- <-]|(? & ? & ?)]; [by split; [right|]|by split; [left|]].
    + intros [[He| ->] <-]; [|by left]. right. split_and!; try done. by apply not_eq_sym, Hfresh.
  - rewrite fmap_app. apply NoDup_app. split_and!; [done| |apply NoDup_singleton].
    intros i (e & -> & He)%list_elem_of_fmap Hi%list_elem_of_singleton.
    specialize (Hlt _ He). simpl in *. lia.
  - apply Forall_app. split; [|by repeat constructor].
    apply Forall_forall. intros e He. specialize (Hlt _ He). simpl in *. lia.
  - apply StronglySorted_app_2; [|apply Hs|by repeat constructor].
    intros a b Ha Hb%list_elem_of_singleton. subst b. apply (Hho _ Ha).
  - apply Forall_app. split; [apply Hs|]. by repeat constructor.
  - rewrite map_size_insert_None by done. lia.
  - apply Hs.
Qed.

Definition spec_Put (ttl capacity : Z) (m : gmap string storedOAuthTransaction)
    (t : OAuthTransaction) (now : Z) : gmap string storedOAuthTransaction * option error :=
  let m := delete (ot_State t) (unexpired now m) in
  if decide (capacity ≤ Z.of_nat (size m)) then (m, Some ErrTransactionStoreFull)
  else (<[ot_State t := {| so_transaction := t; so_expiresAt := now + ttl |}]> m, None).

Definition spec_Consume (m : gmap string storedOAuthTransaction) (state : string) (now : Z)
    : gmap string storedOAuthTransaction * option OAuthTransaction :=
  (delete state m,
   x ← m !! state; if decide (now < so_expiresAt x) then Some (so_transaction x) else None).

Lemma Put_refines s clock t now :
  store_ok s clock → clock ≤ now →
  let '(s', err) := Put s t now in
  let '(m, err') := spec_Put (ts_ttl s) (ts_capacity s) (contents s) t now in
  store_ok s' now ∧ contents s' = m ∧ err = err' ∧
  ts_ttl s' = ts_ttl s ∧ ts_capacity s' = ts_capacity s.
Proof.
  intros Hs Hle.
  destruct (removeExpired_spec s now now) as (H1 & Hc1 & Ht1 & Hp1);
    [by eapply store_ok_later|].
  unfold Put, spec_Put. rewrite <-Hc1. set (s1 := removeExpired s now) in *. clearbody s1.
  assert (∃ s2, match ts_items s1 !! ot_State t with
                | Some existing => remove s1 existing | None => s1 end = s2 ∧
    store_ok s2 now ∧ contents s2 = delete (ot_State t) (contents s1) ∧
    ts_ttl s2 = ts_ttl s ∧ ts_capacity s2 = ts_capacity s) as (s2 & -> & H2 & Hc2 & Ht2 & Hp2).
  { destruct (ts_items s1 !! ot_State t) as [e|] eqn:He; eexists; (split; [done|]).
    - apply (so_items _ _ H1) in He as [He Hst]. split_and!; try done.
      + by apply remove_ok.
      + by rewrite contents_remove, Hst.
    - split_and!; try done. symmetry. apply delete_id.
      unfold contents. by rewrite lookup_fmap, He. }
  rewrite <-Hc2, length_contents, <-Hp2. case_decide; [done|].
  assert (ts_items s2 !! ot_State t = None).
  { apply (fmap_None el_Value). rewrite <-lookup_fmap. fold (contents s2).
    by rewrite Hc2, lookup_delete_eq. }
  split_and!; try done.
  - apply push_ok; [done..|lia].
  - unfold contents. simpl. by rewrite fmap_insert, Ht2.
Qed.

Lemma Consume_refines s clock state now :
  store_ok s clock → clock ≤ now →
  let '(s', found) := Consume s state now in
  let '(m, found') := spec_Consume (contents s) state now in
  store_ok s' now ∧ contents s' = m ∧ found = found' ∧
  ts_ttl s' = ts_ttl s ∧ ts_capacity s' = ts_capacity s.
Proof.
  intros Hs Hle. apply (store_ok_later _ _ _ Hs) in Hle as Hn.
  unfold Consume, spec_Consume. unfold contents at 2 3. rewrite lookup_fmap.
  destruct (ts_items s !! state) as [e|] eqn:He; simpl.
  - apply (so_items _ _ Hn) in He as [He <-].
    pose proof (remove_ok s now e Hn He) as Hr. pose proof (contents_remove s e) as Hc.
    unfold expiry_of. destruct (decide _); simpl; by split_and!.
  - split_and!; try done. symmetry. apply delete_id. unfold contents. by rewrite lookup_fmap, He.
Qed.

(** The store of pending logins behaves as a bounded map from states to
    transactions: [Put] first forgets what has expired and an earlier
    transaction of the same state, then refuses with [ErrTransactionStoreFull]
    when the capacity is reached and otherwise files the transaction until
    [now + ttl]; [Consume] takes a transaction out of the map and returns it
    unless it has expired. Both keep map and queue in step and the number of
    pending logins within the capacity. *)
Theorem transactions_refine s clock now (Hs : store_ok s clock) (Hle : clock ≤ now) :
  (∀ t, let '(s', err) := Put s t now in
     store_ok s' now ∧ Z.of_nat (size (contents s')) ≤ ts_capacity s ∧
     spec_Put (ts_ttl s) (ts_capacity s) (contents s) t now = (contents s', err)) ∧
  (∀ state, let '(s', found) := Consume s state now in
     store_ok s' now ∧ Z.of_nat (size (contents s')) ≤ ts_capacity s ∧
     spec_Consume (contents s) state now = (contents s', found)).
Proof.
  split; intros x.
  - pose proof (Put_refines s clock x now Hs Hle) as H.
    destruct (Put s x now), (spec_Put _ _ _ _ _). destruct H as (Hok & <- & <- & ? & <-).
    split_and!; try done. rewrite length_contents. apply Hok.
  - pose proof (Consume_refines s clock x now Hs Hle) as H.
    destruct (Consume s x now), (spec_Consume _ _ _). destruct H as (Hok & <- & <- & ? & <-).
    split_and!; try done. rewrite length_contents. apply Hok.
Qed.

(** The expiry loop terminates: as many iterations as there are pending
    logins are enough, more change nothing, and it stops at an empty queue or
    at a login that has not expired. *)
Theorem removeExpired_terminates s now extra :
  removeExpired_loop (length (ts_expiryQueue s) + extra) s now = removeExpired s now ∧
  front_live (removeExpired s now) now.
Proof.
  split; [apply removeExpired_loop_fuel; lia | by apply removeExpired_loop_stops].
Qed.

Module OAuthStoreExample.

Definition login (state : string) : OAuthTransaction :=
  {| ot_ProviderID := "github"; ot_State := state; ot_CodeVerifier := "v"; ot_Nonce := "" |}.

Lemma transactions_refine_witness :
  let s := (Put (newOAuthTransactionStore 10 1) (login "a") 0).1 in
  (let '(s', err) := Put s (login "b") 5 in
   store_ok s' 5 ∧ Z.of_nat (size (contents s')) ≤ 1 ∧
   spec_Put 10 1 (contents s) (login "b") 5 = (contents s', err)) ∧
  (Put s (login "b") 5).2 = Some ErrTransactionStoreFull ∧
  (Put s (login "b") 10).2 = None ∧
  (Consume s "a" 5).2 = Some (login "a") ∧ (Consume s "a" 10).2 = None.
Proof.
  assert (H0 : store_ok (newOAuthTransactionStore 10 1) 0) by (apply store_new_ok; lia).
  assert (H1 : store_ok (Put (newOAuthTransactionStore 10 1) (login "a") 0).1 0).
  { exact (proj1 (Put_refines _ 0 (login "a") 0 H0 (Z.le_refl 0))). }
  split; [|by vm_compute].
  exact (proj1 (transactions_refine _ 0 5 H1 ltac:(lia)) (login "b")).
Defined.

End OAuthStoreExample.
