(* ===== verification/AuthProviders.v ===== *)
(** pkg/console/auth: principals, the [Provider] interface and its two
    implementations (provider.go, principal.go, github.go, oidc.go). What the
    outside world answers during one authentication (the OAuth2 and OIDC
    libraries and the HTTP servers behind them) is a value of type [network];
    the decisions the code takes on the answers are the definitions. *)
From S2P Require Import Prelude GoStrings Errors Crypto OAuthStore.

Open Scope string_scope.
Open Scope list_scope.
Open Scope Z_scope.

Record Principal := {
  pr_Subject : string;
  pr_Username : string;
  pr_Email : string;
  pr_Groups : list string;
  pr_Roles : list string;
  pr_AuthType : string;
  pr_Provider : string }.

#[export] Instance Principal_eq_dec : EqDecision Principal.
Proof. solve_decision. Defined.

Definition LocalPrincipal (username : string) : Principal :=
  {| pr_Subject := "local:" +:+ username; pr_Username := username; pr_Email := "";
     pr_Groups := []; pr_Roles := []; pr_AuthType := "password"; pr_Provider := "local" |}.

(** [N] is what the network answers while [Authenticate] runs. *)
Record Provider (N : Type) := {
  ID : string;
  DisplayName : string;
  IconURL : string;
  NeedsNonce : bool;
  PostLoginRedirectURL : string;
  AuthorizationURL : OAuthTransaction → string;
  Authenticate : N → string → string → string → result error Principal }.
Arguments ID {N} _.
Arguments DisplayName {N} _.
Arguments IconURL {N} _.
Arguments NeedsNonce {N} _.
Arguments PostLoginRedirectURL {N} _.
Arguments AuthorizationURL {N} _ _.
Arguments Authenticate {N} _ _ _ _ _.

Record PublicProvider := { pp_ID : string; pp_DisplayName : string; pp_IconURL : string }.

Definition PKCEChallenge (verifier : string) : string :=
  base64_EncodeToString (Sum256 (bytes_of verifier)).

(** golang.org/x/oauth2: the client configuration. *)
Record oauthConfig := {
  oc_ClientID : string;
  oc_ClientSecret : string;
  oc_RedirectURL : string;
  oc_Scopes : list string }.

(** The fields of an identity token, and of a user-info answer, that the code
    reads. *)
Record oidcProfile := {
  op_PreferredUsername : string;
  op_Name : string;
  op_Email : string;
  op_Groups : list string;
  op_Roles : list string;
  op_AuthorizedParty : string }.

Record IDToken := {
  it_Subject : string;
  it_Audience : list string;
  it_Nonce : string;
  it_Claims : result error oidcProfile }.

Record UserInfo := { ui_Subject : string; ui_Claims : result error oidcProfile }.

Record githubUser := { gu_ID : Z; gu_Login : string; gu_Email : string }.
Record githubEmail := { ge_Email : string; ge_Primary : bool; ge_Verified : bool }.

(** One authentication's answers. [T] is the type of access tokens;
    [nw_Do token url] is the HTTP answer to a GET: a status and a body. *)
Record network (T : Type) := {
  nw_Exchange : oauthConfig → string → string → result error T;
  nw_NewRequest : string → result error unit;
  nw_Do : option T → string → result error (Z * string);
  nw_idToken : T → option string;
  nw_ParseSigned : string → result error (list string);
  nw_Key : string → result error (string → list string);
  nw_Verify : string → string → result error IDToken;
  nw_UserInfoEndpoint : string;
  nw_UserInfo : T → result error UserInfo;
  nw_user : string → result error githubUser;
  nw_emails : string → result error (list githubEmail) }.
Arguments nw_Exchange {T} _ _ _ _.
Arguments nw_NewRequest {T} _ _.
Arguments nw_Do {T} _ _ _.
Arguments nw_idToken {T} _ _.
Arguments nw_ParseSigned {T} _ _.
Arguments nw_Key {T} _ _.
Arguments nw_Verify {T} _ _ _.
Arguments nw_UserInfoEndpoint {T} _.
Arguments nw_UserInfo {T} _ _.
Arguments nw_user {T} _ _.
Arguments nw_emails {T} _ _.

Definition failing {A} (prefix : string) (r : result error A) : result error A :=
  match r with Ok a => Ok a | Err e => Err (errorf_w prefix e "") end.

Section providers.
Context {T : Type}.
Context (AuthCodeURL : oauthConfig → string → list (string * string) → string).

(** ** github.go *)
Record githubProvider := {
  gh_id : string;
  gh_displayName : string;
  gh_iconURL : string;
  gh_postLoginRedirectURL : string;
  gh_oauth : oauthConfig;
  gh_apiBaseURL : string;
  gh_canReadEmails : bool }.

Fixpoint find_email (p : githubEmail → bool) (emails : list githubEmail) : option string :=
  match emails with
  | [] => None
  | e :: emails => if p e then Some (ge_Email e) else find_email p emails
  end.

Definition selectGitHubEmail (emails : list githubEmail) : string :=
  match find_email (λ e, ge_Primary e && ge_Verified e) emails with
  | Some email => email
  | None => default "" (find_email ge_Verified emails)
  end.

Definition getGitHubJSON {A} (n : network T) (token : T) (endpoint : string)
    (decode : string → result error A) : result error A :=
  _ ← nw_NewRequest n endpoint;
  resp ← nw_Do n (Some token) endpoint;
  if decide (resp.1 < 200 ∨ 300 ≤ resp.1) then
    Err (ErrorText ("GitHub API returned HTTP " +:+ pretty resp.1))
  else decode resp.2.

Definition github_Authenticate (p : githubProvider) (n : network T) (code codeVerifier _nonce : string)
    : result error Principal :=
  token ← failing "exchange GitHub authorization code: "
            (nw_Exchange n (gh_oauth p) code codeVerifier);
  user ← failing "decode GitHub user: "
           (getGitHubJSON n token (gh_apiBaseURL p +:+ "/user") (nw_user n));
  if decide (gu_ID user ≤ 0) then Err (ErrorText "GitHub user numeric id is missing")
  else
    email ← if decide (gu_Email user = "") then
              if gh_canReadEmails p then
                emails ← failing "decode GitHub emails: "
                  (getGitHubJSON n token (gh_apiBaseURL p +:+ "/user/emails") (nw_emails n));
                Ok (selectGitHubEmail emails)
              else Ok ""
            else Ok (gu_Email user);
    Ok {| pr_Subject := gh_id p +:+ ":" +:+ pretty (gu_ID user); pr_Username := gu_Login user;
          pr_Email := email; pr_Groups := []; pr_Roles := []; pr_AuthType := "oauth";
          pr_Provider := gh_id p |}.

Definition github_AuthorizationURL (p : githubProvider) (t : OAuthTransaction) : string :=
  AuthCodeURL (gh_oauth p) (ot_State t)
    [("code_challenge", PKCEChallenge (ot_CodeVerifier t)); ("code_challenge_method", "S256")].

Definition githubProvider_Provider (p : githubProvider) : Provider (network T) := {|
  ID := gh_id p;
  DisplayName := gh_displayName p;
  IconURL := gh_iconURL p;
  NeedsNonce := false;
  PostLoginRedirectURL := gh_postLoginRedirectURL p;
  AuthorizationURL := github_AuthorizationURL p;
  Authenticate := github_Authenticate p |}.

(** ** oidc.go *)
Record oidcProvider := {
  oi_id : string;
  oi_displayName : string;
  oi_iconURL : string;
  oi_clientID : string;
  oi_postLoginRedirectURL : string;
  oi_oauth : oauthConfig;
  oi_jwksURI : string }.

Definition RS256 : string := "RS256".

Definition validateJWKAlgorithm (p : oidcProvider) (n : network T) (rawIDToken : string)
    : result error unit :=
  headers ← failing "parse OIDC ID Token header: " (nw_ParseSigned n rawIDToken);
  match headers with
  | [kid] =>
      if decide (kid = "") then Ok ()
      else
        _ ← failing "create OIDC JWKS request: " (nw_NewRequest n (oi_jwksURI p));
        resp ← failing "read OIDC JWKS: " (nw_Do n None (oi_jwksURI p));
        if decide (resp.1 < 200 ∨ 300 ≤ resp.1) then
          Err (ErrorText ("read OIDC JWKS: endpoint returned HTTP " +:+ pretty resp.1))
        else
          keySet ← failing "decode OIDC JWKS: " (nw_Key n resp.2);
          let algorithms := keySet kid in
          if existsb (λ a, bool_decide (a = "") || bool_decide (a = RS256)) algorithms then Ok ()
          else if decide (algorithms = []) then Ok ()
          else Err (ErrorText "OIDC ID Token signing key declares an algorithm other than RS256")
  | _ => Ok ()
  end.

Definition or_else (a b : string) : string := if decide (a = "") then b else a.

Definition mergeOIDCProfile (target fallback : oidcProfile) : oidcProfile := {|
  op_PreferredUsername := or_else (op_PreferredUsername target) (op_PreferredUsername fallback);
  op_Name := or_else (op_Name target) (op_Name fallback);
  op_Email := or_else (op_Email target) (op_Email fallback);
  op_Groups := if decide (op_Groups target = []) then op_Groups fallback else op_Groups target;
  op_Roles := if decide (op_Roles target = []) then op_Roles fallback else op_Roles target;
  op_AuthorizedParty := op_AuthorizedParty target |}.

Fixpoint first_nonempty (l : list string) : string :=
  match l with
  | [] => ""
  | s :: l => if decide (s = "") then first_nonempty l else s
  end.

Definition oidcUsername (profile : oidcProfile) (subject : string) : string :=
  first_nonempty [op_PreferredUsername profile; op_Name profile; op_Email profile; subject].

Definition oidc_Authenticate (p : oidcProvider) (n : network T) (code codeVerifier nonce : string)
    : result error Principal :=
  token ← failing "exchange OIDC authorization code: "
            (nw_Exchange n (oi_oauth p) code codeVerifier);
  let rawIDToken := default "" (nw_idToken n token) in
  if decide (rawIDToken = "") then Err (ErrorText "OIDC token response is missing id_token")
  else
    _ ← validateJWKAlgorithm p n rawIDToken;
    idToken ← failing "verify OIDC ID Token signature, issuer, audience, or expiration: "
                (nw_Verify n (oi_clientID p) rawIDToken);
    profile ← failing "decode OIDC ID Token claims: " (it_Claims idToken);
    if negb (ConstantTimeCompare (it_Nonce idToken) nonce) then
      Err (ErrorText "OIDC ID Token nonce does not match OAuth transaction")
    else if decide (it_Subject idToken = "") then
      Err (ErrorText "OIDC ID Token subject is missing")
    else if decide ((1 < length (it_Audience idToken))%nat ∧ op_AuthorizedParty profile = "") then
      Err (ErrorText "OIDC ID Token authorized party is required for multiple audiences")
    else if decide (op_AuthorizedParty profile ≠ "" ∧ op_AuthorizedParty profile ≠ oi_clientID p) then
      Err (ErrorText "OIDC ID Token authorized party does not match client ID")
    else
      profile ←
        if decide (op_Email profile = "" ∧ nw_UserInfoEndpoint n ≠ "") then
          userInfo ← failing "read OIDC UserInfo: " (nw_UserInfo n token);
          if decide (ui_Subject userInfo ≠ it_Subject idToken) then
            Err (ErrorText "OIDC UserInfo subject does not match ID Token subject")
          else
            fallback ← failing "decode OIDC UserInfo claims: " (ui_Claims userInfo);
            Ok (mergeOIDCProfile profile fallback)
        else Ok profile;
      Ok {| pr_Subject := oi_id p +:+ ":" +:+ it_Subject idToken;
            pr_Username := oidcUsername profile (it_Subject idToken);
            pr_Email := op_Email profile; pr_Groups := op_Groups profile;
            pr_Roles := op_Roles profile; pr_AuthType := "oidc"; pr_Provider := oi_id p |}.

Definition oidc_AuthorizationURL (p : oidcProvider) (t : OAuthTransaction) : string :=
  AuthCodeURL (oi_oauth p) (ot_State t)
    [("code_challenge", PKCEChallenge (ot_CodeVerifier t)); ("code_challenge_method", "S256");
     ("nonce", ot_Nonce t)].

Definition oidcProvider_Provider (p : oidcProvider) : Provider (network T) := {|
  ID := oi_id p;
  DisplayName := oi_displayName p;
  IconURL := oi_iconURL p;
  NeedsNonce := true;
  PostLoginRedirectURL := oi_postLoginRedirectURL p;
  AuthorizationURL := oidc_AuthorizationURL p;
  Authenticate := oidc_Authenticate p |}.
End providers.

(** ** What an authenticated principal has been checked for *)
Lemma failing_Ok {A} prefix (r : result error A) a : failing prefix r = Ok a ↔ r = Ok a.
Proof. destruct r; simpl; naive_solver. Qed.

Lemma find_email_Some p emails e :
  find_email p emails = Some e → ∃ x, x ∈ emails ∧ ge_Email x = e ∧ p x = true.
Proof.
  induction emails as [|x emails IH]; simpl; [done|]. destruct (p x) eqn:Hp.
  - intros [= <-]. exists x. by split; [left|].
  - intros (y & ? & ? & ?)%IH. exists y. by split; [right|].
Qed.

Lemma selectGitHubEmail_verified emails :
  selectGitHubEmail emails ≠ "" →
  ∃ e, e ∈ emails ∧ ge_Email e = selectGitHubEmail emails ∧ ge_Verified e = true.
Proof.
  unfold selectGitHubEmail.
  destruct (find_email (λ e, ge_Primary e && ge_Verified e) emails) as [e|] eqn:H1; intros Hne.
  - apply find_email_Some in H1 as (x & ? & ? & [_ ?]%andb_true_iff). eauto.
  - destruct (find_email ge_Verified emails) as [e|] eqn:H2; [|done]. simpl in *.
    apply find_email_Some in H2 as (x & ? & ? & ?). eauto.
Qed.

(** A GitHub login yields a principal named after the provider and the
    account's positive numeric id; its address is the account's public one or,
    when there is none and the scope allows to ask, a verified address of the
    account. *)
Theorem github_identity {T} (p : githubProvider) (n : network T) code verifier nonce pr
    (Hok : github_Authenticate p n code verifier nonce = Ok pr) :
  ∃ token body user,
    nw_Exchange n (gh_oauth p) code verifier = Ok token ∧
    nw_Do n (Some token) (gh_apiBaseURL p +:+ "/user") = Ok body ∧ 200 ≤ body.1 < 300 ∧
    nw_user n body.2 = Ok user ∧ 0 < gu_ID user ∧
    pr_Subject pr = gh_id p +:+ ":" +:+ pretty (gu_ID user) ∧ pr_Provider pr = gh_id p ∧
    pr_AuthType pr = "oauth" ∧
    (pr_Email pr = "" ∨ pr_Email pr = gu_Email user ∨
     ∃ l e, gu_Email user = "" ∧ gh_canReadEmails p = true ∧
       (∃ body, nw_emails n body = Ok l) ∧ e ∈ l ∧ ge_Email e = pr_Email pr ∧ ge_Verified e = true).
Proof.
  unfold github_Authenticate, getGitHubJSON in Hok.
  apply bind_Ok in Hok as (token & Ht%failing_Ok & Hok).
  apply bind_Ok in Hok as (user & Hu%failing_Ok & Hok).
  apply bind_Ok in Hu as (_ & _ & (body & Hb & Hu)%bind_Ok).
  destruct (decide (body.1 < 200 ∨ _)) as [|Hs]; [done|].
  destruct (decide (gu_ID user ≤ 0)) as [|Hid]; [done|].
  apply bind_Ok in Hok as (email & He & [= <-]). simpl.
  exists token, body, user. split_and!; try done; try lia.
  destruct (decide (gu_Email user = "")) as [Hg|Hg]; [|right; left; by simplify_eq].
  destruct (gh_canReadEmails p) eqn:Hcan; [|left; by simplify_eq].
  apply bind_Ok in He as (l & Hl%failing_Ok & [= <-]).
  apply bind_Ok in Hl as (_ & _ & (body' & _ & Hl)%bind_Ok). case_decide; [done|].
  destruct (decide (selectGitHubEmail l = "")) as [->|Hne]; [by left|].
  apply selectGitHubEmail_verified in Hne as (e & ? & ? & ?). right; right. eauto 10.
Qed.

Lemma oidc_profile_checked {T} (p : oidcProvider) (n : network T) token idToken profile :
  ∀ profile',
  (if decide (op_Email profile = "" ∧ nw_UserInfoEndpoint n ≠ "") then
     userInfo ← failing "read OIDC UserInfo: " (nw_UserInfo n token);
     if decide (ui_Subject userInfo ≠ it_Subject idToken) then
       Err (ErrorText "OIDC UserInfo subject does not match ID Token subject")
     else
       fallback ← failing "decode OIDC UserInfo claims: " (ui_Claims userInfo);
       Ok (mergeOIDCProfile profile fallback)
   else Ok profile) = Ok profile' →
  profile' = profile ∨
  ∃ u f, nw_UserInfo n token = Ok u ∧ ui_Subject u = it_Subject idToken ∧
    ui_Claims u = Ok f ∧ profile' = mergeOIDCProfile profile f.
Proof.
  intros profile'. destruct (decide (_ ∧ _)); [|intros [= <-]; by left].
  intros (u & Hu%failing_Ok & H')%bind_Ok.
  destruct (decide (ui_Subject u ≠ _)) as [|Hs]; [done|].
  apply bind_Ok in H' as (f & Hf%failing_Ok & [= <-]). right.
  exists u, f. split_and!; try done. by apply dec_stable.
Qed.

(** An OIDC login yields a principal only for an identity token that the
    library verified for this client, that carries the nonce of the login
    transaction and a subject, and whose authorized party, required for
    several audiences, is this client; profile data from the user-info
    endpoint is used only when it is about the same subject. *)
Theorem oidc_identity {T} (p : oidcProvider) (n : network T) code verifier nonce pr
    (Hok : oidc_Authenticate p n code verifier nonce = Ok pr) :
  ∃ token raw idToken profile profile',
    nw_Exchange n (oi_oauth p) code verifier = Ok token ∧ nw_idToken n token = Some raw ∧
    validateJWKAlgorithm p n raw = Ok () ∧
    nw_Verify n (oi_clientID p) raw = Ok idToken ∧ it_Claims idToken = Ok profile ∧
    it_Nonce idToken = nonce ∧ it_Subject idToken ≠ "" ∧
    (op_AuthorizedParty profile = oi_clientID p ∨
     op_AuthorizedParty profile = "" ∧ (length (it_Audience idToken) ≤ 1)%nat) ∧
    pr_Subject pr = oi_id p +:+ ":" +:+ it_Subject idToken ∧ pr_Provider pr = oi_id p ∧
    pr_AuthType pr = "oidc" ∧
    (profile' = profile ∨
     ∃ u f, nw_UserInfo n token = Ok u ∧ ui_Subject u = it_Subject idToken ∧
       ui_Claims u = Ok f ∧ profile' = mergeOIDCProfile profile f) ∧
    pr_Username pr = oidcUsername profile' (it_Subject idToken) ∧ pr_Email pr = op_Email profile' ∧
    pr_Groups pr = op_Groups profile' ∧ pr_Roles pr = op_Roles profile'.
Proof.
  unfold oidc_Authenticate in Hok.
  apply bind_Ok in Hok as (token & Ht%failing_Ok & Hok). case_decide as Hraw; [done|].
  apply bind_Ok in Hok as ([] & Halg & Hok).
  apply bind_Ok in Hok as (idToken & Hv%failing_Ok & Hok).
  apply bind_Ok in Hok as (profile & Hc%failing_Ok & Hok).
  destruct (negb _) eqn:Hn; [done|]. apply negb_false_iff, bool_decide_eq_true in Hn.
  do 3 (case_decide; [done|]).
  apply bind_Ok in Hok as (profile' & Hp%(oidc_profile_checked p) & [= <-]). simpl.
  destruct (nw_idToken n token) as [raw|] eqn:Hid; [|done].
  exists token, raw, idToken, profile, profile'. split_and!; try done.
  destruct (decide (op_AuthorizedParty profile = "")) as [Ha|Ha];
    [right; split; [done|]; apply Nat.nlt_ge; tauto | left; apply dec_stable; tauto].
Qed.
