(* ===== verification/Login.v ===== *)
(** The console's login: pkg/console/auth (session.go, middleware.go, the
    [Service] of service.go) and pkg/console/handler/auth.go, composed into the
    system of an administrator console and the browsers talking to it. *)
From S2P Require Import Prelude GoStrings Errors Crypto OAuthStore AuthProviders.

Open Scope string_scope.
Open Scope list_scope.
Open Scope Z_scope.

(** ** session.go

    A session is the value store of one signed cookie; [SOther] is a stored
    value that is neither a string nor bytes. *)
Inductive session_value :=
| SString (s : string)
| SBytes (s : string)
| SOther (type_name : string).

Abbreviation Session := (gmap string session_value).

Definition PrincipalSessionKey : string := "principal".
Definition LegacyUserSessionKey : string := "user".
Definition OAuthTransactionSessionKey : string := "oauth_transaction".

(** encoding/json on the two types kept in sessions. *)
Class SessionJSON := {
  principal_Marshal : Principal → result error string;
  principal_Unmarshal : string → result error Principal;
  transaction_Marshal : OAuthTransaction → result error string;
  transaction_Unmarshal : string → result error OAuthTransaction }.

(** json gives back what it wrote, for values of valid UTF-8 strings. *)
Class SessionJSONLaws `{SessionJSON} := {
  json_text : string → Prop;
  json_principal p : json_text (pr_Subject p) → json_text (pr_Username p) →
    json_text (pr_Email p) → Forall json_text (pr_Groups p) → Forall json_text (pr_Roles p) →
    json_text (pr_AuthType p) → json_text (pr_Provider p) →
    ∃ raw, principal_Marshal p = Ok raw ∧ principal_Unmarshal raw = Ok p;
  json_transaction t : json_text (ot_ProviderID t) → json_text (ot_State t) →
    ot_CodeVerifier t = "" → ot_Nonce t = "" →
    ∃ raw, transaction_Marshal t = Ok raw ∧ transaction_Unmarshal raw = Ok t }.

Definition ErrNoPrincipal : error := ErrorText "authenticated principal is missing".

Definition sessionJSONString (v : session_value) : string + string :=
  match v with SString s | SBytes s => inl s | SOther t => inr t end.

Section session.
Context `{SessionJSON}.

Definition PutPrincipal (s : Session) (p : Principal) : result error Session :=
  raw ← failing "marshal principal: " (principal_Marshal p);
  Ok (delete LegacyUserSessionKey (<[PrincipalSessionKey := SString raw]> s)).

Definition PrincipalFromSession (s : Session) : result error Principal :=
  match s !! PrincipalSessionKey with
  | Some value =>
      match sessionJSONString value with
      | inr t => Err (ErrorText ("invalid principal session value " +:+ t))
      | inl raw =>
          principal ← failing "decode principal session: " (principal_Unmarshal raw);
          if decide (pr_Subject principal = "") then Err ErrNoPrincipal else Ok principal
      end
  | None =>
      match s !! LegacyUserSessionKey with
      | Some (SString legacyUser) =>
          if decide (legacyUser = "") then Err ErrNoPrincipal else Ok (LocalPrincipal legacyUser)
      | _ => Err ErrNoPrincipal
      end
  end.

(** Only the provider and the state of a transaction leave the server. *)
Definition reference (t : OAuthTransaction) : OAuthTransaction :=
  {| ot_ProviderID := ot_ProviderID t; ot_State := ot_State t; ot_CodeVerifier := ""; ot_Nonce := "" |}.

Definition PutOAuthTransaction (s : Session) (t : OAuthTransaction) : result error Session :=
  raw ← failing "marshal OAuth transaction: " (transaction_Marshal (reference t));
  Ok (<[OAuthTransactionSessionKey := SString raw]> s).

Definition ConsumeOAuthTransaction (s : Session) : Session * result error OAuthTransaction :=
  (delete OAuthTransactionSessionKey s,
   match s !! OAuthTransactionSessionKey with
   | None => Err (ErrorText "OAuth transaction is missing or already consumed")
   | Some value =>
       match sessionJSONString value with
       | inr t => Err (ErrorText ("invalid OAuth transaction session value " +:+ t))
       | inl raw => failing "decode OAuth transaction: " (transaction_Unmarshal raw)
       end
   end).
End session.

(** ** service.go *)
Definition ErrProviderNotFound : error := ErrorText "authentication provider not found".
Definition ErrProviderMismatch : error := ErrorText "OAuth callback provider does not match transaction".
Definition ErrStateMismatch : error := ErrorText "OAuth callback state does not match transaction".
Definition ErrTransactionGone : error :=
  ErrorText "OAuth transaction is missing, expired, or already consumed".

Record Service (N : Type) := {
  sv_providers : gmap string (Provider N);
  sv_public : list PublicProvider;
  sv_transactions : oauthTransactionStore }.
Arguments sv_providers {N} _.
Arguments sv_public {N} _.
Arguments sv_transactions {N} _.

Definition public_le (a b : PublicProvider) : Prop := String.le (pp_ID a) (pp_ID b).
#[export] Instance public_le_dec a b : Decision (public_le a b).
Proof. unfold public_le. apply _. Defined.

Section service.
Context {N : Type}.

Definition with_transactions (s : Service N) (t : oauthTransactionStore) : Service N :=
  {| sv_providers := sv_providers s; sv_public := sv_public s; sv_transactions := t |}.

(** The loop of [newService]; [None] is a nil provider. *)
Fixpoint register (service : Service N) (providers : list (option (Provider N)))
    : result error (Service N) :=
  match providers with
  | [] => Ok service
  | None :: _ => Err (ErrorText "authentication provider must have an ID")
  | Some p :: providers =>
      if decide (ID p = "") then Err (ErrorText "authentication provider must have an ID")
      else match sv_providers service !! ID p with
           | Some _ => Err (ErrorText ("duplicate authentication provider " +:+ go_quote (ID p)))
           | None =>
               register {| sv_providers := <[ID p := p]> (sv_providers service);
                           sv_public := sv_public service ++
                             [{| pp_ID := ID p; pp_DisplayName := DisplayName p;
                                 pp_IconURL := IconURL p |}];
                           sv_transactions := sv_transactions service |} providers
           end
  end.

Definition newService (providers : list (option (Provider N))) : result error (Service N) :=
  service ← register {| sv_providers := ∅; sv_public := [];
                        sv_transactions := newOAuthTransactionStore oauthTransactionTTL
                                             oauthTransactionCapacity |} providers;
  Ok {| sv_providers := sv_providers service;
        sv_public := merge_sort public_le (sv_public service);
        sv_transactions := sv_transactions service |}.

(** [randomBase64URL(32)], given what reading 32 random bytes returns. *)
Definition randomBase64URL (raw : result error (list Z)) : result error string :=
  b ← raw; Ok (base64_EncodeToString b).

(** The transaction [Begin] makes up; [rand] is what the reads of random
    bytes return, in order. *)
Definition new_transaction (p : Provider N) (providerID : string)
    (rand : nat → result error (list Z)) : result error OAuthTransaction :=
  state ← failing "generate OAuth state: " (randomBase64URL (rand 0%nat));
  verifier ← failing "generate PKCE verifier: " (randomBase64URL (rand 1%nat));
  nonce ← if NeedsNonce p then failing "generate OIDC nonce: " (randomBase64URL (rand 2%nat))
          else Ok "";
  Ok {| ot_ProviderID := providerID; ot_State := state; ot_CodeVerifier := verifier;
        ot_Nonce := nonce |}.

Definition Begin (s : Service N) (providerID : string) (rand : nat → result error (list Z))
    (now : Z) : Service N * result error (OAuthTransaction * string) :=
  match sv_providers s !! providerID with
  | None => (s, Err ErrProviderNotFound)
  | Some provider =>
      match new_transaction provider providerID rand with
      | Err e => (s, Err e)
      | Ok t =>
          match Put (sv_transactions s) t now with
          | (ts, Some e) => (with_transactions s ts, Err e)
          | (ts, None) => (with_transactions s ts, Ok (t, AuthorizationURL provider t))
          end
      end
  end.

(** [Complete] up to its call of the provider: the provider and the stored
    transaction it is called with. *)
Definition complete_checks (s : Service N) (providerID state code : string)
    (t : OAuthTransaction) (now : Z) : Service N * result error (Provider N * OAuthTransaction) :=
  if decide (providerID ≠ ot_ProviderID t) then (s, Err ErrProviderMismatch)
  else if negb (ConstantTimeCompare state (ot_State t)) then (s, Err ErrStateMismatch)
  else
    let '(ts, found) := Consume (sv_transactions s) state now in
    (with_transactions s ts,
     match found with
     | None => Err ErrTransactionGone
     | Some stored =>
         if decide (providerID ≠ ot_ProviderID stored) then Err ErrProviderMismatch
         else match sv_providers s !! providerID with
              | None => Err ErrProviderNotFound
              | Some provider =>
                  if decide (code = "") then Err (ErrorText "OAuth callback code is missing")
                  else Ok (provider, stored)
              end
     end).

Definition Complete (s : Service N) (net : N) (providerID state code : string)
    (t : OAuthTransaction) (now : Z) : Service N * result error Principal :=
  let '(s, checked) := complete_checks s providerID state code t now in
  (s, '(provider, stored) ← checked;
      Authenticate provider net code (ot_CodeVerifier stored) (ot_Nonce stored)).

Definition service_PostLoginRedirectURL (s : Service N) (providerID : string) : result error string :=
  match sv_providers s !! providerID with
  | None => Err ErrProviderNotFound
  | Some provider => Ok (PostLoginRedirectURL provider)
  end.
End service.

(** ** handler/auth.go and middleware.go *)
Record auth_config := { ac_Methods : list string; ac_User : string; ac_Password : string }.

Definition MethodPassword : string := "password".

Inductive data :=
| DTrue
| DPrincipal (p : Principal)
| DProviders (methods : list string) (providers : list PublicProvider).

Inductive body :=
| SuccessResp (d : data)
| BizErrorResp (code : ErrorCode) (message : string).

Inductive response :=
| JSON (status : Z) (b : body)
| Redirect (status : Z) (url : string)
| Forwarded (p : Principal).

(** What surrounds one request: the clock, the random bytes, the network, and
    whether the session library manages to write a session's cookie. *)
Record env (N : Type) := {
  e_now : Z;
  e_rand : nat → result error (list Z);
  e_net : N;
  e_save : Session → option error }.
Arguments e_now {N} _.
Arguments e_rand {N} _ _.
Arguments e_net {N} _.
Arguments e_save {N} _ _.

(** A handler's effect: the service, the cookies sent and the answer. *)
Record reply (N : Type) := {
  rp_service : Service N;
  rp_cookies : list Session;
  rp_response : response }.
Arguments rp_service {N} _.
Arguments rp_cookies {N} _.
Arguments rp_response {N} _.

Inductive request :=
| RLogin (user password : string)
| RProviders
| RProviderLogin (provider : string)
| RProviderCallback (provider state code : string)
| RLogout
| RUserInfo
| ROther.

Definition writeProviderError (err : error) : response :=
  if errors_is err ErrProviderNotFound then
    JSON 404 (BizErrorResp NotFoundError (error_string err))
  else if errors_is err ErrTransactionStoreFull then
    JSON 429 (BizErrorResp InvalidArgument (error_string err))
  else JSON 400 (BizErrorResp InvalidArgument (error_string err)).

Definition writeSessionError (err : error) : response :=
  JSON 500 (BizErrorResp SessionError (error_string err)).

Definition writeUnauthorized : response :=
  JSON 401 (BizErrorResp Unauthorized "no access, please login").

Section handlers.
Context {N : Type} `{SessionJSON}.
Context (config : auth_config).

(** [if err := session.Save(); err != nil { writeSessionError… }]: [cookies]
    are those already sent. *)
Definition saving (e : env N) (svc : Service N) (cookies : list Session) (s : Session)
    (k : list Session → reply N) : reply N :=
  match e_save e s with
  | Some err => {| rp_service := svc; rp_cookies := cookies; rp_response := writeSessionError err |}
  | None => k (cookies ++ [s])
  end.

Definition Login (e : env N) (svc : Service N) (session : Session) (user password : string)
    : reply N :=
  let answer cookies resp := {| rp_service := svc; rp_cookies := cookies; rp_response := resp |} in
  if decide (MethodPassword ∉ ac_Methods config) then
    answer [] (JSON 404 (BizErrorResp NotFoundError "password login is not enabled"))
  else if decide (user ≠ ac_User config ∨ password ≠ ac_Password config) then
    answer [] (JSON 401 (BizErrorResp Unauthorized "username or password is not correct!"))
  else
    match PutPrincipal session (LocalPrincipal user) with
    | Err err => answer [] (writeSessionError err)
    | Ok session => saving e svc [] session (λ cookies, answer cookies (JSON 200 (SuccessResp DTrue)))
    end.

Definition Logout (e : env N) (svc : Service N) : reply N :=
  saving e svc [] ∅ (λ cookies,
    {| rp_service := svc; rp_cookies := cookies; rp_response := JSON 200 (SuccessResp DTrue) |}).

Definition Providers (svc : Service N) : reply N :=
  {| rp_service := svc; rp_cookies := [];
     rp_response := JSON 200 (SuccessResp (DProviders (ac_Methods config) (sv_public svc))) |}.

Definition ProviderLogin (e : env N) (svc : Service N) (session : Session) (provider : string)
    : reply N :=
  match Begin svc provider (e_rand e) (e_now e) with
  | (svc, Err err) =>
      {| rp_service := svc; rp_cookies := []; rp_response := writeProviderError err |}
  | (svc, Ok (transaction, authorizationURL)) =>
      match PutOAuthTransaction session transaction with
      | Err err => {| rp_service := svc; rp_cookies := []; rp_response := writeSessionError err |}
      | Ok session =>
          saving e svc [] session (λ cookies,
            {| rp_service := svc; rp_cookies := cookies;
               rp_response := Redirect 302 authorizationURL |})
      end
  end.

Definition ProviderCallback (e : env N) (svc : Service N) (session : Session)
    (provider state code : string) : reply N :=
  let '(session, consumed) := ConsumeOAuthTransaction session in
  match consumed with
  | Err err =>
      {| rp_service := svc; rp_cookies := [];
         rp_response := JSON 400 (BizErrorResp InvalidArgument (error_string err)) |}
  | Ok transaction =>
      saving e svc [] session (λ cookies,
        match Complete svc (e_net e) provider state code transaction (e_now e) with
        | (svc, Err err) =>
            {| rp_service := svc; rp_cookies := cookies; rp_response := writeProviderError err |}
        | (svc, Ok principal) =>
            match PutPrincipal session principal with
            | Err err =>
                {| rp_service := svc; rp_cookies := cookies; rp_response := writeSessionError err |}
            | Ok session =>
                saving e svc cookies session (λ cookies,
                  match service_PostLoginRedirectURL svc (ot_ProviderID transaction) with
                  | Err err =>
                      {| rp_service := svc; rp_cookies := cookies;
                         rp_response := writeProviderError err |}
                  | Ok redirectURL =>
                      {| rp_service := svc; rp_cookies := cookies;
                         rp_response := Redirect 302 redirectURL |}
                  end)
            end
        end)
  end.

(** [SessionMiddleware] puts the principal into the request's context. *)
Definition SessionMiddleware (session : Session) : option Principal :=
  match PrincipalFromSession session with Ok p => Some p | Err _ => None end.

Definition RequireLogin (svc : Service N) (principal : option Principal)
    (next : Principal → reply N) : reply N :=
  match principal with
  | None =>
      {| rp_service := svc; rp_cookies := [];
         rp_response := JSON 401 (BizErrorResp Unauthorized "no access, please login") |}
  | Some p => next p
  end.

Definition UserInfo_ (svc : Service N) (principal : option Principal) : reply N :=
  {| rp_service := svc; rp_cookies := [];
     rp_response := match principal with
                    | None => writeUnauthorized
                    | Some p => JSON 200 (SuccessResp (DPrincipal p))
                    end |}.

(** The routes of InitRouter that concern logins; every other route of the
    API is behind [RequireLogin]. *)
Definition serve (e : env N) (svc : Service N) (session : Session) (r : request) : reply N :=
  let principal := SessionMiddleware session in
  match r with
  | RLogin user password => Login e svc session user password
  | RProviders => Providers svc
  | RProviderLogin provider => ProviderLogin e svc session provider
  | RProviderCallback provider state code => ProviderCallback e svc session provider state code
  | RLogout => RequireLogin svc principal (λ _, Logout e svc)
  | RUserInfo => RequireLogin svc principal (λ _, UserInfo_ svc principal)
  | ROther =>
      RequireLogin svc principal (λ p,
        {| rp_service := svc; rp_cookies := []; rp_response := Forwarded p |})
  end.

(** ** The running console

    A browser presents no cookie or one the console has sent earlier, to any
    browser and however long ago: cookies are signed, so nothing else reaches
    the handlers, but a cookie can be kept and presented again. The handlers
    change the shared state only in [Put] and [Consume], which hold the
    store's mutex, so requests are ordered by these. *)
Record entry := {
  en_request : request;
  en_session : Session;
  en_env : env N;
  en_service : Service N }.

Record system := {
  sys_service : Service N;
  sys_cookies : list Session;
  sys_clock : Z;
  sys_log : list entry }.

Definition started (svc : Service N) (clock : Z) : system :=
  {| sys_service := svc; sys_cookies := []; sys_clock := clock; sys_log := [] |}.

Definition handle (sys : system) (e : env N) (session : Session) (r : request) : system :=
  let rep := serve e (sys_service sys) session r in
  {| sys_service := rp_service rep;
     sys_cookies := rp_cookies rep ++ sys_cookies sys;
     sys_clock := e_now e;
     sys_log := {| en_request := r; en_session := session; en_env := e;
                   en_service := sys_service sys |} :: sys_log sys |}.

Inductive step : system → system → Prop :=
| step_handle sys e session r :
    session = ∅ ∨ session ∈ sys_cookies sys → sys_clock sys ≤ e_now e →
    step sys (handle sys e session r).

(** What an entry of the log did: the transaction it opened and when, the
    stored transaction it called a provider with, the principal it logged in. *)
Definition begun (en : entry) : option (OAuthTransaction * Z) :=
  match en_request en with
  | RProviderLogin p =>
      match Begin (en_service en) p (e_rand (en_env en)) (e_now (en_env en)) with
      | (_, Ok (t, _)) => Some (t, e_now (en_env en))
      | _ => None
      end
  | _ => None
  end.

Definition exchanged (en : entry) : option (Provider N * string * OAuthTransaction) :=
  match en_request en with
  | RProviderCallback p state code =>
      match ConsumeOAuthTransaction (en_session en) with
      | (session, Ok t) =>
          if decide (e_save (en_env en) session = None) then
            match complete_checks (en_service en) p state code t (e_now (en_env en)) with
            | (_, Ok (provider, stored)) => Some (provider, code, stored)
            | _ => None
            end
          else None
      | _ => None
      end
  | _ => None
  end.

Definition granted (en : entry) : option Principal :=
  match en_request en with
  | RLogin user password =>
      if decide (MethodPassword ∈ ac_Methods config ∧ user = ac_User config ∧
                 password = ac_Password config)
      then Some (LocalPrincipal user) else None
  | RProviderCallback _ _ _ =>
      match exchanged en with
      | Some (provider, code, stored) =>
          match Authenticate provider (e_net (en_env en)) code (ot_CodeVerifier stored)
                  (ot_Nonce stored) with
          | Ok p => Some p
          | Err _ => None
          end
      | None => None
      end
  | _ => None
  end.
End handlers.
