(* ===== verification/LoginSafety.v ===== *)
(** What the console's login guarantees, for every sequence of requests that
    browsers can make (the system of Login.v). *)
From S2P Require Import Prelude GoStrings Errors Crypto OAuthStore AuthProviders Login.
From stdpp Require Import relations.
From Stdlib Require Import Ascii.

Open Scope string_scope.
Open Scope list_scope.
Open Scope Z_scope.

Section safety.
Context {N : Type} `{SessionJSON}.
Context (config : auth_config).
Implicit Types (svc : Service N) (sys : system (N := N)) (en : entry (N := N)) (e : env N).

Abbreviation stored_in svc := (contents (sv_transactions svc)).
Abbreviation ttl_of svc := (ts_ttl (sv_transactions svc)).

(** [svc'] differs from [svc] in its transactions only. *)
Definition same_providers svc svc' : Prop :=
  sv_providers svc' = sv_providers svc ∧ sv_public svc' = sv_public svc ∧
  ttl_of svc' = ttl_of svc.

Lemma unexpired_subseteq now m : unexpired now m ⊆ m.
Proof. apply map_filter_subseteq. Qed.

Lemma new_transaction_provider (p : Provider N) id rand t :
  new_transaction p id rand = Ok t → ot_ProviderID t = id.
Proof.
  unfold new_transaction. intros (? & _ & H')%bind_Ok.
  apply bind_Ok in H' as (? & _ & H'). apply bind_Ok in H' as (? & _ & H'). by simplify_eq/=.
Qed.

Lemma Begin_effect svc clock id rand now :
  store_ok (sv_transactions svc) clock → clock ≤ now →
  let '(svc', r) := Begin svc id rand now in
  store_ok (sv_transactions svc') now ∧ same_providers svc svc' ∧
  match r with
  | Ok (t, _) => ot_ProviderID t = id ∧ is_Some (sv_providers svc !! id) ∧
      ∃ m, m ⊆ stored_in svc ∧
        stored_in svc' = <[ot_State t := {| so_transaction := t; so_expiresAt := now + ttl_of svc |}]> m
  | Err _ => stored_in svc' ⊆ stored_in svc
  end.
Proof.
  intros Hs Hle. unfold Begin. pose proof (store_ok_later _ _ _ Hs Hle) as Hs'.
  destruct (sv_providers svc !! id) as [p|] eqn:Hp; [|by split_and!].
  destruct (new_transaction p id rand) as [t|err] eqn:Ht; [|by split_and!].
  pose proof (Put_refines _ _ t now Hs Hle) as HP.
  destruct (Put (sv_transactions svc) t now) as [ts r] eqn:Hput.
  destruct (spec_Put _ _ _ _ _) as [m r'] eqn:Hspec.
  destruct HP as (Hok & Hc & -> & Ht1 & Hc1). unfold spec_Put in Hspec.
  assert (delete (ot_State t) (unexpired now (stored_in svc)) ⊆ stored_in svc) as Hsub.
  { etrans; [apply delete_subseteq | apply unexpired_subseteq]. }
  case_decide; injection Hspec as Hm <-; cbn [sv_transactions with_transactions].
  - split_and!; [done..|]. by rewrite Hc, <-Hm.
  - split_and!; [done..|by eapply new_transaction_provider|by eexists|].
    eexists. split; [exact Hsub|]. by rewrite Hc, <-Hm.
Qed.

Lemma checks_effect svc clock id state code t now :
  store_ok (sv_transactions svc) clock → clock ≤ now →
  let '(svc', r) := complete_checks svc id state code t now in
  store_ok (sv_transactions svc') now ∧ same_providers svc svc' ∧
  stored_in svc' ⊆ stored_in svc ∧
  ∀ p stored, r = Ok (p, stored) →
    stored_in svc' !! state = None ∧ sv_providers svc !! id = Some p ∧
    id = ot_ProviderID t ∧ state = ot_State t ∧ code ≠ "" ∧ ot_ProviderID stored = id ∧
    ∃ x, stored_in svc !! state = Some x ∧ so_transaction x = stored ∧ now < so_expiresAt x.
Proof.
  intros Hs Hle. pose proof (store_ok_later _ _ _ Hs Hle) as Hs'. unfold complete_checks.
  destruct (decide (id ≠ _)) as [|Hid]; [by split_and!|]. apply dec_stable in Hid.
  destruct (negb _) eqn:Hst; [by split_and!|]. apply negb_false_iff, bool_decide_eq_true in Hst.
  pose proof (Consume_refines _ _ state now Hs Hle) as HC.
  destruct (Consume _ _ _) as [ts found]. unfold spec_Consume in HC.
  destruct HC as (Hok & Hc & Hf & Ht1 & Hc1). simpl. rewrite Hc. split_and!; try done.
  { apply delete_subseteq. }
  intros p stored Hr. rewrite lookup_delete_eq. subst found.
  destruct (stored_in svc !! state) as [x|] eqn:Hx; simpl in Hr; [|done].
  destruct (decide (now < _)) as [Hexp|]; [|done].
  destruct (decide (id ≠ ot_ProviderID (so_transaction x))) as [|Hpid]; [done|].
  destruct (sv_providers svc !! id) eqn:Hp; [|done].
  destruct (decide (code = "")); [done|]. simplify_eq. apply dec_stable in Hpid.
  split_and!; try done. eauto.
Qed.

#[local] Arguments ConsumeOAuthTransaction : simpl never.
#[local] Arguments complete_checks : simpl never.

(** The only requests that change the service. *)
Definition service_after e svc session (r : request) : Service N :=
  match r with
  | RProviderLogin p => (Begin svc p (e_rand e) (e_now e)).1
  | RProviderCallback p state code =>
      match ConsumeOAuthTransaction session with
      | (session, Ok t) =>
          if decide (e_save e session = None)
          then (complete_checks svc p state code t (e_now e)).1 else svc
      | _ => svc
      end
  | _ => svc
  end.

Lemma saving_service e svc cookies s k :
  (∀ c, rp_service (k c) = svc) → rp_service (saving e svc cookies s k) = svc.
Proof. intros Hk. unfold saving. by destruct (e_save e s). Qed.

Lemma serve_service e svc session r :
  rp_service (serve config e svc session r) = service_after e svc session r.
Proof.
  destruct r as [user pw| |p|p state code| | |]; cbn [serve service_after]; unfold RequireLogin; try done.
  - unfold Login. do 2 (case_decide; [done|]). destruct (PutPrincipal _ _); [|done].
    by apply saving_service.
  - unfold ProviderLogin. destruct (Begin _ _ _ _) as [svc' [[t url]|err]]; [|done].
    destruct (PutOAuthTransaction _ _); [|done]. by apply saving_service.
  - unfold ProviderCallback. destruct (ConsumeOAuthTransaction session) as [s [t|err]]; [|done].
    unfold saving at 1. destruct (e_save e s) as [err|]; [done|]. simpl.
    unfold Complete. destruct (complete_checks _ _ _ _ _ _) as [svc' [[q stored]|err]]; [|done].
    simpl. destruct (Authenticate _ _ _ _ _); [|done]. destruct (PutPrincipal _ _); [|done].
    apply saving_service. intros c. by destruct (service_PostLoginRedirectURL _ _).
  - destruct (SessionMiddleware session); [|done]. by apply saving_service.
  - by destruct (SessionMiddleware session).
  - by destruct (SessionMiddleware session).
Qed.

(** ** Cookies *)

(** A session's principal was granted by an entry of the log. *)
Record session_good (log : list (entry (N := N))) (s : Session) : Prop := {
  sg_legacy : s !! LegacyUserSessionKey = None;
  sg_principal v : s !! PrincipalSessionKey = Some v →
    ∃ raw p en, v = SString raw ∧ en ∈ log ∧ granted config en = Some p ∧ principal_Marshal p = Ok raw }.

Lemma session_good_empty log : session_good log ∅.
Proof. split; [done|]. intros v Hv. by rewrite lookup_empty in Hv. Qed.

Lemma session_good_more log en s : session_good log s → session_good (en :: log) s.
Proof.
  intros [Hl Hp]. split; [done|].
  intros v (raw & p & en' & -> & Hin & Hg & Hm)%Hp. exists raw, p, en'. split_and!; try done.
  by right.
Qed.

Lemma session_good_PutPrincipal log s p en s' :
  session_good log s → PutPrincipal s p = Ok s' → en ∈ log → granted config en = Some p →
  session_good log s'.
Proof.
  intros Hs (raw & Hraw%failing_Ok & [= <-])%bind_Ok Hen Hg. split.
  - apply lookup_delete_eq.
  - intros v. rewrite lookup_delete_ne, lookup_insert_eq by done. intros [= <-].
    exists raw, p, en. by split_and!.
Qed.

Lemma session_good_PutOAuthTransaction log s t s' :
  session_good log s → PutOAuthTransaction s t = Ok s' → session_good log s'.
Proof.
  intros [Hl Hp] (raw & Hraw & [= <-])%bind_Ok. split; by rewrite lookup_insert_ne by done.
Qed.

Lemma session_good_Consume log s : session_good log s → session_good log (ConsumeOAuthTransaction s).1.
Proof. intros [Hl Hp]. split; simpl; by rewrite lookup_delete_ne by done. Qed.

Lemma saving_cookies log e svc cookies s k :
  Forall (session_good log) cookies → session_good log s →
  (∀ c, Forall (session_good log) c → Forall (session_good log) (rp_cookies (k c))) →
  Forall (session_good log) (rp_cookies (saving e svc cookies s k)).
Proof.
  intros Hc Hs Hk. unfold saving. destruct (e_save e s); [done|].
  apply Hk, Forall_app. by split; [|constructor].
Qed.

(** The entry [handle] adds to the log. *)
Definition entry_of svc e session r : entry (N := N) :=
  {| en_request := r; en_session := session; en_env := e; en_service := svc |}.

Lemma callback_granted e svc session id state code t q stored p :
  (ConsumeOAuthTransaction session).2 = Ok t →
  e_save e (ConsumeOAuthTransaction session).1 = None →
  (complete_checks svc id state code t (e_now e)).2 = Ok (q, stored) →
  Authenticate q (e_net e) code (ot_CodeVerifier stored) (ot_Nonce stored) = Ok p →
  granted config (entry_of svc e session (RProviderCallback id state code)) = Some p.
Proof.
  intros Ht Hs Hc Ha. unfold granted, exchanged; simpl en_request; simpl en_session;
    simpl en_env; simpl en_service.
  destruct (ConsumeOAuthTransaction session) as [s ?]; simpl in *; subst.
  destruct (decide _); [|done].
  destruct (complete_checks _ _ _ _ _ _); simpl in *; subst. by rewrite Ha.
Qed.

Lemma serve_cookies log e svc session r :
  session_good log session →
  Forall (session_good (entry_of svc e session r :: log)) (rp_cookies (serve config e svc session r)).
Proof.
  intros Hs. apply (session_good_more _ (entry_of svc e session r)) in Hs.
  destruct r as [user pw| |p|p state code| | |]; cbn [serve service_after]; unfold RequireLogin; try done.
  - unfold Login. destruct (decide (_ ∉ _)) as [|Hm%dec_stable]; [done|].
    destruct (decide (user ≠ _ ∨ _)) as [|Hcred]; [done|].
    destruct (PutPrincipal _ _) eqn:Hput; [|done].
    apply saving_cookies; [done| |done].
    eapply session_good_PutPrincipal; [done..|by left|]. unfold granted; cbn [entry_of en_request]. rewrite decide_True; [done|].
    split_and!; [done|apply dec_stable; tauto..].
  - unfold ProviderLogin. destruct (Begin _ _ _ _) as [svc' [[t url]|err]]; [|done].
    destruct (PutOAuthTransaction _ _) eqn:Hput; [|done].
    apply saving_cookies; [done| |done]. by eapply session_good_PutOAuthTransaction.
  - unfold ProviderCallback. pose proof (session_good_Consume _ _ Hs) as Hs1.
    destruct (ConsumeOAuthTransaction session) as [s [t|err]] eqn:Hcon; [|done]. simpl in Hs1.
    unfold saving at 1. destruct (e_save e s) as [err|] eqn:Hsave; [done|]. simpl.
    unfold Complete. destruct (complete_checks _ _ _ _ _ _) as [svc' [[q stored]|err]] eqn:Hchk; simpl.
    2: by apply Forall_singleton.
    destruct (Authenticate _ _ _ _ _) as [pr|] eqn:Ha; [|by apply Forall_singleton].
    destruct (PutPrincipal s pr) as [s'|] eqn:Hput; [|by apply Forall_singleton].
    apply saving_cookies; [by apply Forall_singleton| |by intros c ?; destruct (service_PostLoginRedirectURL _ _)].
    eapply session_good_PutPrincipal; [done..|by left|].
    apply (callback_granted _ _ _ _ _ _ t q stored); by rewrite ?Hcon, ?Hchk.
  - destruct (SessionMiddleware session); [|done].
    apply saving_cookies; [done| |done]. apply session_good_empty.
  - by destruct (SessionMiddleware session).
  - by destruct (SessionMiddleware session).
Qed.
(** ** The invariant of the running console *)
Definition begun_state en : option string := (λ b, ot_State b.1) <$> begun en.
Definition exchanged_state en : option string := (λ x, ot_State x.2) <$> exchanged en.

(** How often the log opened, and used, a transaction of state [st]. *)
Definition opened (st : string) (log : list (entry (N := N))) : nat :=
  length (filter (λ en, begun_state en = Some st) log).
Definition used (st : string) (log : list (entry (N := N))) : nat :=
  length (filter (λ en, exchanged_state en = Some st) log).
Definition pending svc (st : string) : nat :=
  match stored_in svc !! st with Some _ => 1 | None => 0 end%nat.

(** [t] was opened by an entry of [log] at a time from which it lives at least
    until [until]. *)
Definition opened_by svc (log : list (entry (N := N))) (t : OAuthTransaction) (expiry : Z) : Prop :=
  ∃ en now, en ∈ log ∧ begun en = Some (t, now) ∧ expiry = now + ttl_of svc.

Record console_ok svc0 sys : Prop := {
  co_store : store_ok (sv_transactions (sys_service sys)) (sys_clock sys);
  co_providers : same_providers svc0 (sys_service sys);
  co_stored : map_Forall (λ st x, ot_State (so_transaction x) = st ∧
    opened_by svc0 (sys_log sys) (so_transaction x) (so_expiresAt x)) (stored_in (sys_service sys));
  co_once : ∀ st, (used st (sys_log sys) + pending (sys_service sys) st ≤ opened st (sys_log sys))%nat;
  co_exchanged : ∀ en p code t, en ∈ sys_log sys → exchanged en = Some (p, code, t) →
    code ≠ "" ∧ sv_providers svc0 !! ot_ProviderID t = Some p ∧
    en_request en = RProviderCallback (ot_ProviderID t) (ot_State t) code ∧
    (∃ t', (ConsumeOAuthTransaction (en_session en)).2 = Ok t' ∧
      ot_ProviderID t' = ot_ProviderID t ∧ ot_State t' = ot_State t) ∧
    ∃ expiry, opened_by svc0 (sys_log sys) t expiry ∧ e_now (en_env en) < expiry;
  co_cookies : Forall (session_good (sys_log sys)) (sys_cookies sys) }.

Lemma opened_by_more svc0 log en t x : opened_by svc0 log t x → opened_by svc0 (en :: log) t x.
Proof. intros (en' & now & ? & ? & ?). exists en', now. split_and!; try done. by right. Qed.

Lemma opened_cons st en log :
  opened st (en :: log) = ((if decide (begun_state en = Some st) then 1 else 0) + opened st log)%nat.
Proof. unfold opened. rewrite filter_cons. by case_decide. Qed.
Lemma used_cons st en log :
  used st (en :: log) = ((if decide (exchanged_state en = Some st) then 1 else 0) + used st log)%nat.
Proof. unfold used. rewrite filter_cons. by case_decide. Qed.

Lemma pending_subseteq svc svc' st :
  stored_in svc' ⊆ stored_in svc → (pending svc' st ≤ pending svc st)%nat.
Proof.
  intros Hsub. unfold pending. destruct (stored_in svc' !! st) eqn:H'; [|lia].
  by rewrite (lookup_weaken _ _ _ _ H' Hsub).
Qed.

(** What one request does to the pending logins, by the kind of its entry. *)
Definition entry_effect svc e session (r : request) : Prop :=
  let svc' := service_after e svc session r in
  let en := entry_of svc e session r in
  store_ok (sv_transactions svc') (e_now e) ∧ same_providers svc svc' ∧
  match begun en, exchanged en with
  | Some (t, now), None => now = e_now e ∧ ∃ m, m ⊆ stored_in svc ∧
      stored_in svc' = <[ot_State t := {| so_transaction := t; so_expiresAt := now + ttl_of svc |}]> m
  | None, Some (p, code, t) => stored_in svc' ⊆ stored_in svc ∧
      ∃ state x t', r = RProviderCallback (ot_ProviderID t) state code ∧ code ≠ "" ∧
        sv_providers svc !! ot_ProviderID t = Some p ∧ stored_in svc' !! state = None ∧
        stored_in svc !! state = Some x ∧ so_transaction x = t ∧ e_now e < so_expiresAt x ∧
        (ConsumeOAuthTransaction session).2 = Ok t' ∧
        ot_ProviderID t' = ot_ProviderID t ∧ ot_State t' = state
  | None, None => stored_in svc' ⊆ stored_in svc
  | Some _, Some _ => False
  end.

Lemma entry_effects svc clock e session r :
  store_ok (sv_transactions svc) clock → clock ≤ e_now e → entry_effect svc e session r.
Proof.
  intros Hs Hle. pose proof (store_ok_later _ _ _ Hs Hle) as Hs'.
  unfold entry_effect.
  destruct r as [user pw| |id|id state code| | |]; unfold begun, exchanged;
    cbn [service_after entry_of en_request en_service en_env en_session]; try done.
  - pose proof (Begin_effect svc clock id (e_rand e) (e_now e) Hs Hle) as HB.
    destruct (Begin svc id (e_rand e) (e_now e)) as [svc' [[t url]|err]]; simpl in *;
      destruct HB as (? & ? & HB); split_and!; try done. by destruct HB as (_ & _ & ?).
  - destruct (ConsumeOAuthTransaction session) as [s [t'|err]] eqn:Hcon; [|done].
    destruct (decide (e_save e s = None)); [|done].
    pose proof (checks_effect svc clock id state code t' (e_now e) Hs Hle) as HC.
    destruct (complete_checks _ _ _ _ _ _) as [svc' [[p t]|err]]; simpl in *;
      destruct HC as (? & ? & ? & HC); split_and!; try done.
    destruct (HC p t eq_refl) as (? & ? & ? & ? & ? & <- & x & ? & ? & ?).
    exists state, x, t'. by split_and!.
Qed.

Lemma stored_after svc0 svc log e session r :
  same_providers svc0 svc → entry_effect svc e session r →
  map_Forall (λ st x, ot_State (so_transaction x) = st ∧
    opened_by svc0 log (so_transaction x) (so_expiresAt x)) (stored_in svc) →
  map_Forall (λ st x, ot_State (so_transaction x) = st ∧
    opened_by svc0 (entry_of svc e session r :: log) (so_transaction x) (so_expiresAt x))
    (stored_in (service_after e svc session r)).
Proof.
  intros (_ & _ & Httl) (_ & _ & Heff) Hst k x Hx.
  assert (Hold : ∀ m, m ⊆ stored_in svc → m !! k = Some x → ot_State (so_transaction x) = k ∧
    opened_by svc0 (entry_of svc e session r :: log) (so_transaction x) (so_expiresAt x)).
  { intros m Hsub Hm. eapply lookup_weaken, Hst in Hm as [? ?]; [|done].
    split; [done|]. by apply opened_by_more. }
  destruct (begun _) as [[t now]|] eqn:Hb, (exchanged _) as [[[p code] t']|]; try done.
  - destruct Heff as (-> & m & Hsub & Hm). rewrite Hm in Hx.
    apply lookup_insert_Some in Hx as [[<- <-]|[_ Hx]]; [|by eapply Hold].
    split; [done|]. eexists _, _. split_and!; [by left|exact Hb|]. simpl. by rewrite Httl.
  - destruct Heff as [Hsub _]. by eapply Hold.
  - by eapply Hold.
Qed.

Lemma once_after svc0 svc log e session r st :
  entry_effect svc e session r →
  map_Forall (λ st x, ot_State (so_transaction x) = st ∧
    opened_by svc0 log (so_transaction x) (so_expiresAt x)) (stored_in svc) →
  (used st log + pending svc st ≤ opened st log)%nat →
  (used st (entry_of svc e session r :: log) + pending (service_after e svc session r) st ≤
   opened st (entry_of svc e session r :: log))%nat.
Proof.
  intros (_ & _ & Heff) Hst Hle. rewrite opened_cons, used_cons.
  unfold begun_state, exchanged_state.
  destruct (begun _) as [[t now]|], (exchanged _) as [[[p code] t']|]; simpl; try done.
  - destruct Heff as (_ & m & Hsub & Hm).
    assert (pending (service_after e svc session r) st ≤
      (if decide (Some (ot_State t) = Some st) then 1 else 0) + pending svc st)%nat; [|lia].
    unfold pending. rewrite Hm. case_decide as Hd; simplify_eq.
    + rewrite lookup_insert_eq. lia.
    + rewrite lookup_insert_ne by naive_solver. destruct (m !! st) eqn:Hx; [|lia].
      by rewrite (lookup_weaken _ _ _ _ Hx Hsub).
  - destruct Heff as (Hsub & state & x & t2 & _ & _ & _ & Hgone & Hx & <- & _).
    pose proof (Hst _ _ Hx) as [Hs _]. rewrite Hs.
    pose proof (pending_subseteq _ _ st Hsub). case_decide as Hd; simplify_eq; [|lia].
    unfold pending in *. rewrite Hgone in *. rewrite Hx in *. lia.
  - pose proof (pending_subseteq _ _ st Heff). lia.
Qed.

Lemma handle_ok svc0 sys e session r :
  console_ok svc0 sys → session = ∅ ∨ session ∈ sys_cookies sys → sys_clock sys ≤ e_now e →
  console_ok svc0 (handle config sys e session r).
Proof.
  intros Hok Hsession Hclock. destruct Hok as [Hst Hprov Hstored Honce Hex Hcook].
  pose proof (entry_effects _ _ e session r Hst Hclock) as Heff.
  assert (Hsub := Heff). destruct Heff as (Hs1 & Hp1 & Heff).
  unfold handle. rewrite serve_service.
  split; cbn [sys_service sys_cookies sys_clock sys_log]; try done.
  - destruct Hprov as (? & ? & ?), Hp1 as (? & ? & ?). split_and!; congruence.
  - by eapply stored_after.
  - intros st. by eapply once_after.
  - intros en p code t [->|Hen]%elem_of_cons Hx.
    + fold (entry_of (sys_service sys) e session r) in *. rewrite Hx in Heff.
      destruct (begun _) as [[]|]; [done|].
      destruct Heff as (_ & state & x & t' & -> & Hc & Hp & _ & Hl & <- & Hexp & Hcon & Hid & Hs).
      pose proof (Hstored _ _ Hl) as [Hstate Hopen]. rewrite Hstate. split_and!; try done.
      * by rewrite <-(proj1 Hprov).
      * by exists t'.
      * exists (so_expiresAt x). split; [by apply opened_by_more|done].
    + destruct (Hex _ _ _ _ Hen Hx) as (? & ? & ? & ? & x & ? & ?). split_and!; try done.
      exists x. split; [by apply opened_by_more|done].
  - apply Forall_app. split.
    + apply serve_cookies. destruct Hsession as [->|Hin]; [apply session_good_empty|].
      rewrite Forall_forall in Hcook. by apply Hcook.
    + eapply Forall_impl; [exact Hcook|]. intros s. apply session_good_more.
Qed.

Lemma newService_store providers svc :
  newService (N := N) providers = Ok svc →
  sv_transactions svc = newOAuthTransactionStore oauthTransactionTTL oauthTransactionCapacity.
Proof.
  intros (svc' & Hr & [= <-])%bind_Ok. simpl. revert Hr.
  assert (∀ s, register s providers = Ok svc' → sv_transactions svc' = sv_transactions s) as Hreg;
    [|intros Hr; by rewrite (Hreg _ Hr)].
  induction providers as [|[p|] providers IH]; intros s; simpl; [by intros [= <-]| |done].
  case_decide; [done|]. destruct (sv_providers s !! ID p); [done|]. intros Hr. by rewrite (IH _ Hr).
Qed.

Lemma reachable_ok providers svc0 clock sys :
  newService providers = Ok svc0 → rtc (step config) (started svc0 clock) sys →
  console_ok svc0 sys.
Proof.
  intros Hnew Hrtc.
  assert (console_ok svc0 (started svc0 clock)) as H0.
  { pose proof (newService_store _ _ Hnew) as Hs.
    assert (Hnone : stored_in svc0 = ∅).
    { rewrite Hs. unfold contents. simpl. apply fmap_empty. }
    split; simpl; try done.
    - rewrite Hs. by apply store_new_ok.
    - rewrite Hnone. apply map_Forall_empty.
    - intros st. unfold pending. rewrite Hnone, lookup_empty. done.
    - by intros ???? ?%not_elem_of_nil. }
  revert H0. induction Hrtc as [|x y z [sys' e session r Hin Hle] _ IH]; [done|].
  intros Hx. apply IH. by apply handle_ok.
Qed.

(** C5: Nobody is logged in without credentials: however browsers call the
    console and whichever of its cookies they present, a session that
    identifies a principal carries one that an earlier request was granted,
    either by the configured user and password with password login enabled,
    or because a provider authenticated the code of a callback whose provider
    and state belong to a login this console opened less than ten minutes
    before, with that login's secret verifier and nonce. *)
Theorem logins_authentic providers svc0 clock sys session p
    (Hnew : newService providers = Ok svc0)
    (Hreach : rtc (step config) (started svc0 clock) sys)
    (Hsession : session ∈ sys_cookies sys) (Hp : PrincipalFromSession session = Ok p) :
  ∃ en p0 raw, en ∈ sys_log sys ∧ principal_Marshal p0 = Ok raw ∧ principal_Unmarshal raw = Ok p ∧
    pr_Subject p ≠ "" ∧
    ((∃ password, en_request en = RLogin (ac_User config) password ∧
        password = ac_Password config ∧ MethodPassword ∈ ac_Methods config ∧
        p0 = LocalPrincipal (ac_User config)) ∨
     (∃ q code t begin now,
        en_request en = RProviderCallback (ot_ProviderID t) (ot_State t) code ∧ code ≠ "" ∧
        sv_providers svc0 !! ot_ProviderID t = Some q ∧
        Authenticate q (e_net (en_env en)) code (ot_CodeVerifier t) (ot_Nonce t) = Ok p0 ∧
        begin ∈ sys_log sys ∧ begun begin = Some (t, now) ∧
        e_now (en_env en) < now + oauthTransactionTTL)).
Proof.
  pose proof (reachable_ok _ _ _ _ Hnew Hreach) as Hok.
  assert (Httl : ttl_of svc0 = oauthTransactionTTL) by by rewrite (newService_store _ _ Hnew).
  pose proof (co_cookies _ _ Hok) as Hc. rewrite Forall_forall in Hc.
  destruct (Hc _ Hsession) as [Hleg Hprin]. unfold PrincipalFromSession in Hp.
  destruct (session !! PrincipalSessionKey) as [v|] eqn:Hv; [|by rewrite Hleg in Hp].
  destruct (Hprin v eq_refl) as (raw & p0 & en & -> & Hen & Hg & Hm). simpl in Hp.
  apply bind_Ok in Hp as (p' & Hp'%failing_Ok & Hp). case_decide; simplify_eq.
  exists en, p0, raw. split_and!; try done. unfold granted in Hg.
  destruct (en_request en) as [user pw| | |id state code| | |] eqn:Hreq; try done.
  - destruct (decide _) as [(? & -> & ->)|]; simplify_eq. left. eauto.
  - destruct (exchanged en) as [[[q code'] t]|] eqn:Hx; [|done].
    destruct (Authenticate _ _ _ _ _) eqn:Ha; simplify_eq.
    destruct (co_exchanged _ _ Hok _ _ _ _ Hen Hx)
      as (? & ? & Hr & _ & expiry & (begin & now & ? & ? & ->) & ?).
    rewrite Hr in Hreq. simplify_eq. right. rewrite <-Httl. eauto 15.
Qed.

(** C28: A login transaction is used at most once: in every run, the number
    of callbacks that reached a provider with a given state never exceeds the
    number of logins opened with it, and each was presented with a cookie
    that refers to that provider and state, before the login expired. *)
Theorem transactions_used_once providers svc0 clock sys
    (Hnew : newService providers = Ok svc0)
    (Hreach : rtc (step config) (started svc0 clock) sys) :
  (∀ st, (used st (sys_log sys) ≤ opened st (sys_log sys))%nat) ∧
  (∀ en p code t, en ∈ sys_log sys → exchanged en = Some (p, code, t) →
     (∃ t', (ConsumeOAuthTransaction (en_session en)).2 = Ok t' ∧
        ot_ProviderID t' = ot_ProviderID t ∧ ot_State t' = ot_State t) ∧
     ∃ expiry, opened_by svc0 (sys_log sys) t expiry ∧ e_now (en_env en) < expiry).
Proof.
  pose proof (reachable_ok _ _ _ _ Hnew Hreach) as Hok. split.
  - intros st. pose proof (co_once _ _ Hok st). lia.
  - intros en p code t Hen Hx.
    by destruct (co_exchanged _ _ Hok _ _ _ _ Hen Hx) as (_ & _ & _ & ? & ?).
Qed.

(** ** A login from start to end *)
Context `{!SessionJSONLaws}.

Definition principal_text (p : Principal) : Prop :=
  json_text (pr_Subject p) ∧ json_text (pr_Username p) ∧ json_text (pr_Email p) ∧
  Forall json_text (pr_Groups p) ∧ Forall json_text (pr_Roles p) ∧
  json_text (pr_AuthType p) ∧ json_text (pr_Provider p).

Lemma PutPrincipal_read s p :
  principal_text p → pr_Subject p ≠ "" →
  ∃ s', PutPrincipal s p = Ok s' ∧ PrincipalFromSession s' = Ok p.
Proof.
  intros (? & ? & ? & ? & ? & ? & ?) Hsub.
  destruct (json_principal p) as (raw & Hm & Hu); [done..|].
  eexists. split; [unfold PutPrincipal; by rewrite Hm|]. unfold PrincipalFromSession.
  rewrite lookup_delete_ne, lookup_insert_eq by done. simpl. rewrite Hu. simpl.
  by rewrite decide_False.
Qed.

Lemma PutOAuthTransaction_read s t :
  json_text (ot_ProviderID t) → json_text (ot_State t) →
  ∃ s', PutOAuthTransaction s t = Ok s' ∧
    ConsumeOAuthTransaction s' = (delete OAuthTransactionSessionKey s', Ok (reference t)).
Proof.
  intros Hp Hs. destruct (json_transaction (reference t)) as (raw & Hm & Hu); [done..|].
  eexists. split; [unfold PutOAuthTransaction; by rewrite Hm|]. unfold ConsumeOAuthTransaction.
  rewrite lookup_insert_eq. simpl. by rewrite Hu.
Qed.

Lemma Begin_opens svc clock id (provider : Provider N) rand now t :
  store_ok (sv_transactions svc) clock → clock ≤ now →
  sv_providers svc !! id = Some provider → new_transaction provider id rand = Ok t →
  Z.of_nat (size (delete (ot_State t) (unexpired now (stored_in svc)))) < ts_capacity (sv_transactions svc) →
  ∃ svc', Begin svc id rand now = (svc', Ok (t, AuthorizationURL provider t)) ∧
    stored_in svc' !! ot_State t = Some {| so_transaction := t; so_expiresAt := now + ttl_of svc |}.
Proof.
  intros Hs Hle Hp Ht Hc. unfold Begin. rewrite Hp, Ht.
  pose proof (Put_refines _ _ t now Hs Hle) as HP. unfold spec_Put in HP.
  rewrite decide_False in HP by lia. destruct (Put _ _ _) as [ts r].
  destruct HP as (_ & Hts & -> & _ & _). eexists. split; [done|]. simpl. rewrite Hts.
  apply lookup_insert_eq.
Qed.

Lemma checks_pass svc clock id (provider : Provider N) code t x now :
  store_ok (sv_transactions svc) clock → clock ≤ now →
  sv_providers svc !! id = Some provider → stored_in svc !! ot_State t = Some x →
  so_transaction x = t → now < so_expiresAt x → ot_ProviderID t = id → code ≠ "" →
  ∃ svc', complete_checks svc id (ot_State t) code (reference t) now = (svc', Ok (provider, t)) ∧
    store_ok (sv_transactions svc') now ∧ same_providers svc svc' ∧
    stored_in svc' !! ot_State t = None.
Proof.
  intros Hs Hle Hp Hx Hxt Hexp Hid Hc. pose proof (checks_effect svc clock id (ot_State t) code (reference t) now Hs Hle) as HC.
  destruct (complete_checks _ _ _ _ _ _) as [svc' r] eqn:Hchk.
  destruct HC as (Hok & Hsame & _ & HC).
  assert (r = Ok (provider, t)) as ->.
  { unfold complete_checks in Hchk. simpl in Hchk. rewrite decide_False in Hchk by (rewrite Hid; auto).
    unfold ConstantTimeCompare in Hchk. rewrite bool_decide_eq_true_2 in Hchk by done. simpl in Hchk.
    pose proof (Consume_refines _ _ (ot_State t) now Hs Hle) as Hcon. unfold spec_Consume in Hcon.
    destruct (Consume _ _ _) as [ts found]. destruct Hcon as (_ & _ & Hf & _ & _).
    rewrite Hx in Hf. simpl in Hf. rewrite decide_True in Hf by done. subst found.
    rewrite Hxt, decide_False, Hp, decide_False in Hchk by (rewrite ?Hid; auto). by simplify_eq. }
  destruct (HC _ _ eq_refl) as (Hgone & _). exists svc'. by split_and!.
Qed.

Lemma checks_gone svc clock id code t now :
  store_ok (sv_transactions svc) clock → clock ≤ now → ot_ProviderID t = id →
  stored_in svc !! ot_State t = None →
  (complete_checks svc id (ot_State t) code (reference t) now).2 = Err ErrTransactionGone.
Proof.
  intros Hs Hle Hid Hn. unfold complete_checks. simpl. rewrite decide_False by (rewrite Hid; auto).
  unfold ConstantTimeCompare. rewrite bool_decide_eq_true_2 by done. simpl.
  pose proof (Consume_refines _ _ (ot_State t) now Hs Hle) as Hcon. unfold spec_Consume in Hcon.
  destruct (Consume _ _ _) as [ts found]. destruct Hcon as (_ & _ & Hf & _ & _).
  rewrite Hn in Hf. by subst found.
Qed.

(** A login completes: opening a login redirects the browser to the
    provider with a cookie, and presenting that cookie with the state and the
    provider's code before the login expires logs the authenticated principal
    in and redirects to the provider's landing page; presenting the same
    cookie, state and code again is refused, the transaction being gone. *)
Theorem login_completes svc clock id (provider : Provider N) session e1 e2 t code p
    (Hs : store_ok (sv_transactions svc) clock) (Hle : clock ≤ e_now e1)
    (Hp : sv_providers svc !! id = Some provider)
    (Ht : new_transaction provider id (e_rand e1) = Ok t)
    (Hc : Z.of_nat (size (delete (ot_State t) (unexpired (e_now e1) (stored_in svc)))) <
          ts_capacity (sv_transactions svc))
    (Hsave : ∀ s, e_save e1 s = None ∧ e_save e2 s = None)
    (Htext : json_text id ∧ json_text (ot_State t) ∧ principal_text p)
    (Htime : e_now e1 ≤ e_now e2 < e_now e1 + ttl_of svc)
    (Hcode : code ≠ "") (Hsub : pr_Subject p ≠ "")
    (Ha : Authenticate provider (e_net e2) code (ot_CodeVerifier t) (ot_Nonce t) = Ok p) :
  let r1 := serve config e1 svc session (RProviderLogin id) in
  rp_response r1 = Redirect 302 (AuthorizationURL provider t) ∧
  ∃ c1, rp_cookies r1 = [c1] ∧
    let callback e svc := serve config e svc c1 (RProviderCallback id (ot_State t) code) in
    let r2 := callback e2 (rp_service r1) in
    rp_response r2 = Redirect 302 (PostLoginRedirectURL provider) ∧
    (∃ c2 c3, rp_cookies r2 = [c2; c3] ∧ PrincipalFromSession c3 = Ok p) ∧
    ∀ e3, e_now e2 ≤ e_now e3 → (∀ s, e_save e3 s = None) →
      rp_response (callback e3 (rp_service r2)) = writeProviderError ErrTransactionGone.
Proof.
  destruct Htext as (Hj1 & Hj2 & Hj3). pose proof (new_transaction_provider _ _ _ _ Ht) as Hid.
  destruct (Begin_opens _ _ _ _ _ _ _ Hs Hle Hp Ht Hc) as (svc1 & HB & Hx).
  pose proof (Begin_effect _ _ id (e_rand e1) _ Hs Hle) as HE. rewrite HB in HE.
  destruct HE as (Hs1 & Hsame1 & _).
  destruct (PutOAuthTransaction_read session t) as (c1 & Hput & Hcon); [by rewrite Hid|done|].
  assert (Hr1 : serve config e1 svc session (RProviderLogin id) =
    {| rp_service := svc1; rp_cookies := [c1]; rp_response := Redirect 302 (AuthorizationURL provider t) |}).
  { simpl. unfold ProviderLogin. rewrite HB, Hput. unfold saving. by rewrite (proj1 (Hsave _)). }
  cbv zeta. rewrite Hr1. split; [done|]. exists c1. split; [done|]. cbn [rp_service].
  destruct (checks_pass svc1 (e_now e1) id provider code t
      {| so_transaction := t; so_expiresAt := e_now e1 + ttl_of svc |} (e_now e2) Hs1 (proj1 Htime)) as
    (svc2 & Hchk & Hs2 & Hsame2 & Hgone); [by rewrite (proj1 Hsame1)|exact Hx|done|simpl; lia|done..|].
  destruct (PutPrincipal_read (delete OAuthTransactionSessionKey c1) p Hj3 Hsub) as (c3 & Hput3 & Hread).
  assert (Hr2 : serve config e2 svc1 c1 (RProviderCallback id (ot_State t) code) =
    {| rp_service := svc2; rp_cookies := [delete OAuthTransactionSessionKey c1; c3];
       rp_response := Redirect 302 (PostLoginRedirectURL provider) |}).
  { cbn [serve]. unfold ProviderCallback. rewrite Hcon. unfold saving at 1. rewrite (proj2 (Hsave _)).
    unfold Complete. rewrite Hchk. simpl. rewrite Ha, Hput3. unfold saving. rewrite (proj2 (Hsave _)).
    unfold service_PostLoginRedirectURL. simpl.
    rewrite Hid, (proj1 Hsame2), (proj1 Hsame1), Hp. done. }
  rewrite Hr2. split; [done|]. split; [by eexists _, _|]. intros e3 Hle3 Hsave3.
  cbn [serve rp_service]. unfold ProviderCallback. rewrite Hcon. unfold saving at 1. rewrite Hsave3.
  unfold Complete. pose proof (checks_gone svc2 _ id code t _ Hs2 Hle3 Hid Hgone) as Hg.
  destruct (complete_checks svc2 _ _ _ _ _) as [svc3 r]. simpl in Hg. by subst r.
Qed.
End safety.

(** A concrete console: JSON by a reversible numbering, and one provider that
    answers with the same principal. *)
Module LoginExample.

Fixpoint digits (p : positive) : string :=
  match p with
  | xH => EmptyString
  | xO p => String "0"%char (digits p)
  | xI p => String "1"%char (digits p)
  end.
Fixpoint undigits (s : string) : positive :=
  match s with
  | EmptyString => xH
  | String c s => if decide (c = "0"%char) then xO (undigits s) else xI (undigits s)
  end.

Lemma undigits_digits p : undigits (digits p) = p.
Proof. induction p; simpl; by f_equal. Qed.

Definition write {A} `{Countable A} (a : A) : result error string := Ok (digits (encode a)).
Definition read {A} `{Countable A} (s : string) : result error A :=
  match decode (undigits s) with Some a => Ok a | None => Err (ErrorText "invalid JSON") end.

Lemma read_write {A} `{Countable A} (a : A) : ∃ raw, write a = Ok raw ∧ read raw = Ok a.
Proof. eexists. split; [done|]. unfold read. by rewrite undigits_digits, decode_encode. Qed.

#[local] Instance principal_countable : Countable Principal.
Proof.
  refine (inj_countable'
    (λ p, (pr_Subject p, pr_Username p, pr_Email p, pr_Groups p, pr_Roles p, pr_AuthType p, pr_Provider p))
    (λ '(a, b, c, d, e, f, g), {| pr_Subject := a; pr_Username := b; pr_Email := c; pr_Groups := d;
       pr_Roles := e; pr_AuthType := f; pr_Provider := g |}) _).
  abstract by intros [].
Defined.
#[local] Instance transaction_countable : Countable OAuthTransaction.
Proof.
  refine (inj_countable'
    (λ t, (ot_ProviderID t, ot_State t, ot_CodeVerifier t, ot_Nonce t))
    (λ '(a, b, c, d), {| ot_ProviderID := a; ot_State := b; ot_CodeVerifier := c; ot_Nonce := d |}) _).
  abstract by intros [].
Defined.

#[local] Instance json : SessionJSON := {
  principal_Marshal := write; principal_Unmarshal := read;
  transaction_Marshal := write; transaction_Unmarshal := read }.
#[local] Program Instance json_laws : SessionJSONLaws := { json_text _ := True }.
Next Obligation. intros. apply read_write. Qed.
Next Obligation. intros. apply read_write. Qed.

Definition alice : Principal :=
  {| pr_Subject := "corp:7"; pr_Username := "alice"; pr_Email := ""; pr_Groups := [];
     pr_Roles := []; pr_AuthType := "oidc"; pr_Provider := "corp" |}.

Definition corp : Provider unit := {|
  ID := "corp"; DisplayName := "Corp"; IconURL := ""; NeedsNonce := true;
  PostLoginRedirectURL := "/admin"; AuthorizationURL t := "https://corp/?state=" +:+ ot_State t;
  Authenticate _ code _ _ := if decide (code = "ok") then Ok alice else Err (ErrorText "denied") |}.

Definition config : auth_config :=
  {| ac_Methods := [MethodPassword]; ac_User := "admin"; ac_Password := "secret" |}.
Definition svc : Service unit :=
  match newService [Some corp] with
  | Ok s => s
  | Err _ => {| sv_providers := ∅; sv_public := []; sv_transactions := newOAuthTransactionStore 0 0 |}
  end.
Definition at_ (now : Z) : env unit :=
  {| e_now := now; e_rand i := Ok [Z.of_nat i; 7]; e_net := (); e_save _ := None |}.
Definition tx : OAuthTransaction :=
  {| ot_ProviderID := "corp"; ot_State := base64_EncodeToString [0; 7];
     ot_CodeVerifier := base64_EncodeToString [1; 7]; ot_Nonce := base64_EncodeToString [2; 7] |}.

Lemma svc_new : newService [Some corp] = Ok svc.
Proof. reflexivity. Qed.

Definition after_login : system :=
  handle config (started svc 0) (at_ 1) ∅ (RLogin "admin" "secret").

Lemma after_login_reachable : rtc (step config) (started svc 0) after_login.
Proof. apply rtc_once. constructor; [by left|done]. Qed.

Lemma logins_authentic_witness :
  ∃ session en p0 raw, session ∈ sys_cookies after_login ∧
    PrincipalFromSession session = Ok (LocalPrincipal "admin") ∧
    en ∈ sys_log after_login ∧ principal_Marshal p0 = Ok raw ∧
    principal_Unmarshal raw = Ok (LocalPrincipal "admin").
Proof.
  destruct (PutPrincipal_read ∅ (LocalPrincipal "admin")) as (session & Hput & Hread);
    [by split_and! | done |].
  assert (Hin : session ∈ sys_cookies after_login).
  { unfold after_login, handle. cbn [sys_cookies serve]. unfold Login.
    rewrite decide_False by (intros Hn; apply Hn; left).
    rewrite decide_False by (intros [?|?]; done). rewrite Hput. simpl. left. }
  destruct (logins_authentic config [Some corp] svc 0 after_login session (LocalPrincipal "admin")
    svc_new after_login_reachable Hin Hread) as (en & p0 & raw & ? & ? & ? & _).
  exists session, en, p0, raw. by split_and!.
Defined.

Definition after_begin : system :=
  handle config (started svc 0) (at_ 1) ∅ (RProviderLogin "corp").

Lemma transactions_used_once_witness :
  (used (ot_State tx) (sys_log after_begin) ≤ opened (ot_State tx) (sys_log after_begin))%nat ∧
  opened (ot_State tx) (sys_log after_begin) = 1%nat.
Proof.
  split; [|reflexivity].
  assert (Hr : rtc (step config) (started svc 0) after_begin).
  { apply rtc_once. constructor; [by left|done]. }
  exact (proj1 (transactions_used_once config [Some corp] svc 0 after_begin svc_new Hr) (ot_State tx)).
Defined.

Lemma login_completes_witness :
  rp_response (serve config (at_ 1) svc ∅ (RProviderLogin "corp")) =
    Redirect 302 ("https://corp/?state=" +:+ ot_State tx) ∧
  ∃ c1, rp_cookies (serve config (at_ 1) svc ∅ (RProviderLogin "corp")) = [c1] ∧
    rp_response (serve config (at_ 9) (rp_service (serve config (at_ 1) svc ∅ (RProviderLogin "corp")))
      c1 (RProviderCallback "corp" (ot_State tx) "ok")) = Redirect 302 "/admin".
Proof.
  assert (H1 : store_ok (sv_transactions svc) 0) by (apply store_new_ok; done).
  assert (H2 : Z.of_nat (size (delete (ot_State tx)
    (unexpired (e_now (at_ 1)) (contents (sv_transactions svc))))) <
    ts_capacity (sv_transactions svc)) by done.
  assert (H3 : ∀ s, e_save (at_ 1) s = None ∧ e_save (at_ 9) s = None) by done.
  assert (H4 : json_text "corp" ∧ json_text (ot_State tx) ∧ principal_text alice).
  { split_and!; try done; by apply Forall_nil. }
  assert (H5 : e_now (at_ 1) ≤ e_now (at_ 9) < e_now (at_ 1) + ts_ttl (sv_transactions svc)) by done.
  assert (H6 : 0 ≤ e_now (at_ 1)) by done.
  destruct (login_completes config svc 0 "corp" corp ∅ (at_ 1) (at_ 9) tx "ok" alice H1 H6
    eq_refl eq_refl H2 H3 H4 H5) as (Hr & c1 & Hc & Hr2 & _); [done..|].
  split; [exact Hr|]. exists c1. split; [exact Hc | exact Hr2].
Defined.

End LoginExample.
